(* ===== verification/_CoqProject ===== *)
-Q . S2P
Prelude.v
Datatypes.v
Codec.v
CodecFacts.v
CodecTheorems.v
CodecSafety.v
CodecCanonical.v
CodecProperties.v
Framing.v
Buffer.v
Noise.v
NoiseProperties.v
Transport.v
TransportFacts.v
Network.v
NetworkFacts.v
NetworkProperties.v
Messages.v
Parsers.v
ParsersProperties.v
Handlers.v
SetupConnection.v
Utf8.v
Ehash.v
Keyset.v
Quote.v
Hub.v
HubProperties.v
PoolQuotes.v
MintRole.v
QuoteFlow.v
RoleProperties.v
Mining.v
MiningProperties.v
Difficulty.v
Bitcoin.v
BitcoinModel.v
Jobs.v
JobFacts.v
Channels.v
ChannelProperties.v
StandardProperties.v
Vardiff.v
PoolStats.v
Downstream.v
DownstreamFacts.v
DownstreamProperties.v
ShareRewards.v
ClientChannels.v
Agreement.v
JobDeclarator.v
JobDeclaratorProperties.v
Sv1.v
Sv1Properties.v
Translation.v
Translator.v
TranslatorProperties.v
Sv1Miner.v
Sv1Client.v
Sv1Server.v
Sv1ServerProperties.v
Sv1Session.v
JdClient.v
JdClientFacts.v
JdClientProperties.v
JdClientDeclaration.v
Wallet.v
WalletProperties.v
BufferPool.v
BufferPoolFacts.v
BufferPoolProperties.v
Links.v
LinksProperties.v
Upstreams.v
UpstreamsProperties.v
PoolTasks.v
Bridge.v
Sha256d.v
Device.v
DeviceProperties.v
