(* ===== verification/Prelude.v ===== *)
(** * Hashpool: a verification library of its Rust code

    Hashpool is a mining pool that pays its miners in ehash: a share that meets
    the pool's difficulty becomes a quote at a Cashu mint, and the miner's
    wallet turns the paid quote into tokens.  The code base is the Stratum V2
    reference implementation ([src/protocols]) with the roles that run it
    ([src/roles]).  This library translates the protocol crates and the roles
    into executable definitions and proves what makes each of them, and their
    composition, correct.

    ** The program

    From the wire upwards:
    - [protocols/v2/binary-sv2] encodes message structs field by field;
      [framing-sv2] puts a six-byte header in front of a payload; [noise-sv2]
      and [codec-sv2] seal frames in chunks under a Noise NX session;
      [roles-utils/network-helpers] runs that over TCP segments.
    - [protocols/v2/subprotocols] and [parsers-sv2] name the messages of the
      mining, job declaration, template distribution and common protocols and
      dispatch them by type; [handlers-sv2] gives each role the trait whose
      methods receive them.
    - [channels-sv2] holds the jobs, targets and share checks of a mining
      channel, on the server's and on the client's side;
      [roles-logic-sv2] holds identifiers and variable difficulty.
    - [protocols/ehash] turns a share hash into an amount and builds the quote
      messages; [roles-utils/mint-pool-messaging] correlates requests and
      answers between pool and mint.
    - The roles: the [pool] serves miners and asks the [mint] for quotes; the
      [translator] lets V1 miners ([protocols/v1]) mine on a V2 channel and owns
      the wallet; [jd-server] and [jd-client] let miners choose the transactions
      of their blocks.

    A share travels miner -> [Sv1Miner] -> [Sv1Server] -> [Translator] (or
    [JdClient]) -> [Network] -> [Downstream] -> [Channels] -> [PoolQuotes] ->
    [Hub] -> [MintRole], and its quote back through [PoolQuotes] and
    [Translator] to [Wallet]; the files below follow that path.

    ** Files

    A file models the sources its own header names; [...Facts] files hold the
    lemmas and invariants of a component, [...Properties] files its theorems.

    - [Prelude]: outcomes of Rust code ([result] with [Panic]), machine
      integers ([fits], [wrap], [add_chk]), byte strings, the state-and-error
      monad [ST], the hint databases and tactics the other files share.
    - [Datatypes], [Codec], [CodecFacts], [CodecTheorems], [CodecSafety],
      [CodecCanonical], [CodecProperties]: [binary-sv2/codec].  Message structs
      are the types of a universe ([sv2_type], [sv2_value]), so one theorem
      covers every derived codec.
    - [Framing]: [framing-sv2].  [Buffer]: the [Buffer] trait as a class and
      [BufferFromSystemMemory] as its instance.
      [BufferPool], [BufferPoolFacts], [BufferPoolProperties]: the pool of
      [utils/buffer], whose slices are windows of one memory.
    - [Noise], [NoiseProperties]: [noise-sv2], over a class of cryptographic
      primitives with their documented laws.
    - [Transport], [TransportFacts]: [codec-sv2].  [Network], [NetworkFacts],
      [NetworkProperties]: [noise_stream.rs].
    - [Messages], [Parsers], [ParsersProperties], [SetupConnection]: the
      subprotocols and [parsers-sv2].  [Handlers]: [handlers-sv2], its traits
      as records of methods.
    - [Utf8], [Ehash], [Keyset], [Quote]:
      [protocols/ehash].
    - [Hub], [HubProperties]: [mint-pool-messaging].  [PoolQuotes], [MintRole],
      [QuoteFlow], [RoleProperties]: quoting in the pool and in the mint.
      [Bridge]: the connection between the two, with its tasks and theorems, and
      the table of channels of [mint-pool-messaging].
    - [Mining], [MiningProperties], [Difficulty]: targets, extranonces and hash
      rates (floating point as [SpecFloat]).
    - [Bitcoin], [BitcoinModel]: what the [bitcoin] package is relied on for,
      and an instance that satisfies it.  [Jobs], [JobFacts], [Channels],
      [ChannelProperties], [StandardProperties]: the server side of
      [channels-sv2].  [ClientChannels], [Agreement]: the client side, and its
      refinement by the server's.
    - [Vardiff], [PoolStats]: variable difficulty and share statistics.
    - [Downstream], [DownstreamFacts], [DownstreamProperties], [ShareRewards]:
      the pool's connections, every mining message included.  [PoolTasks]: its
      tasks, the listener, the connection to the template provider and the
      loop over the statuses, with their theorems.
    - [JobDeclarator], [JobDeclaratorProperties]: [jd-server].
    - [Sv1], [Sv1Properties]: [protocols/v1].  [Translation]: the messages
      between the two protocols.  [Translator], [TranslatorProperties]: the
      translator's channel manager.  [Sv1Miner], [Sv1Server],
      [Sv1ServerProperties]: its V1 side.  [Sv1Client], [Sv1Session]: the V1
      client handler, the CPU miner built on it, and its session with the
      translator.  [Upstreams], [UpstreamsProperties]: the translator's
      connections to pools and the supervisor that makes them.
    - [JdClient], [JdClientFacts], [JdClientProperties], [JdClientDeclaration]:
      [jd-client].  [Links], [LinksProperties]: its connections.
    - [Wallet], [WalletProperties]: the sweep of paid quotes and the faucet.
    - [Sha256d], [Device], [DeviceProperties]: the V2 mining device of
      [test-utils]: its hasher, workers and handlers, and its shares at the
      pool's channel.

    ** How code is modelled

    A struct is a record, an enum an inductive type, an integer a [Z] with its
    width written where it is read, converted or computed, a byte string
    a list of bytes.  A function that can fail or panic returns a [result]; a
    method with [&mut self] is a computation of [ST] on the state, which keeps
    what was written before an error or a panic.  What is sent on a queue is
    recorded in a list of the state, so that order and aliasing of messages are
    visible.  Where the outcome of arithmetic depends on the build,
    [overflow_checks] is an argument.  Time is an argument too.

    Code that is not in the repository (cryptography, [bitcoin], [cdk], serde,
    tokio's channels, hash map iteration) is a class of operations; the class of
    laws next to it states the documented behaviour the proofs use, and an
    instance of both is given where a theorem is applied.  The iteration order
    of a [HashMap] is any permutation of its entries.

    Recursion in the code is structural in the model except for the reading
    loops of [Network], the requests of [BufferPool] and the searches of
    [JdClient] and [Sv1]: those take fuel.  The delivery theorems of
    [NetworkProperties] give enough fuel (the number of segments and frames
    outstanding) and state the result it yields;
    [upstream_search_ends] bounds the turns of the search by the number of
    configured upstreams; [get_writable_turns] shows that three turns serve any
    request of the pool.

    ** What is proved

    - Wire format: encoding and decoding are inverse on every typed struct,
      what decoding makes of arbitrary bytes (a value, an error or a panic) is
      told exactly, a frame read from any segmentation of an encrypted stream is
      the frame that was written, and both ends of a handshake agree.  A pool
      of buffers keeps what was written and what is held while its use stays
      within a stated condition, and a history shows what happens beyond it.
    - Messages: every message that the parsers list survives the trip through a
      frame and reaches the method of its kind; no role refuses a reply to a
      request that its peer accepts.
    - Channels: a job's coinbase halves with an accepted share give a block the
      node can be sent, whatever the extranonce's length; client and server judge
      shares alike, except for a hash equal to the target;
      extranonce prefixes of a pool's channels are disjoint; targets follow hash
      rates within stated bounds.
    - Pool: a share on an open channel is answered as its validation says and
      earns exactly its quote; the connection's task panics for a share exactly
      when a block cannot be queued for the template provider.  In every interleaving of its tasks templates and block hashes are handled
      in the order in which the template provider sent them.
    - Quotes: the amount of a share, its request, the correlation of the answer,
      the poller and the notification, and the wallet's sweep, which settles the
      mint's ledger of unpaid amounts even when replies are lost; each request reaches at most one
      connection to the mint, in order.
    - Translator and job declaration: a forwarded share describes the same block
      to the pool as to the miner; declared jobs become blocks of exactly the
      declared transactions; the state of the client's upstream channel.
    - Connections: in every interleaving of its tasks a connection of the job
      declaration client or of the translator relays the frames of its protocol
      in order, gives each frame of the manager to at most one peer, and ends
      with its tasks; what its faults can lose is bounded.
    - Miners: the device's hasher is equivalent to the hash of the whole header;
      every share it sends is on the pool's work and is accepted unless the pool
      has seen it, a block being answered as a block; the V1 miner
      and the translator complete their handshake and agree on shares.
    - Sequences of events on which the code loses work or stops (a share that is
      dropped, a template that is never credited, a message that ends a
      manager) are theorems too, with the inputs that lead there.

    ** Not modelled

    Sockets, timers, configuration files, logging, databases,
    web pages and process start are I/O around the functions above.  The AEAD
    backends and key utilities only call packages.  The statistics services,
    the proxy and pool web front ends, the mint's database, benchmarks and fuzz
    targets have no rule the parts above depend on.  Handlers run one
    at a time in the model, as the mutex around each role's data makes them in
    the code; interleavings between roles are sequences of their steps.  The
    tasks of the connections ([Links], [Upstreams], [Bridge]) and of the pool
    ([PoolTasks]) interleave turn by turn: a turn is what a task does between
    two points at which it waits. *)

From stdpp Require Export base list gmap strings numbers.
From coqutil Require Export Byte Word.LittleEndianList.
From coqutil Require Z.BitOps.
From Stdlib Require Export Lia.

(** ** Notations and scopes *)

Declare Scope sv2_scope.
Delimit Scope sv2_scope with sv2.
#[global] Open Scope Z_scope.

Create HintDb sv2.
Create HintDb sv2_len.

(** ** Outcomes of Rust code

    A Rust function of type [Result<A, E>] either returns [Ok], returns
    [Err], or panics (slice index out of range, [unwrap] on [None],
    [unreachable!], arithmetic overflow).  [Panic] is a value of the model, so
    "never panics" is a statement about the translated function. *)

Inductive result (E A : Type) : Type :=
  | Ok (a : A)
  | Err (e : E)
  | Panic.
Arguments Ok {E A} a.
Arguments Err {E A} e.
Arguments Panic {E A}.

#[global] Instance result_eq_dec `{EqDecision E, EqDecision A} :
  EqDecision (result E A).
Proof. solve_decision. Defined.

#[global] Instance result_ret {E} : MRet (result E) := λ A a, Ok a.
#[global] Instance result_bind {E} : MBind (result E) := λ A B f m,
  match m with
  | Ok a => f a
  | Err e => Err e
  | Panic => Panic
  end.
#[global] Instance result_fmap {E} : FMap (result E) := λ A B f m,
  match m with
  | Ok a => Ok (f a)
  | Err e => Err e
  | Panic => Panic
  end.
Arguments result_bind {E} A B f !m /.
Arguments result_fmap {E} A B f !m /.

(** [map_err] of the Rust [Result] type. *)
Definition map_err {E F A} (f : E → F) (m : result E A) : result F A :=
  match m with
  | Ok a => Ok a
  | Err e => Err (f e)
  | Panic => Panic
  end.

(** [Option::ok_or]. *)
Definition ok_or {E A} (o : option A) (e : E) : result E A :=
  match o with Some a => Ok a | None => Err e end.

(** [Option::unwrap] and [expect]. *)
Definition unwrap {E A} (o : option A) : result E A :=
  match o with Some a => Ok a | None => Panic end.

(** [?] under a fold: the Rust idiom [for x in xs { out.push(f(x)?) }]. *)
Fixpoint mapR {E A B} (f : A → result E B) (l : list A) : result E (list B) :=
  match l with
  | [] => Ok []
  | x :: l => y ← f x; ys ← mapR f l; Ok (y :: ys)
  end.

Lemma bind_Ok {E A B} (m : result E A) (f : A → result E B) b :
  m ≫= f = Ok b ↔ ∃ a, m = Ok a ∧ f a = Ok b.
Proof. destruct m; cbn; naive_solver. Qed.

Lemma bind_Panic {E A B} (m : result E A) (f : A → result E B) :
  m ≫= f = Panic ↔ m = Panic ∨ ∃ a, m = Ok a ∧ f a = Panic.
Proof. destruct m; cbn; naive_solver. Qed.

Lemma bind_assoc {E A B C} (m : result E A) (f : A → result E B)
    (g : B → result E C) :
  (m ≫= f) ≫= g = m ≫= (λ a, f a ≫= g).
Proof. by destruct m. Qed.

Lemma bind_ret_r {E A} (m : result E A) : m ≫= mret = m.
Proof. by destruct m. Qed.

(** Rewriting below a bind: two continuations that agree pointwise give equal
    programs. *)
#[global] Instance result_bind_proper {E A B} :
  Proper (pointwise_relation A (=) ==> (=) ==> (=))
    (mbind (M := result E) (A := A) (B := B)).
Proof. intros f g Hfg m ? <-. destruct m; cbn; auto. Qed.

Lemma fmap_Ok {E A B} (f : A → B) (m : result E A) b :
  f <$> m = Ok b ↔ ∃ a, m = Ok a ∧ b = f a.
Proof. destruct m; cbn; naive_solver. Qed.

Lemma mapR_Ok_length {E A B} (f : A → result E B) l k :
  mapR f l = Ok k → length k = length l.
Proof.
  revert k. induction l as [|x l IH]; cbn; intros k H.
  - by inversion H.
  - apply bind_Ok in H as (y & _ & H). apply bind_Ok in H as (ys & H & Hk).
    inversion Hk; cbn. f_equal. auto.
Qed.

Lemma mapR_Ok_Forall2 {E A B} (f : A → result E B) l k :
  mapR f l = Ok k ↔ Forall2 (λ x y, f x = Ok y) l k.
Proof.
  revert k. induction l as [|x l IH]; cbn; intros k.
  - split; [by inversion 1 | by inversion 1].
  - rewrite bind_Ok. split.
    + intros (y & Hy & H). apply bind_Ok in H as (ys & H & Hk).
      inversion Hk; subst. constructor; [done | by apply IH].
    + inversion 1; subst. eexists; split; [done|].
      apply bind_Ok. eexists; split; [by apply IH | done].
Qed.

Lemma mapR_ext_Ok {E A B} (f : A → result E B) (g : A → B) l :
  Forall (λ x, f x = Ok (g x)) l → mapR f l = Ok (g <$> l).
Proof. induction 1 as [|x l Hx _ IH]; cbn; [done|]. by rewrite Hx, IH. Qed.

(** Peels every successful bind, map and lift of a hypothesis. *)
Ltac inv_res :=
  repeat match goal with
  | H : Ok _ = Ok _ |- _ => injection H as H; subst
  | H : Ok _ = Err _ |- _ => discriminate H
  | H : Ok _ = Panic |- _ => discriminate H
  | H : Err _ = Ok _ |- _ => discriminate H
  | H : Err _ = Panic |- _ => discriminate H
  | H : Panic = Ok _ |- _ => discriminate H
  | H : mret _ = Ok _ |- _ => injection H as H; subst
  | H : _ ≫= _ = Ok _ |- _ =>
      let a := fresh "a" in let H1 := fresh "H" in
      apply bind_Ok in H as (a & H1 & H)
  | H : _ <$> _ = Ok _ |- _ =>
      let a := fresh "a" in let H1 := fresh "H" in
      apply fmap_Ok in H as (a & H1 & H); subst
  | H : ?x = Ok _ |- context [?x ≫= _] => rewrite H; cbn [mbind result_bind]
  end.

(** ** State with errors

    A method that takes [&mut self] and returns a [Result]: the state is
    returned on every path, so what an early return leaves behind is visible. *)

Definition ST (S E A : Type) : Type := S → result E A * S.

#[global] Instance ST_ret {S E} : MRet (ST S E) := λ A a s, (Ok a, s).
#[global] Instance ST_bind {S E} : MBind (ST S E) := λ A B f m s,
  match m s with
  | (Ok a, s) => f a s
  | (Err e, s) => (Err e, s)
  | (Panic, s) => (Panic, s)
  end.

Definition gets {S E A} (f : S → A) : ST S E A := λ s, (Ok (f s), s).
Definition modify {S E} (f : S → S) : ST S E unit := λ s, (Ok tt, f s).
Definition lift {S E A} (r : result E A) : ST S E A := λ s, (r, s).
Definition throw {S E A} (e : E) : ST S E A := λ s, (Err e, s).
Definition panic {S E A} : ST S E A := λ s, (Panic, s).

(** A method of a field of the state. *)
Definition zoom {S T E A} (get : S → T) (put : T → S → S) (m : ST T E A) : ST S E A :=
  λ s, let '(r, t) := m (get s) in (r, put t s).
(** [map_err] under the state, the conversion [?] applies. *)
Definition st_map_err {S E F A} (f : E → F) (m : ST S E A) : ST S F A :=
  λ s, let '(r, s) := m s in (map_err f r, s).

Lemma st_bind_ok {S E A B} (m : ST S E A) (f : A → ST S E B) s a s' :
  m s = (Ok a, s') → (m ≫= f) s = f a s'.
Proof. intros H. unfold mbind, ST_bind. by rewrite H. Qed.
Lemma st_bind_err {S E A B} (m : ST S E A) (f : A → ST S E B) s e s' :
  m s = (Err e, s') → (m ≫= f) s = (Err e, s').
Proof. intros H. unfold mbind, ST_bind. by rewrite H. Qed.
Lemma st_gets_bind {S E A B} (g : S → A) (f : A → ST S E B) s :
  (gets g ≫= f) s = f (g s) s.
Proof. done. Qed.
Lemma st_modify_bind {S E B} (g : S → S) (f : unit → ST S E B) s :
  (modify g ≫= f) s = f tt (g s).
Proof. done. Qed.
Lemma st_lift_bind {S E A B} (a : A) (f : A → ST S E B) s :
  (lift (Ok a) ≫= f) s = f a s.
Proof. done. Qed.

Lemma st_zoom_bind {S T E A B} (get : S → T) put (m : ST T E A) (f : A → ST S E B) s a t :
  m (get s) = (Ok a, t) → (zoom get put m ≫= f) s = f a (put t s).
Proof. intros H. unfold mbind, ST_bind, zoom. by rewrite H. Qed.
Lemma st_zoom_modify_bind {S T E B} (get : S → T) put (g : T → T) (f : unit → ST S E B) s :
  (zoom get put (modify g) ≫= f) s = f tt (put (g (get s)) s).
Proof. done. Qed.
Lemma st_map_err_bind {S E F A B} (g : E → F) (m : ST S E A) (f : A → ST S F B) s a s' :
  m s = (Ok a, s') → (st_map_err g m ≫= f) s = f a s'.
Proof. intros H. unfold mbind, ST_bind, st_map_err. by rewrite H. Qed.
Lemma st_zoom_ok {S T E A} (get : S → T) put (m : ST T E A) s a t :
  m (get s) = (Ok a, t) → zoom get put m s = (Ok a, put t s).
Proof. intros H. unfold zoom. by rewrite H. Qed.

(** Case analysis on the boolean guards of the translated code, turning each
    into the proposition it decides. *)
(** Inversion of successful computations. *)
Lemma st_bind_Ok {S E A B} (m : ST S E A) (f : A → ST S E B) s b s' :
  (m ≫= f) s = (Ok b, s') → ∃ a s1, m s = (Ok a, s1) ∧ f a s1 = (Ok b, s').
Proof. unfold mbind, ST_bind. destruct (m s) as [[a|e|] s1]; [eauto|done|done]. Qed.
Lemma st_lift_Ok {S E A} (r : result E A) (s s' : S) a :
  lift r s = (Ok a, s') → r = Ok a ∧ s' = s.
Proof. unfold lift. by intros [= -> ->]. Qed.
Lemma st_gets_Ok {S E A} (f : S → A) (s s' : S) a :
  gets (E := E) f s = (Ok a, s') → a = f s ∧ s' = s.
Proof. unfold gets. by intros [= -> ->]. Qed.
Lemma st_modify_Ok {S E} (f : S → S) (s s' : S) a :
  modify (E := E) f s = (Ok a, s') → s' = f s.
Proof. unfold modify. by intros [= _ ->]. Qed.
Lemma st_map_err_Ok {S E F A} (g : E → F) (m : ST S E A) s a s' :
  st_map_err g m s = (Ok a, s') → m s = (Ok a, s').
Proof. unfold st_map_err, map_err. destruct (m s) as [[] ?]; congruence. Qed.
Lemma st_zoom_Ok {S T E A} (get : S → T) put (m : ST T E A) s a s' :
  zoom get put m s = (Ok a, s') → ∃ t, m (get s) = (Ok a, t) ∧ s' = put t s.
Proof. unfold zoom. destruct (m (get s)) as [r t]. intros [= -> <-]. eauto. Qed.
Lemma map_err_Ok {E F A} (f : E → F) (r : result E A) a : map_err f r = Ok a → r = Ok a.
Proof. destruct r; cbn; congruence. Qed.
Lemma ok_or_Ok {E A} (o : option A) (e : E) a : ok_or o e = Ok a → o = Some a.
Proof. destruct o; cbn; congruence. Qed.
Lemma unwrap_Ok {E A} (o : option A) a : unwrap (E := E) o = Ok a → o = Some a.
Proof. destruct o; cbn; congruence. Qed.
Ltac inv_st :=
  repeat match goal with
  | H : (_ ≫= _) _ = (Ok _, _) |- _ =>
      let a := fresh "a" in let s := fresh "s" in
      apply st_bind_Ok in H as (a & s & ? & H)
  | H : lift _ _ = (Ok _, _) |- _ => apply st_lift_Ok in H as [? ->]
  | H : gets _ _ = (Ok _, _) |- _ => apply st_gets_Ok in H as [-> ->]
  | H : modify _ _ = (Ok _, _) |- _ => apply st_modify_Ok in H; subst
  | H : st_map_err _ _ _ = (Ok _, _) |- _ => apply st_map_err_Ok in H
  | H : zoom _ _ _ _ = (Ok _, _) |- _ =>
      let t := fresh "t" in apply st_zoom_Ok in H as (t & H & ->)
  | H : mret _ _ = (Ok _, _) |- _ => injection H as <- <-
  | H : throw _ _ = (Ok _, _) |- _ => discriminate H
  | H : panic _ = (Ok _, _) |- _ => discriminate H
  | H : map_err _ _ = Ok _ |- _ => apply map_err_Ok in H
  | H : ok_or _ _ = Ok _ |- _ => apply ok_or_Ok in H
  | H : unwrap _ = Ok _ |- _ => apply unwrap_Ok in H
  end.

(** A [for] loop that collects what its turns give and stops at a failure. *)
Fixpoint for_each {S E A X} (f : A → ST S E (list X)) (l : list A) : ST S E (list X) :=
  match l with
  | [] => mret []
  | a :: l => xs ← f a; ys ← for_each f l; mret (xs ++ ys)
  end.

(** ** Invariants of stateful code *)

(** [m] keeps [I], whatever its outcome. *)
Definition keeps {S E A} (I : S → Prop) (m : ST S E A) : Prop := ∀ s, I s → I (m s).2.

Section keeps.
Context {S E : Type} (I : S → Prop).

Lemma keeps_ret {A} (a : A) : keeps (E := E) I (mret a).
Proof. by intros s. Qed.
Lemma keeps_gets {A} (f : S → A) : keeps (E := E) I (gets f).
Proof. by intros s. Qed.
Lemma keeps_lift {A} (r : result E A) : keeps I (lift r).
Proof. by intros s. Qed.
Lemma keeps_throw {A} (e : E) : keeps (A := A) I (throw e).
Proof. by intros s. Qed.
Lemma keeps_panic {A} : keeps (E := E) (A := A) I panic.
Proof. by intros s. Qed.
Lemma keeps_modify f : (∀ s, I s → I (f s)) → keeps (E := E) I (modify f).
Proof. by intros Hf s Hs; apply Hf. Qed.
Lemma keeps_bind {A B} (m : ST S E A) (f : A → ST S E B) :
  keeps I m → (∀ a, keeps I (f a)) → keeps I (m ≫= f).
Proof.
  intros Hm Hf s Hs. specialize (Hm s Hs). unfold mbind, ST_bind.
  destruct (m s) as [[a|e|] s']; [by apply Hf|done|done].
Qed.
(** With what is known of the value the first part returns. *)
Lemma keeps_bind_ok {A B} (Q : A → Prop) (m : ST S E A) (f : A → ST S E B) :
  keeps I m → (∀ s a s', I s → m s = (Ok a, s') → Q a) → (∀ a, Q a → keeps I (f a)) →
  keeps I (m ≫= f).
Proof.
  intros Hm HQ Hf s Hs. specialize (Hm s Hs). unfold mbind, ST_bind.
  destruct (m s) as [[a|e|] s'] eqn:Em; [by eapply Hf; eauto|done|done].
Qed.
Lemma keeps_map_err {E' A} (g : E → E') (m : ST S E A) : keeps I m → keeps I (st_map_err g m).
Proof. intros Hm s Hs. specialize (Hm s Hs). unfold st_map_err. by destruct (m s). Qed.
Lemma keeps_zoom {T A} (get : S → T) put (m : ST T E A) (J : T → Prop) :
  (∀ s, I s → J (get s)) → (∀ s t, I s → J t → I (put t s)) → keeps J m → keeps I (zoom get put m).
Proof.
  intros Hg Hp Hm s Hs. specialize (Hm (get s) (Hg s Hs)). unfold zoom.
  destruct (m (get s)) as [r t]. by apply Hp.
Qed.
Lemma keeps_for_each {A X} (f : A → ST S E (list X)) l :
  (∀ a, keeps I (f a)) → keeps I (for_each f l).
Proof.
  intros Hf. induction l as [|a l IH]; cbn [for_each]; [apply keeps_ret|].
  apply keeps_bind; [done|]. intros xs. apply keeps_bind; [done|]. intros ys. apply keeps_ret.
Qed.
End keeps.
Create HintDb keeps.
#[export] Hint Resolve keeps_ret keeps_gets keeps_lift keeps_throw keeps_panic keeps_for_each keeps_map_err : keeps.

(** Splits a handler into its steps; what a [modify] does is left. *)
Ltac keeps_step :=
  lazymatch goal with
  | |- keeps _ (mret _) => apply keeps_ret
  | |- keeps _ (gets _) => apply keeps_gets
  | |- keeps _ (lift _) => apply keeps_lift
  | |- keeps _ (throw _) => apply keeps_throw
  | |- keeps _ panic => apply keeps_panic
  | |- keeps _ (_ ≫= _) => apply keeps_bind; [|intros ?]
  | |- keeps _ (st_map_err _ _) => apply keeps_map_err
  | |- keeps _ (for_each _ _) => apply keeps_for_each; intros ?
  | |- keeps _ (let '_ := ?x in _) => destruct x
  | |- keeps _ (if ?b then _ else _) => destruct b
  | |- keeps _ (match ?x with _ => _ end) => destruct x
  | |- keeps _ (match ?x with _ => _ end _) => destruct x
  end.
Ltac keeps_all := repeat (cbn beta zeta; first [keeps_step | solve [eauto with keeps]]).

Ltac split_if :=
  match goal with
  | |- context [if ?b then _ else _] =>
      let E := fresh "E" in destruct b eqn:E
  | H : context [if ?b then _ else _] |- _ =>
      let E := fresh "E" in destruct b eqn:E
  end.

Ltac bool_props :=
  repeat match goal with
  | H : (_ <=? _) = true |- _ => apply Z.leb_le in H
  | H : (_ <=? _) = false |- _ => apply Z.leb_gt in H
  | H : (_ <? _) = true |- _ => apply Z.ltb_lt in H
  | H : (_ <? _) = false |- _ => apply Z.ltb_ge in H
  | H : (_ =? _) = true |- _ => apply Z.eqb_eq in H
  | H : (_ =? _) = false |- _ => apply Z.eqb_neq in H
  | H : (_ && _) = true |- _ => apply andb_true_iff in H as [? ?]
  | H : (_ && _) = false |- _ => apply andb_false_iff in H
  | H : (_ || _) = true |- _ => apply orb_true_iff in H
  | H : (_ || _) = false |- _ => apply orb_false_iff in H as [? ?]
  | H : negb _ = true |- _ => apply negb_true_iff in H
  | H : negb _ = false |- _ => apply negb_false_iff in H
  end.

(** ** Machine integers

    An unsigned [w]-bit Rust integer is a [Z] in [[0, 2^w)]; wrapping and
    checked operations are written out. *)

Definition fits (w z : Z) : Prop := 0 ≤ z < 2 ^ w.
Definition fitsb (w z : Z) : bool := (0 <=? z) && (z <? 2 ^ w).
Definition wrap (w z : Z) : Z := z `mod` 2 ^ w.

#[global] Instance fits_dec w z : Decision (fits w z).
Proof. unfold fits. apply _. Defined.

Lemma fitsb_spec w z : fitsb w z = true ↔ fits w z.
Proof. unfold fitsb, fits. rewrite andb_true_iff, Z.leb_le, Z.ltb_lt. done. Qed.

Lemma wrap_fits w z : 0 ≤ w → fits w (wrap w z).
Proof. intros. apply Z.mod_pos_bound. by apply Z.pow_pos_nonneg. Qed.

Lemma wrap_small w z : fits w z → wrap w z = z.
Proof. apply Z.mod_small. Qed.

#[export] Hint Resolve wrap_fits : sv2.

(** [a + b] on [w]-bit integers under overflow checks: panics on overflow. *)
Definition add_chk {E} (w a b : Z) : result E Z :=
  if a + b <? 2 ^ w then Ok (a + b) else Panic.
(** [a - b] on unsigned integers under overflow checks. *)
Definition sub_chk {E} (a b : Z) : result E Z :=
  if b <=? a then Ok (a - b) else Panic.
(** [a.saturating_sub(b)], [a.saturating_add(b)]. *)
Definition saturating_sub (a b : Z) : Z := Z.max 0 (a - b).
Definition saturating_add (w a b : Z) : Z := Z.min (2 ^ w - 1) (a + b).

(** ** Byte slices

    [usize] values are [Z]; a slice is a list of bytes. *)

Notation bytes := (list Byte.byte).

#[global] Instance byte_eq_dec : EqDecision Byte.byte.
Proof. intros a b. exact (Byte.byte_eq_dec a b). Defined.
#[global] Instance byte_countable : Countable Byte.byte.
Proof.
  apply (inj_countable' byte.unsigned byte.of_Z). intros b. apply byte.of_Z_unsigned.
Defined.

Section Slices.
Context {A : Type}.
Implicit Types l : list A.

Definition zlen l : Z := Z.of_nat (length l).
Definition ztake (n : Z) l : list A := take (Z.to_nat n) l.
Definition zdrop (n : Z) l : list A := drop (Z.to_nat n) l.
Definition zget (n : Z) l : option A :=
  if 0 <=? n then l !! Z.to_nat n else None.

(** [&data[offset..]]: panics when the offset is past the end. *)
Definition slice_from {E} l (offset : Z) : result E (list A) :=
  if (0 <=? offset) && (offset <=? zlen l) then Ok (zdrop offset l) else Panic.

(** [&data[a..b]]. *)
Definition slice_range {E} l (a b : Z) : result E (list A) :=
  if (0 <=? a) && (a <=? b) && (b <=? zlen l)
  then Ok (ztake (b - a) (zdrop a l)) else Panic.

(** [data.split_at_mut(n)]. *)
Definition split_at {E} l (n : Z) : result E (list A * list A) :=
  if (0 <=? n) && (n <=? zlen l) then Ok (ztake n l, zdrop n l) else Panic.

(** [dst[off..off + src.len()].copy_from_slice(src)] on a destination that
    is long enough. *)
Definition overwrite l (off : Z) (src : list A) : list A :=
  ztake off l ++ src ++ zdrop (off + zlen src) l.

Lemma zlen_nonneg l : 0 ≤ zlen l.
Proof. unfold zlen. lia. Qed.
Lemma zlen_nil : zlen [] = 0.
Proof. done. Qed.
Lemma zlen_cons x l : zlen (x :: l) = 1 + zlen l.
Proof. unfold zlen. cbn [length]. lia. Qed.
Lemma zlen_app l k : zlen (l ++ k) = zlen l + zlen k.
Proof. unfold zlen. rewrite length_app. lia. Qed.
Lemma zlen_take n l : 0 ≤ n ≤ zlen l → zlen (ztake n l) = n.
Proof. unfold zlen, ztake. rewrite length_take. lia. Qed.
Lemma zlen_drop n l : 0 ≤ n ≤ zlen l → zlen (zdrop n l) = zlen l - n.
Proof. unfold zlen, zdrop. rewrite length_drop. lia. Qed.
Lemma ztake_zdrop n l : ztake n l ++ zdrop n l = l.
Proof. apply take_drop. Qed.
Lemma ztake_app l k n : n = zlen l → ztake n (l ++ k) = l.
Proof. intros ->. unfold ztake, zlen. rewrite Nat2Z.id. apply take_app_length. Qed.
Lemma zdrop_app l k n : n = zlen l → zdrop n (l ++ k) = k.
Proof. intros ->. unfold zdrop, zlen. rewrite Nat2Z.id. apply drop_app_length. Qed.
Lemma ztake_app_le l k n : n ≤ zlen l → ztake n (l ++ k) = ztake n l.
Proof. unfold ztake, zlen. intros. apply take_app_le. lia. Qed.
Lemma zdrop_app_le l k n : n ≤ zlen l → zdrop n (l ++ k) = zdrop n l ++ k.
Proof. unfold zdrop, zlen. intros. apply drop_app_le. lia. Qed.
Lemma ztake_0 l : ztake 0 l = [].
Proof. done. Qed.
Lemma zdrop_0 l : zdrop 0 l = l.
Proof. done. Qed.
Lemma ztake_ge n l : zlen l ≤ n → ztake n l = l.
Proof. unfold ztake, zlen. intros. apply take_ge. lia. Qed.
Lemma zdrop_ge n l : zlen l ≤ n → zdrop n l = [].
Proof. unfold zdrop, zlen. intros. apply drop_ge. lia. Qed.
Lemma zdrop_zdrop a b l : 0 ≤ a → 0 ≤ b → zdrop a (zdrop b l) = zdrop (b + a) l.
Proof. unfold zdrop. intros. rewrite drop_drop. f_equal. lia. Qed.
Lemma ztake_ztake a b l : a ≤ b → ztake a (ztake b l) = ztake a l.
Proof. unfold ztake. intros. rewrite take_take. f_equal. lia. Qed.
Lemma zdrop_ztake a b l : 0 ≤ a → 0 ≤ b → zdrop a (ztake (a + b) l) = ztake b (zdrop a l).
Proof.
  unfold ztake, zdrop. intros. rewrite Z2Nat.inj_add by lia.
  by rewrite skipn_firstn_comm, Nat.add_comm, Nat.add_sub.
Qed.

Lemma slice_from_ok {E} l o :
  0 ≤ o ≤ zlen l → slice_from (E := E) l o = Ok (zdrop o l).
Proof.
  intros. unfold slice_from.
  by rewrite (proj2 (Z.leb_le 0 o)), (proj2 (Z.leb_le o (zlen l))) by lia.
Qed.
Lemma slice_from_panic {E} l o : zlen l < o → slice_from (E := E) l o = Panic.
Proof.
  intros. unfold slice_from.
  rewrite (proj2 (Z.leb_gt o (zlen l))) by lia. by rewrite andb_false_r.
Qed.
Lemma slice_from_Ok {E} l o k :
  slice_from (E := E) l o = Ok k → 0 ≤ o ≤ zlen l ∧ k = zdrop o l.
Proof. unfold slice_from. intros. split_if; [|done]. bool_props. by inv_res. Qed.
Lemma slice_from_not_Err {E} l o (e : E) : slice_from l o ≠ Err e.
Proof. unfold slice_from. split_if; discriminate. Qed.
Lemma split_at_ok {E} l n :
  0 ≤ n ≤ zlen l → split_at (E := E) l n = Ok (ztake n l, zdrop n l).
Proof.
  intros. unfold split_at.
  by rewrite (proj2 (Z.leb_le 0 n)), (proj2 (Z.leb_le n (zlen l))) by lia.
Qed.
Lemma overwrite_length l off src :
  0 ≤ off → off + zlen src ≤ zlen l → zlen (overwrite l off src) = zlen l.
Proof.
  intros. unfold overwrite. pose proof (zlen_nonneg src).
  rewrite !zlen_app, zlen_take, zlen_drop by lia. lia.
Qed.
Lemma overwrite_app pre mid post src :
  zlen src = zlen mid →
  overwrite (pre ++ mid ++ post) (zlen pre) src = pre ++ src ++ post.
Proof.
  intros H. unfold overwrite. rewrite ztake_app by done.
  by rewrite (app_assoc pre mid), zdrop_app by (rewrite zlen_app; lia).
Qed.
Lemma split_by_length l n m :
  zlen l = n + m → 0 ≤ n → 0 ≤ m →
  ∃ a b, l = a ++ b ∧ zlen a = n ∧ zlen b = m.
Proof.
  intros. exists (ztake n l), (zdrop n l).
  rewrite ztake_zdrop, zlen_take, zlen_drop by lia. repeat split; lia.
Qed.
Lemma slice_range_prefix {E} a b n :
  n = zlen a → slice_range (E := E) (a ++ b) 0 n = Ok a.
Proof.
  intros ->. unfold slice_range. rewrite zlen_app.
  pose proof (zlen_nonneg a). pose proof (zlen_nonneg b).
  rewrite !(proj2 (Z.leb_le _ _)) by lia. cbn [andb].
  by rewrite zdrop_0, Z.sub_0_r, ztake_app.
Qed.
End Slices.

(** [Vec::pop]: the last element and the vector without it. *)
Definition vec_pop {A} (l : list A) : option (A * list A) :=
  match reverse l with
  | [] => None
  | x :: r => Some (x, reverse r)
  end.
Lemma vec_pop_snoc {A} (l : list A) x : vec_pop (l ++ [x]) = Some (x, l).
Proof. unfold vec_pop. rewrite reverse_snoc. by rewrite reverse_involutive. Qed.
Lemma vec_pop_Some {A} (l k : list A) x : vec_pop l = Some (x, k) → l = k ++ [x].
Proof.
  unfold vec_pop. destruct (reverse l) as [|y r] eqn:E; [done|].
  intros H. simplify_eq. by rewrite <- reverse_cons, <- E, reverse_involutive.
Qed.

(** Turns successful slicing hypotheses into their bounds and results. *)
Ltac inv_slice :=
  repeat match goal with
  | H : slice_from _ _ = Ok _ |- _ => apply slice_from_Ok in H as [? ->]
  end.

Lemma zlen_replicate {A} n (x : A) : zlen (replicate n x) = Z.of_nat n.
Proof. unfold zlen. by rewrite length_replicate. Qed.
Lemma zlen_fmap {A B} (f : A → B) l : zlen (f <$> l) = zlen l.
Proof. unfold zlen. by rewrite length_fmap. Qed.

#[export] Hint Rewrite @zlen_app @zlen_cons @zlen_nil @zlen_replicate @zlen_fmap
  : sv2_len.
#[export] Hint Resolve zlen_nonneg : sv2.

(** Normalises lengths of concatenations, then calls [lia]. *)
Ltac len_solve :=
  repeat match goal with
  | H : context [zlen _] |- _ => progress autorewrite with sv2_len in H
  end;
  autorewrite with sv2_len;
  repeat match goal with
  | |- context [zlen ?l] =>
      lazymatch goal with
      | _ : 0 ≤ zlen l |- _ => fail
      | _ => pose proof (zlen_nonneg l)
      end
  | _ : context [zlen ?l] |- _ =>
      lazymatch goal with
      | _ : 0 ≤ zlen l |- _ => fail
      | _ => pose proof (zlen_nonneg l)
      end
  end; lia.

Lemma slice_range_mid {E A} (a b c : list A) i j :
  i = zlen a → j = zlen a + zlen b → slice_range (E := E) (a ++ b ++ c) i j = Ok b.
Proof.
  intros -> ->. unfold slice_range. autorewrite with sv2_len.
  pose proof (zlen_nonneg a). pose proof (zlen_nonneg b). pose proof (zlen_nonneg c).
  rewrite !(proj2 (Z.leb_le _ _)) by lia. cbn [andb].
  by rewrite zdrop_app, ztake_app by lia.
Qed.

Lemma slice_range_ok {E A} (l : list A) i j :
  0 ≤ i → i ≤ j → j ≤ zlen l →
  slice_range (E := E) l i j = Ok (ztake (j - i) (zdrop i l)).
Proof. intros. unfold slice_range. by rewrite !(proj2 (Z.leb_le _ _)) by lia. Qed.

(** A window of a slice as the slice's own bytes. *)
Lemma zlen_window {A} (l : list A) i n :
  0 ≤ i → 0 ≤ n → i + n ≤ zlen l → zlen (ztake n (zdrop i l)) = n.
Proof. intros. rewrite zlen_take; [done|]. rewrite zlen_drop; lia. Qed.

(** ** Little and big endian *)

(** [uN::to_le_bytes] and [uN::from_le_bytes] for an [n]-byte integer. *)
Definition to_le_bytes (n : nat) (z : Z) : bytes := le_split n z.
Definition from_le_bytes (l : bytes) : Z := le_combine l.
(** [uN::to_be_bytes] and [uN::from_be_bytes]. *)
Definition to_be_bytes (n : nat) (z : Z) : bytes := reverse (le_split n z).
Definition from_be_bytes (l : bytes) : Z := le_combine (reverse l).

Lemma to_le_bytes_length n z : length (to_le_bytes n z) = n.
Proof. apply length_le_split. Qed.
Lemma to_le_bytes_zlen n z : zlen (to_le_bytes n z) = Z.of_nat n.
Proof. unfold zlen. by rewrite to_le_bytes_length. Qed.
Lemma from_to_le_bytes n z :
  fits (8 * Z.of_nat n) z → from_le_bytes (to_le_bytes n z) = z.
Proof.
  intros. unfold from_le_bytes, to_le_bytes. rewrite le_combine_split.
  rewrite Z.mul_comm. by apply Z.mod_small.
Qed.
Lemma to_from_le_bytes l : to_le_bytes (length l) (from_le_bytes l) = l.
Proof. apply split_le_combine. Qed.
Lemma to_from_le_bytes_n n l :
  zlen l = Z.of_nat n → to_le_bytes n (from_le_bytes l) = l.
Proof. unfold zlen. intros H. apply Nat2Z.inj in H. rewrite <- H. apply to_from_le_bytes. Qed.
Lemma from_le_bytes_fits l : fits (8 * zlen l) (from_le_bytes l).
Proof. apply le_combine_bound. Qed.
Lemma take_to_le_bytes k n z :
  (k ≤ n)%nat → take k (to_le_bytes n z) = to_le_bytes k z.
Proof.
  intros Hkn. replace n with (k + (n - k))%nat by lia. clear Hkn.
  generalize (n - k)%nat as m. revert z.
  induction k as [|k IH]; intros z m; [done|].
  unfold to_le_bytes, le_split in *. cbn -[Z.shiftr]. f_equal. apply IH.
Qed.
Lemma to_be_bytes_length n z : length (to_be_bytes n z) = n.
Proof. unfold to_be_bytes. by rewrite length_reverse, length_le_split. Qed.
Lemma from_to_be_bytes n z :
  fits (8 * Z.of_nat n) z → from_be_bytes (to_be_bytes n z) = z.
Proof.
  intros. unfold from_be_bytes, to_be_bytes. rewrite reverse_involutive.
  by apply from_to_le_bytes.
Qed.
Lemma to_from_be_bytes l : to_be_bytes (length l) (from_be_bytes l) = l.
Proof.
  unfold from_be_bytes, to_be_bytes. rewrite <- (length_reverse l).
  rewrite split_le_combine. apply reverse_involutive.
Qed.

#[export] Hint Rewrite to_le_bytes_zlen : sv2_len.

(** ** Byte strings as numbers *)

Lemma lor_low_high a b k : 0 ≤ k → 0 ≤ a < 2 ^ k → Z.lor a (Z.shiftl b k) = a + b * 2 ^ k.
Proof.
  intros Hk Ha. rewrite BitOps.or_to_plus; [by rewrite Z.shiftl_mul_pow2|].
  apply Z.bits_inj_0. intros i. rewrite Z.land_spec.
  destruct (Z.neg_nonneg_cases i) as [?|Hi]; [by rewrite Z.testbit_neg_r|].
  destruct (Z.lt_ge_cases i k).
  - rewrite (Z.shiftl_spec_low b) by done. apply andb_false_r.
  - rewrite <- (Z.mod_small a (2 ^ k)), Z.mod_pow2_bits_high by lia. done.
Qed.
Lemma from_be_bytes_range l : 0 ≤ from_be_bytes l < 2 ^ (8 * zlen l).
Proof.
  unfold from_be_bytes. pose proof (le_combine_bound (reverse l)) as H.
  rewrite length_reverse in H. exact H.
Qed.
Lemma from_be_bytes_cons b l :
  from_be_bytes (b :: l) = byte.unsigned b * 2 ^ (8 * zlen l) + from_be_bytes l.
Proof.
  pose proof (from_be_bytes_range l) as Hr. unfold from_be_bytes in *.
  rewrite reverse_cons, le_combine_app, length_reverse, le_combine_1.
  replace (Z.of_nat (length l) * 8) with (8 * zlen l) by (unfold zlen; lia).
  pose proof (zlen_nonneg l). rewrite lor_low_high; lia.
Qed.
Lemma from_le_bytes_app l k :
  from_le_bytes (l ++ k) = from_le_bytes l + 2 ^ (8 * zlen l) * from_le_bytes k.
Proof.
  pose proof (zlen_nonneg l). pose proof (from_le_bytes_fits l) as Hl.
  unfold from_le_bytes, fits in *. rewrite le_combine_app.
  replace (Z.of_nat (length l) * 8) with (8 * zlen l) by (unfold zlen; lia).
  rewrite lor_low_high; lia.
Qed.
Lemma from_le_bytes_single b : from_le_bytes [b] = byte.unsigned b.
Proof. apply le_combine_1. Qed.
Lemma from_le_bytes_inj l k : zlen l = zlen k → from_le_bytes l = from_le_bytes k → l = k.
Proof.
  intros Hl He. rewrite <- (to_from_le_bytes l), <- (to_from_le_bytes k), He.
  f_equal. unfold zlen in Hl. lia.
Qed.

(** ** Text

    A Rust [String] is the list of its UTF-8 bytes. *)

Definition text (s : string) : bytes := String.list_byte_of_string s.

(** [to_string] of an unsigned number; ten digits are enough for a [u32]. *)
Fixpoint decimal_loop (fuel : nat) (n : Z) (acc : bytes) : bytes :=
  match fuel with
  | O => acc
  | S fuel =>
      let acc := byte.of_Z (48 + n mod 10) :: acc in
      if n <? 10 then acc else decimal_loop fuel (n / 10) acc
  end.
Definition decimal (n : Z) : bytes := decimal_loop 11 n [].

(** [str::parse] at an unsigned type of [w] bits: an optional plus sign, then
    digits, without overflow. *)
Definition digit_of (b : Byte.byte) : option Z :=
  let v := byte.unsigned b in if (48 <=? v) && (v <=? 57) then Some (v - 48) else None.
Fixpoint parse_digits (w acc : Z) (l : bytes) : option Z :=
  match l with
  | [] => Some acc
  | b :: l =>
      d ← digit_of b;
      if acc * 10 + d <? 2 ^ w then parse_digits w (acc * 10 + d) l else None
  end.
Definition parse_unsigned (w : Z) (l : bytes) : option Z :=
  match l with
  | [] => None
  | b :: l' =>
      if byte.unsigned b =? 43 then match l' with [] => None | _ => parse_digits w 0 l' end
      else parse_digits w 0 l
  end.

Lemma unsigned_digit d : 0 ≤ d < 10 → byte.unsigned (byte.of_Z (48 + d)) = 48 + d.
Proof. intros Hd. rewrite byte.unsigned_of_Z. apply Z.mod_small. lia. Qed.
Lemma digit_of_digit d : 0 ≤ d < 10 → digit_of (byte.of_Z (48 + d)) = Some d.
Proof.
  intros Hd. unfold digit_of. rewrite unsigned_digit by done.
  rewrite (proj2 (Z.leb_le 48 _)), (proj2 (Z.leb_le _ 57)) by lia. cbn. f_equal. lia.
Qed.
Lemma parse_digits_loop fuel w n acc :
  0 ≤ n < 10 ^ Z.of_nat fuel → n < 2 ^ w → parse_digits w 0 (decimal_loop fuel n acc) = parse_digits w n acc.
Proof.
  revert n acc. induction fuel as [|fuel IH]; intros n acc Hn Hw.
  { assert (n = 0) as -> by (cbn in Hn; lia). done. }
  rewrite Nat2Z.inj_succ, Z.pow_succ_r in Hn by lia. cbn [decimal_loop].
  pose proof (Z.mod_pos_bound n 10 ltac:(lia)). pose proof (Z.div_mod n 10 ltac:(lia)).
  destruct (Z.ltb_spec n 10).
  - rewrite Z.mod_small in * by lia. cbn [parse_digits]. rewrite digit_of_digit by lia. cbn.
    by rewrite (proj2 (Z.ltb_lt _ _)).
  - rewrite IH; [|split; [apply Z.div_pos|apply Z.div_lt_upper_bound]; lia|lia].
    cbn [parse_digits]. rewrite digit_of_digit by lia. cbn [mbind option_bind].
    replace (n / 10 * 10 + n mod 10) with n by lia. by rewrite (proj2 (Z.ltb_lt _ _)).
Qed.
Lemma decimal_loop_head fuel n acc :
  ∃ d l, decimal_loop (S fuel) n acc = byte.of_Z (48 + d) :: l ∧ 0 ≤ d < 10.
Proof.
  revert n acc. induction fuel as [|fuel IH]; intros n acc;
    [|destruct (IH (n / 10) (byte.of_Z (48 + n mod 10) :: acc)) as (d & l & E & Hd)];
    cbn [decimal_loop]; destruct (n <? 10);
    try (do 2 eexists; split; [reflexivity|apply Z.mod_pos_bound; lia]). eauto.
Qed.
Lemma parse_decimal n : fits 32 n → parse_unsigned 32 (decimal n) = Some n.
Proof.
  intros Hn. unfold fits in Hn. destruct (decimal_loop_head 10 n []) as (d & l & E & Hd).
  assert (Hp : parse_digits 32 0 (decimal n) = Some n) by (unfold decimal; rewrite parse_digits_loop; [done|lia..]).
  unfold decimal in *. rewrite E in *. unfold parse_unsigned. rewrite unsigned_digit by done.
  by rewrite (proj2 (Z.eqb_neq _ _)) by lia.
Qed.
