(* ===== verification/Datatypes.v ===== *)
(** * SV2 data types: the primitive wire types of [binary_codec_sv2]

    Models protocols/v2/binary-sv2/codec/src/datatypes: the error type, the
    fixed-width integers and [bool] (copy_data_types.rs), the const-generic
    byte container [Inner] (inner.rs) with its aliases [U256], [Signature],
    [B032], [B0255], [B064K], [B016M], [U32AsRef] (mod.rs), and the
    [Sv2DataType] interface over the fourteen primitive types. *)

From S2P Require Import Prelude.

(** ** Errors of the codec crate *)

Inductive Error : Type :=
  | OutOfBound
  | NotABool (b : Z)
  | WriteError (a b : Z)
  | U24TooBig (v : Z)
  | InvalidSignatureSize (n : Z)
  | InvalidU256 (n : Z)
  | InvalidU24 (v : Z)
  | InvalidB0255Size (n : Z)
  | InvalidB064KSize (n : Z)
  | InvalidB016MSize (n : Z)
  | InvalidSeq0255Size (n : Z)
  | NonPrimitiveTypeCannotBeEncoded
  | PrimitiveConversionError
  | DecodableConversionError
  | UnInitializedDecoder
  | IoError
  | ReadError (a b : Z)
  | VoidFieldMarker
  | ValueExceedsMaxSize (isfixed : bool) (size headersize maxsize : Z)
      (value : bytes) (len : Z)
  | SeqExceedsMaxSize
  | NoDecodableFieldPassed
  | ValueIsNotAValidProtocol (b : Z)
  | UnknownMessageType (b : Z)
  | Sv2OptionHaveMoreThenOneElement (b : Z).

#[global] Instance Error_eq_dec : EqDecision Error.
Proof. solve_decision. Defined.

(** ** Readers

    [std::io::Read] over an in-memory cursor: [read_exact] either yields
    exactly the bytes asked for and the rest of the stream, or fails with
    [UnexpectedEof], which [From<std::io::Error>] turns into [OutOfBound]. *)
Definition read_exact (n : Z) (rd : bytes) : result Error (bytes * bytes) :=
  if n <=? zlen rd then Ok (ztake n rd, zdrop n rd) else Err OutOfBound.

(** ** Copy types *)

Module CopyTypes.

(** [bool::from_bytes_unchecked]: only the low bit of the first byte is
    looked at. *)
Definition bool_from_bytes_unchecked (data : bytes) : result Error bool :=
  match data with
  | [] => Panic
  | x :: _ =>
      let x := wrap 8 (Z.shiftl (byte.unsigned x) 7) in
      let x := Z.shiftr x 7 in
      if x =? 0 then Ok false else if x =? 1 then Ok true else Panic
  end.

Definition bool_to_slice_unchecked (v : bool) (dst : bytes) : result Error bytes :=
  match dst with
  | [] => Panic
  | _ :: rest => Ok (byte.of_Z (if v then 1 else 0) :: rest)
  end.

(** The macro [impl_sv2_for_unsigned!] at a type of [n] bytes, [n] one of 1,
    2, 4, 8 ([u8], [u16], [u32], [u64], and [f32] as its bit pattern). *)
Definition unsigned_from_bytes_unchecked (n : nat) (data : bytes) : result Error Z :=
  a ← slice_range data 0 (Z.of_nat n);
  Ok (from_le_bytes a).

Definition unsigned_to_slice_unchecked (n : nat) (v : Z) (dst : bytes)
    : result Error bytes :=
  _ ← slice_range dst 0 (Z.of_nat n);
  Ok (overwrite dst 0 (to_le_bytes n v)).

(** [U24::from_le_bytes]: a [u32] whose top byte is zero. *)
Definition U24_from_le_bytes (b : bytes) : Z :=
  from_le_bytes (b ++ [byte.of_Z 0]).
Definition U24_to_le_bytes (v : Z) : bytes := take 3 (to_le_bytes 4 v).

Definition U24_from_bytes_unchecked (data : bytes) : result Error Z :=
  a ← slice_range data 0 3;
  Ok (U24_from_le_bytes a).
Definition U24_to_slice_unchecked (v : Z) (dst : bytes) : result Error bytes :=
  _ ← slice_range dst 0 3;
  Ok (overwrite dst 0 (U24_to_le_bytes v)).

(** [TryFrom<u32> for U24]. *)
Definition U24_try_from (value : Z) : result Error Z :=
  if value <=? 16777215 then Ok value else Err (InvalidU24 value).
End CopyTypes.

(** ** The byte container [Inner] *)

Inductive Inner : Type :=
  | Ref (data : bytes)
  | Owned (data : bytes).

Definition inner_as_ref (i : Inner) : bytes :=
  match i with Ref d => d | Owned d => d end.

(** [PartialEq for Inner]: equality of the data, whoever owns it. *)
Definition inner_eq (a b : Inner) : bool :=
  bool_decide (inner_as_ref a = inner_as_ref b).

(** [into_static], [into_owned] and [clone]: the data becomes owned. *)
Definition into_static (i : Inner) : Inner :=
  match i with Ref d => Owned d | Owned d => Owned d end.

(** The const generics of the type. *)
Record inner_params : Type := InnerParams {
  ISFIXED : bool;
  SIZE : Z;
  HEADERSIZE : Z;
  MAXSIZE : Z
}.

Module InnerOps.
Section InnerOps.
Context (P : inner_params).

Definition expected_length_fixed : Z := SIZE P.

Definition expected_length_variable (data : bytes) : result Error Z :=
  if HEADERSIZE P <=? zlen data then
    size ←
      (if HEADERSIZE P =? 1 then Ok (from_le_bytes (ztake 1 data))
       else if HEADERSIZE P =? 2 then Ok (from_le_bytes (ztake 2 data))
       else if HEADERSIZE P =? 3 then
         Ok (from_le_bytes (ztake 3 data ++ [byte.of_Z 0]))
       else Panic);
    Ok (size + HEADERSIZE P)
  else Err (ReadError (zlen data) (HEADERSIZE P)).

Definition expected_length (data : bytes) : result Error Z :=
  expected_length ←
    (if ISFIXED P then Ok expected_length_fixed
     else expected_length_variable data);
  if ISFIXED P || (expected_length <=? MAXSIZE P + HEADERSIZE P)
  then Ok expected_length
  else Err (ReadError (zlen data) (MAXSIZE P)).

Definition expected_length_for_reader (rd : bytes) : result Error (Z * bytes) :=
  if ISFIXED P then Ok (SIZE P, rd)
  else
    '(header, rd) ← read_exact (HEADERSIZE P) rd;
    expected_length ←
      (if HEADERSIZE P =? 1 then Ok (from_le_bytes (ztake 1 header))
       else if HEADERSIZE P =? 2 then Ok (from_le_bytes (ztake 2 header))
       else if HEADERSIZE P =? 3 then
         Ok (from_le_bytes (ztake 3 header ++ [byte.of_Z 0]))
       else Panic);
    if expected_length <=? MAXSIZE P + HEADERSIZE P
    then Ok (expected_length, rd)
    else Err (ReadError expected_length (MAXSIZE P)).

Definition len (i : Inner) : Z :=
  if ISFIXED P then 1 else zlen (inner_as_ref i).

(** [len.to_le_bytes()] on a 64-bit [usize]. *)
Definition get_header (i : Inner) : bytes :=
  if HEADERSIZE P =? 0 then [] else to_le_bytes 8 (len i).

Definition exceeds (value : bytes) : Error :=
  ValueExceedsMaxSize (ISFIXED P) (SIZE P) (HEADERSIZE P) (MAXSIZE P)
    value (zlen value).

(** [TryFrom<&mut [u8]>] (the data stays borrowed). *)
Definition try_from_slice (value : bytes) : result Error Inner :=
  if ISFIXED P && (zlen value =? SIZE P) then Ok (Ref value)
  else if ISFIXED P then Err (exceeds value)
  else if zlen value <=? MAXSIZE P then Ok (Ref value)
  else Err (exceeds value).

(** [TryFrom<Vec<u8>>] (the data is owned). *)
Definition try_from_vec (value : bytes) : result Error Inner :=
  if ISFIXED P && (zlen value =? SIZE P) then Ok (Owned value)
  else if ISFIXED P then Err (exceeds value)
  else if zlen value <=? MAXSIZE P then Ok (Owned value)
  else Err (exceeds value).

Definition get_size (i : Inner) : Z :=
  match i with
  | Ref data => zlen data + HEADERSIZE P
  | Owned data => zlen data + HEADERSIZE P
  end.

Definition size_hint (data : bytes) (offset : Z) : result Error Z :=
  if zlen data <=? offset then Err (ReadError (zlen data) offset)
  else
    rest ← slice_from data offset;
    expected_length rest.

Definition from_bytes_unchecked (data : bytes) : result Error Inner :=
  if ISFIXED P then Ok (Ref data)
  else
    d ← slice_from data (HEADERSIZE P);
    Ok (Ref d).

Definition from_vec_ (data : bytes) : result Error Inner :=
  _ ← size_hint data 0;
  Ok (Owned data).

Definition from_reader_ (rd : bytes) : result Error (Inner * bytes) :=
  '(size, rd) ← expected_length_for_reader rd;
  '(dst, rd) ← read_exact size rd;
  Ok (Owned dst, rd).

Definition to_slice_unchecked (i : Inner) (dst : bytes) : result Error bytes :=
  let size := get_size i in
  let header := get_header i in
  h ← slice_range header 0 (HEADERSIZE P);
  _ ← slice_range dst 0 (HEADERSIZE P);
  let dst := overwrite dst 0 h in
  _ ← slice_range dst 0 size;
  Ok (overwrite dst (HEADERSIZE P) (inner_as_ref i)).

(** [to_writer_]: the bytes handed to the writer. *)
Definition to_writer_ (i : Inner) : bytes :=
  match i with
  | Ref data => data
  | Owned data => data
  end.
End InnerOps.
End InnerOps.

(** The type aliases of non_copy_data_types/mod.rs. *)
Definition U32AsRef_params : inner_params := InnerParams true 4 0 0.
Definition U256_params : inner_params := InnerParams true 32 0 0.
Definition Signature_params : inner_params := InnerParams true 64 0 0.
Definition B032_params : inner_params := InnerParams false 1 1 32.
Definition B0255_params : inner_params := InnerParams false 1 1 255.
Definition B064K_params : inner_params := InnerParams false 1 2 65535.
Definition B016M_params : inner_params := InnerParams false 1 3 (2 ^ 24 - 1).

(** ** The fourteen primitive types *)

Inductive PrimitiveMarker : Type :=
  | MU8 | MU16 | MBool | MU24 | MU256 | MSignature | MU32 | MU32AsRef | MF32
  | MU64 | MB032 | MB0255 | MB064K | MB016M.

#[global] Instance PrimitiveMarker_eq_dec : EqDecision PrimitiveMarker.
Proof. solve_decision. Defined.

(** [DecodablePrimitive]: a decoded value under the tag of its type.  A value
    of a primitive Rust type is represented by its tagged form throughout. *)
Inductive DecodablePrimitive : Type :=
  | DU8 (v : Z)
  | DU16 (v : Z)
  | DBool (v : bool)
  | DU24 (v : Z)
  | DU256 (v : Inner)
  | DSignature (v : Inner)
  | DU32 (v : Z)
  | DU32AsRef (v : Inner)
  | DF32 (bits : Z)
  | DU64 (v : Z)
  | DB032 (v : Inner)
  | DB0255 (v : Inner)
  | DB064K (v : Inner)
  | DB016M (v : Inner).

(** The marker of the Rust type a value has. *)
Definition marker_of (p : DecodablePrimitive) : PrimitiveMarker :=
  match p with
  | DU8 _ => MU8 | DU16 _ => MU16 | DBool _ => MBool | DU24 _ => MU24
  | DU256 _ => MU256 | DSignature _ => MSignature | DU32 _ => MU32
  | DU32AsRef _ => MU32AsRef | DF32 _ => MF32 | DU64 _ => MU64
  | DB032 _ => MB032 | DB0255 _ => MB0255 | DB064K _ => MB064K
  | DB016M _ => MB016M
  end.

(** The [Fixed::SIZE] of the copy types; the other types are [Inner]s. *)
Definition fixed_size (m : PrimitiveMarker) : option nat :=
  match m with
  | MBool => Some 1%nat
  | MU8 => Some 1%nat
  | MU16 => Some 2%nat
  | MU32 => Some 4%nat
  | MU64 => Some 8%nat
  | MF32 => Some 4%nat
  | MU24 => Some 3%nat
  | _ => None
  end.

(** The const generics of an [Inner]-based type. *)
Definition params_of (m : PrimitiveMarker) : inner_params :=
  match m with
  | MU256 => U256_params
  | MSignature => Signature_params
  | MU32AsRef => U32AsRef_params
  | MB032 => B032_params
  | MB0255 => B0255_params
  | MB064K => B064K_params
  | _ => B016M_params
  end.

(** [SizeHint::size_hint_] of [PrimitiveMarker]: the blanket instance for
    [Fixed] types returns the constant and never looks at the data. *)
Definition prim_size_hint (m : PrimitiveMarker) (data : bytes) (offset : Z)
    : result Error Z :=
  match fixed_size m with
  | Some n => Ok (Z.of_nat n)
  | None => InnerOps.size_hint (params_of m) data offset
  end.

(** [PrimitiveMarker::decode]: [from_bytes_unchecked] on [&mut data[offset..]]. *)
Definition prim_decode (m : PrimitiveMarker) (data : bytes) (offset : Z)
    : result Error DecodablePrimitive :=
  d ← slice_from data offset;
  match m with
  | MU8 => DU8 <$> CopyTypes.unsigned_from_bytes_unchecked 1 d
  | MU16 => DU16 <$> CopyTypes.unsigned_from_bytes_unchecked 2 d
  | MBool => DBool <$> CopyTypes.bool_from_bytes_unchecked d
  | MU24 => DU24 <$> CopyTypes.U24_from_bytes_unchecked d
  | MU256 => DU256 <$> InnerOps.from_bytes_unchecked U256_params d
  | MSignature => DSignature <$> InnerOps.from_bytes_unchecked Signature_params d
  | MU32 => DU32 <$> CopyTypes.unsigned_from_bytes_unchecked 4 d
  | MU32AsRef => DU32AsRef <$> InnerOps.from_bytes_unchecked U32AsRef_params d
  | MF32 => DF32 <$> CopyTypes.unsigned_from_bytes_unchecked 4 d
  | MU64 => DU64 <$> CopyTypes.unsigned_from_bytes_unchecked 8 d
  | MB032 => DB032 <$> InnerOps.from_bytes_unchecked B032_params d
  | MB0255 => DB0255 <$> InnerOps.from_bytes_unchecked B0255_params d
  | MB064K => DB064K <$> InnerOps.from_bytes_unchecked B064K_params d
  | MB016M => DB016M <$> InnerOps.from_bytes_unchecked B016M_params d
  end.

(** [from_reader_] of the copy types: read [SIZE] bytes, then decode them. *)
Definition fixed_from_reader {A} (n : nat) (dec : bytes → result Error A)
    (rd : bytes) : result Error (A * bytes) :=
  '(dst, rd) ← read_exact (Z.of_nat n) rd;
  v ← dec dst;
  Ok (v, rd).

(** [PrimitiveMarker::from_reader]. *)
Definition prim_from_reader (m : PrimitiveMarker) (rd : bytes)
    : result Error (DecodablePrimitive * bytes) :=
  let tag {A} (c : A → DecodablePrimitive) (r : result Error (A * bytes)) :=
    '(v, rd) ← r; Ok (c v, rd) in
  let uint n := fixed_from_reader n (CopyTypes.unsigned_from_bytes_unchecked n) rd in
  match m with
  | MU8 => tag DU8 (uint 1%nat)
  | MU16 => tag DU16 (uint 2%nat)
  | MBool => tag DBool (fixed_from_reader 1 CopyTypes.bool_from_bytes_unchecked rd)
  | MU24 => tag DU24 (fixed_from_reader 3 CopyTypes.U24_from_bytes_unchecked rd)
  | MU256 => tag DU256 (InnerOps.from_reader_ U256_params rd)
  | MSignature => tag DSignature (InnerOps.from_reader_ Signature_params rd)
  | MU32 => tag DU32 (uint 4%nat)
  | MU32AsRef => tag DU32AsRef (InnerOps.from_reader_ U32AsRef_params rd)
  | MF32 => tag DF32 (uint 4%nat)
  | MU64 => tag DU64 (uint 8%nat)
  | MB032 => tag DB032 (InnerOps.from_reader_ B032_params rd)
  | MB0255 => tag DB0255 (InnerOps.from_reader_ B0255_params rd)
  | MB064K => tag DB064K (InnerOps.from_reader_ B064K_params rd)
  | MB016M => tag DB016M (InnerOps.from_reader_ B016M_params rd)
  end.

(** [EncodablePrimitive]: what the encoder accepts; sequences put their length
    in front as [OwnedU8] bytes. *)
Inductive EncodablePrimitive : Type :=
  | EP (p : DecodablePrimitive)
  | OwnedU8 (v : Z).

(** [GetSize for EncodablePrimitive]. *)
Definition dprim_get_size (p : DecodablePrimitive) : Z :=
  match p with
  | DU8 _ => 1 | DU16 _ => 2 | DBool _ => 1 | DU24 _ => 3 | DU32 _ => 4
  | DF32 _ => 4 | DU64 _ => 8
  | DU256 v => InnerOps.get_size U256_params v
  | DSignature v => InnerOps.get_size Signature_params v
  | DU32AsRef v => InnerOps.get_size U32AsRef_params v
  | DB032 v => InnerOps.get_size B032_params v
  | DB0255 v => InnerOps.get_size B0255_params v
  | DB064K v => InnerOps.get_size B064K_params v
  | DB016M v => InnerOps.get_size B016M_params v
  end.

Definition eprim_get_size (p : EncodablePrimitive) : Z :=
  match p with EP p => dprim_get_size p | OwnedU8 _ => 1 end.

Definition to_slice_unchecked (p : DecodablePrimitive) (dst : bytes)
    : result Error bytes :=
  match p with
  | DU8 v => CopyTypes.unsigned_to_slice_unchecked 1 v dst
  | DU16 v => CopyTypes.unsigned_to_slice_unchecked 2 v dst
  | DBool v => CopyTypes.bool_to_slice_unchecked v dst
  | DU24 v => CopyTypes.U24_to_slice_unchecked v dst
  | DU32 v => CopyTypes.unsigned_to_slice_unchecked 4 v dst
  | DF32 v => CopyTypes.unsigned_to_slice_unchecked 4 v dst
  | DU64 v => CopyTypes.unsigned_to_slice_unchecked 8 v dst
  | DU256 v => InnerOps.to_slice_unchecked U256_params v dst
  | DSignature v => InnerOps.to_slice_unchecked Signature_params v dst
  | DU32AsRef v => InnerOps.to_slice_unchecked U32AsRef_params v dst
  | DB032 v => InnerOps.to_slice_unchecked B032_params v dst
  | DB0255 v => InnerOps.to_slice_unchecked B0255_params v dst
  | DB064K v => InnerOps.to_slice_unchecked B064K_params v dst
  | DB016M v => InnerOps.to_slice_unchecked B016M_params v dst
  end.

(** [Sv2DataType::to_slice]: the bytes written and the destination after. *)
Definition to_slice (size : Z) (write : bytes → result Error bytes) (dst : bytes)
    : result Error Z * bytes :=
  if size <=? zlen dst then
    match write dst with
    | Ok dst' => (Ok size, dst')
    | Err e => (Err e, dst)
    | Panic => (Panic, dst)
    end
  else (Err (WriteError size (zlen dst)), dst).

(** [EncodablePrimitive::encode]. *)
Definition eprim_encode (p : EncodablePrimitive) (dst : bytes)
    : result Error Z * bytes :=
  match p with
  | EP p => to_slice (dprim_get_size p) (to_slice_unchecked p) dst
  | OwnedU8 v => to_slice 1 (CopyTypes.unsigned_to_slice_unchecked 1 v) dst
  end.

(** [EncodablePrimitive::write]: the bytes handed to the writer. *)
Definition eprim_write (p : EncodablePrimitive) : bytes :=
  match p with
  | OwnedU8 v => to_le_bytes 1 v
  | EP p =>
      match p with
      | DU8 v => to_le_bytes 1 v
      | DU16 v => to_le_bytes 2 v
      | DBool v => [byte.of_Z (if v then 1 else 0)]
      | DU24 v => CopyTypes.U24_to_le_bytes v
      | DU32 v => to_le_bytes 4 v
      | DF32 v => to_le_bytes 4 v
      | DU64 v => to_le_bytes 8 v
      | DU256 v | DSignature v | DU32AsRef v | DB032 v | DB0255 v | DB064K v
      | DB016M v => InnerOps.to_writer_ v
      end
  end.

(** ** Specification of the wire format

    [prim_bytes p] is the encoding the protocol assigns to a value, stated
    without buffers, offsets or headers-as-[usize]; [prim_typed] says that a
    value satisfies the size constraints of its Rust type. *)

Definition inner_typed (P : inner_params) (i : Inner) : Prop :=
  if ISFIXED P then zlen (inner_as_ref i) = SIZE P
  else zlen (inner_as_ref i) ≤ MAXSIZE P.

Definition prim_typed (p : DecodablePrimitive) : Prop :=
  match p with
  | DU8 v => fits 8 v | DU16 v => fits 16 v | DBool _ => True | DU24 v => fits 24 v
  | DU32 v => fits 32 v | DF32 v => fits 32 v | DU64 v => fits 64 v
  | DU256 v => inner_typed U256_params v
  | DSignature v => inner_typed Signature_params v
  | DU32AsRef v => inner_typed U32AsRef_params v
  | DB032 v => inner_typed B032_params v
  | DB0255 v => inner_typed B0255_params v
  | DB064K v => inner_typed B064K_params v
  | DB016M v => inner_typed B016M_params v
  end.

#[global] Instance prim_typed_dec p : Decision (prim_typed p).
Proof. destruct p; cbn; unfold inner_typed; cbn; apply _. Defined.

Definition inner_bytes (P : inner_params) (i : Inner) : bytes :=
  to_le_bytes (Z.to_nat (HEADERSIZE P)) (zlen (inner_as_ref i)) ++ inner_as_ref i.

Definition prim_bytes (p : DecodablePrimitive) : bytes :=
  match p with
  | DU8 v => to_le_bytes 1 v | DU16 v => to_le_bytes 2 v
  | DBool v => [byte.of_Z (if v then 1 else 0)]
  | DU24 v => to_le_bytes 3 v
  | DU32 v => to_le_bytes 4 v | DF32 v => to_le_bytes 4 v | DU64 v => to_le_bytes 8 v
  | DU256 v => inner_bytes U256_params v
  | DSignature v => inner_bytes Signature_params v
  | DU32AsRef v => inner_bytes U32AsRef_params v
  | DB032 v => inner_bytes B032_params v
  | DB0255 v => inner_bytes B0255_params v
  | DB064K v => inner_bytes B064K_params v
  | DB016M v => inner_bytes B016M_params v
  end.

(** The borrowed form of a value: what decoding a slice produces. *)
Definition inner_ref (i : Inner) : Inner := Ref (inner_as_ref i).
Definition prim_map (f : Inner → Inner) (p : DecodablePrimitive) : DecodablePrimitive :=
  match p with
  | DU256 v => DU256 (f v) | DSignature v => DSignature (f v)
  | DU32AsRef v => DU32AsRef (f v) | DB032 v => DB032 (f v)
  | DB0255 v => DB0255 (f v) | DB064K v => DB064K (f v) | DB016M v => DB016M (f v)
  | _ => p
  end.
Definition prim_ref : DecodablePrimitive → DecodablePrimitive := prim_map inner_ref.

(** Rust's [==]: an equivalence coarser than equality, which forgets who owns
    the bytes. *)
#[global] Instance Inner_equiv : Equiv Inner := λ a b, inner_eq a b = true.
#[global] Instance prim_equiv : Equiv DecodablePrimitive := λ a b, prim_ref a = prim_ref b.

#[global] Instance Inner_equivalence : Equivalence (≡@{Inner}).
Proof.
  unfold equiv, Inner_equiv, inner_eq.
  split; repeat intro; rewrite ?bool_decide_eq_true in *; congruence.
Qed.
#[global] Instance prim_equivalence : Equivalence (≡@{DecodablePrimitive}).
Proof. unfold equiv, prim_equiv. split; repeat intro; congruence. Qed.
#[global] Instance inner_as_ref_proper : Proper ((≡) ==> (=)) inner_as_ref.
Proof. intros a b H. by apply bool_decide_eq_true in H. Qed.
#[global] Instance inner_bytes_proper P : Proper ((≡) ==> (=)) (inner_bytes P).
Proof. intros a b H. unfold inner_bytes. by rewrite (inner_as_ref_proper _ _ H). Qed.

Lemma inner_ref_equiv i : inner_ref i ≡ i.
Proof. by apply bool_decide_eq_true. Qed.
Lemma into_static_equiv i : into_static i ≡ i.
Proof. destruct i; by apply bool_decide_eq_true. Qed.
Lemma prim_ref_equiv p : prim_ref p ≡ p.
Proof. by destruct p. Qed.
Lemma prim_ref_bytes p : prim_bytes (prim_ref p) = prim_bytes p.
Proof. by destruct p. Qed.
Lemma marker_of_ref p : marker_of (prim_ref p) = marker_of p.
Proof. by destruct p. Qed.
Lemma prim_ref_typed p : prim_typed (prim_ref p) ↔ prim_typed p.
Proof. by destruct p. Qed.

(** The parameter sets that occur: a fixed type has no header, a variable type
    a header wide enough for its maximum. *)
Definition params_ok (P : inner_params) : Prop :=
  if ISFIXED P then HEADERSIZE P = 0 ∧ 0 < SIZE P
  else 1 ≤ HEADERSIZE P ≤ 3 ∧ 0 ≤ MAXSIZE P < 2 ^ (8 * HEADERSIZE P).

Lemma params_of_ok m : params_ok (params_of m).
Proof. destruct m; cbn; lia. Qed.
#[export] Hint Resolve params_of_ok : sv2.

Module InnerFacts.
Section InnerFacts.
Context (P : inner_params) (HP : params_ok P).

Lemma header_nonneg : 0 ≤ HEADERSIZE P.
Proof using HP. unfold params_ok in HP. destruct (ISFIXED P); lia. Qed.

Lemma zlen_inner_bytes i : zlen (inner_bytes P i) = InnerOps.get_size P i.
Proof using HP.
  pose proof header_nonneg. unfold inner_bytes. destruct i; cbn;
  rewrite zlen_app, to_le_bytes_zlen; lia.
Qed.

Lemma inner_bytes_pos i : inner_typed P i → 0 < zlen (inner_bytes P i).
Proof using HP.
  intros Ht. rewrite zlen_inner_bytes. unfold params_ok, inner_typed in *.
  pose proof (zlen_nonneg (inner_as_ref i)).
  destruct i; cbn in *; destruct (ISFIXED P); lia.
Qed.

Lemma typed_fits i :
  inner_typed P i → ISFIXED P = false →
  fits (8 * Z.of_nat (Z.to_nat (HEADERSIZE P))) (zlen (inner_as_ref i)).
Proof using HP.
  unfold inner_typed, params_ok, fits in *. intros Ht Hf. rewrite Hf in *.
  rewrite Z2Nat.id by lia. pose proof (zlen_nonneg (inner_as_ref i)). lia.
Qed.

Lemma from_le_bytes_snoc0 l : from_le_bytes (l ++ [byte.of_Z 0]) = from_le_bytes l.
Proof using. apply (le_combine_snoc_0 l). Qed.

(** The header of an encoding announces the length of the whole encoding. *)
Lemma expected_length_spec i rest :
  inner_typed P i →
  InnerOps.expected_length P (inner_bytes P i ++ rest) = Ok (zlen (inner_bytes P i)).
Proof using HP.
  intros Ht. rewrite zlen_inner_bytes. unfold InnerOps.expected_length.
  pose proof (zlen_nonneg (inner_as_ref i)). pose proof (zlen_nonneg rest).
  destruct (ISFIXED P) eqn:Hf; cbn.
  - unfold params_ok, inner_typed in *. rewrite Hf in *.
    unfold InnerOps.expected_length_fixed. destruct i; cbn in *; f_equal; lia.
  - pose proof (typed_fits i Ht Hf) as Hfit.
    assert (Hlen : zlen (inner_bytes P i) = zlen (inner_as_ref i) + HEADERSIZE P).
    { rewrite zlen_inner_bytes. by destruct i. }
    unfold params_ok, inner_typed in HP, Ht. rewrite Hf in HP, Ht.
    unfold InnerOps.expected_length_variable.
    rewrite (proj2 (Z.leb_le _ _)) by (rewrite zlen_app; lia).
    assert (Hhd : ztake (HEADERSIZE P) (inner_bytes P i ++ rest) =
      to_le_bytes (Z.to_nat (HEADERSIZE P)) (zlen (inner_as_ref i))).
    { unfold inner_bytes. rewrite <- app_assoc. apply ztake_app.
      rewrite to_le_bytes_zlen. lia. }
    assert (Hsz : (if HEADERSIZE P =? 1
        then Ok (from_le_bytes (ztake 1 (inner_bytes P i ++ rest)))
        else if HEADERSIZE P =? 2
        then Ok (from_le_bytes (ztake 2 (inner_bytes P i ++ rest)))
        else if HEADERSIZE P =? 3
        then Ok (from_le_bytes (ztake 3 (inner_bytes P i ++ rest) ++ [byte.of_Z 0]))
        else Panic) = Ok (E := Error) (zlen (inner_as_ref i))).
    { rewrite from_le_bytes_snoc0.
      destruct (Z.eqb_spec (HEADERSIZE P) 1) as [E|?];
        [|destruct (Z.eqb_spec (HEADERSIZE P) 2) as [E|?];
          [|destruct (Z.eqb_spec (HEADERSIZE P) 3) as [E|?]; [|lia]]];
      rewrite <- E, Hhd, from_to_le_bytes by done; done. }
    rewrite Hsz. cbn. rewrite (proj2 (Z.leb_le _ _)) by lia. destruct i; done.
Qed.

Lemma size_hint_spec i pre rest :
  inner_typed P i →
  InnerOps.size_hint P (pre ++ inner_bytes P i ++ rest) (zlen pre) =
  Ok (zlen (inner_bytes P i)).
Proof using HP.
  intros Ht. unfold InnerOps.size_hint. pose proof (inner_bytes_pos i Ht).
  pose proof (zlen_nonneg rest). pose proof (zlen_nonneg pre).
  rewrite (proj2 (Z.leb_gt _ _)) by (rewrite !zlen_app; lia).
  rewrite slice_from_ok by len_solve. cbn.
  rewrite zdrop_app by done. by apply expected_length_spec.
Qed.

Lemma from_bytes_unchecked_spec i :
  inner_typed P i →
  InnerOps.from_bytes_unchecked P (inner_bytes P i) = Ok (inner_ref i).
Proof using HP.
  intros Ht. unfold InnerOps.from_bytes_unchecked.
  pose proof header_nonneg. unfold inner_bytes, params_ok in *.
  destruct (ISFIXED P) eqn:Hf.
  - destruct HP as [-> _]. cbn. by destruct i.
  - rewrite slice_from_ok by len_solve. cbn.
    rewrite zdrop_app by (rewrite to_le_bytes_zlen; lia). done.
Qed.

Lemma inner_to_slice_unchecked_spec i old post :
  inner_typed P i → zlen old = zlen (inner_bytes P i) →
  InnerOps.to_slice_unchecked P i (old ++ post) = Ok (inner_bytes P i ++ post).
Proof using HP.
  intros Ht Hold. pose proof header_nonneg. rewrite zlen_inner_bytes in Hold.
  assert (Hg : InnerOps.get_size P i = zlen (inner_as_ref i) + HEADERSIZE P)
    by by destruct i.
  pose proof (zlen_nonneg (inner_as_ref i)). pose proof (zlen_nonneg post).
  set (hd := to_le_bytes (Z.to_nat (HEADERSIZE P)) (zlen (inner_as_ref i))).
  assert (Hhd : zlen hd = HEADERSIZE P) by (subst hd; rewrite to_le_bytes_zlen; lia).
  assert (Hh : slice_range (E := Error) (InnerOps.get_header P i) 0 (HEADERSIZE P) = Ok hd).
  { unfold params_ok, InnerOps.get_header, InnerOps.len in *.
    destruct (ISFIXED P).
    - destruct HP as [Hz _]. subst hd. rewrite Hz in *. cbn.
      unfold slice_range. cbn. done.
    - rewrite (proj2 (Z.eqb_neq _ _)) by lia. unfold slice_range.
      rewrite to_le_bytes_zlen. rewrite !(proj2 (Z.leb_le _ _)) by lia. cbn.
      rewrite Z.sub_0_r, zdrop_0. f_equal. subst hd.
      apply take_to_le_bytes. lia. }
  unfold InnerOps.to_slice_unchecked. rewrite Hh. cbn [mbind result_bind].
  destruct (split_by_length old (HEADERSIZE P) (zlen (inner_as_ref i)))
    as (oa & ob & -> & Hoa & Hob); [lia..|].
  rewrite <- app_assoc, slice_range_prefix by done. cbn [mbind result_bind].
  replace 0 with (zlen (A := Byte.byte) []) at 2 by done.
  rewrite <- (app_nil_l (oa ++ ob ++ post)), overwrite_app by lia.
  rewrite app_nil_l. rewrite (app_assoc hd ob post), slice_range_prefix
    by (rewrite zlen_app; lia). cbn [mbind result_bind].
  rewrite <- Hhd, <- app_assoc, overwrite_app by lia.
  unfold inner_bytes. fold hd. by rewrite <- app_assoc.
Qed.

(** A length accepted for the slice [d] bounds what is decoded from it. *)
Lemma decode_typed d i :
  InnerOps.expected_length P d = Ok (zlen d) →
  InnerOps.from_bytes_unchecked P d = Ok i → inner_typed P i ∧ inner_ref i = i.
Proof using HP.
  unfold InnerOps.from_bytes_unchecked, InnerOps.expected_length,
    InnerOps.expected_length_fixed, inner_typed, params_ok in *.
  destruct (ISFIXED P); cbn.
  - intros. inv_res. cbn. split; [congruence|done].
  - intros H1 H2. inv_res. inv_slice.
    cbn in *. revert H1. split_if; [|done]. intros. inv_res. bool_props.
    rewrite zlen_drop by lia. split; [lia|done].
Qed.
End InnerFacts.
End InnerFacts.

(** ** Facts about every primitive type *)

Lemma read_exact_app a b n : n = zlen a → read_exact n (a ++ b) = Ok (a, b).
Proof.
  intros ->. unfold read_exact. rewrite (proj2 (Z.leb_le _ _)) by len_solve.
  by rewrite ztake_app, zdrop_app.
Qed.

Lemma U24_to_le_bytes_spec v : CopyTypes.U24_to_le_bytes v = to_le_bytes 3 v.
Proof. done. Qed.

Lemma U24_from_le_bytes_spec b : CopyTypes.U24_from_le_bytes b = from_le_bytes b.
Proof. apply InnerFacts.from_le_bytes_snoc0. Qed.

Lemma bool_bit_cases x :
  Z.shiftr (wrap 8 (Z.shiftl (byte.unsigned x) 7)) 7 = 0 ∨
  Z.shiftr (wrap 8 (Z.shiftl (byte.unsigned x) 7)) 7 = 1.
Proof. destruct x; vm_compute; auto. Qed.

Lemma bool_decode_total x l :
  ∃ b, CopyTypes.bool_from_bytes_unchecked (x :: l) = Ok b.
Proof.
  cbn. destruct (bool_bit_cases x) as [-> | ->]; cbn; eauto.
Qed.

Lemma zlen_prim_bytes p : zlen (prim_bytes p) = dprim_get_size p.
Proof.
  destruct p; cbn [prim_bytes dprim_get_size]; try rewrite to_le_bytes_zlen; try done;
    apply InnerFacts.zlen_inner_bytes; cbn; lia.
Qed.

Lemma prim_bytes_pos p : prim_typed p → 0 < zlen (prim_bytes p).
Proof.
  destruct p; cbn [prim_bytes prim_typed]; intros H;
    try (rewrite to_le_bytes_zlen; lia); try reflexivity;
    apply InnerFacts.inner_bytes_pos; try done; cbn; lia.
Qed.

Lemma prim_size_hint_spec p pre rest :
  prim_typed p →
  prim_size_hint (marker_of p) (pre ++ prim_bytes p ++ rest) (zlen pre) =
  Ok (zlen (prim_bytes p)).
Proof.
  rewrite zlen_prim_bytes.
  destruct p; cbn [prim_bytes prim_typed marker_of]; intros H; unfold prim_size_hint;
    cbn [fixed_size params_of]; try done;
    rewrite InnerFacts.size_hint_spec by (try done; cbn; lia);
    rewrite InnerFacts.zlen_inner_bytes by (cbn; lia); done.
Qed.

Lemma prim_size_hint_spec0 p rest :
  prim_typed p →
  prim_size_hint (marker_of p) (prim_bytes p ++ rest) 0 = Ok (zlen (prim_bytes p)).
Proof. intros H. exact (prim_size_hint_spec p [] rest H). Qed.

Lemma uint_decode_spec n v rest :
  fits (8 * Z.of_nat n) v →
  CopyTypes.unsigned_from_bytes_unchecked n (to_le_bytes n v ++ rest) = Ok v.
Proof.
  intros. unfold CopyTypes.unsigned_from_bytes_unchecked.
  rewrite slice_range_prefix by (by rewrite to_le_bytes_zlen). cbn.
  by rewrite from_to_le_bytes.
Qed.

Lemma prim_decode_spec p :
  prim_typed p → prim_decode (marker_of p) (prim_bytes p) 0 = Ok (prim_ref p).
Proof.
  intros H. unfold prim_decode.
  rewrite slice_from_ok by len_solve. rewrite zdrop_0. cbn [mbind result_bind].
  destruct p; cbn [prim_bytes prim_typed marker_of] in *;
    try (rewrite <- (app_nil_r (to_le_bytes _ _)), uint_decode_spec by done; done);
    try (rewrite InnerFacts.from_bytes_unchecked_spec by (try done; cbn; lia); done).
  - by destruct v.
  - unfold CopyTypes.U24_from_bytes_unchecked.
    rewrite <- (app_nil_r (to_le_bytes _ _)), slice_range_prefix
      by (by rewrite to_le_bytes_zlen).
    cbn [mbind result_bind]. by rewrite U24_from_le_bytes_spec, from_to_le_bytes.
Qed.

Lemma uint_to_slice_spec n v old post :
  zlen old = Z.of_nat n →
  CopyTypes.unsigned_to_slice_unchecked n v (old ++ post) = Ok (to_le_bytes n v ++ post).
Proof.
  intros. unfold CopyTypes.unsigned_to_slice_unchecked.
  rewrite slice_range_prefix by done. cbn [mbind result_bind].
  replace 0 with (zlen (A := Byte.byte) []) by done.
  rewrite <- (app_nil_l (old ++ post)), overwrite_app; [done|].
  by rewrite to_le_bytes_zlen.
Qed.

Lemma to_slice_unchecked_spec p old post :
  prim_typed p → zlen old = zlen (prim_bytes p) →
  to_slice_unchecked p (old ++ post) = Ok (prim_bytes p ++ post).
Proof.
  intros Ht Hl.
  destruct p; cbn [prim_bytes prim_typed to_slice_unchecked] in *;
    try (rewrite to_le_bytes_zlen in Hl; by apply uint_to_slice_spec);
    try (apply InnerFacts.inner_to_slice_unchecked_spec; [cbn; lia|done..]).
  - destruct old as [|x [|y old]]; [discriminate Hl|done|].
    unfold zlen in Hl. cbn [length] in Hl. lia.
  - rewrite to_le_bytes_zlen in Hl. unfold CopyTypes.U24_to_slice_unchecked.
    rewrite slice_range_prefix by done. cbn [mbind result_bind].
    replace 0 with (zlen (A := Byte.byte) []) by done.
    rewrite <- (app_nil_l (old ++ post)), U24_to_le_bytes_spec, overwrite_app; [done|].
    by rewrite to_le_bytes_zlen.
Qed.

(** Encoding a primitive at the front of a buffer that has room for it. *)
Lemma eprim_encode_spec p old post :
  prim_typed p → zlen old = zlen (prim_bytes p) →
  eprim_encode (EP p) (old ++ post) = (Ok (zlen (prim_bytes p)), prim_bytes p ++ post).
Proof.
  intros Ht Hl. cbn. unfold to_slice. rewrite <- zlen_prim_bytes.
  pose proof (zlen_nonneg post).
  rewrite (proj2 (Z.leb_le _ _)) by (rewrite zlen_app; lia).
  by rewrite to_slice_unchecked_spec.
Qed.

Lemma ownedu8_encode_spec v old post :
  zlen old = 1 →
  eprim_encode (OwnedU8 v) (old ++ post) = (Ok 1, to_le_bytes 1 v ++ post).
Proof.
  intros Hl. cbn. unfold to_slice. pose proof (zlen_nonneg post).
  rewrite (proj2 (Z.leb_le _ _)) by (rewrite zlen_app; lia).
  by rewrite uint_to_slice_spec.
Qed.

(** ** Decoding a primitive never panics on a slice of the hinted size *)

Lemma uint_decode_total n d :
  Z.of_nat n ≤ zlen d →
  ∃ v, CopyTypes.unsigned_from_bytes_unchecked n d = Ok v ∧ fits (8 * Z.of_nat n) v.
Proof.
  intros. destruct (split_by_length d (Z.of_nat n) (zlen d - Z.of_nat n))
    as (a & b & -> & Ha & _); [lia..|].
  unfold CopyTypes.unsigned_from_bytes_unchecked.
  rewrite slice_range_prefix by done. cbn. eexists; split; [done|].
  rewrite <- Ha. apply from_le_bytes_fits.
Qed.

Lemma inner_decode_total P d :
  params_ok P → InnerOps.expected_length P d = Ok (zlen d) →
  ∃ i, InnerOps.from_bytes_unchecked P d = Ok i ∧ inner_typed P i ∧ inner_ref i = i.
Proof.
  intros HP H.
  assert (∃ i, InnerOps.from_bytes_unchecked P d = Ok i) as [i Hi].
  { unfold InnerOps.from_bytes_unchecked. destruct (ISFIXED P) eqn:Hf; [eauto|].
    revert H. unfold InnerOps.expected_length, InnerOps.expected_length_variable.
    rewrite Hf. unfold params_ok in HP. rewrite Hf in HP.
    destruct (Z.leb_spec (HEADERSIZE P) (zlen d)); [|done].
    intros _. rewrite slice_from_ok by lia. cbn. eauto. }
  exists i. split; [done|]. by eapply InnerFacts.decode_typed.
Qed.

Lemma inner_size_hint_at0 P d :
  InnerOps.size_hint P d 0 = Ok (zlen d) → InnerOps.expected_length P d = Ok (zlen d).
Proof.
  unfold InnerOps.size_hint. split_if; [done|]. intros. inv_res.
  by inv_slice.
Qed.

Lemma prim_decode_total m d :
  prim_size_hint m d 0 = Ok (zlen d) →
  ∃ p, prim_decode m d 0 = Ok p ∧ marker_of p = m ∧ prim_typed p ∧ prim_ref p = p.
Proof.
  intros H. unfold prim_decode. rewrite slice_from_ok by len_solve.
  rewrite zdrop_0. cbn [mbind result_bind].
  assert (Hi : ∀ P c, params_ok P → (∀ i, marker_of (c i) = m) →
    (∀ i, prim_typed (c i) ↔ inner_typed P i) →
    (∀ i, prim_ref (c i) = c (inner_ref i)) →
    InnerOps.size_hint P d 0 = Ok (zlen d) →
    ∃ p, c <$> InnerOps.from_bytes_unchecked P d = Ok p ∧ marker_of p = m ∧
         prim_typed p ∧ prim_ref p = p).
  { intros P c HP Hm Ht Hr Hs. apply inner_size_hint_at0 in Hs.
    destruct (inner_decode_total P d HP Hs) as (i & -> & Hty & Href).
    exists (c i). rewrite Hr, Href, Ht, Hm. done. }
  assert (Hu : ∀ n c, Z.of_nat n = zlen d → (∀ v, marker_of (c v) = m) →
    (∀ v, prim_typed (c v) ↔ fits (8 * Z.of_nat n) v) → (∀ v, prim_ref (c v) = c v) →
    ∃ p, c <$> CopyTypes.unsigned_from_bytes_unchecked n d = Ok p ∧ marker_of p = m ∧
         prim_typed p ∧ prim_ref p = p).
  { intros n c Hn Hm Ht Hr. destruct (uint_decode_total n d) as (v & -> & Hv); [lia|].
    exists (c v). rewrite Hr, Ht, Hm. done. }
  destruct m; unfold prim_size_hint in H; cbn [fixed_size params_of] in H;
    try (apply Hi; [cbn; lia|done..]);
    try (injection H as H; apply Hu; done).
  - injection H as H. destruct d as [|x d]; [done|].
    destruct (bool_decode_total x d) as [b ->]. exists (DBool b). done.
  - injection H as H. unfold CopyTypes.U24_from_bytes_unchecked.
    rewrite <- (app_nil_r d), slice_range_prefix by lia. cbn.
    eexists; split; [done|]. repeat split; try done; cbn.
    all: rewrite U24_from_le_bytes_spec;
      destruct (from_le_bytes_fits d) as [? Hb]; rewrite <- H in Hb; cbn in Hb; lia.
Qed.
