(* ===== verification/Codec.v ===== *)
(** * The SV2 codec: field markers, structures, encoding and decoding

    Models protocols/v2/binary-sv2/codec/src/codec (decodable.rs,
    encodable.rs, impls.rs), the sequence types of seq_inner.rs, the entry
    points of lib.rs and the code that derive_codec generates for a struct.

    A Rust type that implements [Decodable]/[Encodable] is described by an
    [sv2_type]; a value of it is an [sv2_value].  The trait methods become
    functions on the description. *)

From S2P Require Import Prelude Datatypes.

(** ** Data *)

Inductive FieldMarker : Type :=
  | Primitive (m : PrimitiveMarker)
  | Struct (ps : list FieldMarker).

Inductive DecodableField : Type :=
  | DPrim (p : DecodablePrimitive)
  | DStruct (ps : list DecodableField).

Inductive EncodableField : Type :=
  | EPrim (p : EncodablePrimitive)
  | EStruct (ps : list EncodableField).

(** The types a message is made of: the primitives, [Seq0255<T>], [Seq064K<T>]
    and [Sv2Option<T>] over a primitive [T], and structs with named fields on
    which the codec is derived. *)
Inductive sv2_type : Type :=
  | TPrim (m : PrimitiveMarker)
  | TSeq0255 (m : PrimitiveMarker)
  | TSeq064K (m : PrimitiveMarker)
  | TOption (m : PrimitiveMarker)
  | TStruct (fields : list (string * sv2_type)).

Inductive sv2_value : Type :=
  | VPrim (p : DecodablePrimitive)
  | VSeq0255 (ps : list DecodablePrimitive)
  | VSeq064K (ps : list DecodablePrimitive)
  | VOption (ps : list DecodablePrimitive)
  | VStruct (vs : list sv2_value).

(** ** Size hints *)

(** [SizeHint::size_hint_ for FieldMarker]. *)
Fixpoint field_size_hint (f : FieldMarker) (data : bytes) (offset : Z)
    : result Error Z :=
  match f with
  | Primitive p => prim_size_hint p data offset
  | Struct ps =>
      (fix go (ps : list FieldMarker) (size : Z) : result Error Z :=
         match ps with
         | [] => Ok size
         | p :: ps =>
             s ← field_size_hint p data (offset + size);
             go ps (size + s)
         end) ps 0
  end.

(** [SizeHint::size_hint_ for Vec<FieldMarker>]. *)
Fixpoint vec_size_hint (ps : list FieldMarker) (data : bytes) (offset size : Z)
    : result Error Z :=
  match ps with
  | [] => Ok size
  | field :: ps =>
      field_size ← field_size_hint field data (offset + size);
      vec_size_hint ps data offset (size + field_size)
  end.

(** [TryFrom<Vec<FieldMarker>> for FieldMarker]. *)
Definition marker_try_from (v : list FieldMarker) : result Error FieldMarker :=
  match v with
  | [] => Err VoidFieldMarker
  | [x] => Ok x
  | _ => Ok (Struct v)
  end.

(** [From<DecodableField> for Vec<DecodableField>]. *)
Definition field_into_vec (v : DecodableField) : list DecodableField :=
  match v with
  | DPrim p => [DPrim p]
  | DStruct ps => ps
  end.

(** ** Decoding a field *)

(** [FieldMarker::decode]. *)
Fixpoint field_decode (f : FieldMarker) (data : bytes) : result Error DecodableField :=
  match f with
  | Primitive p => DPrim <$> prim_decode p data 0
  | Struct ps =>
      DStruct <$>
        (fix go (ps : list FieldMarker) (tail : bytes)
             : result Error (list DecodableField) :=
           match ps with
           | [] => Ok []
           | p :: ps =>
               field_size ← field_size_hint p tail 0;
               '(head, t) ← split_at tail field_size;
               d ← field_decode p head;
               ds ← go ps t;
               Ok (d :: ds)
           end) ps data
  end.

(** [FieldMarker::from_reader]. *)
Fixpoint field_from_reader (f : FieldMarker) (rd : bytes)
    : result Error (DecodableField * bytes) :=
  match f with
  | Primitive p => '(v, rd) ← prim_from_reader p rd; Ok (DPrim v, rd)
  | Struct ps =>
      '(ds, rd) ←
        (fix go (ps : list FieldMarker) (rd : bytes)
             : result Error (list DecodableField * bytes) :=
           match ps with
           | [] => Ok ([], rd)
           | p :: ps =>
               '(d, rd) ← field_from_reader p rd;
               '(ds, rd) ← go ps rd;
               Ok (d :: ds, rd)
           end) ps rd;
      Ok (DStruct ds, rd)
  end.

(** ** Sequences *)

(** [Seq0255::expected_len], [Seq064K::expected_len], [Sv2Option::expected_len]. *)
Definition Seq0255_expected_len (data : bytes) : result Error Z :=
  if 1 <=? zlen data then Ok (from_le_bytes (ztake 1 data))
  else Err (ReadError (zlen data) 1).
Definition Seq064K_expected_len (data : bytes) : result Error Z :=
  if 2 <=? zlen data then Ok (from_le_bytes (ztake 2 data))
  else Err (ReadError (zlen data) 2).
Definition Sv2Option_expected_len (data : bytes) : result Error Z :=
  if 1 <=? zlen data then
    let b := from_le_bytes (ztake 1 data) in
    if b =? 0 then Ok 0 else if b =? 1 then Ok 1
    else Err (Sv2OptionHaveMoreThenOneElement b)
  else Err (ReadError (zlen data) 1).

(** [Seq0255::new], [Seq064K::new], [Sv2Option::new], [Sv2Option::into_inner]. *)
Definition Seq0255_new (inner : list DecodablePrimitive) : result Error sv2_value :=
  if zlen inner <=? 255 then Ok (VSeq0255 inner) else Err SeqExceedsMaxSize.
Definition Seq064K_new (inner : list DecodablePrimitive) : result Error sv2_value :=
  if zlen inner <=? 65535 then Ok (VSeq064K inner) else Err SeqExceedsMaxSize.
Definition Sv2Option_new (inner : option DecodablePrimitive) : sv2_value :=
  match inner with
  | Some x => VOption [x]
  | None => VOption []
  end.
Definition Sv2Option_into_inner (v : list DecodablePrimitive)
    : result Error (option DecodablePrimitive) :=
  match v with
  | [] => Ok None
  | [x] => Ok (Some x)
  | _ => Panic
  end.

(** [get_structure] of the macro [impl_codec_for_sequence!]: [HEADERSIZE]
    one-byte markers, then one marker per announced element. *)
Definition seq_get_structure (headersize : nat) (expected_len : bytes → result Error Z)
    (m : PrimitiveMarker) (data : bytes) : result Error (list FieldMarker) :=
  len ← expected_len data;
  Ok (replicate headersize (Primitive MU8) ++ replicate (Z.to_nat len) (Primitive m)).

(** [T::from_decoded_fields] at a primitive [T]: pops one field and converts
    it ([TryFrom<DecodableField>], then [TryFrom<DecodablePrimitive>]). *)
Definition prim_try_from (m : PrimitiveMarker) (p : DecodablePrimitive)
    : result Error DecodablePrimitive :=
  if bool_decide (marker_of p = m) then Ok p else Err PrimitiveConversionError.
Definition field_try_from (m : PrimitiveMarker) (value : DecodableField)
    : result Error DecodablePrimitive :=
  match value with
  | DPrim p => prim_try_from m p
  | DStruct _ => Err DecodableConversionError
  end.
Definition prim_from_decoded_fields (m : PrimitiveMarker) (data : list DecodableField)
    : result Error DecodablePrimitive :=
  '(f, _) ← ok_or (vec_pop data) NoDecodableFieldPassed;
  field_try_from m f.

(** [from_decoded_fields] of a sequence: the first [HEADERSIZE] fields are
    skipped; a nested struct would hit [unreachable!]. *)
Definition seq_from_decoded_fields (headersize : nat) (m : PrimitiveMarker)
    (data : list DecodableField) : result Error (list DecodablePrimitive) :=
  mapR (λ element,
    match element with
    | DPrim p => prim_from_decoded_fields m [DPrim p]
    | DStruct _ => Panic
    end) (drop headersize data).

(** [from_bytes] of a sequence (the macro overrides the default method). *)
Definition prim_from_bytes_unchecked (m : PrimitiveMarker) (data : bytes) :=
  prim_decode m data 0.
Fixpoint seq_elements (m : PrimitiveMarker) (len : nat) (tail : bytes)
    : result Error (list DecodablePrimitive) :=
  match len with
  | O => Ok []
  | S len =>
      element_size ← prim_size_hint m tail 0;
      if zlen tail <? element_size then Err OutOfBound
      else
        '(head, t) ← split_at tail element_size;
        x ← prim_from_bytes_unchecked m head;
        xs ← seq_elements m len t;
        Ok (x :: xs)
  end.
Definition seq_from_bytes (headersize : nat) (expected_len : bytes → result Error Z)
    (m : PrimitiveMarker) (data : bytes) : result Error (list DecodablePrimitive) :=
  len ← expected_len data;
  tail ← slice_from data (Z.of_nat headersize);
  seq_elements m (Z.to_nat len) tail.

(** [from_reader] of a sequence. *)
Fixpoint seq_elements_from_reader (m : PrimitiveMarker) (len : nat) (rd : bytes)
    : result Error (list DecodablePrimitive * bytes) :=
  match len with
  | O => Ok ([], rd)
  | S len =>
      '(x, rd) ← prim_from_reader m rd;
      '(xs, rd) ← seq_elements_from_reader m len rd;
      Ok (x :: xs, rd)
  end.
Definition seq_from_reader (headersize : nat) (expected_len : bytes → result Error Z)
    (m : PrimitiveMarker) (rd : bytes)
    : result Error (list DecodablePrimitive * bytes) :=
  '(header, rd) ← read_exact (Z.of_nat headersize) rd;
  len ← expected_len header;
  seq_elements_from_reader m (Z.to_nat len) rd.

(** ** [Decodable] *)

(** [Decodable::get_structure].  For a struct this is the generated code: each
    field's structure is read at [&data[offset..]], the offset advances by the
    size hint of that structure, and the structure is collapsed to one marker. *)
Fixpoint get_structure (t : sv2_type) (data : bytes) : result Error (list FieldMarker) :=
  match t with
  | TPrim m => Ok [Primitive m]
  | TSeq0255 m => seq_get_structure 1 Seq0255_expected_len m data
  | TSeq064K m => seq_get_structure 2 Seq064K_expected_len m data
  | TOption m => seq_get_structure 1 Sv2Option_expected_len m data
  | TStruct fields =>
      (fix go (fields : list (string * sv2_type)) (offset : Z)
           : result Error (list FieldMarker) :=
         match fields with
         | [] => Ok []
         | (_, f) :: fields =>
             d ← slice_from data offset;
             a ← get_structure f d;
             s ← vec_size_hint a data offset 0;
             m ← marker_try_from a;
             ms ← go fields (offset + s);
             Ok (m :: ms)
         end) fields 0
  end.

(** [Decodable::from_decoded_fields].  For a struct, fields are popped from the
    end, so the last declared field is converted first. *)
Fixpoint from_decoded_fields (t : sv2_type) (data : list DecodableField)
    : result Error sv2_value :=
  match t with
  | TPrim m => VPrim <$> prim_from_decoded_fields m data
  | TSeq0255 m => VSeq0255 <$> seq_from_decoded_fields 1 m data
  | TSeq064K m => VSeq064K <$> seq_from_decoded_fields 2 m data
  | TOption m => VOption <$> seq_from_decoded_fields 1 m data
  | TStruct fields =>
      '(vs, _) ←
        (fix go (fields : list (string * sv2_type)) (data : list DecodableField)
             : result Error (list sv2_value * list DecodableField) :=
           match fields with
           | [] => Ok ([], data)
           | (_, f) :: fields =>
               '(vs, data) ← go fields data;
               '(x, data) ← ok_or (vec_pop data) NoDecodableFieldPassed;
               v ← from_decoded_fields f (field_into_vec x);
               Ok (v :: vs, data)
           end) fields data;
      Ok (VStruct vs)
  end.

(** The loop of the default [Decodable::from_bytes]. *)
Fixpoint decode_fields (structure : list FieldMarker) (tail : bytes)
    : result Error (list DecodableField) :=
  match structure with
  | [] => Ok []
  | field :: structure =>
      field_size ← field_size_hint field tail 0;
      if zlen tail <? field_size then Err DecodableConversionError
      else
        '(head, t) ← split_at tail field_size;
        d ← field_decode field head;
        ds ← decode_fields structure t;
        Ok (d :: ds)
  end.

(** [Decodable::from_bytes], and the entry point [from_bytes] of the crate. *)
Definition from_bytes (t : sv2_type) (data : bytes) : result Error sv2_value :=
  match t with
  | TSeq0255 m => VSeq0255 <$> seq_from_bytes 1 Seq0255_expected_len m data
  | TSeq064K m => VSeq064K <$> seq_from_bytes 2 Seq064K_expected_len m data
  | TOption m => VOption <$> seq_from_bytes 1 Sv2Option_expected_len m data
  | _ =>
      structure ← get_structure t data;
      fields ← decode_fields structure data;
      from_decoded_fields t fields
  end.

(** The loop of the default [Decodable::from_reader]. *)
Fixpoint read_fields (structure : list FieldMarker) (rd : bytes)
    : result Error (list DecodableField) :=
  match structure with
  | [] => Ok []
  | field :: structure =>
      '(d, rd) ← field_from_reader field rd;
      ds ← read_fields structure rd;
      Ok (d :: ds)
  end.

(** [Decodable::from_reader] on a reader holding [data]. *)
Definition from_reader (t : sv2_type) (data : bytes) : result Error sv2_value :=
  match t with
  | TSeq0255 m => '(ps, _) ← seq_from_reader 1 Seq0255_expected_len m data; Ok (VSeq0255 ps)
  | TSeq064K m => '(ps, _) ← seq_from_reader 2 Seq064K_expected_len m data; Ok (VSeq064K ps)
  | TOption m => '(ps, _) ← seq_from_reader 1 Sv2Option_expected_len m data; Ok (VOption ps)
  | _ =>
      structure ← get_structure t data;
      fields ← read_fields structure data;
      from_decoded_fields t fields
  end.

(** ** [Encodable] *)

(** [GetSize]: sequences add their header, structs add their fields. *)
Definition sum_sizes {A} (size : A → Z) (l : list A) : Z :=
  foldl (λ acc x, acc + size x) 0 l.
Fixpoint get_size (v : sv2_value) : Z :=
  match v with
  | VPrim p => dprim_get_size p
  | VSeq0255 ps => 1 + sum_sizes dprim_get_size ps
  | VSeq064K ps => 2 + sum_sizes dprim_get_size ps
  | VOption ps => 1 + sum_sizes dprim_get_size ps
  | VStruct vs =>
      (fix go (vs : list sv2_value) : Z :=
         match vs with [] => 0 | v :: vs => get_size v + go vs end) vs
  end.

Fixpoint efield_get_size (f : EncodableField) : Z :=
  match f with
  | EPrim p => eprim_get_size p
  | EStruct ps =>
      (fix go (ps : list EncodableField) : Z :=
         match ps with [] => 0 | p :: ps => efield_get_size p + go ps end) ps
  end.

(** [inner_len + k] as a [w]-bit capacity computation: it is the argument of
    [Vec::with_capacity], and it panics in builds with overflow checks. *)
Definition capacity_add (overflow_checks : bool) (w a k : Z) : result Error Z :=
  if overflow_checks then add_chk w a k else Ok (wrap w (a + k)).

(** [From<T> for EncodableField] at a primitive type. *)
Definition prim_into_field (p : DecodablePrimitive) : EncodableField := EPrim (EP p).

(** The conversions generated by [impl_into_encodable_field_for_seq!]. *)
Definition seq064k_into_field (overflow_checks : bool) (ps : list DecodablePrimitive)
    : result Error EncodableField :=
  let inner_len := wrap 16 (zlen ps) in
  _ ← capacity_add overflow_checks 16 inner_len 2;
  let b := to_le_bytes 2 inner_len in
  Ok (EStruct (EPrim (OwnedU8 (from_le_bytes (take 1 b)))
               :: EPrim (OwnedU8 (from_le_bytes (drop 1 b)))
               :: (prim_into_field <$> ps))).
Definition seq0255_into_field (overflow_checks : bool) (ps : list DecodablePrimitive)
    : result Error EncodableField :=
  let inner_len := wrap 8 (zlen ps) in
  _ ← capacity_add overflow_checks 8 inner_len 1;
  Ok (EStruct (EPrim (OwnedU8 inner_len) :: (prim_into_field <$> ps))).

(** [Into<EncodableField>]; for a struct, the code generated by the derive
    macro. *)
Fixpoint into_field (overflow_checks : bool) (v : sv2_value)
    : result Error EncodableField :=
  match v with
  | VPrim p => Ok (prim_into_field p)
  | VSeq064K ps => seq064k_into_field overflow_checks ps
  | VSeq0255 ps | VOption ps => seq0255_into_field overflow_checks ps
  | VStruct vs =>
      EStruct <$>
        (fix go (vs : list sv2_value) : result Error (list EncodableField) :=
           match vs with
           | [] => Ok []
           | v :: vs => f ← into_field overflow_checks v; fs ← go vs; Ok (f :: fs)
           end) vs
  end.

(** [EncodableField::encode]: the number of bytes written, and the buffer. *)
Fixpoint encode (f : EncodableField) (dst : bytes) (offset : Z)
    : result Error Z * bytes :=
  if offset <=? zlen dst then
    match f with
    | EPrim p =>
        let '(r, tail) := eprim_encode p (zdrop offset dst) in
        (r, ztake offset dst ++ tail)
    | EStruct ps =>
        (fix go (ps : list EncodableField) (dst : bytes) (offset res : Z)
             : result Error Z * bytes :=
           match ps with
           | [] => (Ok res, dst)
           | p :: ps =>
               match encode p dst offset with
               | (Ok encoded_bytes, dst) =>
                   go ps dst (offset + encoded_bytes) (res + encoded_bytes)
               | (Err e, dst) => (Err e, dst)
               | (Panic, dst) => (Panic, dst)
               end
           end) ps dst offset 0
    end
  else (Err (WriteError offset (zlen dst)), dst).

(** [EncodableField::to_writer]: the bytes handed to the writer. *)
Fixpoint to_writer (f : EncodableField) : bytes :=
  match f with
  | EPrim p => eprim_write p
  | EStruct ps =>
      (fix go (ps : list EncodableField) : bytes :=
         match ps with [] => [] | p :: ps => to_writer p ++ go ps end) ps
  end.

(** [Encodable::to_bytes] into a caller's buffer. *)
Definition to_bytes_into (overflow_checks : bool) (v : sv2_value) (dst : bytes)
    : result Error Z * bytes :=
  match into_field overflow_checks v with
  | Ok f => encode f dst 0
  | Err e => (Err e, dst)
  | Panic => (Panic, dst)
  end.

(** The crate's [to_bytes]. *)
Definition to_bytes (overflow_checks : bool) (v : sv2_value) : result Error bytes :=
  let dst := replicate (Z.to_nat (get_size v)) (byte.of_Z 0) in
  match to_bytes_into overflow_checks v dst with
  | (Ok _, dst) => Ok dst
  | (Err e, _) => Err e
  | (Panic, _) => Panic
  end.
