(* ===== verification/CodecFacts.v ===== *)
(** * Correctness of the SV2 codec

    The wire format of a value is specified by [val_bytes]; the encoder
    implements it, the decoder inverts it with any bytes following, decoded
    values satisfy the size constraints of their types, and the only way the
    decoder can panic is the slicing of the generated [get_structure]. *)

From S2P Require Import Prelude Datatypes Codec.

(** ** Induction principles for the nested types *)

Section Induction.
Variable P : FieldMarker → Prop.
Hypothesis Hprim : ∀ m, P (Primitive m).
Hypothesis Hstruct : ∀ ps, Forall P ps → P (Struct ps).
Fixpoint FieldMarker_ind' (f : FieldMarker) : P f :=
  match f with
  | Primitive m => Hprim m
  | Struct ps => Hstruct ps
      ((fix go ps : Forall P ps :=
          match ps with
          | [] => Forall_nil_2 P
          | p :: ps => Forall_cons_2 P p ps (FieldMarker_ind' p) (go ps)
          end) ps)
  end.
End Induction.

Section InductionD.
Variable P : DecodableField → Prop.
Hypothesis Hprim : ∀ m, P (DPrim m).
Hypothesis Hstruct : ∀ ps, Forall P ps → P (DStruct ps).
Fixpoint DecodableField_ind' (f : DecodableField) : P f :=
  match f with
  | DPrim m => Hprim m
  | DStruct ps => Hstruct ps
      ((fix go ps : Forall P ps :=
          match ps with
          | [] => Forall_nil_2 P
          | p :: ps => Forall_cons_2 P p ps (DecodableField_ind' p) (go ps)
          end) ps)
  end.
End InductionD.

Section InductionT.
Variable P : sv2_type → Prop.
Hypothesis Hprim : ∀ m, P (TPrim m).
Hypothesis H0255 : ∀ m, P (TSeq0255 m).
Hypothesis H064K : ∀ m, P (TSeq064K m).
Hypothesis Hopt : ∀ m, P (TOption m).
Hypothesis Hstruct : ∀ fs, Forall (λ f, P f.2) fs → P (TStruct fs).
Fixpoint sv2_type_ind' (t : sv2_type) : P t :=
  match t with
  | TPrim m => Hprim m
  | TSeq0255 m => H0255 m
  | TSeq064K m => H064K m
  | TOption m => Hopt m
  | TStruct fs => Hstruct fs
      ((fix go fs : Forall (λ f, P f.2) fs :=
          match fs with
          | [] => Forall_nil_2 _
          | f :: fs => Forall_cons_2 (λ f, P f.2) f fs (sv2_type_ind' f.2) (go fs)
          end) fs)
  end.
End InductionT.

(** ** The wire format *)

Fixpoint dfield_bytes (d : DecodableField) : bytes :=
  match d with
  | DPrim p => prim_bytes p
  | DStruct ps => concat (map dfield_bytes ps)
  end.
Definition fields_bytes (ds : list DecodableField) : bytes := concat (map dfield_bytes ds).

Fixpoint dfield_marker (d : DecodableField) : FieldMarker :=
  match d with
  | DPrim p => Primitive (marker_of p)
  | DStruct ps => Struct (map dfield_marker ps)
  end.

Fixpoint dfield_ref (d : DecodableField) : DecodableField :=
  match d with
  | DPrim p => DPrim (prim_ref p)
  | DStruct ps => DStruct (map dfield_ref ps)
  end.

Inductive dfield_ok : DecodableField → Prop :=
  | dfield_ok_prim p : prim_typed p → dfield_ok (DPrim p)
  | dfield_ok_struct ps : Forall dfield_ok ps → dfield_ok (DStruct ps).
#[export] Hint Constructors dfield_ok : sv2.

(** A structure of one field stands for that field. *)
Definition collapse (ds : list DecodableField) : DecodableField :=
  match ds with [x] => x | _ => DStruct ds end.

(** The fields a value decodes from. *)
Fixpoint fields_of (v : sv2_value) : list DecodableField :=
  match v with
  | VPrim p => [DPrim p]
  | VSeq0255 ps | VOption ps => DPrim (DU8 (zlen ps)) :: map DPrim ps
  | VSeq064K ps =>
      DPrim (DU8 (zlen ps `mod` 256)) :: DPrim (DU8 (zlen ps / 256)) :: map DPrim ps
  | VStruct vs => map (λ v, collapse (fields_of v)) vs
  end.
Definition val_bytes (v : sv2_value) : bytes := fields_bytes (fields_of v).

Fixpoint val_ref (v : sv2_value) : sv2_value :=
  match v with
  | VPrim p => VPrim (prim_ref p)
  | VSeq0255 ps => VSeq0255 (map prim_ref ps)
  | VSeq064K ps => VSeq064K (map prim_ref ps)
  | VOption ps => VOption (map prim_ref ps)
  | VStruct vs => VStruct (map val_ref vs)
  end.

(** Rust's derived [==] on messages. *)
#[global] Instance val_equiv : Equiv sv2_value := λ a b, val_ref a = val_ref b.
#[global] Instance val_equivalence : Equivalence (≡@{sv2_value}).
Proof. unfold equiv, val_equiv. split; repeat intro; congruence. Qed.

(** ** Well-formed types and typed values *)

Definition prim_in (m : PrimitiveMarker) (p : DecodablePrimitive) : Prop :=
  marker_of p = m ∧ prim_typed p.

Inductive typed : sv2_type → sv2_value → Prop :=
  | typed_prim m p : prim_in m p → typed (TPrim m) (VPrim p)
  | typed_seq0255 m ps :
      Forall (prim_in m) ps → zlen ps ≤ 255 → typed (TSeq0255 m) (VSeq0255 ps)
  | typed_seq064k m ps :
      Forall (prim_in m) ps → zlen ps ≤ 65535 → typed (TSeq064K m) (VSeq064K ps)
  | typed_option m ps :
      Forall (prim_in m) ps → zlen ps ≤ 1 → typed (TOption m) (VOption ps)
  | typed_struct fs vs :
      Forall2 (λ f v, typed f.2 v) fs vs → typed (TStruct fs) (VStruct vs).

(** Typing as a boolean test, for concrete values. *)
Definition prim_inb (m : PrimitiveMarker) (p : DecodablePrimitive) : bool :=
  bool_decide (marker_of p = m) && bool_decide (prim_typed p).
Fixpoint typedb (t : sv2_type) (v : sv2_value) : bool :=
  match t, v with
  | TPrim m, VPrim p => prim_inb m p
  | TSeq0255 m, VSeq0255 ps => forallb (prim_inb m) ps && (zlen ps <=? 255)
  | TSeq064K m, VSeq064K ps => forallb (prim_inb m) ps && (zlen ps <=? 65535)
  | TOption m, VOption ps => forallb (prim_inb m) ps && (zlen ps <=? 1)
  | TStruct fs, VStruct vs =>
      (fix go (fs : list (string * sv2_type)) (vs : list sv2_value) : bool :=
         match fs, vs with
         | [], [] => true
         | f :: fs, v :: vs => typedb f.2 v && go fs vs
         | _, _ => false
         end) fs vs
  | _, _ => false
  end.

Lemma prim_inb_sound m p : prim_inb m p = true → prim_in m p.
Proof. unfold prim_inb. intros H. bool_props. split; by eapply bool_decide_eq_true_1. Qed.

Lemma typedb_sound t v : typedb t v = true → typed t v.
Proof.
  assert (Hps : ∀ m ps, forallb (prim_inb m) ps = true → Forall (prim_in m) ps).
  { intros m ps. rewrite forallb_forall, List.Forall_forall. eauto using prim_inb_sound. }
  revert v. induction t as [m|m|m|m|fs IH] using sv2_type_ind'; intros [p|ps|ps|ps|vs];
    cbn [typedb]; intros H; try discriminate H; bool_props; constructor; eauto using prim_inb_sound.
  revert vs H. induction IH as [|f fs Hf _ IHfs]; intros [|v vs] H; try discriminate H;
    [constructor|]. bool_props. constructor; auto.
Qed.

(** A type may be the type of a struct field: its structure has several
    fields, or it is a single primitive.  (A struct whose only field is itself
    composite collapses twice and is not recovered.) *)
Definition nest_ok (t : sv2_type) : bool :=
  match t with
  | TStruct [] => false
  | TStruct [(_, TPrim _)] => true
  | TStruct [_] => false
  | _ => true
  end.
Fixpoint wf_type (t : sv2_type) : bool :=
  match t with
  | TStruct fs => forallb (λ f, nest_ok f.2 && wf_type f.2) fs
  | _ => true
  end.

Lemma wf_struct_cons n t fs :
  wf_type (TStruct ((n, t) :: fs)) = true →
  nest_ok t = true ∧ wf_type t = true ∧ wf_type (TStruct fs) = true.
Proof. cbn. rewrite !andb_true_iff. tauto. Qed.

(** ** Unfolding the inner loops *)

Lemma field_size_hint_struct ps data off :
  field_size_hint (Struct ps) data off = vec_size_hint ps data off 0.
Proof.
  cbn. generalize 0. induction ps as [|p ps IH]; intros s; cbn; [done|].
  destruct (field_size_hint p data (off + s)); cbn; auto.
Qed.

Fixpoint struct_decode (ps : list FieldMarker) (tail : bytes)
    : result Error (list DecodableField) :=
  match ps with
  | [] => Ok []
  | p :: ps =>
      field_size ← field_size_hint p tail 0;
      '(head, t) ← split_at tail field_size;
      d ← field_decode p head;
      ds ← struct_decode ps t;
      Ok (d :: ds)
  end.
Lemma field_decode_struct ps data :
  field_decode (Struct ps) data = DStruct <$> struct_decode ps data.
Proof. reflexivity. Qed.

Section StructStructure.
Context (data : bytes).
Fixpoint struct_structure (fs : list (string * sv2_type)) (offset : Z)
    : result Error (list FieldMarker) :=
  match fs with
  | [] => Ok []
  | (_, f) :: fs =>
      d ← slice_from data offset;
      a ← get_structure f d;
      s ← vec_size_hint a data offset 0;
      m ← marker_try_from a;
      ms ← struct_structure fs (offset + s);
      Ok (m :: ms)
  end.
End StructStructure.
Lemma get_structure_struct fs data :
  get_structure (TStruct fs) data = struct_structure data fs 0.
Proof. reflexivity. Qed.

Fixpoint struct_from_decoded (fs : list (string * sv2_type)) (data : list DecodableField)
    : result Error (list sv2_value * list DecodableField) :=
  match fs with
  | [] => Ok ([], data)
  | (_, f) :: fs =>
      '(vs, data) ← struct_from_decoded fs data;
      '(x, data) ← ok_or (vec_pop data) NoDecodableFieldPassed;
      v ← from_decoded_fields f (field_into_vec x);
      Ok (v :: vs, data)
  end.
Lemma from_decoded_fields_struct fs data :
  from_decoded_fields (TStruct fs) data =
  '(vs, _) ← struct_from_decoded fs data; Ok (VStruct vs).
Proof. reflexivity. Qed.

(** ** Decoding specified fields *)

Lemma concat_cons_zlen ds d :
  zlen (fields_bytes (d :: ds)) = zlen (dfield_bytes d) + zlen (fields_bytes ds).
Proof. unfold fields_bytes. cbn. apply zlen_app. Qed.

Lemma dfield_size_hint d pre rest :
  dfield_ok d →
  field_size_hint (dfield_marker d) (pre ++ dfield_bytes d ++ rest) (zlen pre) =
  Ok (zlen (dfield_bytes d)).
Proof.
  intros Hok. revert pre rest. induction d as [p|ps IH] using DecodableField_ind';
    intros pre rest.
  - inversion Hok; subst. by apply prim_size_hint_spec.
  - cbn [dfield_marker dfield_bytes]. rewrite field_size_hint_struct.
    inversion Hok as [|? Hps]; subst. clear Hok.
    enough (∀ mid, vec_size_hint (map dfield_marker ps)
      (pre ++ mid ++ fields_bytes ps ++ rest) (zlen pre) (zlen mid) =
      Ok (zlen mid + zlen (fields_bytes ps))) as H by apply (H []).
    clear -IH Hps.
    induction ps as [|p ps IHps]; intros mid; cbn [map vec_size_hint].
    { f_equal. unfold fields_bytes, zlen. cbn [map concat length]. lia. }
    inversion IH as [|? ? Hp IH']; inversion Hps as [|? ? Hokp Hokps]; subst.
    specialize (Hp Hokp (pre ++ mid) (fields_bytes ps ++ rest)).
    rewrite zlen_app in Hp. rewrite concat_cons_zlen.
    replace (pre ++ mid ++ fields_bytes (p :: ps) ++ rest) with
      ((pre ++ mid) ++ dfield_bytes p ++ fields_bytes ps ++ rest)
      by (unfold fields_bytes; cbn; by rewrite <- !app_assoc).
    rewrite Hp. cbn [mbind result_bind].
    specialize (IHps IH' Hokps (mid ++ dfield_bytes p)).
    rewrite zlen_app in IHps.
    replace ((pre ++ mid) ++ dfield_bytes p ++ fields_bytes ps ++ rest) with
      (pre ++ (mid ++ dfield_bytes p) ++ fields_bytes ps ++ rest)
      by (by rewrite <- !app_assoc).
    rewrite IHps. f_equal. lia.
Qed.

Lemma vec_size_hint_fields ds pre rest :
  Forall dfield_ok ds →
  vec_size_hint (map dfield_marker ds) (pre ++ fields_bytes ds ++ rest) (zlen pre) 0 =
  Ok (zlen (fields_bytes ds)).
Proof.
  intros H. rewrite <- field_size_hint_struct.
  apply (dfield_size_hint (DStruct ds)). by constructor.
Qed.

Lemma dfield_size_hint0 d rest :
  dfield_ok d →
  field_size_hint (dfield_marker d) (dfield_bytes d ++ rest) 0 = Ok (zlen (dfield_bytes d)).
Proof. intros H. apply (dfield_size_hint d [] rest H). Qed.

Lemma split_at_prefix {E} (a b : bytes) :
  split_at (E := E) (a ++ b) (zlen a) = Ok (a, b).
Proof.
  rewrite split_at_ok by len_solve. by rewrite ztake_app, zdrop_app.
Qed.

Lemma dfield_decode d :
  dfield_ok d → field_decode (dfield_marker d) (dfield_bytes d) = Ok (dfield_ref d).
Proof.
  intros Hok. induction d as [p|ps IH] using DecodableField_ind'.
  - inversion Hok; subst. cbn. by rewrite prim_decode_spec.
  - cbn [dfield_marker dfield_bytes dfield_ref]. rewrite field_decode_struct.
    inversion Hok as [|? Hps]; subst. clear Hok.
    enough (struct_decode (map dfield_marker ps) (concat (map dfield_bytes ps)) =
      Ok (map dfield_ref ps)) as -> by done.
    induction ps as [|p ps IHps]; [done|].
    inversion IH; inversion Hps; subst. cbn [map struct_decode concat].
    rewrite dfield_size_hint0 by done. cbn [mbind result_bind].
    rewrite split_at_prefix. cbn [mbind result_bind].
    rewrite H1 by done. cbn [mbind result_bind]. by rewrite IHps.
Qed.

Lemma decode_fields_spec ds rest :
  Forall dfield_ok ds →
  decode_fields (map dfield_marker ds) (fields_bytes ds ++ rest) = Ok (map dfield_ref ds).
Proof.
  induction 1 as [|d ds Hd _ IH]; [done|]. cbn [map decode_fields].
  unfold fields_bytes. cbn [map concat]. rewrite <- app_assoc.
  rewrite dfield_size_hint0 by done. cbn [mbind result_bind].
  rewrite (proj2 (Z.ltb_ge _ _)) by len_solve.
  rewrite split_at_prefix. cbn [mbind result_bind].
  rewrite dfield_decode by done. cbn [mbind result_bind]. fold (fields_bytes ds). by rewrite IH.
Qed.

(** ** Fields of typed values *)

Lemma Forall_prim_ok m ps : Forall (prim_in m) ps → Forall dfield_ok (map DPrim ps).
Proof. induction 1 as [|p ps [_ Hp] _ IH]; cbn; auto using Forall_cons_2 with sv2. Qed.

Lemma map_marker_prims m ps :
  Forall (prim_in m) ps →
  map dfield_marker (map DPrim ps) = replicate (length ps) (Primitive m).
Proof. induction 1 as [|p ps [Hm _] _ IH]; cbn; [done|]. by rewrite Hm, IH. Qed.

Lemma collapse_ok ds : Forall dfield_ok ds → dfield_ok (collapse ds).
Proof.
  intros H. destruct ds as [|d [|e ds]]; cbn; [by constructor| |by constructor].
  by inversion H.
Qed.

Lemma collapse_bytes ds : dfield_bytes (collapse ds) = fields_bytes ds.
Proof. destruct ds as [|d [|e ds]]; cbn; [done| |done]. by rewrite app_nil_r. Qed.

Lemma typed_fields_ok t v : typed t v → Forall dfield_ok (fields_of v).
Proof.
  revert v. induction t as [m|m|m|m|fs IH] using sv2_type_ind'; intros v Hv;
    inversion Hv as [? ? [Hm Ht]|? ? Hps Hl|? ? Hps Hl|? ? Hps Hl|? ? Hvs]; subst; cbn.
  - repeat constructor; done.
  - pose proof (zlen_nonneg ps). constructor; [|by eapply Forall_prim_ok].
    constructor. cbn. unfold fits. lia.
  - pose proof (zlen_nonneg ps).
    constructor; [|constructor; [|by eapply Forall_prim_ok]]; constructor; cbn;
      unfold fits; [apply Z.mod_pos_bound; lia|].
    split; [apply Z.div_pos; lia|apply Z.div_lt_upper_bound; lia].
  - pose proof (zlen_nonneg ps). constructor; [|by eapply Forall_prim_ok].
    constructor. cbn. unfold fits. lia.
  - revert vs Hvs Hv. induction fs as [|f fs IHfs]; intros vs Hvs _; inversion Hvs; subst.
    + constructor.
    + inversion IH; subst. cbn. constructor.
      * apply collapse_ok. eauto.
      * apply IHfs; [done|done|]. by constructor.
Qed.

Lemma nest_fields t v :
  nest_ok t = true → typed t v →
  fields_of v ≠ [] ∧ field_into_vec (collapse (fields_of v)) = fields_of v.
Proof.
  intros Hn Hv. inversion Hv as [| | | |fs vs Hvs]; subst; cbn; try done.
  - split; [done|]. by destruct ps.
  - split; [done|]. by destruct ps.
  - inversion Hvs as [|[n f] w fs' ws Hw Hws]; subst; [done|].
    cbn in Hw. destruct fs' as [|f' fs'].
    + inversion Hws; subst. cbn in Hn. destruct f; try done.
      inversion Hw; subst. done.
    + inversion Hws; subst. done.
Qed.

Lemma into_vec_ref d : field_into_vec (dfield_ref d) = map dfield_ref (field_into_vec d).
Proof. by destruct d. Qed.

Lemma marker_try_from_fields ds :
  ds ≠ [] → marker_try_from (map dfield_marker ds) = Ok (dfield_marker (collapse ds)).
Proof. by destruct ds as [|d [|e ds]]. Qed.

(** ** Structure of an encoding *)

Lemma from_le_bytes_1 v : fits 8 v → from_le_bytes (to_le_bytes 1 v) = v.
Proof. intros. by apply from_to_le_bytes. Qed.

Lemma val_bytes_seq n ps :
  fields_bytes (DPrim (DU8 n) :: map DPrim ps) =
  to_le_bytes 1 n ++ concat (map prim_bytes ps).
Proof. unfold fields_bytes. cbn [map concat dfield_bytes prim_bytes]. by rewrite map_map. Qed.

Lemma to_le_bytes_2 z :
  0 ≤ z → to_le_bytes 1 (z `mod` 256) ++ to_le_bytes 1 (z / 256) = to_le_bytes 2 z.
Proof.
  intros Hz. unfold to_le_bytes, le_split. cbn [app].
  f_equal; [|f_equal].
  - apply byte.unsigned_inj. rewrite !byte.unsigned_of_Z. unfold byte.wrap.
    by rewrite Zmod_mod.
  - by rewrite Z.shiftr_div_pow2.
Qed.

Lemma get_structure_spec t v rest :
  wf_type t = true → typed t v →
  get_structure t (val_bytes v ++ rest) = Ok (map dfield_marker (fields_of v)).
Proof.
  revert v rest. induction t as [m|m|m|m|fs IH] using sv2_type_ind'; intros v rest Hwf Hv;
    pose proof (typed_fields_ok _ _ Hv) as Hok;
    inversion Hv as [? ? [Hm Ht]|? ? Hps Hl|? ? Hps Hl|? ? Hps Hl|? ? Hvs]; subst.
  - done.
  - unfold get_structure, seq_get_structure, Seq0255_expected_len, val_bytes.
    cbn [fields_of]. pose proof (zlen_nonneg ps). rewrite val_bytes_seq, <- app_assoc.
    rewrite (proj2 (Z.leb_le _ _)) by len_solve.
    rewrite ztake_app by (by rewrite to_le_bytes_zlen).
    rewrite from_le_bytes_1 by (unfold fits; lia). cbn [mbind result_bind].
    cbn. f_equal. f_equal. rewrite (map_marker_prims m) by done.
    unfold zlen. by rewrite Nat2Z.id.
  - unfold get_structure, seq_get_structure, Seq064K_expected_len, val_bytes.
    cbn [fields_of]. pose proof (zlen_nonneg ps).
    unfold fields_bytes. cbn [map concat dfield_bytes prim_bytes].
    rewrite (app_assoc (to_le_bytes 1 _)), to_le_bytes_2, <- app_assoc by done.
    rewrite (proj2 (Z.leb_le _ _)) by len_solve.
    rewrite ztake_app by (by rewrite to_le_bytes_zlen).
    rewrite from_to_le_bytes by (unfold fits; lia). cbn [mbind result_bind].
    cbn. f_equal. f_equal. f_equal. rewrite (map_marker_prims m) by done.
    unfold zlen. by rewrite Nat2Z.id.
  - unfold get_structure, seq_get_structure, Sv2Option_expected_len, val_bytes.
    cbn [fields_of]. pose proof (zlen_nonneg ps). rewrite val_bytes_seq, <- app_assoc.
    rewrite (proj2 (Z.leb_le _ _)) by len_solve.
    rewrite ztake_app by (by rewrite to_le_bytes_zlen).
    rewrite from_le_bytes_1 by (unfold fits; lia).
    destruct ps as [|p [|q ps]]; [done| |unfold zlen in Hl; cbn in Hl; lia].
    cbn. inversion Hps as [|? ? [Hm _]]; subst. done.
  - rewrite get_structure_struct.
    enough (∀ mid, struct_structure
      (mid ++ fields_bytes (map (λ v, collapse (fields_of v)) vs) ++ rest) fs (zlen mid) =
      Ok (map dfield_marker (map (λ v, collapse (fields_of v)) vs))) as H
      by apply (H []).
    clear Hok Hv. revert vs Hvs.
    induction fs as [|[n f] fs IHfs]; intros vs Hvs mid;
      inversion Hvs as [|? v' ? vs' Hv' Hvs']; subst; [done|].
    apply wf_struct_cons in Hwf as (Hn & Hwff & Hwffs).
    inversion IH as [|? ? IHf IH']; subst. cbn [snd] in *.
    destruct (nest_fields f v' Hn Hv') as [Hne _].
    set (tl := fields_bytes (map (λ v, collapse (fields_of v)) vs')) in *.
    assert (fields_bytes (map (λ v, collapse (fields_of v)) (v' :: vs')) =
      val_bytes v' ++ tl) as ->
      by (unfold fields_bytes; cbn [map concat]; by rewrite collapse_bytes).
    rewrite <- app_assoc. cbn [struct_structure map].
    rewrite slice_from_ok by len_solve. cbn [mbind result_bind].
    rewrite zdrop_app by done. rewrite IHf by done. cbn [mbind result_bind].
    unfold val_bytes at 1. rewrite vec_size_hint_fields by by eapply typed_fields_ok.
    cbn [mbind result_bind]. rewrite marker_try_from_fields by done.
    cbn [mbind result_bind]. fold (val_bytes v').
    specialize (IHfs IH' Hwffs vs' Hvs' (mid ++ val_bytes v')).
    rewrite zlen_app, <- app_assoc in IHfs. fold tl in IHfs.
    by rewrite IHfs.
Qed.

Lemma mapR_prims m ps :
  Forall (prim_in m) ps →
  mapR (λ element, match element with
    | DPrim p => prim_from_decoded_fields m [DPrim p]
    | DStruct _ => Panic end) (map dfield_ref (map DPrim ps)) = Ok (map prim_ref ps).
Proof.
  induction 1 as [|p ps [Hm _] _ IH]; [done|]. cbn [map dfield_ref mapR].
  rewrite IH. unfold prim_from_decoded_fields. cbn.
  unfold prim_try_from. rewrite bool_decide_eq_true_2 by by rewrite marker_of_ref.
  done.
Qed.

Lemma from_decoded_fields_spec t v :
  wf_type t = true → typed t v →
  from_decoded_fields t (map dfield_ref (fields_of v)) = Ok (val_ref v).
Proof.
  revert v. induction t as [m|m|m|m|fs IH] using sv2_type_ind'; intros v Hwf Hv;
    inversion Hv as [? ? [Hm Ht]|? ? Hps Hl|? ? Hps Hl|? ? Hps Hl|? ? Hvs]; subst.
  - cbn. unfold prim_try_from.
    rewrite bool_decide_eq_true_2 by by rewrite marker_of_ref. done.
  - cbn [from_decoded_fields fields_of map val_ref]. unfold seq_from_decoded_fields.
    cbn [skipn]. by rewrite drop_0, (mapR_prims m).
  - cbn [from_decoded_fields fields_of map val_ref]. unfold seq_from_decoded_fields.
    cbn [skipn]. by rewrite drop_0, (mapR_prims m).
  - cbn [from_decoded_fields fields_of map val_ref]. unfold seq_from_decoded_fields.
    cbn [skipn]. by rewrite drop_0, (mapR_prims m).
  - rewrite from_decoded_fields_struct. cbn [fields_of val_ref].
    enough (∀ pre, struct_from_decoded fs
      (pre ++ map dfield_ref (map (λ v, collapse (fields_of v)) vs)) =
      Ok (map val_ref vs, pre)) as H by (specialize (H []); cbn [app] in H; by rewrite H).
    clear Hv. revert vs Hvs.
    induction fs as [|[n f] fs IHfs]; intros vs Hvs pre;
      inversion Hvs as [|? v' ? vs' Hv' Hvs']; subst.
    { cbn. by rewrite app_nil_r. }
    apply wf_struct_cons in Hwf as (Hn & Hwff & Hwffs).
    inversion IH as [|? ? IHf IH']; subst. cbn [snd] in *.
    destruct (nest_fields f v' Hn Hv') as [_ Hinto].
    cbn [struct_from_decoded map].
    rewrite cons_middle, app_assoc, (IHfs IH' Hwffs vs' Hvs'). cbn [mbind result_bind].
    rewrite vec_pop_snoc. cbn [ok_or mbind result_bind].
    rewrite into_vec_ref, Hinto, IHf by done. done.
Qed.
