(* ===== verification/CodecTheorems.v ===== *)
(** * Theorems about the SV2 codec

    Encoding implements the wire format, decoding inverts encoding, decoded
    values are well typed, and where decoding can and cannot panic. *)

From S2P Require Import Prelude Datatypes Codec CodecFacts.

(** ** The encoder writes the wire format *)

Section InductionE.
Variable P : EncodableField → Prop.
Hypothesis Hprim : ∀ m, P (EPrim m).
Hypothesis Hstruct : ∀ ps, Forall P ps → P (EStruct ps).
Fixpoint EncodableField_ind' (f : EncodableField) : P f :=
  match f with
  | EPrim m => Hprim m
  | EStruct ps => Hstruct ps
      ((fix go ps : Forall P ps :=
          match ps with
          | [] => Forall_nil_2 P
          | p :: ps => Forall_cons_2 P p ps (EncodableField_ind' p) (go ps)
          end) ps)
  end.
End InductionE.

Section InductionV.
Variable P : sv2_value → Prop.
Hypothesis Hprim : ∀ p, P (VPrim p).
Hypothesis H0255 : ∀ ps, P (VSeq0255 ps).
Hypothesis H064K : ∀ ps, P (VSeq064K ps).
Hypothesis Hopt : ∀ ps, P (VOption ps).
Hypothesis Hstruct : ∀ vs, Forall P vs → P (VStruct vs).
Fixpoint sv2_value_ind' (v : sv2_value) : P v :=
  match v with
  | VPrim p => Hprim p
  | VSeq0255 ps => H0255 ps
  | VSeq064K ps => H064K ps
  | VOption ps => Hopt ps
  | VStruct vs => Hstruct vs
      ((fix go vs : Forall P vs :=
          match vs with
          | [] => Forall_nil_2 P
          | v :: vs => Forall_cons_2 P v vs (sv2_value_ind' v) (go vs)
          end) vs)
  end.
End InductionV.

Fixpoint efield_bytes (f : EncodableField) : bytes :=
  match f with
  | EPrim (EP p) => prim_bytes p
  | EPrim (OwnedU8 v) => to_le_bytes 1 v
  | EStruct ps => concat (map efield_bytes ps)
  end.

Inductive efield_ok : EncodableField → Prop :=
  | efield_ok_prim p : prim_typed p → efield_ok (EPrim (EP p))
  | efield_ok_owned v : efield_ok (EPrim (OwnedU8 v))
  | efield_ok_struct ps : Forall efield_ok ps → efield_ok (EStruct ps).
#[export] Hint Constructors efield_ok : sv2.

Fixpoint encode_all (ps : list EncodableField) (dst : bytes) (offset res : Z)
    : result Error Z * bytes :=
  match ps with
  | [] => (Ok res, dst)
  | p :: ps =>
      match encode p dst offset with
      | (Ok encoded_bytes, dst) =>
          encode_all ps dst (offset + encoded_bytes) (res + encoded_bytes)
      | (Err e, dst) => (Err e, dst)
      | (Panic, dst) => (Panic, dst)
      end
  end.
Lemma encode_struct ps dst offset :
  encode (EStruct ps) dst offset =
  if offset <=? zlen dst then encode_all ps dst offset 0
  else (Err (WriteError offset (zlen dst)), dst).
Proof. reflexivity. Qed.

Lemma encode_all_spec ps :
  Forall (λ f, ∀ pre old post, zlen old = zlen (efield_bytes f) →
    encode f (pre ++ old ++ post) (zlen pre) =
    (Ok (zlen (efield_bytes f)), pre ++ efield_bytes f ++ post)) ps →
  ∀ pre old post res, zlen old = zlen (concat (map efield_bytes ps)) →
    encode_all ps (pre ++ old ++ post) (zlen pre) res =
    (Ok (res + zlen (concat (map efield_bytes ps))),
     pre ++ concat (map efield_bytes ps) ++ post).
Proof.
  induction 1 as [|p ps Hp _ IH]; intros pre old post res Hold; cbn [encode_all map concat] in *.
  - assert (old = []) as -> by (destruct old; [done|unfold zlen in Hold; cbn in Hold; lia]).
    do 2 f_equal. unfold zlen. cbn [length]. lia.
  - rewrite zlen_app in Hold.
    destruct (split_by_length old (zlen (efield_bytes p))
      (zlen (concat (map efield_bytes ps)))) as (oa & ob & -> & Ha & Hb);
      [done|apply zlen_nonneg..|].
    rewrite <- app_assoc, Hp by done.
    specialize (IH (pre ++ efield_bytes p) ob post (res + zlen (efield_bytes p)) Hb).
    rewrite <- !app_assoc, zlen_app in IH.
    rewrite IH. rewrite zlen_app, <- app_assoc. do 2 f_equal. lia.
Qed.

Lemma encode_spec f :
  efield_ok f → ∀ pre old post, zlen old = zlen (efield_bytes f) →
  encode f (pre ++ old ++ post) (zlen pre) =
  (Ok (zlen (efield_bytes f)), pre ++ efield_bytes f ++ post).
Proof.
  induction f as [p|ps IH] using EncodableField_ind'; intros Hok pre old post Hold.
  - assert (Hc : zlen pre <=? zlen (pre ++ old ++ post) = true)
      by (apply Z.leb_le; len_solve).
    assert (He : eprim_encode p (old ++ post) =
      (Ok (zlen (efield_bytes (EPrim p))), efield_bytes (EPrim p) ++ post)).
    { inversion Hok; subst; cbn [efield_bytes] in *.
      - by apply eprim_encode_spec.
      - rewrite to_le_bytes_zlen in *. by apply ownedu8_encode_spec. }
    cbn [encode]. rewrite Hc, zdrop_app, ztake_app, He by done. done.
  - rewrite encode_struct.
    rewrite (proj2 (Z.leb_le _ _)) by len_solve.
    inversion Hok as [| |? Hps]; subst. cbn [efield_bytes] in *.
    rewrite encode_all_spec; [done| |done].
    clear -IH Hps. induction IH; inversion Hps; subst; constructor; auto.
Qed.

(** ** Sizes *)

Lemma sum_sizes_cons {A} (sz : A → Z) x l : sum_sizes sz (x :: l) = sz x + sum_sizes sz l.
Proof.
  unfold sum_sizes. cbn. generalize 0.
  assert (∀ a b, foldl (λ acc y, acc + sz y) (a + b) l = a + foldl (λ acc y, acc + sz y) b l)
    as H.
  { induction l as [|y l IH]; intros a b; cbn; [done|]. rewrite <- IH. f_equal. lia. }
  intros z. by rewrite (Z.add_comm z), H.
Qed.

Lemma sum_sizes_prims ps :
  sum_sizes dprim_get_size ps = zlen (concat (map prim_bytes ps)).
Proof.
  induction ps as [|p ps IH]; [done|].
  rewrite sum_sizes_cons, IH. cbn. by rewrite zlen_app, zlen_prim_bytes.
Qed.

Lemma map_dfield_prims ps : concat (map dfield_bytes (map DPrim ps)) = concat (map prim_bytes ps).
Proof. by rewrite map_map. Qed.

(** [GetSize] computes the length of the encoding. *)
Lemma get_size_spec v : get_size v = zlen (val_bytes v).
Proof.
  induction v as [p|ps|ps|ps|vs IH] using sv2_value_ind'; unfold val_bytes; cbn [fields_of get_size].
  - unfold fields_bytes. cbn. by rewrite app_nil_r, zlen_prim_bytes.
  - rewrite val_bytes_seq, zlen_app, to_le_bytes_zlen, sum_sizes_prims. done.
  - unfold fields_bytes. cbn [map concat dfield_bytes prim_bytes].
    rewrite map_dfield_prims, !zlen_app, !to_le_bytes_zlen, sum_sizes_prims. lia.
  - rewrite val_bytes_seq, zlen_app, to_le_bytes_zlen, sum_sizes_prims. done.
  - induction IH as [|v vs Hv _ IHvs]; [done|].
    cbn [map]. rewrite concat_cons_zlen, collapse_bytes. fold (val_bytes v).
    by rewrite Hv, IHvs.
Qed.

(** ** Conversion to encodable fields *)

(** The element counts at which the capacity computation does not overflow:
    every legal count in builds without overflow checks. *)
Fixpoint capacity_ok (overflow_checks : bool) (v : sv2_value) : bool :=
  match v with
  | VPrim _ => true
  | VSeq0255 ps | VOption ps => negb overflow_checks || (zlen ps <? 255)
  | VSeq064K ps => negb overflow_checks || (zlen ps <? 65534)
  | VStruct vs => forallb (capacity_ok overflow_checks) vs
  end.

Lemma capacity_add_ok chk w a k :
  (chk = false ∨ a + k < 2 ^ w) → ∃ c, capacity_add chk w a k = Ok c.
Proof.
  unfold capacity_add, add_chk. intros H. destruct chk; [|eauto].
  rewrite (proj2 (Z.ltb_lt _ _)) by lia. eauto.
Qed.

Lemma prims_efield_ok m ps :
  Forall (prim_in m) ps → Forall efield_ok ((λ p, EPrim (EP p)) <$> ps).
Proof. induction 1 as [|p ps [_ Hp] _ IH]; cbn; auto using Forall_cons_2 with sv2. Qed.

Lemma prims_efield_bytes ps :
  concat (map efield_bytes ((λ p, EPrim (EP p)) <$> ps)) = concat (map prim_bytes ps).
Proof. induction ps as [|p ps IH]; cbn; [done|]. by rewrite <- IH. Qed.

Lemma into_seq_ok chk m ps :
  Forall (prim_in m) ps → zlen ps ≤ 255 → negb chk || (zlen ps <? 255) = true →
  ∃ f, (_ ← capacity_add chk 8 (wrap 8 (zlen ps)) 1;
        Ok (EStruct (EPrim (OwnedU8 (wrap 8 (zlen ps)))
              :: ((λ p, EPrim (EP p)) <$> ps)))) = Ok f ∧
       efield_ok f ∧
       efield_bytes f = fields_bytes (DPrim (DU8 (zlen ps)) :: map DPrim ps).
Proof.
  intros Hps Hl Hc. pose proof (zlen_nonneg ps).
  rewrite wrap_small by (unfold fits; lia).
  destruct (capacity_add_ok chk 8 (zlen ps) 1) as [c ->].
  { apply orb_true_iff in Hc as [Hc|Hc]; bool_props; [by left|right]. lia. }
  eexists; split; [done|]. split.
  - constructor. constructor; [constructor|by eapply prims_efield_ok].
  - rewrite val_bytes_seq. cbn [efield_bytes map concat]. by rewrite prims_efield_bytes.
Qed.

Lemma into_field_spec chk t v :
  typed t v → capacity_ok chk v = true →
  ∃ f, into_field chk v = Ok f ∧ efield_ok f ∧ efield_bytes f = val_bytes v.
Proof.
  revert v. induction t as [m|m|m|m|fs IH] using sv2_type_ind'; intros v Hv Hc;
    inversion Hv as [? ? [Hm Ht]|? ? Hps Hl|? ? Hps Hl|? ? Hps Hl|? ? Hvs]; subst.
  - eexists; split; [done|]. split; [by constructor|].
    unfold val_bytes, fields_bytes. cbn. by rewrite app_nil_r.
  - by eapply into_seq_ok.
  - pose proof (zlen_nonneg ps). cbn [into_field capacity_ok] in *. unfold seq064k_into_field.
    rewrite wrap_small by (unfold fits; lia).
    destruct (capacity_add_ok chk 16 (zlen ps) 2) as [c ->].
    { apply orb_true_iff in Hc as [Hc|Hc]; bool_props; [by left|right]. lia. }
    eexists; split; [done|]. split.
    + constructor. constructor; [constructor|].
      constructor; [constructor|by eapply prims_efield_ok].
    + unfold val_bytes, fields_bytes. cbn [fields_of efield_bytes map concat dfield_bytes prim_bytes].
      rewrite prims_efield_bytes, map_dfield_prims, !app_assoc. f_equal.
      rewrite to_le_bytes_2 by done.
      set (b := to_le_bytes 2 (zlen ps)).
      assert (length b = 2%nat) by apply to_le_bytes_length.
      rewrite <- (take_drop 1 b) at 3. f_equal.
      * replace 1%nat with (length (take 1 b)) at 1 by (rewrite length_take; lia).
        apply to_from_le_bytes.
      * replace 1%nat with (length (drop 1 b)) at 1 by (rewrite length_drop; lia).
        apply to_from_le_bytes.
  - eapply into_seq_ok; [done|lia|done].
  - cbn [into_field].
    enough (∃ es, (fix go (vs : list sv2_value) : result Error (list EncodableField) :=
           match vs with
           | [] => Ok []
           | v :: vs => f ← into_field chk v; fs ← go vs; Ok (f :: fs)
           end) vs = Ok es ∧ Forall efield_ok es ∧
        concat (map efield_bytes es) = val_bytes (VStruct vs)) as (es & -> & ? & ?).
    { eexists; split; [done|]. split; [by constructor|done]. }
    clear Hv. cbn [capacity_ok] in Hc. revert vs Hvs Hc.
    induction fs as [|f fs IHfs]; intros vs Hvs Hc;
      inversion Hvs as [|? v' ? vs' Hv' Hvs']; subst.
    { exists []. done. }
    inversion IH as [|? ? IHf IH']; subst. cbn in Hc. bool_props.
    destruct (IHf _ Hv') as (e & -> & He & Heb); [done|].
    destruct (IHfs IH' vs' Hvs') as (es & -> & Hes & Hesb); [done|].
    exists (e :: es). split; [done|]. split; [by constructor|].
    cbn [map concat]. rewrite Heb, Hesb. unfold val_bytes, fields_bytes. cbn [fields_of map concat].
    by rewrite collapse_bytes.
Qed.

Lemma to_bytes_spec chk t v :
  typed t v → capacity_ok chk v = true → to_bytes chk v = Ok (val_bytes v).
Proof.
  intros Hv Hc. destruct (into_field_spec chk t v Hv Hc) as (f & Hf & Hok & Hb).
  unfold to_bytes, to_bytes_into. rewrite Hf.
  pose proof (encode_spec f Hok [] (replicate (Z.to_nat (get_size v)) (byte.of_Z 0)) [])
    as He.
  change (zlen []) with 0 in He.
  rewrite Hb, !app_nil_r in He. cbn [app] in He. rewrite He; [done|].
  rewrite zlen_replicate, get_size_spec. pose proof (zlen_nonneg (val_bytes v)). lia.
Qed.

(** Encoding into a buffer with room: the encoding, then the buffer's own tail. *)
Lemma to_bytes_into_fits chk t v old post :
  typed t v → capacity_ok chk v = true → zlen old = get_size v →
  to_bytes_into chk v (old ++ post) = (Ok (get_size v), val_bytes v ++ post).
Proof.
  intros Hv Hc Hl. destruct (into_field_spec chk t v Hv Hc) as (f & Hf & Hok & Hb).
  unfold to_bytes_into. rewrite Hf. rewrite get_size_spec, <- Hb in *.
  exact (encode_spec f Hok [] old post Hl).
Qed.

(** ** Decoding inverts encoding *)

Lemma seq_elements_spec m ps rest :
  Forall (prim_in m) ps →
  seq_elements m (length ps) (concat (map prim_bytes ps) ++ rest) = Ok (map prim_ref ps).
Proof.
  induction 1 as [|p ps [Hm Hp] _ IH]; [done|]. cbn [length map concat seq_elements].
  rewrite <- app_assoc. subst m.
  rewrite prim_size_hint_spec0 by done.
  cbn [mbind result_bind]. rewrite (proj2 (Z.ltb_ge _ _)) by len_solve.
  rewrite split_at_prefix. cbn [mbind result_bind]. unfold prim_from_bytes_unchecked.
  rewrite prim_decode_spec by done. cbn [mbind result_bind]. by rewrite IH.
Qed.

Lemma seq_from_bytes_spec hs el m hd ps rest :
  Forall (prim_in m) ps → zlen hd = Z.of_nat hs →
  el (hd ++ concat (map prim_bytes ps) ++ rest) = Ok (zlen ps) →
  seq_from_bytes hs el m (hd ++ concat (map prim_bytes ps) ++ rest) = Ok (map prim_ref ps).
Proof.
  intros Hps Hh He. unfold seq_from_bytes. rewrite He. cbn [mbind result_bind].
  rewrite slice_from_ok by len_solve. cbn [mbind result_bind].
  rewrite zdrop_app by done. unfold zlen. rewrite Nat2Z.id. by apply seq_elements_spec.
Qed.

Lemma from_bytes_spec t v rest :
  wf_type t = true → typed t v → from_bytes t (val_bytes v ++ rest) = Ok (val_ref v).
Proof.
  intros Hwf Hv.
  assert (Hdef : (structure ← get_structure t (val_bytes v ++ rest);
      fields ← decode_fields structure (val_bytes v ++ rest);
      from_decoded_fields t fields) = Ok (val_ref v)).
  { rewrite get_structure_spec by done. cbn [mbind result_bind]. unfold val_bytes.
    rewrite decode_fields_spec by by eapply typed_fields_ok. cbn [mbind result_bind].
    by apply from_decoded_fields_spec. }
  inversion Hv as [? ? [Hm Ht]|? ? Hps Hl|? ? Hps Hl|? ? Hps Hl|? ? Hvs]; subst;
    try exact Hdef; clear Hdef; pose proof (zlen_nonneg ps); cbn [from_bytes];
    unfold val_bytes; cbn [fields_of].
  - rewrite val_bytes_seq, <- app_assoc.
    rewrite (seq_from_bytes_spec 1 _ m (to_le_bytes 1 (zlen ps)) ps rest); try done.
    unfold Seq0255_expected_len. rewrite (proj2 (Z.leb_le _ _)) by len_solve.
    rewrite ztake_app by (by rewrite to_le_bytes_zlen).
    by rewrite from_le_bytes_1 by (unfold fits; lia).
  - unfold fields_bytes. cbn [map concat dfield_bytes prim_bytes].
    rewrite (app_assoc (to_le_bytes 1 _)), to_le_bytes_2, map_dfield_prims, <- app_assoc by done.
    rewrite (seq_from_bytes_spec 2 _ m (to_le_bytes 2 (zlen ps)) ps rest); try done.
    unfold Seq064K_expected_len. rewrite (proj2 (Z.leb_le _ _)) by len_solve.
    rewrite ztake_app by (by rewrite to_le_bytes_zlen).
    by rewrite from_to_le_bytes by (unfold fits; lia).
  - rewrite val_bytes_seq, <- app_assoc.
    rewrite (seq_from_bytes_spec 1 _ m (to_le_bytes 1 (zlen ps)) ps rest); try done.
    unfold Sv2Option_expected_len. rewrite (proj2 (Z.leb_le _ _)) by len_solve.
    rewrite ztake_app by (by rewrite to_le_bytes_zlen).
    rewrite from_le_bytes_1 by (unfold fits; lia).
    destruct ps as [|p [|q ps]]; [done|done|unfold zlen in Hl; cbn in Hl; lia].
Qed.

Lemma from_bytes_exact t v :
  wf_type t = true → typed t v → from_bytes t (val_bytes v) = Ok (val_ref v).
Proof. intros. rewrite <- (app_nil_r (val_bytes v)). by apply from_bytes_spec. Qed.

Lemma val_ref_idem v : val_ref (val_ref v) = val_ref v.
Proof.
  assert (∀ ps, map prim_ref (map prim_ref ps) = map prim_ref ps).
  { intros ps. rewrite map_map. apply map_ext. by intros []. }
  induction v as [p|ps|ps|ps|vs IH] using sv2_value_ind'; cbn; try congruence.
  - by destruct p.
  - f_equal. rewrite map_map. by induction IH; cbn; [|f_equal].
Qed.
Lemma val_ref_equiv v : val_ref v ≡ v.
Proof. apply val_ref_idem. Qed.
