(* ===== verification/CodecSafety.v ===== *)
(** * What the decoder does on arbitrary bytes

    The default [from_bytes] is total once [get_structure] has returned:
    sizes announced by the hints are re-derived on every sub-slice, so no
    [split_at_mut] and no unchecked read goes out of range, and what is decoded
    has the shape and the size bounds of its type. *)

From S2P Require Import Prelude Datatypes Codec CodecFacts CodecTheorems.

(** ** Size hints under slicing *)

Section InnerHints.
Context (P : inner_params) (HP : params_ok P).

Lemma expected_length_pos data s :
  InnerOps.expected_length P data = Ok s → 0 < s ∧ HEADERSIZE P ≤ s.
Proof using HP.
  unfold InnerOps.expected_length, InnerOps.expected_length_fixed,
    InnerOps.expected_length_variable, params_ok in *.
  destruct (ISFIXED P); cbn; intros H; [inv_res; lia|].
  destruct (HEADERSIZE P <=? zlen data); [|done]. inv_res.
  assert (0 ≤ a0).
  { revert H1. repeat (split_if; [intros; inv_res; apply from_le_bytes_fits|]). done. }
  revert H. split_if; [|done]. intros. inv_res. lia.
Qed.

Lemma expected_length_not_panic data : InnerOps.expected_length P data ≠ Panic.
Proof using HP.
  unfold InnerOps.expected_length, InnerOps.expected_length_variable, params_ok in *.
  destruct (ISFIXED P); cbn; [done|].
  destruct (HEADERSIZE P <=? zlen data); cbn; [|done].
  destruct (Z.eqb_spec (HEADERSIZE P) 1); cbn; [split_if; done|].
  destruct (Z.eqb_spec (HEADERSIZE P) 2); cbn; [split_if; done|].
  destruct (Z.eqb_spec (HEADERSIZE P) 3); cbn; [split_if; done|lia].
Qed.

Lemma expected_length_trunc data s n :
  InnerOps.expected_length P data = Ok s → s ≤ n ≤ zlen data →
  InnerOps.expected_length P (ztake n data) = Ok s.
Proof using HP.
  intros H Hn. destruct (expected_length_pos _ _ H) as [Hpos Hh]. revert H.
  unfold InnerOps.expected_length, InnerOps.expected_length_variable, params_ok in *.
  destruct (ISFIXED P); cbn; [done|].
  rewrite zlen_take by lia.
  rewrite (proj2 (Z.leb_le (HEADERSIZE P) n)), (proj2 (Z.leb_le (HEADERSIZE P) (zlen data)))
    by lia.
  assert (Hk : ∀ k, HEADERSIZE P = k → ztake k (ztake n data) = ztake k data)
    by (intros; apply ztake_ztake; lia).
  destruct (Z.eqb_spec (HEADERSIZE P) 1) as [E|?]; cbn.
  { rewrite Hk by done. split_if; [done|discriminate]. }
  destruct (Z.eqb_spec (HEADERSIZE P) 2) as [E|?]; cbn.
  { rewrite Hk by done. split_if; [done|discriminate]. }
  destruct (Z.eqb_spec (HEADERSIZE P) 3) as [E|?]; cbn; [|done].
  rewrite Hk by done. split_if; [done|discriminate].
Qed.

Lemma inner_hint_Ok data off s :
  0 ≤ off → InnerOps.size_hint P data off = Ok s ↔
  off < zlen data ∧ InnerOps.expected_length P (zdrop off data) = Ok s.
Proof using.
  intros. unfold InnerOps.size_hint. split_if; bool_props.
  - split; [done|lia].
  - rewrite slice_from_ok by lia. cbn. naive_solver.
Qed.

Lemma inner_hint_not_panic data off : 0 ≤ off → InnerOps.size_hint P data off ≠ Panic.
Proof using HP.
  intros. unfold InnerOps.size_hint. split_if; bool_props; [done|].
  rewrite slice_from_ok by lia. apply expected_length_not_panic.
Qed.
End InnerHints.

Lemma prim_hint_pos m data off s :
  0 ≤ off → prim_size_hint m data off = Ok s → 0 < s.
Proof.
  intros Ho. unfold prim_size_hint. destruct (fixed_size m) as [n|] eqn:E.
  - intros [= <-]. destruct m; simplify_eq/=; lia.
  - rewrite inner_hint_Ok by done. intros [_ H].
    apply (expected_length_pos _ (params_of_ok m)) in H. lia.
Qed.

Lemma prim_hint_not_panic m data off : 0 ≤ off → prim_size_hint m data off ≠ Panic.
Proof.
  intros. unfold prim_size_hint. destruct (fixed_size m); [done|].
  apply inner_hint_not_panic; auto with sv2.
Qed.

Lemma prim_hint_shift m data a off s :
  0 ≤ a ≤ zlen data → 0 ≤ off → prim_size_hint m data (a + off) = Ok s →
  prim_size_hint m (zdrop a data) off = Ok s.
Proof.
  intros Ha Ho. unfold prim_size_hint. destruct (fixed_size m); [done|].
  rewrite !inner_hint_Ok by lia. rewrite zlen_drop, zdrop_zdrop by lia.
  intros [? ?]. split; [lia|done].
Qed.

Lemma prim_hint_trunc m data off s n :
  0 ≤ off → prim_size_hint m data off = Ok s → off + s ≤ n ≤ zlen data →
  prim_size_hint m (ztake n data) off = Ok s.
Proof.
  intros Ho H Hn. pose proof (prim_hint_pos _ _ _ _ Ho H) as Hpos. revert H.
  unfold prim_size_hint. destruct (fixed_size m); [done|].
  rewrite !inner_hint_Ok by lia. intros [? H]. rewrite zlen_take by lia.
  split; [lia|]. replace n with (off + (n - off)) by lia. rewrite zdrop_ztake by lia.
  apply expected_length_trunc; auto with sv2. rewrite zlen_drop by lia. lia.
Qed.

(** The same for markers: the loop only depends on [offset + size]. *)
Lemma vec_hint_accum ps data off size :
  vec_size_hint ps data off size = (λ t, t + size) <$> vec_size_hint ps data (off + size) 0.
Proof.
  enough (H : ∀ k, vec_size_hint ps data off (size + k) =
    (λ t, t + size) <$> vec_size_hint ps data (off + size) k).
  { specialize (H 0). by rewrite Z.add_0_r in H. }
  induction ps as [|p ps IH]; intros k; cbn.
  - f_equal. lia.
  - rewrite Z.add_assoc. destruct (field_size_hint p data (off + size + k)); cbn; [|done..].
    rewrite <- Z.add_assoc. apply IH.
Qed.

Lemma vec_hint_cons p ps data off :
  vec_size_hint (p :: ps) data off 0 =
  s ← field_size_hint p data off; (λ t, t + s) <$> vec_size_hint ps data (off + s) 0.
Proof.
  cbn. rewrite Z.add_0_r. destruct (field_size_hint p data off); cbn; [|done..].
  apply vec_hint_accum.
Qed.

Lemma vec_hint_cons_Ok p ps data off t :
  vec_size_hint (p :: ps) data off 0 = Ok t ↔
  ∃ s u, field_size_hint p data off = Ok s ∧
         vec_size_hint ps data (off + s) 0 = Ok u ∧ t = s + u.
Proof.
  rewrite vec_hint_cons. split.
  - intros H. inv_res. do 2 eexists. split_and!; [done|done|]. lia.
  - intros (s & u & -> & H & ->). cbn. rewrite H. cbn. f_equal. lia.
Qed.

Lemma vec_hint_nonneg ps data off s :
  Forall (λ f, ∀ off s, 0 ≤ off → field_size_hint f data off = Ok s → 0 ≤ s) ps →
  0 ≤ off → vec_size_hint ps data off 0 = Ok s → 0 ≤ s.
Proof.
  intros H. revert off s. induction H as [|p ps Hp _ IH]; intros off s Ho.
  - cbn. intros [= <-]. done.
  - rewrite vec_hint_cons_Ok. intros (a & b & Ha & Hb & ->).
    apply Hp in Ha; [|done]. apply IH in Hb; lia.
Qed.

Lemma field_hint_nonneg f data off s :
  0 ≤ off → field_size_hint f data off = Ok s → 0 ≤ s.
Proof.
  revert off s. induction f as [m|ps IH] using FieldMarker_ind'; intros off s Ho.
  - intros H. apply prim_hint_pos in H; lia.
  - rewrite field_size_hint_struct. by apply vec_hint_nonneg.
Qed.

Lemma field_hint_not_panic f data off : 0 ≤ off → field_size_hint f data off ≠ Panic.
Proof.
  revert off. induction f as [m|ps IH] using FieldMarker_ind'; intros off Ho.
  - by apply prim_hint_not_panic.
  - rewrite field_size_hint_struct. revert off Ho.
    induction IH as [|p ps Hp _ IH]; intros off Ho; [done|].
    rewrite vec_hint_cons. specialize (Hp off Ho).
    destruct (field_size_hint p data off) as [s| |] eqn:E; cbn; [|done..].
    apply field_hint_nonneg in E; [|done]. specialize (IH (off + s) ltac:(lia)).
    by destruct (vec_size_hint ps data (off + s) 0).
Qed.

Lemma field_hint_shift f data a off s :
  0 ≤ a ≤ zlen data → 0 ≤ off → field_size_hint f data (a + off) = Ok s →
  field_size_hint f (zdrop a data) off = Ok s.
Proof.
  intros Ha. revert off s. induction f as [m|ps IH] using FieldMarker_ind'; intros off s Ho.
  - by apply prim_hint_shift.
  - rewrite !field_size_hint_struct. revert off s Ho.
    induction IH as [|p ps Hp _ IH]; intros off s Ho; [done|].
    rewrite !vec_hint_cons_Ok. intros (x & y & Hx & Hy & ->).
    assert (0 ≤ x) by (eapply field_hint_nonneg; [|exact Hx]; lia).
    exists x, y. split_and!; [by apply Hp| |done].
    apply IH; [lia|]. by rewrite Z.add_assoc.
Qed.

Lemma field_hint_trunc f data off s n :
  0 ≤ off → field_size_hint f data off = Ok s → off + s ≤ n ≤ zlen data →
  field_size_hint f (ztake n data) off = Ok s.
Proof.
  revert off s. induction f as [m|ps IH] using FieldMarker_ind'; intros off s Ho.
  - by apply prim_hint_trunc.
  - rewrite !field_size_hint_struct. revert off s Ho.
    induction IH as [|p ps Hp _ IH]; intros off s Ho; [done|].
    rewrite !vec_hint_cons_Ok. intros (x & y & Hx & Hy & ->) Hn.
    assert (0 ≤ x) by (eapply field_hint_nonneg; [|exact Hx]; lia).
    assert (0 ≤ y).
    { eapply (vec_hint_nonneg ps); [| |exact Hy]; [|lia].
      apply Forall_true. intros. by eapply field_hint_nonneg. }
    exists x, y. split_and!; [apply Hp; [done|done|lia]| |done].
    apply IH; [lia|done|lia].
Qed.

(** ** Decoding a slice of exactly the hinted size succeeds *)

Definition decoded (f : FieldMarker) (d : DecodableField) : Prop :=
  dfield_marker d = f ∧ dfield_ok d ∧ dfield_ref d = d.

Lemma field_decode_total f data :
  field_size_hint f data 0 = Ok (zlen data) → ∃ d, field_decode f data = Ok d ∧ decoded f d.
Proof.
  revert data. induction f as [m|ps IH] using FieldMarker_ind'; intros data.
  - intros H. destruct (prim_decode_total m data H) as (p & Hp & Hm & Ht & Hr).
    cbn. rewrite Hp. exists (DPrim p). split; [done|]. unfold decoded. cbn.
    rewrite Hm, Hr. auto with sv2.
  - rewrite field_size_hint_struct, field_decode_struct. intros H.
    enough (∃ ds, struct_decode ps data = Ok ds ∧ Forall2 decoded ps ds) as (ds & -> & Hds).
    { exists (DStruct ds). split; [done|]. unfold decoded.
      clear -Hds. induction Hds as [|p d ps ds (<- & Hok & Href) _ (IH1 & IH2 & IH3)].
      - cbn. auto with sv2.
      - inversion IH2; subst. cbn in *. simplify_eq.
        split_and!; [congruence|constructor; by constructor|congruence]. }
    revert data H. induction IH as [|p ps Hp _ IH]; intros data H.
    { exists []. split; [done|constructor]. }
    rewrite vec_hint_cons_Ok in H. destruct H as (x & y & Hx & Hy & Hlen).
    assert (0 ≤ x) by (eapply field_hint_nonneg; [|exact Hx]; lia).
    assert (0 ≤ y).
    { eapply (vec_hint_nonneg ps); [| |exact Hy]; [|lia].
      apply Forall_true. intros. by eapply field_hint_nonneg. }
    cbn [struct_decode]. rewrite Hx. cbn [mbind result_bind].
    rewrite split_at_ok by lia. cbn [mbind result_bind].
    destruct (Hp (ztake x data)) as (d & -> & Hd).
    { rewrite zlen_take by lia. apply field_hint_trunc; [lia|done|lia]. }
    destruct (IH (zdrop x data)) as (ds & Hds & Hds').
    { rewrite zlen_drop by lia. replace (zlen data - x) with y by lia.
      rewrite <- (field_size_hint_struct ps).
      apply field_hint_shift; [lia|lia|]. rewrite field_size_hint_struct.
      by rewrite Z.add_0_r. }
    cbn [mbind result_bind]. rewrite Hds. eexists; split; [done|]. by constructor.
Qed.

Lemma decode_fields_total ms data :
  decode_fields ms data ≠ Panic ∧
  ∀ ds, decode_fields ms data = Ok ds → Forall2 decoded ms ds.
Proof.
  revert data. induction ms as [|m ms IH]; intros data; cbn [decode_fields].
  { split; [done|]. intros ds [= <-]. constructor. }
  pose proof (field_hint_not_panic m data 0 ltac:(lia)) as Hnp.
  destruct (field_size_hint m data 0) as [s| |] eqn:Hs; cbn [mbind result_bind]; [|done..].
  assert (0 ≤ s) by (eapply field_hint_nonneg; [|exact Hs]; lia).
  destruct (Z.ltb_spec (zlen data) s); [done|].
  rewrite split_at_ok by lia. cbn [mbind result_bind].
  destruct (field_decode_total m (ztake s data)) as (d & -> & Hd).
  { rewrite zlen_take by lia. apply field_hint_trunc; [lia|done|lia]. }
  destruct (IH (zdrop s data)) as [IH1 IH2]. cbn [mbind result_bind].
  destruct (decode_fields ms (zdrop s data)) as [ds| |]; cbn; [|done..].
  split; [done|]. intros ? [= <-]. constructor; [done|]. by apply IH2.
Qed.

(** ** Assembling a value from decoded fields *)

Lemma decoded_prims m n ds :
  Forall2 decoded (replicate n (Primitive m)) ds →
  ∃ ps, ds = map DPrim ps ∧ Forall (prim_in m) ps ∧ length ps = n ∧ map prim_ref ps = ps.
Proof.
  revert ds. induction n as [|n IH]; intros ds H; cbn in H.
  - inversion H; subst. exists []. split_and!; [done|constructor|done|done].
  - inversion H as [|? d ? ds' Hd Hds]; subst. destruct (IH _ Hds) as (ps & -> & Hp & <- & Hr).
    destruct Hd as (Hm & Hok & Href). destruct d as [p|]; [|done]. cbn in *. simplify_eq.
    inversion Hok; subst. exists (p :: ps). split_and!; [done|by constructor|done|].
    cbn. congruence.
Qed.

Lemma seq_from_decoded_total hs m n ds :
  Forall2 decoded (replicate hs (Primitive MU8) ++ replicate n (Primitive m)) ds →
  ∃ ps, seq_from_decoded_fields hs m ds = Ok ps ∧ Forall (prim_in m) ps ∧ length ps = n.
Proof.
  intros H. apply Forall2_app_inv_l in H as (ds1 & ds2 & H1 & H2 & ->).
  apply Forall2_length in H1. rewrite length_replicate in H1.
  destruct (decoded_prims m n ds2 H2) as (ps & -> & Hp & Hn & Hr).
  exists ps. split; [|done]. unfold seq_from_decoded_fields.
  rewrite drop_app_length' by done.
  rewrite <- Hr at 2. rewrite <- (mapR_prims m ps Hp). f_equal.
  rewrite !map_map. rewrite <- Hr at 1. rewrite map_map. apply map_ext. done.
Qed.

Lemma seq_expected_bound el m hs bound data ms :
  (∀ k, el data = Ok k → 0 ≤ k ≤ bound) →
  seq_get_structure hs el m data = Ok ms →
  ∃ n, ms = replicate hs (Primitive MU8) ++ replicate n (Primitive m) ∧ Z.of_nat n ≤ bound.
Proof.
  intros Hb H. unfold seq_get_structure in H. inv_res. exists (Z.to_nat a).
  split; [done|]. apply Hb in H0. lia.
Qed.

Lemma Seq0255_len_bound data k : Seq0255_expected_len data = Ok k → 0 ≤ k ≤ 255.
Proof.
  unfold Seq0255_expected_len. split_if; [|done]. intros [= <-]. bool_props.
  pose proof (from_le_bytes_fits (ztake 1 data)) as H. rewrite zlen_take in H by lia.
  unfold fits in H. lia.
Qed.
Lemma Seq064K_len_bound data k : Seq064K_expected_len data = Ok k → 0 ≤ k ≤ 65535.
Proof.
  unfold Seq064K_expected_len. split_if; [|done]. intros [= <-]. bool_props.
  pose proof (from_le_bytes_fits (ztake 2 data)) as H. rewrite zlen_take in H by lia.
  unfold fits in H. lia.
Qed.
Lemma Sv2Option_len_bound data k : Sv2Option_expected_len data = Ok k → 0 ≤ k ≤ 1.
Proof.
  unfold Sv2Option_expected_len. split_if; [|done].
  split_if; [intros [= <-]; lia|]. split_if; [intros [= <-]; lia|done].
Qed.
#[export] Hint Resolve Seq0255_len_bound Seq064K_len_bound Sv2Option_len_bound : sv2.

(** The markers of a nestable type, once collapsed, expand back. *)
Lemma nest_markers f data a m d :
  nest_ok f = true → get_structure f data = Ok a → marker_try_from a = Ok m →
  decoded m d →
  Forall2 decoded a (field_into_vec d) ∧ collapse (field_into_vec d) = d.
Proof.
  intros Hn Ha Hm (Hd & Hok & Href).
  destruct a as [|x [|y a]]; [done| |]; cbn in Hm; simplify_eq.
  - assert (∃ k, dfield_marker d = Primitive k) as [k Hk].
    { destruct f as [k|k|k|k|fs]; cbn in Ha.
      - simplify_eq. eauto.
      - unfold seq_get_structure in Ha. inv_res. destruct (Z.to_nat a); simplify_eq/=; eauto.
      - unfold seq_get_structure in Ha. inv_res. simplify_eq/=.
      - unfold seq_get_structure in Ha. inv_res. destruct (Z.to_nat a); simplify_eq/=; eauto.
      - destruct fs as [|[? []] [|[? ?] ?]]; try done; cbn in Ha; inv_res;
          cbn in *; simplify_eq; eauto. }
    destruct d; [|done]. split; [|done].
    apply Forall2_cons_2; [done|constructor].
  - destruct d as [|ds]; [done|]. cbn in *. simplify_eq. inversion Hok as [|? Hoks]; subst.
    split; [|by destruct ds as [|? [|? ds]]].
    rewrite Hm. clear -Hoks Href. induction Hoks as [|d ds Hd _ IH]; cbn in *; [constructor|].
    simplify_eq. constructor; [done|]. apply IH. congruence.
Qed.

Lemma from_decoded_total t data ms ds :
  wf_type t = true → get_structure t data = Ok ms → Forall2 decoded ms ds →
  ∃ v, from_decoded_fields t ds = Ok v ∧ typed t v.
Proof.
  revert data ms ds. induction t as [m|m|m|m|fs IH] using sv2_type_ind';
    intros data ms ds Hwf Hms Hds.
  - cbn in Hms. simplify_eq. destruct (decoded_prims m 1 ds Hds) as (ps & -> & Hp & Hl & _).
    destruct ps as [|p [|]]; try done. inversion Hp as [|? ? Hin]; subst.
    exists (VPrim p). split; [|by constructor]. cbn. unfold prim_try_from.
    destruct Hin as [Hm _]. by rewrite bool_decide_eq_true_2.
  - destruct (seq_expected_bound _ _ _ 255 _ _ (Seq0255_len_bound _) Hms) as (n & -> & Hn).
    destruct (seq_from_decoded_total _ _ _ _ Hds) as (ps & Hps & Hin & <-).
    exists (VSeq0255 ps). cbn. rewrite Hps. split; [done|]. by constructor.
  - destruct (seq_expected_bound _ _ _ 65535 _ _ (Seq064K_len_bound _) Hms) as (n & -> & Hn).
    destruct (seq_from_decoded_total _ _ _ _ Hds) as (ps & Hps & Hin & <-).
    exists (VSeq064K ps). cbn. rewrite Hps. split; [done|]. by constructor.
  - destruct (seq_expected_bound _ _ _ 1 _ _ (Sv2Option_len_bound _) Hms) as (n & -> & Hn).
    destruct (seq_from_decoded_total _ _ _ _ Hds) as (ps & Hps & Hin & <-).
    exists (VOption ps). cbn. rewrite Hps. split; [done|]. by constructor.
  - rewrite get_structure_struct in Hms. rewrite from_decoded_fields_struct.
    enough (∀ pre, ∃ vs, struct_from_decoded fs (pre ++ ds) = Ok (vs, pre) ∧
      Forall2 (λ f v, typed f.2 v) fs vs) as H.
    { destruct (H []) as (vs & Hvs & Ht). cbn [app] in Hvs. rewrite Hvs.
      exists (VStruct vs). split; [done|by constructor]. }
    revert Hms. generalize 0 as off. revert ms ds Hds.
    induction fs as [|[n f] fs IHfs]; intros ms ds Hds off Hms pre; cbn in Hms.
    { simplify_eq. inversion Hds; subst. rewrite app_nil_r. exists []. split; [done|constructor]. }
    inv_res. inversion Hds as [|? d ? ds' Hd Hds']; subst.
    apply wf_struct_cons in Hwf as (Hn & Hwff & Hwffs).
    inversion IH as [|? ? IHf IH']; subst. cbn [snd] in *.
    destruct (IHfs IH' Hwffs _ _ Hds' _ H3 (pre ++ [d])) as (vs & Hvs & Ht).
    destruct (IHf _ _ _ Hwff H0 (proj1 (nest_markers _ _ _ _ _ Hn H0 H2 Hd))) as (v & Hv & Htv).
    exists (v :: vs). cbn [struct_from_decoded].
    rewrite cons_middle, app_assoc, Hvs. cbn [mbind result_bind].
    rewrite vec_pop_snoc. cbn [ok_or mbind result_bind]. rewrite Hv.
    split; [done|]. by constructor.
Qed.

(** ** The default decoder *)

Lemma default_decode_total t data :
  wf_type t = true → get_structure t data ≠ Panic →
  (structure ← get_structure t data;
   fields ← decode_fields structure data;
   from_decoded_fields t fields) ≠ Panic ∧
  ∀ v, (structure ← get_structure t data;
        fields ← decode_fields structure data;
        from_decoded_fields t fields) = Ok v → typed t v.
Proof.
  intros Hwf Hs. destruct (get_structure t data) as [ms| |] eqn:E; cbn; [|done..].
  destruct (decode_fields_total ms data) as [Hnp Hok].
  destruct (decode_fields ms data) as [ds| |]; cbn; [|done..].
  destruct (from_decoded_total t data ms ds Hwf E (Hok ds eq_refl)) as (v & -> & Ht).
  split; [done|]. by intros ? [= <-].
Qed.

(** Sequences decoded at top level read elements one by one. *)
Lemma seq_elements_total m n tail :
  seq_elements m n tail ≠ Panic ∧
  ∀ ps, seq_elements m n tail = Ok ps → Forall (prim_in m) ps ∧ length ps = n.
Proof.
  revert tail. induction n as [|n IH]; intros tail; cbn [seq_elements].
  { split; [done|]. intros ? [= <-]. split; [constructor|done]. }
  pose proof (prim_hint_not_panic m tail 0 ltac:(lia)) as Hnp.
  destruct (prim_size_hint m tail 0) as [s| |] eqn:Hs; cbn [mbind result_bind]; [|done..].
  assert (0 < s) by (eapply prim_hint_pos; [|exact Hs]; lia).
  destruct (Z.ltb_spec (zlen tail) s); [done|].
  rewrite split_at_ok by lia. cbn [mbind result_bind]. unfold prim_from_bytes_unchecked.
  destruct (prim_decode_total m (ztake s tail)) as (p & -> & Hm & Ht & _).
  { rewrite zlen_take by lia. apply prim_hint_trunc; [lia|done|lia]. }
  destruct (IH (zdrop s tail)) as [IH1 IH2]. cbn [mbind result_bind].
  destruct (seq_elements m n (zdrop s tail)) as [ps| |]; cbn; [|done..].
  split; [done|]. intros ? [= <-]. destruct (IH2 ps eq_refl) as [? <-].
  split; [|done]. by constructor.
Qed.

Lemma seq_from_bytes_total hs el m data bound :
  (∀ k, el data = Ok k → 0 ≤ k ≤ bound ∧ Z.of_nat hs ≤ zlen data) → el data ≠ Panic →
  seq_from_bytes hs el m data ≠ Panic ∧
  ∀ ps, seq_from_bytes hs el m data = Ok ps → Forall (prim_in m) ps ∧ zlen ps ≤ bound.
Proof.
  intros Hb Hnp. unfold seq_from_bytes.
  destruct (el data) as [k| |]; cbn [mbind result_bind]; [|done..].
  destruct (Hb k eq_refl) as [Hk Hlen].
  rewrite slice_from_ok by lia. cbn [mbind result_bind].
  destruct (seq_elements_total m (Z.to_nat k) (zdrop (Z.of_nat hs) data)) as [H1 H2].
  split; [done|]. intros ps Hps. destruct (H2 ps Hps) as [? Hl]. split; [done|].
  unfold zlen. lia.
Qed.

Lemma Seq0255_len_spec data :
  Seq0255_expected_len data ≠ Panic ∧
  ∀ k, Seq0255_expected_len data = Ok k → 0 ≤ k ≤ 255 ∧ 1 ≤ zlen data.
Proof.
  split; [unfold Seq0255_expected_len; by split_if|]. intros k H.
  split; [by eapply Seq0255_len_bound|]. revert H. unfold Seq0255_expected_len.
  split_if; [|done]. by bool_props.
Qed.
Lemma Seq064K_len_spec data :
  Seq064K_expected_len data ≠ Panic ∧
  ∀ k, Seq064K_expected_len data = Ok k → 0 ≤ k ≤ 65535 ∧ 2 ≤ zlen data.
Proof.
  split; [unfold Seq064K_expected_len; by split_if|]. intros k H.
  split; [by eapply Seq064K_len_bound|]. revert H. unfold Seq064K_expected_len.
  split_if; [|done]. by bool_props.
Qed.
Lemma Sv2Option_len_spec data :
  Sv2Option_expected_len data ≠ Panic ∧
  ∀ k, Sv2Option_expected_len data = Ok k → 0 ≤ k ≤ 1 ∧ 1 ≤ zlen data.
Proof.
  split; [unfold Sv2Option_expected_len; repeat split_if; done|]. intros k H.
  split; [by eapply Sv2Option_len_bound|]. revert H. unfold Sv2Option_expected_len.
  split_if; [|done]. by bool_props.
Qed.

Lemma get_structure_seq_not_panic t data :
  (∀ fs, t ≠ TStruct fs) → get_structure t data ≠ Panic.
Proof.
  intros H. destruct t as [m|m|m|m|fs]; cbn; unfold seq_get_structure.
  - done.
  - destruct (Seq0255_len_spec data) as [? _]. by destruct (Seq0255_expected_len data).
  - destruct (Seq064K_len_spec data) as [? _]. by destruct (Seq064K_expected_len data).
  - destruct (Sv2Option_len_spec data) as [? _]. by destruct (Sv2Option_expected_len data).
  - by destruct (H fs).
Qed.

(** The decoder on arbitrary bytes: no panic once the structure is known, and
    whatever is returned is well typed. *)
Lemma from_bytes_total t data :
  wf_type t = true → get_structure t data ≠ Panic →
  from_bytes t data ≠ Panic ∧ ∀ v, from_bytes t data = Ok v → typed t v.
Proof.
  intros Hwf Hs. destruct t as [m|m|m|m|fs]; cbn [from_bytes].
  - by apply default_decode_total.
  - destruct (Seq0255_len_spec data) as [Hp Hb].
    destruct (seq_from_bytes_total 1 _ m data 255 Hb Hp) as [H1 H2].
    split; [by destruct (seq_from_bytes _ _ _ _)|]. intros v Hv. inv_res.
    destruct (H2 _ H). by constructor.
  - destruct (Seq064K_len_spec data) as [Hp Hb].
    destruct (seq_from_bytes_total 2 _ m data 65535 Hb Hp) as [H1 H2].
    split; [by destruct (seq_from_bytes _ _ _ _)|]. intros v Hv. inv_res.
    destruct (H2 _ H). by constructor.
  - destruct (Sv2Option_len_spec data) as [Hp Hb].
    destruct (seq_from_bytes_total 1 _ m data 1 Hb Hp) as [H1 H2].
    split; [by destruct (seq_from_bytes _ _ _ _)|]. intros v Hv. inv_res.
    destruct (H2 _ H). by constructor.
  - by apply default_decode_total.
Qed.
