(* ===== verification/CodecCanonical.v ===== *)
(** * Canonicity of decoding, truncated input and short buffers

    Re-encoding what was decoded gives back the bytes that were consumed
    (types without [bool], whose decoder ignores seven bits); a struct of
    fixed-size fields decodes, fails or panics according to the number of bytes
    present; encoding into a buffer that is too short is an error. *)

From S2P Require Import Prelude Datatypes Codec CodecFacts CodecTheorems CodecSafety.

(** ** Primitives decode to their own encoding *)

Lemma uint_decode_bytes n d v :
  zlen d = Z.of_nat n → CopyTypes.unsigned_from_bytes_unchecked n d = Ok v →
  to_le_bytes n v = d.
Proof.
  intros Hn. unfold CopyTypes.unsigned_from_bytes_unchecked.
  rewrite <- (app_nil_r d) at 1. rewrite slice_range_prefix by done. cbn. intros [= <-].
  replace n with (length d) by (unfold zlen in Hn; lia). apply to_from_le_bytes.
Qed.

Lemma inner_decode_bytes P d i :
  params_ok P → InnerOps.size_hint P d 0 = Ok (zlen d) →
  InnerOps.from_bytes_unchecked P d = Ok i → inner_bytes P i = d.
Proof.
  intros HP Hs. apply inner_size_hint_at0 in Hs. revert Hs.
  unfold InnerOps.from_bytes_unchecked, InnerOps.expected_length,
    InnerOps.expected_length_variable, inner_bytes, params_ok in *.
  destruct (ISFIXED P); cbn [mbind result_bind orb].
  - destruct HP as [-> _]. intros _ [= <-]. done.
  - destruct (Z.leb_spec (HEADERSIZE P) (zlen d)); [|done]. cbn [mbind result_bind].
    intros Hs Hi. inv_res. inv_slice. cbn [inner_as_ref]. rewrite zlen_drop by lia.
    assert (Hz : from_le_bytes (ztake (HEADERSIZE P) d) = zlen d - HEADERSIZE P).
    { assert (a1 + HEADERSIZE P = zlen d) by (revert Hs; split_if; [by intros [= ->]|done]).
      rewrite InnerFacts.from_le_bytes_snoc0 in H2.
      destruct (Z.eqb_spec (HEADERSIZE P) 1) as [E|?]; [rewrite E in *; inv_res; lia|].
      destruct (Z.eqb_spec (HEADERSIZE P) 2) as [E|?]; [rewrite E in *; inv_res; lia|].
      destruct (Z.eqb_spec (HEADERSIZE P) 3) as [E|?]; [rewrite E in *; inv_res; lia|done]. }
    rewrite <- Hz.
    replace (Z.to_nat (HEADERSIZE P)) with (length (ztake (HEADERSIZE P) d)).
    + rewrite to_from_le_bytes. apply ztake_zdrop.
    + pose proof (zlen_take (HEADERSIZE P) d). unfold zlen in *. lia.
Qed.

Lemma prim_decode_bytes m d p :
  m ≠ MBool → prim_size_hint m d 0 = Ok (zlen d) → prim_decode m d 0 = Ok p →
  prim_bytes p = d.
Proof.
  intros Hm Hs Hd. unfold prim_decode in Hd. rewrite slice_from_ok in Hd by len_solve.
  rewrite zdrop_0 in Hd. cbn [mbind result_bind] in Hd.
  destruct m; try done; unfold prim_size_hint in Hs; cbn [fixed_size params_of] in Hs;
    inv_res; cbn [prim_bytes];
    try (eapply uint_decode_bytes; [|done]; done);
    try (eapply inner_decode_bytes; [|done|done]; cbn; lia).
  revert H. unfold CopyTypes.U24_from_bytes_unchecked.
  rewrite <- (app_nil_r d) at 1. rewrite slice_range_prefix by done. cbn. intros [= <-].
  rewrite U24_from_le_bytes_spec.
  replace 3%nat with (length d) by (unfold zlen in Hs; lia). apply to_from_le_bytes.
Qed.

(** ** Fields *)

Fixpoint bool_free_marker (f : FieldMarker) : bool :=
  match f with
  | Primitive m => bool_decide (m ≠ MBool)
  | Struct ps => forallb bool_free_marker ps
  end.

Lemma field_decode_bytes f data d :
  bool_free_marker f = true → field_size_hint f data 0 = Ok (zlen data) →
  field_decode f data = Ok d → dfield_bytes d = data.
Proof.
  revert data d. induction f as [m|ps IH] using FieldMarker_ind'; intros data d Hb.
  - cbn. intros Hs Hd. inv_res. cbn. apply bool_decide_eq_true in Hb.
    by eapply prim_decode_bytes.
  - rewrite field_size_hint_struct, field_decode_struct. intros Hs Hd. inv_res. cbn.
    revert data a Hs H Hb. induction IH as [|p ps Hp _ IH]; intros data ds Hs Hd Hb.
    { cbn in *. simplify_eq. destruct data; [done|]. unfold zlen in Hs. simplify_eq/=. }
    rewrite vec_hint_cons_Ok in Hs. destruct Hs as (x & y & Hx & Hy & Hlen).
    assert (0 ≤ x) by (eapply field_hint_nonneg; [|exact Hx]; lia).
    assert (0 ≤ y).
    { eapply (vec_hint_nonneg ps); [| |exact Hy]; [|lia].
      apply Forall_true. intros. by eapply field_hint_nonneg. }
    cbn [struct_decode] in Hd. rewrite Hx in Hd. cbn [mbind result_bind] in Hd.
    rewrite split_at_ok in Hd by lia. cbn [mbind result_bind] in Hd. inv_res.
    cbn in Hb. bool_props. cbn [map concat].
    rewrite (Hp (ztake x data) a); [|done| |done].
    2: { rewrite zlen_take by lia. apply field_hint_trunc; [lia|done|lia]. }
    rewrite (IH (zdrop x data) a0); [apply ztake_zdrop| |done|done].
    rewrite zlen_drop by lia. replace (zlen data - x) with y by lia.
    rewrite <- (field_size_hint_struct ps). apply field_hint_shift; [lia|lia|].
    rewrite field_size_hint_struct. by rewrite Z.add_0_r.
Qed.

Lemma decode_fields_bytes ms data ds :
  forallb bool_free_marker ms = true → decode_fields ms data = Ok ds →
  ∃ rest, data = fields_bytes ds ++ rest.
Proof.
  revert data ds. induction ms as [|m ms IH]; intros data ds Hb; cbn [decode_fields].
  { intros [= <-]. by exists data. }
  intros H. apply bind_Ok in H as (s & Hs & H).
  assert (0 ≤ s) by (eapply field_hint_nonneg; [|exact Hs]; lia).
  destruct (Z.ltb_spec (zlen data) s); [done|].
  rewrite split_at_ok in H by lia. cbn [mbind result_bind] in H. inv_res.
  cbn in Hb. bool_props.
  destruct (IH (zdrop s data) a0) as [rest Hrest]; [done|done|].
  exists rest. unfold fields_bytes in *. cbn [map concat]. rewrite <- app_assoc, <- Hrest.
  erewrite field_decode_bytes with (data := ztake s data); [by rewrite ztake_zdrop|done| |done].
  rewrite zlen_take by lia. apply field_hint_trunc; [lia|done|lia].
Qed.

(** ** Values *)

Fixpoint bool_free (t : sv2_type) : bool :=
  match t with
  | TPrim m | TSeq0255 m | TSeq064K m | TOption m => bool_decide (m ≠ MBool)
  | TStruct fs => forallb (λ f, bool_free f.2) fs
  end.

Lemma bool_free_replicate n m :
  m ≠ MBool → forallb bool_free_marker (replicate n (Primitive m)) = true.
Proof. intros H. induction n; cbn; [done|]. by rewrite bool_decide_eq_true_2. Qed.

Lemma marker_try_from_bool_free a m :
  marker_try_from a = Ok m → forallb bool_free_marker a = true → bool_free_marker m = true.
Proof.
  destruct a as [|x [|y a]]; intros [= <-]; cbn; [|done]. by rewrite andb_true_r.
Qed.

Lemma get_structure_bool_free t data ms :
  bool_free t = true → get_structure t data = Ok ms → forallb bool_free_marker ms = true.
Proof.
  revert data ms. induction t as [m|m|m|m|fs IH] using sv2_type_ind'; intros data ms Hb;
    cbn [bool_free] in Hb.
  - apply bool_decide_eq_true in Hb. intros [= <-]. by apply (bool_free_replicate 1).
  - apply bool_decide_eq_true in Hb. cbn. unfold seq_get_structure. intros. inv_res.
    cbn. by apply bool_free_replicate.
  - apply bool_decide_eq_true in Hb. cbn. unfold seq_get_structure. intros. inv_res.
    cbn. by apply bool_free_replicate.
  - apply bool_decide_eq_true in Hb. cbn. unfold seq_get_structure. intros. inv_res.
    cbn. by apply bool_free_replicate.
  - rewrite get_structure_struct. generalize 0 as off. revert ms.
    induction IH as [|[n f] fs Hf _ IH]; intros ms off H; cbn in H; [by inv_res|].
    inv_res. cbn in Hb. bool_props. cbn. apply andb_true_iff. split; [|by eauto].
    eapply marker_try_from_bool_free; [done|]. by eapply Hf.
Qed.

Lemma decoded_hint ms ds pre rest :
  Forall2 decoded ms ds →
  vec_size_hint ms (pre ++ fields_bytes ds ++ rest) (zlen pre) 0 = Ok (zlen (fields_bytes ds)).
Proof.
  intros H. assert (ms = map dfield_marker ds) as ->.
  { induction H as [|? ? ? ? [? _] _ IH]; cbn; congruence. }
  apply vec_size_hint_fields. induction H as [|? ? ? ? (_ & ? & _) _ IH]; constructor; done.
Qed.

Lemma into_vec_bytes d : dfield_bytes d = fields_bytes (field_into_vec d).
Proof. destruct d; cbn; [|done]. unfold fields_bytes. cbn. by rewrite app_nil_r. Qed.

Lemma mapR_prims_id m ps :
  Forall (prim_in m) ps →
  mapR (λ element, match element with
    | DPrim p => prim_from_decoded_fields m [DPrim p]
    | DStruct _ => Panic end) (map DPrim ps) = Ok ps.
Proof.
  induction 1 as [|p ps [Hm _] _ IH]; [done|]. cbn [map mapR].
  rewrite IH. unfold prim_from_decoded_fields. cbn. unfold prim_try_from.
  by rewrite bool_decide_eq_true_2.
Qed.

Lemma decoded_header z d ds ms :
  Forall2 decoded (Primitive MU8 :: ms) (d :: ds) → d = DPrim (DU8 z) → fits 8 z.
Proof. intros H ->. by inversion H as [|? ? ? ? (_ & Hok & _) _]; inversion Hok. Qed.

Lemma decoded_u8_cons ms ds :
  Forall2 decoded (Primitive MU8 :: ms) ds →
  ∃ z ds', ds = DPrim (DU8 z) :: ds' ∧ fits 8 z ∧ Forall2 decoded ms ds'.
Proof.
  intros H. inversion H as [|? d ? ds' (Hm & Hok & _) Hds]; subst.
  destruct d as [[]|]; try done. inversion Hok; subst. eauto.
Qed.

Lemma header_1 z l : fits 8 z → from_le_bytes (ztake 1 (to_le_bytes 1 z ++ l)) = z.
Proof.
  intros. rewrite ztake_app by (by rewrite to_le_bytes_zlen). by apply from_le_bytes_1.
Qed.
Lemma header_2 x y l :
  fits 8 x → fits 8 y →
  from_le_bytes (ztake 2 (to_le_bytes 1 x ++ to_le_bytes 1 y ++ l)) = x + 256 * y.
Proof.
  intros Hx Hy. unfold fits in *. set (z := x + 256 * y).
  assert (z `mod` 256 = x) as Hr by (subst z; rewrite Z.mul_comm, Z_mod_plus_full;
    apply Z.mod_small; lia).
  assert (z / 256 = y) as Hq by (subst z; rewrite Z.mul_comm, Z.div_add, Z.div_small; lia).
  rewrite <- Hr, <- Hq, (app_assoc (to_le_bytes 1 _)), to_le_bytes_2 by lia.
  rewrite ztake_app by (by rewrite to_le_bytes_zlen).
  apply from_to_le_bytes. unfold fits. lia.
Qed.

(** A byte-faithful decoding determines every field, headers included. *)
Lemma from_decoded_fields_of t data ms ds v rest :
  wf_type t = true → get_structure t data = Ok ms → Forall2 decoded ms ds →
  data = fields_bytes ds ++ rest → from_decoded_fields t ds = Ok v → fields_of v = ds.
Proof.
  revert data ms ds v rest. induction t as [m|m|m|m|fs IH] using sv2_type_ind';
    intros data ms ds v rest Hwf Hms Hds Hdata Hv.
  - cbn in Hms. simplify_eq. destruct (decoded_prims m 1 ds Hds) as (ps & -> & Hp & Hl & _).
    destruct ps as [|p [|]]; try done. cbn in Hv. unfold prim_try_from in Hv.
    split_if; [|done]. inv_res. simplify_eq/=. done.
  - cbn in Hms. unfold seq_get_structure in Hms. inv_res. cbn in Hds.
    apply decoded_u8_cons in Hds as (z & ds' & -> & Hz & Hds).
    destruct (decoded_prims _ _ _ Hds) as (ps & -> & Hp & Hl & _).
    cbn [from_decoded_fields] in Hv. unfold seq_from_decoded_fields in Hv. cbn [skipn] in Hv.
    rewrite drop_0, mapR_prims_id in Hv by done. inv_res. cbn. do 3 f_equal.
    revert H. unfold Seq0255_expected_len. split_if; [|done].
    unfold fields_bytes. cbn [map concat dfield_bytes prim_bytes].
    rewrite <- app_assoc, header_1 by done. intros [= <-]. unfold zlen, fits in *. lia.
  - cbn in Hms. unfold seq_get_structure in Hms. inv_res. cbn in Hds.
    apply decoded_u8_cons in Hds as (x & ds' & -> & Hx & Hds).
    apply decoded_u8_cons in Hds as (y & ds'' & -> & Hy & Hds).
    destruct (decoded_prims _ _ _ Hds) as (ps & -> & Hp & Hl & _).
    cbn [from_decoded_fields] in Hv. unfold seq_from_decoded_fields in Hv. cbn [skipn] in Hv.
    rewrite drop_0, mapR_prims_id in Hv by done. inv_res. cbn.
    assert (zlen a0 = x + 256 * y) as ->.
    { revert H. unfold Seq064K_expected_len. split_if; [|done].
      unfold fields_bytes. cbn [map concat dfield_bytes prim_bytes].
      rewrite <- !app_assoc, header_2 by done. intros [= <-]. unfold zlen, fits in *. lia. }
    unfold fits in *. do 3 f_equal; [f_equal|].
    + rewrite Z.mul_comm, Z_mod_plus_full. apply Z.mod_small. lia.
    + do 2 f_equal. rewrite Z.mul_comm, Z.div_add, Z.div_small; lia.
  - cbn in Hms. unfold seq_get_structure in Hms. inv_res. cbn in Hds.
    apply decoded_u8_cons in Hds as (z & ds' & -> & Hz & Hds).
    destruct (decoded_prims _ _ _ Hds) as (ps & -> & Hp & Hl & _).
    cbn [from_decoded_fields] in Hv. unfold seq_from_decoded_fields in Hv. cbn [skipn] in Hv.
    rewrite drop_0, mapR_prims_id in Hv by done. inv_res. cbn. do 3 f_equal.
    revert H. unfold Sv2Option_expected_len. split_if; [|done].
    unfold fields_bytes. cbn [map concat dfield_bytes prim_bytes].
    rewrite <- app_assoc, header_1 by done. unfold zlen.
    split_if; [intros [= <-]; bool_props; cbn in Hl; lia|].
    split_if; [intros [= <-]; bool_props; cbn in Hl; lia|done].
  - rewrite get_structure_struct in Hms. rewrite from_decoded_fields_struct in Hv.
    apply bind_Ok in Hv as ([vs k] & Hvs & Hv). injection Hv as <-.
    enough (∀ mid pre off, data = mid ++ fields_bytes ds ++ rest → off = zlen mid →
      struct_structure data fs off = Ok ms → struct_from_decoded fs (pre ++ ds) = Ok (vs, k) →
      k = pre ∧ map (λ v, collapse (fields_of v)) vs = ds) as H.
    { by eapply (H [] [] 0). }
    clear Hms Hvs Hdata. revert ms ds vs k Hds.
    induction fs as [|[n f] fs IHfs]; intros ms ds vs k Hds mid pre off Hdata Hoff Hms Hvs.
    { cbn in *. simplify_eq. inversion Hds; subst. by rewrite app_nil_r. }
    cbn in Hms. inv_res. inv_slice. inversion Hds as [|? d ? ds' Hd Hds']; subst.
    apply wf_struct_cons in Hwf as (Hn & Hwff & Hwffs).
    inversion IH as [|? ? IHf IH']; subst. cbn [snd] in *.
    destruct (nest_markers _ _ _ _ _ Hn H0 H2 Hd) as [Hvec Hcol].
    assert (Hb : fields_bytes (d :: ds') = fields_bytes (field_into_vec d) ++ fields_bytes ds').
    { unfold fields_bytes at 1. cbn [map concat]. by rewrite into_vec_bytes. }
    rewrite Hb, <- app_assoc in H0, H1, H3, IHfs.
    rewrite decoded_hint in H1 by done. inv_res.
    cbn [struct_from_decoded] in Hvs. apply bind_Ok in Hvs as ([vs' k'] & Hvs' & Hvs).
    rewrite cons_middle, app_assoc in Hvs'.
    eapply (IHfs IH' Hwffs a3 ds' vs' k' Hds' (mid ++ fields_bytes (field_into_vec d)))
      in Hvs' as [-> Hmap]; [|by rewrite <- app_assoc|by rewrite zlen_app|done].
    rewrite vec_pop_snoc in Hvs. cbn [ok_or mbind result_bind] in Hvs. inv_res.
    split; [done|]. cbn [map].
    erewrite (IHf _ _ _ _ _ Hwff H0 Hvec); [by rewrite Hcol|by rewrite zdrop_app|done].
Qed.

Lemma from_bytes_canonical fs data v :
  wf_type (TStruct fs) = true → bool_free (TStruct fs) = true →
  from_bytes (TStruct fs) data = Ok v → ∃ rest, data = val_bytes v ++ rest.
Proof.
  intros Hwf Hb H. cbn [from_bytes] in H. inv_res.
  destruct (decode_fields_bytes _ _ _ (get_structure_bool_free _ _ _ Hb H0) H1) as [rest Hr].
  exists rest. unfold val_bytes.
  rewrite (from_decoded_fields_of _ _ _ _ _ rest Hwf H0 (proj2 (decode_fields_total _ _) _ H1) Hr H).
  done.
Qed.

(** ** Encoding into a caller's buffer *)

Lemma split_window (dst : bytes) off n :
  0 ≤ off → 0 ≤ n → off + n ≤ zlen dst →
  ∃ pre old post, dst = pre ++ old ++ post ∧ zlen pre = off ∧ zlen old = n.
Proof.
  intros. destruct (split_by_length dst off (zlen dst - off)) as (pre & r & -> & Hp & Hr);
    [lia..|].
  destruct (split_by_length r n (zlen r - n)) as (old & post & -> & Ho & _); [lia..|].
  eauto 10.
Qed.

Lemma encode_fits f dst off :
  efield_ok f → 0 ≤ off → off + zlen (efield_bytes f) ≤ zlen dst →
  ∃ dst', encode f dst off = (Ok (zlen (efield_bytes f)), dst') ∧ zlen dst' = zlen dst.
Proof.
  intros Hok Ho Hl.
  destruct (split_window dst off (zlen (efield_bytes f)) Ho (zlen_nonneg _) Hl)
    as (pre & old & post & -> & <- & Hold).
  rewrite encode_spec by done. eexists; split; [done|]. rewrite !zlen_app. lia.
Qed.

Lemma eprim_encode_short p dst :
  efield_ok (EPrim p) → zlen dst < zlen (efield_bytes (EPrim p)) →
  ∃ a b, eprim_encode p dst = (Err (WriteError a b), dst).
Proof.
  intros Hok Hl. inversion Hok; subst; cbn [efield_bytes] in Hl.
  - rewrite zlen_prim_bytes in Hl. cbn. unfold to_slice.
    rewrite (proj2 (Z.leb_gt _ _)) by lia. eauto.
  - rewrite to_le_bytes_zlen in Hl. cbn. unfold to_slice.
    rewrite (proj2 (Z.leb_gt _ _)) by lia. eauto.
Qed.

Lemma encode_short f dst off :
  efield_ok f → 0 ≤ off → zlen dst < off + zlen (efield_bytes f) →
  ∃ a b dst', encode f dst off = (Err (WriteError a b), dst') ∧ zlen dst' = zlen dst.
Proof.
  revert dst off. induction f as [p|ps IH] using EncodableField_ind';
    intros dst off Hok Ho Hl.
  - cbn [encode]. destruct (Z.leb_spec off (zlen dst)); [|by eauto 10].
    destruct (eprim_encode_short p (zdrop off dst) Hok) as (a & b & ->).
    { rewrite zlen_drop by lia. lia. }
    exists a, b, dst. split; [|done]. by rewrite ztake_zdrop.
  - rewrite encode_struct. destruct (Z.leb_spec off (zlen dst)); [|by eauto 10].
    inversion Hok as [| |? Hps]; subst. cbn [efield_bytes] in Hl. clear Hok.
    generalize 0 as res. revert dst off Ho Hl H.
    induction IH as [|p ps Hp _ IH]; intros dst off Ho Hl Hoff res; cbn [encode_all map concat] in *.
    { change (zlen []) with 0 in Hl. lia. }
    inversion Hps as [|? ? Hokp Hokps]; subst. rewrite zlen_app in Hl.
    destruct (Z.leb_spec (off + zlen (efield_bytes p)) (zlen dst)).
    + destruct (encode_fits p dst off) as (dst' & -> & Hd); [done..|].
      pose proof (zlen_nonneg (efield_bytes p)).
      destruct (IH Hokps dst' (off + zlen (efield_bytes p))) with
        (res := res + zlen (efield_bytes p)) as (a & b & d & -> & Hd'); [lia..|].
      exists a, b, d. split; [done|]. lia.
    + destruct (Hp dst off Hokp Ho) as (a & b & d & -> & Hd'); [lia|]. eauto 10.
Qed.

(** ** Truncated structs of fixed-size fields *)

(** The struct type with fields of the given primitive types. *)
Definition fixed_struct (ms : list (string * PrimitiveMarker)) : sv2_type :=
  TStruct (map (λ f, (f.1, TPrim f.2)) ms).
Definition fixed_width (m : PrimitiveMarker) : Z :=
  match fixed_size m with Some n => Z.of_nat n | None => 0 end.
Definition all_fixed (ms : list (string * PrimitiveMarker)) : bool :=
  forallb (λ f, bool_decide (is_Some (fixed_size f.2))) ms.
Definition total_width (ms : list (string * PrimitiveMarker)) : Z :=
  foldr (λ f acc, fixed_width f.2 + acc) 0 ms.

Lemma fixed_hint m data off :
  is_Some (fixed_size m) → field_size_hint (Primitive m) data off = Ok (fixed_width m).
Proof. intros [n Hn]. cbn. unfold prim_size_hint, fixed_width. by rewrite Hn. Qed.

Lemma fixed_width_pos m : is_Some (fixed_size m) → 0 < fixed_width m.
Proof. intros [n H]. unfold fixed_width. rewrite H. destruct m; simplify_eq/=; lia. Qed.

Lemma total_width_app l k : total_width (l ++ k) = total_width l + total_width k.
Proof. induction l as [|f l IH]; cbn; [done|]. unfold total_width in *. rewrite IH. lia. Qed.

Lemma total_width_nonneg l : 0 ≤ total_width l.
Proof.
  induction l as [|[n m] l IH]; cbn; [done|]. unfold total_width in IH.
  assert (0 ≤ fixed_width m) by (unfold fixed_width; destruct (fixed_size m); lia).
  cbn in *. lia.
Qed.

Lemma fixed_structure ms last data off :
  all_fixed (ms ++ [last]) = true → 0 ≤ off →
  struct_structure data (map (λ f, (f.1, TPrim f.2)) (ms ++ [last])) off =
  if off + total_width ms <=? zlen data
  then Ok (map (λ f, Primitive f.2) (ms ++ [last])) else Panic.
Proof.
  revert off. induction ms as [|[n m] ms IH]; intros off Hf Ho; cbn in Hf.
  - destruct last as [n m]. bool_props. cbn.
    apply bool_decide_eq_true in H. cbn in H. rewrite Z.add_0_r.
    destruct (Z.leb_spec off (zlen data)).
    + rewrite slice_from_ok by lia. cbn. unfold prim_size_hint.
      destruct H as [k ->]. done.
    + by rewrite slice_from_panic.
  - bool_props. apply bool_decide_eq_true in H. cbn in H.
    pose proof (fixed_width_pos m H). pose proof (total_width_nonneg ms).
    cbn [app map struct_structure fst snd total_width foldr].
    fold (total_width ms).
    destruct (Z.leb_spec off (zlen data)).
    + rewrite slice_from_ok by lia. cbn [mbind result_bind get_structure vec_size_hint].
      rewrite fixed_hint by done. cbn [mbind result_bind marker_try_from].
      rewrite (IH (off + (0 + fixed_width m))) by (done || lia).
      replace (off + (0 + fixed_width m) + total_width ms)
        with (off + (fixed_width m + total_width ms)) by lia.
      by destruct (_ <=? _).
    + rewrite slice_from_panic by done.
      by rewrite (proj2 (Z.leb_gt _ _)) by lia.
Qed.

Lemma fixed_decode_short ms data :
  all_fixed ms = true → zlen data < total_width ms →
  decode_fields (map (λ f, Primitive f.2) ms) data = Err DecodableConversionError.
Proof.
  revert data. induction ms as [|[n m] ms IH]; intros data Hf Hl; cbn in Hf.
  { cbn in Hl. pose proof (zlen_nonneg data). lia. }
  bool_props. apply bool_decide_eq_true in H. cbn in H. pose proof (fixed_width_pos m H).
  cbn [map decode_fields snd]. rewrite fixed_hint by done. cbn [mbind result_bind].
  destruct (Z.ltb_spec (zlen data) (fixed_width m)); [done|].
  rewrite split_at_ok by lia. cbn [mbind result_bind].
  destruct (field_decode_total (Primitive m) (ztake (fixed_width m) data)) as (d & -> & _).
  { rewrite fixed_hint by done. by rewrite zlen_take by lia. }
  cbn [mbind result_bind]. rewrite IH; [done|done|].
  cbn in Hl. fold (total_width ms) in Hl. rewrite zlen_drop by lia. lia.
Qed.

Lemma fixed_decode_long ms data :
  all_fixed ms = true → total_width ms ≤ zlen data →
  ∃ ds, decode_fields (map (λ f, Primitive f.2) ms) data = Ok ds.
Proof.
  revert data. induction ms as [|[n m] ms IH]; intros data Hf Hl; cbn in Hf; [by eauto|].
  bool_props. apply bool_decide_eq_true in H. cbn in H. pose proof (fixed_width_pos m H).
  pose proof (total_width_nonneg ms). cbn in Hl. fold (total_width ms) in Hl.
  cbn [map decode_fields snd]. rewrite fixed_hint by done. cbn [mbind result_bind].
  rewrite (proj2 (Z.ltb_ge _ _)) by lia.
  rewrite split_at_ok by lia. cbn [mbind result_bind].
  destruct (field_decode_total (Primitive m) (ztake (fixed_width m) data)) as (d & -> & _).
  { rewrite fixed_hint by done. by rewrite zlen_take by lia. }
  destruct (IH (zdrop (fixed_width m) data)) as [ds Hds]; [done|rewrite zlen_drop; lia|].
  cbn [mbind result_bind]. rewrite Hds. cbn. eauto.
Qed.

Lemma fixed_struct_wf ms : wf_type (fixed_struct ms) = true.
Proof. unfold fixed_struct. cbn. induction ms as [|f ms IH]; cbn; [done|]. done. Qed.
