(* ===== verification/CodecProperties.v ===== *)
(** * Properties of the SV2 codec

    The statements a user of [binary_sv2] relies on, with witnesses on concrete
    message structs. *)

From S2P Require Import Prelude Datatypes Codec CodecFacts CodecTheorems CodecSafety CodecCanonical.

(** A struct used by the witnesses: [{ a: u32, b: B0255, c: Seq0255<u16> }]. *)
Definition sample_type : sv2_type :=
  TStruct [("a", TPrim MU32); ("b", TPrim MB0255); ("c", TSeq0255 MU16)]%string.
Definition sample_value : sv2_value :=
  VStruct [VPrim (DU32 456); VPrim (DB0255 (Owned (to_le_bytes 3 66051)));
           VSeq0255 [DU16 7; DU16 65535]].

Lemma sample_typed : typed sample_type sample_value.
Proof. apply typedb_sound. by vm_compute. Qed.

(** C5 Round trip: encoding a well-typed value yields exactly [get_size] bytes,
    and decoding these bytes, whatever follows them, returns the value (equal
    under Rust's [==], which does not look at who owns a byte string). *)
Theorem codec_roundtrip (overflow_checks : bool) (t : sv2_type) (v : sv2_value) :
  wf_type t = true → typed t v → capacity_ok overflow_checks v = true →
  ∃ bs, to_bytes overflow_checks v = Ok bs ∧ zlen bs = get_size v ∧
    ∀ rest, ∃ v', from_bytes t (bs ++ rest) = Ok v' ∧ v' ≡ v.
Proof.
  intros Hwf Hv Hc. exists (val_bytes v). rewrite (to_bytes_spec _ t) by done.
  split_and!; [done|by rewrite get_size_spec|]. intros rest. exists (val_ref v).
  rewrite from_bytes_spec by done. split; [done|apply val_ref_equiv].
Qed.

Lemma codec_roundtrip_witness :
  capacity_ok true sample_value = true ∧
  ∃ bs, to_bytes true sample_value = Ok bs ∧ zlen bs = get_size sample_value ∧
    ∀ rest, ∃ v', from_bytes sample_type (bs ++ rest) = Ok v' ∧ v' ≡ sample_value.
Proof.
  split; [reflexivity|].
  apply (codec_roundtrip true sample_type sample_value);
    [reflexivity|exact sample_typed|reflexivity].
Defined.

(** ** Arbitrary input *)

(** A field that is a primitive, a sequence or an option. *)
Definition plain (f : string * sv2_type) : bool := match f.2 with TStruct _ => false | _ => true end.
(** The bytes a field at an offset asks for, by its type and length prefixes;
    none when a prefix is missing or beyond the bound of the type. *)
Definition announced (t : sv2_type) (data : bytes) (o : Z) : option Z :=
  match get_structure t (zdrop o data) with
  | Ok a => match vec_size_hint a data o 0 with Ok s => Some s | _ => None end
  | _ => None
  end.
(** Where a list of fields ends that starts at an offset. *)
Fixpoint extent (data : bytes) (o : Z) (fields : list (string * sv2_type)) : option Z :=
  match fields with
  | [] => Some o
  | f :: fields => s ← announced f.2 data o; extent data (o + s) fields
  end.
(** A field starts behind the end of the data. *)
Definition overrun (data : bytes) (o : Z) (fields : list (string * sv2_type)) : Prop :=
  ∃ before f after e, fields = before ++ f :: after ∧ extent data o before = Some e ∧ zlen data < e.

Lemma overrun_nil data o : ¬ overrun data o [].
Proof. intros (before & f & after & e & E & _). by destruct before. Qed.
Lemma overrun_cons data o f fields :
  overrun data o (f :: fields) ↔ zlen data < o ∨ ∃ s, announced f.2 data o = Some s ∧ overrun data (o + s) fields.
Proof.
  split.
  - intros ([|g before] & h & after & e & E & He & Hl); [left; by injection He as ->|]. injection E as <- ->.
    cbn in He. destruct (announced f.2 data o) as [s|]; [|done]. right. exists s. split; [done|]. by exists before, h, after, e.
  - intros [Hl|(s & Hs & before & h & after & e & -> & He & Hl)]; [by exists [], f, fields, o|].
    exists (f :: before), h, after, e. cbn. by rewrite Hs.
Qed.
Lemma structure_nonempty t data a : (∀ fs, t ≠ TStruct fs) → get_structure t data = Ok a → a ≠ [].
Proof.
  intros Ht E. destruct t; [| | | |by destruct (Ht fields)]; cbn in E; unfold seq_get_structure in E; inv_res; done.
Qed.
(** The size and the marker of a plain field. *)
Lemma plain_field t data o :
  (∀ fs, t ≠ TStruct fs) → 0 ≤ o ≤ zlen data →
  match announced t data o with
  | Some s => 0 ≤ s ∧ ∃ a m, get_structure t (zdrop o data) = Ok a ∧ vec_size_hint a data o 0 = Ok s ∧
      marker_try_from a = Ok m ∧ field_size_hint m (zdrop o data) 0 = Ok s
  | None => ∃ e, (a ← get_structure t (zdrop o data); s ← vec_size_hint a data o 0; marker_try_from a ≫= λ m, Ok (s, m)) = Err e
  end.
Proof.
  intros Ht Ho. unfold announced. pose proof (get_structure_seq_not_panic t (zdrop o data) Ht) as Hnp.
  destruct (get_structure t (zdrop o data)) as [a|e|] eqn:Ea; [|by exists e|done]. cbn [mbind result_bind].
  pose proof (field_hint_not_panic (Struct a) data o ltac:(lia)) as Hnp'. rewrite field_size_hint_struct in Hnp'.
  destruct (vec_size_hint a data o 0) as [s|e|] eqn:Es; [|by exists e|done].
  assert (Hs : field_size_hint (Struct a) data o = Ok s) by (by rewrite field_size_hint_struct).
  split; [by eapply field_hint_nonneg; [|exact Hs]; lia|]. exists a.
  assert (Hm : ∃ m, marker_try_from a = Ok m ∧ field_size_hint m data o = Ok s).
  { destruct a as [|x [|y a]]; [by apply structure_nonempty in Ea|exists x|by eexists].
    split; [done|]. revert Es. cbn. rewrite Z.add_0_r. by destruct (field_size_hint x data o). }
  destruct Hm as (m & Hm & Hs'). exists m. do 3 (split; [done|]). apply field_hint_shift; [lia|lia|by rewrite Z.add_0_r].
Qed.
Lemma struct_outcome data fields o :
  forallb plain fields = true → 0 ≤ o →
  match struct_structure data fields o with
  | Ok ms => ¬ overrun data o fields ∧ ∃ e, extent data o fields = Some e ∧ o ≤ e ∧
      (o ≤ zlen data → if e <=? zlen data then ∃ ds, decode_fields ms (zdrop o data) = Ok ds
                       else ∃ x, decode_fields ms (zdrop o data) = Err x)
  | Err _ => ¬ overrun data o fields ∧ extent data o fields = None
  | Panic => overrun data o fields
  end.
Proof.
  revert o. induction fields as [|[n t] fields IH]; intros o Hp Ho; cbn [struct_structure].
  { split; [apply overrun_nil|]. exists o. split; [done|]. split; [done|]. intros Hl. rewrite (proj2 (Z.leb_le _ _)) by done. by eexists. }
  cbn in Hp. apply andb_true_iff in Hp as [Ht Hp]. destruct (Z.le_gt_cases o (zlen data)) as [Hl|Hl].
  2: { rewrite slice_from_panic by done. cbn. rewrite overrun_cons. left. lia. }
  rewrite slice_from_ok by lia. cbn [mbind result_bind extent snd].
  pose proof (overrun_cons data o (n, t) fields) as Hoc. cbn [snd] in Hoc. assert (Hpt : ∀ fs, t ≠ TStruct fs) by (intros fs ->; done).
  pose proof (plain_field t data o Hpt (conj Ho Hl)) as Hf. destruct (announced t data o) as [s|].
  2: { assert (Hno : ¬ overrun data o ((n, t) :: fields)) by (rewrite Hoc; intros [?|(? & ? & _)]; [lia|done]).
       destruct Hf as [e Hf]. destruct (get_structure t (zdrop o data)) as [a| |]; [|done..]. cbn [mbind result_bind] in *.
       destruct (vec_size_hint a data o 0) as [s| |]; [|done..]. cbn [mbind result_bind] in *. by destruct (marker_try_from a). }
  destruct Hf as (Hs & a & m & -> & Hv & Hm & Hs'). cbn [mbind result_bind]. rewrite Hv. cbn [mbind result_bind]. rewrite Hm.
  cbn [mbind result_bind option_bind]. specialize (IH (o + s) Hp ltac:(lia)).
  destruct (struct_structure data fields (o + s)) as [ms|e|]; cbn [mbind result_bind].
  - destruct IH as (Hno & e & He & Hoe & Hd). split; [rewrite Hoc; intros [?|(s' & [= <-] & ?)]; [lia|done]|].
    exists e. split; [done|]. split; [lia|]. intros _. cbn [decode_fields]. rewrite Hs'. cbn [mbind result_bind].
    rewrite zlen_drop by lia. destruct (Z.ltb_spec (zlen data - o) s).
    { rewrite (proj2 (Z.leb_gt _ _)) by lia. by eexists. }
    rewrite split_at_ok by (rewrite zlen_drop; lia). cbn [mbind result_bind].
    destruct (field_decode_total m (ztake s (zdrop o data))) as (d & -> & _).
    { rewrite zlen_take by (rewrite zlen_drop; lia). apply field_hint_trunc; [lia|done|rewrite zlen_drop; lia]. }
    cbn [mbind result_bind]. rewrite zdrop_zdrop by lia. specialize (Hd ltac:(lia)).
    destruct (e <=? zlen data); destruct (decode_fields ms (zdrop (o + s) data)); cbn; first [by eexists|by destruct Hd].
  - destruct IH as [Hno He]. split; [|done]. rewrite Hoc. intros [?|(s' & [= <-] & ?)]; [lia|done].
  - rewrite Hoc. right. by exists s.
Qed.

Lemma announced_nonneg t data o s : 0 ≤ o → announced t data o = Some s → 0 ≤ s.
Proof.
  intros Ho. unfold announced. destruct (get_structure _ _) as [a| |]; [|done..].
  destruct (vec_size_hint a data o 0) as [x| |] eqn:E; [|done..]. intros [= ->].
  apply (field_hint_nonneg (Struct a) data o); [done|]. by rewrite field_size_hint_struct.
Qed.
Lemma extent_ge data fields o e : 0 ≤ o → extent data o fields = Some e → o ≤ e.
Proof.
  revert o. induction fields as [|f fields IH]; intros o Ho; cbn; [by intros [= ->]|].
  destruct (announced f.2 data o) as [s|] eqn:Es; [|done]. cbn. intros E. apply announced_nonneg in Es; [|done].
  apply IH in E; lia.
Qed.
Lemma overrun_beyond data fields o e : 0 ≤ o → overrun data o fields → extent data o fields = Some e → zlen data < e.
Proof.
  intros Ho (before & f & after & e1 & -> & He1 & Hl). revert o Ho He1.
  induction before as [|g before IH]; intros o Ho He1 He.
  - injection He1 as ->. apply extent_ge in He; lia.
  - cbn in He1, He. destruct (announced g.2 data o) as [s|] eqn:Es; [|done]. apply announced_nonneg in Es; [|done].
    apply (IH (o + s)); [lia|done..].
Qed.
Lemma plain_wf fields : forallb plain fields = true → wf_type (TStruct fields) = true.
Proof.
  induction fields as [|[n t] fields IH]; [done|]. cbn. intros [Ht Hf]%andb_true_iff.
  destruct t; try done; by apply IH.
Qed.

(** C40 Decoding arbitrary bytes: take any struct whose fields are primitives,
    sequences or options, and any input.  Decoding succeeds exactly when the
    length prefixes can be read and all fields end within the input, and then
    gives a value that satisfies every size bound of the type.  It panics exactly
    when a field starts behind the end of the input, so that a field other than
    the last was cut short: the generated [get_structure] slices there without a
    bounds check.  All other inputs are refused with an error. *)
Theorem decode_outcome (fields : list (string * sv2_type)) (data : bytes) :
  forallb plain fields = true →
  ((∃ v, from_bytes (TStruct fields) data = Ok v) ↔ ∃ e, extent data 0 fields = Some e ∧ e ≤ zlen data) ∧
  (∀ v, from_bytes (TStruct fields) data = Ok v → typed (TStruct fields) v) ∧
  (from_bytes (TStruct fields) data = Panic ↔
     ∃ before f after e, fields = before ++ f :: after ∧ extent data 0 before = Some e ∧ zlen data < e).
Proof.
  intros Hp. change (∃ before f after e, _) with (overrun data 0 fields).
  assert (Hwf : wf_type (TStruct fields) = true) by (by apply plain_wf).
  pose proof (struct_outcome data fields 0 Hp ltac:(lia)) as Ho. rewrite <- get_structure_struct in Ho.
  cbn [from_bytes]. destruct (get_structure (TStruct fields) data) as [ms|e|] eqn:Es; cbn [mbind result_bind].
  - destruct Ho as (Hno & e & He & _ & Hd). rewrite He. specialize (Hd (zlen_nonneg data)). rewrite zdrop_0 in Hd.
    destruct (decode_fields_total ms data) as [_ Hds]. destruct (Z.leb_spec e (zlen data)) as [Hl|Hl].
    + destruct Hd as [ds Hd]. rewrite Hd. cbn [mbind result_bind].
      destruct (from_decoded_total _ data ms ds Hwf Es (Hds ds Hd)) as (v & -> & Hv).
      split; [split; [intros _; by exists e|intros _; by exists v]|]. split; [by intros ? [= <-]|by split].
    + destruct Hd as [x ->]. cbn. split; [|split; [done|by split]]. split; [by intros [? ?]|]. intros (e' & [= <-] & ?). lia.
  - destruct Ho as [Hno He]. rewrite He. split; [|split; [done|by split]]. split; [by intros [? ?]|]. by intros (? & ? & _).
  - split; [|split; [done|by split]]. split; [by intros [? ?]|]. intros (e & He & Hl). exfalso.
    apply (overrun_beyond data fields 0 e) in Ho; [lia..|done].
Qed.

(** A length prefix of a field other than the last asks for more than there is. *)
Lemma decode_outcome_witness :
  let fields := [("a", TPrim MB0255); ("b", TSeq0255 MU16)]%string in
  (∃ v, from_bytes (TStruct fields) (to_le_bytes 1 1 ++ to_le_bytes 1 9 ++ to_le_bytes 1 1 ++ to_le_bytes 2 7) = Ok v) ∧
  from_bytes (TStruct fields) (to_le_bytes 1 5 ++ to_le_bytes 1 9) = Panic.
Proof.
  intros fields. destruct (decode_outcome fields (to_le_bytes 1 1 ++ to_le_bytes 1 9 ++ to_le_bytes 1 1 ++ to_le_bytes 2 7) eq_refl) as (Hok & _).
  destruct (decode_outcome fields (to_le_bytes 1 5 ++ to_le_bytes 1 9) eq_refl) as (_ & _ & Hpanic). split.
  - apply Hok. exists 5. split; [vm_compute; reflexivity|vm_compute; discriminate].
  - apply Hpanic. exists [("a", TPrim MB0255)]%string, ("b", TSeq0255 MU16)%string, [], 6. split; [reflexivity|].
    split; vm_compute; reflexivity.
Defined.

(** Canonicity: for a struct without [bool] fields, the bytes a value was
    decoded from start with that value's encoding, so no two byte strings of
    the same length decode to the same value. *)
Theorem decode_canonical (fields : list (string * sv2_type)) (data : bytes)
    (v : sv2_value) :
  wf_type (TStruct fields) = true → bool_free (TStruct fields) = true →
  from_bytes (TStruct fields) data = Ok v →
  ztake (get_size v) data = val_bytes v.
Proof.
  intros Hwf Hb Hd. destruct (from_bytes_canonical _ _ _ Hwf Hb Hd) as [rest ->].
  apply ztake_app, get_size_spec.
Qed.

Lemma decode_canonical_witness :
  let fields := [("a", TPrim MU32); ("b", TPrim MB0255)]%string in
  let data := to_le_bytes 4 1 ++ to_le_bytes 1 2 ++ to_le_bytes 4 77 in
  let v := VStruct [VPrim (DU32 1); VPrim (DB0255 (Ref (to_le_bytes 2 77)))] in
  ztake (get_size v) data = val_bytes v.
Proof.
  apply (decode_canonical [("a", TPrim MU32); ("b", TPrim MB0255)]%string);
    vm_compute; reflexivity.
Defined.

(** Truncated input: a struct of fixed-size fields decodes when all its
    bytes are there, is rejected with an error when only its last field is cut
    short, and panics when fewer bytes arrive than the fields before the last
    one need: the generated [get_structure] slices at the next offset without
    a bounds check. *)
Theorem truncated_struct_behaviour (ms : list (string * PrimitiveMarker))
    (last : string * PrimitiveMarker) (data : bytes) :
  all_fixed (ms ++ [last]) = true →
  let t := fixed_struct (ms ++ [last]) in
  (zlen data < total_width ms → from_bytes t data = Panic) ∧
  (total_width ms ≤ zlen data < total_width (ms ++ [last]) →
     from_bytes t data = Err DecodableConversionError) ∧
  (total_width (ms ++ [last]) ≤ zlen data →
     ∃ v, from_bytes t data = Ok v ∧ typed t v).
Proof.
  intros Hf t. assert (Hs : get_structure t data =
    if total_width ms <=? zlen data
    then Ok (map (λ f, Primitive f.2) (ms ++ [last])) else Panic).
  { subst t. unfold fixed_struct. rewrite get_structure_struct.
    apply (fixed_structure ms last data 0 Hf ltac:(lia)). }
  assert (Hd : from_bytes t data = (structure ← get_structure t data;
    fields ← decode_fields structure data; from_decoded_fields t fields)) by done.
  rewrite Hd, Hs. split_and!.
  - intros. by rewrite (proj2 (Z.leb_gt _ _)).
  - intros [? ?]. rewrite (proj2 (Z.leb_le _ _)) by done. cbn [mbind result_bind].
    by rewrite fixed_decode_short.
  - intros Hl. rewrite total_width_app in Hl.
    pose proof (total_width_nonneg [last]).
    assert (Hok : get_structure t data ≠ Panic)
      by (rewrite Hs, (proj2 (Z.leb_le _ _)) by lia; done).
    destruct (from_bytes_total t data (fixed_struct_wf _) Hok) as [_ Htyped].
    rewrite (proj2 (Z.leb_le _ _)) in Hs |- * by lia. cbn [mbind result_bind].
    destruct (fixed_decode_long (ms ++ [last]) data Hf) as [ds Hds];
      [by rewrite total_width_app|].
    rewrite Hds. cbn [mbind result_bind].
    destruct (from_decoded_total t data _ ds (fixed_struct_wf _) Hs) as (v & Hv & Ht).
    { by apply (decode_fields_total _ data). }
    eauto.
Qed.

Lemma truncated_struct_behaviour_witness :
  from_bytes (fixed_struct [("a", MU32); ("b", MU8)]%string) (to_le_bytes 1 9) = Panic.
Proof.
  apply (truncated_struct_behaviour [("a", MU32)]%string ("b", MU8)%string
           (to_le_bytes 1 9)); vm_compute; reflexivity.
Defined.

(** Encoding into a caller's buffer: a buffer with room gets the encoding
    followed by its own old bytes; a shorter one gets a [WriteError], never a
    panic, and keeps its length. *)
Theorem encode_into_buffer (overflow_checks : bool) (t : sv2_type) (v : sv2_value)
    (dst : bytes) :
  typed t v → capacity_ok overflow_checks v = true →
  (get_size v ≤ zlen dst →
     to_bytes_into overflow_checks v dst =
       (Ok (get_size v), val_bytes v ++ zdrop (get_size v) dst)) ∧
  (zlen dst < get_size v →
     ∃ a b dst', to_bytes_into overflow_checks v dst = (Err (WriteError a b), dst') ∧
       zlen dst' = zlen dst).
Proof.
  intros Hv Hc. destruct (into_field_spec _ t v Hv Hc) as (f & Hf & Hok & Hb).
  split; intros Hl.
  - destruct (split_by_length dst (get_size v) (zlen dst - get_size v))
      as (old & post & -> & Ho & _); [lia|rewrite get_size_spec; apply zlen_nonneg|lia|].
    rewrite zdrop_app by done. by eapply to_bytes_into_fits.
  - unfold to_bytes_into. rewrite get_size_spec, <- Hb in Hl. rewrite Hf.
    by apply encode_short.
Qed.

Lemma encode_into_buffer_witness :
  ∃ a b dst', to_bytes_into true sample_value (to_le_bytes 3 0) = (Err (WriteError a b), dst')
    ∧ zlen dst' = 3.
Proof.
  apply (encode_into_buffer true sample_type sample_value (to_le_bytes 3 0) sample_typed);
    vm_compute; reflexivity.
Defined.

(** The capacity computation of a full [Seq0255]: converting a sequence of
    255 elements computes [255u8 + 1], which panics under overflow checks,
    although [Seq0255::new] accepts the sequence. *)
Theorem full_seq0255_panics (m : PrimitiveMarker) (ps : list DecodablePrimitive) :
  Forall (prim_in m) ps → zlen ps = 255 →
  Seq0255_new ps = Ok (VSeq0255 ps) ∧ to_bytes true (VSeq0255 ps) = Panic ∧
  to_bytes false (VSeq0255 ps) = Ok (val_bytes (VSeq0255 ps)).
Proof.
  intros Hps Hl. split_and!.
  - unfold Seq0255_new. by rewrite Hl.
  - unfold to_bytes, to_bytes_into. cbn [into_field]; unfold seq0255_into_field. by rewrite Hl.
  - apply (to_bytes_spec false (TSeq0255 m)); [|done]. constructor; [done|lia].
Qed.

Lemma full_seq0255_panics_witness :
  to_bytes true (VSeq0255 (replicate 255 (DU8 1))) = Panic.
Proof.
  apply (full_seq0255_panics MU8 (replicate 255 (DU8 1)));
    [apply Forall_replicate; split; [done|cbn; unfold fits; lia]|vm_compute; reflexivity].
Defined.

(** Reader bound: [B032] read from a stream admits one byte more than the
    type allows: the announced length is compared with [MAXSIZE + HEADERSIZE]
    although it does not count the header. *)
Theorem b032_reader_accepts_33 (data rest : bytes) :
  zlen data = 33 →
  InnerOps.from_reader_ B032_params (to_le_bytes 1 33 ++ data ++ rest) = Ok (Owned data, rest)
  ∧ ¬ inner_typed B032_params (Owned data)
  ∧ InnerOps.size_hint B032_params (to_le_bytes 1 33 ++ data ++ rest) 0 =
      Err (ReadError (34 + zlen rest) 32).
Proof.
  intros Hl. pose proof (zlen_nonneg rest).
  assert (Hlen : zlen (to_le_bytes 1 33 ++ data ++ rest) = 34 + zlen rest) by len_solve.
  split_and!.
  - unfold InnerOps.from_reader_, InnerOps.expected_length_for_reader.
    cbn [ISFIXED B032_params HEADERSIZE MAXSIZE].
    rewrite read_exact_app by (by rewrite to_le_bytes_zlen).
    cbn [mbind result_bind]. change (1 =? 1) with true. cbn [mbind result_bind].
    rewrite ztake_ge by (by rewrite to_le_bytes_zlen).
    rewrite from_le_bytes_1 by (unfold fits; lia).
    change (33 <=? 32 + 1) with true. cbn [mbind result_bind].
    by rewrite read_exact_app.
  - cbn. lia.
  - unfold InnerOps.size_hint. rewrite Hlen, (proj2 (Z.leb_gt _ _)) by lia.
    rewrite slice_from_ok, zdrop_0 by lia. cbn [mbind result_bind].
    unfold InnerOps.expected_length, InnerOps.expected_length_variable.
    cbn [ISFIXED B032_params HEADERSIZE MAXSIZE].
    rewrite Hlen, (proj2 (Z.leb_le 1 _)) by lia. change (1 =? 1) with true.
    cbn [mbind result_bind]. rewrite header_1 by (unfold fits; lia). done.
Qed.

Lemma b032_reader_accepts_33_witness :
  InnerOps.from_reader_ B032_params
    (to_le_bytes 1 33 ++ replicate 33 (byte.of_Z 7) ++ []) =
  Ok (Owned (replicate 33 (byte.of_Z 7)), []).
Proof. apply (b032_reader_accepts_33 (replicate 33 (byte.of_Z 7)) []). reflexivity. Defined.

(** The writer path drops length headers: for a byte string of a
    variable-size type, [to_writer] emits the bare data, so its output is
    shorter than the encoding by the header. *)
Theorem writer_drops_header (i : Inner) :
  let out (c : Inner → DecodablePrimitive) := to_writer (EPrim (EP (c i))) in
  let enc (c : Inner → DecodablePrimitive) := val_bytes (VPrim (c i)) in
  zlen (out DB0255) = zlen (enc DB0255) - 1 ∧
  zlen (out DB064K) = zlen (enc DB064K) - 2 ∧
  zlen (out DB016M) = zlen (enc DB016M) - 3 ∧
  out DU256 = enc DU256.
Proof.
  cbn [to_writer eprim_write]. unfold val_bytes, fields_bytes.
  cbn [fields_of map concat dfield_bytes prim_bytes]. rewrite !app_nil_r.
  unfold inner_bytes. rewrite !zlen_app, !to_le_bytes_zlen.
  destruct i; cbn; split_and!; lia || done.
Qed.
