(* ===== verification/Framing.v ===== *)
(** * Frames: the crate [framing_sv2]

    The six-byte header ([header.rs]) and the frames built on it
    ([framing.rs]).  A payload is a value of the codec's universe
    ([sv2_value]); a serialized frame is its bytes. *)

From S2P Require Import Prelude Datatypes Codec CodecFacts CodecTheorems CodecProperties.

(** ** Constants and errors *)

Definition SV2_FRAME_HEADER_SIZE : Z := 6.
Definition AEAD_MAC_LEN : Z := 16.
Definition ENCRYPTED_SV2_FRAME_HEADER_SIZE : Z := SV2_FRAME_HEADER_SIZE + AEAD_MAC_LEN.
Definition SV2_FRAME_CHUNK_SIZE : Z := 65535.

(** [framing_sv2::Error]. *)
Inductive FramingError : Type :=
  | BinarySv2Error (e : Error)
  | ExpectedHandshakeFrame
  | ExpectedSv2Frame
  | UnexpectedHeaderLength (l : Z).

#[global] Instance FramingError_eq_dec : EqDecision FramingError.
Proof. solve_decision. Defined.

(** ** The header *)

Record Header : Type := mkHeader {
  extension_type : Z;
  msg_type : Z;
  msg_length : Z;
}.

#[global] Instance Header_eq_dec : EqDecision Header.
Proof. solve_decision. Defined.

Module HeaderOps.

(** [Header::from_bytes]: the fourth byte of the [u32] is the literal zero. *)
Definition from_bytes (b : bytes) : result FramingError Header :=
  if zlen b <? SV2_FRAME_HEADER_SIZE then Err (UnexpectedHeaderLength (zlen b))
  else
    ext ← slice_range b 0 2;
    ty ← slice_range b 2 3;
    ln ← slice_range b 3 6;
    msg_length ← map_err BinarySv2Error
      (CopyTypes.U24_try_from (from_le_bytes (ln ++ [byte.of_Z 0])));
    Ok (mkHeader (from_le_bytes ext) (from_le_bytes ty) msg_length).

(** [Header::len]. *)
Definition len (h : Header) : Z := msg_length h.

(** [Header::from_len]. *)
Definition from_len (msg_length msg_type extension_type : Z) : option Header :=
  match CopyTypes.U24_try_from msg_length with
  | Ok l => Some (mkHeader extension_type msg_type l)
  | _ => None
  end.

(** [Header::channel_msg]. *)
Definition channel_msg (h : Header) : bool :=
  negb (Z.land (extension_type h) 32768 =? 0).

(** [Header::encrypted_len]: one MAC per started chunk. *)
Definition encrypted_len (h : Header) : Z :=
  let len := len h in
  let chunks := len / (SV2_FRAME_CHUNK_SIZE - AEAD_MAC_LEN) in
  let chunks :=
    if negb (len mod (SV2_FRAME_CHUNK_SIZE - AEAD_MAC_LEN) =? 0) then chunks + 1 else chunks in
  len + chunks * AEAD_MAC_LEN.

(** The header as a value of the codec (its derived [Serialize]). *)
Definition value (h : Header) : sv2_value :=
  VStruct [VPrim (DU16 (extension_type h)); VPrim (DU8 (msg_type h));
           VPrim (DU24 (msg_length h))].
Definition type : sv2_type :=
  TStruct [("extension_type", TPrim MU16); ("msg_type", TPrim MU8);
           ("msg_length", TPrim MU24)]%string.

End HeaderOps.

(** ** Frames *)

(** [Sv2Frame<T, B>]. *)
Record Sv2Frame : Type := mkSv2Frame {
  header : Header;
  payload : option sv2_value;
  serialized : option bytes;
}.

(** [HandShakeFrame]. *)
Record HandShakeFrame : Type := mkHandShakeFrame { hs_payload : bytes }.

(** [Frame<T, B>]. *)
Inductive Frame : Type :=
  | FrameHandShake (f : HandShakeFrame)
  | FrameSv2 (f : Sv2Frame).

(** The bit filter [update_extension_type]. *)
Definition update_extension_type (extension_type : Z) (channel_msg : bool) : Z :=
  if channel_msg then Z.lor extension_type 32768 else Z.land extension_type 32767.

(** [binary_sv2::to_writer]. *)
Definition write_value (overflow_checks : bool) (v : sv2_value) (dst : bytes)
    : result Error unit * bytes :=
  match to_bytes_into overflow_checks v dst with
  | (Ok _, dst) => (Ok tt, dst)
  | (Err e, dst) => (Err e, dst)
  | (Panic, dst) => (Panic, dst)
  end.

Module FrameOps.

(** [Sv2Frame::serialize]: [swap_with_slice] panics on a length mismatch. *)
Definition serialize (overflow_checks : bool) (f : Sv2Frame) (dst : bytes)
    : result FramingError unit * bytes :=
  match serialized f, payload f with
  | Some s, _ => if zlen dst =? zlen s then (Ok tt, s) else (Panic, dst)
  | None, Some payload =>
      match write_value overflow_checks (HeaderOps.value (header f)) dst with
      | (Ok _, dst) =>
          if SV2_FRAME_HEADER_SIZE <=? zlen dst then
            let '(r, tail) :=
              write_value overflow_checks payload (zdrop SV2_FRAME_HEADER_SIZE dst) in
            (map_err BinarySv2Error r, ztake SV2_FRAME_HEADER_SIZE dst ++ tail)
          else (Panic, dst)
      | (r, dst) => (map_err BinarySv2Error r, dst)
      end
  | None, None => (Panic, dst)
  end.

(** [Sv2Frame::payload]. *)
Definition payload_bytes (f : Sv2Frame) : result FramingError bytes :=
  match serialized f with
  | Some s => slice_from s SV2_FRAME_HEADER_SIZE
  | None => Panic
  end.

(** [Sv2Frame::size_hint]. *)
Definition size_hint (b : bytes) : Z :=
  match HeaderOps.from_bytes b with
  | Ok h =>
      if zlen b - SV2_FRAME_HEADER_SIZE =? HeaderOps.len h then 0
      else (zlen b - SV2_FRAME_HEADER_SIZE) + HeaderOps.len h
  | _ => SV2_FRAME_HEADER_SIZE - zlen b
  end.

(** [Sv2Frame::from_bytes_unchecked]. *)
Definition from_bytes_unchecked {E} (b : bytes) : result E Sv2Frame :=
  match HeaderOps.from_bytes b with
  | Ok h => Ok (mkSv2Frame h None (Some b))
  | _ => Panic
  end.

(** [Sv2Frame::from_bytes]: the error is the size hint. *)
Definition from_bytes (b : bytes) : result Z Sv2Frame :=
  let hint := size_hint b in
  if hint =? 0 then from_bytes_unchecked b else Err hint.

(** [Sv2Frame::encoded_length]. *)
Definition encoded_length {E} (f : Sv2Frame) : result E Z :=
  match serialized f, payload f with
  | Some s, _ => Ok (zlen s)
  | None, Some p => Ok (get_size p + SV2_FRAME_HEADER_SIZE)
  | None, None => Panic
  end.

(** [Sv2Frame::from_message]. *)
Definition from_message (message : sv2_value) (message_type extension_type : Z)
    (channel_msg : bool) : option Sv2Frame :=
  let extension_type := update_extension_type extension_type channel_msg in
  let len := wrap 32 (get_size message) in
  (λ h, mkSv2Frame h (Some message) None) <$>
    HeaderOps.from_len len message_type extension_type.

(** [TryFrom<Frame>] for both kinds of frame. *)
Definition try_into_sv2 (f : Frame) : result FramingError Sv2Frame :=
  match f with FrameSv2 f => Ok f | FrameHandShake _ => Err ExpectedSv2Frame end.
Definition try_into_handshake (f : Frame) : result FramingError HandShakeFrame :=
  match f with FrameHandShake f => Ok f | FrameSv2 _ => Err ExpectedHandshakeFrame end.

(** [Frame::encoded_length]. *)
Definition frame_encoded_length {E} (f : Frame) : result E Z :=
  match f with
  | FrameHandShake f => Ok (zlen (hs_payload f))
  | FrameSv2 f => encoded_length f
  end.

(** [handshake_message_to_frame]. *)
Definition handshake_message_to_frame (message : bytes) : HandShakeFrame :=
  mkHandShakeFrame message.

End FrameOps.

(** ** Facts *)

(** The fields are within their machine widths. *)
Definition header_wf (h : Header) : Prop :=
  fits 16 (extension_type h) ∧ fits 8 (msg_type h) ∧ fits 24 (msg_length h).

(** The six header bytes: little-endian fields in declaration order. *)
Definition header_bytes (h : Header) : bytes :=
  to_le_bytes 2 (extension_type h) ++ to_le_bytes 1 (msg_type h)
  ++ to_le_bytes 3 (msg_length h).

Lemma zlen_header_bytes h : zlen (header_bytes h) = SV2_FRAME_HEADER_SIZE.
Proof. unfold header_bytes. by autorewrite with sv2_len. Qed.
#[export] Hint Rewrite zlen_header_bytes : sv2_len.

Lemma header_value_bytes h : val_bytes (HeaderOps.value h) = header_bytes h.
Proof.
  unfold val_bytes, header_bytes, fields_bytes. cbn. by rewrite app_nil_r.
Qed.

Lemma header_value_typed h : header_wf h → typed HeaderOps.type (HeaderOps.value h).
Proof.
  intros (H1 & H2 & H3). unfold HeaderOps.type, HeaderOps.value. constructor.
  repeat (apply Forall2_cons_2; [constructor; split; done|]). constructor.
Qed.


Lemma u24_try_from_fits z : fits 24 z → CopyTypes.U24_try_from z = Ok z.
Proof.
  unfold fits, CopyTypes.U24_try_from. intros. split_if; [done|]. bool_props. lia.
Qed.

Lemma from_le_bytes_pad b : from_le_bytes (b ++ [byte.of_Z 0]) = from_le_bytes b.
Proof. apply InnerFacts.from_le_bytes_snoc0. Qed.

Lemma header_from_bytes h rest :
  header_wf h → HeaderOps.from_bytes (header_bytes h ++ rest) = Ok h.
Proof.
  intros (H1 & H2 & H3). unfold HeaderOps.from_bytes.
  rewrite (proj2 (Z.ltb_ge _ _)) by len_solve.
  unfold header_bytes. rewrite <- !app_assoc.
  rewrite (slice_range_prefix (to_le_bytes 2 _)) by (autorewrite with sv2_len; done).
  cbn [mbind result_bind].
  rewrite (slice_range_mid (to_le_bytes 2 _) (to_le_bytes 1 _) _ 2 3) by (autorewrite with sv2_len; done).
  cbn [mbind result_bind].
  rewrite (app_assoc (to_le_bytes 2 _)).
  rewrite (slice_range_mid _ (to_le_bytes 3 _) _ 3 6) by (autorewrite with sv2_len; done).
  cbn [mbind result_bind].
  rewrite from_le_bytes_pad, !from_to_le_bytes by done.
  rewrite u24_try_from_fits by done. by destruct h.
Qed.



(** Any six bytes are a header, and serialize back to themselves. *)
Lemma header_from_bytes_total b :
  SV2_FRAME_HEADER_SIZE ≤ zlen b →
  ∃ h, HeaderOps.from_bytes b = Ok h ∧ header_wf h ∧
       header_bytes h = ztake SV2_FRAME_HEADER_SIZE b.
Proof.
  unfold SV2_FRAME_HEADER_SIZE. intros Hl.
  set (e := ztake 2 (zdrop 0 b)). set (t := ztake 1 (zdrop 2 b)).
  set (n := ztake 3 (zdrop 3 b)).
  assert (zlen e = 2) by (apply zlen_window; lia).
  assert (zlen t = 1) by (apply zlen_window; lia).
  assert (zlen n = 3) by (apply zlen_window; lia).
  pose proof (from_le_bytes_fits e) as Fe. pose proof (from_le_bytes_fits t) as Ft.
  pose proof (from_le_bytes_fits n) as Fn.
  replace (zlen e) with 2 in Fe by done. replace (zlen t) with 1 in Ft by done.
  replace (zlen n) with 3 in Fn by done.
  exists (mkHeader (from_le_bytes e) (from_le_bytes t) (from_le_bytes n)). split_and!.
  - unfold HeaderOps.from_bytes, SV2_FRAME_HEADER_SIZE.
    rewrite (proj2 (Z.ltb_ge _ _)) by lia.
    rewrite (slice_range_ok b 0 2), (slice_range_ok b 2 3), (slice_range_ok b 3 6) by lia.
    cbn [mbind result_bind]. rewrite from_le_bytes_pad, u24_try_from_fits by done. done.
  - done.
  - unfold header_bytes; cbn [extension_type msg_type msg_length].
    rewrite !to_from_le_bytes_n by done. subst e t n.
    rewrite <- (ztake_zdrop 2 (ztake 6 b)), <- (ztake_zdrop 1 (zdrop 2 (ztake 6 b))).
    rewrite ztake_ztake, zdrop_zdrop by lia.
    change 6 with (2 + 4) at 1. rewrite zdrop_ztake, ztake_ztake by lia.
    change 6 with ((2 + 1) + 3) at 1. rewrite zdrop_ztake by lia. done.
Qed.

Lemma header_from_bytes_short b :
  zlen b < SV2_FRAME_HEADER_SIZE →
  HeaderOps.from_bytes b = Err (UnexpectedHeaderLength (zlen b)).
Proof. intros. unfold HeaderOps.from_bytes. by rewrite (proj2 (Z.ltb_lt _ _)). Qed.

(** The size hint is zero exactly on a complete frame. *)
Lemma size_hint_complete h p :
  header_wf h → FrameOps.size_hint (header_bytes h ++ p) =
    if zlen p =? msg_length h then 0 else zlen p + msg_length h.
Proof.
  intros Hw. unfold FrameOps.size_hint, HeaderOps.len. rewrite header_from_bytes by done.
  by replace (zlen (header_bytes h ++ p) - SV2_FRAME_HEADER_SIZE) with (zlen p) by len_solve.
Qed.

Lemma size_hint_short b :
  zlen b < SV2_FRAME_HEADER_SIZE →
  FrameOps.size_hint b = SV2_FRAME_HEADER_SIZE - zlen b.
Proof. intros. unfold FrameOps.size_hint. by rewrite header_from_bytes_short. Qed.

Lemma write_value_fits chk t v old post :
  typed t v → capacity_ok chk v = true → zlen old = get_size v →
  write_value chk v (old ++ post) = (Ok tt, val_bytes v ++ post).
Proof. intros. unfold write_value. by erewrite to_bytes_into_fits. Qed.

(** Serializing an unserialized frame into a buffer of its encoded length. *)
Lemma serialize_spec chk h t v dst :
  header_wf h → typed t v → capacity_ok chk v = true →
  zlen dst = get_size v + SV2_FRAME_HEADER_SIZE →
  FrameOps.serialize chk (mkSv2Frame h (Some v) None) dst =
    (Ok tt, header_bytes h ++ val_bytes v).
Proof.
  intros Hh Hv Hc Hl. pose proof (get_size_spec v) as Hs. pose proof (zlen_nonneg (val_bytes v)).
  destruct (split_by_length dst SV2_FRAME_HEADER_SIZE (get_size v)) as (a & b & -> & Ha & Hb);
    [lia|done|lia|].
  unfold FrameOps.serialize; cbn [serialized payload header].
  rewrite (write_value_fits chk HeaderOps.type) by
    (rewrite ?get_size_spec, ?header_value_bytes, ?zlen_header_bytes; auto using header_value_typed).
  rewrite header_value_bytes, (proj2 (Z.leb_le _ _)) by len_solve.
  rewrite zdrop_app, ztake_app by (by rewrite zlen_header_bytes).
  rewrite <- (app_nil_r b), (write_value_fits chk t) by done.
  by rewrite app_nil_r.
Qed.

Lemma update_extension_type_fits e c : fits 16 e → fits 16 (update_extension_type e c).
Proof.
  unfold update_extension_type, fits. intros He. destruct c.
  - split; [apply Z.lor_nonneg; lia|].
    apply Z.log2_lt_cancel. rewrite Z.log2_pow2 by lia.
    rewrite Z.log2_lor by lia. apply Z.max_lub_lt; [|done].
    destruct (decide (e = 0)) as [->|]; [done|]. apply Z.log2_lt_pow2; lia.
  - change 32767 with (Z.ones 15). rewrite Z.land_ones by lia.
    pose proof (Z.mod_pos_bound e (2 ^ 15)). lia.
Qed.

Lemma from_message_spec v ty ext c :
  fits 24 (get_size v) → fits 8 ty → fits 16 ext →
  ∃ h, FrameOps.from_message v ty ext c = Some (mkSv2Frame h (Some v) None) ∧ header_wf h ∧
    h = mkHeader (update_extension_type ext c) ty (get_size v).
Proof.
  intros Hs Ht He.
  exists (mkHeader (update_extension_type ext c) ty (get_size v)). split_and!; [| |done].
  - unfold FrameOps.from_message, HeaderOps.from_len.
    rewrite wrap_small by (unfold fits in *; lia). by rewrite u24_try_from_fits.
  - split_and!; [by apply update_extension_type_fits|done|done].
Qed.

Lemma channel_msg_update ext c ty l :
  fits 16 ext → HeaderOps.channel_msg (mkHeader (update_extension_type ext c) ty l) = c.
Proof.
  unfold HeaderOps.channel_msg, update_extension_type. cbn [extension_type]. intros He.
  destruct c.
  - rewrite Z.land_lor_distr_l, Z.land_diag. apply negb_true_iff, Z.eqb_neq.
    intros H. apply Z.lor_eq_0_iff in H as [_ H]. done.
  - rewrite <- Z.land_assoc. change (Z.land 32767 32768) with 0. by rewrite Z.land_0_r.
Qed.

Lemma update_extension_type_low ext c :
  Z.land (update_extension_type ext c) 32767 = Z.land ext 32767.
Proof.
  unfold update_extension_type. destruct c.
  - rewrite Z.land_lor_distr_l. change (Z.land 32768 32767) with 0. by rewrite Z.lor_0_r.
  - by rewrite <- Z.land_assoc.
Qed.

(** [encrypted_len] counts one MAC per chunk of [65519] payload bytes. *)
Lemma encrypted_len_step h n :
  msg_length h = n + (SV2_FRAME_CHUNK_SIZE - AEAD_MAC_LEN) → 0 ≤ n →
  HeaderOps.encrypted_len h =
    SV2_FRAME_CHUNK_SIZE +
    HeaderOps.encrypted_len (mkHeader (extension_type h) (msg_type h) n).
Proof.
  intros Hl Hn. unfold HeaderOps.encrypted_len, HeaderOps.len. cbn [msg_length]. rewrite Hl.
  unfold SV2_FRAME_CHUNK_SIZE, AEAD_MAC_LEN. change (65535 - 16) with 65519.
  replace (n + 65519) with (n + 1 * 65519) by lia.
  rewrite Z.div_add, Z.mod_add by lia. split_if; lia.
Qed.

Lemma encrypted_len_last h :
  0 < msg_length h ≤ SV2_FRAME_CHUNK_SIZE - AEAD_MAC_LEN →
  HeaderOps.encrypted_len h = msg_length h + AEAD_MAC_LEN.
Proof.
  unfold HeaderOps.encrypted_len, HeaderOps.len, SV2_FRAME_CHUNK_SIZE, AEAD_MAC_LEN.
  change (65535 - 16) with 65519. intros Hl.
  destruct (decide (msg_length h = 65519)) as [->|]; [done|].
  rewrite Z.div_small, Z.mod_small by lia. split_if; bool_props; lia.
Qed.

(** A message framed, serialized and parsed back. *)
Lemma framed_message chk t v ty ext c :
  typed t v → capacity_ok chk v = true → fits 24 (get_size v) → fits 8 ty → fits 16 ext →
  let h := mkHeader (update_extension_type ext c) ty (get_size v) in
  let wire := header_bytes h ++ val_bytes v in
  FrameOps.from_message v ty ext c = Some (mkSv2Frame h (Some v) None) ∧
  FrameOps.encoded_length (E := FramingError) (mkSv2Frame h (Some v) None) = Ok (zlen wire) ∧
  (∀ dst, zlen dst = zlen wire →
     FrameOps.serialize chk (mkSv2Frame h (Some v) None) dst = (Ok tt, wire)) ∧
  FrameOps.from_bytes wire = Ok (mkSv2Frame h None (Some wire)) ∧
  FrameOps.payload_bytes (mkSv2Frame h None (Some wire)) = Ok (val_bytes v).
Proof.
  intros Hv Hc Hs Ht He h wire.
  destruct (from_message_spec v ty ext c Hs Ht He) as (h' & Hm & Hh & Eh). fold h in Eh. subst h'.
  pose proof (get_size_spec v) as Hg. pose proof (zlen_nonneg (val_bytes v)).
  assert (Hw : zlen wire = get_size v + SV2_FRAME_HEADER_SIZE) by (subst wire; len_solve).
  split_and!; [done| | | |].
  - unfold FrameOps.encoded_length; cbn. by rewrite Hw.
  - intros dst Hd. apply (serialize_spec chk h t); [done..|lia].
  - unfold FrameOps.from_bytes, FrameOps.from_bytes_unchecked. subst wire.
    rewrite size_hint_complete, header_from_bytes by done.
    rewrite (proj2 (Z.eqb_eq (zlen (val_bytes v)) (msg_length h))); [done|]. cbn [h msg_length]. lia.
  - unfold FrameOps.payload_bytes; cbn [serialized].
    rewrite slice_from_ok by (unfold SV2_FRAME_HEADER_SIZE in *; lia).
    subst wire. by rewrite zdrop_app by (by rewrite zlen_header_bytes).
Qed.

(** * Properties of the frame layer *)
(** Frame round trip: a message whose encoding fits 24 bits becomes a frame
    that serializes, into a buffer of the announced length, to bytes that
    [Sv2Frame::from_bytes] accepts; the parsed header carries the message type,
    the extension number and the channel bit that were asked for, and the
    payload decodes to the message. *)
Theorem frame_roundtrip (overflow_checks : bool) (t : sv2_type) (message : sv2_value)
    (message_type ext : Z) (channel : bool) :
  wf_type t = true → typed t message → capacity_ok overflow_checks message = true →
  fits 24 (get_size message) → fits 8 message_type → fits 16 ext →
  ∃ frame len wire f,
    FrameOps.from_message message message_type ext channel = Some frame ∧
    FrameOps.encoded_length (E := FramingError) frame = Ok len ∧
    (∀ dst, zlen dst = len →
       FrameOps.serialize overflow_checks frame dst = (Ok tt, wire)) ∧
    zlen wire = len ∧
    FrameOps.from_bytes wire = Ok f ∧
    header f = header frame ∧
    msg_type (header f) = message_type ∧
    HeaderOps.channel_msg (header f) = channel ∧
    Z.land (extension_type (header f)) 32767 = Z.land ext 32767 ∧
    ∃ p v, FrameOps.payload_bytes f = Ok p ∧ from_bytes t p = Ok v ∧ v ≡ message.
Proof.
  intros Hwf Hv Hc Hs Ht He.
  destruct (framed_message overflow_checks t message message_type ext channel Hv Hc Hs Ht He)
    as (E1 & E2 & E3 & E4 & E5).
  eexists _, _, _, _. split; [exact E1|]. split; [exact E2|]. split; [exact E3|].
  split; [done|]. split; [exact E4|]. split_and!; [done|done| | |].
  - by apply channel_msg_update.
  - apply update_extension_type_low.
  - exists (val_bytes message), (val_ref message). split; [exact E5|]. split.
    + rewrite <- (app_nil_r (val_bytes message)). by apply from_bytes_spec.
    + apply val_ref_equiv.
Qed.

Lemma frame_roundtrip_witness :
  ∃ frame, FrameOps.from_message sample_value 26 0 true = Some frame ∧
    HeaderOps.channel_msg (header frame) = true.
Proof.
  destruct (frame_roundtrip true sample_type sample_value 26 0 true) as
    (frame & _ & _ & f & Hm & _ & _ & _ & _ & Hh & _ & Hc & _);
    [by vm_compute|apply typedb_sound; by vm_compute|by vm_compute|by vm_compute..|].
  exists frame. split; [exact Hm|]. rewrite <- Hh. exact Hc.
Defined.

(** What [Sv2Frame::from_bytes] does on every input: fewer than six bytes
    ask for the missing header bytes; a frame whose payload has the announced
    length is accepted with that header and payload; any other input is
    refused, with the sum of the present and the announced payload length as
    the "missing" count.  It never panics. *)
Theorem frame_from_bytes_cases (b : bytes) :
  (zlen b < SV2_FRAME_HEADER_SIZE →
     FrameOps.from_bytes b = Err (SV2_FRAME_HEADER_SIZE - zlen b)) ∧
  (∀ h p, header_wf h → b = header_bytes h ++ p →
     FrameOps.from_bytes b =
       if zlen p =? msg_length h then Ok (mkSv2Frame h None (Some b))
       else Err (zlen p + msg_length h)) ∧
  FrameOps.from_bytes b ≠ Panic.
Proof.
  assert (Hshort : zlen b < SV2_FRAME_HEADER_SIZE →
     FrameOps.from_bytes b = Err (SV2_FRAME_HEADER_SIZE - zlen b)).
  { intros Hl. unfold FrameOps.from_bytes. rewrite size_hint_short by done.
    by rewrite (proj2 (Z.eqb_neq _ _)) by lia. }
  assert (Hfull : ∀ h p, header_wf h → b = header_bytes h ++ p →
     FrameOps.from_bytes b =
       if zlen p =? msg_length h then Ok (mkSv2Frame h None (Some b))
       else Err (zlen p + msg_length h)).
  { intros h p Hw ->. unfold FrameOps.from_bytes, FrameOps.from_bytes_unchecked.
    rewrite size_hint_complete, header_from_bytes by done.
    destruct (zlen p =? msg_length h) eqn:E; [done|]. bool_props.
    destruct Hw as (_ & _ & [? _]). pose proof (zlen_nonneg p).
    by rewrite (proj2 (Z.eqb_neq _ _)) by lia. }
  split_and!; [done|done|].
  destruct (decide (zlen b < SV2_FRAME_HEADER_SIZE)) as [Hl|Hl]; [by rewrite Hshort|].
  destruct (header_from_bytes_total b) as (h & _ & Hw & Hb); [lia|].
  rewrite (Hfull h (zdrop SV2_FRAME_HEADER_SIZE b) Hw)
    by (by rewrite Hb, ztake_zdrop).
  by split_if.
Qed.
