(* ===== verification/Buffer.v ===== *)
(** * Buffers: the [Buffer] trait of [buffer_sv2] and [BufferFromSystemMemory]

    [Buffer] is the interface the codec is written against ([lib.rs]);
    [BufferFromSystemMemory] ([buffer.rs]) is the implementation used when no
    buffer pool is configured.  A [&mut [u8]] returned by [get_writable] is the
    last window of the written part; writing through it is [write_window]. *)

From S2P Require Import Prelude.

(** ** The interface *)

Class Buffer (B : Type) : Type := {
  (** the window handed out, and the buffer after the call *)
  get_writable : B → Z → bytes * B;
  write_window : B → bytes → B;
  get_data_owned : B → bytes * B;
  get_data_by_ref : B → Z → bytes;
  buf_len : B → Z;
  danger_set_start : B → Z → B;
  (** [AsRef<[u8]>]: the written part from the start index on *)
  as_ref : ∀ {E}, B → result E bytes;
  (** [aead::Buffer] *)
  extend_from_slice : B → bytes → B;
  truncate : B → Z → B;
}.

(** What the codec relies on: the written bytes and the start index. *)
Class BufferSpec (B : Type) `{Buffer B} : Type := {
  buf_ok : B → Prop;
  contents : B → bytes;
  start_of : B → Z;
  get_writable_spec b n : buf_ok b → 0 ≤ n →
    ∃ w b', get_writable b n = (w, b') ∧ buf_ok b' ∧ zlen w = n ∧
      contents b' = contents b ++ w ∧ start_of b' = start_of b;
  write_window_spec b c w0 w : buf_ok b → contents b = c ++ w0 → zlen w = zlen w0 →
    buf_ok (write_window b w) ∧ contents (write_window b w) = c ++ w ∧
    start_of (write_window b w) = start_of b;
  get_data_owned_spec b : buf_ok b →
    ∃ b', get_data_owned b = (contents b, b') ∧ buf_ok b' ∧ contents b' = [] ∧
      start_of b' = start_of b;
  get_data_by_ref_spec b n : buf_ok b → 0 ≤ n → get_data_by_ref b n = ztake n (contents b);
  buf_len_spec b : buf_ok b → buf_len b = zlen (contents b);
  danger_set_start_spec b n : buf_ok b →
    buf_ok (danger_set_start b n) ∧ contents (danger_set_start b n) = contents b ∧
    start_of (danger_set_start b n) = n;
  as_ref_spec E b : buf_ok b → as_ref (E := E) b = slice_from (contents b) (start_of b);
  extend_from_slice_spec b s : buf_ok b →
    buf_ok (extend_from_slice b s) ∧ contents (extend_from_slice b s) = contents b ++ s ∧
    start_of (extend_from_slice b s) = start_of b;
  truncate_spec b n : buf_ok b → 0 ≤ start_of b → 0 ≤ n → start_of b + n ≤ zlen (contents b) →
    buf_ok (truncate b n) ∧ contents (truncate b n) = ztake (start_of b + n) (contents b) ∧
    start_of (truncate b n) = start_of b;
}.

(** ** [BufferFromSystemMemory] *)

Record BufferFromSystemMemory : Type := mkSysBuffer {
  inner : bytes;
  cursor : Z;
  start : Z;
}.

Module SysMem.

Definition new : BufferFromSystemMemory := mkSysBuffer [] 0 0.

(** [Vec::resize(len, 0)] when the vector is too short. *)
Definition resize_up (v : bytes) (len : Z) : bytes :=
  if zlen v <? len then v ++ replicate (Z.to_nat (len - zlen v)) (byte.of_Z 0) else v.

Definition get_writable (b : BufferFromSystemMemory) (len : Z)
    : bytes * BufferFromSystemMemory :=
  let cur := cursor b in
  let len := cursor b + len in
  let v := resize_up (inner b) len in
  (ztake (len - cur) (zdrop cur v), mkSysBuffer v len (start b)).

(** A write through the window that [get_writable] returned last. *)
Definition write_window (b : BufferFromSystemMemory) (w : bytes) : BufferFromSystemMemory :=
  mkSysBuffer (overwrite (inner b) (cursor b - zlen w) w) (cursor b) (start b).

(** [split_off(cursor)], the swap, and the reset of the cursor. *)
Definition get_data_owned (b : BufferFromSystemMemory) : bytes * BufferFromSystemMemory :=
  (ztake (cursor b) (inner b), mkSysBuffer (zdrop (cursor b) (inner b)) 0 (start b)).

Definition get_data_by_ref (b : BufferFromSystemMemory) (len : Z) : bytes :=
  ztake (Z.min len (cursor b)) (inner b).

Definition len (b : BufferFromSystemMemory) : Z := cursor b.

Definition danger_set_start (b : BufferFromSystemMemory) (index : Z)
    : BufferFromSystemMemory := mkSysBuffer (inner b) (cursor b) index.

Definition as_ref {E} (b : BufferFromSystemMemory) : result E bytes :=
  slice_from (get_data_by_ref b (len b)) (start b).

Definition extend_from_slice (b : BufferFromSystemMemory) (other : bytes)
    : BufferFromSystemMemory :=
  let '(_, b) := get_writable b (zlen other) in write_window b other.

Definition truncate (b : BufferFromSystemMemory) (len : Z) : BufferFromSystemMemory :=
  mkSysBuffer (inner b) (len + start b) (start b).

End SysMem.

#[global] Instance SysMem_Buffer : Buffer BufferFromSystemMemory := {|
  get_writable := SysMem.get_writable;
  write_window := SysMem.write_window;
  get_data_owned := SysMem.get_data_owned;
  get_data_by_ref := SysMem.get_data_by_ref;
  buf_len := SysMem.len;
  danger_set_start := SysMem.danger_set_start;
  as_ref := @SysMem.as_ref;
  extend_from_slice := SysMem.extend_from_slice;
  truncate := SysMem.truncate;
|}.

(** ** [BufferFromSystemMemory] implements the interface *)

Definition sys_ok (b : BufferFromSystemMemory) : Prop := 0 ≤ cursor b ≤ zlen (inner b).
Definition sys_contents (b : BufferFromSystemMemory) : bytes := ztake (cursor b) (inner b).

Lemma resize_up_prefix v len :
  ∃ z, SysMem.resize_up v len = v ++ z ∧ len ≤ zlen (SysMem.resize_up v len).
Proof.
  unfold SysMem.resize_up. split_if; bool_props.
  - eexists; split; [done|]. autorewrite with sv2_len. lia.
  - exists []. rewrite app_nil_r. split; [done|lia].
Qed.

Lemma ztake_plus {A} (l : list A) n m :
  0 ≤ n → 0 ≤ m → ztake (n + m) l = ztake n l ++ ztake m (zdrop n l).
Proof.
  intros. rewrite <- (zdrop_ztake n m) by done.
  rewrite <- (ztake_zdrop n (ztake (n + m) l)) at 1. by rewrite ztake_ztake by lia.
Qed.

Lemma sys_get_writable b n :
  sys_ok b → 0 ≤ n →
  ∃ w b', SysMem.get_writable b n = (w, b') ∧ sys_ok b' ∧ zlen w = n ∧
    sys_contents b' = sys_contents b ++ w ∧ start b' = start b.
Proof.
  intros [H1 H2] Hn. unfold SysMem.get_writable, sys_contents.
  destruct (resize_up_prefix (inner b) (cursor b + n)) as (z & Ez & Hz).
  eexists _, _; split; [done|]. unfold sys_ok; cbn [inner cursor start].
  replace (cursor b + n - cursor b) with n by lia. split_and!; [lia|lia| | |done].
  - rewrite zlen_window by lia. done.
  - rewrite ztake_plus by lia. f_equal. by rewrite Ez, ztake_app_le.
Qed.

Lemma zdrop_past {A} (a w c : list A) : zdrop (zlen (a ++ w)) (a ++ w ++ c) = c.
Proof. by rewrite app_assoc, zdrop_app. Qed.

Lemma sys_write_window b c w0 w :
  sys_ok b → sys_contents b = c ++ w0 → zlen w = zlen w0 →
  sys_ok (SysMem.write_window b w) ∧ sys_contents (SysMem.write_window b w) = c ++ w ∧
  start (SysMem.write_window b w) = start b.
Proof.
  unfold sys_contents. intros [H1 H2] Hc Hw.
  pose proof (f_equal zlen Hc) as Hl. rewrite zlen_take, zlen_app in Hl by lia.
  unfold SysMem.write_window, sys_ok; cbn [inner cursor start].
  rewrite <- (ztake_zdrop (cursor b) (inner b)) at 1 2. rewrite Hc, <- app_assoc.
  replace (cursor b - zlen w) with (zlen c) by lia.
  rewrite overwrite_app by done. rewrite app_assoc. split_and!; [lia| |by rewrite ztake_app by len_solve|done].
  rewrite !zlen_app. pose proof (zlen_nonneg (zdrop (cursor b) (inner b))). lia.
Qed.

#[global] Instance SysMem_spec : BufferSpec BufferFromSystemMemory.
Proof.
  refine {| buf_ok := sys_ok; contents := sys_contents; start_of := start |};
    cbn [get_writable write_window get_data_owned get_data_by_ref buf_len
         danger_set_start as_ref extend_from_slice truncate SysMem_Buffer].
  - apply sys_get_writable.
  - apply sys_write_window.
  - intros b [H1 H2]. eexists; split; [done|]. unfold sys_ok, sys_contents; cbn.
    split_and!; [lia|apply zlen_nonneg|done|done].
  - intros b n [H1 H2] Hn. unfold SysMem.get_data_by_ref, sys_contents.
    destruct (decide (n ≤ cursor b)).
    + rewrite Z.min_l by done. by rewrite ztake_ztake.
    + rewrite Z.min_r by lia. rewrite (ztake_ge n); [done|]. rewrite zlen_take; lia.
  - intros b [H1 H2]. unfold sys_contents. by rewrite zlen_take.
  - intros b n Hb. done.
  - intros E b [H1 H2]. unfold SysMem.as_ref, SysMem.get_data_by_ref, SysMem.len.
    by rewrite Z.min_id.
  - intros b s Hb. unfold SysMem.extend_from_slice.
    destruct (sys_get_writable b (zlen s) Hb (zlen_nonneg s)) as (w & b' & -> & Hb' & Hw & Hc & Hs).
    rewrite <- Hs. by apply (sys_write_window b' _ w).
  - intros b n [H1 H2] Hs Hn Hl. unfold sys_contents in *.
    rewrite zlen_take in Hl by lia. unfold SysMem.truncate, sys_ok; cbn [inner cursor start].
    split_and!; [lia|lia| |done]. rewrite ztake_ztake by lia. by rewrite Z.add_comm.
Defined.
