(* ===== verification/Noise.v ===== *)
(** * The Noise NX handshake and transport ciphers: the crate [noise_sv2]

    The cryptographic primitives (SHA-256, the two AEADs, ElligatorSwift
    encodings and Diffie-Hellman, Schnorr signatures) come from external
    crates and are the operations of [Crypto]; everything built on them, the
    cipher state, the handshake hash and key schedule and the three handshake
    steps, is translated. *)

From S2P Require Import Prelude.

(** ** External primitives *)

Inductive Party : Type := PartyA | PartyB.
Inductive Aead : Type := ChaCha | Aes.

(** A key pair is its secret key; public keys and x-only keys are what the
    external crate derives from it.  [sign_schnorr] takes the randomness drawn
    from the generator as an argument. *)
Class Crypto : Type := {
  SecretKey : Type;
  PublicKey : Type;
  Rng : Type;
  public_key : SecretKey → PublicKey;
  x_only : PublicKey → bytes;
  even_parity : SecretKey → bool;
  non_secure_erase : SecretKey → SecretKey;
  sha256 : bytes → bytes;
  aead_seal : Aead → bytes → bytes → bytes → bytes → option bytes;
  aead_open : Aead → bytes → bytes → bytes → bytes → option bytes;
  ellswift_encode : PublicKey → bytes;
  ellswift_decode : bytes → PublicKey;
  ellswift_shared_secret : bytes → bytes → SecretKey → Party → bytes;
  sign_schnorr : Rng → bytes → SecretKey → bytes;
  verify_schnorr : bytes → bytes → bytes → bool;
}.

(** The documented behaviour of the primitives that the handshake uses:
    an AEAD opens what it sealed under the same key, nonce and associated data
    and adds a sixteen-byte tag; the two parties of a Diffie-Hellman exchange
    compute the same secret; a signature verifies under the signer's key. *)
Class CryptoLaws `{Crypto} : Prop := {
  aead_open_seal alg k n ad pt ct :
    aead_seal alg k n ad pt = Some ct → aead_open alg k n ad ct = Some pt;
  aead_seal_len alg k n ad pt ct :
    aead_seal alg k n ad pt = Some ct → zlen ct = zlen pt + 16;
  aead_seal_total alg k n ad pt :
    zlen pt ≤ 65519 → is_Some (aead_seal alg k n ad pt);
  ecdh_agree (a b : SecretKey) :
    ellswift_shared_secret (ellswift_encode (public_key a))
      (ellswift_encode (public_key b)) a PartyA =
    ellswift_shared_secret (ellswift_encode (public_key a))
      (ellswift_encode (public_key b)) b PartyB;
  ellswift_encode_len p : zlen (ellswift_encode p) = 64;
  ellswift_decode_encode p : x_only (ellswift_decode (ellswift_encode p)) = x_only p;
  schnorr_len rng m sk : zlen (sign_schnorr rng m sk) = 64;
  schnorr_ok rng m sk :
    verify_schnorr (sign_schnorr rng m sk) m (x_only (public_key sk)) = true;
}.

(** ** Constants and errors *)

Definition ELLSWIFT_ENCODING_SIZE : Z := 64.
Definition ENCRYPTED_ELLSWIFT_ENCODING_SIZE : Z := 64 + 16.
Definition SIGNATURE_NOISE_MESSAGE_SIZE : Z := 74.
Definition ENCRYPTED_SIGNATURE_NOISE_MESSAGE_SIZE : Z := 74 + 16.
Definition INITIATOR_EXPECTED_HANDSHAKE_MESSAGE_SIZE : Z :=
  ELLSWIFT_ENCODING_SIZE + ENCRYPTED_ELLSWIFT_ENCODING_SIZE
  + ENCRYPTED_SIGNATURE_NOISE_MESSAGE_SIZE.
Definition NOISE_FRAME_HEADER_SIZE : Z := 2.
Definition NOISE_HASHED_PROTOCOL_NAME_CHACHA : bytes :=
  byte.of_Z <$>
    [46; 180; 120; 129; 32; 142; 158; 238; 31; 102; 159; 103; 198; 110; 231; 14; 169; 234;
     136; 9; 13; 80; 63; 232; 48; 220; 75; 200; 62; 41; 191; 16].

(** [aes_gcm::Error], which carries nothing. *)
Inductive AeadError : Type := AesGcmError.

(** [noise_sv2::Error]. *)
Inductive NoiseError : Type :=
  | HandshakeNotFinalized
  | CipherListMustBeNonEmpty
  | UnsupportedCiphers (l : bytes)
  | InvalidCipherList (l : bytes)
  | InvalidCipherChosed (l : bytes)
  | AesGcm (e : AeadError)
  | InvalidCipherState
  | InvalidCertificate (m : bytes)
  | InvalidRawPublicKey
  | InvalidRawPrivateKey
  | ExpectedIncomingHandshakeMessage
  | InvalidMessageLength.

(** ** The cipher state: [cipher_state.rs] *)

Section CipherState.
Context `{Crypto}.

(** [Cipher<C>]: [cipher] is the keyed primitive, [k] a copy of the key that
    [erase_k] removes. *)
Record Cipher : Type := mkCipher {
  c_k : option bytes;
  c_n : Z;
  c_cipher : option bytes;
}.

Definition from_key_and_cipher (k : bytes) (c : bytes) : Cipher := mkCipher (Some k) 0 (Some c).
Definition from_cipher (c : bytes) : Cipher := mkCipher None 0 (Some c).

(** [nonce_to_bytes]: four zero bytes, then the counter in little endian. *)
Definition nonce_to_bytes (n : Z) : bytes :=
  replicate 4 (byte.of_Z 0) ++ to_le_bytes 8 n.

(** [encrypt_with_ad]: the counter advances, and is put back when the primitive
    fails or when there is no primitive (the data is then left as it is). *)
Definition encrypt_with_ad (alg : Aead) (ad data : bytes) : ST Cipher AeadError bytes :=
  λ c,
    match add_chk (E := AeadError) 64 (c_n c) 1 with
    | Ok n1 =>
        match c_cipher c with
        | Some key =>
            match aead_seal alg key (nonce_to_bytes (c_n c)) ad data with
            | Some ct => (Ok ct, mkCipher (c_k c) n1 (c_cipher c))
            | None => (Err AesGcmError, mkCipher (c_k c) (n1 - 1) (c_cipher c))
            end
        | None => (Ok data, mkCipher (c_k c) (n1 - 1) (c_cipher c))
        end
    | _ => (Panic, c)
    end.

(** [decrypt_with_ad]. *)
Definition decrypt_with_ad (alg : Aead) (ad data : bytes) : ST Cipher AeadError bytes :=
  λ c,
    match add_chk (E := AeadError) 64 (c_n c) 1 with
    | Ok n1 =>
        match c_cipher c with
        | Some key =>
            match aead_open alg key (nonce_to_bytes (c_n c)) ad data with
            | Some pt => (Ok pt, mkCipher (c_k c) n1 (c_cipher c))
            | None => (Err AesGcmError, mkCipher (c_k c) (n1 - 1) (c_cipher c))
            end
        | None => (Ok data, mkCipher (c_k c) (n1 - 1) (c_cipher c))
        end
    | _ => (Panic, c)
    end.

(** [GenericCipher]. *)
Inductive GenericCipher : Type :=
  | GChaCha20Poly1305 (c : Cipher)
  | GAes256Gcm (c : Cipher).

Definition gc_alg (g : GenericCipher) : Aead :=
  match g with GChaCha20Poly1305 _ => ChaCha | GAes256Gcm _ => Aes end.
Definition gc_cipher (g : GenericCipher) : Cipher :=
  match g with GChaCha20Poly1305 c => c | GAes256Gcm c => c end.
Definition gc_put (c : Cipher) (g : GenericCipher) : GenericCipher :=
  match g with GChaCha20Poly1305 _ => GChaCha20Poly1305 c | GAes256Gcm _ => GAes256Gcm c end.

(** [GenericCipher::encrypt] and [decrypt]: empty associated data. *)
Definition gc_encrypt (data : bytes) : ST GenericCipher AeadError bytes :=
  λ g, zoom gc_cipher gc_put (encrypt_with_ad (gc_alg g) [] data) g.
Definition gc_decrypt (data : bytes) : ST GenericCipher AeadError bytes :=
  λ g, zoom gc_cipher gc_put (decrypt_with_ad (gc_alg g) [] data) g.

(** [GenericCipher::erase_k]: drops the copy of the key, keeps the primitive. *)
Definition erase_k (g : GenericCipher) : GenericCipher :=
  let c := gc_cipher g in gc_put (mkCipher None (c_n c) (c_cipher c)) g.

(** [NoiseCodec]. *)
Record NoiseCodec : Type := mkNoiseCodec {
  encryptor : GenericCipher;
  decryptor : GenericCipher;
}.

Definition nc_encrypt (data : bytes) : ST NoiseCodec AeadError bytes :=
  zoom encryptor (λ g c, mkNoiseCodec g (decryptor c)) (gc_encrypt data).
Definition nc_decrypt (data : bytes) : ST NoiseCodec AeadError bytes :=
  zoom decryptor (λ g c, mkNoiseCodec (encryptor c) g) (gc_decrypt data).

End CipherState.

(** ** The handshake operations: [handshake.rs] *)

(** The fields behind the accessors of [HandshakeOp] and [CipherState]. *)
Record Handshake : Type := mkHandshake {
  hs_cipher : Cipher;
  hs_ck : bytes;
  hs_h : bytes;
}.

Definition zeros (n : nat) : bytes := replicate n (byte.of_Z 0).

(** [b ^ m] on bytes. *)
Definition xor_byte (m : Z) (b : Byte.byte) : Byte.byte :=
  byte.of_Z (Z.lxor (byte.unsigned b) m).

Section HandshakeOp.
Context `{Crypto}.

Definition mix_hash (data : bytes) (s : Handshake) : Handshake :=
  mkHandshake (hs_cipher s) (hs_ck s) (sha256 (hs_h s ++ data)).

(** [hmac_hash]: the key fills the first 32 bytes of each 64-byte pad. *)
Definition hmac_hash (key data : bytes) : bytes :=
  let pad m := (xor_byte m <$> take 32 key) ++ replicate 32 (byte.of_Z m) in
  let temp := sha256 (pad 0x36 ++ data) in
  sha256 (pad 0x5c ++ temp).

Definition hkdf_2 (chaining_key input_key_material : bytes) : bytes * bytes :=
  let temp_key := hmac_hash chaining_key input_key_material in
  let out_1 := hmac_hash temp_key [byte.of_Z 1] in
  let out_2 := hmac_hash temp_key (out_1 ++ [byte.of_Z 2]) in
  (out_1, out_2).

Definition initialize_key (key : bytes) (s : Handshake) : Handshake :=
  mkHandshake (mkCipher (Some key) 0 (Some key)) (hs_ck s) (hs_h s).

Definition mix_key (input_key_material : bytes) (s : Handshake) : Handshake :=
  let '(ck, temp_k) := hkdf_2 (hs_ck s) input_key_material in
  initialize_key temp_k (mkHandshake (hs_cipher s) ck (hs_h s)).

Definition hs_put_cipher (c : Cipher) (s : Handshake) : Handshake :=
  mkHandshake c (hs_ck s) (hs_h s).

Definition encrypt_and_hash (plaintext : bytes) : ST Handshake AeadError bytes :=
  k ← gets (λ s, c_k (hs_cipher s));
  h ← gets hs_h;
  ciphertext ←
    match k with
    | Some _ => zoom hs_cipher hs_put_cipher (encrypt_with_ad ChaCha h plaintext)
    | None => mret plaintext
    end;
  _ ← modify (mix_hash ciphertext);
  mret ciphertext.

Definition decrypt_and_hash (ciphertext : bytes) : ST Handshake AeadError bytes :=
  k ← gets (λ s, c_k (hs_cipher s));
  h ← gets hs_h;
  plaintext ←
    match k with
    | Some _ => zoom hs_cipher hs_put_cipher (decrypt_with_ad ChaCha h ciphertext)
    | None => mret ciphertext
    end;
  _ ← modify (mix_hash ciphertext);
  mret plaintext.

(** [initialize_self], on the all-zero state that the constructors build. *)
Definition initialize_self (s : Handshake) : Handshake :=
  let ck := NOISE_HASHED_PROTOCOL_NAME_CHACHA in
  mkHandshake (mkCipher None (c_n (hs_cipher s)) (c_cipher (hs_cipher s))) ck (sha256 ck).

(** [generate_key_with_rng], on the stream of secret keys the generator yields:
    the first one whose public key has even parity. *)
Fixpoint generate_key_with_rng (rng : list SecretKey) : option (SecretKey * list SecretKey) :=
  match rng with
  | [] => None
  | kp :: rng => if even_parity kp then Some (kp, rng) else generate_key_with_rng rng
  end.

(** ** Certificates: [signature_message.rs] *)

Record SignatureNoiseMessage : Type := mkSignatureNoiseMessage {
  version : Z;
  valid_from : Z;
  not_valid_after : Z;
  signature : bytes;
}.

(** [From<[u8; 74]>]. *)
Definition signature_message_from (value : bytes) : SignatureNoiseMessage :=
  mkSignatureNoiseMessage
    (from_le_bytes (ztake 2 value))
    (from_le_bytes (ztake 4 (zdrop 2 value)))
    (from_le_bytes (ztake 4 (zdrop 6 value)))
    (ztake 64 (zdrop 10 value)).

(** [split]. *)
Definition signature_message_split (m : SignatureNoiseMessage) : bytes * bytes :=
  (to_le_bytes 2 (version m) ++ to_le_bytes 4 (valid_from m)
   ++ to_le_bytes 4 (not_valid_after m), signature m).

(** [verify_with_now]: without an authority key every certificate passes. *)
Definition verify_with_now (self : SignatureNoiseMessage) (pk : bytes)
    (authority_pk : option bytes) (now : Z) : bool :=
  match authority_pk with
  | Some authority_pk =>
      if (valid_from self <=? now) && (now <=? not_valid_after self) then
        let '(m, s) := signature_message_split self in
        verify_schnorr s (sha256 (ztake 10 m ++ pk)) authority_pk
      else false
  | None => true
  end.

(** [sign_with_rng]: fills bytes 10 to 73. *)
Definition sign_with_rng (msg static_pk : bytes) (kp : SecretKey) (rng : Rng) : bytes :=
  ztake 10 msg ++ sign_schnorr rng (sha256 (ztake 10 msg ++ static_pk)) kp.

(** ** The initiator: [initiator.rs] *)

Record Initiator : Type := mkInitiator {
  i_hs : Handshake;
  i_e : SecretKey;
  responder_authority_pk : option bytes;
  i_c1 : option GenericCipher;
  i_c2 : option GenericCipher;
}.
Definition i_put (s : Handshake) (i : Initiator) : Initiator :=
  mkInitiator s (i_e i) (responder_authority_pk i) (i_c1 i) (i_c2 i).

Definition initial_handshake : Handshake :=
  initialize_self (mkHandshake (mkCipher None 0 None) (zeros 32) (zeros 32)).

(** [Initiator::new_with_rng]. *)
Definition Initiator_new (pk : option bytes) (rng : list SecretKey) : option Initiator :=
  '(e, _) ← generate_key_with_rng rng;
  Some (mkInitiator initial_handshake e pk None None).

(** [Initiator::step_0]: the ephemeral key, in clear. *)
Definition Initiator_step_0 : ST Initiator AeadError bytes :=
  e ← gets i_e;
  let elliswift_enc_pubkey := ellswift_encode (public_key e) in
  _ ← zoom i_hs i_put (modify (mix_hash elliswift_enc_pubkey));
  _ ← zoom i_hs i_put (encrypt_and_hash []);
  mret (ztake 64 elliswift_enc_pubkey).

(** The pair of transport ciphers both roles derive from the chaining key. *)
Definition transport_ciphers (ck : bytes) : GenericCipher * GenericCipher :=
  let '(temp_k1, temp_k2) := hkdf_2 ck [] in
  (GChaCha20Poly1305 (from_key_and_cipher temp_k1 temp_k1),
   GChaCha20Poly1305 (from_key_and_cipher temp_k2 temp_k2)).

(** [Initiator::step_2_with_now]; [try_into().expect] and [unwrap] panic on a
    plaintext of the wrong length. *)
Definition Initiator_step_2 (message : bytes) (now : Z) : ST Initiator NoiseError NoiseCodec :=
  e ← gets i_e;
  let ours := ellswift_encode (public_key e) in
  theirs_ephemeral ← lift (slice_range message 0 64);
  _ ← zoom i_hs i_put (modify (mix_hash theirs_ephemeral));
  let ecdh_ephemeral := ellswift_shared_secret ours theirs_ephemeral e PartyA in
  _ ← zoom i_hs i_put (modify (mix_key ecdh_ephemeral));
  to_decrypt ← lift (slice_range message 64 (64 + ENCRYPTED_ELLSWIFT_ENCODING_SIZE));
  theirs_static ← st_map_err AesGcm (zoom i_hs i_put (decrypt_and_hash to_decrypt));
  if negb (zlen theirs_static =? 64) then panic else
  let ecdh_static := ellswift_shared_secret ours theirs_static e PartyA in
  _ ← zoom i_hs i_put (modify (mix_key ecdh_static));
  to_decrypt ← lift (slice_range message (64 + ENCRYPTED_ELLSWIFT_ENCODING_SIZE)
                       INITIATOR_EXPECTED_HANDSHAKE_MESSAGE_SIZE);
  if negb (zlen to_decrypt =? ENCRYPTED_SIGNATURE_NOISE_MESSAGE_SIZE)
  then throw InvalidMessageLength else
  plaintext ← st_map_err AesGcm (zoom i_hs i_put (decrypt_and_hash to_decrypt));
  if negb (zlen plaintext =? SIGNATURE_NOISE_MESSAGE_SIZE) then panic else
  let signature_message := signature_message_from plaintext in
  let rs_pub_key := x_only (ellswift_decode theirs_static) in
  authority ← gets responder_authority_pk;
  if verify_with_now signature_message rs_pub_key authority now then
    ck ← gets (λ i, hs_ck (i_hs i));
    let '(c1, c2) := transport_ciphers ck in
    _ ← modify (λ i, mkInitiator (i_hs i) (i_e i) (responder_authority_pk i) None None);
    mret (mkNoiseCodec (erase_k c1) (erase_k c2))
  else throw (InvalidCertificate plaintext).

(** ** The responder: [responder.rs] *)

Record Responder : Type := mkResponder {
  r_hs : Handshake;
  r_e : SecretKey;
  r_s : SecretKey;
  r_a : SecretKey;
  r_c1 : option GenericCipher;
  r_c2 : option GenericCipher;
  cert_validity : Z;
}.
Definition r_put (s : Handshake) (r : Responder) : Responder :=
  mkResponder s (r_e r) (r_s r) (r_a r) (r_c1 r) (r_c2 r) (cert_validity r).

(** [Responder::new_with_rng]. *)
Definition Responder_new (a : SecretKey) (cert_validity : Z) (rng : list SecretKey)
    : option Responder :=
  '(e, rng) ← generate_key_with_rng rng;
  '(s, _) ← generate_key_with_rng rng;
  Some (mkResponder initial_handshake e s a None None cert_validity).

Definition VERSION : Z := 0.

(** [Responder::get_signature]. *)
Definition get_signature (r : Responder) (version valid_from not_valid_after : Z) (rng : Rng)
    : bytes :=
  let ret := to_le_bytes 2 version ++ to_le_bytes 4 valid_from
             ++ to_le_bytes 4 not_valid_after ++ zeros 64 in
  sign_with_rng ret (x_only (public_key (r_s r))) (r_a r) rng.

(** [Responder::step_1_with_now_rng]. *)
Definition Responder_step_1 (theirs_ephemeral : bytes) (now : Z) (rng : Rng)
    : ST Responder AeadError (bytes * NoiseCodec) :=
  _ ← zoom r_hs r_put (modify (mix_hash theirs_ephemeral));
  _ ← zoom r_hs r_put (decrypt_and_hash []);
  e ← gets r_e;
  let ours_ephemeral := ellswift_encode (public_key e) in
  out0 ← lift (slice_range ours_ephemeral 0 64);
  _ ← zoom r_hs r_put (modify (mix_hash ours_ephemeral));
  let ecdh_ephemeral := ellswift_shared_secret theirs_ephemeral ours_ephemeral e PartyB in
  _ ← zoom r_hs r_put (modify (mix_key ecdh_ephemeral));
  s ← gets r_s;
  let ours_static := ellswift_encode (public_key s) in
  ours_static_serialized ← lift (slice_range ours_static 0 64);
  encrypted_static_pub_k ← zoom r_hs r_put (encrypt_and_hash ours_static_serialized);
  out1 ← lift (slice_range encrypted_static_pub_k 0 ENCRYPTED_ELLSWIFT_ENCODING_SIZE);
  let ecdh_static := ellswift_shared_secret theirs_ephemeral ours_static s PartyB in
  _ ← zoom r_hs r_put (modify (mix_key ecdh_static));
  validity ← gets cert_validity;
  not_valid_after ← lift (add_chk 32 now validity);
  signature_noise_message ← gets (λ r, get_signature r VERSION now not_valid_after rng);
  signature_part ← zoom r_hs r_put (encrypt_and_hash signature_noise_message);
  out2 ← lift (slice_range signature_part 0 ENCRYPTED_SIGNATURE_NOISE_MESSAGE_SIZE);
  ck ← gets (λ r, hs_ck (r_hs r));
  let '(c1, c2) := transport_ciphers ck in
  _ ← modify (λ r, mkResponder (r_hs r) (r_e r) (r_s r) (r_a r) None None (cert_validity r));
  mret (out0 ++ out1 ++ out2, mkNoiseCodec (erase_k c2) (erase_k c1)).

(** [Initiator::erase]: [for mut b in self.ck] and [for mut b in self.h] iterate
    over copies of the arrays, so only the key copies are overwritten. *)
Definition Initiator_erase (i : Initiator) : Initiator :=
  let c := hs_cipher (i_hs i) in
  let k := (λ k : bytes, (λ _, byte.of_Z 0) <$> k) <$> c_k c in
  mkInitiator (mkHandshake (mkCipher k (c_n c) (c_cipher c)) (hs_ck (i_hs i)) (hs_h (i_hs i)))
    (non_secure_erase (i_e i)) (responder_authority_pk i)
    (erase_k <$> i_c1 i) (erase_k <$> i_c2 i).

End HandshakeOp.
