(* ===== verification/NoiseProperties.v ===== *)
(** * Facts about the handshake and the transport ciphers *)

From S2P Require Import Prelude Noise.

Section NoiseFacts.
Context `{CL : CryptoLaws}.

(** ** Ciphers *)

(** A keyed cipher whose counter has [m] values left. *)
Definition keyed (c : Cipher) (m : Z) : Prop :=
  is_Some (c_cipher c) ∧ 0 ≤ c_n c ∧ c_n c + m < 2 ^ 64.

Lemma seal_then_open alg c ad pt :
  keyed c 1 → zlen pt ≤ 65519 →
  ∃ ct, zlen ct = zlen pt + 16 ∧
    encrypt_with_ad alg ad pt c = (Ok ct, mkCipher (c_k c) (c_n c + 1) (c_cipher c)) ∧
    decrypt_with_ad alg ad ct c = (Ok pt, mkCipher (c_k c) (c_n c + 1) (c_cipher c)).
Proof.
  intros ((key & Hk) & Hn & Hm) Hl.
  destruct (aead_seal_total alg key (nonce_to_bytes (c_n c)) ad pt Hl) as [ct Hct].
  exists ct. split; [by eapply aead_seal_len|].
  unfold encrypt_with_ad, decrypt_with_ad, add_chk.
  rewrite (proj2 (Z.ltb_lt _ _)), Hk, Hct by lia.
  by erewrite aead_open_seal by exact Hct.
Qed.

Lemma encrypt_and_hash_plain s pt :
  c_k (hs_cipher s) = None →
  encrypt_and_hash pt s = (Ok pt, mix_hash pt s) ∧
  decrypt_and_hash pt s = (Ok pt, mix_hash pt s).
Proof.
  intros Hk. unfold encrypt_and_hash, decrypt_and_hash. rewrite !st_gets_bind, Hk. done.
Qed.

Lemma encrypt_then_decrypt_and_hash s pt :
  is_Some (c_k (hs_cipher s)) → keyed (hs_cipher s) 1 → zlen pt ≤ 65519 →
  ∃ ct s', zlen ct = zlen pt + 16 ∧ hs_ck s' = hs_ck s ∧
    encrypt_and_hash pt s = (Ok ct, s') ∧ decrypt_and_hash ct s = (Ok pt, s').
Proof.
  intros [k Hk] Hc Hl.
  destruct (seal_then_open ChaCha _ (hs_h s) pt Hc Hl) as (ct & Hlen & He & Hd).
  eexists ct, _. split; [done|]. split; [|split].
  2,3: unfold encrypt_and_hash, decrypt_and_hash; rewrite !st_gets_bind, Hk;
    erewrite st_zoom_bind by eassumption; reflexivity.
  done.
Qed.

Lemma mix_key_keyed ikm s :
  is_Some (c_k (hs_cipher (mix_key ikm s))) ∧ keyed (hs_cipher (mix_key ikm s)) 1.
Proof. unfold mix_key. destruct (hkdf_2 _ _). cbn. split; [eauto|]. split; [cbn; eauto|done]. Qed.

(** ** Certificates *)

Lemma le_field n z rest :
  fits (8 * Z.of_nat n) z → from_le_bytes (ztake (Z.of_nat n) (to_le_bytes n z ++ rest)) = z.
Proof. intros Hz. rewrite ztake_app by len_solve. by apply from_to_le_bytes. Qed.

(** The certificate a responder issues verifies under its authority key
    exactly within its validity window. *)
Lemma certificate_verifies r from until rng authority now :
  fits 32 from → fits 32 until →
  authority = Some (x_only (public_key (r_a r))) ∨ authority = None →
  verify_with_now (signature_message_from (get_signature r VERSION from until rng))
    (x_only (public_key (r_s r))) authority now =
  match authority with Some _ => (from <=? now) && (now <=? until) | None => true end.
Proof.
  intros Hf Hu [->| ->]; [|done]. unfold verify_with_now.
  unfold get_signature, sign_with_rng.
  set (body := to_le_bytes 2 VERSION ++ to_le_bytes 4 from ++ to_le_bytes 4 until).
  assert (Hb : zlen body = 10) by done.
  replace (to_le_bytes 2 VERSION ++ to_le_bytes 4 from ++ to_le_bytes 4 until ++ zeros 64)
    with (body ++ zeros 64) by (unfold body; by rewrite !app_assoc).
  rewrite (ztake_app body) by done.
  set (sg := sign_schnorr _ _ _).
  assert (Hm : signature_message_from (body ++ sg) =
    mkSignatureNoiseMessage VERSION from until sg).
  { unfold signature_message_from. f_equal.
    - unfold body. rewrite <- !app_assoc, zdrop_app by done. by apply (le_field 4 from).
    - unfold body. rewrite <- !app_assoc.
      rewrite (app_assoc (to_le_bytes 2 _)), zdrop_app by done. by apply (le_field 4 until).
    - rewrite zdrop_app by done. rewrite ztake_ge; [done|]. unfold sg. rewrite schnorr_len. done. }
  rewrite Hm. cbn [valid_from not_valid_after]. destruct (_ && _); [|done].
  unfold signature_message_split; cbn [version valid_from not_valid_after signature].
  fold body. rewrite ztake_ge by lia. apply schnorr_ok.
Qed.

Lemma zlen_get_signature r v from until rng :
  zlen (get_signature r v from until rng) = 74.
Proof.
  unfold get_signature, sign_with_rng. rewrite zlen_app, schnorr_len.
  rewrite zlen_take; [done|]. rewrite !zlen_app. cbn. split; [done|]. done.
Qed.

(** ** The three steps *)

Lemma i_put_put s s' i : i_put s (i_put s' i) = i_put s i.
Proof. done. Qed.
Lemma r_put_put s s' r : r_put s (r_put s' r) = r_put s r.
Proof. done. Qed.

Lemma step_0_spec i :
  c_k (hs_cipher (i_hs i)) = None →
  Initiator_step_0 i =
    (Ok (ellswift_encode (public_key (i_e i))),
     i_put (mix_hash [] (mix_hash (ellswift_encode (public_key (i_e i))) (i_hs i))) i).
Proof.
  intros Hk. unfold Initiator_step_0. rewrite st_gets_bind, st_zoom_modify_bind.
  erewrite st_zoom_bind by (by apply encrypt_and_hash_plain).
  unfold mret, ST_ret. by rewrite ztake_ge by (by rewrite ellswift_encode_len).
Qed.

(** The codecs the two roles build from the final chaining key. *)
Definition initiator_codec (ck : bytes) : NoiseCodec :=
  let '(c1, c2) := transport_ciphers ck in mkNoiseCodec (erase_k c1) (erase_k c2).
Definition responder_codec (ck : bytes) : NoiseCodec :=
  let '(c1, c2) := transport_ciphers ck in mkNoiseCodec (erase_k c2) (erase_k c1).

(** What the responder's step computes, in the initiator's terms: the two
    handshake states before each of the two encrypted parts, which the
    initiator reaches as well. *)
Lemma step_1_spec r theirs now rng (a : SecretKey) :
  theirs = ellswift_encode (public_key a) →
  c_k (hs_cipher (r_hs r)) = None →
  0 ≤ now → 0 ≤ cert_validity r → now + cert_validity r < 2 ^ 32 →
  let ours := ellswift_encode (public_key (r_e r)) in
  let stat := ellswift_encode (public_key (r_s r)) in
  let sig := get_signature r VERSION now (now + cert_validity r) rng in
  let s2 := mix_key (ellswift_shared_secret theirs ours (r_e r) PartyB)
              (mix_hash ours (mix_hash [] (mix_hash theirs (r_hs r)))) in
  ∃ ct1 ct2 s3 s5 r',
    let s4 := mix_key (ellswift_shared_secret theirs stat (r_s r) PartyB) s3 in
    Responder_step_1 theirs now rng r =
      (Ok (ours ++ ct1 ++ ct2, responder_codec (hs_ck s5)), r') ∧
    zlen ct1 = 80 ∧ zlen ct2 = 90 ∧
    decrypt_and_hash ct1 s2 = (Ok stat, s3) ∧ decrypt_and_hash ct2 s4 = (Ok sig, s5).
Proof.
  intros Ht Hk Hn Hv Hsum ours stat sig s2.
  pose proof (ellswift_encode_len (public_key (r_e r))) as Lo.
  pose proof (ellswift_encode_len (public_key (r_s r))) as Ls. fold ours in Lo. fold stat in Ls.
  destruct (mix_key_keyed (ellswift_shared_secret theirs ours (r_e r) PartyB)
    (mix_hash ours (mix_hash [] (mix_hash theirs (r_hs r))))) as [K1 K2]. fold s2 in K1, K2.
  destruct (encrypt_then_decrypt_and_hash s2 stat K1 K2) as (ct1 & s3 & L1 & _ & E1 & D1); [lia|].
  destruct (mix_key_keyed (ellswift_shared_secret theirs stat (r_s r) PartyB) s3) as [K3 K4].
  set (s4 := mix_key _ s3) in *.
  destruct (encrypt_then_decrypt_and_hash s4 sig K3 K4) as (ct2 & s5 & L2 & C5 & E2 & D2).
  { unfold sig. by rewrite zlen_get_signature. }
  unfold sig in L2. rewrite zlen_get_signature in L2.
  exists ct1, ct2, s3, s5. eexists. split; [|split_and!; [lia|lia|done|done]].
  unfold Responder_step_1. rewrite st_zoom_modify_bind.
  erewrite st_zoom_bind by (by apply encrypt_and_hash_plain).
  rewrite st_gets_bind. cbn [r_e r_put]. fold ours.
  rewrite <- (app_nil_r ours) at 1.
  rewrite slice_range_prefix, st_lift_bind by lia.
  rewrite !st_zoom_modify_bind, st_gets_bind. cbn [r_s r_put]. fold stat.
  rewrite <- (app_nil_r stat) at 1.
  rewrite slice_range_prefix, st_lift_bind by lia.
  erewrite st_zoom_bind by exact E1. cbn [r_hs r_put].
  rewrite <- (app_nil_r ct1) at 1.
  rewrite slice_range_prefix, st_lift_bind by (unfold ENCRYPTED_ELLSWIFT_ENCODING_SIZE; lia).
  rewrite st_zoom_modify_bind, st_gets_bind. cbn [cert_validity r_put].
  unfold add_chk. rewrite (proj2 (Z.ltb_lt _ _)) by lia.
  rewrite st_lift_bind, st_gets_bind.
  erewrite st_zoom_bind by exact E2.
  rewrite <- (app_nil_r ct2) at 1.
  rewrite slice_range_prefix, st_lift_bind by (unfold ENCRYPTED_SIGNATURE_NOISE_MESSAGE_SIZE; lia).
  rewrite st_gets_bind. unfold responder_codec. cbn [r_hs r_put].
  destruct (transport_ciphers (hs_ck s5)) as [c1 c2]. rewrite st_modify_bind. reflexivity.
Qed.

(** What the initiator's last step does on such a message: everything up to
    the certificate check succeeds. *)
Lemma step_2_spec i theirs ct1 ct2 stat sig s3 s5 now :
  let ours := ellswift_encode (public_key (i_e i)) in
  let s2 := mix_key (ellswift_shared_secret ours theirs (i_e i) PartyA) (mix_hash theirs (i_hs i)) in
  let s4 := mix_key (ellswift_shared_secret ours stat (i_e i) PartyA) s3 in
  zlen theirs = 64 → zlen ct1 = 80 → zlen ct2 = 90 → zlen stat = 64 → zlen sig = 74 →
  decrypt_and_hash ct1 s2 = (Ok stat, s3) → decrypt_and_hash ct2 s4 = (Ok sig, s5) →
  ∃ i', Initiator_step_2 (theirs ++ ct1 ++ ct2) now i =
    (if verify_with_now (signature_message_from sig) (x_only (ellswift_decode stat))
          (responder_authority_pk i) now
     then Ok (initiator_codec (hs_ck s5)) else Err (InvalidCertificate sig), i').
Proof.
  intros ours s2 s4 Lt L1 L2 Lst Lsg D1 D2.
  unfold Initiator_step_2. rewrite st_gets_bind. fold ours.
  rewrite slice_range_prefix, st_lift_bind by lia.
  rewrite !st_zoom_modify_bind. cbn [i_hs i_put].
  rewrite (slice_range_mid theirs ct1 ct2 64 (64 + ENCRYPTED_ELLSWIFT_ENCODING_SIZE)) by
    (rewrite ?Lt, ?L1; done).
  rewrite st_lift_bind. erewrite st_map_err_bind by (eapply st_zoom_ok; exact D1).
  rewrite Lst. change (64 =? 64) with true. cbn [negb]. rewrite st_zoom_modify_bind. cbn [i_hs i_put].
  replace (theirs ++ ct1 ++ ct2) with ((theirs ++ ct1) ++ ct2 ++ [])
    by (by rewrite app_nil_r, app_assoc).
  rewrite (slice_range_mid (theirs ++ ct1) ct2 [] (64 + ENCRYPTED_ELLSWIFT_ENCODING_SIZE)
    INITIATOR_EXPECTED_HANDSHAKE_MESSAGE_SIZE) by (rewrite zlen_app, ?Lt, ?L1, ?L2; done).
  rewrite st_lift_bind, L2.
  change (90 =? ENCRYPTED_SIGNATURE_NOISE_MESSAGE_SIZE) with true. cbn [negb].
  erewrite st_map_err_bind by (eapply st_zoom_ok; exact D2).
  rewrite Lsg. change (74 =? SIGNATURE_NOISE_MESSAGE_SIZE) with true. cbn [negb].
  rewrite st_gets_bind. cbn [responder_authority_pk i_put].
  destruct (verify_with_now _ _ _ _); [|by eexists].
  rewrite st_gets_bind. unfold initiator_codec. cbn [i_hs i_put].
  destruct (transport_ciphers (hs_ck s5)) as [c1 c2]. rewrite st_modify_bind. by eexists.
Qed.

(** The two parties as their constructors build them, and the initiator after
    its first message. *)
Definition fresh_initiator (e : SecretKey) (authority : option bytes) : Initiator :=
  mkInitiator initial_handshake e authority None None.
Definition fresh_responder (e s a : SecretKey) (validity : Z) : Responder :=
  mkResponder initial_handshake e s a None None validity.
Definition opened_initiator (e : SecretKey) (authority : option bytes) : Initiator :=
  i_put (mix_hash [] (mix_hash (ellswift_encode (public_key e)) initial_handshake))
    (fresh_initiator e authority).

(** The whole exchange: the responder answers, and the initiator's outcome
    depends on its clock alone. *)
Lemma handshake_exchange e er s a authority validity now_r rng :
  0 ≤ validity → 0 ≤ now_r → now_r + validity < 2 ^ 32 →
  authority = Some (x_only (public_key a)) ∨ authority = None →
  ∃ m1 ck r1 cert,
    Responder_step_1 (ellswift_encode (public_key e)) now_r rng (fresh_responder er s a validity) =
      (Ok (m1, responder_codec ck), r1) ∧
    zlen m1 = INITIATOR_EXPECTED_HANDSHAKE_MESSAGE_SIZE ∧
    ∀ now_i, ∃ i2, Initiator_step_2 m1 now_i (opened_initiator e authority) =
      (if match authority with
          | Some _ => (now_r <=? now_i) && (now_i <=? now_r + validity)
          | None => true
          end
       then Ok (initiator_codec ck) else Err (InvalidCertificate cert), i2).
Proof.
  intros Hv Hn Hb Ha. set (r := fresh_responder er s a validity).
  destruct (step_1_spec r (ellswift_encode (public_key e)) now_r rng e)
    as (ct1 & ct2 & s3 & s5 & r1 & E1 & L1 & L2 & D1 & D2); [done..|].
  cbn [r_hs r_e r_s r_a cert_validity r fresh_responder] in *. rewrite <- ecdh_agree in D1, D2.
  eexists _, _, r1, (get_signature r VERSION now_r (now_r + validity) rng).
  split; [exact E1|]. split; [by rewrite !zlen_app, ellswift_encode_len, L1, L2|].
  intros now_i.
  destruct (step_2_spec (opened_initiator e authority) (ellswift_encode (public_key er)) ct1 ct2
      (ellswift_encode (public_key s)) _ s3 s5 now_i
      (ellswift_encode_len _) L1 L2 (ellswift_encode_len _) (zlen_get_signature _ _ _ _ _) D1 D2)
    as [i2 E2]. exists i2. rewrite E2, ellswift_decode_encode. f_equal.
  rewrite (certificate_verifies r) by (done || (split; lia)). done.
Qed.

Lemma crossed_codecs ck :
  encryptor (initiator_codec ck) = decryptor (responder_codec ck) ∧
  decryptor (initiator_codec ck) = encryptor (responder_codec ck) ∧
  (∃ key, gc_cipher (encryptor (initiator_codec ck)) = mkCipher None 0 (Some key)) ∧
  (∃ key, gc_cipher (decryptor (initiator_codec ck)) = mkCipher None 0 (Some key)).
Proof.
  unfold initiator_codec, responder_codec, transport_ciphers.
  destruct (hkdf_2 ck []) as [k1 k2]. split_and!; by try eexists.
Qed.

(** Within the validity window the initiator accepts. *)
Lemma window_open (authority : option bytes) now_r now_i validity :
  now_r ≤ now_i ≤ now_r + validity →
  match authority with
  | Some _ => (now_r <=? now_i) && (now_i <=? now_r + validity)
  | None => true
  end = true.
Proof. intros. destruct authority; [|done]. apply andb_true_iff. by rewrite !Z.leb_le. Qed.

Lemma open_initiator e authority :
  Initiator_step_0 (fresh_initiator e authority) =
    (Ok (ellswift_encode (public_key e)), opened_initiator e authority).
Proof. by apply step_0_spec. Qed.
End NoiseFacts.

(** * Properties of the Noise handshake *)
(** A concrete instance of the external primitives, for the witnesses: keys are
    numbers, the tag and the signature are constants.  It satisfies the laws,
    and nothing else is asked of it. *)
#[local] Instance toy_crypto : Crypto := {|
  SecretKey := Z; PublicKey := Z; Rng := unit;
  public_key sk := sk;
  x_only pk := to_le_bytes 32 pk;
  even_parity sk := Z.even sk;
  non_secure_erase _ := 1;
  sha256 b := to_le_bytes 32 (zlen b);
  aead_seal _ k n ad pt := Some (pt ++ zeros 16);
  aead_open _ k n ad ct := Some (ztake (zlen ct - 16) ct);
  ellswift_encode pk := to_le_bytes 64 pk;
  ellswift_decode b := from_le_bytes b;
  ellswift_shared_secret a b _ _ := take 16 a ++ take 16 b;
  sign_schnorr _ m _ := zeros 64;
  verify_schnorr _ _ _ := true;
|}.

#[local] Instance toy_laws : CryptoLaws.
Proof.
  constructor; cbn.
  - intros alg k n ad pt ct [= <-]. f_equal. apply ztake_app. len_solve.
  - intros alg k n ad pt ct [= <-]. len_solve.
  - eauto.
  - done.
  - intros p. by rewrite to_le_bytes_zlen.
  - intros p. rewrite <- (take_to_le_bytes 32 64) by lia.
    rewrite to_from_le_bytes_n by done. by apply take_to_le_bytes; lia.
  - done.
  - done.
Qed.

(** Concrete parties. *)
Definition key (z : Z) : @SecretKey toy_crypto := z.
Definition toy_rng : @Rng toy_crypto := tt.
Definition toy_initiator (authority : option bytes) : @Initiator toy_crypto :=
  mkInitiator initial_handshake (key 4) authority None None.
Definition toy_responder : @Responder toy_crypto :=
  mkResponder initial_handshake (key 6) (key 8) (key 3) None None 3600.

(** C4 Handshake agreement: an initiator and a responder built by their
    constructors, the initiator trusting the responder's authority key (or no
    key at all), run the three steps to completion when the initiator's clock
    lies in the certificate's validity window.  Both ends then hold keyed
    transport ciphers with the counter at zero, each end decrypting with the
    cipher the other encrypts with. *)
Theorem handshake_agreement `{CryptoLaws} (i : Initiator) (r : Responder)
    (authority : option bytes) (a : SecretKey) (rng_i rng_r : list SecretKey)
    (validity now_i now_r : Z) (rng : Rng) :
  Initiator_new authority rng_i = Some i →
  Responder_new a validity rng_r = Some r →
  authority = Some (x_only (public_key a)) ∨ authority = None →
  0 ≤ validity → 0 ≤ now_r → now_r ≤ now_i ≤ now_r + validity → now_r + validity < 2 ^ 32 →
  ∃ m0 i1 m1 codec_r r1 codec_i i2,
    Initiator_step_0 i = (Ok m0, i1) ∧ zlen m0 = ELLSWIFT_ENCODING_SIZE ∧
    Responder_step_1 m0 now_r rng r = (Ok (m1, codec_r), r1) ∧
    zlen m1 = INITIATOR_EXPECTED_HANDSHAKE_MESSAGE_SIZE ∧
    Initiator_step_2 m1 now_i i1 = (Ok codec_i, i2) ∧
    encryptor codec_i = decryptor codec_r ∧ decryptor codec_i = encryptor codec_r ∧
    (∃ key, gc_cipher (encryptor codec_i) = mkCipher None 0 (Some key)) ∧
    (∃ key, gc_cipher (decryptor codec_i) = mkCipher None 0 (Some key)).
Proof.
  intros Hi Hr Ha Hv Hn Hw Hb. unfold Initiator_new, Responder_new in *.
  destruct (generate_key_with_rng rng_i) as [[e ?]|]; simplify_option_eq.
  destruct (generate_key_with_rng rng_r) as [[e' rng']|]; simplify_option_eq.
  destruct (generate_key_with_rng rng') as [[s ?]|]; simplify_option_eq.
  destruct (handshake_exchange e e' s a authority validity now_r rng Hv Hn Hb Ha)
    as (m1 & ck & r1 & cert & E1 & L1 & E2).
  destruct (E2 now_i) as [i2 E3]. rewrite window_open in E3 by done.
  eexists _, _, m1, _, r1, _, i2. split; [apply open_initiator|].
  split; [apply ellswift_encode_len|]. split; [exact E1|]. split; [done|].
  split; [exact E3|]. apply crossed_codecs.
Qed.

Lemma handshake_agreement_witness :
  ∃ m0 i1 m1 c r1, Initiator_step_0 (toy_initiator None) = (Ok m0, i1) ∧
    Responder_step_1 m0 1000 toy_rng toy_responder = (Ok (m1, c), r1).
Proof.
  destruct (handshake_agreement (toy_initiator None) toy_responder None (key 3)
    [key 1; key 4] [key 5; key 6; key 8] 3600 1001 1000 toy_rng)
    as (m0 & i1 & m1 & c & r1 & _ & _ & E0 & _ & E1 & _);
    [reflexivity|reflexivity|by right|lia|lia|lia|lia|].
  exists m0, i1, m1, c, r1. split; [exact E0|exact E1].
Defined.

(** Certificate check: outside the validity window an initiator that trusts
    the responder's authority key refuses the responder's message with
    [InvalidCertificate], and an initiator without an authority key accepts it
    whatever its clock says. *)
Theorem handshake_certificate_window `{CryptoLaws} (e er s a : SecretKey)
    (validity now_i now_r : Z) (rng : Rng) (authority : option bytes) :
  let r := fresh_responder er s a validity in
  let i := fresh_initiator e authority in
  0 ≤ validity → 0 ≤ now_r → now_r + validity < 2 ^ 32 →
  authority = Some (x_only (public_key a)) ∨ authority = None →
  ∃ m0 i1 m1 codec_r r1 i2 out cert,
    Initiator_step_0 i = (Ok m0, i1) ∧
    Responder_step_1 m0 now_r rng r = (Ok (m1, codec_r), r1) ∧
    Initiator_step_2 m1 now_i i1 = (out, i2) ∧
    (authority ≠ None → now_i < now_r ∨ now_r + validity < now_i →
       out = Err (InvalidCertificate cert)) ∧
    (authority = None → ∃ codec, out = Ok codec).
Proof.
  intros r i Hv Hn Hb Ha.
  destruct (handshake_exchange e er s a authority validity now_r rng Hv Hn Hb Ha)
    as (m1 & ck & r1 & cert & E1 & _ & E2). destruct (E2 now_i) as [i2 E3].
  eexists _, _, m1, _, r1, i2, _, cert.
  split; [apply open_initiator|]. split; [exact E1|]. split; [exact E3|]. split.
  - intros Hs Ho. destruct authority; [|done].
    replace (_ && _) with false; [done|]. symmetry. apply andb_false_iff.
    rewrite !Z.leb_gt. lia.
  - intros ->. by eexists.
Qed.

Lemma handshake_certificate_window_witness :
  ∃ m0 i1, Initiator_step_0 (toy_initiator (Some (to_le_bytes 32 3))) = (Ok m0, i1).
Proof.
  destruct (handshake_certificate_window (key 4) (key 6) (key 8) (key 3) 3600 9999999 1000
    toy_rng (Some (to_le_bytes 32 3)))
    as (m0 & i1 & _ & _ & _ & _ & _ & _ & E0 & _); [lia|lia|lia|by left|].
  exists m0, i1. exact E0.
Defined.

(** Erasing an initiator ([Drop]) overwrites its key copy but leaves the
    chaining key, the handshake hash and the keyed handshake cipher in place. *)
Theorem initiator_erase_leaves_secrets `{Crypto} (i : Initiator) :
  hs_ck (i_hs (Initiator_erase i)) = hs_ck (i_hs i) ∧
  hs_h (i_hs (Initiator_erase i)) = hs_h (i_hs i) ∧
  c_cipher (hs_cipher (i_hs (Initiator_erase i))) = c_cipher (hs_cipher (i_hs i)) ∧
  (∀ k, c_k (hs_cipher (i_hs i)) = Some k →
     c_k (hs_cipher (i_hs (Initiator_erase i))) = Some (zeros (length k))).
Proof.
  unfold Initiator_erase; cbn. split_and!; [done..|]. intros k ->. cbn. f_equal.
  unfold zeros. by induction k as [|b k IH]; cbn; [done|f_equal].
Qed.
