(* ===== verification/Transport.v ===== *)
(** * Transport: the crate [codec_sv2]

    The decoders and encoders ([decoder.rs], [encoder.rs]) and the protocol
    state ([lib.rs]), written against the [Buffer] interface and the Noise
    ciphers.  A method that takes [&mut self] and [&mut State] works on the
    pair of both. *)

From S2P Require Import Prelude Datatypes Codec Framing Buffer Noise.

(** [codec_sv2::Error]. *)
Inductive CodecError : Type :=
  | CAeadError (e : AeadError)
  | CBinarySv2Error (e : Error)
  | CFramingError (e : FramingError)
  | CFramingSv2Error (e : FramingError)
  | InvalidStepForInitiator
  | InvalidStepForResponder
  | MissingBytes (n : Z)
  | NoiseSv2Error (e : NoiseError)
  | NotInHandShakeState
  | UnexpectedNoiseState.

Section Transport.
Context `{Crypto} {B : Type} `{Buffer B}.

(** ** The protocol state *)

Inductive HandshakeRole : Type :=
  | RInitiator (i : Initiator)
  | RResponder (r : Responder).

Inductive State : Type :=
  | NotInitialized (msg_len : Z)
  | HandShake (role : HandshakeRole)
  | Transport (codec : NoiseCodec).

(** [State::step_0]. *)
Definition step_0 : ST State CodecError HandShakeFrame := λ st,
  match st with
  | HandShake (RInitiator i) =>
      let '(r, i) := Initiator_step_0 i in
      (map_err CAeadError (FrameOps.handshake_message_to_frame <$> r), HandShake (RInitiator i))
  | HandShake (RResponder _) => (Err InvalidStepForResponder, st)
  | _ => (Err NotInHandShakeState, st)
  end.

(** [State::step_1_with_now_rng]: returns the next state, which the caller
    stores. *)
Definition step_1 (re_pub : bytes) (now : Z) (rng : Rng)
    : ST State CodecError (HandShakeFrame * State) := λ st,
  match st with
  | HandShake (RResponder r) =>
      let '(o, r) := Responder_step_1 re_pub now rng r in
      (map_err CAeadError
         ((λ mc, (FrameOps.handshake_message_to_frame mc.1, Transport mc.2)) <$> o),
       HandShake (RResponder r))
  | HandShake (RInitiator _) => (Err InvalidStepForInitiator, st)
  | _ => (Err NotInHandShakeState, st)
  end.

(** [State::step_2_with_now]. *)
Definition step_2 (message : bytes) (now : Z) : ST State CodecError State := λ st,
  match st with
  | HandShake (RInitiator i) =>
      let '(o, i) := Initiator_step_2 message now i in
      (map_err NoiseSv2Error (Transport <$> o), HandShake (RInitiator i))
  | HandShake (RResponder _) => (Err InvalidStepForResponder, st)
  | _ => (Err NotInHandShakeState, st)
  end.

(** [State::not_initialized], [initialized], [with_transport_mode]. *)
Definition not_initialized (role : HandshakeRole) : State :=
  match role with
  | RInitiator _ => NotInitialized INITIATOR_EXPECTED_HANDSHAKE_MESSAGE_SIZE
  | RResponder _ => NotInitialized ELLSWIFT_ENCODING_SIZE
  end.
Definition initialized (inner : HandshakeRole) : State := HandShake inner.
Definition with_transport_mode (tm : NoiseCodec) : State := Transport tm.

(** ** AEAD in place

    The external AEADs work on the visible bytes of a buffer: sealing
    overwrites them with the ciphertext and appends the tag, opening overwrites
    them with the plaintext and truncates the tag. *)

Definition buffer_encrypt (b : B) : ST NoiseCodec AeadError B :=
  pt ← lift (as_ref b);
  ct ← nc_encrypt pt;
  mret (extend_from_slice (write_window b (ztake (zlen pt) ct)) (zdrop (zlen pt) ct)).

Definition buffer_decrypt (b : B) : ST NoiseCodec AeadError B :=
  ct ← lift (as_ref b);
  pt ← nc_decrypt ct;
  mret (truncate (write_window b (pt ++ zdrop (zlen pt) ct)) (zlen pt)).

(** [get_writable(src.len()).copy_from_slice(src)]. *)
Definition push (b : B) (src : bytes) : B :=
  let '(_, b) := get_writable b (zlen src) in write_window b src.

(** ** The decoder with Noise *)

Record WithNoise : Type := mkWithNoise {
  missing_noise_b : Z;
  d_noise_buffer : B;
  d_sv2_buffer : B;
}.
Definition set_missing (n : Z) (d : WithNoise) : WithNoise :=
  mkWithNoise n (d_noise_buffer d) (d_sv2_buffer d).
Definition set_noise (b : B) (d : WithNoise) : WithNoise :=
  mkWithNoise (missing_noise_b d) b (d_sv2_buffer d).
Definition set_sv2 (b : B) (d : WithNoise) : WithNoise :=
  mkWithNoise (missing_noise_b d) (d_noise_buffer d) b.

Notation DEC := (ST (WithNoise * NoiseCodec) CodecError).

(** A cipher operation on the decoder's Sv2 buffer. *)
Definition decrypt_sv2 : DEC unit := λ '(d, nc),
  match buffer_decrypt (d_sv2_buffer d) nc with
  | (Ok b, nc) => (Ok tt, (set_sv2 b d, nc))
  | (Err e, nc) => (Err (CAeadError e), (d, nc))
  | (Panic, nc) => (Panic, (d, nc))
  end.
Definition upd (f : WithNoise → WithNoise) : DEC unit := modify (λ '(d, nc), (f d, nc)).
Definition get_d {A} (f : WithNoise → A) : DEC A := gets (λ '(d, _), f d).

(** The loop of [decode_noise_frame]: one chunk of ciphertext per turn is
    appended to the Sv2 buffer and opened in place behind the plaintext so far. *)
Fixpoint decrypt_chunks (fuel : nat) (encrypted_payload : bytes) (start end_ decrypted_len : Z)
    : DEC unit :=
  match fuel with
  | O => panic
  | S fuel =>
      if start <? zlen encrypted_payload then
        chunk ← lift (slice_range encrypted_payload start end_);
        _ ← upd (λ d, set_sv2 (danger_set_start (push (d_sv2_buffer d) chunk) decrypted_len) d);
        _ ← decrypt_sv2;
        visible ← get_d (λ d, as_ref (E := CodecError) (d_sv2_buffer d));
        v ← lift visible;
        let start := end_ in
        let end_ := Z.min (start + SV2_FRAME_CHUNK_SIZE) (zlen encrypted_payload) in
        decrypt_chunks fuel encrypted_payload start end_ (decrypted_len + zlen v)
      else mret tt
  end.

(** Turns enough for [n] bytes in chunks of [c]. *)
Definition chunk_fuel (n c : Z) : nat := S (S (Z.to_nat (n / c))).

(** [decode_noise_frame]. *)
Definition decode_noise_frame : DEC Frame :=
  noise_len ← get_d (λ d, buf_len (d_noise_buffer d));
  sv2_len ← get_d (λ d, buf_len (d_sv2_buffer d));
  if (noise_len =? ENCRYPTED_SV2_FRAME_HEADER_SIZE) && (sv2_len =? 0) then
    owned ← get_d (λ d, get_data_owned (d_noise_buffer d));
    let '(src, nb) := owned in
    _ ← upd (set_noise nb);
    _ ← upd (λ d, set_sv2 (push (d_sv2_buffer d) src) d);
    _ ← decrypt_sv2;
    hb ← get_d (λ d, get_data_by_ref (d_sv2_buffer d) SV2_FRAME_HEADER_SIZE);
    header ← lift (map_err CFramingError (HeaderOps.from_bytes hb));
    _ ← upd (set_missing (HeaderOps.encrypted_len header));
    throw (MissingBytes (HeaderOps.encrypted_len header))
  else
    owned ← get_d (λ d, get_data_owned (d_noise_buffer d));
    let '(encrypted_payload, nb) := owned in
    _ ← upd (set_noise nb);
    let encrypted_payload_len := zlen encrypted_payload in
    let end_ := if encrypted_payload_len <? SV2_FRAME_CHUNK_SIZE
                then encrypted_payload_len else SV2_FRAME_CHUNK_SIZE in
    _ ← decrypt_chunks (chunk_fuel encrypted_payload_len SV2_FRAME_CHUNK_SIZE)
          encrypted_payload 0 end_ SV2_FRAME_HEADER_SIZE;
    _ ← upd (λ d, set_sv2 (danger_set_start (d_sv2_buffer d) 0) d);
    owned ← get_d (λ d, get_data_owned (d_sv2_buffer d));
    let '(src, sb) := owned in
    _ ← upd (set_sv2 sb);
    f ← lift (FrameOps.from_bytes_unchecked src);
    mret (FrameSv2 f).

(** [while_handshaking]. *)
Definition while_handshaking (d : WithNoise) : Frame * WithNoise :=
  let '(src, nb) := get_data_owned (d_noise_buffer d) in
  (FrameHandShake (mkHandShakeFrame src), set_noise nb d).

(** The transport branch of [next_frame]: how many bytes are missing, *)
Definition missing_hint : DEC Z :=
  sv2_len ← get_d (λ d, buf_len (d_sv2_buffer d));
  noise_len ← get_d (λ d, buf_len (d_noise_buffer d));
  if sv2_len <? SV2_FRAME_HEADER_SIZE then
    src ← get_d (λ d, get_data_by_ref (d_noise_buffer d) noise_len);
    if zlen src <? ENCRYPTED_SV2_FRAME_HEADER_SIZE
    then mret (ENCRYPTED_SV2_FRAME_HEADER_SIZE - zlen src) else mret 0
  else
    src ← get_d (λ d, get_data_by_ref (d_sv2_buffer d) SV2_FRAME_HEADER_SIZE);
    header ← lift (map_err CFramingError (HeaderOps.from_bytes src));
    lift (sub_chk (HeaderOps.encrypted_len header) noise_len).

(** then the decoding step. *)
Definition transport_next_frame : DEC Frame :=
  hint ← missing_hint;
  if hint =? 0 then
    _ ← upd (set_missing ENCRYPTED_SV2_FRAME_HEADER_SIZE);
    decode_noise_frame
  else
    _ ← upd (set_missing hint);
    throw (MissingBytes hint).

(** [WithNoise::next_frame]. *)
Definition next_frame : ST (WithNoise * State) CodecError Frame := λ '(d, st),
  match st with
  | HandShake _ => (Panic, (d, st))
  | NotInitialized msg_len =>
      match as_ref (E := CodecError) (d_noise_buffer d) with
      | Ok src =>
          match sub_chk (E := CodecError) msg_len (zlen src) with
          | Ok hint =>
              if hint =? 0 then
                let d := set_missing NOISE_FRAME_HEADER_SIZE d in
                let '(f, d) := while_handshaking d in (Ok f, (d, st))
              else (Err (MissingBytes hint), (set_missing hint d, st))
          | _ => (Panic, (d, st))
          end
      | _ => (Panic, (d, st))
      end
  | Transport nc =>
      let '(r, (d, nc)) := transport_next_frame (d, nc) in (r, (d, Transport nc))
  end.

(** [writable_len], and writing [data] through [writable]
    ([copy_from_slice] panics on a length mismatch). *)
Definition writable_len (d : WithNoise) : Z := missing_noise_b d.
Definition fill_writable {E} (data : bytes) (d : WithNoise) : result E WithNoise :=
  if zlen data =? missing_noise_b d then Ok (set_noise (push (d_noise_buffer d) data) d)
  else Panic.

(** ** The decoder without Noise *)

Record WithoutNoise : Type := mkWithoutNoise {
  missing_b : Z;
  buffer : B;
}.

Definition plain_next_frame : ST WithoutNoise CodecError Sv2Frame := λ d,
  let len := buf_len (buffer d) in
  let src := get_data_by_ref (buffer d) len in
  let hint := FrameOps.size_hint src in
  if hint =? 0 then
    let '(src, b) := get_data_owned (buffer d) in
    (FrameOps.from_bytes_unchecked src, mkWithoutNoise SV2_FRAME_HEADER_SIZE b)
  else (Err (MissingBytes hint), mkWithoutNoise hint (buffer d)).

Definition plain_fill_writable {E} (data : bytes) (d : WithoutNoise) : result E WithoutNoise :=
  if zlen data =? missing_b d then Ok (mkWithoutNoise (missing_b d) (push (buffer d) data))
  else Panic.

(** ** The encoder with Noise *)

Record NoiseEncoder : Type := mkNoiseEncoder {
  e_noise_buffer : B;
  e_sv2_buffer : B;
}.
Definition set_e_noise (b : B) (e : NoiseEncoder) : NoiseEncoder :=
  mkNoiseEncoder b (e_sv2_buffer e).
Definition set_e_sv2 (b : B) (e : NoiseEncoder) : NoiseEncoder :=
  mkNoiseEncoder (e_noise_buffer e) b.

Notation ENC := (ST (NoiseEncoder * NoiseCodec) CodecError).

Definition encrypt_noise : ENC unit := λ '(e, nc),
  match buffer_encrypt (e_noise_buffer e) nc with
  | (Ok b, nc) => (Ok tt, (set_e_noise b e, nc))
  | (Err err, nc) => (Err (CAeadError err), (e, nc))
  | (Panic, nc) => (Panic, (e, nc))
  end.
Definition upd_e (f : NoiseEncoder → NoiseEncoder) : ENC unit := modify (λ '(e, nc), (f e, nc)).
Definition get_e {A} (f : NoiseEncoder → A) : ENC A := gets (λ '(e, _), f e).

(** The payload loop of [NoiseEncoder::encode]. *)
Fixpoint encrypt_chunks (fuel : nat) (sv2 : bytes) (start end_ encrypted_len : Z) : ENC unit :=
  match fuel with
  | O => panic
  | S fuel =>
      if start <? zlen sv2 then
        chunk ← lift (slice_range sv2 start end_);
        _ ← upd_e (λ e, set_e_noise
              (danger_set_start (push (e_noise_buffer e) chunk) encrypted_len) e);
        _ ← encrypt_noise;
        visible ← get_e (λ e, as_ref (E := CodecError) (e_noise_buffer e));
        v ← lift visible;
        let start := end_ in
        let end_ := Z.min (start + SV2_FRAME_CHUNK_SIZE - AEAD_MAC_LEN) (zlen sv2) in
        encrypt_chunks fuel sv2 start end_ (encrypted_len + zlen v)
      else mret tt
  end.

(** The transport branch of [NoiseEncoder::encode]. *)
Definition transport_encode (overflow_checks : bool) (item : Frame) : ENC unit :=
  len ← lift (FrameOps.frame_encoded_length item);
  w ← get_e (λ e, get_writable (e_sv2_buffer e) len);
  let '(writable, sb) := w in
  _ ← upd_e (set_e_sv2 sb);
  i ← lift (map_err CFramingError (FrameOps.try_into_sv2 item));
  let '(r, written) := FrameOps.serialize overflow_checks i writable in
  _ ← upd_e (λ e, set_e_sv2 (write_window (e_sv2_buffer e) written) e);
  _ ← lift (map_err CFramingError r);
  owned ← get_e (λ e, get_data_owned (e_sv2_buffer e));
  let '(sv2, sb) := owned in
  _ ← upd_e (set_e_sv2 sb);
  hd ← lift (slice_range sv2 0 SV2_FRAME_HEADER_SIZE);
  _ ← upd_e (λ e, set_e_noise (push (e_noise_buffer e) hd) e);
  _ ← encrypt_noise;
  let start := SV2_FRAME_HEADER_SIZE in
  let end_ := if zlen sv2 - start <? SV2_FRAME_CHUNK_SIZE - AEAD_MAC_LEN
              then zlen sv2 else SV2_FRAME_CHUNK_SIZE + start - AEAD_MAC_LEN in
  _ ← encrypt_chunks (chunk_fuel (zlen sv2) (SV2_FRAME_CHUNK_SIZE - AEAD_MAC_LEN))
        sv2 start end_ ENCRYPTED_SV2_FRAME_HEADER_SIZE;
  upd_e (λ e, set_e_noise (danger_set_start (e_noise_buffer e) 0) e).

(** [NoiseEncoder::while_handshaking]. *)
Definition encode_while_handshaking (item : Frame) : ST NoiseEncoder CodecError unit :=
  i ← lift (map_err CFramingError (FrameOps.try_into_handshake item));
  modify (λ e, set_e_noise (push (e_noise_buffer e) (hs_payload i)) e).

(** [NoiseEncoder::encode]. *)
Definition encode (overflow_checks : bool) (item : Frame)
    : ST (NoiseEncoder * State) CodecError bytes :=
  _ ← (λ '(e, st),
         match st with
         | Transport nc =>
             let '(r, (e, nc)) := transport_encode overflow_checks item (e, nc) in
             (r, (e, Transport nc))
         | _ => let '(r, e) := encode_while_handshaking item e in (r, (e, st))
         end);
  sb ← gets (λ '(e, _), get_data_owned (e_sv2_buffer e));
  _ ← modify (λ '(e, st), (set_e_sv2 sb.2 e, st));
  nb ← gets (λ '(e, _), get_data_owned (e_noise_buffer e));
  _ ← modify (λ '(e, st), (set_e_noise nb.2 e, st));
  mret nb.1.

(** ** The encoder without Noise: its buffer is a [Vec<u8>] *)

Definition plain_encode (overflow_checks : bool) (item : Sv2Frame) : ST bytes CodecError bytes :=
  λ buffer,
    match FrameOps.encoded_length (E := CodecError) item with
    | Ok len =>
        let buffer := ztake len buffer
          ++ replicate (Z.to_nat (len - zlen buffer)) (byte.of_Z 0) in
        let '(r, buffer) := FrameOps.serialize overflow_checks item buffer in
        match r with
        | Ok _ => (Ok buffer, buffer)
        | Err e => (Err (CFramingError e), buffer)
        | Panic => (Panic, buffer)
        end
    | _ => (Panic, buffer)
    end.

End Transport.
