(* ===== verification/TransportFacts.v ===== *)
(** * Facts about the transport codec: sealing and opening in chunks *)

From S2P Require Import Prelude Datatypes Codec CodecFacts CodecTheorems Framing Buffer Noise NoiseProperties Transport.

(** ** The wire format of an encrypted frame *)

(** A cipher with its counter advanced by [m]. *)
Definition advance (m : Z) (g : GenericCipher) : GenericCipher :=
  let c := gc_cipher g in gc_put (mkCipher (c_k c) (c_n c + m) (c_cipher c)) g.

Lemma advance_alg m g : gc_alg (advance m g) = gc_alg g.
Proof. by destruct g. Qed.
Lemma advance_n m g : c_n (gc_cipher (advance m g)) = c_n (gc_cipher g) + m.
Proof. by destruct g. Qed.
Lemma advance_cipher m g : c_cipher (gc_cipher (advance m g)) = c_cipher (gc_cipher g).
Proof. by destruct g. Qed.
Lemma advance_advance m k g : advance m (advance k g) = advance (k + m) g.
Proof. destruct g as [[? n ?]|[? n ?]]; unfold advance; cbn; do 2 f_equal; lia. Qed.
Lemma advance_0 g : advance 0 g = g.
Proof. destruct g as [[? n ?]|[? n ?]]; unfold advance; cbn; do 2 f_equal; lia. Qed.
#[export] Hint Rewrite advance_alg advance_n advance_cipher advance_advance : sv2.

Section TransportFacts.
Context `{CL : CryptoLaws} {B : Type} `{BS : BufferSpec B}.

(** [pt] sealed by a cipher at its current counter, with no associated data. *)
Definition seals (g : GenericCipher) (pt ct : bytes) : Prop :=
  ∃ key, c_cipher (gc_cipher g) = Some key ∧
    aead_seal (gc_alg g) key (nonce_to_bytes (c_n (gc_cipher g))) [] pt = Some ct.

(** A payload cut into chunks of 65519 bytes (the last one may be shorter),
    each sealed at the next counter. *)
Inductive Chunked : GenericCipher → bytes → list bytes → Prop :=
  | Chunked_nil g : Chunked g [] []
  | Chunked_cons g p rest ct cts :
      0 < zlen p ≤ 65519 → (rest = [] ∨ zlen p = 65519) → seals g p ct →
      Chunked (advance 1 g) rest cts → Chunked g (p ++ rest) (ct :: cts).

Lemma seals_total g pt :
  keyed (gc_cipher g) 1 → zlen pt ≤ 65519 → ∃ ct, seals g pt ct.
Proof.
  intros ((key & Hk) & _) Hl.
  destruct (aead_seal_total (gc_alg g) key (nonce_to_bytes (c_n (gc_cipher g))) [] pt Hl)
    as [ct Hct]. exists ct, key. done.
Qed.

Lemma seals_len g pt ct : seals g pt ct → zlen ct = zlen pt + 16.
Proof. intros (key & _ & Hs). by eapply aead_seal_len. Qed.

Lemma Chunked_nil_inv g cts : Chunked g [] cts → cts = [].
Proof.
  remember [] as p eqn:Ep. intros Hc. destruct Hc as [|g p rest ct cts Hp]; [done|].
  apply (f_equal zlen) in Ep. rewrite zlen_app in Ep. change (zlen []) with 0 in Ep.
  pose proof (zlen_nonneg rest). lia.
Qed.

(** Every ciphertext chunk but the last fills 65535 bytes, and together they
    have the length the header announces. *)
Lemma Chunked_len g p cts :
  Chunked g p cts →
  ∀ e t, zlen (concat cts) = HeaderOps.encrypted_len (mkHeader e t (zlen p)).
Proof.
  induction 1 as [g|g p rest ct cts Hp Hr Hs Hc IH]; intros e t; [done|].
  cbn [concat]. rewrite !zlen_app, (seals_len _ _ _ Hs), (IH e t).
  destruct Hr as [->|Hr].
  - apply Chunked_nil_inv in Hc as ->.
    rewrite (encrypted_len_last (mkHeader e t (zlen p + zlen []))); cbn [msg_length];
      unfold AEAD_MAC_LEN, SV2_FRAME_CHUNK_SIZE; change (zlen []) with 0; [|lia].
    change (HeaderOps.encrypted_len (mkHeader e t 0)) with 0. lia.
  - rewrite (encrypted_len_step (mkHeader e t (zlen p + zlen rest)) (zlen rest));
      cbn [msg_length extension_type msg_type]; [|unfold SV2_FRAME_CHUNK_SIZE, AEAD_MAC_LEN; lia|
      apply zlen_nonneg]. unfold SV2_FRAME_CHUNK_SIZE. lia.
Qed.

Lemma keyed_advance g m k :
  0 ≤ m → keyed (gc_cipher g) (m + k) → keyed (gc_cipher (advance m g)) k.
Proof.
  intros Hm (H1 & H2 & H3). unfold keyed. autorewrite with sv2. split_and!; [done|lia|lia].
Qed.

(** The number of chunks of a payload. *)
Lemma Chunked_exists n p g :
  zlen p ≤ Z.of_nat n * 65519 → keyed (gc_cipher g) (Z.of_nat n) → ∃ cts, Chunked g p cts.
Proof.
  revert p g. induction n as [|n IH]; intros p g Hl Hk.
  - exists []. assert (p = []) as -> by (destruct p; [done|]; rewrite zlen_cons in Hl; pose proof (zlen_nonneg p); lia).
    constructor.
  - destruct (decide (zlen p ≤ 65519)) as [Hs|Hs].
    + destruct p as [|b p]; [exists []; constructor|].
      destruct (seals_total g (b :: p)) as [ct Hct]; [|done|].
      { destruct Hk as (? & ? & ?). split_and!; [done|lia|lia]. }
      exists [ct]. rewrite <- (app_nil_r (b :: p)). constructor; [|by left|done|constructor].
      rewrite zlen_cons in *. pose proof (zlen_nonneg p). lia.
    + destruct (IH (zdrop 65519 p) (advance 1 g)) as [cts Hc].
      { rewrite zlen_drop; lia. }
      { apply keyed_advance; [lia|]. by replace (1 + Z.of_nat n) with (Z.of_nat (S n)) by lia. }
      destruct (seals_total g (ztake 65519 p)) as [ct Hct].
      { destruct Hk as (? & ? & ?). split_and!; [done|lia|lia]. }
      { rewrite zlen_take; lia. }
      exists (ct :: cts). rewrite <- (ztake_zdrop 65519 p). constructor; [| |done|done].
      * rewrite zlen_take; lia.
      * right. rewrite zlen_take; lia.
Qed.

Lemma gc_encrypt_seals g pt ct :
  seals g pt ct → c_n (gc_cipher g) + 1 < 2 ^ 64 → gc_encrypt pt g = (Ok ct, advance 1 g).
Proof.
  intros (key & Hk & Hs) Hn. unfold gc_encrypt, zoom, encrypt_with_ad, add_chk, advance.
  by rewrite (proj2 (Z.ltb_lt _ _)), Hk, Hs by lia.
Qed.
Lemma gc_decrypt_seals g pt ct :
  seals g pt ct → c_n (gc_cipher g) + 1 < 2 ^ 64 → gc_decrypt ct g = (Ok pt, advance 1 g).
Proof.
  intros (key & Hk & Hs) Hn. unfold gc_decrypt, zoom, decrypt_with_ad, add_chk, advance.
  rewrite (proj2 (Z.ltb_lt _ _)), Hk by lia. by erewrite aead_open_seal by exact Hs.
Qed.

(** ** Buffers under the ciphers *)

(** A buffer holding [c] with start index [s]. *)
Definition holds (b : B) (c : bytes) (s : Z) : Prop :=
  buf_ok b ∧ contents b = c ∧ start_of b = s.

Lemma push_holds b c s src : holds b c s → holds (push b src) (c ++ src) s.
Proof.
  intros (Hb & Hc & Hs). unfold push.
  destruct (get_writable_spec b (zlen src) Hb (zlen_nonneg src)) as (w & b' & -> & Hb' & Hw & Hc' & Hs').
  destruct (write_window_spec b' (contents b) w src Hb' Hc') as (? & ? & ?); [done|].
  split_and!; [done|by subst|congruence].
Qed.

Lemma set_start_holds b c s n : holds b c s → holds (danger_set_start b n) c n.
Proof.
  intros (Hb & Hc & Hs). destruct (danger_set_start_spec b n Hb) as (? & ? & ?).
  split_and!; [done|congruence|done].
Qed.

Lemma owned_holds b c s :
  holds b c s → ∃ b', get_data_owned b = (c, b') ∧ holds b' [] s.
Proof.
  intros (Hb & Hc & Hs). destruct (get_data_owned_spec b Hb) as (b' & Hd & ? & ? & ?).
  exists b'. split; [congruence|]. split_and!; [done|done|congruence].
Qed.

Lemma len_holds b c s : holds b c s → buf_len b = zlen c.
Proof. intros (Hb & <- & _). by apply buf_len_spec. Qed.
Lemma by_ref_holds b c s n : holds b c s → 0 ≤ n → get_data_by_ref b n = ztake n c.
Proof. intros (Hb & <- & _) Hn. by apply get_data_by_ref_spec. Qed.

Lemma as_ref_holds {E} b pre vis :
  holds b (pre ++ vis) (zlen pre) → as_ref (E := E) b = Ok vis.
Proof.
  intros (Hb & Hc & Hs). rewrite as_ref_spec, Hc, Hs by done.
  rewrite slice_from_ok by (pose proof (zlen_nonneg vis); pose proof (zlen_nonneg pre); len_solve).
  by rewrite zdrop_app.
Qed.

Lemma buffer_encrypt_spec b pre pt ct nc :
  holds b (pre ++ pt) (zlen pre) → seals (encryptor nc) pt ct →
  c_n (gc_cipher (encryptor nc)) + 1 < 2 ^ 64 →
  ∃ b', buffer_encrypt b nc =
      (Ok b', mkNoiseCodec (advance 1 (encryptor nc)) (decryptor nc)) ∧
    holds b' (pre ++ ct) (zlen pre).
Proof.
  intros Hb Hs Hn. unfold buffer_encrypt. rewrite (as_ref_holds _ _ _ Hb), st_lift_bind.
  erewrite st_bind_ok by (unfold nc_encrypt; eapply st_zoom_ok, gc_encrypt_seals; eassumption).
  eexists; split; [reflexivity|]. destruct Hb as (Hb & Hc & Hst).
  pose proof (seals_len _ _ _ Hs) as Hl. pose proof (zlen_nonneg pt).
  destruct (write_window_spec b pre pt (ztake (zlen pt) ct) Hb Hc) as (Q1 & Q2 & Q3).
  { rewrite zlen_take; lia. }
  destruct (extend_from_slice_spec _ (zdrop (zlen pt) ct) Q1) as (Q4 & Q5 & Q6).
  split_and!; [done| |congruence]. by rewrite Q5, Q2, <- app_assoc, ztake_zdrop.
Qed.

Lemma buffer_decrypt_spec b pre pt ct nc :
  holds b (pre ++ ct) (zlen pre) → seals (decryptor nc) pt ct →
  c_n (gc_cipher (decryptor nc)) + 1 < 2 ^ 64 →
  ∃ b', buffer_decrypt b nc =
      (Ok b', mkNoiseCodec (encryptor nc) (advance 1 (decryptor nc))) ∧
    holds b' (pre ++ pt) (zlen pre).
Proof.
  intros Hb Hs Hn. unfold buffer_decrypt. rewrite (as_ref_holds _ _ _ Hb), st_lift_bind.
  erewrite st_bind_ok by (unfold nc_decrypt; eapply st_zoom_ok, gc_decrypt_seals; eassumption).
  eexists; split; [reflexivity|]. destruct Hb as (Hb & Hc & Hst).
  pose proof (seals_len _ _ _ Hs) as Hl. pose proof (zlen_nonneg pt). pose proof (zlen_nonneg pre).
  destruct (write_window_spec b pre ct (pt ++ zdrop (zlen pt) ct) Hb Hc) as (Q1 & Q2 & Q3).
  { rewrite zlen_app, zlen_drop; lia. }
  destruct (truncate_spec _ (zlen pt) Q1) as (Q4 & Q5 & Q6); [lia|lia| |].
  { rewrite Q2, Q3, Hst. len_solve. }
  split_and!; [done| |congruence].
  rewrite Q5, Q2, Q3, Hst, app_assoc. apply ztake_app. by rewrite zlen_app.
Qed.

(** ** The encoder *)

Lemma encrypt_noise_spec e nc pre pt ct :
  holds (e_noise_buffer e) (pre ++ pt) (zlen pre) → seals (encryptor nc) pt ct →
  c_n (gc_cipher (encryptor nc)) + 1 < 2 ^ 64 →
  ∃ nb, encrypt_noise (e, nc) =
      (Ok tt, (set_e_noise nb e, mkNoiseCodec (advance 1 (encryptor nc)) (decryptor nc))) ∧
    holds nb (pre ++ ct) (zlen pre).
Proof.
  intros Hb Hs Hn. destruct (buffer_encrypt_spec _ _ _ _ _ Hb Hs Hn) as (b' & E & Hb').
  exists b'. unfold encrypt_noise. by rewrite E.
Qed.

(** The window of the current chunk, in either direction. *)
Lemma chunk_window (hd p rest : bytes) size :
  0 < zlen p ≤ size → rest = [] ∨ zlen p = size →
  Z.min (zlen hd + size) (zlen (hd ++ p ++ rest)) = zlen hd + zlen p.
Proof.
  intros Hp [->|Hr]; rewrite !zlen_app.
  - change (zlen []) with 0. lia.
  - pose proof (zlen_nonneg rest). lia.
Qed.

Lemma encrypt_chunks_spec g payload cts :
  Chunked g payload cts →
  ∀ fuel hd e nc pre s,
    encryptor nc = g → c_n (gc_cipher g) + zlen cts < 2 ^ 64 →
    zlen payload ≤ (Z.of_nat fuel - 1) * 65519 → (0 < fuel)%nat →
    holds (e_noise_buffer e) pre s →
    ∃ nb s', encrypt_chunks fuel (hd ++ payload) (zlen hd)
        (Z.min (zlen hd + 65519) (zlen (hd ++ payload))) (zlen pre) (e, nc) =
        (Ok tt, (set_e_noise nb e, mkNoiseCodec (advance (zlen cts) g) (decryptor nc))) ∧
      holds nb (pre ++ concat cts) s'.
Proof.
  induction 1 as [g|g p rest ct cts Hp Hr Hs Hc IH]; intros fuel hd e nc pre s Hg Hn Hf Hf0 Hb;
    (destruct fuel as [|fuel]; [lia|]); cbn [encrypt_chunks].
  - rewrite app_nil_r, Z.ltb_irrefl. exists (e_noise_buffer e), s.
    change (zlen []) with 0. rewrite advance_0, <- Hg. cbn [concat]. rewrite app_nil_r.
    split; [by destruct e, nc|done].
  - rewrite zlen_app in Hf. pose proof (zlen_nonneg rest). pose proof (zlen_nonneg hd).
    pose proof (zlen_nonneg cts). rewrite zlen_cons in Hn.
    rewrite (proj2 (Z.ltb_lt _ _)) by (rewrite !zlen_app; lia).
    rewrite chunk_window by (lia || done).
    rewrite (slice_range_mid hd p rest) by done. rewrite st_lift_bind. unfold upd_e, get_e.
    rewrite st_modify_bind.
    destruct (encrypt_noise_spec (set_e_noise (danger_set_start (push (e_noise_buffer e) p)
      (zlen pre)) e) nc pre p ct) as (nb & E & Hnb).
    { eapply set_start_holds, push_holds, Hb. }
    { by rewrite Hg. }
    { rewrite Hg. lia. }
    erewrite st_bind_ok by exact E. rewrite st_gets_bind. cbn [set_e_noise e_noise_buffer].
    rewrite (as_ref_holds nb pre ct Hnb), st_lift_bind.
    replace (hd ++ p ++ rest) with ((hd ++ p) ++ rest) by (by rewrite app_assoc).
    replace (zlen hd + zlen p) with (zlen (hd ++ p)) by (by rewrite zlen_app).
    replace (zlen pre + zlen ct) with (zlen (pre ++ ct)) by (by rewrite zlen_app).
    destruct (IH fuel (hd ++ p) (set_e_noise nb e)
      (mkNoiseCodec (advance 1 (encryptor nc)) (decryptor nc)) (pre ++ ct) (zlen pre))
      as (nb' & s' & E' & Hnb').
    { cbn. by rewrite Hg. }
    { autorewrite with sv2. lia. }
    { destruct Hr as [->|Hr]; [change (zlen []) with 0; destruct fuel; lia|lia]. }
    { destruct fuel; [lia|lia]. }
    { exact Hnb. }
    unfold SV2_FRAME_CHUNK_SIZE, AEAD_MAC_LEN.
    replace (zlen (hd ++ p) + 65535 - 16) with (zlen (hd ++ p) + 65519) by lia.
    exists nb', s'. split.
    + refine (eq_trans E' _). rewrite advance_advance, zlen_cons. done.
    + by rewrite <- app_assoc in Hnb'.
Qed.

(** ** The decoder *)

Lemma decrypt_sv2_spec d nc pre pt ct :
  holds (d_sv2_buffer d) (pre ++ ct) (zlen pre) → seals (decryptor nc) pt ct →
  c_n (gc_cipher (decryptor nc)) + 1 < 2 ^ 64 →
  ∃ sb, decrypt_sv2 (d, nc) =
      (Ok tt, (set_sv2 sb d, mkNoiseCodec (encryptor nc) (advance 1 (decryptor nc)))) ∧
    holds sb (pre ++ pt) (zlen pre).
Proof.
  intros Hb Hs Hn. destruct (buffer_decrypt_spec _ _ _ _ _ Hb Hs Hn) as (b' & E & Hb').
  exists b'. unfold decrypt_sv2. by rewrite E.
Qed.

Lemma decrypt_chunks_spec g payload cts :
  Chunked g payload cts →
  ∀ fuel hd d nc pre s,
    decryptor nc = g → c_n (gc_cipher g) + zlen cts < 2 ^ 64 →
    zlen (concat cts) ≤ (Z.of_nat fuel - 1) * 65535 → (0 < fuel)%nat →
    holds (d_sv2_buffer d) pre s →
    ∃ sb s', decrypt_chunks fuel (hd ++ concat cts) (zlen hd)
        (Z.min (zlen hd + 65535) (zlen (hd ++ concat cts))) (zlen pre) (d, nc) =
        (Ok tt, (set_sv2 sb d, mkNoiseCodec (encryptor nc) (advance (zlen cts) g))) ∧
      holds sb (pre ++ payload) s'.
Proof.
  induction 1 as [g|g p rest ct cts Hp Hr Hs Hc IH]; intros fuel hd d nc pre s Hg Hn Hf Hf0 Hb;
    (destruct fuel as [|fuel]; [lia|]); cbn [decrypt_chunks concat].
  - rewrite !app_nil_r, Z.ltb_irrefl. exists (d_sv2_buffer d), s.
    change (zlen []) with 0. rewrite advance_0, <- Hg.
    split; [by destruct d, nc|done].
  - cbn [concat] in Hf. rewrite zlen_app in Hf. pose proof (zlen_nonneg (concat cts)).
    pose proof (zlen_nonneg hd). pose proof (zlen_nonneg cts). rewrite zlen_cons in Hn.
    pose proof (seals_len _ _ _ Hs) as Hl.
    assert (Hr' : concat cts = [] ∨ zlen ct = 65535).
    { destruct Hr as [->|Hr]; [left|right; lia]. by apply Chunked_nil_inv in Hc as ->. }
    rewrite (proj2 (Z.ltb_lt _ _)) by (rewrite !zlen_app; lia).
    rewrite (chunk_window hd ct (concat cts)) by (lia || done).
    rewrite (slice_range_mid hd ct (concat cts)) by done. rewrite st_lift_bind.
    unfold upd, get_d. rewrite st_modify_bind.
    destruct (decrypt_sv2_spec (set_sv2 (danger_set_start (push (d_sv2_buffer d) ct)
      (zlen pre)) d) nc pre p ct) as (sb & E & Hsb).
    { eapply set_start_holds, push_holds, Hb. }
    { by rewrite Hg. }
    { rewrite Hg. lia. }
    erewrite st_bind_ok by exact E. rewrite st_gets_bind. cbn [set_sv2 d_sv2_buffer].
    rewrite (as_ref_holds sb pre p Hsb), st_lift_bind.
    replace (hd ++ ct ++ concat cts) with ((hd ++ ct) ++ concat cts) by (by rewrite app_assoc).
    replace (zlen hd + zlen ct) with (zlen (hd ++ ct)) by (by rewrite zlen_app).
    replace (zlen pre + zlen p) with (zlen (pre ++ p)) by (by rewrite zlen_app).
    destruct (IH fuel (hd ++ ct) (set_sv2 sb d)
      (mkNoiseCodec (encryptor nc) (advance 1 (decryptor nc))) (pre ++ p) (zlen pre))
      as (sb' & s' & E' & Hsb').
    { cbn. by rewrite Hg. }
    { autorewrite with sv2. lia. }
    { destruct Hr' as [->|Hr']; [change (zlen []) with 0; destruct fuel; lia|lia]. }
    { destruct fuel; [lia|lia]. }
    { exact Hsb. }
    unfold SV2_FRAME_CHUNK_SIZE.
    exists sb', s'. split.
    + refine (eq_trans E' _). rewrite advance_advance, zlen_cons. done.
    + by rewrite <- app_assoc in Hsb'.
Qed.

Lemma Chunked_count g p cts : Chunked g p cts → (zlen cts - 1) * 65519 ≤ zlen p.
Proof.
  induction 1 as [g|g p rest ct cts Hp Hr Hs Hc IH]; [change (zlen []) with 0; lia|].
  rewrite zlen_cons, zlen_app. destruct Hr as [->|Hr]; [|lia].
  apply Chunked_nil_inv in Hc as ->. change (zlen []) with 0. lia.
Qed.

Lemma chunk_fuel_enough n m c :
  0 < c → 0 ≤ n → m ≤ n → m ≤ (Z.of_nat (chunk_fuel n c) - 1) * c ∧ (0 < chunk_fuel n c)%nat.
Proof.
  intros Hc Hn Hm. unfold chunk_fuel. split; [|lia].
  pose proof (Z.div_pos n c Hn Hc). pose proof (Z.mul_succ_div_gt n c Hc). nia.
Qed.

(** ** Whole frames *)

(** A frame that serializes to [w]. *)
Definition serializes (chk : bool) (f : Sv2Frame) (w : bytes) : Prop :=
  FrameOps.encoded_length (E := CodecError) f = Ok (zlen w) ∧
  ∀ dst, zlen dst = zlen w → FrameOps.serialize chk f dst = (Ok tt, w).

(** The ciphertext of a frame: the header sealed on its own, then the chunks. *)
Definition frame_wire (g : GenericCipher) (hd payload wire : bytes) (turns : Z) : Prop :=
  ∃ hct cts, wire = hct ++ concat cts ∧ turns = 1 + zlen cts ∧
    seals g hd hct ∧ Chunked (advance 1 g) payload cts.

(** The encoder between two frames. *)
Definition enc_idle (e : NoiseEncoder) : Prop :=
  holds (e_noise_buffer e) [] 0 ∧ holds (e_sv2_buffer e) [] 0.

Lemma frame_wire_exists g hd payload :
  zlen hd = 6 → zlen payload < 2 ^ 24 → keyed (gc_cipher g) 512 →
  ∃ wire turns, frame_wire g hd payload wire turns ∧ 0 < turns ≤ 258.
Proof.
  intros Hh Hp Hk.
  destruct (seals_total g hd) as [hct Hct]; [destruct Hk as (? & ? & ?); split_and!; [done|lia|lia]|lia|].
  destruct (Chunked_exists 257 payload (advance 1 g)) as [cts Hc]; [lia| |].
  { apply keyed_advance; [lia|]. destruct Hk as (? & ? & ?). split_and!; [done|lia|lia]. }
  exists (hct ++ concat cts), (1 + zlen cts). split; [by exists hct, cts|].
  pose proof (Chunked_count _ _ _ Hc). pose proof (zlen_nonneg cts). lia.
Qed.

Lemma transport_encode_spec chk f hd payload wire turns e nc :
  serializes chk f (hd ++ payload) → zlen hd = 6 → enc_idle e →
  frame_wire (encryptor nc) hd payload wire turns →
  c_n (gc_cipher (encryptor nc)) + turns < 2 ^ 64 →
  ∃ e', transport_encode chk (FrameSv2 f) (e, nc) =
      (Ok tt, (e', mkNoiseCodec (advance turns (encryptor nc)) (decryptor nc))) ∧
    holds (e_noise_buffer e') wire 0 ∧ holds (e_sv2_buffer e') [] 0.
Proof.
  intros [Hlen Hser] Hh [Hnb Hsb] (hct & cts & -> & -> & Hs & Hc) Hn.
  set (w := hd ++ payload) in *. pose proof (zlen_nonneg payload) as Hp.
  assert (Hw : zlen w = 6 + zlen payload) by (unfold w; rewrite zlen_app; lia).
  unfold transport_encode, get_e, upd_e. cbn [FrameOps.frame_encoded_length].
  rewrite Hlen, st_lift_bind, st_gets_bind.
  destruct Hsb as (Hsb & Hsc & Hss).
  destruct (get_writable_spec (e_sv2_buffer e) (zlen w) Hsb) as (win & sb & -> & Hb1 & Hw1 & Hc1 & Hs1);
    [lia|].
  rewrite st_modify_bind. cbn [FrameOps.try_into_sv2 map_err]. rewrite st_lift_bind.
  rewrite (Hser win) by done. cbn [map_err]. rewrite st_modify_bind, st_lift_bind, st_gets_bind.
  cbn [set_e_sv2 e_sv2_buffer].
  destruct (write_window_spec sb [] win w Hb1) as (Hb2 & Hc2 & Hs2); [by rewrite Hc1, Hsc|done|].
  destruct (owned_holds (write_window sb w) w 0) as (sb' & -> & Hsb').
  { split_and!; [done|done|congruence]. }
  rewrite st_modify_bind. 
  assert (Hsl : slice_range (E := CodecError) w 0 SV2_FRAME_HEADER_SIZE = Ok hd)
    by (by apply slice_range_prefix).
  rewrite Hsl, st_lift_bind.
  rewrite st_modify_bind. cbn [set_e_sv2 set_e_noise e_noise_buffer e_sv2_buffer].
  destruct (encrypt_noise_spec (mkNoiseEncoder (push (e_noise_buffer e) hd) sb') nc [] hd hct)
    as (nb & E & Hnb'); [by apply (push_holds _ [])|done|pose proof (zlen_nonneg cts); lia|].
  erewrite st_bind_ok by exact E.
  replace (if _ <? _ then _ else _) with (Z.min (zlen hd + 65519) (zlen w)).
  2: { unfold SV2_FRAME_HEADER_SIZE, SV2_FRAME_CHUNK_SIZE, AEAD_MAC_LEN.
       split_if; bool_props; lia. }
  replace SV2_FRAME_HEADER_SIZE with (zlen hd) by done.
  replace ENCRYPTED_SV2_FRAME_HEADER_SIZE with (zlen hct)
    by (rewrite (seals_len _ _ _ Hs), Hh; done).
  destruct (chunk_fuel_enough (zlen w) (zlen payload) 65519) as [F1 F2]; [lia|lia|lia|].
  destruct (encrypt_chunks_spec _ _ _ Hc (chunk_fuel (zlen w) 65519) hd
    (set_e_noise nb (mkNoiseEncoder (push (e_noise_buffer e) hd) sb'))
    (mkNoiseCodec (advance 1 (encryptor nc)) (decryptor nc)) hct 0 eq_refl)
    as (nb' & s' & E' & Hnb2); [autorewrite with sv2; lia|done|done|exact Hnb'|].
  erewrite st_bind_ok by exact E'.
  eexists. split; [|split].
  - unfold modify. rewrite advance_advance. reflexivity.
  - cbn. eapply set_start_holds, Hnb2.
  - exact Hsb'.
Qed.

Lemma noise_encode_spec chk f hd payload wire turns e nc :
  serializes chk f (hd ++ payload) → zlen hd = 6 → enc_idle e →
  frame_wire (encryptor nc) hd payload wire turns →
  c_n (gc_cipher (encryptor nc)) + turns < 2 ^ 64 →
  ∃ e', encode chk (FrameSv2 f) (e, Transport nc) =
      (Ok wire, (e', Transport (mkNoiseCodec (advance turns (encryptor nc)) (decryptor nc)))) ∧
    enc_idle e'.
Proof.
  intros Hser Hh He Hw Hn.
  destruct (transport_encode_spec chk f hd payload wire turns e nc Hser Hh He Hw Hn)
    as (e1 & E & Hnb & Hsb).
  unfold encode. erewrite st_bind_ok by (rewrite E; reflexivity).
  destruct (owned_holds _ _ _ Hsb) as (sb & Esb & Hsb').
  destruct (owned_holds _ _ _ Hnb) as (nb & Enb & Hnb').
  rewrite st_gets_bind, st_modify_bind, st_gets_bind, st_modify_bind.
  cbn [set_e_sv2 e_noise_buffer]. rewrite Esb, Enb. eexists; split; [reflexivity|]. done.
Qed.

(** ** The decoder, phase by phase *)

(** Waiting for a header of which [x] has arrived. *)
Definition awaiting_header (d : WithNoise) (x : bytes) : Prop :=
  holds (d_noise_buffer d) x 0 ∧ holds (d_sv2_buffer d) [] 0.
(** The header [hd] is decrypted and [x] of the payload has arrived. *)
Definition awaiting_payload (d : WithNoise) (hd x : bytes) : Prop :=
  holds (d_noise_buffer d) x 0 ∧ holds (d_sv2_buffer d) hd 0.

Lemma missing_hint_header d x nc :
  awaiting_header d x → zlen x ≤ 22 → missing_hint (d, nc) = (Ok (22 - zlen x), (d, nc)).
Proof.
  intros [Hn Hs] Hx. unfold missing_hint, get_d. rewrite !st_gets_bind.
  rewrite (len_holds _ _ _ Hs), (len_holds _ _ _ Hn).
  change (zlen [] <? SV2_FRAME_HEADER_SIZE) with true. cbv iota. rewrite st_gets_bind.
  rewrite (by_ref_holds _ _ _ _ Hn), ztake_ge by (apply zlen_nonneg || lia).
  change ENCRYPTED_SV2_FRAME_HEADER_SIZE with 22.
  destruct (zlen x <? 22) eqn:E; [done|]. bool_props.
  by replace (22 - zlen x) with 0 by lia.
Qed.

Lemma missing_hint_payload d h x nc :
  awaiting_payload d (header_bytes h) x → header_wf h → zlen x ≤ HeaderOps.encrypted_len h →
  missing_hint (d, nc) = (Ok (HeaderOps.encrypted_len h - zlen x), (d, nc)).
Proof.
  intros [Hn Hs] Hw Hx. unfold missing_hint, get_d. rewrite !st_gets_bind.
  rewrite (len_holds _ _ _ Hs), (len_holds _ _ _ Hn), zlen_header_bytes.
  change (SV2_FRAME_HEADER_SIZE <? SV2_FRAME_HEADER_SIZE) with false. cbv iota.
  rewrite st_gets_bind.
  rewrite (by_ref_holds _ _ _ _ Hs), ztake_ge by (rewrite ?zlen_header_bytes; done).
  rewrite <- (app_nil_r (header_bytes h)), header_from_bytes by done. cbn [map_err].
  rewrite st_lift_bind. unfold lift, sub_chk. by rewrite (proj2 (Z.leb_le _ _)).
Qed.

Lemma next_frame_header_short d x nc :
  awaiting_header d x → zlen x < 22 →
  next_frame (d, Transport nc) =
    (Err (MissingBytes (22 - zlen x)), (set_missing (22 - zlen x) d, Transport nc)).
Proof.
  intros Ha Hx. unfold next_frame, transport_next_frame, upd.
  erewrite st_bind_ok by (apply missing_hint_header; [exact Ha|lia]).
  by rewrite (proj2 (Z.eqb_neq _ _)) by lia.
Qed.

Lemma next_frame_header d h hct nc :
  awaiting_header d hct → header_wf h → seals (decryptor nc) (header_bytes h) hct →
  c_n (gc_cipher (decryptor nc)) + 1 < 2 ^ 64 →
  ∃ d', next_frame (d, Transport nc) =
      (Err (MissingBytes (HeaderOps.encrypted_len h)),
       (d', Transport (mkNoiseCodec (encryptor nc) (advance 1 (decryptor nc))))) ∧
    awaiting_payload d' (header_bytes h) [] ∧
    missing_noise_b d' = HeaderOps.encrypted_len h.
Proof.
  intros Ha Hw Hsl Hc.
  pose proof (seals_len _ _ _ Hsl) as Hl. rewrite zlen_header_bytes in Hl.
  unfold SV2_FRAME_HEADER_SIZE in Hl. unfold next_frame, transport_next_frame, upd.
  erewrite st_bind_ok by (apply missing_hint_header; [exact Ha|lia]). destruct Ha as [Hn Hs].
  rewrite Hl. change (22 - (6 + 16) =? 0) with true. cbv iota.
  unfold decode_noise_frame, get_d, upd.
  rewrite st_modify_bind, !st_gets_bind. cbn [set_missing d_noise_buffer d_sv2_buffer].
  rewrite (len_holds _ _ _ Hs), (len_holds _ _ _ Hn), Hl.
  change ((6 + 16 =? ENCRYPTED_SV2_FRAME_HEADER_SIZE) && (zlen [] =? 0)) with true. cbv iota.
  rewrite st_gets_bind. cbn [set_missing d_noise_buffer d_sv2_buffer].
  destruct (owned_holds _ _ _ Hn) as (nb & -> & Hnb).
  rewrite !st_modify_bind. cbn [set_noise set_sv2 set_missing d_sv2_buffer d_noise_buffer].
  destruct (decrypt_sv2_spec (mkWithNoise 22 nb (push (d_sv2_buffer d) hct)) nc []
    (header_bytes h) hct) as (sb & E & Hsb); [by apply (push_holds _ [])|done|done|].
  erewrite st_bind_ok by exact E.
  rewrite st_gets_bind. cbn [set_sv2 d_sv2_buffer].
  rewrite (by_ref_holds _ _ _ _ Hsb), ztake_ge by (rewrite ?app_nil_l, ?zlen_header_bytes; done).
  rewrite <- (app_nil_r ([] ++ header_bytes h)), app_nil_l, header_from_bytes by done.
  cbn [map_err]. rewrite st_lift_bind, st_modify_bind.
  eexists. split; [reflexivity|]. split; [split|]; done.
Qed.

Lemma next_frame_payload d h payload cts nc :
  awaiting_payload d (header_bytes h) (concat cts) → header_wf h →
  msg_length h = zlen payload → Chunked (decryptor nc) payload cts →
  c_n (gc_cipher (decryptor nc)) + zlen cts < 2 ^ 64 →
  ∃ d', next_frame (d, Transport nc) =
      (Ok (FrameSv2 (mkSv2Frame h None (Some (header_bytes h ++ payload)))),
       (d', Transport (mkNoiseCodec (encryptor nc) (advance (zlen cts) (decryptor nc))))) ∧
    awaiting_header d' [] ∧ missing_noise_b d' = 22.
Proof.
  intros Ha Hw Hl Hc Hcnt.
  assert (Hel : HeaderOps.encrypted_len h = zlen (concat cts)).
  { rewrite (Chunked_len _ _ _ Hc (extension_type h) (msg_type h)), <- Hl. by destruct h. }
  unfold next_frame, transport_next_frame, upd.
  erewrite st_bind_ok by (apply missing_hint_payload; [exact Ha|done|lia]).
  destruct Ha as [Hn Hs]. rewrite Hel, Z.sub_diag. change (0 =? 0) with true. cbv iota.
  unfold decode_noise_frame, get_d, upd.
  rewrite st_modify_bind, !st_gets_bind. cbn [set_missing d_noise_buffer d_sv2_buffer].
  rewrite (len_holds _ _ _ Hs), (len_holds _ _ _ Hn), zlen_header_bytes.
  change (SV2_FRAME_HEADER_SIZE =? 0) with false. rewrite andb_false_r. cbv iota.
  rewrite st_gets_bind. cbn [set_missing d_noise_buffer d_sv2_buffer].
  destruct (owned_holds _ _ _ Hn) as (nb & -> & Hnb).
  rewrite st_modify_bind. cbn [set_noise set_missing d_sv2_buffer d_noise_buffer].
  replace (if _ <? _ then _ else _)
    with (Z.min (zlen (@nil Byte.byte) + 65535) (zlen (concat cts))).
  2: { unfold SV2_FRAME_CHUNK_SIZE. change (zlen []) with 0. split_if; bool_props; lia. }
  replace SV2_FRAME_HEADER_SIZE with (zlen (header_bytes h)) by apply zlen_header_bytes.
  destruct (chunk_fuel_enough (zlen (concat cts)) (zlen (concat cts)) 65535) as [F1 F2];
    [lia|apply zlen_nonneg|lia|].
  destruct (decrypt_chunks_spec _ _ _ Hc (chunk_fuel (zlen (concat cts)) 65535) []
    (mkWithNoise 22 nb (d_sv2_buffer d)) nc (header_bytes h) 0 eq_refl Hcnt F1 F2 Hs)
    as (sb & s' & E & Hsb).
  cbn [app] in E. erewrite st_bind_ok by exact E.
  rewrite st_modify_bind, st_gets_bind. cbn [set_sv2 d_sv2_buffer].
  destruct (owned_holds (danger_set_start sb 0) (header_bytes h ++ payload) 0) as (sb' & -> & Hsb').
  { eapply set_start_holds, Hsb. }
  rewrite st_modify_bind. unfold FrameOps.from_bytes_unchecked.
  rewrite header_from_bytes, st_lift_bind by done.
  eexists. split; [reflexivity|]. split; [split|]; done.
Qed.
End TransportFacts.
