(* ===== verification/Network.v ===== *)
(** * Noise connections over TCP: [network_helpers], [noise_stream.rs]

    A TCP read half is the list of segments still to be delivered; one [read]
    returns at most one segment, cut to the room in the destination, and zero
    bytes when the peer has closed.  Everything the writer sends is the list of
    bytes it returns. *)

From S2P Require Import Prelude Datatypes Codec Framing Buffer Noise Transport.

(** [network_helpers::Error]. *)
Inductive NetError : Type :=
  | HandshakeRemoteInvalidMessage
  | NCodecError (e : CodecError)
  | RecvError
  | SendError
  | SocketClosed.

Section Network.
Context `{Crypto} {B : Type} `{Buffer B}.

Notation WithNoise := (WithNoise (B := B)).
Notation NoiseEncoder := (NoiseEncoder (B := B)).

(** [NoiseTcpReadHalf] and [NoiseTcpWriteHalf]. *)
Record NoiseTcpReadHalf : Type := mkReadHalf {
  reader : list bytes;
  decoder : WithNoise;
  r_state : State;
  current_frame_buf : bytes;
  bytes_read : Z;
}.
Record NoiseTcpWriteHalf : Type := mkWriteHalf {
  encoder : NoiseEncoder;
  w_state : State;
}.

(** The inner loop of [read_frame]: [while self.bytes_read < expected].  A
    segment larger than the room fills the buffer, which ends the loop. *)
Fixpoint fill_loop (segs : list bytes) (buf : bytes) (bytes_read expected : Z)
    : result NetError unit * (list bytes * bytes * Z) :=
  if bytes_read <? expected then
    match segs with
    | [] => (Err SocketClosed, (segs, buf, bytes_read))
    | seg :: rest =>
        let room := zlen buf - bytes_read in
        let n := Z.min room (zlen seg) in
        if n =? 0 then (Err SocketClosed, (segs, buf, bytes_read))
        else
          let buf := overwrite buf bytes_read (ztake n seg) in
          if zlen seg <=? room then fill_loop rest buf (bytes_read + n) expected
          else (Ok tt, (zdrop n seg :: rest, buf, bytes_read + n))
    end
  else (Ok tt, (segs, buf, bytes_read)).

(** One turn of the outer loop of [read_frame]; [None] stands for [continue]. *)
Definition read_turn : ST NoiseTcpReadHalf NetError (option Frame) := λ h,
  let expected := writable_len (decoder h) in
  let '(buf, got) :=
    if zlen (current_frame_buf h) =? expected then (current_frame_buf h, bytes_read h)
    else (ztake expected (current_frame_buf h)
            ++ zeros (Z.to_nat (expected - zlen (current_frame_buf h))), 0) in
  match fill_loop (reader h) buf got expected with
  | (Ok _, (segs, buf, got)) =>
      match fill_writable (E := NetError) buf (decoder h) with
      | Ok d =>
          match next_frame (d, r_state h) with
          | (Ok f, (d, st)) => (Ok (Some f), mkReadHalf segs d st buf 0)
          | (Err (MissingBytes _), (d, st)) => (Ok None, mkReadHalf segs d st buf 0)
          | (Err e, (d, st)) => (Err (NCodecError e), mkReadHalf segs d st buf 0)
          | (Panic, (d, st)) => (Panic, mkReadHalf segs d st buf 0)
          end
      | _ => (Panic, mkReadHalf segs (decoder h) (r_state h) buf got)
      end
  | (Err e, (segs, buf, got)) => (Err e, mkReadHalf segs (decoder h) (r_state h) buf got)
  | (Panic, (segs, buf, got)) => (Panic, mkReadHalf segs (decoder h) (r_state h) buf got)
  end.

(** [NoiseTcpReadHalf::read_frame]. *)
Fixpoint read_frame (fuel : nat) : ST NoiseTcpReadHalf NetError Frame :=
  match fuel with
  | O => panic
  | S fuel =>
      f ← read_turn;
      match f with
      | Some f => mret f
      | None => read_frame fuel
      end
  end.

(** [NoiseTcpReadHalf::try_read_frame]: one non-blocking read; [None] in the
    list of segments is a read that would block. *)
Definition try_read_frame (available : option bytes) (h : NoiseTcpReadHalf)
    : result NetError (option Frame) * NoiseTcpReadHalf * bytes :=
  let expected := writable_len (decoder h) in
  let '(buf, got) :=
    if zlen (current_frame_buf h) =? expected then (current_frame_buf h, bytes_read h)
    else (ztake expected (current_frame_buf h)
            ++ zeros (Z.to_nat (expected - zlen (current_frame_buf h))), 0) in
  match available with
  | None => (Ok None, mkReadHalf (reader h) (decoder h) (r_state h) buf got, [])
  | Some seg =>
      let n := Z.min (zlen buf - got) (zlen seg) in
      if n =? 0
      then (Err SocketClosed, mkReadHalf (reader h) (decoder h) (r_state h) buf got, seg)
      else
        let buf := overwrite buf got (ztake n seg) in
        let rest := zdrop n seg in
        if got + n <? expected
        then (Ok None, mkReadHalf (reader h) (decoder h) (r_state h) buf (got + n), rest)
        else
          match fill_writable (E := NetError) buf (decoder h) with
          | Ok d =>
              match next_frame (d, r_state h) with
              | (Ok f, (d, st)) => (Ok (Some f), mkReadHalf (reader h) d st buf 0, rest)
              | (Err (MissingBytes _), (d, st)) => (Ok None, mkReadHalf (reader h) d st buf 0, rest)
              | (Err e, (d, st)) => (Err (NCodecError e), mkReadHalf (reader h) d st buf 0, rest)
              | (Panic, (d, st)) => (Panic, mkReadHalf (reader h) d st buf 0, rest)
              end
          | _ => (Panic, mkReadHalf (reader h) (decoder h) (r_state h) buf (got + n), rest)
          end
  end.

(** [NoiseTcpWriteHalf::write_frame]: the bytes handed to the socket. *)
Definition write_frame (overflow_checks : bool) (frame : Frame)
    : ST NoiseTcpWriteHalf NetError bytes := λ h,
  match encode overflow_checks frame (encoder h, w_state h) with
  | (Ok buf, (e, st)) => (Ok buf, mkWriteHalf e st)
  | (Err e, (enc, st)) => (Err (NCodecError e), mkWriteHalf enc st)
  | (Panic, (e, st)) => (Panic, mkWriteHalf e st)
  end.

(** ** Connection set-up: [NoiseTcpStream::new] *)

(** [AsyncReadExt::read_exact] on the segments. *)
Fixpoint read_exact_segs (segs : list bytes) (n : Z) : result NetError (bytes * list bytes) :=
  if n <=? 0 then Ok ([], segs)
  else
    match segs with
    | [] => Err SocketClosed
    | seg :: rest =>
        if zlen seg <=? n then
          '(b, segs) ← read_exact_segs rest (n - zlen seg); Ok (seg ++ b, segs)
        else Ok (ztake n seg, zdrop n seg :: rest)
    end.

(** [receive_message]. *)
Definition receive_message : ST (list bytes * (WithNoise * State)) NetError Frame :=
  λ '(segs, (d, st)),
    match read_exact_segs segs (writable_len d) with
    | Ok (buffer, segs) =>
        match fill_writable (E := NetError) buffer d with
        | Ok d => let '(r, ds) := next_frame (d, st) in (map_err NCodecError r, (segs, ds))
        | _ => (Panic, (segs, (d, st)))
        end
    | Err e => (Err e, (segs, (d, st)))
    | Panic => (Panic, (segs, (d, st)))
    end.

(** The receive loop of [new]: repeats while bytes are missing. *)
Fixpoint receive_loop (fuel : nat) : ST (list bytes * (WithNoise * State)) NetError Frame :=
  match fuel with
  | O => panic
  | S fuel => λ s,
      match receive_message s with
      | (Err (NCodecError (MissingBytes _)), s) => receive_loop fuel s
      | r => r
      end
  end.

(** A handshake frame of the expected size. *)
Definition handshake_payload (f : Frame) (size : Z) : result NetError bytes :=
  match FrameOps.try_into_handshake f with
  | Ok h => if zlen (hs_payload h) =? size then Ok (hs_payload h)
            else Err HandshakeRemoteInvalidMessage
  | _ => Err HandshakeRemoteInvalidMessage
  end.

(** The initiator up to its first [await] on the peer: what it sends. *)
Definition initiator_open (overflow_checks : bool) (i : Initiator)
    : ST (NoiseEncoder * State) NetError bytes :=
  _ ← modify (λ '(e, _), (e, initialized (RInitiator i)));
  msg ← st_map_err NCodecError (zoom snd (λ st es, (fst es, st)) step_0);
  st_map_err NCodecError (encode overflow_checks (FrameHandShake msg)).

(** The initiator from there on. *)
Definition initiator_finish (fuel : nat) (now : Z) (segs : list bytes) (d : WithNoise)
    (i : Initiator) (st : State) : result NetError (list bytes * WithNoise * State) :=
  match receive_loop fuel (segs, (d, not_initialized (RInitiator i))) with
  | (Ok second_msg, (segs, (d, _))) =>
      payload ← handshake_payload second_msg INITIATOR_EXPECTED_HANDSHAKE_MESSAGE_SIZE;
      st ← map_err NCodecError (step_2 payload now st).1;
      Ok (segs, d, st)
  | (Err e, _) => Err e
  | (Panic, _) => Panic
  end.

(** The responder's side. *)
Definition responder_accept (overflow_checks : bool) (fuel : nat) (now : Z) (rng : Rng)
    (segs : list bytes) (d : WithNoise) (e : NoiseEncoder) (r : Responder)
    : result NetError (bytes * list bytes * WithNoise * NoiseEncoder * State) :=
  match receive_loop fuel (segs, (d, not_initialized (RResponder r))) with
  | (Ok first_msg, (segs, (d, _))) =>
      payload ← handshake_payload first_msg ELLSWIFT_ENCODING_SIZE;
      let '(o, st) := step_1 payload now rng (initialized (RResponder r)) in
      '(second_msg, transport_state) ← map_err NCodecError o;
      match encode overflow_checks (FrameHandShake second_msg) (e, st) with
      | (Ok out, (e, _)) => Ok (out, segs, d, e, transport_state)
      | (Err err, _) => Err (NCodecError err)
      | (Panic, _) => Panic
      end
  | (Err e, _) => Err e
  | (Panic, _) => Panic
  end.

End Network.
