(* ===== verification/NetworkFacts.v ===== *)
(** * Facts about Noise connections: segments, frames and the handshake *)

From S2P Require Import Prelude Datatypes Codec CodecFacts CodecTheorems Framing Buffer Noise NoiseProperties Transport TransportFacts Network.

(** Segments delivered by the network: none is empty, so a read never looks
    like a close. *)
Definition segments (segs : list bytes) (stream : bytes) : Prop :=
  Forall (λ s, 0 < zlen s) segs ∧ concat segs = stream.

Lemma segments_nil segs : segments segs [] → segs = [].
Proof.
  intros [Hf Hc]. destruct segs as [|s segs]; [done|]. inversion Hf; subst.
  cbn in Hc. apply app_eq_nil in Hc as [-> _]. done.
Qed.

Lemma segments_cons s segs stream :
  segments (s :: segs) stream → ∃ tl, stream = s ++ tl ∧ 0 < zlen s ∧ segments segs tl.
Proof. intros [Hf Hc]. inversion Hf; subst. eexists; split; [done|]. split; [done|]. done. Qed.

(** Splitting two decompositions of the same list at the shorter prefix. *)
Lemma app_split_le {A} (a b c d : list A) :
  a ++ b = c ++ d → zlen a ≤ zlen c → ∃ m, c = a ++ m ∧ b = m ++ d.
Proof.
  intros He Hl. exists (zdrop (zlen a) c).
  assert (Ha : ztake (zlen a) c = a).
  { rewrite <- (ztake_app_le c d) by done. rewrite <- He. by apply ztake_app. }
  split; [by rewrite <- Ha at 1; rewrite ztake_zdrop|].
  rewrite <- (zdrop_app_le c d) by done. rewrite <- He. by rewrite zdrop_app.
Qed.

Lemma fill_loop_spec segs stream :
  segments segs stream →
  ∀ buf got expected data rest, zlen buf = expected → 0 ≤ got →
    stream = data ++ rest → got + zlen data = expected →
    ∃ segs', fill_loop segs buf got expected =
        (Ok tt, (segs', ztake got buf ++ data, expected)) ∧ segments segs' rest.
Proof.
  revert stream. induction segs as [|seg segs IH]; intros stream Hseg buf got expected data rest
    Hb Hg -> Hd; pose proof (zlen_nonneg data); cbn [fill_loop].
  - destruct Hseg as [Hf Hc]. cbn in Hc. symmetry in Hc. apply app_eq_nil in Hc as [-> ->].
    change (zlen []) with 0 in *. rewrite (proj2 (Z.ltb_ge _ _)) by lia.
    exists []. rewrite app_nil_r, ztake_ge by lia. replace got with expected by lia. done.
  - destruct (got <? expected) eqn:E; bool_props.
    2: { assert (data = []) as -> by (destruct data; [done|rewrite zlen_cons in *; pose proof (zlen_nonneg data); lia]).
         exists (seg :: segs). rewrite app_nil_r, ztake_ge by (change (zlen []) with 0 in *; lia).
         change (zlen []) with 0 in *. by replace got with expected by lia. }
    apply segments_cons in Hseg as (tl & Htl & Hs & Hseg).
    rewrite (proj2 (Z.eqb_neq _ _)) by lia. destruct (zlen seg <=? zlen buf - got) eqn:E2; bool_props.
    + rewrite Z.min_r, (ztake_ge (zlen seg)) by lia.
      symmetry in Htl. apply app_split_le in Htl as (m & -> & ->); [|lia].
      rewrite zlen_app in Hd.
      destruct (IH _ Hseg (overwrite buf got seg) (got + zlen seg) expected m rest)
        as (segs' & E3 & Hseg'); [rewrite overwrite_length; lia|lia|done|lia|].
      exists segs'. rewrite E3. split; [|done]. f_equal. f_equal. f_equal.
      unfold overwrite. rewrite app_assoc, app_assoc. f_equal. apply ztake_app.
      rewrite zlen_app, zlen_take; lia.
    + rewrite Z.min_l by lia.
      apply app_split_le in Htl as (m & -> & ->); [|lia].
      rewrite zlen_app in *. replace (zlen buf - got) with (zlen data) by lia.
      rewrite ztake_app, zdrop_app by done. exists (m :: segs).
      replace (got + zlen data) with expected by lia. split.
      * do 3 f_equal. unfold overwrite. rewrite zdrop_ge by lia. by rewrite app_nil_r.
      * destruct Hseg as [Hf <-]. split; [constructor; [lia|done]|done].
Qed.

Lemma read_exact_segs_spec segs stream :
  segments segs stream → ∀ data rest, stream = data ++ rest →
  ∃ segs', read_exact_segs segs (zlen data) = Ok (data, segs') ∧ segments segs' rest.
Proof.
  revert stream. induction segs as [|seg segs IH]; intros stream Hseg data rest ->;
    pose proof (zlen_nonneg data); cbn [read_exact_segs].
  - destruct Hseg as [Hf Hc]. cbn in Hc. symmetry in Hc. apply app_eq_nil in Hc as [-> ->].
    by exists [].
  - destruct (zlen data <=? 0) eqn:E; bool_props.
    { assert (data = []) as -> by (destruct data; [done|rewrite zlen_cons in *; pose proof (zlen_nonneg data); lia]).
      by exists (seg :: segs). }
    apply segments_cons in Hseg as (tl & Htl & Hs & Hseg).
    destruct (zlen seg <=? zlen data) eqn:E2; bool_props.
    + symmetry in Htl. apply app_split_le in Htl as (m & -> & ->); [|lia].
      destruct (IH _ Hseg m rest eq_refl) as (segs' & E3 & Hseg').
      exists segs'. rewrite zlen_app. replace (zlen seg + zlen m - zlen seg) with (zlen m) by lia.
      by rewrite E3.
    + apply app_split_le in Htl as (m & -> & ->); [|lia].
      rewrite zlen_app in *. rewrite ztake_app, zdrop_app by done. exists (m :: segs).
      split; [done|]. destruct Hseg as [Hf <-]. split; [constructor; [lia|done]|done].
Qed.

Section NetworkFacts.
Context `{CL : CryptoLaws} {B : Type} `{BS : BufferSpec B}.

(** One turn of the read loop delivers exactly the missing bytes to the
    decoder, whatever the segmentation. *)
Lemma read_turn_spec h data rest :
  segments (reader h) (data ++ rest) → bytes_read h = 0 →
  zlen data = missing_noise_b (decoder h) →
  ∃ segs', segments segs' rest ∧
    read_turn h =
      match next_frame (set_noise (push (d_noise_buffer (decoder h)) data) (decoder h), r_state h) with
      | (Ok f, (d, st)) => (Ok (Some f), mkReadHalf segs' d st data 0)
      | (Err (MissingBytes _), (d, st)) => (Ok None, mkReadHalf segs' d st data 0)
      | (Err e, (d, st)) => (Err (NCodecError e), mkReadHalf segs' d st data 0)
      | (Panic, (d, st)) => (Panic, mkReadHalf segs' d st data 0)
      end.
Proof.
  intros Hseg Hbr Hm. unfold read_turn, writable_len. rewrite <- Hm.
  pose proof (zlen_nonneg data).
  set (bg := if zlen (current_frame_buf h) =? zlen data then _ else _).
  assert (∃ buf, bg = (buf, 0) ∧ zlen buf = zlen data) as (buf & -> & Hbuf).
  { subst bg. pose proof (zlen_nonneg (current_frame_buf h)). split_if; bool_props.
    - rewrite Hbr. by eexists.
    - eexists; split; [done|]. unfold zeros. rewrite zlen_app, zlen_replicate.
      destruct (decide (zlen data ≤ zlen (current_frame_buf h))).
      + rewrite zlen_take by lia. lia.
      + rewrite ztake_ge by lia. lia. }
  destruct (fill_loop_spec _ _ Hseg buf 0 (zlen data) data rest Hbuf) as (segs' & -> & Hs');
    [lia|done|lia|].
  exists segs'. split; [done|]. cbn [app]. rewrite ztake_0, app_nil_l.
  unfold fill_writable. rewrite <- Hm, Z.eqb_refl. reflexivity.
Qed.

(** A read half between two frames: the header of the next one may have
    arrived in part. *)
Definition rd_idle (h : NoiseTcpReadHalf) (nc : NoiseCodec) : Prop :=
  bytes_read h = 0 ∧ r_state h = Transport nc ∧ awaiting_header (decoder h) [] ∧
  0 ≤ missing_noise_b (decoder h) ≤ 22.

Lemma awaiting_push d x hd y :
  (awaiting_header d x → awaiting_header (set_noise (push (d_noise_buffer d) y) d) (x ++ y)) ∧
  (awaiting_payload d hd x →
     awaiting_payload (set_noise (push (d_noise_buffer d) y) d) hd (x ++ y)).
Proof. split; intros [Hn Hs]; split; try done; by apply push_holds. Qed.

(** From a decrypted header to the frame. *)
Lemma read_payload fuel h hdr payload cts rest nc :
  segments (reader h) (concat cts ++ rest) → bytes_read h = 0 → r_state h = Transport nc →
  awaiting_payload (decoder h) (header_bytes hdr) [] →
  missing_noise_b (decoder h) = HeaderOps.encrypted_len hdr →
  header_wf hdr → msg_length hdr = zlen payload → Chunked (decryptor nc) payload cts →
  c_n (gc_cipher (decryptor nc)) + zlen cts < 2 ^ 64 →
  ∃ h', read_frame (S fuel) h =
      (Ok (FrameSv2 (mkSv2Frame hdr None (Some (header_bytes hdr ++ payload)))), h') ∧
    rd_idle h' (mkNoiseCodec (encryptor nc) (advance (zlen cts) (decryptor nc))) ∧
    segments (reader h') rest.
Proof.
  intros Hseg Hbr Hst Ha Hm Hw Hl Hc Hn.
  assert (Hel : HeaderOps.encrypted_len hdr = zlen (concat cts)).
  { rewrite (Chunked_len _ _ _ Hc (extension_type hdr) (msg_type hdr)), <- Hl. by destruct hdr. }
  destruct (read_turn_spec h (concat cts) rest Hseg Hbr) as (segs' & Hs' & E); [lia|].
  apply (awaiting_push _ _ _ (concat cts)) in Ha. cbn [app] in Ha.
  destruct (next_frame_payload _ hdr payload cts nc Ha Hw Hl Hc Hn) as (d' & En & Ha' & Hm').
  rewrite Hst, En in E. cbn [read_frame]. erewrite st_bind_ok by exact E.
  eexists; split; [reflexivity|]. split; [|done]. split_and!; cbn; [done|done|done|lia|lia].
Qed.

(** From any partial header to the frame. *)
Lemma read_header fuel h hdr payload x y hct cts rest nc :
  hct = x ++ y → 0 < zlen y →
  segments (reader h) (y ++ concat cts ++ rest) → bytes_read h = 0 → r_state h = Transport nc →
  awaiting_header (decoder h) x → missing_noise_b (decoder h) = zlen y →
  seals (decryptor nc) (header_bytes hdr) hct →
  header_wf hdr → msg_length hdr = zlen payload →
  Chunked (advance 1 (decryptor nc)) payload cts →
  c_n (gc_cipher (decryptor nc)) + 1 + zlen cts < 2 ^ 64 →
  ∃ h', read_frame (S (S fuel)) h =
      (Ok (FrameSv2 (mkSv2Frame hdr None (Some (header_bytes hdr ++ payload)))), h') ∧
    rd_idle h' (mkNoiseCodec (encryptor nc) (advance (1 + zlen cts) (decryptor nc))) ∧
    segments (reader h') rest.
Proof.
  intros -> Hy Hseg Hbr Hst Ha Hm Hs Hw Hl Hc Hn. pose proof (zlen_nonneg cts).
  destruct (read_turn_spec h y (concat cts ++ rest) Hseg Hbr) as (segs' & Hs' & E); [lia|].
  apply (awaiting_push _ _ (header_bytes hdr) y) in Ha.
  destruct (next_frame_header _ hdr (x ++ y) nc Ha Hw Hs) as (d' & En & Ha' & Hm'); [lia|].
  rewrite Hst, En in E. cbn [read_frame]. erewrite st_bind_ok by exact E.
  destruct (read_payload fuel (mkReadHalf segs' d' (Transport (mkNoiseCodec (encryptor nc)
    (advance 1 (decryptor nc)))) y 0) hdr payload cts rest
    (mkNoiseCodec (encryptor nc) (advance 1 (decryptor nc)))) as (h' & Eh & Hh & Hr);
    [done|done|done|done|done|done|done|done|autorewrite with sv2; cbn [decryptor]; autorewrite with sv2; lia|].
  cbn [encryptor decryptor] in Hh. rewrite advance_advance in Hh.
  exists h'. split; [exact Eh|done].
Qed.

(** Reading one frame off the stream. *)
Lemma read_frame_spec fuel h hdr payload wire turns rest nc :
  rd_idle h nc → segments (reader h) (wire ++ rest) →
  frame_wire (decryptor nc) (header_bytes hdr) payload wire turns →
  header_wf hdr → msg_length hdr = zlen payload →
  c_n (gc_cipher (decryptor nc)) + turns < 2 ^ 64 →
  ∃ h', read_frame (S (S (S fuel))) h =
      (Ok (FrameSv2 (mkSv2Frame hdr None (Some (header_bytes hdr ++ payload)))), h') ∧
    rd_idle h' (mkNoiseCodec (encryptor nc) (advance turns (decryptor nc))) ∧
    segments (reader h') rest.
Proof.
  intros (Hbr & Hst & Ha & Hm) Hseg (hct & cts & -> & -> & Hs & Hc) Hw Hl Hn.
  pose proof (seals_len _ _ _ Hs) as Hlen. rewrite zlen_header_bytes in Hlen.
  unfold SV2_FRAME_HEADER_SIZE in Hlen. rewrite <- app_assoc in Hseg.
  destruct (decide (missing_noise_b (decoder h) = 22)) as [E22|N22].
  - apply (read_header (S fuel) h hdr payload [] hct hct cts rest nc); try done; lia.
  - set (m := missing_noise_b (decoder h)) in *.
    destruct (split_by_length hct m (22 - m)) as (x & y & -> & Hx & Hy); [lia|lia|lia|].
    rewrite <- app_assoc in Hseg.
    destruct (read_turn_spec h x (y ++ concat cts ++ rest) Hseg Hbr) as (segs' & Hs' & E); [done|].
    apply (awaiting_push _ _ (header_bytes hdr) x) in Ha. cbn [app] in Ha.
    pose proof (next_frame_header_short _ x nc Ha ltac:(lia)) as En.
    rewrite Hst, En in E. cbn [read_frame]. erewrite st_bind_ok by exact E.
    apply (read_header fuel (mkReadHalf segs' (set_missing (22 - zlen x)
      (set_noise (push (d_noise_buffer (decoder h)) x) (decoder h))) (Transport nc) x 0)
      hdr payload x y (x ++ y) cts rest nc); try done; try (cbn; lia).
Qed.

(** ** Handshake messages *)

Lemma next_frame_handshake d x n :
  awaiting_header d x → zlen x ≤ n →
  (zlen x < n → next_frame (d, NotInitialized n) =
     (Err (MissingBytes (n - zlen x)), (set_missing (n - zlen x) d, NotInitialized n))) ∧
  (zlen x = n → ∃ d', next_frame (d, NotInitialized n) =
     (Ok (FrameHandShake (mkHandShakeFrame x)), (d', NotInitialized n)) ∧
     awaiting_header d' [] ∧ missing_noise_b d' = 2).
Proof.
  intros [Hn Hs] Hx. unfold next_frame, sub_chk.
  rewrite (as_ref_holds (d_noise_buffer d) [] x Hn).
  rewrite (proj2 (Z.leb_le _ _)) by done. split; intros Hl.
  - by rewrite (proj2 (Z.eqb_neq _ _)) by lia.
  - rewrite (proj2 (Z.eqb_eq _ _)) by lia. unfold while_handshaking.
    cbn [set_missing d_noise_buffer]. destruct (owned_holds _ _ _ Hn) as (nb & -> & Hnb).
    eexists; split; [reflexivity|]. split; [split; done|done].
Qed.

Lemma receive_message_spec segs d st data rest :
  segments segs (data ++ rest) → zlen data = missing_noise_b d →
  ∃ segs', segments segs' rest ∧
    receive_message (segs, (d, st)) =
      let '(r, ds) := next_frame (set_noise (push (d_noise_buffer d) data) d, st) in
      (map_err NCodecError r, (segs', ds)).
Proof.
  intros Hseg Hm. unfold receive_message, writable_len. rewrite <- Hm.
  destruct (read_exact_segs_spec _ _ Hseg data rest eq_refl) as (segs' & -> & Hs').
  exists segs'. split; [done|]. unfold fill_writable. by rewrite Hm, Z.eqb_refl.
Qed.

(** A new decoder collects a handshake message of the expected length. *)
Lemma receive_handshake fuel segs d msg rest :
  awaiting_header d [] → missing_noise_b d = 0 → 0 < zlen msg →
  segments segs (msg ++ rest) →
  ∃ segs' d', receive_loop (S (S fuel)) (segs, (d, NotInitialized (zlen msg))) =
      (Ok (FrameHandShake (mkHandShakeFrame msg)), (segs', (d', NotInitialized (zlen msg)))) ∧
    segments segs' rest ∧ awaiting_header d' [] ∧ missing_noise_b d' = 2.
Proof.
  intros Ha Hm Hpos Hseg.
  destruct (receive_message_spec segs d (NotInitialized (zlen msg)) [] (msg ++ rest))
    as (segs1 & Hs1 & E1); [done|done|].
  apply (awaiting_push _ _ [] []) in Ha. cbn [app] in Ha.
  set (d0 := set_noise (push (d_noise_buffer d) []) d) in *.
  destruct (next_frame_handshake d0 [] (zlen msg) Ha) as [En _]; [by apply zlen_nonneg|].
  rewrite En in E1 by done. change (zlen []) with 0 in *. rewrite Z.sub_0_r in E1.
  cbn [receive_loop]. rewrite E1. cbn [map_err].
  destruct (receive_message_spec segs1 (set_missing (zlen msg) d0) (NotInitialized (zlen msg)) msg rest)
    as (segs2 & Hs2 & E2); [done|done|].
  assert (Ha2 : awaiting_header (set_missing (zlen msg) d0) []) by exact Ha.
  apply (awaiting_push _ _ [] msg) in Ha2. cbn [app] in Ha2.
  destruct (next_frame_handshake _ msg (zlen msg) Ha2) as [_ En2]; [lia|].
  destruct (En2 eq_refl) as (d' & En3 & Ha' & Hm'). rewrite En3 in E2.
  rewrite E2. cbn [map_err]. by exists segs2, d'.
Qed.

(** Encoding a handshake frame sends its payload as it is. *)
Lemma encode_handshake chk msg e role :
  enc_idle e →
  ∃ e', encode chk (FrameHandShake (mkHandShakeFrame msg)) (e, HandShake role) =
      (Ok msg, (e', HandShake role)) ∧ enc_idle e'.
Proof.
  intros [Hn Hs]. unfold encode.
  erewrite st_bind_ok by reflexivity.
  apply (push_holds _ [] _ msg) in Hn. cbn [app] in Hn.
  rewrite st_gets_bind, st_modify_bind, st_gets_bind, st_modify_bind.
  cbn [set_e_sv2 set_e_noise e_noise_buffer e_sv2_buffer hs_payload].
  destruct (owned_holds _ _ _ Hn) as (nb & -> & Hnb).
  destruct (owned_holds _ _ _ Hs) as (sb & -> & Hsb).
  eexists; split; [reflexivity|]. done.
Qed.
End NetworkFacts.
