(* ===== verification/NetworkProperties.v ===== *)
(** * Properties of encrypted connections *)

From S2P Require Import Prelude Datatypes Codec CodecFacts CodecTheorems CodecProperties Framing Buffer Noise NoiseProperties Transport TransportFacts Network NetworkFacts.

(** A message to send, with its Rust type and frame attributes. *)
Record Outgoing : Type := mkOutgoing {
  o_type : sv2_type;
  o_message : sv2_value;
  o_msg_type : Z;
  o_ext : Z;
  o_channel : bool;
}.

Definition outgoing_ok (chk : bool) (o : Outgoing) : Prop :=
  wf_type (o_type o) = true ∧ typed (o_type o) (o_message o) ∧
  capacity_ok chk (o_message o) = true ∧ fits 24 (get_size (o_message o)) ∧
  fits 8 (o_msg_type o) ∧ fits 16 (o_ext o).

Definition outgoing_frame (o : Outgoing) : option Sv2Frame :=
  FrameOps.from_message (o_message o) (o_msg_type o) (o_ext o) (o_channel o).

(** A received frame carries the message, its type and its channel bit. *)
Definition delivered (o : Outgoing) (f : Frame) : Prop :=
  ∃ fr p v, f = FrameSv2 fr ∧ FrameOps.payload_bytes fr = Ok p ∧
    from_bytes (o_type o) p = Ok v ∧ v ≡ o_message o ∧
    msg_type (header fr) = o_msg_type o ∧
    HeaderOps.channel_msg (header fr) = o_channel o.

Section Runs.
Context `{Crypto} {B : Type} `{Buffer B}.

(** Writing frames one after the other; reading a number of frames. *)
Fixpoint write_frames (chk : bool) (fs : list Sv2Frame)
    : ST (NoiseTcpWriteHalf (B := B)) NetError (list bytes) :=
  match fs with
  | [] => mret []
  | f :: fs =>
      w ← write_frame chk (FrameSv2 f);
      ws ← write_frames chk fs;
      mret (w :: ws)
  end.
Fixpoint read_frames (fuel n : nat) : ST (NoiseTcpReadHalf (B := B)) NetError (list Frame) :=
  match n with
  | O => mret []
  | S n => f ← read_frame fuel; fs ← read_frames fuel n; mret (f :: fs)
  end.
End Runs.

Section Lemmas.
Context `{CL : CryptoLaws} {B : Type} `{BS : BufferSpec B}.

Definition wr_idle (h : NoiseTcpWriteHalf (B := B)) (nc : NoiseCodec) : Prop :=
  enc_idle (encoder h) ∧ w_state h = Transport nc.

Lemma outgoing_frame_spec chk o :
  outgoing_ok chk o →
  ∃ hdr f, outgoing_frame o = Some f ∧ header_wf hdr ∧
    msg_length hdr = zlen (val_bytes (o_message o)) ∧
    serializes chk f (header_bytes hdr ++ val_bytes (o_message o)) ∧
    delivered o (FrameSv2 (mkSv2Frame hdr None (Some (header_bytes hdr ++ val_bytes (o_message o))))).
Proof.
  intros (Hwf & Ht & Hc & Hs & H8 & H16).
  destruct (from_message_spec _ _ _ (o_channel o) Hs H8 H16) as (hdr & Hf & Hw & Eh).
  exists hdr. eexists. split; [exact Hf|].
  pose proof (get_size_spec (o_message o)) as Hg. split_and!; [done|by subst hdr| |].
  - split.
    + unfold FrameOps.encoded_length; cbn. f_equal. len_solve.
    + intros dst Hd. eapply serialize_spec; [done|done|done|]. len_solve.
  - eexists _, (val_bytes (o_message o)), (val_ref (o_message o)). split_and!; [done| | | | |].
    + unfold FrameOps.payload_bytes; cbn [serialized].
      rewrite slice_from_ok by (pose proof (zlen_nonneg (val_bytes (o_message o)));
        autorewrite with sv2_len; unfold SV2_FRAME_HEADER_SIZE; lia).
      by rewrite zdrop_app by (by rewrite zlen_header_bytes).
    + rewrite <- (app_nil_r (val_bytes _)). by apply from_bytes_spec.
    + apply val_ref_equiv.
    + by subst hdr.
    + subst hdr. by apply channel_msg_update.
Qed.

(** One message, from the writer to any segmentation at the reader. *)
Lemma write_then_read chk o w nc :
  outgoing_ok chk o → wr_idle w nc → keyed (gc_cipher (encryptor nc)) 512 →
  ∃ f wire turns w', outgoing_frame o = Some f ∧ 0 ≤ turns ≤ 258 ∧
    write_frame chk (FrameSv2 f) w = (Ok wire, w') ∧
    wr_idle w' (mkNoiseCodec (advance turns (encryptor nc)) (decryptor nc)) ∧
    ∀ h nr rest fuel, rd_idle h nr → decryptor nr = encryptor nc →
      segments (reader h) (wire ++ rest) →
      ∃ got h', read_frame (S (S (S fuel))) h = (Ok got, h') ∧ delivered o got ∧
        rd_idle h' (mkNoiseCodec (encryptor nr) (advance turns (decryptor nr))) ∧
        segments (reader h') rest.
Proof.
  intros Ho [He Hst] Hk.
  destruct (outgoing_frame_spec chk o Ho) as (hdr & f & Hf & Hw & Hl & Hser & Hdel).
  destruct Hw as (Hw1 & Hw2 & Hw3).
  destruct (frame_wire_exists (encryptor nc) (header_bytes hdr) (val_bytes (o_message o)))
    as (wire & turns & Hwire & Hturns); [apply zlen_header_bytes|rewrite <- Hl; apply Hw3|done|].
  assert (Hcnt : c_n (gc_cipher (encryptor nc)) + turns < 2 ^ 64)
    by (destruct Hk as (_ & _ & ?); lia).
  destruct (noise_encode_spec chk f _ _ wire turns (encoder w) nc Hser (zlen_header_bytes _) He Hwire Hcnt)
    as (e' & E & He').
  exists f, wire, turns. eexists. split_and!; [done|lia|lia| | |].
  - unfold write_frame. rewrite Hst, E. reflexivity.
  - split; done.
  - intros h nr rest fuel Hh Hd Hseg. rewrite <- Hd in *.
    destruct (read_frame_spec fuel h hdr _ wire turns rest nr Hh Hseg Hwire) as (h' & Eh & Hh' & Hr);
      [done|done|done|].
    eexists _, h'. split; [exact Eh|]. done.
Qed.

(** Many messages. *)
Lemma deliver_all chk os w nc :
  Forall (outgoing_ok chk) os → wr_idle w nc →
  keyed (gc_cipher (encryptor nc)) (512 * zlen os) →
  ∃ fs wires w', mapM outgoing_frame os = Some fs ∧ write_frames chk fs w = (Ok wires, w') ∧
    ∀ h nr rest fuel, rd_idle h nr → decryptor nr = encryptor nc →
      segments (reader h) (concat wires ++ rest) →
      ∃ got h', read_frames (S (S (S fuel))) (length os) h = (Ok got, h') ∧
        Forall2 delivered os got ∧ segments (reader h') rest.
Proof.
  intros Hos. revert w nc. induction Hos as [|o os Ho _ IH]; intros w nc Hw Hk.
  - exists [], [], w. split_and!; [done|done|]. intros h nr rest fuel _ _ Hseg.
    exists [], h. split_and!; [done|constructor|done].
  - rewrite zlen_cons in Hk. pose proof (zlen_nonneg os).
    destruct (write_then_read chk o w nc Ho Hw) as (f & wire & turns & w1 & Ef & Ht & Ew & Hw1 & Hrd).
    { destruct Hk as (? & ? & ?). split_and!; [done|done|lia]. }
    destruct (IH w1 _ Hw1) as (fs & wires & w2 & Efs & Ews & Hrds).
    { cbn [encryptor]. apply keyed_advance; [lia|]. destruct Hk as (? & ? & ?).
      split_and!; [done|done|lia]. }
    exists (f :: fs), (wire :: wires), w2. split_and!.
    + cbn. by rewrite Ef, Efs.
    + cbn [write_frames]. erewrite st_bind_ok by exact Ew. erewrite st_bind_ok by exact Ews.
      reflexivity.
    + intros h nr rest fuel Hh Hd Hseg. cbn [concat] in Hseg. rewrite <- app_assoc in Hseg.
      destruct (Hrd h nr _ fuel Hh Hd Hseg) as (g & h1 & E1 & Hg & Hh1 & Hseg1).
      destruct (Hrds h1 _ rest fuel Hh1) as (gs & h2 & E2 & Hgs & Hseg2);
        [cbn; by rewrite Hd|done|].
      exists (g :: gs), h2. split_and!; [|by constructor|done].
      cbn [read_frames length]. erewrite st_bind_ok by exact E1. erewrite st_bind_ok by exact E2.
      reflexivity.
Qed.

(** The three parts of connection set-up. *)
Lemma initiator_open_spec chk e authority enc st0 :
  enc_idle enc →
  ∃ enc', initiator_open chk (fresh_initiator e authority) (enc, st0) =
      (Ok (ellswift_encode (public_key e)),
       (enc', HandShake (RInitiator (opened_initiator e authority)))) ∧ enc_idle enc'.
Proof.
  intros He.
  destruct (encode_handshake chk (ellswift_encode (public_key e)) enc
    (RInitiator (opened_initiator e authority)) He) as (enc' & Eo & He').
  exists enc'. split; [|done]. unfold initiator_open. rewrite st_modify_bind.
  erewrite st_map_err_bind by (eapply st_zoom_ok; cbn [snd]; unfold step_0, initialized;
    rewrite open_initiator; reflexivity).
  cbn [fst]. unfold st_map_err, FrameOps.handshake_message_to_frame. by rewrite Eo.
Qed.

Lemma responder_accept_spec chk segs dec enc r m0 m1 codec r1 now rng :
  awaiting_header dec [] → missing_noise_b dec = 0 → enc_idle enc →
  zlen m0 = ELLSWIFT_ENCODING_SIZE → segments segs m0 →
  Responder_step_1 m0 now rng r = (Ok (m1, codec), r1) →
  ∃ dec' enc', responder_accept chk 2 now rng segs dec enc r =
      Ok (m1, [], dec', enc', Transport codec) ∧
    awaiting_header dec' [] ∧ missing_noise_b dec' = 2 ∧ enc_idle enc'.
Proof.
  intros Hd Hm He Hl Hseg E1. rewrite <- (app_nil_r m0) in Hseg.
  destruct (receive_handshake 0 segs dec m0 [] Hd Hm) as (segs1 & dec' & Er & Hs1 & Hd' & Hm');
    [by rewrite Hl|exact Hseg|]. apply segments_nil in Hs1 as ->.
  destruct (encode_handshake chk m1 enc (RResponder r1) He) as (enc' & Eo & He').
  exists dec', enc'. split; [|done]. unfold responder_accept, not_initialized.
  rewrite Hl in Er. rewrite Er. cbn [handshake_payload FrameOps.try_into_handshake hs_payload].
  rewrite Hl, Z.eqb_refl. cbn [mbind result_bind]. unfold step_1, initialized. rewrite E1.
  cbn [map_err fmap result_fmap mbind result_bind fst snd].
  unfold FrameOps.handshake_message_to_frame. by rewrite Eo.
Qed.

Lemma initiator_finish_spec segs dec i i1 m1 codec i2 now :
  awaiting_header dec [] → missing_noise_b dec = 0 →
  zlen m1 = INITIATOR_EXPECTED_HANDSHAKE_MESSAGE_SIZE → segments segs m1 →
  Initiator_step_2 m1 now i1 = (Ok codec, i2) →
  ∃ dec', initiator_finish 2 now segs dec i (HandShake (RInitiator i1)) =
      Ok ([], dec', Transport codec) ∧
    awaiting_header dec' [] ∧ missing_noise_b dec' = 2.
Proof.
  intros Hd Hm Hl Hseg E2. rewrite <- (app_nil_r m1) in Hseg.
  destruct (receive_handshake 0 segs dec m1 [] Hd Hm) as (segs1 & dec' & Er & Hs1 & Hd' & Hm');
    [by rewrite Hl|exact Hseg|]. apply segments_nil in Hs1 as ->.
  exists dec'. split; [|done]. unfold initiator_finish, not_initialized.
  rewrite Hl in Er. rewrite Er. cbn [handshake_payload FrameOps.try_into_handshake hs_payload].
  rewrite Hl, Z.eqb_refl. cbn [mbind result_bind]. unfold step_2. by rewrite E2.
Qed.
End Lemmas.

(** C1 Delivery over an encrypted connection: any sequence of well-typed
    messages written to a connection whose cipher is in step with the reader's
    arrives complete and in order, each frame with its message type, channel
    bit and payload, however the network cuts the stream into segments; every
    frame needs at most three turns of the read loop. *)
Theorem noise_stream_delivery `{CryptoLaws} `{BufferSpec B} (overflow_checks : bool)
    (os : list Outgoing) (w : NoiseTcpWriteHalf (B := B)) (h : NoiseTcpReadHalf (B := B))
    (nc nr : NoiseCodec) :
  Forall (outgoing_ok overflow_checks) os → wr_idle w nc → rd_idle h nr →
  decryptor nr = encryptor nc → keyed (gc_cipher (encryptor nc)) (512 * zlen os) →
  ∃ fs wires w', mapM outgoing_frame os = Some fs ∧
    write_frames overflow_checks fs w = (Ok wires, w') ∧
    ∀ segs, segments segs (concat wires) →
      ∃ got h', read_frames 3 (length os)
          (mkReadHalf segs (decoder h) (r_state h) (current_frame_buf h) 0) = (Ok got, h') ∧
        Forall2 delivered os got ∧ reader h' = [].
Proof.
  intros Hos Hw Hh Hd Hk.
  destruct (deliver_all overflow_checks os w nc Hos Hw Hk) as (fs & wires & w' & E1 & E2 & Hrd).
  exists fs, wires, w'. split_and!; [done|done|]. intros segs Hseg.
  destruct Hh as (_ & Hst & Ha & Hm).
  destruct (Hrd (mkReadHalf segs (decoder h) (r_state h) (current_frame_buf h) 0) nr [] 0%nat)
    as (got & h' & E3 & Hg & Hr); [done|done|by rewrite app_nil_r|].
  exists got, h'. split_and!; [done|done|]. by apply segments_nil.
Qed.

(** Two ends that share a toy key, on system-memory buffers. *)
#[local] Existing Instance toy_crypto.
#[local] Existing Instance toy_laws.
Definition sample_cipher : GenericCipher :=
  GChaCha20Poly1305 (mkCipher None 0 (Some (zeros 32))).
Definition sample_codec : NoiseCodec := mkNoiseCodec sample_cipher sample_cipher.
Definition sample_writer : @NoiseTcpWriteHalf toy_crypto BufferFromSystemMemory :=
  mkWriteHalf (mkNoiseEncoder SysMem.new SysMem.new) (Transport sample_codec).
Definition sample_reader : @NoiseTcpReadHalf toy_crypto BufferFromSystemMemory :=
  mkReadHalf [] (mkWithNoise 2 SysMem.new SysMem.new) (Transport sample_codec) [] 0.
Definition sample_outgoing : Outgoing := mkOutgoing sample_type sample_value 26 0 true.

Lemma sample_outgoing_ok : outgoing_ok true sample_outgoing.
Proof. split_and!; [done|apply typedb_sound| | | |]; by vm_compute. Qed.

Lemma noise_stream_delivery_witness :
  ∃ fs wires w', mapM outgoing_frame [sample_outgoing; sample_outgoing] = Some fs ∧
    write_frames true fs sample_writer = (Ok wires, w').
Proof.
  destruct (noise_stream_delivery true [sample_outgoing; sample_outgoing] sample_writer
    sample_reader sample_codec sample_codec) as (fs & wires & w' & E1 & E2 & _).
  - repeat (constructor; [apply sample_outgoing_ok|]). constructor.
  - repeat split; first [reflexivity | vm_compute; congruence].
  - repeat split; first [reflexivity | vm_compute; congruence].
  - reflexivity.
  - repeat split; first [by eexists | vm_compute; congruence].
  - exists fs, wires, w'. split; [exact E1|exact E2].
Defined.

(** C17 Connection set-up over the network: with fresh decoders and encoders on
    both sides, the initiator's opening bytes, delivered in any segments, make
    the responder answer, and the answer, delivered in any segments, makes the
    initiator finish; both ends are then in transport mode with crossed
    ciphers, empty buffers and decoders ready for the first frame, which is
    the premise of message delivery in both directions. *)
Theorem connection_established `{CryptoLaws} `{BufferSpec B} (overflow_checks : bool)
    (e_i e_r s_r a : SecretKey) (authority : option bytes) (validity now_i now_r : Z) (rng : Rng)
    (enc_i enc_r : NoiseEncoder (B := B)) (dec_i dec_r : WithNoise (B := B)) (st0 : State) :
  let i := fresh_initiator e_i authority in
  let r := fresh_responder e_r s_r a validity in
  enc_idle enc_i → enc_idle enc_r →
  awaiting_header dec_i [] → missing_noise_b dec_i = 0 →
  awaiting_header dec_r [] → missing_noise_b dec_r = 0 →
  authority = Some (x_only (public_key a)) ∨ authority = None →
  0 ≤ validity → 0 ≤ now_r → now_r ≤ now_i ≤ now_r + validity → now_r + validity < 2 ^ 32 →
  ∃ out_i enc_i' st_i,
    initiator_open overflow_checks i (enc_i, st0) = (Ok out_i, (enc_i', st_i)) ∧
    ∀ segs, segments segs out_i →
    ∃ out_r dec_r' enc_r' codec_r,
      responder_accept overflow_checks 2 now_r rng segs dec_r enc_r r =
        Ok (out_r, [], dec_r', enc_r', Transport codec_r) ∧
      ∀ segs', segments segs' out_r →
      ∃ dec_i' codec_i,
        initiator_finish 2 now_i segs' dec_i i st_i = Ok ([], dec_i', Transport codec_i) ∧
        encryptor codec_i = decryptor codec_r ∧ encryptor codec_r = decryptor codec_i ∧
        keyed (gc_cipher (encryptor codec_i)) (2 ^ 63) ∧
        keyed (gc_cipher (encryptor codec_r)) (2 ^ 63) ∧
        wr_idle (mkWriteHalf enc_i' (Transport codec_i)) codec_i ∧
        wr_idle (mkWriteHalf enc_r' (Transport codec_r)) codec_r ∧
        rd_idle (mkReadHalf [] dec_i' (Transport codec_i) [] 0) codec_i ∧
        rd_idle (mkReadHalf [] dec_r' (Transport codec_r) [] 0) codec_r.
Proof.
  intros i r Hei Her Hdi Hmi Hdr Hmr Ha Hv Hn Hw Hb.
  destruct (initiator_open_spec overflow_checks e_i authority enc_i st0 Hei) as (enc_i' & Eo & Hei').
  eexists _, enc_i', _. split; [exact Eo|]. intros segs Hseg.
  destruct (handshake_exchange e_i e_r s_r a authority validity now_r rng Hv Hn Hb Ha)
    as (m1 & ck & r1 & cert & E1 & L1 & E2).
  destruct (responder_accept_spec overflow_checks segs dec_r enc_r r _ m1 _ r1 now_r rng Hdr Hmr Her
    (ellswift_encode_len _) Hseg E1) as (dec_r' & enc_r' & Er & Hdr' & Hmr' & Her').
  eexists m1, dec_r', enc_r', _. split; [exact Er|]. intros segs' Hseg'.
  destruct (E2 now_i) as [i2 E3]. rewrite window_open in E3 by done.
  destruct (initiator_finish_spec segs' dec_i i _ m1 _ i2 now_i Hdi Hmi L1 Hseg' E3)
    as (dec_i' & Ei & Hdi' & Hmi').
  eexists dec_i', _. split; [exact Ei|].
  destruct (crossed_codecs ck) as (C1 & C2 & [k1 K1] & [k2 K2]).
  split; [done|]. split; [done|].
  split; [unfold keyed; rewrite K1; split_and!; cbn; by try eexists|].
  split; [unfold keyed; rewrite <- C2, K2; split_and!; cbn; by try eexists|].
  split; [by split|]. split; [by split|].
  split; (split_and!; cbn; [done|done|done|lia|lia]).
Qed.

Lemma connection_established_witness :
  ∃ out_i enc st, initiator_open (B := BufferFromSystemMemory) true
    (toy_initiator (Some (to_le_bytes 32 3)))
    (mkNoiseEncoder SysMem.new SysMem.new, NotInitialized 0) = (Ok out_i, (enc, st)).
Proof.
  destruct (connection_established (B := BufferFromSystemMemory) true (key 4) (key 6) (key 8)
    (key 3) (Some (to_le_bytes 32 3)) 3600 1500 1000 toy_rng
    (mkNoiseEncoder SysMem.new SysMem.new) (mkNoiseEncoder SysMem.new SysMem.new)
    (mkWithNoise 0 SysMem.new SysMem.new) (mkWithNoise 0 SysMem.new SysMem.new)
    (NotInitialized 0)) as (out_i & enc & st & E & _).
  - repeat split; first [reflexivity | vm_compute; congruence].
  - repeat split; first [reflexivity | vm_compute; congruence].
  - repeat split; first [reflexivity | vm_compute; congruence].
  - reflexivity.
  - repeat split; first [reflexivity | vm_compute; congruence].
  - reflexivity.
  - left. reflexivity.
  - lia.
  - lia.
  - lia.
  - lia.
  - exists out_i, enc, st. exact E.
Defined.
