(* ===== verification/Messages.v ===== *)
(** * The messages of the subprotocols

    One codec type per message struct of [protocols/v2/subprotocols], with the
    fields in declaration order, which is the wire order.  [Str0255] and
    [CompressedPubKey] are aliases of [B0255].  [Protocol], the first field of
    [SetupConnection], is one byte on the wire; its check against the known
    discriminants is part of [setup_connection_from_bytes]. *)

From S2P Require Import Prelude Datatypes Codec.

Module CommonMessagesSv2.
Definition ChannelEndpointChanged : sv2_type :=
  TStruct [("channel_id", TPrim MU32)]%string.
Definition Reconnect : sv2_type :=
  TStruct [("new_host", TPrim MB0255); ("new_port", TPrim MU16)]%string.
Definition SetupConnection : sv2_type :=
  TStruct [("protocol", TPrim MU8); ("min_version", TPrim MU16); ("max_version", TPrim MU16);
           ("flags", TPrim MU32); ("endpoint_host", TPrim MB0255);
           ("endpoint_port", TPrim MU16); ("vendor", TPrim MB0255);
           ("hardware_version", TPrim MB0255); ("firmware", TPrim MB0255);
           ("device_id", TPrim MB0255)]%string.
Definition SetupConnectionSuccess : sv2_type :=
  TStruct [("used_version", TPrim MU16); ("flags", TPrim MU32)]%string.
Definition SetupConnectionError : sv2_type :=
  TStruct [("flags", TPrim MU32); ("error_code", TPrim MB0255)]%string.
End CommonMessagesSv2.

Module MiningSv2.
Definition CloseChannel : sv2_type :=
  TStruct [("channel_id", TPrim MU32); ("reason_code", TPrim MB0255)]%string.
Definition MintQuoteNotification : sv2_type :=
  TStruct [("channel_id", TPrim MU32); ("quote_id", TPrim MB0255);
           ("amount", TPrim MU64)]%string.
Definition MintQuoteFailure : sv2_type :=
  TStruct [("channel_id", TPrim MU32); ("quote_id", TPrim MB0255); ("error_code", TPrim MU32);
           ("error_message", TPrim MB0255)]%string.
Definition NewMiningJob : sv2_type :=
  TStruct [("channel_id", TPrim MU32); ("job_id", TPrim MU32); ("min_ntime", TOption MU32);
           ("version", TPrim MU32); ("merkle_root", TPrim MU256)]%string.
Definition NewExtendedMiningJob : sv2_type :=
  TStruct [("channel_id", TPrim MU32); ("job_id", TPrim MU32); ("min_ntime", TOption MU32);
           ("version", TPrim MU32); ("version_rolling_allowed", TPrim MBool);
           ("merkle_path", TSeq0255 MU256); ("coinbase_tx_prefix", TPrim MB064K);
           ("coinbase_tx_suffix", TPrim MB064K)]%string.
Definition OpenStandardMiningChannel : sv2_type :=
  TStruct [("request_id", TPrim MU32AsRef); ("user_identity", TPrim MB0255);
           ("nominal_hash_rate", TPrim MF32); ("max_target", TPrim MU256)]%string.
Definition OpenStandardMiningChannelSuccess : sv2_type :=
  TStruct [("request_id", TPrim MU32AsRef); ("channel_id", TPrim MU32); ("target", TPrim MU256);
           ("extranonce_prefix", TPrim MB032); ("group_channel_id", TPrim MU32)]%string.
Definition OpenExtendedMiningChannel : sv2_type :=
  TStruct [("request_id", TPrim MU32); ("user_identity", TPrim MB0255);
           ("nominal_hash_rate", TPrim MF32); ("max_target", TPrim MU256);
           ("min_extranonce_size", TPrim MU16)]%string.
Definition OpenExtendedMiningChannelSuccess : sv2_type :=
  TStruct [("request_id", TPrim MU32); ("channel_id", TPrim MU32); ("target", TPrim MU256);
           ("extranonce_size", TPrim MU16); ("extranonce_prefix", TPrim MB032)]%string.
Definition OpenMiningChannelError : sv2_type :=
  TStruct [("request_id", TPrim MU32); ("error_code", TPrim MB0255)]%string.
Definition SetCustomMiningJob : sv2_type :=
  TStruct [("channel_id", TPrim MU32); ("request_id", TPrim MU32); ("token", TPrim MB0255);
           ("version", TPrim MU32); ("prev_hash", TPrim MU256); ("min_ntime", TPrim MU32);
           ("nbits", TPrim MU32); ("coinbase_tx_version", TPrim MU32);
           ("coinbase_prefix", TPrim MB0255); ("coinbase_tx_input_n_sequence", TPrim MU32);
           ("coinbase_tx_outputs", TPrim MB064K); ("coinbase_tx_locktime", TPrim MU32);
           ("merkle_path", TSeq0255 MU256)]%string.
Definition SetCustomMiningJobSuccess : sv2_type :=
  TStruct [("channel_id", TPrim MU32); ("request_id", TPrim MU32);
           ("job_id", TPrim MU32)]%string.
Definition SetCustomMiningJobError : sv2_type :=
  TStruct [("channel_id", TPrim MU32); ("request_id", TPrim MU32);
           ("error_code", TPrim MB0255)]%string.
Definition SetExtranoncePrefix : sv2_type :=
  TStruct [("channel_id", TPrim MU32); ("extranonce_prefix", TPrim MB032)]%string.
Definition SetGroupChannel : sv2_type :=
  TStruct [("group_channel_id", TPrim MU32); ("channel_ids", TSeq064K MU32)]%string.
Definition SetNewPrevHash : sv2_type :=
  TStruct [("channel_id", TPrim MU32); ("job_id", TPrim MU32); ("prev_hash", TPrim MU256);
           ("min_ntime", TPrim MU32); ("nbits", TPrim MU32)]%string.
Definition SetTarget : sv2_type :=
  TStruct [("channel_id", TPrim MU32); ("maximum_target", TPrim MU256)]%string.
Definition SubmitSharesStandard : sv2_type :=
  TStruct [("channel_id", TPrim MU32); ("sequence_number", TPrim MU32); ("job_id", TPrim MU32);
           ("nonce", TPrim MU32); ("ntime", TPrim MU32); ("version", TPrim MU32)]%string.
Definition SubmitSharesExtended : sv2_type :=
  TStruct [("channel_id", TPrim MU32); ("sequence_number", TPrim MU32); ("job_id", TPrim MU32);
           ("nonce", TPrim MU32); ("ntime", TPrim MU32); ("version", TPrim MU32);
           ("extranonce", TPrim MB032)]%string.
Definition SubmitSharesSuccess : sv2_type :=
  TStruct [("channel_id", TPrim MU32); ("last_sequence_number", TPrim MU32);
           ("new_submits_accepted_count", TPrim MU32); ("new_shares_sum", TPrim MU64)]%string.
Definition SubmitSharesError : sv2_type :=
  TStruct [("channel_id", TPrim MU32); ("sequence_number", TPrim MU32);
           ("error_code", TPrim MB0255)]%string.
Definition UpdateChannel : sv2_type :=
  TStruct [("channel_id", TPrim MU32); ("nominal_hash_rate", TPrim MF32);
           ("maximum_target", TPrim MU256)]%string.
Definition UpdateChannelError : sv2_type :=
  TStruct [("channel_id", TPrim MU32); ("error_code", TPrim MB0255)]%string.
End MiningSv2.

Module JobDeclarationSv2.
Definition AllocateMiningJobToken : sv2_type :=
  TStruct [("user_identifier", TPrim MB0255); ("request_id", TPrim MU32)]%string.
Definition AllocateMiningJobTokenSuccess : sv2_type :=
  TStruct [("request_id", TPrim MU32); ("mining_job_token", TPrim MB0255);
           ("coinbase_outputs", TPrim MB064K)]%string.
Definition DeclareMiningJob : sv2_type :=
  TStruct [("request_id", TPrim MU32); ("mining_job_token", TPrim MB0255);
           ("version", TPrim MU32); ("coinbase_tx_prefix", TPrim MB064K);
           ("coinbase_tx_suffix", TPrim MB064K); ("tx_ids_list", TSeq064K MU256);
           ("excess_data", TPrim MB064K)]%string.
Definition DeclareMiningJobSuccess : sv2_type :=
  TStruct [("request_id", TPrim MU32); ("new_mining_job_token", TPrim MB0255)]%string.
Definition DeclareMiningJobError : sv2_type :=
  TStruct [("request_id", TPrim MU32); ("error_code", TPrim MB0255);
           ("error_details", TPrim MB064K)]%string.
Definition ProvideMissingTransactions : sv2_type :=
  TStruct [("request_id", TPrim MU32); ("unknown_tx_position_list", TSeq064K MU16)]%string.
Definition ProvideMissingTransactionsSuccess : sv2_type :=
  TStruct [("request_id", TPrim MU32); ("transaction_list", TSeq064K MB016M)]%string.
Definition PushSolution : sv2_type :=
  TStruct [("extranonce", TPrim MB032); ("prev_hash", TPrim MU256); ("ntime", TPrim MU32);
           ("nonce", TPrim MU32); ("nbits", TPrim MU32); ("version", TPrim MU32)]%string.
End JobDeclarationSv2.

Module TemplateDistributionSv2.
Definition CoinbaseOutputConstraints : sv2_type :=
  TStruct [("coinbase_output_max_additional_size", TPrim MU32);
           ("coinbase_output_max_additional_sigops", TPrim MU16)]%string.
Definition NewTemplate : sv2_type :=
  TStruct [("template_id", TPrim MU64); ("future_template", TPrim MBool);
           ("version", TPrim MU32); ("coinbase_tx_version", TPrim MU32);
           ("coinbase_prefix", TPrim MB0255); ("coinbase_tx_input_sequence", TPrim MU32);
           ("coinbase_tx_value_remaining", TPrim MU64);
           ("coinbase_tx_outputs_count", TPrim MU32); ("coinbase_tx_outputs", TPrim MB064K);
           ("coinbase_tx_locktime", TPrim MU32); ("merkle_path", TSeq0255 MU256)]%string.
Definition RequestTransactionData : sv2_type :=
  TStruct [("template_id", TPrim MU64)]%string.
Definition RequestTransactionDataSuccess : sv2_type :=
  TStruct [("template_id", TPrim MU64); ("excess_data", TPrim MB064K);
           ("transaction_list", TSeq064K MB016M)]%string.
Definition RequestTransactionDataError : sv2_type :=
  TStruct [("template_id", TPrim MU64); ("error_code", TPrim MB0255)]%string.
Definition SetNewPrevHash : sv2_type :=
  TStruct [("template_id", TPrim MU64); ("prev_hash", TPrim MU256);
           ("header_timestamp", TPrim MU32); ("n_bits", TPrim MU32);
           ("target", TPrim MU256)]%string.
Definition SubmitSolution : sv2_type :=
  TStruct [("template_id", TPrim MU64); ("version", TPrim MU32);
           ("header_timestamp", TPrim MU32); ("header_nonce", TPrim MU32);
           ("coinbase_tx", TPrim MB064K)]%string.
End TemplateDistributionSv2.

Module MintQuoteSv2.
Definition MintQuoteError : sv2_type :=
  TStruct [("error_code", TPrim MU32); ("error_message", TPrim MB0255)]%string.
Definition MintQuoteRequest : sv2_type :=
  TStruct [("amount", TPrim MU64); ("unit", TPrim MB0255); ("header_hash", TPrim MU256);
           ("description", TOption MB0255); ("locking_key", TPrim MB0255)]%string.
Definition MintQuoteResponse : sv2_type :=
  TStruct [("quote_id", TPrim MB0255); ("header_hash", TPrim MU256)]%string.
End MintQuoteSv2.

Module StatsSv2.
Definition ShareSubmitted : sv2_type :=
  TStruct [("downstream_id", TPrim MU32); ("timestamp", TPrim MU64)]%string.
Definition QuoteCreated : sv2_type :=
  TStruct [("downstream_id", TPrim MU32); ("amount", TPrim MU64);
           ("timestamp", TPrim MU64)]%string.
Definition ChannelOpened : sv2_type :=
  TStruct [("downstream_id", TPrim MU32); ("channel_id", TPrim MU32)]%string.
Definition ChannelClosed : sv2_type :=
  TStruct [("downstream_id", TPrim MU32); ("channel_id", TPrim MU32)]%string.
Definition DownstreamConnected : sv2_type :=
  TStruct [("downstream_id", TPrim MU32); ("flags", TPrim MU32)]%string.
Definition DownstreamDisconnected : sv2_type :=
  TStruct [("downstream_id", TPrim MU32)]%string.
Definition MinerConnected : sv2_type :=
  TStruct [("miner_id", TPrim MU32); ("name", TPrim MB0255)]%string.
Definition MinerDisconnected : sv2_type :=
  TStruct [("miner_id", TPrim MU32)]%string.
Definition MinerShareSubmitted : sv2_type :=
  TStruct [("miner_id", TPrim MU32); ("difficulty_millis", TPrim MU32);
           ("timestamp", TPrim MU64)]%string.
Definition MinerHashrateUpdate : sv2_type :=
  TStruct [("miner_id", TPrim MU32); ("hashrate", TPrim MU64);
           ("timestamp", TPrim MU64)]%string.
End StatsSv2.
