(* ===== verification/Parsers.v ===== *)
(** * Message dispatch: the crate [parsers_sv2]

    A message of an enum such as [Mining] is its variant and the struct it
    carries.  Incoming frames are dispatched on the message type byte, outgoing
    messages are framed with the type and channel bit of their variant. *)

From S2P Require Import Prelude Datatypes Codec Framing Messages.

(** [ParserError]. *)
Inductive ParserError : Type :=
  | UnexpectedMessage (msg_type : Z)
  | BadPayloadSize
  | UnexpectedPoolMessage
  | BinaryError (e : Error).

#[global] Instance ParserError_eq_dec : EqDecision ParserError.
Proof. solve_decision. Defined.

(** ** CommonMessages *)

(** The variants of [CommonMessages]. *)
Inductive CommonMessagesKind : Type :=
  | C_ChannelEndpointChanged
  | C_Reconnect
  | C_SetupConnection
  | C_SetupConnectionError
  | C_SetupConnectionSuccess.
#[global] Instance CommonMessagesKind_eq_dec : EqDecision CommonMessagesKind.
Proof. solve_decision. Defined.

(** The message struct a variant carries. *)
Definition CommonMessages_struct (k : CommonMessagesKind) : sv2_type :=
  match k with
  | C_ChannelEndpointChanged => CommonMessagesSv2.ChannelEndpointChanged
  | C_Reconnect => CommonMessagesSv2.Reconnect
  | C_SetupConnection => CommonMessagesSv2.SetupConnection
  | C_SetupConnectionError => CommonMessagesSv2.SetupConnectionError
  | C_SetupConnectionSuccess => CommonMessagesSv2.SetupConnectionSuccess
  end.

(** [CommonMessages::message_type]. *)
Definition CommonMessages_message_type (k : CommonMessagesKind) : Z :=
  match k with
  | C_ChannelEndpointChanged => 0x03
  | C_Reconnect => 0x04
  | C_SetupConnection => 0x00
  | C_SetupConnectionError => 0x02
  | C_SetupConnectionSuccess => 0x01
  end.

(** [CommonMessages::channel_bit]. *)
Definition CommonMessages_channel_bit (k : CommonMessagesKind) : bool :=
  match k with
  | C_ChannelEndpointChanged => true
  | C_Reconnect | C_SetupConnection | C_SetupConnectionError | C_SetupConnectionSuccess => false
  end.

(** [TryFrom<u8> for CommonMessageTypes]. *)
Definition CommonMessageTypes_try_from (v : Z) : result ParserError CommonMessagesKind :=
  if v =? 0x00 then Ok C_SetupConnection else
  if v =? 0x01 then Ok C_SetupConnectionSuccess else
  if v =? 0x02 then Ok C_SetupConnectionError else
  if v =? 0x03 then Ok C_ChannelEndpointChanged else
  if v =? 0x04 then Ok C_Reconnect else
  Err (UnexpectedMessage v).

(** ** Mining *)

(** The variants of [Mining]. *)
Inductive MiningKind : Type :=
  | M_CloseChannel
  | M_NewExtendedMiningJob
  | M_NewMiningJob
  | M_OpenExtendedMiningChannel
  | M_OpenExtendedMiningChannelSuccess
  | M_OpenMiningChannelError
  | M_OpenStandardMiningChannel
  | M_OpenStandardMiningChannelSuccess
  | M_SetCustomMiningJob
  | M_SetCustomMiningJobError
  | M_SetCustomMiningJobSuccess
  | M_SetExtranoncePrefix
  | M_SetGroupChannel
  | M_SetNewPrevHash
  | M_SetTarget
  | M_SubmitSharesError
  | M_SubmitSharesExtended
  | M_SubmitSharesStandard
  | M_SubmitSharesSuccess
  | M_UpdateChannel
  | M_UpdateChannelError
  | M_MintQuoteNotification
  | M_MintQuoteFailure.
#[global] Instance MiningKind_eq_dec : EqDecision MiningKind.
Proof. solve_decision. Defined.

(** The message struct a variant carries. *)
Definition Mining_struct (k : MiningKind) : sv2_type :=
  match k with
  | M_CloseChannel => MiningSv2.CloseChannel
  | M_NewExtendedMiningJob => MiningSv2.NewExtendedMiningJob
  | M_NewMiningJob => MiningSv2.NewMiningJob
  | M_OpenExtendedMiningChannel => MiningSv2.OpenExtendedMiningChannel
  | M_OpenExtendedMiningChannelSuccess => MiningSv2.OpenExtendedMiningChannelSuccess
  | M_OpenMiningChannelError => MiningSv2.OpenMiningChannelError
  | M_OpenStandardMiningChannel => MiningSv2.OpenStandardMiningChannel
  | M_OpenStandardMiningChannelSuccess => MiningSv2.OpenStandardMiningChannelSuccess
  | M_SetCustomMiningJob => MiningSv2.SetCustomMiningJob
  | M_SetCustomMiningJobError => MiningSv2.SetCustomMiningJobError
  | M_SetCustomMiningJobSuccess => MiningSv2.SetCustomMiningJobSuccess
  | M_SetExtranoncePrefix => MiningSv2.SetExtranoncePrefix
  | M_SetGroupChannel => MiningSv2.SetGroupChannel
  | M_SetNewPrevHash => MiningSv2.SetNewPrevHash
  | M_SetTarget => MiningSv2.SetTarget
  | M_SubmitSharesError => MiningSv2.SubmitSharesError
  | M_SubmitSharesExtended => MiningSv2.SubmitSharesExtended
  | M_SubmitSharesStandard => MiningSv2.SubmitSharesStandard
  | M_SubmitSharesSuccess => MiningSv2.SubmitSharesSuccess
  | M_UpdateChannel => MiningSv2.UpdateChannel
  | M_UpdateChannelError => MiningSv2.UpdateChannelError
  | M_MintQuoteNotification => MiningSv2.MintQuoteNotification
  | M_MintQuoteFailure => MiningSv2.MintQuoteFailure
  end.

(** [Mining::message_type]. *)
Definition Mining_message_type (k : MiningKind) : Z :=
  match k with
  | M_CloseChannel => 0x18
  | M_NewExtendedMiningJob => 0x1f
  | M_NewMiningJob => 0x15
  | M_OpenExtendedMiningChannel => 0x13
  | M_OpenExtendedMiningChannelSuccess => 0x14
  | M_OpenMiningChannelError => 0x12
  | M_OpenStandardMiningChannel => 0x10
  | M_OpenStandardMiningChannelSuccess => 0x11
  | M_SetCustomMiningJob => 0x22
  | M_SetCustomMiningJobError => 0x24
  | M_SetCustomMiningJobSuccess => 0x23
  | M_SetExtranoncePrefix => 0x19
  | M_SetGroupChannel => 0x25
  | M_SetNewPrevHash => 0x20
  | M_SetTarget => 0x21
  | M_SubmitSharesError => 0x1d
  | M_SubmitSharesExtended => 0x1b
  | M_SubmitSharesStandard => 0x1a
  | M_SubmitSharesSuccess => 0x1c
  | M_UpdateChannel => 0x16
  | M_UpdateChannelError => 0x17
  | M_MintQuoteNotification => 0xc0
  | M_MintQuoteFailure => 0xc1
  end.

(** [Mining::channel_bit]. *)
Definition Mining_channel_bit (k : MiningKind) : bool :=
  match k with
  | M_CloseChannel | M_NewExtendedMiningJob | M_NewMiningJob | M_SetExtranoncePrefix |
    M_SetNewPrevHash | M_SetTarget | M_SubmitSharesError | M_SubmitSharesExtended |
    M_SubmitSharesStandard | M_SubmitSharesSuccess | M_UpdateChannel |
    M_UpdateChannelError | M_MintQuoteNotification | M_MintQuoteFailure => true
  | M_OpenExtendedMiningChannel | M_OpenExtendedMiningChannelSuccess |
    M_OpenMiningChannelError | M_OpenStandardMiningChannel |
    M_OpenStandardMiningChannelSuccess | M_SetCustomMiningJob | M_SetCustomMiningJobError
  | M_SetCustomMiningJobSuccess | M_SetGroupChannel => false
  end.

(** [TryFrom<u8> for MiningTypes]. *)
Definition MiningTypes_try_from (v : Z) : result ParserError MiningKind :=
  if v =? 0x18 then Ok M_CloseChannel else
  if v =? 0x1f then Ok M_NewExtendedMiningJob else
  if v =? 0x15 then Ok M_NewMiningJob else
  if v =? 0x13 then Ok M_OpenExtendedMiningChannel else
  if v =? 0x14 then Ok M_OpenExtendedMiningChannelSuccess else
  if v =? 0x12 then Ok M_OpenMiningChannelError else
  if v =? 0x10 then Ok M_OpenStandardMiningChannel else
  if v =? 0x11 then Ok M_OpenStandardMiningChannelSuccess else
  if v =? 0x22 then Ok M_SetCustomMiningJob else
  if v =? 0x24 then Ok M_SetCustomMiningJobError else
  if v =? 0x23 then Ok M_SetCustomMiningJobSuccess else
  if v =? 0x19 then Ok M_SetExtranoncePrefix else
  if v =? 0x25 then Ok M_SetGroupChannel else
  if v =? 0x20 then Ok M_SetNewPrevHash else
  if v =? 0x21 then Ok M_SetTarget else
  if v =? 0x1d then Ok M_SubmitSharesError else
  if v =? 0x1b then Ok M_SubmitSharesExtended else
  if v =? 0x1a then Ok M_SubmitSharesStandard else
  if v =? 0x1c then Ok M_SubmitSharesSuccess else
  if v =? 0x16 then Ok M_UpdateChannel else
  if v =? 0x17 then Ok M_UpdateChannelError else
  Err (UnexpectedMessage v).

(** ** JobDeclaration *)

(** The variants of [JobDeclaration]. *)
Inductive JobDeclarationKind : Type :=
  | J_AllocateMiningJobToken
  | J_AllocateMiningJobTokenSuccess
  | J_DeclareMiningJob
  | J_DeclareMiningJobSuccess
  | J_DeclareMiningJobError
  | J_ProvideMissingTransactions
  | J_ProvideMissingTransactionsSuccess
  | J_PushSolution.
#[global] Instance JobDeclarationKind_eq_dec : EqDecision JobDeclarationKind.
Proof. solve_decision. Defined.

(** The message struct a variant carries. *)
Definition JobDeclaration_struct (k : JobDeclarationKind) : sv2_type :=
  match k with
  | J_AllocateMiningJobToken => JobDeclarationSv2.AllocateMiningJobToken
  | J_AllocateMiningJobTokenSuccess => JobDeclarationSv2.AllocateMiningJobTokenSuccess
  | J_DeclareMiningJob => JobDeclarationSv2.DeclareMiningJob
  | J_DeclareMiningJobSuccess => JobDeclarationSv2.DeclareMiningJobSuccess
  | J_DeclareMiningJobError => JobDeclarationSv2.DeclareMiningJobError
  | J_ProvideMissingTransactions => JobDeclarationSv2.ProvideMissingTransactions
  | J_ProvideMissingTransactionsSuccess => JobDeclarationSv2.ProvideMissingTransactionsSuccess
  | J_PushSolution => JobDeclarationSv2.PushSolution
  end.

(** [JobDeclaration::message_type]. *)
Definition JobDeclaration_message_type (k : JobDeclarationKind) : Z :=
  match k with
  | J_AllocateMiningJobToken => 0x50
  | J_AllocateMiningJobTokenSuccess => 0x51
  | J_DeclareMiningJob => 0x57
  | J_DeclareMiningJobSuccess => 0x58
  | J_DeclareMiningJobError => 0x59
  | J_ProvideMissingTransactions => 0x55
  | J_ProvideMissingTransactionsSuccess => 0x56
  | J_PushSolution => 0x60
  end.

(** [JobDeclaration::channel_bit]. *)
Definition JobDeclaration_channel_bit (k : JobDeclarationKind) : bool :=
  match k with
  | J_PushSolution => true
  | J_AllocateMiningJobToken | J_AllocateMiningJobTokenSuccess | J_DeclareMiningJob |
    J_DeclareMiningJobSuccess | J_DeclareMiningJobError | J_ProvideMissingTransactions |
    J_ProvideMissingTransactionsSuccess => false
  end.

(** [TryFrom<u8> for JobDeclarationTypes]. *)
Definition JobDeclarationTypes_try_from (v : Z) : result ParserError JobDeclarationKind :=
  if v =? 0x50 then Ok J_AllocateMiningJobToken else
  if v =? 0x51 then Ok J_AllocateMiningJobTokenSuccess else
  if v =? 0x57 then Ok J_DeclareMiningJob else
  if v =? 0x58 then Ok J_DeclareMiningJobSuccess else
  if v =? 0x59 then Ok J_DeclareMiningJobError else
  if v =? 0x55 then Ok J_ProvideMissingTransactions else
  if v =? 0x56 then Ok J_ProvideMissingTransactionsSuccess else
  if v =? 0x60 then Ok J_PushSolution else
  Err (UnexpectedMessage v).

(** ** TemplateDistribution *)

(** The variants of [TemplateDistribution]. *)
Inductive TemplateDistributionKind : Type :=
  | T_CoinbaseOutputConstraints
  | T_NewTemplate
  | T_RequestTransactionData
  | T_RequestTransactionDataError
  | T_RequestTransactionDataSuccess
  | T_SetNewPrevHash
  | T_SubmitSolution.
#[global] Instance TemplateDistributionKind_eq_dec : EqDecision TemplateDistributionKind.
Proof. solve_decision. Defined.

(** The message struct a variant carries. *)
Definition TemplateDistribution_struct (k : TemplateDistributionKind) : sv2_type :=
  match k with
  | T_CoinbaseOutputConstraints => TemplateDistributionSv2.CoinbaseOutputConstraints
  | T_NewTemplate => TemplateDistributionSv2.NewTemplate
  | T_RequestTransactionData => TemplateDistributionSv2.RequestTransactionData
  | T_RequestTransactionDataError => TemplateDistributionSv2.RequestTransactionDataError
  | T_RequestTransactionDataSuccess => TemplateDistributionSv2.RequestTransactionDataSuccess
  | T_SetNewPrevHash => TemplateDistributionSv2.SetNewPrevHash
  | T_SubmitSolution => TemplateDistributionSv2.SubmitSolution
  end.

(** [TemplateDistribution::message_type]. *)
Definition TemplateDistribution_message_type (k : TemplateDistributionKind) : Z :=
  match k with
  | T_CoinbaseOutputConstraints => 0x70
  | T_NewTemplate => 0x71
  | T_RequestTransactionData => 0x73
  | T_RequestTransactionDataError => 0x75
  | T_RequestTransactionDataSuccess => 0x74
  | T_SetNewPrevHash => 0x72
  | T_SubmitSolution => 0x76
  end.

(** [TemplateDistribution::channel_bit]. *)
Definition TemplateDistribution_channel_bit (k : TemplateDistributionKind) : bool :=
  match k with
  | T_CoinbaseOutputConstraints | T_NewTemplate | T_RequestTransactionData |
    T_RequestTransactionDataError | T_RequestTransactionDataSuccess | T_SetNewPrevHash |
    T_SubmitSolution => false
  end.

(** [TryFrom<u8> for TemplateDistributionTypes]. *)
Definition TemplateDistributionTypes_try_from (v : Z) : result ParserError TemplateDistributionKind :=
  if v =? 0x70 then Ok T_CoinbaseOutputConstraints else
  if v =? 0x71 then Ok T_NewTemplate else
  if v =? 0x72 then Ok T_SetNewPrevHash else
  if v =? 0x73 then Ok T_RequestTransactionData else
  if v =? 0x74 then Ok T_RequestTransactionDataSuccess else
  if v =? 0x75 then Ok T_RequestTransactionDataError else
  if v =? 0x76 then Ok T_SubmitSolution else
  Err (UnexpectedMessage v).

(** ** Decoding *)

(** [Protocol::try_from], the check of [SetupConnection]'s first field; it is
    the last field to be converted, after all others have succeeded. *)
Definition protocol_try_from (value : Z) : result Error Z :=
  if value =? 0 then Ok value else
  if value =? 1 then Ok value else
  if value =? 2 then Ok value else
  Err (ValueIsNotAValidProtocol value).
Definition setup_connection_from_bytes (data : bytes) : result Error sv2_value :=
  v ← from_bytes CommonMessagesSv2.SetupConnection data;
  match v with
  | VStruct (VPrim (DU8 protocol) :: _) => _ ← protocol_try_from protocol; Ok v
  | _ => Ok v
  end.

(** A variant with its struct. *)
Record Msg (K : Type) : Type := mkMsg { kind : K; struct : sv2_value }.
Arguments mkMsg {K} kind struct.
Arguments kind {K} m.
Arguments struct {K} m.

(** [TryFrom<(u8, &mut [u8])>] of the four enums. *)
Definition CommonMessages_try_from (v : Z * bytes) : result ParserError (Msg CommonMessagesKind) :=
  msg_type ← CommonMessageTypes_try_from v.1;
  message ← map_err BinaryError
    match msg_type with
    | C_SetupConnection => setup_connection_from_bytes v.2
    | _ => from_bytes (CommonMessages_struct msg_type) v.2
    end;
  Ok (mkMsg msg_type message).
Definition Mining_try_from (v : Z * bytes) : result ParserError (Msg MiningKind) :=
  msg_type ← MiningTypes_try_from v.1;
  message ← map_err BinaryError (from_bytes (Mining_struct msg_type) v.2);
  Ok (mkMsg msg_type message).
Definition JobDeclaration_try_from (v : Z * bytes) : result ParserError (Msg JobDeclarationKind) :=
  msg_type ← JobDeclarationTypes_try_from v.1;
  message ← map_err BinaryError (from_bytes (JobDeclaration_struct msg_type) v.2);
  Ok (mkMsg msg_type message).
Definition TemplateDistribution_try_from (v : Z * bytes)
    : result ParserError (Msg TemplateDistributionKind) :=
  msg_type ← TemplateDistributionTypes_try_from v.1;
  message ← map_err BinaryError (from_bytes (TemplateDistribution_struct msg_type) v.2);
  Ok (mkMsg msg_type message).

(** [AnyMessage]. *)
Inductive AnyMessage : Type :=
  | AnyCommon (m : Msg CommonMessagesKind)
  | AnyMining (m : Msg MiningKind)
  | AnyJobDeclaration (m : Msg JobDeclarationKind)
  | AnyTemplateDistribution (m : Msg TemplateDistributionKind).

(** [TryFrom<(u8, &mut [u8])> for AnyMessage]: exactly one subprotocol must
    know the type. *)
Definition AnyMessage_try_from (v : Z * bytes) : result ParserError AnyMessage :=
  match CommonMessageTypes_try_from v.1, MiningTypes_try_from v.1,
        JobDeclarationTypes_try_from v.1, TemplateDistributionTypes_try_from v.1 with
  | Ok _, Err _, Err _, Err _ => m ← CommonMessages_try_from v; Ok (AnyCommon m)
  | Err _, Ok _, Err _, Err _ => m ← Mining_try_from v; Ok (AnyMining m)
  | Err _, Err _, Ok _, Err _ => m ← JobDeclaration_try_from v; Ok (AnyJobDeclaration m)
  | Err _, Err _, Err _, Ok _ =>
      m ← TemplateDistribution_try_from v; Ok (AnyTemplateDistribution m)
  | Err e, Err _, Err _, Err _ => Err e
  | _, _, _, _ => Panic
  end.

(** [MiningDeviceMessages]. *)
Inductive MiningDeviceMessages : Type :=
  | DeviceCommon (m : Msg CommonMessagesKind)
  | DeviceMining (m : Msg MiningKind).

Definition MiningDeviceMessages_try_from (v : Z * bytes)
    : result ParserError MiningDeviceMessages :=
  match CommonMessageTypes_try_from v.1, MiningTypes_try_from v.1 with
  | Ok _, Err _ => m ← CommonMessages_try_from v; Ok (DeviceCommon m)
  | Err _, Ok _ => m ← Mining_try_from v; Ok (DeviceMining m)
  | Err e, Err _ => Err e
  | _, _ => Panic
  end.

(** [TryFrom<AnyMessage> for MiningDeviceMessages] and back. *)
Definition MiningDeviceMessages_from_any (m : AnyMessage)
    : result ParserError MiningDeviceMessages :=
  match m with
  | AnyCommon m => Ok (DeviceCommon m)
  | AnyMining m => Ok (DeviceMining m)
  | AnyJobDeclaration _ => Err UnexpectedPoolMessage
  | AnyTemplateDistribution _ => Err UnexpectedPoolMessage
  end.
Definition AnyMessage_from_device (m : MiningDeviceMessages) : result ParserError AnyMessage :=
  match m with
  | DeviceCommon m => Ok (AnyCommon m)
  | DeviceMining m => Ok (AnyMining m)
  end.

(** ** Encoding *)

(** The struct that is serialized ([From<AnyMessage> for EncodableField],
    [GetSize]), its message type and its channel bit. *)
Definition AnyMessage_struct (m : AnyMessage) : sv2_value :=
  match m with
  | AnyCommon m => struct m
  | AnyMining m => struct m
  | AnyJobDeclaration m => struct m
  | AnyTemplateDistribution m => struct m
  end.
Definition AnyMessage_message_type (m : AnyMessage) : Z :=
  match m with
  | AnyCommon m => CommonMessages_message_type (kind m)
  | AnyMining m => Mining_message_type (kind m)
  | AnyJobDeclaration m => JobDeclaration_message_type (kind m)
  | AnyTemplateDistribution m => TemplateDistribution_message_type (kind m)
  end.
Definition AnyMessage_channel_bit (m : AnyMessage) : bool :=
  match m with
  | AnyCommon m => CommonMessages_channel_bit (kind m)
  | AnyMining m => Mining_channel_bit (kind m)
  | AnyJobDeclaration m => JobDeclaration_channel_bit (kind m)
  | AnyTemplateDistribution m => TemplateDistribution_channel_bit (kind m)
  end.

(** [TryFrom<AnyMessage> for Sv2Frame]. *)
Definition AnyMessage_try_into_frame (v : AnyMessage) : result ParserError Sv2Frame :=
  let extension_type := 0 in
  let channel_bit := AnyMessage_channel_bit v in
  let message_type := AnyMessage_message_type v in
  ok_or (FrameOps.from_message (AnyMessage_struct v) message_type extension_type channel_bit)
    BadPayloadSize.

(** [message_type_to_name]. *)
Definition message_type_to_name (msg_type : Z) : string :=
  if msg_type =? 0x00 then "SetupConnection"%string else
  if msg_type =? 0x01 then "SetupConnectionSuccess"%string else
  if msg_type =? 0x02 then "SetupConnectionError"%string else
  if msg_type =? 0x03 then "ChannelEndpointChanged"%string else
  if msg_type =? 0x10 then "OpenStandardMiningChannel"%string else
  if msg_type =? 0x11 then "OpenStandardMiningChannelSuccess"%string else
  if msg_type =? 0x12 then "OpenMiningChannelError"%string else
  if msg_type =? 0x13 then "OpenExtendedMiningChannel"%string else
  if msg_type =? 0x14 then "OpenExtendedMiningChannelSuccess"%string else
  if msg_type =? 0x15 then "NewMiningJob"%string else
  if msg_type =? 0x16 then "UpdateChannel"%string else
  if msg_type =? 0x17 then "UpdateChannelError"%string else
  if msg_type =? 0x18 then "CloseChannel"%string else
  if msg_type =? 0x19 then "SetExtranoncePrefix"%string else
  if msg_type =? 0x1a then "SubmitSharesStandard"%string else
  if msg_type =? 0x1b then "SubmitSharesExtended"%string else
  if msg_type =? 0x1c then "SubmitSharesSuccess"%string else
  if msg_type =? 0x1d then "SubmitSharesError"%string else
  if msg_type =? 0x1f then "NewExtendedMiningJob"%string else
  if msg_type =? 0x20 then "SetNewPrevHash"%string else
  if msg_type =? 0x21 then "SetTarget"%string else
  if msg_type =? 0x22 then "SetCustomMiningJob"%string else
  if msg_type =? 0x23 then "SetCustomMiningJobSuccess"%string else
  if msg_type =? 0x24 then "SetCustomMiningJobError"%string else
  if msg_type =? 0x25 then "Reconnect"%string else
  if msg_type =? 0x26 then "SetGroupChannel"%string else
  if msg_type =? 0x50 then "AllocateMiningJobToken"%string else
  if msg_type =? 0x51 then "AllocateMiningJobTokenSuccess"%string else
  if msg_type =? 0x55 then "ProvideMissingTransactions"%string else
  if msg_type =? 0x56 then "ProvideMissingTransactionsSuccess"%string else
  if msg_type =? 0x57 then "DeclareMiningJob"%string else
  if msg_type =? 0x58 then "DeclareMiningJobSuccess"%string else
  if msg_type =? 0x59 then "DeclareMiningJobError"%string else
  if msg_type =? 0x60 then "PushSolution"%string else
  if msg_type =? 0x70 then "CoinbaseOutputDataSize"%string else
  if msg_type =? 0x71 then "NewTemplate"%string else
  if msg_type =? 0x72 then "SetNewPrevHash"%string else
  if msg_type =? 0x73 then "RequestTransactionData"%string else
  if msg_type =? 0x74 then "RequestTransactionDataSuccess"%string else
  if msg_type =? 0x75 then "RequestTransactionDataError"%string else
  if msg_type =? 0x76 then "SubmitSolution"%string else
  if msg_type =? 0xc0 then "MintQuoteNotification"%string else
  if msg_type =? 0xc1 then "MintQuoteFailure"%string else
  "Unknown Message"%string.
