(* ===== verification/ParsersProperties.v ===== *)
(** * Properties of message dispatch *)

From S2P Require Import Prelude Datatypes Codec CodecFacts CodecTheorems CodecProperties Framing Messages Parsers.

(** ** Well-formed messages *)

(** The struct of a message has the type its variant declares; a
    [SetupConnection] names a known protocol. *)
Definition any_struct_type (m : AnyMessage) : sv2_type :=
  match m with
  | AnyCommon m => CommonMessages_struct (kind m)
  | AnyMining m => Mining_struct (kind m)
  | AnyJobDeclaration m => JobDeclaration_struct (kind m)
  | AnyTemplateDistribution m => TemplateDistribution_struct (kind m)
  end.
Definition protocol_ok (m : AnyMessage) : Prop :=
  match m with
  | AnyCommon (mkMsg C_SetupConnection (VStruct (VPrim (DU8 p) :: _))) => 0 ≤ p ≤ 2
  | _ => True
  end.
Definition any_typed (m : AnyMessage) : Prop :=
  typed (any_struct_type m) (AnyMessage_struct m) ∧ protocol_ok m.

(** The two mining variants the type table of the parser leaves out. *)
Definition mint_quote_kind (k : MiningKind) : bool :=
  match k with M_MintQuoteNotification | M_MintQuoteFailure => true | _ => false end.
Definition parsable (m : AnyMessage) : bool :=
  match m with AnyMining m => negb (mint_quote_kind (kind m)) | _ => true end.

(** Rust equality of messages. *)
#[global] Instance AnyMessage_equiv : Equiv AnyMessage := λ a b,
  match a, b with
  | AnyCommon a, AnyCommon b => kind a = kind b ∧ struct a ≡ struct b
  | AnyMining a, AnyMining b => kind a = kind b ∧ struct a ≡ struct b
  | AnyJobDeclaration a, AnyJobDeclaration b => kind a = kind b ∧ struct a ≡ struct b
  | AnyTemplateDistribution a, AnyTemplateDistribution b => kind a = kind b ∧ struct a ≡ struct b
  | _, _ => False
  end.

Lemma any_struct_wf m : wf_type (any_struct_type m) = true.
Proof. destruct m as [[k ?]|[k ?]|[k ?]|[k ?]]; by destruct k. Qed.

(** Every message is a struct of primitives, sequences and options. *)
Lemma any_struct_plain m : ∃ fields, any_struct_type m = TStruct fields ∧ forallb plain fields = true.
Proof. destruct m as [[k ?]|[k ?]|[k ?]|[k ?]]; destruct k; by eexists. Qed.

Lemma any_message_type_fits m : fits 8 (AnyMessage_message_type m).
Proof. destruct m as [[k ?]|[k ?]|[k ?]|[k ?]]; destruct k; by vm_compute. Qed.

(** ** Dispatch on the variant's own type *)

Lemma setup_connection_decode v rest :
  typed CommonMessagesSv2.SetupConnection v →
  protocol_ok (AnyCommon (mkMsg C_SetupConnection v)) →
  setup_connection_from_bytes (val_bytes v ++ rest) = Ok (val_ref v).
Proof.
  intros Ht Hp. unfold setup_connection_from_bytes. rewrite from_bytes_spec by done.
  cbn [mbind result_bind]. unfold CommonMessagesSv2.SetupConnection in Ht.
  inversion Ht as [| | | |? vs Hvs]; subst.
  destruct vs as [|v vs]; inversion Hvs as [|? ? ? ? Hv]; subst; cbn in Hv.
  inversion Hv as [? p [Hm _]| | | |]; subst. destruct p; try done. cbn in Hp.
  assert (v = 0 ∨ v = 1 ∨ v = 2) as [->|[->| ->]] by lia; done.
Qed.

(** Each type table is a partial inverse of the message types of its enum. *)
Definition table_of {K} (try_from : Z → result ParserError K) (ty : K → Z) (ok : K → bool) : Prop :=
  (∀ k, ok k = true → try_from (ty k) = Ok k) ∧
  (∀ v k, try_from v = Ok k → v = ty k ∧ ok k = true) ∧
  (∀ v, try_from v ≠ Panic) ∧
  (∀ v e, try_from v = Err e → e = UnexpectedMessage v).

Ltac check_table f :=
  split_and!;
  [ intros []; (reflexivity || discriminate)
  | unfold f; intros v k; repeat split_if; intros; simplify_eq; bool_props; by subst
  | unfold f; intros v; repeat split_if; discriminate
  | unfold f; intros v e; repeat split_if; intros; by simplify_eq ].

Lemma common_table :
  table_of CommonMessageTypes_try_from CommonMessages_message_type (λ _, true).
Proof. check_table CommonMessageTypes_try_from. Qed.
Lemma mining_table :
  table_of MiningTypes_try_from Mining_message_type (λ k, negb (mint_quote_kind k)).
Proof. check_table MiningTypes_try_from. Qed.
Lemma job_declaration_table :
  table_of JobDeclarationTypes_try_from JobDeclaration_message_type (λ _, true).
Proof. check_table JobDeclarationTypes_try_from. Qed.
Lemma template_distribution_table :
  table_of TemplateDistributionTypes_try_from TemplateDistribution_message_type (λ _, true).
Proof. check_table TemplateDistributionTypes_try_from. Qed.

(** The decoder of a variant, and the variant with another struct. *)
Definition any_from_bytes (m : AnyMessage) (data : bytes) : result Error sv2_value :=
  match m with
  | AnyCommon (mkMsg C_SetupConnection _) => setup_connection_from_bytes data
  | _ => from_bytes (any_struct_type m) data
  end.
Definition with_struct (m : AnyMessage) (v : sv2_value) : AnyMessage :=
  match m with
  | AnyCommon m => AnyCommon (mkMsg (kind m) v)
  | AnyMining m => AnyMining (mkMsg (kind m) v)
  | AnyJobDeclaration m => AnyJobDeclaration (mkMsg (kind m) v)
  | AnyTemplateDistribution m => AnyTemplateDistribution (mkMsg (kind m) v)
  end.

Ltac eval_tables :=
  cbn [CommonMessages_message_type Mining_message_type JobDeclaration_message_type
       TemplateDistribution_message_type];
  repeat match goal with
  | |- context [CommonMessageTypes_try_from ?c] =>
      let r := eval vm_compute in (CommonMessageTypes_try_from c) in
      change (CommonMessageTypes_try_from c) with r
  | |- context [MiningTypes_try_from ?c] =>
      let r := eval vm_compute in (MiningTypes_try_from c) in
      change (MiningTypes_try_from c) with r
  | |- context [JobDeclarationTypes_try_from ?c] =>
      let r := eval vm_compute in (JobDeclarationTypes_try_from c) in
      change (JobDeclarationTypes_try_from c) with r
  | |- context [TemplateDistributionTypes_try_from ?c] =>
      let r := eval vm_compute in (TemplateDistributionTypes_try_from c) in
      change (TemplateDistributionTypes_try_from c) with r
  end.

(** A frame with the type of a variant is decoded as that variant. *)
Lemma dispatch_variant m payload :
  parsable m = true →
  AnyMessage_try_from (AnyMessage_message_type m, payload) =
  (v ← map_err BinaryError (any_from_bytes m payload); Ok (with_struct m v)).
Proof.
  intros Hk. unfold AnyMessage_try_from, CommonMessages_try_from, Mining_try_from,
    JobDeclaration_try_from, TemplateDistribution_try_from.
  destruct m as [[k v]|[k v]|[k v]|[k v]]; destruct k; try discriminate Hk;
    cbn [fst snd AnyMessage_message_type kind any_from_bytes any_struct_type with_struct];
    eval_tables; cbn [mbind result_bind]; by destruct (map_err _ _).
Qed.

Lemma dispatch_spec m rest :
  any_typed m → parsable m = true →
  ∃ m', AnyMessage_try_from (AnyMessage_message_type m, val_bytes (AnyMessage_struct m) ++ rest)
      = Ok m' ∧ m' ≡ m.
Proof.
  intros [Ht Hp] Hk. exists (with_struct m (val_ref (AnyMessage_struct m))). split.
  - rewrite dispatch_variant by done.
    enough (any_from_bytes m (val_bytes (AnyMessage_struct m) ++ rest)
            = Ok (val_ref (AnyMessage_struct m))) as -> by done.
    pose proof (from_bytes_spec _ _ rest (any_struct_wf m) Ht) as Hd.
    destruct m as [[[] v]|[k v]|[k v]|[k v]]; try exact Hd. by apply setup_connection_decode.
  - pose proof (val_ref_equiv (AnyMessage_struct m)). by destruct m as [[]|[]|[]|[]].
Qed.

Lemma dispatch_unknown ty payload :
  (∀ m, parsable m = true → AnyMessage_message_type m ≠ ty) →
  AnyMessage_try_from (ty, payload) = Err (UnexpectedMessage ty).
Proof.
  intros Hn.
  destruct common_table as (_ & C & CP & CE), mining_table as (_ & M & MP & _),
    job_declaration_table as (_ & J & JP & _), template_distribution_table as (_ & T & TP & _).
  pose (v := VStruct []). unfold AnyMessage_try_from; cbn [fst].
  destruct (CommonMessageTypes_try_from ty) as [k|e|] eqn:Ec;
    [apply C in Ec as [-> _]; by destruct (Hn (AnyCommon (mkMsg k v)))| |by destruct (CP ty)].
  destruct (MiningTypes_try_from ty) as [k|e1|] eqn:Em;
    [apply M in Em as [-> Hk]; by destruct (Hn (AnyMining (mkMsg k v)))| |by destruct (MP ty)].
  destruct (JobDeclarationTypes_try_from ty) as [k|e2|] eqn:Ej;
    [apply J in Ej as [-> _]; by destruct (Hn (AnyJobDeclaration (mkMsg k v)))
    | |by destruct (JP ty)].
  destruct (TemplateDistributionTypes_try_from ty) as [k|e3|] eqn:Et;
    [apply T in Et as [-> _]; by destruct (Hn (AnyTemplateDistribution (mkMsg k v)))
    | |by destruct (TP ty)].
  by rewrite (CE _ _ Ec).
Qed.

Lemma variant_of_type ty :
  (∃ m, parsable m = true ∧ AnyMessage_message_type m = ty) ∨
  (∀ m, parsable m = true → AnyMessage_message_type m ≠ ty).
Proof.
  destruct common_table as (C & C' & CP & _), mining_table as (M & M' & MP & _),
    job_declaration_table as (J & J' & JP & _),
    template_distribution_table as (T & T' & TP & _).
  pose (v := VStruct []).
  destruct (CommonMessageTypes_try_from ty) as [k|?|] eqn:Ec;
    [left; exists (AnyCommon (mkMsg k v)); by apply C' in Ec as [-> _]| |by destruct (CP ty)].
  destruct (MiningTypes_try_from ty) as [k|?|] eqn:Em;
    [left; exists (AnyMining (mkMsg k v)); by apply M' in Em as [-> ?]| |by destruct (MP ty)].
  destruct (JobDeclarationTypes_try_from ty) as [k|?|] eqn:Ej;
    [left; exists (AnyJobDeclaration (mkMsg k v)); by apply J' in Ej as [-> _]
    | |by destruct (JP ty)].
  destruct (TemplateDistributionTypes_try_from ty) as [k|?|] eqn:Et;
    [left; exists (AnyTemplateDistribution (mkMsg k v)); by apply T' in Et as [-> _]
    | |by destruct (TP ty)].
  right. intros [[k ?]|[k ?]|[k ?]|[k ?]] Hk <-; cbn [AnyMessage_message_type kind] in *.
  - by rewrite C in Ec.
  - by rewrite M in Em.
  - by rewrite J in Ej.
  - by rewrite T in Et.
Qed.

(** ** The claims *)

(** C16 An [AnyMessage] turned into a frame, serialized, read back with
    [Sv2Frame::from_bytes] and dispatched on the type byte of the header gives
    an equal message: the type byte, the channel bit and the payload written by
    the encoder are the ones the parser of the same variant reads.  It holds for
    every variant the type tables list, for a well-typed struct whose payload
    length fits the 24-bit length field. *)
Theorem message_roundtrip chk m :
  any_typed m → parsable m = true → capacity_ok chk (AnyMessage_struct m) = true →
  fits 24 (get_size (AnyMessage_struct m)) →
  ∃ f h wire m', AnyMessage_try_into_frame m = Ok f ∧
    (∀ dst, zlen dst = zlen wire → FrameOps.serialize chk f dst = (Ok tt, wire)) ∧
    FrameOps.from_bytes wire = Ok (mkSv2Frame h None (Some wire)) ∧
    msg_type h = AnyMessage_message_type m ∧
    HeaderOps.channel_msg h = AnyMessage_channel_bit m ∧
    (payload ← map_err (λ _ : FramingError, BadPayloadSize)
       (FrameOps.payload_bytes (mkSv2Frame h None (Some wire)));
     AnyMessage_try_from (msg_type h, payload)) = Ok m' ∧ m' ≡ m.
Proof.
  intros Hm Hk Hc Hs.
  destruct (framed_message chk _ _ (AnyMessage_message_type m) 0 (AnyMessage_channel_bit m)
    (proj1 Hm) Hc Hs (any_message_type_fits m)) as (Hf & _ & Hser & Hb & Hp); [by vm_compute|].
  destruct (dispatch_spec m [] Hm Hk) as (m' & Hd & He). rewrite app_nil_r in Hd.
  do 4 eexists. split_and!; [| exact Hser | exact Hb | done | | | exact He].
  - unfold AnyMessage_try_into_frame. by rewrite Hf.
  - by destruct (AnyMessage_channel_bit m).
  - rewrite Hp. exact Hd.
Qed.

(** Dispatch is total and unambiguous: for every type byte either exactly
    the decoder of the variant with that type runs on the payload, its error
    being wrapped, or no variant of the tables has the type and the result is
    [UnexpectedMessage] of it.  The match of [AnyMessage::try_from] never falls
    into its panicking catch-all arm. *)
Theorem dispatch_total ty payload :
  (∃ m, parsable m = true ∧ AnyMessage_message_type m = ty ∧
     AnyMessage_try_from (ty, payload) =
       (v ← map_err BinaryError (any_from_bytes m payload); Ok (with_struct m v))) ∨
  ((∀ m, parsable m = true → AnyMessage_message_type m ≠ ty) ∧
     AnyMessage_try_from (ty, payload) = Err (UnexpectedMessage ty)).
Proof.
  destruct (variant_of_type ty) as [(m & Hk & <-)|Hn]; [left|right].
  - exists m. split_and!; [done..|]. by apply dispatch_variant.
  - split; [done|]. by apply dispatch_unknown.
Qed.

(** The two mint-quote variants of [Mining] can be framed but are not in
    the parser's type table: a frame made from one is always rejected with
    [UnexpectedMessage] of its type byte, 0xC0 or 0xC1, whatever its payload. *)
Theorem mint_quote_not_parsed m payload :
  parsable m = false →
  (AnyMessage_message_type m = 0xC0 ∨ AnyMessage_message_type m = 0xC1) ∧
  AnyMessage_try_from (AnyMessage_message_type m, payload)
    = Err (UnexpectedMessage (AnyMessage_message_type m)).
Proof.
  destruct m as [m|[k v]|m|m]; try done. intros Hk.
  destruct k; try discriminate Hk; split; [by left|by vm_compute|by right|by vm_compute].
Qed.

(** A [SetupConnection] of the mining protocol. *)
Definition sample_str (s : string) : sv2_value :=
  VPrim (DB0255 (Owned (String.list_byte_of_string s))).
Definition sample_setup : AnyMessage :=
  AnyCommon (mkMsg C_SetupConnection (VStruct
    [VPrim (DU8 0); VPrim (DU16 2); VPrim (DU16 2); VPrim (DU32 6);
     sample_str "host"; VPrim (DU16 3333); sample_str "vendor"; sample_str "none";
     sample_str "none"; sample_str "id"]))%string.
Definition sample_quote_failure : AnyMessage :=
  AnyMining (mkMsg M_MintQuoteFailure (VStruct [])).

Lemma message_roundtrip_witness :
  ∃ f wire h m', AnyMessage_try_into_frame sample_setup = Ok f ∧
    FrameOps.from_bytes wire = Ok (mkSv2Frame h None (Some wire)) ∧ m' ≡ sample_setup.
Proof.
  destruct (message_roundtrip true sample_setup) as (f & h & wire & m' & Hf & _ & Hb & _ & _ & _ & He);
    [split; [apply typedb_sound; by vm_compute|by vm_compute]|by vm_compute..|].
  by exists f, wire, h, m'.
Defined.

Lemma mint_quote_not_parsed_witness :
  AnyMessage_try_from (0xC1, []) = Err (UnexpectedMessage 0xC1).
Proof. exact (proj2 (mint_quote_not_parsed sample_quote_failure [] eq_refl)). Defined.
