(* ===== verification/Handlers.v ===== *)
(** * Dispatch of messages to handlers: the crate [handlers_sv2]

    [protocols/v2/handlers-sv2/src]: the traits of the roles.  A trait is a
    record of the methods a role supplies, on the role's state [S] and with the
    role's errors [E]; its provided methods parse a frame and pass the message
    to the method for its kind, or refuse it.  The synchronous traits are
    modelled; the asynchronous ones have the same bodies. *)

From S2P Require Import Prelude Datatypes Codec CodecFacts CodecTheorems CodecProperties Framing Messages Parsers ParsersProperties.

(** [HandlerErrorType]. *)
Class HandlerErrorType (E : Type) : Type := {
  unexpected_message : Z → E;
  parse_error : ParserError → E }.

Inductive SupportedChannelTypes : Type := Standard | Extended | Group | GroupAndExtended.
#[global] Instance SupportedChannelTypes_eq_dec : EqDecision SupportedChannelTypes.
Proof. solve_decision. Defined.

Section handlers.
Context {S E : Type} `{HandlerErrorType E}.
Notation Handler := (sv2_value → ST S E unit).
Definition unexpected (message_type : Z) : ST S E unit := throw (unexpected_message message_type).
(** The payload is decoded, or its error reported. *)
Definition on_frame {K} (try_from : Z * bytes → result ParserError (Msg K)) (handle : Msg K → ST S E unit)
    (message_type : Z) (payload : bytes) : ST S E unit :=
  parsed ← lift (map_err parse_error (try_from (message_type, payload)));
  handle parsed.

(** ** Mining *)

Record HandleMiningMessagesFromServer : Type := mkMiningFromServer {
  get_channel_type_for_server : S → SupportedChannelTypes;
  is_work_selection_enabled_for_server : S → bool;
  on_open_standard_mining_channel_success : Handler;
  on_open_extended_mining_channel_success : Handler;
  on_open_mining_channel_error : Handler;
  on_update_channel_error : Handler;
  on_server_close_channel : Handler;
  on_set_extranonce_prefix : Handler;
  on_submit_shares_success : Handler;
  on_submit_shares_error : Handler;
  on_new_mining_job : Handler;
  on_new_extended_mining_job : Handler;
  on_mining_set_new_prev_hash : Handler;
  on_set_custom_mining_job_success : Handler;
  on_set_custom_mining_job_error : Handler;
  on_set_target : Handler;
  on_set_group_channel : Handler }.
Definition handle_mining_message_from_server (h : HandleMiningMessagesFromServer) (message : Msg MiningKind)
    : ST S E unit :=
  channel_type ← gets (get_channel_type_for_server h);
  work_selection ← gets (is_work_selection_enabled_for_server h);
  let m := struct message in
  match kind message with
  | M_OpenStandardMiningChannelSuccess =>
      match channel_type with
      | Standard | Group | GroupAndExtended => on_open_standard_mining_channel_success h m
      | _ => unexpected 0x11
      end
  | M_OpenExtendedMiningChannelSuccess =>
      match channel_type with
      | Extended | GroupAndExtended => on_open_extended_mining_channel_success h m
      | _ => unexpected 0x14
      end
  | M_OpenMiningChannelError => on_open_mining_channel_error h m
  | M_UpdateChannelError => on_update_channel_error h m
  | M_CloseChannel => on_server_close_channel h m
  | M_SetExtranoncePrefix => on_set_extranonce_prefix h m
  | M_SubmitSharesSuccess => on_submit_shares_success h m
  | M_SubmitSharesError => on_submit_shares_error h m
  | M_NewMiningJob =>
      match channel_type with
      | Standard => on_new_mining_job h m
      | _ => unexpected 0x15
      end
  | M_NewExtendedMiningJob =>
      match channel_type with
      | Extended | Group | GroupAndExtended => on_new_extended_mining_job h m
      | _ => unexpected 0x1f
      end
  | M_SetNewPrevHash => on_mining_set_new_prev_hash h m
  | M_SetCustomMiningJobSuccess =>
      match channel_type, work_selection with
      | Extended, true | GroupAndExtended, true => on_set_custom_mining_job_success h m
      | _, _ => unexpected 0x23
      end
  | M_SetCustomMiningJobError =>
      match channel_type, work_selection with
      | Extended, true | Group, true | GroupAndExtended, true => on_set_custom_mining_job_error h m
      | _, _ => unexpected 0x24
      end
  | M_SetTarget => on_set_target h m
  | M_SetGroupChannel =>
      match channel_type with
      | Group | GroupAndExtended => on_set_group_channel h m
      | _ => unexpected 0x25
      end
  | _ => unexpected 0
  end.
Definition handle_mining_message_frame_from_server (h : HandleMiningMessagesFromServer) :=
  on_frame Mining_try_from (handle_mining_message_from_server h).

Record HandleMiningMessagesFromClient : Type := mkMiningFromClient {
  get_channel_type_for_client : S → SupportedChannelTypes;
  is_work_selection_enabled_for_client : S → bool;
  on_client_close_channel : Handler;
  on_open_standard_mining_channel : Handler;
  on_open_extended_mining_channel : Handler;
  on_update_channel : Handler;
  on_submit_shares_standard : Handler;
  on_submit_shares_extended : Handler;
  on_set_custom_mining_job : Handler }.
Definition handle_mining_message_from_client (h : HandleMiningMessagesFromClient) (message : Msg MiningKind)
    : ST S E unit :=
  channel_type ← gets (get_channel_type_for_client h);
  work_selection ← gets (is_work_selection_enabled_for_client h);
  let m := struct message in
  match kind message with
  | M_OpenStandardMiningChannel =>
      match channel_type with
      | Standard | Group | GroupAndExtended => on_open_standard_mining_channel h m
      | Extended => unexpected 0x10
      end
  | M_OpenExtendedMiningChannel =>
      match channel_type with
      | Extended | GroupAndExtended => on_open_extended_mining_channel h m
      | _ => unexpected 0x13
      end
  | M_UpdateChannel => on_update_channel h m
  | M_SubmitSharesStandard =>
      match channel_type with
      | Standard | Group | GroupAndExtended => on_submit_shares_standard h m
      | Extended => unexpected 0x1a
      end
  | M_SubmitSharesExtended =>
      match channel_type with
      | Extended | GroupAndExtended => on_submit_shares_extended h m
      | _ => unexpected 0x1b
      end
  | M_SetCustomMiningJob =>
      match channel_type, work_selection with
      | Extended, true | GroupAndExtended, true => on_set_custom_mining_job h m
      | _, _ => unexpected 0x22
      end
  | M_CloseChannel => on_client_close_channel h m
  | _ => unexpected 0
  end.
Definition handle_mining_message_frame_from_client (h : HandleMiningMessagesFromClient) :=
  on_frame Mining_try_from (handle_mining_message_from_client h).

(** ** Common messages *)

Record HandleCommonMessagesFromServer : Type := mkCommonFromServer {
  on_setup_connection_success : Handler;
  on_setup_connection_error : Handler;
  on_channel_endpoint_changed : Handler;
  on_reconnect : Handler }.
Definition handle_common_message_from_server (h : HandleCommonMessagesFromServer) (message : Msg CommonMessagesKind)
    : ST S E unit :=
  let m := struct message in
  match kind message with
  | C_SetupConnectionSuccess => on_setup_connection_success h m
  | C_SetupConnectionError => on_setup_connection_error h m
  | C_ChannelEndpointChanged => on_channel_endpoint_changed h m
  | C_Reconnect => on_reconnect h m
  | C_SetupConnection => unexpected 0x00
  end.
Definition handle_common_message_frame_from_server (h : HandleCommonMessagesFromServer) :=
  on_frame CommonMessages_try_from (handle_common_message_from_server h).

Record HandleCommonMessagesFromClient : Type := mkCommonFromClient {
  on_setup_connection : Handler }.
Definition handle_common_message_from_client (h : HandleCommonMessagesFromClient) (message : Msg CommonMessagesKind)
    : ST S E unit :=
  match kind message with
  | C_SetupConnectionSuccess => unexpected 0x01
  | C_SetupConnectionError => unexpected 0x02
  | C_ChannelEndpointChanged => unexpected 0x03
  | C_Reconnect => unexpected 0x04
  | C_SetupConnection => on_setup_connection h (struct message)
  end.
Definition handle_common_message_frame_from_client (h : HandleCommonMessagesFromClient) :=
  on_frame CommonMessages_try_from (handle_common_message_from_client h).

(** ** Job declaration *)

Record HandleJobDeclarationMessagesFromServer : Type := mkJdFromServer {
  on_allocate_mining_job_token_success : Handler;
  on_declare_mining_job_success : Handler;
  on_declare_mining_job_error : Handler;
  on_provide_missing_transactions : Handler }.
Definition handle_job_declaration_message_from_server (h : HandleJobDeclarationMessagesFromServer)
    (message : Msg JobDeclarationKind) : ST S E unit :=
  let msg := struct message in
  match kind message with
  | J_AllocateMiningJobTokenSuccess => on_allocate_mining_job_token_success h msg
  | J_DeclareMiningJobSuccess => on_declare_mining_job_success h msg
  | J_DeclareMiningJobError => on_declare_mining_job_error h msg
  | J_ProvideMissingTransactions => on_provide_missing_transactions h msg
  | J_AllocateMiningJobToken => unexpected 0x50
  | J_DeclareMiningJob => unexpected 0x57
  | J_ProvideMissingTransactionsSuccess => unexpected 0x56
  | J_PushSolution => unexpected 0x60
  end.
Definition handle_job_declaration_message_frame_from_server (h : HandleJobDeclarationMessagesFromServer) :=
  on_frame JobDeclaration_try_from (handle_job_declaration_message_from_server h).

Record HandleJobDeclarationMessagesFromClient : Type := mkJdFromClient {
  on_allocate_mining_job_token : Handler;
  on_declare_mining_job : Handler;
  on_provide_missing_transactions_success : Handler;
  on_push_solution : Handler }.
Definition handle_job_declaration_message_from_client (h : HandleJobDeclarationMessagesFromClient)
    (message : Msg JobDeclarationKind) : ST S E unit :=
  let msg := struct message in
  match kind message with
  | J_AllocateMiningJobToken => on_allocate_mining_job_token h msg
  | J_DeclareMiningJob => on_declare_mining_job h msg
  | J_ProvideMissingTransactionsSuccess => on_provide_missing_transactions_success h msg
  | J_PushSolution => on_push_solution h msg
  | J_AllocateMiningJobTokenSuccess => unexpected 0x51
  | J_DeclareMiningJobSuccess => unexpected 0x58
  | J_DeclareMiningJobError => unexpected 0x59
  | J_ProvideMissingTransactions => unexpected 0x55
  end.
Definition handle_job_declaration_message_frame_from_client (h : HandleJobDeclarationMessagesFromClient) :=
  on_frame JobDeclaration_try_from (handle_job_declaration_message_from_client h).

(** ** Template distribution *)

Record HandleTemplateDistributionMessagesFromServer : Type := mkTdpFromServer {
  on_new_template : Handler;
  on_set_new_prev_hash : Handler;
  on_request_tx_data_success : Handler;
  on_request_tx_data_error : Handler }.
Definition handle_template_distribution_message_from_server (h : HandleTemplateDistributionMessagesFromServer)
    (message : Msg TemplateDistributionKind) : ST S E unit :=
  let m := struct message in
  match kind message with
  | T_NewTemplate => on_new_template h m
  | T_SetNewPrevHash => on_set_new_prev_hash h m
  | T_RequestTransactionDataSuccess => on_request_tx_data_success h m
  | T_RequestTransactionDataError => on_request_tx_data_error h m
  | T_CoinbaseOutputConstraints => unexpected 0x70
  | T_RequestTransactionData => unexpected 0x73
  | T_SubmitSolution => unexpected 0x76
  end.
Definition handle_template_distribution_message_frame_from_server (h : HandleTemplateDistributionMessagesFromServer) :=
  on_frame TemplateDistribution_try_from (handle_template_distribution_message_from_server h).

Record HandleTemplateDistributionMessagesFromClient : Type := mkTdpFromClient {
  on_coinbase_output_constraints : Handler;
  on_request_tx_data : Handler;
  on_submit_solution : Handler }.
Definition handle_template_distribution_message_from_client (h : HandleTemplateDistributionMessagesFromClient)
    (message : Msg TemplateDistributionKind) : ST S E unit :=
  let m := struct message in
  match kind message with
  | T_CoinbaseOutputConstraints => on_coinbase_output_constraints h m
  | T_RequestTransactionData => on_request_tx_data h m
  | T_SubmitSolution => on_submit_solution h m
  | T_NewTemplate => unexpected 0x71
  | T_SetNewPrevHash => unexpected 0x72
  | T_RequestTransactionDataSuccess => unexpected 0x74
  | T_RequestTransactionDataError => unexpected 0x75
  end.
Definition handle_template_distribution_message_frame_from_client (h : HandleTemplateDistributionMessagesFromClient) :=
  on_frame TemplateDistribution_try_from (handle_template_distribution_message_from_client h).
End handlers.

(** * Properties of the handler traits

    A mining connection has a role on each side: the upstream role reads with
    the trait of messages from a client, the downstream role with the trait of
    messages from a server.  Between roles of the same channel type and the
    same work selection, no reply to a request that was accepted is refused. *)
Section handlers.
Context {S E : Type} `{HandlerErrorType E}.

(** The frame of a well-typed message reaches the dispatcher as an equal struct. *)
Lemma mining_parsed k v rest :
  typed (Mining_struct k) v → mint_quote_kind k = false →
  Mining_try_from (Mining_message_type k, val_bytes v ++ rest) = Ok (mkMsg k (val_ref v)).
Proof.
  intros Ht Hk. destruct mining_table as (Htab & _). unfold Mining_try_from. cbn [fst snd].
  rewrite Htab by (by rewrite Hk). cbn [mbind result_bind].
  pose proof (from_bytes_spec _ _ rest (any_struct_wf (AnyMining (mkMsg k v))) Ht) as Hd.
  cbn [any_struct_type kind] in Hd. by rewrite Hd.
Qed.
Lemma frame_parsed {K} try_from (f : Msg K → ST S E unit) ty payload m (s : S) :
  try_from (ty, payload) = Ok m → on_frame try_from f ty payload s = f m s.
Proof. intros Hp. unfold on_frame. by rewrite Hp. Qed.

(** The requests of a client and the replies of a server to each. *)
Inductive reply : MiningKind → MiningKind → Prop :=
  | opened_standard : reply M_OpenStandardMiningChannel M_OpenStandardMiningChannelSuccess
  | standard_refused : reply M_OpenStandardMiningChannel M_OpenMiningChannelError
  | opened_extended : reply M_OpenExtendedMiningChannel M_OpenExtendedMiningChannelSuccess
  | extended_refused : reply M_OpenExtendedMiningChannel M_OpenMiningChannelError
  | update_refused : reply M_UpdateChannel M_UpdateChannelError
  | standard_share_taken : reply M_SubmitSharesStandard M_SubmitSharesSuccess
  | standard_share_refused : reply M_SubmitSharesStandard M_SubmitSharesError
  | extended_share_taken : reply M_SubmitSharesExtended M_SubmitSharesSuccess
  | extended_share_refused : reply M_SubmitSharesExtended M_SubmitSharesError
  | custom_job : reply M_SetCustomMiningJob M_SetCustomMiningJobSuccess
  | custom_job_refused : reply M_SetCustomMiningJob M_SetCustomMiningJobError.
(** The replies that answer one kind of request only, and grant it. *)
Definition grants (k : MiningKind) : bool :=
  match k with
  | M_OpenStandardMiningChannelSuccess | M_OpenExtendedMiningChannelSuccess | M_SetCustomMiningJobSuccess => true
  | _ => false
  end.

(** The methods the traits name for these kinds. *)
Definition request_method (h : HandleMiningMessagesFromClient) (k : MiningKind) : option (sv2_value → ST S E unit) :=
  match k with
  | M_OpenStandardMiningChannel => Some (on_open_standard_mining_channel h)
  | M_OpenExtendedMiningChannel => Some (on_open_extended_mining_channel h)
  | M_UpdateChannel => Some (on_update_channel h)
  | M_SubmitSharesStandard => Some (on_submit_shares_standard h)
  | M_SubmitSharesExtended => Some (on_submit_shares_extended h)
  | M_SetCustomMiningJob => Some (on_set_custom_mining_job h)
  | _ => None
  end.
Definition reply_method (h : HandleMiningMessagesFromServer) (k : MiningKind) : option (sv2_value → ST S E unit) :=
  match k with
  | M_OpenStandardMiningChannelSuccess => Some (on_open_standard_mining_channel_success h)
  | M_OpenExtendedMiningChannelSuccess => Some (on_open_extended_mining_channel_success h)
  | M_OpenMiningChannelError => Some (on_open_mining_channel_error h)
  | M_UpdateChannelError => Some (on_update_channel_error h)
  | M_SubmitSharesSuccess => Some (on_submit_shares_success h)
  | M_SubmitSharesError => Some (on_submit_shares_error h)
  | M_SetCustomMiningJobSuccess => Some (on_set_custom_mining_job_success h)
  | M_SetCustomMiningJobError => Some (on_set_custom_mining_job_error h)
  | _ => None
  end.

(** C34: Take the two ends of a mining connection, an upstream role with the
    trait for messages from a client and a downstream role with the trait for
    messages from a server, of the same channel type and with the same work
    selection.  For every request of the protocol (opening a channel of either
    kind, updating one, a share of either kind, a custom job) and each reply to
    it, success or error, framed from well-typed structs: either both ends run
    exactly the method of the message on a struct equal to the sent one, or the
    request is refused with [unexpected_message] of its own type and the state
    left as it was, and then the reply that opens a channel or grants a custom
    job is refused in the same way.  So no role rejects a reply to a request
    that was taken. *)
Theorem request_reply_agree (up : HandleMiningMessagesFromClient) (down : HandleMiningMessagesFromServer)
    (su sd : S) req rep v w r r' :
  get_channel_type_for_client up su = get_channel_type_for_server down sd →
  is_work_selection_enabled_for_client up su = is_work_selection_enabled_for_server down sd →
  reply req rep → typed (Mining_struct req) v → typed (Mining_struct rep) w →
  (∃ f g v' w', request_method up req = Some f ∧ reply_method down rep = Some g ∧ v' ≡ v ∧ w' ≡ w ∧
     handle_mining_message_frame_from_client up (Mining_message_type req) (val_bytes v ++ r) su = f v' su ∧
     handle_mining_message_frame_from_server down (Mining_message_type rep) (val_bytes w ++ r') sd = g w' sd) ∨
  (handle_mining_message_frame_from_client up (Mining_message_type req) (val_bytes v ++ r) su
     = (Err (unexpected_message (Mining_message_type req)), su) ∧
   (grants rep = true →
    handle_mining_message_frame_from_server down (Mining_message_type rep) (val_bytes w ++ r') sd
      = (Err (unexpected_message (Mining_message_type rep)), sd))).
Proof.
  intros Hct Hws Hr Hv Hw.
  assert (mint_quote_kind req = false ∧ mint_quote_kind rep = false) as [Hq Hp] by by destruct Hr.
  unfold handle_mining_message_frame_from_client, handle_mining_message_frame_from_server.
  erewrite !frame_parsed by by apply mining_parsed.
  unfold handle_mining_message_from_client, handle_mining_message_from_server.
  rewrite !st_gets_bind, Hct, Hws. cbn [kind struct].
  pose proof (val_ref_equiv v). pose proof (val_ref_equiv w).
  destruct Hr; destruct (get_channel_type_for_server _ _), (is_work_selection_enabled_for_server _ _);
    first [left; by do 4 eexists | right; split; [done|by intros ?]].
Qed.
End handlers.
Arguments HandleMiningMessagesFromServer : clear implicits.
Arguments HandleMiningMessagesFromClient : clear implicits.

(** ** A pair of roles *)

Module HandlersSample.
#[local] Instance codes : HandlerErrorType Z := {| unexpected_message := λ c, c; parse_error := λ _, -1 |}.
(** Each end logs the structs it was given. *)
Notation L := (list sv2_value).
Definition log (v : sv2_value) : ST L Z unit := modify (λ l, l ++ [v]).
Definition up (ct : SupportedChannelTypes) : HandleMiningMessagesFromClient L Z :=
  mkMiningFromClient (λ _, ct) (λ _, true) log log log log log log log.
Definition down (ct : SupportedChannelTypes) : HandleMiningMessagesFromServer L Z :=
  mkMiningFromServer (λ _, ct) (λ _, true) log log log log log log log log log log log log log log log.
Definition custom_reply : sv2_value := VStruct [VPrim (DU32 1); VPrim (DU32 2); VPrim (DU32 3)].
Definition zeros32 : bytes := repeat Byte.x00 32.
Definition open_request : sv2_value := VStruct
  [VPrim (DU32 7); VPrim (DB0255 (Owned [])); VPrim (DF32 0); VPrim (DU256 (Owned zeros32)); VPrim (DU16 8)].
Definition open_reply : sv2_value := VStruct
  [VPrim (DU32 7); VPrim (DU32 1); VPrim (DU256 (Owned zeros32)); VPrim (DU16 8); VPrim (DB032 (Owned [Byte.x01]))].

Lemma request_reply_agree_witness :
  (∃ v w, v ≡ open_request ∧ w ≡ open_reply ∧
     handle_mining_message_frame_from_client (up Extended) 0x13 (val_bytes open_request) [] = (Ok tt, [v]) ∧
     handle_mining_message_frame_from_server (down Extended) 0x14 (val_bytes open_reply) [] = (Ok tt, [w])).
Proof.
  destruct (request_reply_agree (up Extended) (down Extended) [] [] M_OpenExtendedMiningChannel
    M_OpenExtendedMiningChannelSuccess open_request open_reply [] [] eq_refl eq_refl opened_extended)
    as [(f & g & v & w & Hf & Hg & Hv & Hw & Hu & Hd)|[Hu _]];
    [apply typedb_sound; vm_compute; reflexivity|apply typedb_sound; vm_compute; reflexivity| |].
  - injection Hf as <-. injection Hg as <-. rewrite app_nil_r in Hu, Hd. exists v, w. auto.
  - exfalso. vm_compute in Hu. discriminate Hu.
Defined.

(** The refusing case, and its companion: a group downstream takes the error
    reply of a request it can never have had accepted. *)
Lemma group_takes_only_the_error :
  (handle_mining_message_from_server (down Group) (mkMsg M_SetCustomMiningJobSuccess custom_reply) []).1 = Err 0x23 ∧
  (handle_mining_message_from_server (down Group) (mkMsg M_SetCustomMiningJobError custom_reply) []).1 = Ok tt ∧
  (handle_mining_message_from_client (up Group) (mkMsg M_SetCustomMiningJob custom_reply) []).1 = Err 0x22.
Proof. done. Qed.

(** A role that takes standard channels beside extended ones refuses their jobs. *)
Lemma group_and_extended_refuses_standard_jobs v :
  handle_mining_message_from_server (down GroupAndExtended) (mkMsg M_OpenStandardMiningChannelSuccess v) [] = (Ok tt, [v]) ∧
  handle_mining_message_from_server (down GroupAndExtended) (mkMsg M_NewMiningJob v) [] = (Err 0x15, []).
Proof. done. Qed.
End HandlersSample.
