(* ===== verification/SetupConnection.v ===== *)
(** * Connection setup: flags and versions

    The methods of [SetupConnection] in
    [protocols/v2/subprotocols/common-messages/src/setup_connection.rs] that
    negotiate a connection, with the bit reversals the code performs. *)

From S2P Require Import Prelude Datatypes.

(** [Protocol]. *)
Inductive Protocol : Type :=
  | MiningProtocol
  | JobDeclarationProtocol
  | TemplateDistributionProtocol.

Record SetupConnection : Type := mkSetupConnection {
  protocol : Protocol;
  min_version : Z;
  max_version : Z;
  flags : Z;
  endpoint_host : Inner;
  endpoint_port : Z;
  vendor : Inner;
  hardware_version : Inner;
  firmware : Inner;
  device_id : Inner }.
Definition set_flags (f : Z) (s : SetupConnection) : SetupConnection :=
  mkSetupConnection (protocol s) (min_version s) (max_version s) f (endpoint_host s)
    (endpoint_port s) (vendor s) (hardware_version s) (firmware s) (device_id s).

(** [u32::reverse_bits]: bit i goes to bit 31 - i. *)
Fixpoint reverse_bits_n (n : nat) (x : Z) : Z :=
  match n with
  | O => 0
  | S n' => Z.lor (Z.shiftl (Z.land x 1) (Z.of_nat n')) (reverse_bits_n n' (Z.shiftr x 1))
  end.
Definition reverse_bits (x : Z) : Z := reverse_bits_n 32 x.
(** [<<] on u32 drops the bits shifted out. *)
Definition shl32 (x n : Z) : Z := Z.land (Z.shiftl x n) (2 ^ 32 - 1).

(** [set_requires_standard_job] and [allow_full_template_mode] have the same
    body. *)
Definition set_requires_standard_job (s : SetupConnection) : SetupConnection :=
  set_flags (Z.lor (flags s) 1) s.
Definition allow_full_template_mode (s : SetupConnection) : SetupConnection :=
  set_flags (Z.lor (flags s) 1) s.

Definition check_flags (protocol : Protocol) (available_flags required_flags : Z) : bool :=
  match protocol with
  | MiningProtocol =>
      let available := reverse_bits available_flags in
      let required_flags := reverse_bits required_flags in
      let requires_work_selection_passed := Z.shiftr required_flags 30 >? 0 in
      let requires_version_rolling_passed := Z.shiftr required_flags 29 >? 0 in
      let requires_work_selection_self := Z.shiftr available 30 >? 0 in
      let requires_version_rolling_self := Z.shiftr available 29 >? 0 in
      let work_selection := negb requires_work_selection_self || requires_work_selection_passed in
      let version_rolling :=
        negb requires_version_rolling_self || requires_version_rolling_passed in
      work_selection && version_rolling
  | JobDeclarationProtocol =>
      let available := reverse_bits available_flags in
      let required := reverse_bits required_flags in
      let allow_full_teamplate_mode_passed := Z.land (Z.shiftr required 31) 1 >? 0 in
      let full_template_mode_required_self := Z.land (Z.shiftr available 31) 1 >? 0 in
      match full_template_mode_required_self, allow_full_teamplate_mode_passed with
      | true, true => true
      | true, false => false
      | false, true => true
      | false, false => true
      end
  | TemplateDistributionProtocol => false
  end.

Definition get_version (self : SetupConnection) (min_version' max_version' : Z) : option Z :=
  if (min_version self >? max_version') || (min_version' >? max_version self) then None
  else Some (Z.min (max_version self) max_version').

Definition has_requires_std_job (flags : Z) : bool :=
  let flags := reverse_bits flags in
  let flag := Z.shiftr flags 31 in
  negb (flag =? 0).
Definition has_version_rolling (flags : Z) : bool :=
  let flags := reverse_bits flags in
  let flags := shl32 flags 2 in
  let flag := Z.shiftr flags 31 in
  negb (flag =? 0).
Definition has_work_selection (flags : Z) : bool :=
  let flags := reverse_bits flags in
  let flags := shl32 flags 1 in
  let flag := Z.shiftr flags 31 in
  negb (flag =? 0).
Definition requires_standard_job (s : SetupConnection) : bool := has_requires_std_job (flags s).

(** ** Facts *)

Lemma reverse_bits_n_testbit n x i :
  0 ≤ i →
  Z.testbit (reverse_bits_n n x) i = (i <? Z.of_nat n) && Z.testbit x (Z.of_nat n - 1 - i).
Proof.
  revert x. induction n as [|n IH]; intros x Hi.
  - cbn [reverse_bits_n]. by rewrite Z.bits_0, (proj2 (Z.ltb_ge i (Z.of_nat 0))) by lia.
  - cbn [reverse_bits_n]. rewrite Z.lor_spec, IH, Z.shiftl_spec, Z.land_spec by lia.
    destruct (Z.lt_trichotomy i (Z.of_nat n)) as [H|[->|H]].
    + rewrite (Z.testbit_neg_r x), (proj2 (Z.ltb_lt i (Z.of_nat n))),
        (proj2 (Z.ltb_lt i (Z.of_nat (S n)))), Z.shiftr_spec by lia.
      cbn [andb orb]. f_equal. lia.
    + rewrite Z.sub_diag, (proj2 (Z.ltb_ge _ _)), (proj2 (Z.ltb_lt _ (Z.of_nat (S n)))) by lia.
      replace (Z.of_nat (S n) - 1 - Z.of_nat n) with 0 by lia.
      cbn. by rewrite andb_true_r, orb_false_r.
    + rewrite (proj2 (Z.ltb_ge i (Z.of_nat n))), (proj2 (Z.ltb_ge i (Z.of_nat (S n)))) by lia.
      cbn [andb]. rewrite orb_false_r. apply andb_false_iff. right.
      change 1 with (Z.ones 1). rewrite Z.ones_spec_high; [done|lia].
Qed.
Lemma reverse_bits_testbit x i :
  0 ≤ i → Z.testbit (reverse_bits x) i = (i <? 32) && Z.testbit x (31 - i).
Proof. intros. unfold reverse_bits. by rewrite reverse_bits_n_testbit. Qed.
Lemma reverse_bits_n_nonneg n x : 0 ≤ reverse_bits_n n x.
Proof.
  revert x. induction n as [|n IH]; intros; cbn; [lia|]. apply Z.lor_nonneg. split; [|done].
  apply Z.shiftl_nonneg, Z.land_nonneg. lia.
Qed.

(** The top bits of the reversed flags are the low bits of the flags. *)
Lemma reversed_top_bits x k :
  0 ≤ k < 32 → Z.shiftr (reverse_bits x) k = 0 ↔ Z.land x (Z.ones (32 - k)) = 0.
Proof.
  intros Hk. split; intros H; apply Z.bits_inj_0; intros i.
  - destruct (Z.neg_nonneg_cases i) as [?|Hi]; [by apply Z.testbit_neg_r|].
    rewrite Z.land_spec. destruct (Z.lt_ge_cases i (32 - k)) as [Hlt|Hge].
    + apply (f_equal (λ z, Z.testbit z (31 - k - i))) in H.
      rewrite Z.shiftr_spec, reverse_bits_testbit, Z.bits_0, (proj2 (Z.ltb_lt _ 32)) in H by lia.
      replace (31 - (31 - k - i + k)) with i in H by lia. cbn [andb] in H. by rewrite H.
    + rewrite (Z.ones_spec_high (32 - k) i) by lia. apply andb_false_r.
  - destruct (Z.neg_nonneg_cases i) as [?|Hi]; [by apply Z.testbit_neg_r|].
    rewrite Z.shiftr_spec, reverse_bits_testbit by lia.
    destruct (Z.ltb_spec (i + k) 32) as [Hlt|]; [|done]. cbn [andb].
    apply (f_equal (λ z, Z.testbit z (31 - (i + k)))) in H.
    by rewrite Z.land_spec, Z.bits_0, Z.ones_spec_low, andb_true_r in H by lia.
Qed.
Lemma reversed_top_positive x k :
  0 ≤ k < 32 →
  (Z.shiftr (reverse_bits x) k >? 0) = negb (Z.land x (Z.ones (32 - k)) =? 0).
Proof.
  intros Hk. pose proof (reversed_top_bits x k Hk) as [H1 H2].
  pose proof (proj2 (Z.shiftr_nonneg _ k) (reverse_bits_n_nonneg 32 x)) as Hn.
  fold (reverse_bits x) in Hn. rewrite Z.gtb_ltb.
  destruct (Z.eqb_spec (Z.land x (Z.ones (32 - k))) 0) as [E|E];
    destruct (Z.ltb_spec 0 (Z.shiftr (reverse_bits x) k)); cbn; try done.
  - specialize (H2 E). lia.
  - destruct E. apply H1. lia.
Qed.

(** Bit [31 - n] of the reversed flags, moved up to bit 31 and down to bit 0. *)
Lemma reversed_bit x n :
  0 ≤ n < 32 → Z.shiftr (shl32 (reverse_bits x) n) 31 = Z.b2z (Z.testbit x n).
Proof.
  intros Hn. apply Z.bits_inj'. intros i Hi. unfold shl32. change (2 ^ 32 - 1) with (Z.ones 32).
  rewrite Z.shiftr_spec, Z.land_spec, Z.shiftl_spec by lia.
  destruct (decide (i = 0)) as [->|].
  - rewrite Z.b2z_bit0, reverse_bits_testbit, (Z.ones_spec_low 32), (proj2 (Z.ltb_lt _ 32)) by lia.
    cbn [andb]. rewrite andb_true_r. f_equal. lia.
  - rewrite (Z.ones_spec_high 32), andb_false_r by lia.
    destruct (Z.testbit x n); cbn [Z.b2z]; [|by rewrite Z.bits_0].
    change 1 with (Z.ones 1). rewrite Z.ones_spec_high; [done|lia].
Qed.
Lemma b2z_nonzero b : negb (Z.b2z b =? 0) = b.
Proof. by destruct b. Qed.
Lemma land_low_bit x : Z.land x 1 = Z.b2z (Z.testbit x 0).
Proof. change 1 with (Z.ones 1). rewrite Z.land_ones, Z.bit0_mod; [done|lia]. Qed.
Lemma shl32_0 x : shl32 (reverse_bits x) 0 = reverse_bits x.
Proof.
  apply Z.bits_inj'. intros i Hi. unfold shl32. change (2 ^ 32 - 1) with (Z.ones 32).
  rewrite Z.shiftl_0_r, Z.land_spec, reverse_bits_testbit by done.
  destruct (Z.ltb_spec i 32); [rewrite Z.ones_spec_low by lia|done]. by rewrite andb_true_r.
Qed.

Lemma check_flags_mining a r :
  check_flags MiningProtocol a r =
  ((Z.land a 3 =? 0) || negb (Z.land r 3 =? 0)) && ((Z.land a 7 =? 0) || negb (Z.land r 7 =? 0)).
Proof.
  unfold check_flags. rewrite !reversed_top_positive, !negb_involutive by lia. done.
Qed.

(** ** The claims *)

(** What the flag helpers compute, for all flags: [has_requires_std_job],
    [has_work_selection] and [has_version_rolling] read bits 0, 1 and 2;
    [check_flags] accepts a job declaration connection iff bit 0 of the
    available flags implies bit 0 of the required ones, never accepts template
    distribution, and for mining compares the low two and the low three bits as
    groups. *)
Theorem setup_flags_meaning a r :
  has_requires_std_job a = Z.testbit a 0 ∧
  has_work_selection a = Z.testbit a 1 ∧
  has_version_rolling a = Z.testbit a 2 ∧
  check_flags JobDeclarationProtocol a r = implb (Z.testbit a 0) (Z.testbit r 0) ∧
  check_flags TemplateDistributionProtocol a r = false ∧
  (check_flags MiningProtocol a r = true ↔
   (Z.land a 3 ≠ 0 → Z.land r 3 ≠ 0) ∧ (Z.land a 7 ≠ 0 → Z.land r 7 ≠ 0)).
Proof.
  assert (J : ∀ x, (Z.land (Z.shiftr (reverse_bits x) 31) 1 >? 0) = Z.testbit x 0).
  { intros x. rewrite land_low_bit, Z.shiftr_spec, reverse_bits_testbit by lia.
    change (31 - (0 + 31)) with 0. by destruct (Z.testbit x 0). }
  split_and!; [..|done|].
  - unfold has_requires_std_job. by rewrite <- shl32_0, reversed_bit, b2z_nonzero.
  - unfold has_work_selection. by rewrite reversed_bit, b2z_nonzero.
  - unfold has_version_rolling. by rewrite reversed_bit, b2z_nonzero.
  - unfold check_flags. rewrite !J. by destruct (Z.testbit a 0), (Z.testbit r 0).
  - rewrite check_flags_mining.
    destruct (Z.eqb_spec (Z.land a 3) 0), (Z.eqb_spec (Z.land r 3) 0),
      (Z.eqb_spec (Z.land a 7) 0), (Z.eqb_spec (Z.land r 7) 0); cbn; naive_solver.
Qed.

(** For the mining protocol the flags are not compared one by one: as soon
    as the required flags contain bit 0 (standard jobs) or bit 1 (work
    selection), every available-flags word passes, version rolling included. *)
Theorem check_flags_low_bit_suffices a r :
  Z.land r 3 ≠ 0 → check_flags MiningProtocol a r = true.
Proof.
  intros H. rewrite check_flags_mining.
  assert (H7 : Z.land r 7 ≠ 0).
  { intros E. apply H. change 3 with (Z.land 7 3). by rewrite Z.land_assoc, E. }
  by rewrite (proj2 (Z.eqb_neq _ _) H), (proj2 (Z.eqb_neq _ _) H7), !orb_true_r.
Qed.

(** Required: work selection only; available: version rolling only. *)
Lemma check_flags_low_bit_suffices_witness :
  has_version_rolling 4 = true ∧ has_version_rolling 2 = false ∧
  check_flags MiningProtocol 4 2 = true.
Proof. split_and!; [done..|]. apply check_flags_low_bit_suffices. by vm_compute. Defined.

(** Version negotiation: for two non-empty version ranges [get_version] is
    [Some v] exactly when [v] is the greatest version both sides support, and
    [None] exactly when no version is supported by both. *)
Theorem get_version_greatest_common s lo hi :
  min_version s ≤ max_version s → lo ≤ hi →
  (∀ v, get_version s lo hi = Some v ↔
     (min_version s ≤ v ≤ max_version s ∧ lo ≤ v ≤ hi ∧
      ∀ w, min_version s ≤ w ≤ max_version s → lo ≤ w ≤ hi → w ≤ v)) ∧
  (get_version s lo hi = None ↔
     ∀ v, ¬ (min_version s ≤ v ≤ max_version s ∧ lo ≤ v ≤ hi)).
Proof.
  intros H1 H2. unfold get_version. rewrite !Z.gtb_ltb.
  destruct (_ || _) eqn:E; bool_props.
  - split; [intros v; split; [done|]|split; [|done]]; intros; destruct E; bool_props; lia.
  - set (m := Z.min (max_version s) hi). assert (Hm : m = Z.min (max_version s) hi) by done. clearbody m.
    split; [intros v; split|split; [done|]].
    + intros [= <-]. split_and!; intros; lia.
    + intros (? & ? & Hw). f_equal. specialize (Hw m). lia.
    + intros Hv. destruct (Hv m). lia.
Qed.

Definition sample_setup_connection : SetupConnection :=
  mkSetupConnection MiningProtocol 2 5 0 (Owned []) 3333 (Owned []) (Owned []) (Owned []) (Owned []).
Lemma get_version_greatest_common_witness :
  get_version sample_setup_connection 1 3 = Some 3.
Proof.
  apply (proj1 (get_version_greatest_common sample_setup_connection 1 3
    ltac:(cbn; lia) ltac:(lia)) 3). cbn. split_and!; intros; lia.
Defined.
