(* ===== verification/Utf8.v ===== *)
(** * UTF-8 text

    A Rust [String] is the list of its bytes.  [std::str::from_utf8] accepts
    exactly the well-formed sequences; [String::from_utf8_lossy] replaces each
    maximal ill-formed prefix by the replacement character U+FFFD. *)

From S2P Require Import Prelude.

Definition in_range (lo hi : Z) (b : Byte.byte) : bool :=
  (lo <=? byte.unsigned b) && (byte.unsigned b <=? hi).

(** How many of the first [k] bytes are continuation bytes. *)
Fixpoint continuations (k : nat) (l : bytes) : nat :=
  match k, l with
  | S k, b :: l => if in_range 0x80 0xBF b then S (continuations k l) else O
  | _, _ => O
  end.

(** The range of the second byte and the number of bytes after the first one,
    for each lead byte. *)
Definition lead (b : Byte.byte) : option (Z * Z * nat) :=
  if in_range 0x00 0x7F b then Some (0, 0, 0%nat) else
  if in_range 0xC2 0xDF b then Some (0x80, 0xBF, 1%nat) else
  if in_range 0xE0 0xE0 b then Some (0xA0, 0xBF, 2%nat) else
  if in_range 0xED 0xED b then Some (0x80, 0x9F, 2%nat) else
  if in_range 0xE1 0xEF b then Some (0x80, 0xBF, 2%nat) else
  if in_range 0xF0 0xF0 b then Some (0x90, 0xBF, 3%nat) else
  if in_range 0xF4 0xF4 b then Some (0x80, 0x8F, 3%nat) else
  if in_range 0xF1 0xF3 b then Some (0x80, 0xBF, 3%nat) else None.

(** The first character of a non-empty list: whether it is well formed, and
    its bytes after the lead byte (of the maximal prefix, if it is not). *)
Definition utf8_step (b : Byte.byte) (l : bytes) : bool * nat :=
  match lead b with
  | None => (false, 0%nat)
  | Some (_, _, O) => (true, 0%nat)
  | Some (lo, hi, S k) =>
      match l with
      | b1 :: l1 =>
          if in_range lo hi b1 then
            let n := continuations k l1 in (bool_decide (n = k), S n)
          else (false, 0%nat)
      | [] => (false, 0%nat)
      end
  end.

(** Splits a text into characters and ill-formed prefixes. *)
Fixpoint utf8_chunks (fuel : nat) (l : bytes) : list (bool * bytes) :=
  match fuel, l with
  | S fuel, b :: l =>
      let '(ok, n) := utf8_step b l in (ok, b :: take n l) :: utf8_chunks fuel (drop n l)
  | _, _ => []
  end.

Definition utf8_valid (l : bytes) : bool := forallb fst (utf8_chunks (length l) l).
Definition from_utf8_lossy (l : bytes) : bytes :=
  concat (map (λ c : bool * bytes, if c.1 then c.2 else [Byte.xef; Byte.xbf; Byte.xbd])
            (utf8_chunks (length l) l)).

Lemma utf8_chunks_concat fuel l :
  (length l ≤ fuel)%nat → concat (map snd (utf8_chunks fuel l)) = l.
Proof.
  revert l. induction fuel as [|fuel IH]; intros [|b l] Hf; try done; [by cbn in Hf; lia|].
  cbn [utf8_chunks]. destruct (utf8_step b l) as [ok n]. cbn [map concat snd app].
  rewrite IH; [by rewrite take_drop|]. rewrite length_drop. cbn in Hf. lia.
Qed.

(** Well-formed text is not altered. *)
Lemma from_utf8_lossy_valid l : utf8_valid l = true → from_utf8_lossy l = l.
Proof.
  unfold utf8_valid, from_utf8_lossy. intros Hv.
  rewrite <- (utf8_chunks_concat (length l) l) at 3 by done.
  f_equal. revert Hv. generalize (utf8_chunks (length l) l). intros cs.
  induction cs as [|[ok c] cs IH]; [done|]. cbn. intros H. bool_props. destruct ok; [|done].
  f_equal. by apply IH.
Qed.

(** An ASCII character stands for itself. *)
Lemma utf8_lossy_ascii_cons n l :
  0 ≤ n < 128 → from_utf8_lossy (byte.of_Z n :: l) = byte.of_Z n :: from_utf8_lossy l.
Proof.
  intros Hn. unfold from_utf8_lossy. cbn [length utf8_chunks].
  assert (utf8_step (byte.of_Z n) l = (true, 0%nat)) as ->.
  { unfold utf8_step, lead, in_range. rewrite byte.unsigned_of_Z. unfold byte.wrap.
    rewrite Z.mod_small by lia. rewrite (proj2 (Z.leb_le 0x00 n)), (proj2 (Z.leb_le n 0x7F)) by lia.
    done. }
  done.
Qed.
