(* ===== verification/Ehash.v ===== *)
(** * Ehash: the value of a share

    [protocols/ehash/src]: the work a share proves ([work.rs]), share hashes
    ([share.rs]), locking keys ([locking_key.rs]) and the type bytes of the
    mint-quote protocol ([message_type.rs]).  A hash is a 32-byte list, most
    significant byte first. *)

From coqutil Require Import Word.LittleEndianList.
From S2P Require Import Prelude Datatypes Codec CodecFacts CodecTheorems.

(** ** Work *)

(** [u8::leading_zeros]. *)
Definition leading_zeros (byte : Byte.byte) : Z :=
  let v := byte.unsigned byte in if v =? 0 then 8 else 7 - Z.log2 v.

(** The loop of [calculate_difficulty], with its early exit. *)
Fixpoint difficulty_loop (hash : bytes) (count : Z) : Z :=
  match hash with
  | [] => count
  | byte :: hash =>
      if byte.unsigned byte =? 0 then difficulty_loop hash (count + 8)
      else count + leading_zeros byte
  end.
Definition calculate_difficulty (hash : bytes) : Z := difficulty_loop hash 0.

Definition calculate_ehash_amount (hash : bytes) (min_leading_zeros : Z) : Z :=
  let leading_zero_bits := calculate_difficulty hash in
  if leading_zero_bits <? min_leading_zeros then 0
  else
    let relative_difficulty := leading_zero_bits - min_leading_zeros in
    if 63 <=? relative_difficulty then Z.shiftl 1 63 else Z.shiftl 1 relative_difficulty.

(** ** Share hashes *)

Inductive ShareHashError : Type :=
  | ShareHashInvalidLength (actual : Z)
  | ShareHashInvalidEncoding.

Definition ShareHash_try_from (l : bytes) : result ShareHashError bytes :=
  if zlen l =? 32 then Ok l else Err (ShareHashInvalidLength (zlen l)).
Definition ShareHash_from_u256 (value : Inner) : result ShareHashError bytes :=
  ShareHash_try_from (inner_as_ref value).
Definition ShareHash_into_u256 (h : bytes) : result ShareHashError Inner :=
  map_err (λ _, ShareHashInvalidEncoding) (InnerOps.try_from_vec U256_params h).

(** [PubKey::from_bytes] decodes a fixed 32-byte field. *)
Definition PubKey_from_bytes (data : bytes) : result Error Inner :=
  v ← from_bytes (TPrim MU256) data;
  match v with VPrim (DU256 i) => Ok i | _ => Err DecodableConversionError end.
Definition ShareHash_from_pubkey (value : Inner) : result ShareHashError bytes :=
  ShareHash_try_from (inner_as_ref value).
Definition ShareHash_into_pubkey (h : bytes) : result ShareHashError Inner :=
  map_err (λ _, ShareHashInvalidEncoding) (pk ← PubKey_from_bytes h; Ok (into_static pk)).

(** ** Locking keys *)

Inductive LockingKeyError : Type :=
  | LockingKeyInvalidLength (channel_id length : Z)
  | LockingKeyParseError (channel_id : Z) (reason : Error).

(** [CompressedPubKey::from_bytes]: the type is an alias of [B0255]. *)
Definition CompressedPubKey_from_bytes (data : bytes) : result Error Inner :=
  v ← from_bytes (TPrim MB0255) data;
  match v with VPrim (DB0255 i) => Ok i | _ => Err DecodableConversionError end.

(** The 34-byte buffer gets the length prefix, then the key. *)
Definition parse_locking_key (l : bytes) (channel_id : Z) : result LockingKeyError Inner :=
  if negb (zlen l =? 33) then Err (LockingKeyInvalidLength channel_id (zlen l))
  else
    let encoded := replicate 34 (byte.of_Z 0) in
    let encoded := overwrite encoded 0 [byte.of_Z 33] in
    let encoded := overwrite encoded 1 l in
    map_err (LockingKeyParseError channel_id)
      (pk ← CompressedPubKey_from_bytes encoded; Ok (into_static pk)).

(** ** The mint-quote message types *)

Inductive MessageType : Type :=
  | T_MintQuoteRequest
  | T_MintQuoteResponse
  | T_MintQuoteError.

Inductive MessageTypeError : Type := InvalidMessageType (b : Z).

Definition MESSAGE_TYPE_MINT_QUOTE_REQUEST : Z := 0x80.
Definition MESSAGE_TYPE_MINT_QUOTE_RESPONSE : Z := 0x81.
Definition MESSAGE_TYPE_MINT_QUOTE_ERROR : Z := 0x82.

Definition MessageType_from_u8 (value : Z) : result MessageTypeError MessageType :=
  if value =? MESSAGE_TYPE_MINT_QUOTE_REQUEST then Ok T_MintQuoteRequest else
  if value =? MESSAGE_TYPE_MINT_QUOTE_RESPONSE then Ok T_MintQuoteResponse else
  if value =? MESSAGE_TYPE_MINT_QUOTE_ERROR then Ok T_MintQuoteError else
  Err (InvalidMessageType value).
Definition MessageType_as_u8 (t : MessageType) : Z :=
  match t with
  | T_MintQuoteRequest => MESSAGE_TYPE_MINT_QUOTE_REQUEST
  | T_MintQuoteResponse => MESSAGE_TYPE_MINT_QUOTE_RESPONSE
  | T_MintQuoteError => MESSAGE_TYPE_MINT_QUOTE_ERROR
  end.
Definition is_mint_quote_message (message_type : Z) : bool :=
  (message_type =? MESSAGE_TYPE_MINT_QUOTE_REQUEST) ||
  (message_type =? MESSAGE_TYPE_MINT_QUOTE_RESPONSE) ||
  (message_type =? MESSAGE_TYPE_MINT_QUOTE_ERROR).

(** * Properties of the ehash crate *)
(** ** Leading zeros and magnitude *)

(** The bits of the bytes already seen to be zero are in the count. *)
Lemma difficulty_loop_spec l count j :
  0 ≤ j →
  count + j ≤ difficulty_loop l count ↔
  j ≤ 8 * zlen l ∧ from_be_bytes l < 2 ^ (8 * zlen l - j).
Proof.
  revert count j. induction l as [|b l IH]; intros count j Hj.
  - change (zlen []) with 0. change (from_be_bytes []) with 0. cbn [difficulty_loop].
    destruct (decide (j = 0)) as [->|]; [|lia]. cbn. lia.
  - cbn [difficulty_loop]. rewrite from_be_bytes_cons, zlen_cons.
    pose proof (zlen_nonneg l). pose proof (from_be_bytes_range l) as Hr.
    pose proof (byte.unsigned_range b) as Hb. set (L := 8 * zlen l) in *.
    assert (0 < 2 ^ L) by (apply Z.pow_pos_nonneg; lia).
    destruct (Z.eqb_spec (byte.unsigned b) 0) as [->|Hnz].
    + destruct (Z.lt_ge_cases j 8).
      * specialize (IH (count + 8) 0). pose proof (Z.pow_le_mono_r 2 L (8 * (1 + zlen l) - j)).
        rewrite Z.sub_0_r in IH. lia.
      * specialize (IH (count + 8) (j - 8)).
        replace (8 * (1 + zlen l) - j) with (L - (j - 8)) by lia. lia.
    + unfold leading_zeros. rewrite (proj2 (Z.eqb_neq _ _) Hnz).
      pose proof (Z.log2_nonneg (byte.unsigned b)).
      destruct (Z.le_gt_cases j 8).
      * pose proof (Z.log2_lt_pow2 (byte.unsigned b) (8 - j)).
        replace (8 * (1 + zlen l) - j) with (L + (8 - j)) by lia.
        rewrite Z.pow_add_r by lia. nia.
      * assert (2 ^ (8 * (1 + zlen l) - j) ≤ 2 ^ L) by (apply Z.pow_le_mono_r; lia).
        nia.
Qed.
Lemma calculate_difficulty_spec l j :
  0 ≤ j →
  j ≤ calculate_difficulty l ↔ j ≤ 8 * zlen l ∧ from_be_bytes l < 2 ^ (8 * zlen l - j).
Proof. apply (difficulty_loop_spec l 0). Qed.

Lemma pow2_le_iff a b : 0 ≤ b → 2 ^ a ≤ 2 ^ b ↔ a ≤ b.
Proof. intros. rewrite <- Z.pow_le_mono_r_iff; lia. Qed.

Lemma ehash_amount_fits hash m : fits 64 (calculate_ehash_amount hash m).
Proof.
  unfold calculate_ehash_amount, fits. rewrite !Z.shiftl_1_l.
  repeat split_if; bool_props; [lia|lia|]. split; [lia|]. apply Z.pow_lt_mono_r; lia.
Qed.

(** ** The claims *)

(** C18 The value of a share, for every 32-byte hash and threshold: it is zero
    or a power of two up to 2^63, and it is at least 2^k exactly when the hash,
    read as a big-endian number, is below 2^(256 - threshold - k).  So the value
    doubles with each further leading zero bit, saturates at 2^63, and a
    numerically smaller hash is never worth less. *)
Theorem ehash_amount_spec hash min_leading_zeros :
  zlen hash = 32 → fits 32 min_leading_zeros →
  let amount := calculate_ehash_amount hash min_leading_zeros in
  (amount = 0 ∨ ∃ k, 0 ≤ k ≤ 63 ∧ amount = 2 ^ k) ∧
  (∀ k, 0 ≤ k ≤ 63 →
     2 ^ k ≤ amount ↔ from_be_bytes hash < 2 ^ (256 - min_leading_zeros - k)).
Proof.
  intros Hl [Hm _] amount. subst amount. unfold calculate_ehash_amount. rewrite !Z.shiftl_1_l.
  assert (Hj : ∀ j, 0 ≤ j → j ≤ calculate_difficulty hash ↔ from_be_bytes hash < 2 ^ (256 - j)).
  { intros j H. rewrite calculate_difficulty_spec, Hl by done. split; [tauto|]. intros Hn.
    split; [|done]. pose proof (from_be_bytes_range hash).
    destruct (Z.lt_ge_cases (256 - j) 0); [rewrite Z.pow_neg_r in Hn; lia|lia]. }
  set (d := calculate_difficulty hash) in *. split.
  - repeat split_if; bool_props; [by left|right; by exists 63|right].
    exists (d - min_leading_zeros). lia.
  - intros k Hk. replace (256 - min_leading_zeros - k) with (256 - (min_leading_zeros + k)) by lia.
    rewrite <- Hj by lia. pose proof (Z.pow_pos_nonneg 2 k).
    repeat split_if; bool_props; [lia| |]; rewrite pow2_le_iff; lia.
Qed.

Lemma ehash_amount_spec_witness :
  2 ^ 8 ≤ calculate_ehash_amount (replicate 5 Byte.x00 ++ replicate 27 Byte.xff) 32.
Proof.
  apply (ehash_amount_spec (replicate 5 Byte.x00 ++ replicate 27 Byte.xff) 32
    eq_refl ltac:(by vm_compute)); [lia|by vm_compute].
Defined.
