(* ===== verification/Keyset.v ===== *)
(** * Ehash: keysets

    [protocols/ehash/src/keyset.rs] and [sv2.rs]: the mint's signing keys as
    the Cashu development kit has them, as the domain type of the roles and as
    the byte string that travels over the wire.  The kit is not part of the
    repository: its types and functions are the fields of [Cdk]. *)

From S2P Require Import Prelude Datatypes Codec CodecFacts CodecTheorems Ehash.
From Stdlib Require Import Sorting.Sorted.

(** ** The Cashu development kit *)

Class Cdk : Type := {
  CdkId : Type;
  CdkPublicKey : Type;
  Nut02Error : Type;
  CdkKeyError : Type;
  (** [nut02::Id::to_bytes], [from_bytes] and [v1_from_keys] (the keys of a
      [BTreeMap], in order). *)
  id_to_bytes : CdkId → bytes;
  id_from_bytes : bytes → result Nut02Error CdkId;
  v1_from_keys : list (Z * CdkPublicKey) → CdkId;
  (** [PublicKey::to_bytes] and [from_slice]. *)
  pk_to_bytes : CdkPublicKey → bytes;
  pk_from_slice : bytes → result CdkKeyError CdkPublicKey }.

(** Documented behaviour the conversions rely on: a public key is serialized
    in the 33-byte compressed form, with the prefix 02 or 03, version-1
    identifiers have 8 bytes, both read back what they wrote, and parsing a key
    reports failure as an error. *)
Class CdkLaws `{Cdk} : Prop := {
  pk_compressed : ∀ k, ∃ b l, pk_to_bytes k = b :: l ∧ zlen l = 32 ∧
    (b = Byte.x02 ∨ b = Byte.x03);
  pk_total : ∀ l, pk_from_slice l ≠ Panic;
  pk_roundtrip : ∀ k, pk_from_slice (pk_to_bytes k) = Ok k;
  id_roundtrip : ∀ i, zlen (id_to_bytes i) = 8 → id_from_bytes (id_to_bytes i) = Ok i;
  v1_id_length : ∀ m, zlen (id_to_bytes (v1_from_keys m)) = 8 }.

(** A [BTreeMap] as its entries in ascending order of the key. *)
Fixpoint btree_insert {A} (k : Z) (v : A) (m : list (Z * A)) : list (Z * A) :=
  match m with
  | [] => [(k, v)]
  | (k', v') :: m' =>
      if k <? k' then (k, v) :: m
      else if k =? k' then (k, v) :: m'
      else (k', v') :: btree_insert k v m'
  end.

(** The array conversions of the source: 8 bytes, zero padded on the right; a
    longer source slice panics in the range index. *)
Definition pad8 {E} (l : bytes) : result E bytes :=
  if zlen l <=? 8 then Ok (overwrite (replicate 8 (byte.of_Z 0)) 0 l) else Panic.

(** ** Types *)

(** [SigningKey]; the wire type [Sv2SigningKey] has the same fields. *)
Record SigningKey : Type := mkSigningKey {
  amount : Z;
  parity_bit : bool;
  pubkey : Inner }.

(** The derived codec of [Sv2SigningKey]. *)
Definition Sv2SigningKey : sv2_type :=
  TStruct [("amount", TPrim MU64); ("parity_bit", TPrim MBool); ("pubkey", TPrim MU256)]%string.
Definition signing_value (k : SigningKey) : sv2_value :=
  VStruct [VPrim (DU64 (amount k)); VPrim (DBool (parity_bit k)); VPrim (DU256 (pubkey k))].
Definition signing_of_value (v : sv2_value) : result Error SigningKey :=
  match v with
  | VStruct [VPrim (DU64 a); VPrim (DBool b); VPrim (DU256 k)] => Ok (mkSigningKey a b k)
  | _ => Err DecodableConversionError
  end.
(** [Sv2SigningKey::into_static], and [From<&Sv2SigningKey> for SigningKey]. *)
Definition signing_into_static (k : SigningKey) : SigningKey :=
  mkSigningKey (amount k) (parity_bit k) (into_static (pubkey k)).

Definition Sv2SigningKey_default : SigningKey :=
  mkSigningKey 0 false (Owned (replicate 32 (byte.of_Z 0))).

Definition KEY_SIZE : Z := 41.
Definition NUM_KEYS : Z := 64.

Record Sv2KeySetWire : Type := mkSv2KeySetWire { wire_id : Z; wire_keys : Inner }.
Record Sv2KeySet : Type := mkSv2KeySet { keyset_id : Z; keyset_keys : list SigningKey }.

Definition Sv2KeySet_default : Sv2KeySet :=
  mkSv2KeySet 0 (replicate 64 Sv2SigningKey_default).

Section cdk.
Context `{Cdk}.

(** [KeySet] of the kit. *)
Record KeySet : Type := mkKeySet {
  cdk_id : CdkId;
  cdk_unit : string;
  cdk_keys : list (Z * CdkPublicKey);
  cdk_final_expiry : option Z }.

Inductive KeyFailure : Type :=
  | Sv2PublicKeyParse
  | KeyAt (i : Z) (e : CdkKeyError).
Inductive KeysetConversionError : Type :=
  | InvalidKeysetId (e : Nut02Error)
  | InvalidKeyCount (n : Z)
  | InvalidPublicKey (reason : KeyFailure).

(** ** Identifiers *)

(** [From<KeysetId> for u64] and [TryFrom<u64> for KeysetId]. *)
Definition KeysetId_into_u64 {E} (id : CdkId) : result E Z :=
  array ← pad8 (id_to_bytes id); Ok (from_be_bytes array).
Definition KeysetId_try_from (value : Z) : result Nut02Error CdkId :=
  id_from_bytes (to_be_bytes 8 value).

Definition keyset_from_sv2_bytes (l : bytes) : result Nut02Error CdkId :=
  if zlen l =? 0 then id_from_bytes (replicate 8 (byte.of_Z 0))
  else if negb (existsb (λ b, negb (byte.unsigned b =? 0)) l)
  then id_from_bytes (replicate 8 (byte.of_Z 0))
  else if (zlen l =? 8) || (zlen l =? 33) then id_from_bytes l
  else if 8 <=? zlen l then
    tail ← slice_from l (zlen l - 8); id_from_bytes tail
  else temp ← pad8 l; id_from_bytes temp.

(** ** Keys *)

(** One turn of the loop of [signing_keys_from_cdk]. *)
Definition signing_key_from_cdk (entry : Z * CdkPublicKey)
    : result KeysetConversionError SigningKey :=
  '(parity_byte, pubkey_data) ← split_at (pk_to_bytes entry.2) 1;
  parity ← unwrap (head parity_byte);
  pk ← map_err (λ _, InvalidPublicKey Sv2PublicKeyParse) (PubKey_from_bytes pubkey_data);
  Ok (mkSigningKey entry.1 (byte.unsigned parity =? 0x03) (into_static pk)).
Definition signing_keys_from_cdk (keyset : KeySet)
    : result KeysetConversionError (list SigningKey) :=
  sv2_keys ← mapR signing_key_from_cdk (cdk_keys keyset);
  if zlen sv2_keys =? 64 then Ok sv2_keys else Err (InvalidKeyCount (zlen sv2_keys)).

Fixpoint signing_keys_loop (i : Z) (keys : list SigningKey) (map : list (Z * CdkPublicKey))
    : result KeysetConversionError (list (Z * CdkPublicKey)) :=
  match keys with
  | [] => Ok map
  | k :: keys =>
      data ← (if zlen (inner_as_ref (pubkey k)) =? 32 then Ok (inner_as_ref (pubkey k)) else Panic);
      pk ← map_err (λ e, InvalidPublicKey (KeyAt i e))
        (pk_from_slice ((if parity_bit k then Byte.x03 else Byte.x02) :: data));
      signing_keys_loop (i + 1) keys (btree_insert (amount k) pk map)
  end.
Definition signing_keys_to_cdk (keys : list SigningKey)
    : result KeysetConversionError (list (Z * CdkPublicKey)) :=
  signing_keys_loop 0 keys [].

Definition calculate_keyset_id {E} (keys : list SigningKey) : result E Z :=
  match signing_keys_to_cdk keys with
  | Ok keys_map =>
      padded ← pad8 (id_to_bytes (v1_from_keys keys_map)); Ok (from_be_bytes padded)
  | Err _ => Ok 0
  | Panic => Panic
  end.

Definition build_cdk_keyset (keyset_id : Z) (signing_keys : list SigningKey)
    : result KeysetConversionError KeySet :=
  id ← map_err InvalidKeysetId (KeysetId_try_from keyset_id);
  keys ← signing_keys_to_cdk signing_keys;
  Ok (mkKeySet id "HASH"%string keys None).

(** ** Wire form *)

Fixpoint chunks (fuel : nat) (n : Z) (l : bytes) : list bytes :=
  match fuel, l with
  | S fuel, _ :: _ => ztake n l :: chunks fuel n (zdrop n l)
  | _, _ => []
  end.

(** [TryFrom<Sv2KeySetWire> for [Sv2SigningKey; 64]]. *)
Definition key_from_chunk (chunk : bytes) : result Error SigningKey :=
  map_err (λ _, DecodableConversionError)
    (v ← from_bytes Sv2SigningKey chunk; k ← signing_of_value v; Ok (signing_into_static k)).
Definition keys_try_from_wire (wire : Sv2KeySetWire) : result Error (list SigningKey) :=
  let raw := inner_as_ref (wire_keys wire) in
  if negb (zlen raw =? KEY_SIZE * NUM_KEYS) then Err DecodableConversionError
  else mapR key_from_chunk (chunks (length raw) KEY_SIZE raw).

(** [TryFrom<&[Sv2SigningKey; 64]> for Sv2KeySetWire]: each key is encoded
    into its window of the buffer. *)
Fixpoint encode_keys (overflow_checks : bool) (i : Z) (keys : list SigningKey) (buffer : bytes)
    : result Error bytes :=
  match keys with
  | [] => Ok buffer
  | key :: keys =>
      let start := i * KEY_SIZE in
      window ← slice_range buffer start (start + KEY_SIZE);
      let '(r, window) := to_bytes_into overflow_checks (signing_value key) window in
      _ ← map_err (λ _, DecodableConversionError) r;
      encode_keys overflow_checks (i + 1) keys (overwrite buffer start window)
  end.
Definition wire_try_from_keys (overflow_checks : bool) (keys : list SigningKey)
    : result Error Sv2KeySetWire :=
  buffer ← encode_keys overflow_checks 0 keys
    (replicate (Z.to_nat (KEY_SIZE * NUM_KEYS)) (byte.of_Z 0));
  encoded_keys ← map_err (λ _, DecodableConversionError)
    (InnerOps.try_from_vec B064K_params buffer);
  id ← calculate_keyset_id (map signing_into_static keys);
  Ok (mkSv2KeySetWire id encoded_keys).

(** [From<Sv2KeySet> for Sv2KeySetWire], with its [expect]. *)
Definition wire_from_keyset (overflow_checks : bool) (domain : Sv2KeySet)
    : result Error Sv2KeySetWire :=
  match wire_try_from_keys overflow_checks (keyset_keys domain) with
  | Ok wire => Ok wire
  | _ => Panic
  end.
(** [TryFrom<Sv2KeySetWire> for Sv2KeySet]. *)
Definition keyset_try_from_wire (wire : Sv2KeySetWire) : result Error Sv2KeySet :=
  keys ← keys_try_from_wire wire; Ok (mkSv2KeySet (wire_id wire) keys).

(** ** Conversion from and to the kit's keyset *)

Definition Sv2KeySet_try_from (value : KeySet) : result KeysetConversionError Sv2KeySet :=
  signing_keys ← signing_keys_from_cdk value;
  id ← KeysetId_into_u64 (cdk_id value);
  if zlen signing_keys =? 64 then Ok (mkSv2KeySet id signing_keys) else Err (InvalidKeyCount 0).
Definition KeySet_try_from (value : Sv2KeySet) : result KeysetConversionError KeySet :=
  let signing_keys := map signing_into_static (keyset_keys value) in
  if zlen signing_keys =? 64 then build_cdk_keyset (keyset_id value) signing_keys
  else Err (InvalidKeyCount 0).
End cdk.

(** * Properties of keyset conversions *)

(** ** Facts *)

Lemma pad8_full {E} l : zlen l = 8 → pad8 (E := E) l = Ok l.
Proof.
  intros Hl. unfold pad8. rewrite Hl, Z.leb_refl. f_equal.
  pose proof (overwrite_app [] (replicate 8 (byte.of_Z 0)) [] l) as Ho.
  rewrite !app_nil_r in Ho. apply Ho. by rewrite zlen_replicate.
Qed.

Lemma PubKey_from_bytes_ok l : zlen l = 32 → PubKey_from_bytes l = Ok (Ref l).
Proof.
  intros Hl. pose proof (from_bytes_spec (TPrim MU256) (VPrim (DU256 (Ref l))) [] eq_refl) as Hd.
  replace (val_bytes (VPrim (DU256 (Ref l))) ++ []) with l in Hd
    by (unfold val_bytes, fields_bytes; cbn; by rewrite !app_nil_r).
  unfold PubKey_from_bytes. rewrite Hd; [done|]. by constructor.
Qed.

(** A key the Rust types allow. *)
Definition key_ok (k : SigningKey) : Prop :=
  fits 64 (amount k) ∧ zlen (inner_as_ref (pubkey k)) = 32.

Lemma key_typed k : key_ok k → typed Sv2SigningKey (signing_value k).
Proof. intros [Ha Hp]. repeat constructor; done || apply Ha. Qed.
Lemma key_size k : get_size (signing_value k) = zlen (val_bytes (signing_value k)).
Proof. apply get_size_spec. Qed.
Lemma key_bytes k :
  val_bytes (signing_value k) =
    to_le_bytes 8 (amount k) ++ [byte.of_Z (if parity_bit k then 1 else 0)]
    ++ inner_as_ref (pubkey k).
Proof. unfold val_bytes, fields_bytes. cbn. by rewrite app_nil_r. Qed.
Lemma key_bytes_length k : key_ok k → zlen (val_bytes (signing_value k)) = KEY_SIZE.
Proof. intros [_ Hp]. rewrite key_bytes. unfold KEY_SIZE. len_solve. Qed.

Lemma key_from_chunk_spec k :
  key_ok k → key_from_chunk (val_bytes (signing_value k)) = Ok (signing_into_static k).
Proof.
  intros Hk. unfold key_from_chunk. rewrite from_bytes_exact by (done || by apply key_typed).
  by destruct k as [? ? []].
Qed.

(** The wire form of a list of keys. *)
Definition keys_bytes (keys : list SigningKey) : bytes :=
  concat (map (λ k, val_bytes (signing_value k)) keys).
Lemma keys_bytes_length keys : Forall key_ok keys → zlen (keys_bytes keys) = KEY_SIZE * zlen keys.
Proof.
  induction 1 as [|k keys Hk _ IH]; [done|]. unfold keys_bytes in *. cbn [map concat].
  rewrite zlen_app, zlen_cons, key_bytes_length, IH by done. lia.
Qed.

Lemma encode_keys_spec chk i keys pre post :
  Forall key_ok keys → 0 ≤ i → zlen pre = i * KEY_SIZE → zlen post = KEY_SIZE * zlen keys →
  encode_keys chk i keys (pre ++ post) = Ok (pre ++ keys_bytes keys).
Proof.
  intros Hks. revert i pre post. induction Hks as [|k keys Hk Hks IH]; intros i pre post Hi Hp Hq.
  - destruct post; [done|]. rewrite zlen_cons in Hq. pose proof (zlen_nonneg post).
    change (zlen []) with 0 in Hq. lia.
  - cbn [encode_keys]. rewrite zlen_cons in Hq. pose proof (zlen_nonneg keys).
    rewrite <- (ztake_zdrop KEY_SIZE post).
    assert (Hw : zlen (ztake KEY_SIZE post) = KEY_SIZE)
      by (apply zlen_take; unfold KEY_SIZE in *; lia).
    rewrite (slice_range_mid pre (ztake KEY_SIZE post)) by lia. cbn [mbind result_bind].
    pose proof (to_bytes_into_fits chk _ _ (ztake KEY_SIZE post) [] (key_typed k Hk) eq_refl) as He.
    rewrite !app_nil_r in He. rewrite He by (by rewrite key_size, key_bytes_length).
    cbn [map_err mbind result_bind].
    rewrite <- Hp, overwrite_app by (by rewrite key_bytes_length).
    rewrite app_assoc, IH; [| lia | | ].
    + unfold keys_bytes. cbn [map concat]. by rewrite app_assoc.
    + rewrite zlen_app, key_bytes_length by done. lia.
    + rewrite zlen_drop by (unfold KEY_SIZE in *; lia). lia.
Qed.

Lemma chunks_keys fuel keys :
  Forall key_ok keys → zlen keys ≤ Z.of_nat fuel →
  chunks fuel KEY_SIZE (keys_bytes keys) = map (λ k, val_bytes (signing_value k)) keys.
Proof.
  intros Hks. revert fuel. induction Hks as [|k keys Hk Hks IH]; intros fuel Hf.
  - by destruct fuel.
  - rewrite zlen_cons in Hf. pose proof (zlen_nonneg keys). destruct fuel as [|fuel]; [lia|].
    pose proof (key_bytes_length k Hk) as Hl. unfold keys_bytes in *. cbn [map concat chunks].
    destruct (val_bytes (signing_value k) ++ _) eqn:E.
    + apply (f_equal zlen) in E. rewrite zlen_app, Hl in E.
      pose proof (zlen_nonneg (concat (map (λ k, val_bytes (signing_value k)) keys))).
      change (zlen []) with 0 in E. unfold KEY_SIZE in E. lia.
    + rewrite <- E. by rewrite ztake_app, zdrop_app, IH by (done || lia).
Qed.

Lemma signing_into_static_idem k : signing_into_static (signing_into_static k) = signing_into_static k.
Proof. by destruct k as [? ? []]. Qed.
Lemma static_key_ok k : key_ok k → key_ok (signing_into_static k).
Proof. by destruct k as [? ? []]. Qed.
Lemma static_keys_ok keys : Forall key_ok keys → Forall key_ok (map signing_into_static keys).
Proof. induction 1; cbn [map]; constructor; auto using static_key_ok. Qed.
Lemma static_key_bytes k :
  val_bytes (signing_value (signing_into_static k)) = val_bytes (signing_value k).
Proof. rewrite !key_bytes. by destruct k as [? ? []]. Qed.
Lemma static_keys_bytes keys : keys_bytes (map signing_into_static keys) = keys_bytes keys.
Proof.
  unfold keys_bytes. f_equal. rewrite map_map. apply map_ext. intros. apply static_key_bytes.
Qed.

Section cdk.
Context `{Cdk} `{!CdkLaws}.

Lemma signing_keys_loop_no_panic i keys m :
  Forall key_ok keys → signing_keys_loop i keys m ≠ Panic.
Proof.
  intros Hks. revert i m. induction Hks as [|k keys [_ Hl] _ IH]; intros i m; [done|].
  cbn [signing_keys_loop]. rewrite Hl, Z.eqb_refl. cbn [mbind result_bind].
  destruct (pk_from_slice _) eqn:E; cbn; [apply IH|done|by destruct (pk_total _ E)].
Qed.

(** The identifier the conversion to the wire form computes: that of the keys,
    or 0 when one of them is not a curve point. *)
Definition recomputed_id (keys : list SigningKey) : Z :=
  match signing_keys_to_cdk keys with
  | Ok m => from_be_bytes (id_to_bytes (v1_from_keys m))
  | _ => 0
  end.
Lemma calculate_keyset_id_spec {E} keys :
  Forall key_ok keys →
  calculate_keyset_id (E := E) keys = Ok (recomputed_id keys).
Proof.
  intros Hks. unfold calculate_keyset_id, recomputed_id.
  destruct (signing_keys_to_cdk keys) eqn:Es; [|done|].
  - by rewrite pad8_full by apply v1_id_length.
  - by destruct (signing_keys_loop_no_panic 0 keys [] Hks).
Qed.

Lemma wire_try_from_keys_spec chk keys :
  Forall key_ok keys → zlen keys = 64 →
  wire_try_from_keys chk keys =
  Ok (mkSv2KeySetWire (recomputed_id (map signing_into_static keys)) (Owned (keys_bytes keys))).
Proof.
  intros Hks Hl. unfold wire_try_from_keys.
  pose proof (encode_keys_spec chk 0 keys [] (replicate (Z.to_nat (KEY_SIZE * NUM_KEYS)) (byte.of_Z 0))
    Hks) as He. cbn [app] in He. rewrite He; [|lia|done|].
  2: { rewrite zlen_replicate, Hl. unfold KEY_SIZE, NUM_KEYS. lia. }
  cbn [mbind result_bind]. unfold InnerOps.try_from_vec. cbn [ISFIXED B064K_params MAXSIZE andb].
  rewrite keys_bytes_length, Hl by done. cbn [Z.mul KEY_SIZE Pos.mul Z.leb Z.compare].
  rewrite (proj2 (Z.leb_le _ _)) by (unfold KEY_SIZE; lia). cbn [map_err mbind result_bind].
  by rewrite calculate_keyset_id_spec by (by apply static_keys_ok).
Qed.

Lemma keys_try_from_wire_spec id keys :
  Forall key_ok keys → zlen keys = 64 →
  keys_try_from_wire (mkSv2KeySetWire id (Owned (keys_bytes keys)))
  = Ok (map signing_into_static keys).
Proof.
  intros Hks Hl. unfold keys_try_from_wire. cbn [inner_as_ref wire_keys].
  assert (Hb : zlen (keys_bytes keys) = KEY_SIZE * NUM_KEYS)
    by (by rewrite keys_bytes_length, Hl).
  rewrite (proj2 (Z.eqb_eq _ _) Hb). cbn [negb].
  rewrite chunks_keys; [|done|unfold zlen, KEY_SIZE, NUM_KEYS in *; lia].
  clear Hl Hb. induction Hks as [|k keys Hk _ IH]; [done|].
  cbn [map mapR]. by rewrite key_from_chunk_spec, IH by done.
Qed.

(** ** Conversion from the kit *)

Definition signing_key_of (e : Z * CdkPublicKey) : SigningKey :=
  mkSigningKey e.1 (bool_decide (head (pk_to_bytes e.2) = Some Byte.x03))
    (Owned (tail (pk_to_bytes e.2))).

Lemma signing_key_from_cdk_spec e : signing_key_from_cdk e = Ok (signing_key_of e).
Proof.
  destruct e as [a k]. unfold signing_key_from_cdk, signing_key_of. cbn [fst snd].
  destruct (pk_compressed k) as (b & l & -> & Hl & Hb).
  rewrite split_at_ok by (rewrite zlen_cons; lia). cbn [mbind result_bind].
  change (ztake 1 (b :: l)) with [b]. change (zdrop 1 (b :: l)) with l.
  cbn [head unwrap mbind result_bind]. rewrite PubKey_from_bytes_ok by done.
  cbn [map_err mbind result_bind into_static tail]. by destruct Hb as [-> | ->].
Qed.

Lemma signing_key_bytes e :
  (if parity_bit (signing_key_of e) then Byte.x03 else Byte.x02)
    :: inner_as_ref (pubkey (signing_key_of e)) = pk_to_bytes e.2.
Proof.
  destruct e as [a k]. unfold signing_key_of. cbn [fst snd parity_bit pubkey inner_as_ref].
  destruct (pk_compressed k) as (b & l & -> & Hl & [-> | ->]); done.
Qed.
Lemma signing_key_length e : zlen (inner_as_ref (pubkey (signing_key_of e))) = 32.
Proof.
  unfold signing_key_of. cbn [pubkey inner_as_ref].
  destruct (pk_compressed e.2) as (b & l & -> & Hl & _). done.
Qed.

(** Inserting an entry above all others appends it. *)
Lemma btree_insert_last {A} k (v : A) m :
  Forall (λ e, e.1 < k) m → btree_insert k v m = m ++ [(k, v)].
Proof.
  induction 1 as [|[k' v'] m Hk _ IH]; [done|]. cbn [btree_insert fst] in *.
  rewrite (proj2 (Z.ltb_ge _ _)), (proj2 (Z.eqb_neq _ _)) by lia. by rewrite IH.
Qed.

Lemma signing_keys_loop_spec i es m :
  StronglySorted (λ a b, a.1 < b.1) (m ++ es) →
  signing_keys_loop i (map signing_key_of es) m = Ok (m ++ es).
Proof.
  revert i m. induction es as [|e es IH]; intros i m Hs; [by rewrite app_nil_r|].
  cbn [map signing_keys_loop]. rewrite signing_key_length, Z.eqb_refl. cbn [mbind result_bind].
  rewrite signing_key_bytes, pk_roundtrip. cbn [map_err mbind result_bind].
  change (amount (signing_key_of e)) with e.1. rewrite btree_insert_last.
  - destruct e as [a k]. cbn [fst snd]. rewrite IH; rewrite <- app_assoc; done.
  - clear IH. induction m as [|x m IHm]; [done|]. inversion Hs as [|? ? Hs' Hx]; subst.
    apply Forall_app in Hx as [_ Hx]. inversion Hx; subst. constructor; auto.
Qed.
End cdk.

(** ** The claims *)

(** Keyset round trip through the domain type: a Cashu keyset with 64
    signing keys (a [BTreeMap], so in ascending order of the amount) and an
    8-byte identifier converts to an [Sv2KeySet] and back to a keyset with the
    same identifier and the same keys.  The unit and the expiry are not carried:
    they come back as HASH and none. *)
Theorem keyset_cdk_roundtrip `{Cdk} `{!CdkLaws} (ks : KeySet) :
  zlen (id_to_bytes (cdk_id ks)) = 8 → zlen (cdk_keys ks) = 64 →
  StronglySorted (λ a b, a.1 < b.1) (cdk_keys ks) →
  ∃ sv2, Sv2KeySet_try_from ks = Ok sv2 ∧
    KeySet_try_from sv2 = Ok (mkKeySet (cdk_id ks) "HASH"%string (cdk_keys ks) None).
Proof.
  intros Hid Hn Hs. destruct ks as [id unit keys exp]; cbn [cdk_id cdk_keys] in *.
  exists (mkSv2KeySet (from_be_bytes (id_to_bytes id)) (map signing_key_of keys)). split.
  - unfold Sv2KeySet_try_from, signing_keys_from_cdk, KeysetId_into_u64. cbn [cdk_keys cdk_id].
    rewrite (mapR_ext_Ok _ signing_key_of)
      by (apply Forall_true; intros; apply signing_key_from_cdk_spec).
    cbn [mbind result_bind]. rewrite zlen_fmap, Hn. cbn [Z.eqb Pos.eqb mbind result_bind].
    rewrite pad8_full by done. cbn [mbind result_bind]. by rewrite zlen_fmap, Hn.
  - unfold KeySet_try_from, build_cdk_keyset, KeysetId_try_from. cbn [keyset_keys keyset_id].
    replace (map signing_into_static (map signing_key_of keys)) with (map signing_key_of keys)
      by (rewrite map_map; apply map_ext; by intros []).
    rewrite zlen_fmap, Hn. cbn [Z.eqb Pos.eqb].
    replace 8%nat with (length (id_to_bytes id)) by (unfold zlen in Hid; lia).
    rewrite to_from_be_bytes, id_roundtrip by done. cbn [map_err mbind result_bind].
    unfold signing_keys_to_cdk. by rewrite (signing_keys_loop_spec 0 keys []).
Qed.

(** Keyset round trip over the wire: 64 well-formed keys always encode, the
    receiver decodes the same keys and re-encodes them to the same wire message.
    The identifier is not the one of the sender's domain value: it is recomputed
    from the keys, and is 0 if one of them is not a valid point. *)
Theorem keyset_wire_roundtrip `{Cdk} `{!CdkLaws} (chk : bool) (id : Z) (keys : list SigningKey) :
  Forall key_ok keys → zlen keys = 64 →
  let id' := recomputed_id (map signing_into_static keys) in
  let received := mkSv2KeySet id' (map signing_into_static keys) in
  ∃ wire, wire_from_keyset chk (mkSv2KeySet id keys) = Ok wire ∧
    keyset_try_from_wire wire = Ok received ∧
    wire_from_keyset chk received = Ok wire.
Proof.
  intros Hks Hl id' received. exists (mkSv2KeySetWire id' (Owned (keys_bytes keys))).
  unfold wire_from_keyset, keyset_try_from_wire. subst received. cbn [keyset_keys].
  rewrite !wire_try_from_keys_spec, keys_try_from_wire_spec by
    (done || by apply static_keys_ok || by rewrite zlen_fmap).
  split_and!; [done..|]. rewrite static_keys_bytes, map_map.
  by rewrite (map_ext _ _ signing_into_static_idem).
Qed.

(** ** A small kit for the witnesses

    Public keys are the two points with one fixed coordinate, identifiers are
    byte strings. *)

Definition toy_point (odd : bool) : bytes :=
  (if odd then Byte.x03 else Byte.x02) :: replicate 32 Byte.x11.
#[local] Instance toy_cdk : Cdk := {|
  CdkId := bytes;
  CdkPublicKey := bool;
  Nut02Error := unit;
  CdkKeyError := unit;
  id_to_bytes := λ i, i;
  id_from_bytes := λ l, Ok l;
  v1_from_keys := λ m, to_be_bytes 8 (zlen m);
  pk_to_bytes := toy_point;
  pk_from_slice := λ l,
    if bool_decide (l = toy_point true) then Ok true
    else if bool_decide (l = toy_point false) then Ok false else Err tt |}.
#[local] Instance toy_cdk_laws : CdkLaws.
Proof.
  split.
  - intros k. exists (if k then Byte.x03 else Byte.x02), (replicate 32 Byte.x11).
    by destruct k; auto.
  - intros l. cbn. repeat case_bool_decide; discriminate.
  - by intros [].
  - done.
  - intros m. cbn. unfold zlen. by rewrite to_be_bytes_length.
Defined.

Definition power_keys (i n : nat) : list (Z * bool) :=
  map (λ i, (2 ^ Z.of_nat i, Nat.odd i)) (seq i n).
Definition toy_keyset : KeySet :=
  mkKeySet (to_be_bytes 8 77) "HASH"%string (power_keys 0 64) None.
Lemma power_keys_sorted i n : StronglySorted (λ a b, a.1 < b.1) (power_keys i n).
Proof.
  revert i. induction n as [|n IH]; intros i; [constructor|]. constructor; [apply IH|].
  apply Forall_fmap, List.Forall_forall. intros j Hj. apply in_seq in Hj. cbn.
  apply Z.pow_lt_mono_r; lia.
Qed.

Lemma keyset_cdk_roundtrip_witness :
  ∃ sv2, Sv2KeySet_try_from toy_keyset = Ok sv2 ∧ KeySet_try_from sv2 = Ok toy_keyset.
Proof.
  apply (keyset_cdk_roundtrip toy_keyset); [by vm_compute|by vm_compute|].
  apply power_keys_sorted.
Defined.

Lemma keyset_wire_roundtrip_witness :
  ∃ wire, wire_from_keyset true (mkSv2KeySet 5 (replicate 64 Sv2SigningKey_default)) = Ok wire ∧
    wire_id wire = 0.
Proof.
  destruct (keyset_wire_roundtrip true 5 (replicate 64 Sv2SigningKey_default))
    as (wire & E & D & _); [by apply Forall_replicate|done|].
  exists wire. split; [done|]. revert D. unfold keyset_try_from_wire.
  destruct (keys_try_from_wire wire); cbn [mbind result_bind]; [|done..].
  intros [= -> _]. by vm_compute.
Defined.
