(* ===== verification/Quote.v ===== *)
(** * Ehash: mint quotes

    [protocols/ehash/src/quote.rs]: building the quote request for a share,
    parsing a received request and answering it. *)

From S2P Require Import Prelude Datatypes Codec CodecFacts CodecTheorems Messages Utf8 Ehash Keyset.

(** [mint_quote_sv2::MintQuoteRequest], with its derived codec below. *)
Record MintQuoteRequest : Type := mkMintQuoteRequest {
  q_amount : Z;
  q_unit : Inner;
  q_header_hash : Inner;
  q_description : list DecodablePrimitive;   (** an [Sv2Option<Str0255>] *)
  q_locking_key : Inner }.
Definition request_value (r : MintQuoteRequest) : sv2_value :=
  VStruct [VPrim (DU64 (q_amount r)); VPrim (DB0255 (q_unit r)); VPrim (DU256 (q_header_hash r));
           VOption (q_description r); VPrim (DB0255 (q_locking_key r))].
Definition request_of_value (v : sv2_value) : result Error MintQuoteRequest :=
  match v with
  | VStruct [VPrim (DU64 a); VPrim (DB0255 u); VPrim (DU256 h); VOption d; VPrim (DB0255 k)] =>
      Ok (mkMintQuoteRequest a u h d k)
  | _ => Err DecodableConversionError
  end.

Record MintQuoteResponse : Type := mkMintQuoteResponse {
  r_quote_id : Inner;
  r_header_hash : Inner }.

Inductive QuoteBuildError : Type :=
  | BuildInvalidUnit (e : Error)
  | BuildInvalidHeaderHash (e : Error)
  | InvalidHeaderHashLength (n : Z).
Inductive HeaderHashError : Type := HeaderHashInvalidLength (n : Z).
Inductive QuoteParseError : Type :=
  | ParseDecode (e : Error)
  | ParseShareHash (e : ShareHashError)
  | ParseInvalidUnit (e : Error)
  | ParseInvalidDescription (e : Error).
Inductive QuoteConversionError : Type :=
  | ConversionShareHash (e : ShareHashError)
  | InvalidQuoteId (e : Error).

Definition HASH_UNIT : bytes := String.list_byte_of_string "HASH"%string.

Definition build_mint_quote_request (amount : Z) (header_hash : bytes) (locking_key : Inner)
    : result QuoteBuildError MintQuoteRequest :=
  if negb (zlen header_hash =? 32) then Err (InvalidHeaderHashLength (zlen header_hash))
  else
    unit ← map_err BuildInvalidUnit (InnerOps.try_from_vec B0255_params HASH_UNIT);
    header_hash ← map_err BuildInvalidHeaderHash (InnerOps.try_from_vec U256_params header_hash);
    Ok (mkMintQuoteRequest amount unit header_hash [] locking_key).

Definition validate_header_hash (header_hash : bytes) : result HeaderHashError bytes :=
  if negb (zlen header_hash =? 32) then Err (HeaderHashInvalidLength (zlen header_hash))
  else Ok header_hash.

(** [into_static_request]. *)
Definition static_description (d : list DecodablePrimitive)
    : result QuoteParseError (list DecodablePrimitive) :=
  o ← map_err ParseDecode (Sv2Option_into_inner d);
  match o with
  | Some (DB0255 desc) =>
      inner ← map_err ParseInvalidDescription
        (InnerOps.try_from_vec B0255_params (inner_as_ref desc));
      Ok [DB0255 inner]
  | Some _ => Err (ParseDecode DecodableConversionError)
  | None => Ok []
  end.
Definition into_static_request (request : MintQuoteRequest) (share_hash : bytes)
    : result QuoteParseError MintQuoteRequest :=
  unit ← map_err ParseInvalidUnit
    (InnerOps.try_from_vec B0255_params (inner_as_ref (q_unit request)));
  description ← static_description (q_description request);
  let locking_key := into_static (q_locking_key request) in
  header_hash ← map_err ParseShareHash (ShareHash_into_u256 share_hash);
  Ok (mkMintQuoteRequest (q_amount request) unit header_hash description locking_key).

(** [ParsedMintQuoteRequest]. *)
Record ParsedMintQuoteRequest : Type := mkParsed {
  request : MintQuoteRequest;
  share_hash : bytes }.
Definition parse_mint_quote_request (payload : bytes)
    : result QuoteParseError ParsedMintQuoteRequest :=
  parsed_request ← map_err ParseDecode
    (v ← from_bytes MintQuoteSv2.MintQuoteRequest payload; request_of_value v);
  share_hash ← map_err ParseShareHash (ShareHash_from_u256 (q_header_hash parsed_request));
  request ← into_static_request parsed_request share_hash;
  Ok (mkParsed request share_hash).

(** [mint_quote_response_from_cdk]; the quote enters as the text of
    its id. *)
Definition mint_quote_response_from_cdk (share_hash : bytes) (quote_id : bytes)
    : result QuoteConversionError MintQuoteResponse :=
  quote_id ← map_err InvalidQuoteId
    (InnerOps.try_from_vec B0255_params quote_id);
  header_hash ← map_err ConversionShareHash (ShareHash_into_u256 share_hash);
  Ok (mkMintQuoteResponse quote_id header_hash).

(** The 32-byte hash type of the [bitcoin_hashes] crate: [from_slice] accepts
    exactly the slices of 32 bytes. *)
Class HashType : Type := {
  HashSliceError : Type;
  hash_from_slice : bytes → result HashSliceError bytes }.
Class HashTypeLaws `{HashType} : Prop := {
  hash_slice_ok : ∀ l, zlen l = 32 → hash_from_slice l = Ok l;
  hash_slice_err : ∀ l, zlen l ≠ 32 → ∃ e, hash_from_slice l = Err e }.

(** [ParsedMintQuoteRequest::to_cdk_request]. *)
Section to_cdk.
Context `{Cdk} `{HashType}.
Record MintQuoteMiningShareRequest : Type := mkMiningShareRequest {
  mr_amount : Z;
  mr_unit : bytes;
  mr_header_hash : bytes;
  mr_description : option bytes;
  mr_pubkey : CdkPublicKey }.
Inductive CdkRequestError : Type :=
  | InvalidHeaderHash (e : HashSliceError)
  | InvalidLockingKey (e : CdkKeyError)
  | InvalidDescription.
Definition request_description {E} (e : E) (d : list DecodablePrimitive)
    : result E (option bytes) :=
  o ← map_err (λ _, e) (Sv2Option_into_inner d);
  match o with
  | Some (DB0255 s) => Ok (Some (from_utf8_lossy (inner_as_ref s)))
  | Some _ => Err e
  | None => Ok None
  end.
Definition to_cdk_request (p : ParsedMintQuoteRequest)
    : result CdkRequestError MintQuoteMiningShareRequest :=
  header_hash ← map_err InvalidHeaderHash (hash_from_slice (share_hash p));
  description ← request_description InvalidDescription (q_description (request p));
  pubkey ← map_err InvalidLockingKey (pk_from_slice (inner_as_ref (q_locking_key (request p))));
  Ok (mkMiningShareRequest (q_amount (request p)) HASH_UNIT header_hash description pubkey).
End to_cdk.

(** ** Facts *)

Lemma try_from_vec_b0255 l :
  zlen l ≤ 255 → InnerOps.try_from_vec B0255_params l = Ok (Owned l).
Proof. intros. unfold InnerOps.try_from_vec. cbn. by rewrite (proj2 (Z.leb_le _ _)). Qed.
Lemma try_from_vec_u256 l :
  zlen l = 32 → InnerOps.try_from_vec U256_params l = Ok (Owned l).
Proof. intros Hl. unfold InnerOps.try_from_vec. cbn. by rewrite Hl. Qed.

(** A request the Rust types allow. *)
Definition request_ok (r : MintQuoteRequest) : Prop :=
  fits 64 (q_amount r) ∧ zlen (inner_as_ref (q_unit r)) ≤ 255 ∧
  zlen (inner_as_ref (q_header_hash r)) = 32 ∧
  (q_description r = [] ∨
   ∃ d, q_description r = [DB0255 d] ∧ zlen (inner_as_ref d) ≤ 255) ∧
  zlen (inner_as_ref (q_locking_key r)) ≤ 255.
(** The same request with owned byte strings. *)
Definition static_prim (p : DecodablePrimitive) : DecodablePrimitive :=
  prim_map (λ i, Owned (inner_as_ref i)) p.
Definition request_static (r : MintQuoteRequest) : MintQuoteRequest :=
  mkMintQuoteRequest (q_amount r) (Owned (inner_as_ref (q_unit r)))
    (Owned (inner_as_ref (q_header_hash r))) (map static_prim (q_description r))
    (Owned (inner_as_ref (q_locking_key r))).

Lemma request_typed r : request_ok r → typed MintQuoteSv2.MintQuoteRequest (request_value r).
Proof.
  intros (Ha & Hu & Hh & Hd & Hk). constructor.
  repeat (apply Forall2_cons_2 || apply Forall2_nil_2 || constructor); cbn; try (done || apply Ha).
  - destruct Hd as [->|(d & -> & Hd)]; repeat constructor; done.
  - destruct Hd as [->|(d & -> & Hd)]; done.
Qed.

Lemma request_of_ref r :
  request_of_value (val_ref (request_value r)) =
  Ok (mkMintQuoteRequest (q_amount r) (Ref (inner_as_ref (q_unit r)))
        (Ref (inner_as_ref (q_header_hash r))) (map prim_ref (q_description r))
        (Ref (inner_as_ref (q_locking_key r)))).
Proof. done. Qed.

Lemma request_parse chk r :
  request_ok r →
  ∃ bs, to_bytes chk (request_value r) = Ok bs ∧
    parse_mint_quote_request bs
    = Ok (mkParsed (request_static r) (inner_as_ref (q_header_hash r))).
Proof.
  intros Hr. pose proof (request_typed r Hr) as Ht. destruct Hr as (Ha & Hu & Hh & Hd & Hk).
  assert (Hc : capacity_ok chk (request_value r) = true).
  { cbn. destruct Hd as [->|(d & -> & _)]; cbn; by rewrite orb_true_r. }
  exists (val_bytes (request_value r)). split; [by eapply to_bytes_spec|].
  unfold parse_mint_quote_request. rewrite from_bytes_exact by done. cbn [mbind result_bind]. rewrite request_of_ref.
  unfold into_static_request, ShareHash_from_u256, ShareHash_try_from, ShareHash_into_u256.
  cbn [mbind result_bind map_err q_header_hash q_unit q_description q_locking_key inner_as_ref].
  rewrite Hh. cbn [Z.eqb Pos.eqb map_err mbind result_bind].
  rewrite try_from_vec_b0255, try_from_vec_u256 by done. cbn [map_err mbind result_bind].
  enough (static_description (map prim_ref (q_description r))
          = Ok (map static_prim (q_description r))) as -> by done.
  destruct Hd as [->|(d & -> & Hd)]; [done|]. unfold static_description. cbn.
  by rewrite (proj2 (Z.leb_le _ _) Hd).
Qed.

Lemma build_spec amount hash key :
  zlen hash = 32 →
  build_mint_quote_request amount hash key
  = Ok (mkMintQuoteRequest amount (Owned HASH_UNIT) (Owned hash) [] key).
Proof.
  intros Hl. unfold build_mint_quote_request. rewrite Hl.
  rewrite try_from_vec_b0255 by (by vm_compute). by rewrite try_from_vec_u256.
Qed.

Lemma B0255_from_bytes l :
  zlen l = 33 → CompressedPubKey_from_bytes (byte.of_Z 33 :: l) = Ok (Ref l).
Proof.
  intros Hl.
  pose proof (from_bytes_spec (TPrim MB0255) (VPrim (DB0255 (Ref l))) [] eq_refl) as Hd.
  replace (val_bytes (VPrim (DB0255 (Ref l))) ++ []) with (byte.of_Z 33 :: l) in Hd.
  - unfold CompressedPubKey_from_bytes. rewrite Hd; [done|]. constructor. split; [done|].
    unfold prim_typed, inner_typed. cbn. lia.
  - unfold val_bytes, fields_bytes. cbn [fields_of map concat dfield_bytes prim_bytes].
    unfold inner_bytes. cbn [inner_as_ref HEADERSIZE B0255_params]. rewrite Hl, !app_nil_r. done.
Qed.

(** The array with the length prefix and the key. *)
Lemma locking_key_buffer l :
  zlen l = 33 →
  overwrite (overwrite (replicate 34 (byte.of_Z 0)) 0 [byte.of_Z 33]) 1 l = byte.of_Z 33 :: l.
Proof.
  intros Hl.
  change (overwrite (replicate 34 (byte.of_Z 0)) 0 [byte.of_Z 33])
    with ([byte.of_Z 33] ++ replicate 33 (byte.of_Z 0) ++ []).
  pose proof (overwrite_app [byte.of_Z 33] (replicate 33 (byte.of_Z 0)) [] l) as Ho.
  change (zlen [byte.of_Z 33]) with 1 in Ho. rewrite Ho by done. by rewrite app_nil_r.
Qed.

(** ** The claims *)

(** C19 From share to quote and back: for a 32-byte share hash, the request the
    pool builds survives encoding and the mint's parser, which recovers the
    amount, the unit HASH, the hash and the locking key; the response the mint
    makes for it carries the quote id and exactly the share hash of the request,
    so the pool can correlate them.  A hash of any other length is refused. *)
Theorem quote_delivery chk amount hash key quote_id :
  fits 64 amount → zlen (inner_as_ref key) ≤ 255 →
  zlen quote_id ≤ 255 →
  if zlen hash =? 32 then
    ∃ r bs resp, build_mint_quote_request amount hash key = Ok r ∧
      to_bytes chk (request_value r) = Ok bs ∧
      parse_mint_quote_request bs =
        Ok (mkParsed (mkMintQuoteRequest amount (Owned HASH_UNIT) (Owned hash) []
                        (Owned (inner_as_ref key))) hash) ∧
      mint_quote_response_from_cdk hash quote_id = Ok resp ∧
      inner_as_ref (r_quote_id resp) = quote_id ∧
      ShareHash_from_u256 (r_header_hash resp) = Ok hash
  else build_mint_quote_request amount hash key = Err (InvalidHeaderHashLength (zlen hash)).
Proof.
  intros Ha Hk Hq. destruct (Z.eqb_spec (zlen hash) 32) as [Hl|Hl].
  - pose (r := mkMintQuoteRequest amount (Owned HASH_UNIT) (Owned hash) [] key).
    destruct (request_parse chk r) as (bs & He & Hp);
      [split_and!; try done; [apply Ha..|by left]|].
    exists r, bs, (mkMintQuoteResponse (Owned quote_id) (Owned hash)).
    split; [by apply build_spec|]. split_and!; [done|exact Hp| |done|].
    + unfold mint_quote_response_from_cdk, ShareHash_into_u256.
      by rewrite try_from_vec_b0255, try_from_vec_u256.
    + unfold ShareHash_from_u256, ShareHash_try_from. cbn. by rewrite Hl.
  - unfold build_mint_quote_request. by rewrite (proj2 (Z.eqb_neq _ _) Hl).
Qed.

Lemma quote_delivery_witness :
  ∃ r, build_mint_quote_request 256 (replicate 32 Byte.xaa) (Owned (replicate 33 Byte.x02)) = Ok r.
Proof.
  destruct (quote_delivery true 256 (replicate 32 Byte.xaa) (Owned (replicate 33 Byte.x02))
    [Byte.x36; Byte.x66]) as (r & _ & _ & E & _); [by vm_compute..|]. by exists r.
Defined.

(** [parse_locking_key] decides by the length alone: every 33-byte string is
    accepted and returned unchanged, whether or not it is a point of the curve;
    any other length is refused with the channel and the length. *)
Theorem locking_key_length_only l channel_id :
  parse_locking_key l channel_id =
  if zlen l =? 33 then Ok (Owned l) else Err (LockingKeyInvalidLength channel_id (zlen l)).
Proof.
  unfold parse_locking_key. destruct (Z.eqb_spec (zlen l) 33) as [Hl|]; [|done]. cbn [negb].
  by rewrite locking_key_buffer, B0255_from_bytes.
Qed.
