(* ===== verification/Hub.v ===== *)
(** * The mint-pool message hub

    [roles/roles-utils/mint-pool-messaging/src]: [message_hub.rs] (the hub that
    tracks pending quotes between the pool's shares and the mint's answers),
    [sv2_frames.rs] (the frames the two exchange) and [lib.rs].  The hub's
    broadcast channels are tokio's and enter as the class [Broadcast]. *)

From stdpp Require Import gmap.
From S2P Require Import Prelude Datatypes Codec CodecFacts CodecTheorems Framing Messages Ehash Quote.

(** ** Broadcast channels

    [chan_send] fails when no receiver exists; [chan_sent] is the history of the
    messages accepted, in order, which is what a receiver subscribed from the
    start observes. *)
Class Broadcast : Type := {
  Chan : Type → Type;
  chan_new : ∀ A, Z → Chan A;
  chan_send : ∀ {A}, A → Chan A → option (Chan A);
  chan_subscribe : ∀ {A}, Chan A → Chan A;
  receiver_count : ∀ {A}, Chan A → Z;
  chan_sent : ∀ {A}, Chan A → list A }.

(** A new channel has the one receiver returned with it; sending succeeds as
    long as there is a receiver, and neither adds nor removes receivers. *)
Class BroadcastLaws `{Broadcast} : Prop := {
  count_new : ∀ A n, 0 < n → receiver_count (chan_new A n) = 1;
  sent_new : ∀ A n, chan_sent (chan_new A n) = [];
  count_subscribe : ∀ A (c : Chan A), receiver_count (chan_subscribe c) = receiver_count c + 1;
  sent_subscribe : ∀ A (c : Chan A), chan_sent (chan_subscribe c) = chan_sent c;
  send_ok : ∀ A (a : A) c, 0 < receiver_count c →
    ∃ c', chan_send a c = Some c' ∧ receiver_count c' = receiver_count c ∧
      chan_sent c' = chan_sent c ++ [a] }.

(** ** Types *)

Inductive Role : Type := Pool | Mint.
#[global] Instance Role_eq_dec : EqDecision Role.
Proof. solve_decision. Defined.

Record MessagingConfig : Type := mkMessagingConfig {
  broadcast_buffer_size : Z;
  mpsc_buffer_size : Z;
  max_retries : Z;
  timeout_ms : Z }.
Definition MessagingConfig_default : MessagingConfig := mkMessagingConfig 1000 100 3 5000.

Inductive MessagingError : Type :=
  | ChannelClosed (name : string)
  | Timeout
  | Encoding (e : Error)
  | Decoding (e : ShareHashError)
  | HubInvalidMessageType (b : Z)
  | Connection (s : string).

Record MintQuoteError : Type := mkMintQuoteError {
  e_code : Z;
  e_message : Inner }.

Record ConnectionInfo : Type := mkConnectionInfo { role : Role; connected_at : Z }.
Record PendingQuoteContext : Type := mkContext {
  channel_id : Z;
  sequence_number : Z;
  ctx_amount : Z }.
Record PendingQuote : Type := mkPendingQuote {
  parsed : ParsedMintQuoteRequest;
  created_at : Z;
  context : PendingQuoteContext }.
Record MintQuoteResponseEvent : Type := mkEvent {
  ev_response : MintQuoteResponse;
  ev_share_hash : bytes;
  ev_context : option PendingQuoteContext }.

(** [MintQuoteResponseEvent::new] and [from_parts]. *)
Definition MintQuoteResponseEvent_new (response : MintQuoteResponse)
    (context : option PendingQuoteContext) : result QuoteConversionError MintQuoteResponseEvent :=
  share_hash ← map_err ConversionShareHash (ShareHash_from_u256 (r_header_hash response));
  Ok (mkEvent response share_hash context).
Definition MintQuoteResponseEvent_from_parts (response : MintQuoteResponse) (share_hash : bytes)
    (context : option PendingQuoteContext) : MintQuoteResponseEvent :=
  mkEvent response share_hash context.

(** ** Building requests ([lib.rs]) *)

Definition map_share_hash_error (err : ShareHashError) : QuoteBuildError :=
  match err with
  | ShareHashInvalidLength actual => InvalidHeaderHashLength actual
  | ShareHashInvalidEncoding => BuildInvalidHeaderHash DecodableConversionError
  end.
Definition build_parsed_quote_request (amount : Z) (header_hash : bytes) (locking_key : Inner)
    : result QuoteBuildError ParsedMintQuoteRequest :=
  share_hash ← map_err map_share_hash_error (ShareHash_try_from header_hash);
  request ← build_mint_quote_request amount share_hash locking_key;
  Ok (mkParsed request share_hash).

(** ** Frames ([sv2_frames.rs]) *)

Definition SV2_MINT_QUOTE_PROTOCOL_DISCRIMINANT : Z := 3.
Definition build_frame_bytes (payload : bytes) (message_type : Z) (channel_msg : bool) : bytes :=
  let extension_type := SV2_MINT_QUOTE_PROTOCOL_DISCRIMINANT in
  let extension_type := if channel_msg then Z.lor extension_type 0x8000 else extension_type in
  to_le_bytes 2 extension_type ++ to_le_bytes 1 message_type
    ++ take 3 (to_le_bytes 4 (wrap 32 (zlen payload))) ++ payload.

Definition response_value (r : MintQuoteResponse) : sv2_value :=
  VStruct [VPrim (DB0255 (r_quote_id r)); VPrim (DU256 (r_header_hash r))].
Definition error_value (e : MintQuoteError) : sv2_value :=
  VStruct [VPrim (DU32 (e_code e)); VPrim (DB0255 (e_message e))].

Definition CHANNEL_BIT_MINT_QUOTE_REQUEST : bool := true.
Definition CHANNEL_BIT_MINT_QUOTE_RESPONSE : bool := true.
Definition CHANNEL_BIT_MINT_QUOTE_ERROR : bool := true.

Definition quote_request_frame_bytes (overflow_checks : bool) (request : MintQuoteRequest)
    : result MessagingError bytes :=
  payload ← map_err Encoding (to_bytes overflow_checks (request_value request));
  Ok (build_frame_bytes payload MESSAGE_TYPE_MINT_QUOTE_REQUEST CHANNEL_BIT_MINT_QUOTE_REQUEST).
Definition quote_response_frame_bytes (overflow_checks : bool) (response : MintQuoteResponse)
    : result MessagingError bytes :=
  payload ← map_err Encoding (to_bytes overflow_checks (response_value response));
  Ok (build_frame_bytes payload MESSAGE_TYPE_MINT_QUOTE_RESPONSE CHANNEL_BIT_MINT_QUOTE_RESPONSE).
Definition quote_error_frame_bytes (overflow_checks : bool) (error : MintQuoteError)
    : result MessagingError bytes :=
  payload ← map_err Encoding (to_bytes overflow_checks (error_value error));
  Ok (build_frame_bytes payload MESSAGE_TYPE_MINT_QUOTE_ERROR CHANNEL_BIT_MINT_QUOTE_ERROR).

(** ** The hub *)

Section hub.
Context `{Broadcast}.

Record MintPoolMessageHub : Type := mkHub {
  config : MessagingConfig;
  quote_request_tx : Chan ParsedMintQuoteRequest;
  quote_response_tx : Chan MintQuoteResponseEvent;
  quote_error_tx : Chan MintQuoteError;
  connections : gmap string ConnectionInfo;
  pending_quotes : gmap bytes PendingQuote }.

Definition Hub_new (config : MessagingConfig) : MintPoolMessageHub :=
  mkHub config (chan_new _ (broadcast_buffer_size config))
    (chan_new _ (broadcast_buffer_size config)) (chan_new _ (broadcast_buffer_size config)) ∅ ∅.

Definition set_request_tx (c : Chan ParsedMintQuoteRequest) (h : MintPoolMessageHub) :=
  mkHub (config h) c (quote_response_tx h) (quote_error_tx h) (connections h) (pending_quotes h).
Definition set_response_tx (c : Chan MintQuoteResponseEvent) (h : MintPoolMessageHub) :=
  mkHub (config h) (quote_request_tx h) c (quote_error_tx h) (connections h) (pending_quotes h).
Definition set_error_tx (c : Chan MintQuoteError) (h : MintPoolMessageHub) :=
  mkHub (config h) (quote_request_tx h) (quote_response_tx h) c (connections h) (pending_quotes h).
Definition set_connections (m : gmap string ConnectionInfo) (h : MintPoolMessageHub) :=
  mkHub (config h) (quote_request_tx h) (quote_response_tx h) (quote_error_tx h) m
    (pending_quotes h).
Definition set_pending (m : gmap bytes PendingQuote) (h : MintPoolMessageHub) :=
  mkHub (config h) (quote_request_tx h) (quote_response_tx h) (quote_error_tx h) (connections h) m.

Notation HUB := (ST MintPoolMessageHub MessagingError).

Definition register_connection (connection_id : string) (role : Role) (now : Z) : HUB unit :=
  modify (λ h, set_connections (<[connection_id := mkConnectionInfo role now]> (connections h)) h).
Definition unregister_connection (connection_id : string) : HUB unit :=
  modify (λ h, set_connections (delete connection_id (connections h)) h).

(** Sending on a channel of the hub. *)
Definition send_on {A} (get : MintPoolMessageHub → Chan A)
    (put : Chan A → MintPoolMessageHub → MintPoolMessageHub) (name : string) (a : A) : HUB unit :=
  λ h, match chan_send a (get h) with
       | Some c => (Ok tt, put c h)
       | None => (Err (ChannelClosed name), h)
       end.

(** The pending entry is written, and its lock released, before the request is
    broadcast. *)
Definition track_request (request : ParsedMintQuoteRequest) (context : PendingQuoteContext)
    (now : Z) : HUB unit :=
  modify (λ h, set_pending
    (<[share_hash request := mkPendingQuote request now context]> (pending_quotes h)) h).
Definition send_quote_request (request : ParsedMintQuoteRequest) (context : PendingQuoteContext)
    (now : Z) : HUB unit :=
  _ ← track_request request context now;
  send_on quote_request_tx set_request_tx "quote_request" request.

(** The pending entry is removed before the event is broadcast. *)
Definition take_pending (share_hash : bytes) : HUB (option PendingQuoteContext) :=
  λ h, (Ok (context <$> pending_quotes h !! share_hash),
        set_pending (delete share_hash (pending_quotes h)) h).
Definition send_quote_response (response : MintQuoteResponse) : HUB MintQuoteResponseEvent :=
  share_hash ← lift (map_err Decoding (ShareHash_from_u256 (r_header_hash response)));
  context ← take_pending share_hash;
  let event := mkEvent response share_hash context in
  _ ← send_on quote_response_tx set_response_tx "quote_response" event;
  mret event.

Definition send_quote_error (error : MintQuoteError) : HUB unit :=
  send_on quote_error_tx set_error_tx "quote_error" error.

Definition subscribe_quote_requests : HUB unit :=
  modify (λ h, set_request_tx (chan_subscribe (quote_request_tx h)) h).
Definition subscribe_quote_responses : HUB unit :=
  modify (λ h, set_response_tx (chan_subscribe (quote_response_tx h)) h).
Definition subscribe_quote_errors : HUB unit :=
  modify (λ h, set_error_tx (chan_subscribe (quote_error_tx h)) h).

Definition pending_quote (share_hash : bytes) (h : MintPoolMessageHub)
    : option ParsedMintQuoteRequest := parsed <$> pending_quotes h !! share_hash.

Record MessageHubStats : Type := mkStats {
  total_connections : Z;
  pool_connections : Z;
  mint_connections : Z;
  quote_request_subscribers : Z;
  quote_response_subscribers : Z;
  quote_error_subscribers : Z;
  pending_count : Z;
  oldest_pending_ms : option Z }.
Definition count_role (r : Role) (m : gmap string ConnectionInfo) : Z :=
  Z.of_nat (size (filter (λ kv, role kv.2 = r) m)).
Definition get_stats (now : Z) (h : MintPoolMessageHub) : MessageHubStats :=
  let ages := (λ p, Z.max 0 (now - created_at p.2)) <$> map_to_list (pending_quotes h) in
  mkStats (Z.of_nat (size (connections h))) (count_role Pool (connections h))
    (count_role Mint (connections h)) (receiver_count (quote_request_tx h))
    (receiver_count (quote_response_tx h)) (receiver_count (quote_error_tx h))
    (Z.of_nat (size (pending_quotes h)))
    match ages with [] => None | a :: l => Some (foldr Z.max a l) end.
End hub.
