(* ===== verification/HubProperties.v ===== *)
(** * Properties of the message hub *)

From stdpp Require Import gmap.
From S2P Require Import Prelude Datatypes Codec CodecFacts CodecTheorems Framing Messages Ehash Quote Hub.

(** ** Interleavings

    Many tasks use the hub at once, and each of its operations takes effect in
    two atomic parts: the update of the pending table under its lock, and the
    broadcast.  A configuration is the hub with the broadcasts still to be made,
    and the history of the table's updates, which no code reads.  A share may be
    issued any number of times, and an answer may come for any share at any time. *)
Section interleavings.
Context `{BroadcastLaws}.

Inductive Task : Type :=
  | Broadcasting (r : ParsedMintQuoteRequest)
  | Delivering (e : MintQuoteResponseEvent).
Inductive Update : Type :=
  | Issued (r : ParsedMintQuoteRequest) (ctx : PendingQuoteContext)
  | Took (e : MintQuoteResponseEvent).

Record Conf : Type := mkConf {
  hub : MintPoolMessageHub;
  tasks : list Task;
  history : list Update }.

(** Another holder of the channel subscribes or drops its receiver; the hub's
    own receiver stays. *)
Definition same_history {A} (c c' : Chan A) : Prop :=
  chan_sent c' = chan_sent c ∧ 1 ≤ receiver_count c'.

Inductive step : Conf → Conf → Prop :=
  | step_request c r ctx now h' :
      track_request r ctx now (hub c) = (Ok tt, h') →
      step c (mkConf h' (Broadcasting r :: tasks c) (history c ++ [Issued r ctx]))
  | step_broadcast c ts1 r ts2 h' res :
      tasks c = ts1 ++ Broadcasting r :: ts2 →
      send_on quote_request_tx set_request_tx "quote_request" r (hub c) = (res, h') →
      step c (mkConf h' (ts1 ++ ts2) (history c))
  | step_respond c resp h ctx h' :
      ShareHash_from_u256 (r_header_hash resp) = Ok h →
      take_pending h (hub c) = (Ok ctx, h') →
      step c (mkConf h' (Delivering (mkEvent resp h ctx) :: tasks c) (history c ++ [Took (mkEvent resp h ctx)]))
  | step_deliver c ts1 e ts2 h' res :
      tasks c = ts1 ++ Delivering e :: ts2 →
      send_on quote_response_tx set_response_tx "quote_response" e (hub c) = (res, h') →
      step c (mkConf h' (ts1 ++ ts2) (history c))
  | step_error c e h' res :
      send_quote_error e (hub c) = (res, h') → step c (mkConf h' (tasks c) (history c))
  | step_register c id r now h' :
      register_connection id r now (hub c) = (Ok tt, h') → step c (mkConf h' (tasks c) (history c))
  | step_unregister c id h' :
      unregister_connection id (hub c) = (Ok tt, h') → step c (mkConf h' (tasks c) (history c))
  | step_receivers c rq rs er :
      same_history (quote_request_tx (hub c)) rq →
      same_history (quote_response_tx (hub c)) rs →
      same_history (quote_error_tx (hub c)) er →
      step c (mkConf (set_request_tx rq (set_response_tx rs (set_error_tx er (hub c)))) (tasks c) (history c)).

Definition initial (cfg : MessagingConfig) : Conf := mkConf (Hub_new cfg) [] [].

(** ** The abstract table *)

Definition share_of (x : Update) : bytes := match x with Issued r _ => share_hash r | Took e => ev_share_hash e end.
(** The context a share was last issued with, unless it was answered since. *)
Definition latest (h : bytes) (l : list Update) : option PendingQuoteContext :=
  foldl (λ o x, if bool_decide (share_of x = h) then match x with Issued _ ctx => Some ctx | Took _ => None end else o) None l.
#[global] Arguments latest : simpl never.
Definition took (l : list Update) : list MintQuoteResponseEvent :=
  omap (λ x, match x with Took e => Some e | Issued _ _ => None end) l.
Definition requested (l : list Update) : list ParsedMintQuoteRequest :=
  omap (λ x, match x with Issued r _ => Some r | Took _ => None end) l.
Definition delivering (l : list Task) : list MintQuoteResponseEvent :=
  omap (λ t, match t with Delivering e => Some e | Broadcasting _ => None end) l.
Definition broadcasting (l : list Task) : list ParsedMintQuoteRequest :=
  omap (λ t, match t with Broadcasting r => Some r | Delivering _ => None end) l.
Lemma latest_app h l l' :
  latest h (l ++ l') =
  foldl (λ o x, if bool_decide (share_of x = h) then match x with Issued _ ctx => Some ctx | Took _ => None end else o) (latest h l) l'.
Proof. apply foldl_app. Qed.
Lemma latest_snoc h l x :
  latest h (l ++ [x]) =
  (if bool_decide (share_of x = h) then match x with Issued _ ctx => Some ctx | Took _ => None end else latest h l).
Proof. by rewrite latest_app. Qed.
Lemma latest_quiet h l l' : Forall (λ x, share_of x ≠ h) l' → latest h (l ++ l') = latest h l.
Proof.
  intros Hq. induction l' as [|x l' IH] using rev_ind; [by rewrite app_nil_r|].
  apply Forall_app in Hq as [Hq Hx]. inversion_clear Hx. by rewrite app_assoc, latest_snoc, bool_decide_eq_false_2, IH.
Qed.
Lemma latest_issued r ctx l l' :
  Forall (λ x, share_of x ≠ share_hash r) l' → latest (share_hash r) (l ++ Issued r ctx :: l') = Some ctx.
Proof.
  intros Hq. change (l ++ Issued r ctx :: l') with (l ++ ([Issued r ctx] ++ l')). rewrite app_assoc, latest_quiet by done.
  by rewrite latest_snoc, bool_decide_eq_true_2.
Qed.

(** ** The invariant *)

Record inv (c : Conf) : Prop := {
  inv_receivers : 1 ≤ receiver_count (quote_request_tx (hub c)) ∧
    1 ≤ receiver_count (quote_response_tx (hub c)) ∧
    1 ≤ receiver_count (quote_error_tx (hub c));
  inv_pending : ∀ h, context <$> pending_quotes (hub c) !! h = latest h (history c);
  inv_took : ∀ pre e suf, history c = pre ++ Took e :: suf → ev_context e = latest (ev_share_hash e) pre;
  inv_events : took (history c) ≡ₚ chan_sent (quote_response_tx (hub c)) ++ delivering (tasks c);
  inv_requests : requested (history c) ≡ₚ chan_sent (quote_request_tx (hub c)) ++ broadcasting (tasks c) }.

Lemma send_on_ok {A} (get : MintPoolMessageHub → Chan A) put name a h :
  1 ≤ receiver_count (get h) →
  ∃ c', send_on get put name a h = (Ok tt, put c' h) ∧
    receiver_count c' = receiver_count (get h) ∧ chan_sent c' = chan_sent (get h) ++ [a].
Proof.
  intros Hr. destruct (send_ok A a (get h)) as (c' & E & Hc & Hs); [lia|].
  exists c'. unfold send_on. by rewrite E.
Qed.

(** The operations, run without interference. *)
Lemma send_quote_request_spec r ctx now h :
  1 ≤ receiver_count (quote_request_tx h) →
  ∃ h', send_quote_request r ctx now h = (Ok tt, h') ∧
    chan_sent (quote_request_tx h') = chan_sent (quote_request_tx h) ++ [r] ∧
    quote_response_tx h' = quote_response_tx h ∧ quote_error_tx h' = quote_error_tx h ∧
    pending_quotes h' = <[share_hash r := mkPendingQuote r now ctx]> (pending_quotes h).
Proof.
  intros Hr. unfold send_quote_request, track_request. rewrite st_modify_bind.
  destruct (send_on_ok quote_request_tx set_request_tx "quote_request" r
    (set_pending (<[share_hash r := mkPendingQuote r now ctx]> (pending_quotes h)) h))
    as (ch & E & _ & Hs); [done|]. eexists. by split; [exact E|].
Qed.
Lemma send_quote_response_spec resp k h :
  ShareHash_from_u256 (r_header_hash resp) = Ok k →
  1 ≤ receiver_count (quote_response_tx h) →
  let ev := mkEvent resp k (context <$> pending_quotes h !! k) in
  ∃ h', send_quote_response resp h = (Ok ev, h') ∧
    chan_sent (quote_response_tx h') = chan_sent (quote_response_tx h) ++ [ev] ∧
    pending_quotes h' = delete k (pending_quotes h).
Proof.
  intros Hk Hr ev. unfold send_quote_response. rewrite Hk. cbn [map_err].
  rewrite st_lift_bind. unfold take_pending.
  destruct (send_on_ok quote_response_tx set_response_tx "quote_response" ev
    (set_pending (delete k (pending_quotes h)) h)) as (ch & E & _ & Hs); [done|].
  eexists. erewrite st_bind_ok by done. erewrite st_bind_ok by exact E. done.
Qed.
Lemma send_quote_error_spec e h :
  1 ≤ receiver_count (quote_error_tx h) →
  ∃ h', send_quote_error e h = (Ok tt, h') ∧
    chan_sent (quote_error_tx h') = chan_sent (quote_error_tx h) ++ [e] ∧
    pending_quotes h' = pending_quotes h.
Proof.
  intros Hr. destruct (send_on_ok quote_error_tx set_error_tx "quote_error" e h)
    as (ch & E & _ & Hs); [done|]. eexists. by split; [exact E|].
Qed.

Lemma inv_initial cfg : 0 < broadcast_buffer_size cfg → inv (initial cfg).
Proof.
  intros Hb. split; cbn; rewrite ?count_new, ?sent_new by done; try done.
  intros pre e suf Hn. by destruct pre.
Qed.
(** The table and its history are left alone. *)
Lemma inv_frame c h' ts :
  inv c → pending_quotes h' = pending_quotes (hub c) →
  1 ≤ receiver_count (quote_request_tx h') → 1 ≤ receiver_count (quote_response_tx h') →
  1 ≤ receiver_count (quote_error_tx h') →
  chan_sent (quote_response_tx h') ++ delivering ts ≡ₚ chan_sent (quote_response_tx (hub c)) ++ delivering (tasks c) →
  chan_sent (quote_request_tx h') ++ broadcasting ts ≡ₚ chan_sent (quote_request_tx (hub c)) ++ broadcasting (tasks c) →
  inv (mkConf h' ts (history c)).
Proof.
  intros [_ Hp Ht He Hr] Ep R1 R2 R3 Ee Er. split; cbn; [done|by rewrite Ep|done|by rewrite Ee|by rewrite Er].
Qed.
(** Another update of the table. *)
Lemma took_snoc l x :
  (∀ pre e suf, l = pre ++ Took e :: suf → ev_context e = latest (ev_share_hash e) pre) →
  (∀ e, x = Took e → ev_context e = latest (ev_share_hash e) l) →
  ∀ pre e suf, l ++ [x] = pre ++ Took e :: suf → ev_context e = latest (ev_share_hash e) pre.
Proof.
  intros Hl Hx pre e suf E. destruct suf as [|y suf _] using rev_ind.
  - apply app_inj_tail in E as [-> ->]. by apply Hx.
  - change (Took e :: suf ++ [y]) with ((Took e :: suf) ++ [y]) in E. rewrite app_assoc in E.
    apply app_inj_tail in E as [E _]. by eapply Hl.
Qed.
Lemma inv_request c r ctx now :
  inv c →
  inv (mkConf (set_pending (<[share_hash r := mkPendingQuote r now ctx]> (pending_quotes (hub c))) (hub c))
         (Broadcasting r :: tasks c) (history c ++ [Issued r ctx])).
Proof.
  intros [HR Hp Ht He Hr]. split; cbn; [done| | | |].
  - intros h. rewrite latest_snoc. cbn [share_of]. case_bool_decide as Hh; [subst h; by rewrite lookup_insert_eq|].
    by rewrite lookup_insert_ne.
  - by apply took_snoc.
  - unfold took. rewrite omap_app. cbn. by rewrite app_nil_r.
  - unfold requested. rewrite omap_app, Permutation_app_comm. apply Permutation_cons_app. exact Hr.
Qed.
Lemma inv_respond c resp k :
  inv c →
  let e := mkEvent resp k (context <$> pending_quotes (hub c) !! k) in
  inv (mkConf (set_pending (delete k (pending_quotes (hub c))) (hub c)) (Delivering e :: tasks c) (history c ++ [Took e])).
Proof.
  intros [HR Hp Ht He Hr] e. split; cbn; [done| | | |].
  - intros h. rewrite latest_snoc. cbn [share_of ev_share_hash e]. case_bool_decide as Hh; [subst h; by rewrite lookup_delete_eq|].
    by rewrite lookup_delete_ne.
  - apply took_snoc; [done|]. intros e' [= <-]. apply Hp.
  - unfold took. rewrite omap_app, Permutation_app_comm. apply Permutation_cons_app. exact He.
  - unfold requested. rewrite omap_app. cbn. by rewrite app_nil_r.
Qed.

Lemma inv_step c c' : inv c → step c c' → inv c'.
Proof.
  intros Hi Hstep. pose proof Hi as [(R1 & R2 & R3) _ _ He Hr]. destruct Hstep as
    [c r ctx now h' E|c ts1 r ts2 h' res Hts E|c resp k ctx h' Hh E
    |c ts1 e ts2 h' res Hts E|c e h' res E|c id r now h' E|c id h' E|c rq rs er [Eq ?] [Es ?] [? ?]].
  - injection E as <-. by apply inv_request.
  - destruct (send_on_ok quote_request_tx set_request_tx "quote_request" r (hub c))
      as (ch & E' & Hc & Hl); [done|]. rewrite E' in E. injection E as <- <-.
    apply inv_frame; cbn; try done; [lia|..]; rewrite Hts; unfold delivering, broadcasting; rewrite !omap_app; [done|].
    cbn. by rewrite Hl, <- app_assoc, <- Permutation_middle.
  - injection E as <- <-. by apply inv_respond.
  - destruct (send_on_ok quote_response_tx set_response_tx "quote_response" e (hub c))
      as (ch & E' & Hc & Hl); [done|]. rewrite E' in E. injection E as <- <-.
    apply inv_frame; cbn; try done; [lia|..]; rewrite Hts; unfold delivering, broadcasting; rewrite !omap_app; [|done].
    cbn. by rewrite Hl, <- app_assoc, <- Permutation_middle.
  - destruct (send_on_ok quote_error_tx set_error_tx "quote_error" e (hub c))
      as (ch & E' & Hc & Hl); [done|]. unfold send_quote_error in E. rewrite E' in E.
    injection E as <- <-. apply inv_frame; cbn; try done. lia.
  - injection E as <-. by apply inv_frame.
  - injection E as <-. by apply inv_frame.
  - apply inv_frame; cbn; try done; by rewrite ?Eq, ?Es.
Qed.

Lemma inv_reachable cfg c :
  0 < broadcast_buffer_size cfg → rtc step (initial cfg) c → inv c.
Proof.
  intros Hb Hr. apply inv_initial in Hb. revert Hb. induction Hr; eauto using inv_step.
Qed.
End interleavings.

(** ** The claims *)

(** C39 Correlation under every interleaving: starting from a new hub, whatever
    order the tasks' table updates and broadcasts happen in, however often a share
    is issued and whatever the mint answers and when.  Every answer becomes exactly
    one response event, sent or about to be; the event carries the channel,
    sequence number and amount its share was last issued with since the last answer
    for it, and none if it was not issued since; so an answer to a share that was
    issued carries that share's.  The pending table holds exactly the contexts of
    the shares issued and not answered since (a quote error does not remove one),
    and no broadcast fails, because the hub keeps a receiver of its own. *)
Theorem hub_correlation `{BroadcastLaws} (cfg : MessagingConfig) (c : Conf) :
  0 < broadcast_buffer_size cfg → rtc step (initial cfg) c →
  took (history c) ≡ₚ chan_sent (quote_response_tx (hub c)) ++ delivering (tasks c) ∧
  (∀ pre e suf, history c = pre ++ Took e :: suf →
     ev_context e = latest (ev_share_hash e) pre ∧
     ∀ a r ctx b, pre = a ++ Issued r ctx :: b → share_hash r = ev_share_hash e →
       Forall (λ x, share_of x ≠ share_hash r) b → ev_context e = Some ctx) ∧
  (∀ h, context <$> pending_quotes (hub c) !! h = latest h (history c)) ∧
  (∀ e, ∃ h', send_quote_error e (hub c) = (Ok tt, h')) ∧
  (∀ resp k, ShareHash_from_u256 (r_header_hash resp) = Ok k →
     ∃ h', send_quote_response resp (hub c)
       = (Ok (mkEvent resp k (context <$> pending_quotes (hub c) !! k)), h')) ∧
  (∀ r ctx now, ∃ h', send_quote_request r ctx now (hub c) = (Ok tt, h')).
Proof.
  intros Hb Hr. pose proof (inv_reachable cfg c Hb Hr) as [(R1 & R2 & R3) Hp Ht He _]. split_and!; [done| |done|..].
  - intros pre e suf E. split; [by eapply Ht|]. intros a r ctx b -> Hh Hq. rewrite (Ht _ _ _ E), <- Hh. by apply latest_issued.
  - intros e. destruct (send_quote_error_spec e (hub c) R3) as (h' & E & _). eauto.
  - intros resp k Hk. destruct (send_quote_response_spec resp k (hub c) Hk R2) as (h' & E & _). eauto.
  - intros r ctx now. destruct (send_quote_request_spec r ctx now (hub c) R1) as (h' & E & _). eauto.
Qed.

(** A channel as its receiver count and its history. *)
#[local] Instance toy_broadcast : Broadcast := {|
  Chan := λ A, (Z * list A)%type;
  chan_new := λ A _, (1, []);
  chan_send := λ A a c, if 0 <? c.1 then Some (c.1, c.2 ++ [a]) else None;
  chan_subscribe := λ A c, (c.1 + 1, c.2);
  receiver_count := λ A c, c.1;
  chan_sent := λ A c, c.2 |}.
#[local] Instance toy_broadcast_laws : BroadcastLaws.
Proof.
  split; try done. intros A a [n l] Hn. cbn in *. rewrite (proj2 (Z.ltb_lt _ _) Hn). eauto.
Defined.

Definition sample_parsed : ParsedMintQuoteRequest :=
  mkParsed (mkMintQuoteRequest 256 (Owned HASH_UNIT) (Owned (replicate 32 Byte.xaa)) []
    (Owned (replicate 33 Byte.x02))) (replicate 32 Byte.xaa).
Definition sample_context : PendingQuoteContext := mkContext 7 42 256.
(** A share is issued, and issued again under another sequence number while its
    first request is still to be broadcast; two answers come. *)
Definition again_context : PendingQuoteContext := mkContext 7 43 256.
Definition sample_response : MintQuoteResponse := mkMintQuoteResponse (Owned [Byte.x71]) (Owned (replicate 32 Byte.xaa)).
Definition sample_issue (ctx : PendingQuoteContext) (now : Z) (c : Conf) : Conf :=
  mkConf (track_request sample_parsed ctx now (hub c)).2 (Broadcasting sample_parsed :: tasks c) (history c ++ [Issued sample_parsed ctx]).
Definition sample_take (c : Conf) : Conf :=
  let k := replicate 32 Byte.xaa in
  let e := mkEvent sample_response k (context <$> pending_quotes (hub c) !! k) in
  mkConf (take_pending k (hub c)).2 (Delivering e :: tasks c) (history c ++ [Took e]).
Definition sample_conf : Conf :=
  sample_take (sample_take (sample_issue again_context 6 (sample_issue sample_context 5 (initial MessagingConfig_default)))).
Lemma sample_reached : rtc step (initial MessagingConfig_default) sample_conf.
Proof.
  assert (Hi : ∀ ctx now c, step c (sample_issue ctx now c)) by (intros ctx now c; by eapply (step_request c sample_parsed ctx now)).
  assert (Ht : ∀ c, step c (sample_take c)) by (intros c; by eapply (step_respond c sample_response (replicate 32 Byte.xaa))).
  unfold sample_conf. generalize (initial MessagingConfig_default). intros c.
  apply (rtc_l _ _ _ _ (Hi sample_context 5 c)), (rtc_l _ _ _ _ (Hi again_context 6 _)), (rtc_l _ _ _ _ (Ht _)), rtc_once, Ht.
Qed.
Definition first_event : MintQuoteResponseEvent := mkEvent sample_response (replicate 32 Byte.xaa) (Some again_context).
Definition second_event : MintQuoteResponseEvent := mkEvent sample_response (replicate 32 Byte.xaa) None.
Lemma sample_updates :
  history sample_conf =
  [Issued sample_parsed sample_context; Issued sample_parsed again_context] ++ Took first_event :: [Took second_event].
Proof. vm_compute. reflexivity. Qed.

Lemma hub_correlation_witness :
  ev_context first_event = Some again_context ∧ context <$> pending_quotes (hub sample_conf) !! replicate 32 Byte.xaa = None.
Proof.
  destruct (hub_correlation MessagingConfig_default sample_conf ltac:(done) sample_reached) as (_ & Ht & Hp & _). split.
  - apply (proj2 (Ht _ _ _ sample_updates) [Issued sample_parsed sample_context] sample_parsed again_context []); [reflexivity..|constructor].
  - rewrite Hp, sample_updates. vm_compute. reflexivity.
Defined.
