(* ===== verification/PoolQuotes.v ===== *)
(** * The pool's side of quoting

    From an accepted share to a mint quote and its notification:
    [roles/pool/src/lib/share_validation.rs], [quote-dispatcher/src/lib.rs] and,
    under [roles/pool/src/lib/mining_pool], [mint_integration.rs],
    [message_handler.rs] ([dispatch_quote]), [quote_dispatch_hook.rs],
    [mint_connection.rs] and [quote_poller.rs].  Tasks handed to the runtime are
    recorded as effects. *)

From stdpp Require Import gmap.
From S2P Require Import Prelude Datatypes Codec CodecFacts CodecTheorems Framing Messages Utf8 Ehash Keyset Quote Hub.

(** ** Minimum share difficulty ([share_validation.rs]) *)

Fixpoint count_zero_bits_loop (hash : bytes) (zero_bits : Z) : Z :=
  match hash with
  | [] => zero_bits
  | byte :: hash =>
      if byte.unsigned byte =? 0 then count_zero_bits_loop hash (zero_bits + 8)
      else zero_bits + leading_zeros byte
  end.
Definition count_leading_zero_bits (hash : bytes) : Z := count_zero_bits_loop hash 0.
Inductive ShareDifficultyError : Type := ShareDifficultyTooLow (leading_zeros minimum : Z).
Definition validate_share_difficulty (hash : bytes) (minimum_bits : option Z)
    : result ShareDifficultyError unit :=
  match minimum_bits with
  | Some min_bits =>
      let leading_zeros := count_leading_zero_bits hash in
      if leading_zeros <? min_bits then Err (ShareDifficultyTooLow leading_zeros min_bits)
      else Ok tt
  | None => Ok tt
  end.

(** ** Channel contexts ([mint_integration.rs]) *)

Record ChannelContext : Type := mkChannelContext {
  cc_channel_id : Z;
  cc_locking_key_bytes : option bytes;
  cc_downstream_id : Z;
  cc_created_at : Z }.
Definition MintIntegrationManager : Type := gmap Z ChannelContext.

Definition register_channel (channel_id : Z) (locking_key_bytes : option bytes)
    (downstream_id now : Z) (m : MintIntegrationManager) : MintIntegrationManager :=
  <[channel_id := mkChannelContext channel_id locking_key_bytes downstream_id now]> m.
Definition unregister_channel (channel_id : Z) (m : MintIntegrationManager)
    : MintIntegrationManager := delete channel_id m.
Definition get_channel_context (channel_id : Z) (m : MintIntegrationManager)
    : option ChannelContext := m !! channel_id.

(** ** The quote dispatcher *)

(** [sv2_enabled] is the [enabled] flag of the optional messaging section. *)
Record QuoteDispatcher : Type := mkDispatcher {
  sv2_enabled : option bool;
  minimum_difficulty : Z;
  has_callback : bool }.

(** What a dispatch asks for: the callback's notification, and the task that
    sends the request through the hub. *)
Inductive Effect : Type :=
  | QuoteCreated (channel_id amount : Z)
  | SpawnQuoteRequest (request : ParsedMintQuoteRequest) (context : PendingQuoteContext).

Section dispatch.
Context `{HashType}.

Inductive DispatchError : Type :=
  | DispatchInvalidHeaderHash (e : HashSliceError)
  | FailedToBuildQuote (e : QuoteBuildError).

Definition emit {E} (e : Effect) : ST (list Effect) E unit := modify (λ l, l ++ [e]).

Definition submit_quote (d : QuoteDispatcher) (header_hash : bytes) (locking_pubkey : Inner)
    (channel_id sequence_number : Z) : ST (list Effect) DispatchError unit :=
  hash ← lift (map_err DispatchInvalidHeaderHash (hash_from_slice header_hash));
  let amount := calculate_ehash_amount hash (minimum_difficulty d) in
  _ ← (if has_callback d then emit (QuoteCreated channel_id amount) else mret tt);
  if negb (default true (sv2_enabled d)) then mret tt
  else
    parsed ← lift (map_err FailedToBuildQuote
      (build_parsed_quote_request amount header_hash locking_pubkey));
    emit (SpawnQuoteRequest parsed (mkContext channel_id sequence_number amount)).

(** ** Dispatching for an accepted share *)

Inductive QuoteDispatchError : Type :=
  | MissingLockingKey (channel_id : Z)
  | InvalidLockingKeyFormat (channel_id length : Z)
  | DispatchInvalidLockingKey (channel_id : Z) (reason : Error)
  | MintDispatcherUnavailable
  | QuoteDispatchFailed (e : DispatchError).

(** The key bytes are copied into an array behind their length prefix. *)
Definition dispatch_quote (d : QuoteDispatcher) (mint_manager : MintIntegrationManager)
    (channel_id sequence_number : Z) (header_hash : bytes) (locking_key_hint : option bytes)
    : ST (list Effect) QuoteDispatchError unit :=
  let locking_key_bytes :=
    match locking_key_hint with
    | Some l => Some l
    | None => ctx ← get_channel_context channel_id mint_manager; cc_locking_key_bytes ctx
    end in
  l ← lift (ok_or locking_key_bytes (MissingLockingKey channel_id));
  if negb (zlen l =? 33) then throw (InvalidLockingKeyFormat channel_id (zlen l))
  else
    let encoded := overwrite (replicate 34 (byte.of_Z 0)) 0 [byte.of_Z (zlen l)] in
    let encoded := overwrite encoded 1 l in
    pubkey ← lift (map_err (DispatchInvalidLockingKey channel_id)
      (CompressedPubKey_from_bytes encoded));
    st_map_err QuoteDispatchFailed
      (submit_quote d header_hash (into_static pubkey) channel_id sequence_number).

(** ** The hook variant ([quote_dispatch_hook.rs]) *)

Record ShareAcceptedEvent : Type := mkShareAccepted {
  sa_sequence_number : Z;
  sa_channel_id : Z;
  sa_downstream_id : Z;
  sa_prev_hash : bytes;
  sa_nonce : Z;
  sa_timestamp : Z;
  sa_is_block : bool }.
Inductive HookFailure : Type :=
  | HookHeaderHash (e : HeaderHashError)
  | HookLockingKey (e : LockingKeyError)
  | HookDispatch (e : DispatchError).

Definition on_share_accepted (d : QuoteDispatcher) (mint_manager : MintIntegrationManager)
    (event : ShareAcceptedEvent) : ST (list Effect) HookFailure unit :=
  header_hash ← lift (map_err HookHeaderHash (validate_header_hash (sa_prev_hash event)));
  match (ctx ← get_channel_context (sa_channel_id event) mint_manager; cc_locking_key_bytes ctx) with
  | None => mret tt
  | Some l =>
      pubkey ← lift (map_err HookLockingKey (parse_locking_key l (sa_channel_id event)));
      st_map_err HookDispatch
        (submit_quote d header_hash (into_static pubkey) (sa_channel_id event)
           (sa_sequence_number event))
  end.
End dispatch.

(** ** The connection to the mint ([mint_connection.rs]) *)

Inductive MintConnError : Type :=
  | MintSenderUnavailable
  | BuildRequestFrame (e : MessagingError)
  | DecodeResponse (e : Error)
  | DecodeError (e : Error)
  | BadPayload (e : FramingError)
  | DispatchResponse (e : MessagingError)
  | DispatchQuoteError (e : MessagingError).

(** [send_quote_request_to_mint]: the frame handed to the connection. *)
Definition send_quote_request_to_mint (overflow_checks connected : bool)
    (parsed : ParsedMintQuoteRequest) : result MintConnError Frame :=
  if negb connected then Err MintSenderUnavailable
  else
    frame_bytes ← map_err BuildRequestFrame
      (quote_request_frame_bytes overflow_checks (request parsed));
    frame ← FrameOps.from_bytes_unchecked frame_bytes;
    Ok (FrameSv2 frame).

Definition response_of_value (v : sv2_value) : result Error MintQuoteResponse :=
  match v with
  | VStruct [VPrim (DB0255 q); VPrim (DU256 h)] => Ok (mkMintQuoteResponse q h)
  | _ => Err DecodableConversionError
  end.
Definition error_of_value (v : sv2_value) : result Error MintQuoteError :=
  match v with
  | VStruct [VPrim (DU32 c); VPrim (DB0255 m)] => Ok (mkMintQuoteError c m)
  | _ => Err DecodableConversionError
  end.
Definition decode_mint_quote_response (payload : bytes) : result MintConnError MintQuoteResponse :=
  r ← map_err DecodeResponse
    (v ← from_bytes MintQuoteSv2.MintQuoteResponse payload; response_of_value v);
  Ok (mkMintQuoteResponse (into_static (r_quote_id r)) (into_static (r_header_hash r))).
Definition decode_mint_quote_error (payload : bytes) : result MintConnError MintQuoteError :=
  e ← map_err DecodeError
    (v ← from_bytes MintQuoteSv2.MintQuoteError payload; error_of_value v);
  Ok (mkMintQuoteError (e_code e) (into_static (e_message e))).

(** One turn of [process_mint_frames]. *)
Section frames.
Context `{Broadcast}.
Definition process_mint_frame (frame : Frame) : ST MintPoolMessageHub MintConnError unit :=
  match frame with
  | FrameSv2 sv2_frame =>
      let msg_type := msg_type (header sv2_frame) in
      payload ← lift (map_err BadPayload (FrameOps.payload_bytes sv2_frame));
      if msg_type =? MESSAGE_TYPE_MINT_QUOTE_RESPONSE then
        response ← lift (decode_mint_quote_response payload);
        _ ← st_map_err DispatchResponse (send_quote_response response);
        mret tt
      else if msg_type =? MESSAGE_TYPE_MINT_QUOTE_ERROR then
        error_msg ← lift (decode_mint_quote_error payload);
        st_map_err DispatchQuoteError (send_quote_error error_msg)
      else mret tt
  | FrameHandShake _ => mret tt
  end.
(** The receive loop: the first error ends it. *)
Fixpoint process_mint_frames (frames : list Frame) : ST MintPoolMessageHub MintConnError unit :=
  match frames with
  | [] => mret tt
  | frame :: frames => _ ← process_mint_frame frame; process_mint_frames frames
  end.
End frames.

(** ** The quote poller ([quote_poller.rs]) *)

Module QuotePoller.
Record PendingQuote : Type := mkPending {
  channel_id : Z;
  created_at : Z;      (** milliseconds *)
  amount : Z }.
Record t : Type := mkPoller {
  pending_quotes : gmap bytes PendingQuote;
  mint_http_endpoint : option bytes;
  quote_timeout : Z }.
Definition new (endpoint : option bytes) : t := mkPoller ∅ endpoint 300000.
Definition set_pending (m : gmap bytes PendingQuote) (p : t) : t :=
  mkPoller m (mint_http_endpoint p) (quote_timeout p).

Definition register_quote (quote_id : bytes) (channel_id amount now : Z) (p : t) : t :=
  set_pending (<[quote_id := mkPending channel_id now amount]> (pending_quotes p)) p.
Definition get_quote_channel (quote_id : bytes) (p : t) : option Z :=
  channel_id <$> pending_quotes p !! quote_id.
Definition remove_quote (quote_id : bytes) (p : t) : t :=
  set_pending (delete quote_id (pending_quotes p)) p.
(** [Instant::duration_since] is zero for a later instant. *)
Definition expired (now : Z) (p : t) (q : PendingQuote) : bool :=
  quote_timeout p <? Z.max 0 (now - created_at q).
Definition cleanup_expired_quotes (now : Z) (p : t) : t :=
  set_pending (filter (λ kv, expired now p kv.2 = false) (pending_quotes p)) p.

(** One response event of the hub ([listen_for_hub_responses]). *)
Definition on_response (now : Z) (event : MintQuoteResponseEvent) (p : t) : t :=
  match ev_context event with
  | Some context =>
      let quote_id := inner_as_ref (r_quote_id (ev_response event)) in
      if utf8_valid quote_id
      then register_quote quote_id (Hub.channel_id context) (ctx_amount context) now p
      else p
  | None => p
  end.

(** The mint's answer to a status request. *)
Record StatusResponse : Type := mkStatus {
  st_amount : option Z;
  st_amount_issued : option Z;
  st_state : bytes }.
Inductive HttpOutcome : Type :=
  | BadUrl
  | RequestFailed
  | NotFound
  | HttpError (status : Z)
  | BadJson
  | Success (payload : StatusResponse).

Definition to_ascii_uppercase (l : bytes) : bytes :=
  map (λ b, let v := byte.unsigned b in
            if (97 <=? v) && (v <=? 122) then byte.of_Z (v - 32) else b) l.
Definition fully_issued (p : StatusResponse) : bool :=
  match st_amount p, st_amount_issued p with
  | Some expected, Some issued => expected <=? issued
  | _, _ => false
  end.

Record Notification : Type := mkNotification {
  n_channel_id : Z;
  n_quote_id : bytes;
  n_amount : Z }.

(** [send_notification_to_translator] up to the connection it is sent on: the
    message and the downstream it goes to. *)
Inductive NotifyError : Type :=
  | BadQuoteId (e : Error)
  | NoMintContext (channel_id : Z)
  | DownstreamNotFound (downstream_id : Z)
  | SendFailed.
Definition notification (mint_manager : MintIntegrationManager) (downstreams : gset Z)
    (channel_id : Z) (quote_id : bytes) (amount : Z) : result NotifyError (Z * Notification) :=
  q ← map_err BadQuoteId (InnerOps.try_from_vec B0255_params quote_id);
  context ← ok_or (get_channel_context channel_id mint_manager) (NoMintContext channel_id);
  let downstream_id := cc_downstream_id context in
  if bool_decide (downstream_id ∈ downstreams)
  then Ok (downstream_id, mkNotification channel_id (inner_as_ref q) amount)
  else Err (DownstreamNotFound downstream_id).

(** One quote of a poll: the HTTP answer, then the notification [send]. *)
Definition poll_quote (mint_manager : MintIntegrationManager) (downstreams : gset Z)
    (send : Z → Notification → bool) (quote_id : bytes) (quote_meta : PendingQuote)
    (outcome : HttpOutcome) (p : t) : list (Z * Notification) * t :=
  match outcome with
  | Success payload =>
      let state := to_ascii_uppercase (st_state payload) in
      if bool_decide (state = text "PAID") then
        match notification mint_manager downstreams (channel_id quote_meta) quote_id
                (amount quote_meta) with
        | Ok (d, n) => if send d n then ([(d, n)], remove_quote quote_id p) else ([], p)
        | _ => ([], p)
        end
      else if bool_decide (state = text "ISSUED") || fully_issued payload
      then ([], remove_quote quote_id p)
      else ([], p)
  | _ => ([], p)
  end.

(** One tick of [start]: every tenth tick expires old quotes; then the quotes of
    a snapshot are polled one by one, each with the answer the mint gives. *)
Fixpoint poll_all (mint_manager : MintIntegrationManager) (downstreams : gset Z)
    (send : Z → Notification → bool) (http : bytes → HttpOutcome)
    (snapshot : list (bytes * PendingQuote)) (p : t) : list (Z * Notification) * t :=
  match snapshot with
  | [] => ([], p)
  | (quote_id, quote_meta) :: rest =>
      let '(out, p) :=
        poll_quote mint_manager downstreams send quote_id quote_meta (http quote_id) p in
      let '(outs, p) := poll_all mint_manager downstreams send http rest p in
      (out ++ outs, p)
  end.
Definition tick (mint_manager : MintIntegrationManager) (downstreams : gset Z)
    (send : Z → Notification → bool) (http : bytes → HttpOutcome) (poll_count now : Z) (p : t)
    : list (Z * Notification) * t :=
  let p := if (poll_count + 1) mod 10 =? 0 then cleanup_expired_quotes now p else p in
  poll_all mint_manager downstreams send http (map_to_list (pending_quotes p)) p.
End QuotePoller.
