(* ===== verification/MintRole.v ===== *)
(** * The mint role

    [roles/mint/src/lib]: the handling of the pool's frames
    ([sv2_connection/message_handler.rs], [quote_processing.rs]), the
    connection's life cycle ([state_machine.rs]), the message type table
    ([message_types.rs]), the setup message ([setup_connection.rs]) and the
    frame codec ([frame_codec.rs]).  The Cashu mint that creates the quotes is
    an external service. *)

From S2P Require Import Prelude Datatypes Codec CodecFacts CodecTheorems Framing Messages SetupConnection Utf8 Ehash Keyset Quote Hub.

(** ** Message types *)

Inductive MintMessageType : Type :=
  | TypeMintQuoteRequest
  | TypeMintQuoteResponse
  | TypeMintQuoteError
  | TypeUnknown (code : Z).
Definition MintMessageType_from_code (code : Z) : MintMessageType :=
  if code =? 0x80 then TypeMintQuoteRequest else
  if code =? 0x81 then TypeMintQuoteResponse else
  if code =? 0x82 then TypeMintQuoteError else TypeUnknown code.
Definition MintMessageType_to_code (t : MintMessageType) : option Z :=
  match t with
  | TypeMintQuoteRequest => Some 0x80
  | TypeMintQuoteResponse => Some 0x81
  | TypeMintQuoteError => Some 0x82
  | TypeUnknown _ => None
  end.

(** ** Quote processing *)

(** [Mint::create_mint_mining_share_quote] of the kit: the text of the quote's
    id, or of the error. *)
Class MintService `{Cdk} : Type := {
  MintState : Type;
  create_mint_mining_share_quote :
    MintQuoteMiningShareRequest → MintState → result bytes bytes * MintState }.

Section mint.
Context `{MintService} `{HashType}.

Inductive MintError : Type :=
  | ParseFailed (e : QuoteParseError)
  | ConvertFailed (e : CdkRequestError)
  | ResponseFailed (e : QuoteConversionError)
  | FrameFailed (e : MessagingError)
  | ErrorMessageFailed (e : Error)
  | CreationFailed (message : bytes)
  | PayloadFailed (e : FramingError).

(** The state is the mint's, with the frames sent to the pool so far. *)
Notation MINT := (ST (MintState * list Frame) MintError).

Definition send_frame (f : Frame) : MINT unit := modify (λ '(s, out), (s, out ++ [f])).

Definition send_quote_response_to_pool (overflow_checks : bool) (response : MintQuoteResponse)
    : MINT unit :=
  frame_bytes ← lift (map_err FrameFailed (quote_response_frame_bytes overflow_checks response));
  sv2_frame ← lift (FrameOps.from_bytes_unchecked frame_bytes);
  send_frame (FrameSv2 sv2_frame).

Definition send_quote_error_to_pool (overflow_checks : bool) (error_message : bytes) : MINT unit :=
  let error_code := 1 in
  msg ← lift (map_err ErrorMessageFailed (InnerOps.try_from_vec B0255_params error_message));
  let error := mkMintQuoteError error_code (into_static msg) in
  frame_bytes ← lift (map_err FrameFailed (quote_error_frame_bytes overflow_checks error));
  sv2_frame ← lift (FrameOps.from_bytes_unchecked frame_bytes);
  send_frame (FrameSv2 sv2_frame).

(** The text for a share worth nothing. *)
Definition low_difficulty_message (leading_zero_bits : Z) : bytes :=
  String.list_byte_of_string "Share below pool minimum difficulty: leading_zero_bits="
    ++ decimal leading_zero_bits ++ String.list_byte_of_string " produced 0 HASH".

Definition create_quote (r : MintQuoteMiningShareRequest) : MINT (result bytes bytes) :=
  λ '(s, out), let '(res, s') := create_mint_mining_share_quote r s in (Ok res, (s', out)).

Definition process_mint_quote_message (overflow_checks : bool) (message_type : Z)
    (payload : bytes) : MINT unit :=
  if message_type =? MESSAGE_TYPE_MINT_QUOTE_REQUEST then
    parsed_request ← lift (map_err ParseFailed (parse_mint_quote_request payload));
    let share_hash := share_hash parsed_request in
    let leading_zero_bits := calculate_difficulty share_hash in
    let amount := q_amount (request parsed_request) in
    cdk_request ← lift (map_err ConvertFailed (to_cdk_request parsed_request));
    res ← create_quote cdk_request;
    match res with
    | Ok quote_id =>
        sv2_response ← lift (map_err ResponseFailed
          (mint_quote_response_from_cdk share_hash quote_id));
        send_quote_response_to_pool overflow_checks sv2_response
    | Err e =>
        let error_message :=
          if amount =? 0 then low_difficulty_message leading_zero_bits else e in
        _ ← send_quote_error_to_pool overflow_checks error_message;
        throw (CreationFailed error_message)
    | Panic => panic
    end
  else mret tt.

(** ** Frame handling *)

Definition process_sv2_message (overflow_checks : bool) (incoming : Sv2Frame) : MINT unit :=
  let message_type := msg_type (header incoming) in
  payload ← lift (map_err PayloadFailed (FrameOps.payload_bytes incoming));
  match MintMessageType_from_code message_type with
  | TypeMintQuoteRequest => process_mint_quote_message overflow_checks message_type payload
  | TypeMintQuoteResponse | TypeMintQuoteError => mret tt
  | TypeUnknown _ => mret tt
  end.
Definition process_sv2_frame (overflow_checks : bool) (either_frame : Frame) : MINT unit :=
  match either_frame with
  | FrameSv2 incoming => process_sv2_message overflow_checks incoming
  | FrameHandShake _ => mret tt
  end.
(** The loop over the received frames: an error is logged and the loop goes on. *)
Fixpoint handle_sv2_connection (overflow_checks : bool) (frames : list Frame) : MINT unit :=
  match frames with
  | [] => mret tt
  | f :: frames => λ s,
      match process_sv2_frame overflow_checks f s with
      | (Panic, s) => (Panic, s)
      | (_, s) => handle_sv2_connection overflow_checks frames s
      end
  end.
End mint.

(** ** The connection's life cycle *)

Inductive ConnectionState : Type :=
  | Disconnected
  | Connecting
  | SetupInProgress
  | Ready
  | ErrorState.
#[global] Instance ConnectionState_eq_dec : EqDecision ConnectionState.
Proof. solve_decision. Defined.
Record ConnectionStateMachine : Type := mkMachine {
  current_state : ConnectionState;
  last_error : option bytes }.

Module Machine.
Definition new : ConnectionStateMachine := mkMachine Disconnected None.
Definition tcp_connected : ST ConnectionStateMachine ConnectionState unit := λ m,
  match current_state m with
  | Disconnected => (Ok tt, mkMachine Connecting None)
  | other => (Err other, m)
  end.
Definition noise_handshake_complete : ST ConnectionStateMachine ConnectionState unit := λ m,
  match current_state m with
  | Connecting => (Ok tt, mkMachine SetupInProgress None)
  | other => (Err other, m)
  end.
Definition setup_connection_accepted : ST ConnectionStateMachine ConnectionState unit := λ m,
  match current_state m with
  | SetupInProgress => (Ok tt, mkMachine Ready None)
  | other => (Err other, m)
  end.
Definition error (message : bytes) (m : ConnectionStateMachine) : ConnectionStateMachine :=
  mkMachine ErrorState (Some message).
Definition reset (m : ConnectionStateMachine) : ConnectionStateMachine :=
  mkMachine Disconnected None.
Definition is_ready (m : ConnectionStateMachine) : bool := bool_decide (current_state m = Ready).
Definition is_recoverable_error (m : ConnectionStateMachine) : bool :=
  bool_decide (current_state m = ErrorState).
End Machine.

(** ** Setup message *)

Definition str_from (s : bytes) : result Error Inner := InnerOps.try_from_vec B0255_params s.
Definition build_mint_setup_connection (endpoint_host : bytes) (endpoint_port : Z)
    (device_id : bytes) : result Error SetupConnection :=
  endpoint_host ← str_from endpoint_host;
  vendor ← str_from (String.list_byte_of_string "HashPool Mint");
  hardware_version ← str_from (String.list_byte_of_string "v1.0");
  firmware ← str_from (String.list_byte_of_string "mint-sv2-phase-3");
  device_id ← str_from device_id;
  Ok (mkSetupConnection MiningProtocol 2 2 0 endpoint_host endpoint_port vendor
        hardware_version firmware device_id).

(** ** The frame codec *)

Module FrameCodec.
Inductive FrameCodecError : Type :=
  | EncodeFailed (e : Error)
  | BadMessageLength (n : Z)
  | TooShort.

(** The response is encoded into an empty vector. *)
Definition encode_mint_quote_response (overflow_checks : bool) (response : MintQuoteResponse)
    : result FrameCodecError bytes :=
  let buffer := [] in
  let '(r, buffer) := to_bytes_into overflow_checks (response_value response) buffer in
  _ ← map_err EncodeFailed r;
  Ok (to_le_bytes 1 0x81 ++ buffer).
Definition encode_mint_quote_error (error_code : Z) (error_message : bytes)
    : result FrameCodecError bytes :=
  if (zlen error_message =? 0) || (255 <? zlen error_message)
  then Err (BadMessageLength (zlen error_message))
  else Ok (to_le_bytes 1 0x82 ++ to_le_bytes 4 error_code
             ++ to_le_bytes 1 (wrap 8 (zlen error_message)) ++ error_message).
Definition decode_mint_quote_error (frame_bytes : bytes) : result FrameCodecError (Z * bytes) :=
  if zlen frame_bytes <? 4 then Err TooShort
  else
    rest ← slice_from frame_bytes 4;
    Ok (from_le_bytes (ztake 4 frame_bytes), from_utf8_lossy rest).
End FrameCodec.
