(* ===== verification/QuoteFlow.v ===== *)
(** * Properties of quoting, from the pool to the mint and back *)

From stdpp Require Import gmap.
From S2P Require Import Prelude Datatypes Codec CodecFacts CodecTheorems CodecCanonical Framing Messages Utf8 Ehash Keyset Quote Hub HubProperties PoolQuotes MintRole.

(** ** Frames *)

(** The header [build_frame_bytes] writes: extension 3 with the channel bit. *)
Definition quote_header (ty len : Z) : Header := mkHeader 0x8003 ty len.
Definition quote_frame (ty : Z) (p : bytes) : Sv2Frame :=
  mkSv2Frame (quote_header ty (zlen p)) None (Some (header_bytes (quote_header ty (zlen p)) ++ p)).

Lemma build_frame_header p ty :
  fits 24 (zlen p) →
  build_frame_bytes p ty true = header_bytes (quote_header ty (zlen p)) ++ p.
Proof.
  intros Hp. unfold build_frame_bytes, header_bytes. cbn [extension_type msg_type msg_length quote_header].
  rewrite wrap_small by (unfold fits in *; lia). rewrite take_to_le_bytes by lia.
  by rewrite <- !app_assoc.
Qed.

Lemma quote_frame_spec p ty :
  fits 24 (zlen p) → fits 8 ty →
  (∀ E, FrameOps.from_bytes_unchecked (E := E) (build_frame_bytes p ty true)
        = Ok (quote_frame ty p)) ∧
  FrameOps.payload_bytes (quote_frame ty p) = Ok p.
Proof.
  intros Hp Ht. assert (Hw : header_wf (quote_header ty (zlen p))) by (split_and!; done || apply Hp || apply Ht).
  split.
  - intros E. unfold FrameOps.from_bytes_unchecked. rewrite build_frame_header by done.
    by rewrite header_from_bytes.
  - unfold FrameOps.payload_bytes, quote_frame. cbn [serialized].
    pose proof (zlen_nonneg p). rewrite slice_from_ok
      by (rewrite zlen_app, zlen_header_bytes; unfold SV2_FRAME_HEADER_SIZE; lia).
    by rewrite zdrop_app by by rewrite zlen_header_bytes.
Qed.

Lemma inner_size P i : InnerOps.get_size P i = zlen (inner_as_ref i) + HEADERSIZE P.
Proof. by destruct i. Qed.

(** The payloads fit the length field. *)
Lemma request_payload_fits r : request_ok r → fits 24 (zlen (val_bytes (request_value r))).
Proof.
  intros (Ha & Hu & Hh & Hd & Hk). rewrite <- get_size_spec.
  pose proof (zlen_nonneg (inner_as_ref (q_unit r))).
  pose proof (zlen_nonneg (inner_as_ref (q_locking_key r))).
  unfold fits, request_value. cbn [get_size dprim_get_size].
  destruct Hd as [->|(d & -> & Hd)]; unfold sum_sizes; cbn [foldl dprim_get_size];
    rewrite !inner_size, Hh; cbn [HEADERSIZE B0255_params U256_params]; [lia|].
  pose proof (zlen_nonneg (inner_as_ref d)). lia.
Qed.

Definition response_ok (r : MintQuoteResponse) : Prop :=
  zlen (inner_as_ref (r_quote_id r)) ≤ 255 ∧ zlen (inner_as_ref (r_header_hash r)) = 32.
Definition response_static (r : MintQuoteResponse) : MintQuoteResponse :=
  mkMintQuoteResponse (Owned (inner_as_ref (r_quote_id r))) (Owned (inner_as_ref (r_header_hash r))).
Definition error_ok (e : MintQuoteError) : Prop :=
  fits 32 (e_code e) ∧ zlen (inner_as_ref (e_message e)) ≤ 255.

Lemma response_typed r :
  response_ok r → typed MintQuoteSv2.MintQuoteResponse (response_value r).
Proof. intros [Hq Hh]. repeat constructor; done. Qed.
Lemma error_typed e : error_ok e → typed MintQuoteSv2.MintQuoteError (error_value e).
Proof. intros [Hc Hm]. repeat constructor; done || apply Hc. Qed.
Lemma response_payload_fits r : response_ok r → fits 24 (zlen (val_bytes (response_value r))).
Proof.
  intros [Hq Hh]. rewrite <- get_size_spec. unfold fits, response_value.
  cbn [get_size dprim_get_size]. rewrite !inner_size, Hh. cbn [HEADERSIZE B0255_params U256_params].
  pose proof (zlen_nonneg (inner_as_ref (r_quote_id r))). lia.
Qed.
Lemma error_payload_fits e : error_ok e → fits 24 (zlen (val_bytes (error_value e))).
Proof.
  intros [Hc Hm]. rewrite <- get_size_spec. unfold fits, error_value.
  cbn [get_size dprim_get_size]. rewrite !inner_size. cbn [HEADERSIZE B0255_params].
  pose proof (zlen_nonneg (inner_as_ref (e_message e))). lia.
Qed.

Lemma decode_response r :
  response_ok r → decode_mint_quote_response (val_bytes (response_value r)) = Ok (response_static r).
Proof.
  intros Hr. unfold decode_mint_quote_response.
  by rewrite from_bytes_exact by (done || by apply response_typed).
Qed.
Lemma decode_error e :
  error_ok e →
  decode_mint_quote_error (val_bytes (error_value e))
  = Ok (mkMintQuoteError (e_code e) (Owned (inner_as_ref (e_message e)))).
Proof.
  intros Hr. unfold decode_mint_quote_error.
  by rewrite from_bytes_exact by (done || by apply error_typed).
Qed.

(** The three frames the two sides exchange. *)
Lemma request_frame chk r :
  request_ok r →
  quote_request_frame_bytes chk r =
  Ok (build_frame_bytes (val_bytes (request_value r)) MESSAGE_TYPE_MINT_QUOTE_REQUEST true).
Proof.
  intros Hr. unfold quote_request_frame_bytes.
  rewrite (to_bytes_spec chk _ _ (request_typed r Hr)); [done|].
  destruct Hr as (_ & _ & _ & Hd & _). cbn.
  destruct Hd as [->|(d & -> & _)]; cbn; by rewrite orb_true_r.
Qed.
Lemma response_frame chk r :
  response_ok r →
  quote_response_frame_bytes chk r =
  Ok (build_frame_bytes (val_bytes (response_value r)) MESSAGE_TYPE_MINT_QUOTE_RESPONSE true).
Proof.
  intros Hr. unfold quote_response_frame_bytes.
  by rewrite (to_bytes_spec chk _ _ (response_typed r Hr)).
Qed.
Lemma error_frame chk e :
  error_ok e →
  quote_error_frame_bytes chk e =
  Ok (build_frame_bytes (val_bytes (error_value e)) MESSAGE_TYPE_MINT_QUOTE_ERROR true).
Proof.
  intros He. unfold quote_error_frame_bytes. by rewrite (to_bytes_spec chk _ _ (error_typed e He)).
Qed.

(** ** Dispatching *)

(** The request the pool makes for a share. *)
Definition share_request (amount : Z) (hash key : bytes) : ParsedMintQuoteRequest :=
  mkParsed (mkMintQuoteRequest amount (Owned HASH_UNIT) (Owned hash) [] (Owned key)) hash.

Lemma share_request_ok amount hash key :
  fits 64 amount → zlen hash = 32 → zlen key = 33 → request_ok (request (share_request amount hash key)).
Proof. intros Ha Hh Hk. split_and!; cbn; try (done || apply Ha); [by left|lia]. Qed.

Section flow.
Context `{HashTypeLaws} `{MintService} `{BroadcastLaws}.

Lemma submit_quote_spec d hash key ch seq l :
  zlen hash = 32 → default true (sv2_enabled d) = true →
  let amount := calculate_ehash_amount hash (minimum_difficulty d) in
  submit_quote d hash (Owned key) ch seq l =
  (Ok tt, (l ++ if has_callback d then [QuoteCreated ch amount] else [])
            ++ [SpawnQuoteRequest (share_request amount hash key) (mkContext ch seq amount)]).
Proof.
  intros Hh Hen amount. unfold submit_quote. rewrite hash_slice_ok by done. cbn [map_err].
  rewrite st_lift_bind, Hen. cbn [negb]. fold amount.
  unfold build_parsed_quote_request, ShareHash_try_from. rewrite Hh, Z.eqb_refl.
  cbn [map_err mbind result_bind]. rewrite build_spec by done. cbn [map_err mbind result_bind].
  by destruct (has_callback d); cbn; rewrite ?app_nil_r.
Qed.

Lemma dispatch_quote_spec d mgr ch seq hash key l :
  zlen hash = 32 → zlen key = 33 → default true (sv2_enabled d) = true →
  let amount := calculate_ehash_amount hash (minimum_difficulty d) in
  dispatch_quote d mgr ch seq hash (Some key) l =
  (Ok tt, (l ++ if has_callback d then [QuoteCreated ch amount] else [])
            ++ [SpawnQuoteRequest (share_request amount hash key) (mkContext ch seq amount)]).
Proof.
  intros Hh Hk Hen amount. unfold dispatch_quote. cbn [ok_or]. rewrite st_lift_bind.
  rewrite Hk, Z.eqb_refl. cbn [negb]. rewrite locking_key_buffer, B0255_from_bytes by done.
  cbn [map_err]. rewrite st_lift_bind. unfold st_map_err. cbn [into_static].
  by rewrite submit_quote_spec.
Qed.

(** ** The mint *)

Definition cdk_request (amount : Z) (hash : bytes) (pk : CdkPublicKey) : MintQuoteMiningShareRequest :=
  mkMiningShareRequest amount HASH_UNIT hash None pk.

Lemma parse_share_request amount hash key :
  fits 64 amount → zlen hash = 32 → zlen key = 33 →
  parse_mint_quote_request (val_bytes (request_value (request (share_request amount hash key))))
  = Ok (share_request amount hash key).
Proof.
  intros Ha Hh Hk. pose proof (share_request_ok amount hash key Ha Hh Hk) as Hr.
  destruct (request_parse true _ Hr) as (bs & Hb & Hp).
  rewrite (to_bytes_spec true _ _ (request_typed _ Hr)) in Hb by done.
  injection Hb as <-. exact Hp.
Qed.

(** What the mint does with the frame of a request, up to creating the quote. *)
Lemma mint_request_frame chk amount hash key pk s :
  fits 64 amount → zlen hash = 32 → zlen key = 33 → pk_from_slice key = Ok pk →
  process_sv2_frame chk
    (FrameSv2 (quote_frame MESSAGE_TYPE_MINT_QUOTE_REQUEST
       (val_bytes (request_value (request (share_request amount hash key)))))) s =
  (res ← create_quote (cdk_request amount hash pk);
   match res with
   | Ok quote_id =>
       sv2_response ← lift (map_err ResponseFailed (mint_quote_response_from_cdk hash quote_id));
       send_quote_response_to_pool chk sv2_response
   | Err e =>
       let error_message :=
         if amount =? 0 then low_difficulty_message (calculate_difficulty hash) else e in
       _ ← send_quote_error_to_pool chk error_message;
       throw (CreationFailed error_message)
   | Panic => panic
   end) s.
Proof.
  intros Ha Hh Hk Hp. pose proof (share_request_ok amount hash key Ha Hh Hk) as Hr.
  unfold process_sv2_frame, process_sv2_message.
  rewrite (proj2 (quote_frame_spec _ MESSAGE_TYPE_MINT_QUOTE_REQUEST (request_payload_fits _ Hr) ltac:(done))).
  cbn [map_err]. rewrite st_lift_bind. cbn [quote_frame header quote_header msg_type].
  change (MintMessageType_from_code MESSAGE_TYPE_MINT_QUOTE_REQUEST) with TypeMintQuoteRequest.
  cbn iota. unfold process_mint_quote_message. rewrite Z.eqb_refl, parse_share_request by done.
  cbn [map_err]. rewrite st_lift_bind. unfold to_cdk_request.
  cbn [share_request share_hash request q_description q_locking_key q_amount inner_as_ref].
  rewrite hash_slice_ok, Hp by done. done.
Qed.

(** The reply frames. *)
Definition reply_response (hash quote_id : bytes) : Frame :=
  FrameSv2 (quote_frame MESSAGE_TYPE_MINT_QUOTE_RESPONSE
    (val_bytes (response_value (mkMintQuoteResponse (Owned quote_id) (Owned hash))))).
Definition reply_error (message : bytes) : Frame :=
  FrameSv2 (quote_frame MESSAGE_TYPE_MINT_QUOTE_ERROR
    (val_bytes (error_value (mkMintQuoteError 1 (Owned message))))).

Lemma send_response_spec chk hash quote_id s out :
  zlen hash = 32 → zlen quote_id ≤ 255 →
  send_quote_response_to_pool chk (mkMintQuoteResponse (Owned quote_id) (Owned hash)) (s, out)
  = (Ok tt, (s, out ++ [reply_response hash quote_id])).
Proof.
  intros Hh Hq. unfold send_quote_response_to_pool.
  assert (Hr : response_ok (mkMintQuoteResponse (Owned quote_id) (Owned hash))) by done.
  rewrite response_frame by done. cbn [map_err]. rewrite st_lift_bind.
  by rewrite (proj1 (quote_frame_spec _ MESSAGE_TYPE_MINT_QUOTE_RESPONSE
    (response_payload_fits _ Hr) ltac:(done))).
Qed.
Lemma send_error_spec chk message s out :
  zlen message ≤ 255 →
  send_quote_error_to_pool chk message (s, out) = (Ok tt, (s, out ++ [reply_error message])).
Proof.
  intros Hm. unfold send_quote_error_to_pool. rewrite try_from_vec_b0255 by done. cbn [map_err].
  rewrite st_lift_bind. cbn [into_static].
  assert (He : error_ok (mkMintQuoteError 1 (Owned message))) by (split; done).
  rewrite error_frame by done. cbn [map_err]. rewrite st_lift_bind.
  by rewrite (proj1 (quote_frame_spec _ MESSAGE_TYPE_MINT_QUOTE_ERROR
    (error_payload_fits _ He) ltac:(done))).
Qed.

(** ** The pool receiving a reply *)

Lemma receive_response hash quote_id h :
  zlen hash = 32 → zlen quote_id ≤ 255 → 1 ≤ receiver_count (quote_response_tx h) →
  let ev := mkEvent (mkMintQuoteResponse (Owned quote_id) (Owned hash)) hash
              (context <$> pending_quotes h !! hash) in
  ∃ h', process_mint_frame (reply_response hash quote_id) h = (Ok tt, h') ∧
    chan_sent (quote_response_tx h') = chan_sent (quote_response_tx h) ++ [ev] ∧
    pending_quotes h' = delete hash (pending_quotes h).
Proof.
  intros Hh Hq Hr ev.
  assert (Hok : response_ok (mkMintQuoteResponse (Owned quote_id) (Owned hash))) by done.
  destruct (send_quote_response_spec (mkMintQuoteResponse (Owned quote_id) (Owned hash)) hash h)
    as (h' & E & Hs & Hp); [|done|].
  { unfold ShareHash_from_u256, ShareHash_try_from. cbn. by rewrite Hh. }
  exists h'. split_and!; [|done|done]. unfold process_mint_frame, reply_response.
  rewrite (proj2 (quote_frame_spec _ MESSAGE_TYPE_MINT_QUOTE_RESPONSE
    (response_payload_fits _ Hok) ltac:(done))).
  cbn [map_err]. rewrite st_lift_bind. cbn [quote_frame header quote_header msg_type].
  rewrite Z.eqb_refl, decode_response by done. rewrite st_lift_bind.
  unfold response_static. cbn [r_quote_id r_header_hash inner_as_ref].
  by erewrite st_bind_ok by (unfold st_map_err; rewrite E; done).
Qed.
Lemma receive_error message h :
  zlen message ≤ 255 → 1 ≤ receiver_count (quote_error_tx h) →
  ∃ h', process_mint_frame (reply_error message) h = (Ok tt, h') ∧
    chan_sent (quote_error_tx h') =
      chan_sent (quote_error_tx h) ++ [mkMintQuoteError 1 (Owned message)] ∧
    pending_quotes h' = pending_quotes h.
Proof.
  intros Hm Hr. assert (He : error_ok (mkMintQuoteError 1 (Owned message))) by (split; done).
  destruct (send_quote_error_spec (mkMintQuoteError 1 (Owned message)) h Hr) as (h' & E & Hs & Hp).
  exists h'. split_and!; [|done|done]. unfold process_mint_frame, reply_error.
  rewrite (proj2 (quote_frame_spec _ MESSAGE_TYPE_MINT_QUOTE_ERROR
    (error_payload_fits _ He) ltac:(done))).
  cbn [map_err]. rewrite st_lift_bind. cbn [quote_frame header quote_header msg_type].
  change (MESSAGE_TYPE_MINT_QUOTE_ERROR =? MESSAGE_TYPE_MINT_QUOTE_RESPONSE) with false.
  rewrite Z.eqb_refl. cbn iota. rewrite decode_error by done. rewrite st_lift_bind.
  unfold st_map_err. cbn [e_code e_message inner_as_ref]. by rewrite E.
Qed.
End flow.

(** ** The claims *)

(** C38 From an accepted share to a tracked quote: for a 32-byte share hash, a
    33-byte locking key that is a curve point, enabled messaging, receivers on the
    hub's channels and a mint that creates the quote with an id of at most 255
    bytes of UTF-8, the pool's dispatcher asks for a quote worth
    [calculate_ehash_amount]; the hub tracks and broadcasts it; the frame sent to
    the mint makes the mint create a quote for exactly that amount, hash and key;
    and the frame it replies with makes the hub publish an event with the share's
    channel, sequence number and amount, from which the poller registers the quote
    under its id, with the channel, the time and the amount. *)
Theorem share_to_quote `{HashTypeLaws} `{MintService} `{BroadcastLaws}
    (chk : bool) (d : QuoteDispatcher) (mgr : MintIntegrationManager) (ch seq : Z)
    (hash key quote_id : bytes) (pk : CdkPublicKey) (h : MintPoolMessageHub) (now now' : Z)
    (ms ms' : MintState) (p : QuotePoller.t) :
  let amount := calculate_ehash_amount hash (minimum_difficulty d) in
  let ctx := mkContext ch seq amount in
  let ev := mkEvent (mkMintQuoteResponse (Owned quote_id) (Owned hash)) hash (Some ctx) in
  zlen hash = 32 → zlen key = 33 → pk_from_slice key = Ok pk →
  default true (sv2_enabled d) = true →
  1 ≤ receiver_count (quote_request_tx h) → 1 ≤ receiver_count (quote_response_tx h) →
  create_mint_mining_share_quote (mkMiningShareRequest amount HASH_UNIT hash None pk) ms
    = (Ok quote_id, ms') →
  zlen quote_id ≤ 255 → utf8_valid quote_id = true →
  ∃ parsed l h1 frame reply h2,
    dispatch_quote d mgr ch seq hash (Some key) [] = (Ok tt, l ++ [SpawnQuoteRequest parsed ctx]) ∧
    send_quote_request parsed ctx now h = (Ok tt, h1) ∧
    send_quote_request_to_mint chk true parsed = Ok frame ∧
    process_sv2_frame chk frame (ms, []) = (Ok tt, (ms', [reply])) ∧
    process_mint_frame reply h1 = (Ok tt, h2) ∧
    chan_sent (quote_response_tx h2) = chan_sent (quote_response_tx h) ++ [ev] ∧
    QuotePoller.pending_quotes (QuotePoller.on_response now' ev p) !! quote_id
      = Some (QuotePoller.mkPending ch now' amount).
Proof.
  intros amount ctx ev Hh Hk Hp Hen R1 R2 Hc Hq Hu.
  pose proof (ehash_amount_fits hash (minimum_difficulty d)) as Ha. fold amount in Ha.
  pose proof (share_request_ok amount hash key Ha Hh Hk) as Hr.
  destruct (send_quote_request_spec (share_request amount hash key) ctx now h R1)
    as (h1 & E1 & _ & Er & _ & Hp1).
  destruct (receive_response hash quote_id h1) as (h2 & E2 & Hs & _); [done|done|by rewrite Er|].
  exists (share_request amount hash key), (([] : list Effect) ++ if has_callback d then [QuoteCreated ch amount] else []),
    h1, (FrameSv2 (quote_frame MESSAGE_TYPE_MINT_QUOTE_REQUEST
           (val_bytes (request_value (request (share_request amount hash key)))))),
    (reply_response hash quote_id), h2.
  split_and!; [by apply dispatch_quote_spec|done| | |done| |].
  - unfold send_quote_request_to_mint. cbn [negb]. rewrite request_frame by done.
    cbn [map_err mbind result_bind].
    by rewrite (proj1 (quote_frame_spec _ MESSAGE_TYPE_MINT_QUOTE_REQUEST (request_payload_fits _ Hr) ltac:(done))).
  - rewrite (mint_request_frame _ _ _ _ pk) by done.
    erewrite st_bind_ok by (unfold create_quote, cdk_request; rewrite Hc; done).
    unfold mint_quote_response_from_cdk, ShareHash_into_u256.
    rewrite try_from_vec_b0255, try_from_vec_u256 by done. cbn [map_err mbind result_bind].
    rewrite st_lift_bind. by apply send_response_spec.
  - rewrite Hs, Hp1, Er. cbn [share_request share_hash]. by rewrite lookup_insert_eq.
  - unfold QuotePoller.on_response. cbn [ev_context ev ev_response r_quote_id inner_as_ref].
    rewrite Hu. apply lookup_insert_eq.
Qed.

(** When the mint refuses to create a quote, the pool hears of it only if
    the error text fits 255 bytes: then an error frame with code 1 reaches the
    hub's error channel.  A longer text is dropped, nothing is sent.  Either way
    the error names no share, so the share's entry stays in the hub's pending
    table. *)
Theorem quote_refused `{HashTypeLaws} `{MintService} `{BroadcastLaws}
    (chk : bool) (amount : Z) (hash key e : bytes) (pk : CdkPublicKey) (ctx : PendingQuoteContext)
    (h : MintPoolMessageHub) (now : Z) (ms ms' : MintState) :
  let message := if amount =? 0 then low_difficulty_message (calculate_difficulty hash) else e in
  fits 64 amount → zlen hash = 32 → zlen key = 33 → pk_from_slice key = Ok pk →
  1 ≤ receiver_count (quote_request_tx h) → 1 ≤ receiver_count (quote_error_tx h) →
  create_mint_mining_share_quote (mkMiningShareRequest amount HASH_UNIT hash None pk) ms
    = (Err e, ms') →
  ∃ parsed h1 frame,
    build_parsed_quote_request amount hash (Owned key) = Ok parsed ∧
    send_quote_request parsed ctx now h = (Ok tt, h1) ∧
    send_quote_request_to_mint chk true parsed = Ok frame ∧
    if zlen message <=? 255 then
      ∃ reply h2, process_sv2_frame chk frame (ms, []) = (Err (CreationFailed message), (ms', [reply])) ∧
        process_mint_frame reply h1 = (Ok tt, h2) ∧
        chan_sent (quote_error_tx h2)
          = chan_sent (quote_error_tx h) ++ [mkMintQuoteError 1 (Owned message)] ∧
        pending_quotes h2 !! hash = Some (mkPendingQuote parsed now ctx)
    else
      ∃ err, process_sv2_frame chk frame (ms, []) = (Err (ErrorMessageFailed err), (ms', [])).
Proof.
  intros message Ha Hh Hk Hp R1 R3 Hc. pose proof (share_request_ok amount hash key Ha Hh Hk) as Hr.
  destruct (send_quote_request_spec (share_request amount hash key) ctx now h R1)
    as (h1 & E1 & _ & _ & Ee & Hp1).
  exists (share_request amount hash key), h1, (FrameSv2 (quote_frame MESSAGE_TYPE_MINT_QUOTE_REQUEST
    (val_bytes (request_value (request (share_request amount hash key)))))).
  assert (Hproc : ∀ r s, send_quote_error_to_pool chk message (ms', []) = (r, s) →
    process_sv2_frame chk (FrameSv2 (quote_frame MESSAGE_TYPE_MINT_QUOTE_REQUEST
      (val_bytes (request_value (request (share_request amount hash key)))))) (ms, [])
    = match r with Ok _ => (Err (CreationFailed message), s) | Err x => (Err x, s) | Panic => (Panic, s) end).
  { intros r s E. rewrite (mint_request_frame _ _ _ _ pk) by done.
    erewrite st_bind_ok by (unfold create_quote, cdk_request; rewrite Hc; done).
    refine (eq_trans (y := (send_quote_error_to_pool chk message ≫= λ _,
      throw (CreationFailed message)) (ms', [])) eq_refl _).
    unfold mbind, ST_bind. rewrite E. by destruct r. }
  split_and!; [|done| |].
  - unfold build_parsed_quote_request, ShareHash_try_from. rewrite Hh, Z.eqb_refl.
    cbn [map_err mbind result_bind]. by rewrite build_spec.
  - unfold send_quote_request_to_mint. cbn [negb]. rewrite request_frame by done.
    cbn [map_err mbind result_bind].
    by rewrite (proj1 (quote_frame_spec _ MESSAGE_TYPE_MINT_QUOTE_REQUEST
      (request_payload_fits _ Hr) ltac:(done))).
  - destruct (Z.leb_spec (zlen message) 255) as [Hm|Hm].
    + destruct (receive_error message h1) as (h2 & E2 & Hs & Hp2); [done|by rewrite Ee|].
      exists (reply_error message), h2. split_and!; [|done|by rewrite Hs, Ee|].
      * apply (Hproc (Ok tt)). by apply send_error_spec.
      * rewrite Hp2, Hp1. apply lookup_insert_eq.
    + exists (InnerOps.exceeds B0255_params message). apply (Hproc (Err _)).
      unfold send_quote_error_to_pool, InnerOps.try_from_vec. cbn [ISFIXED B0255_params andb MAXSIZE].
      by rewrite (proj2 (Z.leb_gt _ _)) by lia.
Qed.

(** ** Instances for the witnesses *)

#[local] Existing Instance Keyset.toy_cdk.
#[local] Existing Instance HubProperties.toy_broadcast.
#[local] Existing Instance HubProperties.toy_broadcast_laws.
#[local] Instance toy_hash : HashType := {|
  HashSliceError := Z;
  hash_from_slice := λ l, if zlen l =? 32 then Ok l else Err (zlen l) |}.
#[local] Instance toy_hash_laws : HashTypeLaws.
Proof.
  split; intros l Hl; cbn.
  - by rewrite Hl.
  - rewrite (proj2 (Z.eqb_neq _ _) Hl). eauto.
Defined.
(** A mint that numbers its quotes and refuses those worth nothing. *)
#[local] Instance toy_mint : MintService := {|
  MintState := Z;
  create_mint_mining_share_quote := λ r n,
    if mr_amount r =? 0 then (Err (String.list_byte_of_string "no amount"), n)
    else (Ok (decimal n), n + 1) |}.

Definition toy_pk (odd : bool) : CdkPublicKey := odd.
Definition toy_state (n : Z) : MintState := n.
Definition toy_share : bytes := replicate 5 Byte.x00 ++ replicate 27 Byte.xff.
Definition toy_hub : MintPoolMessageHub := Hub_new MessagingConfig_default.

Lemma share_to_quote_witness :
  ∃ h1 h2 parsed reply,
    send_quote_request parsed (mkContext 3 9 256) 0 toy_hub = (Ok tt, h1) ∧
    process_mint_frame reply h1 = (Ok tt, h2) ∧
    map ev_context (chan_sent (quote_response_tx h2)) = [Some (mkContext 3 9 256)].
Proof.
  destruct (share_to_quote true (mkDispatcher None 32 true) ∅ 3 9 toy_share
    (Keyset.toy_point true) (decimal 17) (toy_pk true) toy_hub 0 1 (toy_state 17) (toy_state 18) (QuotePoller.new None))
    as (parsed & l & h1 & frame & reply & h2 & _ & E1 & _ & _ & E2 & Hs & _);
    [by vm_compute..|].
  exists h1, h2, parsed, reply. split_and!; [exact E1|exact E2|]. by rewrite Hs.
Defined.

Lemma quote_refused_witness :
  ∃ parsed, build_parsed_quote_request 0 (replicate 32 Byte.xff)
    (Owned (Keyset.toy_point false)) = Ok parsed.
Proof.
  destruct (quote_refused true 0 (replicate 32 Byte.xff) (Keyset.toy_point false)
    (String.list_byte_of_string "no amount") (toy_pk false) (mkContext 1 2 0) toy_hub 0
    (toy_state 17) (toy_state 17))
    as (parsed & _ & _ & E & _); [by vm_compute..|]. by exists parsed.
Defined.
