(* ===== verification/RoleProperties.v ===== *)
(** * Properties of the poller, the mint's connection and its frame codec *)

From S2P Require Import Prelude Datatypes Codec CodecFacts CodecTheorems CodecCanonical Framing Messages Utf8 Ehash Keyset Quote Hub HubProperties PoolQuotes MintRole QuoteFlow.
From stdpp Require Import list gmap.
#[local] Open Scope Z_scope.

(** ** The poller *)

Section poller.
Context (mgr : MintIntegrationManager) (downstreams : gset Z).
Context (send : Z → QuotePoller.Notification → bool) (http : bytes → QuotePoller.HttpOutcome).

(** The notification a quote gives rise to, and whether it leaves the table. *)
Definition paid (id : bytes) : bool :=
  match http id with
  | QuotePoller.Success s =>
      bool_decide (QuotePoller.to_ascii_uppercase (QuotePoller.st_state s) = text "PAID")
  | _ => false
  end.
Definition issued_quote (id : bytes) : bool :=
  match http id with
  | QuotePoller.Success s =>
      negb (paid id) &&
      (bool_decide (QuotePoller.to_ascii_uppercase (QuotePoller.st_state s)
                    = text "ISSUED") || QuotePoller.fully_issued s)
  | _ => false
  end.
Definition notified (id : bytes) (q : QuotePoller.PendingQuote)
    : option (Z * QuotePoller.Notification) :=
  if paid id then
    match QuotePoller.notification mgr downstreams (QuotePoller.channel_id q) id
            (QuotePoller.amount q) with
    | Ok (d, n) => if send d n then Some (d, n) else None
    | _ => None
    end
  else None.
Definition settled (id : bytes) (q : QuotePoller.PendingQuote) : bool :=
  bool_decide (is_Some (notified id q)) || issued_quote id.

Lemma poll_quote_spec id q p :
  QuotePoller.poll_quote mgr downstreams send id q (http id) p =
  (match notified id q with Some x => [x] | None => [] end,
   if settled id q then QuotePoller.remove_quote id p else p).
Proof.
  unfold QuotePoller.poll_quote, settled, notified, issued_quote, paid.
  destruct (http id) as [| | | | |s]; try done.
  destruct (bool_decide (_ = text "PAID")); cbn [negb andb].
  - destruct (QuotePoller.notification _ _ _ _ _) as [[d n]|?|]; [|done|done].
    by destruct (send d n).
  - by destruct (_ || _).
Qed.

(** Polling a snapshot removes the settled quotes of the snapshot. *)
Lemma poll_all_spec snapshot p :
  QuotePoller.poll_all mgr downstreams send http snapshot p =
  (omap (λ '(id, q), notified id q) snapshot,
   foldl (λ p '(id, q), if settled id q then QuotePoller.remove_quote id p else p) p snapshot).
Proof.
  revert p. induction snapshot as [|[id q] l IH]; intros p; [done|].
  cbn [QuotePoller.poll_all]. rewrite poll_quote_spec, IH. cbn. by destruct (notified id q).
Qed.
Lemma remove_all_lookup l p id :
  QuotePoller.pending_quotes
    (foldl (λ p '(id, q), if settled id q then QuotePoller.remove_quote id p else p) p l) !! id =
  if existsb (λ '(i, q), bool_decide (i = id) && settled i q) l then None
  else QuotePoller.pending_quotes p !! id.
Proof.
  revert p. induction l as [|[i q] l IH]; intros p; [done|]. cbn [foldl existsb]. rewrite IH.
  destruct (settled i q) eqn:E; cbn [QuotePoller.remove_quote QuotePoller.set_pending
    QuotePoller.pending_quotes]; [|by rewrite andb_false_r].
  rewrite andb_true_r. case_bool_decide as Hi; subst; cbn [orb].
  - rewrite lookup_delete_eq. by destruct (existsb _ l).
  - by rewrite lookup_delete_ne.
Qed.
Lemma notification_quote_id id q d n :
  notified id q = Some (d, n) → QuotePoller.n_quote_id n = id.
Proof.
  unfold notified, QuotePoller.notification. destruct (paid id); [|done].
  unfold InnerOps.try_from_vec. cbn [ISFIXED B0255_params andb MAXSIZE].
  destruct (zlen id <=? 255); [|done]. cbn [map_err mbind result_bind].
  destruct (get_channel_context _ _); [|done]. cbn. case_bool_decide; [|done].
  destruct (send _ _); [|done]. by intros [= <- <-].
Qed.

(** The quotes left to poll after the periodic clean-up. *)
Definition live (poll_count now : Z) (p : QuotePoller.t) : QuotePoller.t :=
  if (poll_count + 1) mod 10 =? 0 then QuotePoller.cleanup_expired_quotes now p else p.

Lemma snapshot_settled (m : gmap bytes QuotePoller.PendingQuote) id :
  existsb (λ '(i, q), bool_decide (i = id) && settled i q) (map_to_list m) =
  match m !! id with Some q => settled id q | None => false end.
Proof.
  apply Bool.eq_iff_eq_true. rewrite existsb_exists. split.
  - intros ([i q] & Hin%list_elem_of_In & Hb). apply elem_of_map_to_list in Hin.
    bool_props. apply bool_decide_eq_true in H as ->. by rewrite Hin.
  - destruct (m !! id) as [q|] eqn:E; [|done]. intros Hs. exists (id, q).
    rewrite <- list_elem_of_In, elem_of_map_to_list. split; [done|].
    by rewrite bool_decide_eq_true_2.
Qed.
End poller.

Lemma notified_nodup mgr ds send http (l : list (bytes * QuotePoller.PendingQuote)) :
  NoDup l.*1 →
  NoDup (QuotePoller.n_quote_id ∘ snd <$> omap (λ '(id, q), notified mgr ds send http id q) l).
Proof.
  induction l as [|[id q] l IH]; [constructor|]. cbn. intros [Hn Hl]%NoDup_cons.
  destruct (notified mgr ds send http id q) as [[d n]|] eqn:E; [|by apply IH].
  cbn. apply NoDup_cons. split; [|by apply IH].
  rewrite (notification_quote_id _ _ _ _ _ _ _ _ E).
  intros ([d' n'] & Hid & ([i q'] & Hin & Hs)%list_elem_of_omap)%list_elem_of_fmap.
  apply notification_quote_id in Hs. cbn in Hid. subst. apply Hn.
  apply list_elem_of_fmap. by exists (QuotePoller.n_quote_id n', q').
Qed.

(** One tick of the quote poller.  After the clean-up of expired quotes (on
    every tenth tick), exactly the live quotes that the mint reports as paid,
    whose channel still has a context and a connected downstream, and whose
    notification could be sent, are notified, each once, to that downstream with
    the quote's channel and amount; they and the quotes reported as issued leave
    the table, all others stay. *)
Theorem poller_tick (mgr : MintIntegrationManager) (downstreams : gset Z)
    (send : Z → QuotePoller.Notification → bool) (http : bytes → QuotePoller.HttpOutcome)
    (poll_count now : Z) (p : QuotePoller.t) :
  let m := QuotePoller.pending_quotes (live poll_count now p) in
  let '(out, p') := QuotePoller.tick mgr downstreams send http poll_count now p in
  (∀ d n, (d, n) ∈ out ↔
     ∃ id q ctx, m !! id = Some q ∧ paid http id = true ∧ zlen id ≤ 255 ∧
       get_channel_context (QuotePoller.channel_id q) mgr = Some ctx ∧
       d = cc_downstream_id ctx ∧ d ∈ downstreams ∧
       n = QuotePoller.mkNotification (QuotePoller.channel_id q) id (QuotePoller.amount q) ∧
       send d n = true) ∧
  NoDup (QuotePoller.n_quote_id ∘ snd <$> out) ∧
  (∀ id, QuotePoller.pending_quotes p' !! id =
     match m !! id with
     | Some q => if settled mgr downstreams send http id q then None else Some q
     | None => None
     end).
Proof.
  intros m. unfold QuotePoller.tick. fold (live poll_count now p). rewrite poll_all_spec.
  split_and!.
  - intros d n. rewrite list_elem_of_omap. split.
    + intros ([id q] & Hin%elem_of_map_to_list & Hn). revert Hn.
      unfold notified, QuotePoller.notification, InnerOps.try_from_vec.
      destruct (paid http id) eqn:Hp; [|done]. cbn [ISFIXED B0255_params andb MAXSIZE].
      destruct (Z.leb_spec (zlen id) 255); [|done]. cbn [map_err mbind result_bind].
      destruct (get_channel_context _ _) as [ctx|] eqn:Ec; [|done]. cbn.
      case_bool_decide as Hd; [|done]. destruct (send _ _) eqn:Es; [|done]. intros [= <- <-].
      exists id, q, ctx. done.
    + intros (id & q & ctx & Hq & Hp & Hl & Hc & -> & Hd & -> & Hs).
      exists (id, q). split; [by apply elem_of_map_to_list|].
      unfold notified, QuotePoller.notification. rewrite Hp, Hc, try_from_vec_b0255 by done.
      cbn. rewrite bool_decide_eq_true_2 by done. cbn. by rewrite Hs.
  - apply notified_nodup, NoDup_fst_map_to_list.
  - intros id. rewrite remove_all_lookup, snapshot_settled. fold m.
    by destruct (m !! id); [destruct (settled _ _ _ _ _ _)|].
Qed.

(** ** The mint's connection *)

Inductive MachineOp : Type :=
  | OpTcp | OpNoise | OpSetup | OpError (message : bytes) | OpReset.
Definition apply_op (o : MachineOp) (m : ConnectionStateMachine) : ConnectionStateMachine :=
  match o with
  | OpTcp => (Machine.tcp_connected m).2
  | OpNoise => (Machine.noise_handshake_complete m).2
  | OpSetup => (Machine.setup_connection_accepted m).2
  | OpError e => Machine.error e m
  | OpReset => Machine.reset m
  end.
Definition run_ops (ops : list MachineOp) : ConnectionStateMachine :=
  foldl (λ m o, apply_op o m) Machine.new ops.
(** Calls that do not tear the connection down. *)
Definition quiet (o : MachineOp) : Prop :=
  match o with OpError _ | OpReset => False | _ => True end.

(** How a state is reached: the phases passed since the last error or reset. *)
Definition reached (ops : list MachineOp) (s : ConnectionState) : Prop :=
  match s with
  | Connecting => ∃ a b, ops = a ++ OpTcp :: b ∧ Forall quiet b
  | SetupInProgress =>
      ∃ a b c, ops = a ++ OpTcp :: b ++ OpNoise :: c ∧ Forall quiet (b ++ c)
  | Ready =>
      ∃ a b c d, ops = a ++ OpTcp :: b ++ OpNoise :: c ++ OpSetup :: d ∧ Forall quiet (b ++ c ++ d)
  | Disconnected | ErrorState => True
  end.

Lemma reached_quiet ops s o : reached ops s → quiet o → reached (ops ++ [o]) s.
Proof.
  intros Hr Ho. destruct s; try done.
  - destruct Hr as (a & b & -> & Hb). exists a, (b ++ [o]).
    split; [by rewrite <- app_assoc|]. apply Forall_app. auto.
  - destruct Hr as (a & b & c & -> & Hb). exists a, b, (c ++ [o]).
    split; [by rewrite <- !app_assoc, <- app_comm_cons, <- app_assoc|].
    rewrite app_assoc. apply Forall_app. auto.
  - destruct Hr as (a & b & c & d & -> & Hb). exists a, b, c, (d ++ [o]).
    split; [by rewrite <- !app_assoc, <- app_comm_cons, <- !app_assoc, <- app_comm_cons, <- app_assoc|].
    rewrite !app_assoc. rewrite !app_assoc in Hb. apply Forall_app. auto.
Qed.

Lemma reached_run ops :
  reached ops (current_state (run_ops ops)) ∧
  (is_Some (last_error (run_ops ops)) ↔ current_state (run_ops ops) = ErrorState).
Proof.
  induction ops as [|o ops [IH Hl]] using rev_ind; [split; [done|split; [by intros []|done]]|].
  unfold run_ops. rewrite foldl_app. cbn [foldl]. fold (run_ops ops).
  assert (Hq : quiet o → reached (ops ++ [o]) (current_state (run_ops ops)))
    by (intros Ho; by apply reached_quiet).
  assert (Hn : ∀ s, s ≠ ErrorState → is_Some (@None bytes) ↔ s = ErrorState)
    by (intros s Hs; split; [by intros []|done]).
  destruct (run_ops ops) as [s l]. cbn [current_state last_error] in *.
  destruct o as [| | |e|]; [| | |split; [done|]; cbn; by split; [|eauto]|by split; [|apply Hn]].
  - destruct s; try (split; [exact (Hq I)|exact Hl]).
    split; [|by apply Hn]. exists ops, []. by split.
  - destruct s; try (split; [exact (Hq I)|exact Hl]).
    split; [|by apply Hn]. destruct IH as (a & b & -> & Hb).
    exists a, b, []. by rewrite app_nil_r, <- app_assoc.
  - destruct s; try (split; [exact (Hq I)|exact Hl]).
    split; [|by apply Hn]. destruct IH as (a & b & c & -> & Hb).
    exists a, b, c, []. by rewrite app_nil_r, <- app_assoc, <- app_comm_cons, <- app_assoc.
Qed.

(** The mint's connection is ready for quotes only after the TCP connection,
    the Noise handshake and the acceptance of the setup, in that order and with
    no error or reset since; calls in any other order leave the phase as it is.
    An error text is held exactly in the error state. *)
Theorem machine_ready_path (ops : list MachineOp) :
  (Machine.is_ready (run_ops ops) = true →
     ∃ a b c d, ops = a ++ OpTcp :: b ++ OpNoise :: c ++ OpSetup :: d ∧ Forall quiet (b ++ c ++ d)) ∧
  (is_Some (last_error (run_ops ops)) ↔ Machine.is_recoverable_error (run_ops ops) = true).
Proof.
  destruct (reached_run ops) as [Hr Hl]. split.
  - unfold Machine.is_ready. intros Hs%bool_decide_eq_true. by rewrite Hs in Hr.
  - unfold Machine.is_recoverable_error. by rewrite bool_decide_eq_true.
Qed.

Lemma machine_ready_path_witness :
  ∃ a b c d, [OpNoise; OpTcp; OpNoise; OpSetup; OpTcp] =
    a ++ OpTcp :: b ++ OpNoise :: c ++ OpSetup :: d ∧ Forall quiet (b ++ c ++ d).
Proof.
  apply (machine_ready_path [OpNoise; OpTcp; OpNoise; OpSetup; OpTcp]). reflexivity.
Defined.

(** ** The frame codec *)

(** The mint's own response encoder never produces a frame: it encodes into
    an empty vector, so every well-formed response ends in a write error. *)
Theorem mint_response_encoder_fails (overflow_checks : bool) (r : MintQuoteResponse) :
  response_ok r →
  ∃ a b, FrameCodec.encode_mint_quote_response overflow_checks r =
    Err (FrameCodec.EncodeFailed (WriteError a b)).
Proof.
  intros Hr. pose proof (response_typed r Hr) as Ht.
  destruct (into_field_spec overflow_checks _ _ Ht eq_refl) as (f & Hf & Hok & Hb).
  unfold FrameCodec.encode_mint_quote_response, to_bytes_into. rewrite Hf.
  destruct (encode_short f [] 0 Hok) as (a & b & dst & -> & _); [done| |by eauto].
  rewrite Hb, <- get_size_spec. change (zlen []) with 0. unfold response_value.
  destruct Hr as [Hq Hh]. cbn [get_size dprim_get_size]. unfold sum_sizes. cbn [foldl get_size dprim_get_size].
  rewrite !inner_size, Hh. cbn [HEADERSIZE B0255_params U256_params].
  pose proof (zlen_nonneg (inner_as_ref (r_quote_id r))). lia.
Qed.

Lemma mint_response_encoder_fails_witness :
  ∃ a b, FrameCodec.encode_mint_quote_response true
      (mkMintQuoteResponse (Owned (to_le_bytes 8 7)) (Owned (to_le_bytes 32 5))) =
    Err (FrameCodec.EncodeFailed (WriteError a b)).
Proof. apply mint_response_encoder_fails. split; vm_compute; done. Defined.

(** The mint's error encoder and decoder disagree on the layout: decoding
    the bytes that follow the type byte returns the code, and the message with
    its length byte as first character. *)
Theorem mint_error_codec_mismatch (code : Z) (message frame : bytes) :
  fits 32 code → utf8_valid message = true → zlen message < 128 →
  FrameCodec.encode_mint_quote_error code message = Ok frame →
  FrameCodec.decode_mint_quote_error (zdrop 1 frame) =
    Ok (code, byte.of_Z (zlen message) :: message).
Proof.
  intros Hc Hv Hl. pose proof (zlen_nonneg message). unfold FrameCodec.encode_mint_quote_error.
  destruct (_ || _); [done|]. intros Hf.
  assert (frame = to_le_bytes 1 0x82 ++ to_le_bytes 4 code
            ++ to_le_bytes 1 (wrap 8 (zlen message)) ++ message) as -> by congruence.
  rewrite zdrop_app by done. unfold FrameCodec.decode_mint_quote_error.
  rewrite (proj2 (Z.ltb_ge _ _)) by len_solve.
  rewrite slice_from_ok by len_solve. cbn [mbind result_bind].
  rewrite ztake_app, zdrop_app, from_to_le_bytes by done.
  rewrite wrap_small by (unfold fits; lia).
  change (to_le_bytes 1 (zlen message) ++ message) with (byte.of_Z (zlen message) :: message).
  by rewrite utf8_lossy_ascii_cons, from_utf8_lossy_valid.
Qed.

Lemma mint_error_codec_mismatch_witness :
  FrameCodec.decode_mint_quote_error
    (zdrop 1 (to_le_bytes 1 0x82 ++ to_le_bytes 4 7 ++ to_le_bytes 1 2
                ++ String.list_byte_of_string "no")) =
  Ok (7, byte.of_Z 2 :: String.list_byte_of_string "no").
Proof.
  apply (mint_error_codec_mismatch 7 (String.list_byte_of_string "no"));
    vm_compute; first [reflexivity | split; [discriminate|reflexivity]].
Defined.
