(* ===== verification/Mining.v ===== *)
(** * Targets and extranonces of the mining protocol

    [subprotocols/mining/src/lib.rs]: the [Target] of a channel and its order,
    and [ExtendedExtranonce], from which the search space is split among
    channels.  A [usize] range is a pair of bounds; an [Extranonce] and a
    [U256] are their bytes. *)

From S2P Require Import Prelude.

Definition MAX_EXTRANONCE_LEN : Z := 32.

(** ** Targets *)

Record Target : Type := mkTarget {
  target_head : Z;      (** least significant 128 bits *)
  target_tail : Z }.    (** most significant 128 bits *)
#[global] Instance Target_eq_dec : EqDecision Target.
Proof. solve_decision. Defined.

Definition Target_from_bytes (v : bytes) : Target :=
  mkTarget (from_le_bytes (ztake 16 v)) (from_le_bytes (ztake 16 (zdrop 16 v))).
Definition Target_into_U256 (v : Target) : bytes :=
  to_le_bytes 16 (target_head v) ++ to_le_bytes 16 (target_tail v).
Definition Target_cmp (a b : Target) : comparison :=
  if (target_tail a =? target_tail b) && (target_head a =? target_head b) then Eq
  else if negb (target_tail a =? target_tail b) then target_tail a ?= target_tail b
  else target_head a ?= target_head b.
Definition Target_le (a b : Target) : bool :=
  match Target_cmp a b with Gt => false | _ => true end.
Definition Target_gt (a b : Target) : bool :=
  match Target_cmp a b with Gt => true | _ => false end.

(** ** Incrementing a big-endian counter *)

Definition bmax : Byte.byte := byte.of_Z 255.
(** The loop over the bytes from the last one. *)
Fixpoint increment_rev (bs : bytes) : bool * bytes :=
  match bs with
  | [] => (false, [])
  | b :: bs =>
      if negb (byte.unsigned b =? 255) then (true, byte.of_Z (byte.unsigned b + 1) :: bs)
      else let '(ok, bs) := increment_rev bs in (ok, byte.of_Z 0 :: bs)
  end.
Definition increment_bytes_be (bs : bytes) : result unit unit * bytes :=
  let '(ok, rs) := increment_rev (reverse bs) in
  if ok then (Ok tt, reverse rs) else (Err tt, map (λ _, bmax) bs).

(** ** Extended extranonces *)

Record Range : Type := mkRange { r_start : Z; r_end : Z }.
Record ExtendedExtranonce : Type := mkExtranonce {
  inner : bytes;
  range_0 : Range;
  range_1 : Range;
  range_2 : Range;
  static_prefix : option bytes }.
Inductive ExtendedExtranonceError : Type :=
  | ExceedsMaxLength
  | InvalidRanges
  | InvalidDownstreamLength
  | MaxValueReached
  | InvalidStaticPrefixLength.

Definition set_inner (i : bytes) (v : ExtendedExtranonce) : ExtendedExtranonce :=
  mkExtranonce i (range_0 v) (range_1 v) (range_2 v) (static_prefix v).
Definition resize (l : bytes) (n : Z) : bytes :=
  ztake n l ++ replicate (Z.to_nat (n - zlen l)) (byte.of_Z 0).

(** [Extranonce]: construction from a vector and zero-filled. *)
Definition Extranonce_try_from (v : bytes) : result unit bytes :=
  if MAX_EXTRANONCE_LEN <? zlen v then Err tt else Ok v.
Definition Extranonce_new (len : Z) : option bytes :=
  if MAX_EXTRANONCE_LEN <? len then None else Some (replicate (Z.to_nat len) (byte.of_Z 0)).
Definition from_vec_with_len (extranonce : bytes) (len : Z) : bytes := resize extranonce len.
Definition Extranonce_next : ST bytes unit bytes := λ e,
  match increment_bytes_be e with (Ok _, e') => (Ok e', e') | (Err _, e') => (Err tt, e')
  | (Panic, e') => (Panic, e') end.
Definition Extranonce_from_extended (v : ExtendedExtranonce) : bytes :=
  ztake (r_end (range_2 v)) (inner v).

Definition bad_ranges (r0 r1 r2 : Range) : bool :=
  negb (r_start r0 =? 0) || negb (r_end r0 =? r_start r1) || negb (r_end r1 =? r_start r2)
    || (r_end r1 <? r_start r1) || (r_end r2 <? r_start r2).

Module ExtendedExtranonceOps.
Definition new (range_0 range_1 range_2 : Range) (static_prefix : option bytes)
    : result ExtendedExtranonceError ExtendedExtranonce :=
  if bad_ranges range_0 range_1 range_2 then Err InvalidRanges
  else if match static_prefix with
          | Some p => Z.min 2 (r_end range_1 - r_start range_1) <? zlen p
          | None => false
          end then Err InvalidStaticPrefixLength
  else if MAX_EXTRANONCE_LEN <? r_end range_2 then Err ExceedsMaxLength
  else
    let inner := replicate (Z.to_nat (r_end range_2)) (byte.of_Z 0) in
    let inner :=
      match static_prefix with Some p => overwrite inner (r_start range_1) p | None => inner end in
    Ok (mkExtranonce inner range_0 range_1 range_2 static_prefix).

Definition from_upstream_extranonce (v : bytes) (range_0 range_1 range_2 : Range)
    : result ExtendedExtranonceError ExtendedExtranonce :=
  if bad_ranges range_0 range_1 range_2 then Err InvalidRanges
  else if MAX_EXTRANONCE_LEN <? r_end range_2 then Err ExceedsMaxLength
  else
    let inner := resize v (r_end range_2) in
    let rest := replicate (Z.to_nat (r_end range_2 - zlen inner)) (byte.of_Z 0) in
    Ok (mkExtranonce (inner ++ rest) range_0 range_1 range_2 None).

Definition get_len (v : ExtendedExtranonce) : Z := r_end (range_2 v).
Definition get_range2_len (v : ExtendedExtranonce) : Z := r_end (range_2 v) - r_start (range_2 v).
Definition get_range0_len (v : ExtendedExtranonce) : Z := r_end (range_0 v) - r_start (range_0 v).
Definition get_prefix_len (v : ExtendedExtranonce) : Z := r_end (range_1 v) - r_start (range_0 v).

(** Applies a mutation to the window [from, to) of the inner bytes. *)
Definition on_window (f : bytes → result unit unit * bytes) (from to : Z)
    : ST ExtendedExtranonce ExtendedExtranonceError (result unit unit) := λ v,
  match slice_range (E := ExtendedExtranonceError) (inner v) from to with
  | Ok w => let '(r, w') := f w in (Ok r, set_inner (overwrite (inner v) from w') v)
  | Err e => (Err e, v)
  | Panic => (Panic, v)
  end.

Definition next_prefix_standard : ST ExtendedExtranonce ExtendedExtranonceError bytes :=
  r2 ← gets range_2;
  r ← on_window increment_bytes_be (r_start r2) (r_end r2);
  match r with
  | Ok _ => gets Extranonce_from_extended
  | _ => throw MaxValueReached
  end.

Definition next_prefix_extended (required_len : Z)
    : ST ExtendedExtranonce ExtendedExtranonceError bytes :=
  r2 ← gets range_2;
  if r_end r2 - r_start r2 <? required_len then throw InvalidDownstreamLength
  else
    r1 ← gets range_1;
    p ← gets static_prefix;
    let extended_part_start := r_start r1 + match p with Some p => zlen p | None => 0 end in
    r ← on_window increment_bytes_be extended_part_start (r_end r1);
    match r with
    | Ok _ =>
        i ← gets inner;
        res ← lift (slice_range i 0 (r_end r1));
        lift (map_err (λ _, ExceedsMaxLength) (Extranonce_try_from res))
    | _ => throw MaxValueReached
    end.

Definition extranonce_from_downstream_extranonce (downstream : bytes) (v : ExtendedExtranonce)
    : result ExtendedExtranonceError bytes :=
  if negb (zlen downstream =? get_range2_len v) then Err InvalidDownstreamLength
  else
    res ← slice_range (inner v) (r_start (range_0 v)) (r_end (range_1 v));
    map_err (λ _, ExceedsMaxLength) (Extranonce_try_from (res ++ downstream)).
Definition without_upstream_part (downstream : option bytes) (v : ExtendedExtranonce)
    : result ExtendedExtranonceError bytes :=
  match downstream with
  | Some d =>
      if negb (zlen d =? get_range2_len v) then Err InvalidDownstreamLength
      else
        res ← slice_range (inner v) (r_start (range_1 v)) (r_end (range_1 v));
        map_err (λ _, ExceedsMaxLength) (Extranonce_try_from (res ++ d))
  | None =>
      res ← slice_range (inner v) (r_start (range_1 v)) (r_end (range_2 v));
      map_err (λ _, ExceedsMaxLength) (Extranonce_try_from res)
  end.
Definition upstream_part (v : ExtendedExtranonce) : result ExtendedExtranonceError bytes :=
  res ← slice_range (inner v) (r_start (range_0 v)) (r_end (range_1 v));
  match Extranonce_try_from res with Ok e => Ok e | _ => Panic end.
End ExtendedExtranonceOps.
