(* ===== verification/MiningProperties.v ===== *)
(** * Properties of targets and extranonces *)

From S2P Require Import Prelude Mining.
From stdpp Require Import list.
#[local] Open Scope Z_scope.

(** ** The order of targets *)

Lemma Target_value v :
  zlen v = 32 → from_le_bytes v = target_head (Target_from_bytes v) + 2 ^ 128 * target_tail (Target_from_bytes v).
Proof.
  intros Hl. cbn [Target_from_bytes target_head target_tail].
  rewrite (ztake_ge 16 (zdrop 16 v)) by (rewrite zlen_drop; lia).
  rewrite <- (ztake_zdrop 16 v) at 1. rewrite from_le_bytes_app.
  by rewrite zlen_take by lia.
Qed.
Lemma Target_fits v :
  zlen v = 32 → fits 128 (target_head (Target_from_bytes v)) ∧ fits 128 (target_tail (Target_from_bytes v)).
Proof.
  intros Hl. cbn [Target_from_bytes target_head target_tail].
  pose proof (from_le_bytes_fits (ztake 16 v)) as H1.
  pose proof (from_le_bytes_fits (ztake 16 (zdrop 16 v))) as H2.
  rewrite zlen_take in H1 by lia. rewrite zlen_take in H2 by (rewrite zlen_drop; lia). done.
Qed.

Lemma Target_cmp_value v w :
  zlen v = 32 → zlen w = 32 →
  Target_cmp (Target_from_bytes v) (Target_from_bytes w) = (from_le_bytes v ?= from_le_bytes w).
Proof.
  intros Hv Hw. rewrite (Target_value v), (Target_value w) by done.
  destruct (Target_fits v Hv) as [Hh Ht], (Target_fits w Hw) as [Hh' Ht'].
  destruct (Target_from_bytes v) as [h t], (Target_from_bytes w) as [h' t'].
  unfold Target_cmp, fits in *. cbn [target_head target_tail] in *.
  destruct (Z.eqb_spec t t') as [->|Hn]; cbn [andb negb].
  - destruct (Z.eqb_spec h h') as [->|Hn']; symmetry; [by apply Z.compare_eq_iff|].
    destruct (Z.compare_spec h h'); [done|apply Z.compare_lt_iff|apply Z.compare_gt_iff]; lia.
  - symmetry. destruct (Z.compare_spec t t'); [done|apply Z.compare_lt_iff|apply Z.compare_gt_iff];
      lia.
Qed.
Lemma Target_bytes v : zlen v = 32 → Target_into_U256 (Target_from_bytes v) = v.
Proof.
  intros Hv. unfold Target_into_U256. cbn [Target_from_bytes target_head target_tail].
  rewrite !to_from_le_bytes_n by (rewrite zlen_take; [done|rewrite ?zlen_drop; lia]).
  rewrite (ztake_ge 16 (zdrop 16 v)) by (rewrite zlen_drop; lia). apply ztake_zdrop.
Qed.

(** The order on targets is the order of the 256-bit little-endian numbers
    they are read from, and converting a target back gives the same bytes: the
    two 128-bit halves are compared most significant first. *)
Theorem target_order (v w : bytes) :
  zlen v = 32 → zlen w = 32 →
  Target_cmp (Target_from_bytes v) (Target_from_bytes w) = (from_le_bytes v ?= from_le_bytes w) ∧
  Target_le (Target_from_bytes v) (Target_from_bytes w) = (from_le_bytes v <=? from_le_bytes w) ∧
  Target_into_U256 (Target_from_bytes v) = v.
Proof.
  intros Hv Hw. split_and!; [by apply Target_cmp_value| |by apply Target_bytes].
  unfold Target_le, Z.leb. by rewrite Target_cmp_value.
Qed.

Lemma target_order_witness :
  Target_le (Target_from_bytes (to_le_bytes 32 (2 ^ 200))) (Target_from_bytes (to_le_bytes 32 (2 ^ 200 + 2 ^ 7)))
  = (from_le_bytes (to_le_bytes 32 (2 ^ 200)) <=? from_le_bytes (to_le_bytes 32 (2 ^ 200 + 2 ^ 7))).
Proof.
  apply (target_order (to_le_bytes 32 (2 ^ 200)) (to_le_bytes 32 (2 ^ 200 + 2 ^ 7)));
    vm_compute; reflexivity.
Defined.

(** ** Counters *)

Lemma increment_rev_spec bs :
  length (increment_rev bs).2 = length bs ∧
  if (increment_rev bs).1
  then from_le_bytes (increment_rev bs).2 = from_le_bytes bs + 1
  else from_le_bytes bs = 2 ^ (8 * zlen bs) - 1.
Proof.
  induction bs as [|b bs [IHl IH]]; [done|]. cbn [increment_rev].
  change (b :: bs) with ([b] ++ bs). rewrite !from_le_bytes_app, from_le_bytes_single.
  change (zlen [b]) with 1. pose proof (byte.unsigned_range b).
  destruct (Z.eqb_spec (byte.unsigned b) 255) as [Hb|Hb]; cbn [negb].
  - destruct (increment_rev bs) as [ok bs']. cbn [fst snd] in *. split; [cbn; lia|].
    destruct ok; cbn [fst snd].
    + change (byte.of_Z 0 :: bs') with ([byte.of_Z 0] ++ bs').
      rewrite from_le_bytes_app, from_le_bytes_single.
      change (byte.unsigned (byte.of_Z 0)) with 0. change (zlen [byte.of_Z 0]) with 1. lia.
    + rewrite IH, Hb, zlen_app. change (zlen [b]) with 1. pose proof (zlen_nonneg bs).
      replace (8 * (1 + zlen bs)) with (8 + 8 * zlen bs) by lia. rewrite Z.pow_add_r by lia. lia.
  - cbn [fst snd length]. split; [done|].
    change (byte.of_Z (byte.unsigned b + 1) :: bs) with ([byte.of_Z (byte.unsigned b + 1)] ++ bs).
    rewrite from_le_bytes_app, from_le_bytes_single, byte.unsigned_of_Z. unfold byte.wrap.
    rewrite Z.mod_small by lia.
    change (zlen [byte.of_Z (byte.unsigned b + 1)]) with 1. lia.
Qed.

Lemma from_be_bytes_max (bs : bytes) : from_be_bytes (map (λ _, bmax) bs) = 2 ^ (8 * zlen bs) - 1.
Proof.
  induction bs as [|b bs IH]; [done|]. cbn [map]. rewrite from_be_bytes_cons, IH.
  assert (zlen (map (λ _ : Byte.byte, bmax) bs) = zlen bs) as -> by (unfold zlen; by rewrite length_map).
  change (byte.unsigned bmax) with 255. rewrite zlen_cons. pose proof (zlen_nonneg bs).
  replace (8 * (1 + zlen bs)) with (8 + 8 * zlen bs) by lia. rewrite Z.pow_add_r by lia. lia.
Qed.

Lemma increment_spec bs :
  zlen (increment_bytes_be bs).2 = zlen bs ∧
  if from_be_bytes bs <? 2 ^ (8 * zlen bs) - 1
  then (increment_bytes_be bs).1 = Ok tt ∧
       from_be_bytes (increment_bytes_be bs).2 = from_be_bytes bs + 1
  else (increment_bytes_be bs).1 = Err tt ∧
       from_be_bytes (increment_bytes_be bs).2 = from_be_bytes bs.
Proof.
  pose proof (from_be_bytes_range bs) as Hr. unfold increment_bytes_be.
  destruct (increment_rev_spec (reverse bs)) as [Hl Hi].
  change (from_le_bytes (reverse bs)) with (from_be_bytes bs) in Hi.
  assert (zlen (reverse bs) = zlen bs) as Hz by (unfold zlen; by rewrite length_reverse).
  destruct (increment_rev (reverse bs)) as [ok rs]. cbn [fst snd] in *.
  assert (zlen rs = zlen bs) as Hrs by (unfold zlen in *; lia).
  destruct ok; cbn [fst snd].
  - assert (from_be_bytes (reverse rs) = from_be_bytes bs + 1) as He.
    { unfold from_be_bytes at 1. by rewrite reverse_involutive. }
    pose proof (from_be_bytes_range (reverse rs)) as Hr'.
    assert (zlen (reverse rs) = zlen bs) as Hz' by (unfold zlen in *; rewrite length_reverse; lia).
    rewrite Hz' in Hr'. rewrite (proj2 (Z.ltb_lt _ _)) by lia. done.
  - rewrite Hz in Hi. rewrite Hi, Z.ltb_irrefl, from_be_bytes_max.
    split; [|done]. unfold zlen. by rewrite length_map.
Qed.

(** ** Allocation of extranonce prefixes *)

Import ExtendedExtranonceOps.

(** Successive requests to one factory: the prefixes handed out. *)
Fixpoint alloc_standard (n : nat) (v : ExtendedExtranonce) : list bytes * ExtendedExtranonce :=
  match n with
  | O => ([], v)
  | S n =>
      match next_prefix_standard v with
      | (Ok p, v) => let '(ps, v) := alloc_standard n v in (p :: ps, v)
      | (_, v) => alloc_standard n v
      end
  end.
Fixpoint alloc_extended (required : list Z) (v : ExtendedExtranonce)
    : list bytes * ExtendedExtranonce :=
  match required with
  | [] => ([], v)
  | r :: required =>
      match next_prefix_extended r v with
      | (Ok p, v) => let '(ps, v) := alloc_extended required v in (p :: ps, v)
      | (_, v) => alloc_extended required v
      end
  end.

(** The inner bytes around the counter a request increments. *)
Record window (v : ExtendedExtranonce) (a b : Z) (pre w post : bytes) : Prop := mkWindow {
  win_inner : inner v = pre ++ w ++ post;
  win_start : zlen pre = a;
  win_end : a + zlen w = b }.

Lemma on_window_spec v a b pre w post :
  window v a b pre w post →
  on_window increment_bytes_be a b v =
    (Ok (increment_bytes_be w).1, set_inner (pre ++ (increment_bytes_be w).2 ++ post) v).
Proof.
  intros [Hi Ha Hb]. unfold on_window. rewrite Hi. pose proof (zlen_nonneg w).
  rewrite (slice_range_mid pre w post a b) by lia.
  destruct (increment_spec w) as [Hl _]. destruct (increment_bytes_be w) as [r w'].
  cbn [fst snd] in *. rewrite <- Ha. do 2 f_equal. apply overwrite_app. lia.
Qed.
Lemma window_step v a b pre w post :
  window v a b pre w post →
  window (set_inner (pre ++ (increment_bytes_be w).2 ++ post) v) a b pre (increment_bytes_be w).2 post.
Proof. intros [Hi Ha Hb]. destruct (increment_spec w) as [Hl _]. split; [done|done|lia]. Qed.

(** Prefixes that continue [pre] by a counter above [c]. *)
Definition above (pre : bytes) (n c : Z) (p : bytes) : Prop :=
  ∃ w, p = pre ++ w ∧ zlen w = n ∧ c < from_be_bytes w.
Lemma above_weaken pre n c c' p : c' ≤ c → above pre n c p → above pre n c' p.
Proof. intros Hc (w & -> & Hn & Hw). exists w. split_and!; [done|done|lia]. Qed.
Lemma NoDup_above pre w ps :
  Forall (above pre (zlen w) (from_be_bytes w)) ps → NoDup ps → NoDup ((pre ++ w) :: ps).
Proof.
  intros Ha Hn. apply NoDup_cons. split; [|done]. intros Hin.
  rewrite Forall_forall in Ha. destruct (Ha _ Hin) as (w' & He & _ & Hlt).
  simplify_list_eq. lia.
Qed.

(** ** The claims of allocation *)

Lemma next_standard_step v pre w post :
  window v (r_start (range_2 v)) (r_end (range_2 v)) pre w post →
  ∃ r v', next_prefix_standard v = (r, v') ∧ range_2 v' = range_2 v ∧
    window v' (r_start (range_2 v)) (r_end (range_2 v)) pre (increment_bytes_be w).2 post ∧
    r = if from_be_bytes w <? 2 ^ (8 * zlen w) - 1
        then Ok (pre ++ (increment_bytes_be w).2) else Err MaxValueReached.
Proof.
  intros Hw. pose proof (window_step _ _ _ _ _ _ Hw) as Hw'.
  unfold next_prefix_standard. rewrite st_gets_bind.
  erewrite st_bind_ok by (by apply on_window_spec). destruct (increment_spec w) as [Hl Hi].
  destruct (from_be_bytes w <? _); destruct Hi as [-> Hv];
    (eexists; eexists; split_and!; [reflexivity|done|done|]); [|done].
  cbn [gets]. unfold gets, Extranonce_from_extended. cbn [range_2 set_inner inner].
  f_equal. destruct Hw as [_ Ha Hb].
  rewrite app_assoc, ztake_app; [done|]. rewrite zlen_app. lia.
Qed.

Definition static_len (v : ExtendedExtranonce) : Z :=
  match static_prefix v with Some p => zlen p | None => 0 end.

Lemma next_extended_step required v pre w post :
  window v (r_start (range_1 v) + static_len v) (r_end (range_1 v)) pre w post →
  r_end (range_1 v) ≤ MAX_EXTRANONCE_LEN →
  ∃ r v', next_prefix_extended required v = (r, v') ∧
    range_1 v' = range_1 v ∧ range_2 v' = range_2 v ∧ static_prefix v' = static_prefix v ∧
    if r_end (range_2 v) - r_start (range_2 v) <? required
    then r = Err InvalidDownstreamLength ∧ v' = v
    else window v' (r_start (range_1 v) + static_len v) (r_end (range_1 v)) pre
           (increment_bytes_be w).2 post ∧
      r = if from_be_bytes w <? 2 ^ (8 * zlen w) - 1
          then Ok (pre ++ (increment_bytes_be w).2) else Err MaxValueReached.
Proof.
  intros Hw Hm. pose proof (window_step _ _ _ _ _ _ Hw) as Hw'.
  unfold next_prefix_extended. rewrite st_gets_bind.
  destruct (r_end (range_2 v) - r_start (range_2 v) <? required).
  { eexists; eexists; split_and!; [reflexivity|done..]. }
  rewrite !st_gets_bind. fold (static_len v).
  erewrite st_bind_ok by (by apply on_window_spec). destruct (increment_spec w) as [Hl Hi].
  destruct (from_be_bytes w <? _); destruct Hi as [-> Hv]; [|by eexists; eexists; split_and!].
  rewrite st_gets_bind. cbn [inner set_inner].
  destruct Hw as [_ Ha Hb]. pose proof (zlen_nonneg pre). pose proof (zlen_nonneg w).
  rewrite app_assoc.
  assert (slice_range (E := ExtendedExtranonceError) ((pre ++ (increment_bytes_be w).2) ++ post) 0
            (r_end (range_1 v)) = Ok (pre ++ (increment_bytes_be w).2)) as ->.
  { apply slice_range_prefix. rewrite zlen_app. lia. }
  rewrite st_lift_bind. unfold Extranonce_try_from.
  rewrite (proj2 (Z.ltb_ge MAX_EXTRANONCE_LEN (zlen _))) by (rewrite zlen_app; lia).
  eexists; eexists; split_and!; [reflexivity|done|done|done| |done].
  by rewrite <- app_assoc.
Qed.

Lemma alloc_standard_above n v pre w post :
  window v (r_start (range_2 v)) (r_end (range_2 v)) pre w post →
  Forall (above pre (zlen w) (from_be_bytes w)) (alloc_standard n v).1 ∧
  NoDup (alloc_standard n v).1.
Proof.
  revert v w. induction n as [|n IH]; intros v w Hw; [split; constructor|]. cbn [alloc_standard].
  destruct (next_standard_step v pre w post Hw) as (r & v' & -> & Hr & Hw' & ->).
  destruct (increment_spec w) as [Hl Hi]. rewrite <- Hr in Hw'. specialize (IH _ _ Hw').
  rewrite Hl in IH. destruct (from_be_bytes w <? _); destruct Hi as [_ Hv]; rewrite Hv in IH.
  - destruct (alloc_standard n v') as [ps v'']. cbn [fst] in *. destruct IH as [IH Hn]. split.
    + constructor.
      * exists (increment_bytes_be w).2. split_and!; [done|done|lia].
      * eapply Forall_impl; [done|]. intros p. apply above_weaken. lia.
    + apply NoDup_above; [|done]. by rewrite Hl, Hv.
  - done.
Qed.

Lemma alloc_extended_above required v pre w post :
  window v (r_start (range_1 v) + static_len v) (r_end (range_1 v)) pre w post →
  r_end (range_1 v) ≤ MAX_EXTRANONCE_LEN →
  Forall (above pre (zlen w) (from_be_bytes w)) (alloc_extended required v).1 ∧
  NoDup (alloc_extended required v).1.
Proof.
  revert v w. induction required as [|q required IH]; intros v w Hw Hm; [split; constructor|].
  cbn [alloc_extended].
  destruct (next_extended_step q v pre w post Hw Hm) as (r & v' & -> & H1 & H2 & Hs & Hif).
  destruct (_ <? q); [destruct Hif as [-> ->]; by apply IH|]. destruct Hif as [Hw' ->].
  destruct (increment_spec w) as [Hl Hi]. unfold static_len in Hw'.
  rewrite <- H1, <- Hs in Hw'. fold (static_len v') in Hw'.
  specialize (IH _ _ Hw' ltac:(by rewrite H1)).
  rewrite Hl in IH. destruct (from_be_bytes w <? _); destruct Hi as [_ Hv]; rewrite Hv in IH.
  - destruct (alloc_extended required v') as [ps v'']. cbn [fst] in *. destruct IH as [IH Hn]. split.
    + constructor.
      * exists (increment_bytes_be w).2. split_and!; [done|done|lia].
      * eapply Forall_impl; [done|]. intros p. apply above_weaken. lia.
    + apply NoDup_above; [|done]. by rewrite Hl, Hv.
  - done.
Qed.

(** How many requests succeed: each takes one value of the counter. *)
Lemma alloc_standard_count n v pre w post :
  window v (r_start (range_2 v)) (r_end (range_2 v)) pre w post →
  zlen (alloc_standard n v).1 = Z.min (Z.of_nat n) (2 ^ (8 * zlen w) - 1 - from_be_bytes w).
Proof.
  revert v w. induction n as [|n IH]; intros v w Hw; pose proof (from_be_bytes_range w).
  { cbn [alloc_standard fst]. unfold zlen at 1. cbn [length]. lia. }
  cbn [alloc_standard].
  destruct (next_standard_step v pre w post Hw) as (r & v' & -> & Hr & Hw' & ->).
  destruct (increment_spec w) as [Hl Hi]. rewrite <- Hr in Hw'. specialize (IH _ _ Hw').
  rewrite Hl in IH. destruct (Z.ltb_spec (from_be_bytes w) (2 ^ (8 * zlen w) - 1));
    destruct Hi as [_ Hv]; rewrite Hv in IH.
  - destruct (alloc_standard n v') as [ps v'']. cbn [fst] in *. rewrite zlen_cons, IH. lia.
  - rewrite IH. lia.
Qed.
Definition admissible (v : ExtendedExtranonce) (required : Z) : bool :=
  required <=? r_end (range_2 v) - r_start (range_2 v).
Lemma alloc_extended_count required v pre w post :
  window v (r_start (range_1 v) + static_len v) (r_end (range_1 v)) pre w post →
  r_end (range_1 v) ≤ MAX_EXTRANONCE_LEN →
  zlen (alloc_extended required v).1 =
    Z.min (zlen (List.filter (admissible v) required)) (2 ^ (8 * zlen w) - 1 - from_be_bytes w).
Proof.
  revert v w. induction required as [|q required IH]; intros v w Hw Hm;
    pose proof (from_be_bytes_range w).
  { cbn [alloc_extended List.filter fst]. unfold zlen at 1 2. cbn [length]. lia. }
  cbn [alloc_extended List.filter].
  destruct (next_extended_step q v pre w post Hw Hm) as (r & v' & -> & H1 & H2 & Hs & Hif).
  unfold admissible at 1.
  destruct (Z.ltb_spec (r_end (range_2 v) - r_start (range_2 v)) q) as [Hq|Hq].
  { destruct Hif as [-> ->]. rewrite (proj2 (Z.leb_gt _ _)) by lia. by apply IH. }
  rewrite (proj2 (Z.leb_le _ _)) by lia. rewrite zlen_cons.
  pose proof (zlen_nonneg (List.filter (admissible v) required)).
  destruct Hif as [Hw' ->]. destruct (increment_spec w) as [Hl Hi]. unfold static_len in Hw'.
  rewrite <- H1, <- Hs in Hw'. fold (static_len v') in Hw'.
  specialize (IH _ _ Hw' ltac:(by rewrite H1)).
  assert (Ha : admissible v' = admissible v) by (unfold admissible; by rewrite H2).
  rewrite Hl, Ha in IH. destruct (Z.ltb_spec (from_be_bytes w) (2 ^ (8 * zlen w) - 1));
    destruct Hi as [_ Hv]; rewrite Hv in IH.
  - destruct (alloc_extended required v') as [ps v'']. cbn [fst] in *. rewrite zlen_cons, IH. lia.
  - rewrite IH. lia.
Qed.

(** ** A new factory *)

Definition zeros (n : Z) : bytes := replicate (Z.to_nat n) (byte.of_Z 0).
Lemma zeros_len n : 0 ≤ n → zlen (zeros n) = n.
Proof. intros. unfold zeros. rewrite zlen_replicate. lia. Qed.
Lemma zeros_app a b : 0 ≤ a → 0 ≤ b → zeros a ++ zeros b = zeros (a + b).
Proof. intros. unfold zeros. rewrite <- replicate_add. f_equal. lia. Qed.
Lemma zeros_be n : from_be_bytes (zeros n) = 0.
Proof.
  unfold zeros. induction (Z.to_nat n) as [|k IH]; [done|]. cbn [replicate].
  rewrite from_be_bytes_cons, IH. done.
Qed.

Definition new_prefix (p : option bytes) : bytes := match p with Some p => p | None => [] end.
Lemma new_spec r0 r1 r2 p v :
  0 ≤ r_end r0 → new r0 r1 r2 p = Ok v →
  let n := r_start r1 + zlen (new_prefix p) in
  0 ≤ r_start r1 ∧ n ≤ r_end r1 ∧ r_end r1 = r_start r2 ∧ r_start r2 ≤ r_end r2 ≤ MAX_EXTRANONCE_LEN ∧
  range_1 v = r1 ∧ range_2 v = r2 ∧ static_len v = zlen (new_prefix p) ∧
  inner v = zeros (r_start r1) ++ new_prefix p ++ zeros (r_end r1 - n) ++ zeros (r_end r2 - r_end r1).
Proof.
  intros H0. unfold new, bad_ranges. destruct (_ || _) eqn:Hb; [done|].
  repeat (apply orb_false_iff in Hb as [Hb ?]). bool_props.
  pose proof (zlen_nonneg (new_prefix p)).
  destruct (match p with Some _ => _ | None => _ end) eqn:Hp; [done|].
  destruct (Z.ltb_spec MAX_EXTRANONCE_LEN (r_end r2)); [done|]. intros [= <-].
  cbn [range_1 range_2 inner].
  assert (Hn : r_start r1 + zlen (new_prefix p) ≤ r_end r1).
  { destruct p as [p|]; cbn [new_prefix] in *; [bool_props; lia|].
    change (zlen (@nil Byte.byte)) with 0 in *. lia. }
  split_and!; try lia; try done.
  - by destruct p.
  - rewrite zeros_app by lia.
    replace (r_end r1 - (r_start r1 + zlen (new_prefix p)) + (r_end r2 - r_end r1))
      with (r_end r2 - (r_start r1 + zlen (new_prefix p))) by lia.
    destruct p as [p|]; cbn [new_prefix] in *.
    + change (replicate (Z.to_nat (r_end r2)) (byte.of_Z 0)) with (zeros (r_end r2)).
      replace (zeros (r_end r2)) with (zeros (r_start r1) ++ zeros (zlen p) ++
        zeros (r_end r2 - (r_start r1 + zlen p))).
      2:{ rewrite !zeros_app by lia. f_equal. lia. }
      generalize (zeros (r_end r2 - (r_start r1 + zlen p))) as post. intros post.
      pose proof (overwrite_app (zeros (r_start r1)) (zeros (zlen p)) post p) as Ho.
      rewrite !zeros_len in Ho by lia. by apply Ho.
    + change (zlen (@nil Byte.byte)) with 0 in *. rewrite app_nil_l, zeros_app by lia.
      unfold zeros. f_equal. lia.
Qed.

(** C21 The pool's two extranonce factories, created with the same ranges and
    server prefix, never hand out overlapping search spaces: whatever the order
    and sizes of the requests, extended prefixes are pairwise different,
    standard ones too, no extended prefix begins a standard one, and all carry
    the server prefix.  Requests succeed until the counter is used up. *)
Theorem extranonce_prefixes_disjoint (r0 r1 r2 : Range) (p : option bytes)
    (v : ExtendedExtranonce) (required : list Z) (n : nat) :
  0 ≤ r_end r0 → new r0 r1 r2 p = Ok v →
  let xs := (alloc_extended required v).1 in
  let ys := (alloc_standard n v).1 in
  NoDup xs ∧ NoDup ys ∧
  Forall (λ x, zlen x = r_end r1) xs ∧ Forall (λ y, zlen y = r_end r2) ys ∧
  (∀ x y, x ∈ xs → y ∈ ys → ¬ x `prefix_of` y) ∧
  Forall (λ x, new_prefix p `prefix_of` zdrop (r_start r1) x) (xs ++ ys) ∧
  zlen xs = Z.min (zlen (List.filter (admissible v) required))
              (2 ^ (8 * (r_end r1 - r_start r1 - zlen (new_prefix p))) - 1) ∧
  zlen ys = Z.min (Z.of_nat n) (2 ^ (8 * (r_end r2 - r_start r2)) - 1).
Proof.
  intros H0 Hv xs ys.
  destruct (new_spec r0 r1 r2 p v H0 Hv) as (Hs & Hn & H12 & H2 & E1 & E2 & Es & Ei).
  pose proof (zlen_nonneg (new_prefix p)). set (k := r_start r1 + zlen (new_prefix p)) in *.
  set (pre := zeros (r_start r1) ++ new_prefix p).
  assert (Hpre : zlen pre = k) by (unfold pre; rewrite zlen_app, zeros_len; lia).
  assert (Hx : window v (r_start (range_1 v) + static_len v) (r_end (range_1 v)) pre
            (zeros (r_end r1 - k)) (zeros (r_end r2 - r_end r1))).
  { rewrite E1, Es. split; [by rewrite Ei; unfold pre; rewrite <- app_assoc|done|].
    rewrite zeros_len; lia. }
  assert (Hy : window v (r_start (range_2 v)) (r_end (range_2 v)) (pre ++ zeros (r_end r1 - k))
            (zeros (r_end r2 - r_end r1)) []).
  { rewrite E2. split; [by rewrite Ei, app_nil_r; unfold pre; rewrite <- !app_assoc| |].
    - rewrite zlen_app, zeros_len; lia.
    - rewrite zeros_len; lia. }
  assert (Hm : r_end (range_1 v) ≤ MAX_EXTRANONCE_LEN) by (rewrite E1; lia).
  destruct (alloc_extended_above required v _ _ _ Hx Hm) as [Ax Nx].
  destruct (alloc_standard_above n v _ _ _ Hy) as [Ay Ny].
  pose proof (alloc_extended_count required v _ _ _ Hx Hm) as Cx.
  pose proof (alloc_standard_count n v _ _ _ Hy) as Cy.
  rewrite zeros_be, zeros_len in Ax, Ay, Cx, Cy by lia. fold xs in Ax, Nx, Cx. fold ys in Ay, Ny, Cy.
  assert (Hpp : ∀ w, new_prefix p `prefix_of` zdrop (r_start r1) (pre ++ w)).
  { intros w. unfold pre. rewrite <- app_assoc, zdrop_app by (rewrite zeros_len; lia).
    by apply prefix_app_r. }
  split_and!; [done|done| | | | | |].
  - eapply Forall_impl; [exact Ax|]. intros x (w & -> & Hw & _). rewrite zlen_app. lia.
  - eapply Forall_impl; [exact Ay|]. intros x (w & -> & Hw & _).
    rewrite !zlen_app, zeros_len by lia. lia.
  - intros x y Ix Iy [z Hz]. rewrite Forall_forall in Ax, Ay.
    destruct (Ax x Ix) as (w & -> & Hw & Hc), (Ay y Iy) as (w' & -> & Hw' & _).
    rewrite <- !app_assoc in Hz. apply app_inv_head in Hz.
    apply (f_equal (ztake (r_end r1 - k))) in Hz.
    rewrite (ztake_app w z), ztake_app in Hz by (rewrite ?zeros_len; lia).
    subst w. rewrite zeros_be in Hc. lia.
  - apply Forall_app. split; (eapply Forall_impl; [eassumption|]); intros x (w & -> & _);
      [apply Hpp|rewrite <- app_assoc; apply Hpp].
  - rewrite Cx. f_equal. unfold k. replace (r_end r1 - (r_start r1 + zlen (new_prefix p)))
      with (r_end r1 - r_start r1 - zlen (new_prefix p)) by lia. lia.
  - rewrite Cy. f_equal. rewrite H12. lia.
Qed.

(** The pool's ranges, with a two-byte server prefix. *)
Lemma extranonce_prefixes_disjoint_witness :
  zlen (alloc_standard 3 (mkExtranonce (to_be_bytes 2 7 ++ zeros 30) (mkRange 0 0) (mkRange 0 8)
          (mkRange 8 32) (Some (to_be_bytes 2 7)))).1 =
    Z.min (Z.of_nat 3) (2 ^ (8 * (32 - 8)) - 1).
Proof.
  apply (extranonce_prefixes_disjoint (mkRange 0 0) (mkRange 0 8) (mkRange 8 32)
    (Some (to_be_bytes 2 7)) _ [24; 25] 3); [done|reflexivity].
Defined.
