(* ===== verification/Difficulty.v ===== *)
(** * Targets, difficulties and hash rates

    [channels-sv2/src/target.rs].  [f32] and [f64] values are those of IEEE 754
    as specified by the library's [SpecFloat] (one NaN, without a sign); a
    conversion to an integer truncates and saturates, as [as] does. *)

From Stdlib Require Import SpecFloat.
From S2P Require Import Prelude Mining MiningProperties.

(** ** Floating-point numbers *)

Notation f64 := spec_float.
Notation f32 := spec_float.

Definition f64_of_Z (z : Z) : f64 := binary_normalize 53 1024 z 0 false.
(** [f64::from(f32)]: exact. *)
Definition f64_of_f32 (x : f32) : f64 :=
  match x with
  | S754_finite s m e => binary_normalize 53 1024 (if s then Zneg m else Zpos m) e s
  | _ => x
  end.
Definition f64_mul : f64 → f64 → f64 := SFmul 53 1024.
Definition f64_add : f64 → f64 → f64 := SFadd 53 1024.
Definition f64_div : f64 → f64 → f64 := SFdiv 53 1024.
Definition is_sign_negative (x : f64) : bool :=
  match x with
  | S754_zero s | S754_infinity s | S754_finite s _ _ => s
  | S754_nan => false
  end.
(** [x as u<w>]. *)
Definition as_uint (w : Z) (x : f64) : Z :=
  match x with
  | S754_finite false m e => Z.min (2 ^ w - 1) (Z.shiftl (Zpos m) e)
  | S754_infinity false => 2 ^ w - 1
  | _ => 0
  end.

(** ** From targets to difficulties *)

(** The literal [1.157920892373162e77]. *)
Definition TWO_POW_256 : f64 := f64_of_Z (1157920892373162 * 10 ^ 62).
Definition target_to_difficulty (target : Target) : f64 :=
  let target := from_le_bytes (Target_into_U256 target) in
  let target_high := f64_of_Z (wrap 128 (Z.shiftr target 128)) in
  let target_low := f64_of_Z (wrap 128 target) in
  let target_f64 := f64_add (f64_mul target_high (f64_of_Z (2 ^ 128))) target_low in
  f64_div TWO_POW_256 target_f64.

(** ** From hash rates to targets *)

Inductive HashRateToTargetError : Type := DivisionByZero | NegativeInput.

Definition h_times_s (hashrate share_per_min : f64) : Z :=
  let shares_occurrency_frequence := f64_div (f64_of_Z 60) share_per_min in
  as_uint 128 (f64_mul hashrate shares_occurrency_frequence).
Definition hash_rate_to_target (overflow_checks : bool) (hashrate share_per_min : f64)
    : result HashRateToTargetError bytes :=
  if SFeqb share_per_min (S754_zero false) then Err DivisionByZero
  else if is_sign_negative share_per_min then Err NegativeInput
  else if is_sign_negative hashrate then Err NegativeInput
  else
    let h := h_times_s hashrate share_per_min in
    next ← (if overflow_checks then add_chk 128 h 1 else Ok (wrap 128 (h + 1)));
    let denominator := Z.max h next in
    let numerator := 2 ^ 256 - 1 - h in
    Ok (to_le_bytes 32 (numerator / denominator)).

(** ** Properties *)

Lemma as_uint_fits w x : 0 ≤ w → fits w (as_uint w x).
Proof.
  intros Hw. pose proof (Z.pow_pos_nonneg 2 w ltac:(lia) Hw). unfold fits.
  destruct x as [| [] | | [] m e]; cbn [as_uint]; try lia.
  pose proof (proj2 (Z.shiftl_nonneg (Zpos m) e) ltac:(lia)). lia.
Qed.

(** C35 The target a hash rate is given: with [n] the work of the interval
    between two wanted shares, the target [t] makes one hash in about [n + 1]
    succeed, exactly: (t + 1) (n + 1) <= 2^256 < (t + 2) (n + 1), whenever the
    rates are not refused as zero or negative and [n + 1] fits 128 bits. *)
Theorem share_target_rate (overflow_checks : bool) (hashrate share_per_min : f64) :
  let n := h_times_s hashrate share_per_min in
  SFeqb share_per_min (S754_zero false) = false →
  is_sign_negative share_per_min = false → is_sign_negative hashrate = false →
  n < 2 ^ 128 - 1 →
  ∃ v, hash_rate_to_target overflow_checks hashrate share_per_min = Ok v ∧ zlen v = 32 ∧
    (from_le_bytes v + 1) * (n + 1) ≤ 2 ^ 256 < (from_le_bytes v + 2) * (n + 1).
Proof.
  intros n H0 Hs Hh Hn. unfold hash_rate_to_target. rewrite H0, Hs, Hh. fold n.
  destruct (as_uint_fits 128 (f64_mul hashrate (f64_div (f64_of_Z 60) share_per_min))) as [Hn0 _];
    [done|]. fold (h_times_s hashrate share_per_min) in Hn0. fold n in Hn0.
  assert ((if overflow_checks then add_chk (E := HashRateToTargetError) 128 n 1 else Ok (wrap 128 (n + 1)))
          = Ok (n + 1)) as ->.
  { destruct overflow_checks.
    - unfold add_chk. by rewrite (proj2 (Z.ltb_lt _ _)) by lia.
    - by rewrite wrap_small by (unfold fits; lia). }
  cbn [mbind result_bind]. rewrite Z.max_r by lia.
  pose proof (Z.div_mod (2 ^ 256 - 1 - n) (n + 1) ltac:(lia)) as Hd.
  pose proof (Z.mod_pos_bound (2 ^ 256 - 1 - n) (n + 1) ltac:(lia)) as Hm.
  assert (0 ≤ (2 ^ 256 - 1 - n) / (n + 1) < 2 ^ 256).
  { split; [apply Z.div_pos; lia|]. apply Z.div_lt_upper_bound; nia. }
  eexists. split; [done|]. rewrite to_le_bytes_zlen, from_to_le_bytes by (unfold fits; lia).
  split; [done|]. nia.
Qed.

(** One terahash per second and ten shares per minute. *)
Lemma share_target_rate_witness :
  ∃ v, hash_rate_to_target true (f64_of_Z (10 ^ 12)) (f64_of_Z 10) = Ok v ∧ zlen v = 32 ∧
    (from_le_bytes v + 1) * (6 * 10 ^ 12 + 1) ≤ 2 ^ 256 < (from_le_bytes v + 2) * (6 * 10 ^ 12 + 1).
Proof.
  apply (share_target_rate true (f64_of_Z (10 ^ 12)) (f64_of_Z 10)); vm_compute; reflexivity.
Defined.

(** A target that is a power of two has the complementary power as difficulty. *)
Lemma difficulty_pow2 :
  forallb (λ k, as_uint 64 (target_to_difficulty (Target_from_bytes (to_le_bytes 32 (2 ^ Z.of_nat k))))
                =? Z.min (2 ^ 64 - 1) (2 ^ (256 - Z.of_nat k))) (seq 0 256) = true.
Proof. vm_compute. reflexivity. Qed.
