(* ===== verification/Bitcoin.v ===== *)
(** * Transactions and block headers

    The [bitcoin] package, which builds, encodes and hashes transactions and
    headers for the channels.  Its structs are records; its operations are the
    class [Bitcoin], and [BitcoinLaws] states the documented wire format of
    transactions (BIP 144) they follow.  An [i32] version is kept as its 32
    bits. *)

From S2P Require Import Prelude.

Record TxOut : Type := mkTxOut {
  txo_value : Z;
  script_pubkey : bytes }.
(** [previous_output] is the transaction id and the output index. *)
Record TxIn : Type := mkTxIn {
  previous_output : bytes * Z;
  script_sig : bytes;
  txi_sequence : Z;
  witness : list bytes }.
Record Transaction : Type := mkTransaction {
  tx_version : Z;
  lock_time : Z;
  tx_input : list TxIn;
  tx_output : list TxOut }.
Record BlockHeader : Type := mkBlockHeader {
  bh_version : Z;
  prev_blockhash : bytes;
  bh_merkle_root : bytes;
  bh_time : Z;
  bits : Z;
  bh_nonce : Z }.

Definition OutPoint_null : bytes * Z := (replicate 32 (byte.of_Z 0), 0xFFFFFFFF).

Class Bitcoin : Type := {
  tx_serialize : Transaction → bytes;
  tx_deserialize : bytes → option Transaction;
  compute_txid : Transaction → bytes;
  compute_wtxid : Transaction → bytes;
  (** [Decodable::consensus_decode] at the types of a transaction's fields, each
      with the bytes left over. *)
  decode_version : bytes → option (Z * bytes);
  decode_inputs : bytes → option (list TxIn * bytes);
  decode_outputs : bytes → option (list TxOut * bytes);
  decode_lock_time : bytes → option (Z * bytes);
  decode_txout : bytes → option (TxOut * bytes);
  outputs_serialize : list TxOut → bytes;
  sha256d : bytes → bytes;
  block_hash : BlockHeader → bytes;
  (** [Target::from_compact(nbits).is_met_by(hash)]. *)
  is_met_by : Z → bytes → bool }.

(** ** The wire format *)

Definition compact_size (n : Z) : bytes :=
  if n <? 0xFD then to_le_bytes 1 n
  else if n <=? 0xFFFF then to_le_bytes 1 0xFD ++ to_le_bytes 2 n
  else if n <=? 0xFFFFFFFF then to_le_bytes 1 0xFE ++ to_le_bytes 4 n
  else to_le_bytes 1 0xFF ++ to_le_bytes 8 n.
Definition var_bytes (l : bytes) : bytes := compact_size (zlen l) ++ l.
Definition enc_txin (i : TxIn) : bytes :=
  (previous_output i).1 ++ to_le_bytes 4 (previous_output i).2
    ++ var_bytes (script_sig i) ++ to_le_bytes 4 (txi_sequence i).
Definition enc_txout (o : TxOut) : bytes := to_le_bytes 8 (txo_value o) ++ var_bytes (script_pubkey o).
Definition enc_vec {A} (enc : A → bytes) (l : list A) : bytes :=
  compact_size (zlen l) ++ concat (map enc l).
Definition enc_witness (i : TxIn) : bytes := enc_vec var_bytes (witness i).
Definition legacy_bytes (tx : Transaction) : bytes :=
  to_le_bytes 4 (tx_version tx) ++ enc_vec enc_txin (tx_input tx)
    ++ enc_vec enc_txout (tx_output tx) ++ to_le_bytes 4 (lock_time tx).
Definition marker_flag : bytes := [byte.of_Z 0; byte.of_Z 1].
Definition segwit_bytes (tx : Transaction) : bytes :=
  to_le_bytes 4 (tx_version tx) ++ marker_flag ++ enc_vec enc_txin (tx_input tx)
    ++ enc_vec enc_txout (tx_output tx) ++ concat (map enc_witness (tx_input tx))
    ++ to_le_bytes 4 (lock_time tx).
(** The extended format is used when an input has a witness, and when there is
    no input at all. *)
Definition uses_segwit (tx : Transaction) : bool :=
  match tx_input tx with
  | [] => true
  | ins => existsb (λ i, match witness i with [] => false | _ => true end) ins
  end.
Definition strip_witness (i : TxIn) : TxIn :=
  mkTxIn (previous_output i) (script_sig i) (txi_sequence i) [].
Definition strip_tx (tx : Transaction) : Transaction :=
  mkTransaction (tx_version tx) (lock_time tx) (map strip_witness (tx_input tx)) (tx_output tx).

(** Fields at their widths, lengths that fit a compact size. *)
Definition txout_wf (o : TxOut) : Prop := fits 64 (txo_value o) ∧ zlen (script_pubkey o) < 2 ^ 64.
Definition txin_fits (i : TxIn) : Prop :=
  zlen (previous_output i).1 = 32 ∧ fits 32 (previous_output i).2 ∧
  zlen (script_sig i) < 2 ^ 64 ∧ fits 32 (txi_sequence i).
Definition txin_wf (i : TxIn) : Prop :=
  txin_fits i ∧ zlen (witness i) < 0xFD ∧ Forall (λ w, zlen w < 2 ^ 16) (witness i).
Definition tx_fits (tx : Transaction) : Prop :=
  fits 32 (tx_version tx) ∧ fits 32 (lock_time tx) ∧
  Forall txin_fits (tx_input tx) ∧ Forall txout_wf (tx_output tx) ∧ zlen (tx_output tx) < 2 ^ 64.
Definition tx_wf (tx : Transaction) : Prop :=
  fits 32 (tx_version tx) ∧ fits 32 (lock_time tx) ∧
  Forall txin_wf (tx_input tx) ∧ Forall txout_wf (tx_output tx) ∧
  zlen (tx_input tx) < 0xFD ∧ zlen (tx_output tx) < 2 ^ 64 ∧ tx_input tx ≠ [].

Class BitcoinLaws `{Bitcoin} : Prop := {
  law_serialize : ∀ tx,
    tx_serialize tx = if uses_segwit tx then segwit_bytes tx else legacy_bytes tx;
  law_deserialize : ∀ tx, tx_wf tx → tx_deserialize (tx_serialize tx) = Some tx;
  (** Decoding is strict: only the encoding of a transaction is decoded to it. *)
  law_canonical : ∀ b tx, tx_deserialize b = Some tx → tx_serialize tx = b ∧ tx_fits tx;
  law_txid : ∀ tx, compute_txid tx = sha256d (legacy_bytes tx);
  law_wtxid : ∀ tx, compute_wtxid tx = sha256d (tx_serialize tx);
  law_decode_version : ∀ v r, fits 32 v → decode_version (to_le_bytes 4 v ++ r) = Some (v, r);
  law_decode_lock_time : ∀ v r, fits 32 v → decode_lock_time (to_le_bytes 4 v ++ r) = Some (v, r);
  law_decode_inputs : ∀ l r, Forall txin_wf l → zlen l < 0xFD →
    decode_inputs (enc_vec enc_txin l ++ r) = Some (map strip_witness l, r);
  law_decode_outputs : ∀ l r, Forall txout_wf l → zlen l < 2 ^ 16 →
    decode_outputs (enc_vec enc_txout l ++ r) = Some (l, r);
  law_decode_txout : ∀ o r, txout_wf o → decode_txout (enc_txout o ++ r) = Some (o, r);
  law_sha256d : ∀ l, zlen (sha256d l) = 32;
  law_block_hash : ∀ h, zlen (block_hash h) = 32 }.
