(* ===== verification/BitcoinModel.v ===== *)
(** * A reference model of the transaction format

    An instance of [Bitcoin] that satisfies [BitcoinLaws]: encoders and parsers
    of the documented wire format, with simple stand-ins for the hash
    functions.  It shows that the laws can hold together, and the examples of
    the channel properties run on it. *)

From S2P Require Import Prelude Bitcoin.

(** ** Parsers *)

Definition dec_take (n : Z) (l : bytes) : option (bytes * bytes) :=
  if n <=? zlen l then Some (ztake n l, zdrop n l) else None.
Definition dec_le (n : nat) (l : bytes) : option (Z * bytes) :=
  '(b, l) ← dec_take (Z.of_nat n) l; Some (from_le_bytes b, l).
Definition dec_compact (l : bytes) : option (Z * bytes) :=
  let at_least m x := '(n, l) ← x; if n <? m then None else Some (n, l) in
  '(n, l) ← dec_le 1 l;
  if n <? 0xFD then Some (n, l)
  else if n =? 0xFD then at_least 0xFD (dec_le 2 l)
  else if n =? 0xFE then at_least 0x10000 (dec_le 4 l)
  else at_least 0x100000000 (dec_le 8 l).
Definition dec_var (l : bytes) : option (bytes * bytes) := '(n, l) ← dec_compact l; dec_take n l.
Fixpoint dec_list {A} (dec : bytes → option (A * bytes)) (n : nat) (l : bytes)
    : option (list A * bytes) :=
  match n with
  | O => Some ([], l)
  | S n => '(a, l) ← dec l; '(xs, l) ← dec_list dec n l; Some (a :: xs, l)
  end.
Definition dec_vec {A} (dec : bytes → option (A * bytes)) (l : bytes) : option (list A * bytes) :=
  '(n, l) ← dec_compact l; dec_list dec (Z.to_nat n) l.
Definition dec_txout (l : bytes) : option (TxOut * bytes) :=
  '(v, l) ← dec_le 8 l; '(s, l) ← dec_var l; Some (mkTxOut v s, l).
Definition dec_txin (l : bytes) : option (TxIn * bytes) :=
  '(txid, l) ← dec_take 32 l; '(vout, l) ← dec_le 4 l; '(s, l) ← dec_var l; '(q, l) ← dec_le 4 l;
  Some (mkTxIn (txid, vout) s q [], l).
(** The witness stacks, one per input. *)
Fixpoint dec_witnesses (ins : list TxIn) (l : bytes) : option (list TxIn * bytes) :=
  match ins with
  | [] => Some ([], l)
  | i :: ins =>
      '(w, l) ← dec_vec dec_var l; '(ins, l) ← dec_witnesses ins l;
      Some (mkTxIn (previous_output i) (script_sig i) (txi_sequence i) w :: ins, l)
  end.
(** The marker goes with a witness or with no input at all, and only then. *)
Definition dec_tx (l : bytes) : option Transaction :=
  '(v, l) ← dec_le 4 l;
  let segwit := bool_decide (take 2 l = marker_flag) in
  let l := if segwit then drop 2 l else l in
  '(ins, l) ← dec_vec dec_txin l;
  '(outs, l) ← dec_vec dec_txout l;
  '(ins, l) ← (if segwit then dec_witnesses ins l else Some (ins, l));
  '(lock, l) ← dec_le 4 l;
  let tx := mkTransaction v lock ins outs in
  match l with [] => if bool_decide (uses_segwit tx = segwit) then Some tx else None | _ => None end.

(** ** Parsers invert encoders *)

Lemma dec_take_app a r n : n = zlen a → dec_take n (a ++ r) = Some (a, r).
Proof.
  intros ->. unfold dec_take. rewrite zlen_app. pose proof (zlen_nonneg r).
  rewrite (proj2 (Z.leb_le _ _)) by lia. by rewrite ztake_app, zdrop_app.
Qed.
Lemma dec_le_app n v r : fits (8 * Z.of_nat n) v → dec_le n (to_le_bytes n v ++ r) = Some (v, r).
Proof.
  intros Hv. unfold dec_le. rewrite dec_take_app by (by rewrite to_le_bytes_zlen).
  cbn. by rewrite from_to_le_bytes.
Qed.
Lemma dec_compact_app n r : 0 ≤ n < 2 ^ 64 → dec_compact (compact_size n ++ r) = Some (n, r).
Proof.
  intros Hn. unfold dec_compact, compact_size. destruct (Z.ltb_spec n 0xFD) as [Hs|Hs].
  { rewrite dec_le_app by (unfold fits; lia). cbn [mbind option_bind]. by rewrite (proj2 (Z.ltb_lt _ _)). }
  destruct (Z.leb_spec n 0xFFFF); [|destruct (Z.leb_spec n 0xFFFFFFFF)];
    rewrite <- app_assoc, dec_le_app by done; cbn [mbind option_bind]; cbn [Z.ltb Z.eqb Z.compare Pos.compare Pos.compare_cont Pos.eqb];
    rewrite dec_le_app by (unfold fits; lia); cbn [mbind option_bind]; by rewrite (proj2 (Z.ltb_ge _ _)) by lia.
Qed.
Lemma dec_var_app l r : zlen l < 2 ^ 64 → dec_var (var_bytes l ++ r) = Some (l, r).
Proof.
  intros Hl. unfold dec_var, var_bytes. pose proof (zlen_nonneg l).
  rewrite <- app_assoc, dec_compact_app by lia. by apply dec_take_app.
Qed.
Lemma dec_vec_app {A B} (dec : bytes → option (B * bytes)) (enc : A → bytes) (f : A → B) l r :
  (∀ a r, a ∈ l → dec (enc a ++ r) = Some (f a, r)) → zlen l < 2 ^ 64 →
  dec_vec dec (enc_vec enc l ++ r) = Some (map f l, r).
Proof.
  intros Hd Hl. pose proof (zlen_nonneg l). unfold dec_vec, enc_vec.
  rewrite <- app_assoc, dec_compact_app by lia. cbn [mbind option_bind].
  replace (Z.to_nat (zlen l)) with (length l) by (unfold zlen; lia). clear Hl H.
  induction l as [|a l IH]; [done|]. cbn [length dec_list map concat]. rewrite <- app_assoc.
  rewrite Hd by set_solver. cbn [mbind option_bind]. rewrite IH by (intros; apply Hd; set_solver).
  done.
Qed.
Lemma dec_txout_app o r : txout_wf o → dec_txout (enc_txout o ++ r) = Some (o, r).
Proof.
  intros [Hv Hs]. unfold dec_txout, enc_txout. rewrite <- app_assoc, dec_le_app by done.
  cbn [mbind option_bind]. rewrite dec_var_app by done. by destruct o.
Qed.
Lemma dec_txin_app i r : txin_wf i → dec_txin (enc_txin i ++ r) = Some (strip_witness i, r).
Proof.
  intros ((Ht & Hv & Hs & Hq) & _). unfold dec_txin, enc_txin. rewrite <- !app_assoc.
  rewrite dec_take_app by done. cbn [mbind option_bind]. rewrite dec_le_app by done.
  cbn [mbind option_bind]. rewrite dec_var_app by done. cbn [mbind option_bind].
  rewrite dec_le_app by done. cbn. unfold strip_witness. by destruct (previous_output i).
Qed.
Lemma dec_witnesses_app ins r :
  Forall txin_wf ins →
  dec_witnesses (map strip_witness ins) (concat (map enc_witness ins) ++ r) = Some (ins, r).
Proof.
  induction 1 as [|i ins (_ & Hw & Hws) _ IH]; [done|].
  cbn [map dec_witnesses concat]. rewrite <- app_assoc. unfold enc_witness at 1.
  rewrite (dec_vec_app dec_var var_bytes id).
  - cbn [mbind option_bind]. rewrite IH, map_id. by destruct i.
  - intros w r' Hin. apply dec_var_app. rewrite Forall_forall in Hws.
    pose proof (Hws w ltac:(by apply list_elem_of_In)). cbn in *. lia.
  - lia.
Qed.
(** A number of inputs between 1 and 252 is not taken for the marker. *)
Lemma count_not_marker {A} (enc : A → bytes) l r :
  l ≠ [] → zlen l < 0xFD → take 2 (enc_vec enc l ++ r) ≠ marker_flag.
Proof.
  intros Hn Hl He.
  assert (1 ≤ zlen l) by (destruct l as [|x l']; [done|rewrite zlen_cons; pose proof (zlen_nonneg l'); lia]).
  revert He. unfold enc_vec, compact_size. rewrite (proj2 (Z.ltb_lt _ _)) by done.
  change (to_le_bytes 1 (zlen l)) with [byte.of_Z (zlen l)]. cbn [app take].
  intros [= He _]. apply (f_equal byte.unsigned) in He. rewrite !byte.unsigned_of_Z in He.
  unfold byte.wrap in He. rewrite !Z.mod_small in He; lia.
Qed.
Lemma no_witness tx : uses_segwit tx = false → map strip_witness (tx_input tx) = tx_input tx.
Proof.
  unfold uses_segwit. destruct (tx_input tx) as [|i ins]; [done|]. generalize (i :: ins).
  intros l. induction l as [|j l IH]; [done|]. cbn [existsb map]. intros Hw.
  apply orb_false_iff in Hw as [Hj Hl]. rewrite IH by done. f_equal.
  destruct j as [? ? ? w]. by destruct w.
Qed.
Lemma tx_eta tx : mkTransaction (tx_version tx) (lock_time tx) (tx_input tx) (tx_output tx) = tx.
Proof. by destruct tx. Qed.
Lemma dec_tx_serialize tx :
  tx_wf tx → dec_tx (if uses_segwit tx then segwit_bytes tx else legacy_bytes tx) = Some tx.
Proof.
  intros (Hv & Hl & Hi & Ho & Hn & Hm & He).
  assert (Hin : ∀ r, dec_vec dec_txin (enc_vec enc_txin (tx_input tx) ++ r)
                 = Some (map strip_witness (tx_input tx), r)).
  { intros r. apply dec_vec_app; [|lia]. intros i r' Hin. apply dec_txin_app.
    rewrite Forall_forall in Hi. by apply Hi, list_elem_of_In. }
  assert (Hout : ∀ r, dec_vec dec_txout (enc_vec enc_txout (tx_output tx) ++ r)
                  = Some (tx_output tx, r)).
  { intros r. rewrite (dec_vec_app dec_txout enc_txout id); [by rewrite map_id| |lia].
    intros o r' Hin'. apply dec_txout_app. rewrite Forall_forall in Ho. by apply Ho, list_elem_of_In. }
  unfold dec_tx. destruct (uses_segwit tx) eqn:Hsw.
  - unfold segwit_bytes. rewrite dec_le_app by done. cbn [mbind option_bind].
    change (take 2 (marker_flag ++ ?x)) with marker_flag. rewrite bool_decide_eq_true_2 by done.
    change (drop 2 (marker_flag ++ ?x)) with x.
    rewrite Hin. cbn [mbind option_bind]. rewrite Hout. cbn [mbind option_bind].
    rewrite dec_witnesses_app by done. cbn [mbind option_bind].
    rewrite <- (app_nil_r (to_le_bytes 4 (lock_time tx))), dec_le_app by done. cbn [mbind option_bind].
    rewrite <- (tx_eta tx), bool_decide_eq_true_2 by done. done.
  - unfold legacy_bytes. rewrite dec_le_app by done. cbn [mbind option_bind].
    rewrite bool_decide_eq_false_2.
    + rewrite Hin. cbn [mbind option_bind]. rewrite Hout. cbn [mbind option_bind].
      rewrite <- (app_nil_r (to_le_bytes 4 (lock_time tx))), dec_le_app by done.
      rewrite no_witness by done. cbn [mbind option_bind]. rewrite <- (tx_eta tx), bool_decide_eq_true_2 by done. done.
    + apply count_not_marker; [done|lia].
Qed.

(** ** Parsers accept nothing else *)

Lemma dec_take_inv n l a r : 0 ≤ n → dec_take n l = Some (a, r) → l = a ++ r ∧ zlen a = n.
Proof.
  unfold dec_take. intros Hn. destruct (Z.leb_spec n (zlen l)); [|done]. intros [= <- <-].
  split; [by rewrite ztake_zdrop|by apply zlen_take].
Qed.
Lemma dec_le_inv n l v r : dec_le n l = Some (v, r) → l = to_le_bytes n v ++ r ∧ fits (8 * Z.of_nat n) v.
Proof.
  unfold dec_le. destruct (dec_take (Z.of_nat n) l) as [[b l']|] eqn:E; [|done]. intros [= <- <-].
  apply dec_take_inv in E as [-> Hb]; [|lia]. split; [by rewrite to_from_le_bytes_n|].
  rewrite <- Hb. apply from_le_bytes_fits.
Qed.
Lemma dec_compact_inv l n r : dec_compact l = Some (n, r) → l = compact_size n ++ r ∧ 0 ≤ n < 2 ^ 64.
Proof.
  unfold dec_compact, compact_size. destruct (dec_le 1 l) as [[b l1]|] eqn:E; [|done]. cbn [mbind option_bind].
  apply dec_le_inv in E as [-> [Hb0 Hb1]]. destruct (Z.ltb_spec b 0xFD).
  { intros [= <- <-]. rewrite (proj2 (Z.ltb_lt _ _)) by done. split; [done|]. lia. }
  assert (Hcase : ∀ k m, (0xFD ≤ m)%Z →
    ('(n, l) ← dec_le k l1; if n <? m then None else Some (n, l)) = Some (n, r) →
    l1 = to_le_bytes k n ++ r ∧ fits (8 * Z.of_nat k) n ∧ m ≤ n).
  { intros k m Hm. destruct (dec_le k l1) as [[x l2]|] eqn:E2; [|done]. cbn [mbind option_bind].
    destruct (Z.ltb_spec x m); [done|]. intros [= <- <-]. by apply dec_le_inv in E2 as [-> Hx]. }
  destruct (Z.eqb_spec b 0xFD) as [-> |]; [|destruct (Z.eqb_spec b 0xFE) as [-> |]]; intros Hn; apply Hcase in Hn as (-> & [Hn0 Hn1] & Hm);
    try done; cbn in Hn1; rewrite (proj2 (Z.ltb_ge _ _)) by lia.
  - rewrite (proj2 (Z.leb_le _ _)), <- app_assoc by lia. split; [done|lia].
  - rewrite (proj2 (Z.leb_gt _ _)), (proj2 (Z.leb_le _ _)), <- app_assoc by lia. split; [done|lia].
  - rewrite !(proj2 (Z.leb_gt _ _)), <- app_assoc by lia. replace b with 0xFF by (cbn in Hb1; lia). split; [done|lia].
Qed.
Lemma dec_var_inv l a r : dec_var l = Some (a, r) → l = var_bytes a ++ r ∧ zlen a < 2 ^ 64.
Proof.
  unfold dec_var, var_bytes. destruct (dec_compact l) as [[n l1]|] eqn:E; [|done]. cbn [mbind option_bind].
  apply dec_compact_inv in E as [-> Hn]. intros E. apply dec_take_inv in E as [-> <-]; [|lia]. rewrite <- app_assoc. split; [done|lia].
Qed.
Lemma dec_list_inv {A} (dec : bytes → option (A * bytes)) (enc : A → bytes) (P : A → Prop) n l xs r :
  (∀ l a r, dec l = Some (a, r) → l = enc a ++ r ∧ P a) → dec_list dec n l = Some (xs, r) →
  l = concat (map enc xs) ++ r ∧ length xs = n ∧ Forall P xs.
Proof.
  intros Hd. revert l xs. induction n as [|n IH]; intros l xs; cbn [dec_list]; [by intros [= <- <-]|].
  destruct (dec l) as [[a l1]|] eqn:E; [|done]. cbn [mbind option_bind]. apply Hd in E as [-> Ha].
  destruct (dec_list dec n l1) as [[ys l2]|] eqn:E; [|done]. cbn [mbind option_bind]. intros [= <- <-].
  apply IH in E as (-> & <- & Hys). cbn. rewrite <- app_assoc. split; [done|]. split; [done|by constructor].
Qed.
Lemma dec_vec_inv {A} (dec : bytes → option (A * bytes)) (enc : A → bytes) (P : A → Prop) l xs r :
  (∀ l a r, dec l = Some (a, r) → l = enc a ++ r ∧ P a) → dec_vec dec l = Some (xs, r) →
  l = enc_vec enc xs ++ r ∧ zlen xs < 2 ^ 64 ∧ Forall P xs.
Proof.
  intros Hd. unfold dec_vec, enc_vec. destruct (dec_compact l) as [[n l1]|] eqn:E; [|done]. cbn [mbind option_bind].
  apply dec_compact_inv in E as [-> Hn]. intros E. apply (dec_list_inv dec enc P) in E as (-> & Hl & Hp); [|done].
  assert (Hz : zlen xs = n) by (unfold zlen; lia). rewrite <- app_assoc, Hz. split; [done|]. split; [lia|done].
Qed.
Lemma dec_txout_inv l o r : dec_txout l = Some (o, r) → l = enc_txout o ++ r ∧ txout_wf o.
Proof.
  unfold dec_txout, enc_txout. destruct (dec_le 8 l) as [[v l1]|] eqn:E; [|done]. cbn [mbind option_bind].
  apply dec_le_inv in E as [-> Hv]. destruct (dec_var l1) as [[a l2]|] eqn:E; [|done]. cbn [mbind option_bind].
  apply dec_var_inv in E as [-> Ha]. intros [= <- <-]. cbn. rewrite <- app_assoc. by split.
Qed.
Lemma dec_txin_inv l i r : dec_txin l = Some (i, r) → l = enc_txin i ++ r ∧ txin_fits i ∧ witness i = [].
Proof.
  unfold dec_txin, enc_txin. destruct (dec_take 32 l) as [[t l1]|] eqn:E; [|done]. cbn [mbind option_bind].
  apply dec_take_inv in E as [-> Ht]; [|done]. destruct (dec_le 4 l1) as [[v l2]|] eqn:E; [|done]. cbn [mbind option_bind].
  apply dec_le_inv in E as [-> Hv]. destruct (dec_var l2) as [[a l3]|] eqn:E; [|done]. cbn [mbind option_bind].
  apply dec_var_inv in E as [-> Ha]. destruct (dec_le 4 l3) as [[q l4]|] eqn:E; [|done]. cbn [mbind option_bind].
  apply dec_le_inv in E as [-> Hq]. intros [= <- <-]. cbn. rewrite <- !app_assoc. split; [done|]. by split.
Qed.
Lemma dec_witnesses_inv ins l ins' r :
  dec_witnesses ins l = Some (ins', r) →
  l = concat (map enc_witness ins') ++ r ∧ map strip_witness ins' = map strip_witness ins.
Proof.
  revert l ins'. induction ins as [|i ins IH]; intros l ins'; cbn [dec_witnesses]; [by intros [= <- <-]|].
  destruct (dec_vec dec_var l) as [[w l1]|] eqn:E; [|done]. cbn [mbind option_bind].
  apply (dec_vec_inv dec_var var_bytes (λ _, True)) in E as (-> & _); [|intros ? ? ? [-> _]%dec_var_inv; done].
  destruct (dec_witnesses ins l1) as [[js l2]|] eqn:E; [|done]. cbn [mbind option_bind]. intros [= <- <-].
  apply IH in E as [-> Hm]. cbn. rewrite <- app_assoc. split; [done|]. by rewrite Hm.
Qed.
Lemma enc_strip ins : map enc_txin (map strip_witness ins) = map enc_txin ins.
Proof. by rewrite map_map. Qed.
Lemma same_strip ins ins' :
  map strip_witness ins' = map strip_witness ins → Forall (λ i, txin_fits i ∧ witness i = []) ins →
  enc_vec enc_txin ins' = enc_vec enc_txin ins ∧ Forall txin_fits ins'.
Proof.
  intros Hm Hf. unfold enc_vec. rewrite <- (enc_strip ins'), Hm, enc_strip. split.
  - f_equal. f_equal. unfold zlen. rewrite <- (length_map strip_witness ins'), Hm. by rewrite length_map.
  - revert ins Hm Hf. induction ins' as [|i ins' IH]; intros [|j ins] Hm Hf; try done. cbn in Hm. injection Hm as E1 E2 E3 E4.
    apply Forall_cons_1 in Hf as [[Hj _] Hf]. constructor; [|by eapply IH]. unfold txin_fits in *. by rewrite E1, E2, E3.
Qed.
Lemma dec_tx_canonical l tx :
  dec_tx l = Some tx → (if uses_segwit tx then segwit_bytes tx else legacy_bytes tx) = l ∧ tx_fits tx.
Proof.
  unfold dec_tx. destruct (dec_le 4 l) as [[v l1]|] eqn:E; [|done]. cbn [mbind option_bind]. apply dec_le_inv in E as [-> Hv].
  set (segwit := bool_decide (take 2 l1 = marker_flag)). set (l2 := if segwit then drop 2 l1 else l1).
  assert (Hl2 : l1 = (if segwit then marker_flag else []) ++ l2).
  { unfold l2, segwit. case_bool_decide as Hm; [|done]. rewrite <- (take_drop 2 l1) at 1. by rewrite Hm. }
  clearbody segwit l2. destruct (dec_vec dec_txin l2) as [[ins l3]|] eqn:E; [|done]. cbn [mbind option_bind].
  apply (dec_vec_inv dec_txin enc_txin (λ i, txin_fits i ∧ witness i = []) l2) in E as (-> & Hn & Hi); [|apply dec_txin_inv].
  destruct (dec_vec dec_txout l3) as [[outs l4]|] eqn:E; [|done]. cbn [mbind option_bind].
  apply (dec_vec_inv dec_txout enc_txout txout_wf l3) in E as (-> & Hm & Ho); [|apply dec_txout_inv].
  destruct (if segwit then dec_witnesses ins l4 else Some (ins, l4)) as [[ins' l5]|] eqn:Ew; [|done]. cbn [mbind option_bind].
  destruct (dec_le 4 l5) as [[lock l6]|] eqn:E; [|done]. cbn [mbind option_bind]. apply dec_le_inv in E as [-> Hlock].
  destruct l6; [|done]. case_bool_decide as Hs; [|done]. intros [= <-]. rewrite Hs. rewrite app_nil_r in Ew.
  assert (Hw : l4 = (if segwit then concat (map enc_witness ins') else []) ++ to_le_bytes 4 lock ∧ map strip_witness ins' = map strip_witness ins).
  { destruct segwit; [by apply dec_witnesses_inv|]. by injection Ew as <- ->. }
  destruct Hw as [-> Hw]. destruct (same_strip ins ins' Hw Hi) as [He Hf]. subst l1. rewrite <- He. unfold segwit_bytes, legacy_bytes. cbn.
  split; [by destruct segwit; rewrite <- ?app_assoc|]. done.
Qed.

(** ** The instance *)

(** A header's hash is its nonce; a hash meets the bits it is below. *)
Definition model_bitcoin : Bitcoin := {|
  tx_serialize tx := if uses_segwit tx then segwit_bytes tx else legacy_bytes tx;
  tx_deserialize := dec_tx;
  compute_txid tx := to_le_bytes 32 (from_le_bytes (legacy_bytes tx));
  compute_wtxid tx :=
    to_le_bytes 32 (from_le_bytes (if uses_segwit tx then segwit_bytes tx else legacy_bytes tx));
  decode_version := dec_le 4;
  decode_inputs := dec_vec dec_txin;
  decode_outputs := dec_vec dec_txout;
  decode_lock_time := dec_le 4;
  decode_txout := dec_txout;
  outputs_serialize := enc_vec enc_txout;
  sha256d l := to_le_bytes 32 (from_le_bytes l);
  block_hash h := to_le_bytes 32 (bh_nonce h);
  is_met_by n h := from_le_bytes h <? n |}.
Lemma model_bitcoin_laws : @BitcoinLaws model_bitcoin.
Proof.
  split; cbn; try done.
  - apply dec_tx_serialize.
  - apply dec_tx_canonical.
  - intros v r Hv. by apply dec_le_app.
  - intros v r Hv. by apply dec_le_app.
  - intros l r Hl Hn. apply dec_vec_app; [|lia]. intros i r' Hi. apply dec_txin_app.
    rewrite Forall_forall in Hl. by apply Hl, list_elem_of_In.
  - intros l r Hl Hn. rewrite (dec_vec_app dec_txout enc_txout id); [by rewrite map_id| |lia].
    intros o r' Ho. apply dec_txout_app. rewrite Forall_forall in Hl. by apply Hl, list_elem_of_In.
  - apply dec_txout_app.
Qed.
