(* ===== verification/Jobs.v ===== *)
(** * Mining jobs of a server

    [channels-sv2/src]: [chain_tip.rs], [merkle_root.rs], [template.rs],
    [bip141.rs] and [server/jobs]: standard and extended jobs, the factory that
    builds their coinbase transactions, and the job store.  Strings and byte
    types of the messages are their bytes, a [U256] its 32 bytes, an
    [Sv2Option] an option. *)

From stdpp Require Import gmap.
From S2P Require Import Prelude Mining Bitcoin.

(** ** Messages *)

Record NewTemplate : Type := mkNewTemplate {
  nt_template_id : Z;
  nt_future_template : bool;
  nt_version : Z;
  nt_coinbase_tx_version : Z;
  nt_coinbase_prefix : bytes;
  nt_coinbase_tx_input_sequence : Z;
  nt_coinbase_tx_value_remaining : Z;
  nt_coinbase_tx_outputs_count : Z;
  nt_coinbase_tx_outputs : bytes;
  nt_coinbase_tx_locktime : Z;
  nt_merkle_path : list bytes }.
Record SetNewPrevHashTdp : Type := mkSetNewPrevHash {
  sp_template_id : Z;
  sp_prev_hash : bytes;
  sp_header_timestamp : Z;
  sp_n_bits : Z;
  sp_target : bytes }.
Record NewMiningJob : Type := mkNewMiningJob {
  mj_channel_id : Z;
  mj_job_id : Z;
  mj_min_ntime : option Z;
  mj_version : Z;
  mj_merkle_root : bytes }.
Record NewExtendedMiningJob : Type := mkNewExtendedMiningJob {
  xj_channel_id : Z;
  xj_job_id : Z;
  xj_min_ntime : option Z;
  xj_version : Z;
  xj_version_rolling_allowed : bool;
  xj_merkle_path : list bytes;
  xj_coinbase_tx_prefix : bytes;
  xj_coinbase_tx_suffix : bytes }.
Record SetCustomMiningJob : Type := mkSetCustomMiningJob {
  cj_channel_id : Z;
  cj_request_id : Z;
  cj_token : bytes;
  cj_version : Z;
  cj_prev_hash : bytes;
  cj_min_ntime : Z;
  cj_nbits : Z;
  cj_coinbase_tx_version : Z;
  cj_coinbase_prefix : bytes;
  cj_coinbase_tx_input_n_sequence : Z;
  cj_coinbase_tx_outputs : bytes;
  cj_coinbase_tx_locktime : Z;
  cj_merkle_path : list bytes }.

(** ** The chain tip *)

Record ChainTip : Type := mkChainTip {
  ct_prev_hash : bytes;
  ct_nbits : Z;
  ct_min_ntime : Z }.
Definition ChainTip_from_tdp (m : SetNewPrevHashTdp) : ChainTip :=
  mkChainTip (sp_prev_hash m) (sp_n_bits m) (sp_header_timestamp m).

(** ** The job store *)

Class Job (T : Type) : Type := {
  get_job_id : T → Z;
  job_activate : Z → T → T }.

Record DefaultJobStore (T : Type) : Type := mkJobStore {
  future_template_to_job_id : gmap Z Z;
  future_jobs : gmap Z T;
  active_job : option T;
  past_jobs : gmap Z T;
  stale_jobs : gmap Z T }.
Arguments mkJobStore {T}.
Arguments future_template_to_job_id {T}.
Arguments future_jobs {T}.
Arguments active_job {T}.
Arguments past_jobs {T}.
Arguments stale_jobs {T}.

Module JobStore.
Section store.
Context {T : Type} `{Job T}.
Definition new : DefaultJobStore T := mkJobStore ∅ ∅ None ∅ ∅.
Definition add_future_job (template_id : Z) (new_job : T) (s : DefaultJobStore T)
    : DefaultJobStore T :=
  let new_job_id := get_job_id new_job in
  mkJobStore (<[template_id := new_job_id]> (future_template_to_job_id s))
    (<[new_job_id := new_job]> (future_jobs s)) (active_job s) (past_jobs s) (stale_jobs s).
(** Moves the active job, if any, to the past jobs. *)
Definition retire_active (s : DefaultJobStore T) : DefaultJobStore T :=
  match active_job s with
  | Some a => mkJobStore (future_template_to_job_id s) (future_jobs s) None
                (<[get_job_id a := a]> (past_jobs s)) (stale_jobs s)
  | None => s
  end.
Definition set_active (job : T) (s : DefaultJobStore T) : DefaultJobStore T :=
  mkJobStore (future_template_to_job_id s) (future_jobs s) (Some job) (past_jobs s) (stale_jobs s).
Definition add_active_job (job : T) (s : DefaultJobStore T) : DefaultJobStore T :=
  set_active job (retire_active s).
Definition mark_past_jobs_as_stale (s : DefaultJobStore T) : DefaultJobStore T :=
  mkJobStore (future_template_to_job_id s) (future_jobs s) (active_job s) ∅ (past_jobs s).
Definition activate_future_job (template_id prev_hash_header_timestamp : Z)
    (s : DefaultJobStore T) : bool * DefaultJobStore T :=
  match future_template_to_job_id s !! template_id with
  | None => (false, s)
  | Some job_id =>
      let s := mkJobStore (delete template_id (future_template_to_job_id s)) (future_jobs s)
                 (active_job s) (past_jobs s) (stale_jobs s) in
      match future_jobs s !! job_id with
      | None => (false, s)
      | Some job =>
          let s := mkJobStore (future_template_to_job_id s) (delete job_id (future_jobs s))
                     (active_job s) (past_jobs s) (stale_jobs s) in
          let s := retire_active s in
          let s := set_active (job_activate prev_hash_header_timestamp job) s in
          let s := mkJobStore ∅ ∅ (active_job s) (past_jobs s) (stale_jobs s) in
          (true, mark_past_jobs_as_stale s)
      end
  end.
End store.
End JobStore.

(** ** Jobs *)

Inductive ExtendedJobError : Type :=
  | FailedToDeserializeCoinbase
  | JobFailedToDeserializeCoinbaseOutputs
  | CoinbaseInputCountMismatch
  | JobFailedToSerializeCoinbaseOutputs
  | JobFailedToSerializeCoinbasePrefix
  | FailedToConvertToStandardJob
  | FailedToCalculateMerkleRoot
  | FutureJobNotAllowed
  | InvalidMinNTime.
Inductive StandardJobError : Type := StandardFailedToDeserializeCoinbaseOutputs.
Inductive JobFactoryError : Type :=
  | FailedToStripBip141
  | FailedToSerializeCoinbaseOutputs
  | FailedToSerializeCoinbasePrefix
  | DeserializeCoinbaseOutputsError
  | CoinbaseTxPrefixError
  | CoinbaseTxSuffixError
  | CoinbaseOutputsSumOverflow
  | InvalidCoinbaseOutputsSum
  | ChainTipRequired.

Record StandardJob : Type := mkStandardJob {
  sj_template : NewTemplate;
  sj_extranonce_prefix : bytes;
  sj_coinbase_outputs : list TxOut;
  sj_job_message : NewMiningJob }.
Inductive JobOrigin : Type :=
  | OriginNewTemplate (t : NewTemplate)
  | OriginSetCustomMiningJob (m : SetCustomMiningJob).
Record ExtendedJob : Type := mkExtendedJob {
  ej_origin : JobOrigin;
  ej_extranonce_prefix : bytes;
  ej_coinbase_outputs : list TxOut;
  ej_coinbase_tx_prefix_with_bip141 : bytes;
  ej_coinbase_tx_suffix_with_bip141 : bytes;
  ej_job_message : NewExtendedMiningJob }.

#[global] Instance StandardJob_job : Job StandardJob := {|
  get_job_id j := mj_job_id (sj_job_message j);
  job_activate min_ntime j :=
    let m := sj_job_message j in
    mkStandardJob (sj_template j) (sj_extranonce_prefix j) (sj_coinbase_outputs j)
      (mkNewMiningJob (mj_channel_id m) (mj_job_id m) (Some min_ntime) (mj_version m)
         (mj_merkle_root m)) |}.
#[global] Instance ExtendedJob_job : Job ExtendedJob := {|
  get_job_id j := xj_job_id (ej_job_message j);
  job_activate min_ntime j :=
    let m := ej_job_message j in
    mkExtendedJob (ej_origin j) (ej_extranonce_prefix j) (ej_coinbase_outputs j)
      (ej_coinbase_tx_prefix_with_bip141 j) (ej_coinbase_tx_suffix_with_bip141 j)
      (mkNewExtendedMiningJob (xj_channel_id m) (xj_job_id m) (Some min_ntime) (xj_version m)
         (xj_version_rolling_allowed m) (xj_merkle_path m) (xj_coinbase_tx_prefix m)
         (xj_coinbase_tx_suffix m)) |}.
Definition is_future (j : StandardJob) : bool :=
  match mj_min_ntime (sj_job_message j) with None => true | Some _ => false end.

Section jobs.
Context `{Bitcoin}.

(** ** Template outputs and merkle roots *)

Fixpoint decode_txouts (n : nat) (cursor : bytes) : option (list TxOut) :=
  match n with
  | O => Some []
  | S n => '(o, cursor) ← decode_txout cursor; os ← decode_txouts n cursor; Some (o :: os)
  end.
Definition deserialize_template_outputs (serialized_outputs : bytes) (count : Z)
    : result unit (list TxOut) :=
  ok_or (decode_txouts (Z.to_nat count) serialized_outputs) tt.

Fixpoint reduce_path (root : bytes) (path : list bytes) : bytes :=
  match path with
  | [] => root
  | node :: path => reduce_path (sha256d (root ++ node)) path
  end.
Definition merkle_root_from_path_ (coinbase_id : bytes) (path : list bytes) : bytes :=
  match path with
  | [] => coinbase_id
  | _ => reduce_path coinbase_id path
  end.
Definition merkle_root_from_path (coinbase_tx_prefix coinbase_tx_suffix extranonce : bytes)
    (path : list bytes) : option bytes :=
  let coinbase := coinbase_tx_prefix ++ extranonce ++ coinbase_tx_suffix in
  coinbase ← tx_deserialize coinbase;
  Some (merkle_root_from_path_ (compute_txid coinbase) path).

(** ** Stripping BIP 141 data *)

Definition MARKER_FLAG_OFFSET : Z := 4.
Definition MARKER_FLAG_LEN : Z := 2.
Definition WITNESS_COUNT_LEN : Z := 1.
Definition WITNESS_LEN_LEN : Z := 1.
Definition WITNESS_DATA_LEN : Z := 32.
Definition LOCKTIME_LEN : Z := 4.
Inductive StripBip141Error : Type :=
  | FailedToDeserializeCoinbaseVersion
  | FailedToDeserializeCoinbaseInputs
  | FailedToDeserializeCoinbaseOutputs
  | FailedToDeserializeCoinbaseLockTime.

Definition try_strip_bip141 (coinbase_tx_prefix coinbase_tx_suffix : bytes)
    : result StripBip141Error (option (bytes * bytes)) :=
  let encoded := coinbase_tx_prefix ++ replicate 32 (byte.of_Z 0) ++ coinbase_tx_suffix in
  '(version, d) ← ok_or (decode_version encoded) FailedToDeserializeCoinbaseVersion;
  '(input, d) ← ok_or (decode_inputs d) FailedToDeserializeCoinbaseInputs;
  '(output, d) ← ok_or (decode_outputs d) FailedToDeserializeCoinbaseOutputs;
  '(lock_time, d) ← ok_or (decode_lock_time d) FailedToDeserializeCoinbaseLockTime;
  let coinbase := mkTransaction version lock_time input output in
  if bool_decide (compute_txid coinbase = compute_wtxid coinbase) then Ok None
  else
    prefix_head ← slice_range coinbase_tx_prefix 0 MARKER_FLAG_OFFSET;
    prefix_tail ← slice_from coinbase_tx_prefix (MARKER_FLAG_OFFSET + MARKER_FLAG_LEN);
    locktime_position ← sub_chk (zlen coinbase_tx_suffix) LOCKTIME_LEN;
    witness_position ← sub_chk locktime_position
      (WITNESS_COUNT_LEN + WITNESS_LEN_LEN + WITNESS_DATA_LEN);
    suffix_head ← slice_range coinbase_tx_suffix 0 witness_position;
    suffix_tail ← slice_from coinbase_tx_suffix locktime_position;
    Ok (Some (prefix_head ++ prefix_tail, suffix_head ++ suffix_tail)).

(** ** Building jobs *)

Definition StandardJob_from_template (template : NewTemplate) (extranonce_prefix : bytes)
    (additional_coinbase_outputs : list TxOut) (job_message : NewMiningJob)
    : result StandardJobError StandardJob :=
  template_coinbase_outputs ← map_err (λ _, StandardFailedToDeserializeCoinbaseOutputs)
    (deserialize_template_outputs (nt_coinbase_tx_outputs template)
       (nt_coinbase_tx_outputs_count template));
  Ok (mkStandardJob template extranonce_prefix
        (additional_coinbase_outputs ++ template_coinbase_outputs) job_message).
Definition ExtendedJob_from_template (template : NewTemplate) (extranonce_prefix : bytes)
    (additional_coinbase_outputs : list TxOut) (coinbase_tx_prefix coinbase_tx_suffix : bytes)
    (job_message : NewExtendedMiningJob) : result ExtendedJobError ExtendedJob :=
  template_coinbase_outputs ← map_err (λ _, JobFailedToDeserializeCoinbaseOutputs)
    (deserialize_template_outputs (nt_coinbase_tx_outputs template)
       (nt_coinbase_tx_outputs_count template));
  Ok (mkExtendedJob (OriginNewTemplate template) extranonce_prefix
        (additional_coinbase_outputs ++ template_coinbase_outputs)
        coinbase_tx_prefix coinbase_tx_suffix job_message).
Definition ExtendedJob_from_custom_job (custom_job : SetCustomMiningJob)
    (extranonce_prefix : bytes) (coinbase_outputs : list TxOut)
    (coinbase_tx_prefix coinbase_tx_suffix : bytes) (job_message : NewExtendedMiningJob)
    : ExtendedJob :=
  mkExtendedJob (OriginSetCustomMiningJob custom_job) extranonce_prefix coinbase_outputs
    coinbase_tx_prefix coinbase_tx_suffix job_message.

Definition into_standard_job (channel_id : Z) (extranonce_prefix : bytes) (self : ExtendedJob)
    : result ExtendedJobError StandardJob :=
  match ej_origin self with
  | OriginSetCustomMiningJob _ => Err FailedToConvertToStandardJob
  | OriginNewTemplate template =>
      let m := ej_job_message self in
      merkle_root ← ok_or (merkle_root_from_path (xj_coinbase_tx_prefix m)
        (xj_coinbase_tx_suffix m) extranonce_prefix (xj_merkle_path m)) FailedToCalculateMerkleRoot;
      if negb (zlen merkle_root =? 32) then Err FailedToCalculateMerkleRoot
      else
        let standard_job_message :=
          mkNewMiningJob channel_id (xj_job_id m) (xj_min_ntime m) (xj_version m) merkle_root in
        map_err (λ _, FailedToConvertToStandardJob)
          (StandardJob_from_template template extranonce_prefix (ej_coinbase_outputs self)
             standard_job_message)
  end.
End jobs.

(** ** The job factory *)

Record JobFactory : Type := mkJobFactory {
  job_id_state : Z;
  jf_version_rolling_allowed : bool;
  pool_tag_string : option bytes;
  miner_tag_string : option bytes }.
Definition JobFactory_new (version_rolling_allowed : bool)
    (pool_tag_string miner_tag_string : option bytes) : JobFactory :=
  mkJobFactory 0 version_rolling_allowed pool_tag_string miner_tag_string.

(** [+=] on an unsigned integer: a panic under overflow checks, else wrapping. *)
Definition add_over {E} (overflow_checks : bool) (w a b : Z) : result E Z :=
  if overflow_checks then add_chk w a b else Ok (wrap w (a + b)).
(** [JobIdFactory::next]. *)
Definition next_job_id {E} (overflow_checks : bool) : ST JobFactory E Z := λ f,
  match add_over (E := E) overflow_checks 32 (job_id_state f) 1 with
  | Ok n => (Ok n, mkJobFactory n (jf_version_rolling_allowed f) (pool_tag_string f)
                     (miner_tag_string f))
  | Err e => (Err e, f)
  | Panic => (Panic, f)
  end.
Fixpoint sum_u64 {E} (overflow_checks : bool) (acc : Z) (l : list TxOut) : result E Z :=
  match l with
  | [] => Ok acc
  | o :: l => acc ← add_over overflow_checks 64 acc (txo_value o); sum_u64 overflow_checks acc l
  end.

Definition slash : bytes := String.list_byte_of_string "/".
Definition pool_miner_tag (f : JobFactory) : bytes :=
  slash ++ default [] (pool_tag_string f) ++ slash ++ default [] (miner_tag_string f) ++ slash.
Definition op_pushbytes_pool_miner_tag (f : JobFactory) : result JobFactoryError bytes :=
  let tag := pool_miner_tag f in
  if (1 <=? zlen tag) && (zlen tag <=? 61) then Ok (to_le_bytes 1 (zlen tag) ++ tag)
  else Err CoinbaseTxPrefixError.

Section factory.
Context `{Bitcoin} (overflow_checks : bool).
Notation FACTORY := (ST JobFactory JobFactoryError).

Fixpoint outputs_sum (acc : Z) (l : list TxOut) : result JobFactoryError Z :=
  match l with
  | [] => Ok acc
  | o :: l =>
      if acc + txo_value o <? 2 ^ 64 then outputs_sum (acc + txo_value o) l
      else Err CoinbaseOutputsSumOverflow
  end.
(** The coinbase's only input spends nothing and has a 32-byte zero witness. *)
Definition coinbase_input (script_sig : bytes) (sequence : Z) : TxIn :=
  mkTxIn OutPoint_null script_sig sequence [replicate 32 (byte.of_Z 0)].
Definition extranonce_push : bytes := to_le_bytes 1 MAX_EXTRANONCE_LEN.
Definition empty_extranonce : bytes := replicate 32 (byte.of_Z 0).

Definition coinbase (template : NewTemplate) (coinbase_reward_outputs : list TxOut)
    (f : JobFactory) : result JobFactoryError Transaction :=
  sum ← outputs_sum 0 coinbase_reward_outputs;
  if nt_coinbase_tx_value_remaining template <? sum then Err InvalidCoinbaseOutputsSum
  else
    template_outputs ← map_err (λ _, DeserializeCoinbaseOutputsError)
      (deserialize_template_outputs (nt_coinbase_tx_outputs template)
         (nt_coinbase_tx_outputs_count template));
    let outputs := coinbase_reward_outputs ++ template_outputs in
    tag ← op_pushbytes_pool_miner_tag f;
    let script_sig := nt_coinbase_prefix template ++ tag ++ extranonce_push ++ empty_extranonce in
    Ok (mkTransaction (nt_coinbase_tx_version template) (nt_coinbase_tx_locktime template)
          [coinbase_input script_sig (nt_coinbase_tx_input_sequence template)] outputs).

(** Where the extranonce starts in the serialized coinbase. *)
Definition pool_miner_tag_len (f : JobFactory) : Z :=
  1 + 3 + match pool_tag_string f with Some s => zlen s | None => 0 end
    + match miner_tag_string f with Some s => zlen s | None => 0 end.
Definition extranonce_index (template : NewTemplate) (f : JobFactory) : Z :=
  4 + 2 + 1 + 32 + 4 + 1 + zlen (nt_coinbase_prefix template) + pool_miner_tag_len f + 1.

Definition coinbase_tx_prefix (template : NewTemplate) (outputs : list TxOut) (f : JobFactory)
    : result JobFactoryError bytes :=
  coinbase ← coinbase template outputs f;
  let serialized_coinbase := tx_serialize coinbase in
  slice_range serialized_coinbase 0 (extranonce_index template f).
Definition coinbase_tx_suffix (template : NewTemplate) (outputs : list TxOut) (f : JobFactory)
    : result JobFactoryError bytes :=
  coinbase ← coinbase template outputs f;
  let serialized_coinbase := tx_serialize coinbase in
  slice_from serialized_coinbase (extranonce_index template f + MAX_EXTRANONCE_LEN).

Definition check_outputs_sum (template : NewTemplate) (outputs : list TxOut)
    : result JobFactoryError unit :=
  coinbase_outputs_sum ← sum_u64 overflow_checks 0 outputs;
  if negb (coinbase_outputs_sum =? nt_coinbase_tx_value_remaining template)
  then Err InvalidCoinbaseOutputsSum else Ok tt.

Definition new_standard_job (channel_id : Z) (chain_tip : option ChainTip)
    (extranonce_prefix : bytes) (template : NewTemplate) (additional_coinbase_outputs : list TxOut)
    : FACTORY StandardJob :=
  _ ← lift (check_outputs_sum template additional_coinbase_outputs);
  job_id ← next_job_id overflow_checks;
  let version := nt_version template in
  prefix ← gets (coinbase_tx_prefix template additional_coinbase_outputs);
  prefix ← lift prefix;
  suffix ← gets (coinbase_tx_suffix template additional_coinbase_outputs);
  suffix ← lift suffix;
  merkle_root ← lift (unwrap (merkle_root_from_path prefix suffix extranonce_prefix
    (nt_merkle_path template)));
  if negb (zlen merkle_root =? 32) then panic
  else
    job_message ←
      (if nt_future_template template
       then mret (mkNewMiningJob channel_id job_id None version merkle_root)
       else
         chain_tip ← lift (ok_or chain_tip ChainTipRequired);
         mret (mkNewMiningJob channel_id job_id (Some (ct_min_ntime chain_tip)) version
                 merkle_root));
    lift (map_err (λ _, DeserializeCoinbaseOutputsError)
      (StandardJob_from_template template extranonce_prefix additional_coinbase_outputs job_message)).

(** [try_into] a [B064K]. *)
Definition try_b064k {E} (e : E) (l : bytes) : result E bytes :=
  if zlen l <=? 65535 then Ok l else Err e.
Definition strip_coinbase (prefix suffix : bytes) : result JobFactoryError (bytes * bytes) :=
  stripped ← map_err (λ _, FailedToStripBip141) (try_strip_bip141 prefix suffix);
  ok_or stripped FailedToStripBip141.

Definition new_extended_job (channel_id : Z) (chain_tip : option ChainTip)
    (extranonce_prefix : bytes) (template : NewTemplate) (additional_coinbase_outputs : list TxOut)
    : FACTORY ExtendedJob :=
  _ ← lift (check_outputs_sum template additional_coinbase_outputs);
  job_id ← next_job_id overflow_checks;
  let version := nt_version template in
  prefix ← gets (coinbase_tx_prefix template additional_coinbase_outputs);
  prefix ← lift prefix;
  suffix ← gets (coinbase_tx_suffix template additional_coinbase_outputs);
  suffix ← lift suffix;
  '(stripped_prefix, stripped_suffix) ← lift (strip_coinbase prefix suffix);
  rolling ← gets jf_version_rolling_allowed;
  min_ntime ←
    (if nt_future_template template then mret None
     else
       chain_tip ← lift (ok_or chain_tip ChainTipRequired);
       mret (Some (ct_min_ntime chain_tip)));
  p ← lift (try_b064k CoinbaseTxPrefixError stripped_prefix);
  s ← lift (try_b064k CoinbaseTxSuffixError stripped_suffix);
  let job_message :=
    mkNewExtendedMiningJob channel_id job_id min_ntime version rolling (nt_merkle_path template) p s in
  lift (map_err (λ _, DeserializeCoinbaseOutputsError)
    (ExtendedJob_from_template template extranonce_prefix additional_coinbase_outputs
       prefix suffix job_message)).

Definition new_coinbase_tx_prefix_and_suffix (template : NewTemplate)
    (additional_coinbase_outputs : list TxOut) (f : JobFactory)
    : result JobFactoryError (bytes * bytes) :=
  _ ← check_outputs_sum template additional_coinbase_outputs;
  prefix ← coinbase_tx_prefix template additional_coinbase_outputs f;
  suffix ← coinbase_tx_suffix template additional_coinbase_outputs f;
  Ok (prefix, suffix).

(** [try_into] a [B0255]. *)
Definition try_b0255 {E} (e : E) (l : bytes) : result E bytes :=
  if zlen l <=? 255 then Ok l else Err e.
Definition new_custom_job (channel_id request_id : Z) (token : bytes) (chain_tip : ChainTip)
    (template : NewTemplate) (additional_coinbase_outputs : list TxOut) (f : JobFactory)
    : result JobFactoryError SetCustomMiningJob :=
  _ ← check_outputs_sum template additional_coinbase_outputs;
  template_outputs ← map_err (λ _, DeserializeCoinbaseOutputsError)
    (deserialize_template_outputs (nt_coinbase_tx_outputs template)
       (nt_coinbase_tx_outputs_count template));
  let serialized_outputs := outputs_serialize (additional_coinbase_outputs ++ template_outputs) in
  tag ← op_pushbytes_pool_miner_tag f;
  let coinbase_prefix := nt_coinbase_prefix template ++ tag ++ extranonce_push in
  coinbase_prefix ← try_b0255 FailedToSerializeCoinbasePrefix coinbase_prefix;
  serialized_outputs ← try_b064k FailedToSerializeCoinbaseOutputs serialized_outputs;
  Ok (mkSetCustomMiningJob channel_id request_id token (nt_version template)
        (ct_prev_hash chain_tip) (ct_min_ntime chain_tip) (ct_nbits chain_tip)
        (nt_coinbase_tx_version template) coinbase_prefix
        (nt_coinbase_tx_input_sequence template) serialized_outputs
        (nt_coinbase_tx_locktime template) (nt_merkle_path template)).

Definition custom_outputs (m : SetCustomMiningJob) : result JobFactoryError (list TxOut) :=
  '(outputs, _) ← ok_or (decode_outputs (cj_coinbase_tx_outputs m)) DeserializeCoinbaseOutputsError;
  Ok outputs.
Definition custom_coinbase (m : SetCustomMiningJob) : result JobFactoryError Transaction :=
  deserialized_outputs ← custom_outputs m;
  let script_sig := cj_coinbase_prefix m ++ empty_extranonce in
  Ok (mkTransaction (cj_coinbase_tx_version m) (cj_coinbase_tx_locktime m)
        [coinbase_input script_sig (cj_coinbase_tx_input_n_sequence m)] deserialized_outputs).
Definition custom_index (m : SetCustomMiningJob) : Z :=
  4 + 2 + 1 + 32 + 4 + 1 + zlen (cj_coinbase_prefix m).
Definition custom_coinbase_tx_prefix (m : SetCustomMiningJob) : result JobFactoryError bytes :=
  coinbase ← custom_coinbase m;
  slice_range (tx_serialize coinbase) 0 (custom_index m).
Definition custom_coinbase_tx_suffix (m : SetCustomMiningJob) : result JobFactoryError bytes :=
  coinbase ← custom_coinbase m;
  slice_from (tx_serialize coinbase) (custom_index m + MAX_EXTRANONCE_LEN).

Definition new_extended_job_from_custom_job (m : SetCustomMiningJob) (extranonce_prefix : bytes)
    : FACTORY ExtendedJob :=
  coinbase_outputs ← lift (custom_outputs m);
  job_id ← next_job_id overflow_checks;
  prefix ← lift (custom_coinbase_tx_prefix m);
  suffix ← lift (custom_coinbase_tx_suffix m);
  '(stripped_prefix, stripped_suffix) ← lift (strip_coinbase prefix suffix);
  rolling ← gets jf_version_rolling_allowed;
  p ← lift (try_b064k CoinbaseTxPrefixError stripped_prefix);
  s ← lift (try_b064k CoinbaseTxSuffixError stripped_suffix);
  let job_message :=
    mkNewExtendedMiningJob (cj_channel_id m) job_id (Some (cj_min_ntime m)) (cj_version m) rolling
      (cj_merkle_path m) p s in
  mret (ExtendedJob_from_custom_job m extranonce_prefix coinbase_outputs prefix suffix job_message).
End factory.
