(* ===== verification/JobFacts.v ===== *)
(** * The coinbase transactions of jobs

    How the halves of a coinbase sent to miners relate to the transaction: with
    any 32-byte extranonce between them they are its serialization, and after
    stripping its serialization without witness, from which its id and the
    merkle root are computed.  With an extranonce of any length, when the halves
    without witness decode, so do those with it, to a transaction of the same id. *)

From stdpp Require Import gmap.
From S2P Require Import Prelude Mining Bitcoin Jobs.

(** ** The wire format of a coinbase *)

Section format.
Context `{BitcoinLaws}.

(** The parts of a coinbase around the extranonce: [script] is the signature
    script up to it. *)
Record Coinbase : Type := mkCoinbase {
  cb_version : Z;
  cb_script : bytes;
  cb_sequence : Z;
  cb_outputs : list TxOut;
  cb_lock_time : Z }.
Definition coinbase_tx (c : Coinbase) (en : bytes) : Transaction :=
  mkTransaction (cb_version c) (cb_lock_time c)
    [coinbase_input (cb_script c ++ en) (cb_sequence c)] (cb_outputs c).
(** Fields at their widths, and a script whose length takes one byte. *)
Definition coinbase_wf (c : Coinbase) : Prop :=
  fits 32 (cb_version c) ∧ fits 32 (cb_sequence c) ∧ fits 32 (cb_lock_time c) ∧
  zlen (cb_script c) + 32 < 0xFD ∧ Forall txout_wf (cb_outputs c) ∧ zlen (cb_outputs c) < 2 ^ 16.

Definition head_bytes (c : Coinbase) : bytes :=
  to_le_bytes 1 1 ++ replicate 32 (byte.of_Z 0) ++ to_le_bytes 4 0xFFFFFFFF
    ++ to_le_bytes 1 (zlen (cb_script c) + 32) ++ cb_script c.
Definition tail_bytes (c : Coinbase) : bytes :=
  to_le_bytes 4 (cb_sequence c) ++ enc_vec enc_txout (cb_outputs c).
Definition witness_bytes : bytes := to_le_bytes 1 1 ++ to_le_bytes 1 32 ++ replicate 32 (byte.of_Z 0).

Definition segwit_prefix (c : Coinbase) : bytes :=
  to_le_bytes 4 (cb_version c) ++ marker_flag ++ head_bytes c.
Definition segwit_suffix (c : Coinbase) : bytes :=
  tail_bytes c ++ witness_bytes ++ to_le_bytes 4 (cb_lock_time c).
Definition legacy_prefix (c : Coinbase) : bytes := to_le_bytes 4 (cb_version c) ++ head_bytes c.
Definition legacy_suffix (c : Coinbase) : bytes := tail_bytes c ++ to_le_bytes 4 (cb_lock_time c).

Lemma enc_coinbase_input c en :
  zlen en = 32 → zlen (cb_script c) + 32 < 0xFD →
  enc_vec enc_txin [coinbase_input (cb_script c ++ en) (cb_sequence c)]
    = head_bytes c ++ en ++ to_le_bytes 4 (cb_sequence c).
Proof.
  intros Hen Hs. unfold enc_vec, enc_txin, head_bytes, coinbase_input, var_bytes.
  cbn [map concat script_sig previous_output OutPoint_null fst snd txi_sequence].
  change (zlen [_]) with 1. change (compact_size 1) with (to_le_bytes 1 1).
  rewrite zlen_app, Hen. unfold compact_size. rewrite (proj2 (Z.ltb_lt _ _)) by done.
  rewrite app_nil_r, <- !app_assoc. done.
Qed.
Lemma coinbase_uses_segwit c en : uses_segwit (coinbase_tx c en) = true.
Proof. done. Qed.

Lemma segwit_split c en :
  zlen en = 32 → coinbase_wf c →
  segwit_prefix c ++ en ++ segwit_suffix c = tx_serialize (coinbase_tx c en).
Proof.
  intros Hen (_ & _ & _ & Hs & _). rewrite law_serialize, coinbase_uses_segwit.
  unfold segwit_bytes. cbn [coinbase_tx tx_version tx_input tx_output lock_time].
  rewrite enc_coinbase_input by done. unfold segwit_prefix, segwit_suffix, tail_bytes.
  rewrite <- !app_assoc. repeat f_equal.
Qed.
Lemma legacy_split c en :
  zlen en = 32 → coinbase_wf c →
  legacy_prefix c ++ en ++ legacy_suffix c = legacy_bytes (coinbase_tx c en).
Proof.
  intros Hen (_ & _ & _ & Hs & _).
  unfold legacy_bytes. cbn [coinbase_tx tx_version tx_input tx_output lock_time].
  rewrite enc_coinbase_input by done. unfold legacy_prefix, legacy_suffix, tail_bytes.
  by rewrite <- !app_assoc.
Qed.
Lemma coinbase_tx_wf c en : zlen en = 32 → coinbase_wf c → tx_wf (coinbase_tx c en).
Proof.
  intros Hen (Hv & Hs & Hl & Hsc & Ho & Hn). unfold tx_wf.
  cbn [coinbase_tx tx_version tx_input tx_output lock_time].
  pose proof (zlen_nonneg (cb_script c)).
  split_and!; try done; [|lia]. constructor; [|constructor].
  unfold txin_wf, txin_fits. cbn [coinbase_input previous_output script_sig txi_sequence witness OutPoint_null fst snd].
  rewrite zlen_app, Hen. split_and!; try done; [lia|]. repeat constructor.
Qed.

(** ** Decoding a coinbase *)

Lemma legacy_strip tx : legacy_bytes (strip_tx tx) = legacy_bytes tx.
Proof.
  unfold legacy_bytes, strip_tx, enc_vec. cbn [tx_version tx_input tx_output lock_time].
  rewrite map_map. unfold zlen. by rewrite length_map.
Qed.
Lemma txid_strip tx : compute_txid (strip_tx tx) = compute_txid tx.
Proof. by rewrite !law_txid, legacy_strip. Qed.
Lemma strip_tx_wf tx : tx_wf tx → tx_wf (strip_tx tx).
Proof.
  intros (Hv & Hl & Hi & Ho & Hn & Hm & He). unfold tx_wf, strip_tx.
  cbn [tx_version tx_input tx_output lock_time]. split_and!; try done.
  - rewrite Forall_map. eapply Forall_impl; [|exact Hi].
    intros i [Hf _]. split; [exact Hf|]. by split.
  - unfold zlen. by rewrite length_map.
  - by destruct (tx_input tx).
Qed.
Lemma strip_not_segwit tx : tx_input tx ≠ [] → uses_segwit (strip_tx tx) = false.
Proof.
  unfold uses_segwit, strip_tx. cbn [tx_input]. destruct (tx_input tx) as [|i l]; [done|].
  intros _. cbn [map existsb strip_witness witness]. induction l as [|j l IH]; [done|]. exact IH.
Qed.
Lemma deserialize_legacy tx : tx_wf tx → tx_deserialize (legacy_bytes tx) = Some (strip_tx tx).
Proof.
  intros Hw. rewrite <- legacy_strip.
  assert (tx_serialize (strip_tx tx) = legacy_bytes (strip_tx tx)) as <-.
  { rewrite law_serialize, strip_not_segwit; [done|]. by destruct Hw as (_ & _ & _ & _ & _ & _ & ?). }
  apply law_deserialize. by apply strip_tx_wf.
Qed.

Lemma merkle_root_segwit c en path :
  zlen en = 32 → coinbase_wf c →
  merkle_root_from_path (segwit_prefix c) (segwit_suffix c) en path
    = Some (merkle_root_from_path_ (compute_txid (coinbase_tx c en)) path).
Proof.
  intros Hen Hc. unfold merkle_root_from_path.
  by rewrite segwit_split, law_deserialize by auto using coinbase_tx_wf.
Qed.
Lemma merkle_root_legacy c en path :
  zlen en = 32 → coinbase_wf c →
  merkle_root_from_path (legacy_prefix c) (legacy_suffix c) en path
    = Some (merkle_root_from_path_ (compute_txid (coinbase_tx c en)) path).
Proof.
  intros Hen Hc. unfold merkle_root_from_path.
  rewrite legacy_split, deserialize_legacy by auto using coinbase_tx_wf.
  cbn [mbind option_bind]. by rewrite txid_strip.
Qed.
(** A decoded transaction with one input, seen from its bytes. *)
Lemma compact_size_one n r r' : 0 ≤ n → compact_size n ++ r = to_le_bytes 1 1 ++ r' → n = 1 ∧ r = r'.
Proof.
  intros Hn. unfold compact_size. destruct (Z.ltb_spec n 0xFD).
  { intros [Hb ->]%app_inj_1; [|done]. apply (f_equal from_le_bytes) in Hb. rewrite !from_to_le_bytes in Hb by (unfold fits; lia). done. }
  destruct (n <=? 0xFFFF); [|destruct (n <=? 0xFFFFFFFF)]; rewrite <- app_assoc; (intros [Hb _]%app_inj_1; [by vm_compute in Hb|done]).
Qed.
Lemma legacy_decoded c en tx :
  tx_deserialize (legacy_prefix c ++ en ++ legacy_suffix c) = Some tx →
  tx_fits tx ∧ ∃ i, tx_input tx = [i] ∧ to_le_bytes 4 (tx_version tx) = to_le_bytes 4 (cb_version c) ∧
    to_le_bytes 4 (lock_time tx) = to_le_bytes 4 (cb_lock_time c) ∧
    enc_vec enc_txin [i] ++ enc_vec enc_txout (tx_output tx) = head_bytes c ++ en ++ tail_bytes c.
Proof.
  intros [E Hf]%law_canonical. split; [done|]. rewrite law_serialize in E. unfold legacy_prefix, legacy_suffix, head_bytes in E.
  destruct (uses_segwit tx) eqn:Hs.
  { exfalso. unfold segwit_bytes in E. rewrite <- !app_assoc in E. apply app_inj_1 in E as [_ E]; [|by rewrite !to_le_bytes_length].
    by apply (f_equal head) in E. }
  unfold legacy_bytes, enc_vec at 1 in E. rewrite <- !app_assoc in E. apply app_inj_1 in E as [Hv E]; [|by rewrite !to_le_bytes_length].
  assert (Hn : zlen (tx_input tx) = 1) by (by apply compact_size_one in E as [? _]; [|apply zlen_nonneg]).
  destruct (tx_input tx) as [|i [|]] eqn:Hi; [by vm_compute in Hn| |unfold zlen in Hn; cbn in Hn; lia]. exists i. split; [done|]. split; [done|].
  rewrite !app_assoc in E. apply app_inj_2 in E as [E Hl]; [|by rewrite !to_le_bytes_length]. split; [done|].
  unfold enc_vec at 1, head_bytes. rewrite <- !app_assoc in *. exact E.
Qed.
(** The bytes sent to the node decode too, to the same transaction with the
    witness, whatever the length of the extranonce. *)
Lemma legacy_to_segwit c en tx :
  tx_deserialize (legacy_prefix c ++ en ++ legacy_suffix c) = Some tx →
  ∃ tx', tx_deserialize (segwit_prefix c ++ en ++ segwit_suffix c) = Some tx' ∧ compute_txid tx' = compute_txid tx.
Proof.
  intros E. apply legacy_decoded in E as ((Hv & Hl & Hi & Ho & Hn) & i & Ei & Ev & El & E).
  set (i' := mkTxIn (previous_output i) (script_sig i) (txi_sequence i) [replicate 32 (byte.of_Z 0)]).
  set (tx' := mkTransaction (tx_version tx) (lock_time tx) [i'] (tx_output tx)).
  rewrite Ei in Hi. apply Forall_cons_1 in Hi as [Hi _].
  assert (Hwf : tx_wf tx') by (unfold tx_wf, tx'; cbn; split_and!; try done; repeat constructor; apply Hi).
  assert (Hb : tx_serialize tx' = segwit_prefix c ++ en ++ segwit_suffix c).
  { rewrite law_serialize. change (uses_segwit tx') with true. cbn iota. unfold segwit_bytes, segwit_prefix, segwit_suffix. cbn [tx_version tx_input tx_output lock_time tx'].
    change (enc_vec enc_txin [i']) with (enc_vec enc_txin [i]). change (concat (map enc_witness [i'])) with (witness_bytes ++ []).
    rewrite app_nil_r, Ev, El. rewrite <- !app_assoc. f_equal. f_equal. rewrite (app_assoc (enc_vec enc_txin [i])), E. by rewrite <- !app_assoc. }
  exists tx'. split; [rewrite <- Hb; by apply law_deserialize|]. rewrite !law_txid. unfold legacy_bytes. by rewrite Ei.
Qed.
Lemma merkle_root_len coinbase_id path :
  zlen coinbase_id = 32 → zlen (merkle_root_from_path_ coinbase_id path) = 32.
Proof.
  intros Hl. unfold merkle_root_from_path_.
  enough (∀ p root, zlen root = 32 → zlen (reduce_path root p) = 32) by (destruct path; auto).
  intros p. induction p as [|n p IH]; intros root Hr; [done|]. cbn [reduce_path].
  apply IH, law_sha256d.
Qed.
Lemma txid_len tx : zlen (compute_txid tx) = 32.
Proof. rewrite law_txid. apply law_sha256d. Qed.

(** ** Stripping *)

(** What [try_strip_bip141] reads from a coinbase with witness: the marker byte
    is taken for an empty list of inputs. *)
Definition probe (version : Z) : Transaction := mkTransaction version 0 [] [mkTxOut 1 []].

Lemma strip_segwit c :
  coinbase_wf c → compute_txid (probe (cb_version c)) ≠ compute_wtxid (probe (cb_version c)) →
  try_strip_bip141 (segwit_prefix c) (segwit_suffix c)
    = Ok (Some (legacy_prefix c, legacy_suffix c)).
Proof.
  intros (Hv & _ & _ & Hs & _) Hne. unfold try_strip_bip141.
  assert (∃ X, segwit_prefix c ++ replicate 32 (byte.of_Z 0) ++ segwit_suffix c =
    to_le_bytes 4 (cb_version c) ++ enc_vec enc_txin [] ++ enc_vec enc_txout [mkTxOut 1 []]
      ++ to_le_bytes 4 0 ++ X) as [X ->].
  { eexists. unfold segwit_prefix, head_bytes. rewrite <- !app_assoc. by f_equal. }
  rewrite law_decode_version by done. cbn [ok_or mbind result_bind].
  rewrite law_decode_inputs by done. cbn [ok_or mbind result_bind].
  rewrite law_decode_outputs; [|by apply Forall_singleton|done]. cbn [ok_or mbind result_bind].
  rewrite law_decode_lock_time by done. cbn [ok_or mbind result_bind map].
  change (mkTransaction (cb_version c) 0 [] [mkTxOut 1 []]) with (probe (cb_version c)).
  rewrite bool_decide_eq_false_2 by done.
  unfold MARKER_FLAG_OFFSET, MARKER_FLAG_LEN, LOCKTIME_LEN, WITNESS_COUNT_LEN, WITNESS_LEN_LEN,
    WITNESS_DATA_LEN.
  assert (Hw : zlen witness_bytes = 34) by done.
  unfold segwit_prefix. rewrite slice_range_prefix by (by rewrite to_le_bytes_zlen).
  cbn [mbind result_bind]. rewrite app_assoc.
  assert (Hm : zlen (to_le_bytes 4 (cb_version c) ++ marker_flag) = 6)
    by (rewrite zlen_app, to_le_bytes_zlen; done).
  rewrite slice_from_ok by (rewrite zlen_app, Hm; pose proof (zlen_nonneg (head_bytes c)); lia).
  rewrite zdrop_app by done. cbn [mbind result_bind].
  assert (zlen (segwit_suffix c) = zlen (tail_bytes c) + 38) as Hl.
  { unfold segwit_suffix. rewrite !zlen_app, Hw, to_le_bytes_zlen. lia. }
  pose proof (zlen_nonneg (tail_bytes c)). unfold sub_chk. rewrite Hl.
  rewrite (proj2 (Z.leb_le _ _)) by lia. cbn [mbind result_bind].
  rewrite (proj2 (Z.leb_le _ _)) by lia. cbn [mbind result_bind].
  unfold segwit_suffix. rewrite (slice_range_prefix (tail_bytes c)) by lia.
  cbn [mbind result_bind]. rewrite app_assoc, slice_from_ok.
  2:{ rewrite !zlen_app, Hw, to_le_bytes_zlen. lia. }
  rewrite zdrop_app by (rewrite zlen_app, Hw; lia). done.
Qed.
End format.

(** ** What the factory builds *)

Definition tag_push (f : JobFactory) : bytes :=
  to_le_bytes 1 (zlen (pool_miner_tag f)) ++ pool_miner_tag f.
Definition same_tags (f g : JobFactory) : Prop :=
  pool_tag_string f = pool_tag_string g ∧ miner_tag_string f = miner_tag_string g.
Definition template_coinbase (f : JobFactory) (t : NewTemplate) (outputs : list TxOut) : Coinbase :=
  mkCoinbase (nt_coinbase_tx_version t) (nt_coinbase_prefix t ++ tag_push f ++ extranonce_push)
    (nt_coinbase_tx_input_sequence t) outputs (nt_coinbase_tx_locktime t).
Definition custom_coinbase_parts (m : SetCustomMiningJob) (outputs : list TxOut) : Coinbase :=
  mkCoinbase (cj_coinbase_tx_version m) (cj_coinbase_prefix m)
    (cj_coinbase_tx_input_n_sequence m) outputs (cj_coinbase_tx_locktime m).

Lemma same_tags_push f g : same_tags f g → tag_push f = tag_push g.
Proof. intros [H1 H2]. unfold tag_push, pool_miner_tag. by rewrite H1, H2. Qed.
Lemma zlen_pool_miner_tag f : 1 + zlen (pool_miner_tag f) = pool_miner_tag_len f.
Proof.
  unfold pool_miner_tag, pool_miner_tag_len. rewrite !zlen_app. change (zlen slash) with 1.
  destruct (pool_tag_string f), (miner_tag_string f); cbn [default from_option id];
    rewrite ?zlen_nil; lia.
Qed.
Lemma tag_ok f tag :
  op_pushbytes_pool_miner_tag f = Ok tag → tag = tag_push f ∧ zlen (tag_push f) ≤ 62.
Proof.
  unfold op_pushbytes_pool_miner_tag. destruct (_ && _) eqn:Hb; [|done]. intros [= <-].
  bool_props. split; [done|]. unfold tag_push. rewrite zlen_app, to_le_bytes_zlen. lia.
Qed.

Section built.
Context `{BitcoinLaws} (chk : bool).

(** Inputs the factory can be given: fields at their widths, a coinbase prefix
    that leaves the script below 253 bytes, outputs that can be encoded, and no
    collision that would hide the witness from [try_strip_bip141]. *)
Definition parts_ok (version sequence lock : Z) (outputs : list TxOut) : Prop :=
  fits 32 version ∧ fits 32 sequence ∧ fits 32 lock ∧
  Forall txout_wf outputs ∧ zlen outputs < 2 ^ 16 ∧
  compute_txid (probe version) ≠ compute_wtxid (probe version).
Definition template_ok (t : NewTemplate) (outputs : list TxOut) : Prop :=
  zlen (nt_coinbase_prefix t) ≤ 157 ∧
  ∀ touts, deserialize_template_outputs (nt_coinbase_tx_outputs t) (nt_coinbase_tx_outputs_count t)
             = Ok touts →
    parts_ok (nt_coinbase_tx_version t) (nt_coinbase_tx_input_sequence t)
      (nt_coinbase_tx_locktime t) (outputs ++ touts).
Definition custom_ok (m : SetCustomMiningJob) : Prop :=
  zlen (cj_coinbase_prefix m) ≤ 220 ∧
  ∀ outs, custom_outputs m = Ok outs →
    parts_ok (cj_coinbase_tx_version m) (cj_coinbase_tx_input_n_sequence m)
      (cj_coinbase_tx_locktime m) outs.

Lemma template_coinbase_wf f t outs touts tag :
  template_ok t outs → op_pushbytes_pool_miner_tag f = Ok tag →
  deserialize_template_outputs (nt_coinbase_tx_outputs t) (nt_coinbase_tx_outputs_count t) = Ok touts →
  coinbase_wf (template_coinbase f t (outs ++ touts)) ∧
  compute_txid (probe (nt_coinbase_tx_version t)) ≠ compute_wtxid (probe (nt_coinbase_tx_version t)).
Proof.
  intros [Hp Ht] Htag Hd. destruct (Ht _ Hd) as (Hv & Hs & Hl & Ho & Hn & Hc).
  split; [|done]. apply tag_ok in Htag as [_ Htag].
  unfold coinbase_wf, template_coinbase.
  cbn [cb_version cb_script cb_sequence cb_outputs cb_lock_time].
  rewrite zlen_app in Hn. rewrite !zlen_app. change (zlen extranonce_push) with 1.
  split_and!; try done; lia.
Qed.

(** The two halves of the coinbase of a template. *)
Lemma coinbase_halves f t outs tx :
  template_ok t outs → coinbase t outs f = Ok tx →
  ∃ touts, deserialize_template_outputs (nt_coinbase_tx_outputs t) (nt_coinbase_tx_outputs_count t)
             = Ok touts ∧
    let c := template_coinbase f t (outs ++ touts) in
    coinbase_wf c ∧ compute_txid (probe (cb_version c)) ≠ compute_wtxid (probe (cb_version c)) ∧
    op_pushbytes_pool_miner_tag f = Ok (tag_push f) ∧
    coinbase_tx_prefix t outs f = Ok (segwit_prefix c) ∧
    coinbase_tx_suffix t outs f = Ok (segwit_suffix c).
Proof.
  intros Hok Hc. unfold coinbase_tx_prefix, coinbase_tx_suffix. rewrite Hc. cbn [mbind result_bind].
  unfold coinbase in Hc. apply bind_Ok in Hc as (sum & _ & Hc).
  destruct (_ <? sum); [done|]. apply bind_Ok in Hc as (touts & Hd & Hc).
  apply map_err_Ok in Hd. apply bind_Ok in Hc as (tag & Htag & Hc). injection Hc as <-.
  exists touts. split; [done|]. cbn zeta.
  destruct (template_coinbase_wf f t outs touts tag Hok Htag Hd) as [Hwf Hne].
  destruct (tag_ok f tag Htag) as [-> _].
  set (c := template_coinbase f t (outs ++ touts)) in *.
  split_and!; [done|done|done| |].
  all: assert (Hi : extranonce_index t f = zlen (segwit_prefix c))
    by (unfold extranonce_index, segwit_prefix, head_bytes, c, template_coinbase;
        cbn [cb_version cb_script]; unfold tag_push; rewrite !zlen_app, <- zlen_pool_miner_tag;
        change (zlen marker_flag) with 2; change (zlen extranonce_push) with 1;
        rewrite !to_le_bytes_zlen, zlen_replicate; lia).
  all: change (mkTransaction _ _ _ _) with
    (mkTransaction (cb_version c) (cb_lock_time c)
       [coinbase_input (nt_coinbase_prefix t ++ tag_push f ++ extranonce_push ++ empty_extranonce)
          (cb_sequence c)] (cb_outputs c)).
  all: replace (nt_coinbase_prefix t ++ tag_push f ++ extranonce_push ++ empty_extranonce)
    with (cb_script c ++ empty_extranonce)
    by (unfold c, template_coinbase; cbn [cb_script]; by rewrite <- !app_assoc).
  all: change (mkTransaction _ _ _ _) with (coinbase_tx c empty_extranonce).
  all: rewrite <- segwit_split by done; rewrite Hi.
  - by apply slice_range_prefix.
  - rewrite app_assoc, slice_from_ok.
    + rewrite zdrop_app; [done|]. by rewrite zlen_app.
    + rewrite !zlen_app. change (zlen empty_extranonce) with 32. unfold MAX_EXTRANONCE_LEN.
      pose proof (zlen_nonneg (segwit_prefix c)). pose proof (zlen_nonneg (segwit_suffix c)). lia.
Qed.

Lemma custom_halves m tx :
  custom_ok m → custom_coinbase m = Ok tx →
  ∃ outs, custom_outputs m = Ok outs ∧
    let c := custom_coinbase_parts m outs in
    coinbase_wf c ∧ compute_txid (probe (cb_version c)) ≠ compute_wtxid (probe (cb_version c)) ∧
    custom_coinbase_tx_prefix m = Ok (segwit_prefix c) ∧
    custom_coinbase_tx_suffix m = Ok (segwit_suffix c).
Proof.
  intros [Hp Hok] Hc. unfold custom_coinbase_tx_prefix, custom_coinbase_tx_suffix.
  rewrite Hc. cbn [mbind result_bind].
  unfold custom_coinbase in Hc. apply bind_Ok in Hc as (outs & Ho & Hc). injection Hc as <-.
  destruct (Hok _ Ho) as (Hv & Hs & Hl & Hw & Hn & Hne).
  exists outs. split; [done|]. cbn zeta. set (c := custom_coinbase_parts m outs).
  assert (Hwf : coinbase_wf c) by (unfold coinbase_wf, c, custom_coinbase_parts; cbn; split_and!; done || lia).
  assert (Hi : custom_index m = zlen (segwit_prefix c)).
  { unfold custom_index, segwit_prefix, head_bytes. rewrite !zlen_app.
    change (zlen marker_flag) with 2. rewrite !to_le_bytes_zlen, zlen_replicate.
    unfold c, custom_coinbase_parts. cbn [cb_script]. lia. }
  change (mkTransaction _ _ _ _) with (coinbase_tx c empty_extranonce).
  rewrite <- segwit_split by done. rewrite Hi. split_and!; [done|done| |].
  - by apply slice_range_prefix.
  - rewrite app_assoc, slice_from_ok.
    + rewrite zdrop_app; [done|]. by rewrite zlen_app.
    + rewrite !zlen_app. change (zlen empty_extranonce) with 32. unfold MAX_EXTRANONCE_LEN.
      pose proof (zlen_nonneg (segwit_prefix c)). pose proof (zlen_nonneg (segwit_suffix c)). lia.
Qed.

(** ** The jobs *)

(** The halves of an extended job are those of one coinbase, with and without
    BIP 141 data. *)
Definition ext_job_of (c : Coinbase) (j : ExtendedJob) : Prop :=
  coinbase_wf c ∧
  ej_coinbase_tx_prefix_with_bip141 j = segwit_prefix c ∧
  ej_coinbase_tx_suffix_with_bip141 j = segwit_suffix c ∧
  xj_coinbase_tx_prefix (ej_job_message j) = legacy_prefix c ∧
  xj_coinbase_tx_suffix (ej_job_message j) = legacy_suffix c.
Definition ext_job_ok (j : ExtendedJob) : Prop := ∃ c, ext_job_of c j.

Lemma next_job_id_Ok {E} f n f' :
  next_job_id (E := E) chk f = (Ok n, f') →
  f' = mkJobFactory n (jf_version_rolling_allowed f) (pool_tag_string f) (miner_tag_string f) ∧
  add_over (E := E) chk 32 (job_id_state f) 1 = Ok n.
Proof. unfold next_job_id. destruct (add_over _ _ _ _); intros [= <- <-]. done. Qed.
Lemma try_b064k_Ok {E} (e : E) l r : try_b064k e l = Ok r → r = l.
Proof. unfold try_b064k. destruct (_ <=? _); congruence. Qed.
Lemma strip_coinbase_Ok c p s :
  coinbase_wf c → compute_txid (probe (cb_version c)) ≠ compute_wtxid (probe (cb_version c)) →
  strip_coinbase (segwit_prefix c) (segwit_suffix c) = Ok (p, s) →
  p = legacy_prefix c ∧ s = legacy_suffix c.
Proof.
  intros Hw Hne. unfold strip_coinbase. rewrite strip_segwit by done. cbn. by intros [= <- <-].
Qed.

Lemma new_extended_job_spec id tip pre t outs f job f' :
  template_ok t outs → new_extended_job chk id tip pre t outs f = (Ok job, f') →
  ∃ touts, deserialize_template_outputs (nt_coinbase_tx_outputs t) (nt_coinbase_tx_outputs_count t)
             = Ok touts ∧
  ext_job_of (template_coinbase f t (outs ++ touts)) job ∧
  ej_origin job = OriginNewTemplate t ∧ ej_extranonce_prefix job = pre ∧
  ej_coinbase_outputs job = outs ++ touts ∧
  xj_merkle_path (ej_job_message job) = nt_merkle_path t ∧
  xj_version_rolling_allowed (ej_job_message job) = jf_version_rolling_allowed f ∧
  same_tags f f' ∧ op_pushbytes_pool_miner_tag f = Ok (tag_push f).
Proof.
  intros Hok Hj. unfold new_extended_job in Hj. inv_st.
  match goal with Hn : next_job_id _ _ = _ |- _ => apply next_job_id_Ok in Hn as [-> Hn] end.
  set (f1 := mkJobFactory _ _ _ _) in *.
  match goal with Hp : coinbase_tx_prefix _ _ _ = Ok _ |- _ => rename Hp into Hpre end.
  pose proof Hpre as Hcb. unfold coinbase_tx_prefix in Hcb. apply bind_Ok in Hcb as (tx & Hcb & _).
  destruct (coinbase_halves f1 t outs tx Hok Hcb) as (touts & Hd & Hwf & Hne & Htag & Hp & Hs).
  exists touts. split; [done|].
  change (template_coinbase f t (outs ++ touts)) with (template_coinbase f1 t (outs ++ touts)).
  set (c := template_coinbase f1 t (outs ++ touts)) in *.
  rewrite Hp in Hpre. injection Hpre as <-.
  match goal with Hs' : coinbase_tx_suffix _ _ _ = Ok _ |- _ => rewrite Hs in Hs'; injection Hs' as <- end.
  destruct a5 as [p s].
  match goal with Hst : strip_coinbase _ _ = Ok _ |- _ =>
    apply strip_coinbase_Ok in Hst as [-> ->]; [|done|done] end.
  inv_st.
  match goal with Hm : (if nt_future_template t then _ else _) f1 = (Ok _, ?s) |- _ =>
    assert (s = f1) as -> by (destruct (nt_future_template t); inv_st; done); clear Hm end.
  repeat match goal with Hb : try_b064k _ _ = Ok _ |- _ => apply try_b064k_Ok in Hb as -> end.
  match goal with Hf : ExtendedJob_from_template _ _ _ _ _ _ = Ok _ |- _ => rename Hf into Hj end.
  unfold ExtendedJob_from_template in Hj. rewrite Hd in Hj. injection Hj as <-.
  cbn [ej_origin ej_extranonce_prefix ej_coinbase_outputs ej_job_message xj_merkle_path
       xj_version_rolling_allowed]. done.
Qed.

Lemma new_custom_job_spec m pre f job f' :
  custom_ok m → new_extended_job_from_custom_job chk m pre f = (Ok job, f') →
  ext_job_ok job ∧ ej_extranonce_prefix job = pre ∧ same_tags f f' ∧
  xj_version_rolling_allowed (ej_job_message job) = jf_version_rolling_allowed f.
Proof.
  intros Hok Hj. unfold new_extended_job_from_custom_job in Hj. inv_st.
  match goal with Hn : next_job_id _ _ = _ |- _ => apply next_job_id_Ok in Hn as [-> Hn] end.
  match goal with Hp : custom_coinbase_tx_prefix _ = Ok _ |- _ => rename Hp into Hpre end.
  pose proof Hpre as Hcb. unfold custom_coinbase_tx_prefix in Hcb.
  apply bind_Ok in Hcb as (tx & Hcb & _).
  destruct (custom_halves m tx Hok Hcb) as (outs & Hd & Hwf & Hne & Hp & Hs).
  set (c := custom_coinbase_parts m outs) in *. rewrite Hp in Hpre. injection Hpre as <-.
  match goal with Hs' : custom_coinbase_tx_suffix _ = Ok _ |- _ => rewrite Hs in Hs'; injection Hs' as <- end.
  match goal with Hst : strip_coinbase _ _ = Ok ?x |- _ => destruct x as [p s];
    apply strip_coinbase_Ok in Hst as [-> ->]; [|done|done] end.
  inv_st. repeat match goal with Hb : try_b064k _ _ = Ok _ |- _ => apply try_b064k_Ok in Hb as -> end.
  split; [|done]. exists c. done.
Qed.

Lemma new_standard_job_spec id tip pre t outs f job f' :
  zlen pre = 32 → template_ok t outs → new_standard_job chk id tip pre t outs f = (Ok job, f') →
  ∃ touts,
  coinbase_wf (template_coinbase f t (outs ++ touts)) ∧
  sj_template job = t ∧ sj_extranonce_prefix job = pre ∧ sj_coinbase_outputs job = outs ++ touts ∧
  mj_merkle_root (sj_job_message job) =
    merkle_root_from_path_ (compute_txid (coinbase_tx (template_coinbase f t (outs ++ touts)) pre))
      (nt_merkle_path t) ∧
  same_tags f f' ∧ op_pushbytes_pool_miner_tag f = Ok (tag_push f).
Proof.
  intros Hpre Hok Hj. unfold new_standard_job in Hj. inv_st.
  match goal with Hn : next_job_id _ _ = _ |- _ => apply next_job_id_Ok in Hn as [-> Hn] end.
  set (f1 := mkJobFactory _ _ _ _) in *.
  match goal with Hp : coinbase_tx_prefix _ _ _ = Ok _ |- _ => rename Hp into Hpr end.
  pose proof Hpr as Hcb. unfold coinbase_tx_prefix in Hcb. apply bind_Ok in Hcb as (tx & Hcb & _).
  destruct (coinbase_halves f1 t outs tx Hok Hcb) as (touts & Hd & Hwf & Hne & Htag & Hp & Hs).
  exists touts.
  change (template_coinbase f t (outs ++ touts)) with (template_coinbase f1 t (outs ++ touts)).
  set (c := template_coinbase f1 t (outs ++ touts)) in *.
  rewrite Hp in Hpr. injection Hpr as <-.
  match goal with Hs' : coinbase_tx_suffix _ _ _ = Ok _ |- _ => rewrite Hs in Hs'; injection Hs' as <- end.
  match goal with Hm : merkle_root_from_path _ _ _ _ = Some _ |- _ =>
    rewrite merkle_root_segwit in Hm by done; injection Hm as <- end.
  destruct (negb _); inv_st.
  match goal with Hm : (if nt_future_template t then _ else _) f1 = (Ok ?m, ?s) |- _ =>
    assert (s = f1 ∧ mj_merkle_root m
      = merkle_root_from_path_ (compute_txid (coinbase_tx c pre)) (nt_merkle_path t)) as [-> Hr]
      by (destruct (nt_future_template t); inv_st; done); clear Hm end.
  match goal with Hf : StandardJob_from_template _ _ _ _ = Ok _ |- _ => rename Hf into Hj end.
  unfold StandardJob_from_template in Hj. rewrite Hd in Hj. injection Hj as <-. done.
Qed.
End built.

(** ** Flags of a job factory *)

Definition same_flags (f f' : JobFactory) : Prop :=
  jf_version_rolling_allowed f' = jf_version_rolling_allowed f ∧
  pool_tag_string f' = pool_tag_string f ∧ miner_tag_string f' = miner_tag_string f.
Lemma same_flags_refl f : same_flags f f.
Proof. done. Qed.
Lemma same_flags_tag f f' :
  same_flags f f' → op_pushbytes_pool_miner_tag f' = op_pushbytes_pool_miner_tag f.
Proof.
  intros (_ & Hp & Hm). unfold op_pushbytes_pool_miner_tag, pool_miner_tag. by rewrite Hp, Hm.
Qed.

Section factory.
Context `{Bitcoin} (chk : bool).

Lemma keeps_next_job_id {E} f : keeps (E := E) (same_flags f) (next_job_id chk).
Proof.
  intros f' Hf. unfold next_job_id. by destruct (add_over _ _ _ _).
Qed.
#[local] Hint Resolve keeps_next_job_id : keeps.

Lemma keeps_new_standard_job f id tip p t outs :
  keeps (same_flags f) (new_standard_job chk id tip p t outs).
Proof. unfold new_standard_job. keeps_all. Qed.
Lemma keeps_new_extended_job f id tip p t outs :
  keeps (same_flags f) (new_extended_job chk id tip p t outs).
Proof. unfold new_extended_job. keeps_all. Qed.
Lemma keeps_custom_job f m p :
  keeps (same_flags f) (new_extended_job_from_custom_job chk m p).
Proof. unfold new_extended_job_from_custom_job. keeps_all. Qed.

Definition rolls (j : ExtendedJob) : Prop := xj_version_rolling_allowed (ej_job_message j) = true.

Lemma rolls_activate ts j : rolls j → rolls (job_activate ts j).
Proof. intros Hj. exact Hj. Qed.
Lemma next_job_id_flags {E} f r f' : next_job_id (E := E) chk f = (r, f') → same_flags f f'.
Proof.
  intros E'. pose proof (keeps_next_job_id (E := E) f f (same_flags_refl f)) as Hk. by rewrite E' in Hk.
Qed.
Lemma new_extended_job_rolls id tip p t outs f j f' :
  jf_version_rolling_allowed f = true →
  new_extended_job chk id tip p t outs f = (Ok j, f') → rolls j.
Proof.
  intros Hf E. unfold new_extended_job in E. inv_st.
  match goal with H : next_job_id _ _ = _ |- _ => apply next_job_id_flags in H as (Hv & _ & _) end.
  destruct_and?. unfold rolls.
  match goal with x : (bytes * bytes)%type |- _ => destruct x end. inv_st.
  match goal with H : ExtendedJob_from_template _ _ _ _ _ _ = Ok j |- _ =>
    unfold ExtendedJob_from_template in H; apply bind_Ok in H as (? & _ & [= <-]) end.
  cbn. congruence.
Qed.
Lemma custom_job_rolls m p f j f' :
  jf_version_rolling_allowed f = true →
  new_extended_job_from_custom_job chk m p f = (Ok j, f') → rolls j.
Proof.
  intros Hf E. unfold new_extended_job_from_custom_job in E. inv_st.
  match goal with H : next_job_id _ _ = _ |- _ => apply next_job_id_flags in H as (Hv & _ & _) end.
  match goal with x : (bytes * bytes)%type |- _ => destruct x end. inv_st.
  unfold rolls. cbn. congruence.
Qed.
Lemma new_standard_job_tag id tip p t outs f j f' :
  new_standard_job chk id tip p t outs f = (Ok j, f') → ∃ tag, op_pushbytes_pool_miner_tag f = Ok tag.
Proof.
  intros E. unfold new_standard_job in E. inv_st.
  match goal with H : next_job_id _ _ = _ |- _ => apply next_job_id_flags in H as Hv end.
  match goal with H : coinbase_tx_prefix _ _ _ = Ok _ |- _ => unfold coinbase_tx_prefix, coinbase in H end.
  inv_res. destruct (nt_coinbase_tx_value_remaining t <? _); [done|]. inv_res. rewrite <- (same_flags_tag _ _ Hv). eauto.
Qed.
End factory.
#[export] Hint Resolve keeps_new_standard_job keeps_new_extended_job keeps_custom_job : keeps.
