(* ===== verification/Channels.v ===== *)
(** * Server channels

    [channels-sv2/src/server]: [share_accounting.rs], [standard.rs],
    [extended.rs] and [group.rs], with the default job store.  Channel methods
    are computations on the channel's state. *)

From Stdlib Require Import SpecFloat.
From stdpp Require Import gmap.
From S2P Require Import Prelude Mining Difficulty Bitcoin Jobs.

(** ** Share accounting *)

Record ShareAccounting : Type := mkAccounting {
  last_share_sequence_number : Z;
  shares_accepted : Z;
  share_work_sum : Z;
  share_batch_size : Z;
  seen_shares : gset bytes;
  best_diff : f64 }.
Inductive ShareValidationError : Type :=
  | InvalidShare
  | Stale
  | InvalidJobId
  | DoesNotMeetTarget
  | VersionRollingNotAllowed
  | DuplicateShare
  | InvalidCoinbase
  | NoChainTip.
(** An [AcceptedShare] is the hash of the share. *)
Inductive ShareValidationResult : Type :=
  | Valid (accepted_share : bytes)
  | ValidWithAcknowledgement (accepted_share : bytes)
      (last_sequence_number new_submits_accepted_count new_shares_sum : Z)
  | BlockFound (accepted_share : bytes) (template_id : option Z) (coinbase : bytes).
Definition header_hash_bytes (accepted_share : bytes) : bytes := reverse accepted_share.

Module Accounting.
Definition new (share_batch_size : Z) : ShareAccounting :=
  mkAccounting 0 0 0 share_batch_size ∅ (S754_zero false).
Definition update_share_accounting {E} (overflow_checks : bool) (share_work sequence_number : Z)
    (share_hash : bytes) (a : ShareAccounting) : result E ShareAccounting :=
  accepted ← add_over overflow_checks 32 (shares_accepted a) 1;
  work ← add_over overflow_checks 64 (share_work_sum a) share_work;
  Ok (mkAccounting sequence_number accepted work (share_batch_size a)
        ({[share_hash]} ∪ seen_shares a) (best_diff a)).
Definition flush_seen_shares (a : ShareAccounting) : ShareAccounting :=
  mkAccounting (last_share_sequence_number a) (shares_accepted a) (share_work_sum a)
    (share_batch_size a) ∅ (best_diff a).
(** A batch size of zero modulo 2^32 divides by zero. *)
Definition should_acknowledge {E} (a : ShareAccounting) : result E bool :=
  let n := wrap 32 (share_batch_size a) in
  if n =? 0 then Panic else Ok (shares_accepted a mod n =? 0).
Definition is_share_seen (share_hash : bytes) (a : ShareAccounting) : bool :=
  bool_decide (share_hash ∈ seen_shares a).
Definition update_best_diff (diff : f64) (a : ShareAccounting) : ShareAccounting :=
  if SFltb (best_diff a) diff
  then mkAccounting (last_share_sequence_number a) (shares_accepted a) (share_work_sum a)
         (share_batch_size a) (seen_shares a) diff
  else a.
End Accounting.

(** ** Standard channels *)

Inductive ChannelError : Type :=
  | JobFactoryFailed (e : JobFactoryError)
  | InvalidNominalHashrate
  | RequestedMaxTargetOutOfRange
  | ChainTipNotSet
  | TemplateIdNotFound
  | RequestedMinExtranonceSizeTooLarge
  | NewExtranoncePrefixTooLarge
  | ChannelFailedToConvertToStandardJob.

Record StandardChannel : Type := mkStandardChannel {
  sc_channel_id : Z;
  sc_user_identity : bytes;
  sc_extranonce_prefix : bytes;
  sc_requested_max_target : Target;
  sc_target : Target;
  sc_nominal_hashrate : f32;
  sc_share_accounting : ShareAccounting;
  sc_expected_share_per_minute : f32;
  sc_job_store : DefaultJobStore StandardJob;
  sc_job_factory : JobFactory;
  sc_chain_tip : option ChainTip }.

Definition sc_set_job_store (j : DefaultJobStore StandardJob) (c : StandardChannel) :=
  mkStandardChannel (sc_channel_id c) (sc_user_identity c) (sc_extranonce_prefix c)
    (sc_requested_max_target c) (sc_target c) (sc_nominal_hashrate c) (sc_share_accounting c)
    (sc_expected_share_per_minute c) j (sc_job_factory c) (sc_chain_tip c).
Definition sc_set_job_factory (f : JobFactory) (c : StandardChannel) :=
  mkStandardChannel (sc_channel_id c) (sc_user_identity c) (sc_extranonce_prefix c)
    (sc_requested_max_target c) (sc_target c) (sc_nominal_hashrate c) (sc_share_accounting c)
    (sc_expected_share_per_minute c) (sc_job_store c) f (sc_chain_tip c).
Definition sc_set_chain_tip (t : option ChainTip) (c : StandardChannel) :=
  mkStandardChannel (sc_channel_id c) (sc_user_identity c) (sc_extranonce_prefix c)
    (sc_requested_max_target c) (sc_target c) (sc_nominal_hashrate c) (sc_share_accounting c)
    (sc_expected_share_per_minute c) (sc_job_store c) (sc_job_factory c) t.
Definition sc_set_accounting (a : ShareAccounting) (c : StandardChannel) :=
  mkStandardChannel (sc_channel_id c) (sc_user_identity c) (sc_extranonce_prefix c)
    (sc_requested_max_target c) (sc_target c) (sc_nominal_hashrate c) a
    (sc_expected_share_per_minute c) (sc_job_store c) (sc_job_factory c) (sc_chain_tip c).
Definition sc_set_rate (t max : Target) (h : f32) (c : StandardChannel) :=
  mkStandardChannel (sc_channel_id c) (sc_user_identity c) (sc_extranonce_prefix c)
    max t h (sc_share_accounting c)
    (sc_expected_share_per_minute c) (sc_job_store c) (sc_job_factory c) (sc_chain_tip c).
Definition sc_set_prefix (p : bytes) (c : StandardChannel) :=
  mkStandardChannel (sc_channel_id c) (sc_user_identity c) p
    (sc_requested_max_target c) (sc_target c) (sc_nominal_hashrate c) (sc_share_accounting c)
    (sc_expected_share_per_minute c) (sc_job_store c) (sc_job_factory c) (sc_chain_tip c).

Record SubmitSharesStandard : Type := mkSubmitStandard {
  ss_channel_id : Z;
  ss_sequence_number : Z;
  ss_job_id : Z;
  ss_nonce : Z;
  ss_ntime : Z;
  ss_version : Z }.

(** The target for a hash rate, no easier than the client's limit. *)
Definition channel_target (overflow_checks : bool) (nominal_hashrate share_per_minute : f32)
    (max_target : Target) : result ChannelError Target :=
  u ← map_err (λ _, InvalidNominalHashrate)
    (hash_rate_to_target overflow_checks (f64_of_f32 nominal_hashrate) (f64_of_f32 share_per_minute));
  let target := Target_from_bytes u in
  if Target_gt target max_target then Err RequestedMaxTargetOutOfRange else Ok target.

(** The job a share refers to: stale jobs are refused, then the active and the
    past jobs are looked up. *)
Definition find_job {T} `{Job T} (job_id : Z) (s : DefaultJobStore T)
    : result ShareValidationError T :=
  let is_active_job :=
    match active_job s with Some job => get_job_id job =? job_id | None => false end in
  let is_past_job := bool_decide (is_Some (past_jobs s !! job_id)) in
  let is_stale_job := bool_decide (is_Some (stale_jobs s !! job_id)) in
  if is_stale_job then Err Stale
  else if negb is_active_job && negb is_past_job && negb is_stale_job then Err InvalidJobId
  else if is_active_job then unwrap (active_job s)
  else if is_past_job then unwrap (past_jobs s !! job_id)
  else unwrap (stale_jobs s !! job_id).

Definition share_work (target : Target) : Z := as_uint 64 (target_to_difficulty target).

Section channels.
Context `{Bitcoin} (overflow_checks : bool).

(** ** Accounting steps of a validated share, common to both channel types *)

Definition account {E} (target : Target) (sequence_number : Z) (share_hash : bytes)
    : ST ShareAccounting E unit := λ a,
  match Accounting.update_share_accounting (E := E) overflow_checks (share_work target)
          sequence_number share_hash a with
  | Ok a => (Ok tt, a)
  | Err e => (Err e, a)
  | Panic => (Panic, a)
  end.
(** A share that does not solve a block. *)
Definition accept_share (target : Target) (sequence_number : Z) (share_hash : bytes)
    : ST ShareAccounting ShareValidationError ShareValidationResult :=
  let hash_as_target := Target_from_bytes share_hash in
  let hash_as_diff := target_to_difficulty hash_as_target in
  if Target_le hash_as_target target then
    seen ← gets (Accounting.is_share_seen share_hash);
    match seen with
    | true => throw DuplicateShare
    | false =>
      _ ← account target sequence_number share_hash;
      _ ← modify (Accounting.update_best_diff hash_as_diff);
      last_sequence_number ← gets last_share_sequence_number;
      new_submits_accepted_count ← gets shares_accepted;
      new_shares_sum ← gets share_work_sum;
      ack ← gets (Accounting.should_acknowledge (E := ShareValidationError));
      ack ← lift ack;
      mret (match ack with
            | true => ValidWithAcknowledgement share_hash last_sequence_number
                        new_submits_accepted_count new_shares_sum
            | false => Valid share_hash
            end)
    end
  else throw DoesNotMeetTarget.

Definition share_header (version ntime nonce : Z) (merkle_root : bytes) (tip : ChainTip)
    : BlockHeader :=
  mkBlockHeader version (ct_prev_hash tip) merkle_root ntime (ct_nbits tip) nonce.

End channels.

Module Standard.
Section standard.
Context `{Bitcoin} (overflow_checks : bool).
Notation CHAN := (ST StandardChannel ChannelError).

(** The private constructor behind [new_for_pool] (a pool tag, no miner tag) and
    [new_for_job_declaration_client]. *)
Definition new (channel_id : Z) (user_identity extranonce_prefix : bytes)
    (requested_max_target : Target) (nominal_hashrate : f32) (share_batch_size : Z)
    (expected_share_per_minute : f32) (job_store : DefaultJobStore StandardJob)
    (pool_tag_string miner_tag_string : option bytes) : result ChannelError StandardChannel :=
  target ← channel_target overflow_checks nominal_hashrate expected_share_per_minute
    requested_max_target;
  Ok (mkStandardChannel channel_id user_identity extranonce_prefix requested_max_target target
        nominal_hashrate (Accounting.new share_batch_size) expected_share_per_minute job_store
        (JobFactory_new true pool_tag_string miner_tag_string) None).

Definition set_extranonce_prefix (extranonce_prefix : bytes) : CHAN unit :=
  if MAX_EXTRANONCE_LEN <? zlen extranonce_prefix then throw NewExtranoncePrefixTooLarge
  else modify (sc_set_prefix extranonce_prefix).
Definition update_channel (nominal_hashrate : f32) (requested_max_target : option Target)
    : CHAN unit :=
  spm ← gets sc_expected_share_per_minute;
  old_max ← gets sc_requested_max_target;
  let max := default old_max requested_max_target in
  target ← lift (channel_target overflow_checks nominal_hashrate spm max);
  modify (sc_set_rate target max nominal_hashrate).

Definition make_job (chain_tip : option ChainTip) (template : NewTemplate)
    (coinbase_reward_outputs : list TxOut) : CHAN StandardJob :=
  id ← gets sc_channel_id;
  prefix ← gets sc_extranonce_prefix;
  st_map_err JobFactoryFailed
    (zoom sc_job_factory sc_set_job_factory
       (new_standard_job overflow_checks id chain_tip prefix template coinbase_reward_outputs)).
Definition on_new_template (template : NewTemplate) (coinbase_reward_outputs : list TxOut)
    : CHAN unit :=
  if nt_future_template template then
    new_job ← make_job None template coinbase_reward_outputs;
    modify (λ c, sc_set_job_store
      (JobStore.add_future_job (nt_template_id template) new_job (sc_job_store c)) c)
  else
    tip ← gets sc_chain_tip;
    match tip with
    | None => throw ChainTipNotSet
    | Some chain_tip =>
        new_job ← make_job (Some chain_tip) template coinbase_reward_outputs;
        modify (λ c, sc_set_job_store (JobStore.add_active_job new_job (sc_job_store c)) c)
    end.
Definition on_group_channel_job (extended_job : ExtendedJob) : CHAN unit :=
  id ← gets sc_channel_id;
  prefix ← gets sc_extranonce_prefix;
  standard_job ← lift (map_err (λ _, ChannelFailedToConvertToStandardJob)
    (into_standard_job id prefix extended_job));
  modify (λ c, sc_set_job_store
    (if is_future standard_job
     then JobStore.add_future_job (nt_template_id (sj_template standard_job)) standard_job
            (sc_job_store c)
     else JobStore.add_active_job standard_job (sc_job_store c)) c).
Definition on_set_new_prev_hash (m : SetNewPrevHashTdp) : CHAN unit := λ c,
  if bool_decide (future_jobs (sc_job_store c) = ∅) then (Err TemplateIdNotFound, c)
  else
    let '(ok, store) :=
      JobStore.activate_future_job (sp_template_id m) (sp_header_timestamp m) (sc_job_store c) in
    let c := sc_set_job_store store c in
    if ok then (Ok tt, sc_set_chain_tip (Some (ChainTip_from_tdp m)) c)
    else (Err TemplateIdNotFound, c).

(** The coinbase of a block, rebuilt from the job. *)
Definition block_coinbase (job : StandardJob) (tag : bytes) : Transaction :=
  let t := sj_template job in
  let script_sig :=
    nt_coinbase_prefix t ++ tag ++ extranonce_push ++ sj_extranonce_prefix job in
  mkTransaction (nt_coinbase_tx_version t) (nt_coinbase_tx_locktime t)
    [coinbase_input script_sig (nt_coinbase_tx_input_sequence t)] (sj_coinbase_outputs job).

Definition validate_share (share : SubmitSharesStandard)
    : ST StandardChannel ShareValidationError ShareValidationResult :=
  store ← gets sc_job_store;
  job ← lift (find_job (ss_job_id share) store);
  let merkle_root := mj_merkle_root (sj_job_message job) in
  tip ← gets sc_chain_tip;
  chain_tip ← lift (ok_or tip NoChainTip);
  let header :=
    share_header (ss_version share) (ss_ntime share) (ss_nonce share) merkle_root chain_tip in
  let hash := block_hash header in
  target ← gets sc_target;
  if is_met_by (ct_nbits chain_tip) hash then
    _ ← zoom sc_share_accounting sc_set_accounting
          (account overflow_checks target (ss_sequence_number share) hash);
    factory ← gets sc_job_factory;
    tag ← lift (map_err (λ _, InvalidCoinbase) (op_pushbytes_pool_miner_tag factory));
    mret (BlockFound hash (Some (nt_template_id (sj_template job)))
            (tx_serialize (block_coinbase job tag)))
  else
    zoom sc_share_accounting sc_set_accounting
      (accept_share overflow_checks target (ss_sequence_number share) hash).
End standard.
End Standard.

(** ** Extended channels *)

Record ExtendedChannel : Type := mkExtendedChannel {
  ec_channel_id : Z;
  ec_user_identity : bytes;
  ec_extranonce_prefix : bytes;
  ec_rollable_extranonce_size : Z;
  ec_requested_max_target : Target;
  ec_target : Target;
  ec_nominal_hashrate : f32;
  ec_job_store : DefaultJobStore ExtendedJob;
  ec_job_factory : JobFactory;
  ec_share_accounting : ShareAccounting;
  ec_expected_share_per_minute : f32;
  ec_chain_tip : option ChainTip }.

Definition ec_set_jobs (j : DefaultJobStore ExtendedJob) (f : JobFactory) (t : option ChainTip)
    (c : ExtendedChannel) :=
  mkExtendedChannel (ec_channel_id c) (ec_user_identity c) (ec_extranonce_prefix c)
    (ec_rollable_extranonce_size c) (ec_requested_max_target c) (ec_target c)
    (ec_nominal_hashrate c) j f (ec_share_accounting c) (ec_expected_share_per_minute c) t.
Definition ec_set_job_store (j : DefaultJobStore ExtendedJob) (c : ExtendedChannel) :=
  ec_set_jobs j (ec_job_factory c) (ec_chain_tip c) c.
Definition ec_set_job_factory (f : JobFactory) (c : ExtendedChannel) :=
  ec_set_jobs (ec_job_store c) f (ec_chain_tip c) c.
Definition ec_set_chain_tip (t : option ChainTip) (c : ExtendedChannel) :=
  ec_set_jobs (ec_job_store c) (ec_job_factory c) t c.
Definition ec_set_accounting (a : ShareAccounting) (c : ExtendedChannel) :=
  mkExtendedChannel (ec_channel_id c) (ec_user_identity c) (ec_extranonce_prefix c)
    (ec_rollable_extranonce_size c) (ec_requested_max_target c) (ec_target c)
    (ec_nominal_hashrate c) (ec_job_store c) (ec_job_factory c) a
    (ec_expected_share_per_minute c) (ec_chain_tip c).
Definition ec_set_rate (t max : Target) (h : f32) (c : ExtendedChannel) :=
  mkExtendedChannel (ec_channel_id c) (ec_user_identity c) (ec_extranonce_prefix c)
    (ec_rollable_extranonce_size c) max t h (ec_job_store c) (ec_job_factory c)
    (ec_share_accounting c) (ec_expected_share_per_minute c) (ec_chain_tip c).
Definition ec_set_prefix (p : bytes) (n : Z) (c : ExtendedChannel) :=
  mkExtendedChannel (ec_channel_id c) (ec_user_identity c) p n (ec_requested_max_target c)
    (ec_target c) (ec_nominal_hashrate c) (ec_job_store c) (ec_job_factory c)
    (ec_share_accounting c) (ec_expected_share_per_minute c) (ec_chain_tip c).

Record SubmitSharesExtended : Type := mkSubmitExtended {
  se_channel_id : Z;
  se_sequence_number : Z;
  se_job_id : Z;
  se_nonce : Z;
  se_ntime : Z;
  se_version : Z;
  se_extranonce : bytes }.

Module Extended.
Section extended.
Context `{Bitcoin} (overflow_checks : bool).
Notation CHAN := (ST ExtendedChannel ChannelError).

(** The subtraction of lengths panics under overflow checks; without them a
    longer prefix wraps around to a large size, cut to 16 bits. *)
Definition rollable_size {E} (extranonce_prefix : bytes) : result E Z :=
  if overflow_checks then sub_chk MAX_EXTRANONCE_LEN (zlen extranonce_prefix)
  else Ok (wrap 16 (MAX_EXTRANONCE_LEN - zlen extranonce_prefix)).

Definition new (channel_id : Z) (user_identity extranonce_prefix : bytes) (max_target : Target)
    (nominal_hashrate : f32) (version_rolling_allowed : bool)
    (requested_min_rollable_extranonce_size share_batch_size : Z)
    (expected_share_per_minute : f32) (job_store : DefaultJobStore ExtendedJob)
    (pool_tag miner_tag : option bytes) : result ChannelError ExtendedChannel :=
  target ← channel_target overflow_checks nominal_hashrate expected_share_per_minute max_target;
  available ← rollable_size extranonce_prefix;
  if available <? requested_min_rollable_extranonce_size
  then Err RequestedMinExtranonceSizeTooLarge
  else
    Ok (mkExtendedChannel channel_id user_identity extranonce_prefix available max_target target
          nominal_hashrate job_store (JobFactory_new version_rolling_allowed pool_tag miner_tag)
          (Accounting.new share_batch_size) expected_share_per_minute None).

Definition set_extranonce_prefix (extranonce_prefix : bytes) : CHAN unit :=
  size ← lift (if overflow_checks
               then sub_chk MAX_EXTRANONCE_LEN (wrap 16 (zlen extranonce_prefix))
               else Ok (wrap 16 (MAX_EXTRANONCE_LEN - zlen extranonce_prefix)));
  old ← gets ec_rollable_extranonce_size;
  if size <? old then throw NewExtranoncePrefixTooLarge
  else modify (ec_set_prefix extranonce_prefix size).
Definition update_channel (new_nominal_hashrate : f32) (requested_max_target : option Target)
    : CHAN unit :=
  spm ← gets ec_expected_share_per_minute;
  old_max ← gets ec_requested_max_target;
  let max := default old_max requested_max_target in
  target ← lift (channel_target overflow_checks new_nominal_hashrate spm max);
  modify (ec_set_rate target max new_nominal_hashrate).

Definition make_job (chain_tip : option ChainTip) (template : NewTemplate)
    (coinbase_reward_outputs : list TxOut) : CHAN ExtendedJob :=
  id ← gets ec_channel_id;
  prefix ← gets ec_extranonce_prefix;
  st_map_err JobFactoryFailed
    (zoom ec_job_factory ec_set_job_factory
       (new_extended_job overflow_checks id chain_tip prefix template coinbase_reward_outputs)).
Definition on_new_template (template : NewTemplate) (coinbase_reward_outputs : list TxOut)
    : CHAN unit :=
  if nt_future_template template then
    new_job ← make_job None template coinbase_reward_outputs;
    modify (λ c, ec_set_job_store
      (JobStore.add_future_job (nt_template_id template) new_job (ec_job_store c)) c)
  else
    tip ← gets ec_chain_tip;
    match tip with
    | None => throw ChainTipNotSet
    | Some chain_tip =>
        new_job ← make_job (Some chain_tip) template coinbase_reward_outputs;
        modify (λ c, ec_set_job_store (JobStore.add_active_job new_job (ec_job_store c)) c)
    end.

Definition on_set_new_prev_hash (m : SetNewPrevHashTdp) : CHAN unit := λ c,
  let finish c :=
    (Ok tt, ec_set_chain_tip (Some (ChainTip_from_tdp m))
              (ec_set_accounting (Accounting.flush_seen_shares (ec_share_accounting c)) c)) in
  if bool_decide (future_jobs (ec_job_store c) = ∅)
  then finish (ec_set_job_store (JobStore.mark_past_jobs_as_stale (ec_job_store c)) c)
  else
    let '(ok, store) :=
      JobStore.activate_future_job (sp_template_id m) (sp_header_timestamp m) (ec_job_store c) in
    let c := ec_set_job_store store c in
    if ok then finish c else (Err TemplateIdNotFound, c).

Definition on_set_custom_mining_job (m : SetCustomMiningJob) : CHAN Z :=
  prefix ← gets ec_extranonce_prefix;
  new_job ← st_map_err JobFactoryFailed
    (zoom ec_job_factory ec_set_job_factory
       (new_extended_job_from_custom_job overflow_checks m prefix));
  let job_id := get_job_id new_job in
  _ ← modify (λ c, ec_set_job_store (JobStore.add_active_job new_job (ec_job_store c)) c);
  _ ← modify (ec_set_chain_tip
        (Some (mkChainTip (cj_prev_hash m) (cj_nbits m) (cj_min_ntime m))));
  mret job_id.

Definition validate_share (share : SubmitSharesExtended)
    : ST ExtendedChannel ShareValidationError ShareValidationResult :=
  store ← gets ec_job_store;
  job ← lift (find_job (se_job_id share) store);
  let m := ej_job_message job in
  let full_extranonce := ej_extranonce_prefix job ++ se_extranonce share in
  merkle_root ← lift (ok_or (merkle_root_from_path (xj_coinbase_tx_prefix m)
    (xj_coinbase_tx_suffix m) full_extranonce (xj_merkle_path m)) InvalidShare);
  if negb (zlen merkle_root =? 32) then panic
  else
  tip ← gets ec_chain_tip;
  chain_tip ← lift (ok_or tip NoChainTip);
  if negb (xj_version_rolling_allowed m) && negb (Z.land (se_version share) 0x1fffe000 =? 0)
  then throw VersionRollingNotAllowed
  else
  let header :=
    share_header (se_version share) (se_ntime share) (se_nonce share) merkle_root chain_tip in
  let hash := block_hash header in
  target ← gets ec_target;
  if is_met_by (ct_nbits chain_tip) hash then
    _ ← zoom ec_share_accounting ec_set_accounting
          (account overflow_checks target (se_sequence_number share) hash);
    let coinbase := ej_coinbase_tx_prefix_with_bip141 job ++ full_extranonce
                      ++ ej_coinbase_tx_suffix_with_bip141 job in
    mret (BlockFound hash
            (match ej_origin job with
             | OriginNewTemplate template => Some (nt_template_id template)
             | OriginSetCustomMiningJob _ => None
             end) coinbase)
  else
    zoom ec_share_accounting ec_set_accounting
      (accept_share overflow_checks target (se_sequence_number share) hash).
End extended.
End Extended.

(** ** Group channels *)

Record GroupChannel : Type := mkGroupChannel {
  gc_group_channel_id : Z;
  gc_standard_channel_ids : gset Z;
  gc_job_factory : JobFactory;
  gc_job_store : DefaultJobStore ExtendedJob;
  gc_chain_tip : option ChainTip }.

Module Group.
Section group.
Context `{Bitcoin} (overflow_checks : bool).
Notation CHAN := (ST GroupChannel ChannelError).

Definition new (group_channel_id : Z) (job_store : DefaultJobStore ExtendedJob)
    (pool_tag miner_tag : option bytes) : GroupChannel :=
  mkGroupChannel group_channel_id ∅ (JobFactory_new true pool_tag miner_tag) job_store None.
Definition add_standard_channel_id (id : Z) (c : GroupChannel) : GroupChannel :=
  mkGroupChannel (gc_group_channel_id c) ({[id]} ∪ gc_standard_channel_ids c) (gc_job_factory c)
    (gc_job_store c) (gc_chain_tip c).
Definition remove_standard_channel_id (id : Z) (c : GroupChannel) : GroupChannel :=
  mkGroupChannel (gc_group_channel_id c) (gc_standard_channel_ids c ∖ {[id]}) (gc_job_factory c)
    (gc_job_store c) (gc_chain_tip c).
Definition set_jobs (j : DefaultJobStore ExtendedJob) (f : JobFactory) (t : option ChainTip)
    (c : GroupChannel) : GroupChannel :=
  mkGroupChannel (gc_group_channel_id c) (gc_standard_channel_ids c) f j t.
Definition make_job (chain_tip : option ChainTip) (template : NewTemplate)
    (coinbase_reward_outputs : list TxOut) : CHAN ExtendedJob :=
  id ← gets gc_group_channel_id;
  st_map_err JobFactoryFailed
    (zoom gc_job_factory (λ f c, set_jobs (gc_job_store c) f (gc_chain_tip c) c)
       (new_extended_job overflow_checks id chain_tip [] template coinbase_reward_outputs)).
Definition on_new_template (template : NewTemplate) (coinbase_reward_outputs : list TxOut)
    : CHAN unit :=
  if nt_future_template template then
    new_job ← make_job None template coinbase_reward_outputs;
    modify (λ c, set_jobs
      (JobStore.add_future_job (nt_template_id template) new_job (gc_job_store c))
      (gc_job_factory c) (gc_chain_tip c) c)
  else
    tip ← gets gc_chain_tip;
    match tip with
    | None => throw ChainTipNotSet
    | Some chain_tip =>
        new_job ← make_job (Some chain_tip) template coinbase_reward_outputs;
        modify (λ c, set_jobs (JobStore.add_active_job new_job (gc_job_store c))
          (gc_job_factory c) (gc_chain_tip c) c)
    end.
(** An unknown template id is not reported. *)
Definition on_set_new_prev_hash (m : SetNewPrevHashTdp) : CHAN unit := λ c,
  if bool_decide (future_jobs (gc_job_store c) = ∅) then (Err TemplateIdNotFound, c)
  else
    let store :=
      (JobStore.activate_future_job (sp_template_id m) (sp_header_timestamp m)
         (gc_job_store c)).2 in
    (Ok tt, set_jobs store (gc_job_factory c) (Some (ChainTip_from_tdp m)) c).
End group.
End Group.
