(* ===== verification/ChannelProperties.v ===== *)
(** * Job stores and channel steps

    An invariant of every job in a channel's store, kept by each operation of
    the channel, and the outcomes of the accounting steps. *)

From Stdlib Require Import SpecFloat.
From stdpp Require Import gmap.
From S2P Require Import Prelude Mining MiningProperties Difficulty Bitcoin BitcoinModel Jobs JobFacts Channels.

(** ** Jobs of a store *)

Section store.
Context {T : Type} `{Job T} (P : T → Prop).

Definition store_all (s : DefaultJobStore T) : Prop :=
  (∀ j, active_job s = Some j → P j) ∧ (∀ k j, past_jobs s !! k = Some j → P j) ∧
  (∀ k j, future_jobs s !! k = Some j → P j) ∧ (∀ k j, stale_jobs s !! k = Some j → P j).

Lemma store_all_new : store_all JobStore.new.
Proof. split_and!; intros *; rewrite ?lookup_empty; done. Qed.
Lemma store_all_future tid j s : P j → store_all s → store_all (JobStore.add_future_job tid j s).
Proof.
  intros Hj (Ha & Hp & Hf & Hs). split_and!; try done.
  intros k j' Hk. cbn [JobStore.add_future_job future_jobs] in Hk.
  apply lookup_insert_Some in Hk as [[_ <-]|[_ Hk]]; eauto.
Qed.
Lemma store_all_retire s : store_all s → store_all (JobStore.retire_active s).
Proof.
  intros (Ha & Hp & Hf & Hs). unfold JobStore.retire_active.
  destruct (active_job s) as [a|] eqn:E; [|by split_and!; rewrite ?E].
  split_and!; try done. intros k j Hk. cbn [past_jobs] in Hk.
  apply lookup_insert_Some in Hk as [[_ <-]|[_ Hk]]; eauto.
Qed.
Lemma store_all_active j s : P j → store_all s → store_all (JobStore.add_active_job j s).
Proof.
  intros Hj Hall. destruct (store_all_retire s Hall) as (_ & Hp & Hf & Hs).
  split_and!; try done. by intros j' [= <-].
Qed.
Lemma store_all_stale s : store_all s → store_all (JobStore.mark_past_jobs_as_stale s).
Proof.
  intros (Ha & Hp & Hf & Hs). by split_and!.
Qed.
Lemma store_all_activate tid ts s :
  (∀ j, P j → P (job_activate ts j)) → store_all s →
  store_all (JobStore.activate_future_job tid ts s).2.
Proof.
  intros Hact Hall. unfold JobStore.activate_future_job.
  destruct (future_template_to_job_id s !! tid) as [id|]; [|done]. cbn [future_jobs].
  destruct (future_jobs s !! id) as [j|] eqn:Ej; [|done]. cbn [snd].
  apply store_all_stale.
  set (s1 := mkJobStore _ (delete id _) _ _ _).
  assert (Hall1 : store_all s1).
  { destruct Hall as (Ha & Hp & Hf & Hs). split_and!; try done.
    intros k j' Hk. cbn [future_jobs s1] in Hk. apply lookup_delete_Some in Hk as [_ Hk]. eauto. }
  destruct (store_all_retire s1 Hall1) as (_ & Hp & _ & Hs).
  split_and!; try done.
  intros j' [= <-]. apply Hact. by apply Hall in Ej.
Qed.

(** [find_job] gives an active or past job and never panics. *)
Lemma find_job_Ok id s j :
  find_job id s = Ok j →
  (active_job s = Some j ∧ get_job_id j = id ∨ past_jobs s !! id = Some j) ∧ stale_jobs s !! id = None.
Proof.
  unfold find_job. case_bool_decide as Hst; [done|].
  assert (stale_jobs s !! id = None) as -> by (by apply eq_None_not_Some).
  destruct (active_job s) as [a|]; [destruct (Z.eqb_spec (get_job_id a) id)|];
    case_bool_decide as Hpa; cbn [negb andb]; try done; intros Hj; split; try done;
    apply unwrap_Ok in Hj; try (by left; simplify_eq); by right.
Qed.
Lemma find_job_no_panic id s : find_job id s ≠ Panic.
Proof.
  unfold find_job. case_bool_decide as Hst; [done|].
  destruct (active_job s) as [a|]; [destruct (Z.eqb_spec (get_job_id a) id)|];
    case_bool_decide as Hpa; cbn [negb andb]; try done; by destruct Hpa as [? ->].
Qed.
Lemma store_all_find id s j : store_all s → find_job id s = Ok j → P j.
Proof. intros (Ha & Hp & _) [[[Hj _]|Hj] _]%find_job_Ok; eauto. Qed.
End store.

(** ** Accounting *)

Section accounting.
Context (chk : bool).

(** What accounting for a share changes. *)
Definition accounted (target : Target) (seq : Z) (hash : bytes) (a a' : ShareAccounting) : Prop :=
  add_over (E := unit) chk 32 (shares_accepted a) 1 = Ok (shares_accepted a') ∧
  add_over (E := unit) chk 64 (share_work_sum a) (share_work target) = Ok (share_work_sum a') ∧
  last_share_sequence_number a' = seq ∧ seen_shares a' = {[hash]} ∪ seen_shares a ∧
  share_batch_size a' = share_batch_size a.

Lemma add_over_cases {E} w x y :
  add_over (E := E) chk w x y = Panic ∨
  ∃ n, add_over (E := E) chk w x y = Ok n ∧ add_over (E := unit) chk w x y = Ok n.
Proof.
  unfold add_over, add_chk. destruct chk; [destruct (_ <? _)|]; eauto.
Qed.
Lemma account_cases {E} target seq hash a :
  account (E := E) chk target seq hash a = (Panic, a) ∨
  ∃ a', account (E := E) chk target seq hash a = (Ok tt, a') ∧ accounted target seq hash a a'.
Proof.
  unfold account, Accounting.update_share_accounting.
  destruct (add_over_cases (E := E) 32 (shares_accepted a) 1) as [->|(n & -> & Hn)]; [by left|].
  cbn [mbind result_bind].
  destruct (add_over_cases (E := E) 64 (share_work_sum a) (share_work target)) as [->|(w & -> & Hw)];
    [by left|].
  right. eexists. split; [done|]. done.
Qed.
Lemma accounted_best_diff target seq hash a a' d :
  accounted target seq hash a a' → accounted target seq hash a (Accounting.update_best_diff d a').
Proof. unfold Accounting.update_best_diff. by destruct (SFltb _ _). Qed.

Lemma accept_share_cases target seq hash a r a' :
  accept_share chk target seq hash a = (r, a') →
  match r with
  | Err DoesNotMeetTarget => a' = a ∧ Target_le (Target_from_bytes hash) target = false
  | Err DuplicateShare =>
      a' = a ∧ Target_le (Target_from_bytes hash) target = true ∧ hash ∈ seen_shares a
  | Err _ => False
  | Ok v =>
      Target_le (Target_from_bytes hash) target = true ∧ hash ∉ seen_shares a ∧
      accounted target seq hash a a' ∧
      v = (if shares_accepted a' mod wrap 32 (share_batch_size a) =? 0
           then ValidWithAcknowledgement hash seq (shares_accepted a') (share_work_sum a')
           else Valid hash)
  | Panic => True
  end.
Proof.
  unfold accept_share. destruct (Target_le _ target) eqn:Ht; [|by intros [= <- <-]].
  rewrite st_gets_bind. unfold Accounting.is_share_seen. case_bool_decide as Hs; [by intros [= <- <-]|].
  destruct (account_cases (E := ShareValidationError) target seq hash a) as [E|(a1 & E & Ha)].
  { unfold mbind, ST_bind. rewrite E. by intros [= <- <-]. }
  rewrite (st_bind_ok _ _ _ _ _ E), st_modify_bind, !st_gets_bind.
  apply (accounted_best_diff _ _ _ _ _ (target_to_difficulty (Target_from_bytes hash))) in Ha.
  set (a2 := Accounting.update_best_diff _ a1) in *.
  unfold Accounting.should_acknowledge. pose proof Ha as (_ & _ & Hl & _ & Hb). rewrite Hb.
  destruct (wrap 32 (share_batch_size a) =? 0); [by intros [= <- <-]|].
  rewrite st_lift_bind. intros [= <- <-]. split_and!; try done.
  rewrite Hl. by destruct (_ =? 0).
Qed.
End accounting.

(** * Properties of the server channels *)
(** A state property kept by the two parts of a sequence, the second for the
    values the first can return. *)
Lemma st_bind_state {S E A B} (I : S → Prop) (Q : A → Prop) (m : ST S E A) (f : A → ST S E B) s :
  I (m s).2 → (∀ a, (m s).1 = Ok a → Q a) → (∀ a s', Q a → I s' → I (f a s').2) →
  I ((m ≫= f) s).2.
Proof.
  unfold mbind, ST_bind. destruct (m s) as [[a|e|] s']; cbn; auto.
Qed.

(** ** Extended channels *)

Section extended.
Context `{BitcoinLaws} (chk : bool).

Definition ext_inv (c : ExtendedChannel) : Prop := store_all ext_job_ok (ec_job_store c).

(** The operations of a channel, on inputs of the factory's kind. *)
Inductive ext_step : ExtendedChannel → ExtendedChannel → Prop :=
  | XTemplate t outs c :
      template_ok t outs → ext_step c (Extended.on_new_template chk t outs c).2
  | XPrevHash m c : ext_step c (Extended.on_set_new_prev_hash m c).2
  | XCustom m c : custom_ok m → ext_step c (Extended.on_set_custom_mining_job chk m c).2
  | XShare s c : ext_step c (Extended.validate_share chk s c).2
  | XUpdate h mt c : ext_step c (Extended.update_channel chk h mt c).2
  | XPrefix p c : ext_step c (Extended.set_extranonce_prefix chk p c).2.

Lemma ext_activate ts j : ext_job_ok j → ext_job_ok (job_activate ts j).
Proof. intros [c Hc]. by exists c. Qed.

Lemma ext_make_job tip t outs c :
  template_ok t outs →
  ec_job_store (Extended.make_job chk tip t outs c).2 = ec_job_store c ∧
  (∀ j, (Extended.make_job chk tip t outs c).1 = Ok j → ext_job_ok j).
Proof.
  intros Hok. unfold Extended.make_job. rewrite !st_gets_bind. unfold st_map_err, zoom.
  destruct (new_extended_job _ _ _ _ _ _ _) as [r f] eqn:E. cbn [fst snd].
  split; [by destruct r|]. intros j Hj. apply map_err_Ok in Hj as ->.
  destruct (new_extended_job_spec chk _ _ _ _ _ _ _ _ Hok E) as (touts & _ & Hj & _). by eexists.
Qed.

Lemma ext_new_template_inv t outs c :
  template_ok t outs → ext_inv c → ext_inv (Extended.on_new_template chk t outs c).2.
Proof.
  intros Hok Hi. unfold Extended.on_new_template. destruct (nt_future_template t).
  - destruct (ext_make_job None t outs c Hok) as [Hs Hj].
    apply (st_bind_state _ ext_job_ok); [unfold ext_inv; by rewrite Hs|done|].
    intros j c' Hj' Hc'. by apply store_all_future.
  - rewrite st_gets_bind. destruct (ec_chain_tip c) as [tip|]; [|done].
    destruct (ext_make_job (Some tip) t outs c Hok) as [Hs Hj].
    apply (st_bind_state _ ext_job_ok); [unfold ext_inv; by rewrite Hs|done|].
    intros j c' Hj' Hc'. by apply store_all_active.
Qed.
Lemma ext_prev_hash_inv m c : ext_inv c → ext_inv (Extended.on_set_new_prev_hash m c).2.
Proof.
  intros Hi. unfold Extended.on_set_new_prev_hash. case_bool_decide.
  - by apply (store_all_stale ext_job_ok).
  - pose proof (store_all_activate ext_job_ok (sp_template_id m) (sp_header_timestamp m)
      (ec_job_store c) (ext_activate _) Hi) as Ha.
    destruct (JobStore.activate_future_job _ _ _) as [[] store]; exact Ha.
Qed.
Lemma ext_custom_inv m c :
  custom_ok m → ext_inv c → ext_inv (Extended.on_set_custom_mining_job chk m c).2.
Proof.
  intros Hok Hi. unfold Extended.on_set_custom_mining_job. rewrite st_gets_bind.
  apply (st_bind_state _ ext_job_ok).
  - unfold st_map_err, zoom. by destruct (new_extended_job_from_custom_job _ _ _ _) as [[] f].
  - intros j. unfold st_map_err, zoom.
    destruct (new_extended_job_from_custom_job _ _ _ _) as [r f] eqn:E. cbn [fst].
    intros ->%map_err_Ok. by apply (new_custom_job_spec chk) in E as [? _].
  - intros j c' Hj Hc'. rewrite !st_modify_bind. by apply (store_all_active ext_job_ok).
Qed.

(** [validate_share], with its early returns as cases. *)
Lemma ext_validate_eq s c :
  Extended.validate_share chk s c =
  match find_job (se_job_id s) (ec_job_store c) with
  | Err e => (Err e, c)
  | Panic => (Panic, c)
  | Ok job =>
      let m := ej_job_message job in
      let en := ej_extranonce_prefix job ++ se_extranonce s in
      match merkle_root_from_path (xj_coinbase_tx_prefix m) (xj_coinbase_tx_suffix m) en
              (xj_merkle_path m), ec_chain_tip c with
      | None, _ => (Err InvalidShare, c)
      | Some root, tip =>
          if negb (zlen root =? 32) then (Panic, c) else
          match tip with
          | None => (Err NoChainTip, c)
          | Some tip =>
              if negb (xj_version_rolling_allowed m) && negb (Z.land (se_version s) 0x1fffe000 =? 0)
              then (Err VersionRollingNotAllowed, c)
              else
                let hash := block_hash (share_header (se_version s) (se_ntime s) (se_nonce s) root tip) in
                if is_met_by (ct_nbits tip) hash then
                  let '(r, a) := account chk (ec_target c) (se_sequence_number s) hash
                                   (ec_share_accounting c) in
                  (match r with
                   | Ok _ => Ok (BlockFound hash
                       (match ej_origin job with
                        | OriginNewTemplate template => Some (nt_template_id template)
                        | OriginSetCustomMiningJob _ => None
                        end)
                       (ej_coinbase_tx_prefix_with_bip141 job ++ en
                          ++ ej_coinbase_tx_suffix_with_bip141 job))
                   | Err e => Err e
                   | Panic => Panic
                   end, ec_set_accounting a c)
                else
                  let '(r, a) := accept_share chk (ec_target c) (se_sequence_number s) hash
                                   (ec_share_accounting c) in
                  (r, ec_set_accounting a c)
          end
      end
  end.
Proof.
  unfold Extended.validate_share. rewrite st_gets_bind.
  destruct (find_job _ _) as [job|e|]; [|done|done]. rewrite st_lift_bind. cbn zeta.
  destruct (merkle_root_from_path _ _ _ _) as [root|]; [|done]. cbn [ok_or]. rewrite st_lift_bind.
  destruct (negb (zlen root =? 32)); [done|]. rewrite st_gets_bind.
  destruct (ec_chain_tip c) as [tip|]; [|done]. cbn [ok_or]. rewrite st_lift_bind.
  destruct (_ && _); [done|]. rewrite st_gets_bind. destruct (is_met_by _ _).
  - unfold mbind, ST_bind, zoom. destruct (account _ _ _ _ _) as [[] a]; done.
  - done.
Qed.
Lemma ext_share_store s c :
  ec_job_store (Extended.validate_share chk s c).2 = ec_job_store c.
Proof.
  rewrite ext_validate_eq. destruct (find_job _ _) as [job|e|]; [|done|done]. cbn zeta.
  destruct (merkle_root_from_path _ _ _ _) as [root|]; [|done].
  destruct (negb (zlen root =? 32)); [done|]. destruct (ec_chain_tip c) as [tip|]; [|done].
  destruct (_ && _); [done|]. destruct (is_met_by _ _).
  - by destruct (account _ _ _ _ _).
  - by destruct (accept_share _ _ _ _ _).
Qed.

Lemma ext_step_inv c c' : ext_inv c → ext_step c c' → ext_inv c'.
Proof.
  intros Hi. destruct 1.
  - by apply ext_new_template_inv.
  - by apply ext_prev_hash_inv.
  - by apply ext_custom_inv.
  - unfold ext_inv. by rewrite ext_share_store.
  - unfold Extended.update_channel. rewrite !st_gets_bind. unfold mbind, ST_bind, lift.
    by destruct (channel_target _ _ _ _).
  - unfold Extended.set_extranonce_prefix. unfold mbind at 1, ST_bind at 1, lift.
    destruct (if chk then _ else _); [|done|done]. rewrite st_gets_bind. by destruct (_ <? _).
Qed.

(** C20 A block found on an extended channel can be submitted: in every state the
    channel's operations lead to, when a share is reported as a block, whatever the
    length of its extranonce, the coinbase handed on decodes to a transaction whose
    id, hashed along the job's merkle path, is the root in the header whose hash
    meets the network target.  The miner's work is for exactly the block the pool
    submits. *)
Theorem extended_block_submittable (id batch min_size : Z) (user prefix : bytes) (max : Target)
    (hashrate spm : f32) (rolling : bool) (pool_tag miner_tag : option bytes)
    (c0 c c' : ExtendedChannel) (s : SubmitSharesExtended) (h coinbase : bytes) (tid : option Z) :
  Extended.new chk id user prefix max hashrate rolling min_size batch spm JobStore.new
    pool_tag miner_tag = Ok c0 →
  rtc ext_step c0 c →
  Extended.validate_share chk s c = (Ok (BlockFound h tid coinbase), c') →
  ∃ tx job tip, find_job (se_job_id s) (ec_job_store c) = Ok job ∧
    ec_chain_tip c = Some tip ∧ tx_deserialize coinbase = Some tx ∧
    let root := merkle_root_from_path_ (compute_txid tx) (xj_merkle_path (ej_job_message job)) in
    let header := share_header (se_version s) (se_ntime s) (se_nonce s) root tip in
    h = block_hash header ∧ is_met_by (ct_nbits tip) h = true.
Proof.
  intros Hnew Hr Hv.
  assert (Hi : ext_inv c).
  { unfold Extended.new in Hnew. apply bind_Ok in Hnew as (tg & _ & Hnew).
    apply bind_Ok in Hnew as (av & _ & Hnew). destruct (_ <? _); [done|]. injection Hnew as <-.
    assert (H0i := store_all_new ext_job_ok). revert H0i.
    match type of Hr with rtc _ ?x _ => change (store_all ext_job_ok JobStore.new) with (ext_inv x) end.
    clear Hv. induction Hr as [|? ? ? Hst _ IH]; [done|]. intros Hx. eapply IH, ext_step_inv; done. }
  rewrite ext_validate_eq in Hv. destruct (find_job _ _) as [job|e|] eqn:Ej; [|done|done]. cbn zeta in Hv.
  destruct (store_all_find ext_job_ok _ _ _ Hi Ej) as (cb & Hwf & Ep & Es & Lp & Ls).
  rewrite Lp, Ls, Ep, Es in Hv. set (en := ej_extranonce_prefix job ++ se_extranonce s) in *.
  unfold merkle_root_from_path in Hv.
  destruct (tx_deserialize (legacy_prefix cb ++ en ++ legacy_suffix cb)) as [tx|] eqn:Ed; [|done]. cbn [mbind option_bind] in Hv.
  destruct (legacy_to_segwit cb en tx Ed) as (tx' & Ed' & Hid). rewrite <- Hid in Hv.
  destruct (negb _); [done|]. destruct (ec_chain_tip c) as [tip|]; [|done]. destruct (_ && _); [done|].
  destruct (is_met_by _ _) eqn:Em.
  - destruct (account _ _ _ _ _) as [[u|e|] a]; [|done|done].
    injection Hv as <- <- <- <-. by exists tx', job, tip.
  - destruct (accept_share _ _ _ _ _) as [r a] eqn:Ea. injection Hv as -> <-.
    apply accept_share_cases in Ea as (_ & _ & _ & Ea). by destruct (_ =? 0).
Qed.
End extended.

(** ** An example channel on the reference model *)

Definition sample_template (future : bool) : NewTemplate :=
  mkNewTemplate 7 future 0x20000000 2 (to_le_bytes 4 0x01020303) 0xFFFFFFFF 50 1
    (enc_txout (mkTxOut 0 (to_le_bytes 38 9))) 0 [to_le_bytes 32 11].
Definition sample_outputs : list TxOut := [mkTxOut 50 (to_le_bytes 22 9)].
Definition sample_prev : SetNewPrevHashTdp :=
  mkSetNewPrevHash 7 (to_le_bytes 32 3) 1700000000 5 (to_le_bytes 32 1).
Definition sample_rate : f32 := S754_finite false 15258789 16.     (** about 10^12 *)
Definition sample_spm : f32 := S754_finite false 10485760 (-20).   (** 10 *)
Definition sample_max : Target := Target_from_bytes (to_le_bytes 32 (2 ^ 255)).
Definition sample_tag : option bytes := Some (String.list_byte_of_string "pool").
Definition from_ok {E A} (d : A) (r : result E A) : A := match r with Ok a => a | _ => d end.
Definition no_ext_channel : ExtendedChannel :=
  mkExtendedChannel 0 [] [] 0 sample_max sample_max sample_rate JobStore.new
    (JobFactory_new true None None) (Accounting.new 1) sample_spm None.
Definition sample_ext0 : ExtendedChannel :=
  from_ok no_ext_channel (Extended.new true 1 [] (to_le_bytes 8 1) sample_max sample_rate true 8 10
    sample_spm JobStore.new sample_tag None).
Definition sample_ext1 : ExtendedChannel :=
  (Extended.on_new_template (H := model_bitcoin) true (sample_template true) sample_outputs sample_ext0).2.
Definition sample_ext : ExtendedChannel := (Extended.on_set_new_prev_hash sample_prev sample_ext1).2.
Definition sample_ext_share (nonce : Z) : SubmitSharesExtended :=
  mkSubmitExtended 1 4 1 nonce 1700000001 0x20000000 (to_le_bytes 24 77).

#[local] Existing Instance model_bitcoin.
#[local] Existing Instance model_bitcoin_laws.
Lemma sample_template_ok future : template_ok (sample_template future) sample_outputs.
Proof.
  split; [done|]. intros touts.
  assert (deserialize_template_outputs (nt_coinbase_tx_outputs (sample_template future))
    (nt_coinbase_tx_outputs_count (sample_template future))
    = Ok [mkTxOut 0 (to_le_bytes 38 9)]) as -> by (vm_compute; reflexivity).
  intros [= <-]. unfold parts_ok. split_and!; try done.
  repeat constructor; done.
Qed.
Lemma sample_ext_reached : rtc (ext_step true) sample_ext0 sample_ext.
Proof.
  apply (rtc_l _ _ sample_ext1 _).
  - exact (XTemplate true (sample_template true) sample_outputs sample_ext0 (sample_template_ok true)).
  - apply rtc_once. exact (XPrevHash true sample_prev sample_ext1).
Qed.
Lemma extended_block_submittable_witness :
  ∃ h coinbase c' tx job tip,
    Extended.validate_share true (sample_ext_share 2) sample_ext = (Ok (BlockFound h (Some 7) coinbase), c') ∧
    find_job 1 (ec_job_store sample_ext) = Ok job ∧
    ec_chain_tip sample_ext = Some tip ∧ tx_deserialize coinbase = Some tx ∧
    let root := merkle_root_from_path_ (compute_txid tx) (xj_merkle_path (ej_job_message job)) in
    let header := share_header 0x20000000 1700000001 2 root tip in
    h = block_hash header ∧ is_met_by (ct_nbits tip) h = true.
Proof.
  destruct (Extended.validate_share true (sample_ext_share 2) sample_ext) as [r c'] eqn:Ev.
  assert (∃ h coinbase, r = Ok (BlockFound h (Some 7) coinbase)) as (h & coinbase & ->).
  { apply (f_equal fst) in Ev. change (fst (r, c')) with r in Ev. rewrite <- Ev.
    vm_compute. eauto. }
  exists h, coinbase, c'.
  destruct (extended_block_submittable true 1 10 8 [] (to_le_bytes 8 1) sample_max sample_rate
    sample_spm true sample_tag None sample_ext0 sample_ext c' (sample_ext_share 2) h coinbase (Some 7))
    as (tx & job & tip & Hf & Ht & Hd & Hr).
  - vm_compute. reflexivity.
  - exact sample_ext_reached.
  - exact Ev.
  - exists tx, job, tip. exact (conj eq_refl (conj Hf (conj Ht (conj Hd Hr)))).
Defined.
(** The length of the extranonce is not checked.  One that is eight bytes too long
    moves the end of the script, and the block the pool is told of no longer pays
    the pool's outputs. *)
Definition long_share : SubmitSharesExtended :=
  mkSubmitExtended 1 4 1 2 1700000001 0x20000000
    (to_le_bytes 24 77 ++ to_le_bytes 4 0xFFFFFFFF ++ to_le_bytes 1 4 ++ to_le_bytes 3 9).
Definition block_outputs (s : SubmitSharesExtended) : list TxOut :=
  match (Extended.validate_share true s sample_ext).1 with
  | Ok (BlockFound _ _ coinbase) => match tx_deserialize coinbase with Some tx => tx_output tx | None => [] end
  | _ => []
  end.
Lemma long_extranonce_changes_outputs :
  txo_value <$> block_outputs (sample_ext_share 2) = [50; 0] ∧
  txo_value <$> block_outputs long_share = [216172782097006601; 0; 0; 0].
Proof. vm_compute. done. Qed.
