(* ===== verification/StandardProperties.v ===== *)
(** * Properties of standard channels *)

From Stdlib Require Import SpecFloat.
From stdpp Require Import gmap.
From S2P Require Import Prelude Mining MiningProperties Difficulty Bitcoin BitcoinModel Jobs JobFacts Channels ChannelProperties.

Section standard.
Context `{BitcoinLaws} (chk : bool).

(** [validate_share], with its early returns as cases. *)
Lemma std_validate_eq s c :
  Standard.validate_share chk s c =
  match find_job (ss_job_id s) (sc_job_store c) with
  | Err e => (Err e, c)
  | Panic => (Panic, c)
  | Ok job =>
      match sc_chain_tip c with
      | None => (Err NoChainTip, c)
      | Some tip =>
          let hash := block_hash (share_header (ss_version s) (ss_ntime s) (ss_nonce s)
                                    (mj_merkle_root (sj_job_message job)) tip) in
          if is_met_by (ct_nbits tip) hash then
            let '(r, a) := account chk (sc_target c) (ss_sequence_number s) hash
                             (sc_share_accounting c) in
            (match r, op_pushbytes_pool_miner_tag (sc_job_factory c) with
             | Ok _, Ok tag => Ok (BlockFound hash (Some (nt_template_id (sj_template job)))
                                     (tx_serialize (Standard.block_coinbase job tag)))
             | Ok _, Err _ => Err InvalidCoinbase
             | Ok _, Panic => Panic
             | Err e, _ => Err e
             | Panic, _ => Panic
             end, sc_set_accounting a c)
          else
            let '(r, a) := accept_share chk (sc_target c) (ss_sequence_number s) hash
                             (sc_share_accounting c) in
            (r, sc_set_accounting a c)
      end
  end.
Proof.
  unfold Standard.validate_share. rewrite st_gets_bind.
  destruct (find_job _ _) as [job|e|]; [|done|done]. rewrite st_lift_bind. cbn zeta.
  rewrite st_gets_bind. destruct (sc_chain_tip c) as [tip|]; [|done]. cbn [ok_or].
  rewrite st_lift_bind, st_gets_bind. destruct (is_met_by _ _); [|done].
  unfold mbind, ST_bind, zoom. destruct (account _ _ _ _ _) as [[] a]; [|done|done].
  cbn. by destruct (op_pushbytes_pool_miner_tag _).
Qed.

(** A job that commits to the coinbase a block will be submitted with. *)
Definition std_job_ok (tag : bytes) (j : StandardJob) : Prop :=
  ∃ cb, coinbase_wf cb ∧ zlen (sj_extranonce_prefix j) = 32 ∧
    Standard.block_coinbase j tag = coinbase_tx cb (sj_extranonce_prefix j) ∧
    mj_merkle_root (sj_job_message j) =
      merkle_root_from_path_ (compute_txid (coinbase_tx cb (sj_extranonce_prefix j)))
        (nt_merkle_path (sj_template j)).
Definition std_inv (c : StandardChannel) : Prop :=
  zlen (sc_extranonce_prefix c) = 32 ∧
  store_all (std_job_ok (tag_push (sc_job_factory c))) (sc_job_store c).

(** The operations of a channel that is given standard jobs. *)
Inductive std_step : StandardChannel → StandardChannel → Prop :=
  | STemplate t outs c :
      template_ok t outs → std_step c (Standard.on_new_template chk t outs c).2
  | SPrevHash m c : std_step c (Standard.on_set_new_prev_hash m c).2
  | SShare s c : std_step c (Standard.validate_share chk s c).2
  | SUpdate h mt c : std_step c (Standard.update_channel chk h mt c).2
  | SPrefix p c : zlen p = 32 → std_step c (Standard.set_extranonce_prefix p c).2.

Lemma block_coinbase_template j f t outs en job_message :
  sj_template j = t → sj_extranonce_prefix j = en → sj_coinbase_outputs j = outs →
  sj_job_message j = job_message →
  Standard.block_coinbase j (tag_push f) = coinbase_tx (template_coinbase f t outs) en.
Proof.
  intros <- <- <- _. unfold Standard.block_coinbase, coinbase_tx, template_coinbase.
  cbn [cb_version cb_script cb_sequence cb_outputs cb_lock_time]. by rewrite <- !app_assoc.
Qed.
Lemma std_make_job tip t outs c r c' :
  template_ok t outs → std_inv c → Standard.make_job chk tip t outs c = (r, c') →
  std_inv c' ∧ sc_job_store c' = sc_job_store c ∧
  ∀ j, r = Ok j → std_job_ok (tag_push (sc_job_factory c')) j.
Proof.
  intros Hok [Hp Hs]. unfold Standard.make_job. rewrite !st_gets_bind. unfold st_map_err, zoom.
  destruct (new_standard_job _ _ _ _ _ _ _) as [r' f] eqn:E. intros [= <- <-].
  match type of E with new_standard_job _ ?i _ ?p _ _ ?f0 = _ =>
    pose proof (keeps_new_standard_job chk f0 i tip p t outs f0 (same_flags_refl f0)) as (_ & Hk);
    rewrite E in Hk end.
  assert (Hf : tag_push (sc_job_factory c) = tag_push f).
  { apply same_tags_push. by split; symmetry; apply Hk. }
  assert (Hi : std_inv (sc_set_job_factory f c)) by (split; [done|]; cbn; by rewrite <- Hf).
  split; [done|]. split; [done|]. intros j ->%map_err_Ok.
  destruct (new_standard_job_spec chk _ _ _ _ _ _ _ _ Hp Hok E)
    as (touts & Hwf & Ht & He & Ho & Hm & _).
  exists (template_coinbase (sc_job_factory c) t (outs ++ touts)).
  rewrite He. split_and!; [done|done| |by rewrite Ht].
  cbn. rewrite <- Hf. by eapply block_coinbase_template.
Qed.

Lemma std_activate tag ts j : std_job_ok tag j → std_job_ok tag (job_activate ts j).
Proof. intros [c Hc]. by exists c. Qed.
Lemma std_share_frame s c :
  sc_job_store (Standard.validate_share chk s c).2 = sc_job_store c ∧
  sc_job_factory (Standard.validate_share chk s c).2 = sc_job_factory c ∧
  sc_extranonce_prefix (Standard.validate_share chk s c).2 = sc_extranonce_prefix c.
Proof.
  rewrite std_validate_eq. destruct (find_job _ _) as [job|e|]; [|done|done].
  destruct (sc_chain_tip c) as [tip|]; [|done]. cbn zeta. destruct (is_met_by _ _).
  - by destruct (account _ _ _ _ _).
  - by destruct (accept_share _ _ _ _ _).
Qed.
Lemma std_template_inv t outs c :
  template_ok t outs → std_inv c → std_inv (Standard.on_new_template chk t outs c).2.
Proof.
  intros Hok Hi. unfold Standard.on_new_template. destruct (nt_future_template t).
  - unfold mbind, ST_bind. destruct (Standard.make_job chk None t outs c) as [r c'] eqn:E.
    destruct (std_make_job _ _ _ _ _ _ Hok Hi E) as ([Hp Hs] & _ & Hj).
    destruct r as [j|e|]; [|done|done]. split; [done|]. by apply store_all_future; [apply Hj|].
  - rewrite st_gets_bind. destruct (sc_chain_tip c) as [tip|]; [|done].
    unfold mbind, ST_bind. destruct (Standard.make_job chk (Some tip) t outs c) as [r c'] eqn:E.
    destruct (std_make_job _ _ _ _ _ _ Hok Hi E) as ([Hp Hs] & _ & Hj).
    destruct r as [j|e|]; [|done|done]. split; [done|]. by apply store_all_active; [apply Hj|].
Qed.
Lemma std_prev_hash_inv m c : std_inv c → std_inv (Standard.on_set_new_prev_hash m c).2.
Proof.
  intros [Hp Hs]. unfold Standard.on_set_new_prev_hash. case_bool_decide; [done|].
  pose proof (store_all_activate _ (sp_template_id m) (sp_header_timestamp m) (sc_job_store c)
    (std_activate _ _) Hs) as Ha.
  destruct (JobStore.activate_future_job _ _ _) as [[] store]; exact (conj Hp Ha).
Qed.
Lemma std_step_inv c c' : std_inv c → std_step c c' → std_inv c'.
Proof.
  intros Hi. destruct 1.
  - by apply std_template_inv.
  - by apply std_prev_hash_inv.
  - destruct (std_share_frame s c) as (E1 & E2 & E3). unfold std_inv. by rewrite E1, E2, E3.
  - unfold Standard.update_channel. rewrite !st_gets_bind. unfold mbind, ST_bind, lift.
    by destruct (channel_target _ _ _ _).
  - unfold Standard.set_extranonce_prefix. destruct (_ <? _); [done|]. by destruct Hi.
Qed.

(** A block found on a standard channel can be submitted: in every state the
    channel's operations lead to, the coinbase handed on with a block decodes to
    the transaction whose id, hashed along the template's merkle path, is the
    root of the header that meets the network target. *)
Theorem standard_block_submittable (id batch : Z) (user prefix : bytes) (max : Target)
    (hashrate spm : f32) (pool_tag miner_tag : option bytes)
    (c0 c c' : StandardChannel) (s : SubmitSharesStandard) (h coinbase : bytes) (tid : option Z) :
  zlen prefix = 32 →
  Standard.new chk id user prefix max hashrate batch spm JobStore.new pool_tag miner_tag = Ok c0 →
  rtc std_step c0 c →
  Standard.validate_share chk s c = (Ok (BlockFound h tid coinbase), c') →
  ∃ tx job tip, find_job (ss_job_id s) (sc_job_store c) = Ok job ∧
    sc_chain_tip c = Some tip ∧ tx_deserialize coinbase = Some tx ∧
    tid = Some (nt_template_id (sj_template job)) ∧
    let root := merkle_root_from_path_ (compute_txid tx) (nt_merkle_path (sj_template job)) in
    let header := share_header (ss_version s) (ss_ntime s) (ss_nonce s) root tip in
    h = block_hash header ∧ is_met_by (ct_nbits tip) h = true.
Proof.
  intros Hp Hnew Hr Hv.
  assert (Hi : std_inv c).
  { assert (H0i : std_inv c0).
    { unfold Standard.new in Hnew. apply bind_Ok in Hnew as (tg & _ & [= <-]).
      split; [done|]. apply store_all_new. }
    clear Hnew Hv. induction Hr; [done|]. eauto using std_step_inv. }
  rewrite std_validate_eq in Hv. destruct (find_job _ _) as [job|e|] eqn:Ej; [|done|done].
  destruct (sc_chain_tip c) as [tip|]; [|done]. cbn zeta in Hv.
  destruct (store_all_find _ _ _ _ (proj2 Hi) Ej) as (cb & Hwf & Hen & Hb & Hm).
  destruct (is_met_by _ _) eqn:Em.
  - destruct (account _ _ _ _ _) as [[u|e|] a]; [|done|done].
    destruct (op_pushbytes_pool_miner_tag _) as [tag|e|] eqn:Et; [|done|done].
    apply tag_ok in Et as [-> _]. injection Hv as <- <- <- <-.
    exists (coinbase_tx cb (sj_extranonce_prefix job)), job, tip. rewrite Hb, Hm in *.
    split_and!; try done. by apply law_deserialize, coinbase_tx_wf.
  - destruct (accept_share _ _ _ _ _) as [r a] eqn:Ea. injection Hv as -> <-.
    apply accept_share_cases in Ea as (_ & _ & _ & Ea). by destruct (_ =? 0).
Qed.

(** A job taken from the group channel commits to one coinbase and would
    submit another: the merkle root is that of the coinbase with the pool's and
    the template's outputs, but the coinbase rebuilt for a block lists the
    template's outputs twice. *)
Theorem group_job_coinbase_differs (id tip_id : Z) (tip : option ChainTip) (en : bytes)
    (t : NewTemplate) (outs : list TxOut) (f f' : JobFactory) (ext : ExtendedJob) (job : StandardJob) :
  zlen en = 32 → template_ok t outs →
  new_extended_job chk tip_id tip [] t outs f = (Ok ext, f') →
  into_standard_job id en ext = Ok job →
  ∃ touts committed,
    deserialize_template_outputs (nt_coinbase_tx_outputs t) (nt_coinbase_tx_outputs_count t) = Ok touts ∧
    mj_merkle_root (sj_job_message job) =
      merkle_root_from_path_ (compute_txid committed) (nt_merkle_path t) ∧
    tx_output committed = outs ++ touts ∧
    tx_output (Standard.block_coinbase job (tag_push f)) = outs ++ touts ++ touts ∧
    (touts ≠ [] → Standard.block_coinbase job (tag_push f) ≠ committed).
Proof.
  intros Hen Hok Hx Hj.
  destruct (new_extended_job_spec chk _ _ _ _ _ _ _ _ Hok Hx)
    as (touts & Hd & (Hwf & Ep & Es & Lp & Ls) & Ho & _ & Hout & Hmp & _).
  exists touts, (coinbase_tx (template_coinbase f t (outs ++ touts)) en).
  unfold into_standard_job in Hj. rewrite Ho, Lp, Ls, merkle_root_legacy, Hmp in Hj by done.
  cbn [ok_or mbind result_bind] in Hj. destruct (negb _); [done|]. apply map_err_Ok in Hj.
  unfold StandardJob_from_template in Hj. rewrite Hd, Hout in Hj. injection Hj as <-.
  assert (Hb : tx_output (Standard.block_coinbase (mkStandardJob t en ((outs ++ touts) ++ touts)
    (mkNewMiningJob id (xj_job_id (ej_job_message ext)) (xj_min_ntime (ej_job_message ext))
       (xj_version (ej_job_message ext))
       (merkle_root_from_path_ (compute_txid (coinbase_tx (template_coinbase f t (outs ++ touts)) en))
          (nt_merkle_path t)))) (tag_push f)) = outs ++ touts ++ touts) by (cbn; by rewrite <- app_assoc).
  split_and!; try done. intros Hne E. rewrite E in Hb. cbn in Hb.
  apply (f_equal length) in Hb. rewrite !length_app in Hb. destruct touts; [done|]. cbn in Hb. lia.
Qed.
End standard.

(** ** An example channel on the reference model *)

#[local] Existing Instance model_bitcoin.
#[local] Existing Instance model_bitcoin_laws.

Definition no_std_channel : StandardChannel :=
  mkStandardChannel 0 [] [] sample_max sample_max sample_rate (Accounting.new 1) sample_spm
    JobStore.new (JobFactory_new true None None) None.
Definition sample_std0 : StandardChannel :=
  from_ok no_std_channel (Standard.new true 1 [] (to_le_bytes 32 1) sample_max sample_rate 10
    sample_spm JobStore.new sample_tag None).
Definition sample_std1 : StandardChannel :=
  (Standard.on_new_template true (sample_template true) sample_outputs sample_std0).2.
Definition sample_std : StandardChannel := (Standard.on_set_new_prev_hash sample_prev sample_std1).2.
Definition sample_std_share (nonce : Z) : SubmitSharesStandard :=
  mkSubmitStandard 1 4 1 nonce 1700000001 0x20000000.

Lemma sample_std_reached : rtc (std_step true) sample_std0 sample_std.
Proof.
  apply (rtc_l _ _ sample_std1 _).
  - exact (STemplate true (sample_template true) sample_outputs sample_std0 (sample_template_ok true)).
  - apply rtc_once. exact (SPrevHash true sample_prev sample_std1).
Qed.
Lemma standard_block_submittable_witness :
  ∃ h coinbase c' tx job tip,
    Standard.validate_share true (sample_std_share 2) sample_std = (Ok (BlockFound h (Some 7) coinbase), c') ∧
    find_job 1 (sc_job_store sample_std) = Ok job ∧
    sc_chain_tip sample_std = Some tip ∧ tx_deserialize coinbase = Some tx ∧
    Some 7 = Some (nt_template_id (sj_template job)) ∧
    let root := merkle_root_from_path_ (compute_txid tx) (nt_merkle_path (sj_template job)) in
    let header := share_header 0x20000000 1700000001 2 root tip in
    h = block_hash header ∧ is_met_by (ct_nbits tip) h = true.
Proof.
  destruct (Standard.validate_share true (sample_std_share 2) sample_std) as [r c'] eqn:Ev.
  assert (∃ h coinbase, r = Ok (BlockFound h (Some 7) coinbase)) as (h & coinbase & ->).
  { apply (f_equal fst) in Ev. change (fst (r, c')) with r in Ev. rewrite <- Ev.
    vm_compute. eauto. }
  exists h, coinbase, c'.
  destruct (standard_block_submittable true 1 10 [] (to_le_bytes 32 1) sample_max sample_rate
    sample_spm sample_tag None sample_std0 sample_std c' (sample_std_share 2) h coinbase (Some 7))
    as (tx & job & tip & Hf & Ht & Hd & Hi & Hr).
  - vm_compute. reflexivity.
  - vm_compute. reflexivity.
  - exact sample_std_reached.
  - exact Ev.
  - exists tx, job, tip. exact (conj eq_refl (conj Hf (conj Ht (conj Hd (conj Hi Hr))))).
Defined.

Definition no_ext_job : ExtendedJob :=
  mkExtendedJob (OriginNewTemplate (sample_template true)) [] [] [] []
    (mkNewExtendedMiningJob 0 0 None 0 true [] [] []).
Definition sample_factory : JobFactory := JobFactory_new true sample_tag None.
Definition sample_group_job : result JobFactoryError ExtendedJob * JobFactory :=
  new_extended_job true 1 None [] (sample_template true) sample_outputs sample_factory.
Lemma group_job_coinbase_differs_witness :
  ∃ touts committed job,
    into_standard_job 2 (to_le_bytes 32 1) (from_ok no_ext_job sample_group_job.1) = Ok job ∧
    tx_output committed = sample_outputs ++ touts ∧
    (touts ≠ [] → Standard.block_coinbase job (tag_push sample_factory) ≠ committed).
Proof.
  destruct (into_standard_job 2 (to_le_bytes 32 1) (from_ok no_ext_job sample_group_job.1))
    as [job|e|] eqn:Ej.
  2, 3: apply (f_equal (λ r, match r with Ok _ => true | _ => false end)) in Ej; vm_compute in Ej;
    discriminate Ej.
  destruct (group_job_coinbase_differs true 2 1 None (to_le_bytes 32 1) (sample_template true)
    sample_outputs sample_factory sample_group_job.2 (from_ok no_ext_job sample_group_job.1) job)
    as (touts & committed & _ & _ & Ho & _ & Hne).
  - vm_compute. reflexivity.
  - exact (sample_template_ok true).
  - vm_compute. reflexivity.
  - exact Ej.
  - exists touts, committed, job. exact (conj eq_refl (conj Ho Hne)).
Defined.
