(* ===== verification/Vardiff.v ===== *)
(** * Identifiers, hash rates and variable difficulty

    [roles-logic-sv2/src/utils.rs] (identifier factories, the hash rate that a
    target and a share rate stand for, bitcoin difficulty) and
    [roles-logic-sv2/src/vardiff/classic.rs] (the difficulty controller of a
    channel).  Clock readings are arguments: seconds since the epoch, [None]
    when the system clock stands before it. *)

From Stdlib Require Import SpecFloat.
From S2P Require Import Prelude Mining MiningProperties Difficulty Jobs.

(** ** Identifiers *)

(** [Id] and its [next]. *)
Definition Id_new : Z := 0.
Definition Id_next {E} (overflow_checks : bool) : ST Z E Z := λ state,
  match add_over (E := E) overflow_checks 32 state 1 with
  | Ok n => (Ok n, n)
  | Err e => (Err e, state)
  | Panic => (Panic, state)
  end.

Record GroupId : Type := mkGroupId { group_ids : Z; channel_ids : Z }.
Definition GroupId_new : GroupId := mkGroupId Id_new Id_new.
Definition new_group_id {E} (overflow_checks : bool) : ST GroupId E Z :=
  zoom group_ids (λ i g, mkGroupId i (channel_ids g)) (Id_next overflow_checks).
Definition new_channel_id {E} (overflow_checks : bool) (group_id : Z) : ST GroupId E Z :=
  zoom channel_ids (λ i g, mkGroupId (group_ids g) i) (Id_next overflow_checks).
(** [part_2[3], .., part_2[0], part_1[3], .., part_1[0]], most significant first. *)
Definition into_complete_id (group_id channel_id : Z) : Z :=
  from_be_bytes (reverse (to_le_bytes 4 group_id) ++ reverse (to_le_bytes 4 channel_id)).
Definition into_group_id (complete_id : Z) : Z :=
  from_le_bytes (zdrop 4 (to_le_bytes 8 complete_id)).
Definition into_channel_id (complete_id : Z) : Z :=
  from_le_bytes (ztake 4 (to_le_bytes 8 complete_id)).

(** ** Hash rates *)

Inductive InputError : Type := NegativeRate | DivisionByZeroRate | ArithmeticOverflow.

(** [hash_rate_from_target]: [U256] subtraction and division panic in every
    build when they leave the range. *)
Definition hash_rate_from_target (target : bytes) (share_per_min : f64)
    : result InputError f64 :=
  if SFeqb share_per_min (S754_zero false) then Err DivisionByZeroRate
  else if is_sign_negative share_per_min then Err NegativeRate
  else
    let target := from_le_bytes target in
    previous ← sub_chk target 1;
    numerator ← sub_chk (2 ^ 256 - 1) previous;
    let shares_occurrency_frequence :=
      as_uint 128 (f64_mul (f64_div (f64_of_Z 60) share_per_min) (f64_of_Z 100)) in
    if shares_occurrency_frequence =? 0 then Err DivisionByZeroRate
    else if 2 ^ 256 <=? target + 1 then Err ArithmeticOverflow
    else
      let product := (target + 1) * shares_occurrency_frequence in
      if 2 ^ 256 <=? product then Err ArithmeticOverflow
      else
        let denominator := product / 100 in
        if denominator =? 0 then Panic
        else Ok (f64_of_Z (wrap 128 (numerator / denominator))).

(** [utils::target_to_difficulty]: the ratio to the target of the genesis block. *)
Definition genesis_target : Z := Z.shiftl 0xffff 208.
Definition f64_of_u256 (z : Z) : f64 :=
  f64_add (f64_mul (f64_of_Z (wrap 128 (Z.shiftr z 128))) (f64_of_Z (2 ^ 128)))
    (f64_of_Z (wrap 128 z)).
Definition bitcoin_difficulty (target : Target) : f64 :=
  f64_div (f64_of_u256 genesis_target)
    (f64_of_u256 (from_le_bytes (Target_into_U256 target))).

(** ** Single-precision arithmetic *)

Definition f32_of_Z (z : Z) : f32 := binary_normalize 24 128 z 0 false.
(** [x as f32]: to the nearest, ties to even. *)
Definition f32_of_f64 (x : f64) : f32 :=
  match x with
  | S754_finite s m e => binary_normalize 24 128 (if s then Zneg m else Zpos m) e s
  | _ => x
  end.
Definition f32_mul : f32 → f32 → f32 := SFmul 24 128.
Definition f32_sub : f32 → f32 → f32 := SFsub 24 128.
Definition f32_div : f32 → f32 → f32 := SFdiv 24 128.
(** [1.5]. *)
Definition f32_three_halves : f32 := f32_div (f32_of_Z 3) (f32_of_Z 2).

(** ** The controller *)

Record VardiffState : Type := mkVardiff {
  shares_since_last_update : Z;
  timestamp_of_last_update : Z;
  min_allowed_hashrate : f32 }.
Inductive VardiffError : Type := TimeError.

Definition DEFAULT_MIN_HASHRATE : f32 := f32_of_Z 1.

Module Vardiff.
Section vardiff.
Context (overflow_checks : bool).
Notation VD := (ST VardiffState VardiffError).

Definition new_with_min (min_allowed_hashrate : f32) (clock : option Z)
    : result VardiffError VardiffState :=
  timestamp_secs ← ok_or clock TimeError;
  Ok (mkVardiff 0 timestamp_secs min_allowed_hashrate).
Definition new (clock : option Z) : result VardiffError VardiffState :=
  new_with_min DEFAULT_MIN_HASHRATE clock.

Definition set_timestamp_of_last_update (t : Z) (v : VardiffState) : VardiffState :=
  mkVardiff (shares_since_last_update v) t (min_allowed_hashrate v).
Definition set_shares_since_last_update (n : Z) (v : VardiffState) : VardiffState :=
  mkVardiff n (timestamp_of_last_update v) (min_allowed_hashrate v).
Definition increment_shares_since_last_update : VD unit := λ v,
  match add_over (E := VardiffError) overflow_checks 32 (shares_since_last_update v) 1 with
  | Ok n => (Ok tt, set_shares_since_last_update n v)
  | Err e => (Err e, v)
  | Panic => (Panic, v)
  end.
Definition reset_counter (clock : option Z) : VD unit :=
  timestamp_secs ← lift (ok_or clock TimeError);
  _ ← modify (set_timestamp_of_last_update timestamp_secs);
  modify (set_shares_since_last_update 0).

(** How large a deviation, in percent, counts after [delta_time] seconds. *)
Definition should_update (pct : f32) (delta_time : Z) : bool :=
  let at_least n := SFleb (f32_of_Z n) pct in
  if at_least 100 then true
  else if at_least 60 && (60 <=? delta_time) then true
  else if at_least 50 && (120 <=? delta_time) then true
  else if at_least 45 && (180 <=? delta_time) then true
  else if at_least 30 && (240 <=? delta_time) then true
  else at_least 15 && (300 <=? delta_time).

(** The step when no share arrived, and when the deviation is extreme. *)
Definition lowered (hashrate : f32) (delta_time : Z) : f32 :=
  if delta_time <=? 30 then f32_div hashrate f32_three_halves
  else if delta_time <? 60 then f32_div hashrate (f32_of_Z 2)
  else f32_div hashrate (f32_of_Z 3).
Definition raised (hashrate : f32) (delta_time : Z) : f32 :=
  if delta_time <=? 30 then f32_mul hashrate (f32_of_Z 10)
  else if delta_time <? 60 then f32_mul hashrate (f32_of_Z 5)
  else f32_mul hashrate (f32_of_Z 3).

Definition realized (shares delta_time : Z) : f64 :=
  f64_div (f64_of_Z shares) (f64_div (f64_of_Z delta_time) (f64_of_Z 60)).
Definition estimate (hashrate : f32) (target : Target) (shares_per_minute : f32)
    (realized_share_per_min : f64) : result VardiffError f32 :=
  match hash_rate_from_target (Target_into_U256 target) realized_share_per_min with
  | Ok h => Ok (f32_of_f64 h)
  | Err _ => Ok (f32_div (f32_mul hashrate (f32_of_f64 realized_share_per_min)) shares_per_minute)
  | Panic => Panic
  end.

Definition try_vardiff (clock clock' : option Z) (hashrate : f32) (target : Target)
    (shares_per_minute : f32) : VD (option f32) :=
  now ← lift (ok_or clock TimeError);
  last ← gets timestamp_of_last_update;
  delta_time ← lift (if overflow_checks then sub_chk now last else Ok (wrap 64 (now - last)));
  if delta_time <=? 15 then mret None
  else
    shares ← gets shares_since_last_update;
    let realized_share_per_min := realized shares delta_time in
    new_hashrate ← lift (estimate hashrate target shares_per_minute realized_share_per_min);
    let hashrate_delta := f32_sub new_hashrate hashrate in
    let hashrate_delta_percentage :=
      f32_mul (f32_div (SFabs hashrate_delta) hashrate) (f32_of_Z 100) in
    if negb (should_update hashrate_delta_percentage delta_time) then mret None
    else
      let new_hashrate :=
        if SFeqb realized_share_per_min (S754_zero false) then lowered hashrate delta_time
        else if SFltb (f32_of_Z 1000) hashrate_delta_percentage then raised hashrate delta_time
        else new_hashrate in
      min ← gets min_allowed_hashrate;
      let new_hashrate := if SFltb new_hashrate min then min else new_hashrate in
      _ ← reset_counter clock';
      mret (Some new_hashrate).

End vardiff.
End Vardiff.

(** ** Properties *)

Lemma complete_id_value g c :
  fits 32 g → fits 32 c → into_complete_id g c = c + g * 2 ^ 32.
Proof.
  intros Hg Hc. unfold into_complete_id, from_be_bytes.
  rewrite reverse_app, !reverse_involutive.
  change (le_combine ?l) with (from_le_bytes l).
  rewrite from_le_bytes_app, !from_to_le_bytes, to_le_bytes_zlen by done. lia.
Qed.
(** A complete identifier determines the group and the channel. *)
Lemma complete_id_parts g c :
  fits 32 g → fits 32 c →
  into_group_id (into_complete_id g c) = g ∧ into_channel_id (into_complete_id g c) = c.
Proof.
  intros Hg Hc.
  assert (to_le_bytes 8 (into_complete_id g c) = to_le_bytes 4 c ++ to_le_bytes 4 g) as E.
  { apply from_le_bytes_inj.
    - by rewrite zlen_app, !to_le_bytes_zlen.
    - rewrite from_le_bytes_app, !from_to_le_bytes, to_le_bytes_zlen, complete_id_value by
        first [done | rewrite complete_id_value by done; unfold fits in *; lia]. lia. }
  unfold into_group_id, into_channel_id. rewrite E. split.
  - change (zdrop 4 (to_le_bytes 4 c ++ to_le_bytes 4 g)) with
      (drop (length (to_le_bytes 4 c)) (to_le_bytes 4 c ++ to_le_bytes 4 g)).
    by rewrite drop_app_length, from_to_le_bytes.
  - change (ztake 4 (to_le_bytes 4 c ++ to_le_bytes 4 g)) with
      (take (length (to_le_bytes 4 c)) (to_le_bytes 4 c ++ to_le_bytes 4 g)).
    by rewrite take_app_length, from_to_le_bytes.
Qed.

Lemma hash_rate_from_target_total (target : bytes) s :
  zlen target = 32 → 99 ≤ from_le_bytes target → hash_rate_from_target target s ≠ Panic.
Proof.
  intros Hl Ht. unfold hash_rate_from_target.
  destruct (SFeqb _ _); [done|]. destruct (is_sign_negative s); [done|].
  pose proof (from_le_bytes_fits target) as [_ Hb]. rewrite Hl in Hb.
  change (2 ^ (8 * 32)) with (2 ^ 256) in Hb.
  set (t := from_le_bytes target) in *. cbn zeta.
  set (f := as_uint 128 _). pose proof (as_uint_fits 128
    (f64_mul (f64_div (f64_of_Z 60) s) (f64_of_Z 100)) ltac:(lia)) as [Hf _]. fold f in Hf.
  unfold sub_chk. rewrite (proj2 (Z.leb_le 1 t)) by lia. cbn [mbind result_bind].
  rewrite (proj2 (Z.leb_le (t - 1) _)) by lia. cbn [mbind result_bind].
  destruct (Z.eqb_spec f 0); [done|]. destruct (_ <=? _); [done|]. destruct (_ <=? _); [done|].
  destruct (Z.eqb_spec ((t + 1) * f / 100) 0) as [E|]; [|done].
  apply Z.div_small_iff in E; nia.
Qed.

Lemma SFltb_irrefl x : SFltb x x = false.
Proof.
  unfold SFltb, SFcompare. destruct x as [[]|[]| |s m e]; try done.
  rewrite Z.compare_refl. destruct s; by rewrite ?Pos.compare_cont_refl.
Qed.

(** What a run of the controller decides. *)
Definition vardiff_decides (now now' : Z) (h : f32) (v : VardiffState) (r : option f32)
    (v' : VardiffState) : Prop :=
  let dt := now - timestamp_of_last_update v in
  match r with
  | None => v' = v
  | Some h' =>
      15 < dt ∧ v' = mkVardiff 0 now' (min_allowed_hashrate v) ∧
      SFltb h' (min_allowed_hashrate v) = false ∧
      (SFeqb (Vardiff.realized (shares_since_last_update v) dt) (S754_zero false) = true →
       h' = Vardiff.lowered h dt ∨ h' = min_allowed_hashrate v)
  end.

(** C36 The difficulty controller never fails and keeps to its limits: with a
    clock that does not run backwards and a target of at least 99, a run
    answers; without a proposal its state is unchanged, and a proposal comes
    only after 15 seconds, resets the counter, is not below the minimum hash
    rate, and when no share has arrived is the lowered rate or the minimum. *)
Theorem vardiff_total (chk : bool) (now now' : Z) (h spm : f32) (target : bytes) (v : VardiffState) :
  timestamp_of_last_update v ≤ now → now < 2 ^ 64 → 0 ≤ timestamp_of_last_update v →
  zlen target = 32 → 99 ≤ from_le_bytes target →
  ∃ r v', Vardiff.try_vardiff chk (Some now) (Some now') h (Target_from_bytes target) spm v
          = (Ok r, v') ∧ vardiff_decides now now' h v r v'.
Proof.
  intros Hn Hn' H0 Hl Ht. unfold Vardiff.try_vardiff.
  unfold ok_or. rewrite st_lift_bind, st_gets_bind.
  assert ((if chk then sub_chk (E := VardiffError) now (timestamp_of_last_update v)
           else Ok (wrap 64 (now - timestamp_of_last_update v)))
          = Ok (now - timestamp_of_last_update v)) as ->.
  { destruct chk; [unfold sub_chk; by rewrite (proj2 (Z.leb_le _ _))
                  |rewrite wrap_small; [done|unfold fits; lia]]. }
  rewrite st_lift_bind. set (dt := now - _).
  destruct (Z.leb_spec dt 15); [by eexists _, _|]. rewrite st_gets_bind. cbn zeta.
  assert (∃ e, Vardiff.estimate h (Target_from_bytes target) spm
                 (Vardiff.realized (shares_since_last_update v) dt) = Ok e) as [e ->].
  { unfold Vardiff.estimate. rewrite (Target_bytes target Hl).
    pose proof (hash_rate_from_target_total target
      (Vardiff.realized (shares_since_last_update v) dt) Hl Ht).
    destruct (hash_rate_from_target _ _); eauto. done. }
  rewrite st_lift_bind. destruct (negb _); [by eexists _, _|]. rewrite st_gets_bind.
  unfold Vardiff.reset_counter, ok_or. eexists _, _. split; [reflexivity|].
  unfold vardiff_decides. cbn. fold dt. split_and!; [done|done| |].
  - destruct (SFltb (if SFeqb _ _ then _ else _) _) eqn:E; [apply SFltb_irrefl|done].
  - intros ->. destruct (SFltb _ _); auto.
Qed.

(** A silent channel after a minute, at one terahash per second. *)
Lemma vardiff_total_witness :
  ∃ r v', Vardiff.try_vardiff true (Some 1700000061) (Some 1700000061) (f32_of_Z (10 ^ 12))
            (Target_from_bytes (to_le_bytes 32 (2 ^ 200))) (f32_of_Z 6)
            (mkVardiff 0 1700000000 DEFAULT_MIN_HASHRATE) = (Ok r, v') ∧
    vardiff_decides 1700000061 1700000061 (f32_of_Z (10 ^ 12))
      (mkVardiff 0 1700000000 DEFAULT_MIN_HASHRATE) r v'.
Proof.
  apply (vardiff_total true 1700000061 1700000061 (f32_of_Z (10 ^ 12)) (f32_of_Z 6)
    (to_le_bytes 32 (2 ^ 200)) (mkVardiff 0 1700000000 DEFAULT_MIN_HASHRATE));
    vm_compute; intuition discriminate.
Defined.
