(* ===== verification/PoolStats.v ===== *)
(** * Statistics of the pool's connections

    [roles-utils/stats-sv2] (the rolling window of share difficulties, the hash
    rate it stands for, the bucket sizes of a graph) and
    [roles-utils/pool-stats] (the counters of a connection and their registry).
    Clock readings are arguments; [None] is a clock before the epoch. *)

From Stdlib Require Import SpecFloat.
From S2P Require Import Prelude Mining Difficulty.
From stdpp Require Import list gmap.
#[local] Open Scope Z_scope.

(** ** The rolling window ([windowing.rs]) *)

Record WindowedMetricsCollector : Type := mkCollector {
  wm_shares : list (Z * f64);
  wm_window_seconds : Z }.

Module Window.
Definition new (window_seconds : Z) : WindowedMetricsCollector := mkCollector [] window_seconds.
Definition cutoff (clock : option Z) (c : WindowedMetricsCollector) : Z :=
  saturating_sub (default 0 clock) (wm_window_seconds c).
Definition record_share (clock : option Z) (difficulty : f64) (c : WindowedMetricsCollector)
    : WindowedMetricsCollector :=
  let shares := wm_shares c ++ [(default 0 clock, difficulty)] in
  mkCollector (filter (λ s, cutoff clock c < s.1) shares) (wm_window_seconds c).
Definition in_window (clock : option Z) (c : WindowedMetricsCollector) : list (Z * f64) :=
  filter (λ s, cutoff clock c < s.1) (wm_shares c).
Definition sum_difficulty_in_window (clock : option Z) (c : WindowedMetricsCollector) : f64 :=
  foldl f64_add (S754_zero false) (in_window clock c).*2.
Definition shares_in_window (clock : option Z) (c : WindowedMetricsCollector) : Z :=
  zlen (in_window clock c).
Definition clear (c : WindowedMetricsCollector) : WindowedMetricsCollector :=
  mkCollector [] (wm_window_seconds c).
End Window.

(** [metrics.rs]. *)
Definition HASHES_PER_DIFFICULTY : f64 := f64_of_Z (2 ^ 32).
Definition derive_hashrate (sum_difficulty : f64) (window_seconds : Z) : f64 :=
  if window_seconds =? 0 then S754_zero false
  else f64_div (f64_mul sum_difficulty HASHES_PER_DIFFICULTY) (f64_of_Z window_seconds).

(** [bucketing.rs]. *)
Definition NICE_BUCKET_SIZES : list Z := [60; 300; 900; 1800; 3600; 7200; 10800; 21600].
Definition calculate_bucket_size (from_timestamp to_timestamp target_points : Z) : Z :=
  if target_points =? 0 then 60
  else
    let time_range := saturating_sub to_timestamp from_timestamp in
    if time_range =? 0 then 60
    else
      let ideal_bucket_size := time_range / target_points in
      match List.find (λ size, ideal_bucket_size <=? size) NICE_BUCKET_SIZES with
      | Some size => size
      | None => List.last NICE_BUCKET_SIZES 0
      end.

(** ** Counters of a connection ([pool-stats]) *)

Record DownstreamStats : Type := mkStats {
  shares_submitted : Z;
  quotes_created : Z;
  ehash_mined : Z;
  last_share_at : Z;
  metrics_collector : WindowedMetricsCollector }.

Module Stats.
Definition new : DownstreamStats := mkStats 0 0 0 0 (Window.new 60).
(** [AtomicU64::fetch_add] wraps around. *)
Definition fetch_add (a b : Z) : Z := wrap 64 (a + b).

Definition record_share {E} (clock : option Z) (s : DownstreamStats) : result E DownstreamStats :=
  now ← unwrap clock;
  Ok (mkStats (fetch_add (shares_submitted s) 1) (quotes_created s) (ehash_mined s) now
        (metrics_collector s)).
Definition record_share_with_difficulty {E} (clock clock' : option Z) (difficulty : f64)
    (s : DownstreamStats) : result E DownstreamStats :=
  now ← unwrap clock;
  Ok (mkStats (fetch_add (shares_submitted s) 1) (quotes_created s) (ehash_mined s) now
        (Window.record_share clock' difficulty (metrics_collector s))).
(** [StatsCallback::on_quote_created]. *)
Definition on_quote_created {E} (clock : option Z) (channel_id amount : Z) (s : DownstreamStats)
    : result E DownstreamStats :=
  now ← unwrap clock;
  Ok (mkStats (fetch_add (shares_submitted s) 1) (fetch_add (quotes_created s) 1)
        (fetch_add (ehash_mined s) amount) now (metrics_collector s)).
End Stats.

Definition PoolStatsRegistry : Type := gmap Z DownstreamStats.
Definition register_downstream (downstream_id : Z) (r : PoolStatsRegistry) : PoolStatsRegistry :=
  <[downstream_id := Stats.new]> r.
Definition unregister_downstream (downstream_id : Z) (r : PoolStatsRegistry) : PoolStatsRegistry :=
  delete downstream_id r.
Definition get_stats (downstream_id : Z) (r : PoolStatsRegistry) : option DownstreamStats :=
  r !! downstream_id.
Definition stats_row (s : DownstreamStats) : Z * Z * Z * option Z :=
  (shares_submitted s, quotes_created s, ehash_mined s,
   if 0 <? last_share_at s then Some (last_share_at s) else None).
Definition stats_snapshot (r : PoolStatsRegistry) : gmap Z (Z * Z * Z * option Z) := stats_row <$> r.

(** ** Properties *)

(** The window is what a record of all shares would show: with a clock that
    does not run backwards, dropping old shares loses nothing that a later
    reading would count. *)
Definition full_log (w : Z) (log : list (Z * f64)) (now : Z) : list (Z * f64) :=
  filter (λ s, saturating_sub now w < s.1) log.
Fixpoint record_all (c : WindowedMetricsCollector) (log : list (Z * f64)) : WindowedMetricsCollector :=
  match log with
  | [] => c
  | s :: log => record_all (Window.record_share (Some s.1) s.2 c) log
  end.

Lemma filter_window (a b : Z) (l : list (Z * f64)) :
  a ≤ b → filter (λ s, b < s.1) (filter (λ s, a < s.1) l) = filter (λ s, b < s.1) l.
Proof.
  intros Hab. rewrite list_filter_filter. apply list_filter_iff. intros s. split; [tauto|lia].
Qed.
Lemma record_all_window (w : Z) (log : list (Z * f64)) : ∀ (c : WindowedMetricsCollector) (now : Z),
  wm_window_seconds c = w → Forall (λ s, s.1 ≤ now) log →
  Window.in_window (Some now) (record_all c log) = full_log w (wm_shares c ++ log) now.
Proof.
  induction log as [|[t d] log IH]; intros c now Hw Hle; cbn [record_all].
  - unfold Window.in_window, full_log, Window.cutoff. by rewrite app_nil_r, Hw.
  - apply Forall_cons in Hle as [Hle Hl]. rewrite IH by done. cbn [wm_shares Window.record_share].
    unfold full_log. change ((t, d) :: log) with ([(t, d)] ++ log). rewrite (assoc_L (++)).
    rewrite (filter_app _ _ log), (filter_app _ (_ ++ _) log). f_equal.
    unfold Window.cutoff. cbn [default fst snd]. rewrite Hw. apply filter_window.
    cbn in *. unfold saturating_sub. lia.
Qed.

(** C37 The statistics window equals its specification: after any sequence of
    shares recorded in time order, a reading counts exactly the shares of the
    last [w] seconds of the complete record, although old shares were dropped
    while recording. *)
Theorem window_refines_log (w now : Z) (log : list (Z * f64)) :
  Forall (λ s, s.1 ≤ now) log →
  Window.in_window (Some now) (record_all (Window.new w) log) = full_log w log now ∧
  Window.shares_in_window (Some now) (record_all (Window.new w) log) = zlen (full_log w log now).
Proof.
  intros Hl. unfold Window.shares_in_window. by rewrite (record_all_window w log (Window.new w)).
Qed.
Lemma window_refines_log_witness :
  Window.shares_in_window (Some 100) (record_all (Window.new 60)
    [(10, f64_of_Z 1); (41, f64_of_Z 2); (99, f64_of_Z 3)]) = 2.
Proof.
  rewrite (proj2 (window_refines_log 60 100 [(10, f64_of_Z 1); (41, f64_of_Z 2); (99, f64_of_Z 3)]
    ltac:(repeat constructor; cbn; lia))). reflexivity.
Defined.

(** A share whose quote is created is counted as two submitted shares. *)
Lemma quoted_share_counted_twice {E} (clock : Z) (d : f64) (channel_id amount : Z) (s s1 s2 : DownstreamStats) :
  0 ≤ shares_submitted s < 2 ^ 64 - 2 →
  Stats.record_share_with_difficulty (E := E) (Some clock) (Some clock) d s = Ok s1 →
  Stats.on_quote_created (E := E) (Some clock) channel_id amount s1 = Ok s2 →
  shares_submitted s2 = shares_submitted s + 2.
Proof.
  intros Hs [= <-] [= <-]. cbn [shares_submitted]. unfold Stats.fetch_add.
  rewrite (wrap_small 64 (shares_submitted s + 1)), wrap_small by (unfold fits; lia). lia.
Qed.

(** The bucket size is the smallest listed one that is large enough. *)
Lemma bucket_size_spec (a b n : Z) :
  n ≠ 0 → a < b → (b - a) / n ≤ 21600 →
  let s := calculate_bucket_size a b n in
  s ∈ NICE_BUCKET_SIZES ∧ (b - a) / n ≤ s ∧
  ∀ s', s' ∈ NICE_BUCKET_SIZES → (b - a) / n ≤ s' → s ≤ s'.
Proof.
  intros Hn Hab Hi s. subst s. unfold calculate_bucket_size. rewrite (proj2 (Z.eqb_neq n 0)) by done.
  unfold saturating_sub. rewrite Z.max_r by lia. rewrite (proj2 (Z.eqb_neq (b - a) 0)) by lia.
  set (i := (b - a) / n) in *. unfold NICE_BUCKET_SIZES. cbn [List.find].
  repeat (match goal with |- context [if ?x <=? ?y then _ else _] => destruct (Z.leb_spec x y) end;
    [split_and!; [set_solver|lia|intros s' Hs' ?; set_unfold in Hs'; lia]|]).
  lia.
Qed.
