(* ===== verification/Downstream.v ===== *)
(** * The pool's side of a miner connection

    [pool/src/lib/mining_pool/mod.rs] (the [Downstream] state, the broadcast of
    templates and chain tips, the variable-difficulty round) and
    [message_handler.rs] (the handlers of mining messages).  What several
    connections share (extranonce factories, the solution channel, statistics,
    spawned tasks) is the record [Shared].  A hash map is iterated in an
    unspecified order: the order is the parameter [map_iter].  Locks are taken
    and released inside one handler; a poisoned lock follows a panic and is not
    represented further. *)

From Stdlib Require Import String SpecFloat.
From stdpp Require Import gmap.
From S2P Require Import Prelude Mining Difficulty Bitcoin Jobs Channels Vardiff PoolStats Utf8 PoolQuotes.
#[local] Open Scope Z_scope.
#[local] Open Scope list_scope.

(** ** Messages *)

Record OpenStandardMiningChannel : Type := mkOpenStandard {
  os_request_id : Z;
  os_user_identity : bytes;
  os_nominal_hash_rate : f32;
  os_max_target : bytes }.
Record OpenExtendedMiningChannel : Type := mkOpenExtended {
  oe_request_id : Z;
  oe_user_identity : bytes;
  oe_nominal_hash_rate : f32;
  oe_max_target : bytes;
  oe_min_extranonce_size : Z }.
Record UpdateChannel : Type := mkUpdateChannel {
  uc_channel_id : Z;
  uc_nominal_hash_rate : f32;
  uc_maximum_target : bytes }.
(** [SetNewPrevHash] of the mining protocol. *)
Record SetNewPrevHashMp : Type := mkPrevHashMp {
  ph_channel_id : Z;
  ph_job_id : Z;
  ph_prev_hash : bytes;
  ph_min_ntime : Z;
  ph_nbits : Z }.
Record SubmitSolution : Type := mkSolution {
  so_template_id : Z;
  so_version : Z;
  so_header_timestamp : Z;
  so_header_nonce : Z;
  so_coinbase_tx : bytes }.

(** The messages the pool sends to a miner. *)
Inductive Reply : Type :=
  | OpenStandardMiningChannelSuccess (request_id channel_id : Z) (target extranonce_prefix : bytes)
      (group_channel_id : Z)
  | OpenExtendedMiningChannelSuccess (request_id channel_id : Z) (target : bytes)
      (extranonce_size : Z) (extranonce_prefix : bytes)
  | OpenMiningChannelError (request_id : Z) (error_code : string)
  | UpdateChannelError (channel_id : Z) (error_code : string)
  | SetTarget (channel_id : Z) (maximum_target : bytes)
  | SubmitSharesSuccess (channel_id last_sequence_number new_submits_accepted_count
      new_shares_sum : Z)
  | SubmitSharesError (channel_id sequence_number : Z) (error_code : string)
  | SetCustomMiningJobSuccess (channel_id request_id job_id : Z)
  | SetCustomMiningJobError (channel_id request_id : Z) (error_code : string)
  | ReplyNewMiningJob (m : NewMiningJob)
  | ReplyNewExtendedMiningJob (m : NewExtendedMiningJob)
  | ReplySetNewPrevHash (m : SetNewPrevHashMp).
Inductive SendTo : Type :=
  | Respond (m : Reply)
  | Multiple (l : list Reply)
  | SendNone.

Inductive PoolHandlerError : Type :=
  | InvalidUserIdentity
  | ExtranoncePrefixFactoryError (e : ExtendedExtranonceError)
  | ChannelFailed (e : ChannelError)
  | VardiffFailed (e : VardiffError)
  | BinaryConversion
  | FailedToSendSolution
  | FailedToDeserializeCoinbaseOutputs
  | UnexpectedMessage (ty : Z).

(** ** State *)

(** Work given to the executor. *)
Inductive Task : Type :=
  | QuoteTask (d : QuoteDispatcher) (channel_id sequence_number : Z) (header_hash : bytes)
      (locking_key : option bytes)
  | RegisterTask (channel_id : Z) (locking_key : bytes) (downstream_id : Z).

(** The body of the task that [spawn_channel_registration] starts. *)
Definition run_registration (now : Z) (t : Task) (m : MintIntegrationManager) : MintIntegrationManager :=
  match t with
  | RegisterTask channel_id locking_key downstream_id =>
      register_channel channel_id (Some locking_key) downstream_id now m
  | _ => m
  end.

Record DownstreamConfig : Type := mkDownstreamConfig {
  dc_id : Z;
  requires_standard_jobs : bool;
  requires_custom_work : bool;
  quote_dispatcher : option QuoteDispatcher;
  locking_key_bytes : option bytes;
  share_batch_size : Z;
  shares_per_minute : f32;
  coinbase_reward_script : bytes;
  pool_tag : bytes;
  minimum_share_difficulty_bits : option Z;
  min_downstream_hashrate : option f32 }.

Record Downstream : Type := mkDownstream {
  d_config : DownstreamConfig;
  d_channel_id_factory : Z;
  d_extended_channels : gmap Z ExtendedChannel;
  d_standard_channels : gmap Z StandardChannel;
  d_vardiff : gmap Z VardiffState;
  d_group_channel : option GroupChannel;
  d_last_future_template : NewTemplate;
  d_last_new_prev_hash : SetNewPrevHashTdp }.

Definition d_set_channel_id_factory i d :=
  mkDownstream (d_config d) i (d_extended_channels d) (d_standard_channels d) (d_vardiff d)
    (d_group_channel d) (d_last_future_template d) (d_last_new_prev_hash d).
Definition d_set_extended x d :=
  mkDownstream (d_config d) (d_channel_id_factory d) x (d_standard_channels d) (d_vardiff d)
    (d_group_channel d) (d_last_future_template d) (d_last_new_prev_hash d).
Definition d_set_standard x d :=
  mkDownstream (d_config d) (d_channel_id_factory d) (d_extended_channels d) x (d_vardiff d)
    (d_group_channel d) (d_last_future_template d) (d_last_new_prev_hash d).
Definition d_set_vardiff x d :=
  mkDownstream (d_config d) (d_channel_id_factory d) (d_extended_channels d)
    (d_standard_channels d) x (d_group_channel d) (d_last_future_template d)
    (d_last_new_prev_hash d).
Definition d_set_group x d :=
  mkDownstream (d_config d) (d_channel_id_factory d) (d_extended_channels d)
    (d_standard_channels d) (d_vardiff d) x (d_last_future_template d) (d_last_new_prev_hash d).
Definition d_set_template x d :=
  mkDownstream (d_config d) (d_channel_id_factory d) (d_extended_channels d)
    (d_standard_channels d) (d_vardiff d) (d_group_channel d) x (d_last_new_prev_hash d).
Definition d_set_prev_hash x d :=
  mkDownstream (d_config d) (d_channel_id_factory d) (d_extended_channels d)
    (d_standard_channels d) (d_vardiff d) (d_group_channel d) (d_last_future_template d) x.

Record Shared : Type := mkShared {
  sh_factory_extended : ExtendedExtranonce;
  sh_factory_standard : ExtendedExtranonce;
  sh_solutions : list SubmitSolution;
  sh_solutions_closed : bool;
  sh_stats : PoolStatsRegistry;
  sh_tasks : list Task }.
Definition sh_set_extended x s :=
  mkShared x (sh_factory_standard s) (sh_solutions s) (sh_solutions_closed s) (sh_stats s) (sh_tasks s).
Definition sh_set_standard x s :=
  mkShared (sh_factory_extended s) x (sh_solutions s) (sh_solutions_closed s) (sh_stats s) (sh_tasks s).
Definition sh_set_solutions x s :=
  mkShared (sh_factory_extended s) (sh_factory_standard s) x (sh_solutions_closed s) (sh_stats s)
    (sh_tasks s).
Definition sh_set_stats x s :=
  mkShared (sh_factory_extended s) (sh_factory_standard s) (sh_solutions s)
    (sh_solutions_closed s) x (sh_tasks s).
Definition sh_set_tasks x s :=
  mkShared (sh_factory_extended s) (sh_factory_standard s) (sh_solutions s)
    (sh_solutions_closed s) (sh_stats s) x.

(** A handler runs on one connection and the shared state. *)
Record Conn : Type := mkConn { self : Downstream; shared : Shared }.
Definition on_self (f : Downstream → Downstream) (c : Conn) : Conn := mkConn (f (self c)) (shared c).
Definition on_shared (f : Shared → Shared) (c : Conn) : Conn := mkConn (self c) (f (shared c)).
Definition spawn {E} (t : Task) : ST Conn E unit :=
  modify (on_shared (λ s, sh_set_tasks (sh_tasks s ++ [t]) s)).

(** Runs a channel operation on an entry of a map, keeping its answer as a
    value; a missing entry is the [expect] of the source. *)
Definition with_entry {K E E' A} (get : Downstream → option K) (put : K → Downstream → Downstream)
    (m : ST K E A) : ST Conn E' (result E A) := λ s,
  match get (self s) with
  | None => (Panic, s)
  | Some k =>
      let '(r, k') := m k in
      let s := on_self (put k') s in
      match r with Panic => (Panic, s) | r => (Ok r, s) end
  end.
Definition standard_entry {E E' A} (id : Z) : ST StandardChannel E A → ST Conn E' (result E A) :=
  with_entry (λ d, d_standard_channels d !! id)
    (λ c d, d_set_standard (<[id := c]> (d_standard_channels d)) d).
Definition extended_entry {E E' A} (id : Z) : ST ExtendedChannel E A → ST Conn E' (result E A) :=
  with_entry (λ d, d_extended_channels d !! id)
    (λ c d, d_set_extended (<[id := c]> (d_extended_channels d)) d).

(** ** Handlers *)

Definition invalid_channel : string := "invalid-channel-id".
Definition SOLUTION_CAPACITY : Z := 10.

(** [validate_minimum_share_difficulty]: the refusal to send, if any. *)
Definition validate_minimum_share_difficulty (header_hash : bytes) (minimum_bits : option Z)
    (channel_id sequence_number : Z) : option SendTo :=
  match minimum_bits with
  | Some min_bits =>
      match validate_share_difficulty header_hash (Some min_bits) with
      | Err _ => Some (Respond (SubmitSharesError channel_id sequence_number
                                  "share-difficulty-too-low"))
      | _ => None
      end
  | None => None
  end.

Section handlers.
Context `{Bitcoin} (overflow_checks : bool).
Notation HANDLER := (ST Conn PoolHandlerError).

Definition config : HANDLER DownstreamConfig := gets (λ s, d_config (self s)).

Definition send_share_quote_request (channel_id sequence_number : Z) (header_hash : bytes)
    : HANDLER unit :=
  cfg ← config;
  match quote_dispatcher cfg with
  | Some d => spawn (QuoteTask d channel_id sequence_number header_hash (locking_key_bytes cfg))
  | None => mret tt
  end.
Definition register_with_mint (channel_id : Z) : HANDLER unit :=
  cfg ← config;
  match locking_key_bytes cfg with
  | Some locking_key => spawn (RegisterTask channel_id locking_key (dc_id cfg))
  | None => mret tt
  end.

(** A channel operation on a value not yet stored in the connection. *)
Definition run_local {K A} (m : ST K ChannelError A) (k : K) : HANDLER (A * K) := λ s,
  match m k with
  | (Ok a, k') => (Ok (a, k'), s)
  | (Err e, _) => (Err (ChannelFailed e), s)
  | (Panic, _) => (Panic, s)
  end.
Definition next_channel_id : HANDLER Z :=
  zoom (λ s, d_channel_id_factory (self s)) (λ i, on_self (d_set_channel_id_factory i))
    (Id_next overflow_checks).
Definition pool_coinbase_output (cfg : DownstreamConfig) (template : NewTemplate) : TxOut :=
  mkTxOut (nt_coinbase_tx_value_remaining template) (coinbase_reward_script cfg).
Definition clamp_hashrate (cfg : DownstreamConfig) (nominal_hash_rate : f32) : f32 :=
  match min_downstream_hashrate cfg with
  | Some min_hashrate =>
      if SFltb nominal_hash_rate min_hashrate then min_hashrate else nominal_hash_rate
  | None => nominal_hash_rate
  end.
Definition prev_hash_message (channel_id job_id : Z) (m : SetNewPrevHashTdp) : SetNewPrevHashMp :=
  mkPrevHashMp channel_id job_id (sp_prev_hash m) (sp_header_timestamp m) (sp_n_bits m).

(** One group channel per connection, created with the first standard channel
    unless the miner asked for standard jobs. *)
Definition ensure_group_channel (template : NewTemplate) (prev : SetNewPrevHashTdp) : HANDLER unit :=
  cfg ← config;
  group ← gets (λ s, d_group_channel (self s));
  match group with
  | None =>
      if requires_standard_jobs cfg then mret tt
      else
        group_channel_id ← next_channel_id;
        let g := Group.new group_channel_id JobStore.new (Some (pool_tag cfg)) None in
        r ← run_local (Group.on_new_template overflow_checks template
              [pool_coinbase_output cfg template]) g;
        r ← run_local (Group.on_set_new_prev_hash prev) r.2;
        modify (on_self (d_set_group (Some r.2)))
  | Some _ => mret tt
  end.

(** The future job of a template, by the two lookups of the source. *)
Definition future_job_of {T E} (template : NewTemplate) (s : DefaultJobStore T)
    : result E (Z * T) :=
  id ← unwrap (future_template_to_job_id s !! nt_template_id template);
  job ← unwrap (future_jobs s !! id);
  Ok (id, job).

Definition open_error (request_id : Z) (e : ChannelError) : option SendTo :=
  match e with
  | InvalidNominalHashrate =>
      Some (Respond (OpenMiningChannelError request_id "invalid-nominal-hashrate"))
  | RequestedMaxTargetOutOfRange =>
      Some (Respond (OpenMiningChannelError request_id "max-target-out-of-range"))
  | _ => None
  end.

Definition handle_open_standard_mining_channel (clock : option Z)
    (incoming : OpenStandardMiningChannel) : HANDLER SendTo :=
  let request_id := os_request_id incoming in
  if negb (utf8_valid (os_user_identity incoming)) then throw InvalidUserIdentity
  else
  cfg ← config;
  if requires_custom_work cfg then
    mret (Respond (OpenMiningChannelError request_id
      "standard-channels-not-supported-for-custom-work"))
  else
  template ← gets (λ s, d_last_future_template (self s));
  prev ← gets (λ s, d_last_new_prev_hash (self s));
  _ ← ensure_group_channel template prev;
  let nominal_hash_rate := clamp_hashrate cfg (os_nominal_hash_rate incoming) in
  extranonce_prefix ← st_map_err ExtranoncePrefixFactoryError
    (zoom (λ s, sh_factory_standard (shared s)) (λ f, on_shared (sh_set_standard f))
       ExtendedExtranonceOps.next_prefix_standard);
  channel_id ← next_channel_id;
  match Standard.new overflow_checks channel_id (os_user_identity incoming) extranonce_prefix
          (Target_from_bytes (os_max_target incoming)) nominal_hash_rate (share_batch_size cfg)
          (shares_per_minute cfg) JobStore.new (Some (pool_tag cfg)) None with
  | Panic => panic
  | Err e =>
      match open_error request_id e with
      | Some reply => mret reply
      | None => throw (ChannelFailed e)
      end
  | Ok standard_channel =>
      group_channel_id ← gets (λ s,
        match d_group_channel (self s) with Some g => gc_group_channel_id g | None => 0 end);
      if 32 <? zlen extranonce_prefix then panic
      else
      let success := OpenStandardMiningChannelSuccess request_id channel_id
        (Target_into_U256 (sc_target standard_channel)) extranonce_prefix group_channel_id in
      _ ← register_with_mint channel_id;
      r ← run_local (Standard.on_new_template overflow_checks template
            [pool_coinbase_output cfg template]) standard_channel;
      job ← lift (future_job_of template (sc_job_store r.2));
      r ← run_local (Standard.on_set_new_prev_hash prev) r.2;
      vardiff ← lift (map_err VardiffFailed (Vardiff.new clock));
      _ ← modify (on_self (λ d, d_set_standard (<[channel_id := r.2]> (d_standard_channels d)) d));
      _ ← modify (on_self (λ d, d_set_vardiff (<[channel_id := vardiff]> (d_vardiff d)) d));
      _ ← modify (on_self (λ d, d_set_group
            (Group.add_standard_channel_id channel_id <$> d_group_channel d) d));
      mret (Multiple [success; ReplyNewMiningJob (sj_job_message job.2);
                      ReplySetNewPrevHash (prev_hash_message channel_id job.1 prev)])
  end.

Definition handle_open_extended_mining_channel (clock : option Z) (m : OpenExtendedMiningChannel)
    : HANDLER SendTo :=
  let request_id := oe_request_id m in
  if negb (utf8_valid (oe_user_identity m)) then throw InvalidUserIdentity
  else
  cfg ← config;
  let nominal_hash_rate := clamp_hashrate cfg (oe_nominal_hash_rate m) in
  prefix ← (λ s,
    match ExtendedExtranonceOps.next_prefix_extended (oe_min_extranonce_size m)
            (sh_factory_extended (shared s)) with
    | (Panic, f) => (Panic, on_shared (sh_set_extended f) s)
    | (Ok p, f) => (Ok (Some p), on_shared (sh_set_extended f) s)
    | (Err _, f) => (Ok None, on_shared (sh_set_extended f) s)
    end) : HANDLER (option bytes);
  match prefix with
  | None => mret (Respond (OpenMiningChannelError request_id "min-extranonce-size-too-large"))
  | Some extranonce_prefix =>
  channel_id ← next_channel_id;
  match Extended.new overflow_checks channel_id (oe_user_identity m) extranonce_prefix
          (Target_from_bytes (oe_max_target m)) nominal_hash_rate true (oe_min_extranonce_size m)
          (share_batch_size cfg) (shares_per_minute cfg) JobStore.new (Some (pool_tag cfg)) None with
  | Panic => panic
  | Err RequestedMinExtranonceSizeTooLarge =>
      mret (Respond (OpenMiningChannelError request_id "min-extranonce-size-too-large"))
  | Err e =>
      match open_error request_id e with
      | Some reply => mret reply
      | None => throw (ChannelFailed e)
      end
  | Ok extended_channel =>
      if 32 <? zlen extranonce_prefix then throw BinaryConversion
      else
      let success := OpenExtendedMiningChannelSuccess request_id channel_id
        (Target_into_U256 (ec_target extended_channel))
        (ec_rollable_extranonce_size extended_channel) extranonce_prefix in
      _ ← register_with_mint channel_id;
      prev ← gets (λ s, d_last_new_prev_hash (self s));
      template ← gets (λ s, d_last_future_template (self s));
      r ← (if requires_custom_work cfg then
             r ← run_local (Extended.on_set_new_prev_hash prev) extended_channel;
             mret ([], r.2)
           else
             r ← run_local (Extended.on_new_template overflow_checks template
                   [pool_coinbase_output cfg template]) extended_channel;
             job ← lift (future_job_of template (ec_job_store r.2));
             r ← run_local (Extended.on_set_new_prev_hash prev) r.2;
             mret ([ReplyNewExtendedMiningJob (ej_job_message job.2);
                    ReplySetNewPrevHash (prev_hash_message channel_id job.1 prev)], r.2))
          : HANDLER (list Reply * ExtendedChannel);
      vardiff ← lift (map_err VardiffFailed (Vardiff.new clock));
      _ ← modify (on_self (λ d, d_set_extended (<[channel_id := r.2]> (d_extended_channels d)) d));
      _ ← modify (on_self (λ d, d_set_vardiff (<[channel_id := vardiff]> (d_vardiff d)) d));
      mret (Multiple (success :: r.1))
  end
  end.

(** The two branches differ in the code of the same refusal. *)
Definition handle_update_channel (m : UpdateChannel) : HANDLER SendTo :=
  let channel_id := uc_channel_id m in
  let max := Target_from_bytes (uc_maximum_target m) in
  standard ← gets (λ s, d_standard_channels (self s) !! channel_id);
  extended ← gets (λ s, d_extended_channels (self s) !! channel_id);
  let finish (out_of_range : string) (res : result ChannelError Target) : HANDLER SendTo :=
    match res with
    | Ok target => mret (Respond (SetTarget channel_id (Target_into_U256 target)))
    | Err InvalidNominalHashrate =>
        mret (Respond (UpdateChannelError channel_id "invalid-nominal-hashrate"))
    | Err RequestedMaxTargetOutOfRange =>
        mret (Respond (UpdateChannelError channel_id out_of_range))
    | Err e => throw (ChannelFailed e)
    | Panic => panic
    end in
  match standard, extended with
  | Some _, _ =>
      res ← standard_entry channel_id
        (_ ← Standard.update_channel overflow_checks (uc_nominal_hash_rate m) (Some max);
         gets sc_target);
      finish "requested-max-target-out-of-range" res
  | None, Some _ =>
      res ← extended_entry channel_id
        (_ ← Extended.update_channel overflow_checks (uc_nominal_hash_rate m) (Some max);
         gets ec_target);
      finish "max-target-out-of-range" res
  | None, None => mret (Respond (UpdateChannelError channel_id invalid_channel))
  end.

(** *** Shares *)

Definition record_share_stats (clock clock' : option Z) (target : Target) : HANDLER unit :=
  cfg ← config;
  stats ← gets (λ s, get_stats (dc_id cfg) (sh_stats (shared s)));
  match stats with
  | None => mret tt
  | Some st =>
      st ← lift (Stats.record_share_with_difficulty clock clock' (bitcoin_difficulty target) st);
      modify (on_shared (λ s, sh_set_stats (<[dc_id cfg := st]> (sh_stats s)) s))
  end.
Definition count_for_vardiff (channel_id : Z) : HANDLER unit :=
  r ← with_entry (λ d, d_vardiff d !! channel_id)
    (λ v d, d_set_vardiff (<[channel_id := v]> (d_vardiff d)) d)
    (Vardiff.increment_shares_since_last_update overflow_checks);
  lift (map_err VardiffFailed r).
(** [solution_sender.try_send]. *)
Definition try_send_solution (sol : SubmitSolution) : HANDLER unit := λ s,
  if sh_solutions_closed (shared s) || (SOLUTION_CAPACITY <=? zlen (sh_solutions (shared s)))
  then (Err FailedToSendSolution, s)
  else (Ok tt, on_shared (λ w, sh_set_solutions (sh_solutions w ++ [sol]) w) s).

Definition share_error_code (e : ShareValidationError) : option string :=
  match e with
  | InvalidShare => Some "invalid-share"%string
  | Stale => Some "stale-share"%string
  | InvalidJobId => Some "invalid-job-id"%string
  | DoesNotMeetTarget => Some "difficulty-too-low"%string
  | DuplicateShare => Some "duplicate-share"%string
  | _ => None
  end.

(** The answer to a validated share; the same in both handlers. *)
Definition answer_share (channel_id sequence_number version ntime nonce : Z)
    (accounting : HANDLER ShareAccounting)
    (res : result ShareValidationError ShareValidationResult) : HANDLER SendTo :=
  cfg ← config;
  let refused share_hash :=
    validate_minimum_share_difficulty (header_hash_bytes share_hash)
      (minimum_share_difficulty_bits cfg) channel_id sequence_number in
  let quote share_hash :=
    send_share_quote_request channel_id sequence_number (header_hash_bytes share_hash) in
  match res with
  | Ok (Valid share_hash) =>
      match refused share_hash with
      | Some reply => mret reply
      | None => _ ← quote share_hash; mret SendNone
      end
  | Ok (ValidWithAcknowledgement share_hash last count sum) =>
      match refused share_hash with
      | Some reply => mret reply
      | None =>
          _ ← quote share_hash;
          mret (Respond (SubmitSharesSuccess channel_id last count sum))
      end
  | Ok (BlockFound share_hash template_id coinbase) =>
      _ ← quote share_hash;
      _ ← match template_id with
          | Some template_id =>
              coinbase_tx ← lift (try_b064k BinaryConversion coinbase);
              try_send_solution (mkSolution template_id version ntime nonce coinbase_tx)
          | None => mret tt
          end;
      a ← accounting;
      mret (Respond (SubmitSharesSuccess channel_id (last_share_sequence_number a)
                       (shares_accepted a) (share_work_sum a)))
  | Err e =>
      match share_error_code e with
      | Some code => mret (Respond (SubmitSharesError channel_id sequence_number code))
      | None => panic
      end
  | Panic => panic
  end.

Definition handle_submit_shares_standard (clock clock' : option Z) (m : SubmitSharesStandard)
    : HANDLER SendTo :=
  let channel_id := ss_channel_id m in
  channel ← gets (λ s, d_standard_channels (self s) !! channel_id);
  match channel with
  | None =>
      mret (Respond (SubmitSharesError channel_id (ss_sequence_number m) invalid_channel))
  | Some _ =>
      vardiff ← gets (λ s, d_vardiff (self s) !! channel_id);
      _ ← lift (unwrap vardiff);
      res ← standard_entry channel_id (Standard.validate_share overflow_checks m);
      _ ← count_for_vardiff channel_id;
      target ← standard_entry (E := PoolHandlerError) channel_id (gets sc_target);
      target ← lift target;
      _ ← record_share_stats clock clock' target;
      answer_share channel_id (ss_sequence_number m) (ss_version m) (ss_ntime m) (ss_nonce m)
        (r ← standard_entry (E := PoolHandlerError) channel_id (gets sc_share_accounting); lift r) res
  end.
Definition handle_submit_shares_extended (clock clock' : option Z) (m : SubmitSharesExtended)
    : HANDLER SendTo :=
  let channel_id := se_channel_id m in
  channel ← gets (λ s, d_extended_channels (self s) !! channel_id);
  match channel with
  | None =>
      mret (Respond (SubmitSharesError channel_id (se_sequence_number m) invalid_channel))
  | Some _ =>
      vardiff ← gets (λ s, d_vardiff (self s) !! channel_id);
      _ ← lift (unwrap vardiff);
      res ← extended_entry channel_id (Extended.validate_share overflow_checks m);
      _ ← count_for_vardiff channel_id;
      target ← extended_entry (E := PoolHandlerError) channel_id (gets ec_target);
      target ← lift target;
      _ ← record_share_stats clock clock' target;
      answer_share channel_id (se_sequence_number m) (se_version m) (se_ntime m) (se_nonce m)
        (r ← extended_entry (E := PoolHandlerError) channel_id (gets ec_share_accounting); lift r) res
  end.

(** *** Custom jobs and closing *)

Definition handle_set_custom_mining_job (m : SetCustomMiningJob) : HANDLER SendTo :=
  outputs ← lift (map_err (λ _, FailedToDeserializeCoinbaseOutputs) (custom_outputs m));
  cfg ← config;
  let missing_script :=
    negb (existsb (λ o, bool_decide (script_pubkey o = coinbase_reward_script cfg)) outputs) in
  if missing_script then
    mret (Respond (SetCustomMiningJobError (cj_channel_id m) (cj_request_id m)
      "pool-payout-script-missing"))
  else
  let channel_id := cj_channel_id m in
  channel ← gets (λ s, d_extended_channels (self s) !! channel_id);
  match channel with
  | None =>
      mret (Respond (SetCustomMiningJobError channel_id (cj_request_id m) invalid_channel))
  | Some _ =>
      res ← extended_entry channel_id (Extended.on_set_custom_mining_job overflow_checks m);
      job_id ← lift (map_err ChannelFailed res);
      mret (Respond (SetCustomMiningJobSuccess channel_id (cj_request_id m) job_id))
  end.

(** The group channel keeps the identifier of a closed standard channel. *)
Definition handle_close_channel (channel_id : Z) : HANDLER SendTo :=
  _ ← modify (on_self (λ d, d_set_extended (delete channel_id (d_extended_channels d)) d));
  _ ← modify (on_self (λ d, d_set_standard (delete channel_id (d_standard_channels d)) d));
  _ ← modify (on_self (λ d, d_set_vardiff (delete channel_id (d_vardiff d)) d));
  mret SendNone.

(** *** Dispatch ([handle_message_mining_deserialized] for the pool, which
    supports group and extended channels and work selection) *)

Inductive MinerMessage : Type :=
  | MinerOpenStandard (m : OpenStandardMiningChannel)
  | MinerOpenExtended (m : OpenExtendedMiningChannel)
  | MinerUpdateChannel (m : UpdateChannel)
  | MinerSubmitStandard (m : SubmitSharesStandard)
  | MinerSubmitExtended (m : SubmitSharesExtended)
  | MinerSetCustomJob (m : SetCustomMiningJob)
  | MinerCloseChannel (channel_id : Z)
  | MinerOther (message_type : Z).

Definition handle_message_mining (clock clock' : option Z) (m : MinerMessage) : HANDLER SendTo :=
  match m with
  | MinerOpenStandard m => handle_open_standard_mining_channel clock m
  | MinerOpenExtended m => handle_open_extended_mining_channel clock m
  | MinerUpdateChannel m => handle_update_channel m
  | MinerSubmitStandard m => handle_submit_shares_standard clock clock' m
  | MinerSubmitExtended m => handle_submit_shares_extended clock clock' m
  | MinerSetCustomJob m => handle_set_custom_mining_job m
  | MinerCloseChannel id => handle_close_channel id
  | MinerOther ty => throw (UnexpectedMessage ty)
  end.
End handlers.

(** ** Sending the answer *)

Inductive SendError : Type :=
  | SenderClosed
  | Sv2ProtocolError (downstream_id : Z) (m : Reply).

(** The output queue of a connection. *)
Definition send (connected : bool) (m : Reply) : ST (list Reply) SendError unit :=
  if connected then modify (λ q, q ++ [m]) else throw SenderClosed.
Definition respond (connected : bool) (downstream_id : Z) (m : Reply) : ST (list Reply) SendError unit :=
  _ ← send connected m;
  match m with
  | OpenMiningChannelError _ _ => throw (Sv2ProtocolError downstream_id m)
  | _ => mret tt
  end.
Fixpoint respond_all (connected : bool) (downstream_id : Z) (l : list Reply)
    : ST (list Reply) SendError unit :=
  match l with
  | [] => mret tt
  | m :: l => _ ← respond connected downstream_id m; respond_all connected downstream_id l
  end.
(** An error of the handler ends in [todo!()]. *)
Definition match_send_to (connected : bool) (downstream_id : Z)
    (send_to : result PoolHandlerError SendTo) : ST (list Reply) SendError unit :=
  match send_to with
  | Ok (Respond m) => respond connected downstream_id m
  | Ok (Multiple l) => respond_all connected downstream_id l
  | Ok SendNone => mret tt
  | Err _ => panic
  | Panic => panic
  end.

(** ** Broadcasting jobs *)

(** Iteration over a hash map: every entry once, in some order. *)
Class MapIter : Type := {
  map_iter {A : Type} : gmap Z A → list (Z * A);
  map_iter_perm {A : Type} (m : gmap Z A) : map_iter m ≡ₚ map_to_list m }.

Section broadcast.
Context `{Bitcoin} `{MapIter} (overflow_checks : bool).
Notation DOWN := (ST Downstream PoolHandlerError).

Definition on_entry {K A} (get : Downstream → option K) (put : K → Downstream → Downstream)
    (m : ST K ChannelError A) : DOWN A := λ d,
  match get d with
  | None => (Panic, d)
  | Some k => let '(r, k') := m k in (map_err ChannelFailed r, put k' d)
  end.
Definition on_standard {A} (id : Z) : ST StandardChannel ChannelError A → DOWN A :=
  on_entry (λ d, d_standard_channels d !! id)
    (λ c d, d_set_standard (<[id := c]> (d_standard_channels d)) d).
Definition on_extended {A} (id : Z) : ST ExtendedChannel ChannelError A → DOWN A :=
  on_entry (λ d, d_extended_channels d !! id)
    (λ c d, d_set_extended (<[id := c]> (d_extended_channels d)) d).
Definition on_group {A} : ST GroupChannel ChannelError A → DOWN A :=
  on_entry d_group_channel (λ g, d_set_group (Some g)).

(** [get_active_job().expect("active job must exist").get_job_id()]. *)
Definition active_id {S T E} `{Job T} (get : S → DefaultJobStore T) : ST S E Z :=
  s ← gets get; job ← lift (unwrap (active_job s)); mret (get_job_id job).

(** The closure that [Pool::on_new_prev_hash] runs for a connection. *)
Definition downstream_on_new_prev_hash (m : SetNewPrevHashTdp) : DOWN (list SetNewPrevHashMp) :=
  _ ← modify (d_set_prev_hash m);
  group ← gets d_group_channel;
  group_messages ←
    match group with
    | None => mret []
    | Some g =>
        job_id ← on_group (_ ← Group.on_set_new_prev_hash m; active_id gc_job_store);
        mret [prev_hash_message (gc_group_channel_id g) job_id m]
    end;
  standards ← gets d_standard_channels;
  standard_messages ← for_each (λ '(id, _),
    _ ← on_standard id (Standard.on_set_new_prev_hash m);
    match group with
    | None =>
        job_id ← on_standard id (active_id sc_job_store);
        mret [prev_hash_message id job_id m]
    | Some _ => mret []
    end) (map_iter standards);
  extendeds ← gets d_extended_channels;
  custom ← gets (λ d, requires_custom_work (d_config d));
  extended_messages ← for_each (λ '(id, _),
    _ ← on_extended id (Extended.on_set_new_prev_hash m);
    match custom with
    | true => mret []
    | false =>
        job_id ← on_extended id (active_id ec_job_store);
        mret [prev_hash_message id job_id m]
    end) (map_iter extendeds);
  mret (group_messages ++ standard_messages ++ extended_messages).

(** The message of the job a template gave: the future job found through its
    template, or the active job. *)
Definition job_of {S T E} (get : S → DefaultJobStore T) (template : NewTemplate) : ST S E T :=
  s ← gets get;
  if nt_future_template template then
    j ← lift (future_job_of template s); mret j.2
  else lift (unwrap (active_job s)).

(** The two closures that [Pool::on_new_template] runs for a connection. *)
Definition standard_job_messages (template : NewTemplate) : DOWN (list NewMiningJob) :=
  cfg ← gets d_config;
  group ← gets d_group_channel;
  standards ← gets d_standard_channels;
  for_each (λ '(id, _),
    match group with
    | Some _ => mret []
    | None =>
        job ← on_standard id
          (_ ← Standard.on_new_template overflow_checks template [pool_coinbase_output cfg template];
           job_of sc_job_store template);
        mret [sj_job_message job]
    end) (map_iter standards).
Definition extended_job_messages (template : NewTemplate) : DOWN (list NewExtendedMiningJob) :=
  cfg ← gets d_config;
  if requires_custom_work cfg then mret []
  else
  let outputs := [pool_coinbase_output cfg template] in
  group ← gets d_group_channel;
  group_messages ←
    match group with
    | None => mret []
    | Some _ =>
        job ← on_group (_ ← Group.on_new_template overflow_checks template outputs;
                        job_of gc_job_store template);
        standards ← gets d_standard_channels;
        _ ← for_each (λ '(id, _), _ ← on_standard id (Standard.on_group_channel_job job); mret [tt])
              (map_iter standards);
        mret [ej_job_message job]
    end;
  extendeds ← gets d_extended_channels;
  extended_messages ← for_each (λ '(id, _),
    job ← on_extended id
      (_ ← Extended.on_new_template overflow_checks template outputs; job_of ec_job_store template);
    mret [ej_job_message job]) (map_iter extendeds);
  mret (group_messages ++ extended_messages).
Definition downstream_on_new_template (template : NewTemplate) : DOWN (list Reply) :=
  _ ← (if nt_future_template template then modify (d_set_template template) else mret tt);
  standard ← standard_job_messages template;
  extended ← extended_job_messages template;
  mret ((ReplyNewMiningJob <$> standard) ++ (ReplyNewExtendedMiningJob <$> extended)).

(** ** The variable-difficulty round *)

(** [run_vardiff_on_standard_channel] and [run_vardiff_on_extended_channel]: a
    failed update is only logged.  A round reads the clock anew for each
    channel. *)
Definition run_vardiff {K} (hashrate : K → f32) (target : K → Target) (spm : K → f32)
    (update : f32 → option Target → ST K ChannelError unit) (channel_id : Z)
    (clock clock' : option Z) : ST (K * VardiffState) PoolHandlerError (list (Z * Target)) :=
  λ '(k, v),
  match Vardiff.try_vardiff overflow_checks clock clock' (hashrate k) (target k) (spm k) v with
  | (Panic, v) => (Panic, (k, v))
  | (Err _, v) => (Ok [], (k, v))
  | (Ok None, v) => (Ok [], (k, v))
  | (Ok (Some new_hashrate), v) =>
      match update new_hashrate None k with
      | (Ok _, k) => (Ok [(channel_id, target k)], (k, v))
      | (Err _, k) => (Ok [], (k, v))
      | (Panic, k) => (Panic, (k, v))
      end
  end.
Definition vardiff_channel (clocks : Z → option Z * option Z) (channel_id : Z)
    : DOWN (list (Z * Target)) :=
  let '(clock, clock') := clocks channel_id in
  extended ← (λ d,
    match d_extended_channels d !! channel_id, d_vardiff d !! channel_id with
    | Some c, Some v =>
        let '(r, (c, v)) :=
          run_vardiff ec_nominal_hashrate ec_target ec_expected_share_per_minute
            (Extended.update_channel overflow_checks) channel_id clock clock' (c, v) in
        (r, d_set_vardiff (<[channel_id := v]> (d_vardiff d))
              (d_set_extended (<[channel_id := c]> (d_extended_channels d)) d))
    | _, _ => (Ok [], d)
    end) : DOWN (list (Z * Target));
  standard ← (λ d,
    match d_standard_channels d !! channel_id, d_vardiff d !! channel_id with
    | Some c, Some v =>
        let '(r, (c, v)) :=
          run_vardiff sc_nominal_hashrate sc_target sc_expected_share_per_minute
            (Standard.update_channel overflow_checks) channel_id clock clock' (c, v) in
        (r, d_set_vardiff (<[channel_id := v]> (d_vardiff d))
              (d_set_standard (<[channel_id := c]> (d_standard_channels d)) d))
    | _, _ => (Ok [], d)
    end) : DOWN (list (Z * Target));
  mret (extended ++ standard).
(** The [SetTarget] messages of a round. *)
Definition vardiff_round (clocks : Z → option Z * option Z) : DOWN (list Reply) :=
  states ← gets d_vardiff;
  updates ← for_each (λ '(id, _), vardiff_channel clocks id) (map_iter states);
  mret ((λ u, SetTarget u.1 (Target_into_U256 u.2)) <$> updates).
End broadcast.

(** ** The pool *)

Record Pool : Type := mkPool {
  p_downstreams : gmap Z Downstream;
  p_downstream_id_factory : Z;
  p_shared : Shared;
  p_last_future_template : option NewTemplate;
  p_last_new_prev_hash : option SetNewPrevHashTdp;
  p_new_template_processed : bool }.
Definition p_set_downstreams x p :=
  mkPool x (p_downstream_id_factory p) (p_shared p) (p_last_future_template p)
    (p_last_new_prev_hash p) (p_new_template_processed p).
Definition p_set_shared x p :=
  mkPool (p_downstreams p) (p_downstream_id_factory p) x (p_last_future_template p)
    (p_last_new_prev_hash p) (p_new_template_processed p).

(** [Pool::start]: eight bytes of extranonce prefix, the first two of them the
    server's identifier. *)
Definition extranonce_factory (server_id : Z) : result ExtendedExtranonceError ExtendedExtranonce :=
  ExtendedExtranonceOps.new (mkRange 0 0) (mkRange 0 8) (mkRange 8 MAX_EXTRANONCE_LEN)
    (Some (to_be_bytes 2 server_id)).
Definition Pool_new {E} (server_id : Z) : result E Pool :=
  match extranonce_factory server_id with
  | Ok f => Ok (mkPool ∅ Id_new (mkShared f f [] false ∅ []) None None false)
  | _ => Panic
  end.

Section pool.
Context `{Bitcoin} `{MapIter} (overflow_checks : bool).
Notation POOL := (ST Pool PoolHandlerError).

Definition next_downstream_id : POOL Z := λ p,
  let '(r, i) := Id_next overflow_checks (p_downstream_id_factory p) in
  (r, mkPool (p_downstreams p) i (p_shared p) (p_last_future_template p) (p_last_new_prev_hash p)
        (p_new_template_processed p)).
(** [Downstream::new] after the connection's set-up, once a chain tip is known,
    and its insertion by [accept_incoming_connection_]. *)
Definition accept_downstream (cfg : Z → DownstreamConfig) : POOL Z :=
  id ← next_downstream_id;
  template ← gets p_last_future_template;
  template ← lift (unwrap template);
  prev ← gets p_last_new_prev_hash;
  prev ← lift (unwrap prev);
  _ ← modify (λ p, p_set_shared (sh_set_stats (register_downstream id (sh_stats (p_shared p)))
        (p_shared p)) p);
  _ ← modify (λ p, p_set_downstreams
        (<[id := mkDownstream (cfg id) Id_new ∅ ∅ ∅ None template prev]> (p_downstreams p)) p);
  mret id.
(** [Downstream::next]: a message of a connection, and the answers it queues. *)
Definition pool_message (clock clock' : option Z) (id : Z) (m : MinerMessage) : POOL (list Reply) := λ p,
  match p_downstreams p !! id with
  | None => (Ok [], p)
  | Some d =>
      let '(r, c) := handle_message_mining overflow_checks clock clock' m (mkConn d (p_shared p)) in
      let p := p_set_shared (shared c) (p_set_downstreams (<[id := self c]> (p_downstreams p)) p) in
      match match_send_to true id r [] with
      | (Panic, _) => (Panic, p)
      | (_, q) => (Ok q, p)
      end
  end.
Definition on_downstream {A} (id : Z) (m : ST Downstream PoolHandlerError A) : POOL A := λ p,
  match p_downstreams p !! id with
  | None => (Panic, p)
  | Some d => let '(r, d) := m d in (r, p_set_downstreams (<[id := d]> (p_downstreams p)) p)
  end.
Definition pool_on_new_prev_hash (m : SetNewPrevHashTdp) : POOL (list (Z * Reply)) :=
  _ ← modify (λ p, mkPool (p_downstreams p) (p_downstream_id_factory p) (p_shared p)
        (p_last_future_template p) (Some m) (p_new_template_processed p));
  downstreams ← gets p_downstreams;
  for_each (λ '(id, _),
    l ← on_downstream id (downstream_on_new_prev_hash m);
    mret ((λ x, (id, ReplySetNewPrevHash x)) <$> l)) (map_iter downstreams).
Definition pool_on_new_template (template : NewTemplate) : POOL (list (Z * Reply)) :=
  downstreams ← gets p_downstreams;
  l ← for_each (λ '(id, _),
    l ← on_downstream id (downstream_on_new_template overflow_checks template);
    mret ((λ x, (id, x)) <$> l)) (map_iter downstreams);
  _ ← (if nt_future_template template then
         modify (λ p, mkPool (p_downstreams p) (p_downstream_id_factory p) (p_shared p)
           (Some template) (p_last_new_prev_hash p) true)
       else mret tt);
  mret l.
Definition remove_downstream (id : Z) : POOL unit :=
  _ ← modify (λ p, p_set_shared (sh_set_stats (unregister_downstream id (sh_stats (p_shared p)))
        (p_shared p)) p);
  modify (λ p, p_set_downstreams (delete id (p_downstreams p)) p).
End pool.
