(* ===== verification/DownstreamFacts.v ===== *)
(** * Invariants of a miner connection

    What the share handlers rely on (every channel has a chain tip, a
    difficulty controller, jobs that allow version rolling and a usable pool
    tag) holds of every connection, whatever messages, broadcasts and
    difficulty rounds it has seen and however they ended. *)

From Stdlib Require Import String SpecFloat.
From stdpp Require Import gmap.
From S2P Require Import Prelude Mining Difficulty Bitcoin Jobs JobFacts Channels ChannelProperties StandardProperties Vardiff PoolStats Utf8 PoolQuotes Downstream.
#[local] Open Scope Z_scope.
#[local] Open Scope list_scope.

(** ** Channels of the pool *)

Section channels.
Context `{BitcoinLaws} (chk : bool).

Definition ext_ready (c : ExtendedChannel) : Prop :=
  is_Some (ec_chain_tip c) ∧ jf_version_rolling_allowed (ec_job_factory c) = true ∧
  store_all rolls (ec_job_store c) ∧ wrap 32 (Channels.share_batch_size (ec_share_accounting c)) ≠ 0.
Definition std_ready (c : StandardChannel) : Prop :=
  is_Some (sc_chain_tip c) ∧ (∃ tag, op_pushbytes_pool_miner_tag (sc_job_factory c) = Ok tag) ∧
  wrap 32 (Channels.share_batch_size (sc_share_accounting c)) ≠ 0.
(** Before the first chain tip. *)
Definition ext_fresh (c : ExtendedChannel) : Prop :=
  jf_version_rolling_allowed (ec_job_factory c) = true ∧
  store_all rolls (ec_job_store c) ∧ wrap 32 (Channels.share_batch_size (ec_share_accounting c)) ≠ 0.
Definition std_fresh (c : StandardChannel) : Prop :=
  wrap 32 (Channels.share_batch_size (sc_share_accounting c)) ≠ 0.

Lemma ext_make_job_keeps (I : ExtendedChannel → Prop) tip t outs :
  (∀ c f, I c → same_flags (ec_job_factory c) f → I (ec_set_job_factory f c)) →
  keeps I (Extended.make_job chk tip t outs).
Proof.
  intros HI. unfold Extended.make_job. do 2 (apply keeps_bind; [apply keeps_gets|intros ?]).
  apply keeps_map_err. intros c Hc. unfold zoom.
  pose proof (keeps_new_extended_job chk _ a tip a0 t outs _ (same_flags_refl (ec_job_factory c))) as Hk.
  destruct (new_extended_job _ _ _ _ _ _ _) as [r f]. by apply HI.
Qed.
Lemma ext_make_job_rolls tip t outs c j c' :
  jf_version_rolling_allowed (ec_job_factory c) = true →
  Extended.make_job chk tip t outs c = (Ok j, c') → rolls j.
Proof.
  intros Hf E. unfold Extended.make_job in E. inv_st. by eapply new_extended_job_rolls.
Qed.
Lemma ext_new_template_keeps (I : ExtendedChannel → Prop) t outs :
  (∀ c, I c → jf_version_rolling_allowed (ec_job_factory c) = true) →
  (∀ c f, I c → same_flags (ec_job_factory c) f → I (ec_set_job_factory f c)) →
  (∀ c s, I c → (store_all rolls (ec_job_store c) → store_all rolls s) → I (ec_set_job_store s c)) →
  keeps I (Extended.on_new_template chk t outs).
Proof.
  intros Hv Hf Hs. unfold Extended.on_new_template. destruct (nt_future_template t).
  - apply (keeps_bind_ok _ rolls); [by apply ext_make_job_keeps|intros; by eapply ext_make_job_rolls; eauto|].
    intros j Hj. apply keeps_modify. intros c Hc. apply Hs; [done|]. by apply store_all_future.
  - apply keeps_bind; [apply keeps_gets|]. intros [tip|]; [|apply keeps_throw].
    apply (keeps_bind_ok _ rolls); [by apply ext_make_job_keeps|intros; by eapply ext_make_job_rolls; eauto|].
    intros j Hj. apply keeps_modify. intros c Hc. apply Hs; [done|]. by apply store_all_active.
Qed.
Lemma ext_ready_template t outs : keeps ext_ready (Extended.on_new_template chk t outs).
Proof.
  apply ext_new_template_keeps.
  - by intros c (_ & Hv & _).
  - intros c f (Ht & Hv & Hs & Hb) (Hf & _). split_and!; try done. by rewrite <- Hv.
  - intros c s (Ht & Hv & Hs & Hb) Hn. split_and!; try done. by apply Hn.
Qed.
Lemma ext_fresh_template t outs : keeps ext_fresh (Extended.on_new_template chk t outs).
Proof.
  apply ext_new_template_keeps.
  - by intros c (Hv & _).
  - intros c f (Hv & Hs & Hb) (Hf & _). split_and!; try done. by rewrite <- Hv.
  - intros c s (Hv & Hs & Hb) Hn. split_and!; try done. by apply Hn.
Qed.
Lemma ext_prev_hash_fresh m : keeps ext_fresh (Extended.on_set_new_prev_hash m).
Proof.
  intros c (Hv & Hs & Hb). unfold Extended.on_set_new_prev_hash. case_bool_decide.
  - split; [done|split; [|done]]. by apply (store_all_stale rolls).
  - pose proof (store_all_activate rolls (sp_template_id m) (sp_header_timestamp m) (ec_job_store c)
      (rolls_activate _) Hs) as Ha.
    destruct (JobStore.activate_future_job _ _ _) as [[] store]; exact (conj Hv (conj Ha Hb)).
Qed.
Lemma ext_prev_hash_tip m c c' :
  Extended.on_set_new_prev_hash m c = (Ok tt, c') → is_Some (ec_chain_tip c').
Proof.
  unfold Extended.on_set_new_prev_hash. case_bool_decide; [by intros [= <-]; eexists|].
  destruct (JobStore.activate_future_job _ _ _) as [[] store]; [|done]. intros [= <-]. by eexists.
Qed.
Lemma ext_ready_prev_hash m : keeps ext_ready (Extended.on_set_new_prev_hash m).
Proof.
  intros c (Ht & Hc). pose proof (ext_prev_hash_fresh m c Hc) as Hf. split; [|done].
  unfold Extended.on_set_new_prev_hash. case_bool_decide; [by eexists|].
  destruct (JobStore.activate_future_job _ _ _) as [[] store]; [by eexists|done].
Qed.
Lemma ext_ready_custom m : keeps ext_ready (Extended.on_set_custom_mining_job chk m).
Proof.
  unfold Extended.on_set_custom_mining_job. apply keeps_bind; [apply keeps_gets|intros p].
  apply (keeps_bind_ok _ rolls).
  - apply keeps_map_err. intros c (Ht & Hv & Hs & Hb). unfold zoom.
    pose proof (keeps_custom_job chk _ m p _ (same_flags_refl (ec_job_factory c))) as (Hk & _).
    destruct (new_extended_job_from_custom_job _ _ _ _) as [r f]. split_and!; try done. by rewrite <- Hv.
  - intros c j c' (_ & Hv & _) E. inv_st. by eapply custom_job_rolls.
  - intros j Hj. apply keeps_bind; [|intros ?; apply keeps_bind; [|intros ?; apply keeps_ret]];
      apply keeps_modify; intros c (Ht & Hv & Hs & Hb).
    + split; [done|split; [done|split; [by apply store_all_active|done]]].
    + split; [by eexists|done].
Qed.
Lemma ext_ready_update h mt : keeps ext_ready (Extended.update_channel chk h mt).
Proof. unfold Extended.update_channel. keeps_all. by apply keeps_modify. Qed.

(** *** Shares *)

Lemma account_panics {E} target seq hash a a' :
  account (E := E) chk target seq hash a = (Panic, a') → chk = true.
Proof.
  unfold account, Accounting.update_share_accounting, add_over. destruct chk; done.
Qed.
Lemma accept_share_panics target seq hash a a' :
  wrap 32 (Channels.share_batch_size a) ≠ 0 →
  accept_share chk target seq hash a = (Panic, a') → chk = true.
Proof.
  intros Hb. unfold accept_share. destruct (Target_le _ _); [|done]. rewrite st_gets_bind.
  destruct (Accounting.is_share_seen _ _); [done|].
  destruct (account_cases (E := ShareValidationError) chk target seq hash a) as [E|(a1 & E & Ha)].
  { intros _. by eapply account_panics. }
  rewrite (st_bind_ok _ _ _ _ _ E), st_modify_bind, !st_gets_bind.
  apply (accounted_best_diff _ _ _ _ _ _ (target_to_difficulty (Target_from_bytes hash))) in Ha.
  destruct Ha as (_ & _ & _ & _ & Hb'). unfold Accounting.should_acknowledge. rewrite Hb'.
  rewrite (proj2 (Z.eqb_neq _ 0)) by done. by rewrite st_lift_bind.
Qed.

Lemma accept_share_batch target seq hash a r a' :
  accept_share chk target seq hash a = (r, a') →
  Channels.share_batch_size a' = Channels.share_batch_size a.
Proof.
  unfold accept_share. destruct (Target_le _ _); [|by intros [= _ <-]]. rewrite st_gets_bind.
  destruct (Accounting.is_share_seen _ _); [by intros [= _ <-]|].
  destruct (account_cases (E := ShareValidationError) chk target seq hash a) as [E|(a1 & E & Ha)].
  { unfold mbind, ST_bind. rewrite E. by intros [= _ <-]. }
  rewrite (st_bind_ok _ _ _ _ _ E), st_modify_bind, !st_gets_bind.
  apply (accounted_best_diff _ _ _ _ _ _ (target_to_difficulty (Target_from_bytes hash))) in Ha.
  destruct Ha as (_ & _ & _ & _ & Hb'). unfold mbind, ST_bind, lift.
  destruct (Accounting.should_acknowledge _); by intros [= _ <-].
Qed.
(** What a channel's validation may answer to the handler. *)
Definition answerable (r : result ShareValidationError ShareValidationResult) : Prop :=
  match r with
  | Ok _ => True
  | Err e => is_Some (share_error_code e)
  | Panic => chk = true
  end.

Lemma find_job_error {T} `{Job T} id (s : DefaultJobStore T) e :
  find_job id s = Err e → is_Some (share_error_code e).
Proof.
  unfold find_job. case_bool_decide; [intros [= <-]; by eexists|].
  destruct (negb _ && negb _ && negb _); [intros [= <-]; by eexists|].
  destruct (match active_job s with Some _ => _ | None => _ end).
  { by destruct (active_job s). }
  case_bool_decide as Hp; [by destruct (past_jobs s !! id)|]. by destruct (stale_jobs s !! id).
Qed.
Lemma accept_share_answerable target seq hash a :
  wrap 32 (Channels.share_batch_size a) ≠ 0 → answerable (accept_share chk target seq hash a).1.
Proof.
  intros Hb. destruct (accept_share chk target seq hash a) as [[v|e|] a'] eqn:E; cbn; [done| |].
  - apply accept_share_cases in E. destruct e; try done; by eexists.
  - by eapply accept_share_panics.
Qed.
(** The answer to a share that is counted. *)
Definition accepted (h : bytes) (rs : result ShareValidationError ShareValidationResult) : Prop :=
  rs = Ok (Valid h) ∨ ∃ last count sum, rs = Ok (ValidWithAcknowledgement h last count sum).
(** A hash within the target is refused only when it was seen before. *)
Lemma accept_share_judged target seq hash a rs a' :
  accept_share chk target seq hash a = (rs, a') → rs ≠ Panic →
  Target_le (Target_from_bytes hash) target = true →
  if bool_decide (hash ∈ seen_shares a) then rs = Err DuplicateShare else accepted hash rs.
Proof.
  intros E Hp Hle. apply accept_share_cases in E.
  destruct rs as [v|e|]; [| |done]; [destruct E as (_ & Hs & _ & ->)|destruct e; try done].
  - rewrite bool_decide_eq_false_2 by done. destruct (_ =? 0); [right; eauto|by left].
  - destruct E as [_ ?]. congruence.
  - destruct E as (_ & _ & Hs). by rewrite bool_decide_eq_true_2.
Qed.

Lemma merkle_root_zlen p s en path root :
  merkle_root_from_path p s en path = Some root → zlen root = 32.
Proof.
  unfold merkle_root_from_path. destruct (tx_deserialize _); [|done]. intros [= <-].
  apply merkle_root_len, txid_len.
Qed.
Lemma ext_share_answerable s c : ext_ready c → answerable (Extended.validate_share chk s c).1.
Proof.
  intros ([tip Ht] & Hv & Hs & Hb). rewrite ext_validate_eq.
  destruct (find_job _ _) as [job|e|] eqn:Ej; cbn [fst].
  2: { exact (find_job_error _ _ _ Ej). }
  2: { by apply find_job_no_panic in Ej. }
  cbn zeta. destruct (merkle_root_from_path _ _ _ _) as [root|] eqn:Er; [|by eexists].
  rewrite (merkle_root_zlen _ _ _ _ _ Er). cbn [Z.eqb negb]. rewrite Ht.
  rewrite (store_all_find rolls _ _ _ Hs Ej). cbn [negb andb].
  destruct (is_met_by _ _).
  - match goal with |- context [account chk ?t ?q ?h ?a] =>
      destruct (account_cases (E := ShareValidationError) chk t q h a) as [E|(a' & E & _)];
      rewrite E; [|done] end.
    by eapply account_panics.
  - pose proof (accept_share_answerable (ec_target c) (se_sequence_number s)
      (block_hash (share_header (se_version s) (se_ntime s) (se_nonce s) root tip)) _ Hb) as Ha.
    by destruct (accept_share _ _ _ _ _).
Qed.

Lemma ext_ready_share s : keeps ext_ready (Extended.validate_share chk s).
Proof.
  intros c (Ht & Hv & Hs & Hb). rewrite ext_validate_eq.
  destruct (find_job _ _) as [job|e|]; [|by split_and!|by split_and!]. cbn zeta.
  destruct (merkle_root_from_path _ _ _ _) as [root|]; [|by split_and!].
  destruct (negb (zlen root =? 32)); [by split_and!|].
  destruct (ec_chain_tip c) as [tip|] eqn:Et; [|by split_and!; rewrite ?Et].
  destruct (_ && _); [by split_and!; rewrite ?Et|]. destruct (is_met_by _ _).
  - match goal with |- context [account chk ?t ?q ?h ?a] =>
      destruct (account_cases (E := ShareValidationError) chk t q h a) as [E|(a' & E & Ha)];
      rewrite E end; unfold ext_ready; cbn; rewrite Et; [by split_and!|].
    destruct Ha as (_ & _ & _ & _ & ->). by split_and!.
  - destruct (accept_share _ _ _ _ _) as [r a] eqn:Ea. unfold ext_ready. cbn. rewrite Et.
    rewrite (accept_share_batch _ _ _ _ _ _ Ea). by split_and!.
Qed.

(** *** Standard channels *)

Lemma std_share_answerable s c : std_ready c → answerable (Standard.validate_share chk s c).1.
Proof.
  intros ([tip Ht] & [tag Htag] & Hb). rewrite std_validate_eq.
  destruct (find_job _ _) as [job|e|] eqn:Ej; cbn [fst].
  2: { exact (find_job_error _ _ _ Ej). }
  2: { by apply find_job_no_panic in Ej. }
  rewrite Ht, Htag. cbn zeta. destruct (is_met_by _ _).
  - match goal with |- context [account chk ?t ?q ?h ?a] =>
      destruct (account_cases (E := ShareValidationError) chk t q h a) as [E|(a' & E & _)];
      rewrite E; [|done] end.
    by eapply account_panics.
  - match goal with |- context [accept_share chk ?t ?q ?h ?a] =>
      pose proof (accept_share_answerable t q h a Hb) as Ha; by destruct (accept_share chk t q h a) end.
Qed.
Lemma std_ready_share s : keeps std_ready (Standard.validate_share chk s).
Proof.
  intros c (Ht & Htag & Hb). rewrite std_validate_eq.
  destruct (find_job _ _) as [job|e|]; [|by split_and!|by split_and!].
  destruct (sc_chain_tip c) as [tip|] eqn:Et; [|by split_and!; rewrite ?Et]. cbn zeta.
  destruct (is_met_by _ _).
  - match goal with |- context [account chk ?t ?q ?h ?a] =>
      destruct (account_cases (E := ShareValidationError) chk t q h a) as [E|(a' & E & Ha)];
      rewrite E end; unfold std_ready; cbn; rewrite Et; [by split_and!|].
    destruct Ha as (_ & _ & _ & _ & ->). by split_and!.
  - destruct (accept_share _ _ _ _ _) as [r a] eqn:Ea. unfold std_ready. cbn. rewrite Et.
    rewrite (accept_share_batch _ _ _ _ _ _ Ea). by split_and!.
Qed.

Lemma std_make_job_keeps (I : StandardChannel → Prop) tip t outs :
  (∀ c f, I c → same_flags (sc_job_factory c) f → I (sc_set_job_factory f c)) →
  keeps I (Standard.make_job chk tip t outs).
Proof.
  intros HI. unfold Standard.make_job. do 2 (apply keeps_bind; [apply keeps_gets|intros ?]).
  apply keeps_map_err. intros c Hc. unfold zoom.
  pose proof (keeps_new_standard_job chk _ a tip a0 t outs _ (same_flags_refl (sc_job_factory c))) as Hk.
  destruct (new_standard_job _ _ _ _ _ _ _) as [r f]. by apply HI.
Qed.
Lemma std_template_keeps (I : StandardChannel → Prop) t outs :
  (∀ c f, I c → same_flags (sc_job_factory c) f → I (sc_set_job_factory f c)) →
  (∀ c s, I c → I (sc_set_job_store s c)) → keeps I (Standard.on_new_template chk t outs).
Proof.
  intros Hf Hs. pose proof (λ tip, std_make_job_keeps I tip t outs Hf) as Hm.
  unfold Standard.on_new_template. keeps_all; apply keeps_modify; auto.
Qed.
Lemma std_ready_factory c f :
  std_ready c → same_flags (sc_job_factory c) f → std_ready (sc_set_job_factory f c).
Proof.
  intros (Ht & [tag Htag] & Hb) Hf. split; [done|split; [|done]]. exists tag. cbn.
  by rewrite (same_flags_tag _ _ Hf).
Qed.
Lemma std_ready_template t outs : keeps std_ready (Standard.on_new_template chk t outs).
Proof. apply std_template_keeps; [apply std_ready_factory|done]. Qed.
Lemma std_fresh_template t outs : keeps std_fresh (Standard.on_new_template chk t outs).
Proof. by apply std_template_keeps. Qed.
(** A template is turned into a job only with a usable tag. *)
Lemma std_template_tag t outs c c' :
  Standard.on_new_template chk t outs c = (Ok tt, c') →
  ∃ tag, op_pushbytes_pool_miner_tag (sc_job_factory c') = Ok tag.
Proof.
  assert (∀ tip j c1, Standard.make_job chk tip t outs c = (Ok j, c1) →
    ∃ tag, op_pushbytes_pool_miner_tag (sc_job_factory c1) = Ok tag) as Hm.
  { intros tip j c1 E. unfold Standard.make_job in E. inv_st.
    match goal with H : new_standard_job _ ?id _ ?p _ _ ?f = _ |- _ =>
      pose proof (keeps_new_standard_job chk f id tip p t outs f (same_flags_refl f)) as Hk;
      rewrite H in Hk; apply new_standard_job_tag in H as [tag Htag] end.
    exists tag. etrans; [exact (same_flags_tag _ _ Hk)|done]. }
  unfold Standard.on_new_template. destruct (nt_future_template t).
  - intros E. inv_st. match goal with H : Standard.make_job _ _ _ _ _ = _ |- _ => exact (Hm _ _ _ H) end.
  - rewrite st_gets_bind. destruct (sc_chain_tip c); [|done]. intros E. inv_st.
    match goal with H : Standard.make_job _ _ _ _ _ = _ |- _ => exact (Hm _ _ _ H) end.
Qed.
Lemma std_ready_group_job j : keeps std_ready (Standard.on_group_channel_job j).
Proof. unfold Standard.on_group_channel_job. keeps_all. by apply keeps_modify. Qed.
Lemma std_prev_hash_frame m c :
  sc_job_factory (Standard.on_set_new_prev_hash m c).2 = sc_job_factory c ∧
  sc_share_accounting (Standard.on_set_new_prev_hash m c).2 = sc_share_accounting c.
Proof.
  unfold Standard.on_set_new_prev_hash. case_bool_decide; [done|].
  by destruct (JobStore.activate_future_job _ _ _) as [[] store].
Qed.
Lemma std_prev_hash_tip m c c' :
  Standard.on_set_new_prev_hash m c = (Ok tt, c') → is_Some (sc_chain_tip c').
Proof.
  unfold Standard.on_set_new_prev_hash. case_bool_decide; [done|].
  destruct (JobStore.activate_future_job _ _ _) as [[] store]; [|done]. intros [= <-]. by eexists.
Qed.
Lemma std_ready_prev_hash m : keeps std_ready (Standard.on_set_new_prev_hash m).
Proof.
  intros c (Ht & Htag & Hb). destruct (std_prev_hash_frame m c) as [Ef Ea].
  unfold std_ready. rewrite Ef, Ea. split; [|done].
  unfold Standard.on_set_new_prev_hash. case_bool_decide; [done|].
  destruct (JobStore.activate_future_job _ _ _) as [[] store]; [by eexists|done].
Qed.
Lemma std_ready_update h mt : keeps std_ready (Standard.update_channel chk h mt).
Proof. unfold Standard.update_channel. keeps_all. by apply keeps_modify. Qed.
End channels.

(** ** Connections *)

Definition conn_ok `{Bitcoin} (d : Downstream) : Prop :=
  (∀ id c, d_extended_channels d !! id = Some c → ext_ready c ∧ is_Some (d_vardiff d !! id)) ∧
  (∀ id c, d_standard_channels d !! id = Some c → std_ready c ∧ is_Some (d_vardiff d !! id)) ∧
  wrap 32 (share_batch_size (d_config d)) ≠ 0.

Section connection.
Context `{BitcoinLaws} (chk : bool).
Notation conn_inv := (λ s : Conn, conn_ok (self s)).

Lemma is_Some_insert_vardiff (m : gmap Z VardiffState) id v k :
  is_Some (m !! k) → is_Some (<[id := v]> m !! k).
Proof. rewrite lookup_insert_is_Some. destruct (decide (id = k)); auto. Qed.
Lemma conn_ok_extended d id c :
  conn_ok d → ext_ready c → is_Some (d_vardiff d !! id) →
  conn_ok (d_set_extended (<[id := c]> (d_extended_channels d)) d).
Proof.
  intros (He & Hs & Hb) Hc Hv. split; [|done]. intros k c' Hk. cbn in Hk.
  apply lookup_insert_Some in Hk as [[<- <-]|[_ Hk]]; [done|]. by apply He.
Qed.
Lemma conn_ok_standard d id c :
  conn_ok d → std_ready c → is_Some (d_vardiff d !! id) →
  conn_ok (d_set_standard (<[id := c]> (d_standard_channels d)) d).
Proof.
  intros (He & Hs & Hb) Hc Hv. split; [done|split; [|done]]. intros k c' Hk. cbn in Hk.
  apply lookup_insert_Some in Hk as [[<- <-]|[_ Hk]]; [done|]. by apply Hs.
Qed.
Lemma conn_ok_vardiff d id v :
  conn_ok d → conn_ok (d_set_vardiff (<[id := v]> (d_vardiff d)) d).
Proof.
  intros (He & Hs & Hb). split; [|split; [|done]]; intros k c Hk;
    [destruct (He k c Hk)|destruct (Hs k c Hk)]; (split; [done|by apply is_Some_insert_vardiff]).
Qed.

Lemma keeps_extended_entry {E E' A} id (m : ST ExtendedChannel E A) :
  keeps ext_ready m → keeps (E := E') conn_inv (extended_entry id m).
Proof.
  intros Hm s Hs. unfold extended_entry, with_entry.
  destruct (d_extended_channels (self s) !! id) as [c|] eqn:Ec; [|done].
  destruct (proj1 Hs id c Ec) as [Hc Hv]. specialize (Hm c Hc).
  destruct (m c) as [r c']. destruct r; by apply conn_ok_extended.
Qed.
Lemma keeps_standard_entry {E E' A} id (m : ST StandardChannel E A) :
  keeps std_ready m → keeps (E := E') conn_inv (standard_entry id m).
Proof.
  intros Hm s Hs. unfold standard_entry, with_entry.
  destruct (d_standard_channels (self s) !! id) as [c|] eqn:Ec; [|done].
  destruct (proj1 (proj2 Hs) id c Ec) as [Hc Hv]. specialize (Hm c Hc).
  destruct (m c) as [r c']. destruct r; by apply conn_ok_standard.
Qed.
Lemma keeps_count_for_vardiff id : keeps conn_inv (count_for_vardiff chk id).
Proof.
  unfold count_for_vardiff. apply keeps_bind; [|intros r; apply keeps_lift].
  intros s Hs. unfold with_entry. destruct (d_vardiff (self s) !! id) as [v|]; [|done].
  destruct (Vardiff.increment_shares_since_last_update chk v) as [r v'].
  destruct r; by apply conn_ok_vardiff.
Qed.
Lemma keeps_shared {E} f : keeps (E := E) conn_inv (modify (on_shared f)).
Proof. by intros s. Qed.
Lemma keeps_factory_id : keeps conn_inv (next_channel_id chk).
Proof. intros s Hs. unfold next_channel_id, zoom. by destruct (Id_next _ _). Qed.
Lemma keeps_run_local {K A} I (m : ST K ChannelError A) k : keeps I (run_local m k).
Proof. intros s Hs. unfold run_local. by destruct (m k) as [[] ?]. Qed.
Lemma run_local_Ok {K A} (m : ST K ChannelError A) k s r s' :
  run_local m k s = (Ok r, s') → m k = (Ok r.1, r.2).
Proof. unfold run_local. by destruct (m k) as [[] ?]; intros [= <- <-]. Qed.
#[local] Hint Resolve keeps_extended_entry keeps_standard_entry keeps_count_for_vardiff keeps_shared
  keeps_factory_id keeps_run_local ext_ready_share std_ready_share ext_ready_update std_ready_update
  ext_ready_custom : keeps.

Lemma keeps_quote ch seq h : keeps conn_inv (send_share_quote_request ch seq h).
Proof. unfold send_share_quote_request, config, spawn. keeps_all. Qed.
Lemma keeps_register ch : keeps conn_inv (register_with_mint ch).
Proof. unfold register_with_mint, config, spawn. keeps_all. Qed.
Lemma keeps_stats c c' t : keeps conn_inv (record_share_stats c c' t).
Proof. unfold record_share_stats, config. keeps_all. Qed.
Lemma keeps_try_send sol : keeps conn_inv (try_send_solution sol).
Proof. intros s Hs. unfold try_send_solution. by destruct (_ || _). Qed.
#[local] Hint Resolve keeps_quote keeps_register keeps_stats keeps_try_send : keeps.
Lemma keeps_answer ch seq v t n acc res :
  keeps conn_inv acc → keeps conn_inv (answer_share ch seq v t n acc res).
Proof. intros Ha. unfold answer_share, config. keeps_all. Qed.
#[local] Hint Resolve keeps_answer : keeps.

Lemma keeps_submit_standard c c' m : keeps conn_inv (handle_submit_shares_standard chk c c' m).
Proof. unfold handle_submit_shares_standard. keeps_all. apply keeps_answer. keeps_all. Qed.
Lemma keeps_submit_extended c c' m : keeps conn_inv (handle_submit_shares_extended chk c c' m).
Proof. unfold handle_submit_shares_extended. keeps_all. apply keeps_answer. keeps_all. Qed.
Lemma keeps_update m : keeps conn_inv (handle_update_channel chk m).
Proof.
  unfold handle_update_channel. keeps_all.
  all: first [apply keeps_standard_entry|apply keeps_extended_entry]; keeps_all.
Qed.
Lemma keeps_custom m : keeps conn_inv (handle_set_custom_mining_job chk m).
Proof. unfold handle_set_custom_mining_job, config. keeps_all. Qed.

Lemma keeps_close id : keeps conn_inv (handle_close_channel id).
Proof.
  intros s (He & Hs & Hb). unfold handle_close_channel. rewrite !st_modify_bind. cbn.
  split; [|split; [|done]]; intros k c Hk; cbn in Hk; apply lookup_delete_Some in Hk as [Hn Hk].
  - destruct (He k c Hk). split; [done|]. cbn. by rewrite lookup_delete_ne.
  - destruct (Hs k c Hk). split; [done|]. cbn. by rewrite lookup_delete_ne.
Qed.

(** *** Opening channels *)

Lemma std_new_fresh ch u p mt h b spm st pt mtag c :
  wrap 32 b ≠ 0 → Standard.new chk ch u p mt h b spm st pt mtag = Ok c → std_fresh c.
Proof. unfold Standard.new. intros Hb E. inv_res. done. Qed.
Lemma ext_new_fresh ch u p mt h n b spm pt mtag c :
  wrap 32 b ≠ 0 → Extended.new chk ch u p mt h true n b spm JobStore.new pt mtag = Ok c → ext_fresh c.
Proof.
  unfold Extended.new. intros Hb E. inv_res. destruct (_ <? _); [done|]. inv_res.
  split; [done|split; [|done]]. apply store_all_new.
Qed.
Lemma keeps_ensure_group t prev : keeps conn_inv (ensure_group_channel chk t prev).
Proof. unfold ensure_group_channel, config. keeps_all. by apply keeps_modify. Qed.
#[local] Hint Resolve keeps_ensure_group : keeps.
Lemma keeps_next_prefix_standard :
  keeps conn_inv (st_map_err ExtranoncePrefixFactoryError
    (zoom (λ s, sh_factory_standard (shared s)) (λ f, on_shared (sh_set_standard f))
       ExtendedExtranonceOps.next_prefix_standard)).
Proof. apply keeps_map_err. apply (keeps_zoom _ _ _ _ (λ _, True)); done. Qed.

(** The end of an opening: the channel and its controller are stored. *)
Lemma keeps_store_standard {A} id c v (r : A) :
  std_ready c →
  keeps conn_inv (_ ← modify (on_self (λ d, d_set_standard (<[id := c]> (d_standard_channels d)) d));
    _ ← modify (on_self (λ d, d_set_vardiff (<[id := v]> (d_vardiff d)) d));
    _ ← modify (on_self (λ d, d_set_group (Group.add_standard_channel_id id <$> d_group_channel d) d));
    mret r : ST Conn PoolHandlerError A).
Proof.
  intros Hc s Hs. rewrite !st_modify_bind. cbn.
  pose proof (conn_ok_standard _ id c (conn_ok_vardiff _ id v Hs) Hc) as Hk. cbn in Hk.
  apply Hk. rewrite lookup_insert_eq. by eexists.
Qed.
Lemma keeps_store_extended {A} id c v (r : A) :
  ext_ready c →
  keeps conn_inv (_ ← modify (on_self (λ d, d_set_extended (<[id := c]> (d_extended_channels d)) d));
    _ ← modify (on_self (λ d, d_set_vardiff (<[id := v]> (d_vardiff d)) d));
    mret r : ST Conn PoolHandlerError A).
Proof.
  intros Hc s Hs. rewrite !st_modify_bind. cbn.
  pose proof (conn_ok_extended _ id c (conn_ok_vardiff _ id v Hs) Hc) as Hk. cbn in Hk.
  apply Hk. rewrite lookup_insert_eq. by eexists.
Qed.

Lemma config_gets s cfg s' : config s = (Ok cfg, s') → cfg = d_config (self s).
Proof. by intros [= <- <-]. Qed.

Lemma keeps_open_standard clock m : keeps conn_inv (handle_open_standard_mining_channel chk clock m).
Proof.
  unfold handle_open_standard_mining_channel. cbn zeta. destruct (negb _); [apply keeps_throw|].
  apply (keeps_bind_ok _ (λ cfg, wrap 32 (share_batch_size cfg) ≠ 0)); [apply keeps_gets| |].
  { intros s cfg s' (_ & _ & Hb) ->%config_gets. done. }
  intros cfg Hb. destruct (requires_custom_work cfg); [apply keeps_ret|].
  apply keeps_bind; [apply keeps_gets|intros t]. apply keeps_bind; [apply keeps_gets|intros prev].
  apply keeps_bind; [apply keeps_ensure_group|intros _].
  apply keeps_bind; [apply keeps_next_prefix_standard|intros p].
  apply keeps_bind; [apply keeps_factory_id|intros id].
  destruct (Standard.new _ _ _ _ _ _ _ _ _ _ _) as [ch|e|] eqn:Enew; [|keeps_all|apply keeps_panic].
  apply (std_new_fresh _ _ _ _ _ _ _ _ _ _ _ Hb) in Enew.
  apply keeps_bind; [apply keeps_gets|intros gid]. destruct (32 <? _); [apply keeps_panic|].
  apply keeps_bind; [apply keeps_register|intros _].
  apply (keeps_bind_ok _ (λ r, std_fresh r.2 ∧
    ∃ tag, op_pushbytes_pool_miner_tag (sc_job_factory r.2) = Ok tag)); [apply keeps_run_local| |].
  { intros s [[] c] s' _ E%run_local_Ok. pose proof (std_fresh_template chk t [pool_coinbase_output cfg t] _ Enew) as Hf.
    rewrite E in Hf. split; [exact Hf|]. by eapply std_template_tag. }
  intros r [Hf Htag]. apply keeps_bind; [apply keeps_lift|intros j].
  apply (keeps_bind_ok _ (λ r, std_ready r.2)); [apply keeps_run_local| |].
  { intros s [[] c] s' _ E%run_local_Ok. destruct (std_prev_hash_frame prev r.2) as [Ef Ea].
    rewrite E in Ef, Ea. cbn in Ef, Ea. split; [by eapply std_prev_hash_tip|]. cbn. by rewrite Ef, Ea. }
  intros r' Hr'. apply keeps_bind; [apply keeps_lift|intros v]. by apply keeps_store_standard.
Qed.

(** The first jobs of an extended channel. *)
Lemma keeps_open_extended clock m : keeps conn_inv (handle_open_extended_mining_channel chk clock m).
Proof.
  unfold handle_open_extended_mining_channel. cbn zeta. destruct (negb _); [apply keeps_throw|].
  apply (keeps_bind_ok _ (λ cfg, wrap 32 (share_batch_size cfg) ≠ 0)); [apply keeps_gets| |].
  { intros s cfg s' (_ & _ & Hb) ->%config_gets. done. }
  intros cfg Hb. apply keeps_bind.
  { intros s Hs. by destruct (ExtendedExtranonceOps.next_prefix_extended _ _) as [[] f]. }
  intros [p|]; [|apply keeps_ret]. apply keeps_bind; [apply keeps_factory_id|intros id].
  destruct (Extended.new _ _ _ _ _ _ _ _ _ _ _ _ _) as [ch|e|] eqn:Enew;
    [|keeps_all|apply keeps_panic].
  apply (ext_new_fresh _ _ _ _ _ _ _ _ _ _ _ Hb) in Enew.
  destruct (32 <? _); [apply keeps_throw|]. apply keeps_bind; [apply keeps_register|intros _].
  apply keeps_bind; [apply keeps_gets|intros prev]. apply keeps_bind; [apply keeps_gets|intros t].
  assert (Hprev : ∀ c s r s', ext_fresh c →
    run_local (Extended.on_set_new_prev_hash prev) c s = (Ok r, s') → ext_ready r.2).
  { intros c s [[] c'] s' Hc E%run_local_Ok. pose proof (ext_prev_hash_fresh prev c Hc) as Hf.
    rewrite E in Hf. split; [by eapply ext_prev_hash_tip|exact Hf]. }
  apply (keeps_bind_ok _ (λ r, ext_ready r.2)).
  - destruct (requires_custom_work cfg); keeps_all.
  - intros s r s' _ E. destruct (requires_custom_work cfg); inv_st; cbn [snd].
    + by eapply Hprev.
    + match goal with H : run_local (Extended.on_new_template _ _ _) _ _ = _ |- _ =>
        apply run_local_Ok in H; pose proof (ext_fresh_template chk t [pool_coinbase_output cfg t] _ Enew) as Hf;
        rewrite H in Hf; cbn in Hf end.
      by eapply Hprev.
  - intros r Hr. apply keeps_bind; [apply keeps_lift|intros v]. by apply keeps_store_extended.
Qed.

Lemma keeps_message clock clock' m : keeps conn_inv (handle_message_mining chk clock clock' m).
Proof.
  destruct m; cbn [handle_message_mining].
  - apply keeps_open_standard.
  - apply keeps_open_extended.
  - apply keeps_update.
  - apply keeps_submit_standard.
  - apply keeps_submit_extended.
  - apply keeps_custom.
  - apply keeps_close.
  - apply keeps_throw.
Qed.

(** *** Broadcasts and difficulty rounds *)

Context `{MapIter}.

Lemma keeps_on_standard {A} id (m : ST StandardChannel ChannelError A) :
  keeps std_ready m → keeps conn_ok (on_standard id m).
Proof.
  intros Hm d Hd. unfold on_standard, on_entry.
  destruct (d_standard_channels d !! id) as [c|] eqn:Ec; [|done].
  destruct (proj1 (proj2 Hd) id c Ec) as [Hc Hv]. specialize (Hm c Hc).
  destruct (m c) as [r c']. by apply conn_ok_standard.
Qed.
Lemma keeps_on_extended {A} id (m : ST ExtendedChannel ChannelError A) :
  keeps ext_ready m → keeps conn_ok (on_extended id m).
Proof.
  intros Hm d Hd. unfold on_extended, on_entry.
  destruct (d_extended_channels d !! id) as [c|] eqn:Ec; [|done].
  destruct (proj1 Hd id c Ec) as [Hc Hv]. specialize (Hm c Hc).
  destruct (m c) as [r c']. by apply conn_ok_extended.
Qed.
Lemma keeps_on_group {A} (m : ST GroupChannel ChannelError A) : keeps conn_ok (on_group m).
Proof.
  intros d Hd. unfold on_group, on_entry. destruct (d_group_channel d); [|done]. by destruct (m g).
Qed.
Ltac entry_all := repeat (keeps_all;
  first [apply keeps_on_standard | apply keeps_on_extended | apply keeps_on_group]); keeps_all.
#[local] Hint Resolve ext_ready_template std_ready_template ext_ready_prev_hash std_ready_prev_hash
  std_ready_group_job : keeps.

Lemma keeps_prev_hash m : keeps conn_ok (downstream_on_new_prev_hash m).
Proof.
  unfold downstream_on_new_prev_hash, active_id. apply keeps_bind; [by apply keeps_modify|intros _].
  entry_all.
Qed.
Lemma keeps_template t : keeps conn_ok (downstream_on_new_template chk t).
Proof.
  unfold downstream_on_new_template. apply keeps_bind.
  { destruct (nt_future_template t); [by apply keeps_modify|apply keeps_ret]. }
  intros _. unfold standard_job_messages, extended_job_messages, job_of. entry_all.
Qed.

Lemma run_vardiff_keeps {K} (I : K → Prop) hr tg spm update id clock clock' k v :
  (∀ h mt, keeps I (update h mt)) → I k →
  I (run_vardiff chk hr tg spm update id clock clock' (k, v)).2.1.
Proof.
  intros Hu Hk. cbn. destruct (Vardiff.try_vardiff _ _ _ _ _ _ _) as [[[h|]|e|] v']; try done.
  specialize (Hu h None k Hk). by destruct (update h None k) as [[] k'].
Qed.
Lemma keeps_vardiff_channel clocks id : keeps conn_ok (vardiff_channel chk clocks id).
Proof.
  unfold vardiff_channel. destruct (clocks id) as [clock clock']. apply keeps_bind; [|intros l].
  - intros d Hd. destruct (d_extended_channels d !! id) as [c|] eqn:Ec; [|done].
    destruct (proj1 Hd id c Ec) as [Hc [v Hv]]. rewrite Hv.
    pose proof (run_vardiff_keeps ext_ready ec_nominal_hashrate ec_target ec_expected_share_per_minute
      (Extended.update_channel chk) id clock clock' c v (ext_ready_update chk) Hc) as Hk.
    destruct (run_vardiff _ _ _ _ _ _ _ _ _) as [r [c' v']]. cbn in *.
    apply (conn_ok_extended _ id c' (conn_ok_vardiff d id v' Hd) Hk). cbn. rewrite lookup_insert_eq. by eexists.
  - apply keeps_bind; [|intros l'; apply keeps_ret].
    intros d Hd. destruct (d_standard_channels d !! id) as [c|] eqn:Ec; [|done].
    destruct (proj1 (proj2 Hd) id c Ec) as [Hc [v Hv]]. rewrite Hv.
    pose proof (run_vardiff_keeps std_ready sc_nominal_hashrate sc_target sc_expected_share_per_minute
      (Standard.update_channel chk) id clock clock' c v (std_ready_update chk) Hc) as Hk.
    destruct (run_vardiff _ _ _ _ _ _ _ _ _) as [r [c' v']]. cbn in *.
    apply (conn_ok_standard _ id c' (conn_ok_vardiff d id v' Hd) Hk). cbn. rewrite lookup_insert_eq. by eexists.
Qed.
#[local] Hint Resolve keeps_vardiff_channel : keeps.
Lemma keeps_vardiff_round clocks : keeps conn_ok (vardiff_round chk clocks).
Proof. unfold vardiff_round. keeps_all. Qed.

(** ** The life of a connection *)

(** Whatever a message, a broadcast or a difficulty round answers, and whatever
    other connections do to the shared state in between. *)
Inductive conn_step : Conn → Conn → Prop :=
  | CMessage clock clock' m s : conn_step s (handle_message_mining chk clock clock' m s).2
  | CPrevHash m d w : conn_step (mkConn d w) (mkConn (downstream_on_new_prev_hash m d).2 w)
  | CTemplate t d w : conn_step (mkConn d w) (mkConn (downstream_on_new_template chk t d).2 w)
  | CVardiff clocks d w : conn_step (mkConn d w) (mkConn (vardiff_round chk clocks d).2 w)
  | CShared d w w' : conn_step (mkConn d w) (mkConn d w').

(** A connection as [Downstream::new] leaves it. *)
Definition new_downstream (cfg : DownstreamConfig) (t : NewTemplate) (prev : SetNewPrevHashTdp)
    : Downstream := mkDownstream cfg Id_new ∅ ∅ ∅ None t prev.

Lemma conn_ok_new cfg t prev : wrap 32 (share_batch_size cfg) ≠ 0 → conn_ok (new_downstream cfg t prev).
Proof. intros Hb. split; [|split; [|done]]; intros id c; cbn; by rewrite lookup_empty. Qed.
Lemma conn_ok_step s s' : conn_step s s' → conn_ok (self s) → conn_ok (self s').
Proof.
  destruct 1; cbn [self]; intros Hs; [by apply keeps_message|by apply keeps_prev_hash|by apply keeps_template
    |by apply keeps_vardiff_round|done].
Qed.
Lemma conn_ok_reachable s s' : rtc conn_step s s' → conn_ok (self s) → conn_ok (self s').
Proof. induction 1; eauto using conn_ok_step. Qed.
End connection.
