(* ===== verification/DownstreamProperties.v ===== *)
(** * Properties of the pool's connections *)

From Stdlib Require Import String SpecFloat.
From stdpp Require Import gmap.
From S2P Require Import Prelude Mining MiningProperties Difficulty Bitcoin BitcoinModel Jobs JobFacts Channels ChannelProperties Vardiff PoolStats Utf8 PoolQuotes Downstream DownstreamFacts.
#[local] Open Scope Z_scope.
#[local] Open Scope list_scope.

(** ** What a share submission asks of its channel *)

Record Submission : Type := mkSubmission {
  sub_channel_id : Z;
  sub_sequence_number : Z;
  sub_version : Z;
  sub_ntime : Z;
  sub_nonce : Z;
  sub_result : result ShareValidationError ShareValidationResult;
  sub_accounting : ShareAccounting }.

Definition submission `{Bitcoin} (chk : bool) (m : MinerMessage) (d : Downstream) : option Submission :=
  match m with
  | MinerSubmitStandard m =>
      c ← d_standard_channels d !! ss_channel_id m;
      let '(r, c') := Standard.validate_share chk m c in
      Some (mkSubmission (ss_channel_id m) (ss_sequence_number m) (ss_version m) (ss_ntime m)
              (ss_nonce m) r (sc_share_accounting c'))
  | MinerSubmitExtended m =>
      c ← d_extended_channels d !! se_channel_id m;
      let '(r, c') := Extended.validate_share chk m c in
      Some (mkSubmission (se_channel_id m) (se_sequence_number m) (se_version m) (se_ntime m)
              (se_nonce m) r (ec_share_accounting c'))
  | _ => None
  end.

(** The share earns a quote: a block, or an accepted share with enough leading
    zero bits. *)
Definition quoted (cfg : DownstreamConfig) (r : result ShareValidationError ShareValidationResult)
    : option bytes :=
  match r with
  | Ok (Valid h) | Ok (ValidWithAcknowledgement h _ _ _) =>
      match minimum_share_difficulty_bits cfg with
      | Some bits =>
          if count_leading_zero_bits (header_hash_bytes h) <? bits then None
          else Some (header_hash_bytes h)
      | None => Some (header_hash_bytes h)
      end
  | Ok (BlockFound h _ _) => Some (header_hash_bytes h)
  | _ => None
  end.
Definition quote_tasks (cfg : DownstreamConfig) (x : Submission) : list Task :=
  match quoted cfg (sub_result x), quote_dispatcher cfg with
  | Some header_hash, Some d =>
      [QuoteTask d (sub_channel_id x) (sub_sequence_number x) header_hash (locking_key_bytes cfg)]
  | _, _ => []
  end.
(** The block to hand to the template provider. *)
Definition solution (x : Submission) : option SubmitSolution :=
  match sub_result x with
  | Ok (BlockFound _ (Some template_id) coinbase) =>
      Some (mkSolution template_id (sub_version x) (sub_ntime x) (sub_nonce x) coinbase)
  | _ => None
  end.
Definition share_reply (cfg : DownstreamConfig) (x : Submission) : SendTo :=
  let id := sub_channel_id x in
  let seq := sub_sequence_number x in
  let a := sub_accounting x in
  match sub_result x with
  | Ok (BlockFound _ _ _) =>
      Respond (SubmitSharesSuccess id (last_share_sequence_number a) (shares_accepted a) (share_work_sum a))
  | Ok r =>
      match quoted cfg (Ok r), r with
      | None, _ => Respond (SubmitSharesError id seq "share-difficulty-too-low")
      | Some _, ValidWithAcknowledgement _ last count sum =>
          Respond (SubmitSharesSuccess id last count sum)
      | Some _, _ => SendNone
      end
  | Err e => Respond (SubmitSharesError id seq (default EmptyString (share_error_code e)))
  | Panic => SendNone
  end.

Section shares.
Context `{BitcoinLaws}.

Definition with_tasks (l : list Task) (w : Shared) : Shared := sh_set_tasks (sh_tasks w ++ l) w.
Definition with_solutions (l : list SubmitSolution) (w : Shared) : Shared :=
  sh_set_solutions (sh_solutions w ++ l) w.

(** Why a solution is not handed on. *)
Definition refusal (sol : SubmitSolution) (w : Shared) (r : result PoolHandlerError SendTo) : Prop :=
  (r = Err FailedToSendSolution ∧ (sh_solutions_closed w = true ∨ SOLUTION_CAPACITY ≤ zlen (sh_solutions w))) ∨
  (r = Err BinaryConversion ∧ 65535 < zlen (so_coinbase_tx sol)).

Definition undeliverable (sol : SubmitSolution) (w : Shared) : Prop :=
  sh_solutions_closed w = true ∨ SOLUTION_CAPACITY ≤ zlen (sh_solutions w) ∨ 65535 < zlen (so_coinbase_tx sol).

(** How an answer changes the shared state: quotes, then the solution. *)
Definition answered (cfg : DownstreamConfig) (x : Submission) (w : Shared)
    (r : result PoolHandlerError SendTo) (w' : Shared) : Prop :=
  (r = Ok (share_reply cfg x) ∧
   w' = with_solutions (option_list (solution x)) (with_tasks (quote_tasks cfg x) w) ∧
   ∀ sol, solution x = Some sol → ¬ undeliverable sol w) ∨
  (∃ sol, solution x = Some sol ∧ refusal sol w r ∧ w' = with_tasks (quote_tasks cfg x) w).

Lemma minimum_spec cfg h ch seq :
  validate_minimum_share_difficulty (header_hash_bytes h) (minimum_share_difficulty_bits cfg) ch seq
  = match quoted cfg (Ok (Valid h)) with
    | None => Some (Respond (SubmitSharesError ch seq "share-difficulty-too-low"))
    | Some _ => None
    end.
Proof.
  unfold validate_minimum_share_difficulty, quoted, validate_share_difficulty.
  destruct (minimum_share_difficulty_bits cfg); [|done]. by destruct (_ <? _).
Qed.
Lemma with_tasks_nil w : with_tasks [] w = w.
Proof. destruct w. unfold with_tasks, sh_set_tasks. cbn. by rewrite app_nil_r. Qed.
Lemma with_solutions_nil w : with_solutions [] w = w.
Proof. destruct w. unfold with_solutions, sh_set_solutions. cbn. by rewrite app_nil_r. Qed.

Lemma quote_request_eq ch seq hash s :
  send_share_quote_request ch seq hash s =
  (Ok tt, mkConn (self s)
    (with_tasks (match quote_dispatcher (d_config (self s)) with
                 | Some d => [QuoteTask d ch seq hash (locking_key_bytes (d_config (self s)))]
                 | None => []
                 end) (shared s))).
Proof.
  unfold send_share_quote_request, config. rewrite st_gets_bind.
  destruct (quote_dispatcher _); [done|]. rewrite with_tasks_nil. by destruct s.
Qed.

Lemma quoted_hash cfg h hh : quoted cfg (Ok (Valid h)) = Some hh → hh = header_hash_bytes h.
Proof.
  cbn. destruct (minimum_share_difficulty_bits cfg); [destruct (_ <? _)|]; congruence.
Qed.
Lemma answer_share_spec x s acc :
  answerable false (sub_result x) →
  (∀ w, acc (mkConn (self s) w) = (Ok (sub_accounting x), mkConn (self s) w)) →
  ∃ r w', answer_share (sub_channel_id x) (sub_sequence_number x) (sub_version x) (sub_ntime x)
            (sub_nonce x) acc (sub_result x) s = (r, mkConn (self s) w') ∧
          answered (d_config (self s)) x (shared s) r w'.
Proof.
  intros Ha Hacc. unfold answer_share, config. rewrite st_gets_bind. cbn zeta.
  destruct s as [d w]. cbn [self shared] in *. unfold answered, share_reply, quote_tasks, solution.
  destruct (sub_result x) as [[h|h last count sum|h tid cb]|e|]; [| | | |done].
  1,2: rewrite minimum_spec; cbn [quoted];
    destruct (match minimum_share_difficulty_bits (d_config d) with Some _ => _ | None => _ end) as [hh|] eqn:Eq;
    (eexists _, _; split; [|left; split; [reflexivity|split; [rewrite with_solutions_nil; reflexivity|done]]]);
    [|by rewrite with_tasks_nil].
  1,2: unfold mbind, ST_bind; rewrite quote_request_eq; cbn [self shared];
    rewrite (quoted_hash (d_config d) h hh Eq); by destruct (quote_dispatcher _).
  - cbn [quoted]. rewrite (st_bind_ok _ _ _ _ _ (quote_request_eq _ _ _ _)). cbn [self shared].
    set (w1 := with_tasks _ w). destruct tid as [tid|].
    + unfold try_b064k. destruct (Z.leb_spec (zlen cb) 65535).
      * unfold mbind, ST_bind, lift, try_send_solution. cbn [self shared]. destruct (_ || _) eqn:Eq.
        -- eexists _, _. split; [done|]. right. eexists. split; [reflexivity|].
           split; [|by destruct (quote_dispatcher _)]. left. split; [done|].
           apply orb_true_iff in Eq as [Eq|Eq%Z.leb_le]; auto.
        -- apply orb_false_iff in Eq as [Eq1 Eq2%Z.leb_gt].
           eexists _, _. split; [|left; split; [reflexivity|split; [reflexivity|]]].
           2: { intros sol [= <-] [Hc|[Hc|Hc]]; [cbn in *; congruence|cbn in *; lia|cbn in Hc; lia]. }
           unfold on_shared. cbn [self shared]. rewrite Hacc. by destruct (quote_dispatcher _).
      * eexists _, _. split; [done|]. right. eexists. split; [reflexivity|].
        split; [|by destruct (quote_dispatcher _)]. by right.
    + eexists _, _. split; [|left; split; [reflexivity|split; [by rewrite with_solutions_nil|done]]].
      unfold mbind, ST_bind. cbn. rewrite Hacc. by destruct (quote_dispatcher _).
  - destruct Ha as [code ->]. eexists _, _. split; [done|]. left. cbn [quoted default].
    split; [done|]. by rewrite with_solutions_nil, with_tasks_nil.
Qed.

(** The statistics a submission records. *)
Lemma record_stats_eq now clock' target s :
  ∃ st, record_share_stats (Some now) clock' target s = (Ok tt, mkConn (self s) (sh_set_stats st (shared s))).
Proof.
  unfold record_share_stats, config. rewrite !st_gets_bind.
  destruct (get_stats _ _) as [st|].
  - unfold Stats.record_share_with_difficulty, unwrap. cbn [mbind result_bind]. rewrite st_lift_bind.
    eexists. done.
  - exists (sh_stats (shared s)). by destruct s as [d []].
Qed.
Lemma count_vardiff_eq id v s :
  d_vardiff (self s) !! id = Some v →
  ∃ v', count_for_vardiff false id s
        = (Ok tt, on_self (d_set_vardiff (<[id := v']> (d_vardiff (self s)))) s).
Proof.
  intros Hv. unfold count_for_vardiff, with_entry, mbind, ST_bind. rewrite Hv. by eexists.
Qed.
Lemma answered_stats cfg x w st r w' :
  answered cfg x (sh_set_stats st w) r w' →
  sh_tasks w' = sh_tasks w ++ quote_tasks cfg x ∧
  ((r = Ok (share_reply cfg x) ∧ sh_solutions w' = sh_solutions w ++ option_list (solution x) ∧
    ∀ sol, solution x = Some sol → ¬ undeliverable sol w) ∨
   (∃ sol, solution x = Some sol ∧ refusal sol w r ∧ sh_solutions w' = sh_solutions w)).
Proof.
  intros [(-> & -> & Hn)|(sol & Hs & Hr & ->)]; (split; [done|]); [by left|right]. by exists sol.
Qed.

Lemma extended_entry_eq {E E' A} id (m : ST ExtendedChannel E A) s c r c' :
  d_extended_channels (self s) !! id = Some c → m c = (r, c') → r ≠ Panic →
  extended_entry (E' := E') id m s
  = (Ok r, on_self (λ d, d_set_extended (<[id := c']> (d_extended_channels d)) d) s).
Proof. intros Hc Hm Hr. unfold extended_entry, with_entry. rewrite Hc, Hm. by destruct r. Qed.
Lemma standard_entry_eq {E E' A} id (m : ST StandardChannel E A) s c r c' :
  d_standard_channels (self s) !! id = Some c → m c = (r, c') → r ≠ Panic →
  standard_entry (E' := E') id m s
  = (Ok r, on_self (λ d, d_set_standard (<[id := c']> (d_standard_channels d)) d) s).
Proof. intros Hc Hm Hr. unfold standard_entry, with_entry. rewrite Hc, Hm. by destruct r. Qed.
Lemma extended_entry_gets {E E' A} id (f : ExtendedChannel → A) s c :
  d_extended_channels (self s) !! id = Some c →
  extended_entry (E := E) (E' := E') id (gets f) s = (Ok (Ok (f c)), s).
Proof.
  intros Hc. rewrite (extended_entry_eq _ _ _ c (Ok (f c)) c) by done. f_equal.
  destruct s as [[] w]. unfold on_self, d_set_extended. cbn in *. by rewrite insert_id.
Qed.
Lemma standard_entry_gets {E E' A} id (f : StandardChannel → A) s c :
  d_standard_channels (self s) !! id = Some c →
  standard_entry (E := E) (E' := E') id (gets f) s = (Ok (Ok (f c)), s).
Proof.
  intros Hc. rewrite (standard_entry_eq _ _ _ c (Ok (f c)) c) by done. f_equal.
  destruct s as [[] w]. unfold on_self, d_set_standard. cbn in *. by rewrite insert_id.
Qed.

(** The common end of both handlers, once the share is validated. *)
Lemma answerable_ok (r : result ShareValidationError ShareValidationResult) :
  answerable false r → r ≠ Panic.
Proof. by intros Ha ->. Qed.

Definition handled (cfg : DownstreamConfig) (x : Submission) (w : Shared)
    (r : result PoolHandlerError SendTo) (w' : Shared) : Prop :=
  sh_tasks w' = sh_tasks w ++ quote_tasks cfg x ∧
  ((r = Ok (share_reply cfg x) ∧ sh_solutions w' = sh_solutions w ++ option_list (solution x) ∧
    ∀ sol, solution x = Some sol → ¬ undeliverable sol w) ∨
   (∃ sol, solution x = Some sol ∧ refusal sol w r ∧ sh_solutions w' = sh_solutions w)).

Lemma submit_extended_handled now clock' m s x :
  conn_ok (self s) → submission false (MinerSubmitExtended m) (self s) = Some x →
  ∃ r s', handle_submit_shares_extended false (Some now) clock' m s = (r, s') ∧
    handled (d_config (self s)) x (shared s) r (shared s') ∧
    d_config (self s') = d_config (self s) ∧
    ∀ c, d_extended_channels (self s) !! se_channel_id m = Some c →
      d_extended_channels (self s') !! se_channel_id m = Some (Extended.validate_share false m c).2.
Proof.
  intros Hok Hx. cbn [submission] in Hx.
  destruct (d_extended_channels (self s) !! se_channel_id m) as [c|] eqn:Ec; [|done]. cbn in Hx.
  destruct (proj1 Hok _ _ Ec) as [Hc [v Hv]]. pose proof (ext_share_answerable false m c Hc) as Ha.
  destruct (Extended.validate_share false m c) as [res c'] eqn:Ev. injection Hx as <-.
  unfold handle_submit_shares_extended. cbn zeta. rewrite st_gets_bind, Ec, st_gets_bind, Hv.
  cbn [unwrap]. rewrite st_lift_bind.
  rewrite (st_bind_ok _ _ _ _ _ (extended_entry_eq _ _ _ _ _ _ Ec Ev (answerable_ok _ Ha))).
  set (s1 := on_self _ s). destruct (count_vardiff_eq (se_channel_id m) v s1 Hv) as [v' E].
  rewrite (st_bind_ok _ _ _ _ _ E). set (s2 := on_self _ s1).
  assert (Ec2 : d_extended_channels (self s2) !! se_channel_id m = Some c') by apply lookup_insert_eq.
  rewrite (st_bind_ok _ _ _ _ _ (extended_entry_gets _ _ _ _ Ec2)), st_lift_bind.
  destruct (record_stats_eq now clock' (ec_target c') s2) as [st Est].
  rewrite (st_bind_ok _ _ _ _ _ Est). set (s3 := mkConn _ _).
  destruct (answer_share_spec (mkSubmission (se_channel_id m) (se_sequence_number m) (se_version m)
    (se_ntime m) (se_nonce m) res (ec_share_accounting c')) s3
    (r ← extended_entry (E := PoolHandlerError) (se_channel_id m) (gets ec_share_accounting); lift r) Ha)
    as (r & w' & Er & Hr).
  { intros w. by rewrite (st_bind_ok _ _ _ _ _ (extended_entry_gets (se_channel_id m)
      ec_share_accounting (mkConn (self s3) w) c' Ec2)). }
  exists r, (mkConn (self s3) w'). split; [exact Er|]. split; [by apply answered_stats in Hr|].
  split; [done|]. intros c0 [= <-]. by rewrite Ev.
Qed.
Lemma submit_standard_handled now clock' m s x :
  conn_ok (self s) → submission false (MinerSubmitStandard m) (self s) = Some x →
  ∃ r s', handle_submit_shares_standard false (Some now) clock' m s = (r, s') ∧
    handled (d_config (self s)) x (shared s) r (shared s').
Proof.
  intros Hok Hx. cbn [submission] in Hx.
  destruct (d_standard_channels (self s) !! ss_channel_id m) as [c|] eqn:Ec; [|done]. cbn in Hx.
  destruct (proj1 (proj2 Hok) _ _ Ec) as [Hc [v Hv]]. pose proof (std_share_answerable false m c Hc) as Ha.
  destruct (Standard.validate_share false m c) as [res c'] eqn:Ev. injection Hx as <-.
  unfold handle_submit_shares_standard. cbn zeta. rewrite st_gets_bind, Ec, st_gets_bind, Hv.
  cbn [unwrap]. rewrite st_lift_bind.
  rewrite (st_bind_ok _ _ _ _ _ (standard_entry_eq _ _ _ _ _ _ Ec Ev (answerable_ok _ Ha))).
  set (s1 := on_self _ s). destruct (count_vardiff_eq (ss_channel_id m) v s1 Hv) as [v' E].
  rewrite (st_bind_ok _ _ _ _ _ E). set (s2 := on_self _ s1).
  assert (Ec2 : d_standard_channels (self s2) !! ss_channel_id m = Some c') by apply lookup_insert_eq.
  rewrite (st_bind_ok _ _ _ _ _ (standard_entry_gets _ _ _ _ Ec2)), st_lift_bind.
  destruct (record_stats_eq now clock' (sc_target c') s2) as [st Est].
  rewrite (st_bind_ok _ _ _ _ _ Est). set (s3 := mkConn _ _).
  destruct (answer_share_spec (mkSubmission (ss_channel_id m) (ss_sequence_number m) (ss_version m)
    (ss_ntime m) (ss_nonce m) res (sc_share_accounting c')) s3
    (r ← standard_entry (E := PoolHandlerError) (ss_channel_id m) (gets sc_share_accounting); lift r) Ha)
    as (r & w' & Er & Hr).
  { intros w. by rewrite (st_bind_ok _ _ _ _ _ (standard_entry_gets (ss_channel_id m)
      sc_share_accounting (mkConn (self s3) w) c' Ec2)). }
  exists r, (mkConn (self s3) w'). split; [exact Er|]. by apply answered_stats in Hr.
Qed.
End shares.

(** The messages an answer sends to the miner. *)
Definition replies (st : SendTo) : list Reply :=
  match st with Respond m => [m] | Multiple l => l | SendNone => [] end.
Lemma share_reply_sent cfg x id : match_send_to true id (Ok (share_reply cfg x)) [] = (Ok tt, replies (share_reply cfg x)).
Proof.
  unfold share_reply. destruct (sub_result x) as [[h|h last count sum|h tid cb]|e|]; try done; by destruct (quoted _ _).
Qed.

(** C2 What becomes of a share, up to the messages the miner is sent, with
    arithmetic that wraps and a batch size that is not zero modulo 2^32: on any
    connection that can be sent to, after any history of messages, job
    broadcasts and difficulty rounds, a share submitted to an open channel
    spawns a quote task if and only if it is a block or an accepted share with
    enough leading zero bits, with the share's channel, sequence number and
    header hash.  Then either the miner is sent exactly the answer of the
    validation and a block with a template is put in the solution queue, or the
    task panics with nothing sent and nothing queued; and it panics exactly for a
    block with a template when the solution queue is closed or full or the
    coinbase is longer than 65535 bytes. *)
Theorem share_answered `{BitcoinLaws} `{MapIter} (cfg : DownstreamConfig) (t : NewTemplate)
    (prev : SetNewPrevHashTdp) (w : Shared) (s : Conn) (m : MinerMessage) (x : Submission)
    (now : Z) (clock' : option Z) (id : Z) :
  wrap 32 (share_batch_size cfg) ≠ 0 →
  rtc (conn_step false) (mkConn (new_downstream cfg t prev) w) s →
  submission false m (self s) = Some x →
  ∃ r s' out sent, handle_message_mining false (Some now) clock' m s = (r, s') ∧
    match_send_to true id r [] = (out, sent) ∧
    sh_tasks (shared s') = sh_tasks (shared s) ++ quote_tasks (d_config (self s)) x ∧
    ((out = Ok tt ∧ sent = replies (share_reply (d_config (self s)) x) ∧
      sh_solutions (shared s') = sh_solutions (shared s) ++ option_list (solution x)) ∨
     (out = Panic ∧ sent = [] ∧ sh_solutions (shared s') = sh_solutions (shared s))) ∧
    (out = Panic ↔ ∃ sol, solution x = Some sol ∧ undeliverable sol (shared s)).
Proof.
  intros Hb Hr Hx. apply conn_ok_reachable in Hr; [|by apply conn_ok_new].
  assert (∃ r s', handle_message_mining false (Some now) clock' m s = (r, s') ∧
    handled (d_config (self s)) x (shared s) r (shared s')) as (r & s' & E & Ht & Hh).
  { destruct m; try done; [by apply submit_standard_handled|].
    destruct (submit_extended_handled now clock' m s x Hr Hx) as (r & s' & E & Hh & _). eauto. }
  destruct Hh as [(-> & Hs & Hn)|(sol & Hsol & Hre & Hs)].
  - eexists _, s', _, _. split; [exact E|]. split; [apply share_reply_sent|]. split; [exact Ht|]. split; [by left|].
    split; [done|]. intros (sol & Hsol & Hu). by destruct (Hn sol Hsol).
  - exists r, s', Panic, []. split; [exact E|]. split; [by destruct Hre as [[-> _]|[-> _]]|]. split; [exact Ht|]. split; [by right|].
    split; [|done]. intros _. exists sol. split; [done|]. unfold undeliverable. destruct Hre as [[_ [?|?]]|[_ ?]]; auto.
Qed.

(** ** An example connection *)

#[local] Instance sample_iter : MapIter :=
  {| map_iter A m := map_to_list m; map_iter_perm A m := reflexivity (map_to_list m) |}.
#[local] Existing Instance model_bitcoin.
#[local] Existing Instance model_bitcoin_laws.

Definition sample_config (id : Z) : DownstreamConfig :=
  mkDownstreamConfig id false false (Some (mkDispatcher None 32 true)) (Some (to_le_bytes 33 2)) 10
    sample_spm (to_le_bytes 22 9) (String.list_byte_of_string "pool") (Some 0) None.
Definition no_extranonce : ExtendedExtranonce := mkExtranonce [] (mkRange 0 0) (mkRange 0 0) (mkRange 0 0) None.
Definition sample_shared : Shared :=
  let f := from_ok no_extranonce (extranonce_factory 1) in mkShared f f [] false ∅ [].
Definition sample_conn0 : Conn :=
  mkConn (new_downstream (sample_config 1) (sample_template true) sample_prev) sample_shared.
Definition sample_open : OpenExtendedMiningChannel :=
  mkOpenExtended 9 [] sample_rate (to_le_bytes 32 (2 ^ 255)) 8.
Definition sample_conn : Conn :=
  (handle_message_mining false (Some 1700000000) None (MinerOpenExtended sample_open) sample_conn0).2.
Definition sample_submit (nonce : Z) : MinerMessage :=
  MinerSubmitExtended (mkSubmitExtended 1 4 1 nonce 1700000001 0x20000000 (to_le_bytes 24 77)).

Lemma sample_conn_reached : rtc (conn_step false) sample_conn0 sample_conn.
Proof.
  apply rtc_once.
  exact (CMessage false (Some 1700000000) None (MinerOpenExtended sample_open) sample_conn0).
Qed.
Lemma sample_submission nonce :
  ∃ x, submission false (sample_submit nonce) (self sample_conn) = Some x.
Proof.
  unfold submission, sample_submit. cbn [se_channel_id].
  assert (is_Some (d_extended_channels (self sample_conn) !! 1)) as [c ->].
  { apply (bool_decide_unpack _). vm_compute. done. }
  cbn. destruct (Extended.validate_share _ _ _). by eexists.
Qed.
Lemma share_answered_witness :
  ∃ x r s' out sent, submission false (sample_submit 2) (self sample_conn) = Some x ∧
    handle_message_mining false (Some 1700000010) (Some 1700000010) (sample_submit 2) sample_conn = (r, s') ∧
    match_send_to true 1 r [] = (out, sent) ∧
    (out = Panic ↔ ∃ sol, solution x = Some sol ∧ undeliverable sol (shared sample_conn)).
Proof.
  destruct (sample_submission 2) as [x Hx].
  destruct (share_answered (sample_config 1) (sample_template true) sample_prev sample_shared sample_conn
    (sample_submit 2) x 1700000010 (Some 1700000010) 1) as (r & s' & out & sent & E & Hm & _ & _ & Hp).
  - vm_compute. discriminate.
  - exact sample_conn_reached.
  - exact Hx.
  - exists x, r, s', out, sent. split; [exact Hx|]. split; [exact E|]. split; [exact Hm|exact Hp].
Defined.
