(* ===== verification/ShareRewards.v ===== *)
(** * What a repeated share and a custom job earn

    Two consequences of how [validate_share] and [handle_set_custom_mining_job]
    divide the checks between them.  The duplicate check, the channel target
    and the pool's minimum difficulty stand only on the path of a share that is
    not a block; and the network target that makes a share a block is, after a
    custom job, the one the miner sent. *)

From Stdlib Require Import String SpecFloat.
From stdpp Require Import gmap.
From S2P Require Import Prelude Mining MiningProperties Difficulty Bitcoin BitcoinModel Jobs JobFacts Channels ChannelProperties Vardiff PoolStats Utf8 Datatypes Quote PoolQuotes Downstream DownstreamFacts DownstreamProperties.
#[local] Open Scope Z_scope.
#[local] Open Scope list_scope.

Section rewards.
Context `{BitcoinLaws}.

(** ** Submitting a block again *)

Lemma account_release {E} target seq hash a :
  ∃ a', account (E := E) false target seq hash a = (Ok tt, a').
Proof. eexists. reflexivity. Qed.
Lemma accept_share_no_block target seq hash a r a' h t cb :
  accept_share false target seq hash a = (Ok r, a') → r ≠ BlockFound h t cb.
Proof.
  intros (_ & _ & _ & ->)%accept_share_cases. by destruct (_ =? 0).
Qed.

Lemma ext_block_again m c h t cb c' :
  Extended.validate_share false m c = (Ok (BlockFound h t cb), c') →
  ∃ c'', Extended.validate_share false m c' = (Ok (BlockFound h t cb), c'').
Proof.
  rewrite ext_validate_eq. destruct (find_job _ _) as [job|e|] eqn:Ej; [|done|done]. cbn zeta.
  destruct (merkle_root_from_path _ _ _ _) as [root|] eqn:Er; [|done].
  destruct (negb (zlen root =? 32)) eqn:El; [done|]. destruct (ec_chain_tip c) as [tip|] eqn:Et; [|done].
  destruct (_ && _) eqn:Ev; [done|]. destruct (is_met_by _ _) eqn:Em.
  - destruct (account_release (E := ShareValidationError) (ec_target c) (se_sequence_number m)
      (block_hash (share_header (se_version m) (se_ntime m) (se_nonce m) root tip))
      (ec_share_accounting c)) as [a ->].
    intros [= <- <- <- <-]. rewrite ext_validate_eq. cbn [ec_job_store ec_set_accounting].
    rewrite Ej. cbn zeta. rewrite Er, El. cbn [ec_chain_tip ec_set_accounting]. rewrite Et, Ev, Em.
    cbn [ec_target ec_set_accounting ec_share_accounting].
    match goal with |- context [account false ?t ?s ?h ?a] =>
      destruct (account_release (E := ShareValidationError) t s h a) as [a' ->] end.
    by eexists.
  - destruct (accept_share _ _ _ _ _) as [r a] eqn:Ea. intros [= -> <-].
    exfalso. exact (accept_share_no_block _ _ _ _ _ _ _ _ _ Ea eq_refl).
Qed.

Fixpoint resubmit (now : Z) (m : MinerMessage) (n : nat) (s : Conn) : Conn :=
  match n with
  | O => s
  | S n => resubmit now m n (handle_message_mining false (Some now) (Some now) m s).2
  end.

Lemma resubmit_quotes now m n s x h t cb d :
  conn_ok (self s) → submission false (MinerSubmitExtended m) (self s) = Some x →
  sub_result x = Ok (BlockFound h t cb) → quote_dispatcher (d_config (self s)) = Some d →
  sh_tasks (shared (resubmit now (MinerSubmitExtended m) n s)) =
    sh_tasks (shared s) ++
    replicate n (QuoteTask d (se_channel_id m) (se_sequence_number m) (header_hash_bytes h)
                   (locking_key_bytes (d_config (self s)))).
Proof.
  revert s x. induction n as [|n IH]; intros s x Hs Hx Hr Hd; [by rewrite app_nil_r|].
  cbn [resubmit].
  destruct (submit_extended_handled now (Some now) m s x Hs Hx) as (r & s' & E & [Ht _] & Hc & Hch).
  pose proof (keeps_message false (Some now) (Some now) (MinerSubmitExtended m) s Hs) as Hs'.
  cbn [handle_message_mining] in *. rewrite E in *. cbn [snd] in *.
  pose proof Hx as Hx0. cbn [submission] in Hx0.
  destruct (d_extended_channels (self s) !! se_channel_id m) as [c|] eqn:Ec; [|done]. cbn in Hx0.
  destruct (Extended.validate_share false m c) as [res c'] eqn:Ev. injection Hx0 as <-. cbn in Hr. subst res.
  destruct (ext_block_again m c h t cb c' Ev) as [c'' Ev'].
  specialize (Hch c eq_refl). rewrite Ev in Hch. cbn [snd] in Hch.
  rewrite (IH s' (mkSubmission (se_channel_id m) (se_sequence_number m) (se_version m) (se_ntime m)
    (se_nonce m) (Ok (BlockFound h t cb)) (ec_share_accounting c''))); [|done| |done|by rewrite Hc].
  - rewrite Ht, Hc, <- app_assoc. unfold quote_tasks. cbn [sub_result quoted]. by rewrite Hd.
  - cbn [submission]. rewrite Hch. cbn. by rewrite Ev'.
Qed.

(** ** Shares of a custom job *)

Lemma find_job_active {T} `{Job T} id (j : T) s :
  active_job s = Some j → get_job_id j = id → stale_jobs s !! id = None → find_job id s = Ok j.
Proof.
  intros Ha Hi Hs. unfold find_job. rewrite Hs, Ha, Hi. cbn. by rewrite Z.eqb_refl.
Qed.

(** The channel after an accepted custom job. *)
Definition custom_active (m : SetCustomMiningJob) (job_id : Z) (c c1 : ExtendedChannel) : Prop :=
  ∃ job, active_job (ec_job_store c1) = Some job ∧ get_job_id job = job_id ∧
    ej_origin job = OriginSetCustomMiningJob m ∧ rolls job ∧
    stale_jobs (ec_job_store c1) = stale_jobs (ec_job_store c) ∧
    ec_chain_tip c1 = Some (mkChainTip (cj_prev_hash m) (cj_nbits m) (cj_min_ntime m)).
Lemma new_custom_job_origin chk m p f j f' :
  new_extended_job_from_custom_job chk m p f = (Ok j, f') → ej_origin j = OriginSetCustomMiningJob m.
Proof.
  intros E. unfold new_extended_job_from_custom_job in E. inv_st.
  match goal with x : (bytes * bytes)%type |- _ => destruct x end. by inv_st.
Qed.
Lemma retire_active_stale {T} `{Job T} (s : DefaultJobStore T) :
  stale_jobs (JobStore.retire_active s) = stale_jobs s.
Proof. unfold JobStore.retire_active. by destruct (active_job s). Qed.
Lemma custom_job_active chk m c job_id c1 :
  jf_version_rolling_allowed (ec_job_factory c) = true →
  Extended.on_set_custom_mining_job chk m c = (Ok job_id, c1) → custom_active m job_id c c1.
Proof.
  intros Hf E. unfold Extended.on_set_custom_mining_job in E. inv_st. eexists.
  split; [reflexivity|]. split; [reflexivity|]. split; [by eapply new_custom_job_origin|].
  split; [by eapply custom_job_rolls; eauto|]. split; [by apply retire_active_stale|done].
Qed.
Lemma custom_job_reply m s job_id ch req s1 :
  handle_set_custom_mining_job false m s = (Ok (Respond (SetCustomMiningJobSuccess ch req job_id)), s1) →
  ∃ c c1, d_extended_channels (self s) !! cj_channel_id m = Some c ∧
    Extended.on_set_custom_mining_job false m c = (Ok job_id, c1) ∧
    d_extended_channels (self s1) !! cj_channel_id m = Some c1 ∧
    d_config (self s1) = d_config (self s).
Proof.
  intros E. unfold handle_set_custom_mining_job, config in E. inv_st. cbn zeta in E.
  destruct (negb _); [by inv_st|]. inv_st.
  destruct (d_extended_channels (self s) !! cj_channel_id m) as [c|] eqn:Ec; [|by inv_st].
  destruct (Extended.on_set_custom_mining_job false m c) as [r c1] eqn:Em.
  inv_st. match goal with Hx : extended_entry _ _ s = _ |- _ =>
    unfold extended_entry, with_entry in Hx; rewrite Ec, Em in Hx end.
  exists c, c1. destruct r; simplify_eq. split; [done|]. split; [done|].
  split; [apply lookup_insert_eq|done].
Qed.
Lemma custom_share_verdict m job_id c c1 e :
  ext_ready c1 → custom_active m job_id c c1 → stale_jobs (ec_job_store c) !! job_id = None →
  se_job_id e = job_id → (Extended.validate_share false e c1).1 ≠ Err InvalidShare →
  ∃ root, let hash := block_hash (share_header (se_version e) (se_ntime e) (se_nonce e) root
                        (mkChainTip (cj_prev_hash m) (cj_nbits m) (cj_min_ntime m))) in
    is_met_by (cj_nbits m) hash = true →
    ∃ cb, (Extended.validate_share false e c1).1 = Ok (BlockFound hash None cb).
Proof.
  intros Hr (job & Ha & Hi & Ho & Hroll & Hs & Ht) Hst He.
  pose proof (ext_share_answerable false e c1 Hr) as Hans.
  rewrite ext_validate_eq in *. rewrite He, (find_job_active job_id job) in * by (done || by rewrite Hs).
  cbn zeta in *. destruct (merkle_root_from_path _ _ _ _) as [root|]; [|done].
  destruct (negb (zlen root =? 32)); [done|]. rewrite Ht in *. intros _. exists root.
  cbn zeta. intros Hm. cbn [ct_nbits]. rewrite Hroll, Hm, Ho.
  match goal with |- context [account false ?t ?s ?h ?a] =>
    destruct (account_release (E := ShareValidationError) t s h a) as [a' ->] end.
  by eexists.
Qed.

(** ** The mint's table of channels *)

Lemma run_local_state {K A} (m : ST K ChannelError A) k s r s' :
  run_local m k s = (Ok r, s') → s' = s.
Proof. unfold run_local. destruct (m k) as [[] k']; by intros [=]. Qed.
Lemma open_error_reply id e r : open_error id e = Some r → ∃ m, r = Respond m.
Proof. destruct e; intros [= <-]; by eexists. Qed.
Lemma get_registered ch key d now m :
  get_channel_context ch (register_channel ch key d now m) = Some (mkChannelContext ch key d now).
Proof. apply lookup_insert_eq. Qed.
(** The first extended channel of a connection has number 1. *)
Lemma first_channel_registered cfg t prev w clock m l s' key :
  locking_key_bytes cfg = Some key →
  handle_open_extended_mining_channel false clock m (mkConn (new_downstream cfg t prev) w)
    = (Ok (Multiple l), s') →
  sh_tasks (shared s') = sh_tasks w ++ [RegisterTask 1 key (dc_id cfg)].
Proof.
  intros Hk E. unfold handle_open_extended_mining_channel, config in E. cbn zeta in E.
  destruct (negb _); [done|]. rewrite st_gets_bind in E. cbn [self d_config new_downstream] in E.
  apply st_bind_Ok in E as ([p|] & s1 & E1 & E); [|by inv_st].
  assert (self s1 = new_downstream cfg t prev ∧ sh_tasks (shared s1) = sh_tasks w) as [Hs <-].
  { destruct (ExtendedExtranonceOps.next_prefix_extended _ _) as [[] f]; by simplify_eq. }
  apply st_bind_Ok in E as (id & s2 & E2 & E).
  assert (id = 1 ∧ d_config (self s2) = cfg ∧ sh_tasks (shared s2) = sh_tasks (shared s1)) as (-> & Hc & <-).
  { unfold next_channel_id, zoom in E2. rewrite Hs in E2. cbn in E2. injection E2 as <- <-. cbn. by rewrite Hs. }
  destruct (Extended.new _ _ _ _ _ _ _ _ _ _ _ _ _) as [c|e|]; [| |done].
  - destruct (32 <? zlen p); [done|]. subst cfg. unfold register_with_mint, config in E. inv_st.
    rewrite Hk in *. unfold spawn in *. inv_st.
    match goal with H : (if requires_custom_work _ then _ else _) _ = _ |- _ =>
      destruct (requires_custom_work (d_config (self s2))); inv_st end;
    repeat match goal with H : run_local _ _ _ = (Ok _, _) |- _ => apply run_local_state in H; subst end; done.
  - destruct e; try (by inv_st); destruct (open_error _ _) as [r|] eqn:Eo; try done;
      apply open_error_reply in Eo as [? ->]; by inv_st.
Qed.
End rewards.

(** C22 A block is paid as often as it is sent: on any connection with a quote
    dispatcher, whatever led to it, a share that an extended channel reports as
    a block can be submitted [n] times in a row and every submission requests a
    quote for the same header hash; the duplicate check of [validate_share]
    stands behind the block check and is not reached. *)
Theorem block_share_replayed `{BitcoinLaws} `{MapIter} (cfg : DownstreamConfig) (t : NewTemplate)
    (prev : SetNewPrevHashTdp) (w : Shared) (s : Conn) (m : SubmitSharesExtended) (x : Submission)
    (hash coinbase : bytes) (template_id : option Z) (d : QuoteDispatcher) (now : Z) (n : nat) :
  wrap 32 (share_batch_size cfg) ≠ 0 →
  rtc (conn_step false) (mkConn (new_downstream cfg t prev) w) s →
  submission false (MinerSubmitExtended m) (self s) = Some x →
  sub_result x = Ok (BlockFound hash template_id coinbase) →
  quote_dispatcher (d_config (self s)) = Some d →
  sh_tasks (shared (resubmit now (MinerSubmitExtended m) n s)) =
    sh_tasks (shared s) ++
    replicate n (QuoteTask d (se_channel_id m) (se_sequence_number m) (header_hash_bytes hash)
                   (locking_key_bytes (d_config (self s)))).
Proof.
  intros Hb Hr. apply conn_ok_reachable in Hr; [|by apply conn_ok_new]. by apply resubmit_quotes.
Qed.

(** The miner of a custom job names the target its shares have to meet: once
    the pool has accepted a custom job, a share of that job whose header hash
    meets the difficulty bits of the miner's own message is reported as a block
    and earns a quote, whatever the channel's target and the pool's minimum
    difficulty. *)
Theorem custom_job_own_target `{BitcoinLaws} `{MapIter} (cfg : DownstreamConfig) (t : NewTemplate)
    (prev : SetNewPrevHashTdp) (w : Shared) (s s1 : Conn) (m : SetCustomMiningJob)
    (clock clock' : option Z) (channel_id request_id job_id : Z) (e : SubmitSharesExtended)
    (x : Submission) :
  wrap 32 (share_batch_size cfg) ≠ 0 →
  rtc (conn_step false) (mkConn (new_downstream cfg t prev) w) s →
  (∀ c, d_extended_channels (self s) !! cj_channel_id m = Some c →
        stale_jobs (ec_job_store c) !! job_id = None) →
  handle_message_mining false clock clock' (MinerSetCustomJob m) s
    = (Ok (Respond (SetCustomMiningJobSuccess channel_id request_id job_id)), s1) →
  se_channel_id e = cj_channel_id m → se_job_id e = job_id →
  submission false (MinerSubmitExtended e) (self s1) = Some x → sub_result x ≠ Err InvalidShare →
  ∃ root, let hash := block_hash (share_header (se_version e) (se_ntime e) (se_nonce e) root
                        (mkChainTip (cj_prev_hash m) (cj_nbits m) (cj_min_ntime m))) in
    is_met_by (cj_nbits m) hash = true →
    (∃ coinbase, sub_result x = Ok (BlockFound hash None coinbase)) ∧
    quoted (d_config (self s1)) (sub_result x) = Some (header_hash_bytes hash).
Proof.
  intros Hb Hr Hst E He Hj Hx Hi. apply conn_ok_reachable in Hr; [|by apply conn_ok_new].
  pose proof (keeps_message false clock clock' (MinerSetCustomJob m) s Hr) as Hs1. rewrite E in Hs1.
  apply custom_job_reply in E as (c & c1 & Hc & Em & Hc1 & _).
  assert (Hcust : custom_active m job_id c c1).
  { eapply custom_job_active; [|done]. by destruct (proj1 Hr _ _ Hc) as [(_ & Hv & _) _]. }
  cbn [submission] in Hx. rewrite He, Hc1 in Hx. cbn in Hx.
  pose proof (custom_share_verdict m job_id c c1 e (proj1 (proj1 Hs1 _ _ Hc1)) Hcust (Hst c Hc) Hj) as Hv.
  destruct (Extended.validate_share false e c1) as [r c'] eqn:Ev. injection Hx as <-. cbn [sub_result fst] in *.
  destruct (Hv Hi) as [root Hroot]. exists root. cbn zeta in *. intros Hm.
  destruct (Hroot Hm) as [cb ->]. split; [by eexists|done].
Qed.

(** Channels of different connections share one number in the mint's table:
    when two miners each open their first extended channel, both channels are
    registered under number 1, the later registration replaces the earlier, and
    the notification of a paid quote of the first miner is addressed to the
    second one's connection. *)
Theorem channel_contexts_collide `{BitcoinLaws} (cfg_a cfg_b : DownstreamConfig)
    (t t' : NewTemplate) (prev prev' : SetNewPrevHashTdp) (w : Shared) (clock clock' : option Z)
    (open_a open_b : OpenExtendedMiningChannel) (l_a l_b : list Reply) (s_a s_b : Conn)
    (key_a key_b : bytes) :
  locking_key_bytes cfg_a = Some key_a → locking_key_bytes cfg_b = Some key_b →
  handle_message_mining false clock None (MinerOpenExtended open_a)
    (mkConn (new_downstream cfg_a t prev) w) = (Ok (Multiple l_a), s_a) →
  handle_message_mining false clock' None (MinerOpenExtended open_b)
    (mkConn (new_downstream cfg_b t' prev') (shared s_a)) = (Ok (Multiple l_b), s_b) →
  ∃ task_a task_b,
    sh_tasks (shared s_b) = sh_tasks w ++ [task_a; task_b] ∧
    ∀ now now' manager downstreams quote_id amount,
      zlen quote_id ≤ 255 → dc_id cfg_b ∈ downstreams →
      QuotePoller.notification (run_registration now' task_b (run_registration now task_a manager))
        downstreams 1 quote_id amount
      = Ok (dc_id cfg_b, QuotePoller.mkNotification 1 quote_id amount).
Proof.
  intros Ha Hb Ea Eb.
  apply (first_channel_registered _ _ _ _ _ _ _ _ _ Ha) in Ea.
  apply (first_channel_registered _ _ _ _ _ _ _ _ _ Hb) in Eb.
  eexists _, _. split; [rewrite Eb, Ea, <- app_assoc; reflexivity|].
  intros now now' mgr ds q amount Hq Hd. unfold QuotePoller.notification. cbn [run_registration].
  rewrite try_from_vec_b0255 by done. rewrite get_registered. cbn. by rewrite bool_decide_eq_true_2.
Qed.

(** ** Examples *)

#[local] Existing Instance model_bitcoin.
#[local] Existing Instance model_bitcoin_laws.
#[local] Existing Instance sample_iter.

Definition sample_block : SubmitSharesExtended :=
  mkSubmitExtended 1 4 1 2 1700000001 0x20000000 (to_le_bytes 24 77).
(** A custom job that pays the pool's script and asks for next to no work. *)
Definition sample_custom : SetCustomMiningJob :=
  mkSetCustomMiningJob 1 5 [] 0x20000000 (to_le_bytes 32 1) 1700000000 0x2100ffff 2
    (to_le_bytes 4 3) 0xffffffff (outputs_serialize [mkTxOut 5000000000 (to_le_bytes 22 9)]) 0 [].
Definition sample_custom_conn : Conn :=
  (handle_message_mining false None None (MinerSetCustomJob sample_custom) sample_conn).2.
Definition sample_custom_share : SubmitSharesExtended :=
  mkSubmitExtended 1 4 2 7 1700000001 0x20000000 (to_le_bytes 24 77).

(** The verdict on a share of the example, from its evaluation. *)
Lemma sample_verdict m s r :
  sub_result <$> submission false (MinerSubmitExtended m) (self s) = Some r →
  ∃ x, submission false (MinerSubmitExtended m) (self s) = Some x ∧ sub_result x = r.
Proof. destruct (submission _ _ _) as [x|]; [|done]. intros [= <-]. by exists x. Qed.
Lemma sample_block_verdict :
  ∃ h cb, sub_result <$> submission false (MinerSubmitExtended sample_block) (self sample_conn)
          = Some (Ok (BlockFound h (Some 7) cb)).
Proof. eexists _, _. vm_compute. reflexivity. Qed.
Lemma block_share_replayed_witness :
  ∃ task, sh_tasks (shared (resubmit 1700000010 (MinerSubmitExtended sample_block) 3 sample_conn))
          = sh_tasks (shared sample_conn) ++ [task; task; task].
Proof.
  destruct sample_block_verdict as (h & cb & (x & Hx & Hr)%sample_verdict).
  eexists. refine (block_share_replayed (sample_config 1) (sample_template true) sample_prev sample_shared
    sample_conn sample_block x h cb (Some 7) (mkDispatcher None 32 true) 1700000010 3 _ _ Hx Hr _).
  - vm_compute. discriminate.
  - exact sample_conn_reached.
  - vm_compute. reflexivity.
Defined.

Lemma sample_custom_accepted :
  handle_message_mining false None None (MinerSetCustomJob sample_custom) sample_conn
  = (Ok (Respond (SetCustomMiningJobSuccess 1 5 2)), sample_custom_conn).
Proof.
  unfold sample_custom_conn. rewrite (surjective_pairing (handle_message_mining _ _ _ _ _)) at 1.
  f_equal.
Qed.
Lemma sample_custom_verdict :
  ∃ h cb, sub_result <$> submission false (MinerSubmitExtended sample_custom_share) (self sample_custom_conn)
          = Some (Ok (BlockFound h None cb)).
Proof. eexists _, _. vm_compute. reflexivity. Qed.
Lemma sample_no_stale c : d_extended_channels (self sample_conn) !! 1 = Some c → stale_jobs (ec_job_store c) !! 2 = None.
Proof.
  intros Hc. assert (Hn : (c ← d_extended_channels (self sample_conn) !! 1; stale_jobs (ec_job_store c) !! 2) = None)
    by (vm_compute; reflexivity).
  by rewrite Hc in Hn.
Qed.
Lemma custom_job_own_target_witness :
  ∃ x root, submission false (MinerSubmitExtended sample_custom_share) (self sample_custom_conn) = Some x ∧
    quoted (d_config (self sample_custom_conn)) (sub_result x)
    = Some (header_hash_bytes (block_hash (share_header 0x20000000 1700000001 7 root
        (mkChainTip (to_le_bytes 32 1) 0x2100ffff 1700000000)))).
Proof.
  destruct sample_custom_verdict as (h & cb & (x & Hx & Hr)%sample_verdict).
  destruct (custom_job_own_target (sample_config 1) (sample_template true) sample_prev sample_shared
    sample_conn sample_custom_conn sample_custom None None 1 5 2 sample_custom_share x) as [root Hroot].
  - vm_compute. discriminate.
  - exact sample_conn_reached.
  - exact sample_no_stale.
  - exact sample_custom_accepted.
  - reflexivity.
  - reflexivity.
  - exact Hx.
  - rewrite Hr. discriminate.
  - exact (ex_intro _ x (ex_intro _ root (conj Hx (proj2 (Hroot eq_refl))))).
Defined.

Definition sample_second : Conn :=
  (handle_message_mining false (Some 1700000005) None (MinerOpenExtended sample_open)
     (mkConn (new_downstream (sample_config 2) (sample_template true) sample_prev) (shared sample_conn))).2.
Lemma sample_opened clock s :
  (∃ l, (handle_message_mining false clock None (MinerOpenExtended sample_open) s).1 = Ok (Multiple l)) →
  ∃ l, handle_message_mining false clock None (MinerOpenExtended sample_open) s
       = (Ok (Multiple l), (handle_message_mining false clock None (MinerOpenExtended sample_open) s).2).
Proof. destruct (handle_message_mining _ _ _ _ _) as [r s']. intros [l [= ->]]. by exists l. Qed.
Lemma channel_contexts_collide_witness :
  ∃ task_a task_b, sh_tasks (shared sample_second) = [task_a; task_b] ∧
    QuotePoller.notification (run_registration 2 task_b (run_registration 1 task_a ∅)) {[1; 2]} 1 [] 8
    = Ok (2, QuotePoller.mkNotification 1 [] 8).
Proof.
  destruct (sample_opened (Some 1700000000) sample_conn0) as [la Ea]; [eexists; vm_compute; reflexivity|].
  destruct (sample_opened (Some 1700000005)
    (mkConn (new_downstream (sample_config 2) (sample_template true) sample_prev) (shared sample_conn)))
    as [lb Eb]; [eexists; vm_compute; reflexivity|].
  destruct (channel_contexts_collide (sample_config 1) (sample_config 2) (sample_template true)
    (sample_template true) sample_prev sample_prev sample_shared (Some 1700000000) (Some 1700000005)
    sample_open sample_open la lb sample_conn sample_second (to_le_bytes 33 2) (to_le_bytes 33 2)
    eq_refl eq_refl Ea Eb) as (ta & tb & Ht & Hn).
  exists ta, tb. split; [exact Ht|]. apply (Hn 1 2 ∅ {[1; 2]} [] 8).
  - vm_compute. discriminate.
  - apply (bool_decide_unpack _). vm_compute. exact I.
Defined.
