(* ===== verification/ClientChannels.v ===== *)
(** * Channels of a mining client

    [channels-sv2/src/client]: share accounting, the extended, standard and
    group channels a miner or proxy keeps for the jobs its upstream sends.  The
    jobs are the received messages themselves; an extended channel remembers
    with each job the extranonce prefix in force when it arrived. *)

From Stdlib Require Import SpecFloat.
From stdpp Require Import gmap.
From S2P Require Import Prelude Mining Difficulty Bitcoin Jobs Channels Downstream.
#[local] Open Scope Z_scope.
#[local] Open Scope list_scope.

Module Client.

(** ** Share accounting *)

Inductive ShareValidationResult : Type := Valid | BlockFound.
Inductive ShareValidationError : Type :=
  | Invalid
  | Stale
  | InvalidJobId
  | DoesNotMeetTarget
  | VersionRollingNotAllowed
  | DuplicateShare
  | NoChainTip.
Record ShareAccounting : Type := mkAccounting {
  last_share_sequence_number : Z;
  shares_accepted : Z;
  share_work_sum : Z;
  seen_shares : gset bytes;
  best_diff : f64 }.
Definition accounting_new : ShareAccounting := mkAccounting 0 0 0 ∅ (S754_zero false).
Definition update_share_accounting {E} (overflow_checks : bool) (share_work share_sequence_number : Z)
    (share_hash : bytes) (a : ShareAccounting) : result E ShareAccounting :=
  accepted ← add_over overflow_checks 32 (shares_accepted a) 1;
  work ← add_over overflow_checks 64 (share_work_sum a) share_work;
  Ok (mkAccounting share_sequence_number accepted work ({[share_hash]} ∪ seen_shares a) (best_diff a)).
Definition flush_seen_shares (a : ShareAccounting) : ShareAccounting :=
  mkAccounting (last_share_sequence_number a) (shares_accepted a) (share_work_sum a) ∅ (best_diff a).
Definition is_share_seen (share_hash : bytes) (a : ShareAccounting) : bool :=
  bool_decide (share_hash ∈ seen_shares a).
Definition update_best_diff (diff : f64) (a : ShareAccounting) : ShareAccounting :=
  if SFltb (best_diff a) diff
  then mkAccounting (last_share_sequence_number a) (shares_accepted a) (share_work_sum a)
         (seen_shares a) diff
  else a.

(** [hash_as_target < self.target]. *)
Definition Target_lt (a b : Target) : bool :=
  match Target_cmp a b with Lt => true | _ => false end.

(** The part of [validate_share] after the header is built, the same in both
    kinds of channel. *)
Definition judge `{Bitcoin} (overflow_checks : bool) (target : Target) (sequence_number : Z)
    (nbits : Z) (hash : bytes) : ST ShareAccounting ShareValidationError ShareValidationResult :=
  let hash_as_target := Target_from_bytes hash in
  let account : ST ShareAccounting ShareValidationError unit := λ a,
    match update_share_accounting (E := ShareValidationError) overflow_checks (share_work target)
            sequence_number hash a with
    | Ok a => (Ok tt, a)
    | Err e => (Err e, a)
    | Panic => (Panic, a)
    end in
  if is_met_by nbits hash then _ ← account; mret BlockFound
  else if Target_lt hash_as_target target then
    seen ← gets (is_share_seen hash);
    match seen with
    | true => throw DuplicateShare
    | false =>
        _ ← account;
        _ ← modify (update_best_diff (target_to_difficulty hash_as_target));
        mret Valid
    end
  else throw DoesNotMeetTarget.

(** ** Extended channels *)

Inductive ExtendedChannelError : Type :=
  | NewExtranoncePrefixTooLarge
  | JobIdNotFound
  | FailedToTryToStripBip141 (e : StripBip141Error)
  | FailedToStripBip141
  | FailedToSerializeToB064K
  | FailedToDeserializeCoinbaseOutputs
  | ChannelIdMismatch
  | RequestIdMismatch
  | ExtendedNoChainTip
  | ChainTipMismatch.

Notation ExtendedJob := (NewExtendedMiningJob * bytes)%type.
Record ExtendedChannel : Type := mkExtended {
  x_channel_id : Z;
  x_user_identity : bytes;
  x_extranonce_prefix : bytes;
  x_rollable_extranonce_size : Z;
  x_target : Target;
  x_nominal_hashrate : f32;
  x_version_rolling : bool;
  x_future_jobs : gmap Z ExtendedJob;
  x_active_job : option ExtendedJob;
  x_past_jobs : gmap Z ExtendedJob;
  x_stale_jobs : gmap Z ExtendedJob;
  x_share_accounting : ShareAccounting;
  x_chain_tip : option ChainTip }.

Definition x_set_prefix p n c :=
  mkExtended (x_channel_id c) (x_user_identity c) p n (x_target c) (x_nominal_hashrate c)
    (x_version_rolling c) (x_future_jobs c) (x_active_job c) (x_past_jobs c) (x_stale_jobs c)
    (x_share_accounting c) (x_chain_tip c).
Definition x_set_target t c :=
  mkExtended (x_channel_id c) (x_user_identity c) (x_extranonce_prefix c)
    (x_rollable_extranonce_size c) t (x_nominal_hashrate c) (x_version_rolling c) (x_future_jobs c)
    (x_active_job c) (x_past_jobs c) (x_stale_jobs c) (x_share_accounting c) (x_chain_tip c).
Definition x_set_jobs fu ac pa st c :=
  mkExtended (x_channel_id c) (x_user_identity c) (x_extranonce_prefix c)
    (x_rollable_extranonce_size c) (x_target c) (x_nominal_hashrate c) (x_version_rolling c)
    fu ac pa st (x_share_accounting c) (x_chain_tip c).
Definition x_set_accounting a c :=
  mkExtended (x_channel_id c) (x_user_identity c) (x_extranonce_prefix c)
    (x_rollable_extranonce_size c) (x_target c) (x_nominal_hashrate c) (x_version_rolling c)
    (x_future_jobs c) (x_active_job c) (x_past_jobs c) (x_stale_jobs c) a (x_chain_tip c).
Definition x_set_chain_tip t c :=
  mkExtended (x_channel_id c) (x_user_identity c) (x_extranonce_prefix c)
    (x_rollable_extranonce_size c) (x_target c) (x_nominal_hashrate c) (x_version_rolling c)
    (x_future_jobs c) (x_active_job c) (x_past_jobs c) (x_stale_jobs c) (x_share_accounting c) t.

Definition with_min_ntime (min_ntime : Z) (m : NewExtendedMiningJob) : NewExtendedMiningJob :=
  mkNewExtendedMiningJob (xj_channel_id m) (xj_job_id m) (Some min_ntime) (xj_version m)
    (xj_version_rolling_allowed m) (xj_merkle_path m) (xj_coinbase_tx_prefix m)
    (xj_coinbase_tx_suffix m).
Definition with_halves (p s : bytes) (m : NewExtendedMiningJob) : NewExtendedMiningJob :=
  mkNewExtendedMiningJob (xj_channel_id m) (xj_job_id m) (xj_min_ntime m) (xj_version m)
    (xj_version_rolling_allowed m) (xj_merkle_path m) p s.
(** [SetNewPrevHash] (mining protocol) into a chain tip. *)
Definition ChainTip_from_mp (m : SetNewPrevHashMp) : ChainTip :=
  mkChainTip (ph_prev_hash m) (ph_nbits m) (ph_min_ntime m).
(** [SetCustomMiningJobSuccess]. *)
Record CustomJobSuccess : Type := mkCustomSuccess {
  cs_channel_id : Z;
  cs_request_id : Z;
  cs_job_id : Z }.

Module Extended.
Section extended.
Context `{Bitcoin} (overflow_checks : bool).
Notation CHAN := (ST ExtendedChannel ExtendedChannelError).

Definition new (channel_id : Z) (user_identity extranonce_prefix : bytes) (target : Target)
    (nominal_hashrate : f32) (version_rolling : bool) (rollable_extranonce_size : Z)
    : ExtendedChannel :=
  mkExtended channel_id user_identity extranonce_prefix rollable_extranonce_size target
    nominal_hashrate version_rolling ∅ None ∅ ∅ accounting_new None.
Definition set_chain_tip (t : ChainTip) : ExtendedChannel → ExtendedChannel := x_set_chain_tip (Some t).
Definition set_extranonce_prefix (new_extranonce_prefix : bytes) : CHAN unit :=
  size ← lift (if overflow_checks
               then sub_chk MAX_EXTRANONCE_LEN (wrap 16 (zlen new_extranonce_prefix))
               else Ok (wrap 16 (MAX_EXTRANONCE_LEN - zlen new_extranonce_prefix)));
  old ← gets x_rollable_extranonce_size;
  if size <? old then throw NewExtranoncePrefixTooLarge
  else modify (x_set_prefix new_extranonce_prefix size).
Definition set_target (t : Target) : ExtendedChannel → ExtendedChannel := x_set_target t.

(** The active job moves to the past jobs and [job] takes its place. *)
Definition activate (job : ExtendedJob) (c : ExtendedChannel) : ExtendedChannel :=
  let past := match x_active_job c with
              | Some a => <[xj_job_id a.1 := a]> (x_past_jobs c)
              | None => x_past_jobs c
              end in
  x_set_jobs (x_future_jobs c) (Some job) past (x_stale_jobs c) c.

Definition on_new_extended_mining_job (m : NewExtendedMiningJob) : CHAN unit :=
  stripped ← lift (map_err FailedToTryToStripBip141
    (try_strip_bip141 (xj_coinbase_tx_prefix m) (xj_coinbase_tx_suffix m)));
  m ← match stripped with
      | Some (p, s) =>
          p ← lift (try_b064k FailedToSerializeToB064K p);
          s ← lift (try_b064k FailedToSerializeToB064K s);
          mret (with_halves p s m)
      | None => mret m
      end;
  prefix ← gets x_extranonce_prefix;
  match xj_min_ntime m with
  | Some _ => modify (activate (m, prefix))
  | None => modify (λ c, x_set_jobs (<[xj_job_id m := (m, prefix)]> (x_future_jobs c))
                          (x_active_job c) (x_past_jobs c) (x_stale_jobs c) c)
  end.

Definition on_set_custom_mining_job_success (m : SetCustomMiningJob) (success : CustomJobSuccess)
    : CHAN unit :=
  channel_id ← gets x_channel_id;
  if negb (cj_channel_id m =? cs_channel_id success) || negb (cj_channel_id m =? channel_id)
  then throw ChannelIdMismatch
  else if negb (cj_request_id m =? cs_request_id success) then throw RequestIdMismatch
  else
  tip ← gets x_chain_tip;
  chain_tip ← lift (ok_or tip ExtendedNoChainTip);
  if negb (cj_min_ntime m =? ct_min_ntime chain_tip)
     || negb (bool_decide (cj_prev_hash m = ct_prev_hash chain_tip))
     || negb (cj_nbits m =? ct_nbits chain_tip)
  then throw ChainTipMismatch
  else
  serialized_coinbase ← lift (map_err (λ _, FailedToDeserializeCoinbaseOutputs) (custom_coinbase m));
  let serialized_coinbase := tx_serialize serialized_coinbase in
  prefix ← lift (slice_range serialized_coinbase 0 (custom_index m));
  suffix ← lift (slice_from serialized_coinbase (custom_index m + MAX_EXTRANONCE_LEN));
  stripped ← lift (map_err FailedToTryToStripBip141 (try_strip_bip141 prefix suffix));
  '(p, s) ← lift (ok_or stripped FailedToStripBip141);
  rolling ← gets x_version_rolling;
  p ← lift (try_b064k FailedToSerializeToB064K p);
  s ← lift (try_b064k FailedToSerializeToB064K s);
  extranonce_prefix ← gets x_extranonce_prefix;
  modify (activate
    (mkNewExtendedMiningJob (cj_channel_id m) (cs_job_id success) (Some (cj_min_ntime m))
       (cj_version m) rolling (cj_merkle_path m) p s, extranonce_prefix)).

(** What a new chain tip does to the jobs: future jobs go, past ones are stale. *)
Definition retire (active : option ExtendedJob) (c : ExtendedChannel) : ExtendedChannel :=
  let c := x_set_jobs ∅ active ∅ (x_past_jobs c) c in
  x_set_accounting (flush_seen_shares (x_share_accounting c)) c.
Definition on_chain_tip_update (chain_tip : ChainTip) (c : ExtendedChannel) : ExtendedChannel :=
  retire (x_active_job c) (x_set_chain_tip (Some chain_tip) c).
Definition on_set_new_prev_hash (m : SetNewPrevHashMp) : CHAN unit := λ c,
  match x_future_jobs c !! ph_job_id m with
  | None => (Err JobIdNotFound, c)
  | Some (job, prefix) =>
      (Ok tt, x_set_chain_tip (Some (ChainTip_from_mp m))
                (retire (Some (with_min_ntime (ph_min_ntime m) job, prefix)) c))
  end.

(** The job a share refers to. *)
Definition find (job_id : Z) (c : ExtendedChannel) : result ShareValidationError ExtendedJob :=
  if bool_decide (is_Some (x_stale_jobs c !! job_id)) then Err Stale
  else
    match x_active_job c with
    | Some job =>
        if xj_job_id job.1 =? job_id then Ok job else ok_or (x_past_jobs c !! job_id) InvalidJobId
    | None => ok_or (x_past_jobs c !! job_id) InvalidJobId
    end.
Definition validate_share (share : SubmitSharesExtended)
    : ST ExtendedChannel ShareValidationError ShareValidationResult :=
  job ← gets (find (se_job_id share));
  '(m, prefix) ← lift job;
  let full_extranonce := prefix ++ se_extranonce share in
  merkle_root ← lift (ok_or (merkle_root_from_path (xj_coinbase_tx_prefix m)
    (xj_coinbase_tx_suffix m) full_extranonce (xj_merkle_path m)) Invalid);
  if negb (zlen merkle_root =? 32) then panic
  else
  tip ← gets x_chain_tip;
  chain_tip ← lift (ok_or tip NoChainTip);
  if negb (xj_version_rolling_allowed m) && negb (Z.land (se_version share) 0x1fffe000 =? 0)
  then throw VersionRollingNotAllowed
  else
  let header :=
    share_header (se_version share) (se_ntime share) (se_nonce share) merkle_root chain_tip in
  target ← gets x_target;
  zoom x_share_accounting x_set_accounting
    (judge overflow_checks target (se_sequence_number share) (ct_nbits chain_tip) (block_hash header)).
End extended.
End Extended.

(** ** Standard channels *)

Inductive StandardChannelError : Type := StandardJobIdNotFound | StandardPrefixTooLarge.
Record StandardChannel : Type := mkStandard {
  s_channel_id : Z;
  s_user_identity : bytes;
  s_extranonce_prefix : bytes;
  s_target : Target;
  s_nominal_hashrate : f32;
  s_future_jobs : gmap Z NewMiningJob;
  s_active_job : option NewMiningJob;
  s_past_jobs : gmap Z NewMiningJob;
  s_stale_jobs : gmap Z NewMiningJob;
  s_share_accounting : ShareAccounting;
  s_chain_tip : option ChainTip }.

Definition s_set_prefix p c :=
  mkStandard (s_channel_id c) (s_user_identity c) p (s_target c) (s_nominal_hashrate c)
    (s_future_jobs c) (s_active_job c) (s_past_jobs c) (s_stale_jobs c) (s_share_accounting c)
    (s_chain_tip c).
Definition s_set_target t c :=
  mkStandard (s_channel_id c) (s_user_identity c) (s_extranonce_prefix c) t (s_nominal_hashrate c)
    (s_future_jobs c) (s_active_job c) (s_past_jobs c) (s_stale_jobs c) (s_share_accounting c)
    (s_chain_tip c).
Definition s_set_jobs fu ac pa st c :=
  mkStandard (s_channel_id c) (s_user_identity c) (s_extranonce_prefix c) (s_target c)
    (s_nominal_hashrate c) fu ac pa st (s_share_accounting c) (s_chain_tip c).
Definition s_set_accounting a c :=
  mkStandard (s_channel_id c) (s_user_identity c) (s_extranonce_prefix c) (s_target c)
    (s_nominal_hashrate c) (s_future_jobs c) (s_active_job c) (s_past_jobs c) (s_stale_jobs c) a
    (s_chain_tip c).
Definition s_set_chain_tip t c :=
  mkStandard (s_channel_id c) (s_user_identity c) (s_extranonce_prefix c) (s_target c)
    (s_nominal_hashrate c) (s_future_jobs c) (s_active_job c) (s_past_jobs c) (s_stale_jobs c)
    (s_share_accounting c) t.

Module Standard.
Section standard.
Context `{Bitcoin} (overflow_checks : bool).
Notation CHAN := (ST StandardChannel StandardChannelError).

Definition new (channel_id : Z) (user_identity extranonce_prefix : bytes) (target : Target)
    (nominal_hashrate : f32) : StandardChannel :=
  mkStandard channel_id user_identity extranonce_prefix target nominal_hashrate ∅ None ∅ ∅
    accounting_new None.
Definition set_chain_tip (t : ChainTip) : StandardChannel → StandardChannel := s_set_chain_tip (Some t).
Definition set_extranonce_prefix (extranonce_prefix : bytes) : CHAN unit :=
  if MAX_EXTRANONCE_LEN <? zlen extranonce_prefix then throw StandardPrefixTooLarge
  else modify (s_set_prefix extranonce_prefix).
Definition set_target (t : Target) : StandardChannel → StandardChannel := s_set_target t.
Definition on_new_mining_job (m : NewMiningJob) (c : StandardChannel) : StandardChannel :=
  match mj_min_ntime m with
  | Some _ =>
      let past := match s_active_job c with
                  | Some a => <[mj_job_id a := a]> (s_past_jobs c)
                  | None => s_past_jobs c
                  end in
      s_set_jobs (s_future_jobs c) (Some m) past (s_stale_jobs c) c
  | None => s_set_jobs (<[mj_job_id m := m]> (s_future_jobs c)) (s_active_job c) (s_past_jobs c)
              (s_stale_jobs c) c
  end.
Definition on_new_group_channel_job (m : NewExtendedMiningJob) : CHAN unit :=
  channel_id ← gets s_channel_id;
  prefix ← gets s_extranonce_prefix;
  merkle_root ← lift (unwrap (merkle_root_from_path (xj_coinbase_tx_prefix m)
    (xj_coinbase_tx_suffix m) prefix (xj_merkle_path m)));
  if negb (zlen merkle_root =? 32) then panic
  else modify (on_new_mining_job
    (mkNewMiningJob channel_id (xj_job_id m) (xj_min_ntime m) (xj_version m) merkle_root)).
Definition on_set_new_prev_hash (m : SetNewPrevHashMp) : CHAN unit := λ c,
  match s_future_jobs c !! ph_job_id m with
  | None => (Err StandardJobIdNotFound, c)
  | Some job =>
      let job := mkNewMiningJob (mj_channel_id job) (mj_job_id job) (Some (ph_min_ntime m))
                   (mj_version job) (mj_merkle_root job) in
      let c := s_set_jobs ∅ (Some job) ∅ (s_past_jobs c) c in
      let c := s_set_accounting (flush_seen_shares (s_share_accounting c)) c in
      (Ok tt, s_set_chain_tip (Some (ChainTip_from_mp m)) c)
  end.
Definition find (job_id : Z) (c : StandardChannel) : result ShareValidationError NewMiningJob :=
  if bool_decide (is_Some (s_stale_jobs c !! job_id)) then Err Stale
  else
    match s_active_job c with
    | Some job =>
        if mj_job_id job =? job_id then Ok job else ok_or (s_past_jobs c !! job_id) InvalidJobId
    | None => ok_or (s_past_jobs c !! job_id) InvalidJobId
    end.
Definition validate_share (share : SubmitSharesStandard)
    : ST StandardChannel ShareValidationError ShareValidationResult :=
  job ← gets (find (ss_job_id share));
  m ← lift job;
  if negb (zlen (mj_merkle_root m) =? 32) then panic
  else
  tip ← gets s_chain_tip;
  chain_tip ← lift (ok_or tip NoChainTip);
  let header :=
    share_header (ss_version share) (ss_ntime share) (ss_nonce share) (mj_merkle_root m) chain_tip in
  target ← gets s_target;
  zoom s_share_accounting s_set_accounting
    (judge overflow_checks target (ss_sequence_number share) (ct_nbits chain_tip) (block_hash header)).
End standard.
End Standard.

(** ** Group channels *)

Inductive GroupChannelError : Type := GroupJobIdNotFound.
Record GroupChannel : Type := mkGroup {
  g_group_channel_id : Z;
  g_standard_channel_ids : gset Z;
  g_future_jobs : gmap Z NewExtendedMiningJob;
  g_active_job : option NewExtendedMiningJob }.

Module Group.
Definition new (group_channel_id : Z) : GroupChannel := mkGroup group_channel_id ∅ ∅ None.
Definition add_standard_channel_id (id : Z) (c : GroupChannel) : GroupChannel :=
  mkGroup (g_group_channel_id c) ({[id]} ∪ g_standard_channel_ids c) (g_future_jobs c) (g_active_job c).
Definition remove_standard_channel_id (id : Z) (c : GroupChannel) : GroupChannel :=
  mkGroup (g_group_channel_id c) (g_standard_channel_ids c ∖ {[id]}) (g_future_jobs c) (g_active_job c).
Definition on_new_extended_mining_job (m : NewExtendedMiningJob) (c : GroupChannel) : GroupChannel :=
  match xj_min_ntime m with
  | Some _ => mkGroup (g_group_channel_id c) (g_standard_channel_ids c) (g_future_jobs c) (Some m)
  | None => mkGroup (g_group_channel_id c) (g_standard_channel_ids c)
              (<[xj_job_id m := m]> (g_future_jobs c)) (g_active_job c)
  end.
Definition on_set_new_prev_hash (m : SetNewPrevHashMp) : ST GroupChannel GroupChannelError unit := λ c,
  match g_future_jobs c !! ph_job_id m with
  | None => (Err GroupJobIdNotFound, c)
  | Some job => (Ok tt, mkGroup (g_group_channel_id c) (g_standard_channel_ids c) ∅ (Some job))
  end.
End Group.
End Client.
