(* ===== verification/Agreement.v ===== *)
(** * A client's channel follows the server's

    The jobs, chain tips and targets of a server's extended channel, sent as
    messages, keep a client's channel in step with it.  Whatever share the
    client accepts before sending it, the server accepts. *)

From Stdlib Require Import SpecFloat.
From stdpp Require Import gmap.
From S2P Require Import Prelude Mining MiningProperties Difficulty Bitcoin BitcoinModel Jobs JobFacts Channels ChannelProperties Downstream DownstreamFacts ClientChannels.
#[local] Open Scope Z_scope.
#[local] Open Scope list_scope.

(** ** Job numbers of a store *)

Section ids.
Context {T : Type} `{Job T}.

(** A job for which shares are accepted. *)
Definition live (s : DefaultJobStore T) (id : Z) : Prop :=
  is_Some (past_jobs s !! id) ∨ ∃ j, active_job s = Some j ∧ get_job_id j = id.
(** The numbers given out so far are at most [n]; a live job is neither stale
    nor in the future. *)
Definition ids_ok (n : Z) (s : DefaultJobStore T) : Prop :=
  (∀ id j, future_jobs s !! id = Some j → get_job_id j = id ∧ id ≤ n) ∧
  (∀ id, live s id → id ≤ n ∧ stale_jobs s !! id = None ∧ future_jobs s !! id = None) ∧
  (∀ id, is_Some (stale_jobs s !! id) → id ≤ n).

Lemma ids_new : ids_ok 0 JobStore.new.
Proof.
  split; [|split].
  - intros id j. cbn. by rewrite lookup_empty.
  - intros id [[j Hj]|(j & Hj & _)]; [|done]. cbn in Hj. by rewrite lookup_empty in Hj.
  - intros id [j Hj]. cbn in Hj. by rewrite lookup_empty in Hj.
Qed.
Lemma live_retire s id : live (JobStore.retire_active s) id → live s id.
Proof.
  unfold JobStore.retire_active. destruct (active_job s) as [a|] eqn:Ea; [|done].
  intros [[j Hj]|(j & Hj & _)]; [|done]. cbn [past_jobs] in Hj.
  apply lookup_insert_Some in Hj as [[<- <-]|[_ Hj]]; [right; eauto|left; eauto].
Qed.
Lemma ids_future n tid j s :
  get_job_id j = n + 1 → ids_ok n s → ids_ok (n + 1) (JobStore.add_future_job tid j s).
Proof.
  intros Hj (Hf & Hl & Hs). split; [|split].
  - intros id j' Hid. cbn in Hid. apply lookup_insert_Some in Hid as [[<- <-]|[_ Hid]]; [lia|].
    apply Hf in Hid as [? ?]. lia.
  - intros id Hid. destruct (Hl id Hid) as (Hn & Hst & Hfu). split; [lia|]. split; [done|].
    cbn. rewrite lookup_insert_ne by lia. done.
  - intros id Hid. specialize (Hs id Hid). lia.
Qed.
Lemma retire_stale s : stale_jobs (JobStore.retire_active s) = stale_jobs s.
Proof. unfold JobStore.retire_active. by destruct (active_job s). Qed.
Lemma retire_future s : future_jobs (JobStore.retire_active s) = future_jobs s.
Proof. unfold JobStore.retire_active. by destruct (active_job s). Qed.
Lemma ids_active n j s :
  get_job_id j = n + 1 → ids_ok n s → ids_ok (n + 1) (JobStore.add_active_job j s).
Proof.
  intros Hj (Hf & Hl & Hs). unfold ids_ok, JobStore.add_active_job, JobStore.set_active. cbn.
  rewrite retire_stale, retire_future. split; [|split].
  - intros id j' Hid. apply Hf in Hid as [? ?]. lia.
  - intros id [Hp|(j' & [= <-] & <-)].
    + destruct (Hl id) as (Hn & Hst & Hfu); [apply live_retire; by left|]. split; [lia|done].
    + split; [lia|]. split; apply eq_None_not_Some; rewrite Hj.
      * intros Hst%Hs. lia.
      * intros [j' Hfu]. apply Hf in Hfu as [? ?]. lia.
  - intros id Hid. specialize (Hs id Hid). lia.
Qed.
(** The store after the activation of job [j]. *)
Lemma activate_Ok tid ts s s' :
  JobStore.activate_future_job tid ts s = (true, s') →
  ∃ id j, future_jobs s !! id = Some j ∧ future_template_to_job_id s !! tid = Some id ∧
    s' = mkJobStore ∅ ∅ (Some (job_activate ts j)) ∅ (past_jobs (JobStore.retire_active s)).
Proof.
  unfold JobStore.activate_future_job. destruct (_ !! tid) as [id|] eqn:Et; [|done]. cbn [future_jobs].
  destruct (future_jobs s !! id) as [j|] eqn:Ej; [|done]. intros [= <-]. exists id, j.
  split; [done|]. split; [done|]. unfold JobStore.retire_active. cbn. by destruct (active_job s).
Qed.
Lemma ids_activate n tid ts s s' :
  (∀ j, get_job_id (job_activate ts j) = get_job_id j) →
  JobStore.activate_future_job tid ts s = (true, s') → ids_ok n s → ids_ok n s'.
Proof.
  intros Hact (id & j & Hj & _ & ->)%activate_Ok (Hf & Hl & Hs). split; [|split].
  - intros id' j'. cbn. by rewrite lookup_empty.
  - intros id' [[j' Hj']|(j' & [= <-] & <-)]; [cbn in Hj'; by rewrite lookup_empty in Hj'|].
    rewrite Hact. destruct (Hf _ _ Hj) as [-> Hn]. split; [done|]. split; [|apply lookup_empty].
    cbn. apply eq_None_not_Some. intros Hp. destruct (Hl id) as (_ & _ & Hx); [|congruence].
    apply live_retire. by left.
  - intros id' Hid. destruct (Hl id') as (Hn & _); [|done]. apply live_retire. by left.
Qed.
End ids.

(** ** The messages of a server's jobs *)

Section messages.
Context `{BitcoinLaws} (chk : bool).

(** A coinbase without BIP 141 data is left alone. *)
Lemma strip_legacy c :
  coinbase_wf c → try_strip_bip141 (legacy_prefix c) (legacy_suffix c) = Ok None.
Proof.
  intros Hwf. pose proof Hwf as (Hv & _ & Hl & _ & Ho & Hn). unfold try_strip_bip141.
  change (replicate 32 (byte.of_Z 0)) with empty_extranonce.
  rewrite legacy_split by done. unfold legacy_bytes. cbn [coinbase_tx tx_version tx_input tx_output lock_time].
  rewrite law_decode_version by done. cbn [ok_or mbind result_bind].
  destruct (coinbase_tx_wf c empty_extranonce eq_refl Hwf) as (_ & _ & Hi & _).
  rewrite law_decode_inputs by done. cbn [ok_or mbind result_bind].
  rewrite law_decode_outputs by done. cbn [ok_or mbind result_bind].
  rewrite <- (app_nil_r (to_le_bytes 4 (cb_lock_time c))), law_decode_lock_time by done.
  cbn [ok_or mbind result_bind]. rewrite bool_decide_eq_true_2; [done|].
  by rewrite law_txid, law_wtxid, law_serialize.
Qed.

(** What a job message says beyond its coinbase. *)
Definition job_numbered (n : Z) (future : bool) (pre : bytes) (f : JobFactory) (j : ExtendedJob) : Prop :=
  get_job_id j = n + 1 ∧ job_id_state f = n + 1 ∧ ej_extranonce_prefix j = pre ∧
  xj_version_rolling_allowed (ej_job_message j) = jf_version_rolling_allowed f ∧
  (if future then xj_min_ntime (ej_job_message j) = None else is_Some (xj_min_ntime (ej_job_message j))).
Lemma next_job_number {E} f n f' :
  0 ≤ job_id_state f → job_id_state f + 1 < 2 ^ 32 → next_job_id (E := E) chk f = (Ok n, f') →
  n = job_id_state f + 1 ∧ job_id_state f' = n.
Proof.
  intros Hnn Hb [-> Hn]%next_job_id_Ok. split; [|done]. unfold add_over, add_chk in Hn.
  destruct chk; [destruct (_ <? _); congruence|]. rewrite wrap_small in Hn by (unfold fits; lia). congruence.
Qed.
Lemma new_extended_job_numbered id tip pre t outs f job f' :
  0 ≤ job_id_state f → job_id_state f + 1 < 2 ^ 32 →
  new_extended_job chk id tip pre t outs f = (Ok job, f') →
  job_numbered (job_id_state f) (nt_future_template t) pre f' job.
Proof.
  intros Hnn Hb Hj. unfold new_extended_job in Hj. inv_st.
  match goal with Hn : next_job_id _ _ = _ |- _ => apply next_job_number in Hn as [-> Hn]; [|done|done] end.
  match goal with x : (bytes * bytes)%type |- _ => destruct x end. inv_st.
  match goal with Hf : ExtendedJob_from_template _ _ _ _ _ _ = Ok _ |- _ =>
    unfold ExtendedJob_from_template in Hf; apply bind_Ok in Hf as (? & _ & Hf); injection Hf as <- end.
  unfold job_numbered. cbn. destruct (nt_future_template t); inv_st; eauto.
Qed.
Lemma new_custom_job_numbered m pre f job f' :
  0 ≤ job_id_state f → job_id_state f + 1 < 2 ^ 32 →
  new_extended_job_from_custom_job chk m pre f = (Ok job, f') →
  job_numbered (job_id_state f) false pre f' job.
Proof.
  intros Hnn Hb Hj. unfold new_extended_job_from_custom_job in Hj. inv_st.
  match goal with Hn : next_job_id _ _ = _ |- _ => apply next_job_number in Hn as [-> Hn]; [|done|done] end.
  match goal with x : (bytes * bytes)%type |- _ => destruct x end. inv_st.
  unfold job_numbered. cbn. eauto.
Qed.
End messages.

(** ** Channels in step *)

Definition view (j : ExtendedJob) : Client.ExtendedJob := (ej_job_message j, ej_extranonce_prefix j).

Record in_step (c : ExtendedChannel) (k : Client.ExtendedChannel) : Prop := {
  st_channel : Client.x_channel_id k = ec_channel_id c;
  st_rolling : Client.x_version_rolling k = jf_version_rolling_allowed (ec_job_factory c);
  st_prefix : Client.x_extranonce_prefix k = ec_extranonce_prefix c;
  st_target : Client.x_target k = ec_target c;
  st_tip : Client.x_chain_tip k = ec_chain_tip c;
  st_future : Client.x_future_jobs k = view <$> future_jobs (ec_job_store c);
  st_active : Client.x_active_job k = view <$> active_job (ec_job_store c);
  st_past : Client.x_past_jobs k = view <$> past_jobs (ec_job_store c);
  st_stale : ∀ id, is_Some (Client.x_stale_jobs k !! id) → is_Some (stale_jobs (ec_job_store c) !! id);
  st_seen : Client.seen_shares (Client.x_share_accounting k) = seen_shares (ec_share_accounting c) }.

(** What the server's channel keeps for itself. *)
Definition server_ok `{Bitcoin} (c : ExtendedChannel) : Prop :=
  ext_inv c ∧ 0 ≤ job_id_state (ec_job_factory c) ∧
  ids_ok (job_id_state (ec_job_factory c)) (ec_job_store c) ∧
  wrap 32 (Channels.share_batch_size (ec_share_accounting c)) ≠ 0.

Section steps.
Context `{BitcoinLaws} (chk : bool).

(** A job of the server's store, as its message arrives at the client. *)
Lemma receive_job j k :
  ext_job_ok j → ej_extranonce_prefix j = Client.x_extranonce_prefix k →
  Client.Extended.on_new_extended_mining_job (ej_job_message j) k =
  (Ok tt, match xj_min_ntime (ej_job_message j) with
          | Some _ => Client.Extended.activate (view j) k
          | None => Client.x_set_jobs (<[get_job_id j := view j]> (Client.x_future_jobs k))
                      (Client.x_active_job k) (Client.x_past_jobs k) (Client.x_stale_jobs k) k
          end).
Proof.
  intros (cb & Hwf & _ & _ & Hp & Hs) Hpre. unfold Client.Extended.on_new_extended_mining_job.
  rewrite Hp, Hs, strip_legacy by done. cbn [map_err]. rewrite st_lift_bind. unfold view. rewrite Hpre.
  unfold mbind, ST_bind. cbn. by destruct (xj_min_ntime (ej_job_message j)).
Qed.
Lemma make_job_spec tip t outs c j c' :
  template_ok t outs → server_ok c → job_id_state (ec_job_factory c) + 1 < 2 ^ 32 →
  Extended.make_job chk tip t outs c = (Ok j, c') →
  ext_job_ok j ∧ ∃ f, c' = ec_set_job_factory f c ∧
  jf_version_rolling_allowed f = jf_version_rolling_allowed (ec_job_factory c) ∧
  job_numbered (job_id_state (ec_job_factory c)) (nt_future_template t) (ec_extranonce_prefix c) f j.
Proof.
  intros Hok (_ & Hnn & _) Hb E. unfold Extended.make_job in E. inv_st.
  match goal with Hj : new_extended_job _ _ _ _ _ _ _ = _ |- _ =>
    pose proof (new_extended_job_numbered chk _ _ _ _ _ _ _ _ Hnn Hb Hj) as Hnum;
    destruct (new_extended_job_spec chk _ _ _ _ _ _ _ _ Hok Hj) as (? & _ & Hof & _) end.
  split; [by eexists|]. eexists. split; [done|]. split; [|done].
  match goal with Hj : new_extended_job _ ?i ?tp ?p _ _ _ = _ |- _ =>
    destruct (keeps_new_extended_job chk _ i tp p t outs _ (same_flags_refl (ec_job_factory c))) as [Hv _];
    rewrite Hj in Hv end. done.
Qed.

Lemma view_retire (s : DefaultJobStore ExtendedJob) (k : Client.ExtendedChannel) :
  Client.x_active_job k = view <$> active_job s → Client.x_past_jobs k = view <$> past_jobs s →
  match Client.x_active_job k with
  | Some a => <[xj_job_id a.1 := a]> (Client.x_past_jobs k)
  | None => Client.x_past_jobs k
  end = view <$> past_jobs (JobStore.retire_active s).
Proof.
  intros Ha Hp. rewrite Ha, Hp. unfold JobStore.retire_active. destruct (active_job s); [|done].
  cbn. by rewrite fmap_insert.
Qed.
Lemma in_step_active c k f j :
  in_step c k → jf_version_rolling_allowed f = jf_version_rolling_allowed (ec_job_factory c) → in_step (ec_set_job_store (JobStore.add_active_job j (ec_job_store c)) (ec_set_job_factory f c))
                  (Client.Extended.activate (view j) k).
Proof.
  intros [] Hf. split; cbn; try done.
  - congruence.
  - by rewrite retire_future.
  - by apply view_retire.
  - by rewrite retire_stale.
Qed.

Lemma in_step_future c k f j tid :
  in_step c k → jf_version_rolling_allowed f = jf_version_rolling_allowed (ec_job_factory c) →
  in_step (ec_set_job_store (JobStore.add_future_job tid j (ec_job_store c)) (ec_set_job_factory f c))
    (Client.x_set_jobs (<[get_job_id j := view j]> (Client.x_future_jobs k))
       (Client.x_active_job k) (Client.x_past_jobs k) (Client.x_stale_jobs k) k).
Proof.
  intros [] Hf. split; cbn; try done; [congruence|]. rewrite fmap_insert. by f_equal.
Qed.

Lemma future_job_new {T E} `{Job T} t (j : T) s :
  future_job_of (E := E) t (JobStore.add_future_job (nt_template_id t) j s) = Ok (get_job_id j, j).
Proof.
  unfold future_job_of, JobStore.add_future_job. cbn [future_template_to_job_id future_jobs].
  rewrite lookup_insert_eq. cbn [unwrap mbind result_bind]. by rewrite lookup_insert_eq.
Qed.
(** What the pool does for an extended channel on a new template. *)
Definition announce (t : NewTemplate) (outs : list TxOut) : ST ExtendedChannel ChannelError ExtendedJob :=
  _ ← Extended.on_new_template chk t outs; job_of ec_job_store t.
Lemma template_step t outs c k j c' :
  in_step c k → server_ok c → template_ok t outs → job_id_state (ec_job_factory c) + 1 < 2 ^ 32 →
  announce t outs c = (Ok j, c') →
  ∃ k', Client.Extended.on_new_extended_mining_job (ej_job_message j) k = (Ok tt, k') ∧
    in_step c' k' ∧ server_ok c'.
Proof.
  intros Hst Hok Ht Hb E. pose proof Hok as (Hi & Hnn & Hids & Hbs).
  unfold announce, Extended.on_new_template, job_of in E.
  destruct (nt_future_template t) eqn:Ef.
  - inv_st. match goal with Hm : Extended.make_job _ _ _ _ _ = _ |- _ =>
      apply make_job_spec in Hm as (Hj & f & -> & Hv & Hid & Hf & Hp & _ & Hnt); [|done..] end.
    rewrite Ef in Hnt. match goal with Hx : future_job_of _ _ = Ok _ |- _ =>
      cbn [ec_job_store ec_set_job_store ec_set_jobs] in Hx; rewrite future_job_new in Hx; injection Hx as <- end.
    cbn [snd]. rewrite receive_job by (done || by rewrite Hp, (st_prefix _ _ Hst)). rewrite Hnt.
    eexists. split; [done|]. split; [by apply (in_step_future c k f)|].
    split; [by apply store_all_future|]. cbn. rewrite Hf. split; [lia|]. split; [|done].
    by apply ids_future.
  - inv_st. destruct (ec_chain_tip c) as [tip|]; [|done]. inv_st.
    match goal with Hm : Extended.make_job _ _ _ _ _ = _ |- _ =>
      apply make_job_spec in Hm as (Hj & f & -> & Hv & Hid & Hf & Hp & _ & Hnt); [|done..] end.
    rewrite Ef in Hnt. destruct Hnt as [nt Hnt]. match goal with Hx : active_job _ = Some _ |- _ => injection Hx as <- end.
    rewrite receive_job by (done || by rewrite Hp, (st_prefix _ _ Hst)). rewrite Hnt.
    eexists. split; [done|]. split; [by apply (in_step_active c k f)|].
    split; [by apply store_all_active|]. cbn. rewrite Hf. split; [lia|]. split; [|done].
    by apply ids_active.
Qed.

Lemma client_activate m k j :
  Client.x_future_jobs k !! ph_job_id m = Some (view j) →
  Client.Extended.on_set_new_prev_hash m k =
  (Ok tt, Client.x_set_chain_tip (Some (Client.ChainTip_from_mp m))
     (Client.Extended.retire
        (Some (Client.with_min_ntime (ph_min_ntime m) (ej_job_message j), ej_extranonce_prefix j)) k)).
Proof. intros Hk. unfold Client.Extended.on_set_new_prev_hash. by rewrite Hk. Qed.
(** What the pool does for an extended channel on a new chain tip. *)
Definition move_tip (m : SetNewPrevHashTdp) : ST ExtendedChannel ChannelError Z :=
  _ ← Extended.on_set_new_prev_hash m; active_id ec_job_store.
Lemma prev_hash_step m c k job_id c' :
  in_step c k → server_ok c → future_jobs (ec_job_store c) ≠ ∅ →
  move_tip m c = (Ok job_id, c') →
  ∃ k', Client.Extended.on_set_new_prev_hash (prev_hash_message (ec_channel_id c) job_id m) k = (Ok tt, k') ∧
    in_step c' k' ∧ server_ok c'.
Proof.
  intros Hst Hok Hne E. pose proof Hok as (Hi & Hnn & Hids & Hbs). unfold move_tip, active_id in E. inv_st.
  match goal with Hx : Extended.on_set_new_prev_hash m c = _ |- _ => rename Hx into Em end.
  unfold Extended.on_set_new_prev_hash in Em. rewrite bool_decide_eq_false_2 in Em by done.
  destruct (JobStore.activate_future_job _ _ _) as [[] store] eqn:Ea; [|done]. injection Em as _ <-.
  pose proof Ea as (id & j & Hj & _ & ->)%activate_Ok.
  match goal with Hx : active_job _ = Some _ |- _ => injection Hx as <- end.
  destruct (proj1 Hids _ _ Hj) as [Hid _].
  assert (Hk : Client.x_future_jobs k !! get_job_id j = Some (view j)).
  { by rewrite (st_future _ _ Hst), lookup_fmap, Hid, Hj. }
  eexists. split.
  { apply (client_activate _ _ j). exact Hk. }
  split.
  - destruct Hst. split; try done; cbn.
    intros id' [x Hx]. rewrite st_past0, lookup_fmap in Hx. apply fmap_Some in Hx as (y & Hy & _).
    unfold JobStore.retire_active. destruct (active_job (ec_job_store c)) as [|]; [|by eexists].
    cbn. apply lookup_insert_is_Some'. right. by eexists.
  - split.
    + pose proof (store_all_activate ext_job_ok (sp_template_id m) (sp_header_timestamp m)
        (ec_job_store c) (ext_activate _) Hi) as Hall. by rewrite Ea in Hall.
    + split; [done|]. split; [|done]. eapply ids_activate; [|exact Ea|done]. done.
Qed.

(** A new target, by the server's [update_channel] and [SetTarget]. *)
Lemma target_step h mt c k c' :
  in_step c k → server_ok c → Extended.update_channel chk h mt c = (Ok tt, c') →
  in_step c' (Client.Extended.set_target (ec_target c') k) ∧ server_ok c'.
Proof.
  intros Hst Hok E. unfold Extended.update_channel in E. inv_st. by destruct Hst.
Qed.

(** The error type of an operation that succeeds does not matter. *)
Lemma slice_range_err {A E E'} (l : list A) a b r :
  slice_range (E := E) l a b = Ok r → slice_range (E := E') l a b = Ok r.
Proof. unfold slice_range. destruct (_ && _); [|done]. by intros [= <-]. Qed.
Lemma slice_from_err {A E E'} (l : list A) a r :
  slice_from (E := E) l a = Ok r → slice_from (E := E') l a = Ok r.
Proof. unfold slice_from. destruct (_ && _); [|done]. by intros [= <-]. Qed.
Lemma try_b064k_err {E E'} (e : E) (e' : E') l r : try_b064k e l = Ok r → try_b064k e' l = Ok r.
Proof. unfold try_b064k. destruct (_ <=? _); [|done]. by intros [= <-]. Qed.
(** The client rebuilds the job message that the server made. *)
Lemma client_custom_success m pre f j f' k :
  new_extended_job_from_custom_job chk m pre f = (Ok j, f') →
  cj_channel_id m = Client.x_channel_id k → jf_version_rolling_allowed f = Client.x_version_rolling k →
  Client.x_chain_tip k = Some (mkChainTip (cj_prev_hash m) (cj_nbits m) (cj_min_ntime m)) →
  Client.Extended.on_set_custom_mining_job_success m
    (Client.mkCustomSuccess (cj_channel_id m) (cj_request_id m) (get_job_id j)) k =
  (Ok tt, Client.Extended.activate (ej_job_message j, Client.x_extranonce_prefix k) k).
Proof.
  intros E Hch Hro Htip. unfold new_extended_job_from_custom_job in E. inv_st.
  match goal with Hn : next_job_id _ _ = _ |- _ => apply next_job_id_flags in Hn as [Hv _] end.
  match goal with x : (bytes * bytes)%type |- _ => destruct x as [p s] end. inv_st.
  match goal with Hp : custom_coinbase_tx_prefix _ = Ok _, Hs : custom_coinbase_tx_suffix _ = Ok _,
    Hst : strip_coinbase _ _ = Ok _ |- _ => rename Hp into Epre; rename Hs into Esuf; rename Hst into Est end.
  unfold custom_coinbase_tx_prefix in Epre. apply bind_Ok in Epre as (cb & Ecb & Epre).
  unfold custom_coinbase_tx_suffix in Esuf. rewrite Ecb in Esuf. cbn [mbind result_bind] in Esuf.
  unfold Client.Extended.on_set_custom_mining_job_success. rewrite st_gets_bind.
  cbn [Client.cs_channel_id Client.cs_request_id Client.cs_job_id]. rewrite <- Hch, !Z.eqb_refl. cbn [negb orb].
  rewrite st_gets_bind, Htip. cbn [ok_or]. rewrite st_lift_bind. cbn [ct_min_ntime ct_prev_hash ct_nbits].
  rewrite !Z.eqb_refl, bool_decide_eq_true_2 by done. cbn [negb orb].
  rewrite Ecb. cbn [map_err]. rewrite st_lift_bind. cbn zeta.
  rewrite (slice_range_err _ _ _ _ Epre), st_lift_bind, (slice_from_err _ _ _ Esuf), st_lift_bind.
  unfold strip_coinbase in Est. apply bind_Ok in Est as (o & Eo & Est). apply map_err_Ok in Eo.
  apply ok_or_Ok in Est as ->. rewrite Eo. cbn [map_err]. rewrite st_lift_bind.
  cbn [ok_or]. rewrite st_lift_bind. cbn beta iota. rewrite st_gets_bind.
  repeat match goal with Hx : try_b064k _ _ = Ok _ |- _ => rewrite (try_b064k_err _ _ _ _ Hx), st_lift_bind; clear Hx end.
  rewrite st_gets_bind. unfold modify. cbn. by rewrite <- Hro, <- Hv.
Qed.

(** A custom job for the client's own chain tip. *)
Lemma custom_step m c k job_id c' :
  in_step c k → server_ok c → custom_ok m → job_id_state (ec_job_factory c) + 1 < 2 ^ 32 →
  cj_channel_id m = ec_channel_id c →
  Client.x_chain_tip k = Some (mkChainTip (cj_prev_hash m) (cj_nbits m) (cj_min_ntime m)) →
  Extended.on_set_custom_mining_job chk m c = (Ok job_id, c') →
  ∃ k', Client.Extended.on_set_custom_mining_job_success m
          (Client.mkCustomSuccess (cj_channel_id m) (cj_request_id m) job_id) k = (Ok tt, k') ∧
    in_step c' k' ∧ server_ok c'.
Proof.
  intros Hst Hok Hm Hb Hch Htip E. pose proof Hok as (Hi & Hnn & Hids & Hbs).
  unfold Extended.on_set_custom_mining_job in E. inv_st.
  match goal with Hj : new_extended_job_from_custom_job _ _ _ _ = _ |- _ => rename Hj into Ej end.
  pose proof (new_custom_job_numbered chk _ _ _ _ _ Hnn Hb Ej) as (Hid & Hf & Hp & _).
  pose proof (new_custom_job_spec chk _ _ _ _ _ Hm Ej) as (Hjob & _).
  destruct (keeps_custom_job chk _ m (ec_extranonce_prefix c) _ (same_flags_refl (ec_job_factory c))) as [Hv _].
  rewrite Ej in Hv. cbn [snd] in Hv.
  eexists. split.
  { apply (client_custom_success _ _ _ _ _ _ Ej); [by rewrite (st_channel _ _ Hst)
      |by rewrite (st_rolling _ _ Hst)|done]. }
  split.
  - replace (ej_job_message a0, Client.x_extranonce_prefix k) with (view a0)
      by (unfold view; by rewrite Hp, (st_prefix _ _ Hst)).
    destruct (in_step_active c k t a0 Hst Hv). by split.
  - split; [by apply store_all_active|]. cbn. rewrite Hf. split; [lia|]. split; [|done].
    by apply ids_active.
Qed.
End steps.

(** ** Shares *)

(** The hash of the header a share describes on the server's job and tip. *)
Definition described_hash `{Bitcoin} (s : SubmitSharesExtended) (c : ExtendedChannel) : option bytes :=
  match find_job (se_job_id s) (ec_job_store c), ec_chain_tip c with
  | Ok job, Some tip =>
      let m := ej_job_message job in
      root ← merkle_root_from_path (xj_coinbase_tx_prefix m) (xj_coinbase_tx_suffix m) (ej_extranonce_prefix job ++ se_extranonce s)
        (xj_merkle_path m);
      Some (block_hash (share_header (se_version s) (se_ntime s) (se_nonce s) root tip))
  | _, _ => None
  end.
(** What the server answers when the client's own check gave [rc], for a share with
    the hash [h]: a refusal by target is the server's too, unless the hash equals
    the target, and then only a share seen before is refused. *)
Definition judged (h : bytes) (target : Target) (seen : gset bytes)
    (rc : result Client.ShareValidationError Client.ShareValidationResult)
    (rs : result ShareValidationError ShareValidationResult) : Prop :=
  match rc with
  | Ok Client.BlockFound => ∃ t cb, rs = Ok (BlockFound h t cb)
  | Ok Client.Valid => accepted h rs
  | Err Client.DoesNotMeetTarget =>
      match Target_cmp (Target_from_bytes h) target with
      | Gt => rs = Err DoesNotMeetTarget
      | Eq => if bool_decide (h ∈ seen) then rs = Err DuplicateShare else accepted h rs
      | Lt => False
      end
  | Err Client.DuplicateShare => rs = Err DuplicateShare
  | Err _ | Panic => False
  end.
(** Before the hash is looked at, either side refuses for the same reason. *)
Definition matched `{Bitcoin} (s : SubmitSharesExtended) (c : ExtendedChannel)
    (rc : result Client.ShareValidationError Client.ShareValidationResult)
    (rs : result ShareValidationError ShareValidationResult) : Prop :=
  match rc with
  | Err Client.Invalid => rs = Err InvalidShare
  | Err Client.NoChainTip => rs = Err NoChainTip
  | Err Client.VersionRollingNotAllowed => rs = Err VersionRollingNotAllowed
  | Err Client.Stale | Err Client.InvalidJobId => ∃ e, find_job (se_job_id s) (ec_job_store c) = Err e ∧ rs = Err e
  | _ => ∃ h, described_hash s c = Some h ∧ judged h (ec_target c) (seen_shares (ec_share_accounting c)) rc rs
  end.

Section shares.
Context `{BitcoinLaws}.

Lemma find_agrees id c k :
  in_step c k → server_ok c →
  match Client.Extended.find id k with
  | Ok v => ∃ j, find_job id (ec_job_store c) = Ok j ∧ v = view j
  | Err e => (∃ e', find_job id (ec_job_store c) = Err e') ∧ (e = Client.Stale ∨ e = Client.InvalidJobId)
  | Panic => False
  end.
Proof.
  intros [] (_ & _ & (_ & Hl & _) & _). unfold Client.Extended.find, find_job.
  case_bool_decide as Hs.
  { apply st_stale0 in Hs. rewrite bool_decide_eq_true_2 by done. split; [by eexists|by left]. }
  rewrite st_active0, st_past0, lookup_fmap.
  assert (Hlive : live (ec_job_store c) id → stale_jobs (ec_job_store c) !! id = None) by (intros; by apply Hl).
  destruct (active_job (ec_job_store c)) as [a|] eqn:Ea; cbn [fmap option_fmap option_map view fst].
  - change (xj_job_id (ej_job_message a)) with (get_job_id a). destruct (Z.eqb_spec (get_job_id a) id).
    + rewrite Hlive by (right; eauto). exists a. done.
    + destruct (past_jobs (ec_job_store c) !! id) as [j|] eqn:Ej; cbn.
      * rewrite Hlive by (left; eauto). cbn. eauto.
      * split; [case_bool_decide; eauto|by right].
  - destruct (past_jobs (ec_job_store c) !! id) as [j|] eqn:Ej; cbn.
    + rewrite Hlive by (left; eauto). cbn. eauto.
    + split; [case_bool_decide; eauto|by right].
Qed.

(** The accounting of an accepted share. *)
Lemma judge_agrees target seq nbits hash a ka :
  Client.seen_shares ka = seen_shares a → wrap 32 (Channels.share_batch_size a) ≠ 0 →
  is_met_by nbits hash = false →
  ∃ rc ka' rs a', Client.judge false target seq nbits hash ka = (rc, ka') ∧
    accept_share false target seq hash a = (rs, a') ∧ judged hash target (seen_shares a) rc rs ∧
    (∀ e, rc = Err e → ka' = ka) ∧
    (∀ v, rc = Ok v → Client.seen_shares ka' = seen_shares a' ∧
                      Channels.share_batch_size a' = Channels.share_batch_size a).
Proof.
  intros Hs Hb Hm. unfold Client.judge. rewrite Hm.
  pose proof (accept_share_answerable false target seq hash a Hb) as Hp.
  destruct (accept_share false target seq hash a) as [rs a'] eqn:E.
  pose proof (accept_share_cases false target seq hash a rs a' E) as Hc.
  unfold Client.Target_lt. unfold Target_le in Hc.
  destruct (Target_cmp (Target_from_bytes hash) target) eqn:Ecmp.
  - eexists _, _, rs, a'. split; [reflexivity|]. split; [done|]. split; [|done].
    unfold judged. rewrite Ecmp.
    apply (accept_share_judged false target seq hash a rs a'); [done|by intros ->|unfold Target_le; by rewrite Ecmp].
  - rewrite st_gets_bind. unfold Client.is_share_seen. rewrite Hs.
    assert (Hj : if bool_decide (hash ∈ seen_shares a) then rs = Err DuplicateShare else accepted hash rs)
      by (apply (accept_share_judged false target seq hash a rs a'); [done|by intros ->|unfold Target_le; by rewrite Ecmp]).
    case_bool_decide as Hseen; (eexists _, _, rs, a'; split; [reflexivity|]; split; [done|]); [done|].
    split; [exact Hj|]. split; [done|]. intros v _. destruct rs as [w|e|]; [|by destruct Hj as [?|(? & ? & ? & ?)]|done].
    destruct Hc as (_ & _ & (_ & _ & _ & Hseen' & Hb') & _). split; [|done].
    rewrite Hseen', <- Hs. unfold Client.update_best_diff. by destruct (SFltb _ _).
  - eexists _, _, rs, a'. split; [reflexivity|]. split; [done|]. split; [|done]. unfold judged. rewrite Ecmp.
    destruct rs as [v|e|]; [by destruct Hc| |done]. by destruct e; try done; destruct Hc as (_ & ? & _).
Qed.

Lemma matched_judged s c h rc rs :
  described_hash s c = Some h → judged h (ec_target c) (seen_shares (ec_share_accounting c)) rc rs →
  matched s c rc rs.
Proof. intros Hh Hj. destruct rc as [[]|[]|]; cbn in *; eauto; done. Qed.

Lemma share_step s c k :
  in_step c k → server_ok c →
  ∃ rc k' rs c', Client.Extended.validate_share false s k = (rc, k') ∧
    Extended.validate_share false s c = (rs, c') ∧ matched s c rc rs ∧
    (∀ e, rc = Err e → k' = k) ∧ (∀ v, rc = Ok v → in_step c' k' ∧ server_ok c').
Proof.
  intros Hst Hok. pose proof Hok as (Hi & Hnn & Hids & Hb). pose proof (find_agrees (se_job_id s) c k Hst Hok) as Hf.
  unfold Client.Extended.validate_share. rewrite st_gets_bind, ext_validate_eq.
  destruct (Client.Extended.find _ k) as [v|e|]; [|destruct Hf as [[e' Hf] He]; rewrite Hf|done].
  2: { eexists _, _, _, _. split; [reflexivity|]. split; [reflexivity|]. split; [|by split; [intros ? [= <-]|]].
       by destruct He as [-> | ->]; exists e'. }
  destruct Hf as (j & Hf & ->). rewrite Hf, st_lift_bind. cbn zeta. cbn [view].
  destruct (merkle_root_from_path _ _ _ _) as [root|] eqn:Er.
  2: { eexists _, _, _, _. split; [reflexivity|]. split; [reflexivity|]. split; [done|by split]. }
  cbn [ok_or]. rewrite st_lift_bind, (merkle_root_zlen _ _ _ _ _ Er). cbn [Z.eqb Pos.eqb negb].
  rewrite st_gets_bind, (st_tip _ _ Hst). destruct (ec_chain_tip c) as [tip|] eqn:Et.
  2: { eexists _, _, _, _. split; [reflexivity|]. split; [reflexivity|]. split; [done|by split]. }
  cbn [ok_or]. rewrite st_lift_bind.
  destruct (negb (xj_version_rolling_allowed _) && _).
  { eexists _, _, _, _. split; [reflexivity|]. split; [reflexivity|]. split; [done|by split]. }
  rewrite st_gets_bind, (st_target _ _ Hst). unfold zoom.
  set (hash := block_hash _).
  assert (Hh : described_hash s c = Some hash) by (unfold described_hash; by rewrite Hf, Et, Er).
  destruct (is_met_by (ct_nbits tip) hash) eqn:Em.
  - unfold Client.judge. rewrite Em.
    eexists _, _, _, _. split; [reflexivity|]. split; [reflexivity|]. split; [by exists hash; split; [|eexists _, _]|].
    split; [done|]. intros v _. split; [|done]. destruct Hst. split; try done. cbn. by rewrite st_seen0.
  - destruct (judge_agrees (ec_target c) (se_sequence_number s) (ct_nbits tip) hash
      (ec_share_accounting c) (Client.x_share_accounting k) (st_seen _ _ Hst) Hb Em)
      as (rc & ka' & rs & a' & -> & -> & Hm & He & Hv).
    eexists _, _, _, _. split; [reflexivity|]. split; [reflexivity|].
    split; [by apply (matched_judged s c hash)|]. split.
    + intros e ->. rewrite (He e eq_refl). by destruct k.
    + intros v ->. destruct (Hv v eq_refl) as [Hseen Hb']. split; [by destruct Hst; split|].
      split; [done|]. split; [done|]. split; [done|]. cbn. by rewrite Hb'.
Qed.
End shares.

(** ** The two channels together *)

Section joint.
Context `{BitcoinLaws}.

(** One exchange: the server's operation and the message it makes, received by
    the client.  A share goes to the server only if the client accepts it. *)
Inductive joint : ExtendedChannel * Client.ExtendedChannel → ExtendedChannel * Client.ExtendedChannel → Prop :=
  | JTemplate t outs c k j c' r k' :
      template_ok t outs → job_id_state (ec_job_factory c) + 1 < 2 ^ 32 →
      announce false t outs c = (Ok j, c') →
      Client.Extended.on_new_extended_mining_job (ej_job_message j) k = (r, k') →
      joint (c, k) (c', k')
  | JTip m c k job_id c' r k' :
      future_jobs (ec_job_store c) ≠ ∅ → move_tip m c = (Ok job_id, c') →
      Client.Extended.on_set_new_prev_hash (prev_hash_message (ec_channel_id c) job_id m) k = (r, k') →
      joint (c, k) (c', k')
  | JTarget h mt c k c' :
      Extended.update_channel false h mt c = (Ok tt, c') →
      joint (c, k) (c', Client.Extended.set_target (ec_target c') k)
  | JCustom m c k job_id c' r k' :
      custom_ok m → job_id_state (ec_job_factory c) + 1 < 2 ^ 32 → cj_channel_id m = ec_channel_id c →
      Client.x_chain_tip k = Some (mkChainTip (cj_prev_hash m) (cj_nbits m) (cj_min_ntime m)) →
      Extended.on_set_custom_mining_job false m c = (Ok job_id, c') →
      Client.Extended.on_set_custom_mining_job_success m
        (Client.mkCustomSuccess (cj_channel_id m) (cj_request_id m) job_id) k = (r, k') →
      joint (c, k) (c', k')
  | JShare s c k v k' rs c' :
      Client.Extended.validate_share false s k = (Ok v, k') →
      Extended.validate_share false s c = (rs, c') → joint (c, k) (c', k')
  | JKept s c k e k' :
      Client.Extended.validate_share false s k = (Err e, k') → joint (c, k) (c, k').

Lemma joint_in_step p q :
  joint p q → in_step p.1 p.2 ∧ server_ok p.1 → in_step q.1 q.2 ∧ server_ok q.1.
Proof.
  intros Hj [Hst Hok]. destruct Hj as
    [t outs c k j c' r k' Ht Hb Ea Ek|m c k id c' r k' Hne Em Ek|h mt c k c' Eu
    |m c k id c' r k' Hm Hb Hch Htip Es Ek|s c k v k' rs c' Ek Es|s c k e k' Ek]; cbn [fst snd] in *.
  - destruct (template_step false t outs c k j c' Hst Hok Ht Hb Ea) as (k1 & E & Hk). congruence.
  - destruct (prev_hash_step m c k id c' Hst Hok Hne Em) as (k1 & E & Hk). congruence.
  - by eapply target_step.
  - destruct (custom_step false m c k id c' Hst Hok Hm Hb Hch Htip Es) as (k1 & E & Hk). congruence.
  - destruct (share_step s c k Hst Hok) as (rc & k1 & rs1 & c1 & E1 & E2 & _ & _ & Hv).
    rewrite Ek in E1. rewrite Es in E2. simplify_eq. by apply (Hv v).
  - destruct (share_step s c k Hst Hok) as (rc & k1 & rs1 & c1 & E1 & E2 & _ & He & _).
    rewrite Ek in E1. simplify_eq. by rewrite (He e eq_refl).
Qed.
Lemma joint_reachable p q :
  rtc joint p q → in_step p.1 p.2 ∧ server_ok p.1 → in_step q.1 q.2 ∧ server_ok q.1.
Proof. induction 1; eauto using joint_in_step. Qed.
Lemma opened_in_step id batch min_size user prefix max hashrate spm rolling pool_tag miner_tag c0 :
  wrap 32 batch ≠ 0 →
  Extended.new false id user prefix max hashrate rolling min_size batch spm JobStore.new pool_tag miner_tag
    = Ok c0 →
  in_step c0 (Client.Extended.new id user prefix (ec_target c0) hashrate rolling
                (ec_rollable_extranonce_size c0)) ∧ server_ok c0.
Proof.
  intros Hb E. unfold Extended.new in E. apply bind_Ok in E as (target & _ & E).
  apply bind_Ok in E as (size & _ & E). destruct (size <? min_size); [done|]. injection E as <-. split.
  - split; try done. cbn. intros i [x Hx]. by rewrite lookup_empty in Hx.
  - split; [apply store_all_new|]. split; [done|]. split; [apply ids_new|done].
Qed.

End joint.

(** ** An example *)

#[local] Existing Instance model_bitcoin.
#[local] Existing Instance model_bitcoin_laws.
Definition pair_server0 : ExtendedChannel :=
  from_ok no_ext_channel (Extended.new false 1 [] (to_le_bytes 8 1) sample_max sample_rate true 8 10
    sample_spm JobStore.new sample_tag None).
Definition pair_client0 : Client.ExtendedChannel :=
  Client.Extended.new 1 [] (to_le_bytes 8 1) (ec_target pair_server0) sample_rate true
    (ec_rollable_extranonce_size pair_server0).
Definition no_job : ExtendedJob :=
  mkExtendedJob (OriginNewTemplate (sample_template true)) [] [] [] []
    (mkNewExtendedMiningJob 0 0 None 0 false [] [] []).
Definition pair_job : ExtendedJob :=
  from_ok no_job (announce false (sample_template true) sample_outputs pair_server0).1.
Definition pair_server1 : ExtendedChannel :=
  (announce false (sample_template true) sample_outputs pair_server0).2.
Definition pair_client1 : Client.ExtendedChannel :=
  (Client.Extended.on_new_extended_mining_job (ej_job_message pair_job) pair_client0).2.
Definition pair_server : ExtendedChannel := (move_tip sample_prev pair_server1).2.
Definition pair_client : Client.ExtendedChannel :=
  (Client.Extended.on_set_new_prev_hash (prev_hash_message 1 1 sample_prev) pair_client1).2.

Lemma pair_reached : rtc joint (pair_server0, pair_client0) (pair_server, pair_client).
Proof.
  apply (rtc_l _ _ (pair_server1, pair_client1)).
  - apply (JTemplate (sample_template true) sample_outputs _ _ pair_job _ (Ok tt)).
    + apply sample_template_ok.
    + by vm_compute.
    + by vm_compute.
    + by vm_compute.
  - apply rtc_once. apply (JTip sample_prev _ _ 1 _ (Ok tt)).
    + intros Hf. apply (f_equal size) in Hf. by vm_compute in Hf.
    + by vm_compute.
    + by vm_compute.
Qed.
