(* ===== verification/JobDeclarator.v ===== *)
(** * The job declarator server

    [roles/jd-server/src/lib]: the mempool ([mempool/mod.rs]), the state of a
    connection and its message loop ([job_declarator/mod.rs]), the handlers of
    the job declaration protocol ([job_declarator/message_handler.rs]), and the
    block they assemble ([BlockCreator] of roles-logic's [utils.rs]).  The
    mempool is shared by the connections; updates go to the mempool task
    through a channel, blocks to the node through another.  The node's answers
    are a parameter of the operations that ask it. *)

From stdpp Require Import gmap.
From S2P Require Import Prelude SetupConnection Bitcoin Jobs Vardiff.
#[local] Open Scope Z_scope.
#[local] Open Scope list_scope.

(** ** Messages *)

Record DeclareMiningJob : Type := mkDeclare {
  dj_request_id : Z;
  dj_mining_job_token : bytes;
  dj_version : Z;
  dj_coinbase_tx_prefix : bytes;
  dj_coinbase_tx_suffix : bytes;
  dj_tx_ids_list : list bytes;
  dj_excess_data : bytes }.
Record PushSolution : Type := mkPush {
  ps_extranonce : bytes;
  ps_prev_hash : bytes;
  ps_ntime : Z;
  ps_nonce : Z;
  ps_nbits : Z;
  ps_version : Z }.
(** The messages of the client, and the answers. *)
Inductive JdRequest : Type :=
  | AllocateMiningJobToken (request_id : Z)
  | RequestDeclareMiningJob (m : DeclareMiningJob)
  | ProvideMissingTransactionsSuccess (request_id : Z) (transaction_list : list bytes)
  | RequestPushSolution (m : PushSolution)
  | JdOther (message_type : Z).
Inductive JdReply : Type :=
  | AllocateMiningJobTokenSuccess (request_id : Z) (mining_job_token coinbase_outputs : bytes)
  | DeclareMiningJobSuccess (request_id : Z) (new_mining_job_token : bytes)
  | DeclareMiningJobError (request_id : Z)
  | ProvideMissingTransactions (request_id : Z) (unknown_tx_position_list : list Z).
Inductive JdSendTo : Type :=
  | JdRespond (m : JdReply)
  | JdNone (m : option PushSolution).

Inductive JdHandlerError : Type :=
  | TxDecodingError
  | LogicErrorMessage
  | JDSMissingTransactions
  | NoValidJob
  | TokenTooLong
  | JdUnexpectedMessage (message_type : Z).
Inductive JdsError : Type :=
  | NoLastDeclaredJob
  | ImpossibleToReconstructBlock.
Inductive JdsMempoolError : Type := EmptyMempool | Rpc.

(** ** The mempool *)

Record Block : Type := mkBlock { blk_header : BlockHeader; txdata : list Transaction }.

(** Operations of packages: decoding a transaction from a reader, the server's
    signature, the merkle root of a block, its hexadecimal encoding. *)
Class Jds : Type := {
  decode_transaction : bytes → option Transaction;
  sign_token : bytes → bytes;
  compute_merkle_root : list Transaction → option bytes;
  block_hex : Block → bytes }.

(** A transaction known by its id only, or with its data and a counter. *)
Notation Mempool := (gmap bytes (option (Transaction * Z))).

Record AddTransactions : Type := mkAdd {
  known_transactions : list bytes;
  unknown_transactions : list Transaction }.

Section mempool.
Context `{Bitcoin}.

(** [entry(txid).and_modify(..).or_insert(..)]; the counter wraps, as in a
    release build. *)
Definition store_transaction (tx : Transaction) (m : Mempool) : Mempool :=
  let txid := compute_txid tx in
  match m !! txid with
  | Some (Some (old, count)) => <[txid := Some (old, wrap 32 (count + 1))]> m
  | Some None | None => <[txid := Some (tx, 1)]> m
  end.
Fixpoint fetch_known (rpc : bytes → option Transaction) (txids : list bytes)
    : ST Mempool JdsMempoolError unit :=
  match txids with
  | [] => mret tt
  | txid :: txids =>
      entry ← gets (λ m : Mempool, m !! txid);
      _ ← match entry with
          | Some None =>
              transaction ← lift (ok_or (rpc txid) Rpc);
              modify (store_transaction transaction)
          | _ => mret tt
          end;
      fetch_known rpc txids
  end.
(** [add_tx_data_to_mempool]: [rpc] is [getrawtransaction]. *)
Definition add_tx_data_to_mempool (rpc : bytes → option Transaction) (a : AddTransactions)
    : ST Mempool JdsMempoolError unit :=
  _ ← fetch_known rpc (known_transactions a);
  modify (λ m, foldl (λ m tx, store_transaction tx m) m (unknown_transactions a)).
(** [update_mempool]: [raw] is the answer of [getrawmempool]. *)
Definition update_mempool (raw : option (list bytes)) : ST Mempool JdsMempoolError unit :=
  txids ← lift (ok_or raw Rpc);
  _ ← modify (λ m : Mempool, foldl (λ m txid,
        match m !! txid with Some _ => m | None => <[txid := None]> m end) m txids);
  empty ← gets (λ m : Mempool, bool_decide (m = ∅));
  match empty with true => throw EmptyMempool | false => mret tt end.

(** The transactions of a job that is replaced: [snapshot] is the copy of the
    mempool the loop looks them up in. *)
Definition release (snapshot : Mempool) (old_txid : bytes) (m : Mempool) : Mempool :=
  match snapshot !! old_txid with
  | Some (Some (transaction, _)) =>
      let txid := compute_txid transaction in
      match m !! txid with
      | Some (Some (tx, counter)) =>
          if 1 <? counter then <[txid := Some (tx, counter - 1)]> m else delete txid m
      | _ => m
      end
  | _ => m
  end.
Definition clear_declared_mining_job (old new : DeclareMiningJob) (m : Mempool) : Mempool :=
  foldl (λ m' txid, release m txid m') m
    (filter (λ id, id ∉ dj_tx_ids_list new) (dj_tx_ids_list old)).
End mempool.

(** ** A connection *)

Inductive TransactionState : Type := PresentInMempool (txid : bytes) | Missing.

Record JdDownstream : Type := mkJdDownstream {
  coinbase_output : bytes;
  token_to_job_map : gmap Z (option Z);
  tokens : Z;
  declared_mining_job : option DeclareMiningJob;
  transactions_with_state : list TransactionState;
  missing_indexes : list Z;
  add_txs_to_mempool : AddTransactions }.
(** With what it shares: the mempool, the channel to the mempool task, and the
    channel of found blocks. *)
Record JdState : Type := mkJdState {
  jd_self : JdDownstream;
  jd_mempool : Mempool;
  jd_updates : list AddTransactions;
  jd_blocks : list bytes }.

Definition no_updates : AddTransactions := mkAdd [] [].
(** [reward_script] is the script of the configuration. *)
Definition JdDownstream_new `{Bitcoin} (reward_script : bytes) : JdDownstream :=
  mkJdDownstream (outputs_serialize [mkTxOut 0 reward_script]) ∅ Id_new None [] [] no_updates.

Definition set_self (d : JdDownstream) (s : JdState) : JdState :=
  mkJdState d (jd_mempool s) (jd_updates s) (jd_blocks s).
Definition on_jd_self (f : JdDownstream → JdDownstream) (s : JdState) : JdState := set_self (f (jd_self s)) s.
Definition set_mempool (m : Mempool) (s : JdState) : JdState :=
  mkJdState (jd_self s) m (jd_updates s) (jd_blocks s).
Definition set_tokens (map : gmap Z (option Z)) (next : Z) (d : JdDownstream) : JdDownstream :=
  mkJdDownstream (coinbase_output d) map next (declared_mining_job d) (transactions_with_state d)
    (missing_indexes d) (add_txs_to_mempool d).
Definition set_declared (j : option DeclareMiningJob) (states : list TransactionState)
    (missing : list Z) (d : JdDownstream) : JdDownstream :=
  mkJdDownstream (coinbase_output d) (token_to_job_map d) (tokens d) j states missing
    (add_txs_to_mempool d).
Definition set_updates (a : AddTransactions) (d : JdDownstream) : JdDownstream :=
  mkJdDownstream (coinbase_output d) (token_to_job_map d) (tokens d) (declared_mining_job d)
    (transactions_with_state d) (missing_indexes d) a.

Section handlers.
Context `{Bitcoin} `{Jds} (overflow_checks : bool).
Notation HANDLER := (ST JdState JdHandlerError).
Notation self := (gets jd_self).

(** The token's first 32 bytes as serialized into a zeroed array, signed. *)
Definition signed_token (token : bytes) : result JdHandlerError bytes :=
  if 254 <? zlen token then Err TokenTooLong
  else Ok (sign_token (ztake 32 (to_le_bytes 1 (zlen token) ++ token ++ replicate (Z.to_nat (254 - zlen token)) (byte.of_Z 0)))).
(** A token that is not four bytes long makes the conversion panic. *)
Definition verify_job (m : DeclareMiningJob) : HANDLER bool :=
  if negb (zlen (dj_mining_job_token m) =? 4) then panic
  else
    d ← self;
    mret (bool_decide (is_Some (token_to_job_map d !! from_le_bytes (dj_mining_job_token m)))).

Definition handle_allocate_mining_job_token (request_id : Z) : HANDLER JdSendTo :=
  d ← self;
  token ← lift (add_over overflow_checks 32 (tokens d) 1);
  _ ← modify (on_jd_self (set_tokens (<[token := None]> (token_to_job_map d)) token));
  if 65535 <? zlen (coinbase_output d) then panic
  else mret (JdRespond (AllocateMiningJobTokenSuccess request_id (to_le_bytes 4 token) (coinbase_output d))).

(** The loop over the declared ids: their states, the missing positions and
    the known ids. *)
Fixpoint recognize (mempool : Mempool) (i : Z) (txids : list bytes)
    : list TransactionState * list Z * list bytes :=
  match txids with
  | [] => ([], [], [])
  | txid :: txids =>
      let '(states, missing, known) := recognize mempool (i + 1) txids in
      if bool_decide (is_Some (mempool !! txid))
      then (PresentInMempool txid :: states, missing, txid :: known)
      else (Missing :: states, wrap 16 i :: missing, known)
  end.
Definition handle_declare_mining_job (m : DeclareMiningJob) : HANDLER JdSendTo :=
  d ← self;
  _ ← match declared_mining_job d with
      | Some old =>
          _ ← modify (on_jd_self (λ d, set_declared None (transactions_with_state d) (missing_indexes d) d));
          modify (λ s, set_mempool (clear_declared_mining_job old m (jd_mempool s)) s)
      | None => mret tt
      end;
  verified ← verify_job m;
  match verified with
  | false => mret (JdRespond (DeclareMiningJobError (dj_request_id m)))
  | true =>
      mempool ← gets jd_mempool;
      let '(states, missing, known) := recognize mempool 0 (dj_tx_ids_list m) in
      _ ← modify (on_jd_self (set_declared (Some m) states missing));
      _ ← modify (on_jd_self (λ d,
            let a := add_txs_to_mempool d in
            set_updates (mkAdd (known_transactions a ++ known) (unknown_transactions a)) d));
      token ← lift (signed_token (dj_mining_job_token m));
      mret (JdRespond
        (match missing with
         | [] => DeclareMiningJobSuccess (dj_request_id m) token
         | _ => ProvideMissingTransactions (dj_request_id m) missing
         end))
  end.

(** The loop over the provided transactions: the [i]-th fills the [i]-th
    missing position.  It stops at the first failure and keeps what it wrote. *)
Fixpoint fill_missing (missing : list Z) (i : nat) (txs : list bytes) (states : list TransactionState)
    (acc : list Transaction)
    : result JdHandlerError (list Transaction) * list TransactionState :=
  match txs with
  | [] => (Ok acc, states)
  | tx :: txs =>
      match decode_transaction tx with
      | None => (Err TxDecodingError, states)
      | Some transaction =>
          match missing !! i with
          | None => (Err LogicErrorMessage, states)
          | Some index =>
              if zlen states <=? index then (Panic, states)
              else fill_missing missing (S i) txs
                     (<[Z.to_nat index := PresentInMempool (compute_txid transaction)]> states)
                     (acc ++ [transaction])
          end
      end
  end.
Definition is_missing (t : TransactionState) : bool :=
  match t with Missing => true | PresentInMempool _ => false end.
Definition handle_provide_missing_transactions_success (request_id : Z) (transaction_list : list bytes)
    : HANDLER JdSendTo :=
  d ← self;
  match declared_mining_job d with
  | None => throw NoValidJob
  | Some job =>
      if dj_request_id job =? request_id then
        let '(r, states) :=
          fill_missing (missing_indexes d) 0 transaction_list (transactions_with_state d) [] in
        _ ← modify (on_jd_self (λ d, set_declared (declared_mining_job d) states (missing_indexes d) d));
        unknown ← lift r;
        _ ← modify (on_jd_self (λ d,
              let a := add_txs_to_mempool d in
              set_updates (mkAdd (known_transactions a) (unknown_transactions a ++ unknown)) d));
        if existsb is_missing states then throw JDSMissingTransactions
        else
          token ← lift (signed_token (dj_mining_job_token job));
          mret (JdRespond (DeclareMiningJobSuccess request_id token))
      else mret (JdNone None)
  end.
Definition handle_push_solution (m : PushSolution) : HANDLER JdSendTo := mret (JdNone (Some m)).

(** [handle_message_job_declaration_deserialized]. *)
Definition handle_message_job_declaration (m : JdRequest) : HANDLER JdSendTo :=
  match m with
  | AllocateMiningJobToken id => handle_allocate_mining_job_token id
  | RequestDeclareMiningJob m => handle_declare_mining_job m
  | ProvideMissingTransactionsSuccess id txs => handle_provide_missing_transactions_success id txs
  | RequestPushSolution m => handle_push_solution m
  | JdOther ty => throw (JdUnexpectedMessage ty)
  end.
End handlers.

(** ** Blocks *)

Section blocks.
Context `{Bitcoin} `{Jds}.

(** [From<BlockCreator> for Block].  The root first computed along the list of
    ids only decides whether the coinbase can be decoded; the header gets the
    root of the transactions. *)
Definition create_block (job : DeclareMiningJob) (tx_list : list Transaction) (m : PushSolution)
    : result JdsError Block :=
  let coinbase_pre := dj_coinbase_tx_prefix job in
  let extranonce := ps_extranonce m in
  let coinbase_suf := dj_coinbase_tx_suffix job in
  merkle_root ← unwrap (merkle_root_from_path coinbase_pre coinbase_suf extranonce
    (compute_txid <$> tx_list));
  coinbase ← unwrap (tx_deserialize (coinbase_pre ++ extranonce ++ coinbase_suf));
  let tx_list := coinbase :: tx_list in
  root ← unwrap (compute_merkle_root tx_list);
  Ok (mkBlock (mkBlockHeader (ps_version m) (ps_prev_hash m) root (ps_ntime m) (ps_nbits m) (ps_nonce m))
        tx_list).

Fixpoint collect_states (mempool : Mempool) (states : list TransactionState)
    : result JdsError (list Transaction) :=
  match states with
  | [] => Ok []
  | PresentInMempool txid :: states =>
      entry ← ok_or (mempool !! txid) ImpossibleToReconstructBlock;
      tx ← ok_or entry ImpossibleToReconstructBlock;
      txs ← collect_states mempool states;
      Ok (tx.1 :: txs)
  | Missing :: _ => Err ImpossibleToReconstructBlock
  end.
Definition collect_txs_in_job (s : JdState) : result JdsError (list Transaction) :=
  collect_states (jd_mempool s) (transactions_with_state (jd_self s)).
Definition get_block_hex (m : PushSolution) (s : JdState) : result JdsError bytes :=
  last_declare ← ok_or (declared_mining_job (jd_self s)) NoLastDeclaredJob;
  transactions_list ← collect_txs_in_job s;
  block ← create_block last_declare transactions_list m;
  Ok (block_hex block).
Definition get_transactions_in_job (s : JdState) : list bytes :=
  omap (λ t, match t with PresentInMempool txid => Some txid | Missing => None end)
    (transactions_with_state (jd_self s)).
End blocks.

(** ** The message loop *)

(** How a turn of the loop ends: an answer, nothing, the loop left. *)
Inductive Turn : Type := Sent (m : JdReply) | Quiet | Left.

Section loop.
Context `{Bitcoin} `{Jds} (overflow_checks : bool).

Definition send_txs_to_mempool (s : JdState) : JdState :=
  mkJdState (set_updates no_updates (jd_self s)) (jd_mempool s)
    (jd_updates s ++ [add_txs_to_mempool (jd_self s)]) (jd_blocks s).
Definition push_block (hexdata : bytes) (s : JdState) : JdState :=
  mkJdState (jd_self s) (jd_mempool s) (jd_updates s) (jd_blocks s ++ [hexdata]).

(** A solution: when a transaction of the job is missing, the node is asked
    once more for those known by id.  [late] is [Some n] when the minute passes
    after [n] of them, which cancels the rest. *)
Definition on_push_solution (rpc : bytes → option Transaction) (late : option nat) (m : PushSolution)
    : ST JdState JdHandlerError Turn := λ s,
  match collect_txs_in_job s with
  | Ok _ =>
      match get_block_hex m s with
      | Ok hexdata => (Ok Quiet, push_block hexdata s)
      | Err _ => (Ok Left, s)
      | Panic => (Panic, s)
      end
  | Err _ =>
      match late with
      | Some n =>
          (Ok Quiet, set_mempool (fetch_known rpc (take n (get_transactions_in_job s)) (jd_mempool s)).2 s)
      | None =>
        let s := set_mempool (add_tx_data_to_mempool rpc
                   (mkAdd (get_transactions_in_job s) []) (jd_mempool s)).2 s in
        match get_block_hex m s with
        | Ok hexdata => (Ok Quiet, push_block hexdata s)
        | Err _ => (Ok Quiet, s)
        | Panic => (Panic, s)
        end
      end
  | Panic => (Panic, s)
  end.
(** One turn of [JobDeclaratorDownstream::start] for a decoded message. *)
Definition on_message (rpc : bytes → option Transaction) (late : option nat) (connected : bool) (m : JdRequest)
    : ST JdState JdHandlerError Turn := λ s,
  match handle_message_job_declaration overflow_checks m s with
  | (Ok (JdRespond reply), s) =>
      let s := match reply with
               | DeclareMiningJobSuccess _ _ | ProvideMissingTransactions _ _ => send_txs_to_mempool s
               | _ => s
               end in
      if connected then (Ok (Sent reply), s) else (Panic, s)
  | (Ok (JdNone (Some solution)), s) => on_push_solution rpc late solution s
  | (Ok (JdNone None), s) => (Ok Quiet, s)
  | (Err _, s) => (Ok Left, s)
  | (Panic, s) => (Panic, s)
  end.
(** The mempool task takes the oldest update; a failure is only logged. *)
Definition mempool_task (rpc : bytes → option Transaction) (s : JdState) : JdState :=
  match jd_updates s with
  | [] => s
  | a :: rest =>
      mkJdState (jd_self s) (add_tx_data_to_mempool rpc a (jd_mempool s)).2 rest (jd_blocks s)
  end.
End loop.

(** ** Accepting a connection *)

(** The first message of a connection, decoded: the success with its flags and
    the connection's state, or the error with the flags. *)
Inductive JdSetup : Type :=
  | SetupSuccess (used_version flags : Z) (async_mining_allowed : bool) (d : JdDownstream)
  | SetupError (flags : Z).
Definition accept_setup `{Bitcoin} (full_template_mode_required : bool) (reward_script : bytes) (flags : Z)
    : JdSetup :=
  if check_flags JobDeclarationProtocol (if full_template_mode_required then 1 else 0) flags
  then SetupSuccess 2 (Z.land flags 1) (negb (Z.land flags 1 =? 0)) (JdDownstream_new reward_script)
  else SetupError flags.
