(* ===== verification/JobDeclaratorProperties.v ===== *)
(** * Properties of the job declarator server

    A declared job whose transactions are recognized or provided ends as a
    block of exactly those transactions; what the server checks of provided
    transactions; and how the mempool's counters share an entry between
    connections. *)

From stdpp Require Import list gmap.
From S2P Require Import Prelude Bitcoin BitcoinModel Jobs Vardiff JobDeclarator.
#[local] Open Scope Z_scope.
#[local] Open Scope list_scope.

(** ** The mempool *)

Section mempool.
Context `{Bitcoin}.

(** Entries are stored under the id of their transaction. *)
Definition mempool_ok (m : Mempool) : Prop :=
  ∀ id tx c, m !! id = Some (Some (tx, c)) → compute_txid tx = id.
Definition fat (m : Mempool) (id : bytes) : Prop := ∃ tx c, m !! id = Some (Some (tx, c)).

Lemma store_lookup tx m id :
  store_transaction tx m !! id =
  if bool_decide (compute_txid tx = id)
  then Some (Some (match m !! id with Some (Some (old, c)) => (old, wrap 32 (c + 1)) | _ => (tx, 1) end))
  else m !! id.
Proof.
  unfold store_transaction. case_bool_decide as He; [subst id|].
  - destruct (m !! compute_txid tx) as [[[old c]|]|]; by rewrite lookup_insert_eq.
  - destruct (m !! compute_txid tx) as [[[old c]|]|]; by rewrite lookup_insert_ne.
Qed.
Lemma store_ok tx m : mempool_ok m → mempool_ok (store_transaction tx m).
Proof.
  intros Hm id tx' c. rewrite store_lookup. case_bool_decide as He; [|by apply Hm].
  destruct (m !! id) as [[[old c']|]|] eqn:E; intros [= <- <-]; [by eapply Hm|done..].
Qed.
Lemma store_fat tx m id : fat m id ∨ compute_txid tx = id → fat (store_transaction tx m) id.
Proof.
  intros Hf. unfold fat. rewrite store_lookup. case_bool_decide.
  - destruct (m !! id) as [[[old c']|]|]; eauto.
  - by destruct Hf as [Hf|Hf].
Qed.
Lemma store_present tx m id : is_Some (m !! id) → is_Some (store_transaction tx m !! id).
Proof. rewrite store_lookup. by case_bool_decide. Qed.

(** A node that knows the transactions it is asked for. *)
Definition answers (rpc : bytes → option Transaction) (ids : list bytes) : Prop :=
  ∀ id, id ∈ ids → ∃ tx, rpc id = Some tx ∧ compute_txid tx = id.

Lemma fetch_known_ok rpc ids m :
  mempool_ok m → answers rpc ids →
  ∃ m', fetch_known rpc ids m = (Ok tt, m') ∧ mempool_ok m' ∧
    (∀ id, fat m id → fat m' id) ∧ (∀ id, id ∈ ids → is_Some (m !! id) → fat m' id).
Proof.
  revert m. induction ids as [|id ids IH]; intros m Hm Ha.
  { exists m. split_and!; [done..|]. intros id Hid. by apply not_elem_of_nil in Hid. }
  assert (Hrest : answers rpc ids) by (intros i Hi; apply Ha; by right).
  cbn [fetch_known]. rewrite st_gets_bind. destruct (m !! id) as [[[tx c]|]|] eqn:E.
  - destruct (IH m Hm Hrest) as (m' & E' & Hok & Hf & Hi). exists m'. split_and!; [done..|].
    intros i Hin Hp. apply elem_of_cons in Hin as [->|Hin]; [apply Hf; unfold fat; eauto|eauto].
  - destruct (Ha id) as (tx & Hr & Htx); [by left|].
    destruct (IH (store_transaction tx m) (store_ok _ _ Hm) Hrest) as (m' & E' & Hok & Hf & Hi).
    exists m'. unfold mbind, ST_bind. rewrite Hr. cbn. split_and!; [done|done| |].
    + intros i Hi'. apply Hf, store_fat. by left.
    + intros i Hin Hp. apply elem_of_cons in Hin as [->|Hin]; [apply Hf, store_fat; by right|].
      apply Hi; [done|]. by apply store_present.
  - destruct (IH m Hm Hrest) as (m' & E' & Hok & Hf & Hi). exists m'. split_and!; [done..|].
    intros i Hin Hp. apply elem_of_cons in Hin as [->|Hin]; [by rewrite E in Hp; destruct Hp|eauto].
Qed.
Lemma store_all_ok txs m :
  mempool_ok m →
  let m' := foldl (λ m tx, store_transaction tx m) m txs in
  mempool_ok m' ∧ (∀ id, fat m id → fat m' id) ∧ (∀ tx, tx ∈ txs → fat m' (compute_txid tx)).
Proof.
  revert m. induction txs as [|tx txs IH]; intros m Hm; cbn zeta; cbn [foldl].
  { split_and!; [done..|]. intros tx Htx. by apply not_elem_of_nil in Htx. }
  destruct (IH _ (store_ok tx m Hm)) as (Hok & Hf & Hi). split_and!; [done| |].
  - intros id Hid. apply Hf, store_fat. by left.
  - intros t Ht. apply elem_of_cons in Ht as [->|Ht]; [apply Hf, store_fat; by right|by apply Hi].
Qed.
Lemma add_tx_data_ok rpc a m :
  mempool_ok m → answers rpc (known_transactions a) →
  ∃ m', add_tx_data_to_mempool rpc a m = (Ok tt, m') ∧ mempool_ok m' ∧ (∀ id, fat m id → fat m' id) ∧
    (∀ id, id ∈ known_transactions a → is_Some (m !! id) → fat m' id) ∧
    (∀ tx, tx ∈ unknown_transactions a → fat m' (compute_txid tx)).
Proof.
  intros Hm Ha. destruct (fetch_known_ok rpc _ m Hm Ha) as (m1 & E & Hm1 & Hf1 & Hi1).
  destruct (store_all_ok (unknown_transactions a) m1 Hm1) as (Hm2 & Hf2 & Hi2).
  eexists. unfold add_tx_data_to_mempool. rewrite (st_bind_ok _ _ _ _ _ E).
  split; [reflexivity|]. split_and!; auto.
Qed.

Lemma release_ok snapshot id m : mempool_ok m → mempool_ok (release snapshot id m).
Proof.
  intros Hm. unfold release. destruct (snapshot !! id) as [[[tx c]|]|]; [|done..].
  destruct (m !! compute_txid tx) as [[[tx' c']|]|] eqn:E; [|done..]. destruct (1 <? c').
  - intros i t n Hi. apply lookup_insert_Some in Hi as [[<- [= <- <-]]|[_ Hi]]; [by eapply Hm|by eapply Hm].
  - intros i t n Hi. apply lookup_delete_Some in Hi as [_ Hi]. by eapply Hm.
Qed.
Lemma clear_ok old new m : mempool_ok m → mempool_ok (clear_declared_mining_job old new m).
Proof.
  intros Hm. unfold clear_declared_mining_job. set (snapshot := m) at 1. clearbody snapshot.
  revert m Hm. induction (filter _ _) as [|id ids IH]; intros m Hm; [done|]. cbn [foldl].
  by apply IH, release_ok.
Qed.
End mempool.

(** ** Recognizing and filling in transactions *)

Section states.
Context `{Bitcoin} `{Jds}.

Definition unknown (m : Mempool) (ids : list bytes) : list bytes := filter (λ id, m !! id = None) ids.

(** The ids of a job once the provided transactions [txs] have taken the places
    of the unknown ones, in order. *)
Fixpoint filled (m : Mempool) (ids : list bytes) (txs : list Transaction) : list bytes :=
  match ids with
  | [] => []
  | id :: ids =>
      if bool_decide (is_Some (m !! id)) then id :: filled m ids txs
      else match txs with
           | tx :: txs => compute_txid tx :: filled m ids txs
           | [] => []
           end
  end.
Lemma filled_unknown m ids txs : compute_txid <$> txs = unknown m ids → filled m ids txs = ids.
Proof.
  revert txs. induction ids as [|id ids IH]; intros txs; [done|]. unfold unknown. cbn [filled].
  case_bool_decide as Hk.
  - rewrite filter_cons_False by (intros Hn; rewrite Hn in Hk; by destruct Hk). intros Ht. f_equal. by apply IH.
  - rewrite filter_cons_True by (by apply eq_None_not_Some).
    destruct txs as [|tx txs]; [done|]. intros [= -> Ht]. f_equal. by apply IH.
Qed.

Lemma recognize_known m ids i : (recognize m i ids).2 = filter (λ id, is_Some (m !! id)) ids.
Proof.
  revert i. induction ids as [|id ids IH]; intros i; [done|]. cbn [recognize]. specialize (IH (i + 1)).
  destruct (recognize m (i + 1) ids) as [[states missing] known]. cbn in IH. subst known.
  case_bool_decide as Hk; cbn [snd]; [by rewrite filter_cons_True|by rewrite filter_cons_False].
Qed.
Lemma recognize_missing m ids i : length (recognize m i ids).1.2 = length (unknown m ids).
Proof.
  revert i. induction ids as [|id ids IH]; intros i; [done|]. cbn [recognize]. specialize (IH (i + 1)).
  unfold unknown in *. destruct (recognize m (i + 1) ids) as [[states missing] known]. cbn in IH.
  case_bool_decide as Hk; cbn [fst snd length].
  - by rewrite filter_cons_False by (intros Hn; rewrite Hn in Hk; by destruct Hk).
  - rewrite filter_cons_True by (by apply eq_None_not_Some). cbn [length]. by rewrite IH.
Qed.
(** The provided transactions fill the missing places one after the other. *)
Lemma fill_recognized m ids raw txs pre seen acc :
  Forall2 (λ b tx, decode_transaction b = Some tx) raw txs → length txs = length (unknown m ids) →
  zlen seen + zlen ids ≤ 2 ^ 16 →
  let '(states, missing, _) := recognize m (zlen seen) ids in
  fill_missing (pre ++ missing) (length pre) raw (seen ++ states) acc
  = (Ok (acc ++ txs), seen ++ (PresentInMempool <$> filled m ids txs)).
Proof.
  revert raw txs pre seen acc. induction ids as [|id ids IH]; intros raw txs pre seen acc Hraw Hlen Hn.
  { cbn in Hlen. apply nil_length_inv in Hlen as ->. inversion Hraw. cbn. by rewrite !app_nil_r. }
  rewrite zlen_cons in Hn. pose proof (zlen_nonneg ids). pose proof (zlen_nonneg seen).
  assert (Hz : ∀ x : TransactionState, zlen seen + 1 = zlen (seen ++ [x])).
  { intros x. rewrite zlen_app, zlen_cons, zlen_nil. lia. }
  unfold unknown in *. cbn [recognize filled]. case_bool_decide as Hk.
  - rewrite filter_cons_False in Hlen by (intros Hx; rewrite Hx in Hk; by destruct Hk).
    specialize (IH raw txs pre (seen ++ [PresentInMempool id]) acc Hraw Hlen ltac:(rewrite <- Hz; lia)).
    rewrite <- Hz in IH. destruct (recognize m (zlen seen + 1) ids) as [[states missing] known].
    rewrite <- !app_assoc in IH. exact IH.
  - rewrite filter_cons_True in Hlen by (by apply eq_None_not_Some).
    destruct txs as [|tx txs]; [done|]. injection Hlen as Hlen. inversion Hraw as [|b ? raw' ? Hb Hraw']; subst.
    specialize (IH raw' txs (pre ++ [zlen seen]) (seen ++ [PresentInMempool (compute_txid tx)]) (acc ++ [tx])
      Hraw' Hlen ltac:(rewrite <- Hz; lia)).
    rewrite <- Hz in IH. destruct (recognize m (zlen seen + 1) ids) as [[states missing] known].
    cbn [fill_missing]. rewrite Hb, wrap_small by (unfold fits; lia).
    rewrite list_lookup_middle by done. rewrite zlen_app, zlen_cons. pose proof (zlen_nonneg states).
    rewrite (proj2 (Z.leb_gt _ _)) by lia.
    replace (Z.to_nat (zlen seen)) with (length seen + 0)%nat by (unfold zlen; lia).
    rewrite insert_app_r. cbn [insert list_insert].
    rewrite <- !app_assoc, length_app, Nat.add_1_r in IH. exact IH.
Qed.
Lemma recognize_all m ids i :
  unknown m ids = [] →
  (recognize m i ids).1.1 = PresentInMempool <$> ids ∧ (recognize m i ids).1.2 = [].
Proof.
  unfold unknown. revert i. induction ids as [|id ids IH]; intros i; [done|]. cbn [recognize].
  destruct (decide (m !! id = None)) as [Hn|Hn]; [by rewrite filter_cons_True|].
  rewrite filter_cons_False by done. intros Hu. destruct (IH (i + 1) Hu) as [H1 H2].
  destruct (recognize m (i + 1) ids) as [[states missing] known]. cbn in *. subst.
  by rewrite bool_decide_eq_true_2 by (by apply not_eq_None_Some).
Qed.

(** A job all of whose transactions are in the mempool is collected. *)
Lemma collect_present m ids :
  mempool_ok m → (∀ id, id ∈ ids → fat m id) →
  ∃ txs, collect_states m (PresentInMempool <$> ids) = Ok txs ∧ compute_txid <$> txs = ids.
Proof.
  intros Hm. induction ids as [|id ids IH]; intros Hf; [by exists []|].
  destruct (Hf id) as (tx & c & Hid); [by left|]. destruct IH as (txs & E & Ht); [intros; apply Hf; by right|].
  exists (tx :: txs). cbn. rewrite Hid. cbn. rewrite E. cbn. split; [done|]. f_equal; [by eapply Hm|done].
Qed.
End states.

(** ** From a declaration to a block *)

Section mined.
Context `{Bitcoin} `{Jds} (chk : bool) (rpc : bytes → option Transaction).

(** The mempool once the previous job of the connection is cleared. *)
Definition cleared (m : DeclareMiningJob) (s : JdState) : Mempool :=
  match declared_mining_job (jd_self s) with
  | Some old => clear_declared_mining_job old m (jd_mempool s)
  | None => jd_mempool s
  end.
Definition token_known (m : DeclareMiningJob) (d : JdDownstream) : Prop :=
  zlen (dj_mining_job_token m) = 4 ∧
  is_Some (token_to_job_map d !! from_le_bytes (dj_mining_job_token m)).
Definition job_token (m : DeclareMiningJob) : bytes :=
  sign_token (ztake 32 (to_le_bytes 1 (zlen (dj_mining_job_token m)) ++ dj_mining_job_token m
    ++ replicate (Z.to_nat (254 - zlen (dj_mining_job_token m))) (byte.of_Z 0))).
Lemma signed_token_ok m : zlen (dj_mining_job_token m) = 4 → signed_token (dj_mining_job_token m) = Ok (job_token m).
Proof. intros Hl. unfold signed_token. by rewrite (proj2 (Z.ltb_ge _ _)) by lia. Qed.

Definition declared (m : DeclareMiningJob) (states : list TransactionState) (missing : list Z)
    (known : list bytes) (s : JdState) : JdState :=
  mkJdState (set_updates no_updates (set_declared (Some m) states missing (jd_self s))) (cleared m s)
    (jd_updates s ++ [mkAdd (known_transactions (add_txs_to_mempool (jd_self s)) ++ known)
                        (unknown_transactions (add_txs_to_mempool (jd_self s)))]) (jd_blocks s).
Lemma declare_step late m s :
  token_known m (jd_self s) →
  let '(states, missing, known) := recognize (cleared m s) 0 (dj_tx_ids_list m) in
  on_message chk rpc late true (RequestDeclareMiningJob m) s =
  (Ok (Sent (match missing with
             | [] => DeclareMiningJobSuccess (dj_request_id m) (job_token m)
             | _ => ProvideMissingTransactions (dj_request_id m) missing
             end)), declared m states missing known s).
Proof.
  intros [Hl Ht]. unfold on_message. cbn [handle_message_job_declaration].
  unfold handle_declare_mining_job, verify_job, cleared, declared. rewrite st_gets_bind.
  destruct (declared_mining_job (jd_self s)) as [old|] eqn:Eo; unfold mbind, ST_bind, modify, gets, mret, ST_ret, lift; cbn;
    rewrite Hl; cbn; rewrite bool_decide_eq_true_2 by done;
    destruct (recognize _ 0 _) as [[states missing] known] eqn:Er; rewrite signed_token_ok by done;
    unfold cleared; cbn; rewrite ?Eo; by destruct missing.
Qed.

(** Whatever transactions are provided, as many as are missing: the job is
    accepted with their ids. *)
Lemma provide_step late m s raw txs mp :
  zlen (dj_mining_job_token m) = 4 → declared_mining_job (jd_self s) = Some m →
  Forall2 (λ b tx, decode_transaction b = Some tx) raw txs →
  length txs = length (unknown mp (dj_tx_ids_list m)) → zlen (dj_tx_ids_list m) ≤ 2 ^ 16 →
  (transactions_with_state (jd_self s), missing_indexes (jd_self s)) = (recognize mp 0 (dj_tx_ids_list m)).1 →
  on_message chk rpc late true (ProvideMissingTransactionsSuccess (dj_request_id m) raw) s =
  (Ok (Sent (DeclareMiningJobSuccess (dj_request_id m) (job_token m))),
   mkJdState (set_updates no_updates
                (set_declared (Some m) (PresentInMempool <$> filled mp (dj_tx_ids_list m) txs)
                   (missing_indexes (jd_self s)) (jd_self s))) (jd_mempool s)
     (jd_updates s ++ [mkAdd (known_transactions (add_txs_to_mempool (jd_self s)))
                         (unknown_transactions (add_txs_to_mempool (jd_self s)) ++ txs)]) (jd_blocks s)).
Proof.
  intros Hl Hd Hraw Hlen Hn Hrec.
  pose proof (fill_recognized mp (dj_tx_ids_list m) raw txs [] [] [] Hraw Hlen ltac:(rewrite zlen_nil; lia)) as Hf.
  rewrite zlen_nil in Hf. destruct (recognize mp 0 (dj_tx_ids_list m)) as [[states missing] known].
  cbn in Hrec. injection Hrec as Hs Hm.
  unfold on_message. cbn [handle_message_job_declaration]. unfold handle_provide_missing_transactions_success.
  rewrite st_gets_bind, Hd, Z.eqb_refl, Hs, Hm. cbn [app length] in Hf. rewrite Hf.
  rewrite st_modify_bind, st_lift_bind, st_modify_bind.
  assert (Hnone : ∀ l, existsb is_missing (PresentInMempool <$> l) = false) by (intros l; by induction l).
  rewrite Hnone, signed_token_ok, st_lift_bind by done. cbn.
  unfold send_txs_to_mempool, on_jd_self, set_self, set_declared, set_updates. cbn. by rewrite Hd, Hm.
Qed.

Definition header_of (sol : PushSolution) (root : bytes) : BlockHeader :=
  mkBlockHeader (ps_version sol) (ps_prev_hash sol) root (ps_ntime sol) (ps_nbits sol) (ps_nonce sol).
Lemma push_step late sol m s ids cb :
  declared_mining_job (jd_self s) = Some m →
  transactions_with_state (jd_self s) = PresentInMempool <$> ids →
  mempool_ok (jd_mempool s) → (∀ id, id ∈ ids → fat (jd_mempool s) id) →
  tx_deserialize (dj_coinbase_tx_prefix m ++ ps_extranonce sol ++ dj_coinbase_tx_suffix m) = Some cb →
  (∀ tx l, is_Some (compute_merkle_root (tx :: l))) →
  ∃ txs root, compute_txid <$> txs = ids ∧ compute_merkle_root (cb :: txs) = Some root ∧
    on_message chk rpc late true (RequestPushSolution sol) s =
    (Ok Quiet, push_block (block_hex (mkBlock (header_of sol root) (cb :: txs))) s).
Proof.
  intros Hd Hs Hok Hf Hcb Hroot. destruct (collect_present _ ids Hok Hf) as (txs & Hc & Ht).
  destruct (Hroot cb txs) as [root Hr]. exists txs, root. split_and!; [done..|].
  unfold on_message, on_push_solution, get_block_hex, collect_txs_in_job. cbn. rewrite Hs, Hc, Hd. cbn.
  unfold create_block, merkle_root_from_path. rewrite Hcb. cbn. by rewrite Hr.
Qed.

(** The whole exchange: declaration, the mempool's update, the missing
    transactions if any with their update, and the solution. *)
Definition exchange (m : DeclareMiningJob) (raw : list bytes) (sol : PushSolution) (s : JdState) : JdState :=
  let s := mempool_task rpc (on_message chk rpc None true (RequestDeclareMiningJob m) s).2 in
  let s := match raw with
           | [] => s
           | _ => mempool_task rpc (on_message chk rpc None true
                    (ProvideMissingTransactionsSuccess (dj_request_id m) raw) s).2
           end in
  (on_message chk rpc None true (RequestPushSolution sol) s).2.
End mined.

(** The two updates of the mempool leave every transaction of the job in it. *)
Lemma job_complete `{Bitcoin} m1 m2 m3 ids txs :
  compute_txid <$> txs = unknown m1 ids →
  (∀ id, id ∈ filter (λ id, is_Some (m1 !! id)) ids → is_Some (m1 !! id) → fat m2 id) →
  (∀ id, fat m2 id → fat m3 id) → (∀ tx, tx ∈ txs → fat m3 (compute_txid tx)) →
  ∀ id, id ∈ ids → fat m3 id.
Proof.
  intros Ht H1 H2 H3 id Hid. destruct (m1 !! id) as [e|] eqn:E.
  - apply H2, H1; [|by rewrite E]. apply list_elem_of_filter. by rewrite E.
  - assert (Hu : id ∈ unknown m1 ids) by (apply list_elem_of_filter; done).
    rewrite <- Ht in Hu. apply list_elem_of_fmap in Hu as (tx & -> & Htx). by apply H3.
Qed.

Lemma mempool_task_one `{Bitcoin} rpc d mp a blocks m' :
  add_tx_data_to_mempool rpc a mp = (Ok tt, m') →
  mempool_task rpc (mkJdState d mp [a] blocks) = mkJdState d m' [] blocks.
Proof. intros E. unfold mempool_task. cbn [jd_updates jd_mempool]. by rewrite E. Qed.

(** C6 A declared job becomes the block it describes: with a token the server
    has given out, a node that returns the transactions it is asked for, and
    the missing transactions provided in the order of their positions, the
    solution makes the server queue a block whose transactions are the coinbase
    between the job's halves and then exactly the declared ids, in order, under
    the solution's header fields and the merkle root of those transactions. *)
Theorem declared_job_mined `{Bitcoin} `{Jds} (chk : bool) (rpc : bytes → option Transaction)
    (m : DeclareMiningJob) (sol : PushSolution) (s : JdState) (raw : list bytes)
    (txs : list Transaction) (cb : Transaction) :
  token_known m (jd_self s) → zlen (dj_tx_ids_list m) ≤ 2 ^ 16 →
  mempool_ok (jd_mempool s) → jd_updates s = [] → add_txs_to_mempool (jd_self s) = no_updates →
  answers rpc (filter (λ id, is_Some (cleared m s !! id)) (dj_tx_ids_list m)) →
  Forall2 (λ b tx, decode_transaction b = Some tx) raw txs →
  compute_txid <$> txs = unknown (cleared m s) (dj_tx_ids_list m) →
  tx_deserialize (dj_coinbase_tx_prefix m ++ ps_extranonce sol ++ dj_coinbase_tx_suffix m) = Some cb →
  (∀ tx l, is_Some (compute_merkle_root (tx :: l))) →
  ∃ block_txs root,
    compute_txid <$> block_txs = dj_tx_ids_list m ∧ compute_merkle_root (cb :: block_txs) = Some root ∧
    jd_blocks (exchange chk rpc m raw sol s)
    = jd_blocks s ++ [block_hex (mkBlock (header_of sol root) (cb :: block_txs))].
Proof.
  intros Htok Hn Hok Hup Hadd Hans Hraw Htxs Hcb Hroot. unfold exchange.
  pose proof (declare_step chk rpc None m s Htok) as Hd.
  assert (Hc : mempool_ok (cleared m s)) by (unfold cleared; destruct (declared_mining_job _); [by apply clear_ok|done]).
  pose proof (recognize_known (cleared m s) (dj_tx_ids_list m) 0) as Hk.
  pose proof (recognize_missing (cleared m s) (dj_tx_ids_list m) 0) as Hm.
  destruct (recognize (cleared m s) 0 (dj_tx_ids_list m)) as [[states missing] known] eqn:Er.
  rewrite Hd. cbn in Hk, Hm. subst known. unfold declared. rewrite Hup, Hadd. cbn [app known_transactions unknown_transactions no_updates snd].
  destruct (add_tx_data_ok rpc (mkAdd (filter (λ id, is_Some (cleared m s !! id)) (dj_tx_ids_list m)) []) _ Hc Hans)
    as (m2 & E2 & Hok2 & Hf2 & Hk2 & _). rewrite (mempool_task_one _ _ _ _ _ _ E2).
  destruct raw as [|b raw].
  - inversion Hraw; subst txs. symmetry in Htxs. destruct (recognize_all _ _ 0 Htxs) as [Hs _].
    rewrite Er in Hs. cbn in Hs. subst states.
    edestruct (push_step chk rpc None sol m) as (btxs & root & Hb & Hr & E);
      [| | | |exact Hcb|exact Hroot|exists btxs, root; by rewrite E]; [done..|].
    apply (job_complete (cleared m s) m2 m2 _ []); [done..|]. intros tx Htx. by apply not_elem_of_nil in Htx.
  - rewrite (provide_step chk rpc None m _ (b :: raw) txs (cleared m s)); [|by apply Htok|done|done| |done|by rewrite Er].
    2: { by rewrite <- Htxs, length_fmap. }
    destruct (add_tx_data_ok rpc (mkAdd [] txs) m2 Hok2) as (m3 & E3 & Hok3 & Hf3 & _ & Hu3).
    { intros id Hid. by apply not_elem_of_nil in Hid. }
    rewrite (filled_unknown _ _ _ Htxs). cbn [snd jd_updates jd_mempool app].
    erewrite mempool_task_one by exact E3.
    edestruct (push_step chk rpc None sol m) as (btxs & root & Hb & Hr & E);
      [| | | |exact Hcb|exact Hroot|exists btxs, root; by rewrite E]; [done..|].
    by apply (job_complete (cleared m s) m2 m3 _ txs).
Qed.

(** The server never compares the provided transactions with the declared
    ids: after a declaration with a known token, any decodable transactions, as
    many as there are missing positions, are answered with
    DeclareMiningJob.Success, and the job's places then hold their ids
    instead of the declared ones. *)
Theorem provided_transactions_unchecked `{Bitcoin} `{Jds} (chk : bool)
    (rpc : bytes → option Transaction) (m : DeclareMiningJob) (s : JdState) (raw : list bytes)
    (txs : list Transaction) :
  token_known m (jd_self s) → zlen (dj_tx_ids_list m) ≤ 2 ^ 16 →
  Forall2 (λ b tx, decode_transaction b = Some tx) raw txs →
  length txs = length (unknown (cleared m s) (dj_tx_ids_list m)) →
  let '(r, s') := on_message chk rpc None true (ProvideMissingTransactionsSuccess (dj_request_id m) raw)
    (mempool_task rpc (on_message chk rpc None true (RequestDeclareMiningJob m) s).2) in
  r = Ok (Sent (DeclareMiningJobSuccess (dj_request_id m) (job_token m))) ∧
  transactions_with_state (jd_self s') = PresentInMempool <$> filled (cleared m s) (dj_tx_ids_list m) txs.
Proof.
  intros Htok Hn Hraw Hlen. pose proof (declare_step chk rpc None m s Htok) as Hd.
  destruct (recognize (cleared m s) 0 (dj_tx_ids_list m)) as [[states missing] known] eqn:Er.
  rewrite Hd. cbn [snd]. set (s1 := mempool_task rpc _).
  assert (Hs : jd_self s1 = jd_self (declared m states missing known s))
    by (subst s1; unfold mempool_task; by destruct (jd_updates _)).
  rewrite (provide_step chk rpc None m s1 raw txs (cleared m s)); rewrite ?Hs; [done|by apply Htok|done..|by rewrite Er].
Qed.

(** C23 An entry shared by two connections is dropped with the first of them:
    [a] holds a job on the transaction [id], whose entry it put into the
    mempool; [b] declares a job on the same transaction, which is recognized
    without the counter going up.  When [a] then declares a job that does not
    use it, the entry is deleted, and a solution of [b] produces no block,
    even though the server asks the node once more for the transaction. *)
Theorem shared_transaction_dropped `{Bitcoin} `{Jds} (chk : bool) (late : option nat)
    (rpc : bytes → option Transaction) (id : bytes) (tx : Transaction) (olda newa jobb : DeclareMiningJob)
    (a b : JdState) (sol : PushSolution) :
  compute_txid tx = id → jd_mempool b !! id = Some (Some (tx, 1)) →
  declared_mining_job (jd_self a) = Some olda → dj_tx_ids_list olda = [id] → id ∉ dj_tx_ids_list newa →
  token_known newa (jd_self a) → token_known jobb (jd_self b) →
  declared_mining_job (jd_self b) = None → dj_tx_ids_list jobb = [id] →
  add_txs_to_mempool (jd_self b) = no_updates → jd_updates b = [] →
  let b1 := mempool_task rpc (on_message chk rpc late true (RequestDeclareMiningJob jobb) b).2 in
  let a1 := (on_message chk rpc late true (RequestDeclareMiningJob newa) (set_mempool (jd_mempool b1) a)).2 in
  let b2 := (on_message chk rpc late true (RequestPushSolution sol) (set_mempool (jd_mempool a1) b1)).2 in
  on_message chk rpc late true (RequestDeclareMiningJob jobb) b
  = (Ok (Sent (DeclareMiningJobSuccess (dj_request_id jobb) (job_token jobb))),
     (on_message chk rpc late true (RequestDeclareMiningJob jobb) b).2) ∧
  jd_blocks b2 = jd_blocks b.
Proof.
  intros Hid Hb Ha Hold Hnew Hta Htb Hnone Hjob Hadd Hup. cbn zeta.
  pose proof (declare_step chk rpc late jobb b Htb) as Hd.
  assert (Hcb : cleared jobb b = jd_mempool b) by (unfold cleared; by rewrite Hnone).
  rewrite Hcb, Hjob in Hd. cbn [recognize] in Hd. rewrite bool_decide_eq_true_2 in Hd by (by rewrite Hb).
  rewrite Hd. split; [done|]. cbn [snd]. unfold declared. rewrite Hadd, Hup, Hcb. cbn [app no_updates known_transactions unknown_transactions].
  rewrite (mempool_task_one _ _ _ _ _ (jd_mempool b))
    by (unfold add_tx_data_to_mempool; cbn [fetch_known known_transactions]; unfold mbind, ST_bind, gets; by rewrite Hb).
  pose proof (declare_step chk rpc late newa (set_mempool (jd_mempool b) a) Hta) as Hn.
  assert (Hdel : cleared newa (set_mempool (jd_mempool b) a) = delete id (jd_mempool b)).
  { unfold cleared. cbn [set_mempool jd_self jd_mempool]. rewrite Ha. unfold clear_declared_mining_job.
    rewrite Hold, filter_cons_True by done. cbn. unfold release. by rewrite Hb, Hid, Hb. }
  rewrite Hdel in Hn. cbn [jd_mempool].
  destruct (recognize (delete id (jd_mempool b)) 0 (dj_tx_ids_list newa)) as [[states missing] known].
  rewrite Hn. unfold declared. rewrite Hdel. cbn [snd jd_mempool set_mempool].
  unfold on_message. cbn [handle_message_job_declaration handle_push_solution mret ST_ret].
  unfold on_push_solution, get_block_hex, collect_txs_in_job, add_tx_data_to_mempool.
  assert (Hl : delete id (jd_mempool b) !! id = None) by apply lookup_delete_eq.
  cbn. rewrite Hl. cbn. destruct late; [done|]. cbn. unfold mbind, ST_bind, gets, mret, ST_ret, modify. cbn. rewrite Hl. cbn. by rewrite Hl.
Qed.

(** ** Examples *)

#[local] Existing Instance model_bitcoin.

Definition model_jds : Jds := {|
  decode_transaction := dec_tx;
  sign_token := sha256d;
  compute_merkle_root l := Some (sha256d (concat (compute_txid <$> l)));
  block_hex b := to_le_bytes 4 (bh_nonce (blk_header b)) ++ concat (compute_txid <$> txdata b) |}.
#[local] Existing Instance model_jds.

Definition sample_tx (v : Z) : Transaction :=
  mkTransaction v 0 [mkTxIn (replicate 32 (byte.of_Z 7), 0) (to_le_bytes 8 v) 0 []] [mkTxOut 50 [byte.of_Z 1]].
Definition sample_id (v : Z) : bytes := compute_txid (sample_tx v).
Definition sample_rpc (id : bytes) : option Transaction :=
  if bool_decide (id = sample_id 1) then Some (sample_tx 1) else None.
Definition coinbase_halves : bytes * bytes * bytes :=
  let b := legacy_bytes (sample_tx 9) in (ztake 42 b, ztake 8 (zdrop 42 b), zdrop 50 b).
Definition sample_job (token : Z) (ids : list bytes) : DeclareMiningJob :=
  mkDeclare 5 (to_le_bytes 4 token) 2 coinbase_halves.1.1 coinbase_halves.2 ids [].
Definition sample_solution : PushSolution := mkPush coinbase_halves.1.2 (replicate 32 (byte.of_Z 0)) 10 11 12 2.
Definition sample_connection (mp : Mempool) : JdState :=
  (on_message true sample_rpc None true (AllocateMiningJobToken 1)
     (mkJdState (JdDownstream_new [byte.of_Z 1]) mp [] [])).2.

(** The first transaction is known to the node, the second is provided. *)
Lemma declared_job_mined_witness :
  ∃ block_txs root,
    compute_txid <$> block_txs = [sample_id 1; sample_id 2] ∧
    compute_merkle_root (sample_tx 9 :: block_txs) = Some root ∧
    jd_blocks (exchange true sample_rpc (sample_job 1 [sample_id 1; sample_id 2]) [legacy_bytes (sample_tx 2)]
                 sample_solution (sample_connection {[ sample_id 1 := None ]}))
    = [block_hex (mkBlock (header_of sample_solution root) (sample_tx 9 :: block_txs))].
Proof.
  refine (declared_job_mined true sample_rpc (sample_job 1 [sample_id 1; sample_id 2]) sample_solution
    (sample_connection {[ sample_id 1 := None ]}) [legacy_bytes (sample_tx 2)] [sample_tx 2] (sample_tx 9)
    _ _ _ _ _ _ _ _ _ _).
  - split; [reflexivity|]. vm_compute. eauto.
  - vm_compute. discriminate.
  - intros id tx c Hid. change (jd_mempool _) with ({[ sample_id 1 := None ]} : Mempool) in Hid.
    apply lookup_singleton_Some in Hid as [_ Hid]. discriminate.
  - reflexivity.
  - reflexivity.
  - intros id Hid. exists (sample_tx 1). apply list_elem_of_filter in Hid as [Hk _].
    change (cleared _ _) with ({[ sample_id 1 := None ]} : Mempool) in Hk.
    apply lookup_singleton_is_Some in Hk as <-. split; reflexivity.
  - constructor; [vm_compute; reflexivity|constructor].
  - vm_compute. reflexivity.
  - vm_compute. reflexivity.
  - intros tx l. eexists. reflexivity.
Defined.

(** Another transaction than the declared one is accepted in its place. *)
Lemma provided_transactions_unchecked_witness :
  let '(r, s') := on_message true sample_rpc None true (ProvideMissingTransactionsSuccess 5 [legacy_bytes (sample_tx 3)])
    (mempool_task sample_rpc (on_message true sample_rpc None true
       (RequestDeclareMiningJob (sample_job 1 [sample_id 2])) (sample_connection ∅)).2) in
  r = Ok (Sent (DeclareMiningJobSuccess 5 (job_token (sample_job 1 [sample_id 2])))) ∧
  transactions_with_state (jd_self s') = [PresentInMempool (sample_id 3)].
Proof.
  refine (provided_transactions_unchecked true sample_rpc (sample_job 1 [sample_id 2]) (sample_connection ∅)
    [legacy_bytes (sample_tx 3)] [sample_tx 3] _ _ _ _).
  - split; [reflexivity|]. vm_compute. eauto.
  - vm_compute. discriminate.
  - constructor; [vm_compute; reflexivity|constructor].
  - vm_compute. reflexivity.
Defined.

Definition sample_owner : JdState :=
  mempool_task sample_rpc (on_message true sample_rpc None true
    (RequestDeclareMiningJob (sample_job 1 [sample_id 1])) (sample_connection {[ sample_id 1 := None ]})).2.
Lemma shared_transaction_dropped_witness :
  let b := sample_connection (jd_mempool sample_owner) in
  let b1 := mempool_task sample_rpc (on_message true sample_rpc None true
    (RequestDeclareMiningJob (sample_job 1 [sample_id 1])) b).2 in
  let a1 := (on_message true sample_rpc None true (RequestDeclareMiningJob (sample_job 1 []))
    (set_mempool (jd_mempool b1) sample_owner)).2 in
  jd_blocks (on_message true sample_rpc None true (RequestPushSolution sample_solution)
    (set_mempool (jd_mempool a1) b1)).2 = [].
Proof.
  refine (proj2 (shared_transaction_dropped true None sample_rpc (sample_id 1) (sample_tx 1)
    (sample_job 1 [sample_id 1]) (sample_job 1 []) (sample_job 1 [sample_id 1]) sample_owner
    (sample_connection (jd_mempool sample_owner)) sample_solution _ _ _ _ _ _ _ _ _ _ _)); try reflexivity.
  - apply not_elem_of_nil.
  - split; [reflexivity|]. vm_compute. eauto.
  - split; [reflexivity|]. vm_compute. eauto.
Defined.
