(* ===== verification/Sv1.v ===== *)
(** * The Stratum V1 protocol

    [protocols/v1/src]: JSON-RPC messages ([json_rpc.rs]), the hexadecimal
    field types ([utils.rs]), the messages of clients and servers and their
    conversions ([methods]), and the handler of a server ([IsServer] in
    [lib.rs]).  JSON text itself is read and written by serde; a message is
    modelled from the JSON value on.  Hexadecimal text belongs to two packages
    and is a class. *)

From Stdlib Require Import SpecFloat.
From stdpp Require Import gmap.
From S2P Require Import Prelude Difficulty.
#[local] Open Scope Z_scope.
#[local] Open Scope list_scope.

(** ** JSON *)

(** serde's numbers: non-negative and negative integers, and finite doubles. *)
Inductive Number : Type := NUnsigned (n : Z) | NNegative (n : Z) | NFloat (f : f64).
Inductive Value : Type :=
  | VNull
  | VBool (b : bool)
  | VNumber (n : Number)
  | VString (s : bytes)
  | VArray (l : list Value)
  | VObject (m : list (bytes * Value)).

Definition as_u64 (n : Number) : option Z := match n with NUnsigned z => Some z | _ => None end.
Definition as_f64 (v : Value) : option f64 :=
  match v with
  | VNumber (NUnsigned z) | VNumber (NNegative z) => Some (f64_of_Z z)
  | VNumber (NFloat f) => Some f
  | _ => None
  end.
Definition as_str (v : Value) : option bytes := match v with VString s => Some s | _ => None end.
Definition as_bool (v : Value) : option bool := match v with VBool b => Some b | _ => None end.
Definition as_array (v : Value) : option (list Value) := match v with VArray l => Some l | _ => None end.
Definition as_object (v : Value) : option (list (bytes * Value)) := match v with VObject m => Some m | _ => None end.
(** A double that is not finite becomes null. *)
Definition value_of_f64 (f : f64) : Value :=
  match f with
  | S754_zero _ | S754_finite _ _ _ => VNumber (NFloat f)
  | S754_infinity _ | S754_nan => VNull
  end.
Fixpoint get (key : bytes) (m : list (bytes * Value)) : option Value :=
  match m with
  | [] => None
  | (k, v) :: m => if bool_decide (k = key) then Some v else get key m
  end.
(** [pointer("/1/key")]. *)
Definition pointer1 (key : bytes) (v : Value) : option Value :=
  match v with
  | VArray (_ :: VObject m :: _) => get key m
  | _ => None
  end.

Record StandardRequest : Type := mkRequest { rq_id : Z; rq_method : bytes; rq_params : Value }.
Record Notification : Type := mkNotification { nt_method : bytes; nt_params : Value }.
Record JsonRpcError : Type := mkJsonRpcError { je_code : Z; je_message : bytes; je_data : option Value }.
Record Response : Type := mkResponse { rs_id : Z; rs_error : option JsonRpcError; rs_result : Value }.
Inductive Message : Type :=
  | MStandardRequest (r : StandardRequest)
  | MNotification (n : Notification)
  | MOkResponse (r : Response)
  | MErrorResponse (r : Response).
Definition is_response (m : Message) : bool :=
  match m with MStandardRequest _ | MNotification _ => false | MOkResponse _ | MErrorResponse _ => true end.
Definition Message_of_Response (r : Response) : Message :=
  match rs_error r with Some _ => MErrorResponse r | None => MOkResponse r end.

(** ** Errors *)

(** What the errors carry (the offending value) is left out. *)
Inductive ParsingMethodError : Type :=
  | BadU256Convert
  | PHexError
  | PBTCHashError
  | ValueNotAnArray
  | WrongArgs
  | ValueNotAString
  | ValueNotAFloat
  | ValueNotAnUnsigned
  | UnexpectedValue
  | ImpossibleToParseResultField
  | ImpossibleToParseAsU64
  | UnexpectedArrayParams
  | UnexpectedObjectParams
  | MultipleError (l : list ParsingMethodError)
  | Todo.
Inductive MethodError : Type :=
  | MethodNotFound (method : bytes)
  | ParsingError (e : ParsingMethodError)
  | UnexpectedMethod.
Inductive V1Error : Type :=
  | BadBytesConvert
  | BTCHashError
  | HexError
  | InvalidJsonRpcMessageKind
  | InvalidSubmission
  | Method_ (e : MethodError)
  | InvalidVersionMask (mask : Z)
  | V1UnexpectedMessage (method : bytes)
  | IncorrectClientStatus (method : bytes)
  | InvalidReceiver
  | UnauthorizedClient (name : bytes)
  | UnknownID (id : Z).

(** [From<Error> for ParsingMethodError]: every error but two panics. *)
Definition parsing {A} (r : result V1Error A) : result ParsingMethodError A :=
  match r with
  | Ok a => Ok a
  | Err HexError => Err PHexError
  | Err BTCHashError => Err PBTCHashError
  | Err _ | Panic => Panic
  end.

(** ** Hexadecimal fields *)

(** The [hex] package ([hex_encode], [hex_decode]) and the one of
    [bitcoin_hashes] ([to_hex], [from_hex4] at four bytes). *)
Class Hex : Type := {
  hex_encode : bytes → bytes;
  hex_decode_ : bytes → option bytes;
  to_hex : bytes → bytes;
  from_hex4 : bytes → option bytes }.
Class HexLaws `{Hex} : Prop := {
  law_hex_encode : ∀ b, hex_decode_ (hex_encode b) = Some b;
  law_to_hex : ∀ b, hex_decode_ (to_hex b) = Some b;
  law_from_hex4 : ∀ b, zlen b = 4 → from_hex4 (to_hex b) = Some b;
  law_hex_len : ∀ b, zlen (hex_encode b) = 2 * zlen b;
  law_to_hex_len : ∀ b, zlen (to_hex b) = 2 * zlen b }.

Section fields.
Context `{Hex}.

(** A text of odd length gets a zero in front. *)
Definition hex_decode (s : bytes) : result V1Error bytes :=
  if negb (zlen s mod 2 =? 0) then ok_or (hex_decode_ (byte.of_Z 48 :: s)) HexError
  else ok_or (hex_decode_ s) HexError.

(** [Extranonce]: at most 32 bytes. *)
Definition Extranonce_try_from (l : bytes) : result V1Error bytes :=
  if 32 <? zlen l then Err BadBytesConvert else Ok l.
Definition Extranonce_from_str (s : bytes) : result V1Error bytes :=
  l ← hex_decode s; Extranonce_try_from l.

(** [HexU32Be].  With more than eight digits the length underflows: a panic,
    or without overflow checks a loop that exhausts the memory. *)
Definition HexU32Be_from_str (s : bytes) : result V1Error Z :=
  if 8 <? zlen s then Panic
  else
    parsed_bytes ← ok_or (from_hex4 (replicate (Z.to_nat (8 - zlen s)) (byte.of_Z 48) ++ s)) BTCHashError;
    Ok (from_be_bytes parsed_bytes).
Definition HexU32Be_string (v : Z) : bytes := to_hex (to_be_bytes 4 v).
(** [check_mask]: no bit of [mask] outside [self]. *)
Definition check_mask (self mask : Z) : bool := Z.land (Z.lnot self) mask =? 0.

(** [PrevHash]: the bytes of every word are swapped in the text. *)
Fixpoint swap_words (fuel : nat) (l : bytes) : bytes :=
  match fuel with
  | O => []
  | S fuel => reverse (take 4 l) ++ swap_words fuel (drop 4 l)
  end.
Definition PrevHash_from_str (s : bytes) : result V1Error bytes :=
  prev_hash_stratum_order ← hex_decode s;
  if zlen prev_hash_stratum_order =? 32 then Ok (swap_words 8 prev_hash_stratum_order)
  else Err BadBytesConvert.
Definition PrevHash_string (h : bytes) : bytes := hex_encode (swap_words 8 h).

(** [MerkleNode]: the conversion to 32 bytes is unwrapped. *)
Definition MerkleNode_from_str (s : bytes) : result V1Error bytes :=
  l ← hex_decode s;
  if zlen l =? 32 then Ok l else Panic.
Definition HexBytes_from_str (s : bytes) : result V1Error bytes := hex_decode s.
End fields.

(** ** Messages of the server *)

Module V1Server.
Section server.
Context `{Hex}.

Record Notify : Type := mkNotify {
  job_id : bytes;
  prev_hash : bytes;
  coin_base1 : bytes;
  coin_base2 : bytes;
  merkle_branch : list bytes;
  version : Z;
  bits : Z;
  time : Z;
  clean_jobs : bool }.
Definition Notify_message (n : Notify) : Notification :=
  mkNotification (text "mining.notify")
    (VArray [VString (job_id n); VString (PrevHash_string (prev_hash n)); VString (hex_encode (coin_base1 n));
             VString (hex_encode (coin_base2 n)); VArray ((λ m, VString (hex_encode m)) <$> merkle_branch n);
             VString (HexU32Be_string (version n)); VString (HexU32Be_string (bits n));
             VString (HexU32Be_string (time n)); VBool (clean_jobs n)]).
Definition Notify_try_from (msg : Notification) : result ParsingMethodError Notify :=
  params ← ok_or (as_array (nt_params msg)) ValueNotAnArray;
  match params with
  | [VString a; VString b; VString c; VString d; VArray e; VString f; VString g; VString h; VBool i] =>
      prev_hash ← parsing (PrevHash_from_str b);
      coin_base1 ← parsing (HexBytes_from_str c);
      coin_base2 ← parsing (HexBytes_from_str d);
      version ← parsing (HexU32Be_from_str f);
      bits ← parsing (HexU32Be_from_str g);
      time ← parsing (HexU32Be_from_str h);
      merkle_branch ← mapR (λ v, s ← ok_or (as_str v) ValueNotAString; parsing (MerkleNode_from_str s)) e;
      Ok (mkNotify a prev_hash coin_base1 coin_base2 merkle_branch version bits time i)
  | _ => Err WrongArgs
  end.

Definition SetDifficulty_message (value : f64) : Notification :=
  mkNotification (text "mining.set_difficulty") (VArray [value_of_f64 value]).
Definition SetDifficulty_try_from (msg : Notification) : result ParsingMethodError f64 :=
  params ← ok_or (as_array (nt_params msg)) ValueNotAnArray;
  match params with
  | [a] => ok_or (as_f64 a) ValueNotAFloat
  | _ => Err WrongArgs
  end.

Record SetExtranonce : Type := mkSetExtranonce { sx_extra_nonce1 : bytes; sx_extra_nonce2_size : Z }.
Definition SetExtranonce_message (m : SetExtranonce) : Notification :=
  mkNotification (text "mining.set_extranonce")
    (VArray [VString (hex_encode (sx_extra_nonce1 m)); VNumber (NUnsigned (sx_extra_nonce2_size m))]).
Definition SetExtranonce_try_from (msg : Notification) : result ParsingMethodError SetExtranonce :=
  params ← ok_or (as_array (nt_params msg)) ValueNotAnArray;
  match params with
  | [VString a; VNumber b] =>
      l ← ok_or (hex_decode_ a) PHexError;
      extra_nonce1 ← parsing (Extranonce_try_from l);
      size ← ok_or (as_u64 b) ValueNotAnUnsigned;
      Ok (mkSetExtranonce extra_nonce1 size)
  | _ => Err WrongArgs
  end.

(** The message is sent as [mining.set_version]. *)
Definition SetVersionMask_message (version_mask : Z) : Notification :=
  mkNotification (text "mining.set_version") (VArray [VString (HexU32Be_string version_mask)]).
Definition SetVersionMask_try_from (msg : Notification) : result ParsingMethodError Z :=
  params ← ok_or (as_array (nt_params msg)) ValueNotAnArray;
  match params with
  | [VString a] => parsing (HexU32Be_from_str a)
  | _ => Err WrongArgs
  end.

Record GeneralResponse : Type := mkGeneral { gr_id : Z; gr_result : bool }.
Definition GeneralResponse_try_from (msg : Response) : result ParsingMethodError GeneralResponse :=
  r ← ok_or (as_bool (rs_result msg)) ImpossibleToParseResultField;
  Ok (mkGeneral (rs_id msg) r).

(** What a client makes of it, once it knows which request it answers. *)
Record Authorize : Type := mkAuthorize { sa_id : Z; sa_authorized : bool; prev_request_name : bytes }.
Record SubmitResponse : Type := mkSubmitResponse { sr_id : Z; sr_is_ok : bool }.
Definition into_authorize (name : bytes) (g : GeneralResponse) : Authorize := mkAuthorize (gr_id g) (gr_result g) name.
Definition into_submit (g : GeneralResponse) : SubmitResponse := mkSubmitResponse (gr_id g) (gr_result g).

Record Subscribe : Type := mkSubscribe {
  sb_id : Z;
  sb_extra_nonce1 : bytes;
  sb_extra_nonce2_size : Z;
  sb_subscriptions : list (bytes * bytes) }.
Definition Subscribe_response (m : Subscribe) : Response :=
  mkResponse (sb_id m) None
    (VArray [VArray ((λ x, VArray [VString x.1; VString x.2]) <$> sb_subscriptions m);
             VString (hex_encode (sb_extra_nonce1 m)); VNumber (NUnsigned (sb_extra_nonce2_size m))]).
(** A subscription that is not an array makes the loop panic. *)
Definition subscription (v : Value) : result ParsingMethodError (bytes * bytes) :=
  s ← unwrap (as_array v);
  match s with
  | [a; b] =>
      a ← ok_or (as_str a) UnexpectedArrayParams;
      b ← ok_or (as_str b) UnexpectedArrayParams;
      Ok (a, b)
  | _ => Err UnexpectedArrayParams
  end.
Definition Subscribe_try_from (msg : Response) : result ParsingMethodError Subscribe :=
  params ← ok_or (as_array (rs_result msg)) ImpossibleToParseResultField;
  match params with
  | [VArray a; VString b; VNumber c] =>
      extra_nonce1 ← parsing (Extranonce_from_str b);
      size ← ok_or (as_u64 c) ImpossibleToParseAsU64;
      subscriptions ← mapR subscription a;
      Ok (mkSubscribe (rs_id msg) extra_nonce1 size subscriptions)
  | _ => Err UnexpectedArrayParams
  end.

Record VersionRollingParams : Type := mkVersionRolling {
  vr_version_rolling : bool;
  vr_version_rolling_mask : Z;
  vr_version_rolling_min_bit_count : Z }.
Definition VersionRollingParams_new (mask min_bit_count : Z) : result V1Error VersionRollingParams :=
  let negotiated_mask := Z.land mask 0x1FFFE000 in
  let version_head_ok := Z.shiftr negotiated_mask 29 =? 0 in
  let version_tail_ok := wrap 32 (Z.shiftl negotiated_mask 19) =? 0 in
  if version_head_ok && version_tail_ok then Ok (mkVersionRolling true negotiated_mask min_bit_count)
  else Err (InvalidVersionMask mask).
Definition VersionRollingParams_map (p : VersionRollingParams) : list (bytes * Value) :=
  [(text "version-rolling", VBool (vr_version_rolling p));
   (text "version-rolling.mask", VString (HexU32Be_string (vr_version_rolling_mask p)));
   (text "version-rolling.min-bit-count", VString (HexU32Be_string (vr_version_rolling_min_bit_count p)))].

Record Configure : Type := mkConfigure {
  sc_id : Z;
  sc_version_rolling : option VersionRollingParams;
  sc_minimum_difficulty : option bool }.
Definition Configure_response (m : Configure) : Response :=
  mkResponse (sc_id m) None (VObject
    (match sc_version_rolling m with Some p => VersionRollingParams_map p | None => [] end
     ++ match sc_minimum_difficulty m with Some d => [(text "minimum-difficulty", VBool d)] | None => [] end)).
Definition Configure_try_from (msg : Response) : result ParsingMethodError Configure :=
  params ← ok_or (as_object (rs_result msg)) ImpossibleToParseResultField;
  let version_rolling := get (text "version-rolling") params in
  let version_rolling_mask := get (text "version-rolling.mask") params in
  let version_rolling_min_bit_count := get (text "version-rolling.min-bit-count") params in
  version_rolling ← match version_rolling, version_rolling_mask, version_rolling_min_bit_count with
    | Some vr, Some mask, min =>
        vr ← ok_or (as_bool vr) UnexpectedObjectParams;
        mask ← ok_or (as_str mask) UnexpectedObjectParams;
        mask ← parsing (HexU32Be_from_str mask);
        min ← match min with
              | Some min => s ← ok_or (as_str min) UnexpectedObjectParams; parsing (HexU32Be_from_str s)
              | None => Ok 0
              end;
        Ok (Some (mkVersionRolling vr mask min))
    | None, None, None => Ok None
    | _, _, _ => Err UnexpectedObjectParams
    end;
  minimum_difficulty ← match get (text "minimum-difficulty") params with
    | Some a => b ← ok_or (as_bool a) UnexpectedObjectParams; Ok (Some b)
    | None => Ok None
    end;
  Ok (mkConfigure (rs_id msg) version_rolling minimum_difficulty).
(** The mask a client takes from the answer. *)
Definition Configure_version_rolling_mask (m : Configure) : option Z :=
  match sc_version_rolling m with
  | Some p => if vr_version_rolling p then Some (vr_version_rolling_mask p) else None
  | None => None
  end.
Definition Configure_version_rolling_min_bit (m : Configure) : option Z :=
  match sc_version_rolling m with
  | Some p => if vr_version_rolling p then Some (vr_version_rolling_min_bit_count p) else None
  | None => None
  end.
End server.
End V1Server.

(** ** Messages of the client *)

Module V1Client.
Section client.
Context `{Hex}.

Record Authorize : Type := mkAuthorize { au_id : Z; au_name : bytes; au_password : bytes }.
Definition Authorize_message (m : Authorize) : StandardRequest :=
  mkRequest (au_id m) (text "mining.authorize") (VArray [VString (au_name m); VString (au_password m)]).
Definition Authorize_try_from (msg : StandardRequest) : result ParsingMethodError Authorize :=
  match as_array (rq_params msg) with
  | Some [VString a; VString b] => Ok (mkAuthorize (rq_id msg) a b)
  | Some _ => Err WrongArgs
  | None => Err ValueNotAnArray
  end.

Record Submit : Type := mkSubmit {
  user_name : bytes;
  job_id : bytes;
  extra_nonce2 : bytes;
  time : Z;
  nonce : Z;
  version_bits : option Z;
  id : Z }.
Definition Submit_message (m : Submit) : StandardRequest :=
  mkRequest (id m) (text "mining.submit")
    (VArray ([VString (user_name m); VString (job_id m); VString (to_hex (extra_nonce2 m));
              VString (HexU32Be_string (time m)); VString (HexU32Be_string (nonce m))]
             ++ match version_bits m with Some a => [VString (HexU32Be_string a)] | None => [] end)).
Definition submit_extranonce (c : bytes) : result ParsingMethodError bytes :=
  l ← ok_or (hex_decode_ c) PHexError; parsing (Extranonce_try_from l).
(** [as_u64().unwrap() as u32]. *)
Definition number_field (n : Number) : result ParsingMethodError Z :=
  z ← unwrap (as_u64 n); Ok (wrap 32 z).
Definition Submit_try_from (msg : StandardRequest) : result ParsingMethodError Submit :=
  match as_array (rq_params msg) with
  | None => Err ValueNotAnArray
  | Some params =>
      match params with
      | [VString a; VString b; VString c; VNumber d; VNumber e; VString f] =>
          x ← submit_extranonce c; t ← number_field d; n ← number_field e;
          v ← parsing (HexU32Be_from_str f);
          Ok (mkSubmit a b x t n (Some v) (rq_id msg))
      | [VString a; VString b; VString c; VString d; VString e; VString f] =>
          x ← submit_extranonce c; t ← parsing (HexU32Be_from_str d); n ← parsing (HexU32Be_from_str e);
          v ← parsing (HexU32Be_from_str f);
          Ok (mkSubmit a b x t n (Some v) (rq_id msg))
      | [VString a; VString b; VString c; VNumber d; VNumber e] =>
          x ← submit_extranonce c; t ← number_field d; n ← number_field e;
          Ok (mkSubmit a b x t n None (rq_id msg))
      | [VString a; VString b; VString c; VString d; VString e] =>
          x ← submit_extranonce c; t ← parsing (HexU32Be_from_str d); n ← parsing (HexU32Be_from_str e);
          Ok (mkSubmit a b x t n None (rq_id msg))
      | _ => Err WrongArgs
      end
  end.

Record Subscribe : Type := mkSubscribe {
  cs_id : Z;
  cs_agent_signature : bytes;
  cs_extranonce1 : option bytes }.
Definition Subscribe_message (m : Subscribe) : StandardRequest :=
  mkRequest (cs_id m) (text "mining.subscribe")
    (VArray (VString (cs_agent_signature m)
             :: match cs_extranonce1 m with Some b => [VString (to_hex b)] | None => [] end)).
Definition Subscribe_try_from (msg : StandardRequest) : result ParsingMethodError Subscribe :=
  match as_array (rq_params msg) with
  | None => Err ValueNotAnArray
  | Some params =>
      match params with
      | [VString a; VNull; VString _; VNull] | [VString a; VNull] | [VString a] =>
          Ok (mkSubscribe (rq_id msg) a None)
      | [VString a; VString b] =>
          x ← parsing (Extranonce_from_str b); Ok (mkSubscribe (rq_id msg) a (Some x))
      | [] => Ok (mkSubscribe (rq_id msg) [] None)
      | _ => Err WrongArgs
      end
  end.

Record VersionRollingParams : Type := mkVersionRolling { cv_mask : option Z; cv_min_bit_count : option Z }.
Record InfoParams : Type := mkInfo {
  connection_url : option bytes;
  hw_id : option bytes;
  hw_version : option bytes;
  sw_version : option bytes }.
Inductive ConfigureExtension : Type :=
  | VersionRolling (p : VersionRollingParams)
  | MinimumDifficulty (n : Z)
  | SubcribeExtraNonce
  | Info (p : InfoParams).
Record Configure : Type := mkConfigure { extensions : list ConfigureExtension; cc_id : Z }.

Definition Configure_new (id : Z) (mask min_bit_count : option Z) : Configure :=
  mkConfigure [VersionRolling (mkVersionRolling mask min_bit_count)] id.
Definition Configure_void (id : Z) : Configure := mkConfigure [] id.

(** The last version rolling extension decides. *)
Definition version_rolling_mask (m : Configure) : option Z :=
  foldl (λ res ext, match ext with
                    | VersionRolling p => Some (default 0x1FFFE000 (cv_mask p))
                    | _ => res
                    end) None (extensions m).
Definition version_rolling_min_bit_count (m : Configure) : option Z :=
  foldl (λ res ext, match ext with
                    | VersionRolling p => Some (default 0 (cv_min_bit_count p))
                    | _ => res
                    end) None (extensions m).

Definition mask_and_min (mask min : option Value) : result ParsingMethodError (option Z * option Z) :=
  match mask, min with
  | None, None => Ok (None, None)
  | Some (VString mask), None => m ← parsing (HexU32Be_from_str mask); Ok (Some m, None)
  | Some (VString mask), Some (VString min_bit) =>
      m ← parsing (HexU32Be_from_str mask); b ← parsing (HexU32Be_from_str min_bit); Ok (Some m, Some b)
  | Some (VString mask), Some (VNumber min_bit) =>
      m ← parsing (HexU32Be_from_str mask); b ← number_field min_bit; Ok (Some m, Some b)
  | _, _ => Err Todo
  end.
(** An information field that is there must be a string. *)
Definition info_field (v : option Value) : result ParsingMethodError (option bytes) :=
  match v with
  | Some v => s ← ok_or (as_str v) Todo; Ok (Some s)
  | None => Ok None
  end.
Definition from_value (val : Value) : result ParsingMethodError (list ConfigureExtension) :=
  root ← ok_or (as_array val) ValueNotAnArray;
  match root with
  | [] => Err Todo
  | first :: _ =>
      let field s := pointer1 (text s) val in
      names ← ok_or (as_array first) ValueNotAnArray;
      let subscribe :=
        if existsb (λ v, match v with
                         | VString s => bool_decide (s = text "subscribe-extranonce")
                         | _ => false
                         end) names
        then [SubcribeExtraNonce] else [] in
      '(mask, min_bit_count) ← mask_and_min (field "version-rolling.mask")
                                 (field "version-rolling.min-bit-count");
      let rolling := if bool_decide (is_Some mask) || bool_decide (is_Some min_bit_count)
                     then [VersionRolling (mkVersionRolling mask min_bit_count)] else [] in
      difficulty ← match field "minimum-difficulty.value" with
        | Some (VNumber a) => n ← ok_or (as_u64 a) ValueNotAnUnsigned; Ok [MinimumDifficulty n]
        | Some _ => Err UnexpectedValue
        | None => Ok []
        end;
      info ←
        (if bool_decide (is_Some (field "info.connection-url")) || bool_decide (is_Some (field "info.hw-id"))
            || bool_decide (is_Some (field "info.hw-version")) || bool_decide (is_Some (field "info.sw-version"))
         then
           connection_url ← info_field (field "info.connection-url");
           hw_id ← info_field (field "info.hw-id");
           hw_version ← info_field (field "info.hw-version");
           sw_version ← info_field (field "info.sw-version");
           Ok [Info (mkInfo connection_url hw_id hw_version sw_version)]
         else Ok []);
      Ok (subscribe ++ rolling ++ difficulty ++ info)
  end.
Definition Configure_try_from (msg : StandardRequest) : result ParsingMethodError Configure :=
  extensions ← from_value (rq_params msg);
  Ok (mkConfigure extensions (rq_id msg)).

Definition get_extension_name (e : ConfigureExtension) : Value :=
  VString (match e with
           | VersionRolling _ => text "version-rolling"
           | MinimumDifficulty _ => text "minimum-difficulty"
           | SubcribeExtraNonce => text "subscribe-extranonce"
           | Info _ => text "info"
           end).
Definition extension_map (e : ConfigureExtension) : list (bytes * Value) :=
  match e with
  | VersionRolling p =>
      match cv_mask p with Some m => [(text "version-rolling.mask", VString (HexU32Be_string m))] | None => [] end
      ++ match cv_min_bit_count p with
         | Some b => [(text "version-rolling.min-bit-count", VString (HexU32Be_string b))]
         | None => []
         end
  | SubcribeExtraNonce => []
  | Info p => match connection_url p with Some u => [(text "info.connection-url", VString u)] | None => [] end
  | MinimumDifficulty n => [(text "minimum-difficulty", VNumber (NUnsigned n))]
  end.
Definition Configure_message (m : Configure) : StandardRequest :=
  mkRequest (cc_id m) (text "mining.configure")
    (VArray [VArray (get_extension_name <$> extensions m); VObject (concat (extension_map <$> extensions m))]).

(** The answers. *)
Definition respond_bool (id : Z) (is_ok : bool) : Response := mkResponse id None (VBool is_ok).
Definition Subscribe_respond (m : Subscribe) (subscriptions : list (bytes * bytes)) (extra_nonce1 : bytes)
    (extra_nonce2_size : Z) : Response :=
  V1Server.Subscribe_response (V1Server.mkSubscribe (cs_id m) extra_nonce1 extra_nonce2_size subscriptions).
Definition Configure_respond (m : Configure) (version_rolling : option V1Server.VersionRollingParams)
    (minimum_difficulty : option bool) : Response :=
  V1Server.Configure_response (V1Server.mkConfigure (cc_id m) version_rolling minimum_difficulty).
End client.
End V1Client.

(** ** Methods *)

Inductive Client2Server : Type :=
  | CSuggestDifficulty
  | CSubscribe (m : V1Client.Subscribe)
  | CAuthorize (m : V1Client.Authorize)
  | CExtranonceSubscribe
  | CSubmit (m : V1Client.Submit)
  | CConfigure (m : V1Client.Configure).
Inductive Server2Client : Type :=
  | SNotify (m : V1Server.Notify)
  | SSetDifficulty (value : f64)
  | SSetExtranonce (m : V1Server.SetExtranonce)
  | SSetVersionMask (mask : Z).
Inductive Server2ClientResponse : Type :=
  | RConfigure (m : V1Server.Configure)
  | RSubscribe (m : V1Server.Subscribe)
  | RGeneral (m : V1Server.GeneralResponse)
  | RAuthorize (m : V1Server.Authorize)
  | RSubmit (m : V1Server.SubmitResponse)
  | RSetDifficulty (value : f64).
Inductive Method : Type :=
  | MClient2Server (m : Client2Server)
  | MServer2Client (m : Server2Client)
  | MServer2ClientResponse (m : Server2ClientResponse)
  | MErrorMessage (m : Message).

Section methods.
Context `{Hex}.

(** A response is read in the three ways; exactly one may succeed. *)
Definition Server2ClientResponse_try_from (msg : Response) : result ParsingMethodError Server2ClientResponse :=
  match V1Server.Subscribe_try_from msg, V1Server.Configure_try_from msg, V1Server.GeneralResponse_try_from msg with
  | Panic, _, _ | _, Panic, _ | _, _, Panic => Panic
  | Ok a, Err _, Err _ => Ok (RSubscribe a)
  | Err _, Ok a, Err _ => Ok (RConfigure a)
  | Err _, Err _, Ok a => Ok (RGeneral a)
  | Err e1, Err e2, Err e3 => Err (MultipleError [e1; e2; e3])
  | _, _, _ => Panic
  end.

Definition Method_try_from (msg : Message) : result MethodError Method :=
  match msg with
  | MStandardRequest r =>
      let client {A} (c : A → Client2Server) (p : result ParsingMethodError A) : result MethodError Method :=
        map_err ParsingError p ≫= λ m, Ok (MClient2Server (c m)) in
      if bool_decide (rq_method r = text "mining.suggest_difficulty") then Ok (MClient2Server CSuggestDifficulty)
      else if bool_decide (rq_method r = text "mining.subscribe") then client CSubscribe (V1Client.Subscribe_try_from r)
      else if bool_decide (rq_method r = text "mining.authorize") then client CAuthorize (V1Client.Authorize_try_from r)
      else if bool_decide (rq_method r = text "mining.extranonce.subscribe") then Ok (MClient2Server CExtranonceSubscribe)
      else if bool_decide (rq_method r = text "mining.submit") then client CSubmit (V1Client.Submit_try_from r)
      else if bool_decide (rq_method r = text "mining.configure") then client CConfigure (V1Client.Configure_try_from r)
      else Err (MethodNotFound (rq_method r))
  | MNotification n =>
      let server {A} (c : A → Server2Client) (p : result ParsingMethodError A) : result MethodError Method :=
        map_err ParsingError p ≫= λ m, Ok (MServer2Client (c m)) in
      if bool_decide (nt_method n = text "mining.notify") then server SNotify (V1Server.Notify_try_from n)
      else if bool_decide (nt_method n = text "mining.set_version_mask")
      then server SSetVersionMask (V1Server.SetVersionMask_try_from n)
      else if bool_decide (nt_method n = text "mining.set_difficulty")
      then server SSetDifficulty (V1Server.SetDifficulty_try_from n)
      else if bool_decide (nt_method n = text "mining.set_extranonce")
      then server SSetExtranonce (V1Server.SetExtranonce_try_from n)
      else Err (MethodNotFound (nt_method n))
  | MOkResponse r => map_err ParsingError (MServer2ClientResponse <$> Server2ClientResponse_try_from r)
  | MErrorResponse _ => Ok (MErrorMessage msg)
  end.
Definition Client2Server_try_from (msg : Message) : result MethodError Client2Server :=
  method ← Method_try_from msg;
  match method with
  | MClient2Server m => Ok m
  | _ => Err UnexpectedMethod
  end.
End methods.

(** ** The handler of a server *)

(** What a server provides; the operations that take [&self] keep the state,
    but a submission is recorded through a cell. *)
Class IsServer (S : Type) : Type := {
  handle_configure : V1Client.Configure → ST S V1Error (option V1Server.VersionRollingParams * option bool);
  handle_subscribe : V1Client.Subscribe → S → list (bytes * bytes);
  handle_authorize : V1Client.Authorize → S → bool;
  handle_submit : V1Client.Submit → ST S V1Error bool;
  is_authorized : bytes → S → bool;
  authorize : bytes → S → S;
  set_extranonce1 : option bytes → ST S V1Error bytes;
  set_extranonce2_size : option Z → ST S V1Error Z;
  extranonce2_size : S → Z;
  server_version_rolling_mask : S → option Z;
  set_version_rolling_mask : option Z → S → S;
  set_version_rolling_min_bit : option Z → S → S }.

Section server.
Context `{Hex} {S : Type} `{IsServer S}.

Definition valid_version_bits (bits mask : option Z) : bool :=
  match bits, mask with
  | Some a, Some m => check_mask m a
  | None, None => true
  | _, _ => false
  end.
Definition is_valid_submission (submit : V1Client.Submit) (s : S) : bool :=
  is_authorized (V1Client.user_name submit) s
  && (extranonce2_size s =? zlen (V1Client.extra_nonce2 submit))
  && valid_version_bits (V1Client.version_bits submit) (server_version_rolling_mask s).
Definition handle_request (msg : Message) : ST S V1Error (option Response) :=
  request ← lift (map_err Method_ (Client2Server_try_from msg));
  match request with
  | CSuggestDifficulty => mret None
  | CAuthorize m =>
      authorized ← gets (handle_authorize m);
      _ ← match authorized with true => modify (authorize (V1Client.au_name m)) | false => mret tt end;
      mret (Some (V1Client.respond_bool (V1Client.au_id m) authorized))
  | CConfigure m =>
      _ ← modify (set_version_rolling_mask (V1Client.version_rolling_mask m));
      _ ← modify (set_version_rolling_min_bit (V1Client.version_rolling_min_bit_count m));
      '(version_rolling, min_diff) ← handle_configure m;
      mret (Some (V1Client.Configure_respond m version_rolling min_diff))
  | CExtranonceSubscribe => mret None
  | CSubmit m =>
      valid ← gets (is_valid_submission m);
      match valid with
      | true => accepted ← handle_submit m; mret (Some (V1Client.respond_bool (V1Client.id m) accepted))
      | false => throw InvalidSubmission
      end
  | CSubscribe m =>
      subscriptions ← gets (handle_subscribe m);
      extra_n1 ← set_extranonce1 None;
      extra_n2_size ← set_extranonce2_size None;
      mret (Some (V1Client.Subscribe_respond m subscriptions extra_n1 extra_n2_size))
  end.
Definition handle_message (msg : Message) : ST S V1Error (option Response) :=
  match msg with
  | MStandardRequest _ | MNotification _ => handle_request msg
  | MOkResponse _ | MErrorResponse _ => throw InvalidJsonRpcMessageKind
  end.
End server.
