(* ===== verification/Sv1Properties.v ===== *)
(** * Properties of the Stratum V1 messages

    Jobs, shares, configuration and the answers to them survive the conversion
    to JSON values and back; what a hostile request does to a server. *)

From S2P Require Import Prelude Difficulty Sv1.
#[local] Open Scope Z_scope.
#[local] Open Scope list_scope.
#[local] Arguments HexU32Be_from_str : simpl never.
#[local] Arguments HexU32Be_string : simpl never.

Section fields.
Context `{Hex} `{!HexLaws}.

Lemma hex_decode_encode b : hex_decode (hex_encode b) = Ok b.
Proof.
  unfold hex_decode. rewrite law_hex_len, Z.mul_comm, Z_mod_mult. cbn. by rewrite law_hex_encode.
Qed.
Lemma Extranonce_roundtrip b : zlen b ≤ 32 → Extranonce_from_str (hex_encode b) = Ok b.
Proof.
  intros Hb. unfold Extranonce_from_str. rewrite hex_decode_encode. cbn. unfold Extranonce_try_from.
  by rewrite (proj2 (Z.ltb_ge _ _)).
Qed.
Lemma HexU32Be_roundtrip v : fits 32 v → HexU32Be_from_str (HexU32Be_string v) = Ok v.
Proof.
  intros Hv. unfold HexU32Be_from_str, HexU32Be_string. rewrite law_to_hex_len.
  assert (Hl : zlen (to_be_bytes 4 v) = 4) by (unfold zlen; by rewrite to_be_bytes_length).
  rewrite Hl. change (8 <? 2 * 4) with false. change (Z.to_nat (8 - 2 * 4)) with 0%nat. cbn [replicate app].
  rewrite law_from_hex4 by done. cbn. by rewrite from_to_be_bytes.
Qed.
Lemma swap_words_app n l k : zlen l = 4 → swap_words (S n) (l ++ k) = reverse l ++ swap_words n k.
Proof.
  intros Hl. cbn [swap_words]. assert (length l = 4%nat) as E by (unfold zlen in Hl; lia).
  by rewrite take_app_length', drop_app_length'.
Qed.
Lemma swap_words_involutive n l : zlen l = 4 * Z.of_nat n → swap_words n (swap_words n l) = l.
Proof.
  revert l. induction n as [|n IH]; intros l Hl.
  { destruct l; [done|]. rewrite zlen_cons in Hl. pose proof (zlen_nonneg l). lia. }
  assert (Ht : zlen (take 4 l) = 4) by (unfold zlen in *; rewrite length_take; lia).
  assert (Hd : zlen (drop 4 l) = 4 * Z.of_nat n) by (unfold zlen in *; rewrite length_drop; lia).
  change (swap_words (S n) l) with (reverse (take 4 l) ++ swap_words n (drop 4 l)). rewrite swap_words_app by (unfold zlen in *; by rewrite length_reverse).
  by rewrite reverse_involutive, IH, take_drop.
Qed.
Lemma swap_words_length n l : zlen l = 4 * Z.of_nat n → zlen (swap_words n l) = zlen l.
Proof.
  revert l. induction n as [|n IH]; intros l Hl; cbn [swap_words]; [done|].
  assert (Hd : zlen (drop 4 l) = 4 * Z.of_nat n) by (unfold zlen in *; rewrite length_drop; lia).
  rewrite zlen_app, IH, Hd by done. unfold zlen in *. rewrite length_reverse, length_take. lia.
Qed.
Lemma PrevHash_roundtrip h : zlen h = 32 → PrevHash_from_str (PrevHash_string h) = Ok h.
Proof.
  intros Hh. unfold PrevHash_from_str, PrevHash_string. rewrite hex_decode_encode. cbn [mbind result_bind].
  rewrite (swap_words_length 8), Hh by (by rewrite Hh). by rewrite (swap_words_involutive 8) by (by rewrite Hh).
Qed.
Lemma MerkleNode_roundtrip h : zlen h = 32 → MerkleNode_from_str (hex_encode h) = Ok h.
Proof. intros Hh. unfold MerkleNode_from_str. rewrite hex_decode_encode. cbn. by rewrite Hh. Qed.
End fields.

(** ** Well-formed messages *)

Definition notify_wf (n : V1Server.Notify) : Prop :=
  zlen (V1Server.prev_hash n) = 32 ∧ Forall (λ h, zlen h = 32) (V1Server.merkle_branch n) ∧
  fits 32 (V1Server.version n) ∧ fits 32 (V1Server.bits n) ∧ fits 32 (V1Server.time n).
Definition submit_wf (m : V1Client.Submit) : Prop :=
  zlen (V1Client.extra_nonce2 m) ≤ 32 ∧ fits 32 (V1Client.time m) ∧ fits 32 (V1Client.nonce m) ∧
  (∀ v, V1Client.version_bits m = Some v → fits 32 v).

Section messages.
Context `{Hex} `{!HexLaws}.

Lemma notify_roundtrip n : notify_wf n → V1Server.Notify_try_from (V1Server.Notify_message n) = Ok n.
Proof.
  intros (Hp & Hm & Hv & Hb & Ht). unfold V1Server.Notify_try_from. cbn [V1Server.Notify_message nt_params as_array ok_or mbind result_bind].
  rewrite PrevHash_roundtrip by done. unfold HexBytes_from_str. rewrite !hex_decode_encode.
  rewrite !HexU32Be_roundtrip by done. cbn [parsing mbind result_bind].
  enough (E : ∀ l, Forall (λ h, zlen h = 32) l →
    mapR (λ v, s ← ok_or (as_str v) ValueNotAString; parsing (MerkleNode_from_str s)) ((λ m, VString (hex_encode m)) <$> l) = Ok l)
    by (rewrite E by done; by destruct n).
  induction 1 as [|h l Hh _ IH]; [done|]. cbn. rewrite MerkleNode_roundtrip, IH by done. done.
Qed.
Lemma submit_roundtrip m : submit_wf m → V1Client.Submit_try_from (V1Client.Submit_message m) = Ok m.
Proof.
  intros (Hx & Ht & Hn & Hv). unfold V1Client.Submit_try_from, V1Client.submit_extranonce, V1Client.Submit_message.
  assert (Hlen : (32 <? zlen (V1Client.extra_nonce2 m)) = false) by (by apply Z.ltb_ge).
  destruct (V1Client.version_bits m) as [v|] eqn:E; cbn [as_array rq_params app rq_id];
    rewrite law_to_hex; cbn [ok_or mbind result_bind]; unfold Extranonce_try_from; rewrite Hlen;
    cbn [parsing mbind result_bind]; rewrite !HexU32Be_roundtrip by auto; destruct m; cbn in *; by subst.
Qed.
Lemma subscribe_roundtrip m :
  (∀ x, V1Client.cs_extranonce1 m = Some x → zlen x ≤ 32) →
  V1Client.Subscribe_try_from (V1Client.Subscribe_message m) = Ok m.
Proof.
  intros Hx. unfold V1Client.Subscribe_try_from, V1Client.Subscribe_message. destruct m as [i a [x|]]; [|done]. cbn.
  unfold Extranonce_from_str, hex_decode. rewrite law_to_hex_len, Z.mul_comm, Z_mod_mult. cbn.
  rewrite law_to_hex. cbn. unfold Extranonce_try_from. by rewrite (proj2 (Z.ltb_ge _ _)) by (by apply Hx).
Qed.
Lemma configure_roundtrip id mask min :
  fits 32 mask → (∀ b, min = Some b → fits 32 b) →
  V1Client.Configure_try_from (V1Client.Configure_message (V1Client.Configure_new id (Some mask) min))
  = Ok (V1Client.Configure_new id (Some mask) min).
Proof.
  intros Hm Hb. unfold V1Client.Configure_try_from, V1Client.Configure_message, V1Client.Configure_new, V1Client.from_value,
    V1Client.mask_and_min, V1Client.extension_map. cbn [fmap list_fmap V1Client.extensions].
  pose proof (HexU32Be_roundtrip mask Hm) as Em.
  assert (Eb : ∀ b, min = Some b → HexU32Be_from_str (HexU32Be_string b) = Ok b) by (intros; apply HexU32Be_roundtrip; auto).
  clear Hm Hb. revert Em Eb. generalize HexU32Be_string as g, HexU32Be_from_str as f. intros f g Em Eb.
  destruct min as [b|]; vm_compute; rewrite Em; [rewrite (Eb b) by done|]; reflexivity.
Qed.

(** A configuration's answer is read back as such, and as nothing else. *)
Lemma configure_response_roundtrip c :
  (∀ p, V1Server.sc_version_rolling c = Some p →
     fits 32 (V1Server.vr_version_rolling_mask p) ∧ fits 32 (V1Server.vr_version_rolling_min_bit_count p)) →
  Server2ClientResponse_try_from (V1Server.Configure_response c) = Ok (RConfigure c).
Proof.
  intros Hp. unfold Server2ClientResponse_try_from, V1Server.Configure_try_from, V1Server.Configure_response,
    V1Server.VersionRollingParams_map, V1Server.Subscribe_try_from.
  destruct c as [i [[r m b]|] d]; [|by destruct d]. destruct (Hp _ eq_refl) as [Hm Hb]. cbn in Hm, Hb.
  apply HexU32Be_roundtrip in Hm, Hb. revert Hm Hb. clear Hp.
  generalize HexU32Be_string as g, HexU32Be_from_str as f. intros f g Em Eb.
  destruct d; vm_compute; rewrite Em, Eb; reflexivity.
Qed.
Lemma subscribe_response_roundtrip s :
  zlen (V1Server.sb_extra_nonce1 s) ≤ 32 →
  Server2ClientResponse_try_from (V1Server.Subscribe_response s) = Ok (RSubscribe s).
Proof.
  intros Hx. unfold Server2ClientResponse_try_from, V1Server.Subscribe_try_from, V1Server.Subscribe_response.
  cbn [rs_result as_array ok_or mbind result_bind rs_id as_u64]. rewrite Extranonce_roundtrip by done.
  cbn [parsing mbind result_bind ok_or].
  assert (E : ∀ l, mapR V1Server.subscription ((λ x : bytes * bytes, VArray [VString x.1; VString x.2]) <$> l) = Ok l).
  { induction l as [|[x y] l IH]; [done|]. cbn. by rewrite IH. }
  rewrite E. cbn. by destruct s.
Qed.

(** C24 Jobs and shares survive the wire: a notification of a well-formed job,
    converted to JSON and parsed as a client does, is that job, with the words
    of the previous hash swapped and swapped back; a submission, with or
    without version bits, is parsed by a server as the same submission; and the
    answers to a subscription and a configuration are recognized as what they
    are. *)
Theorem v1_wire_roundtrip (n : V1Server.Notify) (m : V1Client.Submit) (s : V1Server.Subscribe) (c : V1Server.Configure) :
  notify_wf n → submit_wf m → zlen (V1Server.sb_extra_nonce1 s) ≤ 32 →
  (∀ p, V1Server.sc_version_rolling c = Some p →
     fits 32 (V1Server.vr_version_rolling_mask p) ∧ fits 32 (V1Server.vr_version_rolling_min_bit_count p)) →
  Method_try_from (MNotification (V1Server.Notify_message n)) = Ok (MServer2Client (SNotify n)) ∧
  Method_try_from (MStandardRequest (V1Client.Submit_message m)) = Ok (MClient2Server (CSubmit m)) ∧
  Method_try_from (MOkResponse (V1Server.Subscribe_response s)) = Ok (MServer2ClientResponse (RSubscribe s)) ∧
  Method_try_from (MOkResponse (V1Server.Configure_response c)) = Ok (MServer2ClientResponse (RConfigure c)).
Proof.
  intros Hn Hm Hs Hc. unfold Method_try_from. split_and!.
  - cbn [V1Server.Notify_message nt_method]. rewrite bool_decide_eq_true_2 by done.
    fold (V1Server.Notify_message n). by rewrite notify_roundtrip.
  - cbn [V1Client.Submit_message rq_method].
    repeat (rewrite bool_decide_eq_false_2 by (vm_compute; congruence)). rewrite bool_decide_eq_true_2 by done.
    fold (V1Client.Submit_message m). by rewrite submit_roundtrip.
  - by rewrite subscribe_response_roundtrip.
  - by rewrite configure_response_roundtrip.
Qed.
End messages.

(** ** What a server does not survive *)

(** A miner can make any server panic before it is authorized: a submission
    whose second extranonce has more than 32 bytes, or whose time has more than
    eight digits, panics while it is parsed, whatever the server's state. *)
Theorem hostile_submit_panics `{Hex} {S} `{IsServer S} (s : S) (id : Z) (user job x l d e : bytes) :
  hex_decode_ x = Some l → 32 < zlen l ∨ 8 < zlen d →
  handle_message (MStandardRequest (mkRequest id (text "mining.submit")
    (VArray [VString user; VString job; VString x; VString d; VString e]))) s = (Panic, s).
Proof.
  intros Hx Hlong. unfold handle_message, handle_request.
  enough (E : Client2Server_try_from (MStandardRequest (mkRequest id (text "mining.submit")
    (VArray [VString user; VString job; VString x; VString d; VString e]))) = Panic)
    by (unfold mbind, ST_bind, lift; by rewrite E).
  unfold Client2Server_try_from, Method_try_from. cbn [rq_method].
  repeat (rewrite bool_decide_eq_false_2 by (vm_compute; congruence)). rewrite bool_decide_eq_true_2 by done.
  unfold V1Client.Submit_try_from, V1Client.submit_extranonce. cbn [as_array rq_params]. rewrite Hx. cbn [ok_or mbind result_bind].
  unfold Extranonce_try_from. destruct (Z.ltb_spec 32 (zlen l)) as [|Hl]; [done|]. cbn [parsing mbind result_bind].
  destruct Hlong as [Hlong|Hlong]; [lia|]. unfold HexU32Be_from_str. by rewrite (proj2 (Z.ltb_lt _ _) Hlong).
Qed.

(** The version mask a server sends is not recognized by a client. *)
Lemma set_version_mask_lost `{Hex} mask :
  Method_try_from (MNotification (V1Server.SetVersionMask_message mask)) = Err (MethodNotFound (text "mining.set_version")).
Proof. done. Qed.
(** The minimum difficulty a client asks for is not seen by a server. *)
Lemma minimum_difficulty_lost `{Hex} id n :
  V1Client.Configure_try_from (V1Client.Configure_message (V1Client.mkConfigure [V1Client.MinimumDifficulty n] id))
  = Ok (V1Client.mkConfigure [] id).
Proof. reflexivity. Qed.

(** ** Hexadecimal text *)

Definition nibble (n : Z) : Byte.byte := byte.of_Z (if n <? 10 then 48 + n else 87 + n).
Definition unnibble (b : Byte.byte) : option Z :=
  let v := byte.unsigned b in
  if (48 <=? v) && (v <=? 57) then Some (v - 48)
  else if (97 <=? v) && (v <=? 102) then Some (v - 87)
  else if (65 <=? v) && (v <=? 70) then Some (v - 55)
  else None.
Definition enc_hex (l : bytes) : bytes :=
  concat ((λ b, [nibble (byte.unsigned b / 16); nibble (byte.unsigned b mod 16)]) <$> l).
Fixpoint dec_hex (l : bytes) : option bytes :=
  match l with
  | [] => Some []
  | h :: lo :: l => h ← unnibble h; lo ← unnibble lo; r ← dec_hex l; Some (byte.of_Z (16 * h + lo) :: r)
  | _ => None
  end.
Definition model_hex : Hex := {|
  hex_encode := enc_hex;
  hex_decode_ := dec_hex;
  to_hex := enc_hex;
  from_hex4 s := if zlen s =? 8 then dec_hex s else None |}.
Lemma dec_enc_hex l : dec_hex (enc_hex l) = Some l.
Proof.
  induction l as [|b l IH]; [done|]. change (enc_hex (b :: l)) with
    (nibble (byte.unsigned b / 16) :: nibble (byte.unsigned b mod 16) :: enc_hex l). cbn [dec_hex].
  assert (E : unnibble (nibble (byte.unsigned b / 16)) = Some (byte.unsigned b / 16) ∧
              unnibble (nibble (byte.unsigned b mod 16)) = Some (byte.unsigned b mod 16) ∧
              byte.of_Z (16 * (byte.unsigned b / 16) + byte.unsigned b mod 16) = b) by (destruct b; vm_compute; auto).
  destruct E as (-> & -> & E). cbn [mbind option_bind]. rewrite IH. cbn. by rewrite E.
Qed.
Lemma enc_hex_len l : zlen (enc_hex l) = 2 * zlen l.
Proof.
  induction l as [|b l IH]; [done|]. change (enc_hex (b :: l)) with
    (nibble (byte.unsigned b / 16) :: nibble (byte.unsigned b mod 16) :: enc_hex l).
  rewrite !zlen_cons, IH. lia.
Qed.
Lemma model_hex_laws : @HexLaws model_hex.
Proof.
  split; cbn; try exact dec_enc_hex; try exact enc_hex_len.
  intros b Hb. rewrite enc_hex_len, Hb. apply dec_enc_hex.
Qed.

#[local] Existing Instance model_hex.
#[local] Existing Instance model_hex_laws.

Definition sample_notify : V1Server.Notify :=
  V1Server.mkNotify (decimal 7) (byte.of_Z <$> seqZ 0 32) [byte.of_Z 1; byte.of_Z 2] [byte.of_Z 3]
    [byte.of_Z <$> seqZ 100 32] 0x20000000 0x1d00ffff 1746839904 true.
Definition sample_submit : V1Client.Submit :=
  V1Client.mkSubmit (text "w") (decimal 7) [byte.of_Z 1; byte.of_Z 2; byte.of_Z 3; byte.of_Z 4] 1746839905 42
    (Some 0x2000) 5.
Lemma sample_notify_wf : notify_wf sample_notify.
Proof. split_and!; [done|by repeat constructor|unfold fits; cbn; lia..]. Qed.
Lemma sample_submit_wf : submit_wf sample_submit.
Proof.
  split_and!; [by vm_compute|unfold fits; cbn; lia..|]. intros v [= <-]. unfold fits. lia.
Qed.
Lemma v1_wire_roundtrip_witness :
  Method_try_from (MNotification (V1Server.Notify_message sample_notify)) = Ok (MServer2Client (SNotify sample_notify)) ∧
  Method_try_from (MStandardRequest (V1Client.Submit_message sample_submit)) = Ok (MClient2Server (CSubmit sample_submit)).
Proof.
  destruct (v1_wire_roundtrip sample_notify sample_submit (V1Server.mkSubscribe 1 [byte.of_Z 9] 4 [])
    (V1Server.mkConfigure 2 None (Some false))) as (H1 & H2 & _);
    [exact sample_notify_wf|exact sample_submit_wf|by vm_compute|discriminate|exact (conj H1 H2)].
Defined.

(** A server without any state. *)
#[local] Instance unit_server : IsServer unit := {|
  handle_configure _ := mret (None, None);
  handle_subscribe _ _ := [];
  handle_authorize _ _ := true;
  handle_submit _ := mret true;
  is_authorized _ _ := true;
  authorize _ s := s;
  set_extranonce1 _ := mret [];
  set_extranonce2_size _ := mret 4;
  extranonce2_size _ := 4;
  server_version_rolling_mask _ := None;
  set_version_rolling_mask _ s := s;
  set_version_rolling_min_bit _ s := s |}.
Lemma hostile_submit_panics_witness :
  handle_message (MStandardRequest (mkRequest 1 (text "mining.submit")
    (VArray [VString (text "w"); VString (text "1"); VString (text "00"); VString (text "123456789");
             VString (text "0")]))) tt = (Panic, tt).
Proof.
  apply (hostile_submit_panics tt 1 (text "w") (text "1") (text "00") [byte.of_Z 0] (text "123456789") (text "0"));
    [reflexivity|right; by vm_compute].
Defined.
