(* ===== verification/Translation.v ===== *)
(** * Translation between Stratum V1 and Stratum V2

    [roles/roles-utils/stratum-translation/src]: the Stratum V2 messages built
    from what a V1 miner sends ([sv1_to_sv2.rs]) and the V1 messages built from
    what a V2 pool sends ([sv2_to_sv1.rs]). *)

From S2P Require Import Prelude Mining Difficulty Bitcoin Jobs Channels Downstream ClientChannels Sv1.
#[local] Open Scope Z_scope.
#[local] Open Scope list_scope.

Inductive StratumTranslationError : Type :=
  | InvalidJobId
  | IncompatibleVersionRollingMask
  | InvalidExtranonceLength
  | InvalidUserIdentity (user_identity : bytes)
  | TrFailedToTryToStripBip141 (e : StripBip141Error)
  | TrFailedToSerializeToB064K.

(** ** From V1 to V2 *)

Definition build_sv2_open_extended_mining_channel (request_id : Z) (user_identity : bytes)
    (nominal_hash_rate : f32) (max_target : Target) (min_extranonce_size : Z)
    : result StratumTranslationError OpenExtendedMiningChannel :=
  if 255 <? zlen user_identity then Err (InvalidUserIdentity user_identity)
  else Ok (mkOpenExtended request_id user_identity nominal_hash_rate (Target_into_U256 max_target)
             min_extranonce_size).

(** The header version of a share: the rolled bits where the mask allows them. *)
Definition rolled_version (job_version mask version_bits : Z) : Z :=
  Z.lor (Z.land job_version (Z.lnot mask)) (Z.land version_bits mask).
Definition build_sv2_submit_shares_extended_from_sv1_submit (submit : V1Client.Submit)
    (channel_id sequence_number job_version : Z) (version_rolling_mask : option Z)
    : result StratumTranslationError SubmitSharesExtended :=
  version ← match V1Client.version_bits submit, version_rolling_mask with
    | Some version_bits, Some rolling_mask => Ok (rolled_version job_version rolling_mask version_bits)
    | None, None => Ok job_version
    | _, _ => Err IncompatibleVersionRollingMask
    end;
  job_id ← ok_or (parse_unsigned 32 (V1Client.job_id submit)) InvalidJobId;
  if 32 <? zlen (V1Client.extra_nonce2 submit) then Err InvalidExtranonceLength
  else Ok (mkSubmitExtended channel_id sequence_number job_id (V1Client.nonce submit)
             (V1Client.time submit) version (V1Client.extra_nonce2 submit)).

(** ** From V2 to V1 *)

Definition build_sv1_notify_from_sv2 `{Bitcoin} (new_prev_hash : SetNewPrevHashMp)
    (new_job : NewExtendedMiningJob) (clean_jobs : bool)
    : result StratumTranslationError V1Server.Notify :=
  stripped ← map_err TrFailedToTryToStripBip141
    (try_strip_bip141 (xj_coinbase_tx_prefix new_job) (xj_coinbase_tx_suffix new_job));
  new_job ← match stripped with
    | Some (p, s) =>
        p ← try_b064k TrFailedToSerializeToB064K p;
        s ← try_b064k TrFailedToSerializeToB064K s;
        Ok (Client.with_halves p s new_job)
    | None => Ok new_job
    end;
  Ok (V1Server.mkNotify (decimal (xj_job_id new_job)) (ph_prev_hash new_prev_hash)
        (xj_coinbase_tx_prefix new_job) (xj_coinbase_tx_suffix new_job) (xj_merkle_path new_job)
        (xj_version new_job) (ph_nbits new_prev_hash)
        (match xj_min_ntime new_job with None => ph_min_ntime new_prev_hash | Some t => t end)
        clean_jobs).
Definition build_sv1_set_difficulty_from_sv2_target (target : Target) : Notification :=
  V1Server.SetDifficulty_message (target_to_difficulty target).
Definition build_sv1_set_difficulty_from_sv2_set_target (maximum_target : bytes) : Notification :=
  build_sv1_set_difficulty_from_sv2_target (Target_from_bytes maximum_target).
