(* ===== verification/Translator.v ===== *)
(** * The translator's channel manager

    [roles/translator/src/lib/sv2/channel_manager]: the data of the manager
    ([data.rs]), the handlers of the pool's messages ([message_handler.rs]),
    and the handling of the messages of the V1 server and of the mint's quote
    notifications ([channel_manager.rs]).  The two queues to the V1 server and
    to the pool are lists of what was sent; a closed queue is an error. *)

From stdpp Require Import gmap.
From S2P Require Import Prelude Utf8 Mining Difficulty Bitcoin Jobs Channels Downstream ClientChannels.
#[local] Open Scope Z_scope.
#[local] Open Scope list_scope.
Import ExtendedExtranonceOps.

Inductive TproxyError : Type :=
  | SV1Error
  | TpBinarySv2
  | ChannelErrorSender
  | TpUnexpectedMessage (message_type : Z)
  | TpJobNotFound
  | InvalidMerkleRoot
  | PendingChannelNotFound (request_id : Z)
  | TpTranslatorCore
  | TpGeneral.

Inductive ChannelMode : Type := Aggregated | NonAggregated.
#[global] Instance ChannelMode_eq_dec : EqDecision ChannelMode.
Proof. solve_decision. Defined.

Notation TChannel := Client.ExtendedChannel.

Record ChannelManagerData : Type := mkManagerData {
  pending_channels : gmap Z (bytes * f32 * Z);
  extended_channels : gmap Z TChannel;
  upstream_extended_channel : option TChannel;
  extranonce_prefix_factory : option ExtendedExtranonce;
  mode : ChannelMode;
  share_sequence_counters : gmap Z Z;
  extranonce_factories : option (gmap Z ExtendedExtranonce) }.
Definition ChannelManagerData_new (mode : ChannelMode) : ChannelManagerData :=
  mkManagerData ∅ ∅ None None mode ∅ None.
Definition reset_for_upstream_reconnection (d : ChannelManagerData) : ChannelManagerData :=
  ChannelManagerData_new (mode d).

Definition set_pending p d :=
  mkManagerData p (extended_channels d) (upstream_extended_channel d) (extranonce_prefix_factory d)
    (mode d) (share_sequence_counters d) (extranonce_factories d).
Definition set_channels c d :=
  mkManagerData (pending_channels d) c (upstream_extended_channel d) (extranonce_prefix_factory d)
    (mode d) (share_sequence_counters d) (extranonce_factories d).
Definition set_upstream u d :=
  mkManagerData (pending_channels d) (extended_channels d) u (extranonce_prefix_factory d)
    (mode d) (share_sequence_counters d) (extranonce_factories d).
Definition set_prefix_factory f d :=
  mkManagerData (pending_channels d) (extended_channels d) (upstream_extended_channel d) f
    (mode d) (share_sequence_counters d) (extranonce_factories d).
Definition set_counters c d :=
  mkManagerData (pending_channels d) (extended_channels d) (upstream_extended_channel d)
    (extranonce_prefix_factory d) (mode d) c (extranonce_factories d).
Definition set_factories f d :=
  mkManagerData (pending_channels d) (extended_channels d) (upstream_extended_channel d)
    (extranonce_prefix_factory d) (mode d) (share_sequence_counters d) f.

(** What the manager sends to the V1 server and to the pool. *)
Record OpenSuccess : Type := mkOpenSuccess {
  op_request_id : Z;
  op_channel_id : Z;
  op_target : bytes;
  op_extranonce_size : Z;
  op_extranonce_prefix : bytes }.
Inductive ToSv1 : Type :=
  | SvOpenSuccess (m : OpenSuccess)
  | SvNewExtendedMiningJob (m : NewExtendedMiningJob)
  | SvSetNewPrevHash (m : SetNewPrevHashMp)
  | SvSetTarget (channel_id : Z) (maximum_target : bytes).
Inductive ToUpstream : Type :=
  | UpOpen (m : OpenExtendedMiningChannel)
  | UpSubmit (m : SubmitSharesExtended)
  | UpUpdate (m : UpdateChannel)
  | UpClose (channel_id : Z) (reason_code : bytes).

Record Manager : Type := mkManager {
  data : ChannelManagerData;
  to_sv1 : list ToSv1;
  to_upstream : list ToUpstream;
  sv1_open : bool;
  upstream_open : bool;
  (** Quotes handed to the wallet; [None] without a wallet. *)
  wallet : option (list bytes) }.
Definition on_data (f : ChannelManagerData → ChannelManagerData) (s : Manager) : Manager :=
  mkManager (f (data s)) (to_sv1 s) (to_upstream s) (sv1_open s) (upstream_open s) (wallet s).

Section manager.
Context `{Bitcoin} (overflow_checks : bool).
Notation MANAGER := (ST Manager TproxyError).

Definition send_sv1 (m : ToSv1) : MANAGER unit :=
  open ← gets sv1_open;
  if (open : bool)
  then modify (λ s, mkManager (data s) (to_sv1 s ++ [m]) (to_upstream s) (sv1_open s) (upstream_open s) (wallet s))
  else throw ChannelErrorSender.
Definition send_upstream (m : ToUpstream) : MANAGER unit :=
  open ← gets upstream_open;
  if (open : bool)
  then modify (λ s, mkManager (data s) (to_sv1 s) (to_upstream s ++ [m]) (sv1_open s) (upstream_open s) (wallet s))
  else throw ChannelErrorSender.

(** [next_share_sequence_number]. *)
Definition next_share_sequence_number (counter_key : Z) : MANAGER Z := λ s,
  let current := default 1 (share_sequence_counters (data s) !! counter_key) in
  match add_over (E := TproxyError) overflow_checks 32 current 1 with
  | Ok next => (Ok current, on_data (λ d, set_counters (<[counter_key := next]> (share_sequence_counters d)) d) s)
  | _ => (Panic, s)
  end.

(** An operation of a channel whose error is ignored. *)
Definition quietly {E A} (m : ST TChannel E A) (c : TChannel) : result TproxyError TChannel :=
  match m c with (Panic, _) => Panic | (_, c) => Ok c end.
Definition is_ok {E A} (r : result E A) : bool := match r with Ok _ => true | _ => false end.
(** An operation on every downstream channel. *)
Definition each (f : TChannel → result TproxyError TChannel) (m : gmap Z TChannel)
    : result TproxyError (gmap Z TChannel) :=
  if bool_decide (map_Forall (λ _ c, is_ok (f c) = true) m)
  then Ok (omap (λ c, match f c with Ok c => Some c | _ => None end) m)
  else Panic.
(** In aggregated mode on the upstream channel and every downstream one, else
    on the channel with the message's number. *)
Definition on_channels (channel_id : Z) (up down : TChannel → result TproxyError TChannel) : MANAGER unit :=
  d ← gets data;
  match mode d with
  | Aggregated =>
      _ ← match upstream_extended_channel d with
          | Some u => u ← lift (up u); modify (on_data (set_upstream (Some u)))
          | None => mret tt
          end;
      channels ← lift (each down (extended_channels d));
      modify (on_data (set_channels channels))
  | NonAggregated =>
      match extended_channels d !! channel_id with
      | Some c => c ← lift (down c); modify (on_data (set_channels (<[channel_id := c]> (extended_channels d))))
      | None => mret tt
      end
  end.

(** ** Messages of the pool *)

(** [proxy_extranonce_prefix_len]; when it underflows without overflow checks
    the ranges made from it are refused, and the refusal is unwrapped. *)
Definition proxy_extranonce_prefix_len (channel_size downstream_size : Z) : result TproxyError Z :=
  sub_chk channel_size downstream_size.
Definition make_factory (upstream_prefix : bytes) (extranonce_size downstream_len : Z)
    : result TproxyError ExtendedExtranonce :=
  len ← proxy_extranonce_prefix_len extranonce_size downstream_len;
  let range_0 := mkRange 0 (zlen upstream_prefix) in
  let range_1 := mkRange (r_end range_0) (r_end range_0 + len) in
  let range_2 := mkRange (r_end range_1) (r_end range_1 + downstream_len) in
  match from_upstream_extranonce upstream_prefix range_0 range_1 range_2 with
  | Ok f => Ok f
  | _ => Panic
  end.
(** [next_prefix_extended(..).expect(..)]. *)
Definition take_prefix (len : Z) (f : ExtendedExtranonce) : result TproxyError (bytes * ExtendedExtranonce) :=
  match next_prefix_extended len f with
  | (Ok p, f) => Ok (p, f)
  | _ => Panic
  end.

Definition handle_open_extended_mining_channel_success (m : OpenSuccess) : MANAGER unit :=
  d ← gets data;
  let pending := pending_channels d !! op_request_id m in
  _ ← modify (on_data (set_pending (delete (op_request_id m) (pending_channels d))));
  '(user_identity, nominal_hashrate, downstream_extranonce_len) ←
    lift (ok_or pending (PendingChannelNotFound (op_request_id m)));
  let target := Target_from_bytes (op_target m) in
  let channel prefix size := Client.Extended.new (op_channel_id m) user_identity prefix target
                               nominal_hashrate true size in
  success ← match mode d with
    | Aggregated =>
        _ ← modify (on_data (set_upstream (Some (channel (op_extranonce_prefix m) (op_extranonce_size m)))));
        factory ← lift (make_factory (op_extranonce_prefix m) (op_extranonce_size m) downstream_extranonce_len);
        let new_extranonce_size := wrap 16 (get_range2_len factory) in
        '(new_prefix, factory) ← lift (take_prefix new_extranonce_size factory);
        _ ← modify (on_data (set_prefix_factory (Some factory)));
        _ ← modify (on_data (λ d, set_channels
              (<[op_channel_id m := channel new_prefix new_extranonce_size]> (extended_channels d)) d));
        mret (mkOpenSuccess (op_request_id m) (op_channel_id m) (op_target m) new_extranonce_size new_prefix)
    | NonAggregated =>
        if negb (op_extranonce_size m =? downstream_extranonce_len) then
          factory ← lift (make_factory (op_extranonce_prefix m) (op_extranonce_size m) downstream_extranonce_len);
          '(new_prefix, factory) ← lift (take_prefix downstream_extranonce_len factory);
          let size := wrap 16 downstream_extranonce_len in
          _ ← modify (on_data (λ d, set_channels
                (<[op_channel_id m := channel new_prefix size]> (extended_channels d)) d));
          _ ← modify (on_data (λ d, set_factories
                (Some (<[op_channel_id m := factory]> (default ∅ (extranonce_factories d)))) d));
          mret (mkOpenSuccess (op_request_id m) (op_channel_id m) (op_target m) size new_prefix)
        else
          _ ← modify (on_data (λ d, set_channels
                (<[op_channel_id m := channel (op_extranonce_prefix m) (op_extranonce_size m)]>
                   (extended_channels d)) d));
          mret m
    end;
  send_sv1 (SvOpenSuccess success).

Definition handle_close_channel (channel_id : Z) : MANAGER unit :=
  modify (on_data (λ d,
    match mode d with
    | Aggregated => set_upstream None d
    | NonAggregated => set_channels (delete channel_id (extended_channels d)) d
    end)).

Definition with_channel_id (i : Z) (m : NewExtendedMiningJob) : NewExtendedMiningJob :=
  mkNewExtendedMiningJob i (xj_job_id m) (xj_min_ntime m) (xj_version m) (xj_version_rolling_allowed m)
    (xj_merkle_path m) (xj_coinbase_tx_prefix m) (xj_coinbase_tx_suffix m).
(** In aggregated mode the number 0 addresses every miner. *)
Definition handle_new_extended_mining_job (m : NewExtendedMiningJob) : MANAGER unit :=
  d ← gets data;
  let m' := match mode d, upstream_extended_channel d with
            | Aggregated, Some _ => with_channel_id 0 m
            | _, _ => m
            end in
  _ ← on_channels (xj_channel_id m) (quietly (Client.Extended.on_new_extended_mining_job m))
        (quietly (Client.Extended.on_new_extended_mining_job m'));
  match xj_min_ntime m' with
  | Some _ => send_sv1 (SvNewExtendedMiningJob m')
  | None => mret tt
  end.

Definition active_job (channel_id : Z) (d : ChannelManagerData) : option NewExtendedMiningJob :=
  c ← match mode d with
      | Aggregated => upstream_extended_channel d
      | NonAggregated => extended_channels d !! channel_id
      end;
  j ← Client.x_active_job c;
  Some j.1.
Definition handle_set_new_prev_hash (m : SetNewPrevHashMp) : MANAGER unit :=
  let f := quietly (Client.Extended.on_set_new_prev_hash m) in
  _ ← on_channels (ph_channel_id m) f f;
  _ ← send_sv1 (SvSetNewPrevHash m);
  d ← gets data;
  match active_job (ph_channel_id m) d with
  | Some job =>
      send_sv1 (SvNewExtendedMiningJob
        (match mode d with Aggregated => with_channel_id 0 job | NonAggregated => job end))
  | None => mret tt
  end.
Definition handle_set_target (channel_id : Z) (maximum_target : bytes) : MANAGER unit :=
  let f c := Ok (Client.Extended.set_target (Target_from_bytes maximum_target) c) in
  _ ← on_channels channel_id f f;
  send_sv1 (SvSetTarget channel_id maximum_target).

(** The messages of a pool, and the dispatch for a client of extended channels
    without work selection. *)
Inductive ServerMessage : Type :=
  | FsOpenStandardSuccess
  | FsOpenExtendedSuccess (m : OpenSuccess)
  | FsOpenMiningChannelError
  | FsUpdateChannelError
  | FsCloseChannel (channel_id : Z)
  | FsSetExtranoncePrefix
  | FsSubmitSharesSuccess
  | FsSubmitSharesError
  | FsNewMiningJob
  | FsNewExtendedMiningJob (m : NewExtendedMiningJob)
  | FsSetNewPrevHash (m : SetNewPrevHashMp)
  | FsSetCustomMiningJobSuccess
  | FsSetCustomMiningJobError
  | FsSetTarget (channel_id : Z) (maximum_target : bytes)
  | FsSetGroupChannel
  | FsOther.
Definition handle_mining_message_from_server (m : ServerMessage) : MANAGER unit :=
  match m with
  | FsOpenStandardSuccess => throw (TpUnexpectedMessage 0x11)
  | FsOpenExtendedSuccess m => handle_open_extended_mining_channel_success m
  | FsOpenMiningChannelError => panic
  | FsUpdateChannelError | FsSetExtranoncePrefix | FsSubmitSharesSuccess | FsSubmitSharesError => mret tt
  | FsCloseChannel i => handle_close_channel i
  | FsNewMiningJob => throw (TpUnexpectedMessage 0x15)
  | FsNewExtendedMiningJob m => handle_new_extended_mining_job m
  | FsSetNewPrevHash m => handle_set_new_prev_hash m
  | FsSetCustomMiningJobSuccess => throw (TpUnexpectedMessage 0x23)
  | FsSetCustomMiningJobError => throw (TpUnexpectedMessage 0x24)
  | FsSetTarget i t => handle_set_target i t
  | FsSetGroupChannel => throw (TpUnexpectedMessage 0x25)
  | FsOther => throw (TpUnexpectedMessage 0)
  end.

(** A quote for the miner's wallet. *)
Definition handle_mint_quote_notification (quote_id : bytes) : MANAGER unit :=
  modify (λ s, mkManager (data s) (to_sv1 s) (to_upstream s) (sv1_open s) (upstream_open s)
                 (match wallet s with Some l => Some (l ++ [quote_id]) | None => None end)).

(** ** Messages of the V1 server *)

Definition AGGREGATED_MODE_TRANSLATOR_SEARCH_SPACE_BYTES : Z := 4.

(** Up to the first dot, with the proxy's name appended. *)
Fixpoint until_dot (l : bytes) : bytes :=
  match l with
  | [] => []
  | b :: l => if byte.unsigned b =? 46 then [] else b :: until_dot l
  end.
Definition translator_identity (user_identity : bytes) : bytes :=
  until_dot user_identity ++ text ".translator-proxy".
Definition max_key (m : gmap Z TChannel) : Z := foldr Z.max 0 (map_to_list m).*1.

(** A further miner of the shared channel. *)
Definition open_aggregated (m : OpenExtendedMiningChannel) (user_identity : bytes) (upstream : TChannel)
    : MANAGER unit :=
  d ← gets data;
  let target := Client.x_target upstream in
  factory ← lift (unwrap (extranonce_prefix_factory d));
  let '(prefix, factory) := next_prefix_extended (oe_min_extranonce_size m) factory in
  _ ← match prefix with Panic => panic | _ => mret tt end;
  _ ← modify (on_data (set_prefix_factory (Some factory)));
  let new_extranonce_size := get_range2_len factory in
  match prefix with
  | Ok new_prefix =>
      if oe_min_extranonce_size m <=? new_extranonce_size then
        next_channel_id ← lift (add_over overflow_checks 32 (max_key (extended_channels d)) 1);
        let size := wrap 16 new_extranonce_size in
        let channel := Client.Extended.new next_channel_id user_identity new_prefix target
                         (oe_nominal_hash_rate m) true size in
        _ ← modify (on_data (λ d, set_channels (<[next_channel_id := channel]> (extended_channels d)) d));
        _ ← send_sv1 (SvOpenSuccess (mkOpenSuccess (oe_request_id m) next_channel_id
                        (Target_into_U256 target) size new_prefix));
        match Client.x_active_job upstream with
        | Some (job, _) =>
            let channel := match Client.x_chain_tip upstream with
                           | Some tip => Client.Extended.set_chain_tip tip channel
                           | None => channel
                           end in
            let job := with_channel_id next_channel_id job in
            channel ← lift (quietly (Client.Extended.on_new_extended_mining_job job) channel);
            _ ← modify (on_data (λ d, set_channels (<[next_channel_id := channel]> (extended_channels d)) d));
            send_sv1 (SvNewExtendedMiningJob job)
        | None => mret tt
        end
      else mret tt
  | _ => mret tt
  end.
Definition handle_open_extended_mining_channel (m : OpenExtendedMiningChannel) : MANAGER unit :=
  d ← gets data;
  let user_identity := if utf8_valid (oe_user_identity m) then oe_user_identity m else text "unknown" in
  let forward (user_identity wire_identity : bytes) (size : Z) :=
    _ ← modify (on_data (λ d, set_pending (<[oe_request_id m :=
          (user_identity, oe_nominal_hash_rate m, oe_min_extranonce_size m)]> (pending_channels d)) d));
    send_upstream (UpOpen (mkOpenExtended (oe_request_id m) wire_identity (oe_nominal_hash_rate m)
                             (oe_max_target m) (wrap 16 size))) in
  match mode d, upstream_extended_channel d with
  | Aggregated, Some upstream => open_aggregated m user_identity upstream
  | Aggregated, None =>
      let identity := translator_identity user_identity in
      if 255 <? zlen identity then panic
      else forward identity identity
             (oe_min_extranonce_size m + AGGREGATED_MODE_TRANSLATOR_SEARCH_SPACE_BYTES)
  | NonAggregated, _ => forward user_identity (oe_user_identity m) (oe_min_extranonce_size m)
  end.

Definition with_forwarding (channel_id sequence_number : Z) (extranonce : bytes) (m : SubmitSharesExtended)
    : SubmitSharesExtended :=
  mkSubmitExtended channel_id sequence_number (se_job_id m) (se_nonce m) (se_ntime m) (se_version m) extranonce.
(** The proxy's part of the channel's prefix goes in front of the miner's
    extranonce. *)
Definition adjusted (factory : ExtendedExtranonce) (channel : option TChannel) (extranonce : bytes)
    : result TproxyError bytes :=
  match channel with
  | Some c =>
      translator_prefix ← slice_from (Client.x_extranonce_prefix c) (get_range0_len factory);
      let new_extranonce := translator_prefix ++ extranonce in
      if 32 <? zlen new_extranonce then Err TpBinarySv2 else Ok new_extranonce
  | None => Ok extranonce
  end.
Definition forward_share (m : SubmitSharesExtended) : MANAGER unit :=
  d ← gets data;
  let channel := extended_channels d !! se_channel_id m in
  m ← match mode d, upstream_extended_channel d with
    | Aggregated, Some upstream =>
        let upstream_id := Client.x_channel_id upstream in
        sequence_number ← next_share_sequence_number upstream_id;
        factory ← lift (unwrap (extranonce_prefix_factory d));
        extranonce ← lift (adjusted factory channel (se_extranonce m));
        mret (with_forwarding upstream_id sequence_number extranonce m)
    | _, _ =>
        sequence_number ← next_share_sequence_number (se_channel_id m);
        match extranonce_factories d ≫= lookup (se_channel_id m) with
        | Some factory =>
            extranonce ← lift (adjusted factory channel (se_extranonce m));
            mret (with_forwarding (se_channel_id m) sequence_number extranonce m)
        | None => mret (with_forwarding (se_channel_id m) sequence_number (se_extranonce m) m)
        end
    end;
  send_upstream (UpSubmit m).
(** A share is validated on its channel first; an invalid one is dropped. *)
Definition handle_submit_shares_extended (m : SubmitSharesExtended) : MANAGER unit :=
  d ← gets data;
  match extended_channels d !! se_channel_id m with
  | None => mret tt
  | Some c =>
      let '(r, c) := Client.Extended.validate_share overflow_checks m c in
      _ ← modify (on_data (λ d, set_channels (<[se_channel_id m := c]> (extended_channels d)) d));
      match r with
      | Ok _ => forward_share m
      | Err _ => mret tt
      | Panic => panic
      end
  end.
Definition handle_update_channel (m : UpdateChannel) : MANAGER unit :=
  d ← gets data;
  match mode d with
  | Aggregated =>
      upstream ← lift (unwrap (upstream_extended_channel d));
      send_upstream (UpUpdate (mkUpdateChannel (Client.x_channel_id upstream) (uc_nominal_hash_rate m)
                                 (uc_maximum_target m)))
  | NonAggregated => send_upstream (UpUpdate m)
  end.

Inductive FromSv1 : Type :=
  | SvOpen (m : OpenExtendedMiningChannel)
  | SvSubmit (m : SubmitSharesExtended)
  | SvUpdate (m : UpdateChannel)
  | SvClose (channel_id : Z) (reason_code : bytes)
  | SvOther.
Definition handle_sv1_message (m : FromSv1) : MANAGER unit :=
  match m with
  | SvOpen m => handle_open_extended_mining_channel m
  | SvSubmit m => handle_submit_shares_extended m
  | SvUpdate m => handle_update_channel m
  | SvClose i r => send_upstream (UpClose i r)
  | SvOther => mret tt
  end.
(** The state when the pool is connected again. *)
Definition on_upstream_reconnected : MANAGER unit := modify (on_data reset_for_upstream_reconnection).
End manager.
