(* ===== verification/TranslatorProperties.v ===== *)
(** * Properties of the translator's channel manager

    In aggregated mode the miners share one channel of the pool: each gets a
    prefix of its own that extends the pool's, and a forwarded share describes
    the same coinbase to the pool as to the miner.  Two orders of events that
    break this are stated as well. *)

From stdpp Require Import gmap.
From S2P Require Import Prelude Utf8 Mining MiningProperties Difficulty Bitcoin BitcoinModel Jobs Channels ChannelProperties Downstream ClientChannels Agreement Translator.
#[local] Open Scope Z_scope.
#[local] Open Scope list_scope.
Import ExtendedExtranonceOps.

(** ** Channels keep their prefix *)

Section prefixed.
Context `{Bitcoin}.

(** Every job of the channel carries the channel's prefix. *)
Definition prefixed (p : bytes) (c : TChannel) : Prop :=
  Client.x_extranonce_prefix c = p ∧
  (∀ id j, Client.x_future_jobs c !! id = Some j → j.2 = p) ∧
  (∀ j, Client.x_active_job c = Some j → j.2 = p) ∧
  (∀ id j, Client.x_past_jobs c !! id = Some j → j.2 = p).

Lemma no_jobs id (j : Client.ExtendedJob) (P : Prop) : (∅ : gmap Z Client.ExtendedJob) !! id = Some j → P.
Proof. by rewrite lookup_empty. Qed.
Lemma prefixed_new i u p t h v n : prefixed p (Client.Extended.new i u p t h v n).
Proof. split_and!; [done|intros id j; apply no_jobs|done|intros id j; apply no_jobs]. Qed.
Lemma prefixed_target p t c : prefixed p c → prefixed p (Client.Extended.set_target t c).
Proof. done. Qed.
Lemma prefixed_tip p t c : prefixed p c → prefixed p (Client.Extended.set_chain_tip t c).
Proof. done. Qed.
Lemma prefixed_activate p j c : prefixed p c → j.2 = p → prefixed p (Client.Extended.activate j c).
Proof.
  intros (Hp & Hf & Ha & Hpast) Hj. unfold Client.Extended.activate. split_and!; cbn; [done|done|by intros ? [= <-]|].
  destruct (Client.x_active_job c) as [a|] eqn:E; [|done]. intros id j' Hj'.
  apply lookup_insert_Some in Hj' as [[_ <-]|[_ Hj']]; eauto.
Qed.
Lemma prefixed_new_job p m : keeps (prefixed p) (Client.Extended.on_new_extended_mining_job m).
Proof.
  intros c Hc. unfold Client.Extended.on_new_extended_mining_job, mbind, ST_bind, lift, gets. cbn.
  destruct (map_err _ _) as [[[a b]|]| |]; cbn; try done;
    [destruct (try_b064k _ a); cbn; try done; destruct (try_b064k _ b); cbn; try done|];
    (destruct (xj_min_ntime m); cbn;
     [apply prefixed_activate; [done|exact (proj1 Hc)]
     |destruct Hc as (Hp & Hf & Ha & Hpast); split_and!; cbn; [done| |done|done];
      intros id j Hj; apply lookup_insert_Some in Hj as [[_ <-]|[_ Hj]]; eauto]).
Qed.
Lemma prefixed_prev_hash p m : keeps (prefixed p) (Client.Extended.on_set_new_prev_hash m).
Proof.
  intros c (Hp & Hf & Ha & Hpast). unfold Client.Extended.on_set_new_prev_hash.
  destruct (Client.x_future_jobs c !! ph_job_id m) as [[job q]|] eqn:E; [|done].
  specialize (Hf _ _ E). cbn in Hf. subst q.
  split_and!; cbn; [done|intros id j; apply no_jobs|by intros ? [= <-]|intros id j; apply no_jobs].
Qed.
Lemma prefixed_validate chk p m : keeps (prefixed p) (Client.Extended.validate_share chk m).
Proof.
  unfold Client.Extended.validate_share. keeps_all. all: try done.
  intros c Hc. unfold zoom. by destruct (Client.judge _ _ _ _ _ _) as [r t].
Qed.
Lemma prefixed_quietly {E A} p (m : ST TChannel E A) c c' :
  keeps (prefixed p) m → prefixed p c → quietly m c = Ok c' → prefixed p c'.
Proof. intros Hm Hc. specialize (Hm c Hc). unfold quietly. by destruct (m c) as [[] ?]; intros [= <-]. Qed.
End prefixed.

(** ** The invariant of the shared channel *)

Section aggregated.
Context `{Bitcoin} (chk : bool).

(** The factory continues the pool's prefix [up] by a counter at [w]. *)
Record factory_at (up w : bytes) (f : ExtendedExtranonce) : Prop := mkFactoryAt {
  fa_inner : ∃ post, inner f = up ++ w ++ post;
  fa_range_0 : range_0 f = mkRange 0 (zlen up);
  fa_range_1 : range_1 f = mkRange (zlen up) (zlen up + zlen w);
  fa_max : zlen up + zlen w ≤ MAX_EXTRANONCE_LEN;
  fa_static : static_prefix f = None }.
(** The channel's prefix extends [up] by a counter value already used. *)
Definition allotted (up w : bytes) (c : TChannel) : Prop :=
  ∃ v, prefixed (up ++ v) c ∧ zlen v = zlen w ∧ from_be_bytes v ≤ from_be_bytes w.
Definition distinct (m : gmap Z TChannel) : Prop :=
  ∀ i j c c', m !! i = Some c → m !! j = Some c' → i ≠ j →
    Client.x_extranonce_prefix c ≠ Client.x_extranonce_prefix c'.
Definition shared_channel (d : ChannelManagerData) : Prop :=
  mode d = Aggregated ∧
  match upstream_extended_channel d with
  | None => extended_channels d = ∅
  | Some u =>
      ∃ w f, extranonce_prefix_factory d = Some f ∧ prefixed (Client.x_extranonce_prefix u) u ∧
        factory_at (Client.x_extranonce_prefix u) w f ∧
        (∀ i c, extended_channels d !! i = Some c → allotted (Client.x_extranonce_prefix u) w c) ∧
        distinct (extended_channels d)
  end.

Lemma factory_window up w f :
  factory_at up w f → ∃ post, window f (r_start (range_1 f) + static_len f) (r_end (range_1 f)) up w post.
Proof.
  intros [[post Hi] _ H1 _ Hs]. exists post. unfold static_len. rewrite H1, Hs. split; cbn; [done|lia|lia].
Qed.
Lemma next_range_0 r len : keeps (λ f, range_0 f = r) (next_prefix_extended len).
Proof.
  unfold next_prefix_extended. keeps_all. intros f Hf. unfold on_window.
  destruct (slice_range _ _ _); [|done..]. by destruct (increment_bytes_be _).
Qed.
(** Taking a prefix moves the counter up by one, or fails at its end. *)
Lemma take_next up w f len r f' :
  factory_at up w f → next_prefix_extended len f = (r, f') →
  ∃ w', factory_at up w' f' ∧ zlen w' = zlen w ∧ from_be_bytes w ≤ from_be_bytes w' ∧
    range_2 f' = range_2 f ∧ r ≠ Panic ∧
    (∀ p, r = Ok p → p = up ++ w' ∧ from_be_bytes w' = from_be_bytes w + 1).
Proof.
  intros Hf E. destruct (factory_window _ _ _ Hf) as [post Hw]. pose proof Hf as [_ H0 H1 Hm Hs].
  destruct (next_extended_step len f up w post Hw) as (r' & f'' & E' & H1' & H2' & Hs' & Hif);
    [rewrite H1; cbn; done|]. rewrite E in E'. injection E' as <- <-.
  destruct (_ <? len).
  { destruct Hif as [-> ->]. exists w. by split_and!. }
  destruct Hif as [[Hi _ _] ->]. destruct (increment_spec w) as [Hl Hinc]. exists (increment_bytes_be w).2.
  assert (H0' : range_0 f' = range_0 f) by (pose proof (next_range_0 (range_0 f) len f eq_refl) as Hr; by rewrite E in Hr).
  split_and!; [|done| |done| |].
  - split; [by exists post|by rewrite H0', H0|by rewrite H1', H1, Hl|by rewrite Hl|by rewrite Hs', Hs].
  - destruct (from_be_bytes w <? _); destruct Hinc as [_ ->]; lia.
  - by destruct (from_be_bytes w <? _).
  - intros p Hp. destruct (from_be_bytes w <? _); [|done]. destruct Hinc as [_ Hv]. injection Hp as <-. done.
Qed.

(** ** Every operation keeps it *)

Lemma make_factory_at up size len f :
  make_factory up size len = Ok f → ∃ n, factory_at up (zeros n) f ∧ range_2 f = mkRange (zlen up + n) (zlen up + n + len).
Proof.
  unfold make_factory, proxy_extranonce_prefix_len, sub_chk, from_upstream_extranonce.
  destruct (Z.leb_spec len size) as [Hle|]; [|done]. cbn [mbind result_bind r_start r_end].
  destruct (bad_ranges _ _ _) eqn:Hbad; [done|]. destruct (Z.ltb_spec MAX_EXTRANONCE_LEN (zlen up + (size - len) + len)); [done|].
  intros [= <-]. exists (size - len).
  pose proof (zlen_nonneg up).
  unfold bad_ranges in Hbad. cbn in Hbad. repeat (apply orb_false_iff in Hbad as [Hbad ?]). bool_props.
  split; [|done]. assert (Hz : zlen (zeros (size - len)) = size - len) by (apply zeros_len; lia).
  split; cbn.
  - eexists. unfold resize. rewrite ztake_ge by lia.
    replace (zlen up + (size - len) + len - zlen up) with ((size - len) + len) by lia. fold (zeros (size - len + len)).
    rewrite <- zeros_app by lia. by rewrite <- !app_assoc.
  - done.
  - by rewrite Hz.
  - rewrite Hz. lia.
  - done.
Qed.

Lemma each_Ok f m m' i c' :
  each f m = Ok m' → m' !! i = Some c' → ∃ c, m !! i = Some c ∧ f c = Ok c'.
Proof.
  unfold each. case_bool_decide as Hall; [|done]. intros [= <-]. rewrite lookup_omap. intros Hi.
  apply bind_Some in Hi as (c & Hc & Hf). exists c. split; [done|]. destruct (f c); congruence.
Qed.
Lemma shared_update d u u' chs' :
  shared_channel d → upstream_extended_channel d = Some u →
  prefixed (Client.x_extranonce_prefix u) u' →
  (∀ i c', chs' !! i = Some c' → ∃ c, extended_channels d !! i = Some c ∧ ∀ p, prefixed p c → prefixed p c') →
  shared_channel (set_channels chs' (set_upstream (Some u') d)).
Proof.
  intros [Hm Hd] Hu Hu' Hch. rewrite Hu in Hd. destruct Hd as (w & f & Hf & _ & Hfa & Hall & Hdis).
  split; [done|]. cbn. destruct Hu' as (Hpu & Hu'). exists w, f. rewrite Hpu.
  split; [done|]. split; [by split|]. split; [done|]. split.
  - intros i c' Hc'. destruct (Hch _ _ Hc') as (c & Hc & Hp). destruct (Hall _ _ Hc) as (v & Hv & ?).
    exists v. eauto.
  - intros i j c c' Hc Hc' Hij. destruct (Hch _ _ Hc) as (b & Hb & Hp). destruct (Hch _ _ Hc') as (b' & Hb' & Hp').
    specialize (Hdis _ _ _ _ Hb Hb' Hij). destruct (Hall _ _ Hb) as (v & Hv & _). destruct (Hall _ _ Hb') as (v' & Hv' & _).
    rewrite (proj1 (Hp _ Hv)), (proj1 (Hp' _ Hv')). by rewrite (proj1 Hv), (proj1 Hv') in Hdis.
Qed.
Lemma on_channels_shared i (up down : TChannel → result TproxyError TChannel) s s' :
  (∀ p c c', prefixed p c → up c = Ok c' → prefixed p c') →
  (∀ p c c', prefixed p c → down c = Ok c' → prefixed p c') →
  shared_channel (data s) → on_channels i up down s = (Ok tt, s') → shared_channel (data s').
Proof.
  intros Hup Hdown Hs E. unfold on_channels in E. rewrite st_gets_bind in E. pose proof Hs as [Hm Hd].
  rewrite Hm in E. destruct (upstream_extended_channel (data s)) as [u|] eqn:Hu; inv_st.
  - match goal with Hx : each _ _ = Ok _ |- _ => rename Hx into He end. cbn.
    refine (shared_update (data s) u _ _ Hs Hu _ _).
    + destruct Hd as (w & f & _ & Hpu & _). by eapply Hup.
    + intros k c' Hc'. destruct (each_Ok _ _ _ _ _ He Hc') as (c & Hc & Hf). exists c. split; [done|]. intros p Hp.
      by eapply Hdown.
  - match goal with Hx : each _ _ = Ok _ |- _ => rename Hx into He end. cbn. split; [done|]. cbn. rewrite Hu.
    apply map_empty. intros k. destruct (_ !! k) as [c'|] eqn:Hc'; [|done].
    destruct (each_Ok _ _ _ _ _ He Hc') as (c & Hc & _). by rewrite Hd in Hc.
Qed.
Lemma send_sv1_data m s s' : send_sv1 m s = (Ok tt, s') → data s' = data s.
Proof. unfold send_sv1. rewrite st_gets_bind. by destruct (sv1_open s); intros [= <-]. Qed.
Lemma send_upstream_data m s s' : send_upstream m s = (Ok tt, s') → data s' = data s.
Proof. unfold send_upstream. rewrite st_gets_bind. by destruct (upstream_open s); intros [= <-]. Qed.

Lemma send_sv1_upstream m s s' : send_sv1 m s = (Ok tt, s') → to_upstream s' = to_upstream s.
Proof. unfold send_sv1. rewrite st_gets_bind. by destruct (sv1_open s); intros [= <-]. Qed.
Lemma send_upstream_sent m s s' : send_upstream m s = (Ok tt, s') → to_upstream s' = to_upstream s ++ [m].
Proof. unfold send_upstream. rewrite st_gets_bind. by destruct (upstream_open s); intros [= <-]. Qed.
Lemma new_job_shared m s s' :
  shared_channel (data s) → handle_new_extended_mining_job m s = (Ok tt, s') → shared_channel (data s').
Proof.
  intros Hs E. unfold handle_new_extended_mining_job in E. rewrite st_gets_bind in E.
  apply st_bind_Ok in E as ([] & s1 & E1 & E). apply on_channels_shared in E1; [|..|done].
  - destruct (xj_min_ntime _); [by rewrite (send_sv1_data _ _ _ E)|by injection E as <-].
  - intros p c c' Hc. by eapply prefixed_quietly, Hc; apply prefixed_new_job.
  - intros p c c' Hc. by eapply prefixed_quietly, Hc; apply prefixed_new_job.
Qed.
Lemma prev_hash_shared m s s' :
  shared_channel (data s) → handle_set_new_prev_hash m s = (Ok tt, s') → shared_channel (data s').
Proof.
  intros Hs E. unfold handle_set_new_prev_hash in E.
  apply st_bind_Ok in E as ([] & s1 & E1 & E). apply st_bind_Ok in E as ([] & s2 & E2 & E).
  rewrite st_gets_bind in E. apply on_channels_shared in E1; [|..|done].
  - apply send_sv1_data in E2. destruct (active_job _ _); [apply send_sv1_data in E|injection E as <-]; congruence.
  - intros p c c' Hc. by eapply prefixed_quietly, Hc; apply prefixed_prev_hash.
  - intros p c c' Hc. by eapply prefixed_quietly, Hc; apply prefixed_prev_hash.
Qed.
Lemma set_target_shared i t s s' :
  shared_channel (data s) → handle_set_target i t s = (Ok tt, s') → shared_channel (data s').
Proof.
  intros Hs E. unfold handle_set_target in E. apply st_bind_Ok in E as ([] & s1 & E1 & E).
  rewrite (send_sv1_data _ _ _ E). eapply on_channels_shared; [..|done|exact E1]; by intros p c c' Hc [= <-].
Qed.

(** The pool opens the shared channel. *)
Lemma open_success_result m s s' :
  mode (data s) = Aggregated → handle_open_extended_mining_channel_success m s = (Ok tt, s') →
  to_upstream s' = to_upstream s ∧
  ∃ u f w c, data s' = set_channels (<[op_channel_id m := c]> (extended_channels (data s)))
      (set_prefix_factory (Some f) (set_upstream (Some u)
         (set_pending (delete (op_request_id m) (pending_channels (data s))) (data s)))) ∧
    Client.x_channel_id u = op_channel_id m ∧ prefixed (op_extranonce_prefix m) u ∧
    factory_at (op_extranonce_prefix m) w f ∧ prefixed (op_extranonce_prefix m ++ w) c.
Proof.
  intros Hm E. unfold handle_open_extended_mining_channel_success in E.
  rewrite st_gets_bind, st_modify_bind, Hm in E. apply st_bind_Ok in E as ([[user rate] len] & s1 & E1 & E).
  apply st_lift_Ok in E1 as [_ ->]. apply st_bind_Ok in E as (success & s1 & E1 & E).
  rewrite (send_sv1_data _ _ _ E). apply send_sv1_upstream in E. rewrite E. clear E. rewrite st_modify_bind in E1. inv_st.
  match goal with Hx : make_factory _ _ _ = Ok _ |- _ => apply make_factory_at in Hx as (n & Hfa & H2) end.
  match goal with Hx : take_prefix _ _ = Ok _ |- _ => unfold take_prefix in Hx;
    destruct (next_prefix_extended _ _) as [[pr| |] f'] eqn:En; [|done..]; injection Hx as <- end. inv_st.
  destruct (take_next _ _ _ _ _ _ Hfa En) as (w' & Hfa' & Hl & Hle & _ & _ & Hp).
  destruct (Hp _ eq_refl) as [-> _]. split; [done|]. do 4 eexists. split; [reflexivity|].
  split; [done|]. split; [apply prefixed_new|]. split; [done|]. apply prefixed_new.
Qed.
Lemma open_success_shared m s s' :
  shared_channel (data s) → upstream_extended_channel (data s) = None →
  handle_open_extended_mining_channel_success m s = (Ok tt, s') → shared_channel (data s').
Proof.
  intros [Hm Hd] Hu E. rewrite Hu in Hd. apply open_success_result in E as (_ & u & f & w & c & -> & _ & Hpu & Hfa & Hc); [|done].
  split; [done|]. cbn. rewrite (proj1 Hpu). exists w, f. split; [done|]. split; [done|]. split; [done|]. rewrite Hd. split.
  - intros i b Hb. apply lookup_insert_Some in Hb as [[_ <-]|[_ Hb]]; [by exists w|by rewrite lookup_empty in Hb].
  - intros i j b b' Hb Hb' Hij. apply lookup_insert_Some in Hb as [[<- _]|[_ Hb]]; [|by rewrite lookup_empty in Hb].
    apply lookup_insert_Some in Hb' as [[<- _]|[_ Hb']]; [done|by rewrite lookup_empty in Hb'].
Qed.
(** A further miner joins. *)
Lemma allotted_weaken up w w' c :
  zlen w' = zlen w → from_be_bytes w ≤ from_be_bytes w' → allotted up w c → allotted up w' c.
Proof. intros Hl Hle (v & Hp & Hv & Hb). exists v. split_and!; [apply Hp..|lia|lia]. Qed.
Lemma shared_join d old u w w' f i c :
  mode d = Aggregated → upstream_extended_channel d = Some u → extranonce_prefix_factory d = Some f →
  prefixed (Client.x_extranonce_prefix u) u → factory_at (Client.x_extranonce_prefix u) w' f →
  (∀ k b, old !! k = Some b → allotted (Client.x_extranonce_prefix u) w b) → distinct old →
  zlen w' = zlen w → from_be_bytes w' = from_be_bytes w + 1 →
  prefixed (Client.x_extranonce_prefix u ++ w') c → extended_channels d = <[i := c]> old →
  shared_channel d.
Proof.
  intros Hm Hu Hf Hpu Hfa Hall Hdis Hl Hv Hp Hch. split; [done|]. rewrite Hu. exists w', f.
  split; [done|]. split; [done|]. split; [done|].
  assert (Hne : ∀ k b, old !! k = Some b → Client.x_extranonce_prefix b ≠ Client.x_extranonce_prefix u ++ w').
  { intros k b Hb. destruct (Hall _ _ Hb) as (v & [-> _] & _ & Hle). intros He. apply app_inv_head in He as ->. lia. }
  rewrite Hch. split.
  - intros k b Hb. apply lookup_insert_Some in Hb as [[_ <-]|[_ Hb]]; [by exists w'|].
    apply (allotted_weaken _ w); [done|lia|eauto].
  - intros k l b b' Hb Hb' Hkl. apply lookup_insert_Some in Hb as [[<- <-]|[Hk Hb]];
      apply lookup_insert_Some in Hb' as [[<- <-]|[Hl' Hb']]; [done| | |by eapply Hdis].
    + rewrite (proj1 Hp). intros He. by apply (Hne l b').
    + rewrite (proj1 Hp). by apply (Hne k b).
Qed.
Lemma open_aggregated_shared m user u s s' :
  shared_channel (data s) → upstream_extended_channel (data s) = Some u →
  open_aggregated chk m user u s = (Ok tt, s') → shared_channel (data s').
Proof.
  intros [Hm Hd] Hu E. rewrite Hu in Hd. destruct Hd as (w & f & Hf & Hpu & Hfa & Hall & Hdis).
  unfold open_aggregated in E. rewrite st_gets_bind, Hf in E. cbn [unwrap] in E. rewrite st_lift_bind in E.
  destruct (next_prefix_extended _ f) as [pr f'] eqn:En.
  destruct (take_next _ _ _ _ _ _ Hfa En) as (w' & Hfa' & Hl & Hle & _ & Hnp & Hp).
  destruct pr as [p|e|]; [| |done]; unfold mbind at 1, ST_bind at 1, mret at 1, ST_ret at 1 in E; rewrite st_modify_bind in E.
  2: { injection E as <-. split; [done|]. cbn. rewrite Hu. exists w', f'. split; [done|]. split; [done|]. split; [done|].
       split; [|done]. intros i c Hc. apply (allotted_weaken _ w); [done|lia|eauto]. }
  destruct (Hp _ eq_refl) as [-> Hv]. clear Hp Hnp.
  assert (Hjoin : ∀ d i c, mode d = Aggregated → upstream_extended_channel d = Some u →
    extranonce_prefix_factory d = Some f' → prefixed (Client.x_extranonce_prefix u ++ w') c →
    extended_channels d = <[i := c]> (extended_channels (data s)) → shared_channel d).
  { intros d i c H1 H2 H3 H4 H5. by eapply shared_join. }
  destruct (_ <=? _).
  2: { injection E as <-. split; [done|]. cbn. rewrite Hu. exists w', f'. split; [done|]. split; [done|]. split; [done|].
       split; [|done]. intros i c Hc. apply (allotted_weaken _ w); [done|lia|eauto]. }
  apply st_bind_Ok in E as (i & s1 & E1 & E). apply st_lift_Ok in E1 as [_ ->]. rewrite st_modify_bind in E.
  apply st_bind_Ok in E as ([] & s2 & E2 & E). apply send_sv1_data in E2.
  destruct (Client.x_active_job u) as [[job q]|].
  - apply st_bind_Ok in E as (c & s3 & E3 & E). apply st_lift_Ok in E3 as [E3 ->]. rewrite st_modify_bind in E.
    rewrite (send_sv1_data _ _ _ E). cbn. rewrite E2. eapply Hjoin; cbn; [done..| |by rewrite insert_insert_eq].
    eapply prefixed_quietly, E3; [apply prefixed_new_job|]. destruct (Client.x_chain_tip u); apply prefixed_new.
  - injection E as <-. rewrite E2. eapply Hjoin; cbn; [done..|apply prefixed_new|done].
Qed.

Lemma next_sequence_data key s n s' :
  next_share_sequence_number chk key s = (Ok n, s') → ∃ k, data s' = set_counters k (data s).
Proof. unfold next_share_sequence_number. destruct (add_over _ _ _ _); intros [= <- <-]. by eexists. Qed.
Lemma forward_share_data m s s' : forward_share chk m s = (Ok tt, s') → ∃ k, data s' = set_counters k (data s).
Proof.
  intros E. unfold forward_share in E. rewrite st_gets_bind in E. apply st_bind_Ok in E as (m' & s1 & E1 & E).
  rewrite (send_upstream_data _ _ _ E). clear E.
  destruct (mode (data s)), (upstream_extended_channel (data s));
    apply st_bind_Ok in E1 as (n & s2 & E2 & E1); apply next_sequence_data in E2 as [k Hk]; exists k; rewrite <- Hk;
    [|destruct (_ ≫= _)..]; inv_st; done.
Qed.
Lemma submit_shared m s s' :
  shared_channel (data s) → handle_submit_shares_extended chk m s = (Ok tt, s') → shared_channel (data s').
Proof.
  intros Hs E. unfold handle_submit_shares_extended in E. rewrite st_gets_bind in E.
  destruct (extended_channels (data s) !! se_channel_id m) as [c|] eqn:Hc; [|by injection E as <-].
  pose proof (λ p, prefixed_validate chk p m c) as Hkeep.
  destruct (Client.Extended.validate_share chk m c) as [r c']. cbn [snd] in Hkeep. rewrite st_modify_bind in E.
  assert (Hs' : shared_channel (set_channels (<[se_channel_id m := c']> (extended_channels (data s))) (data s))).
  { pose proof Hs as [Hm Hd]. destruct (upstream_extended_channel (data s)) as [u|] eqn:Hu; [|by rewrite Hd in Hc].
    replace (data s) with (set_upstream (Some u) (data s)) at 2 by (destruct (data s); cbn in *; by subst).
    apply (shared_update (data s) u u); [done|done|by destruct Hd as (? & ? & _ & ? & _)|].
    intros i b Hb. apply lookup_insert_Some in Hb as [[<- <-]|[_ Hb]]; eauto. }
  destruct r; [|by injection E as <-|done]. apply forward_share_data in E as [k Hk]. by rewrite Hk.
Qed.

(** ** Runs *)

Inductive Event : Type :=
  | FromPool (m : ServerMessage)
  | FromMiners (m : FromSv1)
  | QuoteNotification (quote_id : bytes)
  | Reconnected.
Definition step (e : Event) : ST Manager TproxyError unit :=
  match e with
  | FromPool m => handle_mining_message_from_server m
  | FromMiners m => handle_sv1_message chk m
  | QuoteNotification q => handle_mint_quote_notification q
  | Reconnected => on_upstream_reconnected
  end.
(** The pool answers one request for the shared channel and does not close it. *)
Definition single_channel (e : Event) (s : Manager) : Prop :=
  match e with
  | FromPool (FsOpenExtendedSuccess _) | FromPool (FsCloseChannel _) => upstream_extended_channel (data s) = None
  | _ => True
  end.
(** Runs of the manager, whose task ends with the first error. *)
Inductive reaches : Manager → Manager → Prop :=
  | reaches_here s : reaches s s
  | reaches_step s e s1 s2 : single_channel e s → step e s = (Ok tt, s1) → reaches s1 s2 → reaches s s2.

Lemma step_shared e s s' :
  shared_channel (data s) → single_channel e s → step e s = (Ok tt, s') → shared_channel (data s').
Proof.
  intros Hs He E. destruct e as [[]|[]|q|]; cbn in E; try done; try (injection E as <-; exact Hs).
  - by eapply open_success_shared.
  - injection E as <-. cbn. destruct Hs as [Hm Hd]. rewrite Hm. split; [done|]. cbn in He. by rewrite He in Hd.
  - by eapply new_job_shared.
  - by eapply prev_hash_shared.
  - by eapply set_target_shared.
  - unfold handle_open_extended_mining_channel in E. rewrite st_gets_bind in E. pose proof Hs as [Hm _]. rewrite Hm in E.
    destruct (upstream_extended_channel (data s)) as [u|] eqn:Hu; [by eapply open_aggregated_shared|].
    destruct (255 <? _); [done|]. rewrite st_modify_bind in E. by rewrite (send_upstream_data _ _ _ E).
  - by eapply submit_shared.
  - unfold handle_update_channel in E. rewrite st_gets_bind, (proj1 Hs) in E.
    apply st_bind_Ok in E as (u & s1 & E1 & E). apply st_lift_Ok in E1 as [_ ->]. by rewrite (send_upstream_data _ _ _ E).
  - by rewrite (send_upstream_data _ _ _ E).
  - injection E as <-. cbn. destruct Hs as [Hm _]. split; [done|]. done.
Qed.
End aggregated.

(** C14 Miners that share a channel never share work: from the start, whatever
    the pool and the miners send, as long as the pool answers a single open
    request, the prefix of every downstream channel and of its jobs extends the
    prefix the pool gave by a part of one length, and no two downstream
    channels have the same prefix. *)
Theorem shared_channel_prefixes `{Bitcoin} (chk : bool) (w : option (list bytes)) (s : Manager) :
  reaches chk (mkManager (ChannelManagerData_new Aggregated) [] [] true true w) s →
  (∀ i c, extended_channels (data s) !! i = Some c →
     ∃ u part, upstream_extended_channel (data s) = Some u ∧
       prefixed (Client.x_extranonce_prefix u ++ part) c ∧
       extranonce_prefix_factory (data s) ≠ None ∧
       (∀ f, extranonce_prefix_factory (data s) = Some f →
          get_range0_len f = zlen (Client.x_extranonce_prefix u) ∧
          zlen part = r_end (range_1 f) - r_start (range_1 f))) ∧
  distinct (extended_channels (data s)).
Proof.
  intros Hr. remember (mkManager _ _ _ _ _ _) as s0 eqn:E0.
  assert (Hs0 : shared_channel (data s0)) by (by subst s0). clear E0.
  assert (Hs : shared_channel (data s)) by (induction Hr; eauto using step_shared).
  destruct Hs as [_ Hd]. destruct (upstream_extended_channel (data s)) as [u|].
  - destruct Hd as (v & f & Hf & _ & [_ H0 H1 _ _] & Hall & Hdis). split; [|done].
    intros i c Hc. destruct (Hall _ _ Hc) as (part & Hp & Hl & _). exists u, part.
    split; [done|]. split; [done|]. rewrite Hf. split; [done|]. intros f' [= <-].
    unfold get_range0_len. rewrite H0, H1. cbn. lia.
  - rewrite Hd. split; [intros i c Hc; by rewrite lookup_empty in Hc|]. intros ???? Hc. by rewrite lookup_empty in Hc.
Qed.

(** ** Forwarded shares *)

Section forwarding.
Context `{Bitcoin} (chk : bool).

(** The header a share stands for on a channel with extranonce prefix [p]. *)
Definition share_block (p : bytes) (m : SubmitSharesExtended) (job : NewExtendedMiningJob) (tip : ChainTip)
    : option BlockHeader :=
  root ← merkle_root_from_path (xj_coinbase_tx_prefix job) (xj_coinbase_tx_suffix job) (p ++ se_extranonce m)
    (xj_merkle_path job);
  Some (share_header (se_version m) (se_ntime m) (se_nonce m) root tip).
Lemma next_sequence_upstream key s n s' :
  next_share_sequence_number chk key s = (Ok n, s') → to_upstream s' = to_upstream s.
Proof. unfold next_share_sequence_number. destruct (add_over _ _ _ _); by intros [= <- <-]. Qed.
(** What is sent for a share of a miner of the shared channel. *)
Lemma forward_aggregated m s s' u f c up w v :
  mode (data s) = Aggregated → upstream_extended_channel (data s) = Some u →
  extranonce_prefix_factory (data s) = Some f → extended_channels (data s) !! se_channel_id m = Some c →
  factory_at up w f → zlen (Client.x_extranonce_prefix c) = zlen up + zlen v →
  zdrop (zlen up) (Client.x_extranonce_prefix c) = v →
  forward_share chk m s = (Ok tt, s') →
  ∃ n, to_upstream s' = to_upstream s ++ [UpSubmit (with_forwarding (Client.x_channel_id u) n (v ++ se_extranonce m) m)].
Proof.
  intros Hm Hu Hf Hc Hfa Hl Hd E. unfold forward_share in E. rewrite st_gets_bind, Hm, Hu, Hf, Hc in E.
  apply st_bind_Ok in E as (m' & s1 & E1 & E). rewrite (send_upstream_sent _ _ _ E). clear E.
  apply st_bind_Ok in E1 as (n & s2 & E2 & E1). apply next_sequence_upstream in E2. cbn [unwrap] in E1.
  rewrite st_lift_bind in E1. apply st_bind_Ok in E1 as (e & s3 & E3 & E1). apply st_lift_Ok in E3 as [E3 ->].
  unfold adjusted in E3. assert (Hr : get_range0_len f = zlen up) by (unfold get_range0_len; rewrite (fa_range_0 _ _ _ Hfa); cbn; lia).
  pose proof (zlen_nonneg up). pose proof (zlen_nonneg v).
  rewrite Hr, (slice_from_ok (Client.x_extranonce_prefix c) (zlen up)), Hd in E3 by lia. cbn [mbind result_bind] in E3. destruct (32 <? _); [done|]. injection E3 as <-.
  exists n. injection E1 as <- <-. by rewrite E2.
Qed.
End forwarding.

(** C7 A share of a miner of the shared channel is forwarded as the work it
    is: in every state reached as above, a submitted share either fails the
    validation on its own channel and nothing is sent, or one share is sent
    under the pool's channel, with the miner's job, nonce, time and version,
    whose full extranonce, and so the block header on any job and chain tip, is
    the one the miner hashed. *)
Theorem forwarded_share_same_work `{Bitcoin} (chk : bool) (w : option (list bytes)) (s s' : Manager)
    (m : SubmitSharesExtended) (c : TChannel) :
  reaches chk (mkManager (ChannelManagerData_new Aggregated) [] [] true true w) s →
  extended_channels (data s) !! se_channel_id m = Some c →
  handle_submit_shares_extended chk m s = (Ok tt, s') →
  match (Client.Extended.validate_share chk m c).1 with
  | Ok _ => ∃ u m', upstream_extended_channel (data s) = Some u ∧
      to_upstream s' = to_upstream s ++ [UpSubmit m'] ∧
      se_channel_id m' = Client.x_channel_id u ∧ se_job_id m' = se_job_id m ∧
      Client.x_extranonce_prefix u ++ se_extranonce m' = Client.x_extranonce_prefix c ++ se_extranonce m ∧
      (∀ job tip, share_block (Client.x_extranonce_prefix u) m' job tip
                  = share_block (Client.x_extranonce_prefix c) m job tip)
  | _ => to_upstream s' = to_upstream s
  end.
Proof.
  intros Hr Hc E. remember (mkManager _ _ _ _ _ _) as s0 eqn:E0.
  assert (Hs0 : shared_channel (data s0)) by (by subst s0). clear E0.
  assert (Hs : shared_channel (data s)) by (clear Hc E; induction Hr; eauto using step_shared).
  unfold handle_submit_shares_extended in E. rewrite st_gets_bind, Hc in E.
  pose proof (λ p, prefixed_validate chk p m c) as Hkeep.
  destruct (Client.Extended.validate_share chk m c) as [r c']. cbn [fst snd] in *. rewrite st_modify_bind in E.
  destruct r; [|by injection E as <-|done]. destruct Hs as [Hm Hd].
  destruct (upstream_extended_channel (data s)) as [u|] eqn:Hu; [|by rewrite Hd in Hc].
  destruct Hd as (x & f & Hf & _ & Hfa & Hall & _). destruct (Hall _ _ Hc) as (v & Hp & Hl & _).
  pose proof (proj1 (Hkeep _ Hp)) as Hp'.
  eapply (forward_aggregated chk m _ s' u f c' (Client.x_extranonce_prefix u) x v) in E as [n E]; cbn;
    [|done..|by rewrite lookup_insert_eq|done|by rewrite Hp', zlen_app|by rewrite Hp', zdrop_app].
  exists u. eexists. split; [done|]. split; [exact E|]. split; [done|]. split; [done|]. cbn [se_extranonce with_forwarding].
  rewrite (proj1 Hp), <- app_assoc. split; [done|]. intros job tip. unfold share_block. cbn.
  by rewrite <- !app_assoc.
Qed.

(** ** Two requests pending *)

(** Two miners that connect before the pool has answered break the shared
    channel: both requests go to the pool, and its second answer replaces the
    shared channel while the first miner keeps its prefix.  A share of the
    first miner that its channel accepts is then sent under the second channel,
    where it stands for another coinbase than the one the miner hashed. *)
Theorem second_open_misroutes `{Bitcoin} (chk : bool) (w : option (list bytes)) (s s1 s2 : Manager)
    (u c : TChannel) (second : OpenSuccess) (m : SubmitSharesExtended) (r : Client.ShareValidationResult) :
  reaches chk (mkManager (ChannelManagerData_new Aggregated) [] [] true true w) s →
  upstream_extended_channel (data s) = Some u → extended_channels (data s) !! se_channel_id m = Some c →
  op_channel_id second ≠ se_channel_id m →
  zlen (op_extranonce_prefix second) = zlen (Client.x_extranonce_prefix u) →
  op_extranonce_prefix second ≠ Client.x_extranonce_prefix u →
  handle_open_extended_mining_channel_success second s = (Ok tt, s1) →
  (Client.Extended.validate_share chk m c).1 = Ok r →
  handle_submit_shares_extended chk m s1 = (Ok tt, s2) →
  ∃ m', to_upstream s2 = to_upstream s ++ [UpSubmit m'] ∧ se_channel_id m' = op_channel_id second ∧
    op_extranonce_prefix second ++ se_extranonce m' ≠ Client.x_extranonce_prefix c ++ se_extranonce m.
Proof.
  intros Hr Hu Hc Hid Hlen Hne E1 Hv E2. remember (mkManager _ _ _ _ _ _) as s0 eqn:E0.
  assert (Hs0 : shared_channel (data s0)) by (by subst s0). clear E0.
  assert (Hs : shared_channel (data s)) by (clear -Hr Hs0; induction Hr; eauto using step_shared).
  destruct Hs as [Hm Hd]. rewrite Hu in Hd. destruct Hd as (x & f & _ & _ & _ & Hall & _).
  destruct (Hall _ _ Hc) as (v & Hp & _). apply open_success_result in E1 as (Hup & u2 & f2 & w2 & c2 & Hd1 & Hi2 & Hp2 & Hfa2 & _); [|done].
  unfold handle_submit_shares_extended in E2. rewrite st_gets_bind, Hd1 in E2. cbn [extended_channels set_channels] in E2.
  rewrite lookup_insert_ne, Hc in E2 by done. pose proof (prefixed_validate chk _ m c Hp) as Hp'.
  destruct (Client.Extended.validate_share chk m c) as [r' c']. cbn [fst snd] in *. subst r'. rewrite st_modify_bind in E2.
  apply (forward_aggregated chk m _ s2 u2 f2 c' (op_extranonce_prefix second) w2 v) in E2 as [n E2];
    cbn; try rewrite Hd1; cbn; [|done..|by rewrite lookup_insert_eq|done|by rewrite (proj1 Hp'), zlen_app, Hlen|].
  - eexists. split; [rewrite <- Hup; exact E2|]. split; [exact Hi2|]. cbn. rewrite (proj1 Hp), <- app_assoc.
    intros He. apply app_inj_1 in He as [He _]; [done|]. unfold zlen in Hlen. lia.
  - by rewrite (proj1 Hp'), Hlen, zdrop_app.
Qed.

(** ** A miner that joins between a job and its activation *)

Section late.
Context `{Bitcoin} (chk : bool).

(** The channel knows nothing of job [j]. *)
Definition ignorant (j : Z) (c : TChannel) : Prop :=
  Client.x_future_jobs c !! j = None ∧ Client.x_past_jobs c !! j = None ∧
  (∀ a, Client.x_active_job c = Some a → xj_job_id a.1 ≠ j).
Lemma ignorant_new j i u p t h v n : ignorant j (Client.Extended.new i u p t h v n).
Proof. split; [apply lookup_empty|]. split; [apply lookup_empty|done]. Qed.
Lemma ignorant_job j m : xj_job_id m ≠ j → keeps (ignorant j) (Client.Extended.on_new_extended_mining_job m).
Proof.
  intros Hm c Hc. unfold Client.Extended.on_new_extended_mining_job, mbind, ST_bind, lift, gets. cbn.
  destruct (map_err _ _) as [[[a b]|]| |]; cbn; try done;
    [destruct (try_b064k _ a); cbn; try done; destruct (try_b064k _ b); cbn; try done|];
    (destruct (xj_min_ntime m); cbn; destruct Hc as (Hf & Hpast & Ha);
     [split; [done|]; split; [|by intros ? [= <-]]; cbn; destruct (Client.x_active_job c) as [old|]; [|done];
      by rewrite lookup_insert_ne by eauto
     |split; [cbn; by rewrite lookup_insert_ne|]; by split]).
Qed.
Lemma ignorant_quietly {E A} j (m : ST TChannel E A) c c' :
  keeps (ignorant j) m → ignorant j c → quietly m c = Ok c' → ignorant j c'.
Proof. intros Hm Hc. specialize (Hm c Hc). unfold quietly. by destruct (m c) as [[] ?]; intros [= <-]. Qed.
Lemma joined_ignorant m user u s s' i c j :
  extended_channels (data s) !! i = None → open_aggregated chk m user u s = (Ok tt, s') →
  (∀ a, Client.x_active_job u = Some a → xj_job_id a.1 ≠ j) → upstream_extended_channel (data s) = Some u →
  mode (data s') = mode (data s) ∧ upstream_extended_channel (data s') = Some u ∧
  (extended_channels (data s') !! i = Some c → ignorant j c).
Proof.
  intros Hi E Ha Hu. unfold open_aggregated in E. rewrite st_gets_bind in E.
  apply st_bind_Ok in E as (f & s1 & E1 & E). apply st_lift_Ok in E1 as [_ ->].
  destruct (next_prefix_extended _ f) as [pr f'].
  destruct pr as [p|e|]; [| |done]; unfold mbind at 1, ST_bind at 1, mret at 1, ST_ret at 1 in E; rewrite st_modify_bind in E;
    [|injection E as <-; cbn; by rewrite Hi].
  destruct (_ <=? _); [|injection E as <-; cbn; by rewrite Hi].
  apply st_bind_Ok in E as (k & s1 & E1 & E). apply st_lift_Ok in E1 as [_ ->]. rewrite st_modify_bind in E.
  apply st_bind_Ok in E as ([] & s2 & E2 & E). apply send_sv1_data in E2.
  destruct (Client.x_active_job u) as [[job q]|].
  - apply st_bind_Ok in E as (c' & s3 & E3 & E). apply st_lift_Ok in E3 as [E3 ->]. rewrite st_modify_bind in E.
    rewrite (send_sv1_data _ _ _ E). cbn. rewrite E2. split; [done|]. split; [done|]. cbn. intros Hc.
    apply lookup_insert_Some in Hc as [[_ <-]|[Hk Hc]]; [|by rewrite lookup_insert_ne, Hi in Hc].
    eapply ignorant_quietly, E3; [apply ignorant_job, (Ha _ eq_refl)|]. destruct (Client.x_chain_tip u); apply ignorant_new.
  - injection E as <-. rewrite E2. split; [done|]. split; [done|]. cbn. intros Hc.
    apply lookup_insert_Some in Hc as [[_ <-]|[_ Hc]]; [apply ignorant_new|by rewrite Hi in Hc].
Qed.
(** Its shares are dropped. *)
Lemma ignorant_share j m c :
  ignorant j c → se_job_id m = j → ∃ e, Client.Extended.validate_share chk m c = (Err e, c).
Proof.
  intros (_ & Hp & Ha) Hm. unfold Client.Extended.validate_share. rewrite st_gets_bind.
  unfold Client.Extended.find. rewrite Hm, Hp. case_bool_decide; [by eexists|].
  destruct (Client.x_active_job c) as [a|]; [|by eexists].
  rewrite (proj2 (Z.eqb_neq (xj_job_id a.1) j)) by (by apply Ha). by eexists.
Qed.
Lemma each_lookup f m m' i c : each f m = Ok m' → m !! i = Some c → ∃ c', f c = Ok c' ∧ m' !! i = Some c'.
Proof.
  unfold each. case_bool_decide as Hall; [|done]. intros [= <-] Hc. specialize (Hall _ _ Hc). cbn in Hall.
  destruct (f c) as [c'| |] eqn:Hf; [|done..]. exists c'. split; [done|]. rewrite lookup_omap, Hc. cbn. by rewrite Hf.
Qed.
End late.

(** A miner that joins the shared channel after the pool has announced a
    job for the next block and before the block arrives is told that job but
    cannot be paid for it: its channel was not given the pending job, so when
    the pool activates it every share the miner finds on it is dropped by the
    translator, until the pool sends a further job. *)
Theorem late_joiner_shares_dropped `{Bitcoin} (chk : bool) (s s1 s2 : Manager) (u c : TChannel)
    (job : NewExtendedMiningJob) (p : bytes) (open : OpenExtendedMiningChannel) (ph : SetNewPrevHashMp)
    (m : SubmitSharesExtended) :
  mode (data s) = Aggregated → upstream_extended_channel (data s) = Some u →
  Client.x_future_jobs u !! ph_job_id ph = Some (job, p) →
  (∀ a, Client.x_active_job u = Some a → xj_job_id a.1 ≠ ph_job_id ph) →
  extended_channels (data s) !! se_channel_id m = None →
  handle_open_extended_mining_channel chk open s = (Ok tt, s1) →
  extended_channels (data s1) !! se_channel_id m = Some c →
  handle_set_new_prev_hash ph s1 = (Ok tt, s2) →
  se_job_id m = ph_job_id ph →
  SvNewExtendedMiningJob (with_channel_id 0 (Client.with_min_ntime (ph_min_ntime ph) job)) ∈ to_sv1 s2 ∧
  ∃ s3, handle_submit_shares_extended chk m s2 = (Ok tt, s3) ∧ to_upstream s3 = to_upstream s2.
Proof.
  intros Hm Hu Hj Ha Hi E1 Hc E2 Hid. unfold handle_open_extended_mining_channel in E1.
  rewrite st_gets_bind, Hm, Hu in E1. eapply (joined_ignorant chk _ _ _ _ _ _ c) in E1 as (Hm1 & Hu1 & Hig); [|done..].
  specialize (Hig Hc). rewrite Hm in Hm1. unfold handle_set_new_prev_hash in E2.
  apply st_bind_Ok in E2 as ([] & s4 & E3 & E2). unfold on_channels in E3. rewrite st_gets_bind, Hm1, Hu1 in E3.
  apply st_bind_Ok in E3 as ([] & s5 & E4 & E3). unfold quietly at 1, Client.Extended.on_set_new_prev_hash at 1 in E4.
  rewrite Hj in E4. injection E4 as <-. apply st_bind_Ok in E3 as (chs & s6 & E4 & E3). apply st_lift_Ok in E4 as [E4 ->].
  destruct (each_lookup _ _ _ _ _ E4 Hc) as (c' & E5 & Hc'). unfold quietly, Client.Extended.on_set_new_prev_hash in E5.
  rewrite (proj1 Hig) in E5. injection E5 as <-. injection E3 as <-.
  apply st_bind_Ok in E2 as ([] & s7 & E5 & E2). apply send_sv1_data in E5. rewrite st_gets_bind, E5 in E2.
  unfold active_job in E2. cbn in E2. rewrite Hm1 in E2. cbn in E2. pose proof (send_sv1_data _ _ _ E2) as Hd.
  rewrite E5 in Hd. split.
  - unfold send_sv1 in E2. rewrite st_gets_bind in E2. destruct (sv1_open s7); [|done]. injection E2 as <-. cbn. set_solver.
  - unfold handle_submit_shares_extended. rewrite st_gets_bind, Hd. cbn. rewrite Hc'.
    destruct (ignorant_share chk _ m c Hig Hid) as [e ->]. rewrite st_modify_bind. by eexists.
Qed.

(** ** Examples *)

#[local] Existing Instance model_bitcoin.

(** A run, checked step by step. *)
Fixpoint run (l : list Event) (s : Manager) : option Manager :=
  match l with
  | [] => Some s
  | e :: l =>
      let legal := match e with
                   | FromPool (FsOpenExtendedSuccess _) | FromPool (FsCloseChannel _) =>
                       match upstream_extended_channel (data s) with None => true | Some _ => false end
                   | _ => true
                   end in
      match step false e s with
      | (Ok tt, s) => if legal then run l s else None
      | _ => None
      end
  end.
Lemma run_reaches l s s' : run l s = Some s' → reaches false s s'.
Proof.
  revert s. induction l as [|e l IH]; intros s; cbn [run]; [intros [= ->]; constructor|].
  destruct (step false e s) as [[[]| |] s1] eqn:E; [|done..]. destruct (match e with FromPool _ => _ | _ => _ end) eqn:Hl; [|done].
  intros Hr. econstructor; [|exact E|by apply IH].
  destruct e as [[]|m|q|]; try done; cbn; by destruct (upstream_extended_channel (data s)).
Qed.
Definition start : Manager := mkManager (ChannelManagerData_new Aggregated) [] [] true true None.
Definition open_request (i : Z) : Event :=
  FromMiners (SvOpen (mkOpenExtended i (text "worker.1") sample_rate (to_le_bytes 32 (2 ^ 255)) 4)).
Definition opened_as (request channel pool_prefix : Z) : OpenSuccess :=
  mkOpenSuccess request channel (to_le_bytes 32 (2 ^ 255)) 24 (to_le_bytes 8 pool_prefix).
Definition sample_job (i : Z) : NewExtendedMiningJob :=
  mkNewExtendedMiningJob 1 i (Some 1700000000) 0x20000000 true [to_le_bytes 32 5]
    (xj_coinbase_tx_prefix (ej_job_message pair_job)) (xj_coinbase_tx_suffix (ej_job_message pair_job)).
Definition sample_tip : SetNewPrevHashMp := mkPrevHashMp 1 1 (to_le_bytes 32 3) 1700000000 5.
Definition future (m : NewExtendedMiningJob) : NewExtendedMiningJob :=
  mkNewExtendedMiningJob (xj_channel_id m) (xj_job_id m) None (xj_version m) (xj_version_rolling_allowed m)
    (xj_merkle_path m) (xj_coinbase_tx_prefix m) (xj_coinbase_tx_suffix m).
(** A first miner opens the channel, gets a job and a second one joins. *)
Definition busy_run : list Event :=
  [open_request 1; FromPool (FsOpenExtendedSuccess (opened_as 1 1 9));
   FromPool (FsNewExtendedMiningJob (future (sample_job 1))); FromPool (FsSetNewPrevHash sample_tip);
   open_request 2].
Definition busy : Manager := default start (run busy_run start).
Definition share_on (channel job : Z) : SubmitSharesExtended :=
  mkSubmitExtended channel 4 job 2 1700000001 0x20000000 (to_le_bytes 4 77).
Lemma busy_reached : reaches false start busy.
Proof. apply (run_reaches busy_run). by vm_compute. Qed.
Definition no_channel : TChannel := Client.Extended.new 0 [] [] sample_max sample_rate true 0.
Definition channel_of (i : Z) (s : Manager) : TChannel := default no_channel (extended_channels (data s) !! i).

Lemma shared_channel_prefixes_witness :
  (λ c, Client.x_extranonce_prefix c) <$> extended_channels (data busy) !! 1 = Some (to_le_bytes 8 9 ++ to_be_bytes 20 1) ∧
  (λ c, Client.x_extranonce_prefix c) <$> extended_channels (data busy) !! 2 = Some (to_le_bytes 8 9 ++ to_be_bytes 20 2) ∧
  distinct (extended_channels (data busy)).
Proof.
  split; [by vm_compute|]. split; [by vm_compute|].
  refine (proj2 (shared_channel_prefixes false None busy _)). exact busy_reached.
Defined.

Definition after_share (m : SubmitSharesExtended) (s : Manager) : Manager := (handle_submit_shares_extended false m s).2.
Lemma forwarded_share_same_work_witness :
  (Client.Extended.validate_share false (share_on 2 1) (channel_of 2 busy)).1 = Ok Client.BlockFound ∧
  to_upstream (after_share (share_on 2 1) busy)
    = to_upstream busy ++ [UpSubmit (with_forwarding 1 1 (to_be_bytes 20 2 ++ to_le_bytes 4 77) (share_on 2 1))] ∧
  match (Client.Extended.validate_share false (share_on 2 1) (channel_of 2 busy)).1 with
  | Ok _ => ∃ u m', upstream_extended_channel (data busy) = Some u ∧
      to_upstream (after_share (share_on 2 1) busy) = to_upstream busy ++ [UpSubmit m'] ∧
      se_channel_id m' = Client.x_channel_id u ∧ se_job_id m' = se_job_id (share_on 2 1) ∧
      Client.x_extranonce_prefix u ++ se_extranonce m'
        = Client.x_extranonce_prefix (channel_of 2 busy) ++ se_extranonce (share_on 2 1) ∧
      (∀ job tip, share_block (Client.x_extranonce_prefix u) m' job tip
                  = share_block (Client.x_extranonce_prefix (channel_of 2 busy)) (share_on 2 1) job tip)
  | _ => to_upstream (after_share (share_on 2 1) busy) = to_upstream busy
  end.
Proof.
  split; [by vm_compute|]. split; [by vm_compute|].
  apply (forwarded_share_same_work false None busy (after_share (share_on 2 1) busy) (share_on 2 1)
           (channel_of 2 busy) busy_reached); vm_compute; reflexivity.
Defined.

(** Two requests, and the pool's answer to the first one. *)
Definition racing_run : list Event :=
  [open_request 1; open_request 2; FromPool (FsOpenExtendedSuccess (opened_as 1 1 9));
   FromPool (FsNewExtendedMiningJob (future (sample_job 1))); FromPool (FsSetNewPrevHash sample_tip)].
Definition racing : Manager := default start (run racing_run start).
Lemma racing_reached : reaches false start racing.
Proof. apply (run_reaches racing_run). by vm_compute. Qed.
Definition raced : Manager := (handle_open_extended_mining_channel_success (opened_as 2 7 10) racing).2.
Lemma second_open_misroutes_witness :
  ∃ m', to_upstream (after_share (share_on 1 1) raced) = to_upstream racing ++ [UpSubmit m'] ∧
    se_channel_id m' = op_channel_id (opened_as 2 7 10) ∧
    op_extranonce_prefix (opened_as 2 7 10) ++ se_extranonce m'
      ≠ Client.x_extranonce_prefix (channel_of 1 racing) ++ se_extranonce (share_on 1 1).
Proof.
  apply (second_open_misroutes false None racing raced (after_share (share_on 1 1) raced)
    (default no_channel (upstream_extended_channel (data racing))) (channel_of 1 racing) (opened_as 2 7 10)
    (share_on 1 1) Client.BlockFound racing_reached); vm_compute; first [reflexivity|discriminate].
Defined.

(** A job for the next block is pending when the second miner joins. *)
Definition pending_job : Manager :=
  default start (run [open_request 1; FromPool (FsOpenExtendedSuccess (opened_as 1 1 9));
    FromPool (FsNewExtendedMiningJob (future (sample_job 1)))] start).
Definition joined : Manager := (step false (open_request 2) pending_job).2.
Definition activated : Manager := (handle_set_new_prev_hash sample_tip joined).2.
Lemma late_joiner_shares_dropped_witness :
  SvNewExtendedMiningJob (with_channel_id 0 (Client.with_min_ntime (ph_min_ntime sample_tip) (future (sample_job 1)))) ∈ to_sv1 activated ∧
  ∃ s, handle_submit_shares_extended false (share_on 2 1) activated = (Ok tt, s) ∧ to_upstream s = to_upstream activated.
Proof.
  apply (late_joiner_shares_dropped false pending_job joined activated
    (default no_channel (upstream_extended_channel (data pending_job))) (channel_of 2 joined)
    (future (sample_job 1)) (to_le_bytes 8 9) (mkOpenExtended 2 (text "worker.1") sample_rate (to_le_bytes 32 (2 ^ 255)) 4)
    sample_tip (share_on 2 1)); vm_compute; first [reflexivity|discriminate].
Defined.
