(* ===== verification/Sv1Miner.v ===== *)
(** * A V1 miner of the translator

    [roles/translator/src/lib/sv1/downstream]: the data of a connection
    ([data.rs]), its V1 handlers ([message_handler.rs], an instance of
    [IsServer]), and the two message loops of its task ([downstream.rs]); the
    check of a V1 share is [utils.rs].  The jobs a share may refer to belong to
    the V1 server and are read only here.  What is sent to the miner and to the
    server is recorded in lists; the counters of the miner statistics are left
    out. *)

From stdpp Require Import gmap.
From S2P Require Import Prelude Mining Difficulty Bitcoin Jobs Channels Downstream ClientChannels Sv1 Translation Translator.
#[local] Open Scope Z_scope.
#[local] Open Scope list_scope.

Record SubmitShareWithChannelId : Type := mkShareWithChannel {
  sw_channel_id : Z;
  sw_downstream_id : Z;
  sw_share : V1Client.Submit;
  sw_extranonce : bytes;
  sw_extranonce2_len : Z;
  sw_version_rolling_mask : option Z;
  sw_job_version : option Z }.
Inductive DownstreamMessages : Type :=
  | SubmitShares (m : SubmitShareWithChannelId)
  | OpenChannel (downstream_id : Z).

Record DownstreamData : Type := mkDownstreamData {
  d_channel_id : option Z;
  d_downstream_id : Z;
  d_extranonce1 : bytes;
  d_extranonce2_len : Z;
  d_version_rolling_mask : option Z;
  d_version_rolling_min_bit : option Z;
  d_last_job_version_field : option Z;
  d_authorized_worker_name : bytes;
  d_user_identity : bytes;
  d_target : Target;
  d_hashrate : option f32;
  d_cached_set_difficulty : option Message;
  d_cached_notify : option Message;
  d_pending_target : option Target;
  d_pending_hashrate : option f32;
  d_handshake_complete : bool;
  d_queued : list Message;
  d_processing_queued : bool;
  d_pending_share : option SubmitShareWithChannelId;
  d_upstream_target : option Target }.
Definition DownstreamData_new (downstream_id : Z) (target : Target) (hashrate : option f32) : DownstreamData :=
  mkDownstreamData None downstream_id (replicate 8 Byte.x00) 4 None None None [] [] target hashrate None None None None false []
    false None None.
Definition set_opened (extranonce1 : bytes) (extranonce2_len channel_id : Z) (upstream_target : Target) (d : DownstreamData) : DownstreamData :=
  mkDownstreamData (Some channel_id) (d_downstream_id d) extranonce1 extranonce2_len (d_version_rolling_mask d)
    (d_version_rolling_min_bit d) (d_last_job_version_field d) (d_authorized_worker_name d)
    (d_user_identity d) (d_target d) (d_hashrate d) (d_cached_set_difficulty d) (d_cached_notify d)
    (d_pending_target d) (d_pending_hashrate d) (d_handshake_complete d) (d_queued d)
    (d_processing_queued d) (d_pending_share d) (Some upstream_target).
Definition set_rolling (mask min_bit : option Z) (d : DownstreamData) : DownstreamData :=
  mkDownstreamData (d_channel_id d) (d_downstream_id d) (d_extranonce1 d) (d_extranonce2_len d) mask min_bit
    (d_last_job_version_field d) (d_authorized_worker_name d) (d_user_identity d) (d_target d)
    (d_hashrate d) (d_cached_set_difficulty d) (d_cached_notify d) (d_pending_target d)
    (d_pending_hashrate d) (d_handshake_complete d) (d_queued d) (d_processing_queued d)
    (d_pending_share d) (d_upstream_target d).
Definition set_last_job_version (version : Z) (d : DownstreamData) : DownstreamData :=
  mkDownstreamData (d_channel_id d) (d_downstream_id d) (d_extranonce1 d) (d_extranonce2_len d)
    (d_version_rolling_mask d) (d_version_rolling_min_bit d) (Some version)
    (d_authorized_worker_name d) (d_user_identity d) (d_target d) (d_hashrate d)
    (d_cached_set_difficulty d) (d_cached_notify d) (d_pending_target d) (d_pending_hashrate d)
    (d_handshake_complete d) (d_queued d) (d_processing_queued d) (d_pending_share d)
    (d_upstream_target d).
Definition set_worker_name (name : bytes) (d : DownstreamData) : DownstreamData :=
  mkDownstreamData (d_channel_id d) (d_downstream_id d) (d_extranonce1 d) (d_extranonce2_len d)
    (d_version_rolling_mask d) (d_version_rolling_min_bit d) (d_last_job_version_field d) name
    (d_user_identity d) (d_target d) (d_hashrate d) (d_cached_set_difficulty d) (d_cached_notify d)
    (d_pending_target d) (d_pending_hashrate d) (d_handshake_complete d) (d_queued d)
    (d_processing_queued d) (d_pending_share d) (d_upstream_target d).
Definition set_user_identity (name : bytes) (d : DownstreamData) : DownstreamData :=
  mkDownstreamData (d_channel_id d) (d_downstream_id d) (d_extranonce1 d) (d_extranonce2_len d)
    (d_version_rolling_mask d) (d_version_rolling_min_bit d) (d_last_job_version_field d)
    (d_authorized_worker_name d) name (d_target d) (d_hashrate d) (d_cached_set_difficulty d)
    (d_cached_notify d) (d_pending_target d) (d_pending_hashrate d) (d_handshake_complete d)
    (d_queued d) (d_processing_queued d) (d_pending_share d) (d_upstream_target d).
Definition set_current (target : Target) (hashrate : option f32) (d : DownstreamData) : DownstreamData :=
  mkDownstreamData (d_channel_id d) (d_downstream_id d) (d_extranonce1 d) (d_extranonce2_len d)
    (d_version_rolling_mask d) (d_version_rolling_min_bit d) (d_last_job_version_field d)
    (d_authorized_worker_name d) (d_user_identity d) target hashrate (d_cached_set_difficulty d)
    (d_cached_notify d) (d_pending_target d) (d_pending_hashrate d) (d_handshake_complete d)
    (d_queued d) (d_processing_queued d) (d_pending_share d) (d_upstream_target d).
Definition set_cached (set_difficulty notify : option Message) (d : DownstreamData) : DownstreamData :=
  mkDownstreamData (d_channel_id d) (d_downstream_id d) (d_extranonce1 d) (d_extranonce2_len d)
    (d_version_rolling_mask d) (d_version_rolling_min_bit d) (d_last_job_version_field d)
    (d_authorized_worker_name d) (d_user_identity d) (d_target d) (d_hashrate d) set_difficulty notify
    (d_pending_target d) (d_pending_hashrate d) (d_handshake_complete d) (d_queued d)
    (d_processing_queued d) (d_pending_share d) (d_upstream_target d).
Definition set_pending (target : option Target) (hashrate : option f32) (d : DownstreamData) : DownstreamData :=
  mkDownstreamData (d_channel_id d) (d_downstream_id d) (d_extranonce1 d) (d_extranonce2_len d)
    (d_version_rolling_mask d) (d_version_rolling_min_bit d) (d_last_job_version_field d)
    (d_authorized_worker_name d) (d_user_identity d) (d_target d) (d_hashrate d)
    (d_cached_set_difficulty d) (d_cached_notify d) target hashrate (d_handshake_complete d)
    (d_queued d) (d_processing_queued d) (d_pending_share d) (d_upstream_target d).
Definition set_handshake (complete queued_responses : bool) (d : DownstreamData) : DownstreamData :=
  mkDownstreamData (d_channel_id d) (d_downstream_id d) (d_extranonce1 d) (d_extranonce2_len d)
    (d_version_rolling_mask d) (d_version_rolling_min_bit d) (d_last_job_version_field d)
    (d_authorized_worker_name d) (d_user_identity d) (d_target d) (d_hashrate d)
    (d_cached_set_difficulty d) (d_cached_notify d) (d_pending_target d) (d_pending_hashrate d)
    complete (d_queued d) queued_responses (d_pending_share d) (d_upstream_target d).
Definition set_queued (messages : list Message) (d : DownstreamData) : DownstreamData :=
  mkDownstreamData (d_channel_id d) (d_downstream_id d) (d_extranonce1 d) (d_extranonce2_len d)
    (d_version_rolling_mask d) (d_version_rolling_min_bit d) (d_last_job_version_field d)
    (d_authorized_worker_name d) (d_user_identity d) (d_target d) (d_hashrate d)
    (d_cached_set_difficulty d) (d_cached_notify d) (d_pending_target d) (d_pending_hashrate d)
    (d_handshake_complete d) messages (d_processing_queued d) (d_pending_share d) (d_upstream_target d).
Definition set_share (share : option SubmitShareWithChannelId) (d : DownstreamData) : DownstreamData :=
  mkDownstreamData (d_channel_id d) (d_downstream_id d) (d_extranonce1 d) (d_extranonce2_len d)
    (d_version_rolling_mask d) (d_version_rolling_min_bit d) (d_last_job_version_field d)
    (d_authorized_worker_name d) (d_user_identity d) (d_target d) (d_hashrate d)
    (d_cached_set_difficulty d) (d_cached_notify d) (d_pending_target d) (d_pending_hashrate d)
    (d_handshake_complete d) (d_queued d) (d_processing_queued d) share (d_upstream_target d).
Definition set_upstream_target (t : Target) (d : DownstreamData) : DownstreamData :=
  mkDownstreamData (d_channel_id d) (d_downstream_id d) (d_extranonce1 d) (d_extranonce2_len d)
    (d_version_rolling_mask d) (d_version_rolling_min_bit d) (d_last_job_version_field d)
    (d_authorized_worker_name d) (d_user_identity d) (d_target d) (d_hashrate d)
    (d_cached_set_difficulty d) (d_cached_notify d) (d_pending_target d) (d_pending_hashrate d)
    (d_handshake_complete d) (d_queued d) (d_processing_queued d) (d_pending_share d) (Some t).

(** ** The check of a share *)

(** The jobs of [Sv1ServerData]: shared in aggregated mode, else per channel. *)
Record ValidJobs : Type := mkValidJobs {
  aggregated_valid_jobs : option (list V1Server.Notify);
  non_aggregated_valid_jobs : option (gmap Z (list V1Server.Notify)) }.
Definition find_in (job_id : bytes) (l : list V1Server.Notify) : option V1Server.Notify :=
  find (λ j, bool_decide (V1Server.job_id j = job_id)) l.
Definition find_job (channel_id : Z) (job_id : bytes) (jobs : ValidJobs) : option V1Server.Notify :=
  match aggregated_valid_jobs jobs with
  | Some l => find_in job_id l
  | None => m ← non_aggregated_valid_jobs jobs; l ← m !! channel_id; find_in job_id l
  end.

Definition DEFAULT_ROLLING_MASK : Z := 0x1FFFE000.
Definition sv1_header `{Bitcoin} (share : V1Client.Submit) (extranonce1 : bytes) (version_rolling_mask : option Z)
    (job : V1Server.Notify) : result TproxyError BlockHeader :=
  let full_extranonce := extranonce1 ++ V1Client.extra_nonce2 share in
  let share_version := default (V1Server.version job) (V1Client.version_bits share) in
  let mask := default DEFAULT_ROLLING_MASK version_rolling_mask in
  let version := rolled_version (V1Server.version job) mask share_version in
  if negb (zlen (V1Server.prev_hash job) =? 32) then Err TpBinarySv2
  else
    merkle_root ← ok_or (merkle_root_from_path (V1Server.coin_base1 job) (V1Server.coin_base2 job) full_extranonce
                           (V1Server.merkle_branch job)) InvalidMerkleRoot;
    if negb (zlen merkle_root =? 32) then Err InvalidMerkleRoot
    else Ok (mkBlockHeader version (V1Server.prev_hash job) merkle_root (V1Client.time share)
               (V1Server.bits job) (V1Client.nonce share)).
Definition validate_sv1_share `{Bitcoin} (share : V1Client.Submit) (target : Target) (extranonce1 : bytes)
    (version_rolling_mask : option Z) (jobs : ValidJobs) (channel_id : Z) : result TproxyError bool :=
  job ← ok_or (find_job channel_id (V1Client.job_id share) jobs) TpJobNotFound;
  header ← sv1_header share extranonce1 version_rolling_mask job;
  Ok (Client.Target_lt (Target_from_bytes (block_hash header)) target).

(** ** The handlers of a miner's requests *)

Section handlers.
Context `{Bitcoin}.
(** A connection's data and the server's jobs. *)
Notation Session := (ValidJobs * DownstreamData)%type.
Definition on_down (f : DownstreamData → DownstreamData) (s : Session) : Session := (s.1, f s.2).

Definition down_handle_configure (request : V1Client.Configure)
    : ST Session V1Error (option V1Server.VersionRollingParams * option bool) :=
  let mask := (λ m, Z.land m DEFAULT_ROLLING_MASK) <$> V1Client.version_rolling_mask request in
  let min_bit := V1Client.version_rolling_min_bit_count request in
  _ ← modify (on_down (set_rolling mask min_bit));
  match V1Server.VersionRollingParams_new (default 0 mask) (default 0 min_bit) with
  | Ok p => mret (Some p, Some false)
  | _ => panic
  end.
Definition down_handle_subscribe (request : V1Client.Subscribe) (s : Session) : list (bytes * bytes) :=
  [(text "mining.set_difficulty", decimal (d_downstream_id s.2));
   (text "mining.notify", text "ae6812eb4cd7735a302a8a9dd95cf71f")].
Definition down_handle_submit (request : V1Client.Submit) : ST Session V1Error bool := λ s,
  let d := s.2 in
  match d_channel_id d with
  | None => (Ok false, s)
  | Some channel_id =>
      match validate_sv1_share request (d_target d) (d_extranonce1 d) (d_version_rolling_mask d) s.1 channel_id with
      | Ok true =>
          let to_send := mkShareWithChannel channel_id (d_downstream_id d) request (d_extranonce1 d)
                           (d_extranonce2_len d) (d_version_rolling_mask d) (d_last_job_version_field d) in
          (Ok true, on_down (set_share (Some to_send)) s)
      | Ok false | Err _ => (Ok false, s)
      | Panic => (Panic, s)
      end
  end.
Definition down_is_authorized (name : bytes) (s : Session) : bool :=
  bool_decide (d_authorized_worker_name s.2 = name).
Definition down_authorize (name : bytes) (s : Session) : Session :=
  if down_is_authorized name s then s else on_down (set_worker_name name) s.
Definition down_extranonce1 : ST Session V1Error bytes := λ s,
  match Extranonce_try_from (d_extranonce1 s.2) with Ok e => (Ok e, s) | _ => (Panic, s) end.
#[global] Instance Downstream_IsServer : IsServer Session := {|
  handle_configure := down_handle_configure;
  handle_subscribe := down_handle_subscribe;
  handle_authorize _ _ := true;
  handle_submit := down_handle_submit;
  is_authorized := down_is_authorized;
  authorize := down_authorize;
  set_extranonce1 _ := down_extranonce1;
  set_extranonce2_size _ := gets (λ s, d_extranonce2_len s.2);
  extranonce2_size s := d_extranonce2_len s.2;
  server_version_rolling_mask s := d_version_rolling_mask s.2;
  set_version_rolling_mask mask := on_down (λ d, set_rolling mask (d_version_rolling_min_bit d) d);
  set_version_rolling_min_bit mask := on_down (λ d, set_rolling (d_version_rolling_mask d) mask d) |}.
End handlers.

(** ** The task of a connection *)

Record Miner : Type := mkMiner {
  downstream_data : DownstreamData;
  to_miner : list Message;
  to_server : list DownstreamMessages;
  miner_open : bool;
  server_open : bool }.
Definition on_dd (f : DownstreamData → DownstreamData) (s : Miner) : Miner :=
  mkMiner (f (downstream_data s)) (to_miner s) (to_server s) (miner_open s) (server_open s).

Section task.
Context `{Bitcoin} `{Hex}.
Notation MINER := (ST Miner TproxyError).

Definition send_miner (m : Message) : MINER unit :=
  open ← gets miner_open;
  if (open : bool)
  then modify (λ s, mkMiner (downstream_data s) (to_miner s ++ [m]) (to_server s) (miner_open s) (server_open s))
  else throw ChannelErrorSender.
Definition send_server (m : DownstreamMessages) : MINER unit :=
  open ← gets server_open;
  if (open : bool)
  then modify (λ s, mkMiner (downstream_data s) (to_miner s) (to_server s ++ [m]) (miner_open s) (server_open s))
  else throw ChannelErrorSender.

(** The target and hash rate that go with a difficulty that is being sent. *)
Definition apply_pending (d : DownstreamData) : DownstreamData :=
  set_pending None None
    (set_current (default (d_target d) (d_pending_target d))
       (match d_pending_hashrate d with Some h => Some h | None => d_hashrate d end) d).
Definition clean (n : V1Server.Notify) : V1Server.Notify :=
  V1Server.mkNotify (V1Server.job_id n) (V1Server.prev_hash n) (V1Server.coin_base1 n) (V1Server.coin_base2 n)
    (V1Server.merkle_branch n) (V1Server.version n) (V1Server.bits n) (V1Server.time n) true.
Definition send_cached (m : option Message) : MINER unit :=
  match m with Some m => send_miner m | None => mret tt end.

(** [mining.notify] to a miner that is ready: a cached difficulty goes first. *)
Definition deliver_notify (n : Notification) : MINER unit :=
  d ← gets downstream_data;
  let cached := d_cached_set_difficulty d in
  _ ← modify (on_dd (λ d, set_cached None (d_cached_notify d) d));
  match V1Server.Notify_try_from n with
  | Panic => panic
  | Err _ => send_cached cached
  | Ok notify =>
      let notify := match cached with Some _ => clean notify | None => notify end in
      _ ← modify (on_dd (set_last_job_version (V1Server.version notify)));
      _ ← modify (on_dd (match cached with Some _ => apply_pending | None => id end));
      _ ← send_cached cached;
      send_miner (MNotification (V1Server.Notify_message notify))
  end.
(** A message the server broadcasts. *)
Definition handle_sv1_server_message (channel_id : Z) (downstream_id : option Z) (message : Message) : MINER unit :=
  d ← gets downstream_data;
  let for_channel := bool_decide (d_channel_id d = Some channel_id) || (channel_id =? 0) in
  let for_me := match downstream_id with None => true | Some i => i =? d_downstream_id d end in
  if negb (for_channel && for_me) then mret tt
  else if d_handshake_complete d || d_processing_queued d then
    match message with
    | MNotification n =>
        if bool_decide (nt_method n = text "mining.set_difficulty")
        then modify (on_dd (λ d, set_cached (Some message) (d_cached_notify d) d))
        else if bool_decide (nt_method n = text "mining.notify") then deliver_notify n
        else send_miner message
    | _ => send_miner message
    end
  else
    match message with
    | MNotification n =>
        if bool_decide (nt_method n = text "mining.set_difficulty")
        then modify (on_dd (λ d, set_cached (Some message) (d_cached_notify d) d))
        else if bool_decide (nt_method n = text "mining.notify") then
          _ ← modify (on_dd (λ d, set_cached (d_cached_set_difficulty d) (Some message) d));
          match V1Server.Notify_try_from n with
          | Ok notify => modify (on_dd (set_last_job_version (V1Server.version notify)))
          | _ => panic
          end
        else mret tt
    | _ => mret tt
    end.

Definition handle_sv1_handshake_completion : MINER unit :=
  d ← gets downstream_data;
  let set_difficulty := d_cached_set_difficulty d in
  let notify := d_cached_notify d in
  _ ← modify (on_dd (λ d, set_cached None None (set_handshake true (d_processing_queued d) d)));
  _ ← match set_difficulty with
      | Some m => _ ← send_miner m; modify (on_dd apply_pending)
      | None => mret tt
      end;
  send_cached notify.
Definition is_authorize (m : Message) : bool :=
  match m with MStandardRequest r => bool_decide (rq_method r = text "mining.authorize") | _ => false end.
Definition forward_pending_share : MINER unit :=
  d ← gets downstream_data;
  _ ← modify (on_dd (set_share None));
  match d_pending_share d with
  | Some share => send_server (SubmitShares share)
  | None => mret tt
  end.
(** A message the miner sends. *)
Definition handle_downstream_message (jobs : ValidJobs) (message : Message) : MINER unit :=
  d ← gets downstream_data;
  match d_channel_id d with
  | None =>
      _ ← match d_queued d with [] => send_server (OpenChannel (d_downstream_id d)) | _ :: _ => mret tt end;
      modify (on_dd (set_queued (d_queued d ++ [message])))
  | Some _ =>
      let '(response, (_, d)) := handle_message message (jobs, d) in
      _ ← modify (on_dd (λ _, d));
      _ ← match response with
          | Panic => panic
          | Err _ => throw SV1Error
          | Ok None => mret tt
          | Ok (Some response) =>
              _ ← send_miner (Message_of_Response response);
              if is_authorize message then handle_sv1_handshake_completion else mret tt
          end;
      forward_pending_share
  end.
End task.
