(* ===== verification/Sv1Client.v ===== *)
(** * Stratum V1 clients

    [protocols/v1/src/lib.rs]: the handler of a client ([IsClient]), and the
    CPU miner built on it, [roles/test-utils/mining-device-sv1/src]: its
    connection ([client.rs]), its jobs ([job.rs]) and the search for shares
    ([miner.rs]).  Lines of text are read and written by serde; a message is
    its JSON-RPC value.  Messages sent are recorded in a list. *)

From stdpp Require Import gmap.
From S2P Require Import Prelude Mining Difficulty Bitcoin Jobs Sv1.
From Stdlib Require Import SpecFloat.
#[local] Open Scope Z_scope.
#[local] Open Scope list_scope.

Inductive ClientStatus : Type := Init | Configured | Subscribed.
#[global] Instance ClientStatus_eq_dec : EqDecision ClientStatus.
Proof. solve_decision. Defined.

(** What a client provides.  [client_handle_configure] may change the answer
    it is given. *)
Class IsClient (S : Type) : Type := {
  client_handle_error_message : Message → ST S V1Error (option Message);
  id_is_authorize : Z → S → option bytes;
  id_is_submit : Z → S → bool;
  client_handle_notify : V1Server.Notify → ST S V1Error unit;
  client_handle_configure : V1Server.Configure → ST S V1Error V1Server.Configure;
  client_handle_set_difficulty : f64 → ST S V1Error unit;
  client_handle_set_extranonce : V1Server.SetExtranonce → ST S V1Error unit;
  client_handle_set_version_mask : Z → ST S V1Error unit;
  client_handle_subscribe : V1Server.Subscribe → ST S V1Error unit;
  client_set_extranonce1 : bytes → S → S;
  client_set_extranonce2_size : Z → S → S;
  client_version_rolling_mask : S → option Z;
  client_version_rolling_min_bit : S → option Z;
  client_set_version_rolling_mask : option Z → S → S;
  client_set_version_rolling_min_bit : option Z → S → S;
  client_set_status : ClientStatus → S → S;
  client_signature : S → bytes;
  client_status : S → ClientStatus;
  last_notify : S → option V1Server.Notify;
  client_is_authorized : bytes → S → bool;
  authorize_user_name : bytes → S → S }.

Section client.
Context `{Hex} {S : Type} `{IsClient S}.
Notation CL := (ST S V1Error).

(** ** Requests *)

Definition client_configure (id : Z) (s : S) : Message :=
  MStandardRequest (V1Client.Configure_message
    match client_version_rolling_min_bit s, client_version_rolling_mask s with
    | None, None => V1Client.Configure_void id
    | min_bit, mask => V1Client.Configure_new id mask min_bit
    end).
Definition client_subscribe (id : Z) (extranonce1 : option bytes) (s : S) : result V1Error Message :=
  match client_status s with
  | Init => Err (IncorrectClientStatus (text "mining.subscribe"))
  | _ => Ok (MStandardRequest (V1Client.Subscribe_message (V1Client.mkSubscribe id (client_signature s) extranonce1)))
  end.
Definition client_authorize (id : Z) (name password : bytes) (s : S) : result V1Error Message :=
  match client_status s with
  | Init => Err (IncorrectClientStatus (text "mining.authorize"))
  | _ => Ok (MStandardRequest (V1Client.Authorize_message (V1Client.mkAuthorize id name password)))
  end.
Definition client_submit (id : Z) (user_name extra_nonce2 : bytes) (time nonce : Z) (version_bits : option Z) (s : S)
    : result V1Error Message :=
  match client_status s with
  | Init => Err (IncorrectClientStatus (text "mining.submit"))
  | _ =>
      match last_notify s with
      | Some notify =>
          if client_is_authorized user_name s then
            Ok (MStandardRequest (V1Client.Submit_message
              (V1Client.mkSubmit user_name (V1Server.job_id notify) extra_nonce2 (wrap 32 time) (wrap 32 nonce) version_bits id)))
          else Err (UnauthorizedClient user_name)
      | None => Err (IncorrectClientStatus (text "No Notify instance found"))
      end
  end.

(** ** Messages *)

(** A bare answer is matched with the request it answers. *)
Definition update_response (response : Server2ClientResponse) (s : S) : result V1Error Server2ClientResponse :=
  match response with
  | RGeneral general =>
      match id_is_authorize (V1Server.gr_id general) s, id_is_submit (V1Server.gr_id general) s with
      | Some prev_name, false => Ok (RAuthorize (V1Server.into_authorize prev_name general))
      | None, false => Ok (RSubmit (V1Server.into_submit general))
      | _, _ => Err (UnknownID (V1Server.gr_id general))
      end
  | _ => Ok response
  end.
Definition client_handle_request (request : Server2Client) : CL (option Message) :=
  _ ← match request with
      | SNotify notify => client_handle_notify notify
      | SSetDifficulty value => client_handle_set_difficulty value
      | SSetExtranonce m => client_handle_set_extranonce m
      | SSetVersionMask mask => client_handle_set_version_mask mask
      end;
  mret None.
Definition client_handle_response (response : Server2ClientResponse) : CL (option Message) :=
  match response with
  | RConfigure configure =>
      configure ← client_handle_configure configure;
      _ ← modify (client_set_version_rolling_mask (V1Server.Configure_version_rolling_mask configure));
      _ ← modify (client_set_version_rolling_min_bit (V1Server.Configure_version_rolling_min_bit configure));
      _ ← modify (client_set_status Configured);
      extranonce ← lift (l ← hex_decode (text "08000002"); Extranonce_try_from l);
      subscribe ← gets (client_subscribe (V1Server.sc_id configure) (Some extranonce));
      match subscribe with
      | Ok m => mret (Some m)
      | Err _ => mret None
      | Panic => panic
      end
  | RSubscribe subscribe =>
      _ ← client_handle_subscribe subscribe;
      _ ← modify (client_set_extranonce1 (V1Server.sb_extra_nonce1 subscribe));
      _ ← modify (client_set_extranonce2_size (V1Server.sb_extra_nonce2_size subscribe));
      _ ← modify (client_set_status Subscribed);
      mret None
  | RAuthorize authorize =>
      _ ← (if V1Server.sa_authorized authorize then modify (authorize_user_name (V1Server.prev_request_name authorize)) else mret tt);
      mret None
  | RSubmit _ => mret None
  | RGeneral _ => panic
  | RSetDifficulty _ => mret None
  end.
Definition client_handle_message (msg : Message) : CL (option Message) :=
  method ← lift (map_err Method_ (Method_try_from msg));
  match method with
  | MServer2ClientResponse response =>
      response ← (λ s, (update_response response s, s)); client_handle_response response
  | MServer2Client request => client_handle_request request
  | MClient2Server _ => throw InvalidReceiver
  | MErrorMessage msg => client_handle_error_message msg
  end.
End client.

(** ** The CPU miner *)

Module Cpu.

(** The conversion of [num_bigint]. *)
Class BigUint : Type := { biguint_from_f64 : f64 → option Z }.

Record Job : Type := mkJob {
  j_job_id : Z;
  j_prev_hash : bytes;
  j_merkle_root : bytes;
  j_version : Z;
  j_nbits : Z }.
Record Miner : Type := mkMiner {
  header : option BlockHeader;
  target : option Z;
  m_job_id : option Z;
  m_version : option Z }.
Record Client : Type := mkClient {
  client_id : Z;
  extranonce1 : option bytes;
  extranonce2_size : option Z;
  version_rolling_mask : option Z;
  version_rolling_min_bit : option Z;
  status : ClientStatus;
  sented_authorize_request : list (Z * bytes);
  authorized : list bytes;
  miner : Miner;
  sender_outgoing : list Message }.
Definition set_extranonces e1 size (c : Client) : Client :=
  mkClient (client_id c) e1 size (version_rolling_mask c) (version_rolling_min_bit c) (status c)
    (sented_authorize_request c) (authorized c) (miner c) (sender_outgoing c).
Definition set_rolling mask min_bit (c : Client) : Client :=
  mkClient (client_id c) (extranonce1 c) (extranonce2_size c) mask min_bit (status c)
    (sented_authorize_request c) (authorized c) (miner c) (sender_outgoing c).
Definition set_status_ st (c : Client) : Client :=
  mkClient (client_id c) (extranonce1 c) (extranonce2_size c) (version_rolling_mask c) (version_rolling_min_bit c) st
    (sented_authorize_request c) (authorized c) (miner c) (sender_outgoing c).
Definition set_names requests names (c : Client) : Client :=
  mkClient (client_id c) (extranonce1 c) (extranonce2_size c) (version_rolling_mask c) (version_rolling_min_bit c) (status c)
    requests names (miner c) (sender_outgoing c).
Definition set_miner m (c : Client) : Client :=
  mkClient (client_id c) (extranonce1 c) (extranonce2_size c) (version_rolling_mask c) (version_rolling_min_bit c) (status c)
    (sented_authorize_request c) (authorized c) m (sender_outgoing c).
Definition send_message msg (c : Client) : Client :=
  mkClient (client_id c) (extranonce1 c) (extranonce2_size c) (version_rolling_mask c) (version_rolling_min_bit c) (status c)
    (sented_authorize_request c) (authorized c) (miner c) (sender_outgoing c ++ [msg]).

Section cpu.
Context `{Hex} `{Bitcoin} `{BigUint} (overflow_checks : bool).
(** Seconds since the epoch. *)
Context (now : Z).
Notation CL := (ST Client V1Error).

(** *** Jobs and shares *)

Definition Job_from_notify (notify_msg : V1Server.Notify) (extranonce : bytes) : result V1Error Job :=
  job_id ← unwrap (parse_unsigned 32 (V1Server.job_id notify_msg));
  if negb (zlen (V1Server.prev_hash notify_msg) =? 32) then Panic
  else
    merkle_root ← unwrap (merkle_root_from_path (V1Server.coin_base1 notify_msg) (V1Server.coin_base2 notify_msg)
                            extranonce (V1Server.merkle_branch notify_msg));
    if negb (zlen merkle_root =? 32) then Panic
    else Ok (mkJob job_id (V1Server.prev_hash notify_msg) merkle_root (V1Server.version notify_msg) (V1Server.bits notify_msg)).
Definition Miner_new : Miner := mkMiner None None None None.
Definition new_target (t : Z) (m : Miner) : Miner := mkMiner (header m) (Some t) (m_job_id m) (m_version m).
(** The time of the header is the clock's plus the 60 seconds the reference
    point lies before the epoch. *)
Definition new_header (new_job : Job) (m : Miner) : result V1Error Miner :=
  if now + 60 <? 0 then Panic
  else
    Ok (mkMiner (Some (mkBlockHeader (j_version new_job) (j_prev_hash new_job) (j_merkle_root new_job)
                         (wrap 32 (now + 60)) (j_nbits new_job) 0))
          (target m) (Some (j_job_id new_job)) (Some (j_version new_job))).
Definition next_share (m : Miner) : bool :=
  match header m, target m with
  | Some header, Some target => from_le_bytes (block_hash header) <? target
  | _, _ => false
  end.
Definition next_nonce (m : Miner) : result V1Error Miner :=
  match header m with
  | Some h =>
      nonce ← (if overflow_checks then add_chk 32 (bh_nonce h) 1 else Ok (wrap 32 (bh_nonce h + 1)));
      Ok (mkMiner (Some (mkBlockHeader (bh_version h) (prev_blockhash h) (bh_merkle_root h) (bh_time h) (bits h) nonce))
            (target m) (m_job_id m) (m_version m))
  | None => Ok m
  end.
(** What the mining thread sends of a share found (nonce, job, version and time):
    it locks the miner anew for each field, so each may come from a later state. *)
Definition read_share (at_hash at_nonce at_time at_job at_version : Miner) : result V1Error (option (Z * Z * Z * Z)) :=
  match next_share at_hash with
  | true =>
      h ← unwrap (header at_nonce); h' ← unwrap (header at_time); job_id ← unwrap (m_job_id at_job);
      version ← unwrap (m_version at_version); Ok (Some (bh_nonce h, job_id, version, bh_time h'))
  | false => Ok None
  end.
(** A turn of the thread that no other interrupts. *)
Definition mining_turn (m : Miner) : result V1Error (option (Z * Z * Z * Z) * Miner) :=
  share ← read_share m m m m m; m ← next_nonce m; Ok (share, m).

Definition pdiff : f64 := f64_of_Z 26959946667150639794667015087019630673637144422540572481103610249215.
(** [U256::from_big_endian] of the padded bytes. *)
Definition target_from_difficulty (diff : f64) : option Z :=
  if SFeqb diff (f64_of_Z 0) then Some 0
  else
    let t := f64_div pdiff diff in
    as_big_int ← (if SFltb (f64_of_Z 0) t then biguint_from_f64 t else biguint_from_f64 (f64_div (f64_of_Z 1) t));
    if as_big_int <? 2 ^ 256 then Some as_big_int else None.

(** *** The handlers *)

Definition cpu_handle_notify (notify : V1Server.Notify) : CL unit := λ c,
  let r :=
    e1 ← unwrap (extranonce1 c); size ← unwrap (extranonce2_size c);
    new_job ← Job_from_notify notify (e1 ++ replicate (Z.to_nat size) Byte.x00);
    new_header new_job (miner c) in
  match r with
  | Ok m => (Ok tt, set_miner m c)
  | Err e => (Err e, c)
  | Panic => (Panic, c)
  end.
Definition cpu_handle_set_difficulty (value : f64) : CL unit := λ c,
  match target_from_difficulty value with
  | Some t => (Ok tt, set_miner (new_target t (miner c)) c)
  | None => (Panic, c)
  end.
Definition cpu_id_is_authorize (id : Z) (c : Client) : option bytes :=
  snd <$> head (filter (λ x, x.1 = id) (sented_authorize_request c)).
#[global] Instance Cpu_IsClient : IsClient Client := {|
  client_handle_error_message _ := mret None;
  id_is_authorize := cpu_id_is_authorize;
  id_is_submit _ _ := false;
  client_handle_notify := cpu_handle_notify;
  client_handle_configure conf := mret conf;
  client_handle_set_difficulty := cpu_handle_set_difficulty;
  client_handle_set_extranonce _ := mret tt;
  client_handle_set_version_mask _ := mret tt;
  client_handle_subscribe _ := mret tt;
  client_set_extranonce1 e c := set_extranonces (Some e) (extranonce2_size c) c;
  client_set_extranonce2_size n c := set_extranonces (extranonce1 c) (Some n) c;
  client_version_rolling_mask := version_rolling_mask;
  client_version_rolling_min_bit := version_rolling_min_bit;
  client_set_version_rolling_mask mask c := set_rolling mask (version_rolling_min_bit c) c;
  client_set_version_rolling_min_bit min c := set_rolling (version_rolling_mask c) min c;
  client_set_status := set_status_;
  client_signature c := decimal (client_id c);
  client_status := status;
  last_notify _ := None;
  client_is_authorized name c := bool_decide (name ∈ authorized c);
  authorize_user_name name c := set_names (sented_authorize_request c) (authorized c ++ [name]) c |}.
(** The client's own version of [authorize] records the request. *)
Definition cpu_authorize (id : Z) (name password : bytes) : CL Message := λ c,
  match status c with
  | Init => (Err (IncorrectClientStatus (text "mining.authorize")), c)
  | _ => (Ok (MStandardRequest (V1Client.Authorize_message (V1Client.mkAuthorize id name password))),
          set_names (sented_authorize_request c ++ [(id, name)]) (authorized c) c)
  end.

(** *** The connection *)

Definition initial_target (custom_target : option bytes) : Z :=
  from_be_bytes (default (replicate 4 Byte.x00 ++ replicate 4 Byte.xff ++ replicate 24 Byte.x00) custom_target).
Definition Client_new (client_id : Z) (custom_target : option bytes) : Client :=
  mkClient client_id None None None None Init [] [] (new_target (initial_target custom_target) Miner_new) [].
(** It waits for the initial state, in which every client starts. *)
Definition send_configure (c : Client) : Client :=
  set_status_ Configured (send_message (client_configure now c) c).
Definition send_authorize : CL unit :=
  authorize ← (λ c, match cpu_authorize now (text "cpu-miner") (text "password") c with
                    | (Err _, c) => (Panic, c)
                    | r => r
                    end);
  _ ← modify (λ c, set_names (sented_authorize_request c ++ [(now, text "cpu-miner")]) (authorized c) c);
  modify (send_message authorize).
(** An error of the handler is unwrapped. *)
Definition parse_message (message : Message) : CL unit := λ c,
  match client_handle_message message c with
  | (Ok (Some m), c) => (Ok tt, send_message m c)
  | (Ok None, c) => (Ok tt, c)
  | (_, c) => (Panic, c)
  end.
(** A turn of the loops of [connect] on a received message; once subscribed the
    client authorizes itself before it reads on. *)
Definition connect_turn (message : Message) : CL unit :=
  st ← gets status;
  match st with
  | Init => panic
  | Configured =>
      _ ← parse_message message;
      st ← gets status;
      (if bool_decide (st = Subscribed) then send_authorize else mret tt)
  | Subscribed => parse_message message
  end.
(** The task that submits shares. *)
Definition submit_turn (share : Z * Z * Z * Z) : CL unit := λ c,
  let '(nonce, job_id, _, ntime) := share in
  match status c with
  | Subscribed =>
      match extranonce2_size c with
      | None => (Panic, c)
      | Some size =>
          match Extranonce_try_from (replicate (Z.to_nat size) Byte.x00) with
          | Ok extra_nonce2 =>
              (Ok tt, send_message (MStandardRequest (V1Client.Submit_message
                 (V1Client.mkSubmit (text "cpu-miner") (decimal job_id) extra_nonce2 ntime nonce None 0))) c)
          | _ => (Panic, c)
          end
      end
  | _ => (Ok tt, c)
  end.
End cpu.
End Cpu.
