(* ===== verification/Sv1Server.v ===== *)
(** * The translator's V1 server

    [roles/translator/src/lib/sv1/sv1_server]: the state shared by the miners
    ([data.rs]), the handlers of the miners' and the channel manager's messages
    and of connections and disconnections ([sv1_server.rs]), and the manager of
    the miners' difficulties ([difficulty_manager.rs]).  Messages to the channel
    manager and the broadcasts to the miners are recorded in lists.  A hash map
    is walked in an order that is an argument, [order]. *)

From Stdlib Require Import SpecFloat.
From stdpp Require Import gmap.
From S2P Require Import Prelude Mining Difficulty Bitcoin Jobs Channels Vardiff Downstream ClientChannels Sv1 Translation Translator Sv1Miner.
#[local] Open Scope Z_scope.
#[local] Open Scope list_scope.

Record PendingTargetUpdate : Type := mkPendingUpdate {
  pu_downstream_id : Z;
  pu_new_target : Target;
  pu_new_hashrate : f32 }.
(** The part of [TranslatorConfig] the server reads. *)
Record TranslatorConfig : Type := mkConfig {
  min_individual_miner_hashrate : f32;
  shares_per_minute : f32;
  enable_vardiff : bool;
  downstream_extranonce2_size : Z;
  config_user_identity : bytes;
  aggregate_channels : bool }.

Record Sv1ServerData : Type := mkServerData {
  downstreams : gmap Z Miner;
  vardiff : gmap Z VardiffState;
  prevhash : option SetNewPrevHashMp;
  downstream_id_factory : Z;
  valid_jobs : ValidJobs;
  pending_target_updates : list PendingTargetUpdate;
  initial_target : option Target }.
Definition Sv1ServerData_new (aggregate_channels : bool) : Sv1ServerData :=
  mkServerData ∅ ∅ None Id_new
    (mkValidJobs (if aggregate_channels then Some [] else None) (if aggregate_channels then None else Some ∅)) [] None.
Record Sv1Server : Type := mkSv1Server {
  server_data : Sv1ServerData;
  clean_job : bool;
  sequence_counter : Z;
  miner_counter : Z;
  to_manager : list FromSv1;
  broadcasts : list (Z * option Z * Message);
  manager_open : bool;
  (** Whether a miner listens to the broadcasts. *)
  listening : bool }.
Definition Sv1Server_new (aggregate_channels : bool) : Sv1Server :=
  mkSv1Server (Sv1ServerData_new aggregate_channels) true 0 0 [] [] true true.

Definition set_data d s :=
  mkSv1Server d (clean_job s) (sequence_counter s) (miner_counter s) (to_manager s) (broadcasts s)
    (manager_open s) (listening s).
Definition on_server (f : Sv1ServerData → Sv1ServerData) (s : Sv1Server) : Sv1Server := set_data (f (server_data s)) s.
Definition set_counters_sv1 clean sequence miners s :=
  mkSv1Server (server_data s) clean sequence miners (to_manager s) (broadcasts s) (manager_open s) (listening s).
Definition set_downstreams m d :=
  mkServerData m (vardiff d) (prevhash d) (downstream_id_factory d) (valid_jobs d) (pending_target_updates d)
    (initial_target d).
Definition set_vardiff m d :=
  mkServerData (downstreams d) m (prevhash d) (downstream_id_factory d) (valid_jobs d) (pending_target_updates d)
    (initial_target d).
Definition set_prevhash p d :=
  mkServerData (downstreams d) (vardiff d) p (downstream_id_factory d) (valid_jobs d) (pending_target_updates d)
    (initial_target d).
Definition set_id_factory i d :=
  mkServerData (downstreams d) (vardiff d) (prevhash d) i (valid_jobs d) (pending_target_updates d) (initial_target d).
Definition set_valid_jobs j d :=
  mkServerData (downstreams d) (vardiff d) (prevhash d) (downstream_id_factory d) j (pending_target_updates d)
    (initial_target d).
Definition set_pending_updates l d :=
  mkServerData (downstreams d) (vardiff d) (prevhash d) (downstream_id_factory d) (valid_jobs d) l (initial_target d).
Definition set_initial_target t d :=
  mkServerData (downstreams d) (vardiff d) (prevhash d) (downstream_id_factory d) (valid_jobs d)
    (pending_target_updates d) t.
(** An update of one miner's data. *)
Definition on_miner (i : Z) (f : DownstreamData → DownstreamData) (d : Sv1ServerData) : Sv1ServerData :=
  set_downstreams (alter (on_dd f) i (downstreams d)) d.

Section server.
Context `{Bitcoin} `{Hex} (overflow_checks : bool) (config : TranslatorConfig).
Notation SERVER := (ST Sv1Server TproxyError).

Definition send_manager (m : FromSv1) : SERVER unit :=
  open ← gets manager_open;
  if (open : bool)
  then modify (λ s, mkSv1Server (server_data s) (clean_job s) (sequence_counter s) (miner_counter s)
                      (to_manager s ++ [m]) (broadcasts s) (manager_open s) (listening s))
  else throw ChannelErrorSender.
(** [broadcast::Sender::send] fails when nobody listens. *)
Definition send_broadcast (channel_id : Z) (downstream_id : option Z) (m : Message) : SERVER unit :=
  open ← gets listening;
  if (open : bool)
  then modify (λ s, mkSv1Server (server_data s) (clean_job s) (sequence_counter s) (miner_counter s)
                      (to_manager s) (broadcasts s ++ [(channel_id, downstream_id, m)]) (manager_open s) (listening s))
  else throw ChannelErrorSender.
(** [_ = ...]: an error is logged. *)
Definition ignoring (m : SERVER unit) : SERVER unit := λ s,
  match m s with (Err _, s) => (Ok tt, s) | r => r end.
Fixpoint for_all {A} (f : A → SERVER unit) (l : list A) : SERVER unit :=
  match l with [] => mret tt | a :: l => _ ← f a; for_all f l end.

(** ** The difficulty manager *)

Definition Target_ge (a b : Target) : bool := negb (Client.Target_lt a b).
Definition Target_min (a b : Target) : Target := if Client.Target_lt b a then b else a.
Definition set_difficulty_message (t : Target) : Message := MNotification (build_sv1_set_difficulty_from_sv2_target t).

(** [iter().sum()] of single-precision numbers. *)
Definition f32_sum (l : list f32) : f32 := foldl (SFadd 24 128) (S754_zero true) l.
(** The hash rates and targets of the miners, those announced to them first. *)
Definition requested_hashrate (m : Miner) : result TproxyError f32 :=
  h ← unwrap (d_hashrate (downstream_data m));
  Ok (default h (d_pending_hashrate (downstream_data m))).
Definition requested_target (m : Miner) : Target :=
  default (d_target (downstream_data m)) (d_pending_target (downstream_data m)).
Definition in_order {A} (order : list Z) (m : gmap Z A) : list A := omap (λ i, m !! i) order.
Definition min_target (l : list Target) : option Target :=
  match l with [] => None | t :: l => Some (foldl Target_min t l) end.
Definition update_message (channel_id : Z) (hashrate : f32) (t : Target) : FromSv1 :=
  SvUpdate (mkUpdateChannel channel_id hashrate (Target_into_U256 t)).

Definition send_update_channel_messages (order : list Z) (all_updates : list (Z * Z * Target * f32)) : SERVER unit :=
  d ← gets server_data;
  let miners := in_order order (downstreams d) in
  match aggregate_channels config, all_updates with
  | true, (_, channel_id, _, _) :: _ =>
      target ← lift (unwrap (min_target (requested_target <$> miners)));
      rates ← lift (mapR requested_hashrate miners);
      ignoring (send_manager (update_message channel_id (f32_sum rates) target))
  | true, [] => mret tt
  | false, _ =>
      for_all (λ '(_, channel_id, new_target, new_hashrate),
        ignoring (send_manager (update_message channel_id new_hashrate new_target))) all_updates
  end.

(** What one miner's controller asks for: the update, and whether it can be
    announced at once. *)
Definition vardiff_one (clock clock' : option Z) (i : Z)
    : SERVER (option (Z * Z * Target * f32 * bool)) := λ s,
  let d := server_data s in
  match vardiff d !! i, downstream_data <$> downstreams d !! i with
  | Some v, Some dd =>
      match d_hashrate dd, d_channel_id dd with
      | None, _ => (Panic, s)
      | Some _, None => (Ok None, s)
      | Some hashrate, Some channel_id =>
          let '(r, v) := Vardiff.try_vardiff overflow_checks clock clock' hashrate (d_target dd)
                           (shares_per_minute config) v in
          let s := on_server (λ d, set_vardiff (<[i := v]> (vardiff d)) d) s in
          match r with
          | Panic => (Panic, s)
          | Err _ | Ok None => (Ok None, s)
          | Ok (Some new_hashrate) =>
              match hash_rate_to_target overflow_checks (f64_of_f32 new_hashrate) (f64_of_f32 (shares_per_minute config)) with
              | Panic => (Panic, s)
              | Err _ => (Ok None, s)
              | Ok t =>
                  let new_target := Target_from_bytes t in
                  let s := on_server (on_miner i (set_pending (Some new_target) (Some new_hashrate))) s in
                  let immediate := match d_upstream_target dd with
                                   | Some upstream_target => Target_ge new_target upstream_target
                                   | None => true
                                   end in
                  let s := if immediate then s
                           else on_server (λ d, set_pending_updates
                                  (pending_target_updates d ++ [mkPendingUpdate i new_target new_hashrate]) d) s in
                  (Ok (Some (i, channel_id, new_target, new_hashrate, immediate)), s)
              end
          end
      end
  | _, _ => (Ok None, s)
  end.
Fixpoint vardiff_all (clock clock' : option Z) (l : list Z) : SERVER (list (Z * Z * Target * f32 * bool)) :=
  match l with
  | [] => mret []
  | i :: l =>
      u ← vardiff_one clock clock' i;
      us ← vardiff_all clock clock' l;
      mret (match u with Some u => u :: us | None => us end)
  end.
Definition handle_vardiff_updates (clock clock' : option Z) (order order' : list Z) : SERVER unit :=
  updates ← vardiff_all clock clock' order;
  _ ← match updates with
      | [] => mret tt
      | _ :: _ => send_update_channel_messages order' (fst <$> updates)
      end;
  for_all (λ '(i, channel_id, new_target, _, immediate),
    if (immediate : bool)
    then ignoring (send_broadcast channel_id (Some i) (set_difficulty_message new_target))
    else mret tt) updates.

(** [get_pending_difficulty_updates]: those acceptable under the new target;
    the others of the same miners are forgotten. *)
Definition concerns (downstream_id : option Z) (u : PendingTargetUpdate) : bool :=
  match downstream_id with Some i => pu_downstream_id u =? i | None => true end.
Definition get_pending_difficulty_updates (new_upstream_target : Target) (downstream_id : option Z)
    : SERVER (list PendingTargetUpdate) := λ s,
  let l := pending_target_updates (server_data s) in
  let applicable := List.filter (λ u, concerns downstream_id u && Target_ge (pu_new_target u) new_upstream_target) l in
  let kept := List.filter (λ u, negb (concerns downstream_id u)) l in
  (Ok applicable, on_server (set_pending_updates kept) s).
Definition send_pending_set_difficulty (l : list PendingTargetUpdate) : SERVER unit :=
  for_all (λ u,
    d ← gets server_data;
    match d_channel_id ∘ downstream_data <$> downstreams d !! pu_downstream_id u with
    | Some (Some channel_id) =>
        ignoring (send_broadcast channel_id (Some (pu_downstream_id u)) (set_difficulty_message (pu_new_target u)))
    | _ => mret tt
    end) l.
Definition all_miners (f : DownstreamData → DownstreamData) (d : Sv1ServerData) : Sv1ServerData :=
  set_downstreams (on_dd f <$> downstreams d) d.
Definition handle_aggregated_set_target (t : Target) : SERVER unit :=
  _ ← modify (on_server (all_miners (set_upstream_target t)));
  updates ← get_pending_difficulty_updates t None;
  send_pending_set_difficulty updates.
(** The first miner, in the order of the map, with this channel. *)
Definition miner_of (order : list Z) (channel_id : Z) (d : Sv1ServerData) : option Z :=
  head (filter (λ i, (downstreams d !! i ≫= (d_channel_id ∘ downstream_data)) = Some channel_id) order).
Definition handle_non_aggregated_set_target (order : list Z) (channel_id : Z) (t : Target) : SERVER unit :=
  d ← gets server_data;
  match miner_of order channel_id d with
  | None => mret tt
  | Some i =>
      _ ← modify (on_server (on_miner i (set_upstream_target t)));
      updates ← get_pending_difficulty_updates t (Some i);
      send_pending_set_difficulty updates
  end.
Definition handle_set_target_message (order : list Z) (channel_id : Z) (maximum_target : bytes) : SERVER unit :=
  let t := Target_from_bytes maximum_target in
  if aggregate_channels config then handle_aggregated_set_target t
  else handle_non_aggregated_set_target order channel_id t.

Definition send_update_channel_on_downstream_state_change (order : list Z) : SERVER unit :=
  if negb (aggregate_channels config) then mret tt
  else
    d ← gets server_data;
    let miners := in_order order (downstreams d) in
    rates ← lift (mapR requested_hashrate miners);
    match min_target (requested_target <$> miners) with
    | Some t => ignoring (send_manager (update_message 0 (f32_sum rates) t))
    | None => ignoring (send_manager (SvUpdate (mkUpdateChannel 0 (S754_zero false) (replicate 32 Byte.xff))))
    end.

(** ** Difficulty without a controller *)

Definition send_set_difficulty_to (t : Target) (i : Z) : SERVER unit :=
  d ← gets server_data;
  match d_channel_id ∘ downstream_data <$> downstreams d !! i with
  | Some (Some channel_id) =>
      _ ← modify (on_server (on_miner i (λ d, set_pending (Some t) (d_pending_hashrate d) (set_upstream_target t d))));
      ignoring (send_broadcast channel_id (Some i) (set_difficulty_message t))
  | _ => mret tt
  end.
Definition handle_set_target_without_vardiff (order : list Z) (channel_id : Z) (maximum_target : bytes) : SERVER unit :=
  let t := Target_from_bytes maximum_target in
  d ← gets server_data;
  if aggregate_channels config then for_all (send_set_difficulty_to t) order
  else match miner_of order channel_id d with
       | Some i => send_set_difficulty_to t i
       | None => mret tt
       end.

(** ** Connections *)

Definition accept (first_target : Target) (clock : option Z) : SERVER unit :=
  i ← zoom (downstream_id_factory ∘ server_data) (λ i, on_server (set_id_factory i)) (Id_next overflow_checks);
  let dd := DownstreamData_new i first_target (Some (min_individual_miner_hashrate config)) in
  _ ← modify (on_server (λ d, set_downstreams (<[i := mkMiner dd [] [] true true]> (downstreams d)) d));
  if enable_vardiff config then
    match Vardiff.new clock with
    | Ok v => modify (on_server (λ d, set_vardiff (<[i := v]> (vardiff d)) d))
    | _ => panic
    end
  else mret tt.
Definition state_changed (order : list Z) : SERVER unit :=
  if enable_vardiff config then send_update_channel_on_downstream_state_change order else mret tt.
Definition downstream_shutdown (order : list Z) (i : Z) : SERVER unit :=
  d ← gets server_data;
  let current := downstreams d !! i in
  _ ← modify (on_server (λ d, set_downstreams (delete i (downstreams d))
        (if enable_vardiff config then set_vardiff (delete i (vardiff d)) d else d)));
  match current with
  | None => mret tt
  | Some m =>
      _ ← state_changed order;
      match d_channel_id (downstream_data m) with
      | Some channel_id =>
          if negb (aggregate_channels config)
          then ignoring (send_manager (SvClose channel_id (text "downstream disconnected")))
          else mret tt
      | None => mret tt
      end
  end.
(** Also when the pool was connected again. *)
Definition downstream_shutdown_all : SERVER unit :=
  _ ← modify (on_server (λ d, set_downstreams ∅ (if enable_vardiff config then set_vardiff ∅ d else d)));
  state_changed [].

(** ** Messages of the miners *)

Definition handle_submit_shares (m : SubmitShareWithChannelId) : SERVER unit :=
  _ ← if enable_vardiff config then λ s,
        match vardiff (server_data s) !! sw_downstream_id m with
        | Some v =>
            match Vardiff.increment_shares_since_last_update overflow_checks v with
            | (Panic, _) => (Panic, s)
            | (_, v) => (Ok tt, on_server (λ d, set_vardiff (<[sw_downstream_id m := v]> (vardiff d)) d) s)
            end
        | None => (Ok tt, s)
        end
      else mret tt;
  match sw_job_version m with
  | None => mret tt
  | Some job_version =>
      sequence_number ← gets sequence_counter;
      share ← lift (map_err (λ _, SV1Error) (build_sv2_submit_shares_extended_from_sv1_submit (sw_share m)
                      (sw_channel_id m) sequence_number job_version (sw_version_rolling_mask m)));
      _ ← send_manager (SvSubmit share);
      modify (λ s, set_counters_sv1 (clean_job s) (wrap 32 (sequence_counter s + 1)) (miner_counter s) s)
  end.
(** [fetch_add] wraps, the addition after it may not. *)
Definition open_extended_mining_channel (i : Z) : SERVER unit :=
  max_target ← if enable_vardiff config then
      lift (match hash_rate_to_target overflow_checks (f64_of_f32 (min_individual_miner_hashrate config))
                    (f64_of_f32 (shares_per_minute config)) with
            | Ok t => Ok (Target_from_bytes t)
            | _ => Panic
            end)
    else mret (Target_from_bytes (replicate 32 Byte.xff));
  _ ← modify (on_server (λ d, set_initial_target
        (match initial_target d with None => Some max_target | Some t => Some t end) d));
  counter ← gets miner_counter;
  _ ← modify (λ s, set_counters_sv1 (clean_job s) (sequence_counter s) (wrap 32 (counter + 1)) s);
  miner_id ← lift (add_over overflow_checks 32 counter 1);
  let user_identity := config_user_identity config ++ text ".miner" ++ decimal miner_id in
  _ ← modify (on_server (on_miner i (set_user_identity user_identity)));
  match build_sv2_open_extended_mining_channel i user_identity (min_individual_miner_hashrate config) max_target
          (downstream_extranonce2_size config) with
  | Ok m => send_manager (SvOpen m)
  | Err _ => mret tt
  | Panic => panic
  end.
Definition handle_open_channel_request (i : Z) : SERVER unit :=
  d ← gets server_data;
  match downstreams d !! i with
  | Some _ => open_extended_mining_channel i
  | None => mret tt
  end.
Definition server_handle_downstream_message (m : DownstreamMessages) : SERVER unit :=
  match m with
  | SubmitShares m => handle_submit_shares m
  | OpenChannel i => handle_open_channel_request i
  end.

(** ** Messages of the channel manager *)

(** The requests a miner sent before its channel was open, one after the other. *)
Definition process_queued (channel_id i : Z) (message : Message) : SERVER unit := λ s,
  match downstreams (server_data s) !! i with
  | None => (Ok tt, s)
  | Some m =>
      let '(response, (_, d)) := handle_message message (valid_jobs (server_data s), downstream_data m) in
      let s := on_server (on_miner i (λ _, d)) s in
      match response with
      | Panic => (Panic, s)
      | Ok (Some r) => send_broadcast channel_id (Some i) (Message_of_Response r) s
      | _ => (Ok tt, s)
      end
  end.
Definition channel_opened (first_target : Target) (m : OpenSuccess) : SERVER unit :=
  let i := op_request_id m in
  d ← gets server_data;
  match downstreams d !! i with
  | None => mret tt
  | Some miner =>
      _ ← modify (on_server (on_miner i (set_opened (op_extranonce_prefix m) (op_extranonce_size m) (op_channel_id m)
            (Target_from_bytes (op_target m)))));
      let queued := d_queued (downstream_data miner) in
      _ ← modify (on_server (on_miner i (set_queued [])));
      _ ← match queued with
          | [] => mret tt
          | _ :: _ =>
              _ ← modify (on_server (on_miner i (λ d, set_handshake (d_handshake_complete d) true d)));
              for_all (process_queued (op_channel_id m) i) queued
          end;
      send_broadcast (op_channel_id m) None (set_difficulty_message first_target)
  end.
(** A job is stored for the check of shares and announced. *)
Definition store_job (clean_jobs : bool) (channel_id : Z) (n : V1Server.Notify) (jobs : ValidJobs) : ValidJobs :=
  match aggregated_valid_jobs jobs with
  | Some l => mkValidJobs (Some ((if clean_jobs then [] else l) ++ [n])) (non_aggregated_valid_jobs jobs)
  | None =>
      match non_aggregated_valid_jobs jobs with
      | Some m =>
          let l := default [] (m !! channel_id) in
          mkValidJobs None (Some (<[channel_id := (if clean_jobs then [] else l) ++ [n]]> m))
      | None => jobs
      end
  end.
Definition new_job (m : NewExtendedMiningJob) : SERVER unit :=
  d ← gets server_data;
  match prevhash d with
  | None => mret tt
  | Some p =>
      clean_jobs ← gets clean_job;
      notify ← lift (map_err (λ _, TpTranslatorCore) (build_sv1_notify_from_sv2 p m clean_jobs));
      _ ← modify (λ s, set_counters_sv1 false (sequence_counter s) (miner_counter s) s);
      _ ← modify (on_server (λ d, set_valid_jobs (store_job clean_jobs (xj_channel_id m) notify (valid_jobs d)) d));
      ignoring (send_broadcast (xj_channel_id m) None (MNotification (V1Server.Notify_message notify)))
  end.
Definition handle_upstream_message (order : list Z) (first_target : Target) (m : ToSv1) : SERVER unit :=
  match m with
  | SvOpenSuccess m => channel_opened first_target m
  | SvNewExtendedMiningJob m => new_job m
  | SvSetNewPrevHash m =>
      _ ← modify (λ s, set_counters_sv1 true (sequence_counter s) (miner_counter s) s);
      modify (on_server (set_prevhash (Some m)))
  | SvSetTarget channel_id t =>
      if enable_vardiff config then handle_set_target_message order channel_id t
      else handle_set_target_without_vardiff order channel_id t
  end.
End server.
