(* ===== verification/Sv1ServerProperties.v ===== *)
(** * Properties of the translator's V1 side

    A share that the V1 check accepts becomes a V2 share for the same block
    header; the jobs a share may refer to belong to the current block; the
    difficulties sent to the miners stay below what the pool asks for.  Three
    orders of events are stated in which a difficulty is applied before it is
    announced or the channel manager stops. *)

From Stdlib Require Import SpecFloat.
From stdpp Require Import gmap.
From S2P Require Import Prelude Mining Difficulty Bitcoin BitcoinModel Jobs Channels ChannelProperties Vardiff Downstream ClientChannels Agreement Sv1 Sv1Properties Translation Translator TranslatorProperties Sv1Miner Sv1Server.
#[local] Open Scope Z_scope.
#[local] Open Scope list_scope.

(** ** From a V1 share to a V2 share *)

Section share.
Context `{Bitcoin} `{Hex}.

(** The V2 job and chain tip a V1 job stands for. *)
Definition v2_job (n : V1Server.Notify) : NewExtendedMiningJob :=
  mkNewExtendedMiningJob 0 0 None (V1Server.version n) true (V1Server.merkle_branch n) (V1Server.coin_base1 n)
    (V1Server.coin_base2 n).
Definition v2_tip (n : V1Server.Notify) : ChainTip :=
  mkChainTip (V1Server.prev_hash n) (V1Server.bits n) (V1Server.time n).

Lemma submit_extranonce_short c e : V1Client.submit_extranonce c = Ok e → zlen e ≤ 32.
Proof.
  unfold V1Client.submit_extranonce. destruct (hex_decode_ c) as [l|]; [|done]. cbn. unfold Extranonce_try_from.
  destruct (Z.ltb_spec 32 (zlen l)); [done|]. by intros [= <-].
Qed.
Lemma Submit_short r m : V1Client.Submit_try_from r = Ok m → zlen (V1Client.extra_nonce2 m) ≤ 32.
Proof.
  unfold V1Client.Submit_try_from. intros E.
  repeat match type of E with
  | (match ?x with _ => _ end) = Ok _ => destruct x; try discriminate E
  end; inv_res; eauto using submit_extranonce_short.
Qed.
Lemma request_submit_short msg m : Client2Server_try_from msg = Ok (CSubmit m) → zlen (V1Client.extra_nonce2 m) ≤ 32.
Proof.
  unfold Client2Server_try_from. intros E. apply bind_Ok in E as (method & E1 & E). destruct method; [|done..].
  injection E as ->. unfold Method_try_from in E1. destruct msg as [r|n|r|r]; [| | |done].
  - repeat (destruct (bool_decide _); [first [done|apply bind_Ok in E1 as (a & E2 & [= <-]); try done]|]); [|done].
    unfold map_err in E2. destruct (V1Client.Submit_try_from r) as [a'| |] eqn:Ea; [|done..]. injection E2 as ->.
    by eapply Submit_short.
  - repeat (destruct (bool_decide _); [by apply bind_Ok in E1 as (a & E2 & [=])|]). done.
  - unfold map_err in E1. by destruct (Server2ClientResponse_try_from r).
Qed.

(** The version the pool is told and the version the miner hashed. *)
Lemma rolled_version_self v m : rolled_version v m v = v.
Proof.
  unfold rolled_version. apply Z.bits_inj'. intros n Hn. rewrite Z.lor_spec, !Z.land_spec, Z.lnot_spec by done.
  by destruct (Z.testbit v n), (Z.testbit m n).
Qed.
Lemma rolled_version_eq a b m v :
  rolled_version a m v = rolled_version b m v ↔ Z.land a (Z.lnot m) = Z.land b (Z.lnot m).
Proof.
  unfold rolled_version. split; [|by intros ->]. intros E. apply Z.bits_inj'. intros n Hn.
  apply (f_equal (λ z, Z.testbit z n)) in E. rewrite !Z.lor_spec, !Z.land_spec, Z.lnot_spec in E by done.
  rewrite !Z.land_spec, Z.lnot_spec by done. by destruct (Z.testbit a n), (Z.testbit b n), (Z.testbit m n), (Z.testbit v n).
Qed.
Definition sent_version (job_version : Z) (share : V1Client.Submit) (mask : option Z) : Z :=
  match V1Client.version_bits share, mask with
  | Some bits, Some m => rolled_version job_version m bits
  | _, _ => job_version
  end.
Lemma sent_version_eq share mask job last header e :
  valid_version_bits (V1Client.version_bits share) mask = true → sv1_header share e mask job = Ok header →
  (sent_version last share mask = bh_version header
   ↔ Z.land last (Z.lnot (default 0 mask)) = Z.land (V1Server.version job) (Z.lnot (default 0 mask))).
Proof.
  intros Hv E. unfold sv1_header in E. destruct (negb _); [done|]. inv_res. destruct (negb _); [done|]. inv_res. cbn.
  unfold sent_version. destruct (V1Client.version_bits share), mask; try done; cbn.
  - apply rolled_version_eq.
  - rewrite rolled_version_self. by rewrite !Z.land_m1_r.
Qed.
(** The header of the translated share. *)
Lemma translated_block share e mask job header m :
  sv1_header share e mask job = Ok header → se_extranonce m = V1Client.extra_nonce2 share →
  se_ntime m = V1Client.time share → se_nonce m = V1Client.nonce share →
  share_block e m (v2_job job) (v2_tip job) = Some header ↔ se_version m = bh_version header.
Proof.
  intros E He Ht Hn. unfold sv1_header in E. destruct (negb _); [done|]. apply bind_Ok in E as (root & E1 & E).
  destruct (negb _); [done|]. injection E as <-. unfold share_block. cbn. rewrite He, Ht, Hn.
  destruct (merkle_root_from_path _ _ _ _) as [r|]; [|done]. injection E1 as ->. cbn.
  unfold share_header. cbn. split; [by intros [= ->]|by intros ->].
Qed.
Lemma translated_share share ch n job_version mask id :
  valid_version_bits (V1Client.version_bits share) mask = true →
  parse_unsigned 32 (V1Client.job_id share) = Some id → zlen (V1Client.extra_nonce2 share) ≤ 32 →
  build_sv2_submit_shares_extended_from_sv1_submit share ch n job_version mask
  = Ok (mkSubmitExtended ch n id (V1Client.nonce share) (V1Client.time share) (sent_version job_version share mask)
          (V1Client.extra_nonce2 share)).
Proof.
  intros Hv Hid Hl. unfold build_sv2_submit_shares_extended_from_sv1_submit, sent_version. rewrite Hid.
  destruct (V1Client.version_bits share), mask; try done; cbn; by rewrite (proj2 (Z.ltb_ge _ _)).
Qed.
Lemma submit_not_authorize msg m : Client2Server_try_from msg = Ok (CSubmit m) → is_authorize msg = false.
Proof.
  unfold Client2Server_try_from. intros E. apply bind_Ok in E as (method & E1 & E). destruct method; [|done..].
  injection E as ->. destruct msg as [r| | |]; [|done..]. cbn. case_bool_decide as Hm; [|done].
  unfold Method_try_from in E1. rewrite Hm in E1. vm_compute (bool_decide _) in E1.
  by apply bind_Ok in E1 as (a & _ & [=]).
Qed.
(** The server accepts a share it can translate. *)
Lemma submit_shares_sent cfg m srv last share :
  manager_open srv = true → sw_job_version m = Some last →
  build_sv2_submit_shares_extended_from_sv1_submit (sw_share m) (sw_channel_id m) (sequence_counter srv) last
    (sw_version_rolling_mask m) = Ok share →
  ∃ srv', handle_submit_shares false cfg m srv = (Ok tt, srv') ∧ to_manager srv' = to_manager srv ++ [SvSubmit share].
Proof.
  intros Ho Hv Hb. unfold handle_submit_shares.
  assert (Hinc : ∀ v, ∃ v', Vardiff.increment_shares_since_last_update false v = (Ok tt, v')).
  { intros v. unfold Vardiff.increment_shares_since_last_update, add_over. by eexists. }
  set (first := (if enable_vardiff cfg then _ else _)).
  assert (Hf : ∃ srv1, first srv = (Ok tt, srv1) ∧ to_manager srv1 = to_manager srv ∧
    manager_open srv1 = manager_open srv ∧ sequence_counter srv1 = sequence_counter srv).
  { unfold first. destruct (enable_vardiff cfg); [|by eexists].
    destruct (vardiff (server_data srv) !! sw_downstream_id m) as [v|]; [|by eexists].
    destruct (Hinc v) as [v' ->]. by eexists. }
  destruct Hf as (srv1 & Hf & Ht & Ho1 & Hs). unfold mbind at 1, ST_bind at 1. rewrite Hf, Hv, st_gets_bind, Hs, Hb.
  cbn [map_err]. rewrite st_lift_bind. unfold send_manager. unfold mbind at 1, ST_bind at 1.
  rewrite st_gets_bind, Ho1, Ho. eexists. split; [reflexivity|]. cbn. by rewrite Ht.
Qed.
(** What the handler of a [mining.submit] does. *)
Lemma check_answers share target e mask jobs ch : validate_sv1_share share target e mask jobs ch ≠ Panic.
Proof.
  unfold validate_sv1_share. destruct (find_job _ _ _) as [job|]; [|done]. cbn [ok_or mbind result_bind]. unfold sv1_header.
  destruct (negb _); [done|]. destruct (merkle_root_from_path _ _ _ _); [|done]. cbn [ok_or mbind result_bind].
  by destruct (negb _).
Qed.
Lemma submit_handled jobs d msg share ch :
  Client2Server_try_from msg = Ok (CSubmit share) → d_channel_id d = Some ch →
  handle_message msg (jobs, d) =
  match is_valid_submission share (jobs, d),
        validate_sv1_share share (d_target d) (d_extranonce1 d) (d_version_rolling_mask d) jobs ch with
  | false, _ => (Err InvalidSubmission, (jobs, d))
  | true, Ok true =>
      (Ok (Some (V1Client.respond_bool (V1Client.id share) true)),
       (jobs, set_share (Some (mkShareWithChannel ch (d_downstream_id d) share (d_extranonce1 d)
                 (d_extranonce2_len d) (d_version_rolling_mask d) (d_last_job_version_field d))) d))
  | true, _ => (Ok (Some (V1Client.respond_bool (V1Client.id share) false)), (jobs, d))
  end.
Proof.
  intros Hc Hch. assert (Hm : handle_message msg (jobs, d) = handle_request msg (jobs, d)).
  { destruct msg as [| |r|r]; [reflexivity..| |done]. cbn in Hc. by destruct (Server2ClientResponse_try_from r). }
  rewrite Hm. unfold handle_request. rewrite Hc. cbn [map_err]. rewrite st_lift_bind, st_gets_bind.
  destruct (is_valid_submission share (jobs, d)); [|done].
  unfold mbind, ST_bind, handle_submit. cbn [Downstream_IsServer]. unfold down_handle_submit. cbn [fst snd]. rewrite Hch.
  pose proof (check_answers share (d_target d) (d_extranonce1 d) (d_version_rolling_mask d) jobs ch) as Hp.
  by destruct (validate_sv1_share _ _ _ _ _ _) as [[]| |].
Qed.
(** What the connection's task makes of the answer. *)
Lemma answered_submit jobs s msg share ch res d' :
  Client2Server_try_from msg = Ok (CSubmit share) → d_channel_id (downstream_data s) = Some ch →
  miner_open s = true → server_open s = true →
  handle_message msg (jobs, downstream_data s) = (Ok (Some res), (jobs, d')) →
  ∃ s', handle_downstream_message jobs msg s = (Ok tt, s') ∧ to_miner s' = to_miner s ++ [Message_of_Response res] ∧
    to_server s' = to_server s ++ option_list (SubmitShares <$> d_pending_share d').
Proof.
  intros Hc Hch Hmo Hso E. unfold handle_downstream_message. rewrite st_gets_bind, Hch, E, st_modify_bind.
  rewrite (submit_not_authorize _ _ Hc). unfold send_miner, mbind, ST_bind, gets, modify. cbn. rewrite Hmo. cbn.
  unfold forward_pending_share, send_server, mbind, ST_bind, gets, modify. cbn. destruct (d_pending_share d'); cbn.
  - rewrite Hso. eexists. by split.
  - eexists. split; [reflexivity|]. cbn. by rewrite app_nil_r.
Qed.
Lemma check_accepts share target e mask jobs ch :
  validate_sv1_share share target e mask jobs ch = Ok true →
  ∃ job header, find_job ch (V1Client.job_id share) jobs = Some job ∧ sv1_header share e mask job = Ok header ∧
    Client.Target_lt (Target_from_bytes (block_hash header)) target = true.
Proof.
  unfold validate_sv1_share. intros E. apply bind_Ok in E as (job & Hj%ok_or_Ok & E).
  apply bind_Ok in E as (header & Hh & [= E]). by exists job, header.
Qed.
End share.

(** C8 A V1 share becomes a V2 share of the same work: when a miner with an
    open channel sends a [mining.submit], the connection's task turns it away
    with an error if the worker, the extranonce's length or the version bits are
    wrong, answers [false] and sends the server nothing if the check refuses it,
    and answers [true] if the check accepts it.  Then the block header it builds
    on the job it names meets the miner's target, and exactly one share goes to
    the server, which translates it without error and sends it to the channel
    manager under the miner's channel with the job's number; the V2 share
    describes exactly the header the miner hashed if and only if the last job the
    miner was given agrees with the share's job in the version bits that may not
    be rolled. *)
Theorem v1_share_translated `{Bitcoin} `{Hex} (cfg : TranslatorConfig) (jobs : ValidJobs) (s : Miner) (msg : Message)
    (share : V1Client.Submit) (ch id last : Z) (srv : Sv1Server) :
  Client2Server_try_from msg = Ok (CSubmit share) →
  d_channel_id (downstream_data s) = Some ch → d_pending_share (downstream_data s) = None →
  d_last_job_version_field (downstream_data s) = Some last →
  parse_unsigned 32 (V1Client.job_id share) = Some id →
  miner_open s = true → server_open s = true → manager_open srv = true →
  let mask := d_version_rolling_mask (downstream_data s) in
  let extranonce1 := d_extranonce1 (downstream_data s) in
  let answer b := Message_of_Response (V1Client.respond_bool (V1Client.id share) b) in
  ∃ r s', handle_downstream_message jobs msg s = (r, s') ∧
  match is_valid_submission share (jobs, downstream_data s),
        validate_sv1_share share (d_target (downstream_data s)) extranonce1 mask jobs ch with
  | false, _ => r = Err SV1Error ∧ to_miner s' = to_miner s ∧ to_server s' = to_server s
  | true, Ok true => r = Ok tt ∧ to_miner s' = to_miner s ++ [answer true] ∧
      ∃ job header sent srv' m,
        find_job ch (V1Client.job_id share) jobs = Some job ∧ sv1_header share extranonce1 mask job = Ok header ∧
        Client.Target_lt (Target_from_bytes (block_hash header)) (d_target (downstream_data s)) = true ∧
        to_server s' = to_server s ++ [SubmitShares sent] ∧
        handle_submit_shares false cfg sent srv = (Ok tt, srv') ∧
        to_manager srv' = to_manager srv ++ [SvSubmit m] ∧ se_channel_id m = ch ∧ se_job_id m = id ∧
        (share_block extranonce1 m (v2_job job) (v2_tip job) = Some header
         ↔ Z.land last (Z.lnot (default 0 mask)) = Z.land (V1Server.version job) (Z.lnot (default 0 mask)))
  | true, _ => r = Ok tt ∧ to_miner s' = to_miner s ++ [answer false] ∧ to_server s' = to_server s
  end.
Proof.
  intros Hc Hch Hnone Hlast Hid Hmo Hso Hopen mask extranonce1 answer.
  pose proof (submit_handled jobs _ msg share ch Hc Hch) as Em. fold mask extranonce1 in Em.
  destruct (is_valid_submission share _) eqn:Hvalid.
  2: { unfold handle_downstream_message. rewrite st_gets_bind, Hch, Em, st_modify_bind. by eexists _, _. }
  destruct (validate_sv1_share _ _ _ _ _ _) as [[]|e|] eqn:Hcheck;
    destruct (answered_submit jobs s msg share ch _ _ Hc Hch Hmo Hso Em) as (s' & E & Hto_miner & Hto_server);
    (exists (Ok tt), s'; split; [exact E|]; split; [done|]; split; [exact Hto_miner|]).
  2-4: by rewrite Hnone, app_nil_r in Hto_server.
  destruct (check_accepts _ _ _ _ _ _ Hcheck) as (job & header & Hj & Hh & Ht).
  unfold is_valid_submission in Hvalid. apply andb_true_iff in Hvalid as [_ Hv]. cbn in Hv.
  pose proof (translated_share share ch (sequence_counter srv) last mask id Hv Hid (request_submit_short _ _ Hc)) as Htr.
  destruct (submit_shares_sent cfg (mkShareWithChannel ch (d_downstream_id (downstream_data s)) share extranonce1
    (d_extranonce2_len (downstream_data s)) mask (Some last)) srv last _ Hopen eq_refl Htr) as (srv' & Hsub & Hto).
  exists job, header. do 3 eexists. split; [done|]. split; [done|]. split; [done|]. split; [exact Hto_server|].
  rewrite Hlast. split; [exact Hsub|]. split; [exact Hto|]. split; [done|]. split; [done|].
  etransitivity; [apply (translated_block _ _ _ _ _ _ Hh); done|]. apply (sent_version_eq _ _ _ _ _ _ Hv Hh).
Qed.

(** ** Miners that leave *)

Section leaving.
Context `{Bitcoin} (chk : bool) (cfg : TranslatorConfig).

(** Without a channel of the pool the manager cannot address an update. *)
Lemma update_without_channel u st :
  mode (data st) = Aggregated → upstream_extended_channel (data st) = None →
  (handle_sv1_message chk (SvUpdate u) st).1 = Panic.
Proof.
  intros Hm Hu. cbn [handle_sv1_message]. unfold handle_update_channel. by rewrite st_gets_bind, Hm, Hu.
Qed.
Lemma send_manager_open m srv :
  manager_open srv = true → ∃ srv', ignoring (send_manager m) srv = (Ok tt, srv') ∧ to_manager srv' = to_manager srv ++ [m].
Proof.
  intros Ho. unfold ignoring, send_manager. rewrite st_gets_bind, Ho. by eexists.
Qed.
Lemma state_changed_empty order srv :
  aggregate_channels cfg = true → enable_vardiff cfg = true → manager_open srv = true →
  downstreams (server_data srv) = ∅ →
  ∃ srv' u, state_changed cfg order srv = (Ok tt, srv') ∧ to_manager srv' = to_manager srv ++ [SvUpdate u].
Proof.
  intros Ha Hv Ho Hd. unfold state_changed, send_update_channel_on_downstream_state_change. rewrite Hv, Ha. cbn [negb].
  rewrite st_gets_bind, Hd. assert (Hn : in_order order (∅ : gmap Z Miner) = []).
  { unfold in_order. induction order as [|i l IH]; [done|]. cbn. by rewrite lookup_empty. }
  rewrite Hn. cbn [mapR fmap list_fmap min_target]. rewrite st_lift_bind.
  destruct (send_manager_open (SvUpdate (mkUpdateChannel 0 (S754_zero false) (replicate 32 Byte.xff))) srv Ho) as (srv' & E & Ht).
  by exists srv', (mkUpdateChannel 0 (S754_zero false) (replicate 32 Byte.xff)).
Qed.
End leaving.

(** With shared channels and variable difficulty, two ordinary events stop
    the channel manager with a panic: a connection to the pool that is lost and
    made again, after which the V1 server drops its miners and reports their
    absence to a manager that has just forgotten its channel; and, before the
    first channel is open, a miner that connects and disconnects without a
    word. *)
Theorem departures_stop_manager `{Bitcoin} `{Hex} (chk : bool) (cfg : TranslatorConfig) (srv : Sv1Server) (st : Manager)
    (first_target : Target) (now : Z) :
  aggregate_channels cfg = true → enable_vardiff cfg = true → manager_open srv = true → mode (data st) = Aggregated →
  (∃ srv' u, downstream_shutdown_all cfg srv = (Ok tt, srv') ∧ to_manager srv' = to_manager srv ++ [SvUpdate u] ∧
     (handle_sv1_message chk (SvUpdate u) (on_upstream_reconnected st).2).1 = Panic) ∧
  (∃ srv1 srv2 u, accept chk cfg first_target (Some now) (Sv1Server_new true) = (Ok tt, srv1) ∧
     downstream_shutdown cfg [] 1 srv1 = (Ok tt, srv2) ∧ to_manager srv2 = [SvUpdate u] ∧
     (upstream_extended_channel (data st) = None → (handle_sv1_message chk (SvUpdate u) st).1 = Panic)).
Proof.
  intros Ha Hv Ho Hm. split.
  - unfold downstream_shutdown_all. rewrite st_modify_bind. set (srv0 := on_server _ srv).
    destruct (state_changed_empty cfg [] srv0 Ha Hv) as (srv' & u & E & Ht); [done|by unfold srv0; rewrite Hv|].
    exists srv', u. split; [exact E|]. split; [exact Ht|]. by apply update_without_channel.
  - unfold accept. set (step := zoom _ _ _).
    assert (Hs : step (Sv1Server_new true) = (Ok 1, on_server (set_id_factory 1) (Sv1Server_new true))) by (by destruct chk).
    unfold mbind at 1, ST_bind at 1. rewrite Hs, st_modify_bind, Hv. cbn [Vardiff.new Vardiff.new_with_min ok_or mbind result_bind].
    set (miner := mkMiner (DownstreamData_new 1 first_target (Some (min_individual_miner_hashrate cfg))) [] [] true true).
    set (before := on_server (λ d, set_downstreams (<[1 := miner]> (downstreams d)) d) _).
    set (srv1 := on_server (λ d, set_vardiff (<[1 := mkVardiff 0 now DEFAULT_MIN_HASHRATE]> (vardiff d)) d) before).
    unfold downstream_shutdown. exists srv1.
    set (srv0 := on_server (λ d, set_downstreams (delete 1 (downstreams d)) (set_vardiff (delete 1 (vardiff d)) d)) srv1).
    destruct (state_changed_empty cfg [] srv0 Ha Hv) as (srv2 & u & E & Ht); [done..|].
    exists srv2, u. split; [done|]. split; [|split; [exact Ht|by apply update_without_channel]].
    rewrite st_gets_bind, st_modify_bind, Hv. cbv iota. fold srv0.
    change (downstreams (server_data srv1) !! 1) with (Some miner). cbv iota beta.
    unfold mbind at 1, ST_bind at 1. by rewrite E.
Qed.

(** ** Difficulties *)

Section difficulty.
Context `{Bitcoin} (chk : bool) (cfg : TranslatorConfig).

(** A target for one miner, no harder than what the pool asks for. *)
Definition permitted (d : Sv1ServerData) (i ch : Z) (t : Target) : Prop :=
  ∃ m, downstreams d !! i = Some m ∧ d_channel_id (downstream_data m) = Some ch ∧
    (∀ u, d_upstream_target (downstream_data m) = Some u → Target_ge t u = true).
Definition within (d : Sv1ServerData) (b : Z * option Z * Message) : Prop :=
  ∃ i ch t, b = (ch, Some i, set_difficulty_message t) ∧ permitted d i ch t.
(** The data stay, and what is broadcast is such a difficulty. *)
Definition announces (s s' : Sv1Server) : Prop :=
  server_data s' = server_data s ∧
  ∃ new, broadcasts s' = broadcasts s ++ new ∧ Forall (within (server_data s)) new.

Lemma announces_refl s : announces s s.
Proof. split; [done|]. exists []. by rewrite app_nil_r. Qed.
Lemma announces_trans s1 s2 s3 : announces s1 s2 → announces s2 s3 → announces s1 s3.
Proof.
  intros [Hd1 (n1 & Hb1 & H1)] [Hd2 (n2 & Hb2 & H2)]. split; [congruence|]. exists (n1 ++ n2).
  rewrite Hb2, Hb1, app_assoc. split; [done|]. apply Forall_app. split; [done|by rewrite <- Hd1].
Qed.
Lemma announces_for_all {A} (f : A → ST Sv1Server TproxyError unit) l s s' :
  (∀ a s1 s2, a ∈ l → server_data s1 = server_data s → f a s1 = (Ok tt, s2) → announces s1 s2) →
  for_all f l s = (Ok tt, s') → announces s s'.
Proof.
  revert s. induction l as [|a l IH]; intros s Hf E; cbn [for_all] in E; [injection E as <-; apply announces_refl|].
  apply st_bind_Ok in E as ([] & s1 & E1 & E). apply Hf in E1; [|set_solver|done].
  eapply announces_trans; [exact E1|]. apply IH; [|done].
  intros b s2 s3 Hb Hd. apply Hf; [set_solver|]. rewrite Hd. apply E1.
Qed.
Lemma announces_send ch i m s s' :
  within (server_data s) (ch, i, m) → ignoring (send_broadcast ch i m) s = (Ok tt, s') → announces s s'.
Proof.
  intros Hw E. unfold ignoring, send_broadcast in E. rewrite st_gets_bind in E.
  destruct (listening s); injection E as <-; [|apply announces_refl]. split; [done|]. by exists [(ch, i, m)]; repeat constructor.
Qed.
Lemma manager_announces m s s' : ignoring (send_manager m) s = (Ok tt, s') → announces s s'.
Proof.
  intros E. unfold ignoring, send_manager in E. rewrite st_gets_bind in E.
  destruct (manager_open s); injection E as <-; split; try done; exists []; by rewrite app_nil_r.
Qed.
Lemma update_announces order l s s' : send_update_channel_messages cfg order l s = (Ok tt, s') → announces s s'.
Proof.
  intros E. unfold send_update_channel_messages in E. rewrite st_gets_bind in E.
  destruct (aggregate_channels cfg); [destruct l as [|[[[? ch] ?] ?] l]|].
  - injection E as <-. apply announces_refl.
  - apply st_bind_Ok in E as (tgt & s1 & E1 & E). apply st_lift_Ok in E1 as [_ ->].
    apply st_bind_Ok in E as (rates & s1 & E1 & E). apply st_lift_Ok in E1 as [_ ->]. by eapply manager_announces.
  - eapply announces_for_all, E. intros [[[? ?] ?] ?] s1 s2 _ _. apply manager_announces.
Qed.

(** Between two states of the controllers the miners keep their channels and
    the pool's targets. *)
Definition linked (s s' : Sv1Server) : Prop :=
  broadcasts s' = broadcasts s ∧
  ∀ i m, downstreams (server_data s) !! i = Some m →
    ∃ m', downstreams (server_data s') !! i = Some m' ∧
      d_channel_id (downstream_data m') = d_channel_id (downstream_data m) ∧
      d_upstream_target (downstream_data m') = d_upstream_target (downstream_data m).
Lemma linked_trans s1 s2 s3 : linked s1 s2 → linked s2 s3 → linked s1 s3.
Proof.
  intros [Hb1 H1] [Hb2 H2]. split; [congruence|]. intros i m Hm. destruct (H1 _ _ Hm) as (m' & Hm' & Hc & Hu).
  destruct (H2 _ _ Hm') as (m'' & Hm'' & Hc' & Hu'). exists m''. split; [done|]. split; congruence.
Qed.
Definition acceptable (s : Sv1Server) (u : Z * Z * Target * f32 * bool) : Prop :=
  let '(i, ch, t, _, immediate) := u in
  immediate = true → permitted (server_data s) i ch t.
Lemma acceptable_linked s s' u : linked s s' → acceptable s u → acceptable s' u.
Proof.
  destruct u as [[[[i ch] t] h] []]; [|done]. intros [_ Hl] Ha _. destruct (Ha eq_refl) as (m & Hm & Hc & Hu).
  destruct (Hl _ _ Hm) as (m' & Hm' & Hc' & Hu'). exists m'. split; [done|]. split; [congruence|]. by rewrite Hu'.
Qed.
Lemma vardiff_one_linked c c' i s u s' :
  vardiff_one chk cfg c c' i s = (Ok u, s') → linked s s' ∧ ∀ x, u = Some x → acceptable s' x.
Proof.
  unfold vardiff_one. assert (Hrefl : linked s s) by (split; [done|]; intros k m Hm; by exists m).
  destruct (vardiff (server_data s) !! i) as [v|]; [|by intros [= <- <-]].
  destruct (downstreams (server_data s) !! i) as [m|] eqn:Hm; [|by intros [= <- <-]]. cbn [fmap option_fmap option_map].
  destruct (d_hashrate _) as [h|]; [|done]. destruct (d_channel_id _) as [ch|] eqn:Hch; [|by intros [= <- <-]].
  destruct (Vardiff.try_vardiff _ _ _ _ _ _ _) as [r v']. set (s1 := on_server _ s).
  assert (Hl1 : linked s s1) by (split; [done|]; intros k b Hb; by exists b).
  destruct r as [[rate|]| |]; [|by intros [= <- <-]..|done].
  destruct (hash_rate_to_target _ _ _) as [bytes| |]; [|by intros [= <- <-]|done].
  set (t := Target_from_bytes bytes). set (s2 := on_server _ s1).
  assert (Hl2 : linked s s2).
  { split; [done|]. intros k b Hb. unfold s2, s1. cbn. destruct (decide (i = k)) as [<-|Hk].
    - rewrite lookup_alter_eq, Hb. eexists. split; [done|]. done.
    - rewrite lookup_alter_ne, Hb by done. by exists b. }
  set (imm := match d_upstream_target _ with Some _ => _ | None => _ end). intros [= <- <-].
  split; [by destruct imm|]. intros x [= <-]. cbn. intros Himm. destruct (proj2 Hl2 _ _ Hm) as (m' & Hm' & Hc' & Hu').
  exists m'. rewrite Himm. split; [done|]. split; [congruence|]. rewrite Hu'.
  intros up Hup. unfold imm in Himm. by rewrite Hup in Himm.
Qed.
Lemma vardiff_all_linked c c' l s us s' :
  vardiff_all chk cfg c c' l s = (Ok us, s') → linked s s' ∧ Forall (acceptable s') us.
Proof.
  revert s us. induction l as [|i l IH]; intros s us E; cbn [vardiff_all] in E.
  { injection E as <- <-. split; [|done]. split; [done|]. intros k m Hm. by exists m. }
  apply st_bind_Ok in E as (u & s1 & E1 & E). apply st_bind_Ok in E as (us' & s2 & E2 & E). injection E as <- <-.
  apply vardiff_one_linked in E1 as [Hl1 Hu]. apply IH in E2 as [Hl2 Hus]. split; [by eapply linked_trans|].
  destruct u as [u|]; [|done]. constructor; [|done]. eapply acceptable_linked; [done|]. by apply Hu.
Qed.

(** An answer of the pool: the updates that wait for it. *)
Lemma pending_announces t who s us s' :
  get_pending_difficulty_updates t who s = (Ok us, s') →
  broadcasts s' = broadcasts s ∧ downstreams (server_data s') = downstreams (server_data s) ∧
  Forall (λ u, concerns who u = true ∧ Target_ge (pu_new_target u) t = true) us ∧
  Forall (λ u, concerns who u = false) (pending_target_updates (server_data s')).
Proof.
  unfold get_pending_difficulty_updates. intros [= <- <-]. split; [done|]. split; [done|]. split.
  - apply List.Forall_forall. intros u [_ Hu]%filter_In. by apply andb_true_iff in Hu.
  - apply List.Forall_forall. cbn. intros u [_ Hu]%filter_In. by apply negb_true_iff in Hu.
Qed.
Lemma send_pending_announces us s s' :
  (∀ u ch, u ∈ us → d_channel_id ∘ downstream_data <$> downstreams (server_data s) !! pu_downstream_id u = Some (Some ch) →
     permitted (server_data s) (pu_downstream_id u) ch (pu_new_target u)) →
  send_pending_set_difficulty us s = (Ok tt, s') → announces s s'.
Proof.
  intros Hp E. unfold send_pending_set_difficulty in E. eapply announces_for_all, E. intros u s1 s2 Hu Hd E1.
  cbn beta in E1. rewrite st_gets_bind, Hd in E1. specialize (Hp u). destruct (_ <$> _) as [[ch|]|];
    [|injection E1 as <-; apply announces_refl..]. eapply announces_send, E1. rewrite Hd.
  eexists _, _, _. split; [reflexivity|]. by apply Hp.
Qed.
Lemma miner_channel d i ch :
  d_channel_id ∘ downstream_data <$> downstreams d !! i = Some (Some ch) →
  ∃ m, downstreams d !! i = Some m ∧ d_channel_id (downstream_data m) = Some ch.
Proof. destruct (downstreams d !! i) as [m|]; [|done]. cbn. intros [= <-]. by exists m. Qed.
Lemma set_target_announces order ch t s s' :
  handle_set_target_message cfg order ch t s = (Ok tt, s') →
  ∃ s1, broadcasts s1 = broadcasts s ∧ announces s1 s'.
Proof.
  intros E. unfold handle_set_target_message in E. destruct (aggregate_channels cfg).
  - unfold handle_aggregated_set_target in E. rewrite st_modify_bind in E.
    apply st_bind_Ok in E as (us & s1 & E1 & E). apply pending_announces in E1 as (Hb & Hd & Hus & _).
    exists s1. split; [by rewrite Hb|]. eapply send_pending_announces, E. intros u k Hu Hk.
    apply miner_channel in Hk as (m & Hm & Hc). exists m. split; [done|]. split; [done|].
    rewrite Hd in Hm. cbn in Hm. rewrite lookup_fmap in Hm. apply fmap_Some in Hm as (b & _ & ->). cbn.
    intros up [= <-]. rewrite Forall_forall in Hus. by apply (Hus u), list_elem_of_In.
  - unfold handle_non_aggregated_set_target in E. rewrite st_gets_bind in E.
    destruct (miner_of order ch _) as [i|]; [|injection E as <-; exists s; split; [done|apply announces_refl]].
    rewrite st_modify_bind in E. apply st_bind_Ok in E as (us & s1 & E1 & E). apply pending_announces in E1 as (Hb & Hd & Hus & _).
    exists s1. split; [by rewrite Hb|]. eapply send_pending_announces, E. intros u k Hu Hk.
    rewrite Forall_forall in Hus. destruct (Hus u (proj1 (list_elem_of_In _ _) Hu)) as [Hi Hge]. cbn in Hi. apply Z.eqb_eq in Hi.
    apply miner_channel in Hk as (m & Hm & Hc). exists m. split; [done|]. split; [done|].
    rewrite Hd, Hi in Hm. cbn in Hm. rewrite lookup_alter_eq in Hm. apply fmap_Some in Hm as (b & _ & ->). cbn.
    by intros up [= <-].
Qed.
End difficulty.

(** C25 No miner is held to a harder target than the pool's, so no share that
    the pool would take is held back: every difficulty that the periodic adjustment or an
    answer of the pool broadcasts is addressed to one miner on its channel, and
    its target is at least the target the pool last set for that miner. *)
Theorem difficulties_within_pool `{Bitcoin} (chk : bool) (cfg : TranslatorConfig) (clock clock' : option Z)
    (order order' : list Z) (channel_id : Z) (maximum_target : bytes) (s s' : Sv1Server) :
  handle_vardiff_updates chk cfg clock clock' order order' s = (Ok tt, s') ∨
  handle_set_target_message cfg order channel_id maximum_target s = (Ok tt, s') →
  ∃ new, broadcasts s' = broadcasts s ++ new ∧ Forall (within (server_data s')) new.
Proof.
  assert (Hdone : ∀ s1, broadcasts s1 = broadcasts s → announces s1 s' →
    ∃ new, broadcasts s' = broadcasts s ++ new ∧ Forall (within (server_data s')) new).
  { intros s1 Hb [Hd (new & Hn & Hf)]. exists new. by rewrite Hn, Hb, Hd. }
  intros [E|E].
  - unfold handle_vardiff_updates in E. apply st_bind_Ok in E as (us & s1 & E1 & E).
    apply vardiff_all_linked in E1 as [[Hb _] Hus]. apply st_bind_Ok in E as ([] & s2 & E2 & E).
    apply (Hdone s1 Hb). apply (announces_trans s1 s2 s').
    { destruct us; [injection E2 as <-; apply announces_refl|by eapply update_announces]. }
    assert (Hd2 : server_data s2 = server_data s1)
      by (destruct us; [by injection E2 as <-|apply (update_announces _ _ _ _ _ E2)]).
    eapply announces_for_all, E. intros [[[[i ch] t] h] []] s3 s4 Hu Hd E4; [|injection E4 as <-; apply announces_refl].
    eapply announces_send, E4. rewrite Forall_forall in Hus. rewrite Hd, Hd2.
    eexists _, _, _. split; [reflexivity|]. by apply (Hus _ (proj1 (list_elem_of_In _ _) Hu)).
  - apply set_target_announces in E as (s1 & Hb & Ha). by eapply Hdone.
Qed.

Section skew.
Context `{Bitcoin} `{Hex} (chk : bool) (cfg : TranslatorConfig).

(** An update that has to wait for the pool is pending at its miner already. *)
Lemma vardiff_one_delayed c c' i s k ch t h s' :
  vardiff_one chk cfg c c' i s = (Ok (Some (k, ch, t, h, false)), s') →
  ∃ m u, downstreams (server_data s) !! i = Some m ∧ d_channel_id (downstream_data m) = Some ch ∧
    downstreams (server_data s') !! i = Some (on_dd (set_pending (Some t) (Some h)) m) ∧
    d_upstream_target (downstream_data m) = Some u ∧ Client.Target_lt t u = true.
Proof.
  unfold vardiff_one. destruct (vardiff (server_data s) !! i) as [v|]; [|done].
  destruct (downstreams (server_data s) !! i) as [m|] eqn:Hm; [|done]. cbn [fmap option_fmap option_map].
  destruct (d_hashrate _) as [r|]; [|done]. destruct (d_channel_id _) as [ch'|] eqn:Hch; [|done].
  destruct (Vardiff.try_vardiff _ _ _ _ _ _ _) as [[[rate|]| |] v']; [|done..].
  destruct (hash_rate_to_target _ _ _) as [bytes| |]; [|done..].
  destruct (d_upstream_target (downstream_data m)) as [u|] eqn:Hu; [|done].
  intros Heq. injection Heq as _ <- <- <- Himm <-. exists m, u. split; [done|]. split; [done|]. rewrite Himm.
  split; [|split; [done|]].
  - cbn. by rewrite lookup_alter_eq, Hm.
  - unfold Target_ge in Himm. by apply negb_false_iff in Himm.
Qed.
Lemma send_miner_open msg m :
  miner_open m = true →
  send_miner msg m = (Ok tt, mkMiner (downstream_data m) (to_miner m ++ [msg]) (to_server m) (miner_open m) (server_open m)).
Proof. intros Ho. unfold send_miner. rewrite st_gets_bind. destruct m; cbn in *. by subst. Qed.
(** A job goes out with the difficulty that waits for it. *)
Lemma deliver_with_difficulty n notify m t :
  miner_open m = true → d_cached_set_difficulty (downstream_data m) = Some t → V1Server.Notify_try_from n = Ok notify →
  ∃ m', deliver_notify n m = (Ok tt, m') ∧
    to_miner m' = to_miner m ++ [t; MNotification (V1Server.Notify_message (clean notify))] ∧
    d_target (downstream_data m') = default (d_target (downstream_data m)) (d_pending_target (downstream_data m)).
Proof.
  intros Ho Hc Hn. unfold deliver_notify. rewrite st_gets_bind, st_modify_bind, Hc, Hn. cbn iota.
  rewrite !st_modify_bind. unfold send_cached. unfold mbind, ST_bind. rewrite send_miner_open by done. cbv iota beta.
  rewrite send_miner_open by done. eexists. split; [reflexivity|]. split; [|done].
  cbn. by rewrite <- app_assoc.
Qed.
Lemma notify_delivered n m :
  nt_method n = text "mining.notify" → d_processing_queued (downstream_data m) = true →
  handle_sv1_server_message 0 None (MNotification n) m = deliver_notify n m.
Proof.
  intros Hn Hq. unfold handle_sv1_server_message. rewrite st_gets_bind, Hn, Hq, !orb_true_r. cbn [andb negb].
  by rewrite bool_decide_eq_false_2, bool_decide_eq_true_2.
Qed.
End skew.

(** A target can bind a miner that was not told it.  When the adjustment
    chooses a target that has to wait for the pool while an earlier difficulty
    is still waiting for the next job, that job goes out with the earlier
    difficulty and the harder target takes effect: shares between the two are
    refused although the miner meets the difficulty it was sent. *)
Theorem unannounced_target_applied `{Bitcoin} `{Hex} (chk : bool) (cfg : TranslatorConfig) (clock clock' : option Z)
    (i k ch : Z) (announced target : Target) (rate : f32) (s s' : Sv1Server) (m : Miner) (n : Notification)
    (notify : V1Server.Notify) :
  downstreams (server_data s) !! i = Some m → miner_open m = true →
  d_processing_queued (downstream_data m) = true →
  d_cached_set_difficulty (downstream_data m) = Some (set_difficulty_message announced) →
  vardiff_one chk cfg clock clock' i s = (Ok (Some (k, ch, target, rate, false)), s') →
  nt_method n = text "mining.notify" → V1Server.Notify_try_from n = Ok notify →
  ∃ m1 m2, downstreams (server_data s') !! i = Some m1 ∧
    handle_sv1_server_message 0 None (MNotification n) m1 = (Ok tt, m2) ∧
    to_miner m2 = to_miner m ++ [set_difficulty_message announced; MNotification (V1Server.Notify_message (clean notify))] ∧
    d_target (downstream_data m2) = target.
Proof.
  intros Hm Ho Hq Hc E Hn Hp. apply vardiff_one_delayed in E as (m' & u & Hm' & _ & Hm1 & _).
  rewrite Hm in Hm'. injection Hm' as <-.
  destruct (deliver_with_difficulty n notify (on_dd (set_pending (Some target) (Some rate)) m)
    (set_difficulty_message announced) Ho Hc Hp) as (m2 & E2 & Ht & Hd).
  exists (on_dd (set_pending (Some target) (Some rate)) m), m2. split; [exact Hm1|].
  rewrite (notify_delivered n (on_dd (set_pending (Some target) (Some rate)) m) Hn Hq). split; [exact E2|]. split; [exact Ht|exact Hd].
Qed.

(** ** Jobs of the current block *)

Section jobs.
Context `{Bitcoin} `{Hex} (chk : bool) (cfg : TranslatorConfig).

Inductive ServerEvent : Type :=
  | Accepted (first_target : Target) (clock : option Z)
  | Left_ (order : list Z) (i : Z)
  | LeftAll
  | FromMiner (m : DownstreamMessages)
  | FromManager (order : list Z) (first_target : Target) (m : ToSv1)
  | Tick (clock clock' : option Z) (order order' : list Z)
  (** The task of miner [i] handles a request or a broadcast. *)
  | MinerSends (i : Z) (msg : Message)
  | MinerHears (i channel_id : Z) (downstream_id : option Z) (msg : Message).
Definition on_task (i : Z) (f : ST Miner TproxyError unit) : ST Sv1Server TproxyError unit :=
  modify (on_server (λ d, set_downstreams (alter (λ m, (f m).2) i (downstreams d)) d)).
Definition server_step (e : ServerEvent) : ST Sv1Server TproxyError unit :=
  match e with
  | Accepted t clock => accept chk cfg t clock
  | Left_ order i => downstream_shutdown cfg order i
  | LeftAll => downstream_shutdown_all cfg
  | FromMiner m => server_handle_downstream_message chk cfg m
  | FromManager order t m => handle_upstream_message cfg order t m
  | Tick clock clock' order order' => handle_vardiff_updates chk cfg clock clock' order order'
  | MinerSends i msg => jobs ← gets (valid_jobs ∘ server_data); on_task i (handle_downstream_message jobs msg)
  | MinerHears i ch to msg => on_task i (handle_sv1_server_message ch to msg)
  end.

(** The shared jobs are those of the current block, unless the next job
    replaces them all. *)
Definition on_block (p : SetNewPrevHashMp) (j : V1Server.Notify) : Prop :=
  V1Server.prev_hash j = ph_prev_hash p ∧ V1Server.bits j = ph_nbits p.
Definition current_jobs (s : Sv1Server) : Prop :=
  ∃ l, aggregated_valid_jobs (valid_jobs (server_data s)) = Some l ∧
    match prevhash (server_data s) with
    | None => l = []
    | Some p => clean_job s = true ∨ Forall (on_block p) l
    end.

Lemma notify_on_block p m c n : build_sv1_notify_from_sv2 p m c = Ok n → on_block p n.
Proof.
  unfold build_sv1_notify_from_sv2. intros E. apply bind_Ok in E as (x & _ & E). apply bind_Ok in E as (y & _ & E).
  by injection E as <-.
Qed.
Lemma current_send m : keeps current_jobs (send_manager m).
Proof. unfold send_manager. keeps_all. by apply keeps_modify. Qed.
Lemma current_broadcast ch i m : keeps current_jobs (send_broadcast ch i m).
Proof. unfold send_broadcast. keeps_all. by apply keeps_modify. Qed.
Lemma current_ignoring m : keeps current_jobs m → keeps current_jobs (ignoring m).
Proof. intros Hm s Hs. specialize (Hm s Hs). unfold ignoring. by destruct (m s) as [[] ?]. Qed.
Lemma current_for_all {A} (f : A → ST Sv1Server TproxyError unit) l :
  (∀ a, keeps current_jobs (f a)) → keeps current_jobs (for_all f l).
Proof. intros Hf. induction l as [|a l IH]; cbn [for_all]; keeps_all; auto. Qed.
Hint Resolve current_send current_broadcast current_ignoring current_for_all : keeps.
Ltac current := keeps_all; auto with keeps; try (apply keeps_modify; done).

Lemma current_vardiff_one c c' i : keeps current_jobs (vardiff_one chk cfg c c' i).
Proof.
  intros s Hs. unfold vardiff_one. destruct (vardiff _ !! i); [|done]. destruct (_ <$> _); [|done].
  destruct (d_hashrate _); [|done]. destruct (d_channel_id _); [|done].
  destruct (Vardiff.try_vardiff _ _ _ _ _ _ _) as [[[]| |] ?]; try done.
  destruct (hash_rate_to_target _ _ _); try done. by destruct (match d_upstream_target _ with Some _ => _ | None => _ end).
Qed.
Lemma current_vardiff_all c c' l : keeps current_jobs (vardiff_all chk cfg c c' l).
Proof. induction l as [|i l IH]; cbn [vardiff_all]; current. apply current_vardiff_one. Qed.
Lemma current_updates order l : keeps current_jobs (send_update_channel_messages cfg order l).
Proof. unfold send_update_channel_messages. current. apply current_for_all. intros. current. Qed.
Lemma current_tick c c' o o' : keeps current_jobs (handle_vardiff_updates chk cfg c c' o o').
Proof.
  unfold handle_vardiff_updates. apply keeps_bind; [apply current_vardiff_all|]. intros us. apply keeps_bind.
  - destruct us; [apply keeps_ret|apply current_updates].
  - intros _. apply current_for_all. intros [[[[i ch] t] h] []]; current.
Qed.
Lemma current_set_target o ch t : keeps current_jobs (handle_set_target_message cfg o ch t).
Proof.
  assert (Hget : ∀ t who, keeps current_jobs (get_pending_difficulty_updates t who)) by (by intros ????).
  assert (Hsend : ∀ us, keeps current_jobs (send_pending_set_difficulty us)).
  { intros us. unfold send_pending_set_difficulty. apply current_for_all. intros u. current. }
  unfold handle_set_target_message, handle_aggregated_set_target, handle_non_aggregated_set_target. current.
Qed.
Lemma current_set_target_plain o ch t : keeps current_jobs (handle_set_target_without_vardiff cfg o ch t).
Proof.
  assert (Hs : ∀ t i, keeps current_jobs (send_set_difficulty_to t i)) by (intros; unfold send_set_difficulty_to; current).
  unfold handle_set_target_without_vardiff. current.
Qed.
Lemma current_changed order : keeps current_jobs (state_changed cfg order).
Proof. unfold state_changed, send_update_channel_on_downstream_state_change. current. Qed.
Lemma current_share m : keeps current_jobs (handle_submit_shares chk cfg m).
Proof.
  unfold handle_submit_shares. current. intros s Hs. destruct (vardiff _ !! _); [|done].
  by destruct (Vardiff.increment_shares_since_last_update _ _) as [[] ?].
Qed.
Lemma current_opened t m : keeps current_jobs (channel_opened t m).
Proof.
  assert (Hq : ∀ ch i msg, keeps current_jobs (process_queued ch i msg)).
  { intros ch i msg s Hs. unfold process_queued. destruct (downstreams _ !! i) as [b|]; [|done].
    destruct (handle_message _ _) as [[[r|]| |] [? d]]; try done. by apply current_broadcast. }
  unfold channel_opened. current.
Qed.
Lemma current_new_job m : keeps current_jobs (new_job m).
Proof.
  intros s Hs. unfold new_job. rewrite st_gets_bind. destruct (prevhash (server_data s)) as [p|] eqn:Hp; [|done].
  rewrite st_gets_bind. destruct (build_sv1_notify_from_sv2 p m (clean_job s)) as [n| |] eqn:En; [|done..].
  cbn [map_err]. rewrite st_lift_bind, !st_modify_bind. apply (current_ignoring _ (current_broadcast _ _ _)).
  destruct Hs as (l & Hl & Hjobs). rewrite Hp in Hjobs. unfold current_jobs. cbn. rewrite Hp. unfold store_job. rewrite Hl.
  eexists. split; [reflexivity|]. right. apply Forall_app. apply notify_on_block in En. split; [|by constructor; [|constructor]].
  destruct Hjobs as [->|Hf]; [done|]. by destruct (clean_job s).
Qed.
Lemma current_step e : keeps current_jobs (server_step e).
Proof.
  destruct e as [t c|o i|  |[m|i]|o t [m|m|m|ch m]|c c' o o'|i msg|i ch to msg]; cbn [server_step].
  - unfold accept. current. by eapply (keeps_zoom current_jobs _ _ _ (λ _, True)).
  - unfold downstream_shutdown. current. all: try apply current_changed. apply keeps_modify. by destruct (enable_vardiff cfg).
  - unfold downstream_shutdown_all. current; [|apply current_changed]. apply keeps_modify. by destruct (enable_vardiff cfg).
  - apply current_share.
  - cbn. unfold handle_open_channel_request, open_extended_mining_channel. current.
  - apply current_opened.
  - apply current_new_job.
  - intros s (l & Hl & Hj). exists l. split; [done|]. cbn. by left.
  - cbn. current; [apply current_set_target|apply current_set_target_plain].
  - apply current_tick.
  - unfold on_task. current.
  - unfold on_task. current.
Qed.
End jobs.

(** C15 In aggregated mode the translator checks shares against the current
    block only: in every state its V1 server reaches, whatever the miners and
    the pool send and in whatever order, once the job after a new block has been
    announced every job a share may name, and so the header of every share the
    check accepts, builds on the block and difficulty bits of the last
    [SetNewPrevHash]. *)
Theorem shares_on_current_block `{Bitcoin} `{Hex} (chk : bool) (cfg : TranslatorConfig) (s : Sv1Server)
    (ch : Z) (share : V1Client.Submit) (extranonce1 : bytes) (mask : option Z) (job : V1Server.Notify) (header : BlockHeader) :
  rtc (λ a b, ∃ e, b = (server_step chk cfg e a).2) (Sv1Server_new true) s →
  clean_job s = false → find_job ch (V1Client.job_id share) (valid_jobs (server_data s)) = Some job →
  sv1_header share extranonce1 mask job = Ok header →
  ∃ p, prevhash (server_data s) = Some p ∧ prev_blockhash header = ph_prev_hash p ∧ bits header = ph_nbits p.
Proof.
  intros Hr Hclean Hf Hh. assert (Hc : current_jobs s).
  { assert (Hc0 : current_jobs (Sv1Server_new true)) by (by exists []).
    clear -Hr Hc0. induction Hr as [|a b c [e ->] _ IH]; [done|]. apply IH. by apply current_step. }
  destruct Hc as (l & Hl & Hj). unfold find_job in Hf. rewrite Hl in Hf. apply find_some in Hf as [Hin _].
  destruct (prevhash (server_data s)) as [p|]; [|by subst l]. exists p. split; [done|].
  destruct Hj as [Hj|Hj]; [congruence|]. rewrite Forall_forall in Hj. destruct (Hj _ Hin) as [Hp Hb].
  unfold sv1_header in Hh. destruct (negb _); [done|]. apply bind_Ok in Hh as (r & _ & Hh). destruct (negb _); [done|].
  by injection Hh as <-.
Qed.

(** ** Examples *)

#[local] Existing Instance model_bitcoin.
#[local] Existing Instance model_hex.
Definition shared_config : TranslatorConfig := mkConfig sample_rate sample_spm true 4 (text "user") true.
Definition first_target : Target := sample_max.
Fixpoint serve (l : list ServerEvent) (s : Sv1Server) : Sv1Server :=
  match l with [] => s | e :: l => serve l (server_step false shared_config e s).2 end.
Lemma serve_reached l s : rtc (λ a b, ∃ e, b = (server_step false shared_config e a).2) s (serve l s).
Proof. revert s. induction l as [|e l IH]; intros s; cbn [serve]; [done|]. eapply rtc_l; [by eexists|apply IH]. Qed.
(** A miner connects, authorizes, and gets a channel and a job. *)
Definition authorize_message : Message := MStandardRequest (V1Client.Authorize_message (V1Client.mkAuthorize 1 (text "w") (text "x"))).
Definition opening : list ServerEvent :=
  [Accepted first_target (Some 1000); MinerSends 1 authorize_message; FromMiner (OpenChannel 1);
   FromManager [1] first_target (SvOpenSuccess (mkOpenSuccess 1 1 (to_le_bytes 32 (2 ^ 240)) 16 (to_le_bytes 16 9)));
   FromManager [1] first_target (SvSetNewPrevHash sample_tip);
   FromManager [1] first_target (SvNewExtendedMiningJob (with_channel_id 0 (sample_job 1)))].
Definition opened : Sv1Server := serve opening (Sv1Server_new true).
Definition no_miner : Miner := mkMiner (DownstreamData_new 0 first_target None) [] [] true true.
Definition miner1 (s : Sv1Server) : Miner := default no_miner (downstreams (server_data s) !! 1).
Definition no_notify : V1Server.Notify := V1Server.mkNotify [] [] [] [] [] 0 0 0 false.
Definition first_job : V1Server.Notify :=
  from_ok no_notify (build_sv1_notify_from_sv2 sample_tip (sample_job 1) true).
Definition notified : Sv1Server :=
  serve [MinerHears 1 1 None (set_difficulty_message first_target);
         MinerHears 1 0 None (MNotification (V1Server.Notify_message first_job))] opened.
Definition sample_submit : V1Client.Submit :=
  V1Client.mkSubmit (text "w") (text "1") (to_le_bytes 16 7) 1700000001 2 None 5.
Definition submit_message : Message := MStandardRequest (V1Client.Submit_message sample_submit).
Definition sample_header : BlockHeader :=
  from_ok (mkBlockHeader 0 [] [] 0 0 0) (sv1_header sample_submit (to_le_bytes 16 9) None first_job).

Lemma shares_on_current_block_witness :
  validate_sv1_share sample_submit first_target (to_le_bytes 16 9) None (valid_jobs (server_data opened)) 1 = Ok true ∧
  ∃ p, prevhash (server_data opened) = Some p ∧ prev_blockhash sample_header = ph_prev_hash p ∧ bits sample_header = ph_nbits p.
Proof.
  split; [by vm_compute|].
  apply (shares_on_current_block false shared_config opened 1 sample_submit (to_le_bytes 16 9) None first_job sample_header
           (serve_reached opening _)); vm_compute; reflexivity.
Defined.
Lemma v1_share_translated_witness :
  is_valid_submission sample_submit (valid_jobs (server_data notified), downstream_data (miner1 notified)) = true ∧
  validate_sv1_share sample_submit (d_target (downstream_data (miner1 notified)))
    (d_extranonce1 (downstream_data (miner1 notified))) None (valid_jobs (server_data notified)) 1 = Ok true ∧
  ∃ r s', handle_downstream_message (valid_jobs (server_data notified)) submit_message (miner1 notified) = (r, s') ∧
    r = Ok tt ∧ ∃ sent, to_server s' = to_server (miner1 notified) ++ [SubmitShares sent].
Proof.
  assert (Hv : is_valid_submission sample_submit (valid_jobs (server_data notified), downstream_data (miner1 notified)) = true)
    by (vm_compute; reflexivity).
  assert (Hc : validate_sv1_share sample_submit (d_target (downstream_data (miner1 notified)))
    (d_extranonce1 (downstream_data (miner1 notified))) (d_version_rolling_mask (downstream_data (miner1 notified)))
    (valid_jobs (server_data notified)) 1 = Ok true) by (vm_compute; reflexivity).
  split; [exact Hv|]. split; [exact Hc|].
  destruct (v1_share_translated shared_config (valid_jobs (server_data notified)) (miner1 notified) submit_message
    sample_submit 1 1 0x20000000 notified) as (r & s' & E & Hs); [vm_compute; reflexivity..|].
  rewrite Hv, Hc in Hs. destruct Hs as (Hr & _ & job & header & sent & srv' & m & _ & _ & _ & Hsent & _).
  exists r, s'. split; [exact E|]. split; [exact Hr|]. exists sent. exact Hsent.
Defined.

Lemma departures_stop_manager_witness :
  (∃ srv' u, downstream_shutdown_all shared_config opened = (Ok tt, srv') ∧
     to_manager srv' = to_manager opened ++ [SvUpdate u] ∧
     (handle_sv1_message false (SvUpdate u) (on_upstream_reconnected busy).2).1 = Panic) ∧
  (∃ srv1 srv2 u, accept false shared_config first_target (Some 1000) (Sv1Server_new true) = (Ok tt, srv1) ∧
     downstream_shutdown shared_config [] 1 srv1 = (Ok tt, srv2) ∧ to_manager srv2 = [SvUpdate u] ∧
     (upstream_extended_channel (data busy) = None → (handle_sv1_message false (SvUpdate u) busy).1 = Panic)).
Proof.
  apply (departures_stop_manager false shared_config opened busy first_target 1000); vm_compute; reflexivity.
Defined.

(** The pool's target is hard, so the first adjustment is announced at once. *)
Definition hard_pool : Sv1Server :=
  on_server (on_miner 1 (set_upstream_target (Target_from_bytes (to_le_bytes 32 1000)))) notified.
Definition ticked : Sv1Server := serve [Tick (Some 1020) (Some 1020) [1] [1]] hard_pool.
Lemma difficulties_within_pool_witness :
  length (broadcasts ticked) = S (length (broadcasts hard_pool)) ∧
  ∃ new, broadcasts ticked = broadcasts hard_pool ++ new ∧ Forall (within (server_data ticked)) new.
Proof.
  split; [by vm_compute|].
  apply (difficulties_within_pool false shared_config (Some 1020) (Some 1020) [1] [1] 0 [] hard_pool ticked).
  left. vm_compute. reflexivity.
Defined.

(** A difficulty waits for the next job, and the adjustment moves on. *)
Definition waiting : Sv1Server := serve [MinerHears 1 1 None (set_difficulty_message first_target)] opened.
Definition adjusted_to : Target :=
  match vardiff_one false shared_config (Some 1020) (Some 1020) 1 waiting with
  | (Ok (Some (_, _, t, _, _)), _) => t
  | _ => first_target
  end.
Definition adjusted_server : Sv1Server := (vardiff_one false shared_config (Some 1020) (Some 1020) 1 waiting).2.
Lemma unannounced_target_applied_witness :
  Client.Target_lt adjusted_to first_target = true ∧
  ∃ m1 m2, downstreams (server_data adjusted_server) !! 1 = Some m1 ∧
    handle_sv1_server_message 0 None (MNotification (V1Server.Notify_message first_job)) m1 = (Ok tt, m2) ∧
    to_miner m2 = to_miner (miner1 waiting) ++
      [set_difficulty_message first_target; MNotification (V1Server.Notify_message (clean first_job))] ∧
    d_target (downstream_data m2) = adjusted_to.
Proof.
  split; [by vm_compute|].
  apply (unannounced_target_applied false shared_config (Some 1020) (Some 1020) 1 1 1 first_target adjusted_to
    (S754_finite false 10172526 16) waiting adjusted_server (miner1 waiting)
    (V1Server.Notify_message first_job) first_job); vm_compute; reflexivity.
Defined.
