(* ===== verification/Sv1Session.v ===== *)
(** * A V1 miner and the translator

    The CPU miner of [mining-device-sv1] connected to a miner's connection of
    the translator: the two handlers agree on the extranonces and the worker,
    and a share the miner finds is the share the translator checks. *)

From stdpp Require Import gmap.
From S2P Require Import Prelude Mining MiningProperties Difficulty Bitcoin BitcoinModel Jobs JobFacts Channels Downstream ClientChannels Sv1 Sv1Properties Translation Translator Sv1Miner Sv1Client Sv1Server Sv1ServerProperties.
#[local] Open Scope Z_scope.
#[local] Open Scope list_scope.
Import Cpu.

Notation Session := (ValidJobs * DownstreamData)%type.

Section session.
Context `{Hex} `{!HexLaws} `{Bitcoin} `{!BitcoinLaws} `{BigUint}.

Definition take_outgoing (c : Client) : Client :=
  mkClient (client_id c) (extranonce1 c) (extranonce2_size c) (version_rolling_mask c) (version_rolling_min_bit c) (status c)
    (sented_authorize_request c) (authorized c) (miner c) (tail (sender_outgoing c)).
(** The first message of the miner reaches the server, and its answer the miner. *)
Definition exchange (now : Z) (x : Client * Session) : result V1Error (Client * Session) :=
  match sender_outgoing x.1 with
  | [] => Ok x
  | m :: _ =>
      let '(answer, s) := handle_message m x.2 in
      answer ← answer;
      match answer with
      | None => Ok (take_outgoing x.1, s)
      | Some r =>
          let '(done_, c) := connect_turn now (Message_of_Response r) (take_outgoing x.1) in
          _ ← done_; Ok (c, s)
      end
  end.

Lemma exchange_step now c s m l r s' c' :
  sender_outgoing c = m :: l → handle_message m s = (Ok (Some r), s') →
  connect_turn now (Message_of_Response r) (take_outgoing c) = (Ok tt, c') → exchange now (c, s) = Ok (c', s').
Proof. intros Hm Hh Hc. unfold exchange. cbn [fst snd]. rewrite Hm, Hh. cbn [mbind result_bind]. by rewrite Hc. Qed.

(** ** The requests as the server reads them *)

Lemma read_configure id :
  Client2Server_try_from (MStandardRequest (V1Client.Configure_message (V1Client.Configure_void id)))
  = Ok (CConfigure (V1Client.Configure_void id)).
Proof. done. Qed.
Lemma read_subscribe m :
  (∀ x, V1Client.cs_extranonce1 m = Some x → zlen x ≤ 32) →
  Client2Server_try_from (MStandardRequest (V1Client.Subscribe_message m)) = Ok (CSubscribe m).
Proof.
  intros Hx. unfold Client2Server_try_from, Method_try_from.
  assert (rq_method (V1Client.Subscribe_message m) = text "mining.subscribe") as -> by done.
  rewrite bool_decide_eq_false_2 by (vm_compute; congruence). rewrite bool_decide_eq_true_2 by done.
  by rewrite subscribe_roundtrip.
Qed.
Lemma read_authorize m :
  Client2Server_try_from (MStandardRequest (V1Client.Authorize_message m)) = Ok (CAuthorize m).
Proof.
  unfold Client2Server_try_from, Method_try_from.
  assert (rq_method (V1Client.Authorize_message m) = text "mining.authorize") as -> by done.
  do 2 rewrite bool_decide_eq_false_2 by (vm_compute; congruence). rewrite bool_decide_eq_true_2 by done. by destruct m.
Qed.
Lemma read_submit m :
  submit_wf m → Client2Server_try_from (MStandardRequest (V1Client.Submit_message m)) = Ok (CSubmit m).
Proof.
  intros Hm. unfold Client2Server_try_from, Method_try_from.
  assert (rq_method (V1Client.Submit_message m) = text "mining.submit") as -> by done.
  do 4 rewrite bool_decide_eq_false_2 by (vm_compute; congruence). rewrite bool_decide_eq_true_2 by done.
  by rewrite submit_roundtrip.
Qed.
Lemma read_bool id b : Method_try_from (MOkResponse (V1Client.respond_bool id b)) = Ok (MServer2ClientResponse (RGeneral (V1Server.mkGeneral id b))).
Proof. done. Qed.
Lemma read_notify n : notify_wf n → Method_try_from (MNotification (V1Server.Notify_message n)) = Ok (MServer2Client (SNotify n)).
Proof.
  intros Hn. unfold Method_try_from. assert (nt_method (V1Server.Notify_message n) = text "mining.notify") as -> by done.
  rewrite bool_decide_eq_true_2 by done. by rewrite notify_roundtrip.
Qed.

(** ** The handshake *)

(** The literal the client decodes. *)
Context (Hlit : hex_decode_ (text "08000002") = Some [byte.of_Z 8; byte.of_Z 0; byte.of_Z 0; byte.of_Z 2]).
Definition suggested : bytes := [byte.of_Z 8; byte.of_Z 0; byte.of_Z 0; byte.of_Z 2].
Lemma literal_ok : (l ← hex_decode (text "08000002"); Extranonce_try_from l) = Ok suggested.
Proof. unfold hex_decode. rewrite Hlit. done. Qed.

Definition configured (cid now : Z) (t : option bytes) : Client :=
  mkClient cid None None (Some 0) (Some 0) Configured [] [] (new_target (initial_target t) Miner_new)
    [MStandardRequest (V1Client.Subscribe_message (V1Client.mkSubscribe now (decimal cid) (Some suggested)))].
(** What the server answers. *)
Definition rolling0 : V1Server.VersionRollingParams := V1Server.mkVersionRolling true 0 0.
Lemma server_configure id (s : Session) :
  handle_message (MStandardRequest (V1Client.Configure_message (V1Client.Configure_void id))) s
  = (Ok (Some (V1Server.Configure_response (V1Server.mkConfigure id (Some rolling0) (Some false)))),
     (s.1, Sv1Miner.set_rolling None None s.2)).
Proof. unfold handle_message, handle_request. rewrite read_configure. by destruct s as [jobs []]. Qed.
Lemma server_subscribe m (s : Session) :
  (∀ x, V1Client.cs_extranonce1 m = Some x → zlen x ≤ 32) → zlen (d_extranonce1 s.2) ≤ 32 →
  handle_message (MStandardRequest (V1Client.Subscribe_message m)) s
  = (Ok (Some (V1Server.Subscribe_response (V1Server.mkSubscribe (V1Client.cs_id m) (d_extranonce1 s.2) (d_extranonce2_len s.2)
       (down_handle_subscribe m s)))), s).
Proof.
  intros Hx Hl. unfold handle_message, handle_request. rewrite read_subscribe by done. cbn [map_err]. rewrite st_lift_bind, st_gets_bind.
  erewrite st_bind_ok; [|cbn; unfold down_extranonce1, Extranonce_try_from; by rewrite (proj2 (Z.ltb_ge 32 (zlen (d_extranonce1 s.2)))) by lia].
  done.
Qed.
Lemma server_authorize m (s : Session) :
  d_authorized_worker_name s.2 ≠ V1Client.au_name m →
  handle_message (MStandardRequest (V1Client.Authorize_message m)) s
  = (Ok (Some (V1Client.respond_bool (V1Client.au_id m) true)), (s.1, set_worker_name (V1Client.au_name m) s.2)).
Proof.
  intros Hn. unfold handle_message, handle_request. rewrite read_authorize. cbn [map_err]. rewrite st_lift_bind, st_gets_bind.
  cbn [handle_authorize Downstream_IsServer]. rewrite st_modify_bind. cbn [authorize Downstream_IsServer].
  unfold down_authorize, down_is_authorized. by rewrite bool_decide_eq_false_2 by done.
Qed.

(** What the miner makes of the answers. *)
Lemma client_configured now id (c : Client) :
  status c = Configured →
  connect_turn now (MOkResponse (V1Server.Configure_response (V1Server.mkConfigure id (Some rolling0) (Some false)))) c
  = (Ok tt, send_message (MStandardRequest (V1Client.Subscribe_message (V1Client.mkSubscribe id (decimal (client_id c)) (Some suggested))))
       (set_rolling (Some 0) (Some 0) c)).
Proof.
  intros Hst. unfold connect_turn. rewrite st_gets_bind, Hst. unfold parse_message, client_handle_message.
  assert (Method_try_from (MOkResponse (V1Server.Configure_response (V1Server.mkConfigure id (Some rolling0) (Some false))))
    = Ok (MServer2ClientResponse (RConfigure (V1Server.mkConfigure id (Some rolling0) (Some false))))) as ->.
  { unfold Method_try_from. rewrite configure_response_roundtrip; [done|]. intros p [= <-]. split; unfold fits; cbn; lia. }
  destruct c as [cid e1 sz vm vb st reqs names mi out]. cbn in Hst. subst st.
  unfold mbind at 1, ST_bind at 1. unfold mbind at 1, ST_bind at 1. cbn [map_err lift]. unfold mbind at 1, ST_bind at 1. cbn [update_response].
  unfold client_handle_response. cbn [client_handle_configure Cpu_IsClient].
  unfold mbind at 1, ST_bind at 1, mret at 1, ST_ret at 1. rewrite !st_modify_bind, literal_ok, st_lift_bind, st_gets_bind. done.
Qed.
Lemma client_subscribed now sb (c : Client) :
  zlen (V1Server.sb_extra_nonce1 sb) ≤ 32 → status c = Configured →
  connect_turn now (MOkResponse (V1Server.Subscribe_response sb)) c
  = (Ok tt, mkClient (client_id c) (Some (V1Server.sb_extra_nonce1 sb)) (Some (V1Server.sb_extra_nonce2_size sb))
      (version_rolling_mask c) (version_rolling_min_bit c) Subscribed
      (sented_authorize_request c ++ [(now, text "cpu-miner"); (now, text "cpu-miner")]) (authorized c) (miner c)
      (sender_outgoing c ++ [MStandardRequest (V1Client.Authorize_message (V1Client.mkAuthorize now (text "cpu-miner") (text "password")))])).
Proof.
  intros Hl Hst. unfold connect_turn. rewrite st_gets_bind, Hst. unfold parse_message, client_handle_message.
  assert (Method_try_from (MOkResponse (V1Server.Subscribe_response sb)) = Ok (MServer2ClientResponse (RSubscribe sb))) as ->.
  { unfold Method_try_from. by rewrite subscribe_response_roundtrip. }
  destruct c as [cid e1 sz vm vb st reqs names mi out]. cbn in Hst. subst st.
  cbn [sented_authorize_request]. pose proof (app_assoc reqs [(now, text "cpu-miner")] [(now, text "cpu-miner")]) as E.
  cbn [app] in E. rewrite E. reflexivity.
Qed.
Lemma client_authorized now id (c : Client) :
  status c = Subscribed → cpu_id_is_authorize id c = Some (text "cpu-miner") →
  connect_turn now (MOkResponse (V1Client.respond_bool id true)) c
  = (Ok tt, set_names (sented_authorize_request c) (authorized c ++ [text "cpu-miner"]) c).
Proof.
  intros Hst Hid. unfold connect_turn. rewrite st_gets_bind, Hst. unfold parse_message, client_handle_message. rewrite read_bool.
  cbn [map_err]. rewrite st_lift_bind. unfold mbind at 1, ST_bind at 1. cbn [update_response V1Server.gr_id id_is_authorize id_is_submit Cpu_IsClient].
  rewrite Hid. done.
Qed.

(** The connection is set up by three exchanges. *)
Definition handshake (now : Z) (x : Client * Session) : result V1Error (Client * Session) :=
  x ← exchange now x; x ← exchange now x; exchange now x.
Definition ready (now cid : Z) (t : option bytes) (d : DownstreamData) : Client :=
  mkClient cid (Some (d_extranonce1 d)) (Some (d_extranonce2_len d)) (Some 0) (Some 0) Subscribed
    [(now, text "cpu-miner"); (now, text "cpu-miner")] [text "cpu-miner"] (new_target (initial_target t) Miner_new) [].
Definition served (d : DownstreamData) : DownstreamData := set_worker_name (text "cpu-miner") (Sv1Miner.set_rolling None None d).
Lemma handshake_done now cid t jobs d :
  zlen (d_extranonce1 d) ≤ 32 → d_authorized_worker_name d ≠ text "cpu-miner" →
  handshake now (send_configure now (Client_new cid t), (jobs, d)) = Ok (ready now cid t d, (jobs, served d)).
Proof.
  intros Hl Hn. unfold handshake.
  erewrite exchange_step; [|reflexivity|apply server_configure|cbn [Message_of_Response]; by apply client_configured]. cbn [mbind result_bind].
  erewrite exchange_step; [|reflexivity|apply server_subscribe; [by intros x [= <-]|done]|by apply client_subscribed]. cbn [mbind result_bind].
  erewrite exchange_step; [|reflexivity|by apply server_authorize|apply client_authorized; [done|]]; [done|].
  unfold cpu_id_is_authorize. cbn. by rewrite decide_True by done.
Qed.

(** ** The share *)

(** The mining thread tries the next nonce, or is given another target. *)
Definition mine (chk : bool) (m m' : Miner) : Prop :=
  (∃ share, mining_turn chk m = Ok (share, m')) ∨ ∃ t, m' = new_target t m.
(** The miner works on [n] with root [root] from the clock [now]. *)
Definition working (now k : Z) (n : V1Server.Notify) (root : bytes) (m : Miner) : Prop :=
  m_job_id m = Some k ∧
  ∃ nonce, fits 32 nonce ∧
    header m = Some (mkBlockHeader (V1Server.version n) (V1Server.prev_hash n) root (wrap 32 (now + 60)) (V1Server.bits n) nonce).
Lemma working_mine chk now k n root m m' : working now k n root m → mine chk m m' → working now k n root m'.
Proof.
  intros (Hj & nonce & Hn & Hh) [(share & E)|[t ->]]; [|split; [done|by exists nonce]].
  unfold mining_turn in E. destruct (read_share m m m m m) as [sh| |]; [|done..].
  cbn [mbind result_bind] in E. unfold next_nonce in E. rewrite Hh in E. cbn [bh_nonce bh_version prev_blockhash bh_merkle_root bh_time bits] in E.
  destruct (if chk then _ else _) as [nonce'| |] eqn:En; [|done..]. cbn [mbind result_bind] in E. injection E as _ <-.
  split; [done|]. exists nonce'. split; [|done].
  destruct chk; [|injection En as <-; by apply wrap_fits].
  unfold add_chk in En. destruct (_ <? _) eqn:El in En; [|done]. injection En as <-. apply Z.ltb_lt in El. unfold fits in *. lia.
Qed.
Lemma share_found chk now k n root m share m' :
  working now k n root m → mining_turn chk m = Ok (Some share, m') →
  ∃ t nonce v h, target m = Some t ∧ fits 32 nonce ∧ share = (nonce, k, v, wrap 32 (now + 60)) ∧ header m = Some h ∧
    h = mkBlockHeader (V1Server.version n) (V1Server.prev_hash n) root (wrap 32 (now + 60)) (V1Server.bits n) nonce ∧
    from_le_bytes (block_hash h) < t.
Proof.
  intros (Hj & nonce & Hn & Hh) E. unfold mining_turn, read_share, next_share in E. rewrite Hh, Hj in E.
  destruct (target m) as [t|]; [|by destruct (next_nonce chk m)]. destruct (_ <? t) eqn:Et; [|by destruct (next_nonce chk m)].
  apply Z.ltb_lt in Et. cbn [unwrap mbind result_bind bh_nonce bh_time] in E.
  destruct (m_version m) as [v|]; [|done]. cbn [unwrap mbind result_bind] in E. destruct (next_nonce chk m); [|done..].
  injection E as <- _. by eexists t, nonce, v, _.
Qed.
Lemma notify_worked now k n root (c : Client) e size :
  notify_wf n → V1Server.job_id n = decimal k → fits 32 k → extranonce1 c = Some e → extranonce2_size c = Some size →
  merkle_root_from_path (V1Server.coin_base1 n) (V1Server.coin_base2 n) (e ++ replicate (Z.to_nat size) Byte.x00) (V1Server.merkle_branch n) = Some root →
  0 ≤ now + 60 → status c = Subscribed →
  ∃ m, connect_turn now (MNotification (V1Server.Notify_message n)) c = (Ok tt, set_miner m c) ∧ working now k n root m.
Proof.
  intros Hn Hj Hk He Hs Hr Hnow Hst. unfold connect_turn. rewrite st_gets_bind, Hst. unfold parse_message, client_handle_message.
  rewrite read_notify by done. cbn [map_err]. rewrite st_lift_bind. unfold client_handle_request. cbn [client_handle_notify Cpu_IsClient].
  unfold mbind at 1, ST_bind at 1, cpu_handle_notify. rewrite He, Hs. cbn [unwrap mbind result_bind].
  unfold Job_from_notify. rewrite Hj, parse_decimal, Hr by done. destruct Hn as (Hp & _).
  rewrite Hp. cbn [unwrap mbind result_bind Z.eqb Pos.eqb negb].
  assert (zlen root = 32) as -> by (unfold merkle_root_from_path in Hr; destruct (tx_deserialize _); [|done]; injection Hr as <-; apply merkle_root_len, txid_len).
  cbn [Z.eqb Pos.eqb negb]. unfold new_header. rewrite (proj2 (Z.ltb_ge _ _)) by lia. cbn [j_version j_prev_hash j_merkle_root j_nbits j_job_id].
  eexists. split; [reflexivity|]. split; [done|]. exists 0. done.
Qed.

Definition share_sent (k nonce ntime size : Z) : V1Client.Submit :=
  V1Client.mkSubmit (text "cpu-miner") (decimal k) (replicate (Z.to_nat size) Byte.x00) ntime nonce None 0.
Lemma share_submitted k nonce ntime v size c :
  status c = Subscribed → extranonce2_size c = Some size → 0 ≤ size ≤ 32 →
  submit_turn (nonce, k, v, ntime) c = (Ok tt, send_message (MStandardRequest (V1Client.Submit_message (share_sent k nonce ntime size))) c).
Proof.
  intros Hst Hs Hl. unfold submit_turn. rewrite Hst, Hs. unfold Extranonce_try_from.
  rewrite (proj2 (Z.ltb_ge _ _)); [done|]. unfold zlen. rewrite length_replicate. lia.
Qed.
Definition recorded (ch : Z) (share : V1Client.Submit) (d : DownstreamData) : DownstreamData :=
  set_share (Some (mkShareWithChannel ch (d_downstream_id d) share (d_extranonce1 d) (d_extranonce2_len d)
    (d_version_rolling_mask d) (d_last_job_version_field d))) d.
(** The header the server checks is the one the miner hashed. *)
Lemma same_header n root e k nonce ntime size :
  notify_wf n →
  merkle_root_from_path (V1Server.coin_base1 n) (V1Server.coin_base2 n) (e ++ replicate (Z.to_nat size) Byte.x00) (V1Server.merkle_branch n) = Some root →
  sv1_header (share_sent k nonce ntime size) e None n
  = Ok (mkBlockHeader (V1Server.version n) (V1Server.prev_hash n) root ntime (V1Server.bits n) nonce).
Proof.
  intros (Hp & _) Hr. unfold sv1_header, share_sent. cbn [V1Client.extra_nonce2 V1Client.version_bits V1Client.time V1Client.nonce default].
  rewrite Hp, Hr. cbn [Z.eqb Pos.eqb negb ok_or mbind result_bind].
  assert (zlen root = 32) as -> by (unfold merkle_root_from_path in Hr; destruct (tx_deserialize _); [|done]; injection Hr as <-; apply merkle_root_len, txid_len).
  cbn [Z.eqb Pos.eqb negb default]. unfold default. cbn. by rewrite rolled_version_self.
Qed.
Lemma submit_answered jobs d ch k nonce ntime n h tb :
  0 ≤ d_extranonce2_len d ≤ 32 → fits 32 nonce → fits 32 ntime → d_channel_id d = Some ch →
  find_job ch (decimal k) jobs = Some n → sv1_header (share_sent k nonce ntime (d_extranonce2_len d)) (d_extranonce1 d) None n = Ok h →
  zlen tb = 32 → d_target d = Target_from_bytes tb → from_le_bytes (block_hash h) < from_le_bytes tb →
  let share := share_sent k nonce ntime (d_extranonce2_len d) in
  handle_message (MStandardRequest (V1Client.Submit_message share)) (jobs, served d)
  = (Ok (Some (V1Client.respond_bool 0 true)), (jobs, recorded ch share (served d))).
Proof.
  intros Hl Hn Ht Hch Hj Hh Htb Hd Hlt share. fold share in Hh. unfold handle_message, handle_request.
  assert (Hz : zlen (replicate (Z.to_nat (d_extranonce2_len d)) Byte.x00) = d_extranonce2_len d)
    by (unfold zlen; rewrite length_replicate; lia).
  rewrite read_submit by (split_and!; [cbn; rewrite Hz; lia|done|done|done]). cbn [map_err]. rewrite st_lift_bind, st_gets_bind.
  assert (is_valid_submission share (jobs, served d) = true) as ->.
  { unfold is_valid_submission. cbn. unfold down_is_authorized. cbn. by rewrite Hz, Z.eqb_refl. }
  unfold mbind at 1, ST_bind at 1. cbn [handle_submit Downstream_IsServer]. unfold down_handle_submit. cbn [fst snd].
  change (d_channel_id (served d)) with (d_channel_id d). change (d_target (served d)) with (d_target d).
  change (d_extranonce1 (served d)) with (d_extranonce1 d). change (d_version_rolling_mask (served d)) with (@None Z).
  rewrite Hch. unfold validate_sv1_share. change (V1Client.job_id share) with (decimal k). rewrite Hj. cbn [ok_or mbind result_bind].
  rewrite Hh. cbn [mbind result_bind]. unfold Client.Target_lt. rewrite Hd, Target_cmp_value by (done || apply law_block_hash).
  by rewrite (proj2 (Z.compare_lt_iff _ _)) by done.
Qed.
End session.

(** C9: The V1 miner and the translator's connection work together.  Their
    handshake of configure, subscribe and authorize ends with the miner
    subscribed under the connection's extranonces and its worker authorized.
    Given a job the server knows, the miner starts on it; and whatever nonces it
    tries and targets it is given after that, a share it finds under a target no
    easier than the connection's is sent, answered with [true] and recorded for
    the pool, the header that is checked being the one the miner hashed. *)
Theorem cpu_share_accepted `{Hex} `{!HexLaws} `{Bitcoin} `{!BitcoinLaws} `{BigUint} (chk : bool) (now cid ch k : Z)
    (t : option bytes) (jobs : ValidJobs) (d : DownstreamData) (n : V1Server.Notify) (root tb : bytes) :
  hex_decode_ (text "08000002") = Some suggested →
  zlen (d_extranonce1 d) ≤ 32 → 0 ≤ d_extranonce2_len d ≤ 32 → d_authorized_worker_name d ≠ text "cpu-miner" →
  d_channel_id d = Some ch → zlen tb = 32 → d_target d = Target_from_bytes tb → 0 ≤ now + 60 →
  notify_wf n → V1Server.job_id n = decimal k → fits 32 k → find_job ch (decimal k) jobs = Some n →
  merkle_root_from_path (V1Server.coin_base1 n) (V1Server.coin_base2 n)
    (d_extranonce1 d ++ replicate (Z.to_nat (d_extranonce2_len d)) Byte.x00) (V1Server.merkle_branch n) = Some root →
  ∃ c d' m, handshake now (send_configure now (Client_new cid t), (jobs, d)) = Ok (c, (jobs, d')) ∧
    status c = Subscribed ∧ extranonce1 c = Some (d_extranonce1 d) ∧ extranonce2_size c = Some (d_extranonce2_len d) ∧
    d_authorized_worker_name d' = text "cpu-miner" ∧
    connect_turn now (MNotification (V1Server.Notify_message n)) c = (Ok tt, set_miner m c) ∧
    ∀ m1 m2 share, rtc (mine chk) m m1 → mining_turn chk m1 = Ok (Some share, m2) →
      (∀ t', target m1 = Some t' → t' ≤ from_le_bytes tb) →
      ∃ h submit, header m1 = Some h ∧
        submit_turn share (set_miner m2 c) = (Ok tt, send_message (MStandardRequest (V1Client.Submit_message submit)) (set_miner m2 c)) ∧
        sv1_header submit (d_extranonce1 d') (d_version_rolling_mask d') n = Ok h ∧
        handle_message (MStandardRequest (V1Client.Submit_message submit)) (jobs, d')
        = (Ok (Some (V1Client.respond_bool 0 true)), (jobs, recorded ch submit d')).
Proof.
  intros Hlit Hl Hsz Hw Hch Htb Hd Hnow Hn Hj Hk Hf Hr.
  pose proof (handshake_done Hlit now cid t jobs d Hl Hw) as Hs.
  destruct (notify_worked now k n root (ready now cid t d) (d_extranonce1 d) (d_extranonce2_len d)) as (m & Hc & Hm); [done..|].
  exists (ready now cid t d), (served d), m. split_and!; [done..|].
  intros m1 m2 share Hreach Hturn Ht.
  assert (Hm1 : working now k n root m1) by (clear -Hreach Hm; induction Hreach; eauto using working_mine).
  destruct (share_found chk now k n root m1 share m2 Hm1 Hturn) as (t' & nonce & v & h & Ht' & Hnonce & -> & Hm' & -> & Hlt).
  pose proof (same_header n root (d_extranonce1 d) k nonce (wrap 32 (now + 60)) (d_extranonce2_len d) Hn Hr) as Hh.
  eexists _, (share_sent k nonce (wrap 32 (now + 60)) (d_extranonce2_len d)). split_and!; [exact Hm'|by apply share_submitted|exact Hh|].
  eapply submit_answered; [done|done|by apply wrap_fits|done..|exact Hh|done|done|]. specialize (Ht t' Ht'). lia.
Qed.

(** ** An example *)

Module SessionSample.
#[local] Existing Instance model_bitcoin.
#[local] Existing Instance model_bitcoin_laws.
#[local] Existing Instance model_hex.
#[local] Existing Instance model_hex_laws.
#[local] Instance no_biguint : BigUint := {| biguint_from_f64 _ := None |}.
Definition conn : DownstreamData := downstream_data (miner1 notified).
Definition known : ValidJobs := valid_jobs (Sv1Server.server_data notified).
Definition target_bytes : bytes := Target_into_U256 first_target.
Definition root : bytes :=
  default [] (merkle_root_from_path (V1Server.coin_base1 first_job) (V1Server.coin_base2 first_job)
    (d_extranonce1 conn ++ replicate (Z.to_nat (d_extranonce2_len conn)) Byte.x00) (V1Server.merkle_branch first_job)).
Definition easiest : option bytes := Some (reverse target_bytes).
Definition working_miner : Miner :=
  miner (connect_turn 1700000000 (MNotification (V1Server.Notify_message first_job)) (ready 1700000000 7 easiest conn)).2.
Lemma first_job_wf : notify_wf first_job.
Proof. split_and!; vm_compute; try (split; congruence); try reflexivity; repeat constructor. Qed.
Lemma cpu_share_accepted_witness :
  (∃ share m2, mining_turn false working_miner = Ok (Some share, m2)) ∧
  ∃ c d' m, handshake 1700000000 (send_configure 1700000000 (Client_new 7 easiest), (known, conn)) = Ok (c, (known, d')) ∧
    status c = Subscribed ∧ extranonce1 c = Some (d_extranonce1 conn) ∧ extranonce2_size c = Some (d_extranonce2_len conn) ∧
    d_authorized_worker_name d' = text "cpu-miner" ∧
    connect_turn 1700000000 (MNotification (V1Server.Notify_message first_job)) c = (Ok tt, set_miner m c) ∧
    ∀ m1 m2 share, rtc (mine false) m m1 → mining_turn false m1 = Ok (Some share, m2) →
      (∀ t', target m1 = Some t' → t' ≤ from_le_bytes target_bytes) →
      ∃ h submit, header m1 = Some h ∧
        submit_turn share (set_miner m2 c) = (Ok tt, send_message (MStandardRequest (V1Client.Submit_message submit)) (set_miner m2 c)) ∧
        sv1_header submit (d_extranonce1 d') (d_version_rolling_mask d') first_job = Ok h ∧
        handle_message (MStandardRequest (V1Client.Submit_message submit)) (known, d')
        = (Ok (Some (V1Client.respond_bool 0 true)), (known, recorded 1 submit d')).
Proof.
  split; [eexists _, _; vm_compute; reflexivity|].
  apply (cpu_share_accepted false 1700000000 7 1 1 easiest known conn first_job root target_bytes); try exact first_job_wf;
    vm_compute; try split; congruence || reflexivity.
Defined.

End SessionSample.

Module RaceSample.
(** Blocks hash to their time here. *)
Definition time_bitcoin : Bitcoin :=
  Build_Bitcoin (@tx_serialize model_bitcoin) (@tx_deserialize model_bitcoin) (@compute_txid model_bitcoin) (@compute_wtxid model_bitcoin)
    (@decode_version model_bitcoin) (@decode_inputs model_bitcoin) (@decode_outputs model_bitcoin) (@decode_lock_time model_bitcoin)
    (@decode_txout model_bitcoin) (@outputs_serialize model_bitcoin) (@sha256d model_bitcoin)
    (λ h, to_le_bytes 32 (bh_time h)) (@is_met_by model_bitcoin).
#[local] Existing Instance time_bitcoin.
#[local] Existing Instance model_hex.
#[local] Existing Instance SessionSample.no_biguint.
Definition heard (now : Z) (c : Client) : Client := (connect_turn now (MNotification (V1Server.Notify_message first_job)) c).2.
Definition subscribed : Client :=
  set_miner (mkMiner None (Some 1700000061) None None) (ready 1700000000 7 None SessionSample.conn).
Definition first_miner : Miner := miner (heard 1700000000 subscribed).
Definition later_miner : Miner := miner (heard 1700000005 (heard 1700000000 subscribed)).
(** A job that arrives while a share is read off the miner: what is sent is the
    new job's first header, which nobody has hashed and which misses the target. *)
Example interrupted_share :
  next_share first_miner = true ∧ next_share later_miner = false ∧
  read_share first_miner later_miner later_miner later_miner later_miner
  = Ok (Some (0, 1, V1Server.version first_job, 1700000065)).
Proof. split_and!; vm_compute; reflexivity. Qed.
End RaceSample.
