(* ===== verification/JdClient.v ===== *)
(** * The job declarator client

    [roles/jd-client/src/lib]: the channel manager between the miners, the
    pool, the job declarator server and the template provider:
    [channel_manager/mod.rs] (the data, the routing of open requests, the
    variable-difficulty round, the loop), [downstream_message_handler.rs],
    [upstream_message_handler.rs], [jd_message_handler.rs],
    [template_message_handler.rs]; the upstream state and the helpers of
    [utils.rs], the operating mode ([jd_mode.rs]), the connection of a miner
    ([downstream]) and the choice of an upstream ([mod.rs]).

    The manager's data is behind one lock, a miner's channels behind another,
    both taken inside one handler.  What a handler hands to a queue is appended
    to [sent]; a closed queue refuses it.  Of the messages only those to the
    declarator that carry transactions can exceed a frame.  Hash maps are
    iterated in an unspecified order. *)

From Stdlib Require Import String SpecFloat.
From stdpp Require Import gmap.
From S2P Require Import Prelude Utf8 SetupConnection Mining Difficulty Bitcoin Jobs Channels Vardiff PoolStats Downstream ClientChannels JobDeclarator.
#[local] Open Scope Z_scope.
#[local] Open Scope list_scope.

Module Jdc.

(** ** Modes, states, errors *)

Inductive JdMode : Type := CoinbaseOnly | FullTemplate | SoloMining.
#[global] Instance JdMode_eq_dec : EqDecision JdMode.
Proof. solve_decision. Defined.
Definition JdMode_from_u8 (val : Z) : JdMode :=
  if val =? 0 then CoinbaseOnly else if val =? 1 then FullTemplate else SoloMining.
Definition JdMode_into_u8 (mode : JdMode) : Z :=
  match mode with CoinbaseOnly => 0 | FullTemplate => 1 | SoloMining => 2 end.

Inductive UpstreamState : Type := NoChannel | Pending | Connected | Solo.
#[global] Instance UpstreamState_eq_dec : EqDecision UpstreamState.
Proof. solve_decision. Defined.

Inductive RolesError : Type :=
  | ChannelError_ (e : ChannelError)
  | PrefixFactoryError (e : ExtendedExtranonceError)
  | BadPayloadSize.
Inductive JDCError : Type :=
  | BinarySv2
  | ParserError
  | ParseInt
  | RolesSv2Logic (e : RolesError)
  | ChannelErrorSender
  | Shutdown
  | UnexpectedMessage (message_type : Z)
  | BitcoinEncodeError
  | LastDeclareJobNotFound (request_id : Z)
  | ActiveJobNotFound (request_id : Z)
  | TokenNotFound
  | TemplateNotFound (template_id : Z)
  | DownstreamNotFoundWithChannelId (channel_id : Z)
  | DownstreamNotFound (downstream_id : Z)
  | DownstreamIdNotFound
  | FutureTemplateNotPresent
  | LastNewPrevhashNotFound
  | VardiffNotFound (channel_id : Z)
  | TxDataError
  | FrameConversionError
  | FailedToCreateCustomJob.
Definition is_non_critical_variant (e : JDCError) : bool :=
  match e with
  | LastNewPrevhashNotFound | FutureTemplateNotPresent | LastDeclareJobNotFound _
  | ActiveJobNotFound _ | TokenNotFound | TemplateNotFound _
  | DownstreamNotFoundWithChannelId _ | DownstreamNotFound _ | DownstreamIdNotFound
  | VardiffNotFound _ | TxDataError | FrameConversionError | FailedToCreateCustomJob => true
  | _ => false
  end.
Definition is_critical (e : JDCError) : bool := negb (is_non_critical_variant e).

(** ** Messages *)

(** [OpenExtendedMiningChannelSuccess] of the pool. *)
Record OpenSuccess : Type := mkOpenSuccess {
  op_request_id : Z;
  op_channel_id : Z;
  op_target : bytes;
  op_extranonce_size : Z;
  op_extranonce_prefix : bytes }.
(** The mining messages the client sends: to the pool the first four, to a
    miner the others. *)
Inductive Mining : Type :=
  | OpenExtended (m : OpenExtendedMiningChannel)
  | Update (m : UpdateChannel)
  | Submit (m : SubmitSharesExtended)
  | CustomJob (m : SetCustomMiningJob)
  | ToMiner (m : Reply)
  | NewPrefix (channel_id : Z) (extranonce_prefix : bytes).
Inductive TemplateDistribution : Type :=
  | RequestTransactionData (template_id : Z)
  | Solution (m : SubmitSolution)
  | CoinbaseOutputConstraints (max_additional_size max_additional_sigops : Z).
Inductive RouteMessageTo : Type :=
  | Upstream (m : Mining)
  | JobDeclarator (m : JdRequest)
  | TemplateProvider (m : TemplateDistribution)
  | ToDownstream (downstream_id : Z) (m : Mining).

(** What was put on which queue.  The queue to the declarator also carries a
    mining message. *)
Inductive Status : Type := UpstreamShutdownFallback | JobDeclaratorShutdownFallback.
Inductive Sent : Type :=
  | SentUpstream (m : Mining)
  | SentJd (m : JdRequest)
  | SentJdMining (m : Mining)
  | SentTp (m : TemplateDistribution)
  | SentDownstream (downstream_id : Z) (m : Mining)
  | SentStatus (m : Status).

(** ** State *)

Record Token : Type := mkToken {
  tk_request_id : Z;
  tk_mining_job_token : bytes;
  tk_coinbase_outputs : bytes }.
Record DeclaredJob : Type := mkDeclared {
  dd_declare_mining_job : option DeclareMiningJob;
  dd_template : NewTemplate;
  dd_prev_hash : option SetNewPrevHashTdp;
  dd_set_custom_mining_job : option SetCustomMiningJob;
  dd_coinbase_output : bytes;
  dd_tx_list : list bytes }.

(** The channels of a miner. *)
Record DownstreamData : Type := mkData {
  require_std_job : bool;
  group_channels : option GroupChannel;
  extended_channels : gmap Z ExtendedChannel;
  standard_channels : gmap Z StandardChannel }.
Definition DownstreamData_new : DownstreamData := mkData false None ∅ ∅.
Definition dd_set_std_job b d := mkData b (group_channels d) (extended_channels d) (standard_channels d).
Definition dd_set_group g d := mkData (require_std_job d) g (extended_channels d) (standard_channels d).
Definition dd_set_extended x d := mkData (require_std_job d) (group_channels d) x (standard_channels d).
Definition dd_set_standard x d := mkData (require_std_job d) (group_channels d) (extended_channels d) x.

(** A request of a miner kept until the pool has answered. *)
Inductive OpenRequest : Type :=
  | PendingExtended (m : OpenExtendedMiningChannel)
  | PendingStandard (m : OpenStandardMiningChannel).

Record ChannelManagerData : Type := mkManagerData {
  downstream : gmap Z DownstreamData;
  extranonce_prefix_factory_extended : ExtendedExtranonce;
  extranonce_prefix_factory_standard : ExtendedExtranonce;
  request_id_factory : Z;
  downstream_id_factory : Z;
  channel_id_factory : Z;
  sequence_number_factory : Z;
  last_future_template : option NewTemplate;
  last_new_prev_hash : option SetNewPrevHashTdp;
  allocate_tokens : option Token;
  template_store : gmap Z NewTemplate;
  last_declare_job_store : gmap Z DeclaredJob;
  template_id_to_upstream_job_id : gmap Z Z;
  downstream_channel_id_and_job_id_to_template_id : gmap (Z * Z) Z;
  coinbase_outputs : bytes;
  channel_id_to_downstream_id : gmap Z Z;
  upstream_channel : option Client.ExtendedChannel;
  pool_tag_string : option bytes;
  pending_downstream_requests : list OpenRequest;
  job_factory : option JobFactory;
  vardiff : gmap (Z * Z) VardiffState }.
Definition set_downstream x d :=
  mkManagerData x (extranonce_prefix_factory_extended d) (extranonce_prefix_factory_standard d)
    (request_id_factory d) (downstream_id_factory d) (channel_id_factory d)
    (sequence_number_factory d) (last_future_template d) (last_new_prev_hash d) (allocate_tokens d)
    (template_store d) (last_declare_job_store d) (template_id_to_upstream_job_id d)
    (downstream_channel_id_and_job_id_to_template_id d) (coinbase_outputs d)
    (channel_id_to_downstream_id d) (upstream_channel d) (pool_tag_string d)
    (pending_downstream_requests d) (job_factory d) (vardiff d).
Definition set_factory_extended x d :=
  mkManagerData (downstream d) x (extranonce_prefix_factory_standard d) (request_id_factory d)
    (downstream_id_factory d) (channel_id_factory d) (sequence_number_factory d)
    (last_future_template d) (last_new_prev_hash d) (allocate_tokens d) (template_store d)
    (last_declare_job_store d) (template_id_to_upstream_job_id d)
    (downstream_channel_id_and_job_id_to_template_id d) (coinbase_outputs d)
    (channel_id_to_downstream_id d) (upstream_channel d) (pool_tag_string d)
    (pending_downstream_requests d) (job_factory d) (vardiff d).
Definition set_factory_standard x d :=
  mkManagerData (downstream d) (extranonce_prefix_factory_extended d) x (request_id_factory d)
    (downstream_id_factory d) (channel_id_factory d) (sequence_number_factory d)
    (last_future_template d) (last_new_prev_hash d) (allocate_tokens d) (template_store d)
    (last_declare_job_store d) (template_id_to_upstream_job_id d)
    (downstream_channel_id_and_job_id_to_template_id d) (coinbase_outputs d)
    (channel_id_to_downstream_id d) (upstream_channel d) (pool_tag_string d)
    (pending_downstream_requests d) (job_factory d) (vardiff d).
Definition set_request_ids x d :=
  mkManagerData (downstream d) (extranonce_prefix_factory_extended d)
    (extranonce_prefix_factory_standard d) x (downstream_id_factory d) (channel_id_factory d)
    (sequence_number_factory d) (last_future_template d) (last_new_prev_hash d) (allocate_tokens d)
    (template_store d) (last_declare_job_store d) (template_id_to_upstream_job_id d)
    (downstream_channel_id_and_job_id_to_template_id d) (coinbase_outputs d)
    (channel_id_to_downstream_id d) (upstream_channel d) (pool_tag_string d)
    (pending_downstream_requests d) (job_factory d) (vardiff d).
Definition set_downstream_ids x d :=
  mkManagerData (downstream d) (extranonce_prefix_factory_extended d)
    (extranonce_prefix_factory_standard d) (request_id_factory d) x (channel_id_factory d)
    (sequence_number_factory d) (last_future_template d) (last_new_prev_hash d) (allocate_tokens d)
    (template_store d) (last_declare_job_store d) (template_id_to_upstream_job_id d)
    (downstream_channel_id_and_job_id_to_template_id d) (coinbase_outputs d)
    (channel_id_to_downstream_id d) (upstream_channel d) (pool_tag_string d)
    (pending_downstream_requests d) (job_factory d) (vardiff d).
Definition set_channel_ids x d :=
  mkManagerData (downstream d) (extranonce_prefix_factory_extended d)
    (extranonce_prefix_factory_standard d) (request_id_factory d) (downstream_id_factory d) x
    (sequence_number_factory d) (last_future_template d) (last_new_prev_hash d) (allocate_tokens d)
    (template_store d) (last_declare_job_store d) (template_id_to_upstream_job_id d)
    (downstream_channel_id_and_job_id_to_template_id d) (coinbase_outputs d)
    (channel_id_to_downstream_id d) (upstream_channel d) (pool_tag_string d)
    (pending_downstream_requests d) (job_factory d) (vardiff d).
Definition set_sequence_numbers x d :=
  mkManagerData (downstream d) (extranonce_prefix_factory_extended d)
    (extranonce_prefix_factory_standard d) (request_id_factory d) (downstream_id_factory d)
    (channel_id_factory d) x (last_future_template d) (last_new_prev_hash d) (allocate_tokens d)
    (template_store d) (last_declare_job_store d) (template_id_to_upstream_job_id d)
    (downstream_channel_id_and_job_id_to_template_id d) (coinbase_outputs d)
    (channel_id_to_downstream_id d) (upstream_channel d) (pool_tag_string d)
    (pending_downstream_requests d) (job_factory d) (vardiff d).
Definition set_future_template x d :=
  mkManagerData (downstream d) (extranonce_prefix_factory_extended d)
    (extranonce_prefix_factory_standard d) (request_id_factory d) (downstream_id_factory d)
    (channel_id_factory d) (sequence_number_factory d) x (last_new_prev_hash d) (allocate_tokens d)
    (template_store d) (last_declare_job_store d) (template_id_to_upstream_job_id d)
    (downstream_channel_id_and_job_id_to_template_id d) (coinbase_outputs d)
    (channel_id_to_downstream_id d) (upstream_channel d) (pool_tag_string d)
    (pending_downstream_requests d) (job_factory d) (vardiff d).
Definition set_prev_hash x d :=
  mkManagerData (downstream d) (extranonce_prefix_factory_extended d)
    (extranonce_prefix_factory_standard d) (request_id_factory d) (downstream_id_factory d)
    (channel_id_factory d) (sequence_number_factory d) (last_future_template d) x
    (allocate_tokens d) (template_store d) (last_declare_job_store d)
    (template_id_to_upstream_job_id d) (downstream_channel_id_and_job_id_to_template_id d)
    (coinbase_outputs d) (channel_id_to_downstream_id d) (upstream_channel d) (pool_tag_string d)
    (pending_downstream_requests d) (job_factory d) (vardiff d).
Definition set_tokens x d :=
  mkManagerData (downstream d) (extranonce_prefix_factory_extended d)
    (extranonce_prefix_factory_standard d) (request_id_factory d) (downstream_id_factory d)
    (channel_id_factory d) (sequence_number_factory d) (last_future_template d)
    (last_new_prev_hash d) x (template_store d) (last_declare_job_store d)
    (template_id_to_upstream_job_id d) (downstream_channel_id_and_job_id_to_template_id d)
    (coinbase_outputs d) (channel_id_to_downstream_id d) (upstream_channel d) (pool_tag_string d)
    (pending_downstream_requests d) (job_factory d) (vardiff d).
Definition set_template_store x d :=
  mkManagerData (downstream d) (extranonce_prefix_factory_extended d)
    (extranonce_prefix_factory_standard d) (request_id_factory d) (downstream_id_factory d)
    (channel_id_factory d) (sequence_number_factory d) (last_future_template d)
    (last_new_prev_hash d) (allocate_tokens d) x (last_declare_job_store d)
    (template_id_to_upstream_job_id d) (downstream_channel_id_and_job_id_to_template_id d)
    (coinbase_outputs d) (channel_id_to_downstream_id d) (upstream_channel d) (pool_tag_string d)
    (pending_downstream_requests d) (job_factory d) (vardiff d).
Definition set_declared x d :=
  mkManagerData (downstream d) (extranonce_prefix_factory_extended d)
    (extranonce_prefix_factory_standard d) (request_id_factory d) (downstream_id_factory d)
    (channel_id_factory d) (sequence_number_factory d) (last_future_template d)
    (last_new_prev_hash d) (allocate_tokens d) (template_store d) x
    (template_id_to_upstream_job_id d) (downstream_channel_id_and_job_id_to_template_id d)
    (coinbase_outputs d) (channel_id_to_downstream_id d) (upstream_channel d) (pool_tag_string d)
    (pending_downstream_requests d) (job_factory d) (vardiff d).
Definition set_upstream_jobs x d :=
  mkManagerData (downstream d) (extranonce_prefix_factory_extended d)
    (extranonce_prefix_factory_standard d) (request_id_factory d) (downstream_id_factory d)
    (channel_id_factory d) (sequence_number_factory d) (last_future_template d)
    (last_new_prev_hash d) (allocate_tokens d) (template_store d) (last_declare_job_store d) x
    (downstream_channel_id_and_job_id_to_template_id d) (coinbase_outputs d)
    (channel_id_to_downstream_id d) (upstream_channel d) (pool_tag_string d)
    (pending_downstream_requests d) (job_factory d) (vardiff d).
Definition set_job_templates x d :=
  mkManagerData (downstream d) (extranonce_prefix_factory_extended d)
    (extranonce_prefix_factory_standard d) (request_id_factory d) (downstream_id_factory d)
    (channel_id_factory d) (sequence_number_factory d) (last_future_template d)
    (last_new_prev_hash d) (allocate_tokens d) (template_store d) (last_declare_job_store d)
    (template_id_to_upstream_job_id d) x (coinbase_outputs d) (channel_id_to_downstream_id d)
    (upstream_channel d) (pool_tag_string d) (pending_downstream_requests d) (job_factory d)
    (vardiff d).
Definition set_outputs x d :=
  mkManagerData (downstream d) (extranonce_prefix_factory_extended d)
    (extranonce_prefix_factory_standard d) (request_id_factory d) (downstream_id_factory d)
    (channel_id_factory d) (sequence_number_factory d) (last_future_template d)
    (last_new_prev_hash d) (allocate_tokens d) (template_store d) (last_declare_job_store d)
    (template_id_to_upstream_job_id d) (downstream_channel_id_and_job_id_to_template_id d) x
    (channel_id_to_downstream_id d) (upstream_channel d) (pool_tag_string d)
    (pending_downstream_requests d) (job_factory d) (vardiff d).
Definition set_owners x d :=
  mkManagerData (downstream d) (extranonce_prefix_factory_extended d)
    (extranonce_prefix_factory_standard d) (request_id_factory d) (downstream_id_factory d)
    (channel_id_factory d) (sequence_number_factory d) (last_future_template d)
    (last_new_prev_hash d) (allocate_tokens d) (template_store d) (last_declare_job_store d)
    (template_id_to_upstream_job_id d) (downstream_channel_id_and_job_id_to_template_id d)
    (coinbase_outputs d) x (upstream_channel d) (pool_tag_string d) (pending_downstream_requests d)
    (job_factory d) (vardiff d).
Definition set_upstream x d :=
  mkManagerData (downstream d) (extranonce_prefix_factory_extended d)
    (extranonce_prefix_factory_standard d) (request_id_factory d) (downstream_id_factory d)
    (channel_id_factory d) (sequence_number_factory d) (last_future_template d)
    (last_new_prev_hash d) (allocate_tokens d) (template_store d) (last_declare_job_store d)
    (template_id_to_upstream_job_id d) (downstream_channel_id_and_job_id_to_template_id d)
    (coinbase_outputs d) (channel_id_to_downstream_id d) x (pool_tag_string d)
    (pending_downstream_requests d) (job_factory d) (vardiff d).
Definition set_pending x d :=
  mkManagerData (downstream d) (extranonce_prefix_factory_extended d)
    (extranonce_prefix_factory_standard d) (request_id_factory d) (downstream_id_factory d)
    (channel_id_factory d) (sequence_number_factory d) (last_future_template d)
    (last_new_prev_hash d) (allocate_tokens d) (template_store d) (last_declare_job_store d)
    (template_id_to_upstream_job_id d) (downstream_channel_id_and_job_id_to_template_id d)
    (coinbase_outputs d) (channel_id_to_downstream_id d) (upstream_channel d) (pool_tag_string d) x
    (job_factory d) (vardiff d).
Definition set_job_factory x d :=
  mkManagerData (downstream d) (extranonce_prefix_factory_extended d)
    (extranonce_prefix_factory_standard d) (request_id_factory d) (downstream_id_factory d)
    (channel_id_factory d) (sequence_number_factory d) (last_future_template d)
    (last_new_prev_hash d) (allocate_tokens d) (template_store d) (last_declare_job_store d)
    (template_id_to_upstream_job_id d) (downstream_channel_id_and_job_id_to_template_id d)
    (coinbase_outputs d) (channel_id_to_downstream_id d) (upstream_channel d) (pool_tag_string d)
    (pending_downstream_requests d) x (vardiff d).
Definition set_vardiff x d :=
  mkManagerData (downstream d) (extranonce_prefix_factory_extended d)
    (extranonce_prefix_factory_standard d) (request_id_factory d) (downstream_id_factory d)
    (channel_id_factory d) (sequence_number_factory d) (last_future_template d)
    (last_new_prev_hash d) (allocate_tokens d) (template_store d) (last_declare_job_store d)
    (template_id_to_upstream_job_id d) (downstream_channel_id_and_job_id_to_template_id d)
    (coinbase_outputs d) (channel_id_to_downstream_id d) (upstream_channel d) (pool_tag_string d)
    (pending_downstream_requests d) (job_factory d) x.

(** [ExtendedExtranonce::new(0..0, 0..size, size..32, None)]. *)
Definition fresh_factory {E} (min_extranonce_size : Z) : result E ExtendedExtranonce :=
  match ExtendedExtranonceOps.new (mkRange 0 0) (mkRange 0 min_extranonce_size)
          (mkRange min_extranonce_size MAX_EXTRANONCE_LEN) None with
  | Ok f => Ok f
  | _ => Panic
  end.
Definition ChannelManagerData_new {E} (min_extranonce_size : Z) (coinbase_outputs : bytes)
    : result E ChannelManagerData :=
  f ← fresh_factory min_extranonce_size;
  Ok (mkManagerData ∅ f f Id_new Id_new Id_new Id_new None None None ∅ ∅ ∅ ∅ coinbase_outputs ∅
        None None [] None ∅).
Definition reset {E} (coinbase_outputs : bytes) (min_extranonce_size : Z) (d : ChannelManagerData)
    : result E ChannelManagerData :=
  f ← fresh_factory min_extranonce_size;
  Ok (mkManagerData ∅ f f Id_new Id_new Id_new (sequence_number_factory d)
        (last_future_template d) (last_new_prev_hash d) None ∅ ∅ ∅ ∅ coinbase_outputs ∅ None None []
        (job_factory d) (vardiff d)).

(** What the manager was configured with. *)
Record Config : Type := mkConfig {
  miner_tag_string : bytes;
  cfg_share_batch_size : Z;
  cfg_shares_per_minute : f32;
  cfg_user_identity : bytes;
  cfg_min_extranonce_size : Z }.
Record Queues : Type := mkQueues {
  upstream_open : bool;
  jd_open : bool;
  tp_open : bool;
  status_open : bool }.
(** The manager, the process-wide mode and the queues. *)
Record ChannelManager : Type := mkManager {
  data : ChannelManagerData;
  upstream_state : UpstreamState;
  jd_mode : JdMode;
  queues : Queues;
  sent : list Sent }.
Definition on_data (f : ChannelManagerData → ChannelManagerData) (s : ChannelManager) :=
  mkManager (f (data s)) (upstream_state s) (jd_mode s) (queues s) (sent s).
Definition set_state (u : UpstreamState) (s : ChannelManager) :=
  mkManager (data s) u (jd_mode s) (queues s) (sent s).
Definition set_jd_mode (m : JdMode) (s : ChannelManager) :=
  mkManager (data s) (upstream_state s) m (queues s) (sent s).
Definition emit (m : Sent) (s : ChannelManager) :=
  mkManager (data s) (upstream_state s) (jd_mode s) (queues s) (sent s ++ [m]).

(** [compare_and_set]: the new state, or the one found. *)
Definition compare_and_set (current new : UpstreamState) (s : ChannelManager)
    : result UpstreamState unit * ChannelManager :=
  if bool_decide (upstream_state s = current) then (Ok tt, set_state new s)
  else (Err (upstream_state s), s).

Notation JDC := (ST ChannelManager JDCError).

(** ** Sending *)

Definition queue_of (m : Sent) (q : Queues) : bool :=
  match m with
  | SentUpstream _ => upstream_open q
  | SentJd _ | SentJdMining _ => jd_open q
  | SentTp _ => tp_open q
  | SentDownstream _ _ => true
  | SentStatus _ => status_open q
  end.
(** [send(..).await.map_err(|_| ChannelErrorSender)?]. *)
Definition send (m : Sent) : JDC unit :=
  q ← gets queues;
  if queue_of m q then modify (emit m) else throw ChannelErrorSender.
(** [_ = send(..).await]. *)
Definition try_send (m : Sent) : JDC unit :=
  q ← gets queues;
  if queue_of m q then modify (emit m) else mret tt.
Definition forward (m : RouteMessageTo) : JDC unit :=
  match m with
  | ToDownstream id m => try_send (SentDownstream id m)
  | Upstream m =>
      mode ← gets jd_mode;
      if bool_decide (mode = SoloMining) then mret tt else try_send (SentUpstream m)
  | JobDeclarator m => try_send (SentJd m)
  | TemplateProvider m => try_send (SentTp m)
  end.
Fixpoint forward_all (l : list RouteMessageTo) : JDC unit :=
  match l with
  | [] => mret tt
  | m :: l => _ ← forward m; forward_all l
  end.

(** ** Text of a user identity *)

Definition hex_digit (n : Z) : Byte.byte := byte.of_Z (if n <? 10 then 48 + n else 87 + n).
Definition hex_byte (b : Byte.byte) : bytes :=
  [hex_digit (byte.unsigned b / 16); hex_digit (byte.unsigned b mod 16)].
Definition as_utf8_or_hex (l : bytes) : bytes :=
  if utf8_valid l then l else text "0x" ++ concat (map hex_byte l).
(** [{:?}] of a string borrowed from the frame. *)
Fixpoint comma_separated (l : bytes) : bytes :=
  match l with
  | [] => []
  | [b] => decimal (byte.unsigned b)
  | b :: l => decimal (byte.unsigned b) ++ text ", " ++ comma_separated l
  end.
Definition debug_string (l : bytes) : bytes := text "Ref([" ++ comma_separated l ++ text "])".
Definition hash_sign : Byte.byte := byte.of_Z 35.
(** [str::rsplit_once('#')]. *)
Fixpoint rsplit_once (l : bytes) : option (bytes * bytes) :=
  match l with
  | [] => None
  | b :: l =>
      match rsplit_once l with
      | Some (p, s) => Some (b :: p, s)
      | None => if byte.unsigned b =? 35 then Some ([], l) else None
      end
  end.
Definition with_downstream_id (user_identity : bytes) (downstream_id : Z) : bytes :=
  user_identity ++ [hash_sign] ++ decimal downstream_id.
Definition split_identity (user_identity : bytes) : result JDCError (bytes * Z) :=
  match rsplit_once (as_utf8_or_hex user_identity) with
  | Some (user_identity, id) =>
      match parse_unsigned 32 id with
      | Some id => Ok (user_identity, id)
      | None => Err ParseInt
      end
  | None => Err DownstreamIdNotFound
  end.

(** ** Channels of the miners *)

(** Iteration over the map of pairs. *)
Class PairIter : Type := {
  pair_iter {A : Type} : gmap (Z * Z) A → list ((Z * Z) * A);
  pair_iter_perm {A : Type} (m : gmap (Z * Z) A) : pair_iter m ≡ₚ map_to_list m }.
(** Of the [bitcoin] package: the size of an output, the signature operations
    of a transaction. *)
Class TxCosts : Type := {
  txout_size : TxOut → Z;
  total_sigop_cost : Transaction → Z }.

Definition put_downstream (id : Z) (v : DownstreamData) : ChannelManager → ChannelManager :=
  on_data (λ d, set_downstream (<[id := v]> (downstream d)) d).
(** Runs an operation on a part of the state that the loop found there. *)
Definition focus {K E A} (get : ChannelManager → option K) (put : K → ChannelManager → ChannelManager)
    (m : ST K E A) : JDC (result E A) := λ s,
  match get s with
  | None => (Panic, s)
  | Some k =>
      let '(r, k') := m k in
      match r with Panic => (Panic, put k' s) | r => (Ok r, put k' s) end
  end.
Definition miner (id : Z) (s : ChannelManager) : option DownstreamData := downstream (data s) !! id.
Definition on_standard {E A} (downstream_id id : Z) : ST StandardChannel E A → JDC (result E A) :=
  focus (λ s, v ← miner downstream_id s; standard_channels v !! id)
    (λ c s, match miner downstream_id s with
            | Some v => put_downstream downstream_id (dd_set_standard (<[id := c]> (standard_channels v)) v) s
            | None => s
            end).
Definition on_extended {E A} (downstream_id id : Z) : ST ExtendedChannel E A → JDC (result E A) :=
  focus (λ s, v ← miner downstream_id s; extended_channels v !! id)
    (λ c s, match miner downstream_id s with
            | Some v => put_downstream downstream_id (dd_set_extended (<[id := c]> (extended_channels v)) v) s
            | None => s
            end).
Definition on_group {E A} (downstream_id : Z) : ST GroupChannel E A → JDC (result E A) :=
  focus (λ s, v ← miner downstream_id s; group_channels v)
    (λ g s, match miner downstream_id s with
            | Some v => put_downstream downstream_id (dd_set_group (Some g) v) s
            | None => s
            end).
Definition on_upstream {E A} : ST Client.ExtendedChannel E A → JDC (result E A) :=
  focus (λ s, upstream_channel (data s)) (λ u, on_data (set_upstream (Some u))).

Definition all_ones : Target := Target_from_bytes (replicate 32 (byte.of_Z 255)).
(** [std::cmp::min(a, b)]. *)
Definition Target_min (a b : Target) : Target := match Target_cmp a b with Gt => b | _ => a end.

Section manager.
Context `{Bitcoin} `{TxCosts} `{MapIter} `{PairIter}.
Context (overflow_checks : bool) (cfg : Config).

Definition next_id (get : ChannelManagerData → Z) (put : Z → ChannelManagerData → ChannelManagerData)
    : JDC Z :=
  zoom (λ s, get (data s)) (λ i, on_data (put i)) (Id_next overflow_checks).
Definition next_request_id : JDC Z := next_id request_id_factory set_request_ids.
Definition next_channel_id : JDC Z := next_id channel_id_factory set_channel_ids.
Definition next_sequence_number : JDC Z := next_id sequence_number_factory set_sequence_numbers.

(** [consensus::deserialize] takes the whole input. *)
Definition deserialize_outputs (l : bytes) : option (list TxOut) :=
  match decode_outputs l with Some (outputs, []) => Some outputs | _ => None end.
Definition deserialize_coinbase_outputs {E} (coinbase_output : bytes) : result E (list TxOut) :=
  unwrap (deserialize_outputs coinbase_output).
(** [outputs[0].value = ..]. *)
Definition set_first_value {E} (value : Z) (l : list TxOut) : result E (list TxOut) :=
  match l with
  | [] => Panic
  | o :: l => Ok (mkTxOut value (script_pubkey o) :: l)
  end.
(** The outputs of the jobs for the miners. *)
Definition coinbase_output {E} (template : NewTemplate) (d : ChannelManagerData)
    : result E (list TxOut) :=
  outputs ← deserialize_coinbase_outputs (coinbase_outputs d);
  set_first_value (nt_coinbase_tx_value_remaining template) outputs.

(** A channel operation on a value not yet stored. *)
Definition run_local {K A} (m : ST K ChannelError A) (k : K) : JDC (A * K) := λ s,
  match m k with
  | (Ok a, k') => (Ok (a, k'), s)
  | (Err e, _) => (Err (RolesSv2Logic (ChannelError_ e)), s)
  | (Panic, _) => (Panic, s)
  end.

(** ** Messages of the miners *)

Definition handle_close_channel (channel_id : Z) : JDC unit :=
  d ← gets data;
  downstream_id ← lift (ok_or (channel_id_to_downstream_id d !! channel_id)
    (DownstreamNotFoundWithChannelId channel_id));
  v ← lift (ok_or (downstream d !! downstream_id) (DownstreamNotFound downstream_id));
  modify (put_downstream downstream_id
    (dd_set_standard (delete channel_id (standard_channels v))
       (dd_set_extended (delete channel_id (extended_channels v)) v))).

Definition open_error (request_id : Z) (e : ChannelError) : option Mining :=
  match e with
  | InvalidNominalHashrate => Some (ToMiner (OpenMiningChannelError request_id "invalid-nominal-hashrate"))
  | RequestedMaxTargetOutOfRange =>
      Some (ToMiner (OpenMiningChannelError request_id "max-target-out-of-range"))
  | _ => None
  end.

(** One group channel per miner, with its first standard channel, unless the
    miner asked for standard jobs. *)
Definition ensure_group_channel (downstream_id : Z) (template : NewTemplate)
    (prev : SetNewPrevHashTdp) (outputs : list TxOut) (v : DownstreamData) : JDC unit :=
  match require_std_job v, group_channels v with
  | false, None =>
      group_channel_id ← next_channel_id;
      d ← gets data;
      let g := Group.new group_channel_id JobStore.new (pool_tag_string d) (Some (miner_tag_string cfg)) in
      r ← run_local (Group.on_new_template overflow_checks template outputs) g;
      r ← run_local (Group.on_set_new_prev_hash prev) r.2;
      modify (put_downstream downstream_id (dd_set_group (Some r.2) v))
  | _, _ => mret tt
  end.

(** The bookkeeping of a channel that was opened for a template's job. *)
Definition register_channel (downstream_id channel_id job_id template_id : Z) (v : VardiffState)
    : JDC unit :=
  modify (on_data (λ d,
    set_vardiff (<[(channel_id, downstream_id) := v]> (vardiff d))
      (set_owners (<[channel_id := downstream_id]> (channel_id_to_downstream_id d))
         (set_job_templates (<[(channel_id, job_id) := template_id]>
            (downstream_channel_id_and_job_id_to_template_id d)) d)))).

Definition handle_open_standard_mining_channel (clock : option Z) (m : OpenStandardMiningChannel)
    : JDC unit :=
  let request_id := os_request_id m in
  '(user_identity, downstream_id) ← lift (split_identity (os_user_identity m));
  d ← gets data;
  template ← lift (ok_or (last_future_template d) FutureTemplateNotPresent);
  prev ← lift (ok_or (last_new_prev_hash d) LastNewPrevhashNotFound);
  v ← lift (ok_or (downstream d !! downstream_id) (DownstreamNotFound downstream_id));
  outputs ← lift (coinbase_output template d);
  _ ← ensure_group_channel downstream_id template prev outputs v;
  v ← gets (λ s, default v (miner downstream_id s));
  let group_channel_id := match group_channels v with Some g => gc_group_channel_id g | None => 0 end in
  channel_id ← next_channel_id;
  extranonce_prefix ← st_map_err (λ e, RolesSv2Logic (PrefixFactoryError e))
    (zoom (λ s, extranonce_prefix_factory_standard (data s)) (λ f, on_data (set_factory_standard f))
       ExtendedExtranonceOps.next_prefix_standard);
  match Standard.new overflow_checks channel_id user_identity extranonce_prefix
          (Target_from_bytes (os_max_target m)) (os_nominal_hash_rate m) (cfg_share_batch_size cfg)
          (cfg_shares_per_minute cfg) JobStore.new (pool_tag_string d) (Some (miner_tag_string cfg)) with
  | Panic => panic
  | Err e =>
      match open_error request_id e with
      | Some reply => forward (ToDownstream downstream_id reply)
      | None => throw (RolesSv2Logic (ChannelError_ e))
      end
  | Ok standard_channel =>
      if 32 <? zlen extranonce_prefix then panic
      else
      let success := OpenStandardMiningChannelSuccess request_id channel_id
        (Target_into_U256 (sc_target standard_channel)) extranonce_prefix group_channel_id in
      r ← run_local (Standard.on_new_template overflow_checks template outputs) standard_channel;
      job ← lift (future_job_of template (sc_job_store r.2));
      r ← run_local (Standard.on_set_new_prev_hash prev) r.2;
      vardiff ← lift (match Vardiff.new clock with Ok v => Ok v | _ => Panic end);
      _ ← register_channel downstream_id channel_id job.1 (nt_template_id template) vardiff;
      _ ← modify (put_downstream downstream_id
            (dd_set_group (Group.add_standard_channel_id channel_id <$> group_channels v)
               (dd_set_standard (<[channel_id := r.2]> (standard_channels v)) v)));
      forward_all (ToDownstream downstream_id ∘ ToMiner <$>
        [success; ReplyNewMiningJob (sj_job_message job.2);
         ReplySetNewPrevHash (prev_hash_message channel_id job.1 prev)])
  end.

Definition handle_open_extended_mining_channel (clock : option Z) (m : OpenExtendedMiningChannel)
    : JDC unit :=
  let request_id := oe_request_id m in
  '(user_identity, downstream_id) ← lift (split_identity (oe_user_identity m));
  d ← gets data;
  v ← lift (ok_or (downstream d !! downstream_id) (DownstreamNotFound downstream_id));
  channel_id ← next_channel_id;
  extranonce_prefix ← st_map_err (λ e, RolesSv2Logic (PrefixFactoryError e))
    (zoom (λ s, extranonce_prefix_factory_extended (data s)) (λ f, on_data (set_factory_extended f))
       (ExtendedExtranonceOps.next_prefix_extended (oe_min_extranonce_size m)));
  template ← lift (ok_or (last_future_template d) FutureTemplateNotPresent);
  prev ← lift (ok_or (last_new_prev_hash d) LastNewPrevhashNotFound);
  match Extended.new overflow_checks channel_id user_identity extranonce_prefix
          (Target_from_bytes (oe_max_target m)) (oe_nominal_hash_rate m) true
          (oe_min_extranonce_size m) (cfg_share_batch_size cfg) (cfg_shares_per_minute cfg)
          JobStore.new (pool_tag_string d) (Some (miner_tag_string cfg)) with
  | Panic => panic
  | Err RequestedMinExtranonceSizeTooLarge =>
      forward (ToDownstream downstream_id
        (ToMiner (OpenMiningChannelError request_id "min-extranonce-size-too-large")))
  | Err e =>
      match open_error request_id e with
      | Some reply => forward (ToDownstream downstream_id reply)
      | None => throw (RolesSv2Logic (ChannelError_ e))
      end
  | Ok extended_channel =>
      if 32 <? zlen extranonce_prefix then panic
      else
      let success := OpenExtendedMiningChannelSuccess request_id channel_id
        (Target_into_U256 (ec_target extended_channel))
        (ec_rollable_extranonce_size extended_channel) extranonce_prefix in
      outputs ← lift (coinbase_output template d);
      r ← run_local (Extended.on_new_template overflow_checks template outputs) extended_channel;
      job ← lift (future_job_of template (ec_job_store r.2));
      r ← run_local (Extended.on_set_new_prev_hash prev) r.2;
      vardiff ← lift (match Vardiff.new clock with Ok v => Ok v | _ => Panic end);
      _ ← modify (put_downstream downstream_id
            (dd_set_extended (<[channel_id := r.2]> (extended_channels v)) v));
      _ ← register_channel downstream_id channel_id job.1 (nt_template_id template) vardiff;
      forward_all (ToDownstream downstream_id ∘ ToMiner <$>
        [success; ReplyNewExtendedMiningJob (ej_job_message job.2);
         ReplySetNewPrevHash (prev_hash_message channel_id job.1 prev)])
  end.

(** *** Updates *)

(** The hash rates and targets of all channels, in the order of the loops. *)
Definition miner_rates (v : DownstreamData) : list (f32 * Target) :=
  ((λ '(_, c), (sc_nominal_hashrate c, sc_target c)) <$> map_iter (standard_channels v))
  ++ ((λ '(_, c), (ec_nominal_hashrate c, ec_target c)) <$> map_iter (extended_channels v)).
Definition aggregate (d : ChannelManagerData) : f32 * Target :=
  foldl (λ '(h, t) '(hashrate, target), (SFadd 24 128 h hashrate, Target_min target t))
    (S754_zero false, all_ones)
    (concat ((λ '(_, v), miner_rates v) <$> map_iter (downstream d))).
(** The [UpdateChannel] for the pool. *)
Definition upstream_update (d : ChannelManagerData) : list RouteMessageTo :=
  match upstream_channel d with
  | Some u =>
      let '(hashrate, target) := aggregate d in
      [Upstream (Update (mkUpdateChannel (Client.x_channel_id u) hashrate (Target_into_U256 target)))]
  | None => []
  end.
(** An internal error of the channel is only logged. *)
Definition update_reply (channel_id : Z) (target : Target) (res : result ChannelError unit) : Mining :=
  match res with
  | Err InvalidNominalHashrate => ToMiner (UpdateChannelError channel_id "invalid-nominal-hashrate")
  | Err RequestedMaxTargetOutOfRange =>
      ToMiner (UpdateChannelError channel_id "requested-max-target-out-of-range")
  | _ => ToMiner (SetTarget channel_id (Target_into_U256 target))
  end.
Definition handle_update_channel (m : UpdateChannel) : JDC unit :=
  let channel_id := uc_channel_id m in
  let max := Some (Target_from_bytes (uc_maximum_target m)) in
  d ← gets data;
  downstream_id ← lift (ok_or (channel_id_to_downstream_id d !! channel_id)
    (DownstreamNotFoundWithChannelId channel_id));
  replies ←
    match downstream d !! downstream_id with
    | None => mret []
    | Some v =>
        match standard_channels v !! channel_id, extended_channels v !! channel_id with
        | Some _, _ =>
            res ← on_standard downstream_id channel_id
              (Standard.update_channel overflow_checks (uc_nominal_hash_rate m) max);
            target ← on_standard (E := JDCError) downstream_id channel_id (gets sc_target);
            target ← lift target;
            mret [ToDownstream downstream_id (update_reply channel_id target res)]
        | None, Some _ =>
            res ← on_extended downstream_id channel_id
              (Extended.update_channel overflow_checks (uc_nominal_hash_rate m) max);
            target ← on_extended (E := JDCError) downstream_id channel_id (gets ec_target);
            target ← lift target;
            mret [ToDownstream downstream_id (update_reply channel_id target res)]
        | None, None =>
            mret [ToDownstream downstream_id (ToMiner (UpdateChannelError channel_id "invalid-channel-id"))]
        end
    end;
  d ← gets data;
  forward_all (replies ++ upstream_update d).

(** *** Shares *)

(** The answer to the miner, and whether the share goes on to the pool. *)
Definition answer_share (downstream_id channel_id sequence_number version ntime nonce : Z)
    (accounting : JDC ShareAccounting) (res : result ShareValidationError ShareValidationResult)
    : JDC (bool * list RouteMessageTo) :=
  let success last count sum :=
    ToDownstream downstream_id (ToMiner (SubmitSharesSuccess channel_id last count sum)) in
  match res with
  | Ok (Valid _) => mret (true, [])
  | Ok (ValidWithAcknowledgement _ last count sum) => mret (true, [success last count sum])
  | Ok (BlockFound _ template_id coinbase) =>
      solution ← match template_id with
        | Some template_id =>
            coinbase_tx ← lift (try_b064k BinarySv2 coinbase);
            mret [TemplateProvider (Solution (mkSolution template_id version ntime nonce coinbase_tx))]
        | None => mret []
        end;
      a ← accounting;
      mret (true, solution ++ [success (last_share_sequence_number a) (shares_accepted a) (share_work_sum a)])
  | Err e =>
      match share_error_code e with
      | Some code =>
          mret (false, [ToDownstream downstream_id (ToMiner (SubmitSharesError channel_id sequence_number code))])
      | None => panic
      end
  | Panic => panic
  end.
(** [client::share_accounting::ShareValidationError] as a code; the others are
    [unreachable!()]. *)
Definition upstream_refusal (e : Client.ShareValidationError) : result JDCError unit :=
  match e with
  | Client.Invalid | Client.Stale | Client.InvalidJobId | Client.DoesNotMeetTarget
  | Client.DuplicateShare => Ok tt
  | Client.VersionRollingNotAllowed | Client.NoChainTip => Panic
  end.

(** The part of a miner's extranonce that the pool does not know yet, in a
    [B032]; the slice of the prefix and the conversion panic. *)
Definition extranonce_parts {E} (prefix up_prefix extranonce : bytes) : result E bytes :=
  part ← slice_from prefix (zlen up_prefix);
  let l := part ++ extranonce in
  if 32 <? zlen l then Panic else Ok l.
(** The pool's job for a miner's job. *)
Definition upstream_job (channel_id job_id : Z) (d : ChannelManagerData) : option Z :=
  template_id ← downstream_channel_id_and_job_id_to_template_id d !! (channel_id, job_id);
  template_id_to_upstream_job_id d !! template_id.
Definition with_sequence_number (n : Z) (m : SubmitSharesExtended) : SubmitSharesExtended :=
  mkSubmitExtended (se_channel_id m) n (se_job_id m) (se_nonce m) (se_ntime m) (se_version m)
    (se_extranonce m).
Definition push_solution (extranonce : bytes) (prev : SetNewPrevHashTdp) (m : SubmitSharesExtended)
    : result JDCError PushSolution :=
  if 32 <? zlen extranonce then Err BinarySv2
  else Ok (mkPush extranonce (sp_prev_hash prev) (se_ntime m) (se_nonce m) (sp_n_bits prev) (se_version m)).

(** A share the miner's channel accepted, offered to the pool's channel.
    [prefix] is the prefix of the miner's channel and [extranonce] what the
    miner rolled; [solution] is the extranonce of a block. *)
Definition forward_share (channel_id job_id nonce ntime version : Z) (prefix extranonce : bytes)
    (solution : Client.ExtendedChannel → SubmitSharesExtended → bytes) (prev : SetNewPrevHashTdp)
    : JDC (list RouteMessageTo) :=
  d ← gets data;
  match upstream_channel d with
  | None => mret []
  | Some u =>
      _ ← lift (slice_from prefix (zlen (Client.x_extranonce_prefix u)));
      match upstream_job channel_id job_id d with
      | None => mret []
      | Some upstream_job_id =>
          parts ← lift (extranonce_parts prefix (Client.x_extranonce_prefix u) extranonce);
          let m := mkSubmitExtended (Client.x_channel_id u) 0 (wrap 32 upstream_job_id) nonce ntime
                     version parts in
          res ← on_upstream (Client.Extended.validate_share overflow_checks m);
          match res with
          | Ok Client.Valid =>
              n ← next_sequence_number;
              mret [Upstream (Submit (with_sequence_number n m))]
          | Ok Client.BlockFound =>
              n ← next_sequence_number;
              push ← lift (push_solution (solution u m) prev m);
              mret [JobDeclarator (RequestPushSolution push);
                    Upstream (Submit (with_sequence_number n m))]
          | Err e => _ ← lift (upstream_refusal e); mret []
          | Panic => panic
          end
      end
  end.

Definition count_share (channel_id downstream_id : Z) : JDC unit :=
  d ← gets data;
  v ← lift (ok_or (vardiff d !! (channel_id, downstream_id)) (VardiffNotFound channel_id));
  match Vardiff.increment_shares_since_last_update overflow_checks v with
  | (Ok _, v) => modify (on_data (λ d, set_vardiff (<[(channel_id, downstream_id) := v]> (vardiff d)) d))
  | _ => panic
  end.
(** The miner of a channel and the chain tip, as both handlers look them up. *)
Definition share_context (channel_id : Z) : JDC (Z * DownstreamData * SetNewPrevHashTdp) :=
  d ← gets data;
  downstream_id ← lift (ok_or (channel_id_to_downstream_id d !! channel_id)
    (DownstreamNotFoundWithChannelId channel_id));
  v ← lift (ok_or (downstream d !! downstream_id) (DownstreamNotFound downstream_id));
  prev ← lift (ok_or (last_new_prev_hash d) LastNewPrevhashNotFound);
  mret (downstream_id, v, prev).

Definition handle_submit_shares_standard (m : SubmitSharesStandard) : JDC unit :=
  let channel_id := ss_channel_id m in
  '(downstream_id, v, prev) ← share_context channel_id;
  match standard_channels v !! channel_id with
  | None =>
      forward (ToDownstream downstream_id
        (ToMiner (SubmitSharesError channel_id (ss_sequence_number m) "invalid-channel-id")))
  | Some channel =>
      _ ← count_share channel_id downstream_id;
      res ← on_standard downstream_id channel_id (Standard.validate_share overflow_checks m);
      '(valid, messages) ← answer_share downstream_id channel_id (ss_sequence_number m) (ss_version m)
        (ss_ntime m) (ss_nonce m)
        (a ← on_standard (E := JDCError) downstream_id channel_id (gets sc_share_accounting); lift a) res;
      more ← (if (valid : bool) then
                let prefix := sc_extranonce_prefix channel in
                forward_share channel_id (ss_job_id m) (ss_nonce m) (ss_ntime m) (ss_version m) prefix []
                  (λ _ _, prefix) prev
              else mret []);
      forward_all (messages ++ more)
  end.
Definition handle_submit_shares_extended (m : SubmitSharesExtended) : JDC unit :=
  let channel_id := se_channel_id m in
  '(downstream_id, v, prev) ← share_context channel_id;
  match extended_channels v !! channel_id with
  | None =>
      forward (ToDownstream downstream_id
        (ToMiner (SubmitSharesError channel_id (se_sequence_number m) "invalid-channel-id")))
  | Some channel =>
      _ ← count_share channel_id downstream_id;
      res ← on_extended downstream_id channel_id (Extended.validate_share overflow_checks m);
      '(valid, messages) ← answer_share downstream_id channel_id (se_sequence_number m) (se_version m)
        (se_ntime m) (se_nonce m)
        (a ← on_extended (E := JDCError) downstream_id channel_id (gets ec_share_accounting); lift a) res;
      more ← (if (valid : bool) then
                forward_share channel_id (se_job_id m) (se_nonce m) (se_ntime m) (se_version m)
                  (ec_extranonce_prefix channel) (se_extranonce m)
                  (λ u m, Client.x_extranonce_prefix u ++ se_extranonce m) prev
              else mret []);
      forward_all (messages ++ more)
  end.

(** *** Variable difficulty *)

(** [run_vardiff_on_standard_channel] and [run_vardiff_on_extended_channel]: a
    failure of either step is only logged. *)
Definition run_vardiff_on {K} (hashrate : K → f32) (target : K → Target) (spm : K → f32)
    (update : f32 → option Target → ST K ChannelError unit) (downstream_id channel_id : Z)
    (clock clock' : option Z) (v : VardiffState) (k : K)
    : result JDCError (list RouteMessageTo) * VardiffState * K :=
  match Vardiff.try_vardiff overflow_checks clock clock' (hashrate k) (target k) (spm k) v with
  | (Panic, v) => (Panic, v, k)
  | (Err _, v) | (Ok None, v) => (Ok [], v, k)
  | (Ok (Some new_hashrate), v) =>
      match update new_hashrate None k with
      | (Ok _, k) =>
          (Ok [ToDownstream downstream_id (ToMiner (SetTarget channel_id (Target_into_U256 (target k))))], v, k)
      | (Err _, k) => (Ok [], v, k)
      | (Panic, k) => (Panic, v, k)
      end
  end.
Definition put_vardiff (key : Z * Z) (v : VardiffState) : ChannelManager → ChannelManager :=
  on_data (λ d, set_vardiff (<[key := v]> (vardiff d)) d).
(** The channels of one entry of the vardiff map. *)
Definition vardiff_entry (clocks : Z → option Z * option Z) (key : Z * Z) : JDC (list RouteMessageTo) :=
  let '(channel_id, downstream_id) := key in
  let '(clock, clock') := clocks channel_id in
  standard ← (λ s,
    match (v ← miner downstream_id s; standard_channels v !! channel_id), vardiff (data s) !! key with
    | Some c, Some vd =>
        let '(r, vd, c) := run_vardiff_on sc_nominal_hashrate sc_target sc_expected_share_per_minute
              (Standard.update_channel overflow_checks) downstream_id channel_id clock clock' vd c in
        let '(_, s) := on_standard (E := unit) downstream_id channel_id (modify (λ _, c)) s in
        (r, put_vardiff key vd s)
    | _, _ => (Ok [], s)
    end) : JDC (list RouteMessageTo);
  extended ← (λ s,
    match (v ← miner downstream_id s; extended_channels v !! channel_id), vardiff (data s) !! key with
    | Some c, Some vd =>
        let '(r, vd, c) := run_vardiff_on ec_nominal_hashrate ec_target ec_expected_share_per_minute
              (Extended.update_channel overflow_checks) downstream_id channel_id clock clock' vd c in
        let '(_, s) := on_extended (E := unit) downstream_id channel_id (modify (λ _, c)) s in
        (r, put_vardiff key vd s)
    | _, _ => (Ok [], s)
    end) : JDC (list RouteMessageTo);
  mret (standard ++ extended).
Definition run_vardiff (clocks : Z → option Z * option Z) : JDC unit :=
  d ← gets data;
  messages ← for_each (λ '(key, _), vardiff_entry clocks key) (pair_iter (vardiff d));
  d ← gets data;
  forward_all (match messages with [] => [] | _ => messages ++ upstream_update d end).

(** *** Tokens *)

(** One turn of the loop of [allocate_tokens]. *)
Definition request_token : JDC unit :=
  request_id ← next_request_id;
  if 255 <? zlen (cfg_user_identity cfg) then panic
  else send (SentJd (AllocateMiningJobToken request_id)).
(** [_ = self.allocate_tokens(1).await]. *)
Definition allocate_token : JDC unit := λ s,
  match request_token s with
  | (Panic, s) => (Panic, s)
  | (_, s) => (Ok tt, s)
  end.

(** *** Dispatch of a miner's message *)

Definition handle_mining_message_from_client (clock : option Z) (m : MinerMessage) : JDC unit :=
  match m with
  | MinerOpenStandard m => handle_open_standard_mining_channel clock m
  | MinerOpenExtended m => handle_open_extended_mining_channel clock m
  | MinerUpdateChannel m => handle_update_channel m
  | MinerSubmitStandard m => handle_submit_shares_standard m
  | MinerSubmitExtended m => handle_submit_shares_extended m
  | MinerSetCustomJob _ => throw (UnexpectedMessage 0x22)
  | MinerCloseChannel id => handle_close_channel id
  | MinerOther _ => throw (UnexpectedMessage 0)
  end.
(** The request is framed and parsed again. *)
Definition send_open_channel_request_to_mining_handler (clock : option Z) (r : OpenRequest) : JDC unit :=
  handle_mining_message_from_client clock
    (match r with PendingExtended m => MinerOpenExtended m | PendingStandard m => MinerOpenStandard m end).

Definition oe_with (request_id : Z) (user_identity : bytes) (m : OpenExtendedMiningChannel) :=
  mkOpenExtended request_id user_identity (oe_nominal_hash_rate m) (oe_max_target m) (oe_min_extranonce_size m).
Definition os_with (user_identity : bytes) (m : OpenStandardMiningChannel) :=
  mkOpenStandard (os_request_id m) user_identity (os_nominal_hash_rate m) (os_max_target m).

Definition keep_pending (r : OpenRequest) : JDC unit :=
  modify (on_data (λ d, set_pending (pending_downstream_requests d ++ [r]) d)).
(** An open request in each state of the upstream channel; [upstream] is the
    request the first one makes to the pool. *)
Definition route_open (clock : option Z) (r : OpenRequest)
    (upstream : result JDCError OpenExtendedMiningChannel) : JDC unit :=
  state ← gets upstream_state;
  match state with
  | NoChannel =>
      _ ← keep_pending r;
      swapped ← (λ s, let '(res, s) := compare_and_set NoChannel Pending s in (Ok res, s))
        : JDC (result UpstreamState unit);
      match swapped with
      | Ok _ => m ← lift upstream; send (SentUpstream (OpenExtended m))
      | _ => mret tt
      end
  | Pending => keep_pending r
  | Connected | Solo => send_open_channel_request_to_mining_handler clock r
  end.
Definition handle_downstream_message (clock : option Z) (downstream_id : Z) (m : MinerMessage)
    : JDC unit :=
  match m with
  | MinerOpenExtended x =>
      user_identity ← lift (try_b0255 BinarySv2
        (with_downstream_id (as_utf8_or_hex (oe_user_identity x)) downstream_id));
      let x := oe_with (oe_request_id x) user_identity x in
      route_open clock (PendingExtended x)
        (user_identity ← try_b0255 BinarySv2 (cfg_user_identity cfg); Ok (oe_with 1 user_identity x))
  | MinerOpenStandard x =>
      user_identity ← lift (try_b0255 BinarySv2
        (with_downstream_id (debug_string (os_user_identity x)) downstream_id));
      let x := os_with user_identity x in
      route_open clock (PendingStandard x)
        (if 255 <? zlen (cfg_user_identity cfg) then Panic
         else Ok (mkOpenExtended 1 (cfg_user_identity cfg) (os_nominal_hash_rate x) (os_max_target x)
                    (cfg_min_extranonce_size cfg)))
  | m => handle_mining_message_from_client clock m
  end.

(** ** Messages of the pool *)

Definition fallback (m : Status) : JDC unit := try_send (SentStatus m).

(** The space between the pool's prefix and what a miner asked for, at most
    the configured size. *)
Definition jdc_extranonce_len (extranonce_size min_size : Z) : Z :=
  Z.min (Z.max 0 (extranonce_size - min_size)) (cfg_min_extranonce_size cfg).
Definition make_factory (prefix : bytes) (extranonce_size min_size : Z)
    : result ExtendedExtranonceError ExtendedExtranonce :=
  let len := jdc_extranonce_len extranonce_size min_size in
  let prefix_len := zlen prefix in
  ExtendedExtranonceOps.from_upstream_extranonce prefix (mkRange 0 prefix_len)
    (mkRange prefix_len (prefix_len + len)) (mkRange (prefix_len + len) (prefix_len + extranonce_size)).

(** The custom job of a template with the held token, stored under its request
    number; a failure of the job factory is ignored. *)
Definition declare_custom_job (channel_id : Z) (factory : JobFactory) (token : Token)
    (chain_tip : ChainTip) (prev : SetNewPrevHashTdp) (template : NewTemplate)
    : JDC (option SetCustomMiningJob) :=
  request_id ← next_request_id;
  d ← gets data;
  outputs ← lift (deserialize_coinbase_outputs (coinbase_outputs d));
  match new_custom_job overflow_checks channel_id request_id (tk_mining_job_token token) chain_tip template outputs factory with
  | Ok custom_job =>
      _ ← modify (on_data (λ d, set_declared (<[request_id :=
            mkDeclared None template (Some prev) (Some custom_job) (coinbase_outputs d) []]>
            (last_declare_job_store d)) d));
      mret (Some custom_job)
  | Err _ => mret None
  | Panic => panic
  end.

Fixpoint open_pending (clock : option Z) (l : list OpenRequest) : JDC unit :=
  match l with
  | [] => mret tt
  | r :: l => _ ← send_open_channel_request_to_mining_handler clock r; open_pending clock l
  end.
(** Once the channel is there: the template's transactions or its custom job,
    then the requests that waited. *)
Definition after_connect (clock : option Z) (mode : JdMode) (template : option NewTemplate)
    (custom_job : option SetCustomMiningJob) : JDC unit :=
  _ ← match mode, template with
      | FullTemplate, Some template => send (SentTp (RequestTransactionData (nt_template_id template)))
      | _, _ => mret tt
      end;
  _ ← match custom_job with
      | Some job => _ ← send (SentJdMining (CustomJob job)); allocate_token
      | None => mret tt
      end;
  pending ← gets (λ s, pending_downstream_requests (data s));
  _ ← modify (on_data (set_pending []));
  open_pending clock pending.
Definition handle_open_extended_mining_channel_success (clock : option Z) (m : OpenSuccess) : JDC unit :=
  d ← gets data;
  '(hashrate, min_extranonce_size) ← lift
    (match pending_downstream_requests d with
     | PendingExtended r :: _ => Ok (oe_nominal_hash_rate r, oe_min_extranonce_size r)
     | PendingStandard r :: _ => Ok (os_nominal_hash_rate r, cfg_min_extranonce_size cfg)
     | [] => Panic
     end);
  match make_factory (op_extranonce_prefix m) (op_extranonce_size m) min_extranonce_size with
  | Panic => panic
  | Err _ => modify (set_state NoChannel)
  | Ok extranonces =>
      let factory := JobFactory_new true (pool_tag_string d) (Some (miner_tag_string cfg)) in
      let channel := Client.Extended.new (op_channel_id m) (cfg_user_identity cfg)
        (op_extranonce_prefix m) (Target_from_bytes (op_target m)) hashrate true min_extranonce_size in
      let channel := match last_new_prev_hash d with
                     | Some prev => Client.Extended.on_chain_tip_update (ChainTip_from_tdp prev) channel
                     | None => channel
                     end in
      mode ← gets jd_mode;
      custom_job ←
        match mode, job_factory d, allocate_tokens d, last_future_template d, last_new_prev_hash d with
        | CoinbaseOnly, Some old_factory, Some token, Some template, Some prev =>
            declare_custom_job (op_channel_id m) old_factory token (ChainTip_from_tdp prev) prev template
        | _, _, _, _, _ => mret None
        end;
      _ ← modify (on_data (λ d, set_job_factory (Some factory) (set_upstream (Some channel)
            (set_factory_standard extranonces (set_factory_extended extranonces d)))));
      _ ← modify (set_state Connected);
      after_connect clock mode (last_future_template d) custom_job
  end.

Definition handle_upstream_close_channel : JDC unit :=
  _ ← modify (on_data (set_upstream None));
  fallback UpstreamShutdownFallback.

(** A new prefix for one channel; a failure is dropped. *)
Definition renew_prefix {K} (next : JDC (result ExtendedExtranonceError bytes))
    (set : bytes → JDC (result ChannelError K)) (downstream_id channel_id : Z)
    : JDC (list RouteMessageTo) :=
  prefix ← next;
  match prefix with
  | Ok p =>
      res ← set p;
      mret (match res with
            | Ok _ => [ToDownstream downstream_id (NewPrefix channel_id p)]
            | _ => []
            end)
  | _ => mret []
  end.
Definition take_factory (get : ChannelManagerData → ExtendedExtranonce)
    (put : ExtendedExtranonce → ChannelManagerData → ChannelManagerData)
    (m : ST ExtendedExtranonce ExtendedExtranonceError bytes) : JDC (result ExtendedExtranonceError bytes) :=
  focus (λ s, Some (get (data s))) (λ f, on_data (put f)) m.
Definition renew_prefixes (downstream_id : Z) : JDC (list RouteMessageTo) :=
  v ← gets (λ s, default DownstreamData_new (miner downstream_id s));
  standard ← for_each (λ '(id, _),
    renew_prefix
      (take_factory extranonce_prefix_factory_standard set_factory_standard
         ExtendedExtranonceOps.next_prefix_standard)
      (λ p, on_standard downstream_id id (Standard.set_extranonce_prefix p)) downstream_id id)
    (map_iter (standard_channels v));
  extended ← for_each (λ '(id, c),
    renew_prefix
      (take_factory extranonce_prefix_factory_extended set_factory_extended
         (ExtendedExtranonceOps.next_prefix_extended (ec_rollable_extranonce_size c)))
      (λ p, on_extended downstream_id id (Extended.set_extranonce_prefix overflow_checks p)) downstream_id id)
    (map_iter (extended_channels v));
  mret (standard ++ extended).
Definition handle_set_extranonce_prefix (prefix : bytes) : JDC unit :=
  d ← gets data;
  match upstream_channel d with
  | None => mret tt
  | Some _ =>
      res ← on_upstream (Client.Extended.set_extranonce_prefix overflow_checks prefix);
      _ ← lift (map_err (λ _, RolesSv2Logic BadPayloadSize) res);
      extranonce_size ← lift (sub_chk MAX_EXTRANONCE_LEN (zlen prefix));
      extranonces ← lift (map_err (λ e, RolesSv2Logic (PrefixFactoryError e))
        (make_factory prefix extranonce_size (cfg_min_extranonce_size cfg)));
      _ ← modify (on_data (λ d, set_factory_standard extranonces (set_factory_extended extranonces d)));
      messages ← for_each (λ '(id, _), renew_prefixes id) (map_iter (downstream d));
      forward_all messages
  end.

(** The declared job is done; others of the same template go with it. *)
Definition handle_set_custom_mining_job_success (m : Client.CustomJobSuccess) : JDC unit :=
  d ← gets data;
  match last_declare_job_store d !! Client.cs_request_id m with
  | None => mret tt
  | Some job =>
      let template_id := nt_template_id (dd_template job) in
      _ ← modify (on_data (λ d,
            set_upstream_jobs (<[template_id := Client.cs_job_id m]> (template_id_to_upstream_job_id d))
              (set_declared
                 (filter (λ e, nt_template_id (dd_template e.2) ≠ template_id)
                    (delete (Client.cs_request_id m) (last_declare_job_store d))) d)));
      match upstream_channel d, dd_set_custom_mining_job job with
      | Some _, Some custom_job =>
          _ ← on_upstream (Client.Extended.on_set_custom_mining_job_success custom_job m);
          mret tt
      | _, _ => mret tt
      end
  end.
Definition handle_set_target (maximum_target : bytes) : JDC unit :=
  modify (on_data (λ d, set_upstream
    (Client.Extended.set_target (Target_from_bytes maximum_target) <$> upstream_channel d) d)).

(** The messages of the pool, dispatched for a client of extended channels with
    work selection. *)
Inductive PoolMessage : Type :=
  | PmOpenStandardSuccess
  | PmOpenExtendedSuccess (m : OpenSuccess)
  | PmOpenMiningChannelError
  | PmUpdateChannelError
  | PmCloseChannel
  | PmSetExtranoncePrefix (prefix : bytes)
  | PmSubmitSharesSuccess
  | PmSubmitSharesError
  | PmNewMiningJob
  | PmNewExtendedMiningJob
  | PmSetNewPrevHash
  | PmSetCustomMiningJobSuccess (m : Client.CustomJobSuccess)
  | PmSetCustomMiningJobError
  | PmSetTarget (maximum_target : bytes)
  | PmSetGroupChannel
  | PmOther.
Definition handle_mining_message_from_server (clock : option Z) (m : PoolMessage) : JDC unit :=
  match m with
  | PmOpenStandardSuccess => throw (UnexpectedMessage 0x11)
  | PmOpenExtendedSuccess m => handle_open_extended_mining_channel_success clock m
  | PmOpenMiningChannelError | PmSetCustomMiningJobError => fallback UpstreamShutdownFallback
  | PmUpdateChannelError | PmSubmitSharesSuccess | PmSubmitSharesError
  | PmNewExtendedMiningJob | PmSetNewPrevHash => mret tt
  | PmCloseChannel => handle_upstream_close_channel
  | PmSetExtranoncePrefix p => handle_set_extranonce_prefix p
  | PmNewMiningJob => throw (UnexpectedMessage 0x15)
  | PmSetCustomMiningJobSuccess m => handle_set_custom_mining_job_success m
  | PmSetTarget t => handle_set_target t
  | PmSetGroupChannel => throw (UnexpectedMessage 0x25)
  | PmOther => throw (UnexpectedMessage 0)
  end.

(** ** Messages of the job declarator server *)

Definition dummy_coinbase (outputs : list TxOut) : Transaction :=
  mkTransaction 2 0 [mkTxIn OutPoint_null [] 0xFFFFFFFF [replicate 32 (byte.of_Z 0)]] outputs.
Definition handle_allocate_mining_job_token_success (t : Token) : JDC unit :=
  d ← gets data;
  let coinbase_changed := negb (bool_decide (coinbase_outputs d = tk_coinbase_outputs t)) in
  _ ← modify (on_data (λ d, set_tokens (Some t) (set_outputs (tk_coinbase_outputs t) d)));
  if coinbase_changed then
    outputs ← lift (ok_or (deserialize_outputs (tk_coinbase_outputs t)) BitcoinEncodeError);
    let max_additional_size := foldr Z.add 0 (txout_size <$> outputs) in
    let max_additional_sigops := wrap 16 (total_sigop_cost (dummy_coinbase outputs)) in
    send (SentTp (CoinbaseOutputConstraints (wrap 32 max_additional_size) max_additional_sigops))
  else mret tt.

Definition with_custom_job (m : SetCustomMiningJob) (j : DeclaredJob) : DeclaredJob :=
  mkDeclared (dd_declare_mining_job j) (dd_template j) (dd_prev_hash j) (Some m)
    (dd_coinbase_output j) (dd_tx_list j).
Definition handle_declare_mining_job_success (request_id : Z) (new_mining_job_token : bytes) : JDC unit :=
  d ← gets data;
  job ← lift (ok_or (last_declare_job_store d !! request_id) (LastDeclareJobNotFound request_id));
  prev ← lift (ok_or (dd_prev_hash job) LastNewPrevhashNotFound);
  match job_factory d, upstream_channel d with
  | Some factory, Some u =>
      outputs ← lift (deserialize_coinbase_outputs (dd_coinbase_output job));
      custom_job ← lift (map_err (λ _, FailedToCreateCustomJob)
        (new_custom_job overflow_checks (Client.x_channel_id u) request_id new_mining_job_token (ChainTip_from_tdp prev)
           (dd_template job) outputs factory));
      _ ← modify (on_data (λ d, set_declared
            (alter (with_custom_job custom_job) request_id (last_declare_job_store d)) d));
      send (SentUpstream (CustomJob custom_job))
  | _, _ => throw FailedToCreateCustomJob
  end.

(** The length of a [ProvideMissingTransactionsSuccess]. *)
Definition provide_len (txs : list bytes) : Z := 4 + 2 + foldr Z.add 0 ((λ t, 3 + zlen t) <$> txs).
Definition handle_provide_missing_transactions (request_id : Z) (positions : list Z) : JDC unit :=
  d ← gets data;
  entry ← lift (ok_or (last_declare_job_store d !! request_id) (LastDeclareJobNotFound request_id));
  let missing := omap (λ pos, dd_tx_list entry !! Z.to_nat pos) positions in
  if 65535 <? zlen missing then throw BinarySv2
  else if 2 ^ 24 - 1 <? provide_len missing then throw ParserError
  else send (SentJd (ProvideMissingTransactionsSuccess request_id missing)).

Inductive JdsMessage : Type :=
  | JmReply (m : JdReply)
  | JmOther (message_type : Z).
Definition handle_job_declaration_message_from_server (m : JdsMessage) : JDC unit :=
  match m with
  | JmReply (AllocateMiningJobTokenSuccess i t o) => handle_allocate_mining_job_token_success (mkToken i t o)
  | JmReply (DeclareMiningJobSuccess i t) => handle_declare_mining_job_success i t
  | JmReply (DeclareMiningJobError _) => send (SentStatus JobDeclaratorShutdownFallback)
  | JmReply (ProvideMissingTransactions i l) => handle_provide_missing_transactions i l
  | JmOther message_type => throw (UnexpectedMessage message_type)
  end.

(** ** Messages of the template provider *)

(** Records the template of a job of a channel. *)
Definition record_job (channel_id job_id template_id : Z) : JDC unit :=
  modify (on_data (λ d, set_job_templates
    (<[(channel_id, job_id) := template_id]> (downstream_channel_id_and_job_id_to_template_id d)) d)).
(** A channel takes a template and gives its job. *)
Definition take_template {K T} (on_new_template : ST K ChannelError unit) (store : K → DefaultJobStore T)
    (template : NewTemplate) : ST K ChannelError T :=
  _ ← on_new_template; job_of store template.

Definition group_job (downstream_id : Z) (template : NewTemplate) (outputs : list TxOut)
    : JDC (option ExtendedJob) :=
  v ← gets (miner downstream_id);
  match v ≫= group_channels with
  | None => mret None
  | Some _ =>
      job ← on_group downstream_id
        (take_template (Group.on_new_template overflow_checks template outputs) gc_job_store template);
      mret (match job with Ok j => Some j | _ => None end)
  end.
(** The custom job for the pool that is made once for every miner. *)
Definition template_custom_job (template : NewTemplate) : JDC (list RouteMessageTo) :=
  d ← gets data;
  mode ← gets jd_mode;
  match upstream_channel d, nt_future_template template, mode, allocate_tokens d, last_new_prev_hash d with
  | Some u, false, CoinbaseOnly, Some token, Some prev =>
      factory ← lift (unwrap (job_factory d));
      job ← declare_custom_job (Client.x_channel_id u) factory token (ChainTip_from_tdp prev) prev template;
      mret (match job with Some j => [Upstream (CustomJob j)] | None => [] end)
  | _, _, _, _, _ => mret []
  end.
Definition standard_template (downstream_id : Z) (template : NewTemplate) (outputs : list TxOut)
    (grouped : bool) (group : option ExtendedJob) (id : Z) : JDC (list RouteMessageTo) :=
  let take := take_template (Standard.on_new_template overflow_checks template outputs) sc_job_store template in
  messages ←
    (if grouped then mret (Some [])
     else
       job ← on_standard downstream_id id take;
       match job with
       | Ok job =>
           _ ← record_job id (get_job_id job) (nt_template_id template);
           mret (Some [ToDownstream downstream_id (ToMiner (ReplyNewMiningJob (sj_job_message job)))])
       | _ => mret None
       end);
  match messages, group with
  | Some l, Some group_job =>
      res ← on_standard downstream_id id (Standard.on_new_template overflow_checks template outputs);
      match res with
      | Ok _ => _ ← on_standard downstream_id id (Standard.on_group_channel_job group_job); mret l
      | _ => mret l
      end
  | Some l, None => mret l
  | None, _ => mret []
  end.
Definition extended_template (downstream_id : Z) (template : NewTemplate) (outputs : list TxOut) (id : Z)
    : JDC (list RouteMessageTo) :=
  job ← on_extended downstream_id id
    (take_template (Extended.on_new_template overflow_checks template outputs) ec_job_store template);
  match job with
  | Ok job =>
      _ ← record_job id (get_job_id job) (nt_template_id template);
      mret [ToDownstream downstream_id (ToMiner (ReplyNewExtendedMiningJob (ej_job_message job)))]
  | _ => mret []
  end.
Definition downstream_template (template : NewTemplate) (outputs : list TxOut) (downstream_id : Z)
    : JDC (list RouteMessageTo) :=
  group ← group_job downstream_id template outputs;
  custom ← template_custom_job template;
  v ← gets (λ s, default DownstreamData_new (miner downstream_id s));
  let grouped := bool_decide (is_Some (group_channels v)) in
  standard ← for_each (λ '(id, _), standard_template downstream_id template outputs grouped group id)
    (map_iter (standard_channels v));
  extended ← for_each (λ '(id, _), extended_template downstream_id template outputs id)
    (map_iter (extended_channels v));
  mret (custom ++ standard
        ++ match group with
           | Some j => [ToDownstream downstream_id (ToMiner (ReplyNewExtendedMiningJob (ej_job_message j)))]
           | None => []
           end
        ++ extended).
Definition handle_new_template (template : NewTemplate) : JDC unit :=
  _ ← modify (on_data (λ d, set_template_store
        (<[nt_template_id template := template]> (template_store d)) d));
  _ ← (if nt_future_template template then modify (on_data (set_future_template (Some template)))
       else mret tt);
  mode ← gets jd_mode;
  _ ← (if bool_decide (mode = FullTemplate)
       then send (SentTp (RequestTransactionData (nt_template_id template))) else mret tt);
  d ← gets data;
  outputs ← lift (coinbase_output template d);
  messages ← for_each (λ '(id, _), downstream_template template outputs id) (map_iter (downstream d));
  _ ← (if bool_decide (mode = CoinbaseOnly) && negb (nt_future_template template)
       then allocate_token else mret tt);
  forward_all messages.

Definition handle_request_tx_data_error (error_code : bytes) : JDC unit :=
  let error_code := as_utf8_or_hex error_code in
  if bool_decide (error_code = text "template-id-not-found" ∨ error_code = text "stale-template-id")
  then mret tt else throw TxDataError.

Record TxData : Type := mkTxData {
  td_template_id : Z;
  td_excess_data : bytes;
  td_transaction_list : list bytes }.
(** [try_into().unwrap()] at a type of at most [n] bytes. *)
Definition at_most {E} (n : Z) (l : bytes) : result E bytes := if n <? zlen l then Panic else Ok l.
(** The declaration of a template; [None] without a job factory or when the
    factory refuses the template. *)
Definition declare_job (request_id : Z) (token : bytes) (template : NewTemplate) (txids : list bytes)
    (excess_data reserialized : bytes) (tx_list : list bytes) : JDC (option DeclareMiningJob) :=
  d ← gets data;
  match job_factory d with
  | None => mret None
  | Some factory =>
      outputs ← lift (coinbase_output template d);
      match new_coinbase_tx_prefix_and_suffix overflow_checks template outputs factory with
      | Panic => panic
      | Err _ => mret None
      | Ok (p, s) =>
          token ← lift (at_most 255 token);
          p ← lift (at_most 65535 p);
          s ← lift (at_most 65535 s);
          excess ← lift (at_most 65535 excess_data);
          let m := mkDeclare request_id token (nt_version template) p s txids excess in
          _ ← modify (on_data (λ d, set_declared (<[request_id :=
                mkDeclared (Some m) template (last_new_prev_hash d) None reserialized tx_list]>
                (last_declare_job_store d)) d));
          mret (Some m)
      end
  end.
Definition handle_request_tx_data_success (m : TxData) : JDC unit :=
  d ← gets data;
  let template := template_store d !! td_template_id m in
  _ ← modify (on_data (λ d, set_template_store (delete (td_template_id m) (template_store d)) d));
  request_id ← next_request_id;
  _ ← allocate_token;
  token ← lift (ok_or (allocate_tokens d) TokenNotFound);
  template ← lift (ok_or template (TemplateNotFound (td_template_id m)));
  outputs ← lift (deserialize_coinbase_outputs (tk_coinbase_outputs token));
  outputs ← lift (set_first_value (nt_coinbase_tx_value_remaining template) outputs);
  txs ← lift (unwrap (mapM tx_deserialize (td_transaction_list m)));
  let txids := compute_txid <$> txs in
  _ ← (if 65535 <? zlen txids then throw BinarySv2 else mret tt);
  let waits := nt_future_template template &&
    match last_new_prev_hash d with
    | Some prev => negb (sp_template_id prev =? nt_template_id template)
    | None => true
    end in
  job ← declare_job request_id (tk_mining_job_token token) template txids (td_excess_data m)
    (outputs_serialize outputs) (td_transaction_list m);
  match waits, job with
  | false, Some m => try_send (SentJd (RequestDeclareMiningJob m))
  | _, _ => mret tt
  end.

(** A prevhash makes a declared future job current. *)
Definition activate_declared (m : SetNewPrevHashTdp) (j : DeclaredJob) : DeclaredJob :=
  let t := dd_template j in
  if nt_future_template t && (nt_template_id t =? sp_template_id m) then
    mkDeclared (dd_declare_mining_job j)
      (mkNewTemplate (nt_template_id t) false (nt_version t) (nt_coinbase_tx_version t)
         (nt_coinbase_prefix t) (nt_coinbase_tx_input_sequence t) (nt_coinbase_tx_value_remaining t)
         (nt_coinbase_tx_outputs_count t) (nt_coinbase_tx_outputs t) (nt_coinbase_tx_locktime t)
         (nt_merkle_path t))
      (Some m) (dd_set_custom_mining_job j) (dd_coinbase_output j) (dd_tx_list j)
  else j.
Definition downstream_prev_hash (m : SetNewPrevHashTdp) (downstream_id : Z) : JDC (list RouteMessageTo) :=
  v ← gets (λ s, default DownstreamData_new (miner downstream_id s));
  let to_miner id job_id :=
    [ToDownstream downstream_id (ToMiner (ReplySetNewPrevHash (prev_hash_message id job_id m)))] in
  group ← match group_channels v with
    | None => mret []
    | Some g =>
        _ ← on_group downstream_id (Group.on_set_new_prev_hash m);
        job_id ← on_group (E := JDCError) downstream_id (active_id gc_job_store);
        job_id ← lift job_id;
        mret (to_miner (gc_group_channel_id g) job_id)
    end;
  standard ← for_each (λ '(id, _),
    res ← on_standard downstream_id id (Standard.on_set_new_prev_hash m);
    match res, group_channels v with
    | Ok _, None =>
        job_id ← on_standard (E := JDCError) downstream_id id (active_id sc_job_store);
        job_id ← lift job_id;
        mret (to_miner id job_id)
    | _, _ => mret []
    end) (map_iter (standard_channels v));
  extended ← for_each (λ '(id, _),
    res ← on_extended downstream_id id (Extended.on_set_new_prev_hash m);
    match res with
    | Ok _ =>
        job_id ← on_extended (E := JDCError) downstream_id id (active_id ec_job_store);
        job_id ← lift job_id;
        mret (to_miner id job_id)
    | _ => mret []
    end) (map_iter (extended_channels v));
  mret (group ++ standard ++ extended).
(** The first declared job, in the order of the map, of the last future
    template. *)
Definition declared_for_future (d : ChannelManagerData) : option DeclareMiningJob :=
  e ← list_find (λ e : Z * DeclaredJob,
        Some (nt_template_id (dd_template e.2)) = (nt_template_id <$> last_future_template d))
        (map_iter (last_declare_job_store d));
  dd_declare_mining_job e.2.2.
Definition update_upstream_tip (m : SetNewPrevHashTdp) : JDC unit :=
  modify (on_data (λ d, set_upstream
    (Client.Extended.on_chain_tip_update (ChainTip_from_tdp m) <$> upstream_channel d) d)).
Definition handle_set_new_prev_hash (m : SetNewPrevHashTdp) : JDC unit :=
  _ ← update_upstream_tip m;
  d ← gets data;
  mode ← gets jd_mode;
  _ ← match mode, declared_for_future d with
      | FullTemplate, Some job => send (SentJd (RequestDeclareMiningJob job))
      | _, _ => mret tt
      end;
  let future_template := last_future_template d in
  _ ← modify (on_data (λ d, set_declared (activate_declared m <$> last_declare_job_store d)
        (set_prev_hash (Some m) d)));
  _ ← update_upstream_tip m;
  d ← gets data;
  custom ←
    match upstream_channel d, mode, job_factory d, allocate_tokens d, future_template with
    | Some u, CoinbaseOnly, Some factory, Some token, Some template =>
        job ← declare_custom_job (Client.x_channel_id u) factory token (ChainTip_from_tdp m) m template;
        mret (match job with Some j => [Upstream (CustomJob j)] | None => [] end)
    | _, _, _, _, _ => mret []
    end;
  messages ← for_each (λ '(id, _), downstream_prev_hash m id) (map_iter (downstream d));
  _ ← (if bool_decide (mode = CoinbaseOnly) then allocate_token else mret tt);
  forward_all (custom ++ messages).

Inductive TpMessage : Type :=
  | TpNewTemplate (m : NewTemplate)
  | TpSetNewPrevHash (m : SetNewPrevHashTdp)
  | TpTxDataSuccess (m : TxData)
  | TpTxDataError (error_code : bytes)
  | TpOther (message_type : Z).
Definition handle_template_distribution_message_from_server (m : TpMessage) : JDC unit :=
  match m with
  | TpNewTemplate m => handle_new_template m
  | TpSetNewPrevHash m => handle_set_new_prev_hash m
  | TpTxDataSuccess m => handle_request_tx_data_success m
  | TpTxDataError e => handle_request_tx_data_error e
  | TpOther message_type => throw (UnexpectedMessage message_type)
  end.

(** ** Connections and the loop *)

(** A connection is entered before its setup; a failed setup ends it. *)
Definition accept_downstream : JDC Z :=
  id ← next_id downstream_id_factory set_downstream_ids;
  _ ← modify (put_downstream id DownstreamData_new);
  mret id.
Inductive SetupReply : Type :=
  | SetupSuccess (used_version flags : Z)
  | SetupError (flags : Z) (error_code : string).
Definition handle_setup_connection (downstream_id : Z) (protocol : Protocol) (flags : Z)
    : JDC (SetupReply * bool) :=
  match protocol with
  | MiningProtocol =>
      if has_work_selection flags then mret (SetupError 2 "unsupported-feature-flags", false)
      else
        _ ← (if has_requires_std_job flags then
               v ← gets (λ s, default DownstreamData_new (miner downstream_id s));
               modify (put_downstream downstream_id (dd_set_std_job true v))
             else mret tt);
        mret (SetupSuccess 2 flags, true)
  | _ => mret (SetupError 0 "unsupported-protocol", false)
  end.
Definition remove_downstream (downstream_id : Z) : JDC unit :=
  modify (on_data (λ d,
    match downstream d !! downstream_id with
    | None => d
    | Some v =>
        set_owners
          (foldr delete (channel_id_to_downstream_id d)
             ((map_iter (standard_channels v)).*1 ++ (map_iter (extended_channels v)).*1))
          (set_downstream (delete downstream_id (downstream d)) d)
    end)).
(** The flags of the server's [SetupConnectionSuccess] select the mode. *)
Definition handle_jds_setup_success (flags : Z) : JDC unit :=
  let mode := JdMode_from_u8 flags in
  _ ← modify (set_jd_mode mode);
  if bool_decide (mode = SoloMining) then throw Shutdown else mret tt.
(** A pool and a declarator are connected. *)
Definition upstream_ready : JDC unit :=
  _ ← modify (set_state NoChannel);
  allocate_token.

Inductive Event : Type :=
  | FromMiner (downstream_id : Z) (m : MinerMessage)
  | FromPool (m : PoolMessage)
  | FromJds (m : JdsMessage)
  | FromTp (m : TpMessage)
  | DownstreamShutdown (downstream_id : Z)
  | Fallback (coinbase_outputs : bytes)
  | VardiffTick (clocks : Z → option Z * option Z).
Definition handle_event (clock : option Z) (e : Event) : JDC unit :=
  match e with
  | FromMiner id m => handle_downstream_message clock id m
  | FromPool m => handle_mining_message_from_server clock m
  | FromJds m => handle_job_declaration_message_from_server m
  | FromTp m => handle_template_distribution_message_from_server m
  | DownstreamShutdown id => remove_downstream id
  | Fallback coinbase_outputs =>
      _ ← modify (set_state Solo);
      d ← gets data;
      d ← lift (reset coinbase_outputs (cfg_min_extranonce_size cfg) d);
      modify (on_data (λ _, d))
  | VardiffTick clocks => run_vardiff clocks
  end.
(** One turn of the loop of [start]: whether it goes on.  A critical error
    ends the loop (and with it the process), a panic the task. *)
Inductive Turn : Type := Continue | Break (e : JDCError) | Panicked.
Definition turn (clock : option Z) (e : Event) (s : ChannelManager) : Turn * ChannelManager :=
  let '(r, s) := handle_event clock e s in
  (match r with
   | Ok _ => Continue
   | Err e => if is_critical e then Break e else Continue
   | Panic => Panicked
   end, s).
End manager.

(** ** Choosing an upstream *)

(** [initialize_jd]: every upstream not tried before is given three attempts;
    [connect i k] is the outcome of attempt [k] on upstream [i].  The flags say
    which upstreams were tried. *)
Definition MAX_RETRIES : nat := 3.
Fixpoint first_attempt (connect : nat → bool) (attempt : nat) (remaining : nat) : bool :=
  match remaining with
  | O => false
  | S remaining => connect attempt || first_attempt connect (S attempt) remaining
  end.
Fixpoint initialize_jd (connect : nat → nat → bool) (i : nat) (upstreams : list bool)
    : option nat * list bool :=
  match upstreams with
  | [] => (None, [])
  | tried :: rest =>
      if negb tried && first_attempt (connect i) 1 MAX_RETRIES then (Some i, true :: rest)
      else let '(r, rest) := initialize_jd connect (S i) rest in (r, true :: rest)
  end.
(** The loop of [start]: a search at the start and after every loss of the
    chosen upstream; [connect r] are the outcomes of the [r]-th search. *)
Fixpoint searches (connect : nat → nat → nat → bool) (round rounds : nat) (upstreams : list bool)
    : list (option nat) :=
  match rounds with
  | O => []
  | S rounds =>
      let '(r, upstreams) := initialize_jd (connect round) 0 upstreams in
      r :: searches connect (S round) rounds upstreams
  end.
End Jdc.
