(* ===== verification/JdClientFacts.v ===== *)
(** * Facts about the job declarator client

    Which parts of the state the client's handlers touch, and the invariant of
    the channel manager: the extranonce prefix of every channel of a miner, and
    every prefix the factories will hand out, continues the prefix of the
    channel to the pool. *)

From stdpp Require Import gmap.
From S2P Require Import Prelude Utf8 SetupConnection Mining MiningProperties Difficulty Bitcoin Jobs JobFacts Channels ChannelProperties Vardiff PoolStats Downstream DownstreamFacts ClientChannels JobDeclarator JdClient.
#[local] Open Scope Z_scope.
#[local] Open Scope list_scope.

Import Jdc.

(** ** Channels and their prefix *)

Definition std_at (p : bytes) (c : StandardChannel) : Prop := sc_extranonce_prefix c = p.
(** The jobs of an extended channel are made for its prefix. *)
Definition ext_at (p : bytes) (c : ExtendedChannel) : Prop :=
  ec_extranonce_prefix c = p ∧ store_all (λ j, ej_extranonce_prefix j = p) (ec_job_store c).
Definition up_at (p : bytes) (u : Client.ExtendedChannel) : Prop := Client.x_extranonce_prefix u = p.

Section channels.
Context `{Bitcoin} (chk : bool).

Lemma std_at_update p h mt : keeps (std_at p) (Standard.update_channel chk h mt).
Proof. unfold Standard.update_channel. keeps_all. by apply keeps_modify. Qed.
Lemma std_at_template p t outs : keeps (std_at p) (Standard.on_new_template chk t outs).
Proof. by apply std_template_keeps. Qed.
Lemma std_at_group_job p j : keeps (std_at p) (Standard.on_group_channel_job j).
Proof. unfold Standard.on_group_channel_job. keeps_all. by apply keeps_modify. Qed.
Lemma std_at_prev_hash p m : keeps (std_at p) (Standard.on_set_new_prev_hash m).
Proof.
  intros c Hc. unfold Standard.on_set_new_prev_hash. case_bool_decide; [done|].
  by destruct (JobStore.activate_future_job _ _ _) as [[] store].
Qed.
Lemma std_at_share p m : keeps (std_at p) (Standard.validate_share chk m).
Proof.
  unfold Standard.validate_share. keeps_all; intros c Hc; unfold zoom.
  - by destruct (account _ _ _ _ _) as [r t].
  - by destruct (accept_share _ _ _ _ _) as [r t].
Qed.

Lemma ext_at_update p h mt : keeps (ext_at p) (Extended.update_channel chk h mt).
Proof. unfold Extended.update_channel. keeps_all. by apply keeps_modify. Qed.
Lemma new_job_prefix id tip p t outs f j f' :
  new_extended_job chk id tip p t outs f = (Ok j, f') → ej_extranonce_prefix j = p.
Proof.
  intros E. unfold new_extended_job in E. inv_st.
  repeat match goal with Hx : (let '_ := ?x in _) _ = _ |- _ => destruct x; inv_st end.
  all: match goal with Hf : ExtendedJob_from_template _ _ _ _ _ _ = Ok _ |- _ =>
    unfold ExtendedJob_from_template in Hf; apply bind_Ok in Hf as (? & _ & Hf); by injection Hf as <- end.
Qed.
Lemma make_job_prefix tip t outs c j c' :
  Extended.make_job chk tip t outs c = (Ok j, c') → ej_extranonce_prefix j = ec_extranonce_prefix c.
Proof. intros E. unfold Extended.make_job in E. inv_st. by eapply new_job_prefix. Qed.
Lemma ext_at_template p t outs : keeps (ext_at p) (Extended.on_new_template chk t outs).
Proof.
  assert (Hm : ∀ tip, keeps (ext_at p) (Extended.make_job chk tip t outs)) by (intros; by apply ext_make_job_keeps).
  assert (Hj : ∀ tip (c : ExtendedChannel) j c', ext_at p c → Extended.make_job chk tip t outs c = (Ok j, c') →
    ej_extranonce_prefix j = p) by (intros tip c j c' [Hp _] E; by rewrite (make_job_prefix _ _ _ _ _ _ E)).
  unfold Extended.on_new_template. destruct (nt_future_template t).
  - eapply keeps_bind_ok; [done|apply Hj|]. intros j Ej. apply keeps_modify. intros c [Hp Hs].
    split; [done|]. by apply store_all_future.
  - apply keeps_bind; [apply keeps_gets|]. intros [tip|]; [|apply keeps_throw].
    eapply keeps_bind_ok; [done|apply Hj|]. intros j Ej. apply keeps_modify. intros c [Hp Hs].
    split; [done|]. by apply store_all_active.
Qed.
Lemma ext_at_prev_hash p m : keeps (ext_at p) (Extended.on_set_new_prev_hash m).
Proof.
  intros c [Hp Hs]. unfold Extended.on_set_new_prev_hash. case_bool_decide.
  - split; [done|]. by apply store_all_stale.
  - pose proof (store_all_activate (λ j, ej_extranonce_prefix j = p) (sp_template_id m) (sp_header_timestamp m)
      (ec_job_store c) (λ j Hj, Hj) Hs) as Ha.
    by destruct (JobStore.activate_future_job _ _ _) as [[] store].
Qed.
Lemma ext_at_share p m : keeps (ext_at p) (Extended.validate_share chk m).
Proof.
  unfold Extended.validate_share. keeps_all; intros c Hc; unfold zoom.
  - by destruct (account _ _ _ _ _) as [r t].
  - by destruct (accept_share _ _ _ _ _) as [r t].
Qed.

Lemma up_at_share p m : keeps (up_at p) (Client.Extended.validate_share chk m).
Proof.
  unfold Client.Extended.validate_share. keeps_all.
  intros c Hc. unfold zoom. by destruct (Client.judge _ _ _ _ _ _) as [r t].
Qed.
Lemma up_at_custom p m success : keeps (up_at p) (Client.Extended.on_set_custom_mining_job_success m success).
Proof. unfold Client.Extended.on_set_custom_mining_job_success. keeps_all. by apply keeps_modify. Qed.
End channels.

(** ** Factories that continue a prefix *)

Record continues (up : bytes) (f : ExtendedExtranonce) : Prop := {
  cont_inner : up `prefix_of` inner f;
  cont_1 : zlen up ≤ r_start (range_1 f) ≤ r_end (range_1 f);
  cont_2 : zlen up ≤ r_start (range_2 f) ≤ r_end (range_2 f);
  cont_static : static_prefix f = None }.

Lemma prefix_overwrite {A} (up l w : list A) i : up `prefix_of` l → zlen up ≤ i → up `prefix_of` overwrite l i w.
Proof.
  intros [k ->] Hi. unfold overwrite, ztake. rewrite take_app_ge by (unfold zlen in Hi; lia).
  rewrite <- app_assoc. by apply prefix_app_r.
Qed.
Lemma prefix_ztake {A} (up l : list A) n : up `prefix_of` l → zlen up ≤ n → up `prefix_of` ztake n l.
Proof.
  intros [k ->] Hn. unfold ztake. rewrite take_app_ge by (unfold zlen in Hn; lia). by apply prefix_app_r.
Qed.
Lemma on_window_continues up g a b :
  zlen up ≤ a → keeps (continues up) (ExtendedExtranonceOps.on_window g a b).
Proof.
  intros Ha f [Hi H1 H2 Hs]. unfold ExtendedExtranonceOps.on_window.
  destruct (slice_range _ _ _) as [w|e|]; [|done..]. destruct (g w) as [r w'].
  split; try done. by apply prefix_overwrite.
Qed.
Lemma next_standard_continues up f r f' :
  continues up f → ExtendedExtranonceOps.next_prefix_standard f = (r, f') →
  continues up f' ∧ (∀ p, r = Ok p → up `prefix_of` p).
Proof.
  intros Hf E. unfold ExtendedExtranonceOps.next_prefix_standard in E. rewrite st_gets_bind in E.
  pose proof (on_window_continues up increment_bytes_be _ (r_end (range_2 f)) (proj1 (cont_2 _ _ Hf)) f Hf) as Hw.
  unfold mbind, ST_bind in E. destruct (ExtendedExtranonceOps.on_window _ _ _ f) as [[a|e|] f1];
    [|by injection E as <- <-..].
  destruct a as [a|e|]; injection E as <- <-; (split; [done|]); [|done..].
  intros p [= <-]. destruct Hw as [Hi _ [H2 H2'] _]. apply prefix_ztake; [done|]. cbn in *. lia.
Qed.
Lemma next_extended_continues up n f r f' :
  continues up f → ExtendedExtranonceOps.next_prefix_extended n f = (r, f') →
  continues up f' ∧ (∀ p, r = Ok p → up `prefix_of` p).
Proof.
  intros Hf E. unfold ExtendedExtranonceOps.next_prefix_extended in E. rewrite st_gets_bind in E.
  destruct (_ <? n); [by injection E as <- <-|]. rewrite !st_gets_bind in E.
  rewrite (cont_static _ _ Hf) in E.
  pose proof (on_window_continues up increment_bytes_be (r_start (range_1 f) + 0) (r_end (range_1 f))) as Hw.
  specialize (Hw ltac:(destruct Hf; lia) f Hf).
  unfold mbind at 1, ST_bind at 1 in E. destruct (ExtendedExtranonceOps.on_window _ _ _ f) as [[a|e|] f1];
    [|by injection E as <- <-..].
  destruct a as [a|e|]; [|by injection E as <- <-..]. rewrite st_gets_bind in E.
  destruct (slice_range _ _ _) as [w|e|] eqn:Es; [|by injection E as <- <-..]. rewrite st_lift_bind in E.
  injection E as <- <-. split; [done|]. intros p Ep. unfold Extranonce_try_from in Ep.
  destruct (_ <? _); [done|]. injection Ep as <-.
  unfold slice_range in Es. destruct (_ && _); [|done]. injection Es as <-. cbn.
  destruct Hw as [Hi _ _ _]. rewrite Z.sub_0_r. apply prefix_ztake; [done|destruct Hf; lia].
Qed.

(** ** The invariant *)

Definition miner_at (up : bytes) (v : DownstreamData) : Prop :=
  map_Forall (λ _ c, up `prefix_of` sc_extranonce_prefix c) (standard_channels v) ∧
  map_Forall (λ _ c, ∃ p, up `prefix_of` p ∧ ext_at p c) (extended_channels v).
Definition no_channels (v : DownstreamData) : Prop :=
  standard_channels v = ∅ ∧ extended_channels v = ∅.
Definition waiting (st : UpstreamState) : Prop := st = NoChannel ∨ st = Pending.
Definition miner_ok (oup : option bytes) (st : UpstreamState) (v : DownstreamData) : Prop :=
  (∀ up, oup = Some up → miner_at up v) ∧ (waiting st → no_channels v).

(** The state for a given prefix and state of the channel to the pool. *)
Definition frozen (oup : option bytes) (st : UpstreamState) (s : ChannelManager) : Prop :=
  (Client.x_extranonce_prefix <$> upstream_channel (data s) = oup ∧ upstream_state s = st) ∧
  (∀ up, oup = Some up → continues up (extranonce_prefix_factory_extended (data s)) ∧
                         continues up (extranonce_prefix_factory_standard (data s))) ∧
  map_Forall (λ _ v, miner_ok oup st v) (downstream (data s)) ∧
  (waiting st → oup = None) ∧ (pending_downstream_requests (data s) ≠ [] → waiting st).
Definition aligned (s : ChannelManager) : Prop :=
  frozen (Client.x_extranonce_prefix <$> upstream_channel (data s)) (upstream_state s) s.
Lemma frozen_aligned oup st s : frozen oup st s → aligned s.
Proof. intros Hs. unfold aligned. pose proof (proj1 Hs) as [-> ->]. exact Hs. Qed.
Lemma aligned_keeps {A} (m : JDC A) s :
  aligned s → (∀ oup st, keeps (frozen oup st) m) → aligned (m s).2.
Proof. intros Hs Hm. eapply frozen_aligned, Hm, Hs. Qed.

Lemma frozen_miner oup st s id v : frozen oup st s → miner id s = Some v → miner_ok oup st v.
Proof. intros (_ & _ & Hm & _) Hv. exact (Hm id v Hv). Qed.
Lemma frozen_put oup st s id v : miner_ok oup st v → frozen oup st s → frozen oup st (put_downstream id v s).
Proof.
  intros Hv (Hu & Hf & Hm & Hw & Hp). split; [exact Hu|]. split; [exact Hf|]. split; [|by split].
  by apply map_Forall_insert_2.
Qed.
Lemma miner_ok_new oup st : miner_ok oup st DownstreamData_new.
Proof. split; [intros up _; split; apply map_Forall_empty|intros _; split; reflexivity]. Qed.

(** Changes of one miner's record. *)
Lemma miner_ok_standard oup st v id c c' :
  standard_channels v !! id = Some c → sc_extranonce_prefix c' = sc_extranonce_prefix c →
  miner_ok oup st v → miner_ok oup st (dd_set_standard (<[id := c']> (standard_channels v)) v).
Proof.
  intros Hc Hp [Hup Hn]. split.
  - intros up Ho. destruct (Hup up Ho) as [Hs He]. split; [|done]. apply map_Forall_insert_2; [|done].
    rewrite Hp. exact (Hs _ _ Hc).
  - intros Hw. destruct (Hn Hw) as [Hs _]. by rewrite Hs in Hc.
Qed.
Lemma miner_ok_extended oup st v id c c' :
  extended_channels v !! id = Some c → (∀ p, ext_at p c → ext_at p c') →
  miner_ok oup st v → miner_ok oup st (dd_set_extended (<[id := c']> (extended_channels v)) v).
Proof.
  intros Hc Hp [Hup Hn]. split.
  - intros up Ho. destruct (Hup up Ho) as [Hs He]. split; [done|]. apply map_Forall_insert_2; [|done].
    destruct (He _ _ Hc) as (p & Hpre & Hat). exists p. split; [done|by apply Hp].
  - intros Hw. destruct (Hn Hw) as [_ He]. by rewrite He in Hc.
Qed.

Section frozen.
Context (oup : option bytes) (st : UpstreamState).
Notation FZ := (frozen oup st).

Lemma keeps_focus {K E A} (get : ChannelManager → option K) put (m : ST K E A) :
  (∀ s k, FZ s → get s = Some k → FZ (put (m k).2 s)) → keeps FZ (focus get put m).
Proof.
  intros Hm s Hs. unfold focus. destruct (get s) as [k|] eqn:Ek; [|done].
  specialize (Hm s k Hs Ek). destruct (m k) as [[] k']; exact Hm.
Qed.
Lemma frozen_on_standard {E A} did id (m : ST StandardChannel E A) :
  (∀ p, keeps (std_at p) m) → keeps FZ (on_standard did id m).
Proof.
  intros Hm. apply keeps_focus. intros s k Hs Ek. destruct (miner did s) as [v|] eqn:Ev; [|done].
  cbn in Ek. apply frozen_put; [|done]. eapply miner_ok_standard; [done| |by eapply frozen_miner].
  by apply (Hm _ k).
Qed.
Lemma frozen_on_extended {E A} did id (m : ST ExtendedChannel E A) :
  (∀ p, keeps (ext_at p) m) → keeps FZ (on_extended did id m).
Proof.
  intros Hm. apply keeps_focus. intros s k Hs Ek. destruct (miner did s) as [v|] eqn:Ev; [|done].
  cbn in Ek. apply frozen_put; [|done]. eapply miner_ok_extended; [done| |by eapply frozen_miner].
  intros p. apply Hm.
Qed.
Lemma frozen_on_group {E A} did (m : ST GroupChannel E A) : keeps FZ (on_group did m).
Proof.
  apply keeps_focus. intros s k Hs Ek. destruct (miner did s) as [v|] eqn:Ev; [|done].
  apply frozen_put; [|done]. exact (frozen_miner _ _ _ _ _ Hs Ev).
Qed.
Lemma keeps_on_upstream {E A} (m : ST Client.ExtendedChannel E A) :
  (∀ p, keeps (up_at p) m) → keeps FZ (on_upstream m).
Proof.
  intros Hm. apply keeps_focus. intros s u ([Hu Hst] & Hs) Eu. split; [split; [|exact Hst]|exact Hs].
  cbn in *. rewrite Eu in Hu. cbn in Hu. rewrite <- Hu. f_equal. by apply (Hm _ u).
Qed.
Lemma keeps_same f :
  (∀ s, FZ s → FZ (f s)) → keeps (E := JDCError) FZ (modify f).
Proof. apply keeps_modify. Qed.
Lemma keeps_next_id chk get put :
  (∀ i s, FZ s → FZ (on_data (put i) s)) → keeps FZ (next_id chk get put).
Proof. intros Hp s Hs. unfold next_id, zoom. destruct (Id_next _ _) as [r i]. by apply Hp. Qed.
Lemma keeps_send m : keeps FZ (send m).
Proof. unfold send. keeps_all. by apply keeps_modify. Qed.
Lemma frozen_try_send m : keeps FZ (try_send m).
Proof. unfold try_send. keeps_all. by apply keeps_modify. Qed.
Lemma keeps_forward m : keeps FZ (forward m).
Proof. pose proof frozen_try_send. destruct m; cbn [forward]; keeps_all. Qed.
Lemma keeps_forward_all l : keeps FZ (forward_all l).
Proof. pose proof keeps_forward. induction l; cbn [forward_all]; keeps_all. Qed.
Lemma frozen_run_local {K A} (m : ST K ChannelError A) k : keeps FZ (run_local m k).
Proof. intros s Hs. unfold run_local. by destruct (m k) as [[] ?]. Qed.
End frozen.
#[export] Hint Resolve frozen_on_standard frozen_on_extended frozen_on_group keeps_on_upstream keeps_send
  frozen_try_send keeps_forward keeps_forward_all frozen_run_local std_at_update std_at_template
  std_at_group_job std_at_prev_hash std_at_share ext_at_update ext_at_template ext_at_prev_hash
  ext_at_share up_at_share up_at_custom : keeps.
(** Steps that touch none of the invariant's fields. *)
Ltac frozen_all :=
  keeps_all;
  try solve [apply keeps_next_id; intros ?? Hs; exact Hs | apply keeps_same; intros ? Hs; exact Hs].

(** ** Handlers that keep prefix and state of the channel to the pool *)

Section handlers.
Context `{Bitcoin} `{TxCosts} `{MapIter} `{PairIter} (chk : bool) (cfg : Config).
Context (oup : option bytes) (st : UpstreamState).
Notation FZ := (frozen oup st).

Lemma keeps_gets_data {B} (f : ChannelManagerData → JDC B) :
  (∀ d, map_Forall (λ _ v, miner_ok oup st v) (downstream d) → keeps FZ (f d)) → keeps FZ (gets data ≫= f).
Proof. intros Hf s Hs. rewrite st_gets_bind. apply Hf; [apply Hs|done]. Qed.
Lemma miner_ok_close v id :
  miner_ok oup st v →
  miner_ok oup st (dd_set_standard (delete id (standard_channels v)) (dd_set_extended (delete id (extended_channels v)) v)).
Proof.
  intros [Hup Hn]. split.
  - intros up Ho. destruct (Hup up Ho) as [Hs He]. split; by apply map_Forall_delete.
  - intros Hw. destruct (Hn Hw) as [Hs He]. split; cbn; [rewrite Hs|rewrite He]; apply delete_empty.
Qed.
Lemma keeps_lift_bind {A B} (r : result JDCError A) (f : A → JDC B) :
  (∀ a, r = Ok a → keeps FZ (f a)) → keeps FZ (lift r ≫= f).
Proof. intros Hf s Hs. unfold mbind, ST_bind, lift. destruct r; [by apply Hf|done|done]. Qed.
Lemma frozen_close id : keeps FZ (handle_close_channel id).
Proof.
  unfold handle_close_channel. apply keeps_gets_data. intros d Hd.
  apply keeps_lift_bind. intros did _. apply keeps_lift_bind. intros v Ev. apply ok_or_Ok in Ev.
  apply keeps_modify. intros s Hs. apply frozen_put; [|done]. apply miner_ok_close. exact (Hd _ _ Ev).
Qed.

Lemma frozen_update m : keeps FZ (handle_update_channel chk m).
Proof. unfold handle_update_channel. frozen_all. Qed.
Lemma frozen_answer did ch seq v t n acc res :
  keeps FZ acc → keeps FZ (answer_share did ch seq v t n acc res).
Proof. intros Ha. unfold answer_share. frozen_all. Qed.
Lemma keeps_next_sequence : keeps FZ (next_sequence_number chk).
Proof. apply keeps_next_id. intros ?? Hs; exact Hs. Qed.
Lemma keeps_next_request : keeps FZ (next_request_id chk).
Proof. apply keeps_next_id. intros ?? Hs; exact Hs. Qed.
Lemma keeps_next_channel : keeps FZ (next_channel_id chk).
Proof. apply keeps_next_id. intros ?? Hs; exact Hs. Qed.
#[local] Hint Resolve keeps_next_sequence keeps_next_request keeps_next_channel frozen_answer : keeps.
Lemma keeps_forward_share ch j n t v p e sol prev : keeps FZ (forward_share chk ch j n t v p e sol prev).
Proof. unfold forward_share. frozen_all. Qed.
Lemma keeps_count_share ch did : keeps FZ (count_share chk ch did).
Proof. unfold count_share. frozen_all. Qed.
Lemma keeps_share_context ch : keeps FZ (share_context ch).
Proof. unfold share_context. frozen_all. Qed.
#[local] Hint Resolve keeps_forward_share keeps_count_share keeps_share_context : keeps.
Lemma frozen_submit_standard m : keeps FZ (handle_submit_shares_standard chk m).
Proof. unfold handle_submit_shares_standard. frozen_all. apply frozen_answer. frozen_all. Qed.
Lemma frozen_submit_extended m : keeps FZ (handle_submit_shares_extended chk m).
Proof. unfold handle_submit_shares_extended. frozen_all. apply frozen_answer. frozen_all. Qed.
Lemma keeps_allocate : keeps FZ (allocate_token chk cfg).
Proof.
  assert (Hr : keeps FZ (request_token chk cfg)) by (unfold request_token; frozen_all).
  intros s Hs. specialize (Hr s Hs). unfold allocate_token. by destruct (request_token _ _ _) as [[] ?].
Qed.
Lemma keeps_declare_custom ch f tk tip prev t : keeps FZ (declare_custom_job chk ch f tk tip prev t).
Proof. unfold declare_custom_job. frozen_all. Qed.
#[local] Hint Resolve keeps_allocate keeps_declare_custom : keeps.
Lemma keeps_set_target t : keeps FZ (handle_set_target t).
Proof.
  apply keeps_modify. intros s ([Hu Hst] & Hs). split; [split; [|exact Hst]|exact Hs]. cbn.
  rewrite <- Hu. by destruct (upstream_channel (data s)).
Qed.
Lemma keeps_upstream_tip m : keeps FZ (update_upstream_tip m).
Proof.
  apply keeps_modify. intros s ([Hu Hst] & Hs). split; [split; [|exact Hst]|exact Hs]. cbn.
  rewrite <- Hu. by destruct (upstream_channel (data s)).
Qed.
Lemma keeps_custom_success m : keeps FZ (handle_set_custom_mining_job_success m).
Proof. unfold handle_set_custom_mining_job_success. frozen_all. Qed.
Lemma keeps_token t : keeps FZ (handle_allocate_mining_job_token_success t).
Proof. unfold handle_allocate_mining_job_token_success. frozen_all. Qed.
Lemma keeps_jds m : keeps FZ (handle_job_declaration_message_from_server chk m).
Proof.
  pose proof keeps_token. destruct m as [[]|]; cbn [handle_job_declaration_message_from_server]; frozen_all.
  - unfold handle_declare_mining_job_success. frozen_all.
  - unfold handle_provide_missing_transactions. frozen_all.
Qed.

(** *** Templates and chain tips *)

Lemma keeps_active_id {S T E} `{Job T} (I : S → Prop) (g : S → DefaultJobStore T) :
  keeps I (active_id (E := E) g).
Proof. unfold active_id. keeps_all. Qed.
Lemma keeps_take_template {K T} (I : K → Prop) (m : ST K ChannelError unit) (g : K → DefaultJobStore T) t :
  keeps I m → keeps I (take_template m g t).
Proof. intros Hm. unfold take_template, job_of. keeps_all. Qed.
#[local] Hint Resolve keeps_active_id keeps_take_template keeps_upstream_tip : keeps.
Lemma keeps_downstream_prev_hash m id : keeps FZ (downstream_prev_hash m id).
Proof. unfold downstream_prev_hash. frozen_all. Qed.
#[local] Hint Resolve keeps_downstream_prev_hash : keeps.
Lemma frozen_prev_hash m : keeps FZ (handle_set_new_prev_hash chk cfg m).
Proof. unfold handle_set_new_prev_hash. frozen_all. Qed.
Lemma keeps_downstream_template t outs id : keeps FZ (downstream_template chk t outs id).
Proof.
  unfold downstream_template, group_job, template_custom_job, standard_template, extended_template, record_job.
  frozen_all.
Qed.
#[local] Hint Resolve keeps_downstream_template : keeps.
Lemma keeps_new_template t : keeps FZ (handle_new_template chk cfg t).
Proof. unfold handle_new_template. frozen_all. Qed.
Lemma keeps_tx_data m : keeps FZ (handle_request_tx_data_success chk cfg m).
Proof. unfold handle_request_tx_data_success, declare_job. frozen_all. Qed.
Lemma keeps_tp m : keeps FZ (handle_template_distribution_message_from_server chk cfg m).
Proof.
  pose proof keeps_new_template. pose proof frozen_prev_hash. pose proof keeps_tx_data.
  destruct m; cbn [handle_template_distribution_message_from_server]; frozen_all.
  unfold handle_request_tx_data_error. frozen_all.
Qed.
End handlers.

(** *** Variable difficulty, connections *)

Section more.
Context `{Bitcoin} `{TxCosts} `{MapIter} `{PairIter} (chk : bool) (cfg : Config).
Context (oup : option bytes) (st : UpstreamState).
Notation FZ := (frozen oup st).

Lemma run_vardiff_on_keeps {K} (I : K → Prop) hr tg spm update did id clock clock' v k r v' k' :
  (∀ h mt, keeps I (update h mt)) → I k →
  run_vardiff_on chk hr tg spm update did id clock clock' v k = (r, v', k') → I k'.
Proof.
  intros Hu Hk E. unfold run_vardiff_on in E.
  destruct (Vardiff.try_vardiff _ _ _ _ _ _ _) as [[[h|]|e|] v1]; [|by injection E as _ _ <-..].
  specialize (Hu h None k Hk). by destruct (update h None k) as [[] k1]; injection E as _ _ <-.
Qed.
Lemma frozen_replace_standard did id c c' s :
  FZ s → (v ← miner did s; standard_channels v !! id) = Some c →
  sc_extranonce_prefix c' = sc_extranonce_prefix c →
  FZ (on_standard (E := unit) did id (modify (λ _, c')) s).2.
Proof.
  intros Hs Hc Hp. unfold on_standard, focus. rewrite Hc. cbn.
  destruct (miner did s) as [v|] eqn:Ev; [|done]. apply frozen_put; [|done].
  eapply miner_ok_standard; [done..|by eapply frozen_miner].
Qed.
Lemma frozen_replace_extended did id c c' s :
  FZ s → (v ← miner did s; extended_channels v !! id) = Some c →
  (∀ p, ext_at p c → ext_at p c') →
  FZ (on_extended (E := unit) did id (modify (λ _, c')) s).2.
Proof.
  intros Hs Hc Hp. unfold on_extended, focus. rewrite Hc. cbn.
  destruct (miner did s) as [v|] eqn:Ev; [|done]. apply frozen_put; [|done].
  eapply miner_ok_extended; [done..|by eapply frozen_miner].
Qed.
Lemma keeps_vardiff_entry clocks key : keeps FZ (vardiff_entry chk clocks key).
Proof.
  destruct key as [id did]. unfold vardiff_entry. destruct (clocks id) as [clock clock'].
  apply keeps_bind; [|intros l; apply keeps_bind; [|intros; apply keeps_ret]]; intros s Hs.
  - destruct (v ← miner did s; standard_channels v !! id) as [c|] eqn:Ec; [|done].
    destruct (vardiff (data s) !! (id, did)) as [vd|]; [|done].
    destruct (run_vardiff_on _ _ _ _ _ _ _ _ _ _ _) as [[r vd'] c'] eqn:Er.
    pose proof (frozen_replace_standard did id c c' s Hs Ec) as Hf.
    destruct (on_standard _ _ _ s) as [r' s']. apply Hf.
    eapply (run_vardiff_on_keeps (std_at (sc_extranonce_prefix c))) in Er; [done|intros; apply std_at_update|done].
  - destruct (v ← miner did s; extended_channels v !! id) as [c|] eqn:Ec; [|done].
    destruct (vardiff (data s) !! (id, did)) as [vd|]; [|done].
    destruct (run_vardiff_on _ _ _ _ _ _ _ _ _ _ _) as [[r vd'] c'] eqn:Er.
    pose proof (frozen_replace_extended did id c c' s Hs Ec) as Hf.
    destruct (on_extended _ _ _ s) as [r' s']. apply Hf. intros p Hp.
    eapply (run_vardiff_on_keeps (ext_at p)) in Er; [done|intros; apply ext_at_update|done].
Qed.
Lemma keeps_vardiff clocks : keeps FZ (run_vardiff chk clocks).
Proof.
  unfold run_vardiff. keeps_step; [keeps_step|]. keeps_step.
  { apply keeps_for_each. intros [key v]. apply keeps_vardiff_entry. }
  keeps_step; [keeps_step|]. apply keeps_forward_all.
Qed.

Lemma keeps_accept : keeps FZ (accept_downstream chk).
Proof.
  unfold accept_downstream. frozen_all. apply keeps_modify. intros s. apply frozen_put, miner_ok_new.
Qed.
Lemma keeps_setup id p fl : keeps FZ (handle_setup_connection id p fl).
Proof.
  unfold handle_setup_connection. destruct p; try apply keeps_ret.
  destruct (has_work_selection fl); [apply keeps_ret|]. apply keeps_bind; [|intros; apply keeps_ret].
  destruct (has_requires_std_job fl); [|apply keeps_ret]. intros s Hs. unfold mbind, ST_bind, gets, modify. cbn.
  apply frozen_put; [|done]. destruct (miner id s) as [v|] eqn:Ev; cbn; [|apply miner_ok_new].
  exact (frozen_miner _ _ _ _ _ Hs Ev).
Qed.
Lemma keeps_remove id : keeps FZ (remove_downstream id).
Proof.
  apply keeps_modify. intros s (Hu & Hf & Hm & Hr). unfold frozen. cbn.
  destruct (downstream (data s) !! id) as [v|]; [|done]. split; [exact Hu|]. split; [exact Hf|].
  split; [|exact Hr]. by apply map_Forall_delete.
Qed.

(** *** Opening channels *)

(** A new channel is allowed once the pool's channel is settled. *)
Lemma miner_ok_add_standard v id c :
  ¬ waiting st → (∀ up, oup = Some up → up `prefix_of` sc_extranonce_prefix c) →
  miner_ok oup st v → miner_ok oup st (dd_set_standard (<[id := c]> (standard_channels v)) v).
Proof.
  intros Hw Hc [Hup _]. split; [|done]. intros up Ho. destruct (Hup up Ho) as [Hs He].
  split; [|done]. apply map_Forall_insert_2; [by apply Hc|done].
Qed.
Lemma miner_ok_add_extended v id c :
  ¬ waiting st → (∀ up, oup = Some up → ∃ p, up `prefix_of` p ∧ ext_at p c) →
  miner_ok oup st v → miner_ok oup st (dd_set_extended (<[id := c]> (extended_channels v)) v).
Proof.
  intros Hw Hc [Hup _]. split; [|done]. intros up Ho. destruct (Hup up Ho) as [Hs He].
  split; [done|]. apply map_Forall_insert_2; [by apply Hc|done].
Qed.
(** What a factory gives. *)
Definition given (p : bytes) : Prop := ∀ up, oup = Some up → up `prefix_of` p.
Lemma keeps_standard_prefix {B} (f : bytes → JDC B) :
  (∀ p, given p → keeps FZ (f p)) →
  keeps FZ (st_map_err (λ e, RolesSv2Logic (PrefixFactoryError e))
    (zoom (λ s, extranonce_prefix_factory_standard (data s)) (λ f, on_data (set_factory_standard f))
       ExtendedExtranonceOps.next_prefix_standard) ≫= f).
Proof.
  intros Hf s (Hu & Hfac & Hs). unfold mbind, ST_bind, st_map_err, zoom.
  destruct (ExtendedExtranonceOps.next_prefix_standard _) as [r f'] eqn:E.
  assert (Hg : FZ (on_data (set_factory_standard f') s) ∧ (∀ p, r = Ok p → given p)).
  { split.
    - split; [exact Hu|]. split; [|exact Hs]. intros up Ho. split; [by apply (Hfac up)|].
      exact (proj1 (next_standard_continues _ _ _ _ (proj2 (Hfac up Ho)) E)).
    - intros p Hp up Ho. exact (proj2 (next_standard_continues _ _ _ _ (proj2 (Hfac up Ho)) E) p Hp). }
  destruct Hg as [Hg Hr]. destruct r as [p|e|]; cbn; [|done..]. by apply Hf; [apply Hr|].
Qed.
Lemma keeps_extended_prefix {B} n (f : bytes → JDC B) :
  (∀ p, given p → keeps FZ (f p)) →
  keeps FZ (st_map_err (λ e, RolesSv2Logic (PrefixFactoryError e))
    (zoom (λ s, extranonce_prefix_factory_extended (data s)) (λ f, on_data (set_factory_extended f))
       (ExtendedExtranonceOps.next_prefix_extended n)) ≫= f).
Proof.
  intros Hf s (Hu & Hfac & Hs). unfold mbind, ST_bind, st_map_err, zoom.
  destruct (ExtendedExtranonceOps.next_prefix_extended _ _) as [r f'] eqn:E.
  assert (Hg : FZ (on_data (set_factory_extended f') s) ∧ (∀ p, r = Ok p → given p)).
  { split.
    - split; [exact Hu|]. split; [|exact Hs]. intros up Ho. split; [|by apply (Hfac up)].
      exact (proj1 (next_extended_continues _ _ _ _ _ (proj1 (Hfac up Ho)) E)).
    - intros p Hp up Ho. exact (proj2 (next_extended_continues _ _ _ _ _ (proj1 (Hfac up Ho)) E) p Hp). }
  destruct Hg as [Hg Hr]. destruct r as [p|e|]; cbn; [|done..]. by apply Hf; [apply Hr|].
Qed.

Lemma run_local_bind {K A B} (I : K → Prop) (m : ST K ChannelError A) k (f : A * K → JDC B) :
  I k → keeps I m → (∀ r, I r.2 → keeps FZ (f r)) → keeps FZ (run_local m k ≫= f).
Proof.
  intros Hk Hm Hf s Hs. specialize (Hm k Hk). unfold mbind, ST_bind, run_local.
  destruct (m k) as [[a|e|] k']; [by apply Hf|done|done].
Qed.
Lemma frozen_ensure_group did t prev outs v :
  miner_ok oup st v → keeps FZ (ensure_group_channel chk cfg did t prev outs v).
Proof.
  intros Hv. unfold ensure_group_channel. destruct (require_std_job v), (group_channels v); try apply keeps_ret.
  keeps_step; [apply keeps_next_channel|]. keeps_step; [apply keeps_gets|].
  do 2 (keeps_step; [apply frozen_run_local|]). apply keeps_modify. intros s. by apply frozen_put.
Qed.
Lemma keeps_current {B} did v (f : DownstreamData → JDC B) :
  miner_ok oup st v → (∀ v, miner_ok oup st v → keeps FZ (f v)) →
  keeps FZ (gets (λ s, default v (miner did s)) ≫= f).
Proof.
  intros Hv Hf s Hs. rewrite st_gets_bind. apply Hf; [|done].
  destruct (miner did s) as [w|] eqn:Ew; [by eapply frozen_miner|done].
Qed.
Lemma frozen_register did id j t v : keeps FZ (register_channel did id j t v).
Proof. apply keeps_modify. intros s Hs. exact Hs. Qed.
Lemma std_new_at id u p mt h b spm js pt mtag c :
  Standard.new chk id u p mt h b spm js pt mtag = Ok c → std_at p c.
Proof. intros E. unfold Standard.new in E. apply bind_Ok in E as (? & _ & E). by injection E as <-. Qed.
Lemma ext_new_at id u p mt h roll n b spm pt mtag c :
  Extended.new chk id u p mt h roll n b spm JobStore.new pt mtag = Ok c → ext_at p c.
Proof.
  intros E. unfold Extended.new in E. apply bind_Ok in E as (? & _ & E). apply bind_Ok in E as (? & _ & E).
  destruct (_ <? _); [done|]. injection E as <-. split; [done|apply store_all_new].
Qed.

Lemma frozen_open_standard clock m :
  ¬ waiting st → keeps FZ (handle_open_standard_mining_channel chk cfg clock m).
Proof.
  intros Hw. unfold handle_open_standard_mining_channel. apply keeps_lift_bind. intros [user did] _.
  apply keeps_gets_data. intros d Hd. apply keeps_lift_bind. intros t _. apply keeps_lift_bind. intros prev _.
  apply keeps_lift_bind. intros v Ev. apply ok_or_Ok, Hd in Ev. apply keeps_lift_bind. intros outs _.
  keeps_step; [by apply frozen_ensure_group|]. apply (keeps_current did v); [done|]. clear v Ev. intros v Hv.
  keeps_step; [apply keeps_next_channel|]. apply keeps_standard_prefix. intros p Hp.
  destruct (Standard.new _ _ _ _ _ _ _ _ _ _ _) as [c|e|] eqn:En;
    [|destruct (open_error _ _); keeps_all|apply keeps_panic].
  destruct (32 <? zlen p); [apply keeps_panic|]. apply std_new_at in En.
  apply (run_local_bind (std_at p)); [done|apply std_at_template|]. intros r1 Hr1.
  apply keeps_lift_bind. intros job _. apply (run_local_bind (std_at p)); [done|apply std_at_prev_hash|].
  intros r2 Hr2. apply keeps_lift_bind. intros vd _. keeps_step; [apply frozen_register|].
  keeps_step; [|apply keeps_forward_all]. apply keeps_modify. intros s. apply frozen_put.
  apply (miner_ok_add_standard v); [done| |done]. intros up Ho. unfold std_at in Hr2. rewrite Hr2. by apply Hp.
Qed.
Lemma frozen_open_extended clock m :
  ¬ waiting st → keeps FZ (handle_open_extended_mining_channel chk cfg clock m).
Proof.
  intros Hw. unfold handle_open_extended_mining_channel. apply keeps_lift_bind. intros [user did] _.
  apply keeps_gets_data. intros d Hd. apply keeps_lift_bind. intros v Ev. apply ok_or_Ok, Hd in Ev.
  keeps_step; [apply keeps_next_channel|]. apply keeps_extended_prefix. intros p Hp.
  apply keeps_lift_bind. intros t _. apply keeps_lift_bind. intros prev _.
  destruct (Extended.new _ _ _ _ _ _ _ _ _ _ _ _ _) as [c|e|] eqn:En; [|destruct e; keeps_all|apply keeps_panic].
  destruct (32 <? zlen p); [apply keeps_panic|]. apply ext_new_at in En.
  apply keeps_lift_bind. intros outs _. apply (run_local_bind (ext_at p)); [done|apply ext_at_template|].
  intros r1 Hr1. apply keeps_lift_bind. intros job _.
  apply (run_local_bind (ext_at p)); [done|apply ext_at_prev_hash|]. intros r2 Hr2.
  apply keeps_lift_bind. intros vd _. keeps_step; [|keeps_step; [apply frozen_register|apply keeps_forward_all]].
  apply keeps_modify. intros s. apply frozen_put. apply miner_ok_add_extended; [done| |done].
  intros up Ho. exists p. split; [by apply Hp|done].
Qed.
Lemma keeps_request clock r :
  ¬ waiting st → keeps FZ (send_open_channel_request_to_mining_handler chk cfg clock r).
Proof.
  intros Hw. destruct r; cbn [send_open_channel_request_to_mining_handler handle_mining_message_from_client];
    [by apply frozen_open_extended|by apply frozen_open_standard].
Qed.
Lemma keeps_open_pending clock l : ¬ waiting st → keeps FZ (open_pending chk cfg clock l).
Proof.
  intros Hw. induction l as [|r l IH]; cbn [open_pending]; [apply keeps_ret|].
  keeps_step; [by apply keeps_request|done].
Qed.
End more.

(** ** The channel to the pool *)

Lemma bind_cases {S E A B} (m : ST S E A) (f : A → ST S E B) s r s' :
  (m ≫= f) s = (r, s') →
  (∃ a s1, m s = (Ok a, s1) ∧ f a s1 = (r, s')) ∨ (∃ e, m s = (Err e, s') ∧ r = Err e) ∨
  (m s = (Panic, s') ∧ r = Panic).
Proof.
  unfold mbind, ST_bind. destruct (m s) as [[a|e|] s1]; [by eauto|by intros [= <- <-]; eauto|by intros [= <- <-]; eauto].
Qed.
Lemma send_cases m s r s' :
  send m s = (r, s') → (r = Ok tt ∧ s' = emit m s) ∨ r = Err ChannelErrorSender.
Proof.
  unfold send. rewrite st_gets_bind. destruct (queue_of _ _); intros [= <- <-]; [by left|by right].
Qed.
Lemma allocate_cases chk cfg s r s' :
  allocate_token chk cfg s = (r, s') →
  r ≠ Panic → (∀ e, r ≠ Err e) ∧ upstream_state s' = upstream_state s ∧ ∃ i, data s' = set_request_ids i (data s).
Proof.
  unfold allocate_token, request_token, next_request_id, next_id. intros E Hr.
  unfold mbind, ST_bind, zoom in E. cbn beta in E.
  destruct (Id_next chk (request_id_factory (data s))) as [[n|e|] i]; [|by injection E as <- <-; eauto..].
  destruct (255 <? _); [by injection E as <- <-|].
  destruct (send _ _) as [r1 s1] eqn:Es. unfold send in Es. rewrite st_gets_bind in Es.
  destruct (queue_of _ _); injection Es as <- <-; injection E as <- <-; by split_and!; eauto.
Qed.

Section pool.
Context `{Bitcoin} `{TxCosts} `{MapIter} `{PairIter} (chk : bool) (cfg : Config).

Lemma make_factory_continues up size min f :
  make_factory cfg up size min = Ok f → continues up f.
Proof.
  unfold make_factory, ExtendedExtranonceOps.from_upstream_extranonce, bad_ranges. cbn [r_start r_end].
  intros E. destruct (_ || _) eqn:Hb; [done|]. destruct (MAX_EXTRANONCE_LEN <? _); [done|]. injection E as <-.
  repeat (apply orb_false_iff in Hb as [Hb ?]). bool_props. pose proof (zlen_nonneg up).
  split; cbn [inner range_1 range_2 static_prefix r_start r_end]; [|lia..|done].
  unfold resize. rewrite ztake_ge by lia. rewrite <- app_assoc. by apply prefix_app_r.
Qed.

(** The invariant up to the requests that wait. *)
Definition settled (oup : option bytes) (st : UpstreamState) (s : ChannelManager) : Prop :=
  (Client.x_extranonce_prefix <$> upstream_channel (data s) = oup ∧ upstream_state s = st) ∧
  (∀ up, oup = Some up → continues up (extranonce_prefix_factory_extended (data s)) ∧
                         continues up (extranonce_prefix_factory_standard (data s))) ∧
  map_Forall (λ _ v, miner_ok oup st v) (downstream (data s)).
Lemma settled_emit oup st m s : settled oup st s → settled oup st (emit m s).
Proof. done. Qed.
(** The first channel to the pool, with no channel of a miner yet. *)
Lemma settled_connect oup st s u f jf :
  frozen oup st s → waiting st → continues (Client.x_extranonce_prefix u) f →
  settled (Some (Client.x_extranonce_prefix u)) Connected
    (set_state Connected (on_data (λ d, set_job_factory (Some jf) (set_upstream (Some u)
       (set_factory_standard f (set_factory_extended f d)))) s)).
Proof.
  intros (_ & _ & Hm & _) Hw Hf. split; [by split|]. split; [intros up [= <-]; by split|].
  intros id v Hv. specialize (Hm id v Hv). destruct Hm as [_ Hn]. destruct (Hn Hw) as [Hs He].
  split; [|by intros []]. intros up _. split; [rewrite Hs|rewrite He]; apply map_Forall_empty.
Qed.
Lemma settled_frozen oup st s :
  ¬ waiting st → settled oup st s → frozen oup st (on_data (set_pending []) s).
Proof.
  intros Hw (Hu & Hf & Hm). split; [exact Hu|]. split; [exact Hf|]. split; [exact Hm|]. by split.
Qed.
Lemma not_waiting_connected : ¬ waiting Connected.
Proof. by intros []. Qed.
Lemma not_waiting_solo : ¬ waiting Solo.
Proof. by intros []. Qed.

Lemma after_connect_aligned clock mode t job up s r s' :
  settled (Some up) Connected s → after_connect chk cfg clock mode t job s = (r, s') →
  r ≠ Panic → (∀ e, r = Err e → is_critical e = false) → aligned s'.
Proof.
  intros Hset E Hp Hc. unfold after_connect in E.
  apply bind_cases in E as [(a & s3 & E2 & E)|[(e & E2 & ->)|(E2 & ->)]]; [| |done].
  2: { destruct mode, t; try done.
       apply send_cases in E2 as [[? _]|[= ->]]; [done|]. by specialize (Hc _ eq_refl). }
  assert (Hset3 : settled (Some up) Connected s3).
  { destruct mode, t; try (by injection E2 as _ <-).
    apply send_cases in E2 as [[_ ->]|?]; [by apply settled_emit|done]. }
  apply bind_cases in E as [(b & s4 & E3 & E)|[(e & E3 & ->)|(E3 & ->)]]; [| |done].
  2: { destruct job as [job|]; [|done]. apply bind_cases in E3 as [(b & s4 & E3 & E4)|[(e' & E3 & [= ->])|(E3 & ?)]].
       - apply allocate_cases in E4 as [E4 _]; [|done]. by destruct (E4 e).
       - apply send_cases in E3 as [[? _]|[= ->]]; [done|]. by specialize (Hc _ eq_refl).
       - done. }
  assert (Hset4 : settled (Some up) Connected s4).
  { destruct job as [job|]; [|by injection E3 as _ <-].
    apply bind_cases in E3 as [(c & s5 & E3 & E4)|[(e' & E3 & ?)|(E3 & ?)]]; [|done|done].
    apply send_cases in E3 as [[_ ->]|?]; [|done]. apply allocate_cases in E4 as (_ & Est & i & Ed); [|done].
    unfold settled. rewrite Ed, Est. exact Hset3. }
  rewrite st_gets_bind, st_modify_bind in E. cbn beta in E.
  pose proof (keeps_open_pending chk cfg (Some up) Connected clock
    (pending_downstream_requests (data s4)) not_waiting_connected _
    (settled_frozen _ _ _ not_waiting_connected Hset4)) as Hf.
  rewrite E in Hf. by eapply frozen_aligned.
Qed.
Lemma success_aligned clock m s r s' :
  aligned s → handle_open_extended_mining_channel_success chk cfg clock m s = (r, s') →
  r ≠ Panic → (∀ e, r = Err e → is_critical e = false) → aligned s'.
Proof.
  intros Hs E Hp Hc. unfold handle_open_extended_mining_channel_success in E. rewrite st_gets_bind in E.
  assert (Hw : pending_downstream_requests (data s) ≠ [] → waiting (upstream_state s)) by apply Hs.
  apply bind_cases in E as [([h n] & s1 & E1 & E)|[(e & E1 & ->)|(E1 & ->)]]; [|by destruct (pending_downstream_requests (data s)) as [|[] ?]|done].
  apply st_lift_Ok in E1 as [E1 ->].
  assert (Hwait : waiting (upstream_state s)) by (apply Hw; by destruct (pending_downstream_requests (data s))).
  clear E1 Hw. destruct (make_factory _ _ _ _) as [f|e|] eqn:Ef; [| |by injection E as <- <-].
  2: { injection E as <- <-. destruct Hs as ([Hu _] & Hf & Hm & Hn & Hq). split; [by split|]. split; [exact Hf|].
       split; [|split; [by intros _; apply Hn|by intros _; left]].
       intros id v Hv. destruct (Hm id v Hv) as [Ha Hb]. split; [exact Ha|]. intros _. by apply Hb. }
  apply make_factory_continues in Ef. rewrite st_gets_bind in E.
  set (u := match last_new_prev_hash (data s) with Some _ => _ | None => _ end) in E.
  assert (Hu : Client.x_extranonce_prefix u = op_extranonce_prefix m) by (unfold u; by destruct (last_new_prev_hash _)).
  clearbody u. rewrite <- Hu in Ef. clear Hu.
  match type of E with (?m ≫= _) _ = _ => set (custom := m) in E end.
  assert (Hm : keeps (frozen (Client.x_extranonce_prefix <$> upstream_channel (data s)) (upstream_state s)) custom)
    by (unfold custom; pose proof (keeps_declare_custom chk); keeps_all).
  specialize (Hm s Hs). clearbody custom.
  apply bind_cases in E as [(job & s1 & E1 & E)|[(e & E1 & ->)|(E1 & ->)]];
    [|rewrite E1 in Hm; by eapply frozen_aligned|done].
  rewrite E1 in Hm. rewrite st_modify_bind in E. cbn beta in E. rewrite st_modify_bind in E. cbn beta in E.
  pose proof (settled_connect _ _ _ _ _ (JobFactory_new true (pool_tag_string (data s)) (Some (miner_tag_string cfg)))
    Hm Hwait Ef) as Hset.
    by eapply after_connect_aligned.
Qed.
End pool.
