(* ===== verification/JdClientProperties.v ===== *)
(** * Properties of the job declarator client

    The states the channel manager reaches, what it forwards to the pool and
    what it does not, how a miner's message can end it, and when the search for
    an upstream ends. *)

From Stdlib Require Import String SpecFloat.
From stdpp Require Import gmap relations.
From S2P Require Import Prelude Utf8 SetupConnection Mining MiningProperties Difficulty Bitcoin Jobs JobFacts Channels ChannelProperties Vardiff PoolStats Downstream DownstreamFacts DownstreamProperties BitcoinModel ClientChannels JobDeclarator JdClient JdClientFacts.
#[local] Open Scope Z_scope.
#[local] Open Scope list_scope.

Import Jdc.

(** ** Reachable states *)

Definition renews_prefix (e : Event) : bool :=
  match e with FromPool (PmSetExtranoncePrefix _) => true | _ => false end.

Section reach.
Context `{Bitcoin} `{TxCosts} `{MapIter} `{PairIter} (chk : bool) (cfg : Config).

(** Turns of the loop that goes on, new connections, and the connection of a
    pool and a declarator, which takes place while no miner is served.  The
    pool keeps its prefix. *)
Inductive jdc_step : ChannelManager → ChannelManager → Prop :=
  | step_turn clock e s s' :
      renews_prefix e = false → turn chk cfg clock e s = (Continue, s') → jdc_step s s'
  | step_accept id s s' : accept_downstream chk s = (Ok id, s') → jdc_step s s'
  | step_setup id p fl r s s' : handle_setup_connection id p fl s = (Ok r, s') → jdc_step s s'
  | step_mode fl r s s' : handle_jds_setup_success fl s = (r, s') → jdc_step s s'
  | step_ready s s' :
      upstream_channel (data s) = None → pending_downstream_requests (data s) = [] →
      map_Forall (λ _ v, no_channels v) (downstream (data s)) →
      upstream_ready chk cfg s = (Ok tt, s') → jdc_step s s'.
Definition initial (outputs : bytes) (q : Queues) (s : ChannelManager) : Prop :=
  ∃ d, ChannelManagerData_new (E := JDCError) (cfg_min_extranonce_size cfg) outputs = Ok d ∧
       s = mkManager d Solo SoloMining q [].

Lemma initial_aligned outputs q s : initial outputs q s → aligned s.
Proof.
  intros (d & Ed & ->). unfold ChannelManagerData_new in Ed. apply bind_Ok in Ed as (f & _ & Ed).
  injection Ed as <-. split; [by split|]. split; [done|]. split; [apply map_Forall_empty|]. split; [by intros []|done].
Qed.

Lemma route_aligned clock r up s : aligned s → aligned (route_open chk cfg clock r up s).2.
Proof.
  intros Hs. unfold route_open. rewrite st_gets_bind. unfold aligned in Hs. destruct (upstream_state s) eqn:Est.
  - unfold keep_pending. rewrite st_modify_bind. cbn beta. unfold mbind, ST_bind, compare_and_set. cbn.
    rewrite Est. rewrite bool_decide_eq_true_2 by done.
    assert (Hp : frozen (Client.x_extranonce_prefix <$> upstream_channel (data s)) Pending
              (set_state Pending (on_data (λ d, set_pending (pending_downstream_requests d ++ [r]) d) s))).
    { destruct Hs as ([Hu _] & Hf & Hm & Hn & _). split; [by split|]. split; [exact Hf|].
      split; [|split; [intros _; apply Hn; by left|intros _; by right]].
      intros id v Hv. destruct (Hm id v Hv) as [Ha Hb]. split; [exact Ha|]. intros _. apply Hb. by left. }
    unfold lift. destruct up as [m| |]; [|by eapply frozen_aligned..].
    eapply frozen_aligned, keeps_send, Hp.
  - unfold keep_pending, modify. cbn. eapply frozen_aligned. destruct Hs as (Hu & Hf & Hm & Hn & _).
    split; [exact Hu|]. split; [exact Hf|]. split; [exact Hm|]. split; [exact Hn|intros _; by right].
  - eapply frozen_aligned, keeps_request, Hs. apply not_waiting_connected.
  - eapply frozen_aligned, keeps_request, Hs. apply not_waiting_solo.
Qed.
Lemma downstream_aligned clock id m s :
  aligned s → aligned (handle_downstream_message chk cfg clock id m s).2.
Proof.
  intros Hs. destruct m as [m|m|m|m|m|m|ch|ty]; cbn [handle_downstream_message handle_mining_message_from_client].
  1, 2: unfold mbind, ST_bind, lift; destruct (try_b0255 _ _); [by apply route_aligned|done|done].
  - apply aligned_keeps; [done|intros; apply frozen_update].
  - apply aligned_keeps; [done|intros; apply frozen_submit_standard].
  - apply aligned_keeps; [done|intros; apply frozen_submit_extended].
  - done.
  - apply aligned_keeps; [done|intros; apply frozen_close].
  - done.
Qed.
Lemma fallback_aligned m s : aligned s → aligned (fallback m s).2.
Proof. intros Hs. apply aligned_keeps; [done|]. intros. unfold fallback. apply frozen_try_send. Qed.
Lemma pool_aligned clock m s r s' :
  aligned s → renews_prefix (FromPool m) = false → handle_mining_message_from_server chk cfg clock m s = (r, s') →
  r ≠ Panic → (∀ e, r = Err e → is_critical e = false) → aligned s'.
Proof.
  intros Hs Hr E Hp Hc. destruct m; cbn [handle_mining_message_from_server] in E; try (by injection E as _ <-);
    try (pose proof (fallback_aligned UpstreamShutdownFallback s Hs) as Hf; by rewrite E in Hf); [| |done| |].
  - by eapply success_aligned.
  - unfold handle_upstream_close_channel in E. rewrite st_modify_bind in E.
    assert (Ha : aligned (on_data (set_upstream None) s)).
    { destruct Hs as (_ & _ & Hm & _ & Hp'). split; [by split|]. split; [done|]. split; [|by split].
      intros id v Hv. destruct (Hm id v Hv) as [_ Hb]. by split. }
    apply (fallback_aligned UpstreamShutdownFallback) in Ha. by rewrite E in Ha.
  - pose proof (aligned_keeps _ s Hs (λ oup st, keeps_custom_success oup st m)) as Ha. by rewrite E in Ha.
  - pose proof (aligned_keeps _ s Hs (λ oup st, keeps_set_target oup st maximum_target)) as Ha. by rewrite E in Ha.
Qed.
Lemma turn_aligned clock e s s' :
  aligned s → renews_prefix e = false → turn chk cfg clock e s = (Continue, s') → aligned s'.
Proof.
  intros Hs Hr E. unfold turn in E. destruct (handle_event chk cfg clock e s) as [r s1] eqn:Ee.
  assert (Hp : r ≠ Panic) by (intros ->; discriminate E).
  assert (Hc : ∀ e, r = Err e → is_critical e = false) by (intros e' ->; by destruct (is_critical e')).
  injection E as _ ->. destruct e; cbn [handle_event] in Ee.
  - pose proof (downstream_aligned clock downstream_id m s Hs) as Ha. by rewrite Ee in Ha.
  - by eapply pool_aligned.
  - pose proof (aligned_keeps _ s Hs (λ oup st, keeps_jds chk oup st m)) as Ha. by rewrite Ee in Ha.
  - pose proof (aligned_keeps _ s Hs (λ oup st, keeps_tp chk cfg oup st m)) as Ha. by rewrite Ee in Ha.
  - pose proof (aligned_keeps _ s Hs (λ oup st, keeps_remove oup st downstream_id)) as Ha. by rewrite Ee in Ha.
  - rewrite st_modify_bind, st_gets_bind in Ee. unfold mbind, ST_bind, lift in Ee. cbn beta in Ee.
    unfold reset, fresh_factory in Ee.
    destruct (ExtendedExtranonceOps.new _ _ _ _); cbn in Ee; [|by injection Ee as <- <-..].
    injection Ee as <- <-. split; [by split|]. split; [done|]. split; [apply map_Forall_empty|]. split; [by intros []|done].
  - pose proof (aligned_keeps _ s Hs (λ oup st, keeps_vardiff chk oup st clocks)) as Ha. by rewrite Ee in Ha.
Qed.
Lemma step_aligned s s' : jdc_step s s' → aligned s → aligned s'.
Proof.
  intros Hstep Hs. destruct Hstep as [clock e s s' Hr E|id s s' E|id p fl r s s' E|fl r s s' E|s s' Hu Hp Hm E].
  - by eapply turn_aligned.
  - pose proof (aligned_keeps _ s Hs (λ oup st, keeps_accept chk oup st)) as Ha. by rewrite E in Ha.
  - pose proof (aligned_keeps _ s Hs (λ oup st, keeps_setup oup st id p fl)) as Ha. by rewrite E in Ha.
  - unfold handle_jds_setup_success in E. rewrite st_modify_bind in E.
    case_bool_decide; injection E as _ <-; exact Hs.
  - unfold upstream_ready in E. rewrite st_modify_bind in E. eapply frozen_aligned.
    assert (Hf : frozen None NoChannel (set_state NoChannel s)).
    { split; [by cbn; rewrite Hu|]. split; [done|]. split; [|split; [done|by cbn; rewrite Hp]].
      intros id v Hv. split; [done|]. intros _. exact (Hm id v Hv). }
    apply (keeps_allocate chk cfg) in Hf. rewrite E in Hf. exact Hf.
Qed.
Lemma reachable_aligned outputs q s0 s :
  initial outputs q s0 → rtc jdc_step s0 s → aligned s.
Proof.
  intros Hi Hr. apply initial_aligned in Hi. induction Hr as [s|s s1 s2 Hs _ IH]; [done|].
  apply IH. by eapply step_aligned.
Qed.
End reach.

(** ** Shares on their way to the pool *)

(** What handling a share leaves alone until its messages are sent. *)
Definition untouched (s0 s : ChannelManager) : Prop :=
  sent s = sent s0 ∧ upstream_channel (data s) = upstream_channel (data s0) ∧
  downstream_channel_id_and_job_id_to_template_id (data s) =
    downstream_channel_id_and_job_id_to_template_id (data s0) ∧
  template_id_to_upstream_job_id (data s) = template_id_to_upstream_job_id (data s0).

Section shares.
Context `{Bitcoin} `{TxCosts} `{MapIter} `{PairIter} (chk : bool) (cfg : Config).

Lemma untouched_focus {K E A} s0 (get : ChannelManager → option K) put (m : ST K E A) :
  (∀ k s, untouched s0 s → untouched s0 (put k s)) → keeps (untouched s0) (focus get put m).
Proof.
  intros Hp s Hs. unfold focus. destruct (get s) as [k|]; [|done].
  destruct (m k) as [[] k']; by apply Hp.
Qed.
Lemma untouched_standard {E A} s0 did id (m : ST StandardChannel E A) : keeps (untouched s0) (on_standard did id m).
Proof. apply untouched_focus. intros k s Hs. by destruct (miner did s). Qed.
Lemma untouched_extended {E A} s0 did id (m : ST ExtendedChannel E A) : keeps (untouched s0) (on_extended did id m).
Proof. apply untouched_focus. intros k s Hs. by destruct (miner did s). Qed.
Lemma untouched_count s0 ch did : keeps (untouched s0) (count_share chk ch did).
Proof. unfold count_share. keeps_all. by apply keeps_modify. Qed.
Lemma untouched_answer s0 did ch seq v t n acc res :
  keeps (untouched s0) acc → keeps (untouched s0) (answer_share did ch seq v t n acc res).
Proof. intros Ha. unfold answer_share. keeps_all. Qed.
Lemma sent_upstream {E A} l (m : ST Client.ExtendedChannel E A) : keeps (λ s, sent s = l) (on_upstream m).
Proof. intros s Hs. unfold on_upstream, focus. destruct (upstream_channel (data s)) as [u|]; [|done]. by destruct (m u) as [[] ?]. Qed.
Lemma sent_next l : keeps (λ s, sent s = l) (next_sequence_number chk).
Proof. intros s Hs. unfold next_sequence_number, next_id, zoom. by destruct (Id_next _ _). Qed.
Lemma sent_forward_share l ch j n t v p e sol prev :
  keeps (λ s, sent s = l) (forward_share chk ch j n t v p e sol prev).
Proof. unfold forward_share. pose proof (sent_next l). keeps_all. apply sent_upstream. Qed.

Lemma forward_sent m s r s' x :
  forward m s = (r, s') → SentUpstream x ∈ sent s' → SentUpstream x ∈ sent s ∨ m = Upstream x.
Proof.
  assert (Ht : ∀ q s r s', try_send q s = (r, s') → SentUpstream x ∈ sent s' → SentUpstream x ∈ sent s ∨ q = SentUpstream x).
  { clear. intros q s r s' E. unfold try_send in E. rewrite st_gets_bind in E.
    destruct (queue_of _ _); injection E as _ <-; [|by left]. cbn. intros Hin.
    apply elem_of_app in Hin as [Hin|Hin]; [by left|]. apply list_elem_of_singleton in Hin as <-. by right. }
  destruct m as [m|m|m|id m]; cbn [forward]; [|intros E Hin; apply (Ht _ _ _ _ E) in Hin as [?|?]; [by left|done]..].
  rewrite st_gets_bind. case_bool_decide; [intros [= _ <-]; by left|].
  intros E Hin. apply (Ht _ _ _ _ E) in Hin as [?|[= <-]]; [by left|by right].
Qed.
Lemma forward_all_sent l s r s' x :
  forward_all l s = (r, s') → SentUpstream x ∈ sent s' → SentUpstream x ∈ sent s ∨ Upstream x ∈ l.
Proof.
  revert s. induction l as [|m l IH]; intros s; cbn [forward_all]; [intros [= _ <-]; by left|]. intros E Hin.
  apply bind_cases in E as [(a & s1 & E1 & E)|[(e & E1 & _)|(E1 & _)]].
  - apply (IH _ E) in Hin as [Hin|Hin]; [|right; by constructor].
    apply (forward_sent _ _ _ _ _ E1) in Hin as [Hin| ->]; [by left|right; constructor].
  - apply (forward_sent _ _ _ _ _ E1) in Hin as [Hin| ->]; [by left|right; constructor].
  - apply (forward_sent _ _ _ _ _ E1) in Hin as [Hin| ->]; [by left|right; constructor].
Qed.

(** The message a share becomes. *)
Lemma forward_share_spec ch j n t v p e sol prev s l s' x :
  forward_share chk ch j n t v p e sol prev s = (Ok l, s') → Upstream (Submit x) ∈ l →
  ∃ u job parts seq, upstream_channel (data s) = Some u ∧ upstream_job ch j (data s) = Some job ∧
    extranonce_parts (E := JDCError) p (Client.x_extranonce_prefix u) e = Ok parts ∧
    x = mkSubmitExtended (Client.x_channel_id u) seq (wrap 32 job) n t v parts.
Proof.
  intros E Hin. unfold forward_share in E. rewrite st_gets_bind in E.
  destruct (upstream_channel (data s)) as [u|]; [|injection E as <- _; by apply not_elem_of_nil in Hin].
  apply st_bind_Ok in E as (a & s1 & E1 & E). apply st_lift_Ok in E1 as [_ ->].
  destruct (upstream_job ch j (data s)) as [job|]; [|injection E as <- _; by apply not_elem_of_nil in Hin].
  apply st_bind_Ok in E as (parts & s1 & E1 & E). apply st_lift_Ok in E1 as [Hparts ->].
  apply st_bind_Ok in E as (res & s1 & _ & E). exists u, job, parts.
  destruct res as [[]|err|]; [| | |done].
  - apply st_bind_Ok in E as (seq & s2 & _ & E). injection E as <- _.
    apply list_elem_of_singleton in Hin. injection Hin as ->. by exists seq.
  - apply st_bind_Ok in E as (seq & s2 & _ & E). apply st_bind_Ok in E as (push & s3 & _ & E). injection E as <- _.
    apply elem_of_cons in Hin as [Hin|Hin]; [done|]. apply list_elem_of_singleton in Hin. injection Hin as ->.
    by exists seq.
  - apply st_bind_Ok in E as (? & s2 & _ & E). injection E as <- _. by apply not_elem_of_nil in Hin.
Qed.
Lemma answer_no_submit did ch seq v t n acc res s b l s' x :
  answer_share did ch seq v t n acc res s = (Ok (b, l), s') →
  Upstream x ∉ l ∧ (b = true → ∃ ok, res = Ok ok).
Proof.
  intros E. unfold answer_share in E. destruct res as [[h|h a c d|h tid cb]|err|].
  - injection E as <- <- _. split; [apply not_elem_of_nil|by eauto].
  - injection E as <- <- _. split; [|by eauto]. intros Hin. by apply list_elem_of_singleton in Hin.
  - apply st_bind_Ok in E as (sol & s1 & E1 & E). apply st_bind_Ok in E as (a & s2 & _ & E). injection E as <- <- _.
    split; [|by eauto]. intros Hin. apply elem_of_app in Hin as [Hin|Hin]; [|by apply list_elem_of_singleton in Hin].
    destruct tid as [tid|]; [|injection E1 as <- _; by apply not_elem_of_nil in Hin].
    apply st_bind_Ok in E1 as (tx & s3 & _ & E1). injection E1 as <- _. by apply list_elem_of_singleton in Hin.
  - destruct (share_error_code err); [|done]. injection E as <- <- _. split; [|done].
    intros Hin. by apply list_elem_of_singleton in Hin.
  - done.
Qed.
Lemma parts_continue up p e parts :
  up `prefix_of` p → extranonce_parts (E := JDCError) p up e = Ok parts → up ++ parts = p ++ e.
Proof.
  intros [k ->] E. unfold extranonce_parts in E. apply bind_Ok in E as (part & Ep & E).
  apply slice_from_Ok in Ep as (_ & ->). destruct (_ <? _); [done|]. injection E as <-.
  by rewrite zdrop_app, app_assoc.
Qed.

(** The miner's channel of a share. *)
Definition extended_channel_of (s : ChannelManager) (id : Z) : option ExtendedChannel :=
  did ← channel_id_to_downstream_id (data s) !! id; v ← miner did s; extended_channels v !! id.
Definition standard_channel_of (s : ChannelManager) (id : Z) : option StandardChannel :=
  did ← channel_id_to_downstream_id (data s) !! id; v ← miner did s; standard_channels v !! id.
(** The full extranonce of the coinbase a miner's share was checked with. *)
Definition hashed_extranonce (s : ChannelManager) (m : MinerMessage) (e : bytes) : Prop :=
  match m with
  | MinerSubmitExtended m =>
      ∃ c job, extended_channel_of s (se_channel_id m) = Some c ∧
        find_job (se_job_id m) (ec_job_store c) = Ok job ∧ e = ej_extranonce_prefix job ++ se_extranonce m
  | MinerSubmitStandard m =>
      ∃ c, standard_channel_of s (ss_channel_id m) = Some c ∧ e = sc_extranonce_prefix c
  | _ => False
  end.
(** Channel, job, nonce, time and version of a share. *)
Definition share_fields (m : MinerMessage) : option (Z * Z * (Z * Z * Z)) :=
  match m with
  | MinerSubmitExtended m => Some (se_channel_id m, se_job_id m, (se_nonce m, se_ntime m, se_version m))
  | MinerSubmitStandard m => Some (ss_channel_id m, ss_job_id m, (ss_nonce m, ss_ntime m, ss_version m))
  | _ => None
  end.
Definition forwarded (s : ChannelManager) (m : MinerMessage) (x : SubmitSharesExtended) : Prop :=
  ∃ u job ch j, upstream_channel (data s) = Some u ∧ upstream_job ch j (data s) = Some job ∧
    share_fields m = Some (ch, j, (se_nonce x, se_ntime x, se_version x)) ∧
    se_channel_id x = Client.x_channel_id u ∧ se_job_id x = wrap 32 job ∧
    hashed_extranonce s m (Client.x_extranonce_prefix u ++ se_extranonce x).

Lemma context_spec ch s did v prev s' :
  share_context ch s = (Ok (did, v, prev), s') →
  s' = s ∧ channel_id_to_downstream_id (data s) !! ch = Some did ∧ miner did s = Some v.
Proof. intros E. unfold share_context in E. inv_st. done. Qed.
Lemma aligned_upstream s u did v :
  aligned s → upstream_channel (data s) = Some u → miner did s = Some v → miner_at (Client.x_extranonce_prefix u) v.
Proof.
  intros (_ & _ & Hm & _) Hu Hv. destruct (Hm did v Hv) as [Ha _]. apply Ha. by rewrite Hu.
Qed.
Lemma untouched_job s0 s ch j : untouched s0 s → upstream_job ch j (data s) = upstream_job ch j (data s0).
Proof. intros (_ & _ & Hj & Ht). unfold upstream_job. by rewrite Hj, Ht. Qed.

(** The common end of the two handlers: validation, answer, forwarding. *)
Lemma share_tail {R} s0 s (pre : JDC R) (ans : R → JDC (bool * list RouteMessageTo))
    (fwd : JDC (list RouteMessageTo)) r s' x :
  untouched s0 s → keeps (untouched s0) pre → (∀ a, keeps (untouched s0) (ans a)) →
  (∀ l, keeps (λ s, sent s = l) fwd) →
  (∀ a s1 b l s2, ans a s1 = (Ok (b, l), s2) → Upstream x ∉ l) →
  (a ← pre; '(valid, messages) ← ans a; more ← (if (valid : bool) then fwd else mret []);
   forward_all (messages ++ more)) s = (r, s') →
  SentUpstream x ∈ sent s' → SentUpstream x ∉ sent s0 →
  ∃ a s1 l s2 ml s3, pre s = (Ok a, s1) ∧ ans a s1 = (Ok (true, l), s2) ∧ untouched s0 s2 ∧
    fwd s2 = (Ok ml, s3) ∧ Upstream x ∈ ml.
Proof.
  intros Hu Hpre Hans Hfwd Hno E Hin Hnew.
  assert (Hold : ∀ s, untouched s0 s → SentUpstream x ∉ sent s) by (intros s1 [-> _]; done).
  specialize (Hpre s Hu). apply bind_cases in E as [(a & s1 & E1 & E)|[(e & E1 & _)|(E1 & _)]];
    rewrite E1 in Hpre; [|by destruct (Hold s')..].
  specialize (Hans a s1 Hpre). apply bind_cases in E as [([valid l] & s2 & E2 & E)|[(e & E2 & _)|(E2 & _)]];
    rewrite E2 in Hans; [|by destruct (Hold s')..].
  assert (Hs2 : ∀ s3, sent s3 = sent s2 → SentUpstream x ∉ sent s3) by (intros s3 ->; by apply Hold).
  pose proof (Hno _ _ _ _ _ E2) as Hl. apply bind_cases in E as [(ml & s3 & E3 & E)|Hbad].
  - assert (Hs3 : sent s3 = sent s2).
    { destruct valid; [|by injection E3 as _ <-]. specialize (Hfwd _ s2 eq_refl). by rewrite E3 in Hfwd. }
    apply (forward_all_sent _ _ _ _ _ E) in Hin as [Hin|Hin]; [by destruct (Hs2 s3)|].
    apply elem_of_app in Hin as [Hin|Hin]; [done|].
    destruct valid; [|injection E3 as <- _; by apply not_elem_of_nil in Hin].
    by exists a, s1, l, s2, ml, s3.
  - destruct valid; [|by destruct Hbad as [(e & E3 & _)|(E3 & _)]].
    specialize (Hfwd _ s2 eq_refl). destruct (Hs2 s'); [|done].
    destruct Hbad as [(e & E3 & _)|(E3 & _)]; by rewrite E3 in Hfwd.
Qed.

Lemma untouched_context s0 ch : keeps (untouched s0) (share_context ch).
Proof. unfold share_context. keeps_all. Qed.
Lemma untouched_old s s' x : untouched s s' → SentUpstream x ∈ sent s' → SentUpstream x ∈ sent s.
Proof. by intros [-> _]. Qed.
Lemma untouched_refl s : untouched s s.
Proof. done. Qed.

(** A share that was accepted names a job of its channel. *)
Lemma validated_job m did s s1 s2 s3 a l c v acc res :
  count_share chk (se_channel_id m) did s = (Ok a, s1) → miner did s = Some v →
  extended_channels v !! se_channel_id m = Some c →
  on_extended did (se_channel_id m) (Extended.validate_share chk m) s1 = (Ok res, s2) →
  answer_share did (se_channel_id m) (se_sequence_number m) (se_version m) (se_ntime m) (se_nonce m) acc res s2
    = (Ok (true, l), s3) →
  ∃ jb, find_job (se_job_id m) (ec_job_store c) = Ok jb.
Proof.
  intros E1 Hv Hc E2 E3.
  assert (Hd : downstream (data s1) = downstream (data s)).
  { change s1 with ((Ok a : result JDCError unit, s1).2). rewrite <- E1.
    unfold count_share, mbind, ST_bind, gets, lift. destruct (ok_or _ _); [|done..].
    by destruct (Vardiff.increment_shares_since_last_update _ _) as [[] ?]. }
  apply (answer_no_submit _ _ _ _ _ _ _ _ _ _ _ _ (Submit m)) in E3 as [_ Hok]. destruct (Hok eq_refl) as [ok ->].
  unfold on_extended, focus, miner in E2. rewrite Hd in E2. fold (miner did s) in E2. rewrite Hv in E2. cbn in E2.
  rewrite Hc in E2. destruct (Extended.validate_share chk m c) as [r c'] eqn:Ev.
  assert (r = Ok ok) as -> by (destruct r; [by injection E2 as -> _|discriminate E2|discriminate E2]).
  unfold Extended.validate_share in Ev. rewrite st_gets_bind in Ev. apply st_bind_Ok in Ev as (jb & ? & Ej & _).
  apply st_lift_Ok in Ej as [Ej _]. by exists jb.
Qed.
(** What a share that goes to the pool went through. *)
Definition passed (s : ChannelManager) (ch j : Z) (prefix extranonce : bytes) (x : SubmitSharesExtended)
    (n t v : Z) : Prop :=
  ∃ u job parts seq, upstream_channel (data s) = Some u ∧ upstream_job ch j (data s) = Some job ∧
    extranonce_parts (E := JDCError) prefix (Client.x_extranonce_prefix u) extranonce = Ok parts ∧
    x = with_sequence_number seq (mkSubmitExtended (Client.x_channel_id u) 0 (wrap 32 job) n t v parts).
Lemma submit_extended_passed m s r s' x :
  handle_submit_shares_extended chk m s = (r, s') →
  SentUpstream (Submit x) ∈ sent s' → SentUpstream (Submit x) ∉ sent s →
  ∃ did v c jb, channel_id_to_downstream_id (data s) !! se_channel_id m = Some did ∧ miner did s = Some v ∧
    extended_channels v !! se_channel_id m = Some c ∧ find_job (se_job_id m) (ec_job_store c) = Ok jb ∧
    passed s (se_channel_id m) (se_job_id m) (ec_extranonce_prefix c) (se_extranonce m) x
      (se_nonce m) (se_ntime m) (se_version m).
Proof.
  intros E Hin Hnew. unfold handle_submit_shares_extended in E.
  pose proof (untouched_context s (se_channel_id m) s (untouched_refl s)) as Hctx.
  apply bind_cases in E as [([[did v] prev] & s1 & E1 & E)|[(e & E1 & _)|(E1 & _)]]; rewrite E1 in Hctx;
    [|by destruct Hnew; eapply untouched_old..].
  apply context_spec in E1 as (-> & Hdid & Hv).
  destruct (extended_channels v !! se_channel_id m) as [c|] eqn:Ec;
    [|by apply forward_sent with (x := Submit x) in E as [?|?]].
  pose proof (untouched_count s (se_channel_id m) did s Hctx) as Hcnt.
  apply bind_cases in E as [(a & s1 & E1 & E)|[(e & E1 & _)|(E1 & _)]]; rewrite E1 in Hcnt;
    [|by destruct Hnew; eapply untouched_old..].
  eapply share_tail in E as (res & s2 & l & s3 & ml & s4 & Ev & Ea & Hu3 & Ef & Hml);
    [|done|apply untouched_extended|intros; apply untouched_answer; keeps_all; apply untouched_extended
     |intros; apply sent_forward_share|intros; by eapply answer_no_submit|done..].
  apply forward_share_spec with (x := x) in Ef as (u & job & parts & seq & Eu & Ej & Ep & ->); [|done].
  rewrite (proj1 (proj2 Hu3)) in Eu. rewrite (untouched_job s s3) in Ej by done.
  assert (Hjob : ∃ jb, find_job (se_job_id m) (ec_job_store c) = Ok jb) by (by eapply validated_job).
  destruct Hjob as [jb Hjb]. exists did, v, c, jb. split_and!; try done. by exists u, job, parts, seq.
Qed.
Lemma submit_standard_passed m s r s' x :
  handle_submit_shares_standard chk m s = (r, s') →
  SentUpstream (Submit x) ∈ sent s' → SentUpstream (Submit x) ∉ sent s →
  ∃ did v c, channel_id_to_downstream_id (data s) !! ss_channel_id m = Some did ∧ miner did s = Some v ∧
    standard_channels v !! ss_channel_id m = Some c ∧
    passed s (ss_channel_id m) (ss_job_id m) (sc_extranonce_prefix c) [] x (ss_nonce m) (ss_ntime m) (ss_version m).
Proof.
  intros E Hin Hnew. unfold handle_submit_shares_standard in E.
  pose proof (untouched_context s (ss_channel_id m) s (untouched_refl s)) as Hctx.
  apply bind_cases in E as [([[did v] prev] & s1 & E1 & E)|[(e & E1 & _)|(E1 & _)]]; rewrite E1 in Hctx;
    [|by destruct Hnew; eapply untouched_old..].
  apply context_spec in E1 as (-> & Hdid & Hv).
  destruct (standard_channels v !! ss_channel_id m) as [c|] eqn:Ec;
    [|by apply forward_sent with (x := Submit x) in E as [?|?]].
  pose proof (untouched_count s (ss_channel_id m) did s Hctx) as Hcnt.
  apply bind_cases in E as [(a & s1 & E1 & E)|[(e & E1 & _)|(E1 & _)]]; rewrite E1 in Hcnt;
    [|by destruct Hnew; eapply untouched_old..].
  eapply share_tail in E as (res & s2 & l & s3 & ml & s4 & Ev & Ea & Hu3 & Ef & Hml);
    [|done|apply untouched_standard|intros; apply untouched_answer; keeps_all; apply untouched_standard
     |intros; apply sent_forward_share|intros; by eapply answer_no_submit|done..].
  apply forward_share_spec with (x := x) in Ef as (u & job & parts & seq & Eu & Ej & Ep & ->); [|done].
  rewrite (proj1 (proj2 Hu3)) in Eu. rewrite (untouched_job s s3) in Ej by done.
  exists did, v, c. split_and!; try done. by exists u, job, parts, seq.
Qed.
(** In a state that keeps the pool's prefix, such a share is the same work. *)
Lemma submit_extended_forwards m s r s' x :
  aligned s → handle_submit_shares_extended chk m s = (r, s') →
  SentUpstream (Submit x) ∈ sent s' → SentUpstream (Submit x) ∉ sent s →
  forwarded s (MinerSubmitExtended m) x.
Proof.
  intros Hs E Hin Hnew.
  destruct (submit_extended_passed m s r s' x E Hin Hnew) as (did & v & c & jb & Hdid & Hv & Ec & Hjb & Hp).
  destruct Hp as (u & job & parts & seq & Eu & Ej & Ep & ->).
  destruct (aligned_upstream s u did v Hs Eu Hv) as [_ Hext]. destruct (Hext _ _ Ec) as (p & Hpre & Hp & Hstore).
  exists u, job, (se_channel_id m), (se_job_id m). split_and!; try done.
  exists c, jb. split_and!; [|done|].
  - unfold extended_channel_of. rewrite Hdid. cbn. by rewrite Hv.
  - rewrite (store_all_find _ _ _ _ Hstore Hjb). rewrite <- Hp in *. by apply parts_continue.
Qed.
Lemma submit_standard_forwards m s r s' x :
  aligned s → handle_submit_shares_standard chk m s = (r, s') →
  SentUpstream (Submit x) ∈ sent s' → SentUpstream (Submit x) ∉ sent s →
  forwarded s (MinerSubmitStandard m) x.
Proof.
  intros Hs E Hin Hnew.
  destruct (submit_standard_passed m s r s' x E Hin Hnew) as (did & v & c & Hdid & Hv & Ec & Hp).
  destruct Hp as (u & job & parts & seq & Eu & Ej & Ep & ->).
  destruct (aligned_upstream s u did v Hs Eu Hv) as [Hstd _].
  exists u, job, (ss_channel_id m), (ss_job_id m). split_and!; try done. exists c. split.
  - unfold standard_channel_of. rewrite Hdid. cbn. by rewrite Hv.
  - rewrite <- (app_nil_r (sc_extranonce_prefix c)). apply parts_continue; [exact (Hstd _ _ Ec)|done].
Qed.
End shares.

(** C12: In every state the channel manager reaches while the pool keeps its
    extranonce prefix, a share of a miner that handling a message newly sends
    to the pool is submitted on the client's channel to the pool, under the
    pool's number for the template of the miner's job, with the miner's nonce,
    time and version, and its extranonce behind the pool's prefix is exactly
    the extranonce of the coinbase the miner's share was checked with. *)
Theorem jdc_share_same_work `{Bitcoin} `{TxCosts} `{MapIter} `{PairIter} (chk : bool) (cfg : Config)
    (outputs : bytes) (q : Queues) (s0 s s' : ChannelManager) (clock : option Z) (id : Z) (m : MinerMessage)
    (r : result JDCError unit) (x : SubmitSharesExtended) :
  initial cfg outputs q s0 → rtc (jdc_step chk cfg) s0 s →
  handle_downstream_message chk cfg clock id m s = (r, s') → is_Some (share_fields m) →
  SentUpstream (Submit x) ∈ sent s' → SentUpstream (Submit x) ∉ sent s →
  forwarded s m x.
Proof.
  intros Hi Hr E Hm. pose proof (reachable_aligned chk cfg outputs q s0 s Hi Hr) as Hs.
  destruct m; try (by destruct Hm); cbn [handle_downstream_message handle_mining_message_from_client] in E.
  - by eapply submit_standard_forwards.
  - by eapply submit_extended_forwards.
Qed.

(** ** The search for an upstream *)

(** The upstreams not tried yet. *)
Fixpoint untried (l : list bool) : nat :=
  match l with [] => 0 | b :: l => (if b then 0 else 1) + untried l end.
Lemma initialize_None connect i l l' :
  initialize_jd connect i l = (None, l') → untried l' = 0%nat ∧ length l' = length l.
Proof.
  revert i l'. induction l as [|b l IH]; intros i l'; cbn [initialize_jd]; [by intros [= <-]|].
  destruct (negb b && _); [done|]. destruct (initialize_jd connect (S i) l) as [r l1] eqn:E.
  intros [= -> <-]. destruct (IH _ _ E) as [Hu Hl]. cbn. split; [exact Hu|by rewrite Hl].
Qed.
(** A choice is an upstream that was not tried, which is then marked, as are
    all before it. *)
Lemma initialize_Some connect i l l' k :
  initialize_jd connect i l = (Some k, l') →
  (i ≤ k)%nat ∧ l !! (k - i)%nat = Some false ∧ first_attempt (connect k) 1 MAX_RETRIES = true ∧
  (untried l' < untried l)%nat ∧ ∀ j, l' !! j = (if bool_decide (j ≤ k - i)%nat then (λ _, true) <$> l !! j else l !! j).
Proof.
  revert i l'. induction l as [|b l IH]; intros i l'; cbn [initialize_jd]; [done|].
  destruct (negb b && _) eqn:Hb.
  - intros [= <- <-]. apply andb_true_iff in Hb as [Hb Hf]. destruct b; [done|]. rewrite Nat.sub_diag.
    split; [done|]. split; [done|]. split; [done|]. split; [cbn; lia|]. intros [|j]; cbn; [done|].
    by rewrite bool_decide_eq_false_2 by lia.
  - destruct (initialize_jd connect (S i) l) as [r l1] eqn:E. intros [= -> <-].
    destruct (IH _ _ E) as (Hk & Hl & Hf & Hu & Hj). replace (k - i)%nat with (S (k - S i)) by lia.
    split; [lia|]. split; [done|]. split; [done|]. split.
    + cbn. destruct b; lia.
    + intros [|j]; cbn; [done|]. rewrite Hj. apply (f_equal (λ b : bool, if b then _ else _)), bool_decide_ext. lia.
Qed.
Lemma initialize_exhausted connect i l : untried l = 0%nat → (initialize_jd connect i l).1 = None.
Proof.
  revert i. induction l as [|b l IH]; intros i; cbn [initialize_jd]; [done|]. cbn.
  destruct b; cbn; [|done]. intros Hl. specialize (IH (S i) Hl). by destruct (initialize_jd _ _ _).
Qed.
Lemma searches_exhausted connect r n l : untried l = 0%nat → Forall (λ c, c = None) (searches connect r n l).
Proof.
  revert r l. induction n as [|n IH]; intros r l Hl; cbn [searches]; [constructor|].
  pose proof (initialize_exhausted (connect r) 0 l Hl) as He.
  destruct (initialize_jd (connect r) 0 l) as [c l'] eqn:E. cbn in He. subst c.
  constructor; [done|]. by apply IH, (initialize_None _ _ _ _ E).
Qed.
Lemma searches_length connect r n l : length (searches connect r n l) = n.
Proof.
  revert r l. induction n as [|n IH]; intros r l; cbn [searches]; [done|].
  destruct (initialize_jd _ _ _). cbn. by rewrite IH.
Qed.
Lemma searches_None connect r n l j : untried l = 0%nat → (j < n)%nat → searches connect r n l !! j = Some None.
Proof.
  intros Hl Hj. pose proof (searches_exhausted connect r n l Hl) as Hall. rewrite Forall_lookup in Hall.
  destruct (lookup_lt_is_Some_2 (searches connect r n l) j) as [c Hc]; [by rewrite searches_length|].
  by rewrite Hc, (Hall _ _ Hc).
Qed.
(** The choices of a run of searches: distinct upstreams not tried before. *)
Lemma searches_choices connect r n l :
  let c := searches connect r n l in
  Forall (λ k, l !! k = Some false) (omap id c) ∧ NoDup (omap id c) ∧
  (∀ j, (untried l ≤ j < n)%nat → c !! j = Some None) ∧
  (∀ j j', c !! j = Some None → (j ≤ j' < n)%nat → c !! j' = Some None).
Proof.
  revert r l. induction n as [|n IH]; intros r l; cbn [searches].
  { cbn. split; [constructor|]. split; [constructor|]. split; [lia|done]. }
  destruct (initialize_jd (connect r) 0 l) as [[k|] l'] eqn:E; cbn.
  - apply initialize_Some in E as (_ & Hk & _ & Hu & Hj). rewrite Nat.sub_0_r in *.
    destruct (IH (S r) l') as (Hl & Hd & Hn & Hs).
    assert (Hbelow : Forall (λ i, k < i ∧ l !! i = Some false)%nat (omap id (searches connect (S r) n l'))).
    { eapply Forall_impl; [|exact Hl]. intros i Hi. cbn in Hi. rewrite Hj in Hi. case_bool_decide; [|split; [lia|done]].
      by destruct (l !! i). }
    split; [constructor; [done|]; by eapply Forall_impl; [|exact Hbelow]; intros ? []|]. split.
    + constructor; [|done]. intros Hin. rewrite Forall_forall in Hbelow.
      apply list_elem_of_In, Hbelow in Hin. lia.
    + split.
      * intros [|j] Hlt; [lia|]. cbn. apply Hn. lia.
      * intros [|j] [|j'] Hc Hlt; cbn in *; [done|done|lia|]. apply (Hs j); [done|lia].
  - apply initialize_None in E as [Hu _]. pose proof (searches_exhausted connect (S r) n l' Hu) as Hall.
    assert (Ho : omap id (searches connect (S r) n l') = []).
    { induction Hall as [|c cs -> _ IHc]; [done|exact IHc]. }
    assert (Hnone : ∀ j, (j < S n)%nat → (None :: searches connect (S r) n l') !! j = Some None).
    { intros [|j] Hlt; cbn; [done|]. apply searches_None; [done|lia]. }
    rewrite Ho. split; [constructor|]. split; [constructor|]. split; intros; apply Hnone; lia.
Qed.

(** C28: However often the client loses its upstream and whatever the
    outcomes of its attempts to connect, it does not search forever: every
    search returns, none chooses an upstream a second time, so there are at
    most as many successful searches as configured upstreams, and once a search
    has failed all later ones fail too and the client mines solo. *)
Theorem upstream_search_ends (connect : nat → nat → nat → bool) (upstreams rounds : nat) :
  let choices := searches connect 0 rounds (replicate upstreams false) in
  length choices = rounds ∧ NoDup (omap id choices) ∧ Forall (λ k, k < upstreams)%nat (omap id choices) ∧
  (∀ j, (upstreams ≤ j < rounds)%nat → choices !! j = Some None) ∧
  (∀ j j', choices !! j = Some None → (j ≤ j' < rounds)%nat → choices !! j' = Some None).
Proof.
  destruct (searches_choices connect 0 rounds (replicate upstreams false)) as (Hl & Hd & Hn & Hs).
  split; [apply searches_length|]. split; [exact Hd|]. split.
  - eapply Forall_impl; [|exact Hl]. intros k Hk. cbn in Hk. by apply lookup_replicate in Hk as [_ Hk].
  - split; [|exact Hs]. intros j Hj. apply Hn. split; [|lia].
    assert (Hu : untried (replicate upstreams false) = upstreams) by (clear; by induction upstreams; cbn; congruence).
    lia.
Qed.

(** ** Requests for channels *)

(** The request of a miner as the client keeps it, with the number of the
    connection; [None] when it is too long. *)
Definition fitting (l : bytes) : option bytes := if zlen l <=? 255 then Some l else None.
Definition tagged (request : Z * MinerMessage) : option OpenRequest :=
  match request with
  | (id, MinerOpenExtended x) =>
      user ← fitting (with_downstream_id (as_utf8_or_hex (oe_user_identity x)) id);
      Some (PendingExtended (oe_with (oe_request_id x) user x))
  | (id, MinerOpenStandard x) =>
      user ← fitting (with_downstream_id (debug_string (os_user_identity x)) id);
      Some (PendingStandard (os_with user x))
  | _ => None
  end.
(** The client's own request to the pool. *)
Definition pool_request (cfg : Config) (r : OpenRequest) : OpenExtendedMiningChannel :=
  match r with
  | PendingExtended x => oe_with 1 (cfg_user_identity cfg) x
  | PendingStandard x =>
      mkOpenExtended 1 (cfg_user_identity cfg) (os_nominal_hash_rate x) (os_max_target x) (cfg_min_extranonce_size cfg)
  end.
Fixpoint serve `{Bitcoin} `{TxCosts} `{MapIter} `{PairIter} (chk : bool) (cfg : Config) (clock : option Z)
    (l : list (Z * MinerMessage)) : ST ChannelManager JDCError unit :=
  match l with
  | [] => mret tt
  | (id, m) :: l => _ ← handle_downstream_message chk cfg clock id m; serve chk cfg clock l
  end.
Definition waiting_for (l : list OpenRequest) (s : ChannelManager) : ChannelManager :=
  set_state Pending (on_data (λ d, set_pending (pending_downstream_requests d ++ l) d) s).

Section requests.
Context `{Bitcoin} `{TxCosts} `{MapIter} `{PairIter} (chk : bool) (cfg : Config) (clock : option Z).

Lemma tagged_routed id m r s :
  tagged (id, m) = Some r → zlen (cfg_user_identity cfg) ≤ 255 →
  handle_downstream_message chk cfg clock id m s = route_open chk cfg clock r (Ok (pool_request cfg r)) s.
Proof.
  intros Ht Hc. apply Z.leb_le in Hc as Hle.
  destruct m; try done; cbn [handle_downstream_message tagged] in *; unfold try_b0255, fitting in *;
    (destruct (zlen (with_downstream_id _ _) <=? 255); [|done]); injection Ht as <-.
  - unfold mbind, ST_bind, lift. cbn zeta. rewrite (proj2 (Z.ltb_ge _ _) Hc). done.
  - unfold mbind, ST_bind, lift. cbn zeta. rewrite Hle. done.
Qed.
Lemma request_pending id m r s :
  tagged (id, m) = Some r → zlen (cfg_user_identity cfg) ≤ 255 → upstream_state s = Pending →
  handle_downstream_message chk cfg clock id m s = (Ok tt, waiting_for [r] s).
Proof.
  intros Ht Hc Hs. rewrite (tagged_routed _ _ _ _ Ht Hc). unfold route_open. rewrite st_gets_bind, Hs.
  unfold waiting_for. by destruct s; cbn in *; subst.
Qed.
Lemma serve_pending l rs s :
  mapM tagged l = Some rs → zlen (cfg_user_identity cfg) ≤ 255 → upstream_state s = Pending →
  serve chk cfg clock l s = (Ok tt, waiting_for rs s).
Proof.
  intros Hl Hc. apply mapM_Some in Hl. revert s. induction Hl as [|[id m] r l rs' Hr Hl IH]; intros s Hs; cbn [serve].
  - unfold waiting_for. destruct s as [d st md q sn]. cbn in *. subst.
    unfold on_data, set_state. cbn. rewrite app_nil_r. by destruct d.
  - unfold mbind, ST_bind. rewrite (request_pending _ _ _ _ Hr Hc Hs), IH by done.
    f_equal. unfold waiting_for, on_data, set_state. cbn. by rewrite <- app_assoc.
Qed.
End requests.

(** However many miners ask for a channel while the client has none
    with the pool, the client asks the pool for exactly one, on behalf of the
    first, and keeps every request, in order and marked with its connection, for
    when the pool has answered. *)
Theorem one_channel_request `{Bitcoin} `{TxCosts} `{MapIter} `{PairIter} (chk : bool) (cfg : Config)
    (clock : option Z) (l : list (Z * MinerMessage)) (r : OpenRequest) (rs : list OpenRequest) (s : ChannelManager) :
  upstream_state s = NoChannel → upstream_open (queues s) = true → zlen (cfg_user_identity cfg) ≤ 255 →
  mapM tagged l = Some (r :: rs) →
  serve chk cfg clock l s = (Ok tt, waiting_for (r :: rs) (emit (SentUpstream (OpenExtended (pool_request cfg r))) s)).
Proof.
  intros Hs Hq Hc Hl. apply mapM_Some in Hl. inversion Hl as [|[id m] ? l' ? Hr Hrs]; subst. cbn [serve].
  apply mapM_Some in Hrs.
  unfold mbind, ST_bind. rewrite (tagged_routed _ _ _ _ _ _ _ Hr Hc).
  assert (E : route_open chk cfg clock r (Ok (pool_request cfg r)) s
              = (Ok tt, waiting_for [r] (emit (SentUpstream (OpenExtended (pool_request cfg r))) s))).
  { unfold route_open. rewrite st_gets_bind, Hs. unfold keep_pending. rewrite st_modify_bind. cbn beta.
    unfold mbind, ST_bind, compare_and_set. cbn. rewrite Hs, bool_decide_eq_true_2 by done. unfold send.
    rewrite st_gets_bind. cbn. by rewrite Hq. }
  rewrite E, (serve_pending chk cfg clock l' rs) by done. f_equal. unfold waiting_for, on_data, set_state. cbn.
  by rewrite <- app_assoc.
Qed.

(** A message of a single miner can end the client for all miners: a
    custom job, a message the client has no use for and a request for a
    standard channel whose user identity has 83 bytes or more (the identity may
    have 255) are critical errors that leave the loop, which shuts the whole
    process down. *)
Theorem miner_message_stops_client `{Bitcoin} `{TxCosts} `{MapIter} `{PairIter} (chk : bool) (cfg : Config)
    (clock : option Z) (id : Z) (m : MinerMessage) (s : ChannelManager) :
  match m with
  | MinerSetCustomJob _ | MinerOther _ => ∃ e, turn chk cfg clock (FromMiner id m) s = (Break e, s)
  | MinerOpenStandard x => 83 ≤ zlen (os_user_identity x) → turn chk cfg clock (FromMiner id m) s = (Break BinarySv2, s)
  | _ => True
  end.
Proof.
  destruct m; try done; [|by eexists..]. intros Hl. unfold turn. cbn [handle_event handle_downstream_message].
  unfold try_b0255. rewrite (proj2 (Z.leb_gt _ _)); [done|].
  assert (Hd : ∀ n, 1 ≤ zlen (decimal n)).
  { intros n. destruct (decimal_loop_head 10 n []) as (d & l & E & _). unfold decimal. rewrite E, zlen_cons.
    pose proof (zlen_nonneg l). lia. }
  assert (Hc : ∀ l, 3 * zlen l - 2 ≤ zlen (comma_separated l)).
  { intros l. induction l as [|b [|b' l] IH]; [done| |].
    - cbn [comma_separated]. specialize (Hd (byte.unsigned b)). change (zlen [b]) with 1. lia.
    - change (comma_separated (b :: b' :: l)) with (decimal (byte.unsigned b) ++ text ", " ++ comma_separated (b' :: l)).
      rewrite !zlen_app, !zlen_cons in *. specialize (Hd (byte.unsigned b)). change (zlen (text ", ")) with 2. lia. }
  unfold with_downstream_id, debug_string. rewrite !zlen_app. specialize (Hd id). specialize (Hc (os_user_identity m)).
  change (zlen (text "Ref([")) with 5. change (zlen (text "])")) with 2. change (zlen [hash_sign]) with 1. lia.
Qed.

(** ** An example client *)

#[local] Instance first_iter : MapIter :=
  {| map_iter A m := map_to_list m; map_iter_perm A m := reflexivity (map_to_list m) |}.
#[local] Instance first_pairs : PairIter :=
  {| pair_iter A m := map_to_list m; pair_iter_perm A m := reflexivity (map_to_list m) |}.
#[local] Instance sample_costs : TxCosts :=
  {| txout_size o := 9 + zlen (script_pubkey o); total_sigop_cost _ := 0 |}.
#[local] Existing Instance model_bitcoin.

Definition sample_cfg : Config := mkConfig (text "jdc") 10 sample_spm (text "client") 4.
Definition sample_queues : Queues := mkQueues true true true true.
Definition nobody : ChannelManager :=
  mkManager (from_ok (mkManagerData ∅ no_extranonce no_extranonce 0 0 0 0 None None None ∅ ∅ ∅ ∅ [] ∅ None None [] None ∅)
    (ChannelManagerData_new (E := JDCError) 4 (outputs_serialize sample_outputs))) Solo SoloMining sample_queues [].
Definition sample_clock : option Z := Some 1700000000.
Inductive Action : Type := Turn_ (e : Event) | Accept | Mode (flags : Z) | Ready.
Definition act (a : Action) (s : ChannelManager) : option ChannelManager :=
  match a with
  | Turn_ e =>
      if renews_prefix e then None
      else match turn false sample_cfg sample_clock e s with (Continue, s) => Some s | _ => None end
  | Accept => match accept_downstream false s with (Ok _, s) => Some s | _ => None end
  | Mode flags => Some (handle_jds_setup_success flags s).2
  | Ready =>
      match upstream_channel (data s), pending_downstream_requests (data s),
            bool_decide (map_Forall (λ _ v, no_channels v) (downstream (data s))) with
      | None, [], true => match upstream_ready false sample_cfg s with (Ok _, s) => Some s | _ => None end
      | _, _, _ => None
      end
  end.
Definition run (l : list Action) (s : ChannelManager) : option ChannelManager :=
  foldl (λ s a, s ≫= act a) (Some s) l.
Definition sample_miner_open : MinerMessage :=
  MinerOpenExtended (mkOpenExtended 5 (text "worker") sample_rate (to_le_bytes 32 (2 ^ 255)) 8).
Definition pool_opened : OpenSuccess := mkOpenSuccess 1 3 (to_le_bytes 32 (2 ^ 255)) 24 (to_le_bytes 8 9).
Definition tx_data : TxData := mkTxData 7 [] [].
Definition sample_token (i : Z) : JdsMessage :=
  JmReply (AllocateMiningJobTokenSuccess i (to_le_bytes 4 i) (outputs_serialize sample_outputs)).
(** A miner, a declarator, a template and its tip, then the miner's channel,
    and the declaration of the template's job. *)
Definition connected_run : list Action :=
  [Accept; Mode 1; Ready; Turn_ (FromJds (sample_token 1)); Turn_ (FromTp (TpNewTemplate (sample_template true)));
   Turn_ (FromTp (TpSetNewPrevHash sample_prev)); Turn_ (FromMiner 1 sample_miner_open);
   Turn_ (FromPool (PmOpenExtendedSuccess pool_opened)) ].
Definition declared_run : list Action :=
  connected_run ++ [Turn_ (FromTp (TpTxDataSuccess tx_data));
   Turn_ (FromJds (JmReply (DeclareMiningJobSuccess 2 (to_le_bytes 4 8))));
   Turn_ (FromPool (PmSetCustomMiningJobSuccess (Client.mkCustomSuccess 3 2 77)))].
Definition working : ChannelManager := default nobody (run declared_run nobody).
Lemma act_step a s s' : act a s = Some s' → jdc_step false sample_cfg s s'.
Proof.
  destruct a as [e| |flags|]; cbn [act].
  - destruct (renews_prefix e) eqn:He; [done|]. destruct (turn _ _ _ _ _) as [[] s1] eqn:E; [|done..].
    intros [= <-]. by eapply step_turn.
  - destruct (accept_downstream _ _) as [[] s1] eqn:E; [|done..]. intros [= <-]. by eapply step_accept.
  - intros [= <-]. eapply step_mode, surjective_pairing.
  - destruct (upstream_channel _) eqn:Hu; [done|]. destruct (pending_downstream_requests _) eqn:Hp; [|done].
    case_bool_decide; [|done]. destruct (upstream_ready _ _ _) as [[[]| |] s1] eqn:E; [|done..].
    intros [= <-]. by eapply step_ready.
Qed.
Lemma run_steps l s s' : run l s = Some s' → rtc (jdc_step false sample_cfg) s s'.
Proof.
  unfold run. revert s. induction l as [|a l IH]; intros s; cbn [foldl]; [intros [= ->]; constructor|].
  change (Some s ≫= act a) with (act a s). destruct (act a s) as [s1|] eqn:Ha.
  - intros Hr. eapply rtc_l; [by apply act_step in Ha|by apply IH].
  - intros Hr. exfalso. assert (Hn : ∀ l, foldl (λ s a, s ≫= act a) (None : option ChannelManager) l = None) by (by induction l0).
    by rewrite Hn in Hr.
Qed.
Lemma nobody_initial : initial sample_cfg (outputs_serialize sample_outputs) sample_queues nobody.
Proof. eexists. split; vm_compute; reflexivity. Qed.
Lemma working_reached : rtc (jdc_step false sample_cfg) nobody working.
Proof. apply (run_steps declared_run). by vm_compute. Qed.

Definition miner_share (nonce : Z) : MinerMessage :=
  MinerSubmitExtended (mkSubmitExtended 1 4 1 nonce 1700000001 0x20000000 (to_le_bytes 20 77)).
Definition pool_share (nonce : Z) : SubmitSharesExtended :=
  mkSubmitExtended 3 1 77 nonce 1700000001 0x20000000 (to_be_bytes 4 1 ++ to_le_bytes 20 77).
Definition is_submit (m : Sent) : bool := match m with SentUpstream (Submit _) => true | _ => false end.
Lemma no_submit x l : forallb (negb ∘ is_submit) l = true → SentUpstream (Submit x) ∉ l.
Proof. rewrite forallb_forall. intros Hl Hx%list_elem_of_In. by apply Hl in Hx. Qed.
Definition submitted : ChannelManager :=
  (handle_downstream_message false sample_cfg sample_clock 1 (miner_share 2) working).2.
Lemma jdc_share_same_work_witness :
  list.last (sent submitted) = Some (SentUpstream (Submit (pool_share 2))) ∧ forwarded working (miner_share 2) (pool_share 2).
Proof.
  split; [by vm_compute|].
  apply (jdc_share_same_work false sample_cfg (outputs_serialize sample_outputs) sample_queues nobody working submitted
    sample_clock 1 (miner_share 2) (handle_downstream_message false sample_cfg sample_clock 1 (miner_share 2) working).1
    (pool_share 2) nobody_initial working_reached).
  - apply surjective_pairing.
  - by eexists.
  - apply last_Some_elem_of. vm_compute. reflexivity.
  - apply no_submit. vm_compute. reflexivity.
Defined.

(** A state with an upstream and no channel yet. *)
Definition ready : ChannelManager := default nobody (run [Accept; Accept; Mode 1; Ready] nobody).
Definition standard_open (n : nat) : MinerMessage :=
  MinerOpenStandard (mkOpenStandard 6 (replicate n (byte.of_Z 65)) sample_rate (to_le_bytes 32 (2 ^ 255))).
Definition two_requests : list (Z * MinerMessage) := [(1, sample_miner_open); (2, standard_open 3)].
Definition two_pending : list OpenRequest := default [] (mapM tagged two_requests).
Lemma one_channel_request_witness :
  ∃ r rs, two_pending = r :: rs ∧ length two_pending = 2%nat ∧
    serve false sample_cfg sample_clock two_requests ready
    = (Ok tt, waiting_for two_pending (emit (SentUpstream (OpenExtended (pool_request sample_cfg r))) ready)).
Proof.
  exists (PendingExtended (mkOpenExtended 5 (text "worker#1") sample_rate (to_le_bytes 32 (2 ^ 255)) 8)), (drop 1 two_pending).
  split; [by vm_compute|]. split; [by vm_compute|].
  apply (one_channel_request false sample_cfg sample_clock two_requests
    (PendingExtended (mkOpenExtended 5 (text "worker#1") sample_rate (to_le_bytes 32 (2 ^ 255)) 8)) (drop 1 two_pending) ready);
    vm_compute; first [reflexivity|discriminate].
Defined.
Lemma miner_message_stops_client_witness :
  turn false sample_cfg sample_clock (FromMiner 1 (standard_open 83)) working = (Break BinarySv2, working).
Proof.
  apply (miner_message_stops_client false sample_cfg sample_clock 1 (standard_open 83) working).
  vm_compute. discriminate.
Defined.
