(* ===== verification/JdClientDeclaration.v ===== *)
(** * Templates the job declarator client does not declare

    In the mode that declares whole templates, the transactions of a template
    are asked for when the template arrives, and the answer takes the template
    out of the store whether or not there is a channel to declare it for.  What
    the client does with the template and its shares afterwards. *)

From Stdlib Require Import String SpecFloat.
From stdpp Require Import gmap relations.
From S2P Require Import Prelude Utf8 SetupConnection Mining Difficulty Bitcoin Jobs JobFacts Channels ChannelProperties Vardiff PoolStats Downstream DownstreamFacts DownstreamProperties BitcoinModel ClientChannels JobDeclarator JdClient JdClientFacts JdClientProperties.
#[local] Open Scope Z_scope.
#[local] Open Scope list_scope.

Import Jdc.

(** A template that is not declared; [gone] when it is not waiting to be
    declared either. *)
Definition lost (gone : bool) (i : Z) (s : ChannelManager) : Prop :=
  jd_mode s = FullTemplate ∧
  ((gone = true → template_store (data s) !! i = None) ∧
   map_Forall (λ k t, nt_template_id t = i → k = i) (template_store (data s))) ∧
  template_id_to_upstream_job_id (data s) !! i = None ∧
  map_Forall (λ _ j, nt_template_id (dd_template j) ≠ i) (last_declare_job_store (data s)).

Section lost.
Context `{Bitcoin} `{TxCosts} `{MapIter} `{PairIter} (chk : bool) (cfg : Config) (gone : bool) (i : Z).
Notation LOST := (lost gone i).

Lemma lost_focus {K E A} (get : ChannelManager → option K) put (m : ST K E A) :
  (∀ k s, LOST s → LOST (put k s)) → keeps LOST (focus get put m).
Proof.
  intros Hp s Hs. unfold focus. destruct (get s) as [k|]; [|done]. destruct (m k) as [[] k']; by apply Hp.
Qed.
Lemma lost_standard {E A} did id (m : ST StandardChannel E A) : keeps LOST (on_standard did id m).
Proof. apply lost_focus. intros k s Hs. by destruct (miner did s). Qed.
Lemma lost_extended {E A} did id (m : ST ExtendedChannel E A) : keeps LOST (on_extended did id m).
Proof. apply lost_focus. intros k s Hs. by destruct (miner did s). Qed.
Lemma lost_group {E A} did (m : ST GroupChannel E A) : keeps LOST (on_group did m).
Proof. apply lost_focus. intros k s Hs. by destruct (miner did s). Qed.
Lemma lost_upstream {E A} (m : ST Client.ExtendedChannel E A) : keeps LOST (on_upstream m).
Proof. by apply lost_focus. Qed.
Lemma lost_factory get put m :
  (∀ f s, LOST s → LOST (on_data (put f) s)) → keeps LOST (take_factory get put m).
Proof. intros Hp. by apply lost_focus. Qed.
Lemma lost_zoom {T E A} (get : ChannelManager → T) put (m : ST T E A) :
  (∀ t s, LOST s → LOST (put t s)) → keeps LOST (zoom get put m).
Proof. intros Hp s Hs. unfold zoom. destruct (m (get s)) as [r t]. by apply Hp. Qed.
Lemma lost_send m : keeps LOST (send m).
Proof. unfold send. keeps_all. by apply keeps_modify. Qed.
Lemma lost_try_send m : keeps LOST (try_send m).
Proof. unfold try_send. keeps_all. by apply keeps_modify. Qed.
#[local] Hint Resolve lost_standard lost_extended lost_group lost_upstream lost_send lost_try_send : keeps.
Lemma lost_forward m : keeps LOST (forward m).
Proof. destruct m; cbn [forward]; keeps_all. Qed.
#[local] Hint Resolve lost_forward : keeps.
Lemma lost_forward_all l : keeps LOST (forward_all l).
Proof. induction l; cbn [forward_all]; keeps_all. Qed.
Lemma lost_run_local {K A} (m : ST K ChannelError A) k : keeps LOST (run_local m k).
Proof. intros s Hs. unfold run_local. by destruct (m k) as [[] ?]. Qed.
#[local] Hint Resolve lost_forward_all lost_run_local : keeps.

(** Steps that do not touch the templates. *)
Ltac lost_all :=
  keeps_all;
  try solve [apply lost_zoom; intros ?? Hs; exact Hs | apply lost_factory; intros ?? Hs; exact Hs
            | apply keeps_modify; intros ? Hs; exact Hs].

(** The mode is known. *)
Lemma lost_mode {B} (f : JdMode → JDC B) : keeps LOST (f FullTemplate) → keeps LOST (gets jd_mode ≫= f).
Proof. intros Hf s Hs. rewrite st_gets_bind, (proj1 Hs). by apply Hf. Qed.
Lemma lost_next_request : keeps LOST (next_request_id chk).
Proof. apply lost_zoom. intros ?? Hs. exact Hs. Qed.
Lemma lost_next_channel : keeps LOST (next_channel_id chk).
Proof. apply lost_zoom. intros ?? Hs. exact Hs. Qed.
Lemma lost_next_sequence : keeps LOST (next_sequence_number chk).
Proof. apply lost_zoom. intros ?? Hs. exact Hs. Qed.
#[local] Hint Resolve lost_next_request lost_next_channel lost_next_sequence : keeps.

(** ** Miners *)

Lemma lost_answer did ch seq v t n acc res : keeps LOST acc → keeps LOST (answer_share did ch seq v t n acc res).
Proof. intros Ha. unfold answer_share. lost_all. Qed.
Lemma lost_forward_share ch j n t v p e sol prev : keeps LOST (forward_share chk ch j n t v p e sol prev).
Proof. unfold forward_share. lost_all. Qed.
Lemma lost_count_share ch did : keeps LOST (count_share chk ch did).
Proof. unfold count_share. lost_all. Qed.
Lemma lost_share_context ch : keeps LOST (share_context ch).
Proof. unfold share_context. lost_all. Qed.
#[local] Hint Resolve lost_forward_share lost_count_share lost_share_context : keeps.
Lemma lost_allocate : keeps LOST (allocate_token chk cfg).
Proof.
  assert (Hr : keeps LOST (request_token chk cfg)) by (unfold request_token; lost_all).
  intros s Hs. specialize (Hr s Hs). unfold allocate_token. by destruct (request_token _ _ _) as [[] ?].
Qed.
#[local] Hint Resolve lost_allocate : keeps.
Lemma lost_client clock m : keeps LOST (handle_mining_message_from_client chk cfg clock m).
Proof.
  destruct m; cbn [handle_mining_message_from_client].
  - unfold handle_open_standard_mining_channel, ensure_group_channel, register_channel. lost_all.
  - unfold handle_open_extended_mining_channel, register_channel. lost_all.
  - unfold handle_update_channel. lost_all.
  - unfold handle_submit_shares_standard. lost_all. apply lost_answer. lost_all.
  - unfold handle_submit_shares_extended. lost_all. apply lost_answer. lost_all.
  - lost_all.
  - unfold handle_close_channel. lost_all.
  - lost_all.
Qed.
#[local] Hint Resolve lost_client : keeps.
Lemma lost_route clock r up : keeps LOST (route_open chk cfg clock r up).
Proof.
  unfold route_open, keep_pending, send_open_channel_request_to_mining_handler. lost_all.
  intros s Hs. unfold compare_and_set. by case_bool_decide.
Qed.
#[local] Hint Resolve lost_route : keeps.
Lemma lost_miner clock id m : keeps LOST (handle_downstream_message chk cfg clock id m).
Proof. destruct m; cbn [handle_downstream_message]; lost_all. Qed.
Lemma lost_pending clock l : keeps LOST (open_pending chk cfg clock l).
Proof. induction l; cbn [open_pending]; unfold send_open_channel_request_to_mining_handler; lost_all. Qed.
#[local] Hint Resolve lost_pending : keeps.

(** ** Pool and declarator *)

Lemma lost_after_connect clock mode t job : keeps LOST (after_connect chk cfg clock mode t job).
Proof. unfold after_connect. lost_all. Qed.
#[local] Hint Resolve lost_after_connect : keeps.
Lemma lost_success clock m : keeps LOST (handle_open_extended_mining_channel_success chk cfg clock m).
Proof.
  unfold handle_open_extended_mining_channel_success. keeps_step; [lost_all|]. keeps_step; [lost_all|].
  keeps_step. keeps_step; [|lost_all..]. cbn zeta. apply lost_mode. cbn match. lost_all.
Qed.
(** A job of the pool belongs to a template that was declared. *)
Lemma lost_custom_success m : keeps LOST (handle_set_custom_mining_job_success m).
Proof.
  intros s Hs. unfold handle_set_custom_mining_job_success. rewrite st_gets_bind.
  destruct (last_declare_job_store (data s) !! _) as [job|] eqn:Ej; [|done]. cbn zeta. rewrite st_modify_bind.
  assert (Hl : LOST (on_data (λ d,
            set_upstream_jobs (<[nt_template_id (dd_template job) := Client.cs_job_id m]> (template_id_to_upstream_job_id d))
              (set_declared
                 (filter (λ e, nt_template_id (dd_template e.2) ≠ nt_template_id (dd_template job))
                    (delete (Client.cs_request_id m) (last_declare_job_store d))) d)) s)).
  { destruct Hs as (Hm & Ht & Hu & Hd). split; [exact Hm|]. split; [exact Ht|]. split; cbn.
    - rewrite lookup_insert_ne; [exact Hu|]. exact (Hd _ _ Ej).
    - intros r j Hj. apply map_lookup_filter_Some in Hj as [Hj _]. apply lookup_delete_Some in Hj as [_ Hj].
      exact (Hd _ _ Hj). }
  revert Hl. cbn beta. generalize (on_data (λ d,
            set_upstream_jobs (<[nt_template_id (dd_template job) := Client.cs_job_id m]> (template_id_to_upstream_job_id d))
              (set_declared
                 (filter (λ e, nt_template_id (dd_template e.2) ≠ nt_template_id (dd_template job))
                    (delete (Client.cs_request_id m) (last_declare_job_store d))) d)) s) as s1.
  intros s1 Hs1. destruct (upstream_channel (data s)), (dd_set_custom_mining_job job); try exact Hs1.
  eapply (keeps_bind LOST); [apply lost_upstream|intros; apply keeps_ret|exact Hs1].
Qed.
#[local] Hint Resolve lost_success lost_custom_success : keeps.
Lemma lost_pool clock m : keeps LOST (handle_mining_message_from_server chk cfg clock m).
Proof.
  destruct m; cbn [handle_mining_message_from_server]; unfold fallback; lost_all.
  - unfold handle_upstream_close_channel, fallback. lost_all.
  - unfold handle_set_extranonce_prefix, renew_prefixes, renew_prefix. lost_all.
Qed.
Lemma lost_with_custom job r s :
  LOST s → LOST (on_data (λ d, set_declared (alter (with_custom_job job) r (last_declare_job_store d)) d) s).
Proof.
  intros (Hm & Ht & Hu & Hd). split; [exact Hm|]. split; [exact Ht|]. split; [exact Hu|]. cbn. intros r' j Hj.
  destruct (decide (r = r')) as [<-|Hne].
  - rewrite lookup_alter_eq in Hj. destruct (last_declare_job_store (data s) !! r) eqn:E; [|done].
    injection Hj as <-. exact (Hd _ _ E).
  - rewrite lookup_alter_ne in Hj by done. exact (Hd _ _ Hj).
Qed.
Lemma lost_jds m : keeps LOST (handle_job_declaration_message_from_server chk m).
Proof.
  destruct m as [[]|]; cbn [handle_job_declaration_message_from_server]; lost_all.
  - unfold handle_allocate_mining_job_token_success. lost_all.
  - unfold handle_declare_mining_job_success. lost_all. apply keeps_modify, lost_with_custom.
  - unfold handle_provide_missing_transactions. lost_all.
Qed.

(** ** Templates *)

Lemma lost_prev_hash m : keeps LOST (handle_set_new_prev_hash chk cfg m).
Proof.
  assert (Hactive : ∀ s, LOST s → LOST (on_data (λ d, set_declared (activate_declared m <$> last_declare_job_store d)
        (set_prev_hash (Some m) d)) s)).
  { intros s (Hm & Ht & Hu & Hd). split; [exact Hm|]. split; [exact Ht|]. split; [exact Hu|].
    cbn. intros r j Hj. rewrite lookup_fmap in Hj. destruct (last_declare_job_store (data s) !! r) eqn:E; [|done].
    injection Hj as <-. unfold activate_declared. destruct (_ && _); exact (Hd _ _ E). }
  unfold handle_set_new_prev_hash, update_upstream_tip, downstream_prev_hash, active_id.
  keeps_step; [lost_all|]. keeps_step; [lost_all|]. apply lost_mode. cbn match. cbn zeta.
  keeps_step; [lost_all|]. keeps_step; [by apply keeps_modify|]. keeps_step; [lost_all|]. keeps_step; [lost_all|].
  keeps_step; [|lost_all]. destruct (upstream_channel _); lost_all.
Qed.
Lemma lost_downstream_template t outs id : keeps LOST (downstream_template chk t outs id).
Proof.
  unfold downstream_template. keeps_step; [unfold group_job; lost_all|]. keeps_step.
  - unfold template_custom_job. keeps_step; [lost_all|]. apply lost_mode. cbn match.
    destruct (upstream_channel _), (nt_future_template t); lost_all.
  - unfold standard_template, extended_template, record_job. lost_all.
Qed.
#[local] Hint Resolve lost_prev_hash lost_downstream_template : keeps.
Lemma lost_new_template t : (gone = true → nt_template_id t ≠ i) → keeps LOST (handle_new_template chk cfg t).
Proof.
  intros Hi. unfold handle_new_template. keeps_step.
  { apply keeps_modify. intros s (Hm & [Ht Hk] & Hr). split; [exact Hm|]. split; [|exact Hr]. cbn. split.
    - intros Hg. rewrite lookup_insert_ne by auto. by apply Ht.
    - by apply map_Forall_insert_2. }
  lost_all.
Qed.
(** The entry of a declaration is for the template that was stored. *)
Lemma lost_declare r tk t txids x re txs : nt_template_id t ≠ i → keeps LOST (declare_job chk r tk t txids x re txs).
Proof.
  intros Hi. unfold declare_job. lost_all. apply keeps_modify. intros s (Hm & Ht & Hu & Hd).
  split; [exact Hm|]. split; [exact Ht|]. split; [exact Hu|]. by apply map_Forall_insert_2.
Qed.
Lemma lost_lift {A B} (r : result JDCError A) (f : A → JDC B) :
  (∀ a, r = Ok a → keeps LOST (f a)) → keeps LOST (lift r ≫= f).
Proof. intros Hf s Hs. unfold mbind, ST_bind, lift. destruct r; [by apply Hf|done|done]. Qed.
(** The answer with the transactions: the template leaves the store first. *)
Definition after_removal (m : TxData) (d : ChannelManagerData) : JDC unit :=
  let template := template_store d !! td_template_id m in
  request_id ← next_request_id chk;
  _ ← allocate_token chk cfg;
  token ← lift (ok_or (allocate_tokens d) TokenNotFound);
  template ← lift (ok_or template (TemplateNotFound (td_template_id m)));
  outputs ← lift (deserialize_coinbase_outputs (tk_coinbase_outputs token));
  outputs ← lift (set_first_value (nt_coinbase_tx_value_remaining template) outputs);
  txs ← lift (unwrap (mapM tx_deserialize (td_transaction_list m)));
  let txids := compute_txid <$> txs in
  _ ← (if 65535 <? zlen txids then throw BinarySv2 else mret tt);
  let waits := nt_future_template template &&
    match last_new_prev_hash d with
    | Some prev => negb (sp_template_id prev =? nt_template_id template)
    | None => true
    end in
  job ← declare_job chk request_id (tk_mining_job_token token) template txids (td_excess_data m)
    (outputs_serialize outputs) (td_transaction_list m);
  match waits, job with
  | false, Some m => try_send (SentJd (RequestDeclareMiningJob m))
  | _, _ => mret tt
  end.
Definition remove_template (k : Z) (s : ChannelManager) : ChannelManager :=
  on_data (λ d, set_template_store (delete k (template_store d)) d) s.
Lemma tx_data_split m s :
  handle_request_tx_data_success chk cfg m s = after_removal m (data s) (remove_template (td_template_id m) s).
Proof. unfold handle_request_tx_data_success. by rewrite st_gets_bind, st_modify_bind. Qed.
Lemma lost_remove k s : LOST s → LOST (remove_template k s).
Proof.
  intros (Hm & [Ht Hk] & Hr). split; [exact Hm|]. split; [|exact Hr]. cbn. split; [|by apply map_Forall_delete].
  intros Hg. apply lookup_delete_None. by right; apply Ht.
Qed.
Lemma lost_tx_data m : (gone = true ∨ td_template_id m ≠ i) → keeps LOST (handle_request_tx_data_success chk cfg m).
Proof.
  intros Hi s Hs. rewrite tx_data_split.
  assert (Hk : keeps LOST (after_removal m (data s))); [|by apply Hk, lost_remove].
  unfold after_removal. do 3 (keeps_step; [lost_all|]). apply lost_lift. intros t Et. apply ok_or_Ok in Et.
  assert (Hne : nt_template_id t ≠ i).
  { destruct Hs as (_ & [Ht Hk] & _). intros Heq. pose proof (Hk _ _ Et Heq) as Hid.
    destruct Hi as [Hg|Hi]; [|done]. specialize (Ht Hg). by rewrite <- Hid, Et in Ht. }
  pose proof (λ r tk txids x re txs, lost_declare r tk t txids x re txs Hne). lost_all.
Qed.
Lemma lost_tp m :
  match m with TpNewTemplate t => gone = true → nt_template_id t ≠ i
             | TpTxDataSuccess m => gone = true ∨ td_template_id m ≠ i | _ => True end →
  keeps LOST (handle_template_distribution_message_from_server chk cfg m).
Proof.
  destruct m; intros Hm; cbn [handle_template_distribution_message_from_server].
  - by apply lost_new_template.
  - apply lost_prev_hash.
  - by apply lost_tx_data.
  - unfold handle_request_tx_data_error. lost_all.
  - lost_all.
Qed.
Lemma lost_vardiff clocks : keeps LOST (run_vardiff chk clocks).
Proof.
  unfold run_vardiff. keeps_step; [lost_all|]. keeps_step; [|lost_all]. apply keeps_for_each. intros [[id did] v].
  unfold vardiff_entry. destruct (clocks id) as [clock clock'].
  apply keeps_bind; [|intros l; apply keeps_bind; [|intros; apply keeps_ret]]; intros s Hs.
  - destruct (v ← miner did s; _); [|done]. destruct (vardiff _ !! _); [|done].
    destruct (run_vardiff_on _ _ _ _ _ _ _ _ _ _ _) as [[r vd'] c'].
    pose proof (lost_standard (E := unit) did id (modify (λ _, c')) s Hs) as Hf. by destruct (on_standard _ _ _ s).
  - destruct (v ← miner did s; _); [|done]. destruct (vardiff _ !! _); [|done].
    destruct (run_vardiff_on _ _ _ _ _ _ _ _ _ _ _) as [[r vd'] c'].
    pose proof (lost_extended (E := unit) did id (modify (λ _, c')) s Hs) as Hf. by destruct (on_extended _ _ _ s).
Qed.
Lemma lost_event clock e :
  match e with FromTp (TpNewTemplate t) => gone = true → nt_template_id t ≠ i
             | FromTp (TpTxDataSuccess m) => gone = true ∨ td_template_id m ≠ i | _ => True end →
  keeps LOST (handle_event chk cfg clock e).
Proof.
  destruct e as [id m|m|m|m|id|outs|clocks]; intros He; cbn [handle_event].
  - apply lost_miner.
  - apply lost_pool.
  - apply lost_jds.
  - apply lost_tp. by destruct m.
  - unfold remove_downstream. apply keeps_modify. intros s Hs. unfold lost. cbn. by destruct (downstream (data s) !! id).
  - keeps_step; [lost_all|]. keeps_step; [lost_all|]. apply lost_lift. intros d Ed. apply keeps_modify. intros s (Hm & _).
    unfold reset in Ed. destruct (fresh_factory _); [|done..]. injection Ed as <-. split; [exact Hm|].
    cbn. split; [split; [done|apply map_Forall_empty]|]. split; [done|apply map_Forall_empty].
  - apply lost_vardiff.
Qed.
End lost.

(** ** The template that came too early *)

(** Turns of the loop with events of a kind. *)
Definition turns `{Bitcoin} `{TxCosts} `{MapIter} `{PairIter} (chk : bool) (cfg : Config) (P : Event → Prop)
    (s s' : ChannelManager) : Prop :=
  ∃ clock e, P e ∧ turn chk cfg clock e s = (Continue, s').
Definition brings_data (i : Z) (e : Event) : Prop :=
  match e with FromTp (TpTxDataSuccess m) => td_template_id m = i | _ => False end.
Definition brings_template (i : Z) (e : Event) : Prop :=
  match e with FromTp (TpNewTemplate t) => nt_template_id t = i | _ => False end.
(** The client does not know of the template. *)
Definition unknown (i : Z) (s : ChannelManager) : Prop :=
  jd_mode s = FullTemplate ∧ template_store (data s) !! i = None ∧
  map_Forall (λ k t, nt_template_id t = k) (template_store (data s)) ∧
  template_id_to_upstream_job_id (data s) !! i = None ∧
  map_Forall (λ _ j, nt_template_id (dd_template j) ≠ i) (last_declare_job_store (data s)).

Section early.
Context `{Bitcoin} `{TxCosts} `{MapIter} `{PairIter} (chk : bool) (cfg : Config) (i : Z).

Lemma unknown_lost s : unknown i s → lost false i s.
Proof.
  intros (Hm & _ & Hk & Hr). split; [exact Hm|]. split; [|exact Hr]. split; [done|]. intros k t Ht Hid.
  by rewrite <- (Hk _ _ Ht).
Qed.
Lemma turn_state clock e s s' :
  turn chk cfg clock e s = (Continue, s') → s' = (handle_event chk cfg clock e s).2.
Proof. unfold turn. destruct (handle_event _ _ _ _ _) as [r s1]. by intros [= _ <-]. Qed.
Lemma lost_turns gone (P : Event → Prop) s s' :
  (∀ e, P e → match e with FromTp (TpNewTemplate t) => gone = true → nt_template_id t ≠ i
                         | FromTp (TpTxDataSuccess m) => gone = true ∨ td_template_id m ≠ i | _ => True end) →
  rtc (turns chk cfg P) s s' → lost gone i s → lost gone i s'.
Proof.
  intros HP Hr Hs. induction Hr as [|s1 s2 s3 (clock & e & He & E) _ IH]; [done|]. apply IH.
  rewrite (turn_state _ _ _ _ E). apply lost_event; [by apply HP|done].
Qed.
(** Without a job factory nothing is declared. *)
Lemma tx_data_early m s :
  td_template_id m = i → lost false i s → job_factory (data s) = None →
  let s' := (handle_request_tx_data_success chk cfg m s).2 in
  lost true i s' ∧ ∀ d, SentJd (RequestDeclareMiningJob d) ∈ sent s' → SentJd (RequestDeclareMiningJob d) ∈ sent s.
Proof.
  intros Hi Hs Hf s'. unfold s'. clear s'. rewrite tx_data_split.
  set (I := λ s' : ChannelManager, (lost true i s' ∧ job_factory (data s') = None) ∧
    ∀ d, SentJd (RequestDeclareMiningJob d) ∈ sent s' → SentJd (RequestDeclareMiningJob d) ∈ sent s).
  assert (Hk : keeps I (after_removal chk cfg m (data s))).
  { assert (Hnext : keeps I (next_request_id chk)).
    { intros s' Hs'. unfold next_request_id, next_id, zoom. by destruct (Id_next _ _). }
    assert (Halloc : keeps I (allocate_token chk cfg)).
    { assert (Hr : keeps I (request_token chk cfg)).
      { unfold request_token, send. keeps_all. apply keeps_modify. intros s' [Hs' Hd]. split; [done|]. intros d. cbn.
        intros [Hin|Hin%list_elem_of_singleton]%elem_of_app; [by apply Hd|done]. }
      intros s' Hs'. specialize (Hr s' Hs'). unfold allocate_token. by destruct (request_token _ _ _) as [[] ?]. }
    assert (Htail : ∀ (waits : bool) r tk t txids x re txs, keeps I (job ← declare_job chk r tk t txids x re txs;
      match waits, job with false, Some m => try_send (SentJd (RequestDeclareMiningJob m)) | _, _ => mret tt end)).
    { intros waits r tk t txids x re txs s' Hs'. unfold declare_job. unfold mbind at 1, ST_bind at 1. rewrite st_gets_bind.
      rewrite (proj2 (proj1 Hs')). by destruct waits. }
    unfold after_removal. repeat (cbn beta zeta; first [apply Htail|keeps_step|solve [eauto with keeps]]). }
  assert (Hrm : I (remove_template (td_template_id m) s)).
  { split; [|done]. split; [|exact Hf]. destruct Hs as (Hm & [_ Hs] & Hr). split; [exact Hm|]. split; [|exact Hr].
    cbn. split; [intros _; rewrite Hi; apply lookup_delete_eq|by apply map_Forall_delete]. }
  destruct (Hk _ Hrm) as [[? _] ?]. done.
Qed.
(** A second answer finds no template. *)
Lemma tx_data_again m s r s' :
  td_template_id m = i → lost true i s → handle_request_tx_data_success chk cfg m s = (r, s') →
  r ≠ Ok tt ∧ ∀ d, SentJd (RequestDeclareMiningJob d) ∈ sent s' → SentJd (RequestDeclareMiningJob d) ∈ sent s.
Proof.
  intros Hi Hs E. rewrite tx_data_split in E.
  set (I := λ s' : ChannelManager, ∀ d, SentJd (RequestDeclareMiningJob d) ∈ sent s' → SentJd (RequestDeclareMiningJob d) ∈ sent s).
  assert (HI : I (remove_template (td_template_id m) s)) by (intros d Hd; exact Hd).
  assert (Hnext : keeps I (next_request_id chk)).
  { intros s1 Hs1. unfold next_request_id, next_id, zoom. by destruct (Id_next _ _). }
  assert (Halloc : keeps I (allocate_token chk cfg)).
  { assert (Hr : keeps I (request_token chk cfg)).
    { unfold request_token, send. keeps_all. apply keeps_modify. intros s1 Hs1 d. cbn. intros Hd. apply Hs1.
      apply elem_of_app in Hd as [Hd|Hd%list_elem_of_singleton]; [done|done]. }
    intros s1 Hs1. specialize (Hr s1 Hs1). unfold allocate_token. by destruct (request_token _ _ _) as [[] ?]. }
  unfold after_removal in E. rewrite Hi, (proj1 (proj1 (proj2 Hs)) eq_refl) in E. cbn [ok_or] in E.
  specialize (Hnext _ HI). apply bind_cases in E as [(n & s1 & E1 & E)|[(e & E1 & ->)|(E1 & ->)]];
    rewrite Hi, E1 in Hnext; [|done..].
  specialize (Halloc s1 Hnext). apply bind_cases in E as [(n' & s2 & E2 & E)|[(e & E2 & ->)|(E2 & ->)]];
    rewrite E2 in Halloc; [|done..].
  unfold mbind, ST_bind, lift in E. destruct (ok_or _ _); by injection E as <- <-.
Qed.
(** A share of the template's jobs stays with the client. *)
Lemma lost_share clock id m s r s' ch j w x :
  lost true i s → share_fields m = Some (ch, j, w) →
  downstream_channel_id_and_job_id_to_template_id (data s) !! (ch, j) = Some i →
  handle_downstream_message chk cfg clock id m s = (r, s') →
  SentUpstream (Submit x) ∉ sent s → SentUpstream (Submit x) ∉ sent s'.
Proof.
  intros (_ & _ & Hj & _) Hm Ht E Hnew Hin.
  assert (Hpass : ∀ p e n t v, ¬ passed s ch j p e x n t v).
  { intros p e n t v (u & job & parts & seq & _ & Ej & _). unfold upstream_job in Ej. rewrite Ht in Ej.
    cbn in Ej. by rewrite Hj in Ej. }
  destruct m; try done; injection Hm as <- <- _;
    cbn [handle_downstream_message handle_mining_message_from_client] in E.
  - apply (submit_standard_passed chk _ _ _ _ x) in E as (? & ? & ? & _ & _ & _ & Hp); [|done..]. by eapply Hpass.
  - apply (submit_extended_passed chk _ _ _ _ x) in E as (? & ? & ? & ? & _ & _ & _ & _ & Hp); [|done..]. by eapply Hpass.
Qed.
End early.

(** C13: A template is lost whose transactions arrive in full-template mode while
    the client has no job factory yet, as before its first channel to a pool is
    opened: the answer takes the template out of the store and declares nothing.
    From then on, whatever happens until the template provider sends the template
    again, an answer for it fails and sends the declarator no declaration, and no
    share that a miner finds on a job of that template is sent to the pool. *)
Theorem early_template_not_credited `{Bitcoin} `{TxCosts} `{MapIter} `{PairIter} (chk : bool) (cfg : Config)
    (i : Z) (s0 s1 s2 s3 : ChannelManager) (clock : option Z) (m : TxData) :
  unknown i s0 → rtc (turns chk cfg (λ e, ¬ brings_data i e)) s0 s1 →
  td_template_id m = i → job_factory (data s1) = None →
  turn chk cfg clock (FromTp (TpTxDataSuccess m)) s1 = (Continue, s2) →
  rtc (turns chk cfg (λ e, ¬ brings_template i e)) s2 s3 →
  (∀ d, SentJd (RequestDeclareMiningJob d) ∈ sent s2 → SentJd (RequestDeclareMiningJob d) ∈ sent s1) ∧
  (∀ m' r s', td_template_id m' = i → handle_request_tx_data_success chk cfg m' s3 = (r, s') →
     r ≠ Ok tt ∧ ∀ d, SentJd (RequestDeclareMiningJob d) ∈ sent s' → SentJd (RequestDeclareMiningJob d) ∈ sent s3) ∧
  (∀ clock id m' r s' ch j w x, share_fields m' = Some (ch, j, w) →
     downstream_channel_id_and_job_id_to_template_id (data s3) !! (ch, j) = Some i →
     handle_downstream_message chk cfg clock id m' s3 = (r, s') →
     SentUpstream (Submit x) ∉ sent s3 → SentUpstream (Submit x) ∉ sent s').
Proof.
  intros Hs0 H01 Hi Hf E H23. apply unknown_lost in Hs0. apply (lost_turns chk cfg i false) in H01; [| |done].
  - apply turn_state in E. cbn [handle_event handle_template_distribution_message_from_server] in E.
    destruct (tx_data_early chk cfg i m s1 Hi H01 Hf) as [H2' Hd]. rewrite <- E in H2', Hd.
    apply (lost_turns chk cfg i true) in H23; [| |done].
    + split; [exact Hd|]. split.
      * intros m' r s' Hm' E'. by apply (tx_data_again chk cfg i m').
      * intros clock' id m' r s' ch j w x Hm' Ht E' Hn. exact (lost_share chk cfg i clock' id m' s3 r s' ch j w x H23 Hm' Ht E' Hn).
    + intros e He. destruct e as [| | |[]| | |]; try done. by left.
  - intros e He. destruct e as [| | |[]| | |]; try done. by right.
Qed.

(** ** An example *)

#[local] Existing Instance first_iter.
#[local] Existing Instance first_pairs.
#[local] Existing Instance sample_costs.
#[local] Existing Instance model_bitcoin.

Fixpoint play (l : list Event) (s : ChannelManager) : option ChannelManager :=
  match l with
  | [] => Some s
  | e :: l => match turn false sample_cfg sample_clock e s with (Continue, s) => play l s | _ => None end
  end.
Lemma play_turns (P : Event → Prop) l s s' :
  Forall P l → play l s = Some s' → rtc (turns false sample_cfg P) s s'.
Proof.
  intros Hl. revert s. induction Hl as [|e l He _ IH]; intros s; cbn [play]; [intros [= ->]; constructor|].
  destruct (turn _ _ _ _ _) as [[] s1] eqn:E; [|done..]. intros Hs. eapply rtc_l; [by exists sample_clock, e|by apply IH].
Qed.
Definition played (l : list Event) (s : ChannelManager) : ChannelManager := default nobody (play l s).
(** A declarator is connected, a template and its tip arrive. *)
Definition idle : ChannelManager :=
  default nobody (run [Accept; Mode 1; Ready; Turn_ (FromJds (sample_token 1))] nobody).
Definition templated_run : list Event :=
  [FromTp (TpNewTemplate (sample_template true)); FromTp (TpSetNewPrevHash sample_prev)].
Definition templated : ChannelManager := played templated_run idle.
(** Its transactions arrive, and only then a miner opens the channel. *)
Definition early : ChannelManager :=
  (turn false sample_cfg sample_clock (FromTp (TpTxDataSuccess tx_data)) templated).2.
Definition opening_run : list Event :=
  [FromMiner 1 sample_miner_open; FromPool (PmOpenExtendedSuccess pool_opened)].
Definition opened : ChannelManager := played opening_run early.
Definition uncredited : ChannelManager :=
  (handle_downstream_message false sample_cfg sample_clock 1 (miner_share 2) opened).2.
Lemma idle_unknown : unknown 7 idle.
Proof. split_and!; try (vm_compute; reflexivity); apply map_Forall_empty. Qed.
Lemma early_template_not_credited_witness :
  upstream_state opened = Connected ∧ list.last (sent uncredited) = Some (SentDownstream 1 (ToMiner (SubmitSharesSuccess 1 4 1 5999999975425))) ∧
  ((handle_request_tx_data_success false sample_cfg tx_data opened).1 = Err (TemplateNotFound 7)) ∧
  (handle_request_tx_data_success false sample_cfg tx_data opened).1 ≠ Ok tt ∧
  SentUpstream (Submit (pool_share 2)) ∉ sent uncredited.
Proof.
  split; [by vm_compute|]. split; [by vm_compute|]. split; [by vm_compute|].
  destruct (early_template_not_credited false sample_cfg 7 idle templated early opened sample_clock tx_data) as (_ & Hdata & Hshare).
  - exact idle_unknown.
  - apply (play_turns _ templated_run); [by repeat constructor; intros ?|vm_compute; reflexivity].
  - reflexivity.
  - vm_compute. reflexivity.
  - vm_compute. reflexivity.
  - apply (play_turns _ opening_run); [by repeat constructor; intros ?|vm_compute; reflexivity].
  - split.
    + apply (Hdata tx_data _ (handle_request_tx_data_success false sample_cfg tx_data opened).2); [reflexivity|].
      apply surjective_pairing.
    + apply (Hshare sample_clock 1 (miner_share 2)
        (handle_downstream_message false sample_cfg sample_clock 1 (miner_share 2) opened).1 uncredited 1 1
        (2, 1700000001, 0x20000000) (pool_share 2)); [reflexivity|vm_compute; reflexivity|apply surjective_pairing|].
      apply no_submit. vm_compute. reflexivity.
Defined.
