(* ===== verification/Wallet.v ===== *)
(** * The wallet of the translator

    [roles/translator/src/lib]: the sweep that turns paid quotes into ehash
    ([mod.rs], [process_stored_quotes]), what the wallet is told about quotes
    ([sv2/channel_manager/channel_manager.rs]) and the faucet that gives tokens
    away ([faucet_api.rs]).  The wallet itself is the [cdk] package: its
    operations are parameters that act on a state of their own. *)

From Stdlib Require Import String.
From stdpp Require Import gmap.
From S2P Require Import Prelude.
#[local] Open Scope Z_scope.
#[local] Open Scope list_scope.

Module Wallet.

(** ** The wallet package *)

(** The answer of the mint about a quote, an entry of a batch. *)
Record QuoteResponse (Id : Type) : Type := mkResponse {
  qr_amount : option Z;
  qr_amount_issued : Z;
  qr_keyset_id : Id }.
Record MiningShareBatchEntry (Id : Type) : Type := mkEntry {
  be_quote_id : bytes;
  be_amount : Z;
  be_keyset_id : Id }.
#[global] Arguments mkResponse {Id}.
#[global] Arguments qr_amount {Id}.
#[global] Arguments qr_amount_issued {Id}.
#[global] Arguments qr_keyset_id {Id}.
#[global] Arguments mkEntry {Id}.
#[global] Arguments be_quote_id {Id}.
#[global] Arguments be_amount {Id}.
#[global] Arguments be_keyset_id {Id}.

(** The wallet [W], its errors [E], keyset identifiers and secret keys.  A
    proof stands for its amount. *)
Class CdkWallet (W E Id Key : Type) : Type := {
  get_unpaid_mint_quotes : W → result E (list bytes);
  mint_quote_state_mining_share : bytes → W → result E (QuoteResponse Id) * W;
  is_fully_issued : QuoteResponse Id → bool;
  mint_mining_share_batch : list (MiningShareBatchEntry Id) → Key → W → result E (list Z) * W;
  total_balance : W → result E Z;
  swap_from_unspent : Z → W → result E (list Z) * W;
  token_string : list Z → bytes;
  key_hex_decode : bytes → option bytes;
  SecretKey_from_slice : bytes → option Key }.
(** Iteration over the batches of the keysets. *)
Class KeysetIter (Id : Type) `{Countable Id} : Type := {
  keyset_iter {A : Type} : gmap Id A → list (Id * A);
  keyset_iter_perm {A : Type} (m : gmap Id A) : keyset_iter m ≡ₚ map_to_list m }.

Section wallet.
Context {W E Id Key : Type} `{CdkWallet W E Id Key} `{Countable Id} `{!KeysetIter Id}.
Context (overflow_checks : bool).
Notation SWEEP := (ST W unit).
Notation Entry := (MiningShareBatchEntry Id).

(** [a + b] on [u64]. *)
Definition add_u64 {F} (a b : Z) : result F Z :=
  if overflow_checks then add_chk 64 a b else Ok (wrap 64 (a + b)).
Fixpoint sum_u64 {F} (acc : Z) (l : list Z) : result F Z :=
  match l with
  | [] => Ok acc
  | a :: l => acc ← add_u64 acc a; sum_u64 acc l
  end.

(** ** The sweep *)

(** What a quote adds to the batch of its keyset. *)
Definition outstanding_entry (quote_id : bytes) (r : QuoteResponse Id) : option Entry :=
  if is_fully_issued r then None
  else match qr_amount r with
       | None => None
       | Some total_amount =>
           if total_amount <=? qr_amount_issued r then None
           else
             let amount_to_mint := total_amount - qr_amount_issued r in
             if amount_to_mint =? 0 then None
             else Some (mkEntry quote_id amount_to_mint (qr_keyset_id r))
       end.
(** [entry(keyset_id).or_default().push(..)]. *)
Definition push_entry (e : Entry) (g : gmap Id (list Entry)) : gmap Id (list Entry) :=
  <[be_keyset_id e := default [] (g !! be_keyset_id e) ++ [e]]> g.
Fixpoint collect_quotes (quote_ids : list bytes) (quotes_by_keyset : gmap Id (list Entry))
    : SWEEP (gmap Id (list Entry)) :=
  match quote_ids with
  | [] => mret quotes_by_keyset
  | quote_id :: quote_ids => λ w,
      match mint_quote_state_mining_share quote_id w with
      | (Ok r, w) =>
          collect_quotes quote_ids
            (match outstanding_entry quote_id r with
             | Some e => push_entry e quotes_by_keyset
             | None => quotes_by_keyset
             end) w
      | (Err _, w) => collect_quotes quote_ids quotes_by_keyset w
      | (Panic, w) => (Panic, w)
      end
  end.
(** A batch that fails is left for the next sweep. *)
Fixpoint mint_batches (secret_key : Key) (batches : list (Id * list Entry)) (total_minted : Z)
    : SWEEP Z :=
  match batches with
  | [] => mret total_minted
  | (_, entries) :: batches => λ w,
      match mint_mining_share_batch entries secret_key w with
      | (Ok proofs, w) =>
          match (batch_amount ← sum_u64 0 proofs; add_u64 total_minted batch_amount) with
          | Ok total_minted => mint_batches secret_key batches total_minted w
          | Err e => (Err e, w)
          | Panic => (Panic, w)
          end
      | (Err _, w) => mint_batches secret_key batches total_minted w
      | (Panic, w) => (Panic, w)
      end
  end.
Definition parse_secret_key (locking_privkey : option bytes) : option Key :=
  privkey_hex ← locking_privkey; privkey_bytes ← key_hex_decode privkey_hex; SecretKey_from_slice privkey_bytes.
(** Every failure of the wallet is logged; the amount minted is returned. *)
Definition process_stored_quotes (locking_privkey : option bytes) : SWEEP Z := λ w,
  match get_unpaid_mint_quotes w with
  | Panic => (Panic, w)
  | Err _ | Ok [] => (Ok 0, w)
  | Ok quote_ids =>
      (quotes_by_keyset ← collect_quotes quote_ids ∅;
       if bool_decide (quotes_by_keyset = ∅) then mret 0
       else match parse_secret_key locking_privkey with
            | None => mret 0
            | Some secret_key => mint_batches secret_key (keyset_iter quotes_by_keyset) 0
            end) w
  end.
(** A number of turns of the sweeper's loop. *)
Fixpoint sweeps (n : nat) (locking_privkey : option bytes) : SWEEP unit :=
  match n with
  | O => mret tt
  | S n => _ ← process_stored_quotes locking_privkey; sweeps n locking_privkey
  end.
(** A notification has the wallet ask for the quote, and so store it. *)
Definition store_quote (quote_id : bytes) : SWEEP unit := λ w,
  match mint_quote_state_mining_share quote_id w with
  | (Panic, w) => (Panic, w)
  | (_, w) => (Ok tt, w)
  end.

(** ** The faucet *)

(** [last_request], in nanoseconds of a clock that does not run backwards. *)
Record RateLimiter : Type := mkLimiter {
  last_request : option Z;
  timeout : Z }.
Definition RateLimiter_new (timeout_secs : Z) : RateLimiter := mkLimiter None (timeout_secs * 10 ^ 9).
Definition check_rate_limit (now : Z) : ST RateLimiter Z unit := λ l,
  let limited :=
    match last_request l with
    | Some last =>
        let elapsed := saturating_sub now last in
        if elapsed <? timeout l then Some (timeout l - elapsed) else None
    | None => None
    end in
  match limited with
  | Some remaining => (Err remaining, l)
  | None => (Ok tt, mkLimiter (Some now) (timeout l))
  end.

Definition faucet_amount : Z := 32.
Inductive MintFailure : Type := WalletError | InsufficientBalance | SwapFailed.
Definition create_mint_token : ST W MintFailure bytes := λ w,
  match total_balance w with
  | Panic => (Panic, w)
  | Err _ => (Err WalletError, w)
  | Ok balance =>
      if balance <? faucet_amount then (Err InsufficientBalance, w)
      else match swap_from_unspent faucet_amount w with
           | (Ok proofs, w) => (Ok (token_string proofs), w)
           | (Err _, w) => (Err SwapFailed, w)
           | (Panic, w) => (Panic, w)
           end
  end.
Inductive FaucetResponse : Type :=
  | Minted (token : bytes) (amount : Z)
  | MintingFailed (e : MintFailure)
  | RateLimited (seconds : Z)
  | NotFound.
Definition handle_request (now : Z) (method path : bytes) : ST (W * RateLimiter) unit FaucetResponse := λ s,
  let '(w, l) := s in
  if bool_decide (method = String.list_byte_of_string "POST" ∧ path = String.list_byte_of_string "/mint/tokens") then
    match check_rate_limit now l with
    | (Ok _, l) =>
        match create_mint_token w with
        | (Ok token, w) => (Ok (Minted token faucet_amount), (w, l))
        | (Err e, w) => (Ok (MintingFailed e), (w, l))
        | (Panic, w) => (Panic, (w, l))
        end
    | (Err remaining, l) => (Ok (RateLimited (remaining / 10 ^ 9)), (w, l))
    | (Panic, l) => (Panic, (w, l))
    end
  else (Ok NotFound, s).
End wallet.
End Wallet.
