(* ===== verification/WalletProperties.v ===== *)
(** * Properties of the wallet's sweep and of the faucet

    The mint's ledger of quotes as the abstract state, what a mint promises of
    the two operations the sweep uses, and what a sweep does to the ledger. *)

From Stdlib Require Import String Sorted.
From stdpp Require Import gmap.
From S2P Require Import Prelude Wallet.
#[local] Open Scope Z_scope.
#[local] Open Scope list_scope.

Import Wallet.

(** ** The mint's ledger *)

Record MintQuote (Id : Type) : Type := mkQuote {
  mq_amount : option Z;
  mq_issued : Z;
  mq_keyset : Id }.
#[global] Arguments mkQuote {Id}.
#[global] Arguments mq_amount {Id}.
#[global] Arguments mq_issued {Id}.
#[global] Arguments mq_keyset {Id}.
Notation Ledger Id := (gmap bytes (MintQuote Id)).

Section ledger.
Context {Id : Type}.
Definition add_issued (n : Z) (q : MintQuote Id) : MintQuote Id :=
  mkQuote (mq_amount q) (mq_issued q + n) (mq_keyset q).
(** Proofs for the entries are issued. *)
Definition issue (es : list (MiningShareBatchEntry Id)) (v : Ledger Id) : Ledger Id :=
  foldl (λ v e, alter (add_issued (be_amount e)) (be_quote_id e) v) v es.
Definition amounts (es : list (MiningShareBatchEntry Id)) : Z := foldr Z.add 0 (be_amount <$> es).
(** The amount of a quote that was not issued yet. *)
Definition outstanding (q : MintQuote Id) : Z :=
  match mq_amount q with Some total => Z.max 0 (total - mq_issued q) | None => 0 end.
(** Everything of a quote is issued. *)
Definition settle (q : MintQuote Id) : MintQuote Id := add_issued (outstanding q) q.
End ledger.

(** What is taken of the mint: an answer about a quote shows the ledger; a batch
    that succeeds is issued as a whole, for the amounts asked for; of one that
    fails, as when the reply is lost, any part may have been issued. *)
Class MintLaws {W E Id Key : Type} `{CdkWallet W E Id Key} (view : W → Ledger Id) : Prop := {
  law_state id w r w' :
    mint_quote_state_mining_share id w = (r, w') →
    view w' = view w ∧ r ≠ Panic ∧
    ∀ resp, r = Ok resp → ∃ q, view w !! id = Some q ∧ qr_amount resp = mq_amount q ∧
      qr_amount_issued resp = mq_issued q ∧ (is_fully_issued resp = true → outstanding q = 0);
  law_batch es key w r w' :
    mint_mining_share_batch es key w = (r, w') →
    match r with
    | Ok proofs => Forall (fits 64) proofs ∧ foldr Z.add 0 proofs = amounts es ∧ view w' = issue es (view w)
    | Err _ => ∃ es', es' `sublist_of` es ∧ view w' = issue es' (view w)
    | Panic => False
    end }.

Section issue.
Context {Id : Type}.
Implicit Types (es : list (MiningShareBatchEntry Id)) (v : Ledger Id).
Lemma issue_cons e es v : issue (e :: es) v = issue es (alter (add_issued (be_amount e)) (be_quote_id e) v).
Proof. done. Qed.
Lemma issue_app es es' v : issue (es ++ es') v = issue es' (issue es v).
Proof. apply foldl_app. Qed.
Lemma issue_other es v q : q ∉ (be_quote_id <$> es) → issue es v !! q = v !! q.
Proof.
  revert v. induction es as [|e es IH]; intros v Hq; [done|]. rewrite issue_cons. cbn in Hq. rewrite IH by set_solver.
  apply lookup_alter_ne. set_solver.
Qed.
Lemma issue_entry es v e :
  NoDup (be_quote_id <$> es) → e ∈ es →
  issue es v !! be_quote_id e = add_issued (be_amount e) <$> v !! be_quote_id e.
Proof.
  revert v. induction es as [|e' es IH]; intros v Hd He; [by apply not_elem_of_nil in He|].
  cbn in Hd. inversion Hd as [|? ? Hn Hd']; subst. rewrite issue_cons. apply elem_of_cons in He as [->|He].
  - rewrite issue_other by done. apply lookup_alter_eq.
  - rewrite IH by done. rewrite lookup_alter_ne; [done|]. intros Heq. apply Hn. rewrite Heq.
    by apply list_elem_of_fmap_2.
Qed.
Lemma amounts_app es es' : amounts (es ++ es') = amounts es + amounts es'.
Proof. unfold amounts. induction es as [|e es IH]; cbn in *; lia. Qed.
Lemma amounts_perm es es' : es ≡ₚ es' → amounts es = amounts es'.
Proof. unfold amounts. induction 1; cbn in *; lia. Qed.
Lemma amounts_sublist es es' : Forall (λ e, 0 ≤ be_amount e) es' → es `sublist_of` es' → 0 ≤ amounts es ≤ amounts es'.
Proof.
  intros Hf. unfold amounts. induction 1 as [|e es es' Hs IH|e es es' Hs IH]; cbn; [lia| |];
    apply Forall_cons_1 in Hf as [He Hf]; specialize (IH Hf); cbn in *; lia.
Qed.
Lemma amounts_fit es :
  Forall (λ e, 0 ≤ be_amount e) es → amounts es < 2 ^ 64 → Forall (λ e, fits 64 (be_amount e)) es.
Proof.
  unfold amounts. induction 1 as [|e es He Hes IH]; [constructor|]. cbn. intros Hlt.
  assert (0 ≤ foldr Z.add 0 (be_amount <$> es)) by (clear -Hes; induction Hes; cbn in *; lia).
  constructor; [unfold fits; cbn in *; lia|apply IH; cbn in *; lia].
Qed.
End issue.

(** ** The sweep *)

Section sweep.
Context {W E Id Key : Type} `{CdkWallet W E Id Key} `{Countable Id} `{!KeysetIter Id}.
Context (view : W → Ledger Id) `{!MintLaws view} (chk : bool).
Notation Entry := (MiningShareBatchEntry Id).

(** The entry of a quote, from the ledger. *)
Definition due (v : Ledger Id) (e : Entry) : Prop :=
  ∃ q, v !! be_quote_id e = Some q ∧ be_amount e = outstanding q ∧ 0 < be_amount e.
Lemma outstanding_due id r w w' resp e :
  mint_quote_state_mining_share id w = (r, w') → r = Ok resp → outstanding_entry id resp = Some e →
  be_quote_id e = id ∧ due (view w) e.
Proof.
  intros E1 -> He. destruct (law_state _ _ _ _ E1) as (_ & _ & Hr). destruct (Hr resp eq_refl) as (q & Hq & Ha & Hi & _).
  unfold outstanding_entry in He. destruct (is_fully_issued resp); [done|]. rewrite Ha, Hi in He.
  destruct (mq_amount q) as [total|] eqn:Et; [|done]. destruct (Z.leb_spec total (mq_issued q)); [done|].
  destruct (Z.eqb_spec (total - mq_issued q) 0); [done|]. injection He as <-. split; [done|].
  exists q. cbn. unfold outstanding. rewrite Et. split; [done|lia].
Qed.
Lemma not_outstanding id r w w' resp :
  mint_quote_state_mining_share id w = (r, w') → r = Ok resp → outstanding_entry id resp = None →
  ∃ q, view w !! id = Some q ∧ outstanding q = 0.
Proof.
  intros E1 -> He. destruct (law_state _ _ _ _ E1) as (_ & _ & Hr).
  destruct (Hr resp eq_refl) as (q & Hq & Ha & Hi & Hf). exists q. split; [done|].
  unfold outstanding_entry in He. destruct (is_fully_issued resp); [by apply Hf|]. rewrite Ha, Hi in He.
  unfold outstanding. destruct (mq_amount q) as [total|]; [|done].
  destruct (Z.leb_spec total (mq_issued q)); [lia|]. destruct (Z.eqb_spec (total - mq_issued q) 0); [lia|done].
Qed.

(** All entries of the batches. *)
Definition entries (g : gmap Id (list Entry)) : list Entry := concat (map_to_list g).*2.
Lemma entries_push e g : entries (push_entry e g) ≡ₚ e :: entries g.
Proof.
  unfold entries, push_entry. set (k := be_keyset_id e). rewrite <- insert_delete_eq.
  rewrite (map_to_list_insert (delete k g)) by apply lookup_delete_eq. cbn.
  destruct (g !! k) as [l|] eqn:Hk; cbn.
  - rewrite <- (insert_delete_id g k l Hk) at 2. rewrite (map_to_list_insert (delete k g)) by apply lookup_delete_eq.
    cbn. rewrite <- app_assoc. apply Permutation_sym, Permutation_middle.
  - by rewrite delete_id.
Qed.
Lemma entries_empty : entries ∅ = [].
Proof. unfold entries. by rewrite map_to_list_empty. Qed.

(** The quotes the mint answers about and those it issues. *)
Definition answers (v : Ledger Id) (ids : list bytes) : Prop :=
  ∀ id w, id ∈ ids → view w = v → ∃ resp, (mint_quote_state_mining_share (E := E) id w).1 = Ok resp.
Definition issues (key : Key) : Prop :=
  ∀ es w, Forall (λ e, fits 64 (be_amount e)) es → ∃ proofs, (mint_mining_share_batch (E := E) es key w).1 = Ok proofs.

Lemma collect_spec ids g w :
  ∃ g' w' es, collect_quotes ids g w = (Ok g', w') ∧ view w' = view w ∧ entries g' ≡ₚ entries g ++ es ∧
    (be_quote_id <$> es) `sublist_of` ids ∧ Forall (due (view w)) es ∧
    (answers (view w) ids → ∀ id, id ∈ ids → id ∉ (be_quote_id <$> es) → ∃ q, view w !! id = Some q ∧ outstanding q = 0).
Proof.
  revert g w. induction ids as [|id ids IH]; intros g w; cbn [collect_quotes].
  { exists g, w, []. split; [done|]. split; [done|]. rewrite app_nil_r. split; [done|]. split; [constructor|].
    split; [constructor|]. intros _ id Hid. by apply not_elem_of_nil in Hid. }
  destruct (mint_quote_state_mining_share id w) as [r w1] eqn:E1.
  destruct (law_state _ _ _ _ E1) as (Hv & Hr & _).
  assert (Hans : answers (view w) (id :: ids) → answers (view w) ids ∧ ∃ resp, r = Ok resp).
  { intros Ha. split; [intros i w2 Hi; apply Ha; by right|]. destruct (Ha id w) as [resp Hresp]; [by left|done|].
    exists resp. by rewrite E1 in Hresp. }
  destruct r as [resp|e|]; [|destruct (IH g w1) as (g' & w' & es & Ec & Hv' & Hp & Hs & Hf & Hc)|done].
  - destruct (outstanding_entry id resp) as [e|] eqn:Ee.
    + destruct (IH (push_entry e g) w1) as (g' & w' & es & Ec & Hv' & Hp & Hs & Hf & Hc).
      destruct (outstanding_due _ _ _ _ _ _ E1 eq_refl Ee) as [Hid Hdue].
      rewrite Hv in *. exists g', w', (e :: es). split; [done|]. split; [done|]. split.
      { rewrite Hp, entries_push. apply Permutation_middle. }
      split; [cbn; rewrite Hid; by constructor|]. split; [by constructor|].
      intros Ha i Hi Hn. cbn in Hn. rewrite Hid in Hn. apply Hc; [by apply Hans|set_solver|set_solver].
    + destruct (IH g w1) as (g' & w' & es & Ec & Hv' & Hp & Hs & Hf & Hc). rewrite Hv in *.
      exists g', w', es. do 3 (split; [done|]). split; [by constructor|]. split; [done|].
      intros Ha i Hi Hn. apply elem_of_cons in Hi as [->|Hi]; [by eapply not_outstanding|].
      apply Hc; [by apply Hans|done..].
  - rewrite Hv in *. exists g', w', es. do 3 (split; [done|]). split; [by constructor|]. split; [done|].
    intros Ha. by destruct (Hans Ha) as [_ [? ?]].
Qed.

Lemma sum_u64_spec {F} acc l :
  0 ≤ acc → Forall (fits 64) l → acc + foldr Z.add 0 l < 2 ^ 64 → sum_u64 (F := F) chk acc l = Ok (acc + foldr Z.add 0 l).
Proof.
  intros Ha Hl. revert acc Ha. induction Hl as [|a l Hfit Hl IH]; intros acc Ha Hlt; cbn [sum_u64 foldr] in *.
  { f_equal. lia. }
  assert (Hs : 0 ≤ foldr Z.add 0 l) by (clear - Hl; unfold fits in Hl; induction Hl as [|? ? [? ?]]; cbn; lia).
  destruct Hfit as [Ha0 _]. unfold add_u64, add_chk.
  assert (Hadd : (if chk then if acc + a <? 2 ^ 64 then Ok (acc + a) else Panic else Ok (wrap 64 (acc + a)))
                 = Ok (E := F) (acc + a)).
  { destruct chk; [by rewrite (proj2 (Z.ltb_lt _ _)) by lia|]. rewrite wrap_small; [done|]. unfold fits. lia. }
  rewrite Hadd. cbn [mbind result_bind]. rewrite IH by lia. f_equal. lia.
Qed.
(** The entries that were confirmed, and those that were issued. *)
Lemma mint_spec key batches n w :
  0 ≤ n → Forall (λ e, 0 ≤ be_amount e) (concat batches.*2) → n + amounts (concat batches.*2) < 2 ^ 64 →
  ∃ w' minted issued, mint_batches chk key batches n w = (Ok (n + amounts minted), w') ∧
    minted `sublist_of` issued ∧ issued `sublist_of` concat batches.*2 ∧ view w' = issue issued (view w) ∧
    (issues key → minted = concat batches.*2).
Proof.
  revert n w. induction batches as [|[k es] batches IH]; intros n w Hn Hf Hlt; cbn [mint_batches].
  { exists w, [], []. change (amounts _) with 0. rewrite Z.add_0_r. split; [done|]. split; [constructor|]. split; [constructor|]. by split. }
  change (concat ((k, es) :: batches).*2) with (es ++ concat batches.*2) in *. rewrite amounts_app in Hlt. apply Forall_app in Hf as [Hf1 Hf2].
  pose proof (amounts_sublist _ _ Hf1 (reflexivity es)) as H1. pose proof (amounts_sublist _ _ Hf2 (reflexivity _)) as H2.
  destruct (mint_mining_share_batch es key w) as [r w1] eqn:E1. pose proof (law_batch _ _ _ _ _ E1) as Hl.
  assert (Hiss : issues key → ∃ proofs, r = Ok proofs).
  { intros Hi. destruct (Hi es w) as [p Hp]; [by apply amounts_fit; [|lia]|]. exists p. by rewrite E1 in Hp. }
  destruct r as [proofs|e|]; [|destruct (IH n w1) as (w' & minted & issued & Em & Hs & Hs' & Hv & Hi); [lia|done|lia|]|done].
  - destruct Hl as (Hfit & Hsum & Hview). rewrite sum_u64_spec by (try done; lia). cbn [mbind result_bind].
    assert (Hadd : add_u64 chk n (0 + foldr Z.add 0 proofs) = Ok (E := unit) (n + amounts es)).
    { rewrite Hsum. unfold add_u64, add_chk. replace (n + (0 + amounts es)) with (n + amounts es) by lia.
      destruct chk; [by rewrite (proj2 (Z.ltb_lt _ _)) by lia|]. rewrite wrap_small; [done|]. unfold fits. lia. }
    rewrite Hadd. destruct (IH (n + amounts es) w1) as (w' & minted & issued & Em & Hs & Hs' & Hv & Hi); [lia|done|lia|].
    exists w', (es ++ minted), (es ++ issued). rewrite Em, amounts_app, Z.add_assoc. split; [done|].
    split; [by apply sublist_app|]. split; [by apply sublist_app|]. split; [|intros Hk; by rewrite Hi].
    by rewrite issue_app, Hv, Hview.
  - destruct Hl as (es' & Hes & Hl). exists w', minted, (es' ++ issued). split; [done|].
    split; [by apply sublist_inserts_l|]. split; [by apply sublist_app|]. split; [by rewrite issue_app, Hv, Hl|].
    intros Hk. by destruct (Hiss Hk).
Qed.

(** What the ledger owes for a quote, and for a list of them. *)
Definition owed (v : Ledger Id) (id : bytes) : Z := match v !! id with Some q => outstanding q | None => 0 end.
Definition total_owed (v : Ledger Id) (ids : list bytes) : Z := foldr Z.add 0 (owed v <$> ids).
Lemma owed_nonneg v id : 0 ≤ owed v id.
Proof. unfold owed, outstanding. destruct (v !! id) as [q|]; [|done]. destruct (mq_amount q); lia. Qed.
Lemma total_owed_sublist v ids ids' : ids `sublist_of` ids' → 0 ≤ total_owed v ids ≤ total_owed v ids'.
Proof.
  unfold total_owed. induction 1 as [|i ids ids' Hs IH|i ids ids' Hs IH]; cbn; [lia| |];
    pose proof (owed_nonneg v i); cbn in *; lia.
Qed.
Lemma due_amounts v es : Forall (due v) es → amounts es = total_owed v (be_quote_id <$> es).
Proof.
  unfold amounts, total_owed. induction 1 as [|e es (q & Hq & Ha & _) _ IH]; [done|]. cbn in *.
  rewrite IH. unfold owed at 2. rewrite Hq. by rewrite Ha.
Qed.
Lemma due_settled v es :
  Forall (due v) es → NoDup (be_quote_id <$> es) →
  ∀ id, issue es v !! id = (if bool_decide (id ∈ (be_quote_id <$> es)) then settle <$> v !! id else v !! id).
Proof.
  intros Hd Hn id. case_bool_decide as Hid; [|by apply issue_other].
  apply list_elem_of_fmap in Hid as (e & -> & He). rewrite issue_entry by done.
  rewrite Forall_forall in Hd. apply list_elem_of_In, Hd in He as (q & Hq & Ha & _). rewrite Hq. cbn.
  unfold settle. by rewrite Ha.
Qed.
Lemma total_owed_rest v ids ids' :
  ids' `sublist_of` ids → NoDup ids → (∀ id, id ∈ ids → id ∉ ids' → owed v id = 0) → total_owed v ids' = total_owed v ids.
Proof.
  unfold total_owed. induction 1 as [|i ids' ids Hs IH|i ids' ids Hs IH]; intros Hn Hz; cbn; [done| |];
    apply list.NoDup_cons in Hn as [Hi Hn].
  - rewrite IH; [done..|]. intros id Hid Hid'. apply Hz; [by right|]. intros [->|?]%elem_of_cons; done.
  - assert (Hi' : i ∉ ids') by (intros Hin; apply Hi; eapply elem_of_submseteq; [exact Hin|by apply sublist_submseteq]).
    rewrite (Hz i) by (done || by left). rewrite IH; [done..|]. intros id Hid Hid'. apply Hz; [by right|done].
Qed.
(** Part of the batches that were collected. *)
Lemma part_due v ids es l :
  NoDup ids → (be_quote_id <$> es) `sublist_of` ids → Forall (due v) es → l ⊆+ es →
  Forall (due v) l ∧ NoDup (be_quote_id <$> l) ∧ (∀ id, id ∈ (be_quote_id <$> l) → id ∈ ids).
Proof.
  intros Hn Hs Hd Hsub. apply submseteq_Permutation in Hsub as [k Hk].
  assert (Hids : (be_quote_id <$> l) ++ (be_quote_id <$> k) ≡ₚ be_quote_id <$> es) by (by rewrite <- fmap_app, Hk).
  split; [rewrite Hk in Hd; by apply Forall_app in Hd as [? _]|]. split.
  - assert (Hne : NoDup (be_quote_id <$> es)) by (by eapply sublist_NoDup).
    rewrite <- Hids in Hne. by apply list.NoDup_app in Hne as [? _].
  - intros id Hid. eapply elem_of_submseteq; [|by apply sublist_submseteq]. rewrite <- Hids. apply elem_of_app. by left.
Qed.

(** The outcome of a sweep over the quotes [ids]: the quotes that were issued, and
    those of them the mint confirmed. *)
Definition swept (key : Key) (ids : list bytes) (w : W) (n : Z) (w' : W) (settled confirmed : list bytes) : Prop :=
  NoDup settled ∧ (∀ id, id ∈ settled → id ∈ ids) ∧ confirmed `sublist_of` settled ∧
  (∀ id, view w' !! id = (if bool_decide (id ∈ settled) then settle <$> view w !! id else view w !! id)) ∧
  n = total_owed (view w) confirmed ∧
  (answers (view w) ids → issues key →
   n = total_owed (view w) ids ∧ ∀ id, id ∈ ids → view w' !! id = settle <$> view w !! id).
Lemma minted_swept key ids es minted issued w w' :
  NoDup ids → (be_quote_id <$> es) `sublist_of` ids → Forall (due (view w)) es →
  (answers (view w) ids → ∀ id, id ∈ ids → id ∉ (be_quote_id <$> es) → ∃ q, view w !! id = Some q ∧ outstanding q = 0) →
  minted `sublist_of` issued → issued ⊆+ es → (issues key → minted ≡ₚ es) →
  view w' = issue issued (view w) →
  swept key ids w (amounts minted) w' (be_quote_id <$> issued) (be_quote_id <$> minted).
Proof.
  intros Hn Hs Hd Hans Hmi His Hall Hv'. assert (Hms : minted ⊆+ es) by (etransitivity; [by apply sublist_submseteq|done]).
  destruct (part_due (view w) ids es issued Hn Hs Hd His) as (Hdue & Hnd & Hin).
  destruct (part_due (view w) ids es minted Hn Hs Hd Hms) as (Hdue' & _ & _).
  pose proof (due_settled _ _ Hdue Hnd) as Hset. rewrite <- Hv' in Hset.
  split; [done|]. split; [done|]. split; [by apply fmap_sublist|]. split; [done|]. split; [by apply due_amounts|].
  intros Ha Hi. split.
  { rewrite (amounts_perm _ _ (Hall Hi)), (due_amounts _ _ Hd). apply total_owed_rest; [done..|].
    intros id Hid Hid'. destruct (Hans Ha id Hid Hid') as (q & Hq & Ho). unfold owed. by rewrite Hq. }
  intros id Hid. rewrite Hset. case_bool_decide as Hb; [done|].
  destruct (Hans Ha id Hid) as (q & Hq & Ho).
  - intros Hid'. apply Hb. eapply elem_of_submseteq; [|apply fmap_submseteq, sublist_submseteq, Hmi]. by rewrite (Hall Hi).
  - rewrite Hq. cbn. unfold settle, add_issued. rewrite Ho, Z.add_0_r. by destruct q.
Qed.
Lemma sweep_spec privkey key ids w :
  get_unpaid_mint_quotes w = Ok ids → NoDup ids → parse_secret_key privkey = Some key →
  total_owed (view w) ids < 2 ^ 64 →
  ∃ n w' settled confirmed, process_stored_quotes chk privkey w = (Ok n, w') ∧ swept key ids w n w' settled confirmed.
Proof.
  intros Hu Hn Hk Hlt. unfold process_stored_quotes. rewrite Hu.
  destruct (collect_spec ids ∅ w) as (g & w1 & es & Ec & Hv & Hp & Hs & Hd & Hans).
  rewrite entries_empty in Hp. cbn [app] in Hp.
  assert (Hiter : concat (keyset_iter g).*2 ≡ₚ es) by (by rewrite <- Hp; unfold entries; rewrite keyset_iter_perm).
  assert (Hnone : g = ∅ → ∃ n w' settled confirmed, (Ok 0 : result unit Z, w1) = (Ok n, w') ∧ swept key ids w n w' settled confirmed).
  { intros ->. rewrite entries_empty in Hp. apply Permutation_nil_l in Hp as <-. exists 0, w1, [], []. split; [done|].
    by apply (minted_swept key ids [] [] [] w w1 Hn Hs Hd Hans). }
  destruct ids as [|id ids]; [injection Ec as <- <-; by apply Hnone|]. unfold mbind, ST_bind. rewrite Ec.
  case_bool_decide as Hg; [by apply Hnone|]. rewrite Hk.
  assert (Hpos : Forall (λ e, 0 ≤ be_amount e) (concat (keyset_iter g).*2)).
  { rewrite Hiter. eapply Forall_impl; [|exact Hd]. intros e (q & _ & _ & He). cbn. lia. }
  pose proof (total_owed_sublist (view w) _ _ Hs) as Hle.
  destruct (mint_spec key (keyset_iter g) 0 w1) as (w' & minted & issued & Em & Hmi & His & Hv' & Hi); [done|done| |].
  { rewrite (amounts_perm _ _ Hiter), (due_amounts _ _ Hd). lia. }
  exists (amounts minted), w', (be_quote_id <$> issued), (be_quote_id <$> minted). rewrite Em. split; [done|].
  apply (minted_swept key (id :: ids) es minted issued w w' Hn Hs Hd Hans Hmi); [|by intros ->%Hi|by rewrite Hv', Hv].
  rewrite <- Hiter. by apply sublist_submseteq.
Qed.
(** Settled quotes are left alone. *)
Lemma settled_swept privkey key ids w :
  get_unpaid_mint_quotes w = Ok ids → NoDup ids → parse_secret_key privkey = Some key →
  (∀ id, id ∈ ids → owed (view w) id = 0) →
  ∃ w', process_stored_quotes chk privkey w = (Ok 0, w') ∧ view w' = view w.
Proof.
  intros Hu Hn Hk Hz. assert (Ht : ∀ l, (∀ id, id ∈ l → id ∈ ids) → total_owed (view w) l = 0).
  { intros l Hl. unfold total_owed. induction l as [|i l IH]; [done|]. cbn. rewrite Hz by (apply Hl; by left).
    rewrite IH; [done|]. intros id Hid. apply Hl. by right. }
  destruct (sweep_spec privkey key ids w Hu Hn Hk) as (n & w' & settled & confirmed & E1 & _ & Hin & Hc & Hv & -> & _).
  { by rewrite Ht. }
  exists w'. rewrite Ht in E1.
  2: { intros id Hid. apply Hin. eapply elem_of_submseteq; [exact Hid|by apply sublist_submseteq]. }
  split; [exact E1|]. apply map_eq. intros id. rewrite Hv. case_bool_decide as Hs; [|done].
  pose proof (Hz id (Hin id Hs)) as Ho. unfold owed in Ho. destruct (view w !! id) as [q|]; [|done].
  cbn. unfold settle, add_issued. rewrite Ho, Z.add_0_r. by destruct q.
Qed.
End sweep.

(** C33: The sweep of the wallet issues exactly what is owed.  With a valid locking
    key, stored quotes that are pairwise different and less than 2^64 owed for them,
    it returns; the quotes that were issued are among the stored ones, each is issued
    up to its amount and no further, every other quote of the mint is untouched, and
    the returned amount is the sum of what was owed for those the mint confirmed,
    without overflow, also when a reply is lost after part of a batch was issued.
    When the mint answers about every stored quote and issues every batch, every
    stored quote is settled, all that was owed is returned, and a second sweep over
    such quotes mints nothing. *)
Theorem sweep_settles_quotes {W E Id Key : Type} `{CdkWallet W E Id Key} `{Countable Id} `{!KeysetIter Id}
    (view : W → Ledger Id) `{!MintLaws view} (overflow_checks : bool) (privkey : option bytes) (key : Key)
    (ids : list bytes) (w : W) :
  get_unpaid_mint_quotes w = Ok ids → NoDup ids → parse_secret_key privkey = Some key →
  total_owed (view w) ids < 2 ^ 64 →
  ∃ n w' settled confirmed, process_stored_quotes overflow_checks privkey w = (Ok n, w') ∧
    swept view key ids w n w' settled confirmed ∧
    (answers view (view w) ids → issues key →
     ∀ ids', get_unpaid_mint_quotes w' = Ok ids' → NoDup ids' → (∀ id, id ∈ ids' → id ∈ ids) →
     ∃ w'', process_stored_quotes overflow_checks privkey w' = (Ok 0, w'') ∧ view w'' = view w').
Proof.
  intros Hu Hn Hk Hlt. destruct (sweep_spec view overflow_checks privkey key ids w Hu Hn Hk Hlt) as (n & w' & settled & confirmed & E1 & Hs).
  exists n, w', settled, confirmed. split; [exact E1|]. split; [exact Hs|]. destruct Hs as (_ & _ & _ & _ & _ & Hall).
  intros Ha Hi ids' Hu' Hn' Hsub. destruct (Hall Ha Hi) as [_ Hset].
  apply (settled_swept view overflow_checks privkey key ids' w' Hu' Hn' Hk).
  intros id Hid. unfold owed. rewrite (Hset id) by auto. destruct (view w !! id) as [q|]; [|done]. cbn.
  unfold outstanding, settle, add_issued. cbn. unfold outstanding. destruct (mq_amount q); lia.
Qed.

(** ** The faucet *)

(** The times of the requests the faucet lets through. *)
Fixpoint granted (l : RateLimiter) (times : list Z) : list Z :=
  match times with
  | [] => []
  | now :: times =>
      match check_rate_limit now l with
      | (Ok _, l) => now :: granted l times
      | (_, l) => granted l times
      end
  end.
(** Whatever the clock shows, two requests that are let through are at least
    the configured time apart, and a refused request is told how long to wait. *)
Theorem faucet_spaced (l : RateLimiter) (times : list Z) :
  0 < timeout l →
  Sorted (λ a b, a + timeout l ≤ b) (match last_request l with Some t => t :: granted l times | None => granted l times end) ∧
  ∀ now remaining l', check_rate_limit now l = (Err remaining, l') →
    ∃ last, last_request l = Some last ∧ 0 < remaining ∧ (last ≤ now → now + remaining = last + timeout l).
Proof.
  intros Ht. split.
  - revert l Ht. induction times as [|now times IH]; intros l Ht; cbn [granted].
    { destruct (last_request l); repeat constructor. }
    unfold check_rate_limit. destruct (last_request l) as [last|] eqn:El.
    + destruct (Z.ltb_spec (saturating_sub now last) (timeout l)) as [Hlt|Hge].
      * specialize (IH l Ht). by rewrite El in IH.
      * specialize (IH (mkLimiter (Some now) (timeout l)) Ht). cbn in IH. constructor; [done|]. constructor.
        unfold saturating_sub in Hge. lia.
    + exact (IH (mkLimiter (Some now) (timeout l)) Ht).
  - intros now remaining l' E. unfold check_rate_limit in E. destruct (last_request l) as [last|]; [|done].
    destruct (Z.ltb_spec (saturating_sub now last) (timeout l)); [|done]. injection E as <- _.
    exists last. unfold saturating_sub in *. split; [done|]. lia.
Qed.

(** ** An example mint *)

Definition ToyMint : Type := gmap bytes (MintQuote Z) * list bytes.
Definition toy_fit (es : list (MiningShareBatchEntry Z)) : bool := forallb (λ e, fitsb 64 (be_amount e)) es.
#[local] Instance toy_wallet : CdkWallet ToyMint unit Z unit := {|
  get_unpaid_mint_quotes w := Ok w.2;
  mint_quote_state_mining_share id w :=
    (match w.1 !! id with Some q => Ok (mkResponse (mq_amount q) (mq_issued q) (mq_keyset q)) | None => Err tt end, w);
  is_fully_issued r := match qr_amount r with Some total => total <=? qr_amount_issued r | None => false end;
  mint_mining_share_batch es _ w :=
    if toy_fit es then (Ok (be_amount <$> es), (issue es w.1, w.2)) else (Err tt, w);
  total_balance w := Ok 0;
  swap_from_unspent _ w := (Err tt, w);
  token_string _ := [];
  key_hex_decode l := Some l;
  SecretKey_from_slice l := match l with [] => None | _ => Some tt end |}.
#[local] Instance toy_iter : KeysetIter Z :=
  {| keyset_iter A m := map_to_list m; keyset_iter_perm A m := reflexivity (map_to_list m) |}.
#[local] Instance toy_laws : MintLaws (fst : ToyMint → Ledger Z).
Proof.
  split.
  - intros id w r w' E. cbn in E. injection E as <- <-. split; [done|].
    destruct (w.1 !! id) as [q|] eqn:Eq; (split; [done|]); [|done]. intros resp [= <-]. exists q. split; [done|].
    do 2 (split; [done|]). unfold is_fully_issued, outstanding. cbn. destruct (mq_amount q); [|done].
    intros Hle%Z.leb_le. lia.
  - intros es key w r w' E. cbn in E. destruct (toy_fit es) eqn:Ef; injection E as <- <-; [|exists []; split; [apply sublist_nil_l|done]].
    split; [|done]. apply Forall_fmap. apply Forall_forall. intros e He. unfold toy_fit in Ef.
    rewrite forallb_forall in Ef. apply Ef in He. by apply fitsb_spec.
Qed.
(** Three stored quotes of two keysets: one owed in full, one in part, one already
    issued; another quote of the mint is not stored. *)
Definition toy_ids : list bytes := [to_le_bytes 1 1; to_le_bytes 1 2; to_le_bytes 1 3].
Definition toy_mint : ToyMint :=
  ({[to_le_bytes 1 1 := mkQuote (Some 32) 0 7; to_le_bytes 1 2 := mkQuote (Some 64) 60 8;
     to_le_bytes 1 3 := mkQuote (Some 16) 16 8; to_le_bytes 1 4 := mkQuote (Some 5) 0 8]}, toy_ids).
Lemma toy_answers : answers (fst : ToyMint → Ledger Z) toy_mint.1 toy_ids.
Proof.
  intros id w Hid Hw. cbn. rewrite Hw.
  assert (Hall : Forall (λ id, is_Some (toy_mint.1 !! id)) toy_ids) by (repeat constructor; vm_compute; by eexists).
  rewrite Forall_forall in Hall. destruct (Hall id ltac:(by apply list_elem_of_In)) as [q ->]. by eexists.
Qed.
Lemma toy_issues : issues (W := ToyMint) tt.
Proof.
  intros es w Hes. cbn. assert (Hf : toy_fit es = true).
  { unfold toy_fit. apply forallb_forall. intros e He. rewrite Forall_forall in Hes. apply fitsb_spec. by apply Hes. }
  rewrite Hf. by eexists.
Qed.
Lemma sweep_settles_quotes_witness :
  ∃ n w' settled confirmed, process_stored_quotes true (Some (to_le_bytes 1 1)) toy_mint = (Ok n, w') ∧
    swept fst tt toy_ids toy_mint n w' settled confirmed ∧ n = 36 ∧
    ∃ w'', process_stored_quotes true (Some (to_le_bytes 1 1)) w' = (Ok 0, w'') ∧ fst w'' = fst w'.
Proof.
  destruct (sweep_settles_quotes (fst : ToyMint → Ledger Z) true (Some (to_le_bytes 1 1)) tt toy_ids toy_mint)
    as (n & w' & settled & confirmed & E & Hs & Hagain).
  - reflexivity.
  - apply (bool_decide_unpack (NoDup toy_ids)). vm_compute. exact I.
  - reflexivity.
  - vm_compute. reflexivity.
  - exists n, w', settled, confirmed. split; [exact E|]. split; [exact Hs|].
    assert (En : (process_stored_quotes true (Some (to_le_bytes 1 1)) toy_mint).1 = Ok 36) by (vm_compute; reflexivity).
    assert (Eu : get_unpaid_mint_quotes (process_stored_quotes true (Some (to_le_bytes 1 1)) toy_mint).2 = Ok (E := unit) toy_ids)
      by (vm_compute; reflexivity).
    rewrite E in En, Eu. split; [by injection En|].
    apply (Hagain toy_answers toy_issues toy_ids Eu); [|done]. apply (bool_decide_unpack (NoDup toy_ids)). vm_compute. exact I.
Defined.
