(* ===== verification/BufferPool.v ===== *)
(** * The buffer pool of [buffer_sv2]

    [utils/buffer/src]: [slice.rs] (the slices handed out and the byte of bits
    they share with the pool), [buffer_pool/mod.rs] (the memory, its front
    section and the pool) and [buffer_pool/pool_back.rs] (its back section).
    The pool's memory is a byte string; a slice of the pool is a window of it,
    so what is written into the memory is seen through every slice.  The system
    memory the pool falls back to is any implementation of [Buffer]. *)

From S2P Require Import Prelude Buffer.

Module Pool.

Definition POOL_CAPACITY : Z := 8.
Definition INGORE_INDEX : Z := 59.

(** ** Machine integers *)

(** [u8::leading_zeros] and [u8::trailing_zeros]. *)
Definition leading_zeros (x : Z) : Z := if x =? 0 then 8 else 7 - Z.log2 x.
Fixpoint trailing_loop (n : nat) (i x : Z) : Z :=
  match n with
  | O => 8
  | S n => if Z.testbit x i then i else trailing_loop n (i + 1) x
  end.
Definition trailing_zeros (x : Z) : Z := trailing_loop 8 0 x.

(** Subtraction of [usize] and the shift of a [u8], with and without checks. *)
Section checks.
Context (overflow_checks : bool).
Definition sub_usize (a b : Z) : result unit Z :=
  if overflow_checks then sub_chk a b else Ok (wrap 64 (a - b)).
Definition shr_u8 (x n : Z) : result unit Z :=
  if n <? 8 then Ok (Z.shiftr x n)
  else if overflow_checks then Panic else Ok (Z.shiftr x (n mod 8)).
End checks.

(** ** Slices and the shared state *)

(** A window of the pool's memory, or a vector of its own. *)
Record Slice : Type := mkSlice {
  sl_offset : Z;
  sl_len : Z;
  sl_index : Z;
  sl_owned : option bytes }.
(** [SharedState::toogle]. *)
Definition toogle (position : Z) (shared_state : Z) : result unit Z :=
  if position =? INGORE_INDEX then Ok shared_state
  else if (1 <=? position) && (position <=? 8) then Ok (Z.lxor shared_state (2 ^ (8 - position)))
  else Panic.
Definition Slice_from (v : bytes) : Slice := mkSlice 0 0 INGORE_INDEX (Some v).

(** ** The memory *)

Record InnerMemory : Type := mkMemory {
  pool : bytes;
  raw_offset : Z;
  raw_len : Z;
  slots : list (Z * Z);
  mem_len : Z }.
Definition set_raw (offset len : Z) (m : InnerMemory) : InnerMemory :=
  mkMemory (pool m) offset len (slots m) (mem_len m).
Definition set_mem_len (len : Z) (m : InnerMemory) : InnerMemory :=
  mkMemory (pool m) (raw_offset m) (raw_len m) (slots m) len.
Definition set_pool (v : bytes) (m : InnerMemory) : InnerMemory :=
  mkMemory v (raw_offset m) (raw_len m) (slots m) (mem_len m).
(** [vec!] allocates exactly its elements. *)
Definition capacity (m : InnerMemory) : Z := zlen (pool m).
Definition no_slots : list (Z * Z) := replicate 8 (0, 0).
Definition InnerMemory_new (capacity : Z) : InnerMemory :=
  mkMemory (replicate (Z.to_nat capacity) (byte.of_Z 0)) 0 0 no_slots 0.
Definition InnerMemory_reset (m : InnerMemory) : InnerMemory :=
  mkMemory (pool m) 0 0 no_slots (mem_len m).
Definition reset_raw (m : InnerMemory) : InnerMemory := set_raw 0 0 m.
Definition slot (m : InnerMemory) (i : Z) : result unit (Z * Z) := unwrap (zget i (slots m)).
Definition get_front_capacity (back_start : Z) (m : InnerMemory) : result unit Z :=
  s ← slot m back_start; Ok s.1.
Definition raw_offset_from_len (len : Z) (m : InnerMemory) : result unit Z :=
  if len =? 0 then Ok 0 else s ← slot m (len - 1); Ok (s.1 + s.2).
(** [copy_within(start..start + len, dest)]. *)
Definition copy_within (v : bytes) (start len dest : Z) : result unit bytes :=
  src ← slice_range v start (start + len);
  if (0 <=? dest) && (dest + len <=? zlen v) then Ok (overwrite v dest src) else Panic.
Definition move_raw_at_offset_unchecked (offset : Z) (m : InnerMemory) : result unit InnerMemory :=
  if raw_len m =? 0 then Ok (set_raw offset (raw_len m) m)
  else
    v ← copy_within (pool m) (raw_offset m) (raw_len m) offset;
    Ok (set_raw offset (raw_len m) (set_pool v m)).
Definition move_raw_at_front (m : InnerMemory) : result unit InnerMemory :=
  move_raw_at_offset_unchecked 0 m.
Definition try_change_len (slot_len len : Z) (m : InnerMemory) : result unit (bool * InnerMemory) :=
  offset ← raw_offset_from_len slot_len m;
  if offset + raw_len m + len <=? capacity m then
    m ← move_raw_at_offset_unchecked offset (set_mem_len slot_len m); Ok (true, m)
  else Ok (false, m).
Definition prepend_raw_data (raw_data : bytes) (m : InnerMemory) : result unit InnerMemory :=
  if zlen raw_data <=? capacity m
  then Ok (set_raw 0 (zlen raw_data) (set_pool (overwrite (pool m) 0 raw_data) m))
  else Panic.
Definition raw_data (m : InnerMemory) : result unit bytes :=
  slice_range (pool m) (raw_offset m) (raw_offset m + raw_len m).
Definition has_tail_capacity (len : Z) (m : InnerMemory) : bool :=
  raw_offset m + raw_len m + len <=? capacity m.
Definition has_capacity_until_offset (len offset : Z) (m : InnerMemory) : bool :=
  raw_offset m + raw_len m + len <=? offset.
(** The offset of the new window. *)
Definition get_writable_raw_unchecked (len : Z) (m : InnerMemory) : result unit (Z * InnerMemory) :=
  let writable_offset := raw_offset m + raw_len m in
  _ ← slice_range (pool m) writable_offset (writable_offset + len);
  Ok (writable_offset, set_raw (raw_offset m) (raw_len m + len) m).
Definition InnerMemory_get_data_owned (shared_state : Z) (m : InnerMemory) : result unit (Slice * Z * InnerMemory) :=
  _ ← raw_data m;
  '(index, shared_state, m') ←
    (if 0 <? raw_len m then
       _ ← slot m (mem_len m);
       let m' := mkMemory (pool m) (raw_offset m) (raw_len m)
         (<[Z.to_nat (mem_len m) := (raw_offset m, raw_len m)]> (slots m)) (mem_len m + 1) in
       let index := wrap 8 (mem_len m') in
       shared_state ← toogle index shared_state;
       Ok (index, shared_state, m')
     else Ok (INGORE_INDEX, shared_state, m));
  Ok (mkSlice (raw_offset m) (raw_len m) index None, shared_state,
      set_raw (raw_offset m + raw_len m) 0 m').

(** ** The front section *)

Record PoolFront : Type := mkFront {
  front_back_start : Z;
  byte_capacity : Z;
  front_len : Z }.
Definition PoolFront_new (byte_capacity back_start : Z) : PoolFront := mkFront back_start byte_capacity 0.
Definition set_front_len (len : Z) (f : PoolFront) : PoolFront :=
  mkFront (front_back_start f) (byte_capacity f) len.

(** [PoolMode]. *)
Inductive PoolMode : Type := Back | Front (f : PoolFront) | Alloc.

Section pool.
Context (overflow_checks : bool).
Notation sub_usize := (sub_usize overflow_checks).
Notation shr_u8 := (shr_u8 overflow_checks).

Definition PoolFront_try_clear_tail (memory : InnerMemory) (shared_state : Z) (f : PoolFront)
    : result unit (bool * PoolFront * InnerMemory) :=
  by_ ← sub_usize POOL_CAPACITY (front_len f);
  shared_state ← shr_u8 shared_state by_;
  let element_to_drop := trailing_zeros shared_state in
  if element_to_drop =? 0 then Ok (false, f, memory)
  else if element_to_drop =? 8 then
    let f := set_front_len 0 f in
    offset ← raw_offset_from_len (mem_len memory) memory;
    memory ← move_raw_at_offset_unchecked offset memory;
    Ok (true, f, memory)
  else
    len ← sub_usize (front_len f) element_to_drop;
    let f := set_front_len len f in
    let memory := set_mem_len len memory in
    offset ← raw_offset_from_len (mem_len memory) memory;
    memory ← move_raw_at_offset_unchecked offset memory;
    Ok (true, f, memory).
Definition PoolFront_clear (memory : InnerMemory) (shared_state len : Z) (f : PoolFront)
    : result unit (option PoolMode * PoolFront * InnerMemory) :=
  if 0 <? front_len f then
    '(cleared, f, memory) ← PoolFront_try_clear_tail memory shared_state f;
    if cleared && has_capacity_until_offset len (byte_capacity f) memory
    then Ok (None, f, memory) else Ok (Some Back, f, memory)
  else Ok (Some Back, f, memory).
Definition PoolFront_get_writable (len : Z) (memory : InnerMemory) (shared_state : Z) (f : PoolFront)
    : result unit ((Z + PoolMode) * PoolFront * InnerMemory) :=
  if (front_len f <? front_back_start f) && has_capacity_until_offset len (byte_capacity f) memory then
    '(w, memory) ← get_writable_raw_unchecked len memory; Ok (inl w, f, memory)
  else
    '(r, f, memory) ← PoolFront_clear memory shared_state len f;
    match r with
    | None => '(w, memory) ← get_writable_raw_unchecked len memory; Ok (inl w, f, memory)
    | Some mode => Ok (inr mode, f, memory)
    end.

(** ** The back section *)

Record PoolBack : Type := mkBack {
  back_start : Z;
  back_len : Z }.
Definition PoolBack_new : PoolBack := mkBack 0 0.
Definition set_len_from_inner_memory (len : Z) (b : PoolBack) : result unit PoolBack :=
  len ← sub_usize len (back_start b); Ok (mkBack (back_start b) len).
Definition try_clear_tail_unchecked (memory : InnerMemory) (shared_state len : Z) (b : PoolBack)
    : result unit (bool * PoolBack * InnerMemory) :=
  let leading_0 := leading_zeros shared_state in
  let trailing_0 := trailing_zeros shared_state in
  element_in_back ← sub_usize POOL_CAPACITY (back_start b);
  let element_to_drop := Z.min element_in_back trailing_0 in
  already_dropped ← sub_usize POOL_CAPACITY (back_start b + back_len b);
  if (leading_0 =? 0) && (trailing_0 =? 0) then Ok (false, b, memory)
  else if (leading_0 =? 0) && (element_in_back =? 0) then Ok (false, b, memory)
  else if element_to_drop <? already_dropped then Ok (false, b, memory)
  else if leading_0 =? 0 then
    element_to_drop ← sub_usize element_to_drop already_dropped;
    back_len' ← sub_usize (back_len b) element_to_drop;
    let b := mkBack (back_start b) back_len' in
    '(changed, memory) ← try_change_len (back_len b + back_start b) len memory;
    Ok (changed, b, memory)
  else Ok (false, b, memory).
Definition tail_is_clearable (shared_state : Z) (b : PoolBack) : result unit bool :=
  element_in_back ← sub_usize POOL_CAPACITY (back_start b);
  let element_to_drop := Z.min element_in_back (trailing_zeros shared_state) in
  Ok ((element_to_drop <=? back_len b) && (POOL_CAPACITY <=? back_start b + back_len b)).
Definition try_clear_head (shared_state : Z) (memory : InnerMemory) (b : PoolBack)
    : result unit (PoolMode * PoolBack) :=
  let b := mkBack (leading_zeros shared_state) (back_len b) in
  if 1 <=? back_start b then
    front_capacity ← get_front_capacity (back_start b) memory;
    if raw_len memory <? front_capacity then
      let len := if back_len b <=? back_start b then 0 else back_len b - back_start b in
      let b := mkBack (back_start b) len in
      Ok (Front (PoolFront_new front_capacity (back_start b)), b)
    else Ok (Alloc, b)
  else Ok (Alloc, b).
(** [None] when the tail was cleared, else the mode to change to. *)
Definition clear_unchecked (memory : InnerMemory) (shared_state len : Z) (b : PoolBack)
    : result unit (option PoolMode * PoolBack * InnerMemory) :=
  '(tail_cleared, b, memory) ← try_clear_tail_unchecked memory shared_state len b;
  if (tail_cleared : bool) then Ok (None, b, memory)
  else '(mode, b) ← try_clear_head shared_state memory b; Ok (Some mode, b, memory).
Definition PoolBack_get_writable (len : Z) (memory : InnerMemory) (shared_state : Z) (b : PoolBack)
    : result unit ((Z + PoolMode) * PoolBack * InnerMemory) :=
  if has_tail_capacity len memory && (back_len b + back_start b <? POOL_CAPACITY) then
    '(w, memory) ← get_writable_raw_unchecked len memory; Ok (inl w, b, memory)
  else
    clearable ← tail_is_clearable shared_state b;
    if (clearable : bool) then
      '(r, b, memory) ← clear_unchecked memory shared_state len b;
      match r with
      | None =>
          if has_tail_capacity len memory && (back_len b <? POOL_CAPACITY) then
            '(w, memory) ← get_writable_raw_unchecked len memory; Ok (inl w, b, memory)
          else Ok (inr Alloc, b, memory)
      | Some mode => Ok (inr mode, b, memory)
      end
    else Ok (inr Alloc, b, memory).

(** ** The pool *)

Context {T : Type} `{!Buffer T}.

Record BufferPool : Type := mkPool {
  pool_back : PoolBack;
  mode : PoolMode;
  shared_state : Z;
  inner_memory : InnerMemory;
  system_memory : T;
  pool_start : Z }.
Definition set_back b (p : BufferPool) := mkPool b (mode p) (shared_state p) (inner_memory p) (system_memory p) (pool_start p).
Definition set_mode m (p : BufferPool) := mkPool (pool_back p) m (shared_state p) (inner_memory p) (system_memory p) (pool_start p).
Definition set_shared s (p : BufferPool) := mkPool (pool_back p) (mode p) s (inner_memory p) (system_memory p) (pool_start p).
Definition set_inner m (p : BufferPool) := mkPool (pool_back p) (mode p) (shared_state p) m (system_memory p) (pool_start p).
Definition set_system t (p : BufferPool) := mkPool (pool_back p) (mode p) (shared_state p) (inner_memory p) t (pool_start p).
Definition BufferPool_new (t : T) (capacity : Z) : BufferPool :=
  mkPool PoolBack_new Back 0 (InnerMemory_new capacity) t 0.
Definition is_alloc_mode (p : BufferPool) : bool := match mode p with Alloc => true | _ => false end.

Definition reset (p : BufferPool) : result unit BufferPool :=
  let memory := set_mem_len 0 (inner_memory p) in
  match mode p with
  | Back | Front _ =>
      memory ← move_raw_at_front memory;
      Ok (mkPool PoolBack_new Back (shared_state p) memory (system_memory p) (pool_start p))
  | Alloc =>
      let t := system_memory p in
      if buf_len t <? capacity memory then
        let raw_len := buf_len t in
        '(memory, t) ←
          (if 0 <? raw_len then
             memory ← prepend_raw_data (get_data_by_ref t raw_len) memory;
             Ok (memory, (get_data_owned t).2)
           else Ok (InnerMemory_reset memory, t));
        Ok (mkPool PoolBack_new Back (shared_state p) memory t (pool_start p))
      else Ok (set_inner memory p)
  end.
(** [copy_into_buffer] with [reset_raw], and the change to allocation. *)
Definition to_alloc (p : BufferPool) : result unit BufferPool :=
  src ← raw_data (inner_memory p);
  let '(_, t) := get_writable (system_memory p) (raw_len (inner_memory p)) in
  Ok (mkPool (pool_back p) Alloc (shared_state p) (reset_raw (inner_memory p)) (write_window t src) (pool_start p)).
Definition change_mode (to : PoolMode) (len shared_state : Z) (p : BufferPool) : result unit BufferPool :=
  match mode p, to with
  | Back, Alloc => to_alloc p
  | Back, Front _ =>
      memory ← move_raw_at_front (set_mem_len 0 (inner_memory p));
      Ok (set_mode to (set_inner memory p))
  | Front _, Back =>
      clearable ← tail_is_clearable shared_state (pool_back p);
      if (clearable : bool) then
        '(cleared, b, memory) ← try_clear_tail_unchecked (inner_memory p) shared_state len (pool_back p);
        let p := set_inner memory (set_back b p) in
        if (cleared : bool) then Ok (set_mode to p) else to_alloc p
      else to_alloc p
  | Alloc, Back =>
      Ok (set_mode to (set_inner
        (set_mem_len (back_len (pool_back p) + back_start (pool_back p)) (inner_memory p)) p))
  | Alloc, Front _ =>
      Ok (set_mode to (set_inner (set_mem_len 0 (reset_raw (inner_memory p))) p))
  | Front _, Alloc | Back, Back | Front _, Front _ | Alloc, Alloc => Panic
  end.
Definition from_system (len : Z) (p : BufferPool) : result unit (bytes * BufferPool) :=
  let '(w, t) := get_writable (system_memory p) len in Ok (w, set_system t p).
Definition window_at (offset len : Z) (memory : InnerMemory) : bytes := ztake len (zdrop offset (pool memory)).
(** [again] is the recursive call. *)
Definition get_writable_from_system_memory
    (again : Z → Z → bool → BufferPool → result unit (bytes * BufferPool))
    (len shared_state : Z) (without_check : bool) (p : BufferPool) : result unit (bytes * BufferPool) :=
  clearable ← (if (0 <? buf_len (system_memory p)) || without_check || (back_len (pool_back p) =? 0)
               then Ok false else tail_is_clearable shared_state (pool_back p));
  if (clearable : bool) then
    '(r, b, memory) ← clear_unchecked (inner_memory p) shared_state len (pool_back p);
    let p := set_inner memory (set_back b p) in
    match r with
    | None => p ← change_mode Back len shared_state p; again len shared_state false p
    | Some (Front f) => p ← change_mode (Front f) len shared_state p; again len shared_state false p
    | Some Alloc => from_system len (set_inner (reset_raw (inner_memory p)) p)
    | Some Back => Panic
    end
  else from_system len p.
(** The window and the pool after [get_writable_]; a turn of the recursion
    changes the mode. *)
Fixpoint get_writable_ (fuel : nat) (len shared_state : Z) (without_check : bool) (p : BufferPool)
    : result unit (bytes * BufferPool) :=
  match fuel with
  | O => Panic
  | S fuel =>
      let retry r p :=
        match r with
        | inl offset => Ok (window_at offset len (inner_memory p), p)
        | inr to =>
            p ← change_mode to len shared_state p;
            get_writable_ fuel len shared_state (is_alloc_mode p) p
        end in
      match mode p with
      | Back =>
          '(r, b, memory) ← PoolBack_get_writable len (inner_memory p) shared_state (pool_back p);
          retry r (set_inner memory (set_back b p))
      | Front f =>
          '(r, f, memory) ← PoolFront_get_writable len (inner_memory p) shared_state f;
          retry r (set_inner memory (set_mode (Front f) p))
      | Alloc => get_writable_from_system_memory (get_writable_ fuel) len shared_state without_check p
      end
  end.
Definition mode_changes : nat := 3.

(** ** The [Buffer] operations *)

Definition pool_get_writable (len : Z) (p : BufferPool) : result unit (bytes * BufferPool) :=
  let shared := shared_state p in
  p ← (if (shared =? 0) && negb (back_len (pool_back p) =? 0) then reset p else Ok p);
  get_writable_ mode_changes len shared false p.
(** A write through the window that [pool_get_writable] returned last. *)
Definition pool_write_window (w : bytes) (p : BufferPool) : BufferPool :=
  match mode p with
  | Alloc => set_system (write_window (system_memory p) w) p
  | _ =>
      let m := inner_memory p in
      set_inner (set_pool (overwrite (pool m) (raw_offset m + raw_len m - zlen w) w) m) p
  end.
Definition pool_get_data_owned (p : BufferPool) : result unit (Slice * BufferPool) :=
  match mode p with
  | Alloc => let '(v, t) := get_data_owned (system_memory p) in Ok (Slice_from v, set_system t p)
  | Back =>
      '(s, shared, memory) ← InnerMemory_get_data_owned (shared_state p) (inner_memory p);
      b ← set_len_from_inner_memory (mem_len memory) (pool_back p);
      Ok (s, set_back b (set_inner memory (set_shared shared p)))
  | Front f =>
      '(s, shared, memory) ← InnerMemory_get_data_owned (shared_state p) (inner_memory p);
      Ok (s, set_mode (Front (set_front_len (mem_len memory) f)) (set_inner memory (set_shared shared p)))
  end.
Definition pool_get_data_by_ref (len : Z) (p : BufferPool) : result unit bytes :=
  match mode p with
  | Alloc => Ok (get_data_by_ref (system_memory p) len)
  | _ => raw_data (inner_memory p)
  end.
Definition pool_len (p : BufferPool) : Z :=
  match mode p with
  | Alloc => buf_len (system_memory p)
  | _ => raw_len (inner_memory p)
  end.
Definition pool_danger_set_start (index : Z) (p : BufferPool) : BufferPool :=
  mkPool (pool_back p) (mode p) (shared_state p) (inner_memory p) (system_memory p) index.
Definition is_droppable (p : BufferPool) : bool := shared_state p =? 0.
Definition pool_as_ref (p : BufferPool) : result unit bytes :=
  data ← pool_get_data_by_ref (pool_len p) p; slice_from data (pool_start p).
Definition pool_extend_from_slice (other : bytes) (p : BufferPool) : result unit BufferPool :=
  '(_, p) ← pool_get_writable (zlen other) p; Ok (pool_write_window other p).
Definition pool_truncate (len : Z) (p : BufferPool) : BufferPool :=
  let len := len + pool_start p in
  match mode p with
  | Alloc => set_system (truncate (system_memory p) len) p
  | _ => set_inner (set_raw (raw_offset (inner_memory p)) len (inner_memory p)) p
  end.

(** [Slice::as_ref] and [Slice::drop]; the pool outlives its slices. *)
Definition slice_as_ref (s : Slice) (p : BufferPool) : bytes :=
  match sl_owned s with
  | Some v => v
  | None => window_at (sl_offset s) (sl_len s) (inner_memory p)
  end.
Definition Slice_len (s : Slice) : Z := match sl_owned s with Some v => zlen v | None => 0 end.
Definition Slice_is_empty (s : Slice) : bool := Slice_len s =? 0.
(** Indexing by a position and by the two kinds of range. *)
Definition slice_index (s : Slice) (index : Z) (p : BufferPool) : result unit Byte.byte :=
  unwrap (zget index (slice_as_ref s p)).
Definition slice_index_from (s : Slice) (index : Z) (p : BufferPool) : result unit bytes :=
  slice_from (slice_as_ref s p) index.
Definition slice_index_range (s : Slice) (a b : Z) (p : BufferPool) : result unit bytes :=
  slice_range (slice_as_ref s p) a b.
Definition slice_drop (s : Slice) (p : BufferPool) : result unit BufferPool :=
  shared ← toogle (sl_index s) (shared_state p); Ok (set_shared shared p).
End pool.
Arguments BufferPool : clear implicits.
End Pool.
