(* ===== verification/BufferPoolFacts.v ===== *)
(** * Facts about the buffer pool

    The data being written survives every change of place and mode; the bits
    of the shared state. *)

From S2P Require Import Prelude Buffer BufferPool.
Import Pool.

(** ** Windows of a byte string *)

Section windows.
Implicit Types v s : bytes.
Definition win (o n : Z) v : bytes := ztake n (zdrop o v).
Lemma win_0 o v : win o 0 v = [].
Proof. apply ztake_0. Qed.
Lemma win_zlen o n v : 0 ≤ o → 0 ≤ n → o + n ≤ zlen v → zlen (win o n v) = n.
Proof. apply zlen_window. Qed.
Lemma win_app o n m v : 0 ≤ o → 0 ≤ n → 0 ≤ m → win o (n + m) v = win o n v ++ win (o + n) m v.
Proof. intros. unfold win. rewrite ztake_plus by done. by rewrite zdrop_zdrop. Qed.
Lemma win_overwrite o v s : 0 ≤ o → o + zlen s ≤ zlen v → win o (zlen s) (overwrite v o s) = s.
Proof.
  intros. pose proof (zlen_nonneg s). unfold win, overwrite.
  rewrite zdrop_app by (rewrite zlen_take; lia). by apply ztake_app.
Qed.
Lemma win_before a n o v s :
  0 ≤ a → 0 ≤ n → a + n ≤ o → o ≤ zlen v → win a n (overwrite v o s) = win a n v.
Proof.
  intros. unfold win, overwrite.
  rewrite zdrop_app_le by (rewrite zlen_take; lia).
  rewrite ztake_app_le by (rewrite zlen_drop; rewrite ?zlen_take; lia).
  replace o with (a + (o - a)) by lia. rewrite zdrop_ztake by lia. by rewrite ztake_ztake by lia.
Qed.
Lemma win_prefix n v s : n = zlen s → zlen s ≤ zlen v → win 0 n (overwrite v 0 s) = s.
Proof. intros -> ?. by apply win_overwrite. Qed.
Lemma slice_range_win {E} v a b w :
  slice_range (E := E) v a b = Ok w → 0 ≤ a ∧ a ≤ b ∧ b ≤ zlen v ∧ w = win a (b - a) v.
Proof. unfold slice_range. split_if; [|done]. bool_props. intros. inv_res. done. Qed.
End windows.

(** ** Data that moves *)

(** The window of the data being written, where there is any. *)
Definition raw_fits (m : InnerMemory) : Prop :=
  0 ≤ raw_len m ∧ (0 < raw_len m → 0 ≤ raw_offset m ∧ raw_offset m + raw_len m ≤ capacity m).
Definition data_of (m : InnerMemory) : bytes := win (raw_offset m) (raw_len m) (pool m).
Definition same_data (m m' : InnerMemory) : Prop :=
  raw_fits m' ∧ data_of m' = data_of m ∧ raw_len m' = raw_len m ∧ capacity m' = capacity m.

Lemma same_data_refl m : raw_fits m → same_data m m.
Proof. done. Qed.
Lemma same_data_trans m1 m2 m3 : same_data m1 m2 → same_data m2 m3 → same_data m1 m3.
Proof. intros (? & ? & ? & ?) (? & ? & ? & ?). split_and!; [done|congruence..]. Qed.
Lemma same_data_mem_len k m : raw_fits m → same_data m (set_mem_len k m).
Proof. done. Qed.
Lemma data_zlen m : raw_fits m → zlen (data_of m) = raw_len m.
Proof.
  intros [Hr Hf]. unfold data_of. destruct (decide (raw_len m = 0)) as [->|]; [by rewrite win_0|].
  apply win_zlen; [lia..|]. unfold capacity in *. lia.
Qed.
Lemma raw_data_Ok m d : raw_data m = Ok d → d = data_of m.
Proof.
  unfold raw_data, data_of. intros (_ & _ & _ & ->)%slice_range_win. f_equal. lia.
Qed.

Lemma move_same offset m m' :
  raw_fits m → move_raw_at_offset_unchecked offset m = Ok m' →
  same_data m m' ∧ raw_offset m' = offset.
Proof.
  intros [Hr Hf]. unfold move_raw_at_offset_unchecked, copy_within.
  destruct (Z.eqb_spec (raw_len m) 0) as [Hz|Hz]; intros Hm.
  { inv_res. unfold same_data, raw_fits, data_of. cbn. rewrite Hz, !win_0. repeat split; lia. }
  apply bind_Ok in Hm as (v & Hv & Hm). injection Hm as <-.
  apply bind_Ok in Hv as (src & Hs & Hv). apply slice_range_win in Hs as (_ & _ & Hb & ->).
  revert Hv. split_if; [|done]. intros [= <-]. bool_props.
  replace (raw_offset m + raw_len m - raw_offset m) with (raw_len m) in * by lia.
  assert (Hl : zlen (win (raw_offset m) (raw_len m) (pool m)) = raw_len m) by (apply win_zlen; lia).
  unfold same_data, raw_fits, data_of, capacity. cbn. rewrite overwrite_length by lia.
  split_and!; [lia|lia| |done..]. rewrite <- Hl at 1. apply win_overwrite; lia.
Qed.
Lemma try_change_len_same k n m b m' :
  raw_fits m → try_change_len k n m = Ok (b, m') →
  same_data m m' ∧ (b = true → raw_offset m' + raw_len m' + n ≤ capacity m' ∧ mem_len m' = k).
Proof.
  intros Hf. unfold try_change_len. intros (o & _ & Hm)%bind_Ok. revert Hm. split_if; intros Hm; bool_props.
  - apply bind_Ok in Hm as (m1 & Hv & Hm). injection Hm as <- <-.
    assert (mem_len m1 = k).
    { revert Hv. unfold move_raw_at_offset_unchecked. cbn. split_if; intros Hv; inv_res; done. }
    apply move_same in Hv as [(? & ? & Hl & Hc) Ho]; [|exact Hf]. cbn in Hl, Hc. split; [done|]. split; [|done].
    rewrite Ho, Hl, Hc. done.
  - injection Hm as <- <-. split; [by apply same_data_refl|done].
Qed.

Section modes.
Context (chk : bool).

Lemma try_clear_tail_same m st n b r b' m' :
  raw_fits m → try_clear_tail_unchecked chk m st n b = Ok (r, b', m') →
  same_data m m' ∧ (r = true → raw_offset m' + raw_len m' + n ≤ capacity m').
Proof.
  intros Hf. unfold try_clear_tail_unchecked. intros (e & _ & Ha)%bind_Ok.
  apply bind_Ok in Ha as (a & _ & Ha). revert Ha.
  repeat (split_if; [intros [= <- <- <-]; by split; [apply same_data_refl|]|]).
  split_if; [|intros [= <- <- <-]; by split; [apply same_data_refl|]].
  intros (d & _ & Ha)%bind_Ok. apply bind_Ok in Ha as (l & _ & Ha).
  apply bind_Ok in Ha as ([c m1] & Hc & Ha). injection Ha as <- <- <-.
  apply try_change_len_same in Hc as [Hs Hr]; [|done]. split; [done|]. intros ->. by apply Hr.
Qed.
Lemma front_clear_tail_same m st f r f' m' :
  raw_fits m → PoolFront_try_clear_tail chk m st f = Ok (r, f', m') → same_data m m'.
Proof.
  intros Hf. unfold PoolFront_try_clear_tail. intros (e & _ & Ha)%bind_Ok.
  apply bind_Ok in Ha as (st' & _ & Ha). revert Ha.
  split_if; [intros [= <- <- <-]; by apply same_data_refl|].
  split_if.
  - intros (o & _ & Ha)%bind_Ok. apply bind_Ok in Ha as (m1 & Hm & Ha). injection Ha as <- <- <-.
    by eapply move_same.
  - intros (l & _ & Ha)%bind_Ok. apply bind_Ok in Ha as (o & _ & Ha).
    apply bind_Ok in Ha as (m1 & Hm & Ha). injection Ha as <- <- <-.
    apply move_same in Hm as [Hm _]; [|done]. exact Hm.
Qed.
Lemma clear_unchecked_same m st n b r b' m' :
  raw_fits m → clear_unchecked chk m st n b = Ok (r, b', m') → same_data m m' ∧ r ≠ Some Back.
Proof.
  intros Hf. unfold clear_unchecked. intros ([[c b1] m1] & Hc & Ha)%bind_Ok.
  apply try_clear_tail_same in Hc as [Hs _]; [|done]. destruct c; [by injection Ha as <- <- <-|].
  apply bind_Ok in Ha as ([md b2] & Hh & Ha). injection Ha as <- <- <-. split; [done|].
  revert Hh. unfold try_clear_head. cbn beta zeta. split_if; [|by intros [= <- <-]].
  intros (fc & _ & Hh)%bind_Ok. revert Hh. split_if; by intros [= <- <-].
Qed.

(** The window handed out continues the data. *)
Definition extends (n : Z) (m : InnerMemory) (w : Z) (m' : InnerMemory) : Prop :=
  raw_fits m' ∧ capacity m' = capacity m ∧
  data_of m' = data_of m ++ window_at w n m' ∧ zlen (window_at w n m') = n.
Lemma get_writable_raw_extends n m w m' :
  raw_fits m → 0 ≤ n → get_writable_raw_unchecked n m = Ok (w, m') → extends n m w m'.
Proof.
  intros [Hr Hf] Hn. unfold get_writable_raw_unchecked. intros (x & Hx & Ha)%bind_Ok. injection Ha as <- <-.
  apply slice_range_win in Hx as (H0 & H1 & H2 & _). unfold extends, raw_fits, data_of, window_at, capacity in *. cbn.
  assert (0 ≤ raw_offset m ∨ raw_len m = 0) as Hor by lia.
  split_and!; [lia|lia|done| |].
  - destruct (decide (raw_len m = 0)) as [E|E].
    + rewrite E, win_0, Z.add_0_r. done.
    + rewrite win_app by lia. done.
  - apply win_zlen; lia.
Qed.
Lemma back_get_writable_data n m st b r b' m' :
  raw_fits m → 0 ≤ n → PoolBack_get_writable chk n m st b = Ok (r, b', m') →
  match r with inl w => extends n m w m' | inr to => same_data m m' ∧ to ≠ Back end.
Proof.
  intros Hf Hn. unfold PoolBack_get_writable. split_if.
  { intros ([w m1] & Hw & Ha)%bind_Ok. injection Ha as <- <- <-. by apply get_writable_raw_extends. }
  intros (c & _ & Ha)%bind_Ok. destruct c; [|injection Ha as <- <- <-; by split; [apply same_data_refl|]].
  apply bind_Ok in Ha as ([[o b1] m1] & Hc & Ha). apply clear_unchecked_same in Hc as [Hs Ho]; [|done].
  destruct o as [md|]; [injection Ha as <- <- <-; split; [done|congruence]|]. revert Ha. split_if; [|by intros [= <- <- <-]].
  intros ([w m2] & Hw & Ha)%bind_Ok. injection Ha as <- <- <-. destruct Hs as (? & Hd & _ & Hc).
  apply get_writable_raw_extends in Hw as (? & ? & He & ?); [|done..]. rewrite Hd in He. split_and!; [done|congruence|done..].
Qed.
Lemma front_get_writable_data n m st f r f' m' :
  raw_fits m → 0 ≤ n → PoolFront_get_writable chk n m st f = Ok (r, f', m') →
  match r with inl w => extends n m w m' | inr to => same_data m m' ∧ to = Back end.
Proof.
  intros Hf Hn. unfold PoolFront_get_writable. split_if.
  { intros ([w m1] & Hw & Ha)%bind_Ok. injection Ha as <- <- <-. by apply get_writable_raw_extends. }
  intros ([[o f1] m1] & Hc & Ha)%bind_Ok.
  assert (same_data m m1 ∧ (o = None ∨ o = Some Back)) as [Hs Ho].
  { revert Hc. unfold PoolFront_clear. split_if; [|intros [= <- <- <-]; auto using same_data_refl].
    intros ([[c f2] m2] & Ht & Hc)%bind_Ok. apply front_clear_tail_same in Ht; [|done].
    revert Hc. split_if; intros [= <- <- <-]; auto. }
  destruct Ho as [->| ->]; [|by injection Ha as <- <- <-].
  apply bind_Ok in Ha as ([w m2] & Hw & Ha). injection Ha as <- <- <-. destruct Hs as (? & Hd & _ & Hc').
  apply get_writable_raw_extends in Hw as (? & ? & He & ?); [|done..]. rewrite Hd in He. split_and!; [done|congruence|done..].
Qed.
End modes.

(** ** The data of the pool *)

Section pool.
Context (chk : bool) {T : Type} `{BufferSpec T}.
Implicit Types p : BufferPool T.

Definition pool_contents p : bytes :=
  match mode p with
  | Alloc => contents (system_memory p)
  | _ => data_of (inner_memory p)
  end.
(** Only one of the two memories holds data. *)
Record pool_ok p : Prop := {
  ok_system : buf_ok (system_memory p);
  ok_fits : raw_fits (inner_memory p);
  ok_one : match mode p with
           | Alloc => raw_len (inner_memory p) = 0
           | _ => contents (system_memory p) = []
           end }.

Lemma pool_len_contents p : pool_ok p → pool_len p = zlen (pool_contents p).
Proof.
  intros [Hs Hf _]. unfold pool_len, pool_contents.
  destruct (mode p); [by rewrite data_zlen..|]. by apply buf_len_spec.
Qed.
Lemma data_empty m : raw_len m = 0 → data_of m = [].
Proof. unfold data_of. intros ->. apply win_0. Qed.

(** A step that moves data between the memories, and one that adds a window. *)
Definition kept p p' : Prop := pool_ok p' ∧ pool_contents p' = pool_contents p ∧ pool_start p' = pool_start p.
Lemma kept_refl p : pool_ok p → kept p p.
Proof. done. Qed.
Lemma kept_trans p1 p2 p3 : kept p1 p2 → kept p2 p3 → kept p1 p3.
Proof. intros (? & ? & ?) (? & ? & ?). split_and!; [done|congruence..]. Qed.
Definition grown (n : Z) p (w : bytes) p' : Prop :=
  pool_ok p' ∧ pool_contents p' = pool_contents p ++ w ∧ zlen w = n ∧ pool_start p' = pool_start p.
Lemma kept_grown n p1 p2 w p3 : kept p1 p2 → grown n p2 w p3 → grown n p1 w p3.
Proof. intros (? & ? & ?) (? & ? & ? & ?). split_and!; [done|congruence..]. Qed.

Lemma to_alloc_kept p p' : pool_ok p → mode p ≠ Alloc → to_alloc p = Ok p' → kept p p'.
Proof.
  intros Hok Hm. destruct (Hok) as [Hs Hf Ho]. assert (contents (system_memory p) = []) as He by by destruct (mode p).
  unfold to_alloc. intros (src & ->%raw_data_Ok & Ha)%bind_Ok.
  destruct (get_writable_spec (system_memory p) (raw_len (inner_memory p)) Hs) as (w & t & Hw & Ht & Hl & Hc & _);
    [apply Hf|]. rewrite Hw in Ha. injection Ha as <-.
  rewrite He in Hc. rewrite <- (data_zlen _ Hf) in Hl.
  destruct (write_window_spec t [] w (data_of (inner_memory p)) Ht Hc) as (Hok' & Hc' & _); [done|].
  split_and!; [|by unfold pool_contents; cbn; rewrite Hc'; destruct (mode p)|done].
  split; [done|done|done].
Qed.
(** Replacing the memory by one with the same data. *)
Lemma same_kept m b p : pool_ok p → same_data (inner_memory p) m → kept p (set_inner m (set_back b p)).
Proof.
  intros [Hs Hf Ho] (Hf' & Hd & Hl & _). split_and!; [split; [done..|]| |done].
  - cbn. destruct (mode p); congruence.
  - unfold pool_contents. cbn. by rewrite Hd.
Qed.
Lemma change_mode_kept to n st p p' :
  pool_ok p → (mode p = Alloc → contents (system_memory p) = []) →
  change_mode chk to n st p = Ok p' → kept p p'.
Proof.
  intros Hok He. destruct (Hok) as [Hs Hf Ho]. unfold change_mode.
  destruct (mode p) eqn:Hm, to as [|f'|]; try discriminate.
  - intros (m & Hv & Ha)%bind_Ok. injection Ha as <-. apply move_same in Hv as [Hd _]; [|done].
    destruct Hd as (? & Hd & _). unfold kept, pool_contents. rewrite Hm. by split_and!; [split|..].
  - apply to_alloc_kept; [done|congruence].
  - intros (c & _ & Ha)%bind_Ok. destruct c; [|apply to_alloc_kept in Ha; [done..|congruence]].
    apply bind_Ok in Ha as ([[c b] m] & Hc & Ha). apply try_clear_tail_same in Hc as [Hd _]; [|done].
    pose proof (same_kept m b p Hok Hd) as Hk. destruct c.
    + injection Ha as <-. destruct Hd as (? & Hd & _). unfold kept, pool_contents. rewrite Hm. by split_and!; [split|..].
    + apply to_alloc_kept in Ha; [by eapply kept_trans|apply Hk|]. cbn. congruence.
  - intros [= <-]. unfold kept, pool_contents. rewrite Hm, He by done. cbn.
    rewrite data_empty by done. by split_and!; [split; try apply He|..].
  - intros [= <-]. unfold kept, pool_contents. rewrite Hm, He by done. cbn.
    rewrite data_empty by done. split_and!; [split; [done|by split|by apply He]|done..].
Qed.

Lemma from_system_grown n p w p' :
  pool_ok p → mode p = Alloc → 0 ≤ n → from_system n p = Ok (w, p') → grown n p w p'.
Proof.
  intros [Hs Hf Ho] Hm Hn. unfold from_system.
  destruct (get_writable_spec (system_memory p) n Hs Hn) as (w0 & t & -> & Ht & Hl & Hc & _).
  intros [= <- <-]. unfold grown, pool_contents. rewrite Hm in *. cbn. rewrite Hm.
  split_and!; [split; cbn; [done..|by rewrite Hm]|done..].
Qed.
Lemma extends_grown n p w b m :
  pool_ok p → mode p ≠ Alloc → extends n (inner_memory p) w m →
  grown n p (window_at w n m) (set_inner m (set_back b p)).
Proof.
  intros [Hs Hf Ho] Hm (Hf' & _ & Hd & Hl). unfold grown, pool_contents. cbn.
  split_and!; [split; [done..|cbn; by destruct (mode p)]| |done..]. by destruct (mode p).
Qed.
Lemma front_kept f f' m p :
  pool_ok p → mode p = Front f → same_data (inner_memory p) m → kept p (set_inner m (set_mode (Front f') p)).
Proof.
  intros [Hs Hf Ho] Hm (Hf' & Hd & _). rewrite Hm in Ho. unfold kept, pool_contents. rewrite Hm. cbn. by split_and!; [split|..].
Qed.
Lemma front_grown n f f' w m p :
  pool_ok p → mode p = Front f → extends n (inner_memory p) w m →
  grown n p (window_at w n m) (set_inner m (set_mode (Front f') p)).
Proof.
  intros [Hs Hf Ho] Hm (Hf' & _ & Hd & Hl). rewrite Hm in Ho. unfold grown, pool_contents. rewrite Hm. cbn. by split_and!; [split|..].
Qed.

(** Whatever the modes it goes through, a request adds its window to the data. *)
Lemma get_writable_grown fuel n st wc p w p' :
  pool_ok p → 0 ≤ n → get_writable_ chk fuel n st wc p = Ok (w, p') → grown n p w p'.
Proof.
  revert wc p. induction fuel as [|fuel IH]; intros wc p Hok Hn; [done|]. cbn [get_writable_].
  destruct (mode p) as [|f|] eqn:Hm.
  - intros ([[r b] m] & Hg & Ha)%bind_Ok. apply back_get_writable_data in Hg; [|apply Hok|done].
    destruct r as [o|to].
    + injection Ha as <- <-. apply extends_grown; [done|congruence|done].
    + destruct Hg as [Hd Hto]. apply bind_Ok in Ha as (p1 & Hc & Ha).
      pose proof (same_kept m b p Hok Hd) as Hk.
      apply change_mode_kept in Hc; [|apply Hk|cbn; congruence].
      eapply kept_grown; [by eapply kept_trans|]. apply IH in Ha; [done|apply Hc|done].
  - intros ([[r f'] m] & Hg & Ha)%bind_Ok. apply front_get_writable_data in Hg; [|apply Hok|done].
    destruct r as [o|to].
    + injection Ha as <- <-. by eapply front_grown.
    + destruct Hg as [Hd Hto]. apply bind_Ok in Ha as (p1 & Hc & Ha).
      pose proof (front_kept f f' m p Hok Hm Hd) as Hk.
      apply change_mode_kept in Hc; [|apply Hk|done].
      eapply kept_grown; [by eapply kept_trans|]. apply IH in Ha; [done|apply Hc|done].
  - unfold get_writable_from_system_memory. intros (c & Hc & Ha)%bind_Ok. destruct c; [|by eapply from_system_grown].
    assert (contents (system_memory p) = []) as He.
    { revert Hc. destruct (Z.ltb_spec 0 (buf_len (system_memory p))) as [|Hl]; [done|]. intros _.
      rewrite buf_len_spec in Hl by apply Hok. apply length_zero_iff_nil. unfold zlen in Hl. lia. }
    apply bind_Ok in Ha as ([[r b] m] & Hcl & Ha). apply clear_unchecked_same in Hcl as [Hd Hr]; [|apply Hok].
    pose proof (same_kept m b p Hok Hd) as Hk.
    destruct r as [[|f|]|]; [done| | |].
    + apply bind_Ok in Ha as (p1 & Hch & Ha). apply change_mode_kept in Hch; [|apply Hk|done].
      eapply kept_grown; [by eapply kept_trans|]. apply IH in Ha; [done|apply Hch|done].
    + eapply kept_grown; [exact Hk|]. destruct Hk as [Hk _].
      assert (kept (set_inner m (set_back b p)) (set_inner (reset_raw m) (set_inner m (set_back b p)))) as Hk'.
      { unfold kept, pool_contents. cbn. rewrite Hm. split_and!; [|done..]. split; [apply Hk|by split|]. cbn. by rewrite Hm. }
      eapply kept_grown; [exact Hk'|]. apply from_system_grown in Ha; [done|apply Hk'|done|done].
    + apply bind_Ok in Ha as (p1 & Hch & Ha). apply change_mode_kept in Hch; [|apply Hk|done].
      eapply kept_grown; [by eapply kept_trans|]. apply IH in Ha; [done|apply Hch|done].
Qed.
Lemma reset_kept p p' : pool_ok p → reset p = Ok p' → kept p p'.
Proof.
  intros Hok. destruct (Hok) as [Hs Hf Ho]. unfold reset.
  assert (∀ md, mode p = md → md ≠ Alloc →
    (m ← move_raw_at_front (set_mem_len 0 (inner_memory p));
     Ok (mkPool PoolBack_new Back (shared_state p) m (system_memory p) (pool_start p))) = Ok p' → kept p p') as Hmove.
  { intros md Hm Hne (m & Hv & Ha)%bind_Ok. injection Ha as <-. apply move_same in Hv as [(Hf' & Hd & _) _]; [|done].
    unfold kept, pool_contents. rewrite Hm in *. cbn. destruct md; [| |done];
      (split_and!; [split; cbn; done|exact Hd|done]). }
  destruct (mode p) as [|f|] eqn:Hm; [intros Ha; by eapply (Hmove Back)|intros Ha; by eapply (Hmove (Front f))|]. cbn. split_if; intros Ha.
  2:{ injection Ha as <-. unfold kept, pool_contents. cbn. rewrite Hm. split_and!; [split; cbn; [done..|by rewrite Hm]|done..]. }
  apply bind_Ok in Ha as ([m t] & Hb & Ha). injection Ha as <-. pose proof (buf_len_spec _ Hs) as Hl.
  unfold kept, pool_contents. cbn. rewrite Hm. revert Hb. destruct (Z.ltb_spec 0 (buf_len (system_memory p))); intros Hb.
  - apply bind_Ok in Hb as (m1 & Hp & Hb). injection Hb as <- <-. revert Hp.
    rewrite get_data_by_ref_spec, Hl, ztake_ge by (done || lia). unfold prepend_raw_data. split_if; [|done]. intros [= <-]. bool_props.
    destruct (get_data_owned_spec _ Hs) as (t' & -> & Ht & Hc & _). cbn.
    unfold capacity, raw_fits, data_of in *. cbn in *. pose proof (zlen_nonneg (contents (system_memory p))).
    split_and!; [split; cbn; [done| |done]|by apply win_prefix|done].
    unfold raw_fits, capacity. cbn. rewrite overwrite_length by lia. split; lia.
  - injection Hb as <- <-. assert (contents (system_memory p) = []) as He.
    { apply length_zero_iff_nil. unfold zlen in Hl. lia. }
    rewrite He, data_empty by done. split_and!; [split; [done|by split|done]|done..].
Qed.
Lemma pool_get_writable_grown n p w p' :
  pool_ok p → 0 ≤ n → pool_get_writable chk n p = Ok (w, p') → grown n p w p'.
Proof.
  intros Hok Hn. unfold pool_get_writable. intros (p1 & Hr & Ha)%bind_Ok.
  assert (kept p p1) as Hk.
  { revert Hr. split_if; [by apply reset_kept|]. intros [= <-]. by apply kept_refl. }
  eapply kept_grown; [exact Hk|]. eapply get_writable_grown; [apply Hk|done|exact Ha].
Qed.
Lemma pool_write_window_data c w0 w p :
  pool_ok p → pool_contents p = c ++ w0 → zlen w = zlen w0 →
  pool_ok (pool_write_window w p) ∧ pool_contents (pool_write_window w p) = c ++ w.
Proof.
  intros Hok Hc Hl. destruct (Hok) as [Hs Hf Ho]. unfold pool_write_window, pool_contents in *.
  assert (data_of (inner_memory p) = c ++ w0 →
    raw_fits (set_pool (overwrite (pool (inner_memory p)) (raw_offset (inner_memory p) + raw_len (inner_memory p) - zlen w) w) (inner_memory p)) ∧
    data_of (set_pool (overwrite (pool (inner_memory p)) (raw_offset (inner_memory p) + raw_len (inner_memory p) - zlen w) w) (inner_memory p)) = c ++ w) as Hpool.
  { intros Hd. pose proof (f_equal zlen Hd) as Hz. rewrite data_zlen, zlen_app in Hz by done.
    destruct Hf as [Hr Hf]. pose proof (zlen_nonneg c). pose proof (zlen_nonneg w).
    unfold raw_fits, data_of, capacity in *. cbn [raw_offset raw_len pool set_pool] in *. destruct (decide (raw_len (inner_memory p) = 0)) as [E|E].
    { rewrite E, !win_0 in *. assert (c = [] ∧ w = []) as [-> ->]; [|split; [lia|done]].
      split; apply length_zero_iff_nil; unfold zlen in *; lia. }
    rewrite overwrite_length by lia. split; [lia|].
    replace (raw_len (inner_memory p)) with (zlen c + zlen w) in Hd |- * by lia.
    rewrite win_app in Hd |- * by lia. apply app_inj_1 in Hd as [Hd _].
    2:{ assert (zlen (win (raw_offset (inner_memory p)) (zlen c) (pool (inner_memory p))) = zlen c) as E' by (apply win_zlen; lia).
        by apply Nat2Z.inj. }
    replace (raw_offset (inner_memory p) + (zlen c + zlen w) - zlen w) with (raw_offset (inner_memory p) + zlen c) by lia.
    rewrite win_before, win_overwrite by lia. by rewrite Hd. }
  destruct (mode p) eqn:Hm; cbn; rewrite ?Hm.
  - destruct (Hpool Hc). split; [split; cbn; [done..|by rewrite Hm]|done].
  - destruct (Hpool Hc). split; [split; cbn; [done..|by rewrite Hm]|done].
  - destruct (write_window_spec _ c w0 w Hs Hc Hl) as (? & ? & ?). split; [split; cbn; [done..|by rewrite Hm]|done].
Qed.
Lemma pool_extend_data d p p' :
  pool_ok p → pool_extend_from_slice chk d p = Ok p' → pool_ok p' ∧ pool_contents p' = pool_contents p ++ d.
Proof.
  intros Hok. unfold pool_extend_from_slice. intros ([w p1] & Hg & Ha)%bind_Ok. injection Ha as <-.
  apply pool_get_writable_grown in Hg as (Hok' & Hc & Hl & _); [|done|apply zlen_nonneg].
  by eapply pool_write_window_data.
Qed.
(** Taking the data gives a slice that reads it. *)
Lemma pool_take_data p s p' :
  pool_ok p → pool_get_data_owned chk p = Ok (s, p') →
  pool_ok p' ∧ pool_contents p' = [] ∧ slice_as_ref s p' = pool_contents p.
Proof.
  intros Hok. destruct (Hok) as [Hs Hf Ho]. unfold pool_get_data_owned, pool_contents, slice_as_ref.
  assert (∀ x s sh m, InnerMemory_get_data_owned x (inner_memory p) = Ok (s, sh, m) →
    raw_fits m ∧ raw_len m = 0 ∧ sl_owned s = None ∧ window_at (sl_offset s) (sl_len s) m = data_of (inner_memory p)) as Hin.
  { intros x s0 sh m. unfold InnerMemory_get_data_owned. intros (d & _ & Ha)%bind_Ok.
    apply bind_Ok in Ha as ([[i sh'] m1] & Hb & Ha). injection Ha as <- <- <-.
    assert (pool m1 = pool (inner_memory p)) as Hp.
    { revert Hb. split_if; intros Hb; inv_res; done. }
    unfold window_at, data_of, win. cbn. rewrite Hp. done. }
  destruct (mode p) as [|f|] eqn:Hm.
  - intros ([[s0 sh] m] & Hg & Ha)%bind_Ok. apply Hin in Hg as (? & ? & Hs0 & Hw).
    apply bind_Ok in Ha as (b & _ & Ha). injection Ha as <- <-. cbn. rewrite Hm, Hs0, data_empty by done.
    split_and!; [split; cbn; [done..|by rewrite Hm]|done..].
  - intros ([[s0 sh] m] & Hg & Ha)%bind_Ok. apply Hin in Hg as (? & ? & Hs0 & Hw).
    injection Ha as <- <-. cbn. rewrite Hs0, data_empty by done. split_and!; [split; cbn; [done..]|done..].
  - destruct (get_data_owned_spec _ Hs) as (t & -> & Ht & Hc & _). intros [= <- <-]. cbn. rewrite Hm.
    split_and!; [split; cbn; [done..|by rewrite Hm]|done..].
Qed.
End pool.
