(* ===== verification/BufferPoolProperties.v ===== *)
(** * Properties of the buffer pool

    What was written since the last message is what the next slice reads, in
    every mode.  Slices that are still held keep their bytes as long as the
    pool is not asked for room when its eight slots are used up and the first
    of them has been given back; two histories show what happens beyond. *)

From S2P Require Import Prelude Buffer BufferPool BufferPoolFacts.
Import Pool.

(** ** Slots that follow each other *)

Fixpoint chain (off : Z) (l : list (Z * Z)) : Prop :=
  match l with
  | [] => True
  | (o, n) :: l => o = off ∧ 0 < n ∧ chain (off + n) l
  end.
Fixpoint chain_end (off : Z) (l : list (Z * Z)) : Z :=
  match l with
  | [] => off
  | (_, n) :: l => chain_end (off + n) l
  end.
Lemma chain_app off l k : chain off (l ++ k) ↔ chain off l ∧ chain (chain_end off l) k.
Proof. revert off. induction l as [|[o n] l IH]; intros off; cbn; [tauto|]. rewrite IH. tauto. Qed.
Lemma chain_end_app off l k : chain_end off (l ++ k) = chain_end (chain_end off l) k.
Proof. revert off. induction l as [|[o n] l IH]; intros off; cbn; [done|]. apply IH. Qed.
Lemma chain_end_ge off l : chain off l → off ≤ chain_end off l.
Proof.
  revert off. induction l as [|[o n] l IH]; intros off; cbn; [lia|]. intros (_ & Hn & Hc).
  specialize (IH _ Hc). lia.
Qed.
Lemma chain_take off l k : chain off l → chain off (take k l) ∧ chain_end off (take k l) ≤ chain_end off l.
Proof.
  intros Hc. rewrite <- (take_drop k l) in Hc. apply chain_app in Hc as [Ht Hd]. split; [done|].
  rewrite <- (take_drop k l) at 2. rewrite chain_end_app. by apply chain_end_ge.
Qed.
Lemma chain_lookup off l i o n :
  chain off l → l !! i = Some (o, n) → off ≤ o ∧ 0 < n ∧ o + n = chain_end off (take (S i) l).
Proof.
  intros Hc Hi. apply list.take_drop_middle in Hi as Hl. rewrite <- Hl in Hc.
  apply chain_app in Hc as [Ht (Ho & Hn & _)]. pose proof (chain_end_ge _ _ Ht).
  rewrite (take_S_r _ _ _ Hi), chain_end_app. cbn. lia.
Qed.

(** ** Bits of a byte *)

Definition bytes_checked (P : Z → bool) : bool := forallb (λ n, P (Z.of_nat n)) (seq 0 256).
Lemma bytes_checked_sound P x : bytes_checked P = true → 0 ≤ x < 256 → P x = true.
Proof.
  unfold bytes_checked. rewrite forallb_forall. intros Hp Hx.
  rewrite <- (Z2Nat.id x) by lia. apply Hp. apply in_seq. lia.
Qed.
Lemma leading_bit x : 0 ≤ x < 256 → leading_zeros x = 0 ↔ Z.testbit x 7 = true.
Proof.
  intros Hx. pose proof (bytes_checked_sound (λ x, Bool.eqb (leading_zeros x =? 0) (Z.testbit x 7)) x) as Hb.
  specialize (Hb ltac:(by vm_compute) Hx). apply eqb_prop in Hb. rewrite <- Hb. by rewrite Z.eqb_eq.
Qed.
Lemma trailing_bits x : 0 ≤ x < 256 → 0 ≤ trailing_zeros x ≤ 8 ∧ (∀ i, 0 ≤ i < trailing_zeros x → Z.testbit x i = false).
Proof.
  intros Hx. pose proof (bytes_checked_sound (λ x, (0 <=? trailing_zeros x) && (trailing_zeros x <=? 8) &&
    forallb (λ i, (trailing_zeros x <=? Z.of_nat i) || negb (Z.testbit x (Z.of_nat i))) (seq 0 8)) x) as Hb.
  specialize (Hb ltac:(by vm_compute) Hx). cbn beta in Hb. bool_props. split; [lia|]. intros i Hi.
  match goal with Hf : forallb _ _ = true |- _ => rewrite forallb_forall in Hf; specialize (Hf (Z.to_nat i)) as Hf' end.
  rewrite Z2Nat.id in Hf' by lia. destruct (Z.testbit x i); [|done].
  rewrite orb_false_r in Hf'. rewrite Z.leb_le in Hf'. assert (In (Z.to_nat i) (seq 0 8)) as Hin by (apply in_seq; lia).
  specialize (Hf' Hin). lia.
Qed.

Lemma sub_usize_ok chk a b : 0 ≤ b ≤ a → a < 2 ^ 64 → sub_usize chk a b = Ok (a - b).
Proof.
  intros. unfold sub_usize, sub_chk. destruct chk; [by rewrite (proj2 (Z.leb_le b a)) by lia|].
  rewrite wrap_small; [done|]. unfold fits. lia.
Qed.
Lemma sub_usize_8 chk b : 0 ≤ b ≤ 8 → sub_usize chk 8 b = Ok (8 - b).
Proof. intros. apply sub_usize_ok; lia. Qed.

(** ** The turns of a request *)

Section turns.
Context (chk : bool) {T : Type} `{BufferSpec T} (n st : Z) (Hst : 0 ≤ st < 256).
Implicit Types p : BufferPool T.

Definition counted (b : PoolBack) : Prop := 0 ≤ back_start b ≤ 8 ∧ 0 ≤ back_len b ≤ 8.
(** A cleared tail has room for the request. *)
Lemma cleared_tail_room m b b' m' :
  counted b → raw_fits m → tail_is_clearable chk st b = Ok true →
  try_clear_tail_unchecked chk m st n b = Ok (true, b', m') →
  has_tail_capacity n m' && (back_len b' + back_start b' <? POOL_CAPACITY) = true.
Proof.
  intros [Hbs Hbl] Hf Hcl Htr. pose proof (try_clear_tail_same _ _ _ _ _ _ _ _ Hf Htr) as [_ Hroom]. specialize (Hroom eq_refl).
  unfold has_tail_capacity. rewrite (proj2 (Z.leb_le _ _) Hroom). cbn [andb]. destruct (trailing_bits st Hst) as [Ht _].
  revert Hcl Htr. unfold tail_is_clearable, try_clear_tail_unchecked, POOL_CAPACITY. rewrite !sub_usize_8 by lia. cbn [mbind result_bind].
  intros [= Hc]. bool_props. destruct (decide (back_start b + back_len b = 8)) as [E|E].
  2:{ unfold sub_usize, sub_chk. destruct chk; [by rewrite (proj2 (Z.leb_gt _ 8)) by lia|]. cbn [mbind result_bind].
      assert (wrap 64 (8 - (back_start b + back_len b)) = 8 - (back_start b + back_len b) + 2 ^ 64) as ->.
      { unfold wrap. symmetry. apply (Z.mod_unique _ _ (-1)); lia. }
      repeat (split_if; [done|]). bool_props. lia. }
  rewrite E, sub_usize_8 by lia. cbn [mbind result_bind]. repeat (split_if; [done|]). split_if; [|done]. bool_props.
  rewrite !sub_usize_ok by lia. cbn [mbind result_bind]. rewrite sub_usize_ok by lia. cbn [mbind result_bind].
  intros ([c m1] & _ & Ha)%bind_Ok. injection Ha as _ <- _. cbn [back_len back_start]. apply Z.ltb_lt.
  lia.
Qed.
Lemma cleared_head_counted m b md b' : counted b → try_clear_head st m b = Ok (md, b') → counted b'.
Proof.
  intros [Hbs Hbl]. assert (0 ≤ leading_zeros st ≤ 8) as Hl.
  { unfold leading_zeros. split_if; [lia|]. bool_props. pose proof (Z.log2_lt_pow2 st 8). pose proof (Z.log2_nonneg st). lia. }
  unfold try_clear_head. cbn [back_start back_len]. split_if; [|intros [= _ <-]; by split].
  intros (fc & _ & Ha)%bind_Ok. revert Ha. split_if; intros [= _ <-]; [|by split]. split; cbn; [done|]. split_if; bool_props; lia.
Qed.
Lemma cleared_counted m b r b' m' :
  counted b → tail_is_clearable chk st b = Ok true → clear_unchecked chk m st n b = Ok (r, b', m') → counted b'.
Proof.
  intros Hb Hcl. unfold clear_unchecked. intros ([[c b1] m1] & Ht & Ha)%bind_Ok.
  assert (counted b1) as Hb1.
  { destruct Hb as [Hbs Hbl]. destruct (trailing_bits st Hst) as [Hz _]. revert Hcl Ht.
    unfold tail_is_clearable, try_clear_tail_unchecked, POOL_CAPACITY. rewrite !sub_usize_8 by lia. cbn [mbind result_bind].
    intros [= Hc]. bool_props. intros (ad & Had & Ht)%bind_Ok. revert Ht.
    repeat (split_if; [intros [= _ <- _]; by split|]). split_if; [|intros [= _ <- _]; by split]. bool_props.
    assert (0 ≤ ad) as Hpos.
    { revert Had. unfold sub_usize, sub_chk. destruct chk; [split_if; [|done]; bool_props; intros [= <-]; lia|].
      intros [= <-]. unfold wrap. by apply Z.mod_pos_bound. }
    rewrite !sub_usize_ok by lia. cbn [mbind result_bind]. rewrite sub_usize_ok by lia. cbn [mbind result_bind].
    intros ([c' m2] & _ & Ht)%bind_Ok. injection Ht as _ <- _. split; cbn [back_start back_len]; lia. }
  destruct c; [by injection Ha as _ <- _|]. apply bind_Ok in Ha as ([md b2] & Hh & Ha). injection Ha as _ <- _.
  by eapply cleared_head_counted.
Qed.

Lemma bind_ext {A B} (m : result unit A) (f g : A → result unit B) :
  (∀ a, m = Ok a → f a = g a) → m ≫= f = m ≫= g.
Proof. destruct m; cbn; auto. Qed.
Lemma one_turn_alloc j p : mode p = Alloc → get_writable_ chk (S j) n st true p = get_writable_ chk 1 n st true p.
Proof. intros Hm. cbn [get_writable_]. unfold get_writable_from_system_memory. by rewrite Hm, orb_true_r. Qed.
Lemma one_turn_room j wc p :
  mode p = Back → has_tail_capacity n (inner_memory p) && (back_len (pool_back p) + back_start (pool_back p) <? POOL_CAPACITY) = true →
  get_writable_ chk (S j) n st wc p = get_writable_ chk 1 n st wc p.
Proof.
  intros Hm Hr. cbn [get_writable_]. rewrite Hm. unfold PoolBack_get_writable. rewrite Hr.
  by destruct (get_writable_raw_unchecked n (inner_memory p)) as [[w m]| |].
Qed.
Lemma to_alloc_mode p p' : to_alloc p = Ok p' → mode p' = Alloc.
Proof. unfold to_alloc. intros (d & _ & Ha)%bind_Ok. destruct (get_writable _ _). by injection Ha as <-. Qed.
Lemma two_turns_front j wc f p :
  counted (pool_back p) → pool_ok p → 0 ≤ n → mode p = Front f →
  get_writable_ chk (S (S j)) n st wc p = get_writable_ chk 2 n st wc p.
Proof.
  intros Hc Hok Hn Hm. remember (S j) as j1 eqn:Ej. remember 1%nat as j2 eqn:Ej2. cbn [get_writable_]. rewrite Hm.
  apply bind_ext. intros [[r f'] m] Hg. apply front_get_writable_data in Hg; [|apply Hok|done].
  destruct r as [o|to]; [done|]. destruct Hg as [Hd ->]. pose proof (front_kept f f' m p Hok Hm Hd) as [Hk _].
  apply bind_ext. intros p1 Hch. subst j1 j2. revert Hch. unfold change_mode. cbn [mode set_mode set_inner pool_back inner_memory].
  intros (cl & Hcl & Ha)%bind_Ok. assert (∀ q, to_alloc q = Ok p1 → get_writable_ chk (S j) n st (is_alloc_mode p1) p1 =
    get_writable_ chk 1 n st (is_alloc_mode p1) p1) as Halloc.
  { intros q Hq%to_alloc_mode. unfold is_alloc_mode. rewrite Hq. by apply one_turn_alloc. }
  destruct cl; [|by eapply Halloc].
  apply bind_Ok in Ha as ([[c b] m1] & Ht & Ha). destruct c; [|by eapply Halloc].
  injection Ha as <-. apply one_turn_room; [done|]. cbn. eapply cleared_tail_room; [exact Hc|apply Hd|exact Hcl|exact Ht].
Qed.
(** Three turns are enough for any request, in any mode: [mode_changes]
    bounds the recursion of [get_writable_]. *)
Lemma get_writable_turns j wc p :
  counted (pool_back p) → pool_ok p → 0 ≤ n →
  get_writable_ chk (mode_changes + j) n st wc p = get_writable_ chk mode_changes n st wc p.
Proof.
  intros Hc Hok Hn. unfold mode_changes. cbn [Nat.add]. destruct (mode p) as [|f|] eqn:Hm.
  - remember (S (S j)) as j1 eqn:Ej. remember 2%nat as j2 eqn:Ej2. cbn [get_writable_]. rewrite Hm.
    apply bind_ext. intros [[r b] m] Hg. destruct r as [o|to]; [done|].
    assert (counted b) as Hb.
    { revert Hg. unfold PoolBack_get_writable. split_if; [by intros ([w m1] & _ & Ha)%bind_Ok; discriminate|].
      intros (cl & Hcl & Ha)%bind_Ok. destruct cl; [|by injection Ha as _ <- _].
      apply bind_Ok in Ha as ([[o b1] m1] & Hcu & Ha). apply cleared_counted in Hcu; [|done..].
      destruct o as [md|]; [by injection Ha as _ <- _|]. revert Ha. split_if; [by intros ([w m2] & _ & Ha)%bind_Ok|by intros [= _ <- _]]. }
    apply back_get_writable_data in Hg as [Hd Hto]; [|apply Hok|done].
    pose proof (same_kept m b p Hok Hd) as [Hk _].
    apply bind_ext. intros p1 Hch. subst j1 j2. pose proof (change_mode_kept _ _ _ _ _ _ Hk ltac:(cbn; congruence) Hch) as [Hok1 _].
    revert Hch. unfold change_mode. cbn [mode set_back set_inner]. rewrite Hm. destruct to as [|f|]; [done| |].
    + intros (m1 & _ & Ha)%bind_Ok. injection Ha as <-. by eapply two_turns_front.
    + intros Ha%to_alloc_mode. unfold is_alloc_mode. rewrite Ha. by rewrite !(one_turn_alloc (S _)).
  - by rewrite (two_turns_front (S j) wc f), (two_turns_front 1 wc f).
  - remember (S (S j)) as j1 eqn:Ej. remember 2%nat as j2 eqn:Ej2. cbn [get_writable_]. rewrite Hm. unfold get_writable_from_system_memory.
    apply bind_ext. intros cl Hcl. destruct cl; [|done]. assert (tail_is_clearable chk st (pool_back p) = Ok true ∧ contents (system_memory p) = []) as [Hcl' He].
    { revert Hcl. split_if; [done|]. bool_props. intros ->. split; [done|]. rewrite buf_len_spec in * by apply Hok.
      apply length_zero_iff_nil. unfold zlen in *. lia. }
    apply bind_ext. intros [[r b] m] Hcu. pose proof (cleared_counted _ _ _ _ _ Hc Hcl' Hcu) as Hb.
    pose proof Hcu as Hcu'. apply clear_unchecked_same in Hcu' as [Hd _]; [|apply Hok].
    pose proof (same_kept m b p Hok Hd) as [Hk _]. cbn zeta. destruct r as [[|f|]|]; [done| |done|].
    + apply bind_ext. intros p1 Hch. subst j1 j2. pose proof (change_mode_kept _ _ _ _ _ _ Hk ltac:(done) Hch) as [Hok1 _].
      revert Hch. unfold change_mode. cbn [mode set_back set_inner]. rewrite Hm. intros [= <-]. by eapply two_turns_front.
    + unfold change_mode. cbn [mode set_back set_inner]. rewrite Hm. cbn [mbind result_bind]. subst j1 j2.
      assert (has_tail_capacity n m && (back_len b + back_start b <? POOL_CAPACITY) = true) as Hroom.
      { revert Hcu. unfold clear_unchecked. intros ([[c b1] m1] & Ht & Ha)%bind_Ok. destruct c.
        - injection Ha as <- <-. eapply cleared_tail_room; [exact Hc|apply Hok|exact Hcl'|exact Ht].
        - by apply bind_Ok in Ha as ([md b2] & _ & Ha). }
      by rewrite !(one_turn_room (S _)).
Qed.
End turns.

(** ** The shape of a pool that allocates from its back *)

Section shape.
Context (chk : bool) {T : Type} `{BufferSpec T}.
Implicit Types p : BufferPool T.

Definition end_at (k : Z) (m : InnerMemory) : Z := chain_end 0 (ztake k (slots m)).
(** The used slots of the memory, and the bits of those beyond. *)
Record slots_ok (k st : Z) (m : InnerMemory) : Prop := {
  so_k : 0 ≤ k ≤ 8;
  so_st : 0 ≤ st < 256;
  so_length : length (slots m) = 8%nat;
  so_chain : chain 0 (ztake k (slots m));
  so_end : end_at k m ≤ capacity m;
  so_free : ∀ i, k < i ≤ 8 → Z.testbit st (8 - i) = false }.
Record shape p : Prop := {
  sh_start : back_start (pool_back p) = 0;
  sh_slots : slots_ok (back_len (pool_back p)) (shared_state p) (inner_memory p);
  sh_mode : match mode p with
            | Back => mem_len (inner_memory p) = back_len (pool_back p) ∧
                raw_offset (inner_memory p) = end_at (back_len (pool_back p)) (inner_memory p) ∧
                raw_offset (inner_memory p) + raw_len (inner_memory p) ≤ capacity (inner_memory p) ∧
                (0 < raw_len (inner_memory p) → back_len (pool_back p) < 8)
            | Front _ => False
            | Alloc => raw_offset (inner_memory p) = 0
            end }.

Lemma end_at_nonneg k st m : slots_ok k st m → 0 ≤ end_at k m.
Proof. intros Hs. apply (chain_end_ge 0), Hs. Qed.
Lemma end_at_le k k' st m : slots_ok k st m → 0 ≤ k' ≤ k → end_at k' m ≤ end_at k m.
Proof.
  intros Hs Hk. unfold end_at. rewrite <- (ztake_ztake k' k) by lia.
  by apply chain_take, Hs.
Qed.
Lemma slots_shrink k k' st m :
  slots_ok k st m → 0 ≤ k' ≤ k → (∀ i, k' < i ≤ 8 → Z.testbit st (8 - i) = false) → slots_ok k' st m.
Proof.
  intros Hs Hk Hb. pose proof (end_at_le _ k' _ _ Hs Hk). destruct Hs as [? ? ? Hc ? _].
  split; [lia|done|done| |lia|done].
  rewrite <- (ztake_ztake k' k) by lia. by apply chain_take.
Qed.
Lemma slots_same k st m m' : slots m' = slots m → capacity m' = capacity m → slots_ok k st m → slots_ok k st m'.
Proof. intros E Ec [? ? ? ? He ?]. split; unfold end_at in *; rewrite ?E, ?Ec; done. Qed.

(** The end of the used slots is where the next one starts. *)
Lemma slot_at k st m i : slots_ok k st m → 0 ≤ i < 8 → ∃ o n, slot m i = Ok (o, n) ∧ slots m !! Z.to_nat i = Some (o, n).
Proof.
  intros Hs Hi. destruct (lookup_lt_is_Some_2 (slots m) (Z.to_nat i)) as [[o n] Ho].
  { rewrite (so_length _ _ _ Hs). lia. }
  exists o, n. unfold slot, zget. by rewrite (proj2 (Z.leb_le 0 i)), Ho by lia.
Qed.
Lemma raw_offset_from_len_ok k st m j :
  slots_ok k st m → 0 ≤ j ≤ k → raw_offset_from_len j m = Ok (end_at j m).
Proof.
  intros Hs Hj. unfold raw_offset_from_len. destruct (Z.eqb_spec j 0) as [->|Hz]; [done|].
  pose proof (so_k _ _ _ Hs). destruct (slot_at k st m (j - 1) Hs) as (o & n & -> & Hl); [lia|]. cbn.
  assert (ztake k (slots m) !! Z.to_nat (j - 1) = Some (o, n)) as Hl'.
  { unfold ztake. rewrite lookup_take_lt by lia. done. }
  destruct (chain_lookup _ _ _ _ _ (so_chain _ _ _ Hs) Hl') as (_ & _ & ->). unfold end_at, ztake.
  rewrite take_take. by replace (S (Z.to_nat (j - 1)) `min` Z.to_nat k)%nat with (Z.to_nat j) by lia.
Qed.

(** Moving down within bounds. *)
Lemma move_ok m o :
  raw_fits m → 0 ≤ o → o + raw_len m ≤ capacity m →
  ∃ v, move_raw_at_offset_unchecked o m = Ok (set_raw o (raw_len m) (set_pool v m)) ∧ zlen v = zlen (pool m) ∧
    ∀ a n, 0 ≤ a → 0 ≤ n → a + n ≤ o → win a n v = win a n (pool m).
Proof.
  intros [Hr Hf] Ho Hc. unfold move_raw_at_offset_unchecked, copy_within, capacity in *.
  destruct (Z.eqb_spec (raw_len m) 0) as [Hz|Hz]; [exists (pool m); by destruct m|].
  rewrite slice_range_ok by lia. cbn [mbind result_bind].
  rewrite (proj2 (Z.leb_le 0 o)), (proj2 (Z.leb_le (o + raw_len m) (zlen (pool m)))) by lia. cbn [andb mbind result_bind].
  replace (raw_offset m + raw_len m - raw_offset m) with (raw_len m) by lia.
  eexists. split; [done|]. pose proof (zlen_window (pool m) (raw_offset m) (raw_len m)).
  split; [apply overwrite_length; lia|]. intros a n Ha Hn Hle. apply win_before; lia.
Qed.
(** Writing below an offset is seen by no window above it. *)
Definition below (o : Z) (m m' : InnerMemory) : Prop :=
  ∀ a n, 0 ≤ a → 0 ≤ n → a + n ≤ o → win a n (pool m') = win a n (pool m).

Lemma try_change_len_ok k st j n m :
  slots_ok k st m → raw_fits m → 0 ≤ j ≤ k → 0 ≤ n →
  ∃ c m', try_change_len j n m = Ok (c, m') ∧ slots m' = slots m ∧ capacity m' = capacity m ∧
    raw_len m' = raw_len m ∧ below (end_at j m) m m' ∧
    if (c : bool) then mem_len m' = j ∧ raw_offset m' = end_at j m ∧ end_at j m + raw_len m + n ≤ capacity m
    else m' = m.
Proof.
  intros Hs Hf Hj Hn. unfold try_change_len. rewrite (raw_offset_from_len_ok k st) by done. cbn [mbind result_bind].
  destruct (Z.leb_spec (end_at j m + raw_len m + n) (capacity m)) as [Hle|Hgt].
  - destruct (move_ok (set_mem_len j m) (end_at j m)) as (v & -> & Hv & Hb); [done| |unfold capacity in *; cbn; lia|].
    { apply (chain_end_ge 0). pose proof (so_chain _ _ _ Hs). rewrite <- (ztake_ztake j k) by lia. by apply chain_take. }
    eexists true, _. by split_and!.
  - by eexists false, m.
Qed.

(** Clearing a full back whose first slice is held: the freed slots at its end
    are used again, or the pool has to allocate. *)
Lemma clear_full st n m :
  slots_ok 8 st m → raw_fits m → 0 ≤ n → Z.testbit st 7 = true →
  ∃ r k m', clear_unchecked chk m st n (mkBack 0 8) = Ok (r, mkBack 0 k, m') ∧
    slots_ok k st m' ∧ slots m' = slots m ∧ capacity m' = capacity m ∧ raw_len m' = raw_len m ∧ below (end_at k m) m m' ∧
    match r with
    | None => k < 8 ∧ mem_len m' = k ∧ raw_offset m' = end_at k m' ∧ end_at k m' + raw_len m' + n ≤ capacity m'
    | Some md => md = Alloc ∧ m' = m
    end.
Proof.
  intros Hs Hf Hn Hb7. pose proof (so_st _ _ _ Hs) as Hst.
  apply leading_bit in Hb7 as Hl; [|done]. destruct (trailing_bits st Hst) as [Ht Hfree].
  unfold clear_unchecked, try_clear_tail_unchecked, POOL_CAPACITY. cbn [back_start back_len]. rewrite Hl, !sub_usize_8 by lia.
  cbn [mbind result_bind Z.eqb andb]. change (8 - 0) with 8. change (8 - (0 + 8)) with 0.
  rewrite Z.min_r by lia. change (8 =? 0) with false. destruct (Z.eqb_spec (trailing_zeros st) 0) as [Hz|Hz].
  { unfold try_clear_head. cbn. rewrite Hl. cbn. eexists (Some Alloc), 8, m. by split_and!. }
  rewrite (proj2 (Z.ltb_ge (trailing_zeros st) 0)) by lia.
  rewrite !sub_usize_ok by lia. cbn [mbind result_bind]. rewrite Z.sub_0_r, sub_usize_ok by lia. cbn [mbind result_bind back_len back_start].
  set (k := 8 - trailing_zeros st). rewrite Z.add_0_r.
  assert (slots_ok k st m) as Hk.
  { apply (slots_shrink 8); [done|lia|]. intros i Hi. apply Hfree. lia. }
  destruct (try_change_len_ok 8 st k n m Hs Hf) as (c & m' & -> & Hsl & Hc & Hr & Hbe & Hm'); [lia|done|].
  cbn [mbind result_bind]. destruct c.
  - destruct Hm' as (Hml & Hro & Hle). eexists None, k, m'.
    assert (end_at k m' = end_at k m) as -> by (unfold end_at; by rewrite Hsl).
    split_and!; try done; [by eapply slots_same|lia|lia].
  - subst m'. unfold try_clear_head. cbn. rewrite Hl. cbn. eexists (Some Alloc), k, m. by split_and!.
Qed.

(** Room at the end of the data. *)
Lemma get_writable_raw_ok n m :
  raw_fits m → 0 ≤ n → 0 ≤ raw_offset m → raw_offset m + raw_len m + n ≤ capacity m →
  get_writable_raw_unchecked n m = Ok (raw_offset m + raw_len m, set_raw (raw_offset m) (raw_len m + n) m).
Proof.
  intros [Hr _] Hn Ho Hc. unfold get_writable_raw_unchecked, capacity in *. by rewrite slice_range_ok by lia.
Qed.
(** Growth within the shape: the slots kept and the bytes below their end. *)
Definition settled p p' : Prop :=
  shape p' ∧ shared_state p' = shared_state p ∧ back_len (pool_back p') ≤ back_len (pool_back p) ∧
  ztake (back_len (pool_back p')) (slots (inner_memory p')) = ztake (back_len (pool_back p')) (slots (inner_memory p)) ∧
  below (end_at (back_len (pool_back p')) (inner_memory p')) (inner_memory p) (inner_memory p').

Lemma settled_refl p : shape p → settled p p.
Proof. intros. by split_and!. Qed.
Lemma settled_trans p1 p2 p3 : shape p2 → settled p1 p2 → settled p2 p3 → settled p1 p3.
Proof.
  intros Hs2 (_ & Hst & Hl & Ht & Hb) (Hs3 & Hst' & Hl' & Ht' & Hb').
  pose proof (so_k _ _ _ (sh_slots _ Hs3)) as Hk. split_and!; [done|congruence|lia| |].
  - rewrite Ht', <- (ztake_ztake _ (back_len (pool_back p2)) (slots (inner_memory p2))), Ht by lia.
    by rewrite ztake_ztake by lia.
  - intros a n Ha Hn Hle. rewrite Hb' by done. apply Hb; [done..|].
    unfold end_at in Hle. rewrite Ht' in Hle. etrans; [exact Hle|].
    apply (end_at_le _ _ (shared_state p2)); [apply Hs2|lia].
Qed.

(** Requests served from the system memory leave the pool's memory alone. *)
Lemma from_system_settled n p :
  shape p → pool_ok p → mode p = Alloc → 0 ≤ n → ∃ w p', from_system n p = Ok (w, p') ∧ settled p p'.
Proof.
  intros Hs Hok Hm Hn. unfold from_system.
  destruct (get_writable_spec (system_memory p) n (ok_system _ Hok) Hn) as (w & t & -> & _).
  do 2 eexists. split; [done|]. split_and!; try done. destruct Hs. split; [done..|]. cbn. by rewrite Hm in *.
Qed.
Lemma alloc_settled fuel n wc p :
  shape p → pool_ok p → mode p = Alloc → 0 ≤ n →
  0 < buf_len (system_memory p) ∨ wc = true ∨ back_len (pool_back p) < 8 →
  ∃ w p', get_writable_ chk (S fuel) n (shared_state p) wc p = Ok (w, p') ∧ settled p p'.
Proof.
  intros Hs Hok Hm Hn Hc. cbn [get_writable_]. rewrite Hm. unfold get_writable_from_system_memory.
  destruct (from_system_settled n p Hs Hok Hm Hn) as (w & p' & Hf & Hset). exists w, p'. split; [|done].
  assert ((if (0 <? buf_len (system_memory p)) || wc || (back_len (pool_back p) =? 0) then Ok false
    else tail_is_clearable chk (shared_state p) (pool_back p)) = Ok false) as ->; [|exact Hf].
  split_if; [done|]. bool_props. assert (back_len (pool_back p) < 8) by (destruct Hc as [?|[->|?]]; [lia|done|done]).
  unfold tail_is_clearable, POOL_CAPACITY. rewrite (sh_start _ Hs), sub_usize_8 by lia. cbn [mbind result_bind].
  by rewrite (proj2 (Z.leb_gt 8 (0 + back_len (pool_back p)))), andb_false_r by lia.
Qed.
Lemma to_alloc_shape p :
  shape p → pool_ok p → mode p = Back →
  ∃ t, to_alloc p = Ok (mkPool (pool_back p) Alloc (shared_state p) (reset_raw (inner_memory p)) t (pool_start p)).
Proof.
  intros Hs Hok Hm. pose proof (sh_mode _ Hs) as Hmd. rewrite Hm in Hmd. destruct Hmd as (_ & Ho & Hc & _).
  pose proof (end_at_nonneg _ _ _ (sh_slots _ Hs)). pose proof (proj1 (ok_fits _ Hok)).
  unfold to_alloc, raw_data. rewrite slice_range_ok by (unfold capacity in *; lia). cbn [mbind result_bind].
  destruct (get_writable (system_memory p) _) as [w t]. by eexists.
Qed.
Lemma back_room_settled fuel n wc p :
  shape p → pool_ok p → mode p = Back → 0 ≤ n → back_len (pool_back p) < 8 →
  raw_offset (inner_memory p) + raw_len (inner_memory p) + n ≤ capacity (inner_memory p) →
  ∃ w p', get_writable_ chk (S fuel) n (shared_state p) wc p = Ok (w, p') ∧ settled p p'.
Proof.
  intros Hs Hok Hm Hn Hl Hc. cbn [get_writable_]. rewrite Hm. unfold PoolBack_get_writable, has_tail_capacity.
  rewrite (proj2 (Z.leb_le _ _) Hc), (sh_start _ Hs), Z.add_0_r. unfold POOL_CAPACITY.
  rewrite (proj2 (Z.ltb_lt _ _) Hl). cbn [andb].
  pose proof (sh_mode _ Hs) as Hmd. rewrite Hm in Hmd. destruct Hmd as (Hml & Ho & Hc' & _).
  pose proof (end_at_nonneg _ _ _ (sh_slots _ Hs)).
  rewrite get_writable_raw_ok by first [exact (ok_fits _ Hok)|lia]. cbn [mbind result_bind]. do 2 eexists. split; [done|].
  split_and!; try done. split; cbn; [apply Hs|by eapply slots_same, Hs|]. rewrite Hm. split_and!; [done|done| |done]. unfold capacity in *. cbn. lia.
Qed.

(** The back gives up: what was written moves to the system memory. *)
Lemma alloc_after_back fuel n k p :
  shape p → pool_ok p → mode p = Back → 0 ≤ n → 0 ≤ k ≤ back_len (pool_back p) →
  slots_ok k (shared_state p) (inner_memory p) →
  ∃ w p', (p1 ← change_mode chk Alloc n (shared_state p) (set_back (mkBack 0 k) p);
           get_writable_ chk (S fuel) n (shared_state p) (is_alloc_mode p1) p1) = Ok (w, p') ∧ settled p p'.
Proof.
  intros Hs Hok Hm Hn Hk Hsl.
  assert (pool_ok (set_back (mkBack 0 k) p)) as Hok1 by (destruct Hok; by split).
  destruct (to_alloc_shape p Hs Hok Hm) as [t Ht].
  assert (to_alloc (set_back (mkBack 0 k) p) =
    Ok (mkPool (mkBack 0 k) Alloc (shared_state p) (reset_raw (inner_memory p)) t (pool_start p))) as Ht1.
  { revert Ht. unfold to_alloc. cbn. destruct (raw_data _); [|done..]. cbn. destruct (get_writable _ _). by intros [= ->]. }
  unfold change_mode. cbn [mode set_back]. rewrite Hm, Ht1. cbn [mbind result_bind].
  apply to_alloc_kept in Ht1 as (Hok2 & _ & _); [|done|cbn; congruence].
  set (q := mkPool (mkBack 0 k) Alloc (shared_state p) (reset_raw (inner_memory p)) t (pool_start p)) in *.
  assert (shape q) as Hq by (split; cbn; [done|by eapply slots_same, Hsl|done]).
  destruct (alloc_settled fuel n true q) as (w & p' & Hg & Hset); [done|done|done|done|by right; left|].
  exists w, p'. split; [exact Hg|]. eapply (settled_trans p q); [done| |exact Hset].
  split_and!; [done|done|cbn; lia|done|done].
Qed.

(** The slots cleared at the end take new data. *)
Lemma tail_reused_settled n k m' p :
  shape p → 0 ≤ n → 0 ≤ k ≤ back_len (pool_back p) → k < 8 → slots_ok k (shared_state p) m' →
  slots m' = slots (inner_memory p) → capacity m' = capacity (inner_memory p) →
  mem_len m' = k → raw_offset m' = end_at k m' → end_at k m' + raw_len m' + n ≤ capacity m' →
  below (end_at k (inner_memory p)) (inner_memory p) m' →
  settled p (set_inner (set_raw (raw_offset m') (raw_len m' + n) m') (set_back (mkBack 0 k) (set_mode Back p))).
Proof.
  intros Hs Hn Hk Hk8 Hsk Hse Hce Hml Hro Hle Hbe.
  assert (end_at k m' = end_at k (inner_memory p)) as He by (unfold end_at; by rewrite Hse).
  split_and!; cbn; [|done|lia|by rewrite Hse|by unfold end_at in *; cbn; rewrite He].
  split; cbn; [done|by eapply slots_same, Hsk|]. split_and!; [done|done| |done]. unfold capacity in *. cbn. lia.
Qed.
Lemma full_clearable st : 0 ≤ st < 256 → tail_is_clearable chk st (mkBack 0 8) = Ok true.
Proof.
  intros Hst. destruct (trailing_bits st Hst) as [Ht _]. unfold tail_is_clearable, POOL_CAPACITY. cbn [back_len back_start].
  rewrite sub_usize_8 by lia. cbn [mbind result_bind]. by rewrite Z.min_r, (proj2 (Z.leb_le (trailing_zeros _) 8)) by lia.
Qed.
Lemma not_clearable st bl : 0 ≤ bl < 8 → tail_is_clearable chk st (mkBack 0 bl) = Ok false.
Proof.
  intros Hb. unfold tail_is_clearable, POOL_CAPACITY. cbn [back_len back_start]. rewrite sub_usize_8 by lia. cbn [mbind result_bind].
  by rewrite (proj2 (Z.leb_gt 8 (0 + bl))), andb_false_r by lia.
Qed.

Lemma shape_slots p k : shape p → pool_back p = mkBack 0 k → slots_ok k (shared_state p) (inner_memory p).
Proof. intros Hs Hb. pose proof (sh_slots _ Hs) as E. by rewrite Hb in E. Qed.
Lemma back_full_settled n p :
  shape p → pool_ok p → 0 ≤ n → pool_back p = mkBack 0 8 → mode p = Back → Z.testbit (shared_state p) 7 = true →
  ∃ w p', get_writable_ chk 3 n (shared_state p) false p = Ok (w, p') ∧ settled p p'.
Proof.
  intros Hs Hok Hn Hb Hm H7. pose proof (shape_slots p 8 Hs Hb) as Hsl. cbn [get_writable_]. rewrite Hm, Hb.
  unfold PoolBack_get_writable, POOL_CAPACITY. cbn [back_len back_start].
  change (8 + 0 <? 8) with false. rewrite andb_false_r, full_clearable by apply Hsl. cbn [mbind result_bind].
  destruct (clear_full (shared_state p) n (inner_memory p) Hsl (ok_fits _ Hok) Hn H7)
    as (r & k & m' & -> & Hsk & Hse & Hce & Hre & Hbe & Hr). cbn [mbind result_bind]. pose proof (so_k _ _ _ Hsk).
  destruct r as [md|].
  { destruct Hr as [-> ->]. apply (alloc_after_back 1 n k p); rewrite ?Hb; done. }
  destruct Hr as (Hk8 & Hml & Hro & Hle). unfold has_tail_capacity. rewrite Hro, (proj2 (Z.leb_le _ _) Hle).
  cbn [back_len]. rewrite (proj2 (Z.ltb_lt _ _) Hk8). cbn [andb]. pose proof (end_at_nonneg _ _ _ Hsk).
  assert (raw_fits m') as Hf' by (split; rewrite Hre; [apply (ok_fits _ Hok)|lia]).
  rewrite get_writable_raw_ok by (done || lia). cbn [mbind result_bind]. do 2 eexists. split; [done|].
  replace p with (set_mode Back p) at 2 by (destruct p; cbn in *; by subst).
  apply tail_reused_settled; rewrite ?Hb; done.
Qed.
Lemma back_low_settled n k p :
  shape p → pool_ok p → 0 ≤ n → pool_back p = mkBack 0 k → mode p = Back → k < 8 → capacity (inner_memory p) < raw_offset (inner_memory p) + raw_len (inner_memory p) + n →
  ∃ w p', get_writable_ chk 3 n (shared_state p) false p = Ok (w, p') ∧ settled p p'.
Proof.
  intros Hs Hok Hn Hb Hm Hk Hc. pose proof (shape_slots p k Hs Hb) as Hsl. pose proof (so_k _ _ _ Hsl). cbn [get_writable_]. rewrite Hm, Hb.
  unfold PoolBack_get_writable, has_tail_capacity. rewrite (proj2 (Z.leb_gt _ _) Hc). cbn [andb].
  rewrite not_clearable by lia. cbn [mbind result_bind].
  apply (alloc_after_back 1 n k p); rewrite ?Hb; cbn; done || lia.
Qed.
Lemma alloc_full_settled n p :
  shape p → pool_ok p → 0 ≤ n → pool_back p = mkBack 0 8 → mode p = Alloc → Z.testbit (shared_state p) 7 = true → buf_len (system_memory p) = 0 →
  ∃ w p', get_writable_ chk 3 n (shared_state p) false p = Ok (w, p') ∧ settled p p'.
Proof.
  intros Hs Hok Hn Hb Hm H7 Hl. pose proof (shape_slots p 8 Hs Hb) as Hsl. remember 2%nat as f eqn:Ef. cbn [get_writable_]. unfold get_writable_from_system_memory. rewrite Hm, Hb, Hl. cbn [Z.ltb orb back_len].
  change (0 <? 0) with false. change (8 =? 0) with false. cbn [orb]. rewrite full_clearable by apply Hsl. cbn [mbind result_bind].
  destruct (clear_full (shared_state p) n (inner_memory p) Hsl (ok_fits _ Hok) Hn H7)
    as (r & k & m' & -> & Hsk & Hse & Hce & Hre & Hbe & Hr). cbn [mbind result_bind]. pose proof (so_k _ _ _ Hsk).
  destruct r as [md|].
  { destruct Hr as [-> ->]. set (q := set_inner _ _).
    assert (shape q) as Hq by (split; cbn; [done|by eapply slots_same, Hsk|by rewrite Hm]).
    assert (pool_ok q) as Hokq.
    { destruct Hok as [? ? Ho]. split; cbn; [done|by split|]. by rewrite Hm. }
    destruct (from_system_settled n q Hq Hokq) as (w & p' & Hf & Hset); [done..|].
    exists w, p'. split; [done|]. eapply (settled_trans p q); [done| |done]. split_and!; try done. cbn. rewrite Hb. cbn. lia. }
  destruct Hr as (Hk8 & Hml & Hro & Hle). pose proof (end_at_nonneg _ _ _ Hsk).
  unfold change_mode. cbn [mode set_inner set_back]. rewrite Hm. cbn [mbind result_bind]. subst f.
  set (q := set_mode Back _). assert (raw_len m' = 0) as Hr0.
  { rewrite Hre. pose proof (ok_one _ Hok) as Ho. by rewrite Hm in Ho. }
  assert (pool_ok q) as Hokq.
  { split; cbn; [apply Hok|split; cbn; lia|]. apply length_zero_iff_nil. rewrite buf_len_spec in Hl by apply Hok. unfold zlen in Hl. lia. }
  assert (shape q) as Hq.
  { split; cbn; [done|by eapply slots_same, Hsk|]. split_and!; [lia|done|unfold capacity in *; cbn; lia|done]. }
  destruct (back_room_settled 1 n false q Hq Hokq) as (w & p' & Hg & Hset); [done|done|done|unfold capacity in *; cbn; lia|].
  exists w, p'. split; [exact Hg|]. eapply (settled_trans p q); [done| |done].
  assert (end_at k m' = end_at k (inner_memory p)) as He by (unfold end_at; by rewrite Hse).
  split_and!; cbn; [done|done|rewrite Hb; cbn; lia|by rewrite Hse|by unfold end_at in *; cbn; rewrite He].
Qed.

(** A request in the shape is served, and the shape stays. *)
Lemma get_writable_settled n p :
  shape p → pool_ok p → 0 ≤ n →
  (back_len (pool_back p) = 8 → Z.testbit (shared_state p) 7 = true ∨ mode p = Alloc ∧ 0 < buf_len (system_memory p)) →
  ∃ w p', get_writable_ chk mode_changes n (shared_state p) false p = Ok (w, p') ∧ settled p p'.
Proof.
  intros Hs Hok Hn Hfull. unfold mode_changes. pose proof (so_k _ _ _ (sh_slots _ Hs)) as Hk.
  pose proof (sh_start _ Hs) as Hst. destruct (pool_back p) as [bs bl] eqn:Hb. cbn in Hk, Hst, Hfull. subst bs.
  destruct (mode p) as [|f|] eqn:Hm; [|by pose proof (sh_mode _ Hs); rewrite Hm in *|].
  - destruct (decide (bl = 8)) as [->|]; [destruct (Hfull eq_refl) as [H7|[? _]]; [by apply back_full_settled|done]|].
    destruct (decide (capacity (inner_memory p) < raw_offset (inner_memory p) + raw_len (inner_memory p) + n)).
    + apply (back_low_settled n bl); [done..|lia|done].
    + apply back_room_settled; rewrite ?Hb; cbn; done || lia.
  - destruct (decide (0 < buf_len (system_memory p) ∨ bl < 8)) as [Hor|Hno].
    { apply alloc_settled; rewrite ?Hb; cbn; tauto. }
    assert (bl = 8) as -> by lia. destruct (Hfull eq_refl) as [H7|[_ ?]]; [|lia].
    apply alloc_full_settled; try done. rewrite buf_len_spec by apply Hok. rewrite buf_len_spec in Hno by apply Hok.
    pose proof (zlen_nonneg (contents (system_memory p))). lia.
Qed.

Lemma slots_none st m : st = 0 → length (slots m) = 8%nat → slots_ok 0 st m.
Proof.
  intros -> Hl. split; [lia|lia|done| | |intros; apply Z.bits_0].
  - unfold ztake. by rewrite take_0.
  - unfold end_at, ztake. rewrite take_0. apply zlen_nonneg.
Qed.
Lemma used_capacity k st m : slots_ok k st m → k ≠ 0 → 0 < capacity m.
Proof.
  intros Hs Hk. pose proof (so_k _ _ _ Hs). pose proof (so_end _ _ _ Hs) as He.
  pose proof (so_chain _ _ _ Hs) as Hc. unfold end_at, ztake in *.
  destruct (slots m) as [|[o n] l] eqn:E; [by pose proof (so_length _ _ _ Hs); rewrite E in *|].
  replace (Z.to_nat k) with (S (Z.to_nat (k - 1))) in * by lia. cbn in *. destruct Hc as (_ & Hn & Hc).
  apply chain_end_ge in Hc. lia.
Qed.
Lemma emptied_settled p p' :
  shape p → shape p' → shared_state p' = shared_state p → back_len (pool_back p') = 0 → settled p p'.
Proof.
  intros Hs Hs' Hst Hl. pose proof (so_k _ _ _ (sh_slots _ Hs)). unfold settled. rewrite Hl. split_and!; [done|done|lia|done|].
  intros a n Ha Hn Hle. unfold end_at in Hle. rewrite ztake_0 in Hle. cbn [chain_end] in Hle. assert (n = 0) as -> by lia. by rewrite !win_0.
Qed.
Lemma reset_settled p :
  shape p → pool_ok p → shared_state p = 0 → back_len (pool_back p) ≠ 0 →
  ∃ p', reset p = Ok p' ∧ settled p p' ∧ pool_ok p' ∧
    (back_len (pool_back p') = 8 → mode p' = Alloc ∧ 0 < buf_len (system_memory p')).
Proof.
  intros Hs Hok Hst Hbl. enough (∃ p', reset p = Ok p' ∧ settled p p' ∧
    (back_len (pool_back p') = 8 → mode p' = Alloc ∧ 0 < buf_len (system_memory p'))) as (p' & Hr & Hset & Hf).
  { exists p'. split_and!; try done. by eapply (reset_kept p p' Hok Hr). }
  pose proof (so_length _ _ _ (sh_slots _ Hs)) as Hlen. pose proof (end_at_nonneg _ _ _ (sh_slots _ Hs)).
  pose proof (ok_fits _ Hok) as Hf. pose proof (proj1 Hf) as Hrl.
  unfold reset. pose proof (sh_mode _ Hs) as Hmd. destruct (mode p) as [|f|] eqn:Hm; [|done|].
  - destruct Hmd as (_ & Ho & Hc & _). destruct (move_ok (set_mem_len 0 (inner_memory p)) 0) as (v & Hv & Hvl & _);
      [done|done|unfold capacity in *; cbn; lia|].
    unfold move_raw_at_front. rewrite Hv. cbn [mbind result_bind]. eexists. split; [done|]. split; [|done].
    apply emptied_settled; [done| |done..]. split; cbn; [done|by apply slots_none|].
    split_and!; [done|done| |lia]. unfold capacity in *. cbn in *. lia.
  - cbn. pose proof (buf_len_spec _ (ok_system _ Hok)) as Hl. pose proof (zlen_nonneg (contents (system_memory p))).
    pose proof (used_capacity _ _ _ (sh_slots _ Hs) Hbl) as Hcap. unfold capacity in *. cbn [pool set_mem_len].
    destruct (Z.ltb_spec (buf_len (system_memory p)) (zlen (pool (inner_memory p)))) as [Hlt|Hge].
    2:{ eexists. split; [done|]. split; [|cbn; intros _; split; [done|lia]]. split_and!; try done.
        split; cbn; [apply Hs|by eapply slots_same, Hs|by rewrite Hm]. }
    destruct (Z.ltb_spec 0 (buf_len (system_memory p))); cbn [mbind result_bind].
    + rewrite get_data_by_ref_spec, ztake_ge by (apply Hok || lia). unfold prepend_raw_data, capacity. cbn [pool set_mem_len].
      rewrite (proj2 (Z.leb_le (zlen (contents (system_memory p))) _)) by lia. cbn [mbind result_bind].
      eexists. split; [done|]. split; [|done]. apply emptied_settled; [done| |done..].
      split; cbn; [done|by apply slots_none|]. split_and!; [done|done| |lia]. unfold capacity. cbn.
      rewrite overwrite_length by lia. lia.
    + eexists. split; [done|]. split; [|done]. apply emptied_settled; [done| |done..].
      split; cbn; [done|by apply slots_none|]. split_and!; [done|done| |lia]. unfold capacity. cbn. lia.
Qed.

(** All slots are used, and the first has been given back while others are held. *)
Definition head_freed p : bool :=
  (back_len (pool_back p) =? 8) && negb (shared_state p =? 0) && negb (Z.testbit (shared_state p) 7).
Lemma pool_get_writable_settled n p :
  shape p → pool_ok p → 0 ≤ n → head_freed p = false →
  ∃ w p', pool_get_writable chk n p = Ok (w, p') ∧ settled p p'.
Proof.
  intros Hs Hok Hn Hh. unfold pool_get_writable, head_freed in *.
  destruct (Z.eqb_spec (shared_state p) 0) as [Hz|Hz]; cbn [andb negb] in *.
  - destruct (Z.eqb_spec (back_len (pool_back p)) 0) as [Hb|Hb]; cbn [andb negb mbind result_bind].
    + apply get_writable_settled; [done..|lia].
    + destruct (reset_settled p Hs Hok Hz Hb) as (p1 & -> & Hset & Hok1 & Hf). cbn [mbind result_bind].
      destruct Hset as (Hs1 & Hst & Hset). rewrite <- Hst.
      destruct (get_writable_settled n p1 Hs1 Hok1 Hn) as (w & p' & Hg & Hset'); [by intros ?%Hf; right|].
      exists w, p'. split; [done|]. by eapply (settled_trans p p1).
  - apply get_writable_settled; [done..|]. intros Hb. rewrite Hb, Z.eqb_refl in Hh. left. by destruct (Z.testbit (shared_state p) 7).
Qed.

Lemma write_window_settled c w0 w p :
  shape p → pool_ok p → pool_contents p = c ++ w0 → zlen w = zlen w0 → settled p (pool_write_window w p).
Proof.
  intros Hs Hok Hc Hl. pose proof (sh_mode _ Hs) as Hmd. unfold pool_write_window, pool_contents in *.
  destruct (mode p) eqn:Hm; [|done|].
  - destruct Hmd as (Hml & Ho & Hle & Hk). pose proof (end_at_nonneg _ _ _ (sh_slots _ Hs)).
    pose proof (f_equal zlen Hc) as Hz. rewrite data_zlen, zlen_app in Hz by apply Hok.
    pose proof (zlen_nonneg c). pose proof (zlen_nonneg w). unfold capacity in *.
    assert (zlen (overwrite (pool (inner_memory p)) (raw_offset (inner_memory p) + raw_len (inner_memory p) - zlen w) w)
            = zlen (pool (inner_memory p))) as Hlen by (apply overwrite_length; lia).
    split_and!; cbn; try done.
    + split; cbn; [apply Hs|by eapply slots_same, Hs|]. rewrite Hm. split_and!; [done|done| |done]. unfold capacity. cbn. lia.
    + intros a n Ha Hn Hle'. cbn. apply win_before; [done..| |lia]. unfold end_at in *. cbn in *. lia.
  - split_and!; cbn; try done. split; cbn; [apply Hs|apply Hs|by rewrite Hm].
Qed.

(** ** Slices that are held *)

(** A slice with the bytes it was taken with. *)
Definition held (st : Z) (m : InnerMemory) (e : Slice * bytes) : Prop :=
  match sl_owned e.1 with
  | Some v => v = e.2 ∧ sl_index e.1 = INGORE_INDEX
  | None =>
      win (sl_offset e.1) (sl_len e.1) (pool m) = e.2 ∧
      (sl_index e.1 = INGORE_INDEX ∧ sl_len e.1 = 0 ∨
       1 ≤ sl_index e.1 ≤ 8 ∧ Z.testbit st (8 - sl_index e.1) = true ∧
       slots m !! Z.to_nat (sl_index e.1 - 1) = Some (sl_offset e.1, sl_len e.1))
  end.
Lemma held_index k st m e : slots_ok k st m → held st m e → sl_index e.1 = INGORE_INDEX ∨ 1 ≤ sl_index e.1 ≤ k.
Proof.
  intros Hs. unfold held. destruct (sl_owned e.1); [by intros [_ ->]; left|].
  intros [_ [[-> _]|(Hi & Hb & _)]]; [by left|right].
  destruct (decide (sl_index e.1 ≤ k)); [lia|]. rewrite (so_free _ _ _ Hs) in Hb by lia. done.
Qed.
Lemma held_reads p e : held (shared_state p) (inner_memory p) e → slice_as_ref e.1 p = e.2.
Proof. unfold held, slice_as_ref. destruct (sl_owned e.1); [by intros [-> _]|by intros [Hw _]]. Qed.
Lemma held_settled p p' e :
  shape p → settled p p' → held (shared_state p) (inner_memory p) e → held (shared_state p') (inner_memory p') e.
Proof.
  intros Hs (Hs' & Hst & Hl & Ht & Hb) He. rewrite Hst. unfold held in *. destruct (sl_owned e.1) as [v|]; [done|].
  destruct He as [Hw [[Hi Hz]|(Hi & Hbit & Hsl)]].
  { split; [|by left]. rewrite Hz in *. by rewrite win_0 in *. }
  pose proof (sh_slots _ Hs') as Hk. rewrite Hst in Hk.
  assert (sl_index e.1 ≤ back_len (pool_back p')) as Hle.
  { destruct (decide (sl_index e.1 ≤ back_len (pool_back p'))); [done|]. rewrite (so_free _ _ _ Hk) in Hbit by lia. done. }
  assert (ztake (back_len (pool_back p')) (slots (inner_memory p')) !! Z.to_nat (sl_index e.1 - 1) = Some (sl_offset e.1, sl_len e.1)) as Hl'.
  { rewrite Ht. unfold ztake. by rewrite lookup_take_lt by lia. }
  destruct (chain_lookup _ _ _ _ _ (so_chain _ _ _ Hk) Hl') as (Ho & Hn & He').
  pose proof (chain_take 0 _ (S (Z.to_nat (sl_index e.1 - 1))) (so_chain _ _ _ Hk)) as [_ Hce]. rewrite <- He' in Hce.
  split.
  - rewrite Hb; [done|done|lia|]. unfold end_at. lia.
  - right. split_and!; [lia|lia|done|]. unfold ztake in Hl'. by rewrite lookup_take_lt in Hl' by lia.
Qed.
Lemma toogle_ok i st : 1 ≤ i ≤ 8 → toogle i st = Ok (Z.lxor st (2 ^ (8 - i))).
Proof.
  intros Hi. unfold toogle, INGORE_INDEX. rewrite (proj2 (Z.eqb_neq i 59)) by lia.
  by rewrite (proj2 (Z.leb_le 1 i)), (proj2 (Z.leb_le i 8)) by lia.
Qed.
Lemma toogle_bits i j st : 1 ≤ i ≤ 8 → 1 ≤ j ≤ 8 →
  Z.testbit (Z.lxor st (2 ^ (8 - i))) (8 - j) = xorb (Z.testbit st (8 - j)) (i =? j).
Proof.
  intros Hi Hj. rewrite Z.lxor_spec, Z.pow2_bits_eqb by lia. f_equal.
  destruct (Z.eqb_spec i j), (Z.eqb_spec (8 - i) (8 - j)); done || lia.
Qed.
Lemma toogle_range i st : 1 ≤ i ≤ 8 → 0 ≤ st < 256 → 0 ≤ Z.lxor st (2 ^ (8 - i)) < 256.
Proof.
  intros Hi Hst. pose proof (bytes_checked_sound (λ x, forallb (λ i, (0 <=? Z.lxor x (2 ^ (8 - Z.of_nat i))) &&
    (Z.lxor x (2 ^ (8 - Z.of_nat i)) <? 256)) (seq 1 8)) st) as Hb.
  specialize (Hb ltac:(by vm_compute) Hst). cbn beta in Hb. rewrite forallb_forall in Hb.
  specialize (Hb (Z.to_nat i)). rewrite Z2Nat.id in Hb by lia. assert (In (Z.to_nat i) (seq 1 8)) as Hin by (apply in_seq; lia).
  specialize (Hb Hin). bool_props. lia.
Qed.
End shape.

(** ** Histories *)

(** A pool in use: writes, messages taken, slices dropped by position. *)
Inductive use : Type := Write (data : bytes) | Take | Drop (k : nat).
(** The pool, and what its user expects: the bytes of the message being
    written and those of the slices it holds. *)
Record world (T : Type) : Type := mkWorld {
  w_pool : BufferPool T;
  w_current : bytes;
  w_held : list (Slice * bytes) }.
Arguments mkWorld {T}.
Arguments w_pool {T}.
Arguments w_current {T}.
Arguments w_held {T}.

Section histories.
Context (chk : bool) {T : Type} `{BufferSpec T}.

Definition step (u : use) (w : world T) : result unit (world T) :=
  match u with
  | Write data =>
      p ← pool_extend_from_slice chk data (w_pool w);
      Ok (mkWorld p (w_current w ++ data) (w_held w))
  | Take =>
      '(s, p) ← pool_get_data_owned chk (w_pool w);
      Ok (mkWorld p [] (w_held w ++ [(s, w_current w)]))
  | Drop k =>
      match w_held w !! k with
      | None => Ok w
      | Some (s, _) =>
          p ← slice_drop s (w_pool w); Ok (mkWorld p (w_current w) (delete k (w_held w)))
      end
  end.
Fixpoint history (us : list use) (w : world T) : result unit (world T) :=
  match us with
  | [] => Ok w
  | u :: us => w ← step u w; history us w
  end.
Definition fresh (t : T) (capacity : Z) : world T := mkWorld (BufferPool_new t capacity) [] [].
(** The user sees what it wrote. *)
Definition intact (w : world T) : Prop :=
  pool_contents (w_pool w) = w_current w ∧ Forall (λ e, slice_as_ref e.1 (w_pool w) = e.2) (w_held w).

Definition indices (l : list (Slice * bytes)) : list Z := filter (λ i, i ≠ INGORE_INDEX) ((λ e, sl_index e.1) <$> l).
Record sound (w : world T) : Prop := {
  sd_ok : pool_ok (w_pool w);
  sd_shape : shape (w_pool w);
  sd_current : pool_contents (w_pool w) = w_current w;
  sd_held : Forall (held (shared_state (w_pool w)) (inner_memory (w_pool w))) (w_held w);
  sd_distinct : NoDup (indices (w_held w)) }.

Lemma sound_intact w : sound w → intact w.
Proof.
  intros [_ _ Hc Hh _]. split; [done|]. eapply Forall_impl; [|exact Hh]. intros e. apply held_reads.
Qed.
Lemma write_sound d w : sound w → head_freed (w_pool w) = false → ∃ w', step (Write d) w = Ok w' ∧ sound w'.
Proof.
  intros [Hok Hs Hc Hh Hd] Hf. cbn [step].
  destruct (pool_get_writable_settled chk (zlen d) _ Hs Hok (zlen_nonneg d) Hf) as (x & p1 & Hg & Hset).
  pose proof (pool_get_writable_grown _ _ _ _ _ Hok (zlen_nonneg d) Hg) as (Hok1 & Hc1 & Hx & _).
  pose proof (write_window_settled (pool_contents (w_pool w)) x d p1 (proj1 Hset) Hok1 Hc1 ltac:(done)) as Hset2.
  assert (pool_extend_from_slice chk d (w_pool w) = Ok (pool_write_window d p1)) as Hx1.
  { unfold pool_extend_from_slice. by rewrite Hg. }
  pose proof (pool_extend_data _ _ _ _ Hok Hx1) as [Hok2 Hc2]. rewrite Hx1. eexists. split; [done|].
  pose proof (settled_trans _ _ _ (proj1 Hset) Hset Hset2) as Hset3.
  split; cbn; [done|apply Hset3|by rewrite Hc2, Hc| |done].
  eapply Forall_impl; [|exact Hh]. intros e. by apply held_settled.
Qed.
Lemma drop_sound k w : sound w → ∃ w', step (Drop k) w = Ok w' ∧ sound w'.
Proof.
  intros [Hok Hs Hc Hh Hd]. cbn [step]. destruct (w_held w !! k) as [[s d]|] eqn:Hk; [|by exists w].
  pose proof (delete_Permutation _ _ _ Hk) as Hp. rewrite Hp in Hh. apply Forall_cons_1 in Hh as [He Hh].
  unfold indices in *. rewrite Hp in Hd. rewrite fmap_cons in Hd.
  destruct (held_index _ _ _ _ (sh_slots _ Hs) He) as [Hi|Hi]; cbn in Hi.
  - unfold slice_drop, toogle. rewrite Hi. cbn [mbind result_bind]. eexists. split; [done|].
    rewrite filter_cons_False in Hd by (cbn; tauto). split; cbn; try done; by destruct Hs, Hok.
  - pose proof (so_k _ _ _ (sh_slots _ Hs)). unfold slice_drop. rewrite toogle_ok by lia. cbn [mbind result_bind].
    eexists. split; [done|]. rewrite filter_cons_True in Hd by (cbn; unfold INGORE_INDEX; lia).
    inversion Hd as [|? ? Hnin Hd']; subst.
    assert (Z.testbit (shared_state (w_pool w)) (8 - sl_index s) = true) as Hbit.
    { unfold held in He. cbn in He. destruct (sl_owned s); [destruct He; unfold INGORE_INDEX in *; lia|].
      destruct He as [_ [[? _]|(_ & ? & _)]]; [unfold INGORE_INDEX in *; lia|done]. }
    split; cbn; [by destruct Hok| |done| |exact Hd'].
    + destruct Hs as [Hs1 [Hs2 Hs3 Hs4 Hs5 Hs6 Hs7] Hs8]. split; [done| |done]. cbn.
      split; [done|by apply toogle_range; [lia|]|done..|]. intros i Hi'. rewrite toogle_bits, Hs7 by lia.
      by rewrite (proj2 (Z.eqb_neq (sl_index s) i)) by lia.
    + rewrite Forall_forall in *. intros e Hin. specialize (Hh e Hin). unfold held in *. destruct (sl_owned e.1); [done|].
      destruct Hh as [Hw [?|(Hi' & Hb' & Hl')]]; [by split; [|left]|]. split; [done|]. right. split_and!; [lia|lia| |done].
      rewrite toogle_bits, Hb' by lia. destruct (Z.eqb_spec (sl_index s) (sl_index e.1)) as [E|]; [|done]. exfalso. apply Hnin.
      rewrite E. apply list_elem_of_filter. split; [unfold INGORE_INDEX; lia|]. apply list_elem_of_fmap. exists e. by rewrite list_elem_of_In.
Qed.
Lemma snoc_slots k st m e :
  slots_ok k st m → k < 8 → e.1 = end_at k m → 0 < e.2 → e.1 + e.2 ≤ capacity m →
  slots_ok (k + 1) (Z.lxor st (2 ^ (8 - (k + 1))))
    (mkMemory (pool m) (raw_offset m) (raw_len m) (<[Z.to_nat k := e]> (slots m)) (mem_len m)) ∧
  chain_end 0 (ztake (k + 1) (<[Z.to_nat k := e]> (slots m))) = e.1 + e.2.
Proof.
  intros [Hk Hst Hlen Hch Hend Hfree] Hk8 Ho Hn Hc. destruct e as [o n]. cbn in *.
  assert (ztake (k + 1) (<[Z.to_nat k := (o, n)]> (slots m)) = ztake k (slots m) ++ [(o, n)]) as E.
  { unfold ztake. rewrite Z2Nat.inj_add by lia. rewrite Nat.add_1_r.
    rewrite (take_S_r _ _ (o, n)) by (rewrite list_lookup_insert_eq; [done|lia]).
    by rewrite take_insert_ge by lia. }
  assert (chain_end 0 (ztake k (slots m) ++ [(o, n)]) = o + n) as Ee.
  { rewrite chain_end_app. cbn. unfold end_at in Ho. lia. }
  split; [|by rewrite E]. split; cbn; [lia|apply toogle_range; lia|by rewrite length_insert| | |].
  - rewrite E. apply chain_app. split; [done|]. unfold end_at in Ho. by split_and!.
  - unfold end_at, capacity. cbn. rewrite E, Ee. done.
  - intros i Hi. rewrite toogle_bits, Hfree by lia. by rewrite (proj2 (Z.eqb_neq (k + 1) i)) by lia.
Qed.
Lemma held_snoc k st m o n e :
  slots_ok k st m → k < 8 → held st m e →
  held (Z.lxor st (2 ^ (8 - (k + 1)))) (mkMemory (pool m) o n (<[Z.to_nat k := (raw_offset m, raw_len m)]> (slots m)) (k + 1)) e.
Proof.
  intros Hs Hk He. pose proof (held_index _ _ _ _ Hs He) as Hi. pose proof (so_k _ _ _ Hs).
  unfold held in *. destruct (sl_owned e.1); [done|]. destruct He as [Hw [?|(Hi' & Hb & Hl)]]; (split; [done|]); [by left|].
  destruct Hi as [Hi|Hi]; [unfold INGORE_INDEX in Hi; lia|]. right. split_and!; [lia|lia| |].
  - rewrite toogle_bits, Hb by lia. by rewrite (proj2 (Z.eqb_neq (k + 1) (sl_index e.1))) by lia.
  - cbn. by rewrite list_lookup_insert_ne by lia.
Qed.
Lemma take_sound w : sound w → ∃ w', step Take w = Ok w' ∧ sound w'.
Proof.
  intros [Hok Hs Hc Hh Hd]. cbn [step].
  enough (∃ s p', pool_get_data_owned chk (w_pool w) = Ok (s, p') ∧ shape p' ∧
    Forall (held (shared_state p') (inner_memory p')) (w_held w ++ [(s, w_current w)]) ∧
    NoDup (indices (w_held w ++ [(s, w_current w)]))) as (s & p' & Hg & Hs' & Hh' & Hd').
  { rewrite Hg. eexists. split; [done|]. destruct (pool_take_data chk _ _ _ Hok Hg) as (? & ? & _). by split. }
  unfold indices in *. pose proof (sh_mode _ Hs) as Hmd. unfold pool_get_data_owned.
  unfold pool_contents in Hc. destruct (mode (w_pool w)) as [|f|] eqn:Hm; [|done|].
  - destruct Hmd as (Hml & Ho & Hle & Hk8). pose proof (end_at_nonneg _ _ _ (sh_slots _ Hs)) as Hpos.
    pose proof (ok_fits _ Hok) as [Hr _]. pose proof (sh_start _ Hs) as Hst. pose proof (so_k _ _ _ (sh_slots _ Hs)) as Hk.
    set (p := w_pool w) in *. unfold InnerMemory_get_data_owned, raw_data.
    rewrite slice_range_ok by (unfold capacity in *; lia). cbn [mbind result_bind].
    destruct (Z.ltb_spec 0 (raw_len (inner_memory p))) as [Hlt|Hge].
    + specialize (Hk8 Hlt). destruct (slot_at _ _ _ (mem_len (inner_memory p)) (sh_slots _ Hs)) as (o & n & -> & _); [lia|].
      cbn [mbind result_bind mem_len]. rewrite Hml, wrap_small by (unfold fits; lia). rewrite toogle_ok by lia.
      cbn [mbind result_bind mem_len set_raw]. unfold set_len_from_inner_memory. rewrite Hst, sub_usize_ok by lia.
      cbn [mbind result_bind]. do 2 eexists. split; [done|].
      destruct (snoc_slots _ _ _ (raw_offset (inner_memory p), raw_len (inner_memory p)) (sh_slots _ Hs)) as [Hsn Hen]; [done..|].
      split_and!.
      * rewrite Z.sub_0_r. split; cbn; [done|by eapply slots_same, Hsn|].
        rewrite Hm. split_and!; [done|by unfold end_at; cbn; rewrite Hen|unfold capacity in *; cbn; lia|lia].
      * apply Forall_app. split; [eapply Forall_impl; [|exact Hh]; intros e He; apply (held_snoc _ _ (inner_memory p)); [exact (sh_slots _ Hs)|done|done]|].
        apply Forall_singleton. cbn. split; [exact Hc|]. right. split_and!; [lia|lia| |].
        -- rewrite toogle_bits, (so_free _ _ _ (sh_slots _ Hs)), Z.eqb_refl by lia. done.
        -- replace (back_len (pool_back p) + 1 - 1) with (back_len (pool_back p)) by lia.
           apply list_lookup_insert_eq. rewrite (so_length _ _ _ (sh_slots _ Hs)). lia.
      * rewrite fmap_app, list.filter_app. cbn. rewrite decide_True by (unfold INGORE_INDEX; lia). apply list.NoDup_app. split_and!; [done| |apply NoDup_singleton].
        intros i Hi1 Hi2%list_elem_of_singleton. subst i. apply list_elem_of_filter in Hi1 as [Hne Hi1].
        apply list_elem_of_fmap in Hi1 as (e & He & Hin). rewrite Forall_forall in Hh. rewrite list_elem_of_In in Hin.
        destruct (held_index _ _ _ _ (sh_slots _ Hs) (Hh _ Hin)) as [|]; [congruence|]. cbn in He. lia.
    + cbn [mbind result_bind mem_len set_raw]. unfold set_len_from_inner_memory. rewrite Hst, Hml, sub_usize_ok by lia.
      cbn [mbind result_bind]. do 2 eexists. split; [done|]. assert (raw_len (inner_memory p) = 0) as Hz by lia. split_and!.
      * rewrite Z.sub_0_r. split; cbn; [done|by eapply slots_same, Hs|].
        rewrite Hm. split_and!; [done|by unfold end_at in *; cbn; lia|unfold capacity in *; cbn; lia|lia].
      * apply Forall_app. split; [exact Hh|]. apply Forall_singleton. cbn. split; [exact Hc|]. by left.
      * rewrite fmap_app, list.filter_app. cbn. rewrite decide_False by tauto. by rewrite app_nil_r.
  - destruct (get_data_owned_spec _ (ok_system _ Hok)) as (t & -> & _). do 2 eexists. split; [done|]. split_and!.
    + split; cbn; [apply Hs|apply Hs|by rewrite Hm].
    + apply Forall_app. split; [exact Hh|]. apply Forall_singleton. cbn. by split.
    + rewrite fmap_app, list.filter_app. cbn. rewrite decide_False by tauto. by rewrite app_nil_r.
Qed.

(** Every write comes while the pool can still go on at its end. *)
Fixpoint quiet (us : list use) (w : world T) : bool :=
  match us with
  | [] => true
  | u :: us =>
      negb match u with Write _ => head_freed (w_pool w) | _ => false end &&
      match step u w with Ok w => quiet us w | _ => true end
  end.
Lemma fresh_sound t cap : buf_ok t → contents t = [] → sound (fresh t cap).
Proof.
  intros Ht Hc. unfold fresh, BufferPool_new, InnerMemory_new. assert (∀ v, raw_fits (mkMemory v 0 0 no_slots 0)) as Hf by by split.
  split; cbn; [by split| |by apply data_empty|constructor|constructor].
  split; cbn; [done|by apply slots_none|]. split_and!; [done|done|unfold capacity; cbn; apply zlen_nonneg|lia].
Qed.
Lemma history_sound us w : sound w → quiet us w = true → ∃ w', history us w = Ok w' ∧ sound w'.
Proof.
  revert w. induction us as [|u us IH]; intros w Hs Hq; [by exists w|]. cbn [history quiet] in *. bool_props.
  assert (∃ w1, step u w = Ok w1 ∧ sound w1) as (w1 & Hw1 & Hs1).
  { destruct u; [by apply write_sound; [|by destruct (head_freed _)]|by apply take_sound|by apply drop_sound]. }
  rewrite Hw1 in *. by apply IH.
Qed.

(** C31: A buffer pool of any capacity, used by any sequence of writes, of
    messages taken and of slices dropped in any order, never panics, holds as
    its data exactly the bytes written since the last message was taken, and
    leaves the bytes of every slice that is still held as they were taken,
    through resets, reuse of the slots freed at its end and the fall back to
    system memory, provided no write comes when all eight slots are used and
    the first of them has been given back while others are held. *)
Theorem pool_keeps_slices t cap us :
  buf_ok t → contents t = [] → quiet us (fresh t cap) = true →
  ∃ w, history us (fresh t cap) = Ok w ∧ intact w.
Proof.
  intros Ht Hc Hq. destruct (history_sound us (fresh t cap)) as (w & Hw & Hs); [by apply fresh_sound|done|].
  exists w. split; [done|]. by apply sound_intact.
Qed.

(** In every mode, and whatever has happened to other slices, a message that
    is taken reads as the bytes written for it. *)
Theorem pool_delivers t cap us w w' :
  buf_ok t → contents t = [] → history us (fresh t cap) = Ok w → step Take w = Ok w' →
  ∃ s, w_held w' = w_held w ++ [(s, w_current w)] ∧ slice_as_ref s (w_pool w') = w_current w.
Proof.
  intros Ht Hc Hh Hs. assert (∀ w0, pool_ok (w_pool w0) ∧ pool_contents (w_pool w0) = w_current w0 →
    history us w0 = Ok w → pool_ok (w_pool w) ∧ pool_contents (w_pool w) = w_current w) as Hinv.
  { clear Hh. induction us as [|u us IH]; intros w0 Hw0 Hh; [by injection Hh as <-|]. cbn [history] in Hh.
    apply bind_Ok in Hh as (w1 & Hu & Hh). apply (IH w1); [|done]. destruct Hw0 as [Hok Hcur]. destruct u; cbn [step] in Hu.
    - apply bind_Ok in Hu as (p & Hp & Hu). injection Hu as <-. cbn. rewrite <- Hcur. by eapply pool_extend_data.
    - apply bind_Ok in Hu as ([s p] & Hp & Hu). injection Hu as <-. cbn.
      destruct (pool_take_data _ _ _ _ Hok Hp) as (? & ? & _). done.
    - destruct (w_held w0 !! k) as [[s d]|]; [|by injection Hu as <-]. apply bind_Ok in Hu as (p & Hp & Hu). injection Hu as <-.
      revert Hp. unfold slice_drop. intros (x & _ & Hp)%bind_Ok. injection Hp as <-. cbn. by destruct Hok. }
  pose proof (fresh_sound t cap Ht Hc) as Hfr. destruct (Hinv (fresh t cap)) as [Hok Hcur]; [split; apply Hfr|done|].
  cbn [step] in Hs. apply bind_Ok in Hs as ([s p] & Hp & Hs). injection Hs as <-.
  destruct (pool_take_data _ _ _ _ Hok Hp) as (_ & _ & Hr). exists s. cbn. by rewrite Hr.
Qed.
End histories.

(** ** Histories beyond *)

Module PoolSample.
Definition filled (n : nat) (b : Z) : use := Write (replicate n (byte.of_Z b)).
Definition message (n : nat) (b : Z) : list use := [filled n b; Take].
Definition messages (k n : nat) (b : Z) : list use := mjoin (replicate k (message n b)).
Definition start16 : world BufferFromSystemMemory := fresh SysMem.new 16.

(** Eight messages fill the slots; the first two are dropped, then two small
    messages at the front are taken and dropped again. *)
Definition overrun : list use :=
  messages 8 2 1 ++ [Drop 0; Drop 0] ++ messages 2 1 2 ++ [Drop 6; Drop 6] ++ messages 3 1 3 ++ [filled 5 4].
(** Messages dropped strictly in the order they were taken. *)
Definition queue : list use :=
  messages 8 4 1 ++ [Drop 0; Drop 0; Drop 0; Drop 0] ++ messages 4 4 2 ++ [Drop 0; Drop 0; Drop 0; Drop 0] ++
  messages 4 4 3 ++ [Drop 0; Drop 0; Drop 0; Drop 0] ++ message 1 4 ++ [Drop 0; Drop 0; Drop 0; Drop 0; Drop 0] ++
  mjoin (replicate 7 (message 1 5 ++ [Drop 0])) ++ message 1 6.

(** Beyond that the pool is unsafe, with overflow checks or without: there
    is a history of a pool of 16 bytes after which a slice that is still held
    reads other bytes than it was taken with.  Clearing an emptied front sets
    its own count to zero but keeps that of the memory, so the next messages
    are numbered like slices of the back and flip their bits; the next change
    to the front then takes the memory of held slices for free. *)
Theorem held_slice_overwritten chk :
  ∃ w s d, history chk overrun start16 = Ok w ∧ (s, d) ∈ w_held w ∧ slice_as_ref s (w_pool w) ≠ d.
Proof.
  assert (∃ w, history chk overrun start16 = Ok w ∧
    existsb (λ e, negb (bool_decide (slice_as_ref e.1 (w_pool w) = e.2))) (w_held w) = true) as (w & Hw & He).
  { destruct chk; eexists; (split; [vm_compute; reflexivity|vm_compute; reflexivity]). }
  apply existsb_exists in He as ([s d] & Hin & Hne). exists w, s, d. split_and!; [done|by apply list_elem_of_In|].
  cbn in Hne. apply negb_true_iff in Hne. by apply bool_decide_eq_false_1 in Hne.
Qed.
(** Dropping messages in the order they were taken, the slots of the back are
    miscounted at the second change to the front and the slot table overflows. *)
Theorem queue_panics chk :
  history chk queue (fresh SysMem.new 32) = Panic ∧ Forall (λ u, match u with Drop k => k = 0%nat | _ => True end) queue.
Proof. split; [destruct chk; vm_compute; reflexivity|]. repeat constructor. Qed.

(** Eight messages, the last three dropped and their slots used again. *)
Definition reuse : list use := messages 8 2 1 ++ [Drop 5; Drop 5; Drop 5] ++ messages 2 3 2 ++ [Drop 0; filled 20 3; Take].
Lemma pool_keeps_slices_witness :
  quiet true reuse start16 = true ∧ ∃ w, history true reuse start16 = Ok w ∧ intact w.
Proof.
  assert (quiet true reuse start16 = true) as Hq by (vm_compute; reflexivity). split; [exact Hq|].
  apply (pool_keeps_slices true SysMem.new 16 reuse); [by split|reflexivity|exact Hq].
Defined.
End PoolSample.
