(* ===== verification/Links.v ===== *)
(** * The connections of the job declaration client

    [roles/jd-client/src/lib]: the connections to the pool ([upstream/mod.rs]),
    to the job declarator server ([job_declarator/mod.rs]), to the template
    provider ([template_receiver/mod.rs]) and to a miner ([downstream/mod.rs]);
    what they share is [utils.rs]: the setup messages, the kinds of messages, and
    the reader and writer task of every connection ([spawn_io_tasks]); the
    supervisor that restarts them is the loop of [mod.rs].

    A queue is the log of what was sent on it, with the position of its reader.
    A connection has three tasks (reader, writer and message loop); [link_step] is
    one turn of one of them, so that a run is any interleaving of the three and of
    the channel manager.  A frame is its message type, unless its header cannot be
    read, and its payload; the encoding of the messages a connection itself sends
    is that of the parsers.  A message for a miner that is too long for a frame is
    skipped, and is not in the log. *)

From S2P Require Import Prelude Datatypes Codec Framing Messages SetupConnection Parsers Handlers Bitcoin JdClient.
#[local] Open Scope Z_scope.
#[local] Open Scope list_scope.

Module Link.

(** ** Kinds of messages *)

Inductive MessageType : Type := Common | Mining | JobDeclaration | TemplateDistribution | Unknown.
#[global] Instance MessageType_eq_dec : EqDecision MessageType.
Proof. solve_decision. Defined.
Definition is_common_message (ty : Z) : bool := existsb (Z.eqb ty) [0x00; 0x01; 0x02; 0x03; 0x04].
Definition is_mining_message (ty : Z) : bool :=
  existsb (Z.eqb ty) [0x10; 0x11; 0x12; 0x13; 0x14; 0x15; 0x16; 0x17; 0x18; 0x19; 0x1a; 0x1b; 0x1c; 0x1d; 0x1e; 0x1f;
                      0x20; 0x21; 0x22; 0x23; 0x24; 0x25].
Definition is_job_declaration_message (ty : Z) : bool := existsb (Z.eqb ty) [0x50; 0x51; 0x55; 0x56; 0x57; 0x58; 0x59; 0x60].
Definition is_template_distribution_message (ty : Z) : bool := existsb (Z.eqb ty) [0x70; 0x71; 0x72; 0x73; 0x74; 0x75; 0x76].
Definition protocol_message_type (ty : Z) : MessageType :=
  if is_common_message ty then Common
  else if is_mining_message ty then Mining
  else if is_job_declaration_message ty then JobDeclaration
  else if is_template_distribution_message ty then TemplateDistribution
  else Unknown.

(** ** Setup messages *)

Definition empty_string : Inner := Owned [].
Definition get_setup_connection_message (min_version max_version : Z) : SetupConnection.SetupConnection :=
  mkSetupConnection MiningProtocol min_version max_version 6 (Owned (text "0.0.0.0")) 50 empty_string empty_string empty_string empty_string.
Definition get_setup_connection_message_jds (host : bytes) (port : Z) (full_template : bool) : SetupConnection.SetupConnection :=
  let m := mkSetupConnection JobDeclarationProtocol 2 2 0 (Owned host) port empty_string empty_string empty_string empty_string in
  if full_template then allow_full_template_mode m else m.
Definition get_setup_connection_message_tp (host : bytes) (port : Z) : SetupConnection.SetupConnection :=
  mkSetupConnection TemplateDistributionProtocol 2 2 0 (Owned host) port empty_string empty_string empty_string empty_string.

(** ** Queues *)

Record Queue (A : Type) : Type := mkQueue { q_log : list A; q_taken : nat; q_open : bool }.
Arguments mkQueue {A}.
Arguments q_log {A}.
Arguments q_taken {A}.
Arguments q_open {A}.
Definition new_queue {A} : Queue A := mkQueue [] 0 true.
Definition q_close {A} (q : Queue A) : Queue A := mkQueue (q_log q) (q_taken q) false.
Definition q_send {A} (x : A) (q : Queue A) : option (Queue A) :=
  if q_open q then Some (mkQueue (q_log q ++ [x]) (q_taken q) true) else None.
(** What is left in a closed queue can still be taken; an empty open queue
    blocks. *)
Inductive Received (A : Type) : Type := Got (x : A) (q : Queue A) | Closed | Blocks.
Arguments Got {A}.
Arguments Closed {A}.
Arguments Blocks {A}.
Definition q_recv {A} (q : Queue A) : Received A :=
  match q_log q !! q_taken q with
  | Some x => Got x (mkQueue (q_log q) (S (q_taken q)) (q_open q))
  | None => if q_open q then Blocks else Closed
  end.

(** ** State *)

Inductive ShutdownMessage : Type :=
  | ShutdownAll
  | DownstreamShutdownAll
  | DownstreamShutdown (downstream_id : Z)
  | JobDeclaratorShutdownFallback (coinbase_outputs : bytes)
  | UpstreamShutdownFallback (coinbase_outputs : bytes)
  | JobDeclaratorShutdown
  | UpstreamShutdown.
Inductive StatusType : Type :=
  | SDownstream (downstream_id : Z)
  | STemplateReceiver
  | SChannelManager
  | SUpstream
  | SJobDeclarator.
#[global] Instance StatusType_eq_dec : EqDecision StatusType.
Proof. solve_decision. Defined.
Inductive LinkError : Type :=
  | ChannelErrorSender
  | ChannelErrorReceiver
  | CodecNoise
  | Shutdown
  | UnexpectedMessage (ty : Z)
  | LinkParserError (e : ParserError)
  | ExpectedHandshakeFrame
  | BitcoinEncodeError
  | InvalidSocketAddress.
#[global] Instance LinkError_HandlerErrorType : HandlerErrorType LinkError :=
  {| unexpected_message := UnexpectedMessage; parse_error := LinkParserError |}.

Record Frame : Type := mkFrame { f_type : option Z; f_payload : bytes }.
(** What a connection sends: the manager's frames and its own messages. *)
Inductive Outgoing : Type :=
  | Forward (f : Frame)
  | SendSetup (m : SetupConnection.SetupConnection)
  | SendReply (r : Jdc.SetupReply)
  | SendConstraints (max_additional_size max_additional_sigops : Z).

(** A connection is set up before its message loop runs: a request is sent and
    its answer awaited (a miner's connection awaits the request). *)
Inductive Phase : Type := Starting | Waiting | Running | Ended.
Record Link : Type := mkLink {
  l_kind : StatusType;
  inbound : Queue Frame;
  outbound : Queue Outgoing;
  from_manager : Queue (Z * Frame);
  to_manager : Queue Frame;
  reader_on : bool;
  writer_on : bool;
  l_phase : Phase;
  written : list Outgoing;
  statuses : list LinkError;
  l_mode : option Jdc.JdMode;
  require_std_job : bool }.
Definition loop_on (l : Link) : bool := match l_phase l with Running => true | _ => false end.
Definition set_inbound q (l : Link) : Link :=
  mkLink (l_kind l) q (outbound l) (from_manager l) (to_manager l) (reader_on l) (writer_on l) (l_phase l) (written l) (statuses l) (l_mode l) (require_std_job l).
Definition set_outbound q (l : Link) : Link :=
  mkLink (l_kind l) (inbound l) q (from_manager l) (to_manager l) (reader_on l) (writer_on l) (l_phase l) (written l) (statuses l) (l_mode l) (require_std_job l).
Definition set_from_manager q (l : Link) : Link :=
  mkLink (l_kind l) (inbound l) (outbound l) q (to_manager l) (reader_on l) (writer_on l) (l_phase l) (written l) (statuses l) (l_mode l) (require_std_job l).
Definition set_to_manager q (l : Link) : Link :=
  mkLink (l_kind l) (inbound l) (outbound l) (from_manager l) q (reader_on l) (writer_on l) (l_phase l) (written l) (statuses l) (l_mode l) (require_std_job l).
Definition set_io r w (l : Link) : Link :=
  mkLink (l_kind l) (inbound l) (outbound l) (from_manager l) (to_manager l) r w (l_phase l) (written l) (statuses l) (l_mode l) (require_std_job l).
Definition set_phase ph (l : Link) : Link :=
  mkLink (l_kind l) (inbound l) (outbound l) (from_manager l) (to_manager l) (reader_on l) (writer_on l) ph (written l) (statuses l) (l_mode l) (require_std_job l).
Definition add_written o (l : Link) : Link :=
  mkLink (l_kind l) (inbound l) (outbound l) (from_manager l) (to_manager l) (reader_on l) (writer_on l) (l_phase l) (written l ++ [o]) (statuses l) (l_mode l) (require_std_job l).
Definition add_status e (l : Link) : Link :=
  mkLink (l_kind l) (inbound l) (outbound l) (from_manager l) (to_manager l) (reader_on l) (writer_on l) (l_phase l) (written l) (statuses l ++ [e]) (l_mode l) (require_std_job l).
Definition set_mode m (l : Link) : Link :=
  mkLink (l_kind l) (inbound l) (outbound l) (from_manager l) (to_manager l) (reader_on l) (writer_on l) (l_phase l) (written l) (statuses l) m (require_std_job l).
Definition set_std_job b (l : Link) : Link :=
  mkLink (l_kind l) (inbound l) (outbound l) (from_manager l) (to_manager l) (reader_on l) (writer_on l) (l_phase l) (written l) (statuses l) (l_mode l) b.
(** A connection whose reader and writer have been spawned. *)
Definition new_link (kind : StatusType) : Link :=
  mkLink kind new_queue new_queue new_queue new_queue true true Starting [] [] None false.

(** ** The reader and the writer *)

(** Everything but the template provider's connection ends on a fallback; a
    miner's connection also when it is named. *)
Definition io_stops (kind : StatusType) (m : ShutdownMessage) : bool :=
  match m with
  | ShutdownAll => true
  | DownstreamShutdown down_id => match kind with SDownstream id => id =? down_id | _ => false end
  | JobDeclaratorShutdownFallback _ | UpstreamShutdownFallback _ | UpstreamShutdown | JobDeclaratorShutdown =>
      negb (bool_decide (kind = STemplateReceiver))
  | DownstreamShutdownAll => false
  end.
(** Either task closes both queues when it ends. *)
Definition close_both (l : Link) : Link := set_inbound (q_close (inbound l)) (set_outbound (q_close (outbound l)) l).
Definition end_reader (l : Link) : Link := set_io false (writer_on l) (close_both l).
Definition end_writer (l : Link) : Link := set_io (reader_on l) false (close_both l).
(** A message loop that ends drops its ends of both queues; those of a miner's
    connection are also held by the channel manager. *)
Definition drop_ends (l : Link) : Link := match l_kind l with SDownstream _ => l | _ => close_both l end.
Definition end_loop (l : Link) : Link := set_phase Ended (drop_ends l).
(** A frame read from the connection; [None] is a handshake frame. *)
Definition reader_frame (f : option Frame) (l : Link) : Link :=
  match f with
  | None => end_reader l
  | Some f => match q_send f (inbound l) with Some q => set_inbound q l | None => end_reader l end
  end.
Definition writer_turn (socket_ok : bool) (l : Link) : Link :=
  match q_recv (outbound l) with
  | Blocks => l
  | Closed => end_writer l
  | Got o q => let l := set_outbound q l in if socket_ok then add_written o l else end_writer l
  end.

(** ** The message loop *)

Section loop.
Context `{Bitcoin}.
(** [Transaction::total_sigop_cost] and the size of an output, of the [bitcoin]
    package. *)
Context (total_sigop_cost : Transaction → Z) (txout_size : TxOut → Z) (overflow_checks : bool).
Notation LINK := (ST Link LinkError).

Definition post (o : Outgoing) (e : LinkError) : LINK unit := λ l,
  match q_send o (outbound l) with
  | Some q => (Ok tt, set_outbound q l)
  | None => (Err e, l)
  end.
(** The sum of an iterator of [u32]. *)
Fixpoint sum_u32 {E} (sizes : list Z) (acc : Z) : result E Z :=
  match sizes with
  | [] => Ok acc
  | x :: sizes => acc ← (if overflow_checks then add_chk 32 acc (wrap 32 x) else Ok (wrap 32 (acc + wrap 32 x))); sum_u32 sizes acc
  end.
Definition dummy_coinbase (outputs : list TxOut) : Transaction :=
  mkTransaction 2 0 [mkTxIn (replicate 32 Byte.x00, 0xFFFFFFFF) [] 0xFFFFFFFF [replicate 32 Byte.x00]] outputs.
Definition coinbase_constraints (coinbase_outputs : bytes) : LINK unit :=
  outputs ← lift (ok_or (Jdc.deserialize_outputs coinbase_outputs) BitcoinEncodeError);
  max_size ← lift (sum_u32 (txout_size <$> outputs) 0);
  post (SendConstraints max_size (wrap 16 (total_sigop_cost (dummy_coinbase outputs)))) ChannelErrorSender.

(** *** Common messages *)

Definition setup_flags (m : sv2_value) : Z :=
  match m with VStruct [_; VPrim (DU32 flags)] => flags | _ => 0 end.
(** The declarator's flags select the mode. *)
Definition on_jds_success (m : sv2_value) : LINK unit :=
  let mode := match setup_flags m with 0 => Jdc.CoinbaseOnly | 1 => Jdc.FullTemplate | _ => Jdc.SoloMining end in
  _ ← modify (set_mode (Some mode));
  match mode with Jdc.SoloMining => throw Shutdown | _ => mret tt end.
Definition common_handlers (kind : StatusType) : HandleCommonMessagesFromServer :=
  mkCommonFromServer (match kind with SJobDeclarator => on_jds_success | _ => λ _, mret tt end)
    (λ _, throw Shutdown) (λ _, mret tt) (λ _, mret tt).
Definition handle_common (message_type : Z) (payload : bytes) : LINK unit := λ l,
  handle_common_message_frame_from_server (common_handlers (l_kind l)) message_type payload l.

(** A miner's request.  The reply is sent whether or not the queue is open. *)
Definition reply (r : Jdc.SetupReply) : LINK unit := λ l,
  (Ok tt, match q_send (SendReply r) (outbound l) with Some q => set_outbound q l | None => l end).
Definition handle_setup_connection (m : sv2_value) : LINK unit :=
  match m with
  | VStruct (VPrim (DU8 protocol) :: _ :: _ :: VPrim (DU32 flags) :: _) =>
      if negb (protocol =? 0) then _ ← reply (Jdc.SetupError 0 "unsupported-protocol"); throw Shutdown
      else if has_work_selection flags then _ ← reply (Jdc.SetupError 2 "unsupported-feature-flags"); throw Shutdown
      else _ ← (if has_requires_std_job flags then modify (set_std_job true) else mret tt); reply (Jdc.SetupSuccess 2 flags)
  | _ => mret tt
  end.

(** *** Setup *)

(** The request, an error if it could not be built. *)
Definition send_setup (request : result LinkError SetupConnection.SetupConnection) : LINK unit := λ l,
  match request with
  | Ok m => post (SendSetup m) (match l_kind l with SUpstream => CodecNoise | _ => ChannelErrorSender end) l
  | Err e => (Err e, l)
  | Panic => (Panic, l)
  end.
(** The answer [f] the connection waited for ([None]: the queue was closed). *)
Definition finish_setup (f : option Frame) : LINK unit :=
  match f with
  | None => throw CodecNoise
  | Some f =>
      match f_type f with
      | None => throw ExpectedHandshakeFrame
      | Some ty => handle_common ty (f_payload f)
      end
  end.
Definition setup_connection_with_downstream (f : option Frame) : LINK unit :=
  match f with
  | None => throw ChannelErrorReceiver
  | Some f =>
      match f_type f with
      | None => throw (UnexpectedMessage 0)
      | Some ty =>
          if ty =? 0 then handle_common_message_frame_from_client (mkCommonFromClient handle_setup_connection) ty (f_payload f)
          else throw (UnexpectedMessage ty)
      end
  end.
(** [start] once the setup is done.  The connection to the pool gives up without a
    status; that to the template provider sends its constraints and goes on
    whatever the outcome; a miner's subscribes to the broadcast. *)
Definition subscribe (l : Link) : Link :=
  set_from_manager (mkQueue (q_log (from_manager l)) (length (q_log (from_manager l))) (q_open (from_manager l))) l.
Definition start_loop (coinbase_outputs : bytes) (setup : result LinkError unit) (l : Link) : Link :=
  match l_kind l, setup with
  | _, Panic => end_loop l
  | STemplateReceiver, _ =>
      match coinbase_constraints coinbase_outputs l with
      | (Panic, l) => end_loop l
      | (_, l) => set_phase Running l
      end
  | SDownstream _, Ok _ => set_phase Running (subscribe l)
  | _, Ok _ => set_phase Running l
  | SUpstream, Err _ => end_loop l
  | _, Err e => end_loop (add_status e l)
  end.
Definition start (request : result LinkError SetupConnection.SetupConnection) (coinbase_outputs : bytes) (l : Link) : Link :=
  match l_kind l with
  | SDownstream _ => set_phase Waiting l
  | _ =>
      match send_setup request l with
      | (Ok _, l) => set_phase Waiting l
      | (r, l) => start_loop coinbase_outputs r l
      end
  end.
Definition setup_answer (f : option Frame) : LINK unit := λ l,
  match l_kind l with SDownstream _ => setup_connection_with_downstream f l | _ => finish_setup f l end.
Definition start_answer (coinbase_outputs : bytes) (l : Link) : Link :=
  let finish f l := let '(r, l) := setup_answer f l in start_loop coinbase_outputs r l in
  match q_recv (inbound l) with
  | Blocks => l
  | Closed => finish None l
  | Got f q => finish (Some f) (set_inbound q l)
  end.

(** *** Messages *)

Definition to_channel_manager (f : Frame) : LINK unit := λ l,
  match q_send f (to_manager l) with
  | Some q => (Ok tt, set_to_manager q l)
  | None => (Err ChannelErrorSender, l)
  end.
(** The next frame, to [on_type] unless its header cannot be read. *)
Definition on_peer_frame (on_type : Z → Frame → LINK unit) : LINK unit := λ l,
  match q_recv (inbound l) with
  | Blocks => (Ok tt, l)
  | Closed => (Err ChannelErrorReceiver, l)
  | Got f q =>
      match f_type f with
      | None => (Ok tt, set_inbound q l)
      | Some ty => on_type ty f (set_inbound q l)
      end
  end.
Definition handle_pool_message : LINK unit := on_peer_frame (λ ty f,
  match protocol_message_type ty with
  | Common => handle_common ty (f_payload f)
  | Mining => to_channel_manager f
  | _ => mret tt
  end).
Definition handle_job_declarator_message : LINK unit := on_peer_frame (λ ty f,
  match protocol_message_type ty with
  | Common => handle_common ty (f_payload f)
  | JobDeclaration => to_channel_manager f
  | _ => mret tt
  end).
Definition handle_template_provider_message : LINK unit := on_peer_frame (λ ty f,
  match protocol_message_type ty with
  | Common => handle_common ty (f_payload f)
  | TemplateDistribution => to_channel_manager f
  | _ => mret tt
  end).
Definition handle_downstream_message : LINK unit := on_peer_frame (λ ty f,
  if negb (bool_decide (protocol_message_type ty = Mining)) then mret tt else to_channel_manager f).
Definition handle_peer_message : LINK unit := λ l,
  match l_kind l with
  | SUpstream => handle_pool_message l
  | SJobDeclarator => handle_job_declarator_message l
  | STemplateReceiver => handle_template_provider_message l
  | SDownstream _ => handle_downstream_message l
  | SChannelManager => on_peer_frame (λ _ _, mret tt) l
  end.

(** The manager's next frame.  The connections to the pool and to the declarator
    go on when the manager's queue is closed, that to the template provider does
    not. *)
Definition forward_next (sender_error : LinkError) (closed : result LinkError unit) : LINK unit := λ l,
  match q_recv (from_manager l) with
  | Blocks => (Ok tt, l)
  | Closed => (closed, l)
  | Got (_, f) q => post (Forward f) sender_error (set_from_manager q l)
  end.
Definition Upstream_handle_channel_manager_message : LINK unit := forward_next CodecNoise (Ok tt).
Definition JobDeclarator_handle_channel_manager_message : LINK unit := forward_next ChannelErrorSender (Ok tt).
Definition TemplateReceiver_handle_channel_manager_message : LINK unit :=
  forward_next ChannelErrorSender (Err ChannelErrorReceiver).
(** A miner's connection listens to a broadcast that overwrites what it has not
    read once [capacity] newer messages were sent; it goes on after the loss. *)
Definition Downstream_handle_channel_manager_message (downstream_id : Z) (capacity : nat) : LINK unit := λ l,
  let lag := (length (q_log (from_manager l)) - q_taken (from_manager l) - capacity)%nat in
  if bool_decide (0 < lag)%nat then
    (Ok tt, set_from_manager (mkQueue (q_log (from_manager l)) (q_taken (from_manager l) + lag) (q_open (from_manager l))) l)
  else
    match q_recv (from_manager l) with
    | Blocks | Closed => (Ok tt, l)
    | Got (id, f) q =>
        let l := set_from_manager q l in
        if negb (id =? downstream_id) then (Ok tt, l) else post (Forward f) CodecNoise l
    end.
Definition handle_channel_manager_message (capacity : nat) : LINK unit := λ l,
  match l_kind l with
  | SUpstream | SChannelManager => Upstream_handle_channel_manager_message l
  | SJobDeclarator => JobDeclarator_handle_channel_manager_message l
  | STemplateReceiver => TemplateReceiver_handle_channel_manager_message l
  | SDownstream id => Downstream_handle_channel_manager_message id capacity l
  end.

(** *** Shutdown messages *)

(** What the loop does on a shutdown message ([None]: the loop lags or the channel is closed):
    end, or go on, the template provider's with new constraints. *)
Definition Upstream_stops (m : option ShutdownMessage) : bool :=
  match m with
  | None | Some ShutdownAll => true
  | Some (JobDeclaratorShutdownFallback _ | UpstreamShutdownFallback _ | UpstreamShutdown | JobDeclaratorShutdown) => true
  | Some (DownstreamShutdownAll | DownstreamShutdown _) => false
  end.
Definition JobDeclarator_stops (m : option ShutdownMessage) : bool :=
  match m with
  | None | Some ShutdownAll => true
  | Some (JobDeclaratorShutdownFallback _ | UpstreamShutdownFallback _ | UpstreamShutdown | JobDeclaratorShutdown) => true
  | Some (DownstreamShutdownAll | DownstreamShutdown _) => false
  end.
Definition TemplateReceiver_stops (m : option ShutdownMessage) : bool :=
  match m with None | Some ShutdownAll => true | Some _ => false end.
Definition Downstream_stops (downstream_id : Z) (m : option ShutdownMessage) : bool :=
  match m with
  | Some ShutdownAll => true
  | Some (DownstreamShutdown id) => downstream_id =? id
  | Some (JobDeclaratorShutdownFallback _ | UpstreamShutdownFallback _) => true
  | _ => false
  end.
Definition loop_stops (kind : StatusType) (m : option ShutdownMessage) : bool :=
  match kind with
  | SUpstream | SChannelManager => Upstream_stops m
  | SJobDeclarator => JobDeclarator_stops m
  | STemplateReceiver => TemplateReceiver_stops m
  | SDownstream id => Downstream_stops id m
  end.
Definition loop_shutdown (m : option ShutdownMessage) (l : Link) : Link :=
  if loop_stops (l_kind l) m then end_loop l
  else
    match l_kind l, m with
    | STemplateReceiver, Some (UpstreamShutdownFallback outputs | JobDeclaratorShutdownFallback outputs) =>
        match coinbase_constraints outputs l with
        | (Panic, l) => end_loop l
        | (_, l) => l
        end
    | _, _ => l
    end.
(** An error is reported and ends the loop. *)
Definition loop_turn (turn : LINK unit) (l : Link) : Link :=
  match turn l with
  | (Ok _, l) => l
  | (Err e, l) => end_loop (add_status e l)
  | (Panic, l) => end_loop l
  end.

(** ** A turn *)

Inductive LinkEvent : Type :=
  | Start (request : result LinkError SetupConnection.SetupConnection) (coinbase_outputs : bytes)
  | StartAnswer (coinbase_outputs : bytes)
  | ReaderShutdown (m : ShutdownMessage)
  | ReaderFrame (f : option Frame)
  | ReaderError
  | WriterShutdown (m : ShutdownMessage)
  | WriterTurn (socket_ok : bool)
  | LoopShutdown (m : option ShutdownMessage)
  | LoopPeer
  | LoopManager
  | ManagerSends (id : Z) (f : Frame)
  | ManagerCloses.
Definition link_step (capacity : nat) (e : LinkEvent) (l : Link) : Link :=
  match e with
  | Start request outputs => match l_phase l with Starting => start request outputs l | _ => l end
  | StartAnswer outputs => match l_phase l with Waiting => start_answer outputs l | _ => l end
  | ReaderShutdown m => if reader_on l && io_stops (l_kind l) m then end_reader l else l
  | ReaderFrame f => if reader_on l then reader_frame f l else l
  | ReaderError => if reader_on l then end_reader l else l
  | WriterShutdown m => if writer_on l && io_stops (l_kind l) m then end_writer l else l
  | WriterTurn ok => if writer_on l then writer_turn ok l else l
  | LoopShutdown m => if loop_on l then loop_shutdown m l else l
  | LoopPeer => if loop_on l then loop_turn handle_peer_message l else l
  | LoopManager => if loop_on l then loop_turn (handle_channel_manager_message capacity) l else l
  | ManagerSends id f => match q_send (id, f) (from_manager l) with Some q => set_from_manager q l | None => l end
  | ManagerCloses => set_from_manager (q_close (from_manager l)) l
  end.
Definition link_run (capacity : nat) (l : Link) (es : list LinkEvent) : Link := foldl (λ l e, link_step capacity e l) l es.
End loop.

(** ** The supervisor *)

(** What a status of a connection leads to: the shutdown messages sent, whether a
    new pool is sought, and whether the client ends. *)
Record Reaction : Type := mkReaction {
  broadcast_ : list ShutdownMessage;
  reconnects : bool;
  ends : bool }.
Definition on_status (encoded_outputs : bytes) (from : StatusType) : Reaction :=
  match from with
  | SDownstream id => mkReaction [DownstreamShutdown id] false false
  | STemplateReceiver | SChannelManager => mkReaction [ShutdownAll] false true
  | SUpstream | SJobDeclarator => mkReaction [UpstreamShutdownFallback encoded_outputs] true false
  end.
End Link.
