(* ===== verification/LinksProperties.v ===== *)
(** * Properties of the job declaration client's connections

    Whatever the interleaving of its tasks, a connection relays the frames of its
    protocol in order in both directions and closes its queues together; what a
    fallback stops; and messages that are lost. *)

From S2P Require Import Prelude Datatypes Codec Framing Messages SetupConnection Parsers Handlers Bitcoin BitcoinModel JdClient Links.
#[local] Open Scope Z_scope.
#[local] Open Scope list_scope.
Import Link.

(** ** Kinds of messages *)

Definition is_ok {E A} (r : result E A) : bool := match r with Ok _ => true | _ => false end.
Definition is_type (t : MessageType) (ty : Z) : bool := bool_decide (protocol_message_type ty = t).
(** Both tables are compared at each of the 256 types. *)
Definition agree (ty : Z) : bool :=
  Bool.eqb (is_type Common ty) (is_ok (CommonMessageTypes_try_from ty)) &&
  Bool.eqb (is_type Mining ty) ((ty =? 0x1e) || is_ok (MiningTypes_try_from ty) && negb ((ty =? 0xC0) || (ty =? 0xC1))) &&
  Bool.eqb (is_type JobDeclaration ty) (is_ok (JobDeclarationTypes_try_from ty)) &&
  Bool.eqb (is_type TemplateDistribution ty) (is_ok (TemplateDistributionTypes_try_from ty)).
Lemma agree_all : forallb agree (Z.of_nat <$> seq 0 256) = true.
Proof. vm_compute. reflexivity. Qed.
Lemma agree_u8 ty : fits 8 ty → agree ty = true.
Proof.
  intros Ht. pose proof agree_all as Ha. rewrite forallb_forall in Ha. apply Ha, list_elem_of_In, list_elem_of_fmap.
  exists (Z.to_nat ty). unfold fits in Ht. split; [lia|]. apply elem_of_seq. lia.
Qed.

(** ** Relaying *)

(** The protocol a connection carries, and its frames. *)
Definition carries (kind : StatusType) : option MessageType :=
  match kind with
  | SDownstream _ | SUpstream => Some Mining
  | SJobDeclarator => Some JobDeclaration
  | STemplateReceiver => Some TemplateDistribution
  | SChannelManager => None
  end.
Definition own (kind : StatusType) (f : Frame) : bool :=
  match f_type f with Some ty => bool_decide (carries kind = Some (protocol_message_type ty)) | None => false end.
(** Those the loop has read; the first [s] frames were read by the setup. *)
Definition own_frames (s : nat) (l : Link) : list Frame :=
  List.filter (own (l_kind l)) (drop s (take (q_taken (inbound l)) (q_log (inbound l)))).
Definition forwards (l : list Outgoing) : list Frame := omap (λ o, match o with Forward f => Some f | _ => None end) l.
(** The manager's frames read so far, of a miner's connection those for it. *)
Definition addressed (l : Link) : list Frame :=
  (List.filter (λ x, match l_kind l with SDownstream id => x.1 =? id | _ => true end)
     (take (q_taken (from_manager l)) (q_log (from_manager l)))).*2.
Definition is_downstream (kind : StatusType) : bool := match kind with SDownstream _ => true | _ => false end.

Record link_ok (s : nat) (l : Link) : Prop := mkLinkOk {
  k_setup : (s ≤ q_taken (inbound l))%nat;
  k_in : (q_taken (inbound l) ≤ length (q_log (inbound l)))%nat;
  k_out : (q_taken (outbound l) ≤ length (q_log (outbound l)))%nat;
  k_from : (q_taken (from_manager l) ≤ length (q_log (from_manager l)))%nat;
  k_up : q_log (to_manager l) `prefix_of` own_frames s l;
  k_up_eq : loop_on l = true → q_log (to_manager l) = own_frames s l;
  k_down : forwards (q_log (outbound l)) `sublist_of` addressed l;
  k_down_eq : loop_on l = true → is_downstream (l_kind l) = false → forwards (q_log (outbound l)) = addressed l;
  k_written : written l `prefix_of` take (q_taken (outbound l)) (q_log (outbound l));
  k_written_eq : writer_on l = true → written l = take (q_taken (outbound l)) (q_log (outbound l));
  k_closed : reader_on l && writer_on l = false → q_open (inbound l) = false ∧ q_open (outbound l) = false }.

Lemma recv_got {A} (q : Queue A) x q' :
  q_recv q = Got x q' → q_log q !! q_taken q = Some x ∧ q' = mkQueue (q_log q) (S (q_taken q)) (q_open q).
Proof. unfold q_recv. destruct (q_log q !! q_taken q); [|by destruct (q_open q)]. by intros [= -> <-]. Qed.
Lemma send_sent {A} (x : A) q q' : q_send x q = Some q' → q_open q = true ∧ q' = mkQueue (q_log q ++ [x]) (q_taken q) true.
Proof. unfold q_send. destruct (q_open q); [|done]. by intros [= <-]. Qed.

(** The tasks may end at any time. *)
Lemma ok_close s l : link_ok s l → link_ok s (close_both l).
Proof. intros []. by split. Qed.
Lemma ok_end s l : link_ok s (set_phase Ended l) → link_ok s (end_loop l).
Proof.
  intros Hl. pose proof (ok_close _ _ Hl) as Hc. destruct l as [kind ? ? ? ? ? ? ? ? ? ? ?]. by destruct kind.
Qed.
Lemma ok_loop_off s l : link_ok s l → link_ok s (end_loop l).
Proof. intros []. apply ok_end. by split. Qed.
Lemma ok_status s e l : link_ok s l → link_ok s (add_status e l).
Proof. intros []. by split. Qed.
Lemma ok_mode s m l : link_ok s l → link_ok s (set_mode m l).
Proof. intros []. by split. Qed.
Lemma ok_end_reader s l : link_ok s l → link_ok s (end_reader l).
Proof. intros []. by split. Qed.
Lemma ok_end_writer s l : link_ok s l → link_ok s (end_writer l).
Proof. intros []. by split. Qed.
Lemma ok_reader_frame s f l : link_ok s l → link_ok s (reader_frame f l).
Proof.
  intros Hl. unfold reader_frame. destruct f as [f|]; [|by apply ok_end_reader].
  destruct (q_send f (inbound l)) as [q|] eqn:E; [|by apply ok_end_reader].
  apply send_sent in E as [Ho ->]. destruct Hl as [Hs Hi Hou Hf Hu Hue Hd Hde Hw Hwe Hc].
  assert (Ht : take (q_taken (inbound l)) (q_log (inbound l) ++ [f]) = take (q_taken (inbound l)) (q_log (inbound l))) by (by apply take_app_le).
  split; try done; unfold own_frames; cbn; rewrite ?Ht; try done.
  - rewrite length_app. lia.
  - intros Hcl. by destruct (Hc Hcl) as [? _]; congruence.
Qed.
Lemma ok_writer_turn s ok l : link_ok s l → writer_on l = true → link_ok s (writer_turn ok l).
Proof.
  intros Hl Hon. unfold writer_turn. destruct (q_recv (outbound l)) as [o q| |] eqn:E; [|by apply ok_end_writer|done].
  apply recv_got in E as [Ho ->]. destruct Hl as [Hs Hi Hou Hf Hu Hue Hd Hde Hw Hwe Hc].
  assert (Hlen : (S (q_taken (outbound l)) ≤ length (q_log (outbound l)))%nat) by (apply lookup_lt_Some in Ho; lia).
  destruct ok.
  - split; try done; cbn; rewrite (Hwe Hon), <- (take_S_r _ _ _ Ho); done.
  - split; try done. cbn. rewrite (Hwe Hon). rewrite (take_S_r _ _ _ Ho). by apply prefix_app_r.
Qed.

Lemma drop_take_S {A} n s (l : list A) x : (s ≤ n)%nat → l !! n = Some x → drop s (take (S n) l) = drop s (take n l) ++ [x].
Proof.
  intros Hs Hx. rewrite (take_S_r _ _ _ Hx), drop_app_le; [done|]. rewrite length_take. apply lookup_lt_Some in Hx. lia.
Qed.
Lemma filter_snoc {A} (p : A → bool) l x : List.filter p (l ++ [x]) = List.filter p l ++ (if p x then [x] else []).
Proof. rewrite List.filter_app. cbn. by destruct (p x). Qed.
(** A frame is taken off the peer's queue: own frames must be sent on. *)
Lemma ok_take_other s f q l :
  q_recv (inbound l) = Got f q → own (l_kind l) f = false → link_ok s l → link_ok s (set_inbound q l).
Proof.
  intros E Hn Hl. apply recv_got in E as [Hf ->]. destruct Hl as [Hs Hi Hou Hfr Hu Hue Hd Hde Hw Hwe Hc].
  assert (Ho : own_frames s (set_inbound (mkQueue (q_log (inbound l)) (S (q_taken (inbound l))) (q_open (inbound l))) l) = own_frames s l).
  { unfold own_frames. cbn. rewrite (drop_take_S _ s _ _ Hs Hf), filter_snoc, Hn. apply app_nil_r. }
  apply lookup_lt_Some in Hf. split; try done; rewrite ?Ho; try done; cbn; lia.
Qed.
Lemma ok_take_own s f q l :
  q_recv (inbound l) = Got f q → own (l_kind l) f = true → link_ok s l → loop_on l = true →
  link_ok s (loop_turn (to_channel_manager f) (set_inbound q l)).
Proof.
  intros E Hn Hl Hon. apply recv_got in E as [Hf ->]. destruct Hl as [Hs Hi Hou Hfr Hu Hue Hd Hde Hw Hwe Hc].
  set (l1 := set_inbound _ l).
  assert (Ho : own_frames s l1 = q_log (to_manager l) ++ [f]).
  { rewrite (Hue Hon). unfold own_frames. cbn. by rewrite (drop_take_S _ s _ _ Hs Hf), filter_snoc, Hn. }
  assert (Hlen : (S (q_taken (inbound l)) ≤ length (q_log (inbound l)))%nat) by (apply lookup_lt_Some in Hf; lia).
  unfold loop_turn, to_channel_manager. destruct (q_send f (to_manager l1)) as [q|] eqn:Es.
  - apply send_sent in Es as [_ ->]. split; try done; [cbn; lia|..]; try intros _;
      change (own_frames s (set_to_manager _ l1)) with (own_frames s l1); by rewrite Ho.
  - apply ok_end. split; try done; [cbn; lia|]. change (q_log (to_manager l) `prefix_of` own_frames s l1). rewrite Ho. by apply prefix_app_r.
Qed.
Section loop.
Context (chk : bool) (sigops : Transaction → Z) (size : TxOut → Z).
Context `{Bitcoin}.

Lemma handle_common_mode ty payload l r l' : handle_common ty payload l = (r, l') → ∃ m, l' = set_mode m l.
Proof.
  assert (Hid : ∃ m, l = set_mode m l) by (exists (l_mode l); by destruct l).
  unfold handle_common, handle_common_message_frame_from_server, on_frame, lift. unfold mbind at 1, ST_bind at 1.
  destruct (map_err _ (CommonMessages_try_from _)) as [m|e|]; [|by intros [= _ <-]..].
  unfold handle_common_message_from_server. destruct (Parsers.kind m); cbn [common_handlers on_setup_connection_success on_setup_connection_error on_channel_endpoint_changed on_reconnect];
    try (by intros [= _ <-]).
  destruct (l_kind l); try (by intros [= _ <-]). unfold on_jds_success. rewrite st_modify_bind.
  destruct (setup_flags (struct m)) as [|[]|]; intros [= _ <-]; by eexists.
Qed.
Lemma ok_turn s (turn : ST Link LinkError unit) l :
  (∀ r l', turn l = (r, l') → link_ok s l') → link_ok s (loop_turn turn l).
Proof.
  intros Ht. unfold loop_turn. destruct (turn l) as [[[]|e|] l'] eqn:E; [by eapply Ht|..].
  - by apply ok_loop_off, ok_status, (Ht (Err e)).
  - by apply ok_loop_off, (Ht Panic).
Qed.
(** The handlers of the four connections are one. *)
Lemma peer_cases l :
  handle_peer_message l = on_peer_frame (λ ty f,
    if bool_decide (carries (l_kind l) = Some (protocol_message_type ty)) then to_channel_manager f
    else match l_kind l, protocol_message_type ty with
         | (SUpstream | SJobDeclarator | STemplateReceiver), Common => handle_common ty (f_payload f)
         | _, _ => mret tt
         end) l.
Proof.
  unfold handle_peer_message, handle_pool_message, handle_job_declarator_message, handle_template_provider_message,
    handle_downstream_message, on_peer_frame.
  destruct (l_kind l), (q_recv (inbound l)) as [f q| |]; try done; destruct (f_type f) as [ty|]; try done;
    by destruct (protocol_message_type ty).
Qed.
Lemma ok_peer s l : link_ok s l → loop_on l = true → link_ok s (loop_turn handle_peer_message l).
Proof.
  intros Hl Hon. destruct (q_recv (inbound l)) as [f q| |] eqn:E.
  2,3: apply ok_turn; intros r l'; rewrite peer_cases; unfold on_peer_frame; rewrite E; by intros [= _ <-].
  destruct (own (l_kind l) f) eqn:Ho.
  - replace (loop_turn handle_peer_message l) with (loop_turn (to_channel_manager f) (set_inbound q l)); [by apply ok_take_own|].
    unfold loop_turn. rewrite peer_cases. unfold on_peer_frame. rewrite E. unfold own in Ho. destruct (f_type f) as [ty|]; [|done].
    by rewrite Ho.
  - apply ok_turn. intros r l'. rewrite peer_cases. unfold on_peer_frame. rewrite E. unfold own in Ho.
    pose proof (ok_take_other s f q l E) as Hk. unfold own in Hk. destruct (f_type f) as [ty|]; [|intros [= _ <-]; by apply Hk].
    rewrite Ho. specialize (Hk Ho Hl).
    assert (Hc : ∀ r l', handle_common ty (f_payload f) (set_inbound q l) = (r, l') → link_ok s l')
      by (intros r1 l1 E1; destruct (handle_common_mode _ _ _ _ _ E1) as [m ->]; by apply ok_mode).
    destruct (l_kind l), (protocol_message_type ty); first [by intros [= _ <-]|apply Hc].
Qed.

(** *** The other direction *)

Lemma forwards_app a b : forwards (a ++ b) = forwards a ++ forwards b.
Proof. apply omap_app. Qed.
(** The connection sends a message of its own. *)
Lemma ok_post s o e l r l' : forwards [o] = [] → link_ok s l → post o e l = (r, l') → link_ok s l'.
Proof.
  intros Ho Hl. unfold post. destruct (q_send o (outbound l)) as [q|] eqn:E; [|by intros [= _ <-]].
  intros [= _ <-]. apply send_sent in E as [Hop ->]. destruct Hl as [Hs Hi Hou Hfr Hu Hue Hd Hde Hw Hwe Hc].
  assert (Hf : forwards (q_log (outbound l) ++ [o]) = forwards (q_log (outbound l))) by (rewrite forwards_app, Ho; apply app_nil_r).
  assert (Ht : take (q_taken (outbound l)) (q_log (outbound l) ++ [o]) = take (q_taken (outbound l)) (q_log (outbound l)))
    by (by apply take_app_le).
  split; try done; cbn [outbound set_outbound q_log q_taken q_open]; rewrite ?Hf, ?Ht; try done.
  - rewrite length_app. lia.
  - intros Hcl. by destruct (Hc Hcl) as [_ ?]; congruence.
Qed.
(** The manager's frame [x] is taken off its queue and sent, or skipped by a
    miner's connection it is not for. *)
Definition for_link (l : Link) (x : Z * Frame) : bool := match l_kind l with SDownstream id => x.1 =? id | _ => true end.
Lemma addressed_take x l :
  q_log (from_manager l) !! q_taken (from_manager l) = Some x →
  addressed (set_from_manager (mkQueue (q_log (from_manager l)) (S (q_taken (from_manager l))) (q_open (from_manager l))) l)
  = addressed l ++ (if for_link l x then [x.2] else []).
Proof.
  intros Hx. unfold addressed. cbn. rewrite (take_S_r _ _ _ Hx), filter_snoc, fmap_app. f_equal.
  unfold for_link. by destruct (l_kind l); [destruct (_ =? _)|..].
Qed.
Lemma ok_take_manager s x q e l :
  q_recv (from_manager l) = Got x q → link_ok s l → loop_on l = true →
  link_ok s (loop_turn (λ l, if for_link l x then post (Forward x.2) e l else (Ok tt, l)) (set_from_manager q l)).
Proof.
  intros E Hl Hon. apply recv_got in E as [Hx ->]. pose proof (addressed_take x l Hx) as Ha.
  destruct Hl as [Hs Hi Hou Hfr Hu Hue Hd Hde Hw Hwe Hc].
  set (l1 := set_from_manager _ l) in *.
  assert (Hlen : (S (q_taken (from_manager l)) ≤ length (q_log (from_manager l)))%nat) by (apply lookup_lt_Some in Hx; lia).
  unfold loop_turn. change (for_link l1 x) with (for_link l x).
  destruct (for_link l x) eqn:Hfor; [|rewrite app_nil_r in Ha; split; try done; rewrite Ha; done].
  unfold post. destruct (q_send (Forward x.2) (outbound l1)) as [q|] eqn:Es.
  - apply send_sent in Es as [Hop ->].
    assert (Ht : take (q_taken (outbound l)) (q_log (outbound l) ++ [Forward x.2]) = take (q_taken (outbound l)) (q_log (outbound l)))
      by (by apply take_app_le).
    split; try done; change (addressed (set_outbound _ l1)) with (addressed l1); cbn [outbound set_outbound q_log q_taken q_open];
      change (outbound l1) with (outbound l) in *; rewrite ?Ha, ?forwards_app, ?Ht; try done.
    + rewrite length_app. cbn in *. lia.
    + by apply sublist_app.
    + intros Ho Hnd. by rewrite (Hde Hon Hnd).
    + intros Hcl. by destruct (Hc Hcl) as [_ ?]; congruence.
  - apply ok_end. split; try done. change (forwards (q_log (outbound l)) `sublist_of` addressed l1). rewrite Ha. by apply sublist_inserts_r.
Qed.
(** A miner's connection that lags skips ahead. *)
Lemma addressed_skip n l :
  addressed l `sublist_of`
    addressed (set_from_manager (mkQueue (q_log (from_manager l)) (q_taken (from_manager l) + n) (q_open (from_manager l))) l).
Proof.
  unfold addressed. cbn. rewrite <- (take_drop (q_taken (from_manager l)) (take (q_taken (from_manager l) + n) _)).
  rewrite take_take, Nat.min_l by lia. rewrite List.filter_app, fmap_app. by apply sublist_inserts_r.
Qed.
Lemma ok_forward s e closed l :
  link_ok s l → loop_on l = true → is_downstream (l_kind l) = false → link_ok s (loop_turn (forward_next e closed) l).
Proof.
  intros Hl Hon Hds. unfold loop_turn, forward_next. destruct (q_recv (from_manager l)) as [[id' f] q| |] eqn:E; [| |done].
  - pose proof (ok_take_manager s (id', f) q e l E Hl Hon) as Hm. unfold loop_turn, for_link in Hm. cbn in Hm. by destruct (l_kind l).
  - destruct closed as [|e'|]; [done|by apply ok_loop_off, ok_status|by apply ok_loop_off].
Qed.
Lemma ok_manager s capacity l :
  link_ok s l → loop_on l = true → link_ok s (loop_turn (handle_channel_manager_message capacity) l).
Proof.
  intros Hl Hon. destruct (l_kind l) as [id| | | |] eqn:Hk.
  2-5: unfold loop_turn, handle_channel_manager_message; rewrite Hk; apply ok_forward; [done..|by rewrite Hk].
  pose proof Hl as [Hs Hi Hou Hfr Hu Hue Hd Hde Hw Hwe Hc].
  unfold loop_turn, handle_channel_manager_message, Downstream_handle_channel_manager_message. rewrite Hk.
  case_bool_decide as Hlag.
  - set (n := (_ - _ - _)%nat) in *. split; try done; cbn [from_manager set_from_manager q_log q_taken].
    + lia.
    + etrans; [exact Hd|apply addressed_skip].
    + intros _ Hnd. cbn in Hnd. by rewrite Hk in Hnd.
  - destruct (q_recv (from_manager l)) as [[id' f] q| |] eqn:E; [|done..].
    pose proof (ok_take_manager s (id', f) q CodecNoise l E Hl Hon) as Hm. unfold loop_turn, for_link in Hm. cbn in Hm.
    rewrite Hk in Hm. by destruct (id' =? id).
Qed.
Lemma ok_constraints s outputs l r l' : link_ok s l → coinbase_constraints sigops size chk outputs l = (r, l') → link_ok s l'.
Proof.
  intros Hl. unfold coinbase_constraints.
  destruct (ok_or _ _) as [o|e|]; [rewrite st_lift_bind|by intros [= _ <-]..].
  destruct (sum_u32 _ _ _) as [n|e|]; [rewrite st_lift_bind|by intros [= _ <-]..]. by apply ok_post.
Qed.
Lemma ok_shutdown s m l : link_ok s l → link_ok s (loop_shutdown sigops size chk m l).
Proof.
  intros Hl. unfold loop_shutdown. destruct (loop_stops _ _); [by apply ok_loop_off|].
  destruct (l_kind l); try done. destruct m as [[]|]; try done;
    (destruct (coinbase_constraints _ _ _ _ l) as [[]] eqn:E; apply (ok_constraints s) in E; auto using ok_loop_off).
Qed.
(** *** The setup *)

(** Until the loop runs nothing is taken from the peer or the manager. *)
Definition before (l : Link) : bool := match l_phase l with Starting | Waiting => true | _ => false end.
Definition fresh (l : Link) : Prop := q_taken (inbound l) = 0%nat ∧ q_taken (from_manager l) = 0%nat.
Definition inv (l : Link) : Prop := ∃ s, (s ≤ 1)%nat ∧ link_ok s l ∧ (before l = true → s = 0%nat ∧ fresh l).

(** What the setup leaves alone. *)
Definition same (l l' : Link) : Prop :=
  inbound l' = inbound l ∧ from_manager l' = from_manager l ∧ l_phase l' = l_phase l ∧ l_kind l' = l_kind l.
Definition calm (m : ST Link LinkError unit) : Prop := ∀ s l r l', link_ok s l → m l = (r, l') → link_ok s l' ∧ same l l'.
Lemma calm_throw e : calm (throw e).
Proof. by intros s l r l' Hl [= _ <-]. Qed.
Lemma calm_ret : calm (mret tt).
Proof. by intros s l r l' Hl [= _ <-]. Qed.
Lemma calm_bind m f : calm m → (∀ u, calm (f u)) → calm (m ≫= f).
Proof.
  intros Hm Hf s l r l' Hl. unfold mbind, ST_bind. destruct (m l) as [[u|e|] l1] eqn:E; destruct (Hm s l _ _ Hl E) as [H1 S1].
  - intros E2. destruct (Hf u s l1 r l' H1 E2) as [H2 S2]. split; [done|].
    destruct S1 as (A1 & B1 & C1 & D1), S2 as (A2 & B2 & C2 & D2). split_and!; congruence.
  - by intros [= _ <-].
  - by intros [= _ <-].
Qed.
Lemma calm_post o e : forwards [o] = [] → calm (post o e).
Proof.
  intros Ho s l r l' Hl E. split; [by eapply ok_post|]. revert E. unfold post. destruct (q_send _ _); by intros [= _ <-].
Qed.
Lemma calm_common ty payload : calm (handle_common ty payload).
Proof. intros s l r l' Hl E. destruct (handle_common_mode _ _ _ _ _ E) as [m ->]. split; [by apply ok_mode|done]. Qed.
Lemma calm_reply r : calm (reply r).
Proof.
  intros s l r' l' Hl. pose proof (λ r1 l1, calm_post (SendReply r) Shutdown eq_refl s l r1 l1 Hl) as Hp.
  unfold reply. unfold post in Hp. destruct (q_send _ _); intros [= _ <-]; by eapply Hp.
Qed.
Lemma calm_std_job b : calm (modify (set_std_job b)).
Proof. intros s l r l' [] [= _ <-]. split; [by split|done]. Qed.
Lemma calm_constraints outputs : calm (coinbase_constraints sigops size chk outputs).
Proof.
  intros s l r l' Hl. unfold coinbase_constraints.
  destruct (ok_or _ _) as [o|e|]; [rewrite st_lift_bind|by intros [= _ <-]..].
  destruct (sum_u32 _ _ _) as [n|e|]; [rewrite st_lift_bind|by intros [= _ <-]..]. by apply calm_post.
Qed.
Lemma calm_setup m : calm (handle_setup_connection m).
Proof.
  unfold handle_setup_connection. repeat (case_match; try apply calm_ret);
    repeat first [apply calm_bind; [|intros _]|apply calm_reply|apply calm_throw|apply calm_std_job|apply calm_ret].
Qed.
Lemma calm_answer f : calm (setup_answer f).
Proof.
  intros s l r l' Hl. unfold setup_answer. destruct (l_kind l).
  2-5: (destruct f as [f|]; cbn [finish_setup]; [destruct (f_type f); [by apply calm_common|]|]; by apply calm_throw).
  destruct f as [f|]; cbn [setup_connection_with_downstream]; [|by apply calm_throw].
  destruct (f_type f) as [ty|]; [|by apply calm_throw]. destruct (ty =? 0); [|by apply calm_throw].
  unfold handle_common_message_frame_from_client, on_frame, lift. unfold mbind at 1, ST_bind at 1.
  destruct (map_err _ _) as [m|e|]; [|by intros [= _ <-]..]. unfold handle_common_message_from_client.
  destruct (Parsers.kind m); first [by apply calm_setup|by apply calm_throw].
Qed.
(** The loop begins. *)
Lemma ok_running s l :
  link_ok s l → s = q_taken (inbound l) → is_downstream (l_kind l) = true ∨ q_taken (from_manager l) = 0%nat → link_ok s (set_phase Running l).
Proof.
  intros [Hs Hi Hou Hfr Hu Hue Hd Hde Hw Hwe Hc] Ht Hf. split; try done.
  - intros _. change (q_log (to_manager l) = own_frames s l). revert Hu. unfold own_frames. rewrite Ht, drop_ge by (rewrite length_take; lia).
    apply prefix_nil_inv.
  - intros _ Hds. change (forwards (q_log (outbound l)) = addressed l). destruct Hf as [Hf|Hf]; [cbn in Hds; congruence|].
    revert Hd. unfold addressed. rewrite Hf. cbn. apply sublist_nil_r.
Qed.
Lemma ok_subscribe s l : link_ok s l → is_downstream (l_kind l) = true → link_ok s (subscribe l).
Proof.
  intros [Hs Hi Hou Hfr Hu Hue Hd Hde Hw Hwe Hc] Hk. split; try done.
  - etrans; [exact Hd|]. pose proof (addressed_skip (length (q_log (from_manager l)) - q_taken (from_manager l)) l) as Ha.
    by replace (q_taken (from_manager l) + (length (q_log (from_manager l)) - q_taken (from_manager l)))%nat
      with (length (q_log (from_manager l))) in Ha by lia.
  - cbn. congruence.
Qed.
Lemma ok_start_loop s outputs r l :
  link_ok s l → s = q_taken (inbound l) → q_taken (from_manager l) = 0%nat →
  link_ok s (start_loop sigops size chk outputs r l) ∧ before (start_loop sigops size chk outputs r l) = false.
Proof.
  intros Hl Hs Hf. assert (He : link_ok s (end_loop l) ∧ before (end_loop l) = false) by (split; [by apply ok_loop_off|done]).
  assert (Hr : link_ok s (set_phase Running l)) by auto using ok_running.
  unfold start_loop. destruct (l_kind l) eqn:Hk, r as [u|e|]; try done; try (by split; [apply ok_loop_off, ok_status|]).
  - split; [|done]. apply ok_running; [by apply ok_subscribe; [|rewrite Hk]|done|left; cbn; by rewrite Hk].
  - destruct (coinbase_constraints _ _ _ _ l) as [[u'|e'|] l'] eqn:E; destruct (calm_constraints outputs s l _ _ Hl E) as [Hl' (Hi & Hm & _)];
      (split; [|done]); first [by apply ok_loop_off|apply ok_running; rewrite ?Hi, ?Hm; auto].
  - destruct (coinbase_constraints _ _ _ _ l) as [[u'|e'|] l'] eqn:E; destruct (calm_constraints outputs s l _ _ Hl E) as [Hl' (Hi & Hm & _)];
      (split; [|done]); first [by apply ok_loop_off|apply ok_running; rewrite ?Hi, ?Hm; auto].
Qed.
(** The frame the setup waits for. *)
Lemma ok_setup_frame f q l :
  q_recv (inbound l) = Got f q → link_ok 0 l → fresh l → loop_on l = false → link_ok 1 (set_inbound q l) ∧ q_taken q = 1%nat.
Proof.
  intros E [Hs Hi Hou Hfr Hu Hue Hd Hde Hw Hwe Hc] [Ht _] Hon. apply recv_got in E as [Hf ->].
  assert (Hnil : q_log (to_manager l) = []) by (revert Hu; unfold own_frames; rewrite Ht; apply prefix_nil_inv).
  rewrite Ht in *. apply lookup_lt_Some in Hf. split; [|done]. split; try done.
  - cbn. rewrite Hnil. apply prefix_nil.
  - cbn. by unfold loop_on in *; cbn; rewrite Hon.
Qed.
Lemma before_off l : before l = true → loop_on l = false.
Proof. unfold before, loop_on. by destruct (l_phase l). Qed.
Lemma inv_start_loop s outputs r l :
  (s ≤ 1)%nat → link_ok s l → s = q_taken (inbound l) → q_taken (from_manager l) = 0%nat → inv (start_loop sigops size chk outputs r l).
Proof. intros. edestruct ok_start_loop as [? Hb]; [done..|]. exists s. split_and!; [done..|]. by rewrite Hb. Qed.
Lemma inv_waiting l : link_ok 0 l → fresh l → inv (set_phase Waiting l).
Proof. intros [] ?. exists 0%nat. split_and!; [lia| |done]. by split. Qed.
Lemma inv_start request outputs l : link_ok 0 l → fresh l → inv (start sigops size chk request outputs l).
Proof.
  intros Hl Hf. unfold start. destruct (l_kind l) eqn:Hk; [by apply inv_waiting|..];
    (destruct (send_setup request l) as [r l'] eqn:E;
     assert (Hs : link_ok 0 l' ∧ same l l') by
       (revert E; unfold send_setup; destruct request; [by apply calm_post|by intros [= _ <-]..]);
     destruct Hs as [Hl' (Hi & Hm & _)]; unfold fresh in Hf; rewrite <- Hi, <- Hm in Hf;
     destruct r; [by apply inv_waiting|apply (inv_start_loop 0); [lia|done|symmetry; apply Hf|apply Hf]..]).
Qed.
Lemma inv_answer outputs l : link_ok 0 l → fresh l → before l = true → inv (start_answer sigops size chk outputs l).
Proof.
  intros Hl Hf Hb. unfold start_answer. destruct (q_recv (inbound l)) as [f q| |] eqn:E.
  - destruct (ok_setup_frame f q l E Hl Hf (before_off l Hb)) as [Hl1 Ht].
    destruct (setup_answer (Some f) (set_inbound q l)) as [r l'] eqn:Ea. destruct (calm_answer _ _ _ _ _ Hl1 Ea) as [Hl' (Hi & Hm & _)].
    apply (inv_start_loop 1); [done..| |]; [by rewrite Hi|rewrite Hm; apply Hf].
  - destruct (setup_answer None l) as [r l'] eqn:Ea. destruct (calm_answer _ _ _ _ _ Hl Ea) as [Hl' (Hi & Hm & _)].
    destruct Hf. apply (inv_start_loop 0); [lia|done|congruence|congruence].
  - exists 0%nat. split_and!; [lia|done|done].
Qed.

(** *** A run *)

Lemma turn_after (turn : ST Link LinkError unit) l :
  loop_on l = true → (∀ r l', turn l = (r, l') → l_phase l' = l_phase l) → before (loop_turn turn l) = false.
Proof.
  intros Hon Hp. unfold loop_turn. destruct (turn l) as [[u|e|] l'] eqn:E; [|done..].
  unfold before. rewrite (Hp _ _ eq_refl). unfold loop_on in Hon. by destruct (l_phase l).
Qed.
Lemma peer_phase l r l' : handle_peer_message l = (r, l') → l_phase l' = l_phase l.
Proof.
  rewrite peer_cases. unfold on_peer_frame. destruct (q_recv (inbound l)) as [f q| |]; [|by intros [= _ <-]..].
  destruct (f_type f) as [ty|]; [|by intros [= _ <-]]. case_bool_decide.
  - unfold to_channel_manager. destruct (q_send _ _); by intros [= _ <-].
  - destruct (l_kind l), (protocol_message_type ty); first [by intros [= _ <-]|intros E; by destruct (handle_common_mode _ _ _ _ _ E) as [m ->]].
Qed.
Lemma post_phase o e l r l' : post o e l = (r, l') → l_phase l' = l_phase l.
Proof. unfold post. destruct (q_send _ _); by intros [= _ <-]. Qed.
Lemma forward_phase e closed l r l' : forward_next e closed l = (r, l') → l_phase l' = l_phase l.
Proof.
  unfold forward_next. destruct (q_recv _) as [[] q| |]; [|by intros [= _ <-]..]. intros E. by rewrite (post_phase _ _ _ _ _ E).
Qed.
Lemma manager_phase capacity l r l' : handle_channel_manager_message capacity l = (r, l') → l_phase l' = l_phase l.
Proof.
  unfold handle_channel_manager_message. destruct (l_kind l); try apply forward_phase.
  unfold Downstream_handle_channel_manager_message. case_bool_decide; [by intros [= _ <-]|].
  destruct (q_recv _) as [[] q| |]; [|by intros [= _ <-]..]. destruct (negb _); [by intros [= _ <-]|]. intros E. by rewrite (post_phase _ _ _ _ _ E).
Qed.
Lemma shutdown_after m l : link_ok 0 l ∨ link_ok 1 l → loop_on l = true → before (loop_shutdown sigops size chk m l) = false.
Proof.
  intros Hl Hon. assert (Hb : before l = false) by (unfold before, loop_on in *; by destruct (l_phase l)).
  unfold loop_shutdown. destruct (loop_stops _ _); [done|]. destruct (l_kind l); try done. destruct m as [[]|]; try done;
    (destruct (coinbase_constraints _ _ _ _ l) as [[] l'] eqn:E; [..|done];
     assert (Hs : same l l') by (destruct Hl as [Hl|Hl]; by eapply calm_constraints in E as [? ?]);
     destruct Hs as (_ & _ & Hp & _); unfold before in *; by rewrite Hp).
Qed.
Definition is_start (e : LinkEvent) : bool := match e with Start _ _ | StartAnswer _ => true | _ => false end.
Lemma ok_step s capacity e l :
  is_start e = false → link_ok s l → link_ok s (link_step sigops size chk capacity e l).
Proof.
  intros He Hl. destruct e; try done; cbn [link_step].
  1,4: destruct (_ && _); auto using ok_end_reader, ok_end_writer.
  - destruct (reader_on l); auto using ok_reader_frame.
  - destruct (reader_on l); auto using ok_end_reader.
  - destruct (writer_on l) eqn:Hw; auto using ok_writer_turn.
  - destruct (loop_on l); auto using ok_shutdown.
  - destruct (loop_on l) eqn:Ho; auto using ok_peer.
  - destruct (loop_on l) eqn:Ho; auto using ok_manager.
  - destruct (q_send _ _) as [q|] eqn:E; [|done]. apply send_sent in E as [_ ->]. destruct Hl as [Hs Hi Hou Hfr Hu Hue Hd Hde Hw Hwe Hc].
    assert (Ha : addressed (set_from_manager (mkQueue (q_log (from_manager l) ++ [(id, f)]) (q_taken (from_manager l)) true) l) = addressed l)
      by (unfold addressed; cbn; by rewrite take_app_le).
    split; try done; rewrite ?Ha; try done. cbn. rewrite length_app. lia.
  - destruct Hl. by split.
Qed.
(** Only the setup itself leads out of its phases. *)
Lemma step_before capacity e l :
  inv l → is_start e = false → before (link_step sigops size chk capacity e l) = true →
  before l = true ∧ q_taken (inbound (link_step sigops size chk capacity e l)) = q_taken (inbound l) ∧
  q_taken (from_manager (link_step sigops size chk capacity e l)) = q_taken (from_manager l).
Proof.
  intros (s & Hs & Hl & _) He. destruct e; try done; cbn [link_step].
  - by destruct (_ && _).
  - destruct (reader_on l); [|done]. unfold reader_frame. destruct f; [|done]. destruct (q_send _ _) as [q|] eqn:E; [|done].
    by apply send_sent in E as [_ ->].
  - by destruct (reader_on l).
  - by destruct (_ && _).
  - destruct (writer_on l); [|done]. unfold writer_turn. destruct (q_recv _); try done. by destruct socket_ok.
  - destruct (loop_on l) eqn:Ho; [|done]. rewrite shutdown_after; try done. destruct s as [|[|]]; [auto..|lia].
  - destruct (loop_on l) eqn:Ho; [|done]. rewrite turn_after; [done..|apply peer_phase].
  - destruct (loop_on l) eqn:Ho; [|done]. rewrite turn_after; [done..|apply manager_phase].
  - destruct (q_send _ _) as [q|] eqn:E; [|done]. by apply send_sent in E as [_ ->].
Qed.
Lemma link_inv_step capacity e l : inv l → inv (link_step sigops size chk capacity e l).
Proof.
  intros Hi. pose proof Hi as (s & Hs & Hl & Hb). destruct (is_start e) eqn:He.
  - destruct e; try done; cbn [link_step]; destruct (l_phase l) eqn:Hp; try done;
      (destruct Hb as [-> Hf]; [by unfold before; rewrite Hp|]); [by apply inv_start|apply inv_answer; [done..|by unfold before; rewrite Hp]].
  - exists s. split_and!; [done|by apply ok_step|]. intros Hb'. destruct (step_before capacity e l Hi He Hb') as (Hb1 & Hq1 & Hq2).
    destruct (Hb Hb1) as [-> [Hf1 Hf2]]. split; [done|]. split; congruence.
Qed.
Lemma inv_run capacity es l : inv l → inv (link_run sigops size chk capacity l es).
Proof. revert l. unfold link_run. induction es as [|e es IH]; intros l Hl; [done|]. by apply IH, link_inv_step. Qed.
Lemma inv_new kind : inv (new_link kind).
Proof. exists 0%nat. split_and!; [lia|by split|done]. Qed.
End loop.

(** ** Properties *)

(** What was taken from a queue is part of what was sent on it. *)
Lemma addressed_log l : addressed l `sublist_of` (q_log (from_manager l)).*2.
Proof.
  unfold addressed. rewrite <- (take_drop (q_taken (from_manager l)) (q_log (from_manager l))) at 2. rewrite fmap_app.
  apply sublist_inserts_r. induction (take _ _) as [|x xs IH]; [done|]. cbn. destruct (match l_kind l with SDownstream id => _ | _ => _ end); cbn;
    by constructor.
Qed.
Lemma forwards_sublist a b : a `sublist_of` b → forwards a `sublist_of` forwards b.
Proof. induction 1 as [|[]|[]]; cbn; by try constructor. Qed.

(** *** Delivery *)

Lemma common_keeps `{Bitcoin} ty payload l r l' : handle_common ty payload l = (r, l') → inbound l' = inbound l.
Proof. intros E. by destruct (handle_common_mode _ _ _ _ _ E) as [m ->]. Qed.
Lemma turn_inbound (turn : ST Link LinkError unit) l q r l' :
  turn l = (r, l') → inbound l' = q → q_log (inbound (loop_turn turn l)) = q_log q ∧ q_taken (inbound (loop_turn turn l)) = q_taken q.
Proof.
  intros E Hq. unfold loop_turn. rewrite E. destruct l' as [kind ? ? ? ? ? ? ? ? ? ? ?]. cbn in Hq. subst q.
  by destruct r; [|destruct kind..].
Qed.
(** A turn takes the next frame, if there is one. *)
Lemma peer_inbound `{Bitcoin} l r l' :
  handle_peer_message l = (r, l') →
  match q_recv (inbound l) with Got _ q => inbound l' = q | _ => inbound l' = inbound l end.
Proof.
  rewrite peer_cases. unfold on_peer_frame. destruct (q_recv (inbound l)) as [f q| |]; [|by intros [= _ <-]..].
  destruct (f_type f) as [ty|]; [|by intros [= _ <-]]. case_bool_decide.
  - unfold to_channel_manager. destruct (q_send _ _); by intros [= _ <-].
  - destruct (l_kind l), (protocol_message_type ty);
      first [by intros [= _ <-]|intros E; by rewrite (common_keeps _ _ _ _ _ E)].
Qed.
Lemma peer_takes `{Bitcoin} l :
  (q_taken (inbound l) ≤ length (q_log (inbound l)))%nat →
  let l' := loop_turn handle_peer_message l in
  q_log (inbound l') = q_log (inbound l) ∧ q_taken (inbound l') = Nat.min (length (q_log (inbound l))) (S (q_taken (inbound l))).
Proof.
  intros Hle l'. subst l'. destruct (handle_peer_message l) as [r l1] eqn:E. pose proof (peer_inbound _ _ _ E) as Hq.
  destruct (turn_inbound _ _ _ _ _ E eq_refl) as [-> ->]. unfold q_recv in Hq. destruct (_ !! _) as [f|] eqn:Hf.
  - rewrite Hq. apply lookup_lt_Some in Hf. cbn. split; [done|lia].
  - apply lookup_ge_None in Hf. destruct (q_open (inbound l)); rewrite Hq; split; [done|lia|done|lia].
Qed.
Lemma peer_turns `{Bitcoin} sigops size chk capacity n l :
  (q_taken (inbound l) ≤ length (q_log (inbound l)))%nat →
  let l' := link_run sigops size chk capacity l (replicate n LoopPeer) in
  loop_on l' = true →
  q_log (inbound l') = q_log (inbound l) ∧ q_taken (inbound l') = Nat.min (length (q_log (inbound l))) (n + q_taken (inbound l)).
Proof.
  revert l. induction n as [|n IH]; intros l Hle; [cbn; split; [done|lia]|].
  cbn [replicate]. unfold link_run. cbn [foldl link_step]. destruct (loop_on l) eqn:Ho.
  - destruct (peer_takes l Hle) as [Hlog Ht]. intros Hon. destruct (IH (loop_turn handle_peer_message l)) as [Hlog' Ht'].
    + rewrite Hlog, Ht. lia.
    + exact Hon.
    + unfold link_run in Hlog', Ht'. rewrite Hlog', Ht', Hlog, Ht. split; [done|lia].
  - intros Hon. exfalso. revert Hon. clear -Ho.
    enough (He : foldl (λ l e, link_step sigops size chk capacity e l) l (replicate n LoopPeer) = l) by (rewrite He; congruence).
    induction n as [|n IH]; [done|]. cbn. by rewrite Ho.
Qed.

(** C30: A connection of the job declaration client relays.  In every interleaving
    of its setup, its reader, its writer, its message loop, the channel manager and
    the shutdown messages, there is [s], at most 1 (the frame the setup waited
    for), so that the manager has received the frames of the connection's protocol
    that the loop read after the first [s], in the order the peer sent them, all of
    them as long as the loop runs, and, when the loop turns to the peer as often as
    there are frames and still runs, all the peer sent; the frames written to the
    peer are frames of the manager in the manager's order, of a miner's connection
    those addressed to it; the loop of the other connections has passed on each
    frame it took; what was written is the beginning of what was sent; and once the
    reader or the writer has ended, both queues are closed, so that the other task
    and the loop end too. *)
Theorem link_relays `{Bitcoin} sigops size chk capacity kind es :
  let l := link_run sigops size chk capacity (new_link kind) es in
  (∃ s, (s ≤ 1)%nat ∧
    q_log (to_manager l) `prefix_of` own_frames s l ∧
    (loop_on l = true → q_log (to_manager l) = own_frames s l) ∧
    (∀ n, (length (q_log (inbound l)) ≤ n)%nat →
       let l' := link_run sigops size chk capacity l (replicate n LoopPeer) in
       loop_on l' = true → q_log (to_manager l') = List.filter (own (l_kind l')) (drop s (q_log (inbound l))))) ∧
  (forwards (written l) `sublist_of` addressed l ∧ addressed l `sublist_of` (q_log (from_manager l)).*2) ∧
  (loop_on l = true → is_downstream (l_kind l) = false → forwards (q_log (outbound l)) = addressed l) ∧
  written l `prefix_of` q_log (outbound l) ∧
  (reader_on l && writer_on l = false → q_open (inbound l) = false ∧ q_open (outbound l) = false).
Proof.
  intros l. pose proof (inv_run chk sigops size capacity es _ (inv_new kind)) as (s & Hs1 & Hok & _). fold l in Hok.
  pose proof Hok as [Hs Hi Hou Hfr Hu Hue Hd Hde Hw Hwe Hc].
  assert (Hp : written l `prefix_of` q_log (outbound l)) by (etrans; [exact Hw|]; apply prefix_take).
  split_and!; try done; [|..|apply addressed_log].
  - exists s. split_and!; try done. intros n Hn l' Ho.
    destruct (peer_turns sigops size chk capacity n l Hi Ho) as [Hlog Ht]. fold l' in Hlog, Ht.
    assert (Hok' : link_ok s l').
    { subst l'. clear Ho Hlog Ht. revert Hok. generalize l. clear. intros l Hok. revert l Hok. unfold link_run.
      induction n as [|n IH]; intros l Hok; [done|]. cbn [replicate foldl]. by apply IH, ok_step. }
    by rewrite (k_up_eq _ _ Hok' Ho); unfold own_frames; rewrite Hlog, Ht, take_ge by lia.
  - etrans; [|exact Hd]. apply forwards_sublist. destruct Hp as [k Hk]. rewrite Hk. by apply sublist_inserts_r.
Qed.

(** The tables of message types are those of the parsers, except that they have
    no quote messages and that they count the unassigned type [0x1e] among the
    mining messages. *)
Theorem message_type_tables ty :
  fits 8 ty →
  is_type Common ty = is_ok (CommonMessageTypes_try_from ty) ∧
  is_type Mining ty = ((ty =? 0x1e) || is_ok (MiningTypes_try_from ty) && negb ((ty =? 0xC0) || (ty =? 0xC1))) ∧
  is_type JobDeclaration ty = is_ok (JobDeclarationTypes_try_from ty) ∧
  is_type TemplateDistribution ty = is_ok (TemplateDistributionTypes_try_from ty).
Proof.
  intros Ht. pose proof (agree_u8 ty Ht) as Ha. unfold agree in Ha. rewrite !andb_true_iff in Ha.
  destruct Ha as [[[H1 H2] H3] H4]. split_and!; by apply Bool.eqb_prop.
Qed.

(** A fallback ends every task of every connection except the template
    provider's, without a status when each task sees the message first. *)
Theorem fallback_ends `{Bitcoin} sigops size chk capacity outputs l :
  l_kind l ≠ STemplateReceiver → l_kind l ≠ SChannelManager →
  let m := UpstreamShutdownFallback outputs in
  let l' := link_run sigops size chk capacity l [ReaderShutdown m; WriterShutdown m; LoopShutdown (Some m)] in
  reader_on l' = false ∧ writer_on l' = false ∧ loop_on l' = false ∧ statuses l' = statuses l.
Proof.
  intros Ht Hc m l'. destruct l as [kind ? ? ? ? r w ph ? ? ? ?]. cbn in Ht, Hc.
  by destruct kind; try done; destruct r, w, ph.
Qed.
(** But the reader closes the peer's queue when it sees the message, and a loop
    that turns to that queue first reports the closed queue as a fault: the
    supervisor, which has already answered the fallback, drops the connections it
    has made since and seeks yet another pool. *)
Theorem fallback_twice `{Bitcoin} sigops size chk capacity outputs l :
  l_kind l = SUpstream ∨ l_kind l = SJobDeclarator →
  reader_on l = true → loop_on l = true → q_taken (inbound l) = length (q_log (inbound l)) →
  let l' := link_run sigops size chk capacity l [ReaderShutdown (UpstreamShutdownFallback outputs); LoopPeer] in
  statuses l' = statuses l ++ [ChannelErrorReceiver] ∧
  on_status outputs (l_kind l) = mkReaction [UpstreamShutdownFallback outputs] true false.
Proof.
  intros Hk Hr Ho Hq l'. subst l'. destruct l as [kind [log taken op] ? ? ? r w ph ? ? ? ?]. cbn in Hk, Hr, Ho, Hq. subst r taken. destruct ph; try done.
  assert (Hn : log !! length log = None) by (by apply lookup_ge_None).
  destruct Hk as [-> | ->]; unfold link_run; cbn; rewrite bool_decide_eq_false_2 by done; cbn;
    unfold loop_turn; rewrite peer_cases; unfold on_peer_frame, q_recv; cbn; by rewrite Hn.
Qed.

(** ** Runs *)

Module LinkSample.
Definition frame (ty n : Z) : Frame := mkFrame (Some ty) (to_le_bytes 1 n).
Definition no_sigops (_ : Transaction) : Z := 0.
Definition no_size (_ : TxOut) : Z := 0.
Definition run (kind : StatusType) : list LinkEvent → Link :=
  link_run (H := model_bitcoin) no_sigops no_size true 16 (new_link kind).
Definition setup : SetupConnection.SetupConnection := get_setup_connection_message 2 2.
(** [SetupConnectionSuccess] with version 2 and the given flags. *)
Definition success (flags : Z) : Frame := mkFrame (Some 1) (to_le_bytes 2 2 ++ to_le_bytes 4 flags).
Definition set_up : list LinkEvent := [Start (Ok setup) []; WriterTurn true; ReaderFrame (Some (success 0)); StartAnswer []].
(** [SetupConnection] of a miner. *)
Definition request (protocol flags : Z) : Frame :=
  mkFrame (Some 0) (to_le_bytes 1 protocol ++ to_le_bytes 2 2 ++ to_le_bytes 2 2 ++ to_le_bytes 4 flags ++
    to_le_bytes 1 0 ++ to_le_bytes 2 80 ++ to_le_bytes 4 0).

(** A new job of the pool and a share of the manager pass; so does the end of the
    connection. *)
Definition traffic : list LinkEvent :=
  set_up ++ [ReaderFrame (Some (frame 0x15 1)); ManagerSends 0 (frame 0x1b 2); LoopPeer; LoopManager; WriterTurn true].
Example pool_link_works :
  let l := run SUpstream (traffic ++ [ReaderError; LoopPeer]) in
  q_log (to_manager l) = [frame 0x15 1] ∧ written l = [SendSetup setup; Forward (frame 0x1b 2)] ∧
  statuses l = [ChannelErrorReceiver] ∧ l_phase l = Ended.
Proof. vm_compute. done. Qed.
Example link_relays_witness :
  let l := run SUpstream traffic in
  q_log (to_manager l) = [frame 0x15 1] ∧ forwards (q_log (outbound l)) = addressed l.
Proof.
  intros l. split; [vm_compute; reflexivity|].
  apply (link_relays (H := model_bitcoin) no_sigops no_size true 16 SUpstream traffic); vm_compute; reflexivity.
Defined.
(** A miner asks for standard jobs; one that asks for another protocol is told so
    and its connection ends. *)
Example miner_link_works :
  let l := run (SDownstream 7) [Start (Ok setup) []; ReaderFrame (Some (request 0 1)); StartAnswer []; WriterTurn true] in
  l_phase l = Running ∧ require_std_job l = true ∧ written l = [SendReply (Jdc.SetupSuccess 2 1)].
Proof. vm_compute. done. Qed.
Example miner_link_refused :
  let l := run (SDownstream 7) [Start (Ok setup) []; ReaderFrame (Some (request 1 0)); StartAnswer []; WriterTurn true] in
  l_phase l = Ended ∧ statuses l = [Shutdown] ∧ written l = [SendReply (Jdc.SetupError 0 "unsupported-protocol")].
Proof. vm_compute. done. Qed.
(** The declarator's flags select the mode; those that select none end the
    connection. *)
Example declarator_mode :
  let answered flags := run SJobDeclarator [Start (Ok setup) []; ReaderFrame (Some (success flags)); StartAnswer []] in
  (l_mode (answered 1), l_phase (answered 1)) = (Some Jdc.FullTemplate, Running) ∧
  (l_mode (answered 2), l_phase (answered 2), statuses (answered 2)) = (Some Jdc.SoloMining, Ended, [Shutdown]).
Proof. vm_compute. done. Qed.
(** A template provider that refuses the setup is talked to all the same. *)
Example template_setup_ignored :
  let refused := mkFrame (Some 2) (to_le_bytes 4 0 ++ to_le_bytes 1 0) in
  let l := run STemplateReceiver [Start (Ok setup) [Byte.x00]; ReaderFrame (Some refused); StartAnswer [Byte.x00]] in
  l_phase l = Running ∧ statuses l = [] ∧ q_log (outbound l) = [SendSetup setup; SendConstraints 0 0].
Proof. vm_compute. done. Qed.
(** The pool's notice of a quote (0xC0) is read and dropped. *)
Example quote_notification_dropped :
  let l := run SUpstream (set_up ++ [ReaderFrame (Some (frame 0xC0 1)); LoopPeer]) in
  q_taken (inbound l) = 2%nat ∧ q_log (to_manager l) = [] ∧ statuses l = [] ∧ l_phase l = Running.
Proof. vm_compute. done. Qed.
(** Twenty frames for a miner before its loop turns: the first four are lost, the
    loop goes on, and nobody is told. *)
Example lagging_miner_loses_frames :
  let sends := (λ n, ManagerSends 7 (frame 0x15 n)) <$> seqZ 0 20 in
  let l := run (SDownstream 7) ([Start (Ok setup) []; ReaderFrame (Some (request 0 0)); StartAnswer []] ++ sends ++ replicate 17 LoopManager) in
  forwards (q_log (outbound l)) = frame 0x15 <$> seqZ 4 16 ∧ statuses l = [] ∧ l_phase l = Running.
Proof. vm_compute. done. Qed.
End LinkSample.
