(* ===== verification/Upstreams.v ===== *)
(** * The translator's connections to pools

    [roles/translator/src/lib/sv2/upstream]: the connection to the pool
    ([upstream.rs], [channel.rs], [message_handler.rs]), on the connection of
    [roles-utils/network-helpers/src/noise_connection.rs]; the supervisor that
    restarts it is the task of [roles/translator/src/lib/mod.rs].

    All connections share the two queues to and from the channel manager, and the
    supervisor makes a new one on every status it receives, so the state has a list
    of them.  [proxy_step] is one turn of one task; a run is any interleaving.  The
    broadcast of shutdown messages holds one message: a task with two unread ones
    lags. *)

From S2P Require Import Prelude Datatypes Codec Framing Messages SetupConnection Parsers Handlers JdClient Links.
#[local] Open Scope Z_scope.
#[local] Open Scope list_scope.

Module Ups.
Import Link.

(** ** Connections *)

(** A frame is a handshake frame or a message, whose header may be unreadable. *)
Inductive EitherFrame : Type := HandShake | Sv2 (msg_type : option Z) (payload : bytes).
(** What is sent: the frames of the channel manager and the setup. *)
Inductive Outgoing : Type := Relay (f : EitherFrame) | Setup (m : SetupConnection.SetupConnection).
Record Connection : Type := mkConnection {
  incoming : Queue EitherFrame;
  outgoing : Queue Outgoing;
  c_reader : bool;
  c_writer : bool;
  c_written : list Outgoing }.
Definition Connection_new : Connection := mkConnection new_queue new_queue true true [].
Definition set_incoming q (c : Connection) : Connection := mkConnection q (outgoing c) (c_reader c) (c_writer c) (c_written c).
Definition set_outgoing q (c : Connection) : Connection := mkConnection (incoming c) q (c_reader c) (c_writer c) (c_written c).
Definition close_all (c : Connection) : Connection :=
  mkConnection (q_close (incoming c)) (q_close (outgoing c)) (c_reader c) (c_writer c) (c_written c).
(** A frame read, or an error or a signal ([None]). *)
Definition reader_turn (res : option EitherFrame) (c : Connection) : Connection :=
  let stop c := let c := close_all c in mkConnection (incoming c) (outgoing c) false (c_writer c) (c_written c) in
  match res with
  | None => stop c
  | Some f => match q_send f (incoming c) with Some q => set_incoming q c | None => stop c end
  end.
Definition writer_turn (socket_ok : bool) (c : Connection) : Connection :=
  let stop c := let c := close_all c in mkConnection (incoming c) (outgoing c) (c_reader c) false (c_written c) in
  match q_recv (outgoing c) with
  | Blocks => c
  | Closed => stop c
  | Got o q =>
      let c := set_outgoing q c in
      if socket_ok then mkConnection (incoming c) (outgoing c) (c_reader c) (c_writer c) (c_written c ++ [o]) else stop c
  end.

(** ** State *)

Inductive UpError : Type :=
  | UChannelErrorSender
  | UUnexpectedMessage (message_type : Z)
  | UParserError (e : ParserError)
  | UCodecNoise
  | UFraming
  | UShutdown.
#[global] Instance UpError_HandlerErrorType : HandlerErrorType UpError :=
  {| unexpected_message := UUnexpectedMessage; parse_error := UParserError |}.
Inductive ShutdownMessage : Type :=
  | ShutdownAll
  | DownstreamShutdownAll
  | DownstreamShutdown (downstream_id : Z)
  | UpstreamReconnectedResetAndShutdownDownstreams.
(** [State] of [status.rs]. *)
Inductive State : Type :=
  | SDownstreamShutdown (downstream_id : Z)
  | SSv1ServerShutdown
  | SChannelManagerShutdown
  | SUpstreamShutdown.

(** [seen] is the task's position in the log of shutdown messages. *)
Record Task : Type := mkTask { conn : Connection; t_phase : Phase; seen : nat }.
Definition on_conn (f : Connection → Connection) (t : Task) : Task := mkTask (f (conn t)) (t_phase t) (seen t).
(** The supervisor listens, awaits the setup of a connection (of the first one
    before it listens), or has ended. *)
Inductive Supervisor : Type := Booting | Listening | SettingUp (i : nat) (first : bool) | Stopped.
(** [sent] logs which connection took which frame of the manager, and [faults]
    counts the statuses of connections that go on; no code reads them. *)
Record Proxy : Type := mkProxy {
  tasks : list Task;
  from_manager : Queue EitherFrame;
  to_manager : Queue (nat * EitherFrame);
  pending : list State;
  shutdowns : list ShutdownMessage;
  supervisor : Supervisor;
  sent : list (nat * EitherFrame);
  faults : nat }.
Definition Proxy_new : Proxy := mkProxy [] new_queue new_queue [] [] Booting [] 0.
Definition set_tasks v (p : Proxy) : Proxy :=
  mkProxy v (from_manager p) (to_manager p) (pending p) (shutdowns p) (supervisor p) (sent p) (faults p).
Definition set_from_manager v (p : Proxy) : Proxy :=
  mkProxy (tasks p) v (to_manager p) (pending p) (shutdowns p) (supervisor p) (sent p) (faults p).
Definition set_to_manager v (p : Proxy) : Proxy :=
  mkProxy (tasks p) (from_manager p) v (pending p) (shutdowns p) (supervisor p) (sent p) (faults p).
Definition set_pending v (p : Proxy) : Proxy :=
  mkProxy (tasks p) (from_manager p) (to_manager p) v (shutdowns p) (supervisor p) (sent p) (faults p).
Definition broadcast_ (m : ShutdownMessage) (p : Proxy) : Proxy :=
  mkProxy (tasks p) (from_manager p) (to_manager p) (pending p) (shutdowns p ++ [m]) (supervisor p) (sent p) (faults p).
Definition set_supervisor v (p : Proxy) : Proxy :=
  mkProxy (tasks p) (from_manager p) (to_manager p) (pending p) (shutdowns p) v (sent p) (faults p).
Definition add_sent x (p : Proxy) : Proxy :=
  mkProxy (tasks p) (from_manager p) (to_manager p) (pending p) (shutdowns p) (supervisor p) (sent p ++ [x]) (faults p).
Definition add_fault (p : Proxy) : Proxy :=
  mkProxy (tasks p) (from_manager p) (to_manager p) (pending p) (shutdowns p) (supervisor p) (sent p) (S (faults p)).
Definition on_task (i : nat) (f : Task → Task) (p : Proxy) : Proxy := set_tasks (alter f i (tasks p)) p.
Definition set_task_phase (ph : Phase) (t : Task) : Task := mkTask (conn t) ph (seen t).
Definition send_status (s : State) (p : Proxy) : Proxy := set_pending (pending p ++ [s]) p.

(** ** Connecting *)

(** The outcome of an attempt: a shutdown message was there, the socket or the
    handshake failed, the key is none, or the connection stands. *)
Inductive Attempt : Type := SawShutdown | ConnectFails | HandshakeFails | BadKey | Connects.
Definition RETRIES_PER_UPSTREAM : nat := 3.
(** Attempts [attempt], [attempt + 1], ... at one upstream; [None] when all
    failed. *)
Fixpoint try_upstream (connect : nat → Attempt) (attempt n : nat) : option (result UpError nat) :=
  match n with
  | O => None
  | S n =>
      match connect attempt with
      | SawShutdown => Some (Err UShutdown)
      | BadKey => Some (Err UCodecNoise)
      | Connects => Some (Ok attempt)
      | ConnectFails | HandshakeFails => try_upstream connect (S attempt) n
      end
  end.
(** The upstream and the attempt that succeeded. *)
Fixpoint Upstream_new (connect : nat → nat → Attempt) (index n : nat) : result UpError (nat * nat) :=
  match n with
  | O => Err UShutdown
  | S n =>
      match try_upstream (connect index) 1 RETRIES_PER_UPSTREAM with
      | Some (Ok attempt) => Ok (index, attempt)
      | Some (Err e) => Err e
      | Some Panic => Panic
      | None => Upstream_new connect (S index) n
      end
  end.
Definition get_setup_connection_message (min_version max_version : Z) (is_work_selection_enabled : bool)
    : SetupConnection.SetupConnection :=
  mkSetupConnection MiningProtocol min_version max_version (if is_work_selection_enabled then 6 else 4) (Owned (text "0.0.0.0")) 50
    (Owned (text "SRI")) (Owned (text "Translator Proxy")) empty_string empty_string.

(** ** Messages *)

Definition into_static (m : AnyMessage) : result UpError AnyMessage :=
  match m with AnyMining _ | AnyCommon _ => Ok m | _ => Err (UUnexpectedMessage 0) end.
Definition message_from_frame (f : EitherFrame) : result UpError (Z * bytes * AnyMessage) :=
  match f with
  | Sv2 (Some ty) payload =>
      match AnyMessage_try_from (ty, payload) with
      | Ok m => m ← into_static m; Ok (ty, payload, m)
      | Err _ => Err (UUnexpectedMessage ty)
      | Panic => Panic
      end
  | _ => Err (UUnexpectedMessage 0)
  end.
(** [HandleCommonMessagesFromServerAsync]: all but one method are [todo!()]. *)
Definition common_handlers : HandleCommonMessagesFromServer :=
  mkCommonFromServer (S := unit) (E := UpError) (λ _, mret tt) (λ _ s, (Panic, s)) (λ _ s, (Panic, s)) (λ _ s, (Panic, s)).
Definition handle_common (ty : Z) (payload : bytes) : result UpError unit :=
  (handle_common_message_frame_from_server common_handlers ty payload tt).1.
Definition is_quote (ty : Z) : bool := (ty =? 0xC0) || (ty =? 0xC1).
(** [on_upstream_message] of connection [i]. *)
Definition on_upstream_message (i : nat) (f : EitherFrame) : ST (Queue (nat * EitherFrame)) UpError unit :=
  let forward : ST (Queue (nat * EitherFrame)) UpError unit := λ q,
    match q_send (i, f) q with Some q => (Ok tt, q) | None => (Err UChannelErrorSender, q) end in
  match f with
  | HandShake => mret tt
  | Sv2 None _ => throw (UUnexpectedMessage 0)
  | Sv2 (Some ty) _ =>
      if is_quote ty then forward
      else
        '(ty, payload, m) ← lift (message_from_frame f);
        match m with
        | AnyCommon _ => lift (handle_common ty payload)
        | AnyMining _ => forward
        | _ => throw (UUnexpectedMessage 0)
        end
  end.

(** ** Starting a connection *)

(** How [start] ends: the task runs, it returned without one, it failed or it
    panicked. *)
Inductive Started : Type := Runs | Returns | Fails | Panics.
Definition setup_done (i : nat) (first : bool) (r : Started) (p : Proxy) : Proxy :=
  let restarted p := if first then p else broadcast_ UpstreamReconnectedResetAndShutdownDownstreams p in
  match r with
  | Runs => restarted (set_supervisor Listening (on_task i (λ t, mkTask (conn t) Running (length (shutdowns p))) p))
  | Returns => restarted (set_supervisor Listening (on_task i (set_task_phase Ended) p))
  | Fails =>
      let p := set_supervisor Stopped (on_task i (set_task_phase Ended) p) in
      if first then p else broadcast_ ShutdownAll p
  | Panics => set_supervisor Stopped (on_task i (set_task_phase Ended) p)
  end.
Definition setup_send (i : nat) (first : bool) (t : Task) (p : Proxy) : Proxy :=
  match q_send (Setup (get_setup_connection_message 2 2 false)) (outgoing (conn t)) with
  | Some q => on_task i (λ t, mkTask (set_outgoing q (conn t)) Waiting (seen t)) p
  | None => setup_done i first Fails p
  end.
Definition setup_answer (i : nat) (first : bool) (t : Task) (p : Proxy) : Proxy :=
  match q_recv (incoming (conn t)) with
  | Blocks => p
  | Closed => setup_done i first Fails p
  | Got f q =>
      let p := on_task i (on_conn (set_incoming q)) p in
      match f with
      | HandShake | Sv2 None _ => setup_done i first Fails p
      | Sv2 (Some ty) payload =>
          setup_done i first (match handle_common ty payload with Ok _ => Runs | Err _ => Fails | Panic => Panics end) p
      end
  end.
(** The next shutdown message of a task: [None] when it lags. *)
Definition next_shutdown (t : Task) (p : Proxy) : option (option ShutdownMessage) :=
  if bool_decide (S (seen t) < length (shutdowns p))%nat then Some None else Some <$> shutdowns p !! seen t.
(** The setup is abandoned on any shutdown message. *)
Definition setup_shutdown (i : nat) (first : bool) (t : Task) (p : Proxy) : Proxy :=
  match next_shutdown t p with
  | None => p
  | Some (None | Some ShutdownAll) => setup_done i first Returns p
  | Some (Some _) => setup_done i first Runs p
  end.

(** ** The task of a connection *)

(** [UpstreamChannelState::drop] when the loop ends. *)
Definition end_task (i : nat) (p : Proxy) : Proxy :=
  on_task i (λ t, mkTask (set_incoming (q_close (incoming (conn t))) (conn t)) Ended (seen t)) p.
Definition task_shutdown (i : nat) (t : Task) (p : Proxy) : Proxy :=
  match next_shutdown t p with
  | None => p
  | Some (None | Some ShutdownAll) => end_task i p
  | Some (Some _) => on_task i (λ t, mkTask (conn t) (t_phase t) (S (seen t))) p
  end.
Definition task_upstream (i : nat) (t : Task) (p : Proxy) : Proxy :=
  match q_recv (incoming (conn t)) with
  | Blocks => p
  | Closed => end_task i (send_status SUpstreamShutdown p)
  | Got f q =>
      let p := on_task i (on_conn (set_incoming q)) p in
      let '(r, q) := on_upstream_message i f (to_manager p) in
      let p := set_to_manager q p in
      match r with
      | Ok _ => p
      | Err _ => add_fault (send_status SUpstreamShutdown p)
      | Panic => on_task i (set_task_phase Ended) p
      end
  end.
Definition task_manager (i : nat) (t : Task) (p : Proxy) : Proxy :=
  match q_recv (from_manager p) with
  | Blocks => p
  | Closed => end_task i (send_status SUpstreamShutdown p)
  | Got f q =>
      let p := set_from_manager q p in
      match q_send (Relay f) (outgoing (conn t)) with
      | Some q => add_sent (i, f) (on_task i (on_conn (set_outgoing q)) p)
      | None => add_fault (send_status SUpstreamShutdown p)
      end
  end.

(** ** The supervisor *)

Section supervisor.
Context (upstreams : nat).
(** A new connection, if one is reached. *)
Definition connect_next (connect : nat → nat → Attempt) (first : bool) (p : Proxy) : Proxy :=
  match Upstream_new connect 0 upstreams with
  | Ok _ =>
      set_supervisor (SettingUp (length (tasks p)) first)
        (set_tasks (tasks p ++ [mkTask Connection_new Starting (length (shutdowns p))]) p)
  | _ => let p := set_supervisor Stopped p in if first then p else broadcast_ ShutdownAll p
  end.
Definition on_status (connect : nat → nat → Attempt) (p : Proxy) : Proxy :=
  match pending p with
  | [] => p
  | s :: rest =>
      let p := set_pending rest p in
      match s with
      | SDownstreamShutdown id => broadcast_ (DownstreamShutdown id) p
      | SSv1ServerShutdown | SChannelManagerShutdown => broadcast_ ShutdownAll (set_supervisor Stopped p)
      | SUpstreamShutdown => connect_next connect false p
      end
  end.

Inductive ProxyEvent : Type :=
  | Boot (connect : nat → nat → Attempt)
  | SetupSend
  | SetupAnswer
  | SetupShutdown
  | OnStatus (connect : nat → nat → Attempt)
  | CtrlC
  | ServerFails
  | OtherStatus (id : Z)
  | ReaderTurn (i : nat) (res : option EitherFrame)
  | WriterTurn (i : nat) (socket_ok : bool)
  | TaskShutdown (i : nat)
  | TaskUpstream (i : nat)
  | TaskManager (i : nat)
  | ManagerSends (f : EitherFrame)
  | ManagerCloses.
Definition running (i : nat) (p : Proxy) : option Task :=
  match tasks p !! i with
  | Some t => match t_phase t with Running => Some t | _ => None end
  | None => None
  end.
Definition with_running (i : nat) (f : Task → Proxy → Proxy) (p : Proxy) : Proxy :=
  match running i p with Some t => f t p | None => p end.
Definition with_setup (f : nat → bool → Task → Proxy → Proxy) (ph : list Phase) (p : Proxy) : Proxy :=
  match supervisor p with
  | SettingUp i first =>
      match tasks p !! i with
      | Some t => if existsb (λ x, match x, t_phase t with Starting, Starting | Waiting, Waiting => true | _, _ => false end) ph
                  then f i first t p else p
      | None => p
      end
  | _ => p
  end.
Definition proxy_step (e : ProxyEvent) (p : Proxy) : Proxy :=
  match e with
  | Boot connect => match supervisor p with Booting => connect_next connect true p | _ => p end
  | SetupSend => with_setup setup_send [Starting] p
  | SetupAnswer => with_setup setup_answer [Waiting] p
  | SetupShutdown => with_setup setup_shutdown [Starting; Waiting] p
  | OnStatus connect => match supervisor p with Listening => on_status connect p | _ => p end
  | CtrlC => match supervisor p with Listening => broadcast_ ShutdownAll (set_supervisor Stopped p) | _ => p end
  | ServerFails => broadcast_ ShutdownAll p
  | OtherStatus id => send_status (SDownstreamShutdown id) p
  | ReaderTurn i res =>
      on_task i (λ t, if c_reader (conn t) then on_conn (reader_turn res) t else t) p
  | WriterTurn i ok =>
      on_task i (λ t, if c_writer (conn t) then on_conn (writer_turn ok) t else t) p
  | TaskShutdown i => with_running i (task_shutdown i) p
  | TaskUpstream i => with_running i (task_upstream i) p
  | TaskManager i => with_running i (task_manager i) p
  | ManagerSends f => match q_send f (from_manager p) with Some q => set_from_manager q p | None => p end
  | ManagerCloses => set_to_manager (q_close (to_manager p)) (set_from_manager (q_close (from_manager p)) p)
  end.
Definition proxy_run (p : Proxy) (es : list ProxyEvent) : Proxy := foldl (λ p e, proxy_step e p) p es.
End supervisor.
End Ups.
