(* ===== verification/UpstreamsProperties.v ===== *)
(** * Properties of the translator's connections to pools

    The search for a pool takes the first that answers; however the tasks
    interleave, each frame of the channel manager is given to at most one
    connection, and there is one connection unless one reports a fault without
    ending; runs that show what happens then. *)

From S2P Require Import Prelude Datatypes Codec Framing Messages SetupConnection Parsers Handlers JdClient Links LinksProperties Upstreams.
#[local] Open Scope Z_scope.
#[local] Open Scope list_scope.
Import Link.
Import Ups.

(** ** The search *)

Definition fails (a : Attempt) : Prop := a = ConnectFails ∨ a = HandshakeFails.
Lemma try_upstream_spec connect a n k :
  try_upstream connect a n = Some (Ok k) ↔
  (a ≤ k < a + n)%nat ∧ connect k = Connects ∧ ∀ b, (a ≤ b < k)%nat → fails (connect b).
Proof.
  revert a. induction n as [|n IH]; intros a; cbn [try_upstream]; [split; [done|lia]|].
  assert (Hf : fails (connect a) → try_upstream connect (S a) n = Some (Ok k) ↔
    (a ≤ k < a + S n)%nat ∧ connect k = Connects ∧ ∀ b, (a ≤ b < k)%nat → fails (connect b)).
  { intros Ha. rewrite IH. split; intros (Hk & Hc & Hb); split_and!; try done; try lia.
    - intros b Hl. destruct (decide (b = a)) as [->|]; [done|apply Hb; lia].
    - destruct (decide (k = a)) as [->|]; [destruct Ha; congruence|lia].
    - intros b Hl. apply Hb. lia. }
  destruct (connect a) eqn:Ea; try (apply Hf; unfold fails; auto; fail).
  1,2: split; [done|]; intros (Hk & Hc & Hb); destruct (decide (k = a)) as [->|]; [congruence|];
    destruct (Hb a) as [H1|H1]; [lia|congruence..].
  split.
  - intros [= <-]. split_and!; [lia..|done|lia].
  - intros (Hk & Hc & Hb). destruct (decide (k = a)) as [->|]; [done|]. destruct (Hb a) as [H1|H1]; [lia|congruence..].
Qed.
Lemma try_upstream_none connect a n : try_upstream connect a n = None ↔ ∀ b, (a ≤ b < a + n)%nat → fails (connect b).
Proof.
  revert a. induction n as [|n IH]; intros a; cbn [try_upstream]; [split; [lia|done]|].
  destruct (connect a) eqn:Ea.
  1,4,5: split; [done|]; intros Hb; destruct (Hb a) as [H1|H1]; [lia|congruence..].
  all: rewrite IH; split; intros Hb b Hl; [destruct (decide (b = a)) as [->|]; [unfold fails; auto|apply Hb; lia]|apply Hb; lia].
Qed.
(** The pool that is chosen is the first, in the order of the configuration, that
    answers within three attempts; the attempts before it all failed. *)
Theorem pool_search_first connect i n j k :
  Upstream_new connect i n = Ok (j, k) ↔
  (i ≤ j < i + n)%nat ∧ (1 ≤ k ≤ 3)%nat ∧ connect j k = Connects ∧
  (∀ b, (1 ≤ b < k)%nat → fails (connect j b)) ∧ (∀ a b, (i ≤ a < j)%nat → (1 ≤ b ≤ 3)%nat → fails (connect a b)).
Proof.
  revert i. induction n as [|n IH]; intros i; cbn [Upstream_new]; [split; [done|lia]|].
  pose proof (try_upstream_spec (connect i) 1 3) as Hok. pose proof (try_upstream_none (connect i) 1 3) as Hno.
  fold RETRIES_PER_UPSTREAM in Hok, Hno. destruct (try_upstream _ _ _) as [r|] eqn:E.
  - assert (Hr : (i ≤ j < i + S n)%nat ∧ (1 ≤ k ≤ 3)%nat ∧ connect j k = Connects ∧
      (∀ b, (1 ≤ b < k)%nat → fails (connect j b)) ∧ (∀ a b, (i ≤ a < j)%nat → (1 ≤ b ≤ 3)%nat → fails (connect a b)) ↔
      j = i ∧ r = Ok k).
    { split.
      - intros (Hj & Hk & Hc & Hb & Hall). destruct (decide (j = i)) as [->|].
        + specialize (Hok k) as [_ Hok]. unfold RETRIES_PER_UPSTREAM in Hok. split; [done|].
          enough (Some r = Some (Ok k)) by congruence. apply Hok. split_and!; [lia..|done|done].
        + exfalso. destruct Hno as [_ Hno]. discriminate Hno. unfold RETRIES_PER_UPSTREAM. intros b Hb'. apply Hall; lia.
      - intros [-> ->]. specialize (Hok k) as [Hok _]. unfold RETRIES_PER_UPSTREAM in Hok. destruct (Hok eq_refl) as (Hl & Hc & Hb).
        split_and!; [lia..|done|done|lia]. }
    rewrite Hr. destruct r; (split; [try (intros [= -> ->]; done); done|intros [-> ?]; congruence]).
  - rewrite IH. destruct Hno as [Hno _]. specialize (Hno eq_refl). unfold RETRIES_PER_UPSTREAM in Hno. split; intros (Hj & Hk & Hc & Hb & Hall); split_and!; try done; try lia.
    + intros a b Ha Hb'. destruct (decide (a = i)) as [->|]; [apply Hno; lia|apply Hall; lia].
    + destruct (decide (j = i)) as [->|]; [|lia]. destruct (Hno k) as [H1|H1]; [lia|congruence..].
    + intros a b Ha Hb'. apply Hall; lia.
Qed.

(** ** One connection at a time *)

Definition alive (t : Task) : nat := match t_phase t with Ended => 0 | _ => 1 end.
Definition live (p : Proxy) : nat := sum_list_with alive (tasks p).
Definition is_up (s : State) : bool := match s with SUpstreamShutdown => true | _ => false end.
(** The connections that are to be made. *)
Definition owed (p : Proxy) : nat := length (List.filter is_up (pending p)) + match supervisor p with Booting => 1 | _ => 0 end.
Definition counted (p : Proxy) : Prop := (live p + owed p ≤ 1 + faults p)%nat.

Lemma sum_alter f i l t :
  l !! i = Some t → (sum_list_with alive (alter f i l) + alive t = sum_list_with alive l + alive (f t))%nat.
Proof.
  revert i. induction l as [|x l IH]; intros i; [done|]. destruct i as [|i].
  - intros [= ->]. change (alter f 0%nat (t :: l)) with (f t :: l). cbn [sum_list_with]. lia.
  - intros Hi. specialize (IH i Hi). change (alter f (S i) (x :: l)) with (x :: alter f i l). cbn [sum_list_with]. lia.
Qed.
Lemma alter_none {A} (f : A → A) (i : nat) (l : list A) : l !! i = None → alter f i l = l.
Proof. revert i. induction l as [|x l IH]; intros [|i] Hi; try done. cbn. f_equal. by apply IH. Qed.
Lemma live_on_task i f p :
  (∀ t, tasks p !! i = Some t → (alive (f t) ≤ alive t)%nat) → (live (on_task i f p) ≤ live p)%nat.
Proof.
  intros Hf. unfold live. cbn. destruct (tasks p !! i) as [t|] eqn:Ht; [|by rewrite alter_none].
  pose proof (sum_alter f i _ t Ht). specialize (Hf t eq_refl). lia.
Qed.
Lemma live_end i f p t :
  tasks p !! i = Some t → t_phase t = Running → t_phase (f t) = Ended → (S (live (on_task i f p)) = live p)%nat.
Proof.
  intros Ht Hp Hf. unfold live. cbn. pose proof (sum_alter f i _ t Ht) as Hs. unfold alive in Hs at 2 4. rewrite Hp, Hf in Hs. lia.
Qed.
Lemma running_inv i p t : running i p = Some t → tasks p !! i = Some t ∧ t_phase t = Running.
Proof. unfold running. destruct (tasks p !! i) as [t'|]; [|done]. destruct (t_phase t') eqn:E; try done. by intros [= ->]. Qed.
Lemma owed_up p : owed (send_status SUpstreamShutdown p) = S (owed p).
Proof. unfold owed. cbn. rewrite List.filter_app, length_app. cbn. lia. Qed.
Lemma counted_end_status i p t : running i p = Some t → counted p → counted (end_task i (send_status SUpstreamShutdown p)).
Proof.
  intros [Ht Hp]%running_inv Hc. unfold counted in *.
  pose proof (live_end i (λ t, mkTask (set_incoming (q_close (incoming (conn t))) (conn t)) Ended (seen t)) (send_status SUpstreamShutdown p) t Ht Hp eq_refl) as Hl.
  fold (end_task i (send_status SUpstreamShutdown p)) in Hl. change (owed (end_task i (send_status SUpstreamShutdown p))) with (owed (send_status SUpstreamShutdown p)).
  rewrite owed_up. change (live (send_status SUpstreamShutdown p)) with (live p) in Hl. change (faults (end_task _ _)) with (faults p). lia.
Qed.
Lemma counted_on_task i f p :
  (∀ t, tasks p !! i = Some t → (alive (f t) ≤ alive t)%nat) → counted p → counted (on_task i f p).
Proof.
  intros Hf Hc. pose proof (live_on_task i f p Hf). unfold counted in *. change (owed (on_task i f p)) with (owed p). change (faults (on_task i f p)) with (faults p). lia.
Qed.
Lemma counted_fault p : counted p → counted (add_fault (send_status SUpstreamShutdown p)).
Proof.
  unfold counted. change (owed (add_fault ?x)) with (owed x). rewrite owed_up. change (live (add_fault _)) with (live p).
  change (faults (add_fault _)) with (S (faults p)). lia.
Qed.
Lemma alive_le t : (alive t ≤ 1)%nat.
Proof. unfold alive. destruct (t_phase t); lia. Qed.
Lemma counted_broadcast m p : counted p → counted (broadcast_ m p).
Proof. done. Qed.
Lemma counted_supervisor v p : v ≠ Booting → counted p → counted (set_supervisor v p).
Proof. unfold counted, owed. change (live (set_supervisor v p)) with (live p). destruct v; cbn [supervisor set_supervisor pending faults]; try done; lia. Qed.
Lemma counted_setup i first r p t :
  tasks p !! i = Some t → alive t = 1%nat → counted p → counted (setup_done i first r p).
Proof.
  intros Ht Ha Hc.
  assert (Hf : ∀ f, counted (on_task i f p)).
  { intros f. apply counted_on_task; [|done]. intros t' Ht'. replace t' with t by congruence. rewrite Ha. apply alive_le. }
  unfold setup_done. destruct r, first; try apply counted_broadcast; by apply counted_supervisor.
Qed.
(** The events on a connection that is being set up. *)
Definition early (t : Task) : Prop := t_phase t = Starting ∨ t_phase t = Waiting.
Lemma with_setup_inv (P : Proxy → Prop) f ph p :
  P p → (∀ i first t, tasks p !! i = Some t → early t → P (f i first t p)) → P (with_setup f ph p).
Proof.
  intros Hp Hf. unfold with_setup. destruct (supervisor p) as [| |i first|]; try done. destruct (tasks p !! i) as [t|] eqn:Ht; [|done].
  destruct (existsb _ ph) eqn:E; [|done]. apply existsb_exists in E as (x & _ & Hx). apply Hf; [done|].
  unfold early. destruct x, (t_phase t); try done; auto.
Qed.
Lemma early_alive t : early t → alive t = 1%nat.
Proof. unfold alive. by intros [-> | ->]. Qed.
Lemma with_running_inv (P : Proxy → Prop) i f p :
  P p → (∀ t, running i p = Some t → P (f t p)) → P (with_running i f p).
Proof. intros Hp Hf. unfold with_running. destruct (running i p) eqn:E; [by apply Hf|done]. Qed.
Lemma lookup_on_task i f p t : tasks p !! i = Some t → tasks (on_task i f p) !! i = Some (f t).
Proof. intros Ht. cbn [tasks on_task set_tasks]. rewrite list_lookup_alter_eq. by rewrite Ht. Qed.

Lemma counted_connect n connect first p :
  (live p + length (List.filter is_up (pending p)) ≤ faults p)%nat → counted (connect_next n connect first p).
Proof.
  intros Hc. unfold connect_next. destruct (Upstream_new _ _ _).
  - unfold counted, live, owed. cbn [tasks pending supervisor set_supervisor set_tasks faults]. rewrite sum_list_with_app.
    unfold live in Hc. cbn [sum_list_with alive t_phase]. lia.
  - destruct first; unfold counted, owed; cbn [supervisor set_supervisor broadcast_ pending faults]; unfold live in *; cbn [tasks set_supervisor broadcast_]; lia.
  - destruct first; unfold counted, owed; cbn [supervisor set_supervisor broadcast_ pending faults]; unfold live in *; cbn [tasks set_supervisor broadcast_]; lia.
Qed.
Lemma counted_status n connect p : supervisor p ≠ Booting → counted p → counted (on_status n connect p).
Proof.
  intros Hs Hc. unfold on_status. unfold counted, owed in Hc. destruct (pending p) as [|[] rest] eqn:Ep; [by unfold counted, owed; rewrite Ep|..].
  4: { apply counted_connect. change (live (set_pending rest p)) with (live p). cbn in *. lia. }
  all: unfold counted, owed; cbn [supervisor set_supervisor broadcast_ set_pending pending faults];
    change (live _) with (live p); cbn [List.filter is_up] in Hc; destruct (supervisor p); done || lia.
Qed.
Lemma counted_step n e p : counted p → counted (proxy_step n e p).
Proof.
  intros Hc. destruct e; cbn [proxy_step].
  - destruct (supervisor p) eqn:Es; try done. apply counted_connect. unfold counted, owed in Hc. rewrite Es in Hc. lia.
  - apply with_setup_inv; [done|]. intros i first t Ht He%early_alive. unfold setup_send. destruct (q_send _ _).
    + apply counted_on_task; [|done]. intros t' Ht'. replace t' with t by congruence. rewrite He. apply alive_le.
    + by eapply counted_setup.
  - apply with_setup_inv; [done|]. intros i first t Ht He%early_alive. unfold setup_answer. destruct (q_recv _); [|by eapply counted_setup|done].
    assert (Hc' : counted (on_task i (on_conn (set_incoming q)) p)) by (by apply counted_on_task).
    pose proof (lookup_on_task i (on_conn (set_incoming q)) p t Ht) as Ht'. destruct x as [|[ty|] payload]; by eapply counted_setup.
  - apply with_setup_inv; [done|]. intros i first t Ht He%early_alive. unfold setup_shutdown.
    destruct (next_shutdown t p) as [[[]|]|]; try done; by eapply counted_setup.
  - destruct (supervisor p) eqn:Es; try done. apply counted_status; [by rewrite Es|done].
  - destruct (supervisor p); try done. by apply counted_broadcast, counted_supervisor.
  - done.
  - unfold counted, owed in *. cbn [pending send_status set_pending]. rewrite List.filter_app, app_nil_r. done.
  - apply counted_on_task; [|done]. intros t _. by destruct (c_reader _).
  - apply counted_on_task; [|done]. intros t _. by destruct (c_writer _).
  - apply with_running_inv; [done|]. intros t Ht%running_inv. unfold task_shutdown, end_task.
    destruct (next_shutdown t p) as [[[]|]|]; try done; apply counted_on_task; try done; intros t' _; unfold alive at 1; cbn; lia.
  - apply with_running_inv; [done|]. intros t Ht. unfold task_upstream. destruct (q_recv _); [|by eapply counted_end_status|done].
    assert (Hc' : counted (on_task i (on_conn (set_incoming q)) p)) by (by apply counted_on_task).
    destruct (on_upstream_message _ _ _) as [[|e|] q']; [done|by apply counted_fault|].
    apply counted_on_task; [|done]. intros t' _. unfold alive at 1. cbn. lia.
  - apply with_running_inv; [done|]. intros t Ht. unfold task_manager. destruct (q_recv _); [|by eapply counted_end_status|done].
    destruct (q_send _ _); [|by apply counted_fault]. by apply (counted_on_task i).
  - by destruct (q_send _ _).
  - done.
Qed.

(** ** Relaying *)

(** The frames [on_upstream_message] hands to the channel manager. *)
Definition passes (f : EitherFrame) : bool :=
  match f with
  | Sv2 (Some ty) _ => is_quote ty || match message_from_frame f with Ok (_, _, AnyMining _) => true | _ => false end
  | _ => false
  end.
Definition relays (l : list Outgoing) : list EitherFrame := omap (λ o, match o with Relay f => Some f | _ => None end) l.
(** Of a log with connections, the part of connection [i]. *)
Definition part (i : nat) (l : list (nat * EitherFrame)) : list EitherFrame := (List.filter (λ x, bool_decide (x.1 = i)) l).*2.
Lemma part_snoc i j f l : part i (l ++ [(j, f)]) = part i l ++ (if bool_decide (j = i) then [f] else []).
Proof. unfold part. rewrite filter_snoc, fmap_app. cbn. by case_bool_decide. Qed.
Lemma on_upstream_spec i f q r q' :
  on_upstream_message i f q = (r, q') →
  q' = q ∧ (passes f = true → q_open q = false) ∨ passes f = true ∧ q_open q = true ∧ q' = mkQueue (q_log q ++ [(i, f)]) (q_taken q) true.
Proof.
  assert (Hfwd : ∀ r q', match q_send (i, f) q with Some q => (Ok tt, q) | None => (Err UChannelErrorSender, q) end = (r, q') →
    q' = q ∧ q_open q = false ∨ q_open q = true ∧ q' = mkQueue (q_log q ++ [(i, f)]) (q_taken q) true)
    by (intros r1 q1; unfold q_send; destruct (q_open q); intros [= _ <-]; auto).
  unfold on_upstream_message, passes. destruct f as [|[ty|] payload]; try (intros [= _ <-]; by left).
  destruct (is_quote ty); [intros E; cbn; destruct (Hfwd _ _ E) as [[? ?]|[? ?]]; auto|].
  unfold lift. unfold mbind at 1, ST_bind at 1. destruct (message_from_frame _) as [[[ty' payload'] m]|e|]; [|by intros [= _ <-]; left..].
  destruct m; try (intros [= _ <-]; by left). intros E. cbn. destruct (Hfwd _ _ E) as [[? ?]|[? ?]]; auto.
Qed.

Record task_ok (snt : list (nat * EitherFrame)) (up : Queue (nat * EitherFrame)) (i : nat) (t : Task) : Prop := mkTaskOk {
  o_out : (q_taken (outgoing (conn t)) ≤ length (q_log (outgoing (conn t))))%nat;
  o_written : c_written (conn t) `prefix_of` take (q_taken (outgoing (conn t))) (q_log (outgoing (conn t)));
  o_written_eq : c_writer (conn t) = true → c_written (conn t) = take (q_taken (outgoing (conn t))) (q_log (outgoing (conn t)));
  o_sent : relays (q_log (outgoing (conn t))) = part i snt;
  o_in : (q_taken (incoming (conn t)) ≤ length (q_log (incoming (conn t))))%nat;
  o_up : part i (q_log up) `sublist_of` List.filter passes (take (q_taken (incoming (conn t))) (q_log (incoming (conn t))));
  o_up_eq : q_open up = true → t_phase t = Running → ∃ s, (s ≤ 1)%nat ∧ (s ≤ q_taken (incoming (conn t)))%nat ∧
    part i (q_log up) = List.filter passes (drop s (take (q_taken (incoming (conn t))) (q_log (incoming (conn t)))));
  o_early : early t → q_taken (incoming (conn t)) = 0%nat ∧ part i (q_log up) = [] }.
Record proxy_ok (p : Proxy) : Prop := mkProxyOk {
  g_from : (q_taken (from_manager p) ≤ length (q_log (from_manager p)))%nat;
  g_sent : (sent p).*2 `sublist_of` take (q_taken (from_manager p)) (q_log (from_manager p));
  g_lost : (q_taken (from_manager p) ≤ length (sent p) + faults p)%nat;
  g_sent_tags : ∀ x, x ∈ sent p → (x.1 < length (tasks p))%nat;
  g_up_tags : ∀ x, x ∈ q_log (to_manager p) → (x.1 < length (tasks p))%nat;
  g_tasks : ∀ i t, tasks p !! i = Some t → task_ok (sent p) (to_manager p) i t }.

(** *** Changes to one connection *)

Lemma alter_all (P : nat → Task → Prop) i f (l : list Task) :
  (∀ j t, l !! j = Some t → P j t) → (∀ t, l !! i = Some t → P i t → P i (f t)) → ∀ j t, alter f i l !! j = Some t → P j t.
Proof.
  intros Hl Hf j t. destruct (decide (j = i)) as [->|Hn].
  - rewrite list_lookup_alter_eq. destruct (l !! i) as [t'|] eqn:E; [|done]. intros [= <-]. apply Hf; [done|by apply Hl].
  - rewrite list_lookup_alter_ne by done. apply Hl.
Qed.
Lemma ok_on_task i f p :
  proxy_ok p → (∀ t, tasks p !! i = Some t → task_ok (sent p) (to_manager p) i t → task_ok (sent p) (to_manager p) i (f t)) →
  proxy_ok (on_task i f p).
Proof.
  intros [Hfr Hs Hlo Hst Hut Ht] Hf. split; try done; cbn [tasks on_task set_tasks]; rewrite ?length_alter; try done.
  by apply alter_all.
Qed.
Lemma task_end snt up i t : task_ok snt up i t → task_ok snt up i (set_task_phase Ended t).
Proof. intros []. split; try done. by intros [|]. Qed.
Lemma task_close snt up i t :
  task_ok snt up i t → task_ok snt up i (mkTask (set_incoming (q_close (incoming (conn t))) (conn t)) Ended (seen t)).
Proof. intros []. split; try done. by intros [|]. Qed.
Lemma task_seen snt up i n t : task_ok snt up i t → task_ok snt up i (mkTask (conn t) (t_phase t) n).
Proof. intros []. by split. Qed.
Lemma task_reader snt up i res t : task_ok snt up i t → task_ok snt up i (on_conn (reader_turn res) t).
Proof.
  intros Ht. assert (Hstop : task_ok snt up i (on_conn (reader_turn None) t)) by (destruct Ht; by split).
  destruct res as [f|]; [|done]. unfold on_conn, reader_turn.
  destruct (q_send f (incoming (conn t))) as [q|] eqn:E; [|exact Hstop]. clear Hstop. apply send_sent in E as [_ ->]. destruct Ht as [Ho Hw Hwe Hs Hi Hu Hue He]. split; try done; cbn.
  - rewrite length_app. lia.
  - by rewrite take_app_le.
  - by rewrite take_app_le.
Qed.
Lemma task_writer snt up i ok t : task_ok snt up i t → c_writer (conn t) = true → task_ok snt up i (on_conn (Ups.writer_turn ok) t).
Proof.
  intros Ht Hon. assert (Hstop : task_ok snt up i (on_conn (λ c, let c := close_all c in mkConnection (incoming c) (outgoing c) (c_reader c) false (c_written c)) t))
    by (destruct Ht; by split).
  unfold on_conn, Ups.writer_turn. destruct (q_recv (outgoing (conn t))) as [o q| |] eqn:E; [|exact Hstop|by destruct t].
  clear Hstop. apply recv_got in E as [Hx ->]. destruct Ht as [Ho Hw Hwe Hs Hi Hu Hue He].
  assert (Hlen : (S (q_taken (outgoing (conn t))) ≤ length (q_log (outgoing (conn t))))%nat) by (apply lookup_lt_Some in Hx; lia).
  destruct ok; split; try done; cbn; rewrite ?(Hwe Hon), ?(take_S_r _ _ _ Hx); try done. by apply prefix_app_r.
Qed.

(** *** Setup *)

Lemma ok_quiet p p' :
  proxy_ok p → tasks p' = tasks p → from_manager p' = from_manager p → to_manager p' = to_manager p → sent p' = sent p →
  (faults p ≤ faults p')%nat → proxy_ok p'.
Proof. intros [Hfr Hs Hlo Hst Hut Ht] Et Ef Eu Es Hf. split; rewrite ?Et, ?Ef, ?Eu, ?Es; try done. lia. Qed.
Lemma on_task_twice i g h p : on_task i g (on_task i h p) = on_task i (λ t, g (h t)) p.
Proof.
  unfold on_task, set_tasks. cbn [tasks]. f_equal. generalize (tasks p). intros l. revert i.
  induction l as [|x l IH]; intros [|i]; try done. change (x :: alter g i (alter h i l) = x :: alter (λ t, g (h t)) i l). by rewrite IH.
Qed.
Lemma ok_setup_done i h first r p :
  proxy_ok p →
  (∀ t ph n, tasks p !! i = Some t → ph = Running ∨ ph = Ended → task_ok (sent p) (to_manager p) i (mkTask (conn (h t)) ph n)) →
  proxy_ok (setup_done i first r (on_task i h p)).
Proof.
  intros Hp Hh.
  assert (Hrun : ∀ n, proxy_ok (on_task i (λ t, mkTask (conn t) Running n) (on_task i h p)))
    by (intros n; rewrite on_task_twice; apply ok_on_task; [done|]; intros t Ht _; apply Hh; auto).
  assert (Hend : proxy_ok (on_task i (set_task_phase Ended) (on_task i h p)))
    by (rewrite on_task_twice; apply ok_on_task; [done|]; intros t Ht _; apply Hh; auto).
  unfold setup_done. destruct r, first; first [by eapply (ok_quiet _ _ (Hrun _))|by eapply (ok_quiet _ _ Hend)].
Qed.
Lemma on_task_id i p : on_task i (λ t, t) p = p.
Proof.
  unfold on_task, set_tasks. destruct p as [ts fm tm pe sh su se fa]. cbn [tasks from_manager to_manager pending shutdowns supervisor sent faults].
  f_equal. revert i. induction ts as [|x ts IH]; intros [|i]; try done. change (x :: alter (λ t, t) i ts = x :: ts). by rewrite IH.
Qed.
Lemma task_done snt up i t ph n :
  task_ok snt up i t → early t → ph = Running ∨ ph = Ended → task_ok snt up i (mkTask (conn t) ph n).
Proof.
  intros [Ho Hw Hwe Hs Hi Hu Hue He] Hea Hph. destruct (He Hea) as [H1 H2]. split; try done.
  intros _ _. exists 0%nat. cbn. rewrite H1, H2. split_and!; [lia..|done].
Qed.
Lemma task_answered snt up i t q f ph n :
  q_recv (incoming (conn t)) = Got f q → task_ok snt up i t → early t → ph = Running ∨ ph = Ended →
  task_ok snt up i (mkTask (set_incoming q (conn t)) ph n).
Proof.
  intros [Hf ->]%recv_got [Ho Hw Hwe Hs Hi Hu Hue He] Hea Hph. destruct (He Hea) as [H1 H2]. apply lookup_lt_Some in Hf.
  rewrite H1 in Hf. split; try done; cbn; rewrite ?H1, ?H2; try done.
  - apply sublist_nil_l.
  - intros _ _. exists 1%nat. split_and!; [lia..|]. rewrite drop_ge; [done|]. rewrite length_take. lia.
  - destruct Hph as [-> | ->]; by intros [|].
Qed.
Lemma ok_finish i first r p t : proxy_ok p → tasks p !! i = Some t → early t → proxy_ok (setup_done i first r p).
Proof.
  intros Hp Ht He. rewrite <- (on_task_id i p). apply ok_setup_done; [done|]. intros t' ph n Ht' Hph.
  replace t' with t by congruence. apply task_done; [by apply g_tasks|done..].
Qed.
Lemma ok_setup_send i first t p : proxy_ok p → tasks p !! i = Some t → early t → proxy_ok (setup_send i first t p).
Proof.
  intros Hp Ht He. unfold setup_send. destruct (q_send _ _) as [q|] eqn:E; [|by eapply ok_finish].
  apply send_sent in E as [_ ->]. apply ok_on_task; [done|]. intros t' Ht' [Ho Hw Hwe Hs Hi Hu Hue Hea].
  replace t' with t in * by congruence. split; try done; cbn.
  - rewrite length_app. lia.
  - by rewrite take_app_le.
  - by rewrite take_app_le.
  - unfold relays in *. by rewrite omap_app, Hs, app_nil_r.
  - intros _. by apply Hea.
Qed.
Lemma ok_setup_answer i first t p : proxy_ok p → tasks p !! i = Some t → early t → proxy_ok (Ups.setup_answer i first t p).
Proof.
  intros Hp Ht He. unfold Ups.setup_answer. destruct (q_recv _) as [f q| |] eqn:E; [|by eapply ok_finish|done].
  assert (Hd : ∀ r, proxy_ok (setup_done i first r (on_task i (on_conn (set_incoming q)) p))).
  { intros r. apply ok_setup_done; [done|]. intros t' ph n Ht' Hph. replace t' with t by congruence.
    by eapply (task_answered _ _ _ t); [|apply g_tasks|..]. }
  destruct f as [|[ty|] payload]; apply Hd.
Qed.

(** *** Frames *)

Lemma running_not_early t : t_phase t = Running → ¬ early t.
Proof. unfold early. intros -> [|]; done. Qed.
(** Another connection's entry in a log changes nothing. *)
Lemma task_other_up snt up i j f t :
  j ≠ i → q_open up = true → task_ok snt up i t → task_ok snt (mkQueue (q_log up ++ [(j, f)]) (q_taken up) true) i t.
Proof.
  intros Hn Hop [Ho Hw Hwe Hs Hi Hu Hue He]. assert (Hp : part i (q_log up ++ [(j, f)]) = part i (q_log up))
    by (rewrite part_snoc, bool_decide_eq_false_2 by done; apply app_nil_r).
  split; try done; cbn [q_log q_open]; rewrite Hp; try done. intros _. by apply Hue.
Qed.
Lemma task_other_sent snt up i j f t : j ≠ i → task_ok snt up i t → task_ok (snt ++ [(j, f)]) up i t.
Proof.
  intros Hn [Ho Hw Hwe Hs Hi Hu Hue He]. split; try done. by rewrite part_snoc, bool_decide_eq_false_2, app_nil_r by done.
Qed.
(** A frame of the pool. *)
Lemma task_skips snt up i t f q :
  q_recv (incoming (conn t)) = Got f q → (passes f = true → q_open up = false) → t_phase t = Running →
  task_ok snt up i t → task_ok snt up i (on_conn (set_incoming q) t).
Proof.
  intros [Hf ->]%recv_got Hpf Hr [Ho Hw Hwe Hs Hi Hu Hue He]. pose proof (lookup_lt_Some _ _ _ Hf).
  split; try done; cbn [incoming on_conn conn set_incoming q_taken q_log t_phase].
  - rewrite (take_S_r _ _ _ Hf), List.filter_app. by apply sublist_inserts_r.
  - intros Hop _. destruct (Hue Hop Hr) as (s & Hs1 & Hs2 & Hs3). exists s. split_and!; [done|lia|].
    rewrite (drop_take_S _ s _ _ Hs2 Hf), filter_snoc, Hs3. destruct (passes f); [by rewrite Hpf in Hop|]. by rewrite app_nil_r.
  - intros Hx. by destruct (running_not_early t Hr).
Qed.
Lemma task_passes snt up i t f q :
  q_recv (incoming (conn t)) = Got f q → passes f = true → q_open up = true → t_phase t = Running →
  task_ok snt up i t → task_ok snt (mkQueue (q_log up ++ [(i, f)]) (q_taken up) true) i (on_conn (set_incoming q) t).
Proof.
  intros [Hf ->]%recv_got Hpf Hop Hr [Ho Hw Hwe Hs Hi Hu Hue He]. pose proof (lookup_lt_Some _ _ _ Hf).
  split; try done; cbn [incoming on_conn conn set_incoming q_taken q_log t_phase q_open];
    rewrite ?part_snoc, ?bool_decide_eq_true_2 by done.
  - rewrite (take_S_r _ _ _ Hf), filter_snoc, Hpf. by apply sublist_app.
  - intros _ _. destruct (Hue Hop Hr) as (s & Hs1 & Hs2 & Hs3). exists s. split_and!; [done|lia|].
    by rewrite (drop_take_S _ s _ _ Hs2 Hf), filter_snoc, Hs3, Hpf.
  - intros Hx. by destruct (running_not_early t Hr).
Qed.
Lemma ok_frame i t f q r q' p :
  running i p = Some t → q_recv (incoming (conn t)) = Got f q → on_upstream_message i f (to_manager p) = (r, q') → proxy_ok p →
  proxy_ok (Ups.set_to_manager q' (on_task i (on_conn (set_incoming q)) p)).
Proof.
  intros [Ht Hr]%running_inv E Em Hp. destruct (on_upstream_spec _ _ _ _ _ Em) as [[-> Hn]|(Hpf & Hop & ->)].
  - replace (Ups.set_to_manager _ _) with (on_task i (on_conn (set_incoming q)) p) by done. apply ok_on_task; [done|].
    intros t' Ht' Hk. replace t' with t in * by congruence. by apply (task_skips _ _ _ _ f).
  - destruct Hp as [Hfr Hs Hlo Hst Hut Hts]. pose proof (lookup_lt_Some _ _ _ Ht) as Hl.
    split; try done; cbn [tasks on_task set_tasks Ups.set_to_manager to_manager sent q_log]; rewrite ?length_alter; try done.
    + intros x [Hx| ->%list_elem_of_singleton]%elem_of_app; [by apply Hut|done].
    + intros j t'. destruct (decide (j = i)) as [->|Hn].
      * rewrite list_lookup_alter_eq, Ht. intros [= <-]. by apply task_passes; [..|apply Hts].
      * rewrite list_lookup_alter_ne by done. intros Hj. apply task_other_up; [done..|by apply Hts].
Qed.
Lemma ok_task_upstream i t p : running i p = Some t → proxy_ok p → proxy_ok (task_upstream i t p).
Proof.
  intros Ht Hp. unfold task_upstream. destruct (q_recv _) as [f q| |] eqn:E; [| |done].
  - change (to_manager (on_task i _ p)) with (to_manager p). destruct (on_upstream_message i f (to_manager p)) as [r q'] eqn:Em.
    pose proof (ok_frame _ _ _ _ _ _ _ Ht E Em Hp) as Hok. destruct r; [done| |].
    + eapply (ok_quiet _ _ Hok); try done. cbn. lia.
    + apply ok_on_task; [done|]. intros ? _. apply task_end.
  - apply ok_on_task; [by apply (ok_quiet _ _ Hp)|]. intros ? _. apply task_close.
Qed.
(** A frame of the manager. *)
Lemma ok_task_manager i t p : running i p = Some t → proxy_ok p → proxy_ok (task_manager i t p).
Proof.
  intros [Ht Hr]%running_inv Hp. unfold task_manager. destruct (q_recv _) as [f q| |] eqn:E; [| |done].
  2: { apply ok_on_task; [by apply (ok_quiet _ _ Hp)|]. intros ? _. apply task_close. }
  apply recv_got in E as [Hf ->]. destruct Hp as [Hfr Hs Hlo Hst Hut Hts].
  pose proof (lookup_lt_Some _ _ _ Hf). pose proof (lookup_lt_Some _ _ _ Ht) as Hl.
  destruct (q_send _ _) as [qo|] eqn:Eo.
  - apply send_sent in Eo as [_ ->].
    split; cbn [tasks on_task set_tasks add_sent Ups.set_from_manager from_manager to_manager sent q_log q_taken faults];
      rewrite ?length_alter, ?(take_S_r _ _ _ Hf), ?fmap_app; try done.
    + by apply sublist_app.
    + rewrite length_app. cbn. lia.
    + intros x [Hx| ->%list_elem_of_singleton]%elem_of_app; [by apply Hst|done].
    + intros j t'. destruct (decide (j = i)) as [->|Hn].
      * rewrite list_lookup_alter_eq, Ht. intros [= <-]. destruct (Hts i t Ht) as [Ho Hw Hwe Hse Hi Hu Hue He]. split; try done; cbn.
        -- rewrite length_app. lia.
        -- by rewrite take_app_le.
        -- by rewrite take_app_le.
        -- rewrite part_snoc, bool_decide_eq_true_2 by done. unfold relays in *. by rewrite omap_app, Hse.
      * rewrite list_lookup_alter_ne by done. intros Hj. apply task_other_sent; [done|by apply Hts].
  - split; cbn [tasks send_status set_pending add_fault Ups.set_from_manager from_manager to_manager sent q_log q_taken faults]; try done.
    + rewrite (take_S_r _ _ _ Hf). by apply sublist_inserts_r.
    + lia.
Qed.

(** *** A run *)

Lemma part_none i l : (∀ x, x ∈ l → (x.1 < i)%nat) → part i l = [].
Proof.
  unfold part. induction l as [|x l IH]; [done|]. intros Hl. cbn. rewrite bool_decide_eq_false_2.
  - apply IH. intros y Hy. apply Hl. by apply list_elem_of_further.
  - specialize (Hl x (list_elem_of_here _ _)). lia.
Qed.
Lemma ok_connect n connect first p : proxy_ok p → proxy_ok (connect_next n connect first p).
Proof.
  intros Hp. unfold connect_next. destruct (Upstream_new _ _ _); [|by destruct first; apply (ok_quiet _ _ Hp)..].
  destruct Hp as [Hfr Hs Hlo Hst Hut Hts].
  assert (Hnew : task_ok (sent p) (to_manager p) (length (tasks p)) (mkTask Connection_new Starting (length (shutdowns p)))).
  { split; try done; cbn; by rewrite ?part_none. }
  split; try done; cbn [tasks set_supervisor set_tasks sent to_manager].
  - intros x Hx. rewrite length_app. specialize (Hst x Hx). cbn. lia.
  - intros x Hx. rewrite length_app. specialize (Hut x Hx). cbn. lia.
  - intros i t [Hi|[Hi Ht]]%lookup_app_Some; [by apply Hts|]. apply list_lookup_singleton_Some in Ht as [Hz <-].
    by replace i with (length (tasks p)) by lia.
Qed.
Lemma ok_proxy_step n e p : proxy_ok p → proxy_ok (proxy_step n e p).
Proof.
  intros Hp. destruct e; cbn [proxy_step].
  - destruct (supervisor p); try done. by apply ok_connect.
  - apply with_setup_inv; [done|]. intros. by apply ok_setup_send.
  - apply with_setup_inv; [done|]. intros. by apply ok_setup_answer.
  - apply with_setup_inv; [done|]. intros. unfold setup_shutdown. destruct (next_shutdown t p) as [[[]|]|]; try done; by eapply ok_finish.
  - destruct (supervisor p); try done. unfold on_status. destruct (pending p) as [|s rest]; [done|].
    assert (Hq : proxy_ok (set_pending rest p)) by (by apply (ok_quiet _ _ Hp)).
    destruct s; [by apply (ok_quiet _ _ Hp)..|by apply ok_connect].
  - destruct (supervisor p); try done. by apply (ok_quiet _ _ Hp).
  - by apply (ok_quiet _ _ Hp).
  - by apply (ok_quiet _ _ Hp).
  - apply ok_on_task; [done|]. intros t _ Ht. destruct (c_reader _); [by apply task_reader|done].
  - apply ok_on_task; [done|]. intros t _ Ht. destruct (c_writer _) eqn:Ew; [by apply task_writer|done].
  - apply with_running_inv; [done|]. intros t Ht. unfold task_shutdown.
    destruct (next_shutdown t p) as [[[]|]|]; try done; apply ok_on_task; try done; intros ? _; first [apply task_close|apply task_seen].
  - apply with_running_inv; [done|]. intros t Ht. by apply ok_task_upstream.
  - apply with_running_inv; [done|]. intros t Ht. by apply ok_task_manager.
  - destruct (q_send _ _) as [q|] eqn:E; [|done]. apply send_sent in E as [_ ->]. destruct Hp as [Hfr Hs Hlo Hst Hut Hts].
    split; try done; cbn; [rewrite length_app; lia|by rewrite take_app_le].
  - destruct Hp as [Hfr Hs Hlo Hst Hut Hts]. split; try done. intros i t Ht. destruct (Hts i t Ht). by split.
Qed.
Lemma proxy_run_inv n es : counted (proxy_run n Proxy_new es) ∧ proxy_ok (proxy_run n Proxy_new es).
Proof.
  assert (H0 : counted Proxy_new ∧ proxy_ok Proxy_new).
  { split; [unfold counted; cbn; lia|]. split; try done; cbn; intros ? Hx; by apply not_elem_of_nil in Hx. }
  revert H0. unfold proxy_run. generalize Proxy_new. induction es as [|e es IH]; intros p [Hc Hp]; [done|].
  apply IH. split; [by apply counted_step|by apply ok_proxy_step].
Qed.

Lemma sublist_same {A} (l k : list A) : l `sublist_of` k → (length k ≤ length l)%nat → l = k.
Proof.
  induction 1 as [|x l k Hl IH|x l k Hl IH]; cbn; intros Hle; [done|rewrite IH by lia; done|].
  apply sublist_length in Hl. lia.
Qed.

(** C29: The translator's connections to pools.  In every interleaving of the tasks
    and of any number of losses and reconnections: there is at most one connection
    that has not ended for each status a connection reported without ending, and
    one more; every frame of the channel manager is given to at most one
    connection, in the manager's order, and no more frames are lost than such
    statuses were reported; what a connection writes to its pool begins with or
    after its setup and is in the order it was given; and as long as the manager
    listens, it has been given by each running connection all frames with mining
    messages and quotes that the connection read after its setup, in order. *)
Theorem proxy_relays n es :
  let p := proxy_run n Proxy_new es in
  (live p ≤ 1 + faults p)%nat ∧
  (sent p).*2 `sublist_of` take (q_taken (from_manager p)) (q_log (from_manager p)) ∧
  (q_taken (from_manager p) ≤ length (sent p) + faults p)%nat ∧
  (faults p = 0%nat → (sent p).*2 = take (q_taken (from_manager p)) (q_log (from_manager p))) ∧
  ∀ i t, tasks p !! i = Some t →
    relays (c_written (conn t)) `prefix_of` part i (sent p) ∧
    part i (q_log (to_manager p)) `sublist_of` List.filter passes (take (q_taken (incoming (conn t))) (q_log (incoming (conn t)))) ∧
    (q_open (to_manager p) = true → t_phase t = Running → ∃ s, (s ≤ 1)%nat ∧
       part i (q_log (to_manager p)) = List.filter passes (drop s (take (q_taken (incoming (conn t))) (q_log (incoming (conn t)))))).
Proof.
  intros p. destruct (proxy_run_inv n es) as [Hc [Hfr Hs Hlo Hst Hut Hts]]. fold p in Hc, Hfr, Hs, Hlo, Hst, Hut, Hts.
  split_and!; [unfold counted in Hc; lia|done..| |].
  - intros Hz. apply sublist_same; [done|]. rewrite length_fmap, length_take. lia.
  - intros i t Ht. destruct (Hts i t Ht) as [Ho Hw Hwe Hse Hi Hu Hue He]. split_and!; [|done|].
    + rewrite <- Hse. destruct Hw as [k Hk]. rewrite <- (take_drop (q_taken (outgoing (conn t))) (q_log (outgoing (conn t)))), Hk.
      unfold relays. rewrite <- app_assoc, omap_app. by apply prefix_app_r.
    + intros Hop Hr. destruct (Hue Hop Hr) as (s & H1 & _ & H2). by exists s.
Qed.

(** ** Runs *)

Module UpstreamSample.
Definition reached (_ _ : nat) : Attempt := Connects.
Definition success : EitherFrame := Sv2 (Some 1) (to_le_bytes 2 2 ++ to_le_bytes 4 0).
Definition share (n : Z) : EitherFrame := Sv2 (Some 0x1b) (to_le_bytes 1 n).
Definition run : list ProxyEvent → Proxy := proxy_run 1 Proxy_new.
Definition set_up (i : nat) : list ProxyEvent := [SetupSend; ReaderTurn i (Some success); SetupAnswer].
Definition started : list ProxyEvent := Boot reached :: set_up 0.

(** One connection, one share: it is written behind the setup. *)
Definition one_share : list ProxyEvent := started ++ [ManagerSends (share 1); TaskManager 0; WriterTurn 0 true; WriterTurn 0 true].
Example proxy_relays_witness :
  let p := run one_share in
  c_written ∘ conn <$> tasks p !! 0%nat = Some [Setup (get_setup_connection_message 2 2 false); Relay (share 1)] ∧ (live p ≤ 1)%nat ∧
  (sent p).*2 = take (q_taken (from_manager p)) (q_log (from_manager p)).
Proof.
  destruct (proxy_relays 1 one_share) as (Hl & _ & _ & Hs & _). split; [vm_compute; reflexivity|].
  split; [exact Hl|]. apply Hs. vm_compute. reflexivity.
Defined.
(** The connection is lost, and a new one is made. *)
Example reconnects :
  let p := run (started ++ [ReaderTurn 0 None; TaskUpstream 0; OnStatus reached] ++ set_up 1 ++ [ManagerSends (share 1); TaskManager 1]) in
  t_phase <$> tasks p = [Ended; Running] ∧ sent p = [(1%nat, share 1)] ∧ shutdowns p = [UpstreamReconnectedResetAndShutdownDownstreams].
Proof. vm_compute. done. Qed.
(** A message of the pool that is no mining message is a fault, but the connection
    goes on beside the new one, and the two share the manager's frames. *)
Example two_pools :
  let p := run (started ++ [ReaderTurn 0 (Some (Sv2 (Some 0x50) [])); TaskUpstream 0; OnStatus reached] ++ set_up 1 ++
    [ManagerSends (share 1); ManagerSends (share 2); TaskManager 0; TaskManager 1]) in
  t_phase <$> tasks p = [Running; Running] ∧ sent p = [(0%nat, share 1); (1%nat, share 2)].
Proof. vm_compute. done. Qed.
(** So does a share that is in the queue when the pool closes the connection: it is
    lost, and the loss and the end of the connection are two statuses, for two new
    connections. *)
Example share_at_close :
  let p := run (started ++ [ManagerSends (share 1); ReaderTurn 0 None; TaskManager 0; TaskUpstream 0; OnStatus reached] ++ set_up 1 ++
    [TaskShutdown 1; OnStatus reached] ++ set_up 2 ++ [TaskShutdown 1; ManagerSends (share 2); ManagerSends (share 3); TaskManager 1; TaskManager 2]) in
  t_phase <$> tasks p = [Ended; Running; Running] ∧ sent p = [(1%nat, share 2); (2%nat, share 3)].
Proof. vm_compute. done. Qed.
(** Two miners leave: the task of the connection lags behind the broadcast, ends
    without a status, and no new connection is made. *)
Example departures_end_upstream :
  let p := run (started ++ [OtherStatus 1; OtherStatus 2; OnStatus reached; OnStatus reached; TaskShutdown 0; OnStatus reached]) in
  t_phase <$> tasks p = [Ended] ∧ pending p = [] ∧ supervisor p = Listening.
Proof. vm_compute. done. Qed.
(** A pool that asks to reconnect ends the task the same way. *)
Example reconnect_request_ends_upstream :
  let p := run (started ++ [ReaderTurn 0 (Some (Sv2 (Some 4) (to_le_bytes 1 0 ++ to_le_bytes 2 80))); TaskUpstream 0; OnStatus reached]) in
  t_phase <$> tasks p = [Ended] ∧ pending p = [] ∧ supervisor p = Listening.
Proof. vm_compute. done. Qed.
End UpstreamSample.
