(* ===== verification/PoolTasks.v ===== *)
(** * The tasks of the pool

    [roles/pool/src/lib]: the errors and statuses of its tasks ([error.rs],
    [status.rs], the macro of [utils/error-handling]), the connection to the
    template provider ([template_receiver/]), the tasks that hand templates and
    block hashes to the miners, accept connections and read the miners' messages
    ([mining_pool/mod.rs], [mining_pool/setup_connection.rs]), and the loop that
    answers statuses ([mod.rs]).

    What the tasks do with a template or with a miner's message is in
    [Downstream]; here it is an argument, with the miners it addresses and its
    error.  [pool_step] is one turn of one task, a run any interleaving.
    The queues for templates, hashes and signals hold ten messages in the code;
    [templates_in_order] shows that at most one is in them.  A miner is entered
    in the turn in which its task starts; what is reported after the loop over
    the statuses has ended is read by nobody. *)

From S2P Require Import Prelude Datatypes Codec Framing Messages SetupConnection Parsers Handlers JdClient Links LinksProperties Upstreams.
#[local] Open Scope Z_scope.
#[local] Open Scope list_scope.

Module PoolTasks.
Import Link.
Import Ups.

(** ** Errors and statuses *)

Inductive PoolError : Type :=
  | Io
  | ChannelSend
  | ChannelRecv
  | BinarySv2
  | CodecError
  | CoinbaseOutput
  | Noise
  | NoDownstreamsConnected
  | RolesLogic
  | FramingError
  | PoisonLock
  | ComponentShutdown
  | Custom
  | Sv2ProtocolError (id : Z) (open_mining_channel : bool)
  | Vardiff
  | Parser.
Inductive Sender : Type := Downstream | DownstreamListener | Upstream.
Inductive State : Type :=
  | DownstreamShutdown (e : PoolError)
  | TemplateProviderShutdown (e : PoolError)
  | DownstreamInstanceDropped (id : Z)
  | Healthy
  | Shutdown.
Inductive ErrorBranch : Type := Break | Continue.
Definition send_status (sender : Sender) (e : PoolError) : State :=
  match sender with
  | Downstream => match e with Sv2ProtocolError id true => DownstreamInstanceDropped id | _ => Healthy end
  | DownstreamListener => match e with NoDownstreamsConnected => Healthy | _ => DownstreamShutdown e end
  | Upstream => TemplateProviderShutdown e
  end.
Definition handle_error (e : PoolError) : ErrorBranch :=
  match e with ChannelSend | Noise | NoDownstreamsConnected | Vardiff => Continue | _ => Break end.

(** ** State *)

(** What the template provider's connection sends. *)
Inductive ToProvider : Type := SendSetup (m : SetupConnection.SetupConnection) | SendConstraints (size sigops : Z) | SendSolution (m : sv2_value).
Notation TpMsg := (Msg TemplateDistributionKind).
(** The connection to the template provider: connected, awaiting the answer to its
    setup, receiving, awaiting the signal that its last message was handled. *)
Inductive Rx : Type := Connecting | AwaitSetup | Receiving | AwaitSignal | RxEnded.
(** A miner: the frames it sent, whether its sender is open, and whether the task
    that reads it runs. *)
Record MinerTask : Type := mkMinerTask { receiver : Queue EitherFrame; sender_open : bool; reads : bool }.
(** The listener sets up one miner at a time, and waits for the first block hash
    before it enters it. *)
Inductive Listener : Type := Accepting | SettingUpMiner (c : MinerTask) | AwaitsPrevHash (c : MinerTask) | ListenerEnded.
(** [poisoned]: a task panicked while it held the lock of the pool.
    [relayed] and [handled] log the messages of the template provider that were
    put in the queues of the two tasks and those they have answered; no code reads
    them. *)
Record Tasks : Type := mkTasks {
  tp_in : Queue EitherFrame;
  tp_out : Queue ToProvider;
  rx : Rx;
  templates : Queue TpMsg;
  prev_hashes : Queue TpMsg;
  signals : Queue unit;
  template_task : bool;
  prev_hash_task : bool;
  solution_task : bool;
  last_new_prev_hash : bool;
  last_future_template : bool;
  poisoned : bool;
  downstreams : gmap Z MinerTask;
  next_id : Z;
  listener : Listener;
  statuses : list State;
  main_on : bool;
  stop_signal : bool;
  relayed : list TpMsg;
  handled : list TpMsg }.
Definition set_tp_in v (s : Tasks) : Tasks :=
  mkTasks v (tp_out s) (rx s) (templates s) (prev_hashes s) (signals s) (template_task s) (prev_hash_task s)
    (solution_task s) (last_new_prev_hash s) (last_future_template s) (poisoned s) (downstreams s) (next_id s)
    (listener s) (statuses s) (main_on s) (stop_signal s) (relayed s) (handled s).
Definition set_tp_out v (s : Tasks) : Tasks :=
  mkTasks (tp_in s) v (rx s) (templates s) (prev_hashes s) (signals s) (template_task s) (prev_hash_task s)
    (solution_task s) (last_new_prev_hash s) (last_future_template s) (poisoned s) (downstreams s) (next_id s)
    (listener s) (statuses s) (main_on s) (stop_signal s) (relayed s) (handled s).
Definition set_rx v (s : Tasks) : Tasks :=
  mkTasks (tp_in s) (tp_out s) v (templates s) (prev_hashes s) (signals s) (template_task s) (prev_hash_task s)
    (solution_task s) (last_new_prev_hash s) (last_future_template s) (poisoned s) (downstreams s) (next_id s)
    (listener s) (statuses s) (main_on s) (stop_signal s) (relayed s) (handled s).
Definition set_templates v (s : Tasks) : Tasks :=
  mkTasks (tp_in s) (tp_out s) (rx s) v (prev_hashes s) (signals s) (template_task s) (prev_hash_task s)
    (solution_task s) (last_new_prev_hash s) (last_future_template s) (poisoned s) (downstreams s) (next_id s)
    (listener s) (statuses s) (main_on s) (stop_signal s) (relayed s) (handled s).
Definition set_prev_hashes v (s : Tasks) : Tasks :=
  mkTasks (tp_in s) (tp_out s) (rx s) (templates s) v (signals s) (template_task s) (prev_hash_task s)
    (solution_task s) (last_new_prev_hash s) (last_future_template s) (poisoned s) (downstreams s) (next_id s)
    (listener s) (statuses s) (main_on s) (stop_signal s) (relayed s) (handled s).
Definition set_signals v (s : Tasks) : Tasks :=
  mkTasks (tp_in s) (tp_out s) (rx s) (templates s) (prev_hashes s) v (template_task s) (prev_hash_task s)
    (solution_task s) (last_new_prev_hash s) (last_future_template s) (poisoned s) (downstreams s) (next_id s)
    (listener s) (statuses s) (main_on s) (stop_signal s) (relayed s) (handled s).
Definition set_template_task v (s : Tasks) : Tasks :=
  mkTasks (tp_in s) (tp_out s) (rx s) (templates s) (prev_hashes s) (signals s) v (prev_hash_task s)
    (solution_task s) (last_new_prev_hash s) (last_future_template s) (poisoned s) (downstreams s) (next_id s)
    (listener s) (statuses s) (main_on s) (stop_signal s) (relayed s) (handled s).
Definition set_prev_hash_task v (s : Tasks) : Tasks :=
  mkTasks (tp_in s) (tp_out s) (rx s) (templates s) (prev_hashes s) (signals s) (template_task s) v
    (solution_task s) (last_new_prev_hash s) (last_future_template s) (poisoned s) (downstreams s) (next_id s)
    (listener s) (statuses s) (main_on s) (stop_signal s) (relayed s) (handled s).
Definition set_solution_task v (s : Tasks) : Tasks :=
  mkTasks (tp_in s) (tp_out s) (rx s) (templates s) (prev_hashes s) (signals s) (template_task s) (prev_hash_task s)
    v (last_new_prev_hash s) (last_future_template s) (poisoned s) (downstreams s) (next_id s) (listener s)
    (statuses s) (main_on s) (stop_signal s) (relayed s) (handled s).
Definition set_last_new_prev_hash v (s : Tasks) : Tasks :=
  mkTasks (tp_in s) (tp_out s) (rx s) (templates s) (prev_hashes s) (signals s) (template_task s) (prev_hash_task s)
    (solution_task s) v (last_future_template s) (poisoned s) (downstreams s) (next_id s) (listener s) (statuses s)
    (main_on s) (stop_signal s) (relayed s) (handled s).
Definition set_last_future_template v (s : Tasks) : Tasks :=
  mkTasks (tp_in s) (tp_out s) (rx s) (templates s) (prev_hashes s) (signals s) (template_task s) (prev_hash_task s)
    (solution_task s) (last_new_prev_hash s) v (poisoned s) (downstreams s) (next_id s) (listener s) (statuses s)
    (main_on s) (stop_signal s) (relayed s) (handled s).
Definition set_poisoned v (s : Tasks) : Tasks :=
  mkTasks (tp_in s) (tp_out s) (rx s) (templates s) (prev_hashes s) (signals s) (template_task s) (prev_hash_task s)
    (solution_task s) (last_new_prev_hash s) (last_future_template s) v (downstreams s) (next_id s) (listener s)
    (statuses s) (main_on s) (stop_signal s) (relayed s) (handled s).
Definition set_downstreams v (s : Tasks) : Tasks :=
  mkTasks (tp_in s) (tp_out s) (rx s) (templates s) (prev_hashes s) (signals s) (template_task s) (prev_hash_task s)
    (solution_task s) (last_new_prev_hash s) (last_future_template s) (poisoned s) v (next_id s) (listener s)
    (statuses s) (main_on s) (stop_signal s) (relayed s) (handled s).
Definition set_next_id v (s : Tasks) : Tasks :=
  mkTasks (tp_in s) (tp_out s) (rx s) (templates s) (prev_hashes s) (signals s) (template_task s) (prev_hash_task s)
    (solution_task s) (last_new_prev_hash s) (last_future_template s) (poisoned s) (downstreams s) v (listener s)
    (statuses s) (main_on s) (stop_signal s) (relayed s) (handled s).
Definition set_listener v (s : Tasks) : Tasks :=
  mkTasks (tp_in s) (tp_out s) (rx s) (templates s) (prev_hashes s) (signals s) (template_task s) (prev_hash_task s)
    (solution_task s) (last_new_prev_hash s) (last_future_template s) (poisoned s) (downstreams s) (next_id s) v
    (statuses s) (main_on s) (stop_signal s) (relayed s) (handled s).
Definition set_statuses v (s : Tasks) : Tasks :=
  mkTasks (tp_in s) (tp_out s) (rx s) (templates s) (prev_hashes s) (signals s) (template_task s) (prev_hash_task s)
    (solution_task s) (last_new_prev_hash s) (last_future_template s) (poisoned s) (downstreams s) (next_id s)
    (listener s) v (main_on s) (stop_signal s) (relayed s) (handled s).
Definition set_main_on v (s : Tasks) : Tasks :=
  mkTasks (tp_in s) (tp_out s) (rx s) (templates s) (prev_hashes s) (signals s) (template_task s) (prev_hash_task s)
    (solution_task s) (last_new_prev_hash s) (last_future_template s) (poisoned s) (downstreams s) (next_id s)
    (listener s) (statuses s) v (stop_signal s) (relayed s) (handled s).
Definition set_stop_signal v (s : Tasks) : Tasks :=
  mkTasks (tp_in s) (tp_out s) (rx s) (templates s) (prev_hashes s) (signals s) (template_task s) (prev_hash_task s)
    (solution_task s) (last_new_prev_hash s) (last_future_template s) (poisoned s) (downstreams s) (next_id s)
    (listener s) (statuses s) (main_on s) v (relayed s) (handled s).
Definition set_relayed v (s : Tasks) : Tasks :=
  mkTasks (tp_in s) (tp_out s) (rx s) (templates s) (prev_hashes s) (signals s) (template_task s) (prev_hash_task s)
    (solution_task s) (last_new_prev_hash s) (last_future_template s) (poisoned s) (downstreams s) (next_id s)
    (listener s) (statuses s) (main_on s) (stop_signal s) v (handled s).
Definition set_handled v (s : Tasks) : Tasks :=
  mkTasks (tp_in s) (tp_out s) (rx s) (templates s) (prev_hashes s) (signals s) (template_task s) (prev_hash_task s)
    (solution_task s) (last_new_prev_hash s) (last_future_template s) (poisoned s) (downstreams s) (next_id s)
    (listener s) (statuses s) (main_on s) (stop_signal s) (relayed s) v.
Definition Tasks_new : Tasks :=
  mkTasks new_queue new_queue Connecting new_queue new_queue new_queue true true false false false false ∅ 1 Accepting [] true false [] [].
Definition add_status (st : State) (s : Tasks) : Tasks := set_statuses (statuses s ++ [st]) s.

(** ** The template provider *)

Definition get_setup_connection_message (host : bytes) (port : Z) : SetupConnection.SetupConnection :=
  mkSetupConnection TemplateDistributionProtocol 2 2 0 (Owned host) port empty_string empty_string empty_string empty_string.
(** The methods of [SetupConnectionHandler]: a refusal is relayed to nobody, a
    request to reconnect is [todo!()]. *)
Definition tp_common_handlers (k : CommonMessagesKind) : result PoolError unit :=
  match k with
  | C_SetupConnectionSuccess | C_SetupConnectionError => Ok tt
  | C_ChannelEndpointChanged => Err RolesLogic
  | C_Reconnect => Panic
  | C_SetupConnection => Err RolesLogic
  end.
(** [ParseCommonMessagesFromUpstream]. *)
Definition handle_message_common (message_type : Z) (payload : bytes) : result PoolError unit :=
  match CommonMessages_try_from (message_type, payload) with
  | Ok m => match kind m with C_SetupConnection => Err RolesLogic | k => tp_common_handlers k end
  | Err _ => Err RolesLogic
  | Panic => Panic
  end.
(** The methods of [TemplateRx]: the message to pass on. *)
Definition tp_template_handlers (m : TpMsg) : option TpMsg :=
  match kind m with T_NewTemplate | T_SetNewPrevHash => Some m | _ => None end.
(** [ParseTemplateDistributionMessagesFromServer]. *)
Definition handle_message_template_distribution (message_type : Z) (payload : bytes) : result PoolError (option TpMsg) :=
  match TemplateDistribution_try_from (message_type, payload) with
  | Ok m =>
      match kind m with
      | T_CoinbaseOutputConstraints | T_RequestTransactionData | T_SubmitSolution => Err RolesLogic
      | _ => Ok (tp_template_handlers m)
      end
  | Err _ => Err RolesLogic
  | Panic => Panic
  end.
(** [TemplateRx::connect] fails, or panics: its error is dropped, and so are the
    ends of the channels it was given. *)
Definition rx_gone (s : Tasks) : Tasks :=
  set_rx RxEnded (set_templates (q_close (templates s)) (set_prev_hashes (q_close (prev_hashes s)) (set_signals (q_close (signals s)) s))).
Definition rx_connect (m : SetupConnection.SetupConnection) (s : Tasks) : Tasks :=
  match q_send (SendSetup m) (tp_out s) with
  | Some q => set_rx AwaitSetup (set_tp_out q s)
  | None => rx_gone s
  end.
Definition rx_answer (size sigops : Z) (s : Tasks) : Tasks :=
  match q_recv (tp_in s) with
  | Blocks => s
  | Closed => rx_gone s
  | Got f q =>
      let s := set_tp_in q s in
      match f with
      | HandShake | Sv2 None _ => rx_gone s
      | Sv2 (Some ty) payload =>
          match handle_message_common ty payload, q_send (SendConstraints size sigops) (tp_out s) with
          | Ok _, Some q => set_solution_task true (set_rx Receiving (set_tp_out q s))
          | _, _ => rx_gone s
          end
      end
  end.
(** [handle_result!] in the loop of [TemplateRx::start]. *)
Definition rx_fail (e : PoolError) (s : Tasks) : Tasks :=
  set_rx (match handle_error e with Break => RxEnded | Continue => Receiving end) (add_status (send_status Upstream e) s).
Definition rx_relay (m : TpMsg) (s : Tasks) : Tasks :=
  match kind m with
  | T_NewTemplate =>
      match q_send m (templates s) with
      | Some q => set_rx AwaitSignal (set_relayed (relayed s ++ [m]) (set_templates q s))
      | None => rx_fail ChannelSend s
      end
  | T_SetNewPrevHash =>
      match q_send m (prev_hashes s) with
      | Some q => set_rx AwaitSignal (set_relayed (relayed s ++ [m]) (set_prev_hashes q s))
      | None => rx_fail ChannelSend s
      end
  | _ => set_rx RxEnded s
  end.
Definition rx_turn (s : Tasks) : Tasks :=
  match q_recv (tp_in s) with
  | Blocks => s
  | Closed => rx_fail ChannelRecv s
  | Got f q =>
      let s := set_tp_in q s in
      match f with
      | HandShake => rx_fail CodecError s
      | Sv2 None _ => rx_fail Custom s
      | Sv2 (Some ty) payload =>
          match handle_message_template_distribution ty payload with
          | Ok None => s
          | Ok (Some m) => rx_relay m s
          | Err e => rx_fail e s
          | Panic => set_rx RxEnded s
          end
      end
  end.
Definition rx_signal (s : Tasks) : Tasks :=
  match q_recv (signals s) with
  | Blocks => s
  | Closed => rx_fail ChannelRecv s
  | Got _ q => set_rx Receiving (set_signals q s)
  end.
Definition on_new_solution (m : sv2_value) (s : Tasks) : Tasks :=
  match q_send (SendSolution m) (tp_out s) with
  | Some q => set_tp_out q s
  | None => add_status (send_status Upstream ChannelSend) s
  end.

(** ** The tasks for templates and block hashes *)

(** The messages for the miners [ids]: a closed sender is an error of the listener,
    and the loop goes on with the next message. *)
Fixpoint send_all (ids : list Z) (s : Tasks) : Tasks :=
  match ids with
  | [] => s
  | id :: ids =>
      send_all ids
        (match downstreams s !! id with
         | Some c => if sender_open c then s else add_status (send_status DownstreamListener ChannelSend) s
         | None => s
         end)
  end.
(** The signal has a sender in either task. *)
Definition send_signal (s : Tasks) : Tasks :=
  match q_send tt (signals s) with
  | Some q => set_signals q s
  | None => add_status (send_status DownstreamListener ChannelSend) s
  end.
Definition close_signal (s : Tasks) : Tasks :=
  if template_task s || prev_hash_task s then s else set_signals (q_close (signals s)) s.
Definition end_template_task (s : Tasks) : Tasks :=
  close_signal (set_template_task false (set_templates (q_close (templates s)) s)).
Definition end_prev_hash_task (s : Tasks) : Tasks :=
  close_signal (set_prev_hash_task false (set_prev_hashes (q_close (prev_hashes s)) s)).
(** The loop of the task ended, and its function returned. *)
Definition template_task_returns (s : Tasks) : Tasks := add_status (DownstreamShutdown ComponentShutdown) (end_template_task s).
Definition prev_hash_task_returns (s : Tasks) : Tasks := add_status (DownstreamShutdown ComponentShutdown) (end_prev_hash_task s).
Definition future_template (m : TpMsg) : bool := match struct m with VStruct (_ :: VPrim (DBool b) :: _) => b | _ => false end.
(** One message: the miners [ids] are addressed in turn; [r] is the outcome, an
    error or a panic ends the task. *)
Definition on_new_template (ids : list Z) (r : result PoolError unit) (s : Tasks) : Tasks :=
  match q_recv (templates s) with
  | Blocks => s
  | Closed => template_task_returns s
  | Got m q =>
      let s := set_templates q s in
      if poisoned s then template_task_returns (add_status (send_status DownstreamListener PoisonLock) s) else
      let s := send_all ids s in
      match r with
      | Ok _ =>
          let s := if future_template m then set_last_future_template true s else s in
          send_signal (set_handled (handled s ++ [m]) s)
      | Err _ => template_task_returns s
      | Panic => end_template_task s
      end
  end.
Definition on_new_prev_hash (ids : list Z) (r : result PoolError unit) (s : Tasks) : Tasks :=
  match q_recv (prev_hashes s) with
  | Blocks => s
  | Closed => prev_hash_task_returns s
  | Got m q =>
      let s := set_prev_hashes q s in
      if poisoned s then prev_hash_task_returns (add_status (send_status DownstreamListener PoisonLock) s) else
      let s := send_all ids (set_last_new_prev_hash true s) in
      match r with
      | Ok _ => send_signal (set_handled (handled s ++ [m]) s)
      | Err _ => prev_hash_task_returns s
      | Panic => end_prev_hash_task s
      end
  end.

(** ** Miners *)

(** The answer to [SetupConnection], by its flags: any protocol and any version is
    accepted.  A parsed message has these fields. *)
Definition handle_setup_connection (v : sv2_value) : result PoolError Z :=
  match v with VStruct (_ :: _ :: _ :: VPrim (DU32 flags) :: _) => Ok flags | _ => Err RolesLogic end.
(** [ParseCommonMessagesFromDownstream]. *)
Definition handle_miner_common (message_type : Z) (payload : bytes) : result PoolError Z :=
  match CommonMessages_try_from (message_type, payload) with
  | Ok m => match kind m with C_SetupConnection => handle_setup_connection (struct m) | _ => Err RolesLogic end
  | Err _ => Err RolesLogic
  | Panic => Panic
  end.
(** [SetupConnectionHandler::setup] with the miner's first frame ([None]: it left). *)
Definition setup (f : option EitherFrame) (sender_open : bool) : result PoolError (bool * bool) :=
  match f with
  | None => Err NoDownstreamsConnected
  | Some HandShake => Panic
  | Some (Sv2 None _) => Err Custom
  | Some (Sv2 (Some ty) payload) =>
      match handle_miner_common ty payload with
      | Ok flags => if sender_open then Ok (has_requires_std_job flags, has_work_selection flags) else Err ChannelSend
      | Err e => Err e
      | Panic => Panic
      end
  end.
(** [handle_result!] in the loop that accepts connections.  A miner is entered when
    there is a block hash; that there is no future template then is a panic under
    the lock of the pool. *)
Definition accept_incoming_connection (s : Tasks) : Tasks :=
  match listener s with
  | SettingUpMiner c =>
      let finish f c :=
        match setup f (sender_open c) with
        | Ok _ => set_listener (AwaitsPrevHash c) s
        | Err e =>
            set_listener (match handle_error e with Break => ListenerEnded | Continue => Accepting end)
              (add_status (send_status DownstreamListener e) s)
        | Panic => set_listener ListenerEnded s
        end in
      match q_recv (receiver c) with
      | Blocks => s
      | Closed => finish None c
      | Got f q => finish (Some f) (mkMinerTask q (sender_open c) (reads c))
      end
  | AwaitsPrevHash c =>
      if negb (last_new_prev_hash s) then s else
      if negb (last_future_template s) then set_poisoned true (set_listener ListenerEnded s) else
      set_listener Accepting
        (set_next_id (next_id s + 1)
           (set_downstreams (<[next_id s := mkMinerTask (receiver c) (sender_open c) true]> (downstreams s)) s))
  | _ => s
  end.
Definition put_miner (id : Z) (c : MinerTask) (s : Tasks) : Tasks := set_downstreams (<[id := c]> (downstreams s)) s.
(** The task that reads a miner; [r] is the outcome of [Downstream::next].  It
    closes the sender when it ends, but only a miner that left is removed. *)
Definition miner_turn (id : Z) (c : MinerTask) (r : result PoolError unit) (s : Tasks) : Tasks :=
  let fail e q := add_status (send_status Downstream e)
    (put_miner id (match handle_error e with Break => mkMinerTask q false false | Continue => mkMinerTask q (sender_open c) true end) s) in
  match q_recv (receiver c) with
  | Blocks => s
  | Closed =>
      if poisoned s then add_status (send_status Downstream PoisonLock) (put_miner id (mkMinerTask (receiver c) false false) s)
      else set_downstreams (delete id (downstreams s)) s
  | Got HandShake q => fail CodecError q
  | Got (Sv2 _ _) q =>
      match r with
      | Ok _ => put_miner id (mkMinerTask q (sender_open c) true) s
      | Err e => fail e q
      | Panic => put_miner id (mkMinerTask q (sender_open c) false) s
      end
  end.

(** ** Statuses *)

(** The loop ends; the listener sees the signal, or that its sender is gone. *)
Definition stop (s : Tasks) : Tasks := set_stop_signal true (set_main_on false s).
Definition on_status (s : Tasks) : Tasks :=
  match statuses s with
  | [] => s
  | st :: rest =>
      let s := set_statuses rest s in
      match st with
      | Shutdown | DownstreamShutdown _ | TemplateProviderShutdown _ => stop s
      | Healthy => s
      | DownstreamInstanceDropped id => if poisoned s then stop s else set_downstreams (delete id (downstreams s)) s
      end
  end.

(** ** A turn *)

Inductive PoolEvent : Type :=
  | Connect (m : SetupConnection.SetupConnection)
  | ConnectFails
  | Answer (size sigops : Z)
  | RxTurn
  | RxSignal
  | Solution (m : sv2_value)
  | ProviderSends (f : EitherFrame)
  | ProviderLeaves
  | TemplateTurn (ids : list Z) (r : result PoolError unit)
  | PrevHashTurn (ids : list Z) (r : result PoolError unit)
  | MinerConnects
  | NewMinerSends (f : EitherFrame)
  | NewMinerLeaves
  | AcceptTurn
  | ListenerStops
  | MinerSends (id : Z) (f : EitherFrame)
  | MinerLeaves (id : Z)
  | MinerTurn (id : Z) (r : result PoolError unit)
  | MainTurn
  | OperatorStops
  | Interrupt.
Definition feed (f : EitherFrame) (c : MinerTask) : MinerTask :=
  match q_send f (receiver c) with Some q => mkMinerTask q (sender_open c) (reads c) | None => c end.
Definition leave (c : MinerTask) : MinerTask := mkMinerTask (q_close (receiver c)) false (reads c).
Definition pool_step (e : PoolEvent) (s : Tasks) : Tasks :=
  match e with
  | Connect m => match rx s with Connecting => rx_connect m s | _ => s end
  | ConnectFails => match rx s with Connecting => rx_gone s | _ => s end
  | Answer size sigops => match rx s with AwaitSetup => rx_answer size sigops s | _ => s end
  | RxTurn => match rx s with Receiving => rx_turn s | _ => s end
  | RxSignal => match rx s with AwaitSignal => rx_signal s | _ => s end
  | Solution m => if solution_task s then on_new_solution m s else s
  | ProviderSends f => match q_send f (tp_in s) with Some q => set_tp_in q s | None => s end
  | ProviderLeaves => set_tp_in (q_close (tp_in s)) (set_tp_out (q_close (tp_out s)) s)
  | TemplateTurn ids r => if template_task s then on_new_template ids r s else s
  | PrevHashTurn ids r => if prev_hash_task s then on_new_prev_hash ids r s else s
  | MinerConnects => match listener s with Accepting => set_listener (SettingUpMiner (mkMinerTask new_queue true false)) s | _ => s end
  | NewMinerSends f => match listener s with
                       | SettingUpMiner c => set_listener (SettingUpMiner (feed f c)) s
                       | AwaitsPrevHash c => set_listener (AwaitsPrevHash (feed f c)) s
                       | _ => s
                       end
  | NewMinerLeaves => match listener s with
                      | SettingUpMiner c => set_listener (SettingUpMiner (leave c)) s
                      | AwaitsPrevHash c => set_listener (AwaitsPrevHash (leave c)) s
                      | _ => s
                      end
  | AcceptTurn => accept_incoming_connection s
  | ListenerStops => match listener s with Accepting => if stop_signal s then set_listener ListenerEnded s else s | _ => s end
  | MinerSends id f => set_downstreams (alter (feed f) id (downstreams s)) s
  | MinerLeaves id => set_downstreams (alter leave id (downstreams s)) s
  | MinerTurn id r =>
      match downstreams s !! id with Some c => if reads c then miner_turn id c r s else s | None => s end
  | MainTurn => if main_on s then on_status s else s
  | OperatorStops => add_status Shutdown s
  | Interrupt => if main_on s then stop s else s
  end.
Definition pool_run (s : Tasks) (es : list PoolEvent) : Tasks := foldl (λ s e, pool_step e s) s es.
End PoolTasks.

(** ** Flow of templates *)

Import Link.
Import Ups.
Import PoolTasks.

(** What a frame of the template provider is passed on as. *)
Definition passed_on (f : EitherFrame) : option (Msg TemplateDistributionKind) :=
  match f with
  | Sv2 (Some ty) payload => match handle_message_template_distribution ty payload with Ok m => m | _ => None end
  | _ => None
  end.
Definition unread {A} (q : Queue A) : list A := drop (q_taken q) (q_log q).
Lemma unread_send {A} (x : A) q q' :
  (q_taken q ≤ length (q_log q))%nat → q_send x q = Some q' →
  unread q' = unread q ++ [x] ∧ q_open q = true ∧ q_open q' = true ∧ (q_taken q' ≤ length (q_log q'))%nat.
Proof.
  intros Hl [Ho ->]%send_sent. unfold unread. cbn. rewrite drop_app_le, length_app by done. split_and!; try done. lia.
Qed.
Lemma unread_recv {A} (x : A) q q' :
  q_recv q = Got x q' → unread q = x :: unread q' ∧ q_open q' = q_open q ∧ (q_taken q' ≤ length (q_log q'))%nat.
Proof.
  intros [Hx ->]%recv_got. unfold unread. cbn. rewrite (drop_S _ _ _ Hx). apply lookup_lt_Some in Hx. split_and!; [done..|lia].
Qed.

(** At most one message is on its way. *)
Definition in_flight (s : Tasks) : nat := match rx s with AwaitSignal | RxEnded => 1 | _ => 0 end.
Record flow_ok (s : Tasks) : Prop := mkFlowOk {
  w_t : (q_taken (templates s) ≤ length (q_log (templates s)))%nat;
  w_p : (q_taken (prev_hashes s) ≤ length (q_log (prev_hashes s)))%nat;
  w_s : (q_taken (signals s) ≤ length (q_log (signals s)))%nat;
  w_open_t : rx s ≠ RxEnded → q_open (templates s) = template_task s;
  w_open_p : rx s ≠ RxEnded → q_open (prev_hashes s) = prev_hash_task s;
  w_flow : ∃ lost, relayed s = handled s ++ unread (templates s) ++ unread (prev_hashes s) ++ lost ∧
    (length (unread (templates s)) + length (unread (prev_hashes s)) + length lost + length (unread (signals s)) ≤ in_flight s)%nat }.
Record source_ok (s : Tasks) : Prop := mkSourceOk {
  v_src : ∃ k, (k ≤ 1)%nat ∧ (k ≤ q_taken (tp_in s))%nat ∧
    relayed s `sublist_of` omap passed_on (drop k (take (q_taken (tp_in s)) (q_log (tp_in s)))) ∧
    (template_task s = true → prev_hash_task s = true →
      relayed s = omap passed_on (drop k (take (q_taken (tp_in s)) (q_log (tp_in s)))));
  v_in : (q_taken (tp_in s) ≤ length (q_log (tp_in s)))%nat;
  v_setup : rx s = Connecting ∨ rx s = AwaitSetup → q_taken (tp_in s) = 0%nat ∧ relayed s = [] }.

(** Turns that leave the flow alone. *)
Lemma flow_quiet s s' :
  flow_ok s → templates s' = templates s → prev_hashes s' = prev_hashes s → signals s' = signals s → relayed s' = relayed s →
  handled s' = handled s → template_task s' = template_task s → prev_hash_task s' = prev_hash_task s → (in_flight s ≤ in_flight s')%nat →
  (rx s = RxEnded → rx s' = RxEnded) → flow_ok s'.
Proof.
  intros [Ht Hp Hs Hot Hop (lost & Hr & Hl)] E1 E2 E3 E4 E5 E6 E7 Hf He. split; rewrite ?E1, ?E2, ?E3, ?E6, ?E7; auto.
  exists lost. rewrite E4, E5. split; [done|lia].
Qed.
Lemma send_all_quiet ids s :
  let s' := send_all ids s in
  templates s' = templates s ∧ prev_hashes s' = prev_hashes s ∧ signals s' = signals s ∧ relayed s' = relayed s ∧ handled s' = handled s ∧
  template_task s' = template_task s ∧ prev_hash_task s' = prev_hash_task s ∧ rx s' = rx s ∧ tp_in s' = tp_in s ∧ main_on s' = main_on s.
Proof.
  revert s. induction ids as [|id ids IH]; intros s; [done|]. cbn [send_all].
  destruct (downstreams s !! id) as [c|]; [|apply IH]. destruct (sender_open c); [apply IH|].
  exact (IH (add_status (send_status DownstreamListener ChannelSend) s)).
Qed.
Lemma flow_fail e s : flow_ok s → handle_error e = Break ∨ in_flight s = 0%nat → flow_ok (rx_fail e s).
Proof.
  intros Hs He. apply (flow_quiet _ _ Hs); try done; unfold rx_fail, in_flight in *; cbn [rx set_rx].
  2: { destruct He as [-> |He]; [done|]. by destruct (rx s). }
  destruct He as [-> |He]; [|destruct (handle_error e); lia]. destruct (rx s); lia.
Qed.
Lemma flow_ended s : flow_ok s → flow_ok (set_rx RxEnded s).
Proof. intros Hs. apply (flow_quiet _ _ Hs); try done. unfold in_flight. cbn. destruct (rx s); lia. Qed.
Lemma flow_gone s : flow_ok s → flow_ok (rx_gone s).
Proof.
  intros [Ht Hp Hsi Hot Hop (lost & Hre & Hl)]. split; try done. exists lost. split; [done|].
  etransitivity; [exact Hl|]. unfold in_flight. cbn. destruct (rx s); lia.
Qed.
Lemma flow_relay m s : flow_ok s → rx s = Receiving → flow_ok (rx_relay m s).
Proof.
  intros Hs Hr. pose proof Hs as [Ht Hp Hsi Hot Hop (lost & Hre & Hl)]. unfold in_flight in Hl. rewrite Hr in Hl.
  assert (unread (templates s) = [] ∧ unread (prev_hashes s) = [] ∧ lost = [] ∧ unread (signals s) = []) as (Z1 & Z2 & Z3 & Z4)
    by (split_and!; apply nil_length_inv; lia).
  rewrite Z1, Z2, Z3, app_nil_r in Hre.
  unfold rx_relay. destruct (kind m); try by apply flow_ended.
  - destruct (q_send m (templates s)) as [q|] eqn:E; [|apply flow_fail; [done|right; unfold in_flight; by rewrite Hr]].
    destruct (unread_send _ _ _ Ht E) as (Hu & Ho & Ho' & Hl').
    split; cbn [templates prev_hashes signals template_task prev_hash_task set_rx set_relayed set_templates]; try done.
    + intros _. rewrite <- Hot by congruence. congruence.
    + intros _. apply Hop. congruence.
    + exists []. cbn [relayed handled in_flight rx set_rx set_relayed set_templates templates prev_hashes signals]. rewrite Hu, Z1, Z2, Z4, Hre. cbn. split; [done|lia].
  - destruct (q_send m (prev_hashes s)) as [q|] eqn:E; [|apply flow_fail; [done|right; unfold in_flight; by rewrite Hr]].
    destruct (unread_send _ _ _ Hp E) as (Hu & Ho & Ho' & Hl').
    split; cbn [templates prev_hashes signals template_task prev_hash_task set_rx set_relayed set_prev_hashes]; try done.
    + intros _. apply Hot. congruence.
    + intros _. rewrite <- Hop by congruence. congruence.
    + exists []. cbn [relayed handled in_flight rx set_rx set_relayed set_prev_hashes templates prev_hashes signals]. rewrite Hu, Z1, Z2, Z4, Hre. cbn. split; [done|lia].
Qed.
Lemma flow_signal s : flow_ok s → rx s = AwaitSignal → flow_ok (rx_signal s).
Proof.
  intros Hs Hr. unfold rx_signal. destruct (q_recv (signals s)) as [u q| |] eqn:E; [|apply flow_fail; auto|done].
  destruct (unread_recv _ _ _ E) as (Hu & Ho & Hl'). destruct Hs as [Ht Hp Hsi Hot Hop (lost & Hre & Hl)].
  split; try done; [intros _; apply Hot; congruence|intros _; apply Hop; congruence|].
  exists lost. unfold in_flight in *. cbn [relayed handled rx set_rx set_signals templates prev_hashes signals].
  rewrite Hr, Hu in Hl. cbn in Hl. split; [done|lia].
Qed.
Lemma flow_close_signal s : flow_ok s → flow_ok (close_signal s).
Proof. intros Hs. unfold close_signal. destruct (_ || _); [done|]. destruct Hs. by split. Qed.
(** The signal after a message was handled: nothing else is on its way. *)
Lemma flow_send_signal s :
  flow_ok s → (length (unread (signals s)) < in_flight s)%nat → unread (templates s) = [] → unread (prev_hashes s) = [] →
  relayed s = handled s → flow_ok (send_signal s).
Proof.
  intros Hs Hlt Z1 Z2 Hre. unfold send_signal. destruct (q_send tt (signals s)) as [q|] eqn:E.
  - destruct Hs as [Ht Hp Hsi Hot Hop _]. destruct (unread_send _ _ _ Hsi E) as (Hu & _ & _ & Hl').
    split; try done. exists []. unfold in_flight in *.
    cbn [relayed handled rx set_signals templates prev_hashes signals]. rewrite Hu, Z1, Z2, Hre, !app_nil_r, length_app. cbn. split; [done|lia].
  - by apply (flow_quiet _ _ Hs).
Qed.
(** Message [m] was taken and is neither handled nor signalled. *)
Definition busy (m : Msg TemplateDistributionKind) (s : Tasks) : Prop :=
  flow_ok s ∧ relayed s = handled s ++ [m] ∧ in_flight s = 1%nat ∧
  unread (templates s) = [] ∧ unread (prev_hashes s) = [] ∧ unread (signals s) = [].
Lemma busy_template m q s : flow_ok s → q_recv (templates s) = Got m q → busy m (set_templates q s).
Proof.
  intros [Ht Hp Hsi Hot Hop (lost & Hre & Hl)] E. destruct (unread_recv _ _ _ E) as (Hu & Ho & Hl').
  rewrite Hu in Hre, Hl. cbn in Hl. assert (Hfl : in_flight s = 1%nat) by (unfold in_flight in *; destruct (rx s); lia). rewrite Hfl in Hl.
  assert (unread q = [] ∧ unread (prev_hashes s) = [] ∧ lost = [] ∧ unread (signals s) = []) as (Z1 & Z2 & Z3 & Z4)
    by (split_and!; apply nil_length_inv; lia). rewrite Z1, Z2, Z3 in Hre.
  split; [|done]. split; try done; [cbn; intros Hr; rewrite <- Hot; congruence|]. exists [m]. cbn [relayed handled set_templates templates prev_hashes signals].
  change (in_flight (set_templates q s)) with (in_flight s). rewrite Z1, Z2, Z4, Hre, Hfl. split; [done|cbn; lia].
Qed.
Lemma busy_prev_hash m q s : flow_ok s → q_recv (prev_hashes s) = Got m q → busy m (set_prev_hashes q s).
Proof.
  intros [Ht Hp Hsi Hot Hop (lost & Hre & Hl)] E. destruct (unread_recv _ _ _ E) as (Hu & Ho & Hl').
  rewrite Hu in Hre, Hl. cbn in Hl. assert (Hfl : in_flight s = 1%nat) by (unfold in_flight in *; destruct (rx s); lia). rewrite Hfl in Hl.
  assert (unread q = [] ∧ unread (templates s) = [] ∧ lost = [] ∧ unread (signals s) = []) as (Z1 & Z2 & Z3 & Z4)
    by (split_and!; apply nil_length_inv; lia). rewrite Z1, Z2, Z3 in Hre.
  split; [|done]. split; try done; [cbn; intros Hr; rewrite <- Hop; congruence|]. exists [m].
  cbn [relayed handled set_prev_hashes templates prev_hashes signals].
  change (in_flight (set_prev_hashes q s)) with (in_flight s). rewrite Z1, Z2, Z4, Hre, Hfl. split; [done|cbn; lia].
Qed.
Lemma busy_quiet m s s' :
  busy m s → templates s' = templates s → prev_hashes s' = prev_hashes s → signals s' = signals s → relayed s' = relayed s →
  handled s' = handled s → template_task s' = template_task s → prev_hash_task s' = prev_hash_task s → rx s' = rx s → busy m s'.
Proof.
  intros (Hs & Hre & Hfl & Z1 & Z2 & Z3) E1 E2 E3 E4 E5 E6 E7 E8. assert (Hf : in_flight s' = in_flight s) by (unfold in_flight; by rewrite E8).
  split; [apply (flow_quiet _ _ Hs); try done; [lia|by rewrite E8]|]. by rewrite Hf, E1, E2, E3, E4, E5.
Qed.
Lemma busy_send_all m ids s : busy m s → busy m (send_all ids s).
Proof. intros Hb. destruct (send_all_quiet ids s) as (E1 & E2 & E3 & E4 & E5 & E6 & E7 & E8 & _). by apply (busy_quiet m s). Qed.
Lemma busy_done m s : busy m s → flow_ok (send_signal (set_handled (handled s ++ [m]) s)).
Proof.
  intros (Hs & Hre & Hfl & Z1 & Z2 & Z3). pose proof Hs as [Ht Hp Hsi Hot Hop _].
  apply flow_send_signal; cbn [templates prev_hashes signals relayed handled set_handled]; try done.
  - split; try done. exists []. cbn [templates prev_hashes signals relayed handled set_handled].
    change (in_flight (set_handled (handled s ++ [m]) s)) with (in_flight s).
    rewrite Z1, Z2, Z3, Hre, Hfl. cbn. rewrite !app_nil_r. split; [done|lia].
  - change (in_flight (set_handled (handled s ++ [m]) s)) with (in_flight s). rewrite Z3, Hfl. cbn. lia.
Qed.
Lemma flow_end_template s : flow_ok s → flow_ok (end_template_task s).
Proof. intros []. apply flow_close_signal. by split. Qed.
Lemma flow_end_prev_hash s : flow_ok s → flow_ok (end_prev_hash_task s).
Proof. intros []. apply flow_close_signal. by split. Qed.
Lemma flow_status st s : flow_ok s → flow_ok (PoolTasks.add_status st s).
Proof. intros Hs. by apply (flow_quiet _ _ Hs). Qed.
Lemma flow_template ids r s : flow_ok s → flow_ok (on_new_template ids r s).
Proof.
  intros Hs. unfold on_new_template, template_task_returns.
  destruct (q_recv (templates s)) as [m q| |] eqn:E; [|by apply flow_status, flow_end_template|done].
  pose proof (busy_template m q s Hs E) as Hb. destruct (poisoned _); [apply flow_status, flow_end_template, flow_status, Hb|].
  apply (busy_send_all m ids) in Hb.
  destruct r; [|apply flow_status, flow_end_template, Hb|apply flow_end_template, Hb].
  apply busy_done. destruct (future_template m); [|done]. by apply (busy_quiet _ _ _ Hb).
Qed.
Lemma flow_prev_hash ids r s : flow_ok s → flow_ok (on_new_prev_hash ids r s).
Proof.
  intros Hs. unfold on_new_prev_hash, prev_hash_task_returns.
  destruct (q_recv (prev_hashes s)) as [m q| |] eqn:E; [|by apply flow_status, flow_end_prev_hash|done].
  pose proof (busy_prev_hash m q s Hs E) as Hb. destruct (poisoned _); [apply flow_status, flow_end_prev_hash, flow_status, Hb|].
  assert (Hb' : busy m (send_all ids (set_last_new_prev_hash true (set_prev_hashes q s))))
    by (apply busy_send_all; by apply (busy_quiet _ _ _ Hb)).
  destruct r; [by apply busy_done|apply flow_status|]; apply flow_end_prev_hash, Hb'.
Qed.
Lemma flow_rx_turn s : flow_ok s → rx s = Receiving → flow_ok (rx_turn s).
Proof.
  intros Hs Hr. assert (Hz : in_flight s = 0%nat) by (unfold in_flight; by rewrite Hr).
  unfold rx_turn. destruct (q_recv (tp_in s)) as [f q| |]; [|by apply flow_fail; auto|done].
  assert (Hq : flow_ok (set_tp_in q s)) by (by apply (flow_quiet _ _ Hs)).
  destruct f as [|[ty|] payload]; [by apply flow_fail; auto| |by apply flow_fail; auto].
  destruct (handle_message_template_distribution ty payload) as [[m|]|e|];
    [by apply flow_relay|done|apply flow_fail; auto|by apply flow_ended].
Qed.
Lemma flow_step e s : flow_ok s → flow_ok (pool_step e s).
Proof.
  intros Hs. destruct e; cbn [pool_step].
  - destruct (rx s) eqn:Hr; try done. unfold rx_connect. destruct (q_send _ _); [|by apply flow_gone].
    apply (flow_quiet _ _ Hs); try done; [|by rewrite Hr]. unfold in_flight. rewrite Hr. cbn. lia.
  - destruct (rx s); try done. by apply flow_gone.
  - destruct (rx s) eqn:Hr; try done. unfold rx_answer. destruct (q_recv _) as [f q| |]; [|by apply flow_gone|done].
    assert (Hq : flow_ok (set_tp_in q s)) by (by apply (flow_quiet _ _ Hs)).
    destruct f as [|[ty|] payload]; [by apply flow_gone| |by apply flow_gone].
    destruct (handle_message_common ty payload); [|by apply flow_gone..].
    destruct (q_send _ _); [|by apply flow_gone]. apply (flow_quiet _ _ Hs); try done; [|by rewrite Hr]. unfold in_flight. rewrite Hr. cbn. lia.
  - destruct (rx s) eqn:Hr; try done. by apply flow_rx_turn.
  - destruct (rx s) eqn:Hr; try done. by apply flow_signal.
  - destruct (solution_task s); [|done]. unfold on_new_solution. destruct (q_send _ _); by apply (flow_quiet _ _ Hs).
  - destruct (q_send _ _); [|done]. by apply (flow_quiet _ _ Hs).
  - by apply (flow_quiet _ _ Hs).
  - destruct (template_task s) eqn:E; [by apply flow_template|done].
  - destruct (prev_hash_task s) eqn:E; [by apply flow_prev_hash|done].
  - destruct (listener s); try done. by apply (flow_quiet _ _ Hs).
  - destruct (listener s); try done; by apply (flow_quiet _ _ Hs).
  - destruct (listener s); try done; by apply (flow_quiet _ _ Hs).
  - unfold accept_incoming_connection. destruct (listener s); try done.
    + destruct (q_recv _); [|by destruct (setup _ _); apply (flow_quiet _ _ Hs)..|done].
      by destruct (setup _ _); apply (flow_quiet _ _ Hs).
    + destruct (last_new_prev_hash s), (last_future_template s); try done; by apply (flow_quiet _ _ Hs).
  - destruct (listener s); try done. destruct (stop_signal s); [|done]. by apply (flow_quiet _ _ Hs).
  - by apply (flow_quiet _ _ Hs).
  - by apply (flow_quiet _ _ Hs).
  - destruct (downstreams s !! id) as [c|]; [|done]. destruct (reads c); [|done]. unfold miner_turn.
    destruct (q_recv _) as [[|] q| |]; [..|done]; [|destruct r|destruct (poisoned s)]; by apply (flow_quiet _ _ Hs).
  - destruct (main_on s); [|done]. unfold on_status. destruct (PoolTasks.statuses s) as [|[] rest]; [done|..]; cbn [poisoned set_statuses]; try destruct (poisoned s); by apply (flow_quiet _ _ Hs).
  - by apply (flow_quiet _ _ Hs).
  - destruct (main_on s); [|done]. by apply (flow_quiet _ _ Hs).
Qed.

(** *** What is passed on *)

Definition early_rx (s : Tasks) : Prop := rx s = Connecting ∨ rx s = AwaitSetup.
Lemma source_quiet s s' :
  source_ok s → tp_in s' = tp_in s → relayed s' = relayed s → (template_task s' = true → template_task s = true) →
  (prev_hash_task s' = true → prev_hash_task s = true) → (early_rx s' → early_rx s) → source_ok s'.
Proof.
  intros [(k & Hk1 & Hk2 & Hsub & Heq) Hin Hse] E1 E2 Ht Hp Hr. split; rewrite ?E1, ?E2; try done.
  - exists k. split_and!; try done. intros ? ?. apply Heq; auto.
  - intros He. apply Hse, Hr, He.
Qed.
Lemma passed_on_kind ty payload m :
  handle_message_template_distribution ty payload = Ok (Some m) → kind m = T_NewTemplate ∨ kind m = T_SetNewPrevHash.
Proof.
  unfold handle_message_template_distribution, tp_template_handlers. destruct (TemplateDistribution_try_from _) as [m'|e|]; try done.
  destruct (kind m') eqn:E; try done; intros [= <-]; auto.
Qed.
(** A frame is taken; [new] is what is put in the queues. *)
Lemma source_take f q new s s' :
  q_recv (tp_in s) = Got f q → source_ok s → tp_in s' = q → relayed s' = relayed s ++ new → ¬ early_rx s' →
  new `sublist_of` option_list (passed_on f) →
  (template_task s' = true → template_task s = true) → (prev_hash_task s' = true → prev_hash_task s = true) →
  (template_task s' = true → prev_hash_task s' = true → new = option_list (passed_on f)) → source_ok s'.
Proof.
  intros [Hf ->]%recv_got [(k & Hk1 & Hk2 & Hsub & Heq) Hin Hse] Eq Er Hne Hnew Ht Hp Hall.
  assert (Hom : omap passed_on (drop k (take (S (q_taken (tp_in s))) (q_log (tp_in s)))) =
    omap passed_on (drop k (take (q_taken (tp_in s)) (q_log (tp_in s)))) ++ option_list (passed_on f)).
  { rewrite (drop_take_S _ k _ _ Hk2 Hf), omap_app. done. }
  pose proof (lookup_lt_Some _ _ _ Hf). split; rewrite ?Eq, ?Er; cbn [q_taken q_log]; [|lia|done].
  exists k. rewrite Hom. split_and!; [done|lia|by apply sublist_app|]. intros H1 H2. rewrite Hall by done. by rewrite Heq by auto.
Qed.
Lemma source_skip f q s s' :
  q_recv (tp_in s) = Got f q → source_ok s → tp_in s' = q → relayed s' = relayed s → ¬ early_rx s' → passed_on f = None →
  template_task s' = template_task s → prev_hash_task s' = prev_hash_task s → source_ok s'.
Proof.
  intros E Hs Eq Er Hne Hn Ht Hp. eapply (source_take f q [] s s' E Hs Eq); rewrite ?Er, ?app_nil_r, ?Hn, ?Ht, ?Hp; done.
Qed.
Lemma source_rx_turn s : flow_ok s → source_ok s → rx s = Receiving → source_ok (rx_turn s).
Proof.
  intros Hfl Hs Hr. unfold rx_turn. destruct (q_recv (tp_in s)) as [f q| |] eqn:E; [| |done].
  2: { apply (source_quiet _ _ Hs); try done. by intros [|]. }
  destruct f as [|[ty|] payload]; [eapply (source_skip _ _ _ _ E Hs); try done; by intros [|]| |eapply (source_skip _ _ _ _ E Hs); try done; by intros [|]].
  destruct (handle_message_template_distribution ty payload) as [[m|]|e|] eqn:Em.
  - assert (Hp : passed_on (Sv2 (Some ty) payload) = Some m) by (unfold passed_on; by rewrite Em).
    destruct Hfl as [_ _ _ Hot Hop _]. unfold rx_relay. destruct (passed_on_kind _ _ _ Em) as [-> | ->].
    + destruct (q_send m (templates (set_tp_in q s))) as [q'|] eqn:Eq.
      * eapply (source_take _ _ [m] _ _ E Hs); try done; rewrite ?Hp; try done. by intros [|].
      * eapply (source_take _ _ [] _ _ E Hs); try done; rewrite ?app_nil_r; try done; [by intros [|]|apply sublist_nil_l|].
        cbn. intros Ht. unfold q_send in Eq. cbn in Eq. by rewrite Hot, Ht in Eq by congruence.
    + destruct (q_send m (prev_hashes (set_tp_in q s))) as [q'|] eqn:Eq.
      * eapply (source_take _ _ [m] _ _ E Hs); try done; rewrite ?Hp; try done. by intros [|].
      * eapply (source_take _ _ [] _ _ E Hs); try done; rewrite ?app_nil_r; try done; [by intros [|]|apply sublist_nil_l|].
        cbn. intros _ Ht. unfold q_send in Eq. cbn in Eq. by rewrite Hop, Ht in Eq by congruence.
  - eapply (source_skip _ _ _ _ E Hs); try done; [intros [?|?]; cbn in *; congruence|cbn; by rewrite Em].
  - eapply (source_skip _ _ _ _ E Hs); try done; [|cbn; by rewrite Em]. unfold rx_fail. intros [|]; cbn in *; by destruct (handle_error e).
  - eapply (source_skip _ _ _ _ E Hs); try done; [by intros [|]|cbn; by rewrite Em].
Qed.
Lemma source_answer size sigops s : source_ok s → rx s = AwaitSetup → source_ok (rx_answer size sigops s).
Proof.
  intros Hs Hr. unfold rx_answer. destruct (q_recv (tp_in s)) as [f q| |] eqn:E; [| |done].
  2: { apply (source_quiet _ _ Hs); try done. by intros [|]. }
  destruct (v_setup s Hs (or_intror Hr)) as [Ht Hre]. apply recv_got in E as [Hf ->]. rewrite Ht in *. apply lookup_lt_Some in Hf.
  assert (Hgo : ∀ s', tp_in s' = mkQueue (q_log (tp_in s)) 1 (q_open (tp_in s)) → relayed s' = relayed s → ¬ early_rx s' → source_ok s').
  { intros s' Eq Er Hne. split; rewrite ?Eq, ?Er, ?Hre; cbn [q_taken q_log]; [|lia|done].
    exists 1%nat. split_and!; [lia..|apply sublist_nil_l|]. intros _ _. rewrite drop_ge; [done|]. rewrite length_take. lia. }
  destruct f as [|[ty|] payload]; [apply Hgo; try done; by intros [|]| |apply Hgo; try done; by intros [|]].
  destruct (handle_message_common ty payload); [destruct (q_send _ _)|..]; apply Hgo; try done; by intros [|].
Qed.
Lemma close_signal_tasks s :
  tp_in (close_signal s) = tp_in s ∧ relayed (close_signal s) = relayed s ∧ template_task (close_signal s) = template_task s ∧
  prev_hash_task (close_signal s) = prev_hash_task s ∧ rx (close_signal s) = rx s.
Proof. unfold close_signal. by destruct (_ || _). Qed.
Lemma source_done m s : source_ok s → source_ok (send_signal (set_handled (handled s ++ [m]) s)).
Proof. intros Hs. unfold send_signal. destruct (q_send _ _); by apply (source_quiet _ _ Hs). Qed.
Lemma source_send_all ids s : source_ok s → source_ok (send_all ids s).
Proof.
  intros Hs. destruct (send_all_quiet ids s) as (_ & _ & _ & E4 & _ & E6 & E7 & E8 & E9 & _).
  apply (source_quiet _ _ Hs); unfold early_rx; congruence.
Qed.
Lemma source_end_template s : source_ok s → source_ok (end_template_task s).
Proof.
  intros Hs. unfold end_template_task.
  destruct (close_signal_tasks (set_template_task false (set_templates (q_close (templates s)) s))) as (E1 & E2 & E3 & E4 & E5).
  apply (source_quiet _ _ Hs); unfold early_rx; rewrite ?E1, ?E2, ?E3, ?E4, ?E5; done.
Qed.
Lemma source_end_prev_hash s : source_ok s → source_ok (end_prev_hash_task s).
Proof.
  intros Hs. unfold end_prev_hash_task.
  destruct (close_signal_tasks (set_prev_hash_task false (set_prev_hashes (q_close (prev_hashes s)) s))) as (E1 & E2 & E3 & E4 & E5).
  apply (source_quiet _ _ Hs); unfold early_rx; rewrite ?E1, ?E2, ?E3, ?E4, ?E5; done.
Qed.
Lemma source_status st s : source_ok s → source_ok (PoolTasks.add_status st s).
Proof. intros Hs. by apply (source_quiet _ _ Hs). Qed.
Lemma source_template ids r s : source_ok s → source_ok (on_new_template ids r s).
Proof.
  intros Hs. unfold on_new_template, template_task_returns.
  destruct (q_recv (templates s)) as [m q| |]; [|by apply source_status, source_end_template|done].
  assert (Hq : source_ok (set_templates q s)) by (by apply (source_quiet _ _ Hs)).
  destruct (poisoned _); [by apply source_status, source_end_template, source_status|].
  apply (source_send_all ids) in Hq. destruct r; [|by apply source_status, source_end_template|by apply source_end_template].
  apply source_done. destruct (future_template m); [|done]. by apply (source_quiet _ _ Hq).
Qed.
Lemma source_prev_hash ids r s : source_ok s → source_ok (on_new_prev_hash ids r s).
Proof.
  intros Hs. unfold on_new_prev_hash, prev_hash_task_returns.
  destruct (q_recv (prev_hashes s)) as [m q| |]; [|by apply source_status, source_end_prev_hash|done].
  assert (Hq : source_ok (set_prev_hashes q s)) by (by apply (source_quiet _ _ Hs)).
  destruct (poisoned _); [by apply source_status, source_end_prev_hash, source_status|].
  assert (Ha : source_ok (send_all ids (set_last_new_prev_hash true (set_prev_hashes q s))))
    by (apply source_send_all; by apply (source_quiet _ _ Hs)).
  destruct r; [by apply source_done|by apply source_status, source_end_prev_hash|by apply source_end_prev_hash].
Qed.
Lemma source_step e s : flow_ok s → source_ok s → source_ok (pool_step e s).
Proof.
  intros Hf Hs. destruct e; cbn [pool_step]; try by apply (source_quiet _ _ Hs).
  - destruct (rx s) eqn:Hr; try done. unfold rx_connect. destruct (q_send _ _); apply (source_quiet _ _ Hs); try done; intros _; by left.
  - destruct (rx s); try done. apply (source_quiet _ _ Hs); try done. by intros [|].
  - destruct (rx s) eqn:Hr; try done. by apply source_answer.
  - destruct (rx s) eqn:Hr; try done. by apply source_rx_turn.
  - destruct (rx s) eqn:Hr; try done. unfold rx_signal. destruct (q_recv _); [| |done]; apply (source_quiet _ _ Hs); try done; by intros [|].
  - destruct (solution_task s); [|done]. unfold on_new_solution. destruct (q_send _ _); by apply (source_quiet _ _ Hs).
  - destruct (q_send f (tp_in s)) as [q|] eqn:E; [|done]. apply send_sent in E as [_ ->].
    destruct Hs as [(k & Hk1 & Hk2 & Hsub & Heq) Hin Hse].
    split; cbn [tp_in set_tp_in q_taken q_log relayed template_task prev_hash_task rx]; [|rewrite length_app; lia|done].
    exists k. by rewrite take_app_le.
  - destruct Hs. by split.
  - destruct (template_task s) eqn:E; [by apply source_template|done].
  - destruct (prev_hash_task s) eqn:E; [by apply source_prev_hash|done].
  - destruct (listener s); try done. by apply (source_quiet _ _ Hs).
  - destruct (listener s); try done; by apply (source_quiet _ _ Hs).
  - destruct (listener s); try done; by apply (source_quiet _ _ Hs).
  - unfold accept_incoming_connection. destruct (listener s); try done.
    + destruct (q_recv _); [| |done]; by destruct (setup _ _); apply (source_quiet _ _ Hs).
    + destruct (last_new_prev_hash s), (last_future_template s); try done; by apply (source_quiet _ _ Hs).
  - destruct (listener s); try done. destruct (stop_signal s); [|done]. by apply (source_quiet _ _ Hs).
  - destruct (downstreams s !! id) as [c|]; [|done]. destruct (reads c); [|done]. unfold miner_turn.
    destruct (q_recv _) as [[|] q| |]; [..|done]; [|destruct r|destruct (poisoned s)]; by apply (source_quiet _ _ Hs).
  - destruct (main_on s); [|done]. unfold PoolTasks.on_status. destruct (PoolTasks.statuses s) as [|[] rest]; [done|..]; cbn [poisoned set_statuses]; try destruct (poisoned s); by apply (source_quiet _ _ Hs).
  - destruct (main_on s); [|done]. by apply (source_quiet _ _ Hs).
Qed.
Lemma pool_run_inv es : flow_ok (pool_run Tasks_new es) ∧ source_ok (pool_run Tasks_new es).
Proof.
  assert (H0 : flow_ok Tasks_new ∧ source_ok Tasks_new).
  { split; split; try done.
    - exists []. split; [done|cbn; lia].
    - exists 0%nat. split_and!; [lia|lia|apply sublist_nil_l|done]. }
  revert H0. unfold pool_run. generalize Tasks_new. induction es as [|e es IH]; intros s [Hf Hs]; [done|].
  apply IH. split; [by apply flow_step|by apply source_step].
Qed.

(** C27: The pool handles templates and block hashes in the order in which the
    template provider sent them, although they go through two queues to two tasks.
    In every interleaving of the pool's tasks: the messages answered are the
    beginning of those that were put in the queues, with at most one more on its
    way; the next frame of the provider is only read when all are answered; what
    was put in the queues are templates and block hashes that were read, in order,
    apart from at most one frame that answered the setup, and all of them as long
    as both tasks run. *)
Theorem templates_in_order es :
  let s := pool_run Tasks_new es in
  handled s `prefix_of` relayed s ∧ (length (relayed s) ≤ S (length (handled s)))%nat ∧
  (rx s = Receiving → handled s = relayed s) ∧
  ∃ k, (k ≤ 1)%nat ∧
    relayed s `sublist_of` omap passed_on (drop k (take (q_taken (tp_in s)) (q_log (tp_in s)))) ∧
    (template_task s = true → prev_hash_task s = true →
      relayed s = omap passed_on (drop k (take (q_taken (tp_in s)) (q_log (tp_in s))))).
Proof.
  intros s. destruct (pool_run_inv es) as [[_ _ _ _ _ (lost & Hre & Hl)] [(k & Hk & _ & Hsub & Heq) _ _]]. fold s in Hre, Hl, Hsub, Heq.
  assert (Hfl : (in_flight s ≤ 1)%nat) by (unfold in_flight; destruct (rx s); lia).
  split_and!; [rewrite Hre; by apply prefix_app_r|rewrite Hre, !length_app; lia| |by exists k].
  intros Hr. unfold in_flight in Hl. rewrite Hr in Hl.
  assert (unread (templates s) = [] ∧ unread (prev_hashes s) = [] ∧ lost = []) as (Z1 & Z2 & Z3) by (split_and!; apply nil_length_inv; lia).
  by rewrite Hre, Z1, Z2, Z3, app_nil_r.
Qed.

(** ** A miner stops the pool *)


(** ** One miner stops the pool *)

(** The first frame is refused, and not because the miner left before it. *)
Lemma setup_refusal f o e : setup (Some f) o = Err e → send_status DownstreamListener e = DownstreamShutdown e.
Proof.
  unfold setup. destruct f as [|[ty|] payload]; [done| |by intros [= <-]].
  assert (Hc : ∀ e, handle_miner_common ty payload = Err e → e = RolesLogic).
  { intros e'. unfold handle_miner_common, handle_setup_connection. repeat case_match; congruence. }
  destruct (handle_miner_common ty payload) as [flags|e'|]; [destruct o; by intros [= <-]| |done].
  intros [= <-]. by rewrite (Hc e').
Qed.
(** Statuses are only added, except by the loop that reads them. *)
Definition adds (s s' : Tasks) : Prop :=
  (∃ l, PoolTasks.statuses s' = PoolTasks.statuses s ++ l) ∧ main_on s' = main_on s ∧ stop_signal s' = stop_signal s.
#[global] Instance adds_preorder : PreOrder adds.
Proof.
  split; [intros s; split; [exists []; by rewrite app_nil_r|done]|].
  intros s1 s2 s3 [[l1 E1] [? ?]] [[l2 E2] [? ?]]. split; [|split; congruence].
  exists (l1 ++ l2). by rewrite E2, E1, <- app_assoc.
Qed.
Lemma adds_same s s' :
  PoolTasks.statuses s' = PoolTasks.statuses s → main_on s' = main_on s → stop_signal s' = stop_signal s → adds s s'.
Proof. intros E ??. split; [exists []; by rewrite app_nil_r|done]. Qed.
Lemma adds_status st s s' : adds s s' → adds s (PoolTasks.add_status st s').
Proof. intros Ha. etransitivity; [exact Ha|]. split; [by exists [st]|done]. Qed.
Lemma adds_send_all ids s s' : adds s s' → adds s (send_all ids s').
Proof.
  revert s'. induction ids as [|id ids IH]; intros s' Ha; cbn [send_all]; [done|]. apply IH.
  destruct (downstreams s' !! id) as [c|]; [|done]. destruct (sender_open c); [done|by apply adds_status].
Qed.
(** A function that only sets other fields. *)
Lemma adds_set s s' s'' :
  adds s s' → PoolTasks.statuses s'' = PoolTasks.statuses s' → main_on s'' = main_on s' →
  stop_signal s'' = stop_signal s' → adds s s''.
Proof. intros Ha ???. etransitivity; [exact Ha|by apply adds_same]. Qed.
Ltac adds_all :=
  repeat first [reflexivity | apply adds_status | apply adds_send_all | by apply adds_same | case_match | eapply adds_set; [|reflexivity..]].
Lemma adds_step e s : e ≠ MainTurn → e ≠ Interrupt → adds s (pool_step e s).
Proof.
  intros Hm Hi. destruct e; try done; cbn [pool_step]; unfold rx_connect, rx_gone, rx_answer, rx_turn, rx_relay, rx_signal, rx_fail,
    on_new_solution, accept_incoming_connection, miner_turn, put_miner, on_new_template, on_new_prev_hash,
    template_task_returns, prev_hash_task_returns, end_template_task, end_prev_hash_task, close_signal, send_signal; adds_all.
Qed.
(** The loop over the statuses has ended, or will when it has read those before a
    status that ends it. *)
Definition stops_within (n : nat) (s : Tasks) : Prop :=
  (main_on s = false ∧ stop_signal s = true) ∨
  ∃ pre e rest, PoolTasks.statuses s = pre ++ DownstreamShutdown e :: rest ∧ (length pre ≤ n)%nat ∧ main_on s = true.
Lemma interrupt_dec e : e = Interrupt ∨ e ≠ Interrupt.
Proof. destruct e; [by right..|by left]. Qed.
Lemma main_turn_dec e : e = MainTurn ∨ e ≠ MainTurn.
Proof. destruct e; try (by right); by left. Qed.
Lemma stops_step e s n : e ≠ MainTurn → stops_within n s → stops_within n (pool_step e s).
Proof.
  intros Hm Hs. destruct (interrupt_dec e) as [-> |Hi].
  { cbn [pool_step]. destruct Hs as [[E ?]|(pre & e & rest & _ & _ & E)]; rewrite E; left; done. }
  destruct (adds_step e s Hm Hi) as ([l El] & Em & Es).
  destruct Hs as [[? ?]|(pre & x & rest & E & Hl & ?)]; [left; split; congruence|].
  right. exists pre, x, (rest ++ l). rewrite El, E, <- app_assoc. split; [done|]. split; [done|congruence].
Qed.
Lemma stops_main n s : stops_within (S n) s → stops_within n (pool_step MainTurn s).
Proof.
  intros [[E ?]|(pre & x & rest & E & Hl & Em)]; cbn [pool_step]; [left; by rewrite E|]. rewrite Em. unfold on_status. rewrite E.
  destruct pre as [|st pre]; cbn [app]; [by left|]. cbn [length] in Hl.
  assert (stops_within n (set_statuses (pre ++ DownstreamShutdown x :: rest) s)) as Hn
    by (right; exists pre, x, rest; split; [done|]; split; [lia|done]).
  destruct st; try (by left); [|exact Hn]. cbn. destruct (poisoned s); [by left|].
  right. exists pre, x, rest. split; [done|]. split; [lia|done].
Qed.
Lemma stops_main_now s : stops_within 0 s → main_on (pool_step MainTurn s) = false ∧ stop_signal (pool_step MainTurn s) = true.
Proof.
  intros [[E ?]|(pre & x & rest & E & Hl & Em)]; cbn [pool_step]; [by rewrite E|]. rewrite Em. unfold on_status. rewrite E.
  by destruct pre; [|cbn in Hl; lia].
Qed.
Fixpoint main_turns (es : list PoolEvent) : nat :=
  match es with [] => 0 | MainTurn :: es => S (main_turns es) | _ :: es => main_turns es end.
Lemma stops_run es n s : stops_within n s → (n < main_turns es)%nat → main_on (pool_run s es) = false ∧ stop_signal (pool_run s es) = true.
Proof.
  assert (Hdone : ∀ es s, main_on s = false ∧ stop_signal s = true → main_on (pool_run s es) = false ∧ stop_signal (pool_run s es) = true).
  { clear. induction es as [|e es IH]; intros s Hs; [done|]. apply (IH (pool_step e s)).
    destruct (main_turn_dec e) as [-> |Hm]; [cbn; pose proof (proj1 Hs) as E; by rewrite E|].
    destruct (stops_step e s 0 Hm (or_introl Hs)) as [?|(? & ? & ? & _ & _ & E)]; [done|].
    destruct (interrupt_dec e) as [-> |Hi]; [cbn in *; pose proof (proj1 Hs) as E'; by rewrite E'|].
    destruct (adds_step e s Hm Hi) as (_ & ? & _). destruct Hs. congruence. }
  revert n s. induction es as [|e es IH]; intros n s Hs Hn; [cbn in Hn; lia|].
  destruct (main_turn_dec e) as [-> |Hm].
  - destruct n as [|n]; [by apply (Hdone es), stops_main_now|]. apply (IH n); [by apply stops_main|]. cbn in Hn. lia.
  - apply (IH n); [by apply stops_step|]. by destruct e.
Qed.

Lemma send_all_statuses ids s :
  PoolTasks.statuses s = [] →
  (∃ id c, id ∈ ids ∧ downstreams s !! id = Some c ∧ sender_open c = false) →
  ∃ l, PoolTasks.statuses (send_all ids s) = DownstreamShutdown ChannelSend :: l.
Proof.
  revert s. induction ids as [|i ids IH]; intros s Hs (id & c & Hin & Hc & Ho); [by apply not_elem_of_nil in Hin|]. cbn [send_all].
  destruct (downstreams s !! i) as [ci|] eqn:Ei; [destruct (sender_open ci) eqn:Eo|].
  - apply IH; [done|]. exists id, c. split; [|done]. apply list_elem_of_In in Hin as [-> |Hin]; [congruence|by apply list_elem_of_In].
  - destruct (adds_send_all ids (PoolTasks.add_status (send_status DownstreamListener ChannelSend) s) _ ltac:(reflexivity)) as [[l ->] _].
    cbn. rewrite Hs. by eexists.
  - apply IH; [done|]. exists id, c. split; [|done]. apply list_elem_of_In in Hin as [-> |Hin]; [congruence|by apply list_elem_of_In].
Qed.
(** A miner whose message is answered with an error stops the pool at the next
    template: its task ends and closes its sender, but the miner stays among those
    that are addressed; the next message for it cannot be sent, which is an error of
    the listener and ends the loop over the statuses. *)
Theorem failed_miner_stops_pool s id c f q e m qt ids :
  main_on s = true → PoolTasks.statuses s = [] → poisoned s = false → template_task s = true →
  downstreams s !! id = Some c → reads c = true → q_recv (receiver c) = Got f q → f ≠ HandShake →
  handle_error e = Break → send_status Downstream e = Healthy → q_recv (templates s) = Got m qt → id ∈ ids →
  let s1 := pool_run s [MinerTurn id (Err e); MainTurn] in
  let s2 := pool_run s1 [TemplateTurn ids (Ok tt); MainTurn] in
  (main_on s1 = true ∧ downstreams s1 = <[id := mkMinerTask q false false]> (downstreams s)) ∧
  main_on s2 = false ∧ stop_signal s2 = true.
Proof.
  intros Hm Hst Hpo Htt Hid Hre Hf Hnf Heb Hes Htp Hin.
  set (s1 := set_downstreams (<[id := mkMinerTask q false false]> (downstreams s)) s).
  assert (E1 : pool_run s [MinerTurn id (Err e); MainTurn] = set_statuses [] s1).
  { unfold pool_run. cbn [foldl pool_step]. rewrite Hid, Hre. unfold miner_turn. rewrite Hf. destruct f as [|h p]; [done|].
    rewrite Heb, Hes. cbn [main_on PoolTasks.add_status set_statuses put_miner set_downstreams]. rewrite Hm. unfold on_status.
    cbn [PoolTasks.statuses PoolTasks.add_status set_statuses put_miner set_downstreams]. by rewrite Hst. }
  cbn zeta. rewrite E1. split; [done|].
  unfold pool_run. cbn [foldl pool_step template_task set_statuses set_downstreams s1]. rewrite Htt. unfold on_new_template.
  cbn [templates poisoned set_templates set_statuses set_downstreams s1]. rewrite Htp, Hpo.
  set (s2 := set_templates qt (set_statuses [] s1)).
  destruct (send_all_statuses ids s2) as [l Hl]; [done|exists id, (mkMinerTask q false false); split_and!; [done|apply lookup_insert_eq|done]|].
  destruct (send_all_quiet ids s2) as (_ & _ & _ & _ & _ & _ & _ & _ & _ & Hmo).
  change (set_templates qt _) with s2. set (s3 := send_all ids s2) in *.
  assert (Hgo : ∀ t, main_on t = true → (∃ l', PoolTasks.statuses t = DownstreamShutdown ChannelSend :: l') →
    let t' := if main_on t then on_status t else t in main_on t' = false ∧ stop_signal t' = true).
  { intros t Ht [l' Hl']. rewrite Ht. unfold on_status. by rewrite Hl'. }
  apply Hgo; unfold send_signal; destruct (future_template m), (q_send _ _);
    cbn [main_on PoolTasks.statuses set_signals set_handled set_last_future_template PoolTasks.add_status set_statuses];
    rewrite ?Hmo, ?Hl; try done; eauto; by eexists.
Qed.

(** ** Runs *)

Module PoolSample.
Definition zeros (n : nat) : bytes := replicate n Byte.x00.
Definition success : EitherFrame := Sv2 (Some 1) (to_le_bytes 2 2 ++ to_le_bytes 4 0).
Definition refusal : EitherFrame := Sv2 (Some 2) (to_le_bytes 4 0 ++ zeros 1).
Definition template (future : bool) : EitherFrame :=
  Sv2 (Some 0x71) (to_le_bytes 8 7 ++ to_le_bytes 1 (if future then 1 else 0) ++ zeros 32).
Definition prev_hash : EitherFrame := Sv2 (Some 0x72) (to_le_bytes 8 7 ++ zeros 72).
Definition setup_frame (protocol : Z) : EitherFrame := Sv2 (Some 0) (to_le_bytes 1 protocol ++ zeros 15).
Definition run (es : list PoolEvent) : Tasks := pool_run Tasks_new es.
Definition connected (answer : EitherFrame) : list PoolEvent :=
  [Connect (get_setup_connection_message (zeros 0) 8442); ProviderSends answer; Answer 31 0].
Definition first_block : list PoolEvent :=
  connected success ++ [ProviderSends (template true); ProviderSends prev_hash; RxTurn; TemplateTurn [] (Ok tt); RxSignal; RxTurn; PrevHashTurn [] (Ok tt); RxSignal].
Definition miner : list PoolEvent := [MinerConnects; NewMinerSends (setup_frame 0); AcceptTurn; AcceptTurn].

(** A template and a block hash are handled in order, and a miner is entered. *)
Example pool_starts :
  let s := run (first_block ++ miner) in
  (kind <$> handled s) = [T_NewTemplate; T_SetNewPrevHash] ∧ rx s = Receiving ∧ main_on s = true ∧ listener s = Accepting ∧
  elements (dom (downstreams s)) = [1].
Proof. vm_compute. done. Qed.
(** The block hash is not read while the template is not answered. *)
Example hash_waits :
  let s := run (connected success ++ [ProviderSends (template true); ProviderSends prev_hash; RxTurn; RxTurn; PrevHashTurn [] (Ok tt); RxSignal]) in
  length (relayed s) = 1%nat ∧ handled s = [] ∧ rx s = AwaitSignal ∧ q_taken (tp_in s) = 2%nat.
Proof. vm_compute. done. Qed.
(** A refusal of the template provider is taken for consent. *)
Example refusal_ignored : rx (run (connected refusal)) = Receiving.
Proof. vm_compute. done. Qed.
(** When the connection to the provider cannot be set up, its error is dropped, but
    so are the senders of the tasks' queues, and the pool stops. *)
Example no_provider_stops_pool :
  let s := run [ConnectFails; TemplateTurn [] (Ok tt); MainTurn; ListenerStops] in
  main_on s = false ∧ listener s = ListenerEnded.
Proof. vm_compute. done. Qed.
(** So does a message the pool does not expect of the provider. *)
Example provider_message_stops_pool :
  let s := run (connected success ++ [ProviderSends success; RxTurn; MainTurn; ListenerStops]) in
  rx s = RxEnded ∧ main_on s = false ∧ listener s = ListenerEnded.
Proof. vm_compute. done. Qed.
(** A miner of any protocol is accepted. *)
Example any_protocol :
  let s := run (first_block ++ [MinerConnects; NewMinerSends (setup_frame 2); AcceptTurn; AcceptTurn]) in
  elements (dom (downstreams s)) = [1].
Proof. vm_compute. done. Qed.
(** A miner that says nothing keeps all others out, and the listener from stopping. *)
Example silent_miner_blocks :
  let s := run (first_block ++ [MinerConnects; AcceptTurn; MinerConnects; OperatorStops; MainTurn; ListenerStops]) in
  main_on s = false ∧ listener s = SettingUpMiner (mkMinerTask new_queue true false).
Proof. vm_compute. done. Qed.
(** A handshake frame ends the listener without a status: the pool goes on, and
    accepts no one. *)
Example handshake_ends_listener :
  let s := run (first_block ++ [MinerConnects; NewMinerSends HandShake; AcceptTurn; MainTurn]) in
  listener s = ListenerEnded ∧ main_on s = true ∧ PoolTasks.statuses s = [].
Proof. vm_compute. done. Qed.
(** A block hash without a future template before it: the first miner's entry
    panics with the pool locked, and the next template stops the pool. *)
Example hash_first_poisons :
  let s := run (connected success ++ [ProviderSends prev_hash; RxTurn; PrevHashTurn [] (Ok tt); RxSignal] ++ miner ++
    [ProviderSends (template true); RxTurn; TemplateTurn [] (Ok tt); MainTurn]) in
  poisoned s = true ∧ listener s = ListenerEnded ∧ template_task s = false ∧ main_on s = false.
Proof. vm_compute. done. Qed.
(** A miner that leaves before the answer to its setup, with a status unread; the
    listener goes on to a second miner, which is silent. *)
Definition leaver : Tasks :=
  pool_run (run first_block) [MinerConnects; NewMinerLeaves; AcceptTurn; MinerConnects; NewMinerSends (setup_frame 0); NewMinerLeaves].
Definition meanwhile : list PoolEvent := [MinerConnects; MainTurn; ProviderSends (template false); MainTurn; NewMinerLeaves; AcceptTurn].
(** Two miners; one sends a message that is an error, and the next template stops
    the pool. *)
Definition two_miners : Tasks :=
  run (first_block ++ miner ++ miner ++ [MinerSends 1 success; ProviderSends (template false); RxTurn]).
Example failed_miner_stops_pool_witness :
  main_on (pool_run two_miners [MinerTurn 1 (Err RolesLogic); MainTurn]) = true ∧
  main_on (pool_run (pool_run two_miners [MinerTurn 1 (Err RolesLogic); MainTurn]) [TemplateTurn [1; 2] (Ok tt); MainTurn]) = false.
Proof.
  edestruct (failed_miner_stops_pool two_miners 1) as ((Hm & _) & Hn & _);
    [..|split; [exact Hm|exact Hn]]; [vm_compute; reflexivity..|discriminate|reflexivity|reflexivity|vm_compute; reflexivity|apply list_elem_of_here].
Defined.
End PoolSample.
