(* ===== verification/Bridge.v ===== *)
(** * The connection between pool and mint

    [roles/pool/src/lib/mining_pool/mint_connection.rs]: the pool accepts one mint
    at a time, answers its setup, and starts two tasks: one forwards the hub's quote
    requests, the other hands the mint's answers to the hub.
    [roles/mint/src/lib/sv2_connection/connection.rs]: the attempts of the mint.
    [mint-pool-messaging/src/channel_manager.rs]: the table of channels.

    A run of [bridge_step] is any interleaving of the tasks, the network and the
    pool's shares, over any number of connections.  The keys of the noise handshake
    are those of [Noise]; a handshake that fails is an attempt that is not made.  The
    queues of a connection are without a bound, as [Connection::new] makes them
    ([noise_connection.rs]): [sender.send(frame).await] fails when the queue is closed
    and never waits. *)

From stdpp Require Import gmap.
From S2P Require Import Prelude Datatypes Codec CodecFacts Framing Messages Ehash Quote Hub HubProperties PoolQuotes MintRole Parsers QuoteFlow Links LinksProperties.
#[local] Open Scope Z_scope.
#[local] Open Scope list_scope.

Module Bridge.
Import Link.
#[local] Notation Frame := Framing.Frame.

(** ** The pool's side *)

(** A connection awaits the mint's setup, serves, waits for its forwarder to end,
    is over; a panic of the task that serves it is the end of all. *)
Inductive Phase : Type := AwaitsSetup | Serving | Stopping | Over | Crashed.
#[global] Instance Phase_eq_dec : EqDecision Phase.
Proof. solve_decision. Defined.
Inductive ForwarderState : Type := NotSubscribed | Forwarding | ForwarderEnded.
(** [f_from] and [f_pos]: the requests of the hub the forwarder has taken.  [c_sent]
    logs those it handed to the connection; no code reads it. *)
Record MintConn : Type := mkMintConn {
  c_id : string;
  c_in : Queue Frame;
  c_out : Queue Frame;
  phase : Phase;
  f_state : ForwarderState;
  f_from : nat;
  f_pos : nat;
  c_sent : list ParsedMintQuoteRequest }.
Definition new_conn (id : string) : MintConn := mkMintConn id new_queue new_queue AwaitsSetup NotSubscribed 0 0 [].
Definition set_in v (c : MintConn) : MintConn := mkMintConn (c_id c) v (c_out c) (phase c) (f_state c) (f_from c) (f_pos c) (c_sent c).
Definition set_out v (c : MintConn) : MintConn := mkMintConn (c_id c) (c_in c) v (phase c) (f_state c) (f_from c) (f_pos c) (c_sent c).
Definition set_phase v (c : MintConn) : MintConn := mkMintConn (c_id c) (c_in c) (c_out c) v (f_state c) (f_from c) (f_pos c) (c_sent c).
Definition set_forwarder v (c : MintConn) : MintConn := mkMintConn (c_id c) (c_in c) (c_out c) (phase c) v (f_from c) (f_pos c) (c_sent c).
Definition set_pos v (c : MintConn) : MintConn := mkMintConn (c_id c) (c_in c) (c_out c) (phase c) (f_state c) (f_from c) v (c_sent c).
Definition subscribed (n : nat) (c : MintConn) : MintConn := mkMintConn (c_id c) (c_in c) (c_out c) (phase c) Forwarding n n (c_sent c).
Definition log_sent r (c : MintConn) : MintConn := mkMintConn (c_id c) (c_in c) (c_out c) (phase c) (f_state c) (f_from c) (f_pos c) (c_sent c ++ [r]).

Definition SetupConnectionSuccess : AnyMessage :=
  AnyCommon (mkMsg C_SetupConnectionSuccess (VStruct [VPrim (DU16 2); VPrim (DU32 0)])).
Definition setup_success : result ParserError Frame := FrameSv2 <$> AnyMessage_try_into_frame SetupConnectionSuccess.

Section bridge.
Context `{Broadcast} (overflow_checks : bool).
(** How many messages the broadcast channel of the requests keeps. *)
Context (keeps : nat).

(** [MintConnection]: [sender] is the connection whose sender the forwarders find. *)
Record MintConnection : Type := mkMintConnection {
  hub : MintPoolMessageHub;
  sender : option nat;
  is_connected : bool;
  accepting : bool;
  conns : list MintConn }.
Definition with_keys (h : MintPoolMessageHub) : MintConnection := mkMintConnection h None false true [].
Definition set_hub v (s : MintConnection) : MintConnection := mkMintConnection v (sender s) (is_connected s) (accepting s) (conns s).
Definition set_accepting v (s : MintConnection) : MintConnection := mkMintConnection (hub s) (sender s) (is_connected s) v (conns s).
Definition on_mint (i : nat) (f : MintConn → MintConn) (s : MintConnection) : MintConnection :=
  mkMintConnection (hub s) (sender s) (is_connected s) (accepting s) (alter f i (conns s)).
Definition requests (h : MintPoolMessageHub) : list ParsedMintQuoteRequest := chan_sent (quote_request_tx h).

(** [establish_connection]: the loop goes on when a connection is over. *)
Definition accept (id : string) (s : MintConnection) : MintConnection :=
  if accepting s then mkMintConnection (hub s) (sender s) (is_connected s) false (conns s ++ [new_conn id]) else s.
Definition close_over (i : nat) (s : MintConnection) : MintConnection := set_accepting true (on_mint i (set_phase Over) s).
(** [perform_handshake] up to its two tasks: the mint's first frame is not looked at. *)
Definition setup_turn (i : nat) (c : MintConn) (now : Z) (s : MintConnection) : MintConnection :=
  match q_recv (c_in c) with
  | Blocks => s
  | Closed => close_over i s
  | Got _ q =>
      let s := on_mint i (set_in q) s in
      match setup_success with
      | Ok f =>
          match q_send f (c_out c) with
          | None => close_over i s
          | Some out =>
              let s := on_mint i (set_phase Serving ∘ set_out out) s in
              mkMintConnection (register_connection (c_id c) Pool now (hub s)).2 (Some i) true (accepting s) (conns s)
          end
      | _ => close_over i s
      end
  end.
(** [forward_hub_requests_to_mint]. *)
Definition forwarder_subscribes (i : nat) (s : MintConnection) : MintConnection :=
  set_hub (subscribe_quote_requests (hub s)).2 (on_mint i (subscribed (length (requests (hub s)))) s).
Definition forward (i : nat) (r : ParsedMintQuoteRequest) (s : MintConnection) : MintConnection :=
  match sender s with
  | None => on_mint i (set_forwarder ForwarderEnded) s
  | Some j =>
      match send_quote_request_to_mint overflow_checks true r, conns s !! j with
      | Ok f, Some c =>
          match q_send f (c_out c) with
          | Some q => on_mint i (log_sent r) (on_mint j (set_out q) s)
          | None => s
          end
      | Panic, _ => on_mint i (set_forwarder ForwarderEnded) s
      | _, _ => s
      end
  end.
Definition forward_turn (i : nat) (c : MintConn) (s : MintConnection) : MintConnection :=
  match requests (hub s) !! f_pos c with
  | None => s
  | Some r =>
      if (keeps <? length (requests (hub s)) - f_pos c)%nat then on_mint i (set_forwarder ForwarderEnded) s
      else forward i r (on_mint i (set_pos (S (f_pos c))) s)
  end.
(** [process_mint_frames]. *)
Definition process_turn (i : nat) (c : MintConn) (s : MintConnection) : MintConnection :=
  match q_recv (c_in c) with
  | Blocks => s
  | Closed => on_mint i (set_phase Stopping) s
  | Got f q =>
      let s := on_mint i (set_in q) s in
      match process_mint_frame f (hub s) with
      | (Ok _, h) => set_hub h s
      | (Err _, h) => on_mint i (set_phase Stopping) (set_hub h s)
      | (Panic, h) => on_mint i (set_phase Crashed) (set_hub h s)
      end
  end.
(** [perform_handshake] behind its tasks. *)
Definition finish (i : nat) (c : MintConn) (s : MintConnection) : MintConnection :=
  let s := close_over i s in
  mkMintConnection (unregister_connection (c_id c) (hub s)).2 None false (accepting s) (conns s).

Inductive BridgeEvent : Type :=
  | Share (r : ParsedMintQuoteRequest) (ctx : PendingQuoteContext) (now : Z)
  | MintConnects (id : string)
  | MintSends (i : nat) (f : Frame)
  | MintLeaves (i : nat)
  | SetupTurn (i : nat) (now : Z)
  | SetupTimeout (i : nat)
  | Subscribe (i : nat)
  | ForwardTurn (i : nat)
  | ForwarderStops (i : nat)
  | ProcessTurn (i : nat)
  | Finish (i : nat).
Definition leave (c : MintConn) : MintConn := set_in (q_close (c_in c)) (set_out (q_close (c_out c)) c).
Definition feed (f : Frame) (c : MintConn) : MintConn := match q_send f (c_in c) with Some q => set_in q c | None => c end.
Definition turn (i : nat) (e : BridgeEvent) (c : MintConn) (s : MintConnection) : MintConnection :=
  match e, phase c, f_state c with
  | SetupTurn _ now, AwaitsSetup, _ => setup_turn i c now s
  | SetupTimeout _, AwaitsSetup, _ => close_over i s
  | Subscribe _, (Serving | Stopping | Crashed), NotSubscribed => forwarder_subscribes i s
  | ForwardTurn _, (Serving | Stopping | Crashed), Forwarding => forward_turn i c s
  | ForwarderStops _, (Stopping | Crashed), Forwarding => on_mint i (set_forwarder ForwarderEnded) s
  | ProcessTurn _, Serving, _ => process_turn i c s
  | Finish _, Stopping, ForwarderEnded => finish i c s
  | _, _, _ => s
  end.
Definition bridge_step (s : MintConnection) (e : BridgeEvent) : MintConnection :=
  match e with
  | Share r ctx now => set_hub (send_quote_request r ctx now (hub s)).2 s
  | MintConnects id => accept id s
  | MintSends i f => on_mint i (feed f) s
  | MintLeaves i => on_mint i leave s
  | SetupTurn i _ | SetupTimeout i | Subscribe i | ForwardTurn i | ForwarderStops i | ProcessTurn i | Finish i =>
      match conns s !! i with Some c => turn i e c s | None => s end
  end.
Definition bridge_run : MintConnection → list BridgeEvent → MintConnection := foldl bridge_step.
End bridge.
Arguments mkMintConnection {_}.
Arguments hub {_}.
Arguments sender {_}.
Arguments is_connected {_}.
Arguments accepting {_}.
Arguments conns {_}.

(** ** The mint's side *)

Definition setup_value (m : SetupConnection.SetupConnection) : sv2_value :=
  VStruct [VPrim (DU8 (match SetupConnection.protocol m with
                       | SetupConnection.MiningProtocol => 0
                       | SetupConnection.JobDeclarationProtocol => 1
                       | SetupConnection.TemplateDistributionProtocol => 2
                       end));
           VPrim (DU16 (SetupConnection.min_version m)); VPrim (DU16 (SetupConnection.max_version m)); VPrim (DU32 (SetupConnection.flags m));
           VPrim (DB0255 (SetupConnection.endpoint_host m)); VPrim (DU16 (SetupConnection.endpoint_port m)); VPrim (DB0255 (SetupConnection.vendor m));
           VPrim (DB0255 (SetupConnection.hardware_version m)); VPrim (DB0255 (SetupConnection.firmware m)); VPrim (DB0255 (SetupConnection.device_id m))].
Inductive EstablishError : Type :=
  | NoPoolKey
  | NoiseFailed
  | BadTransition (from : ConnectionState)
  | BuildSetup (e : Error)
  | SetupToFrame (e : ParserError)
  | SendSetup
  | ReplyHandShake
  | ReplyPayload
  | ReplyType (message_type : Z)
  | ReplyParse (e : ParserError)
  | ReplyMessage
  | ReplyVersion (used_version : Z)
  | ReplyChannel
  | ReplyTimeout.
Definition MESSAGE_TYPE_SETUP_CONNECTION_SUCCESS : Z := 0x1.
(** What arrives within ten seconds of the setup. *)
Inductive Reply : Type := Arrives (f : Frame) | ChannelFails | TimesOut.
Definition check_reply (r : Reply) : result EstablishError unit :=
  match r with
  | ChannelFails => Err ReplyChannel
  | TimesOut => Err ReplyTimeout
  | Arrives (FrameHandShake _) => Err ReplyHandShake
  | Arrives (FrameSv2 frame) =>
      let message_type := msg_type (header frame) in
      payload ← map_err (λ _, ReplyPayload) (FrameOps.payload_bytes frame);
      if negb (message_type =? MESSAGE_TYPE_SETUP_CONNECTION_SUCCESS) then Err (ReplyType message_type)
      else
        message ← map_err ReplyParse (AnyMessage_try_from (message_type, payload));
        match message with
        | AnyCommon (mkMsg C_SetupConnectionSuccess (VStruct (VPrim (DU16 used_version) :: _))) =>
            if negb (used_version =? 2) then Err (ReplyVersion used_version) else Ok tt
        | _ => Err ReplyMessage
        end
  end.
(** [establish_sv2_connection]: whether the configured key is one, the noise
    handshake succeeds and the setup can be sent, and what arrives. *)
Definition establish_sv2_connection (key_ok noise_ok sends : bool) (r : Reply) : ST ConnectionStateMachine EstablishError unit :=
  if negb key_ok then throw NoPoolKey else
  if negb noise_ok then throw NoiseFailed else
  _ ← st_map_err BadTransition Machine.noise_handshake_complete;
  setup_connection ← lift (map_err BuildSetup (build_mint_setup_connection (text "127.0.0.1") 3333 (text "mint-01")));
  _ ← lift (map_err SetupToFrame (AnyMessage_try_into_frame (AnyCommon (mkMsg C_SetupConnection (setup_value setup_connection)))));
  if negb sends then throw SendSetup else
  _ ← lift (check_reply r);
  st_map_err BadTransition Machine.setup_connection_accepted.
(** An attempt of [connect_to_pool_sv2]: the machine at its end, whether frames were
    handled, and whether the mint waits before the next attempt.
    [handle_sv2_connection] never returns an error. *)
Definition connect_attempt (describe : EstablishError → bytes) (tcp key_ok noise_ok sends : bool) (r : Reply)
    : ConnectionStateMachine * bool * bool :=
  if negb tcp then (Machine.error (text "TCP connection failed") Machine.new, false, true) else
  match Machine.tcp_connected Machine.new with
  | (Ok _, m) =>
      match establish_sv2_connection key_ok noise_ok sends r m with
      | (Ok _, m) => (m, true, false)
      | (Err e, m) => (Machine.error (text "Establishment error: " ++ describe e) m, false, true)
      | (Panic, m) => (m, false, false)
      end
  | (_, m) => (m, false, false)
  end.
End Bridge.

(** ** The table of channels *)

Module ChannelTable.
Record ChannelInfo : Type := mkChannelInfo { id : Z; ch_role : Role; created_at : Z; last_activity : Z; message_count : Z }.
Inductive ChannelError : Type := NotFound (id : Z) | AlreadyExists (id : Z) | InvalidState.
Record ChannelManager : Type := mkChannelManager { next_channel_id : Z; active_channels : gmap Z ChannelInfo }.
Notation CM := (ST ChannelManager ChannelError).
Definition new : ChannelManager := mkChannelManager 1 ∅.
(** [fetch_add] wraps. *)
Definition create_channel (r : Role) (now : Z) : CM Z := λ m,
  let channel_id := next_channel_id m in
  (Ok channel_id, mkChannelManager (wrap 64 (channel_id + 1)) (<[channel_id := mkChannelInfo channel_id r now now 0]> (active_channels m))).
Definition close_channel (channel_id : Z) : CM unit := λ m,
  match active_channels m !! channel_id with
  | Some _ => (Ok tt, mkChannelManager (next_channel_id m) (delete channel_id (active_channels m)))
  | None => (Err (NotFound channel_id), m)
  end.
Definition update_activity (overflow_checks : bool) (channel_id now : Z) : CM unit := λ m,
  match active_channels m !! channel_id with
  | Some c =>
      match (if overflow_checks then add_chk (E := ChannelError) 64 (message_count c) 1 else Ok (wrap 64 (message_count c + 1))) with
      | Ok n => (Ok tt, mkChannelManager (next_channel_id m)
                   (<[channel_id := mkChannelInfo (id c) (ch_role c) (created_at c) now n]> (active_channels m)))
      | _ => (Panic, mkChannelManager (next_channel_id m)
                   (<[channel_id := mkChannelInfo (id c) (ch_role c) (created_at c) now (message_count c)]> (active_channels m)))
      end
  | None => (Err (NotFound channel_id), m)
  end.
Definition get_channel (channel_id : Z) (m : ChannelManager) : result ChannelError ChannelInfo :=
  match active_channels m !! channel_id with Some c => Ok c | None => Err (NotFound channel_id) end.
Definition get_all_channels (m : ChannelManager) : list ChannelInfo := (map_to_list (active_channels m)).*2.
(** Times are in milliseconds; [duration_since] is zero for a later instant. *)
Definition stale (now max_idle_secs : Z) (c : ChannelInfo) : bool := max_idle_secs * 1000 <? Z.max 0 (now - last_activity c).
Definition cleanup_stale_channels (max_idle_secs now : Z) (m : ChannelManager) : Z * ChannelManager :=
  let stale_channels := (List.filter (λ kv, stale now max_idle_secs kv.2) (map_to_list (active_channels m))).*1 in
  (zlen stale_channels, mkChannelManager (next_channel_id m) (foldl (λ t i, delete i t) (active_channels m) stale_channels)).
Record ChannelStats : Type := mkChannelStats { total_channels : Z; pool_channels : Z; mint_channels : Z; total_messages : Z }.
Definition count (r : Role) (m : ChannelManager) : Z := zlen (List.filter (λ c, bool_decide (ch_role c = r)) (get_all_channels m)).
(** The sum of the counts is taken not to overflow. *)
Definition get_stats (m : ChannelManager) : ChannelStats :=
  mkChannelStats (Z.of_nat (size (active_channels m))) (count Pool m) (count Mint m)
    (foldl (λ n c, n + message_count c) 0 (get_all_channels m)).
End ChannelTable.

(** ** What the forwarder sends *)

Import Link.
Import Bridge.

Definition slice {A} (a b : nat) (l : list A) : list A := drop a (take b l).
Arguments slice : simpl never.
Lemma slice_app {A} a b (l l' : list A) : (b ≤ length l)%nat → slice a b (l ++ l') = slice a b l.
Proof. intros Hb. unfold slice. by rewrite take_app_le. Qed.
Lemma slice_S {A} a b (l : list A) x : (a ≤ b)%nat → l !! b = Some x → slice a (S b) l = slice a b l ++ [x].
Proof.
  intros Hab Hx. unfold slice. rewrite (take_S_r _ _ _ Hx), drop_app_le; [done|].
  apply lookup_lt_Some in Hx. rewrite length_take. lia.
Qed.
Lemma slice_empty {A} a (l : list A) : slice a a l = [].
Proof. unfold slice. apply drop_ge. rewrite length_take. lia. Qed.
Lemma alter_at {A} (f : A → A) (l : list A) (i : nat) x : l !! i = Some x → alter f i l = <[i := f x]> l.
Proof.
  intros Hx. pose proof (lookup_lt_Some _ _ _ Hx). apply list_eq. intros j. destruct (decide (j = i)) as [->|Hj].
  - by rewrite list_lookup_alter_eq, Hx, list_lookup_insert_eq.
  - by rewrite list_lookup_alter_ne, list_lookup_insert_ne by done.
Qed.
Lemma alter_insert {A} (f : A → A) (l : list A) (i : nat) x y : l !! i = Some y → alter f i (<[i := x]> l) = <[i := f x]> l.
Proof.
  intros Hy. pose proof (lookup_lt_Some _ _ _ Hy). rewrite (alter_at f (<[i := x]> l) i x) by (by apply list_lookup_insert_eq).
  by rewrite list_insert_insert_eq.
Qed.

Section forwarding.
Context `{BroadcastLaws} (overflow_checks : bool) (keeps : nat).

(** The frame of a request. *)
Definition quote_frame_of (r : ParsedMintQuoteRequest) : option Framing.Frame :=
  match send_quote_request_to_mint overflow_checks true r with Ok f => Some f | _ => None end.
Lemma quote_frame_ok r : request_ok (request r) → is_Some (quote_frame_of r).
Proof.
  intros Hr. unfold quote_frame_of, send_quote_request_to_mint. cbn [negb]. rewrite request_frame by done. cbn [map_err mbind result_bind].
  destruct (quote_frame_spec _ MESSAGE_TYPE_MINT_QUOTE_REQUEST (request_payload_fits _ Hr)) as [Hf _]; [done|]. rewrite Hf. by eexists.
Qed.

(** The sender of the connection is stored and the hub knows of it: from its setup
    until [perform_handshake] has finished, which it never does after a panic.  A
    connection that is registered is not always served. *)
Definition registered (c : MintConn) : bool := match phase c with Serving | Stopping | Crashed => true | _ => false end.
Record conn_ok (reqs : list ParsedMintQuoteRequest) (snd : option nat) (acc : bool) (n i : nat) (c : MintConn) : Prop := mkConnOk {
  k_pos : (f_from c ≤ f_pos c)%nat ∧ (f_pos c ≤ length reqs)%nat;
  k_sent : c_sent c `sublist_of` slice (f_from c) (f_pos c) reqs;
  k_all : q_open (c_out c) = true → Forall (λ r, request_ok (request r)) reqs → c_sent c = slice (f_from c) (f_pos c) reqs;
  k_out : q_log (c_out c) = [] ∧ c_sent c = [] ∨ ∃ f, setup_success = Ok f ∧ q_log (c_out c) = f :: omap quote_frame_of (c_sent c);
  k_await : phase c = AwaitsSetup → q_log (c_out c) = [] ∧ f_state c = NotSubscribed;
  k_registered : registered c = true → q_log (c_out c) ≠ [];
  k_live : phase c ≠ Over → S i = n ∧ acc = false;
  k_sender : registered c = true ↔ snd = Some i;
  k_none : f_state c = NotSubscribed → c_sent c = [] }.
Record bridge_ok (s : MintConnection) : Prop := mkBridgeOk {
  b_hub : 1 ≤ receiver_count (quote_request_tx (hub s));
  b_conns : ∀ i c, conns s !! i = Some c → conn_ok (requests (hub s)) (sender s) (accepting s) (length (conns s)) i c;
  b_order : ∀ i j ci cj, (i < j)%nat → conns s !! i = Some ci → conns s !! j = Some cj → f_state cj ≠ NotSubscribed → (f_pos ci ≤ f_from cj)%nat;
  b_sender : ∀ i, sender s = Some i → ∃ c, conns s !! i = Some c ∧ registered c = true;
  b_connected : is_connected s = true ↔ is_Some (sender s) }.

(** A turn of the connection that is not over. *)
Lemma mc_turn s s' i c c' :
  bridge_ok s → conns s !! i = Some c → phase c ≠ Over → conns s' = <[i := c']> (conns s) →
  requests (hub s') = requests (hub s) → 1 ≤ receiver_count (quote_request_tx (hub s')) →
  sender s' = sender s ∨ sender s' = Some i ∨ sender s' = None → (is_connected s' = true ↔ is_Some (sender s')) →
  conn_ok (requests (hub s)) (sender s') (accepting s') (length (conns s)) i c' →
  f_state c' = NotSubscribed ∨ f_from c' = f_from c ∧ f_state c ≠ NotSubscribed ∨ f_from c' = length (requests (hub s)) → bridge_ok s'.
Proof.
  intros [Hh Hc Ho Hs Hi] Ei Hl Ec Er Hr Hsn Hco Hk Hf. pose proof (lookup_lt_Some _ _ _ Ei) as Hlt.
  destruct (k_live _ _ _ _ _ _ (Hc i c Ei) Hl) as [Hn Hacc].
  assert (Hlook : ∀ j d, conns s' !! j = Some d → j = i ∧ d = c' ∨ (j < i)%nat ∧ conns s !! j = Some d ∧ phase d = Over).
  { intros j d. rewrite Ec. intros Hj. destruct (decide (j = i)) as [->|Hne].
    - rewrite list_lookup_insert_eq in Hj by done. left. by injection Hj as <-.
    - rewrite list_lookup_insert_ne in Hj by done. right. pose proof (lookup_lt_Some _ _ _ Hj).
      split_and!; [lia|done|]. destruct (decide (phase d = Over)) as [|Hd]; [done|].
      destruct (k_live _ _ _ _ _ _ (Hc j d Hj) Hd). lia. }
  split; try done.
  - intros j d [[-> ->]|(Hj & Ej & Hd)]%Hlook; [by rewrite Er, Ec, length_insert|].
    rewrite Er, Ec, length_insert. destruct (Hc j d Ej) as [K1 K2 K3 K4 K5 K6 K7 K8 K9].
    assert (Hrn : registered d = false) by (unfold registered; by rewrite Hd).
    split; try done. rewrite Hrn. split; [done|]. intros Hsj. rewrite Hrn in K8. apply K8.
    destruct Hsn as [<- |[Hsn|Hsn]]; [done|rewrite Hsn in Hsj; injection Hsj; lia|congruence].
  - intros j k cj ck Hjk Hj Hck Hst. apply Hlook in Hck as [[-> ->]|(Hki & Ek & _)].
    + apply Hlook in Hj as [[-> ->]|(Hj & Ej & _)]; [lia|]. destruct (Hc j cj Ej) as [[K1 K1'] _ _ _ _ _ _ _ _].
      destruct Hf as [Hf|[[-> Hf]| ->]]; [done|by apply (Ho j i cj c)|done].
    + apply Hlook in Hj as [[-> ->]|(Hj & Ej & _)]; [lia|]. by apply (Ho j k cj ck).
  - intros j Hj. destruct Hk as [_ _ _ _ _ _ _ Hk _]. destruct (decide (j = i)) as [->|Hne].
    + exists c'. rewrite Ec, list_lookup_insert_eq by done. split; [done|]. by apply Hk.
    + destruct Hsn as [Hsn|[Hsn|Hsn]]; [|congruence..]. rewrite Hsn in Hj. destruct (Hs j Hj) as (d & Ed & Hd).
      destruct (decide (phase d = Over)) as [Ho'|Ho']; [unfold registered in Hd; by rewrite Ho' in Hd|].
      destruct (k_live _ _ _ _ _ _ (Hc j d Ed) Ho'). lia.
Qed.
(** What the network does to a connection. *)
Definition carried (c c' : MintConn) : Prop :=
  phase c' = phase c ∧ f_state c' = f_state c ∧ f_from c' = f_from c ∧ f_pos c' = f_pos c ∧ c_sent c' = c_sent c ∧
  q_log (c_out c') = q_log (c_out c) ∧ (q_open (c_out c') = true → q_open (c_out c) = true).
Lemma carried_ok reqs snd acc n i c c' : carried c c' → conn_ok reqs snd acc n i c → conn_ok reqs snd acc n i c'.
Proof.
  intros (E1 & E2 & E3 & E4 & E5 & E6 & E7) [K1 K2 K3 K4 K5 K6 K7 K8 K9]. unfold registered in *.
  split; rewrite ?E1, ?E2, ?E3, ?E4, ?E5, ?E6; unfold registered; rewrite ?E1; auto.
Qed.
Lemma mc_net s i f : bridge_ok s → (∀ c, carried c (f c)) → bridge_ok (on_mint i f s).
Proof.
  intros [Hh Hc Ho Hs Hi] Hf.
  assert (Hlook : ∀ j d, conns (on_mint i f s) !! j = Some d → ∃ d0, conns s !! j = Some d0 ∧ carried d0 d).
  { intros j d. cbn. destruct (decide (j = i)) as [->|Hne].
    - rewrite list_lookup_alter_eq. destruct (conns s !! i) as [d0|]; [|done]. cbn. intros [= <-]. by exists d0.
    - rewrite list_lookup_alter_ne by done. intros Hd. exists d. by split_and!. }
  split; try done.
  - intros j d (d0 & Ed & Hd)%Hlook. cbn [hub sender accepting conns on_mint]. rewrite length_alter. by apply (carried_ok _ _ _ _ _ d0), Hc.
  - intros j k cj ck Hjk (dj & Ej & Hj)%Hlook (dk & Ek & Hk)%Hlook.
    destruct Hj as (_ & _ & _ & -> & _), Hk as (_ & -> & -> & _). by apply (Ho j k dj dk).
  - intros j Hj. destruct (Hs j Hj) as (d & Ed & Hd). cbn. destruct (decide (j = i)) as [->|Hne].
    + exists (f d). rewrite list_lookup_alter_eq, Ed. split; [done|]. unfold registered in *. by rewrite (proj1 (Hf d)).
    + exists d. by rewrite list_lookup_alter_ne.
Qed.
Lemma carried_feed f c : carried c (feed f c).
Proof. unfold feed. by destruct (q_send _ _). Qed.
Lemma carried_leave c : carried c (leave c).
Proof. by split_and!. Qed.

(** The hub. *)
Lemma process_frame_requests f h : quote_request_tx (process_mint_frame f h).2 = quote_request_tx h.
Proof.
  destruct f as [hf|f]; [done|]. unfold process_mint_frame. destruct (map_err BadPayload _) as [p|e|]; try done. rewrite st_lift_bind.
  destruct (_ =? _).
  - destruct (decode_mint_quote_response p) as [r|e|]; try done. rewrite st_lift_bind.
    unfold send_quote_response, send_on, take_pending, st_map_err, lift, mbind, ST_bind. cbn.
    destruct (map_err Decoding _) as [k|e|]; try done. cbn. by destruct (chan_send _ _).
  - destruct (_ =? _); [|done]. destruct (decode_mint_quote_error p) as [r|e|]; try done. rewrite st_lift_bind.
    unfold send_quote_error, send_on, st_map_err. by destruct (chan_send _ _).
Qed.
Lemma share_requests r ctx now h :
  1 ≤ receiver_count (quote_request_tx h) →
  let h' := (send_quote_request r ctx now h).2 in
  requests h' = requests h ++ [r] ∧ 1 ≤ receiver_count (quote_request_tx h').
Proof.
  intros Hr. unfold send_quote_request, track_request. rewrite st_modify_bind.
  destruct (send_on_ok quote_request_tx set_request_tx "quote_request" r
    (set_pending (<[share_hash r := mkPendingQuote r now ctx]> (pending_quotes h)) h)) as (ch & E & Hc & Hs); [done|].
  rewrite E. cbn. unfold requests. cbn. rewrite Hs, Hc. done.
Qed.
Lemma mc_share s r ctx now : bridge_ok s → bridge_ok (set_hub (send_quote_request r ctx now (hub s)).2 s).
Proof.
  intros [Hh Hc Ho Hs Hi]. destruct (share_requests r ctx now _ Hh) as [Er Hr]. split; try done.
  intros i c Hci. cbn [hub sender accepting conns set_hub]. rewrite Er. destruct (Hc i c Hci) as [[K1 K1'] K2 K3 K4 K5 K6 K7 K8 K9].
  split; try done; [rewrite length_app; lia|by rewrite slice_app|]. intros Hop Hall. rewrite slice_app by done.
  apply K3; [done|]. by apply Forall_app in Hall as [? _].
Qed.
Lemma mc_accept s id : bridge_ok s → bridge_ok (accept id s).
Proof.
  intros Hok. unfold accept. destruct (accepting s) eqn:Ha; [|done]. pose proof Hok as [Hh Hc Ho Hs Hi].
  assert (Hover : ∀ j d, conns s !! j = Some d → phase d = Over).
  { intros j d Hd. destruct (decide (phase d = Over)) as [|Hn]; [done|]. destruct (k_live _ _ _ _ _ _ (Hc j d Hd) Hn). congruence. }
  assert (Hnone : sender s = None).
  { destruct (sender s) as [j|] eqn:E; [|done]. destruct (Hs j eq_refl) as (d & Hd & Hr). unfold registered in Hr. by rewrite (Hover j d Hd) in Hr. }
  assert (Hlook : ∀ j d, (conns s ++ [new_conn id]) !! j = Some d → conns s !! j = Some d ∧ phase d = Over ∨ j = length (conns s) ∧ d = new_conn id).
  { intros j d [Hd|[Hl Hd]]%lookup_app_Some; [left; split; [done|by eapply Hover]|]. right. apply list_lookup_singleton_Some in Hd as [Hd <-]. split; [lia|done]. }
  split; try done; cbn [hub sender accepting conns is_connected].
  - intros j d [[Hd Hov]|[-> ->]]%Hlook.
    + destruct (Hc j d Hd) as [K1 K2 K3 K4 K5 K6 K7 K8 K9]. by split.
    + rewrite Hnone, length_app. cbn. split; try done; [split; cbn; lia|by left|cbn; lia].
  - intros j k cj ck Hjk [[Hj _]|[-> ->]]%Hlook [[Hk _]|[-> ->]]%Hlook Hst; [by apply (Ho j k cj ck)|done|apply lookup_lt_Some in Hk; lia|done].
  - by rewrite Hnone.
Qed.
Lemma mc_hub s h : bridge_ok s → quote_request_tx h = quote_request_tx (hub s) → bridge_ok (set_hub h s).
Proof. intros [Hh Hc Ho Hs Hi] Eh. split; try done; cbn [hub set_hub]; unfold requests in *; by rewrite Eh. Qed.
(** Turns that change neither the hub's requests nor the sender. *)
Lemma mc_on s i f c :
  bridge_ok s → conns s !! i = Some c → phase c ≠ Over →
  conn_ok (requests (hub s)) (sender s) (accepting s) (length (conns s)) i (f c) → f_from (f c) = f_from c →
  f_state (f c) = NotSubscribed ∨ f_state c ≠ NotSubscribed → bridge_ok (on_mint i f s).
Proof.
  intros Hok Ei Hl Hk Hf Hst. pose proof Hok as [Hh Hc Ho Hs Hi].
  apply (mc_turn s _ i c (f c) Hok Ei Hl); try done; [cbn; by apply alter_at|by left|]. destruct Hst as [?|?]; [by left|right; by left].
Qed.
Lemma mc_phase s i c p :
  bridge_ok s → conns s !! i = Some c → registered c = true → p = Stopping ∨ p = Crashed → bridge_ok (on_mint i (set_phase p) s).
Proof.
  intros Hok Ei Hr Hp. assert (Hl : phase c ≠ Over) by (unfold registered in Hr; by destruct (phase c)).
  destruct (b_conns s Hok i c Ei) as [K1 K2 K3 K4 K5 K6 K7 K8 K9].
  assert (Hr' : registered (set_phase p c) = true) by (unfold registered; by destruct Hp as [-> | ->]).
  apply (mc_on s i _ c Hok Ei Hl); [|done|cbn; destruct (f_state c); [by left|by right..]].
  split; try done; [cbn; by destruct Hp as [-> | ->]|intros _; by apply K6|intros _; by apply K7|]. rewrite Hr'. by rewrite Hr in K8.
Qed.
Lemma mc_forwarder_ends s i c :
  bridge_ok s → conns s !! i = Some c → registered c = true → f_state c ≠ NotSubscribed → bridge_ok (on_mint i (set_forwarder ForwarderEnded) s).
Proof.
  intros Hok Ei Hr Hst. assert (Hl : phase c ≠ Over) by (unfold registered in Hr; by destruct (phase c)).
  destruct (b_conns s Hok i c Ei) as [K1 K2 K3 K4 K5 K6 K7 K8 K9]. apply (mc_on s i _ c Hok Ei Hl); [|done|by right].
  split; try done. cbn. intros Ha. by rewrite (proj2 (K5 Ha)) in Hst.
Qed.
Lemma mc_close s i c : bridge_ok s → conns s !! i = Some c → phase c = AwaitsSetup → bridge_ok (close_over i s).
Proof.
  intros Hok Ei Hp. pose proof Hok as [Hh Hc Ho Hs Hi]. destruct (Hc i c Ei) as [K1 K2 K3 K4 K5 K6 K7 K8 K9].
  assert (Hr : registered c = false) by (unfold registered; by rewrite Hp). rewrite Hr in K8.
  apply (mc_turn s _ i c (set_phase Over c) Hok Ei); try done; [by rewrite Hp|cbn; by apply alter_at|by left|left; by apply K5].
Qed.
Lemma mc_finish s i c : bridge_ok s → conns s !! i = Some c → phase c = Stopping → bridge_ok (finish i c s).
Proof.
  intros Hok Ei Hp. pose proof Hok as [Hh Hc Ho Hs Hi]. destruct (Hc i c Ei) as [K1 K2 K3 K4 K5 K6 K7 K8 K9].
  apply (mc_turn s _ i c (set_phase Over c) Hok Ei); try done;
    [by rewrite Hp|cbn; by apply alter_at|by right; right|cbn; by split; [|intros []]|].
  destruct (f_state c) eqn:Ef; [by left|right; left; by rewrite ?Ef..].
Qed.
Lemma mc_setup s i c now : bridge_ok s → conns s !! i = Some c → phase c = AwaitsSetup → bridge_ok (setup_turn i c now s).
Proof.
  intros Hok Ei Hp. unfold setup_turn. destruct (q_recv (c_in c)) as [f q| |]; [|by eapply mc_close|done].
  assert (Hok' : bridge_ok (on_mint i (set_in q) s)) by (apply mc_net; [done|by intros]).
  assert (Ei' : conns (on_mint i (set_in q) s) !! i = Some (set_in q c)) by (cbn; by rewrite list_lookup_alter_eq, Ei).
  destruct setup_success as [g|e|] eqn:Eg; [|by eapply mc_close..]. destruct (q_send g (c_out c)) as [out|] eqn:Eo; [|by eapply mc_close].
  apply send_sent in Eo as [Hopen ->]. destruct (b_conns _ Hok' i _ Ei') as [K1 K2 K3 K4 K5 K6 K7 K8 K9]. cbn in K4, K5.
  destruct (K5 Hp) as [Hnil Hst].
  assert (Hsent : c_sent c = []) by (destruct K4 as [[_ ?]|(? & _ & ?)]; [done|congruence]).
  set (c' := set_phase Serving (set_out (mkQueue (q_log (c_out c) ++ [g]) (q_taken (c_out c)) true) (set_in q c))).
  assert (Hl : phase (set_in q c) ≠ Over) by (cbn; by rewrite Hp).
  apply (mc_turn _ _ i _ c' Hok' Ei' Hl); try done; [cbn [conns]; exact (alter_at _ _ _ _ Ei')|apply Hok'|by right; left| |by left].
  split; try done.
  - intros _. by apply K3.
  - right. exists g. cbn. by rewrite Hnil, Hsent.
  - cbn. by rewrite Hnil.
  - intros _. by apply K7.
Qed.
Lemma mc_subscribe s i c : bridge_ok s → conns s !! i = Some c → registered c = true → f_state c = NotSubscribed → bridge_ok (forwarder_subscribes i s).
Proof.
  intros Hok Ei Hr Hst. assert (Hl : phase c ≠ Over) by (unfold registered in Hr; by destruct (phase c)).
  pose proof Hok as [Hh Hc Ho Hs Hi]. destruct (Hc i c Ei) as [K1 K2 K3 K4 K5 K6 K7 K8 K9]. pose proof (K9 Hst) as Hsent.
  unfold forwarder_subscribes. set (n := length (requests (hub s))).
  apply (mc_turn s _ i c (subscribed n c) Hok Ei Hl); try done.
  - cbn. by apply alter_at.
  - unfold requests. cbn. by rewrite sent_subscribe.
  - cbn. rewrite count_subscribe. lia.
  - by left.
  - split; try done; cbn.
    + by rewrite slice_empty, Hsent.
    + by rewrite slice_empty.
    + intros Ha. unfold registered in Hr. by rewrite Ha in Hr.
  - by right; right.
Qed.
Lemma mc_forward s i c :
  bridge_ok s → conns s !! i = Some c → registered c = true → f_state c ≠ NotSubscribed → bridge_ok (forward_turn overflow_checks keeps i c s).
Proof.
  intros Hok Ei Hr Hst. assert (Hl : phase c ≠ Over) by (unfold registered in Hr; by destruct (phase c)).
  pose proof Hok as [Hh Hc Ho Hs Hi]. destruct (Hc i c Ei) as [[K1 K1'] K2 K3 K4 K5 K6 K7 K8 K9]. unfold forward_turn.
  destruct (requests (hub s) !! f_pos c) as [r|] eqn:Er; [|done].
  destruct (keeps <? _)%nat; [by apply (mc_forwarder_ends s i c)|].
  pose proof (lookup_lt_Some _ _ _ Er) as Hlt. assert (Hsl := slice_S _ _ _ _ K1 Er).
  assert (Hsend : sender s = Some i) by (by apply K8).
  assert (Hskip : (quote_frame_of r = None ∨ q_open (c_out c) = false) → bridge_ok (on_mint i (set_pos (S (f_pos c))) s)).
  { intros Hno. apply (mc_on s i _ c Hok Ei Hl); [|done|by right]. split; try done; cbn.
    - lia.
    - rewrite Hsl. by apply sublist_inserts_r.
    - intros Hopen Hall. destruct Hno as [Hno|Hno]; [|congruence]. exfalso.
      destruct (quote_frame_ok r (Forall_lookup_1 _ _ _ _ Hall Er)) as [? ?]. congruence. }
  unfold forward. cbn [sender on_mint conns]. rewrite Hsend, list_lookup_alter_eq, Ei. cbn [fmap option_fmap option_map].
  unfold quote_frame_of in Hskip. destruct (send_quote_request_to_mint overflow_checks true r) as [f|e|] eqn:Ef.
  - cbn [c_out set_pos]. destruct (q_send f (c_out c)) as [q|] eqn:Eq; [|apply Hskip; right; unfold q_send in Eq; by destruct (q_open (c_out c))].
    apply send_sent in Eq as [Hopen ->]. set (c' := log_sent r (set_out (mkQueue (q_log (c_out c) ++ [f]) (q_taken (c_out c)) true) (set_pos (S (f_pos c)) c))).
    apply (mc_turn s _ i c c' Hok Ei Hl); try done.
    + cbn. rewrite (alter_at _ _ _ _ Ei), !(alter_insert _ _ _ _ _ Ei). done.
    + by left.
    + destruct K4 as [[Hn _]|(g & Eg & Hg)]; [by destruct (K6 Hr)|]. split; try done; cbn.
      * lia.
      * rewrite Hsl. by apply sublist_app.
      * intros _ Hall. by rewrite Hsl, K3.
      * right. exists g. split; [done|]. assert (Hqf : quote_frame_of r = Some f) by (unfold quote_frame_of; by rewrite Ef).
        rewrite Hg, omap_app. cbn. by rewrite Hqf.
      * intros Ha. unfold registered in Hr. by rewrite Ha in Hr.
      * intros _. by destruct (q_log (c_out c)).
    + right; by left.
  - by apply Hskip; left.
  - apply (mc_forwarder_ends _ i (set_pos (S (f_pos c)) c)); try done; [by apply Hskip; left|]. cbn. by rewrite list_lookup_alter_eq, Ei.
Qed.
Lemma mc_process s i c : bridge_ok s → conns s !! i = Some c → phase c = Serving → bridge_ok (process_turn i c s).
Proof.
  intros Hok Ei Hp. assert (Hr : registered c = true) by (unfold registered; by rewrite Hp). unfold process_turn.
  destruct (q_recv (c_in c)) as [f q| |]; [|by apply (mc_phase s i c); auto|done].
  assert (Hok' : bridge_ok (on_mint i (set_in q) s)) by (apply mc_net; [done|by intros]).
  pose proof (process_frame_requests f (hub s)) as Hreq. cbn [hub on_mint].
  destruct (process_mint_frame f (hub s)) as [[u|e|] h]; cbn in Hreq; [by apply mc_hub|..];
    (apply (mc_phase _ i (set_in q c)); [by apply mc_hub|cbn; by rewrite list_lookup_alter_eq, Ei|done|auto]).
Qed.
Lemma mc_step s e : bridge_ok s → bridge_ok (bridge_step overflow_checks keeps s e).
Proof.
  intros Hok. destruct e as [r ctx now|id|i f|i|i now|i|i|i|i|i|i]; cbn [bridge_step];
    [by apply mc_share|by apply mc_accept|by apply mc_net; [|apply carried_feed]|by apply mc_net; [|apply carried_leave]|..];
    destruct (conns s !! i) as [c|] eqn:Ei; try done; cbn [turn]; destruct (phase c) eqn:Hp; try done;
    try (assert (Hr : registered c = true) by (unfold registered; by rewrite Hp)).
  all: try by apply mc_setup.
  all: try by apply (mc_close s i c).
  all: try by apply mc_process.
  all: destruct (f_state c) eqn:Hst; try done.
  all: try (apply (mc_forwarder_ends s i c); try done; by rewrite Hst).
  all: try (apply mc_forward; try done; by rewrite Hst).
  all: try by apply mc_finish.
  all: apply (mc_subscribe s i c); try done; by apply (k_none _ _ _ _ _ _ (b_conns s Hok i c Ei)).
Qed.
Lemma mc_run cfg es : 0 < broadcast_buffer_size cfg → bridge_ok (bridge_run overflow_checks keeps (with_keys (Hub_new cfg)) es).
Proof.
  intros Hcfg. assert (Hok : bridge_ok (with_keys (Hub_new cfg))).
  { split; try done; [cbn; by rewrite count_new|split; [done|by intros []]]. }
  unfold bridge_run. revert Hok. generalize (with_keys (Hub_new cfg)). induction es as [|e es IH]; intros s Hok; [done|]. cbn [foldl]. by apply IH, mc_step.
Qed.

(** A forwarder that ended stays so. *)
Definition ended_at (i : nat) (c0 : MintConn) (s : MintConnection) : Prop :=
  ∃ c, conns s !! i = Some c ∧ f_state c = ForwarderEnded ∧ c_sent c = c_sent c0 ∧ f_pos c = f_pos c0.
Definition keeps_forwarder (f : MintConn → MintConn) : Prop :=
  ∀ c, f_state (f c) = f_state c ∧ c_sent (f c) = c_sent c ∧ f_pos (f c) = f_pos c.
Lemma ended_on i c0 k f s s' : ended_at i c0 s → conns s' = alter f k (conns s) → k ≠ i ∨ keeps_forwarder f → ended_at i c0 s'.
Proof.
  intros (c & Hc & Hst & Hse & Hpo) Es Hf. unfold ended_at. rewrite Es. destruct (decide (k = i)) as [->|Hne].
  - destruct Hf as [?|Hf]; [done|]. exists (f c). destruct (Hf c) as (-> & -> & ->). by rewrite list_lookup_alter_eq, Hc.
  - exists c. by rewrite list_lookup_alter_ne.
Qed.
Lemma keeps_feed f : keeps_forwarder (feed f).
Proof. intros c. unfold feed. by destruct (q_send _ _). Qed.
Lemma ended_forward i c0 k c s : ended_at i c0 s → k ≠ i → ended_at i c0 (forward_turn overflow_checks keeps k c s).
Proof.
  intros He Hk. unfold forward_turn. destruct (requests (hub s) !! f_pos c) as [r|]; [|done].
  destruct (keeps <? _)%nat; [by eapply ended_on; [exact He|done|left]|].
  assert (He' : ended_at i c0 (on_mint k (set_pos (S (f_pos c))) s)) by (by eapply ended_on; [exact He|done|left]).
  unfold forward. destruct (sender _) as [j|]; [|by eapply ended_on; [exact He'|done|left]].
  destruct (send_quote_request_to_mint _ _ _) as [f|e|]; [|done|by eapply ended_on; [exact He'|done|left]].
  destruct (conns _ !! j) as [d|]; [|done]. destruct (q_send _ _) as [q|]; [|done].
  eapply (ended_on _ _ k); [|done|by left]. by eapply (ended_on _ _ j); [exact He'|done|by right].
Qed.
Lemma ended_step i c0 s e : ended_at i c0 s → ended_at i c0 (bridge_step overflow_checks keeps s e).
Proof.
  intros He. pose proof He as (ci & Hci & Hst & _).
  assert (Hgo : ∀ k f s', conns s' = alter f k (conns s) → k ≠ i ∨ keeps_forwarder f → ended_at i c0 s') by (intros; by eapply ended_on).
  destruct e as [r ctx now|id|k f|k|k now|k|k|k|k|k|k]; cbn [bridge_step];
    [exact He| |by eapply Hgo; [|right; apply keeps_feed]|by eapply Hgo; [|right]|..].
  { unfold accept. destruct (accepting s); [|done]. destruct He as (c & Hc & Hx). exists c. split; [|done]. cbn. by apply lookup_app_l_Some. }
  all: destruct (conns s !! k) as [c|] eqn:Ek; [|done]; cbn [turn]; destruct (phase c); try done.
  1: { unfold setup_turn. destruct (q_recv _) as [f q| |]; [|by eapply Hgo; [|right]|done].
    assert (He' : ended_at i c0 (on_mint k (set_in q) s)) by (by eapply Hgo; [|right]).
    destruct setup_success as [g|e|]; [destruct (q_send g _)|..]; by eapply ended_on; [exact He'|done|right]. }
  1: by eapply Hgo; [|right].
  all: try (destruct (decide (k = i)) as [->|Hne]; [replace c with ci by congruence; by rewrite Hst|]; destruct (f_state c); try done;
    first [by apply ended_forward|by eapply Hgo; [|left]]).
  - unfold process_turn. destruct (q_recv _) as [f q| |]; [|by eapply Hgo; [|right]|done].
    assert (He' : ended_at i c0 (on_mint k (set_in q) s)) by (by eapply Hgo; [|right]).
    destruct (process_mint_frame f _) as [[u|e|] h]; [exact He'|..]; by eapply ended_on; [exact He'|done|right].
  - destruct (f_state c); try done. by eapply Hgo; [|right].
Qed.
End forwarding.

(** C32: Between pool and mint every quote request goes to at most one connection, in
    order.  In every interleaving of shares, tasks, mints that connect and leave,
    over any number of connections: what a connection is given behind the answer to
    its setup are the frames of requests its forwarder took from the broadcast
    channel, which are consecutive in the hub, and all those it took while the
    connection is open and the requests can be encoded; a later connection starts
    behind what earlier ones took; and the pool counts as connected exactly while its
    last connection is served, is being shut down, or is left behind by a panic of the
    task that served it, and then the forwarder uses the sender of that connection. *)
Theorem bridge_forwards `{BroadcastLaws} (overflow_checks : bool) (keeps : nat) (cfg : MessagingConfig) (es : list BridgeEvent) :
  0 < broadcast_buffer_size cfg →
  let s := bridge_run overflow_checks keeps (with_keys (Hub_new cfg)) es in
  let reqs := requests (hub s) in
  (∀ i c, conns s !! i = Some c →
     c_sent c `sublist_of` slice (f_from c) (f_pos c) reqs ∧
     (q_open (c_out c) = true → Forall (λ r, request_ok (request r)) reqs → c_sent c = slice (f_from c) (f_pos c) reqs) ∧
     (q_log (c_out c) = [] ∧ c_sent c = [] ∨
      ∃ f, setup_success = Ok f ∧ q_log (c_out c) = f :: omap (quote_frame_of overflow_checks) (c_sent c))) ∧
  (∀ i j ci cj, (i < j)%nat → conns s !! i = Some ci → conns s !! j = Some cj → f_state cj ≠ NotSubscribed → (f_pos ci ≤ f_from cj)%nat) ∧
  (is_connected s = true ↔ ∃ i c, sender s = Some i ∧ conns s !! i = Some c ∧ S i = length (conns s) ∧
     (phase c = Serving ∨ phase c = Stopping ∨ phase c = Crashed)).
Proof.
  intros Hcfg s reqs. pose proof (mc_run overflow_checks keeps cfg es Hcfg) as [Hh Hc Ho Hs Hi]. fold s in Hh, Hc, Ho, Hs, Hi. split_and!.
  - intros i c Hci. destruct (Hc i c Hci). done.
  - done.
  - rewrite Hi. split; [|intros (i & c & -> & _); by eexists].
    intros [i Hsi]. destruct (Hs i Hsi) as (c & Hci & Hr). exists i, c. split_and!; try done.
    + apply (k_live _ _ _ _ _ _ _ (Hc i c Hci)). unfold registered in Hr. by destruct (phase c).
    + unfold registered in Hr. destruct (phase c); auto; done.
Qed.

(** The forwarder falls behind by more requests than the broadcast channel keeps: it
    ends, while the connection goes on and the pool counts as connected; whatever
    happens after that, no further request is sent on it. *)
Theorem lag_ends_forwarding `{BroadcastLaws} (overflow_checks : bool) (keeps : nat) (s : MintConnection) (i : nat) (c : MintConn) (es : list BridgeEvent) :
  conns s !! i = Some c → phase c = Serving → f_state c = Forwarding → (keeps < length (requests (hub s)) - f_pos c)%nat →
  let s1 := bridge_step overflow_checks keeps s (ForwardTurn i) in
  is_connected s1 = is_connected s ∧ sender s1 = sender s ∧ conns s1 !! i = Some (set_forwarder ForwarderEnded c) ∧
  ∃ c', conns (bridge_run overflow_checks keeps s1 es) !! i = Some c' ∧ c_sent c' = c_sent c ∧ f_pos c' = f_pos c.
Proof.
  intros Hci Hp Hst Hlag s1. assert (E1 : s1 = on_mint i (set_forwarder ForwarderEnded) s).
  { unfold s1. cbn [bridge_step]. rewrite Hci. cbn [turn]. rewrite Hp, Hst. unfold forward_turn.
    destruct (requests (hub s) !! f_pos c) eqn:Er; [|apply lookup_ge_None in Er; lia]. by rewrite (proj2 (Nat.ltb_lt _ _) Hlag). }
  assert (Hc1 : conns s1 !! i = Some (set_forwarder ForwarderEnded c)) by (rewrite E1; cbn; by rewrite list_lookup_alter_eq, Hci).
  rewrite E1 at 1 2. split_and!; try done.
  assert (He : ended_at i c s1) by (by eexists). clearbody s1. clear -He. unfold bridge_run. revert s1 He.
  induction es as [|e es IH]; intros s1 He; [destruct He as (c' & ? & _ & ? & ?); by exists c'|]. cbn [foldl]. by apply IH, ended_step.
Qed.

(** ** Setup *)

Lemma mint_setup_sent :
  ∃ m f, build_mint_setup_connection (text "127.0.0.1") 3333 (text "mint-01") = Ok m ∧
    AnyMessage_try_into_frame (AnyCommon (mkMsg C_SetupConnection (setup_value m))) = Ok f.
Proof. do 2 eexists. split; [vm_compute; reflexivity|]. vm_compute. reflexivity. Qed.
Lemma setup_success_accepted overflow_checks :
  ∃ f wire f', setup_success = Ok (FrameSv2 f) ∧ FrameOps.serialize overflow_checks f (replicate 12 Byte.x00) = (Ok tt, wire) ∧
    FrameOps.from_bytes wire = Ok f' ∧ check_reply (Arrives (FrameSv2 f')) = Ok tt.
Proof. destruct overflow_checks; do 3 eexists; do 3 (split; [vm_compute; reflexivity|]); vm_compute; reflexivity. Qed.
(** An attempt of the mint is ready exactly when every step of it succeeds; it
    accepts the answer the pool gives to any first frame. *)
Theorem attempt_ready overflow_checks describe tcp key_ok noise_ok sends r :
  (current_state (connect_attempt describe tcp key_ok noise_ok sends r).1.1 = Ready ↔
     tcp = true ∧ key_ok = true ∧ noise_ok = true ∧ sends = true ∧ check_reply r = Ok tt) ∧
  (∃ f wire f', setup_success = Ok (FrameSv2 f) ∧ FrameOps.serialize overflow_checks f (replicate 12 Byte.x00) = (Ok tt, wire) ∧
     FrameOps.from_bytes wire = Ok f' ∧ check_reply (Arrives (FrameSv2 f')) = Ok tt).
Proof.
  split; [|apply setup_success_accepted].
  destruct tcp, key_ok, noise_ok; try (cbn; split; [done|by intros (? & ? & ? & _)]). unfold connect_attempt. cbn [negb Machine.tcp_connected Machine.new current_state].
  unfold establish_sv2_connection. cbn [negb].
  destruct mint_setup_sent as (m & f & Hm & Hf). rewrite Hm. erewrite st_bind_ok by done. cbn [map_err]. rewrite st_lift_bind, Hf. cbn [map_err]. rewrite st_lift_bind.
  destruct sends; [|cbn; split; [done|by intros (_ & _ & _ & ? & _)]]. cbn [negb].
  destruct (check_reply r) as [[]|e|]; [rewrite st_lift_bind|..]; (split; [|intros (_ & _ & _ & _ & ?); done]); done.
Qed.

(** ** The table of channels *)

Module ChannelTableFacts.
Import ChannelTable.

Lemma delete_all (ids : list Z) (t : gmap Z ChannelInfo) i :
  foldl (λ t i, delete i t) t ids !! i = if decide (i ∈ ids) then None else t !! i.
Proof.
  revert t. induction ids as [|k ids IH]; intros t; cbn [foldl]; [by rewrite decide_False by apply not_elem_of_nil|].
  rewrite IH. destruct (decide (i ∈ ids)) as [Hi|Hi]; [by rewrite decide_True by (by apply list_elem_of_further)|].
  destruct (decide (i = k)) as [->|Hk]; [rewrite decide_True by apply list_elem_of_here; apply lookup_delete_eq|].
  rewrite decide_False, lookup_delete_ne by (done || (rewrite not_elem_of_cons; done)). done.
Qed.
(** The clean-up removes exactly the channels that were idle for longer than the
    given time, and returns how many. *)
Theorem cleanup_removes_stale max_idle_secs now m :
  let '(n, m') := cleanup_stale_channels max_idle_secs now m in
  (∀ i, active_channels m' !! i = (c ← active_channels m !! i; if stale now max_idle_secs c then None else Some c)) ∧
  next_channel_id m' = next_channel_id m ∧ n = zlen (List.filter (stale now max_idle_secs) (get_all_channels m)).
Proof.
  unfold cleanup_stale_channels. cbn [active_channels next_channel_id]. split_and!; [|done|].
  - intros i. rewrite delete_all. set (l := map_to_list (active_channels m)).
    assert (Hin : i ∈ (List.filter (λ kv, stale now max_idle_secs kv.2) l).*1 ↔ ∃ c, active_channels m !! i = Some c ∧ stale now max_idle_secs c = true).
    { rewrite list_elem_of_fmap. split.
      - intros ([k c] & -> & Hk). apply list_elem_of_In, filter_In in Hk as [Hk Hs]. exists c. split; [|done]. by apply elem_of_map_to_list, list_elem_of_In.
      - intros (c & Hc & Hs). exists (i, c). split; [done|]. apply list_elem_of_In, filter_In. split; [|done]. by apply list_elem_of_In, elem_of_map_to_list. }
    destruct (decide _) as [Hd|Hd].
    + apply Hin in Hd as (c & -> & Hs). cbn. by rewrite Hs.
    + destruct (active_channels m !! i) as [c|] eqn:Ec; [|done]. cbn. destruct (stale now max_idle_secs c) eqn:Hs; [|done].
      exfalso. apply Hd, Hin. by exists c.
  - unfold get_all_channels. unfold zlen. f_equal. rewrite length_fmap. induction (map_to_list (active_channels m)) as [|[k c] l IH]; [done|].
    cbn. destruct (stale now max_idle_secs c); cbn; by rewrite IH.
Qed.

Inductive TableOp : Type := Create (r : Role) (now : Z) | CloseId (i : Z) | Touch (i now : Z) | CleanUp (max_idle_secs now : Z).
Definition table_step (overflow_checks : bool) (m : ChannelManager) (o : TableOp) : ChannelManager :=
  match o with
  | Create r now => (create_channel r now m).2
  | CloseId i => (close_channel i m).2
  | Touch i now => (update_activity overflow_checks i now m).2
  | CleanUp secs now => (cleanup_stale_channels secs now m).2
  end.
Definition table_ok (n : Z) (m : ChannelManager) : Prop :=
  1 ≤ next_channel_id m ≤ n + 1 ∧ ∀ i c, active_channels m !! i = Some c → id c = i ∧ 1 ≤ i < next_channel_id m.
Lemma table_step_ok chk n m o : 0 ≤ n → n + 2 < 2 ^ 64 → table_ok n m → table_ok (n + 1) (table_step chk m o).
Proof.
  intros Hn Hb [Hx Hc]. destruct o as [r now|i|i now|secs now]; cbn [table_step].
  - unfold create_channel. cbn [snd]. rewrite wrap_small by (unfold fits; lia). split; cbn; [lia|]. intros i c.
    rewrite lookup_insert. case_decide as Hd; [intros [= <-]; cbn; lia|]. intros Hi. destruct (Hc i c Hi). lia.
  - unfold close_channel. destruct (active_channels m !! i) as [c|]; [|split; [cbn; lia|done]]. split; cbn; [lia|].
    intros j d. rewrite lookup_delete_Some. intros [_ Hj]. by apply Hc.
  - unfold update_activity. destruct (active_channels m !! i) as [c|] eqn:Ei; [|split; [cbn; lia|done]].
    destruct (Hc i c Ei) as [Hid Hr]. destruct (if chk then _ else _); (split; cbn; [lia|]; intros j d; rewrite lookup_insert; case_decide as Hd;
      [intros [= <-]; cbn; by subst|apply Hc]).
  - pose proof (cleanup_removes_stale secs now m) as Hcl. destruct (cleanup_stale_channels secs now m) as [k m']. destruct Hcl as (Hl & Hnx & _).
    split; [cbn; lia|]. intros i c. cbn [snd]. rewrite Hl. destruct (active_channels m !! i) as [d|] eqn:Ei; [|done]. cbn.
    destruct (stale _ _ d); [done|]. intros [= <-]. cbn. rewrite Hnx. by apply Hc.
Qed.
(** A new channel never takes the place of another: in every state of fewer than
    2^64 - 2 operations the identifier given out is of no channel in the table, and
    a channel is found under its own identifier. *)
Theorem channel_ids_fresh chk ops r now :
  zlen ops < 2 ^ 64 - 2 →
  let m := foldl (table_step chk) new ops in
  active_channels m !! next_channel_id m = None ∧
  (create_channel r now m).1 = Ok (next_channel_id m) ∧ ∀ i c, get_channel i m = Ok c → id c = i.
Proof.
  intros Hlen m. assert (Hok : table_ok (zlen ops) m).
  { subst m. revert Hlen. induction ops as [|o ops IH] using rev_ind; [intros _; split; [change (zlen []) with 0; cbn; lia|by intros i c]|].
    rewrite foldl_app, zlen_app. change (zlen [o]) with 1. intros Hlen. pose proof (zlen_nonneg ops). cbn [foldl]. apply table_step_ok; [lia..|]. apply IH. lia. }
  destruct Hok as [_ Hc]. split_and!; [|done|].
  - destruct (active_channels m !! next_channel_id m) as [c|] eqn:E; [|done]. apply Hc in E. lia.
  - intros i c. unfold get_channel. destruct (active_channels m !! i) as [d|] eqn:E; [|done]. intros [= <-]. by apply Hc in E as [? _].
Qed.
Example channel_ids_fresh_witness :
  let m := foldl (table_step true) new [Create Pool 0; Create Mint 1; CloseId 2; CleanUp 60 1000] in
  active_channels m !! 3 = None ∧ next_channel_id m = 3.
Proof.
  cbn zeta. destruct (channel_ids_fresh true [Create Pool 0; Create Mint 1; CloseId 2; CleanUp 60 1000] Pool 5 eq_refl) as (Hn & _).
  split; [exact Hn|vm_compute; reflexivity].
Defined.
End ChannelTableFacts.

(** ** Runs *)

Module BridgeSample.
#[local] Existing Instance HubProperties.toy_broadcast.
#[local] Existing Instance HubProperties.toy_broadcast_laws.
Definition start : MintConnection := with_keys (Hub_new MessagingConfig_default).
Definition request_of (n : Z) : ParsedMintQuoteRequest := share_request n (replicate 32 Byte.xaa) (replicate 33 Byte.x02).
Definition share (n : Z) : BridgeEvent := Share (request_of n) (mkContext 1 n n) 0.
Definition any_frame : Framing.Frame := FrameSv2 (quote_frame 0 []).
Definition connects (i : nat) : list BridgeEvent := [MintConnects "mint"; MintSends i any_frame; SetupTurn i 0; Subscribe i].
Definition leaves (i : nat) : list BridgeEvent := [MintLeaves i; ProcessTurn i; ForwarderStops i; Finish i].
Definition run (keeps : nat) (es : list BridgeEvent) : MintConnection := bridge_run true keeps start es.
Definition sent_amounts (s : MintConnection) : list (list Z) := (λ c, (q_amount ∘ request) <$> c_sent c) <$> conns s.

(** Two connections one after the other; a share between them is never asked for. *)
Definition two_mints : list BridgeEvent :=
  connects 0 ++ [share 1; share 2; ForwardTurn 0; ForwardTurn 0] ++ leaves 0 ++ [share 3] ++ connects 1 ++ [share 4; ForwardTurn 1; ForwardTurn 1].
Example bridge_forwards_witness :
  let s := run 1000 two_mints in
  sent_amounts s = [[1; 2]; [4]] ∧ is_connected s = true ∧
  (∀ c, conns s !! 1%nat = Some c → c_sent c `sublist_of` slice (f_from c) (f_pos c) (requests (hub s))).
Proof.
  destruct (bridge_forwards true 1000 MessagingConfig_default two_mints eq_refl) as (Hc & _).
  split; [vm_compute; reflexivity|]. split; [vm_compute; reflexivity|]. unfold run, start. intros c Hci. exact (proj1 (Hc 1%nat c Hci)).
Defined.
(** A share before the mint's setup is answered is never asked for, nor is one before
    the forwarder has subscribed. *)
Example early_shares_lost :
  let s := run 1000 ([share 1; MintConnects "mint"; MintSends 0 any_frame; SetupTurn 0 0; share 2; Subscribe 0; share 3] ++ [ForwardTurn 0; ForwardTurn 0]) in
  sent_amounts s = [[3]] ∧ size (pending_quotes (hub s)) = 1%nat.
Proof. vm_compute. done. Qed.
(** A burst of shares: the forwarder ends, and the next share is not asked for. *)
Definition burst : MintConnection := run 2 (connects 0 ++ [share 1; share 2; share 3]).
Example lag_ends_forwarding_witness :
  is_connected (bridge_step true 2 burst (ForwardTurn 0)) = true ∧
  ∃ c, conns (bridge_run true 2 (bridge_step true 2 burst (ForwardTurn 0)) [share 4; ForwardTurn 0]) !! 0%nat = Some c ∧ c_sent c = [].
Proof.
  edestruct (lag_ends_forwarding true 2 burst 0) as (Hi & _ & _ & c & Hc & Hs & _);
    [vm_compute; reflexivity|reflexivity|reflexivity|apply Nat.ltb_lt; vm_compute; reflexivity|].
  split; [rewrite Hi; vm_compute; reflexivity|]. exists c. split; [exact Hc|exact Hs].
Defined.
(** An answer that cannot be read ends the connection, and the next mint is accepted. *)
Definition answered (payload : bytes) : list BridgeEvent :=
  connects 0 ++ [MintSends 0 (FrameSv2 (quote_frame MESSAGE_TYPE_MINT_QUOTE_RESPONSE payload)); ProcessTurn 0; ForwarderStops 0; Finish 0; MintConnects "next"].
Example bad_answer_ends : phase <$> conns (run 1000 (answered [])) = [Over; AwaitsSetup].
Proof. vm_compute. done. Qed.
(** One that is shorter than it announces panics in the decoder: the pool counts as
    connected and accepts no mint any more. *)
Example short_answer_crashes :
  let s := run 1000 (answered (replicate 10 Byte.xff)) in phase <$> conns s = [Crashed] ∧ is_connected s = true ∧ accepting s = false.
Proof. vm_compute. done. Qed.
(** A mint that says nothing keeps others out until the timeout. *)
Example one_mint_at_a_time :
  length (conns (run 1000 [MintConnects "a"; MintConnects "b"])) = 1%nat ∧
  length (conns (run 1000 [MintConnects "a"; SetupTimeout 0; MintConnects "b"])) = 2%nat.
Proof. vm_compute. done. Qed.
End BridgeSample.
