(* ===== verification/Sha256d.v ===== *)
(** * Hashing block headers from a midstate

    [FastSha256d] of [roles/test-utils/mining-device/src/lib/mod.rs]: a block
    header is 80 bytes, two blocks of SHA-256, and only the time and the nonce in
    the second change while a miner searches.  The state after the first block
    is kept, and the two other blocks of the double hash are kept as templates
    that are overwritten in place.  The compression function is that of the
    [sha2] package and the serialization of a header that of the [bitcoin]
    package: the class [Sha256]. *)

From S2P Require Import Prelude Bitcoin BitcoinModel.
#[local] Open Scope Z_scope.
#[local] Open Scope list_scope.

Class Sha256 : Type := {
  compress256 : list Z → bytes → list Z;
  header_serialize : BlockHeader → bytes }.

(** ** The reference: FIPS 180-4 *)

Definition sha256_initial_state : list Z :=
  [0x6a09e667; 0xbb67ae85; 0x3c6ef372; 0xa54ff53a; 0x510e527f; 0x9b05688c; 0x1f83d9ab; 0x5be0cd19].
Definition digest (state : list Z) : bytes := concat (to_be_bytes 4 <$> state).
Definition padding (len : Z) : bytes :=
  Byte.x80 :: replicate (Z.to_nat ((55 - len) `mod` 64)) Byte.x00 ++ to_be_bytes 8 (8 * len).
Fixpoint absorb `{Sha256} (blocks : nat) (state : list Z) (m : bytes) : list Z :=
  match blocks with
  | O => state
  | S blocks => absorb blocks (compress256 state (ztake 64 m)) (zdrop 64 m)
  end.
Definition sha256 `{Sha256} (m : bytes) : bytes :=
  let padded := m ++ padding (zlen m) in
  digest (absorb (Z.to_nat (zlen padded / 64)) sha256_initial_state padded).

(** The consensus serialization of a header. *)
Definition header_bytes (h : BlockHeader) : bytes :=
  to_le_bytes 4 (bh_version h) ++ prev_blockhash h ++ bh_merkle_root h ++ to_le_bytes 4 (bh_time h)
    ++ to_le_bytes 4 (bits h) ++ to_le_bytes 4 (bh_nonce h).
Definition header_wf (h : BlockHeader) : Prop := zlen (prev_blockhash h) = 32 ∧ zlen (bh_merkle_root h) = 32.
Definition at_nonce_time (nonce time : Z) (h : BlockHeader) : BlockHeader :=
  mkBlockHeader (bh_version h) (prev_blockhash h) (bh_merkle_root h) time (bits h) nonce.

(** What is documented of the packages: a state has eight words, headers are
    serialized in the consensus format, and the hash of a block is the double
    SHA-256 of its header. *)
Class Sha256Laws `{Sha256} `{Bitcoin} : Prop := {
  law_compress : ∀ st m, length (compress256 st m) = 8%nat;
  law_header_serialize : ∀ h, header_wf h → header_serialize h = header_bytes h;
  law_header_hash : ∀ h, header_wf h → block_hash h = sha256 (sha256 (header_bytes h)) }.

(** ** The device's hasher *)

Record FastSha256d : Type := mkFast {
  state0 : list Z;
  block1 : bytes;
  second_block : bytes }.

Section fast.
Context `{Sha256}.

Definition zero_block : bytes := replicate 64 Byte.x00.
(** Copying into an array of 80 bytes panics at any other length. *)
Definition from_header_static {E} (h : BlockHeader) : result E FastSha256d :=
  let header_ser := header_serialize h in
  if negb (zlen header_ser =? 80) then Panic
  else
    let chunk0 := ztake 64 header_ser in
    let chunk1_last16 := zdrop 64 header_ser in
    let block1 := overwrite zero_block 0 chunk1_last16 in
    let block1 := overwrite block1 16 [Byte.x80] in
    let block1 := overwrite block1 56 (to_be_bytes 8 640) in
    let second_block := overwrite zero_block 32 [Byte.x80] in
    let second_block := overwrite second_block 56 (to_be_bytes 8 256) in
    Ok (mkFast (compress256 sha256_initial_state chunk0) block1 second_block).
(** The words of a state, big endian, from an offset on. *)
Fixpoint put_words (off : Z) (words : list Z) (l : bytes) : bytes :=
  match words with
  | [] => l
  | word :: words => put_words (off + 4) words (overwrite l off (to_be_bytes 4 word))
  end.
Definition hash_with_nonce_time (nonce time : Z) (f : FastSha256d) : bytes * FastSha256d :=
  let block1 := overwrite (block1 f) 4 (to_le_bytes 4 time) in
  let block1 := overwrite block1 12 (to_le_bytes 4 nonce) in
  let state1 := compress256 (state0 f) block1 in
  let second_block := put_words 0 state1 (second_block f) in
  let state2 := compress256 sha256_initial_state second_block in
  (put_words 0 state2 (replicate 32 Byte.x00), mkFast (state0 f) block1 second_block).
End fast.

(** ** It computes the hash of the block *)

Lemma digest_len st : length st = 8%nat → zlen (digest st) = 32.
Proof.
  intros Hl. do 8 (destruct st as [|? st]; [done|]). destruct st; [|done]. reflexivity.
Qed.
Lemma put_words_app words : ∀ a l r off,
  zlen l = 4 * zlen words → off = zlen a → put_words off words (a ++ l ++ r) = a ++ digest words ++ r.
Proof.
  induction words as [|w words IH]; intros a l r off Hl ->; cbn [put_words].
  { assert (l = []) as -> by (destruct l; [done|rewrite zlen_cons, (zlen_nil (A := Z)) in Hl; pose proof (zlen_nonneg l); lia]). done. }
  rewrite zlen_cons in Hl. pose proof (zlen_nonneg words).
  assert (Ht : zlen (ztake 4 l) = 4) by (apply zlen_take; lia).
  assert (Hd : zlen (zdrop 4 l) = zlen l - 4) by (apply zlen_drop; lia).
  rewrite <- (ztake_zdrop 4 l), <- (app_assoc (ztake 4 l)), overwrite_app by (by rewrite Ht).
  rewrite (app_assoc a), IH; [|lia|by rewrite zlen_app].
  change (digest (w :: words)) with (to_be_bytes 4 w ++ digest words). by rewrite <- !app_assoc.
Qed.
Lemma put_words_all words l : zlen l = 4 * zlen words → put_words 0 words l = digest words.
Proof. intros Hl. pose proof (put_words_app words [] l [] 0 Hl eq_refl) as E. by rewrite !app_nil_r in E. Qed.

Section correct.
Context `{Sha256} `{Bitcoin} `{!Sha256Laws}.

Lemma sha256_two m : zlen m = 80 →
  sha256 m = digest (compress256 (compress256 sha256_initial_state (ztake 64 m)) (zdrop 64 m ++ padding 80)).
Proof.
  intros Hm. unfold sha256. rewrite Hm, zlen_app, Hm. change ((80 + zlen (padding 80)) / 64) with 2.
  change (Z.to_nat 2) with 2%nat. cbn [absorb]. rewrite ztake_app_le, zdrop_app_le by lia.
  rewrite (ztake_ge 64 (zdrop 64 m ++ padding 80)); [done|]. rewrite zlen_app, zlen_drop, Hm by lia. by vm_compute.
Qed.
Lemma sha256_one m : zlen m = 32 → sha256 m = digest (compress256 sha256_initial_state (m ++ padding 32)).
Proof.
  intros Hm. unfold sha256. rewrite Hm, zlen_app, Hm. change ((32 + zlen (padding 32)) / 64) with 1.
  change (Z.to_nat 1) with 1%nat. cbn [absorb].
  rewrite (ztake_ge 64 (m ++ padding 32)); [done|]. rewrite zlen_app, Hm. by vm_compute.
Qed.

(** The last word of the merkle root. *)
Definition root_tail (h : BlockHeader) : bytes := zdrop 28 (bh_merkle_root h).
Lemma header_len h : header_wf h → zlen (header_bytes h) = 80.
Proof. intros [Hp Hm]. unfold header_bytes. rewrite !zlen_app, Hp, Hm, !to_le_bytes_zlen. lia. Qed.
Lemma header_split h : header_wf h →
  header_bytes h = (to_le_bytes 4 (bh_version h) ++ prev_blockhash h ++ ztake 28 (bh_merkle_root h))
    ++ root_tail h ++ to_le_bytes 4 (bh_time h) ++ to_le_bytes 4 (bits h) ++ to_le_bytes 4 (bh_nonce h).
Proof.
  intros [Hp Hm]. unfold header_bytes, root_tail. rewrite <- (ztake_zdrop 28 (bh_merkle_root h)) at 1. by rewrite <- !app_assoc.
Qed.
Lemma header_halves h : header_wf h →
  ztake 64 (header_bytes h) = to_le_bytes 4 (bh_version h) ++ prev_blockhash h ++ ztake 28 (bh_merkle_root h) ∧
  zdrop 64 (header_bytes h) = root_tail h ++ to_le_bytes 4 (bh_time h) ++ to_le_bytes 4 (bits h) ++ to_le_bytes 4 (bh_nonce h).
Proof.
  intros Hw. rewrite header_split by done. destruct Hw as [Hp Hm].
  assert (Hl : zlen (to_le_bytes 4 (bh_version h) ++ prev_blockhash h ++ ztake 28 (bh_merkle_root h)) = 64)
    by (rewrite !zlen_app, Hp, to_le_bytes_zlen, zlen_take by lia; lia).
  by rewrite ztake_app, zdrop_app.
Qed.

(** The templates are ready for any nonce and time of the header. *)
Definition prepared (h : BlockHeader) (f : FastSha256d) : Prop :=
  state0 f = compress256 sha256_initial_state (ztake 64 (header_bytes h)) ∧
  (∃ t n, zlen t = 4 ∧ zlen n = 4 ∧ block1 f = root_tail h ++ t ++ to_le_bytes 4 (bits h) ++ n ++ padding 80) ∧
  ∃ d, zlen d = 32 ∧ second_block f = d ++ padding 32.
Lemma prepared_new {E} h : header_wf h → ∃ f, from_header_static (E := E) h = Ok f ∧ prepared h f.
Proof.
  intros Hw. unfold from_header_static. rewrite law_header_serialize, header_len by done. cbn [Z.eqb Pos.eqb negb].
  eexists. split; [reflexivity|]. split; [done|]. cbn [block1 second_block].
  destruct (header_halves h Hw) as [_ ->]. split; [|exists (replicate 32 Byte.x00); by vm_compute].
  exists (to_le_bytes 4 (bh_time h)), (to_le_bytes 4 (bh_nonce h)). rewrite !to_le_bytes_zlen. split_and!; [done..|].
  set (tl := root_tail h ++ _).
  assert (Hl : zlen tl = 16) by (unfold tl, root_tail; destruct Hw; rewrite !zlen_app, !to_le_bytes_zlen, zlen_drop by lia; lia).
  assert (overwrite zero_block 0 tl = tl ++ replicate 48 Byte.x00) as ->.
  { unfold overwrite. rewrite Hl. by vm_compute. }
  pose proof (overwrite_app tl [Byte.x00] (replicate 47 Byte.x00) [Byte.x80] eq_refl) as E1.
  pose proof (overwrite_app (tl ++ Byte.x80 :: replicate 39 Byte.x00) (replicate 8 Byte.x00) [] (to_be_bytes 8 640) eq_refl) as E2.
  rewrite Hl in E1. rewrite zlen_app, Hl in E2. rewrite <- !app_assoc in E2.
  change (overwrite (overwrite (tl ++ replicate 48 Byte.x00) 16 [Byte.x80]) 56 (to_be_bytes 8 640)
    = root_tail h ++ to_le_bytes 4 (bh_time h) ++ to_le_bytes 4 (bits h) ++ to_le_bytes 4 (bh_nonce h) ++ padding 80).
  change (replicate 48 Byte.x00) with ([Byte.x00] ++ replicate 47 Byte.x00). rewrite E1.
  etransitivity; [exact E2|]. unfold tl. by rewrite <- !app_assoc.
Qed.
Lemma prepared_hash h f nonce time : header_wf h → prepared h f →
  (hash_with_nonce_time nonce time f).1 = block_hash (at_nonce_time nonce time h) ∧
  prepared h (hash_with_nonce_time nonce time f).2.
Proof.
  intros Hw (Hs & (t & n & Ht & Hn & Hb) & (d & Hd & H2)). pose proof Hw as [_ Hm].
  assert (Hr : zlen (root_tail h) = 4) by (unfold root_tail; rewrite zlen_drop by lia; lia).
  assert (Hw' : header_wf (at_nonce_time nonce time h)) by done.
  destruct (header_halves _ Hw') as [E1 E2].
  change (root_tail (at_nonce_time nonce time h)) with (root_tail h) in E2. cbn [at_nonce_time bh_time bits bh_nonce] in E2.
  unfold hash_with_nonce_time. rewrite Hb, H2.
  pose proof (overwrite_app (root_tail h) t (to_le_bytes 4 (bits h) ++ n ++ padding 80) (to_le_bytes 4 time)) as O1.
  rewrite Hr, to_le_bytes_zlen in O1. rewrite O1 by done.
  pose proof (overwrite_app (root_tail h ++ to_le_bytes 4 time ++ to_le_bytes 4 (bits h)) n (padding 80) (to_le_bytes 4 nonce)) as O2.
  rewrite !zlen_app, Hr, !to_le_bytes_zlen, <- !app_assoc in O2. change (4 + (Z.of_nat 4 + Z.of_nat 4)) with 12 in O2. rewrite O2 by done. clear O1 O2.
  pose proof (put_words_app (compress256 (state0 f) (root_tail h ++ to_le_bytes 4 time ++ to_le_bytes 4 (bits h) ++ to_le_bytes 4 nonce ++ padding 80))
    [] d (padding 32) 0) as O3. cbn [app] in O3.
  rewrite O3; [|unfold zlen at 2; by rewrite law_compress, Hd|done]. clear O3.
  split; [|split; [done|split; [exists (to_le_bytes 4 time), (to_le_bytes 4 nonce); by rewrite !to_le_bytes_zlen|]]].
  - cbn [fst]. rewrite put_words_all by (unfold zlen; rewrite law_compress; done).
    rewrite law_header_hash by done. rewrite (sha256_two (header_bytes _)) by (by apply header_len).
    rewrite sha256_one by (apply digest_len, law_compress). rewrite E2, E1, Hs. destruct (header_halves _ Hw) as [-> _].
    by rewrite <- !app_assoc.
  - eexists. split; [|reflexivity]. apply digest_len, law_compress.
Qed.
(** Any sequence of attempts. *)
Fixpoint hash_all (tries : list (Z * Z)) (f : FastSha256d) : list bytes :=
  match tries with
  | [] => []
  | (nonce, time) :: tries => let '(h, f) := hash_with_nonce_time nonce time f in h :: hash_all tries f
  end.
Lemma prepared_all h tries : header_wf h → ∀ f, prepared h f →
  hash_all tries f = (λ x, block_hash (at_nonce_time x.1 x.2 h)) <$> tries.
Proof.
  intros Hw. induction tries as [|[nonce time] tries IH]; intros f Hf; [done|]. cbn [hash_all].
  destruct (prepared_hash h f nonce time Hw Hf) as [E1 E2]. destruct (hash_with_nonce_time nonce time f) as [b f'].
  cbn [fst snd] in *. rewrite IH by done. cbn. by rewrite E1.
Qed.
End correct.

(** C11: The device's hasher is equivalent to the double SHA-256 of the whole
    header: prepared once for a header, it gives for any sequence of nonces and
    times the hashes of the blocks with these nonces and times, although it
    keeps the state after the first block and overwrites its two other blocks in
    place. *)
Theorem fast_hash_equivalent `{Sha256} `{Bitcoin} `{!Sha256Laws} (h : BlockHeader) (tries : list (Z * Z)) :
  header_wf h →
  ∃ f, from_header_static (E := unit) h = Ok f ∧
    hash_all tries f = (λ x, block_hash (at_nonce_time x.1 x.2 h)) <$> tries.
Proof.
  intros Hw. destruct (prepared_new (E := unit) h Hw) as (f & Hf & Hp). exists f. split; [done|]. by apply prepared_all.
Qed.

(** ** SHA-256 itself *)

Module Fips.
(** The round constants: the first 32 fractional bits of the cube roots of the
    first 64 primes. *)
Fixpoint cube_root (n : Z) (bit : nat) (r : Z) : Z :=
  match bit with
  | O => r
  | S bit => let r' := r + 2 ^ Z.of_nat bit in cube_root n bit (if r' * r' * r' <=? n then r' else r)
  end.
Definition is_prime (n : Z) : bool := forallb (λ d, negb (n `mod` Z.of_nat d =? 0)) (seq 2 (Z.to_nat n - 2)).
Definition primes : list Z := List.filter is_prime (Z.of_nat <$> seq 2 310).
Definition constants : list Z := Eval vm_compute in (λ p, wrap 32 (cube_root (p * 2 ^ 96) 35 0)) <$> primes.

Definition rotr (n x : Z) : Z := Z.lor (Z.shiftr x n) (wrap 32 (Z.shiftl x (32 - n))).
Definition xor3 (a b c : Z) : Z := Z.lxor (Z.lxor a b) c.
Definition big0 x := xor3 (rotr 2 x) (rotr 13 x) (rotr 22 x).
Definition big1 x := xor3 (rotr 6 x) (rotr 11 x) (rotr 25 x).
Definition small0 x := xor3 (rotr 7 x) (rotr 18 x) (Z.shiftr x 3).
Definition small1 x := xor3 (rotr 17 x) (rotr 19 x) (Z.shiftr x 10).
Definition choose x y z := Z.lxor (Z.land x y) (Z.land (Z.lxor x (2 ^ 32 - 1)) z).
Definition majority x y z := xor3 (Z.land x y) (Z.land x z) (Z.land y z).
(** The schedule, latest word first. *)
Fixpoint schedule (n : nat) (w : list Z) : list Z :=
  match n with
  | O => w
  | S n =>
      let at_ i := nth i w 0 in
      schedule n (wrap 32 (small1 (at_ 1%nat) + at_ 6%nat + small0 (at_ 14%nat) + at_ 15%nat) :: w)
  end.
Fixpoint block_words (n : nat) (m : bytes) : list Z :=
  match n with O => [] | S n => from_be_bytes (ztake 4 m) :: block_words n (zdrop 4 m) end.
Definition round (st : list Z) (kw : Z * Z) : list Z :=
  match st with
  | [a; b; c; d; e; f; g; h] =>
      let t1 := h + big1 e + choose e f g + kw.1 + kw.2 in
      let t2 := big0 a + majority a b c in
      [wrap 32 (t1 + t2); a; b; c; wrap 32 (d + t1); e; f; g]
  | _ => st
  end.
Definition compress (st : list Z) (m : bytes) : list Z :=
  let w := rev (schedule 48 (rev (block_words 16 m))) in
  let out := foldl round st (zip constants w) in
  (λ i, wrap 32 (nth i st 0 + nth i out 0)) <$> seq 0 8.
#[export] Instance fips : Sha256 := {| compress256 := compress; header_serialize := header_bytes |}.
(** A block chain that hashes its headers with it. *)
Definition chain (b : Bitcoin) : Bitcoin :=
  Build_Bitcoin (@tx_serialize b) (@tx_deserialize b) (@compute_txid b) (@compute_wtxid b) (@decode_version b) (@decode_inputs b)
    (@decode_outputs b) (@decode_lock_time b) (@decode_txout b) (@outputs_serialize b) (@Bitcoin.sha256d b)
    (λ h, sha256 (sha256 (header_bytes h))) (@is_met_by b).
Lemma fips_laws b : @Sha256Laws fips (chain b).
Proof. by split. Qed.

(** The first block of the chain. *)
Definition genesis : BlockHeader :=
  mkBlockHeader 1 (replicate 32 Byte.x00)
    (to_be_bytes 32 0x3ba3edfd7a7b12b27ac72c3e67768f617fc81bc3888a51323a9fb8aa4b1e5e4a) 1231006505 0x1d00ffff 2083236893.
Example genesis_hash :
  sha256 (sha256 (header_bytes genesis)) = to_le_bytes 32 0x000000000019d6689c085ae165831e934ff763ae46a2a6c172b3f1b60a8ce26f.
Proof. vm_compute. reflexivity. Qed.
#[local] Existing Instance fips_laws.
#[local] Instance sample_chain : Bitcoin := chain model_bitcoin.
Lemma fast_hash_equivalent_witness :
  block_hash genesis = to_le_bytes 32 0x000000000019d6689c085ae165831e934ff763ae46a2a6c172b3f1b60a8ce26f ∧
  ∃ f, from_header_static (E := unit) genesis = Ok f ∧
    hash_all [(0, 1231006505); (2083236893, 1231006505)] f
    = (λ x, block_hash (at_nonce_time x.1 x.2 genesis)) <$> [(0, 1231006505); (2083236893, 1231006505)].
Proof. split; [vm_compute; reflexivity|]. apply (fast_hash_equivalent genesis). split; reflexivity. Defined.
End Fips.
