(* ===== verification/Device.v ===== *)
(** * The V2 mining device

    [roles/test-utils/mining-device/src/lib/mod.rs]: a miner that opens a
    standard channel at a pool, its handlers of the pool's messages
    ([ParseMiningMessagesFromUpstream], dispatched for a standard channel without
    work selection by [roles-logic-sv2/src/handlers/mining.rs]), the division of
    the nonces among worker threads, the search of a worker in batches, and the
    submission of shares.  A worker owns a copy of the miner; new work replaces
    the workers.  Frames sent are recorded as messages; the measurement of the
    hash rate is a count of hashes per thread. *)

From Stdlib Require Import String SpecFloat.
From S2P Require Import Prelude Datatypes Mining Difficulty Bitcoin Jobs Channels Vardiff Downstream SetupConnection Sha256d.
#[local] Open Scope Z_scope.
#[local] Open Scope list_scope.

Module Dev.

(** ** The miner *)

Record Miner : Type := mkMiner {
  header : option BlockHeader;
  target : option Z;
  m_job_id : option Z;
  m_version : option Z;
  handicap : Z;
  fast_hasher : option FastSha256d }.
Inductive NextShareOutcome : Type := ValidShare | InvalidShare | NoTarget | NoHeader.
Definition is_valid (o : NextShareOutcome) : bool := match o with ValidShare => true | _ => false end.
Definition is_future (m : NewMiningJob) : bool := bool_decide (mj_min_ntime m = None).

(** Eight little-endian words compared from the most significant one down;
    equal numbers meet the target. *)
Definition word (l : bytes) (i : nat) : Z := from_le_bytes (ztake 4 (zdrop (4 * Z.of_nat i) l)).
Fixpoint words_le (i : nat) (hash tgt : bytes) : bool :=
  match i with
  | O => true
  | S i => match word hash i ?= word tgt i with Lt => true | Gt => false | Eq => words_le i hash tgt end
  end.
Definition hash_meets_target_le (hash tgt_le : bytes) : bool := words_le 8 hash tgt_le.

Section miner.
Context `{Bitcoin} `{Sha256}.

Definition Miner_new (handicap : Z) : Miner := mkMiner None None None None handicap None.
Definition new_target (t : bytes) (m : Miner) : Miner :=
  mkMiner (header m) (Some (from_le_bytes t)) (m_job_id m) (m_version m) (handicap m) (fast_hasher m).
(** The time is the clock's plus the 60 seconds the reference point lies before
    the epoch. *)
Definition new_header {E} (now : Z) (p : SetNewPrevHashMp) (new_job : NewMiningJob) (m : Miner) : result E Miner :=
  if negb (zlen (ph_prev_hash p) =? 32) || negb (zlen (mj_merkle_root new_job) =? 32) || (now + 60 <? 0) then Panic
  else
    let h := mkBlockHeader (mj_version new_job) (ph_prev_hash p) (mj_merkle_root new_job) (wrap 32 (now + 60)) (ph_nbits p) 0 in
    fast ← from_header_static h;
    Ok (mkMiner (Some h) (target m) (Some (mj_job_id new_job)) (Some (mj_version new_job)) (handicap m) (Some fast)).
Definition set_nonce (nonce : Z) (m : Miner) : Miner :=
  mkMiner ((λ h, at_nonce_time nonce (bh_time h) h) <$> header m) (target m) (m_job_id m) (m_version m) (handicap m) (fast_hasher m).
Definition set_fast (f : FastSha256d) (m : Miner) : Miner :=
  mkMiner (header m) (target m) (m_job_id m) (m_version m) (handicap m) (Some f).
Definition next_share (m : Miner) : NextShareOutcome * Miner :=
  match header m with
  | None => (NoHeader, m)
  | Some h =>
      let '(hash, m) :=
        match fast_hasher m with
        | Some fast => let '(hash, fast) := hash_with_nonce_time (bh_nonce h) (bh_time h) fast in (hash, set_fast fast m)
        | None => (block_hash h, m)
        end in
      match target m with
      | None => (NoTarget, m)
      | Some t => (if words_le 8 hash (to_le_bytes 32 t) then ValidShare else InvalidShare, m)
      end
  end.

(** ** A worker *)

(** The values sent for a share: nonce, job, version and time. *)
Notation Share := (Z * Z * Z * Z)%type.
(** The nonces of a batch until one meets the target. *)
Fixpoint search (start time : Z) (tgt_le : bytes) (tries : nat) (i : Z) (f : FastSha256d) : option Z * FastSha256d :=
  match tries with
  | O => (None, f)
  | S tries =>
      let nonce := wrap 32 (start + i) in
      let '(hash, f) := hash_with_nonce_time nonce time f in
      if hash_meets_target_le hash tgt_le then (Some nonce, f) else search start time tgt_le tries (i + 1) f
  end.
Definition share_of {E} (nonce time : Z) (m : Miner) : result E Share :=
  job_id ← unwrap (m_job_id m); version ← unwrap (m_version m); Ok (nonce, job_id, version, time).
(** The fast path: one batch; the next starts after it whether or not a share
    was found. *)
Definition batch_turn {E} (batch : Z) (h : BlockHeader) (t : Z) (fast : FastSha256d) (m : Miner) : result E (option Share * Miner) :=
  let '(found, fast) := search (bh_nonce h) (bh_time h) (to_le_bytes 32 t) (Z.to_nat batch) 0 fast in
  let m := set_fast fast m in
  share ← match found with
    | Some nonce => share ← share_of nonce (bh_time h) m; Ok (Some share)
    | None => Ok None
    end;
  Ok (share, set_nonce (wrap 32 (bh_nonce h + batch)) m).
Definition slow_turn {E} (m : Miner) : result E (option Share * Miner) :=
  let '(outcome, m) := next_share m in
  share ← match is_valid outcome with
    | true => h ← unwrap (header m); share ← share_of (bh_nonce h) (bh_time h) m; Ok (Some share)
    | false => Ok None
    end;
  Ok (share, mkMiner ((λ h, at_nonce_time (wrap 32 (bh_nonce h + 1)) (bh_time h) h) <$> header m) (target m) (m_job_id m)
               (m_version m) (handicap m) (fast_hasher m)).
(** A turn of [mine]; the two loops differ in the pause before a turn. *)
Definition mine_turn {E} (batch : Z) (m : Miner) : result E (option Share * Miner) :=
  match fast_hasher m, target m, header m with
  | Some fast, Some t, Some h => batch_turn batch h t fast m
  | _, _, _ => slow_turn m
  end.

(** ** Workers *)

Definition nonces_per_call (runtime : Z) : Z := Z.max runtime 1.
Definition set_nonces_per_call (n : Z) : Z := Z.max n 1.
Definition worker_count (total_cpus override_n : Z) : Z :=
  let auto := Z.max (saturating_sub total_cpus 1) 1 in
  if override_n =? 0 then auto else Z.max 1 (Z.min override_n total_cpus).
(** Each worker starts at its part of the nonces. *)
Definition start_workers (p : Z) (m : Miner) : list Miner :=
  let unit := (2 ^ 32 - 1) / p in
  (λ i, set_nonce (Z.of_nat i * unit) m) <$> seq 0 (Z.to_nat p).
End miner.

(** ** Messages from the pool *)

Inductive SupportedChannelTypes : Type := Standard | Extended | Group | GroupAndExtended.
(** The messages a pool sends, and, with their type, those only a miner sends. *)
Inductive UpMessage : Type :=
  | UReply (r : Reply)
  | UCloseChannel (channel_id : Z) (reason_code : bytes)
  | USetExtranoncePrefix (channel_id : Z) (extranonce_prefix : bytes)
  | USetGroupChannel (group_channel_id : Z) (channel_ids : list Z)
  | UFromMiner (message_type : Z).
Definition message_type (m : UpMessage) : Z :=
  match m with
  | UReply (OpenStandardMiningChannelSuccess _ _ _ _ _) => 0x11
  | UReply (OpenExtendedMiningChannelSuccess _ _ _ _ _) => 0x14
  | UReply (OpenMiningChannelError _ _) => 0x12
  | UReply (UpdateChannelError _ _) => 0x17
  | UReply (SetTarget _ _) => 0x21
  | UReply (SubmitSharesSuccess _ _ _ _) => 0x1c
  | UReply (SubmitSharesError _ _ _) => 0x1d
  | UReply (SetCustomMiningJobSuccess _ _ _) => 0x23
  | UReply (SetCustomMiningJobError _ _ _) => 0x24
  | UReply (ReplyNewMiningJob _) => 0x15
  | UReply (ReplyNewExtendedMiningJob _) => 0x1f
  | UReply (ReplySetNewPrevHash _) => 0x20
  | UCloseChannel _ _ => 0x18
  | USetExtranoncePrefix _ _ => 0x19
  | USetGroupChannel _ _ => 0x25
  | UFromMiner ty => ty
  end.
Inductive DeviceError : Type := UnexpectedMessage (ty : Z).
(** The dispatch of [ParseMiningMessagesFromUpstream]: the message is passed to
    its handler, or refused for the kind of channel. *)
Definition admitted (channel_type : SupportedChannelTypes) (work_selection : bool) (m : UpMessage) : bool :=
  match m, channel_type with
  | UReply (OpenStandardMiningChannelSuccess _ _ _ _ _), Extended => false
  | UReply (OpenExtendedMiningChannelSuccess _ _ _ _ _), (Standard | Group) => false
  | UReply (ReplyNewMiningJob _), (Extended | Group | GroupAndExtended) => false
  | UReply (ReplyNewExtendedMiningJob _), Standard => false
  | UReply (SetCustomMiningJobSuccess _ _ _), (Extended | GroupAndExtended) => work_selection
  | UReply (SetCustomMiningJobSuccess _ _ _), (Standard | Group) => false
  | UReply (SetCustomMiningJobError _ _ _), (Extended | Group | GroupAndExtended) => work_selection
  | UReply (SetCustomMiningJobError _ _ _), Standard => false
  | USetGroupChannel _ _, (Standard | Extended) => false
  | UFromMiner _, _ => false
  | _, _ => true
  end.
Definition handle_message_mining {S} (channel_type : SupportedChannelTypes) (work_selection : bool)
    (handle : UpMessage → ST S DeviceError unit) (m : UpMessage) : ST S DeviceError unit :=
  if admitted channel_type work_selection m then handle m else throw (UnexpectedMessage (message_type m)).

(** ** The device *)

Record Device : Type := mkDevice {
  channel_opened : bool;
  channel_id : option Z;
  miner : Miner;
  jobs : list NewMiningJob;
  prev_hash : option SetNewPrevHashMp;
  sequence_numbers : Z;
  should_send : bool;
  workers : list Miner;
  sent : list SubmitSharesStandard }.
Definition Device_new (handicap : Z) : Device := mkDevice false None (Miner_new handicap) [] None Id_new true [] [].
Definition set_channel (id : Z) (d : Device) : Device :=
  mkDevice true (Some id) (miner d) (jobs d) (prev_hash d) (sequence_numbers d) (should_send d) (workers d) (sent d).
Definition set_work (m : Miner) (js : list NewMiningJob) (p : option SetNewPrevHashMp) (notify : bool) (d : Device) : Device :=
  mkDevice (channel_opened d) (channel_id d) m js p (sequence_numbers d) notify (workers d) (sent d).
Definition set_workers (ws : list Miner) (d : Device) : Device :=
  mkDevice (channel_opened d) (channel_id d) (miner d) (jobs d) (prev_hash d) (sequence_numbers d) (should_send d) ws (sent d).
Definition add_sent (share : SubmitSharesStandard) (d : Device) : Device :=
  mkDevice (channel_opened d) (channel_id d) (miner d) (jobs d) (prev_hash d) (sequence_numbers d) (should_send d) (workers d)
    (sent d ++ [share]).

Section device.
Context `{Bitcoin} `{Sha256} (overflow_checks : bool).
Notation DEV := (ST Device DeviceError).

(** *** Set-up *)

(** A string put into a field of at most 255 bytes, unwrapped. *)
Definition short_string {E} (s : bytes) : result E Inner := if 255 <? zlen s then Panic else Ok (Owned s).
Definition get_setup_connection_message {E} (host : bytes) (port : Z) (device : option bytes) : result E SetupConnection :=
  host ← short_string host; device ← short_string (default [] device);
  Ok (mkSetupConnection MiningProtocol 2 2 1 host port (Owned []) (Owned []) (Owned []) device).
(** The hashes the threads counted, over the seconds they ran. *)
Definition measure_hashrate (hashes : list Z) (duration_secs : Z) : f64 :=
  f64_div (f64_of_Z (foldr Z.add 0 hashes)) (f64_of_Z duration_secs).
Definition open_channel {E} (user_id : option bytes) (multiplier : option f32) (hashes : list Z) : result E OpenStandardMiningChannel :=
  user ← short_string (default [] user_id);
  let measured_hashrate := f32_of_f64 (measure_hashrate hashes 5) in
  let nominal_hash_rate := match multiplier with Some m => f32_mul measured_hashrate m | None => measured_hashrate end in
  Ok (mkOpenStandard 10 (inner_as_ref user) nominal_hash_rate (replicate 32 Byte.xff)).

(** *** Handlers *)

Definition on_miner {E} (d : Device) (r : result E Miner) (js : list NewMiningJob) (p : option SetNewPrevHashMp) : result E unit * Device :=
  match r with
  | Ok m => (Ok tt, set_work m js p true d)
  | Err e => (Err e, d)
  | Panic => (Panic, d)
  end.
Definition handle_new_mining_job (now : Z) (m : NewMiningJob) : DEV unit := λ d,
  match is_future m, prev_hash d with
  | false, Some p_h => on_miner d (new_header now p_h m (miner d)) [m] (prev_hash d)
  | true, _ => (Ok tt, set_work (miner d) (jobs d ++ [m]) (prev_hash d) (should_send d) d)
  | false, None => (Panic, d)
  end.
Definition handle_set_new_prev_hash (now : Z) (m : SetNewPrevHashMp) : DEV unit := λ d,
  match List.filter (λ j, (mj_job_id j =? ph_job_id m) && is_future j) (jobs d) with
  | [] => (Ok tt, set_work (miner d) (jobs d) (Some m) (should_send d) d)
  | [j] => on_miner d (new_header now m j (miner d)) [j] (Some m)
  | _ => (Panic, d)
  end.
Definition set_miner_target (t : bytes) : DEV unit :=
  modify (λ d, set_work (new_target t (miner d)) (jobs d) (prev_hash d) true d).
(** What is left to do in the source is a panic. *)
Definition device_handle (now : Z) (m : UpMessage) : DEV unit :=
  match m with
  | UReply (OpenStandardMiningChannelSuccess _ id t _ _) => _ ← modify (set_channel id); set_miner_target t
  | UReply (SetTarget _ t) => set_miner_target t
  | UReply (SubmitSharesSuccess _ _ _ _) | UReply (SubmitSharesError _ _ _) => mret tt
  | UReply (ReplyNewMiningJob m) => handle_new_mining_job now m
  | UReply (ReplySetNewPrevHash m) => handle_set_new_prev_hash now m
  | _ => panic
  end.
(** The types after which the mining threads are told of new work. *)
Definition is_new_work (m : UpMessage) : bool :=
  match m with
  | UReply (ReplyNewMiningJob _) | UReply (ReplySetNewPrevHash _) | UReply (SetTarget _ _) => true
  | _ => false
  end.
(** A turn of the message loop.  An error of the handler is unwrapped; the flag
    that is cleared afterwards is that of a copy. *)
Definition device_turn (now p : Z) (m : UpMessage) : DEV unit :=
  _ ← (λ d, match handle_message_mining Standard false (device_handle now) m d with
            | (Ok _, d) => (Ok tt, d)
            | (_, d) => (Panic, d)
            end);
  modify (λ d, if should_send d && is_new_work m then set_workers (start_workers p (miner d)) d else d).

(** *** Shares *)

Definition send_share (nonce job_id version ntime : Z) : DEV unit := λ d,
  match channel_id d with
  | None => (Panic, d)
  | Some channel_id =>
      match Id_next (E := DeviceError) overflow_checks (sequence_numbers d) with
      | (Ok seq, next) =>
          (Ok tt, add_sent (mkSubmitStandard channel_id seq job_id nonce ntime version)
             (mkDevice (channel_opened d) (Dev.channel_id d) (miner d) (jobs d) (prev_hash d) next (should_send d) (workers d) (sent d)))
      | (_, _) => (Panic, d)
      end
  end.
(** A turn of worker [i], and the submission of what it finds. *)
Definition worker_turn (batch : Z) (i : nat) : DEV unit := λ d,
  match workers d !! i with
  | None => (Ok tt, d)
  | Some w =>
      match mine_turn batch w with
      | Ok (share, w) =>
          let d := set_workers (<[i := w]> (workers d)) d in
          match share with
          | Some (nonce, job_id, version, ntime) => send_share nonce job_id version ntime d
          | None => (Ok tt, d)
          end
      | Err e => (Err e, d)
      | Panic => (Panic, d)
      end
  end.
End device.
End Dev.
