(* ===== verification/DeviceProperties.v ===== *)
(** * Properties of the V2 mining device

    The word-wise comparison with the target is the order of 256-bit numbers; the
    search of a worker finds the first nonce of its batch that meets the target;
    every share the device sends is a header of work the pool gave it that meets
    a target the pool gave it, and the pool's channel accepts it. *)

From S2P Require Import Prelude Mining MiningProperties Difficulty Bitcoin BitcoinModel Jobs Channels ChannelProperties StandardProperties Vardiff Downstream DownstreamFacts Sha256d Device.
#[local] Open Scope Z_scope.
#[local] Open Scope list_scope.
Import Dev.

(** ** The comparison *)

Lemma word_step i l : 4 * Z.of_nat (S i) ≤ zlen l →
  from_le_bytes (ztake (4 * Z.of_nat (S i)) l) = from_le_bytes (ztake (4 * Z.of_nat i) l) + 2 ^ (32 * Z.of_nat i) * word l i.
Proof.
  intros Hl. assert (ztake (4 * Z.of_nat (S i)) l = ztake (4 * Z.of_nat i) l ++ ztake 4 (zdrop (4 * Z.of_nat i) l)) as ->.
  { rewrite <- (ztake_zdrop (4 * Z.of_nat i) (ztake (4 * Z.of_nat (S i)) l)). rewrite ztake_ztake by lia.
    replace (4 * Z.of_nat (S i)) with (4 * Z.of_nat i + 4) by lia. by rewrite zdrop_ztake by lia. }
  rewrite from_le_bytes_app, zlen_take by lia. unfold word. by replace (8 * (4 * Z.of_nat i)) with (32 * Z.of_nat i) by lia.
Qed.
Lemma words_le_value i a b : 4 * Z.of_nat i ≤ zlen a → 4 * Z.of_nat i ≤ zlen b →
  words_le i a b = (from_le_bytes (ztake (4 * Z.of_nat i) a) <=? from_le_bytes (ztake (4 * Z.of_nat i) b)).
Proof.
  induction i as [|i IH]; intros Ha Hb; [done|]. cbn [words_le]. rewrite !word_step, IH by lia.
  pose proof (from_le_bytes_fits (ztake (4 * Z.of_nat i) a)) as Fa. rewrite zlen_take in Fa by lia.
  pose proof (from_le_bytes_fits (ztake (4 * Z.of_nat i) b)) as Fb. rewrite zlen_take in Fb by lia.
  replace (8 * (4 * Z.of_nat i)) with (32 * Z.of_nat i) in * by lia. unfold fits in *.
  set (M := 2 ^ (32 * Z.of_nat i)) in *. set (x := from_le_bytes (ztake _ a)) in *. set (y := from_le_bytes (ztake _ b)) in *.
  destruct (Z.compare_spec (word a i) (word b i)) as [E|E|E].
  - rewrite E. apply eq_true_iff_eq. rewrite !Z.leb_le. lia.
  - symmetry. apply Z.leb_le. nia.
  - symmetry. apply Z.leb_gt. nia.
Qed.
Lemma meets_value hash tgt : zlen hash = 32 → zlen tgt = 32 → hash_meets_target_le hash tgt = (from_le_bytes hash <=? from_le_bytes tgt).
Proof.
  intros Ha Hb. unfold hash_meets_target_le. rewrite words_le_value by lia. change (4 * Z.of_nat 8) with 32.
  by rewrite !ztake_ge by lia.
Qed.

Section device.
Context `{Bitcoin} `{Sha256} `{!Sha256Laws}.

Lemma header_hash_len h : header_wf h → zlen (block_hash h) = 32.
Proof.
  intros Hw. rewrite law_header_hash by done. rewrite sha256_one; [apply digest_len, law_compress|].
  rewrite sha256_two by (by apply header_len). apply digest_len, law_compress.
Qed.

Lemma prepared_at h f nonce time : header_wf h → prepared h f → prepared (at_nonce_time nonce time h) f.
Proof.
  intros Hw (Hs & Hb & H2'). split; [|done]. rewrite Hs. destruct (header_halves h Hw) as [-> _].
  by destruct (header_halves (at_nonce_time nonce time h) Hw) as [-> _].
Qed.

(** ** The search *)

(** The header at a nonce meets the target. *)
Definition meets (h : BlockHeader) (t nonce : Z) : Prop :=
  from_le_bytes (block_hash (at_nonce_time nonce (bh_time h) h)) ≤ from_le_bytes (to_le_bytes 32 t).
Lemma try_nonce h t nonce f : header_wf h → prepared h f →
  let '(hash, f') := hash_with_nonce_time nonce (bh_time h) f in
  prepared h f' ∧ (hash_meets_target_le hash (to_le_bytes 32 t) = true ↔ meets h t nonce).
Proof.
  intros Hw Hp. destruct (prepared_hash h f nonce (bh_time h) Hw Hp) as [E Hp']. destruct (hash_with_nonce_time _ _ f) as [hash f'].
  cbn [fst snd] in *. subst hash. split; [done|]. unfold meets.
  rewrite meets_value, Z.leb_le by (by apply header_hash_len || by rewrite to_le_bytes_zlen). done.
Qed.
(** The first nonce of the batch that meets the target is found. *)
Lemma search_first h t start n : header_wf h → ∀ i f found f',
  prepared h f → search start (bh_time h) (to_le_bytes 32 t) n i f = (found, f') →
  prepared h f' ∧
  match found with
  | Some nonce => ∃ j, i ≤ j < i + Z.of_nat n ∧ nonce = wrap 32 (start + j) ∧ meets h t nonce ∧
      ∀ k, i ≤ k < j → ¬ meets h t (wrap 32 (start + k))
  | None => ∀ k, i ≤ k < i + Z.of_nat n → ¬ meets h t (wrap 32 (start + k))
  end.
Proof.
  intros Hw. induction n as [|n IH]; intros i f found f' Hp E; cbn [search] in E.
  { injection E as <- <-. split; [done|]. intros; lia. }
  pose proof (try_nonce h t (wrap 32 (start + i)) f Hw Hp) as T.
  destruct (hash_with_nonce_time _ _ f) as [hash f1]. destruct T as [Hp1 T].
  destruct (hash_meets_target_le hash _).
  { injection E as <- <-. split; [done|]. exists i. split_and!; [lia|lia|done|by apply T|intros; lia]. }
  assert (Hn : ¬ meets h t (wrap 32 (start + i))) by (intros M; by apply T in M).
  destruct (IH (i + 1) f1 found f' Hp1 E) as [Hp' R]. split; [done|].
  assert (step : ∀ k, i ≤ k → k = i ∨ i + 1 ≤ k) by (intros; lia).
  destruct found as [nonce|].
  - destruct R as (j & Hj & -> & Hm & Hmin). exists j. split_and!; [lia|lia|done|done|].
    intros k Hk. destruct (step k) as [->|?]; [lia|done|apply Hmin; lia].
  - intros k Hk. destruct (step k) as [->|?]; [lia|done|apply R; lia].
Qed.

(** ** The miner's work *)

Definition job_header (job : NewMiningJob) (p : SetNewPrevHashMp) (time nonce : Z) : BlockHeader :=
  mkBlockHeader (mj_version job) (ph_prev_hash p) (mj_merkle_root job) time (ph_nbits p) nonce.
(** The miner works on a job and block, and its hasher is prepared for them. *)
Definition works_on (job : NewMiningJob) (p : SetNewPrevHashMp) (m : Miner) : Prop :=
  m_job_id m = Some (mj_job_id job) ∧ m_version m = Some (mj_version job) ∧
  ∃ time nonce f, header m = Some (job_header job p time nonce) ∧ fast_hasher m = Some f ∧ fits 32 nonce ∧ fits 32 time ∧
    header_wf (job_header job p time nonce) ∧ prepared (job_header job p time nonce) f.
Lemma works_set_nonce job p m nonce : fits 32 nonce → works_on job p m → works_on job p (set_nonce nonce m).
Proof.
  intros Hn (Hj & Hv & time & nonce' & f & Hh & Hf & _ & Ht & Hw & Hp). split_and!; [done..|].
  exists time, nonce, f. split_and!; [|done..|by apply (prepared_at _ _ nonce time Hw)]. unfold set_nonce. cbn [header]. by rewrite Hh.
Qed.
Lemma works_new {E} now job p m m' : new_header (E := E) now p job m = Ok m' → works_on job p m' ∧ target m' = target m.
Proof.
  unfold new_header. destruct (_ || _) eqn:Hc; [done|]. apply orb_false_iff in Hc as [Hc _]. apply orb_false_iff in Hc as [H1' H2'].
  apply negb_false_iff, Z.eqb_eq in H1'. apply negb_false_iff, Z.eqb_eq in H2'.
  set (h := mkBlockHeader _ _ _ _ _ 0).
  destruct (prepared_new (E := E) h ltac:(done)) as (f & -> & Hp). intros [= <-]. split; [|done].
  split_and!; [done..|]. exists (wrap 32 (now + 60)), 0, f. split_and!; try done; try (unfold fits; lia). by apply wrap_fits.
Qed.
(** A turn keeps the work, and a share is a header that meets the target. *)
Lemma works_turn {E} job p batch m share m' t :
  works_on job p m → target m = Some t → mine_turn (E := E) batch m = Ok (share, m') →
  works_on job p m' ∧ target m' = Some t ∧
  ∀ nonce id version time, share = Some (nonce, id, version, time) →
    id = mj_job_id job ∧ version = mj_version job ∧ fits 32 nonce ∧ fits 32 time ∧
    from_le_bytes (block_hash (job_header job p time nonce)) ≤ from_le_bytes (to_le_bytes 32 t).
Proof.
  intros (Hj & Hv & time & nonce & f & Hh & Hf & Hn & Ht & Hw & Hp) Htg E1. unfold mine_turn in E1. rewrite Hf, Htg, Hh in E1.
  unfold batch_turn in E1. cbn [bh_nonce bh_time job_header] in E1.
  destruct (search _ _ _ _ _ _) as [found f'] eqn:Es.
  destruct (search_first (job_header job p time nonce) t nonce (Z.to_nat batch) Hw 0 f found f' Hp Es) as [Hp' Hfound].
  assert (Hwork : works_on job p (set_nonce (wrap 32 (nonce + batch)) (set_fast f' m))).
  { apply works_set_nonce; [by apply wrap_fits|]. split_and!; [done..|]. by exists time, nonce, f'. }
  destruct found as [n|]; unfold share_of in E1; cbn [set_fast m_job_id m_version] in E1.
  - rewrite Hj, Hv in E1. cbn [unwrap mbind result_bind] in E1. injection E1 as <- <-. split_and!; [done..|].
    intros ? ? ? ? [= <- <- <- <-]. destruct Hfound as (j & _ & -> & Hm & _). split_and!; try done. by apply wrap_fits.
  - cbn [mbind result_bind] in E1. injection E1 as <- <-. split_and!; [done..|]. by intros.
Qed.

(** ** Runs of the device *)

(** A message at a time of the clock with a number of workers, or a batch of a
    worker. *)
Inductive DevEvent : Type :=
  | Got (now p : Z) (m : UpMessage)
  | Work (batch : Z) (i : nat).
Definition dev_step (chk : bool) (e : DevEvent) : ST Device DeviceError unit :=
  match e with
  | Got now p m => device_turn now p m
  | Work batch i => worker_turn chk batch i
  end.
Fixpoint dev_run (chk : bool) (l : list DevEvent) (d : Device) : option Device :=
  match l with
  | [] => Some d
  | e :: l => match dev_step chk e d with (Ok _, d) => dev_run chk l d | _ => None end
  end.
Definition received (l : list DevEvent) : list UpMessage := omap (λ e, match e with Got _ _ m => Some m | Work _ _ => None end) l.

(** A target, a job and a block the pool gave. *)
Definition given_target (rec : list UpMessage) (t : Z) : Prop :=
  ∃ tb, from_le_bytes tb = t ∧
    ((∃ c, UReply (SetTarget c tb) ∈ rec) ∨ ∃ r c x g, UReply (OpenStandardMiningChannelSuccess r c tb x g) ∈ rec).
Definition given_work (rec : list UpMessage) (job : NewMiningJob) (p : SetNewPrevHashMp) : Prop :=
  UReply (ReplyNewMiningJob job) ∈ rec ∧ UReply (ReplySetNewPrevHash p) ∈ rec ∧
  (is_future job = true → ph_job_id p = mj_job_id job).
Definition given_share (rec : list UpMessage) (s : SubmitSharesStandard) : Prop :=
  ∃ job p t, given_work rec job p ∧ given_target rec t ∧ ss_job_id s = mj_job_id job ∧ ss_version s = mj_version job ∧
    header_wf (job_header job p (ss_ntime s) (ss_nonce s)) ∧ fits 32 (ss_nonce s) ∧ fits 32 (ss_ntime s) ∧
    from_le_bytes (block_hash (job_header job p (ss_ntime s) (ss_nonce s))) ≤ t.
Definition miner_ok (rec : list UpMessage) (m : Miner) : Prop :=
  (∀ t, target m = Some t → given_target rec t) ∧
  (header m = None ∧ fast_hasher m = None ∨ ∃ job p, given_work rec job p ∧ works_on job p m).
Record device_ok (rec : list UpMessage) (d : Device) : Prop := mkDeviceOk {
  ok_miner : miner_ok rec (miner d);
  ok_jobs : ∀ j, j ∈ jobs d → UReply (ReplyNewMiningJob j) ∈ rec;
  ok_prev : ∀ p, prev_hash d = Some p → UReply (ReplySetNewPrevHash p) ∈ rec;
  ok_workers : ∀ w, w ∈ workers d → miner_ok rec w;
  ok_sent : ∀ s, s ∈ sent d → given_share rec s }.

Lemma given_target_mono rec rec' t : rec ⊆ rec' → given_target rec t → given_target rec' t.
Proof. intros Hs (tb & E & [(c & Hc)|(r & c & x & g & Hc)]); exists tb; (split; [done|]); [left|right]; eauto 10. Qed.
Lemma given_work_mono rec rec' job p : rec ⊆ rec' → given_work rec job p → given_work rec' job p.
Proof. intros Hs (Hj & Hp & Hf). split_and!; auto. Qed.
Lemma given_share_mono rec rec' s : rec ⊆ rec' → given_share rec s → given_share rec' s.
Proof. intros Hs (job & p & t & Hw & Ht & Hr). exists job, p, t. eauto using given_work_mono, given_target_mono. Qed.
Lemma miner_ok_mono rec rec' m : rec ⊆ rec' → miner_ok rec m → miner_ok rec' m.
Proof.
  intros Hs (Ht & Hh). split; [eauto using given_target_mono|].
  destruct Hh as [?|(job & p & Hw & Hm)]; [by left|right]. exists job, p. eauto using given_work_mono.
Qed.
Lemma device_ok_mono rec rec' d : rec ⊆ rec' → device_ok rec d → device_ok rec' d.
Proof. intros Hs []. split; eauto using miner_ok_mono, given_share_mono. Qed.

Lemma miner_ok_target rec m tb : miner_ok rec m → given_target rec (from_le_bytes tb) → miner_ok rec (new_target tb m).
Proof. intros (Ht & Hh) Hg. split; [by intros t [= <-]|done]. Qed.
Lemma miner_ok_nonce rec m nonce : fits 32 nonce → miner_ok rec m → miner_ok rec (set_nonce nonce m).
Proof.
  intros Hn (Ht & Hh). split; [done|]. destruct Hh as [[Hh Hf]|(job & p & Hw & Hm)]; [left|right].
  - unfold set_nonce. cbn [header fast_hasher]. by rewrite Hh, Hf.
  - exists job, p. split; [done|]. by apply works_set_nonce.
Qed.
Lemma miner_ok_header {E} rec now job p m m' :
  new_header (E := E) now p job m = Ok m' → given_work rec job p → miner_ok rec m → miner_ok rec m'.
Proof.
  intros Hh Hw (Ht & _). destruct (works_new now job p m m' Hh) as [Hm Et]. split; [by rewrite Et|right]. by exists job, p.
Qed.
Lemma start_workers_ok rec p m w : 1 ≤ p < 2 ^ 32 → miner_ok rec m → w ∈ start_workers p m → miner_ok rec w.
Proof.
  intros Hp Hm Hw. unfold start_workers in Hw. apply list_elem_of_fmap in Hw as (i & -> & Hi).
  apply elem_of_seq in Hi. apply miner_ok_nonce; [|done].
  assert (Hu : p * ((2 ^ 32 - 1) / p) ≤ 2 ^ 32 - 1) by (apply Z.mul_div_le; lia).
  pose proof (Z.div_pos (2 ^ 32 - 1) p). unfold fits. nia.
Qed.

Lemma target_le t : 0 ≤ t → from_le_bytes (to_le_bytes 32 t) ≤ t.
Proof.
  intros Ht. unfold from_le_bytes, to_le_bytes. rewrite le_combine_split. apply Z.mod_le; [done|lia].
Qed.
Lemma given_target_pos rec t : given_target rec t → 0 ≤ t.
Proof. intros (tb & <- & _). apply from_le_bytes_fits. Qed.
(** Without a target the hasher runs on, but nothing is found. *)
Lemma slow_turn_ok {E} rec m share m' :
  target m = None → miner_ok rec m → slow_turn (E := E) m = Ok (share, m') → share = None ∧ miner_ok rec m'.
Proof.
  intros Hn (_ & [[Hh Hf]|(job & p & Hg & Hj & Hv & time & nonce & f & Hh & Hf & Hfn & Hft & Hw & Hp)]) Es;
    unfold slow_turn, next_share in Es; rewrite Hh in Es.
  { cbn [is_valid mbind result_bind] in Es. injection Es as <- <-. rewrite Hh. split; [done|]. split; [cbn; by rewrite Hn|by left]. }
  rewrite Hf in Es. destruct (prepared_hash _ f nonce time Hw Hp) as [_ Hp'].
  cbn [bh_nonce bh_time job_header] in Es. destruct (hash_with_nonce_time nonce time f) as [hash f']. cbn [target set_fast] in Es.
  rewrite Hn in Es. cbn [is_valid mbind result_bind header set_fast] in Es. injection Es as <- <-. split; [done|].
  split; [cbn; by rewrite ?Hn|right]. exists job, p. split; [done|]. split_and!; [done..|].
  exists time, (wrap 32 (nonce + 1)), f'. cbn [header fast_hasher set_fast]. rewrite Hh.
  split_and!; try done; [by apply wrap_fits|by apply (prepared_at (job_header job p time nonce))].
Qed.
Lemma mine_turn_ok {E} rec batch m share m' :
  miner_ok rec m → mine_turn (E := E) batch m = Ok (share, m') →
  miner_ok rec m' ∧ ∀ c seq nonce id version time, share = Some (nonce, id, version, time) →
    given_share rec (mkSubmitStandard c seq id nonce time version).
Proof.
  intros Hm Es. destruct (target m) as [t|] eqn:Ht.
  2: { unfold mine_turn in Es. rewrite Ht in Es.
       destruct (slow_turn_ok (E := E) rec m share m' Ht Hm) as [-> ?]; [by destruct (fast_hasher m)|by split]. }
  destruct Hm as (Hg & [[Hh Hf]|(job & p & Hw & Hj)]).
  - unfold mine_turn in Es. rewrite Hf in Es. unfold slow_turn, next_share in Es. rewrite Hh in Es.
    cbn [is_valid mbind result_bind] in Es. injection Es as <- <-. split; [|by intros]. split; [done|left]. by rewrite Hh.
  - destruct (works_turn (E := E) job p batch m share m' t Hj Ht Es) as (Hj' & Ht' & Hs). split.
    { split; [|right; by exists job, p]. rewrite Ht'. intros ? [= <-]. by apply Hg. }
    intros c seq nonce id version time ->. destruct (Hs nonce id version time eq_refl) as (-> & -> & Hn & Hti & Hle).
    exists job, p, t. pose proof (given_target_pos rec t (Hg t Ht)). pose proof (target_le t ltac:(done)).
    destruct Hj as (_ & _ & time' & nonce' & f & _ & _ & _ & _ & Hwf & _).
    cbn [ss_job_id ss_version ss_nonce ss_ntime]. split_and!; try done; [by apply Hg|lia].
Qed.

Lemma worker_turn_ok chk rec batch i d d' : device_ok rec d → worker_turn chk batch i d = (Ok tt, d') → device_ok rec d'.
Proof.
  intros Hd Es. unfold worker_turn in Es. destruct (workers d !! i) as [w|] eqn:Hw; [|by injection Es as <-].
  pose proof (ok_workers _ _ Hd w (list_elem_of_lookup_2 _ _ _ Hw)) as Hok.
  destruct (mine_turn batch w) as [[share w']| |] eqn:Em; [|done..].
  destruct (mine_turn_ok rec batch w share w' Hok Em) as [Hw' Hs].
  set (d1 := set_workers (<[i:=w']> (workers d)) d) in *.
  assert (H1' : device_ok rec d1).
  { destruct Hd. split; try done. intros x Hx. cbn in Hx. apply list_elem_of_lookup_1 in Hx as (k & Hk).
    destruct (decide (k = i)) as [->|Hne]; [|rewrite list_lookup_insert_ne in Hk by done; eauto using list_elem_of_lookup_2].
    rewrite list_lookup_insert_eq in Hk by (by apply lookup_lt_Some in Hw). by injection Hk as <-. }
  destruct share as [[[[nonce id] version] time]|]; [|by injection Es as <-].
  unfold send_share in Es. destruct (channel_id d1) as [c|]; [|done]. destruct (Id_next _ _) as [[seq| |] next]; [|done..].
  injection Es as <-. destruct H1'. split; try done.
  intros x Hx. cbn [sent add_sent] in Hx. apply elem_of_app in Hx as [Hx|Hx]; [by apply ok_sent0|].
  apply list_elem_of_singleton in Hx as ->. by apply Hs.
Qed.

Lemma set_work_ok rec m js p notify d :
  device_ok rec d → miner_ok rec m → (∀ j, j ∈ js → UReply (ReplyNewMiningJob j) ∈ rec) →
  (∀ q, p = Some q → UReply (ReplySetNewPrevHash q) ∈ rec) → device_ok rec (set_work m js p notify d).
Proof. intros [] Hm Hj Hp. by split. Qed.
Lemma handler_ok rec now m d d' :
  device_ok rec d → m ∈ rec → admitted Standard false m = true → device_handle now m d = (Ok tt, d') → device_ok rec d'.
Proof.
  intros Hd Hin Ha Es. pose proof Hd as [Hm Hj Hp Hw Hs].
  assert (Htg : ∀ d tb, device_ok rec d → given_target rec (from_le_bytes tb) →
    device_ok rec (set_work (new_target tb (miner d)) (jobs d) (prev_hash d) true d)).
  { clear. intros d tb Hd Hg. pose proof Hd as []. apply set_work_ok; auto. by apply miner_ok_target. }
  destruct m as [[]| | | |]; cbn [device_handle] in Es; try done.
  - unfold mbind, ST_bind, modify, set_miner_target, modify in Es. injection Es as <-.
    apply (Htg (set_channel channel_id0 d)); [by split|]. exists target0. split; [done|]. right. eauto 10.
  - unfold set_miner_target, modify in Es. injection Es as <-. apply Htg; [done|]. exists maximum_target. split; [done|]. left. eauto.
  - by injection Es as <-.
  - by injection Es as <-.
  - unfold handle_new_mining_job in Es. destruct (is_future m) eqn:Hf.
    + injection Es as <-. apply set_work_ok; auto. intros j [Hi| ->%list_elem_of_singleton]%elem_of_app; auto.
    + destruct (prev_hash d) as [q|] eqn:Hq; [|done]. unfold on_miner in Es.
      destruct (new_header now q m (miner d)) as [m'| |] eqn:En; [|done..]. injection Es as <-.
      apply set_work_ok; auto; [|by intros j ->%list_elem_of_singleton].
      eapply miner_ok_header; [done| |done]. split_and!; [done|by apply Hp|by rewrite Hf].
  - unfold handle_set_new_prev_hash in Es. destruct (List.filter _ _) as [|j [|]] eqn:Ef; [| |done].
    + injection Es as <-. apply set_work_ok; auto. by intros q [= <-].
    + unfold on_miner in Es. destruct (new_header now m j (miner d)) as [m'| |] eqn:En; [|done..]. injection Es as <-.
      assert (Hjf : In j (List.filter (λ j, (mj_job_id j =? ph_job_id m) && is_future j) (jobs d))) by (rewrite Ef; by left).
      apply List.filter_In in Hjf as [Hji Hjb]. apply andb_true_iff in Hjb as [Hid%Z.eqb_eq _]. apply list_elem_of_In in Hji.
      apply set_work_ok; auto; [|by intros x ->%list_elem_of_singleton; auto|by intros q [= <-]].
      eapply miner_ok_header; [done| |done]. split_and!; auto.
Qed.
Lemma dev_step_ok chk rec e d d' :
  (∀ now p m, e = Got now p m → 1 ≤ p < 2 ^ 32) → device_ok rec d → dev_step chk e d = (Ok tt, d') → device_ok (rec ++ received [e]) d'.
Proof.
  intros Hp Hd Es. destruct e as [now p m|batch i]; cbn [received omap list_omap].
  2: { rewrite app_nil_r. by apply (worker_turn_ok chk rec batch i d). }
  specialize (Hp now p m eq_refl). assert (Hd' : device_ok (rec ++ [m]) d) by (apply (device_ok_mono rec); [set_solver|done]).
  cbn [dev_step] in Es. unfold device_turn in Es. apply st_bind_Ok in Es as ([] & d1 & E1 & E2).
  unfold handle_message_mining in E1. destruct (admitted Standard false m) eqn:Ha; [|done].
  destruct (device_handle now m d) as [[[]| |] d2] eqn:Eh; [|done..]. injection E1 as <-.
  pose proof (handler_ok (rec ++ [m]) now m d d2 Hd' ltac:(set_solver) Ha Eh) as H2'.
  unfold modify in E2. injection E2 as <-. destruct (_ && _); [|done].
  pose proof H2' as []. split; try done. intros w Hw. by apply (start_workers_ok (rec ++ [m]) p (miner d2)).
Qed.
Lemma dev_run_ok chk l : ∀ rec d d',
  (∀ now p m, Got now p m ∈ l → 1 ≤ p < 2 ^ 32) → device_ok rec d → dev_run chk l d = Some d' → device_ok (rec ++ received l) d'.
Proof.
  induction l as [|e l IH]; intros rec d d' Hp Hd Es; cbn [dev_run] in Es.
  { injection Es as <-. cbn. by rewrite app_nil_r. }
  destruct (dev_step chk e d) as [[[]| |] d1] eqn:E1; [|done..].
  pose proof (dev_step_ok chk rec e d d1 ltac:(intros now q m ->; apply (Hp now q m); by apply list_elem_of_here) Hd E1) as H1'.
  assert (received (e :: l) = received [e] ++ received l) as -> by (by destruct e). rewrite app_assoc.
  eapply IH; [|exact H1'|done]. intros now q m Hq. apply (Hp now q m). by apply list_elem_of_further.
Qed.
Lemma dev_new_ok handicap : device_ok [] (Device_new handicap).
Proof. split; try (by intros; set_solver). split; [done|by left]. Qed.

(** ** The pool's answer *)

(** What a channel with a share's job and block answers, by the hash of the header. *)
Definition pool_answer (c : StandardChannel) (j : StandardJob) (nbits : Z) (hash : bytes)
    (r : result ShareValidationError ShareValidationResult) : Prop :=
  if is_met_by nbits hash then
    ∀ tag, op_pushbytes_pool_miner_tag (sc_job_factory c) = Ok tag →
      r = Ok (BlockFound hash (Some (nt_template_id (sj_template j))) (tx_serialize (Standard.block_coinbase j tag)))
  else if bool_decide (hash ∈ seen_shares (sc_share_accounting c)) then r = Err DuplicateShare
  else accepted hash r.
(** The pool's channel has the job and the tip, and a target that is no harder. *)
Lemma pool_answers (c : StandardChannel) (s : SubmitSharesStandard) (j : StandardJob) (tip : ChainTip) job p t tb :
  find_job (ss_job_id s) (sc_job_store c) = Ok j → mj_merkle_root (sj_job_message j) = mj_merkle_root job →
  sc_chain_tip c = Some tip → ct_prev_hash tip = ph_prev_hash p → ct_nbits tip = ph_nbits p →
  sc_target c = Target_from_bytes tb → zlen tb = 32 → t ≤ from_le_bytes tb → ss_version s = mj_version job →
  let hash := block_hash (job_header job p (ss_ntime s) (ss_nonce s)) in
  zlen hash = 32 → from_le_bytes hash ≤ t →
  wrap 32 (Channels.share_batch_size (sc_share_accounting c)) ≠ 0 →
  pool_answer c j (ct_nbits tip) hash (Standard.validate_share false s c).1.
Proof.
  intros Hj Hr Ht Hp Hb Hc Htb Hle Hv hash Hl Hm Hz. rewrite std_validate_eq, Hj, Ht. cbn zeta.
  unfold share_header. rewrite Hr, Hp, Hb, Hv. fold (job_header job p (ss_ntime s) (ss_nonce s)). fold hash.
  unfold pool_answer. rewrite <- Hb. destruct (is_met_by _ hash).
  - intros tag ->. by destruct (account_cases (E := ShareValidationError) false (sc_target c) (ss_sequence_number s) hash
      (sc_share_accounting c)) as [E|(a & -> & _)].
  - pose proof (accept_share_answerable false (sc_target c) (ss_sequence_number s) hash _ Hz) as Ha.
    destruct (accept_share _ _ _ hash _) as [r a] eqn:E. cbn [fst] in *.
    eapply accept_share_judged; [exact E|by intros ->|]. rewrite Hc. unfold Target_le. rewrite Target_cmp_value by done.
    destruct (Z.compare_spec (from_le_bytes hash) (from_le_bytes tb)); [done|done|lia].
Qed.
End device.

(** C10: Every share the device sends is work of the pool's: with at least one
    worker and fewer than 2^32, it is on a job and a block the pool gave it (the
    block that activates the job, when the job was for a future block), with a
    header that meets a target the pool gave it, whatever messages arrive and
    whichever workers run in between.  A pool channel that has the job and the
    block, a target no harder than that one and a batch size that is not zero
    modulo 2^32 answers it, with arithmetic that wraps: as a block when it solves
    the block (if the coinbase tag can be made), as a duplicate when the channel
    has seen the header before, and otherwise by accepting it. *)
Theorem device_share_accepted `{Bitcoin} `{Sha256} `{!Sha256Laws} (chk : bool) (handicap : Z) (l : list DevEvent) (d : Device)
    (s : SubmitSharesStandard) :
  (∀ now p m, Got now p m ∈ l → 1 ≤ p < 2 ^ 32) →
  dev_run chk l (Device_new handicap) = Some d → s ∈ sent d →
  ∃ job p t, given_work (received l) job p ∧ given_target (received l) t ∧ ss_job_id s = mj_job_id job ∧
    let hash := block_hash (job_header job p (ss_ntime s) (ss_nonce s)) in
    from_le_bytes hash ≤ t ∧
    ∀ c j tip tb, find_job (mj_job_id job) (sc_job_store c) = Ok j → mj_merkle_root (sj_job_message j) = mj_merkle_root job →
      sc_chain_tip c = Some tip → ct_prev_hash tip = ph_prev_hash p → ct_nbits tip = ph_nbits p →
      sc_target c = Target_from_bytes tb → zlen tb = 32 → t ≤ from_le_bytes tb →
      wrap 32 (Channels.share_batch_size (sc_share_accounting c)) ≠ 0 →
      pool_answer c j (ct_nbits tip) hash (Standard.validate_share false s c).1.
Proof.
  intros Hp Hrun Hs. pose proof (dev_run_ok chk l [] _ d Hp (dev_new_ok handicap) Hrun) as Hok. cbn [app] in Hok.
  destruct (ok_sent _ _ Hok s Hs) as (job & p & t & Hw & Ht & Hid & Hv & Hwf & _ & _ & Hle).
  exists job, p, t. split_and!; [done..|]. cbn zeta. split; [done|]. intros c j tip tb Hj. intros. rewrite <- Hid in Hj.
  eapply (pool_answers c s j tip job p t tb); try done. by apply header_hash_len.
Qed.

(** The nonces are divided into parts that do not overlap and leave out fewer
    than there are workers, plus one. *)
Theorem workers_disjoint (p : Z) (m : Miner) (i k : nat) (h : BlockHeader) :
  1 ≤ p < 2 ^ 32 → header m = Some h → Z.of_nat i < p → Z.of_nat k < p → (i < k)%nat →
  let unit := (2 ^ 32 - 1) / p in
  ∃ w w' h1 h2, start_workers p m !! i = Some w ∧ start_workers p m !! k = Some w' ∧ header w = Some h1 ∧ header w' = Some h2 ∧
    bh_nonce h1 + unit ≤ bh_nonce h2 ∧ bh_nonce h2 + unit < 2 ^ 32 ∧ 2 ^ 32 - p * unit ≤ p.
Proof.
  intros Hp Hh Hi Hk Hik unit. assert (Hu : p * unit ≤ 2 ^ 32 - 1) by (apply Z.mul_div_le; lia).
  assert (Hu' : 2 ^ 32 - 1 < p * unit + p).
  { pose proof (Z.mod_pos_bound (2 ^ 32 - 1) p). pose proof (Z.div_mod (2 ^ 32 - 1) p). unfold unit. lia. }
  pose proof (Z.div_pos (2 ^ 32 - 1) p). fold unit in H.
  unfold start_workers. fold unit. rewrite !list_lookup_fmap, !lookup_seq_lt by lia. cbn [fmap option_fmap option_map].
  unfold set_nonce. rewrite Hh. eexists _, _, _, _. split_and!; [reflexivity..| | |]; cbn [at_nonce_time bh_nonce]; nia.
Qed.

(** A batch ends at its first share: what else in it meets the target is never
    tried, as the next batch starts after this one. *)
Theorem batch_skips_shares `{Bitcoin} `{Sha256} `{!Sha256Laws} (job : NewMiningJob) (p : SetNewPrevHashMp) (batch t i k : Z) (m m' : Miner)
    (h : BlockHeader) (share : option (Z * Z * Z * Z)) :
  works_on job p m → target m = Some t → header m = Some h → 0 ≤ i < k → k < batch →
  meets h t (wrap 32 (bh_nonce h + i)) → meets h t (wrap 32 (bh_nonce h + k)) →
  mine_turn (E := DeviceError) batch m = Ok (share, m') →
  ∃ j id v, share = Some (wrap 32 (bh_nonce h + j), id, v, bh_time h) ∧ 0 ≤ j ≤ i ∧
    bh_nonce <$> header m' = Some (wrap 32 (bh_nonce h + batch)).
Proof.
  intros (Hj & Hv & time & nonce & f & Hh & Hf & Hn & Ht & Hw & Hp) Htg Hh' Hi Hk Mi Mk E1.
  rewrite Hh in Hh'. injection Hh' as <-. unfold mine_turn in E1. rewrite Hf, Htg, Hh in E1.
  unfold batch_turn in E1. cbn [bh_nonce bh_time job_header] in *.
  destruct (search _ _ _ _ _ _) as [found f'] eqn:Es.
  destruct (search_first (job_header job p time nonce) t nonce (Z.to_nat batch) Hw 0 f found f' Hp Es) as [Hp' Hfound].
  destruct found as [n|]; [|exfalso; apply (Hfound i); [lia|done]].
  destruct Hfound as (j & Hj' & -> & Hm & Hmin). unfold share_of in E1. cbn [set_fast m_job_id m_version] in E1.
  rewrite Hj, Hv in E1. cbn [unwrap mbind result_bind] in E1. injection E1 as <- <-.
  eexists j, _, _. split_and!; [done|lia| |unfold set_nonce; cbn; by rewrite Hh].
  destruct (Z.le_gt_cases j i); [done|]. exfalso. by apply (Hmin i); [lia|].
Qed.

(** ** An example *)

Module DeviceSample.
#[local] Existing Instance Fips.fips.
#[local] Existing Instance Fips.fips_laws.
#[local] Instance sample_chain : Bitcoin := Fips.chain model_bitcoin.
Definition job : NewMiningJob := mkNewMiningJob 1 4 None 0x20000000 (to_le_bytes 32 77).
Definition tip : SetNewPrevHashMp := mkPrevHashMp 1 4 (to_le_bytes 32 99) 1700000000 0x1d00ffff.
Definition easy : bytes := to_le_bytes 32 (2 ^ 255).
Definition events : list DevEvent :=
  [Got 1700000000 2 (UReply (OpenStandardMiningChannelSuccess 10 1 easy [] 0));
   Got 1700000000 2 (UReply (ReplyNewMiningJob job)); Got 1700000001 2 (UReply (ReplySetNewPrevHash tip)); Work 4 0; Work 4 1].
Definition after : Device := default (Device_new 0) (dev_run true events (Device_new 0)).
Definition first_share : SubmitSharesStandard := hd (mkSubmitStandard 0 0 0 0 0 0) (sent after).
Lemma device_share_accepted_witness :
  length (sent after) = 2%nat ∧
  ∃ job p t, given_work (received events) job p ∧ given_target (received events) t ∧ ss_job_id first_share = mj_job_id job ∧
    let hash := block_hash (job_header job p (ss_ntime first_share) (ss_nonce first_share)) in
    from_le_bytes hash ≤ t ∧
    ∀ c j tip tb, find_job (mj_job_id job) (sc_job_store c) = Ok j → mj_merkle_root (sj_job_message j) = mj_merkle_root job →
      sc_chain_tip c = Some tip → ct_prev_hash tip = ph_prev_hash p → ct_nbits tip = ph_nbits p →
      sc_target c = Target_from_bytes tb → zlen tb = 32 → t ≤ from_le_bytes tb →
      wrap 32 (Channels.share_batch_size (sc_share_accounting c)) ≠ 0 →
      pool_answer c j (ct_nbits tip) hash (Standard.validate_share false first_share c).1.
Proof.
  split; [by vm_compute|].
  apply (device_share_accepted true 0 events after first_share).
  - intros now p m Hin. repeat (apply elem_of_cons in Hin as [[= _ -> _]|Hin]; [lia|]). repeat (apply elem_of_cons in Hin as [?|Hin]; [done|]).
    by apply elem_of_nil in Hin.
  - vm_compute. reflexivity.
  - vm_compute. constructor.
Defined.
End DeviceSample.
